(* ===== verification/_CoqProject ===== *)
-Q . S2P
Prelude.v
GameDef.v
Betting.v
BettingSpec.v
BettingInv.v
BettingStep.v
BettingKeep.v
BettingInit.v
BettingThm.v
BettingCards.v
Rng.v
Deal.v
StateEq.v
EvalTables.v
Eval.v
EvalOrder.v
Value.v
ValueThm.v
HandValue.v
Text.v
Print.v
Read.v
RoundTrip.v
ReadSafe.v
GameFile.v
GameFileThm.v
HashTable.v
HashTableInv.v
HashTableRep.v
HashTableIter.v
RunGameMap.v
ClientMap.v
TemplateMaps.v
CtHaspMap.v
SBotEval.v
SBotEvalThm.v
SBotEvalOrder.v
SBotEvalSmall.v
SBotCards.v
Highlight.v
HighlightThm.v
HighlightHand.v
HighlightSpec.v
ShmPipe.v
FrameBuffer.v
BotGame.v
TypicalCards.v
Canon.v
CanonCode.v
PrivateCards.v
Groups.v
RawCards.v
Boards.v
BoardCount.v
CardTree.v
CardTreeThm.v
Reader.v
HandTree.v
HandTreeThm.v
Robot.v
RobotThm.v
Double.v
Select.v
SelectThm.v
BettingTree.v
MatchConv.v
InfoText.v
ParamHandle.v
SessionData.v
Session.v
SessionThm.v
SessionEnd.v
RobotImpl.v
Handlers.v
HandlersThm.v
ActionTree.v
ActionTreeThm.v
CfrValues.v
CfrValuesThm.v
DataModule.v
