(* ===== verification/Prelude.v ===== *)
(** * A verification of the poker engine, its hand evaluators and its tables

    The repository is a heads-up poker server.  Its parts, and the files that
    model them:

    - The game engine, [src/Common/acpc] (C).  [game.c] keeps a hand of poker:
      the rules and the state ([Game], [State], [MatchState] of [game.h]), who
      acts, which actions are valid, what an action does, dealing, the value of a
      finished hand, comparing states, and the text formats for states, match
      states and game definitions.  [rng.c] is the Mersenne twister that shuffles;
      [evalHandTables] is a hand evaluator made of lookup tables.
    - The game server, [src/APGIServer] (C++).  It keeps one running game per
      robot and one record per connection in hash tables of its own; clients tell it
      what happens at their tables, and it asks a strategy server what the robot does.
    - The hash map templates of [src/Common/shstd].
    - The bot, [src/Common/SBotInterface] (C++): a hand evaluator of its own, numbers
      for hands up to a renaming of the suits, the key under which a strategy is looked
      up, and the choice of an action from a strategy.
    - The framework, [src/Common/frame] (C++): threads and events over the operating
      system, and two data structures that carry messages, a pipe in shared memory
      and a growing buffer.

    ** How the code is translated

    A function of the code is a function of the model with the same name.  It
    returns in the monad [res] of this file: [Ok] of its result and of every
    object it writes through a pointer, or a fault.  A fault is an assertion that
    fails, an exit, an access outside an array, a signed overflow or a division by
    zero, so that [f x = Ok y] says that the code returns and that its behaviour is
    defined.  Arrays are lists of the declared length ([rd], [wr]); integers are
    [Z], with the wrap-around of their width written out ([u8], [u16], [u32], [u64],
    [i32]); strings are lists of bytes with their terminator; [double] is an
    interface.  Loops [for( i = lo; i < hi; ++i )] are [for_], and [forR] when their
    body returns or breaks; the loops whose length is not known in advance have
    fuel, named below.  Messages to [stderr], logs and locks are left out; texts that are
    written to buffers of fixed size before they are logged are not.

    ** The engine

    - [GameDef]: the structures of [game.h], one record field per C field.
    - [Betting]: queries, [isValidAction], [initState], [doAction].
      [BettingSpec]: pure counterparts of the queries.  [BettingInv]: what a
      playable game is ([wf_game]) and the invariant [inv] of a hand.
      [BettingStep], [BettingKeep], [BettingInit]: [initState] establishes it and
      every accepted action keeps it.  [BettingThm]: the theorems about every state
      reachable by accepted actions (C1 to C8).  No fault can occur; rounds end
      with the bets matched; hands end, whatever is asked for, and can always be brought
      to an end; turn order, chips, legal raises; [doAction] refines a loop-free transition; and
      defects at the edges of [wf_game].  The loop of [nextPlayer]
      counts its rounds; its fuel is the number of rounds the count lets through.
    - [Rng]: MT19937 and the class [RandomSource] of generators; the block-wise
      code follows the recurrence (C13).  [Deal]: dealing over any generator; the
      deal is a partition of the deck, and every deal has exactly one sequence of
      choices (C9, [every_deal_one_choice]).
    - [StateEq]: the comparisons decide equality of what can be seen, and of whole
      states of played hands ([equal_betting_equal_state]).
    - [EvalTables], [Eval], [EvalOrder]: the tables, entry for entry; [rankCardset]
      equals an evaluator written from the rules, [hand_of], on every set of cards,
      and its numbers order hands as the rules do (C11, C12).
    - [Value], [ValueThm], [HandValue]: the side pots of [valueOfState] over an
      interface for [double] with two instances, IEEE binary64 and exact rationals.
      In exact arithmetic the payoffs of a hand played to its end sum to zero and
      nobody loses more than he put in (C10); and a defect where chips vanish.
    - [Text], [Print], [Read], [RoundTrip], [ReadSafe]: what the code uses of
      [snprintf] and [sscanf]; every printer and reader; printing is exact or
      refused (C18), states and match states read back
      (C14, C15), a player's text
      shows only what he may see (C16), and any text at all is
      read safely (C17).
    - [GameFile], [GameFileThm]: game definition files; a game read has passed
      the reader's checks (C20), printed games read back (C19), [LogGame]
      stays in its buffers, and an overflow in the reader.  [readGame]
      has as much fuel as the file has bytes: every line takes at least one.

    ** The tables of the server

    [HashTable], [HashTableInv], [HashTableRep], [HashTableIter] hold what the four
    hash tables share: memory of nodes, the class [FreeList] of free lists with a
    stack and a queue as instances, the loops over a chain, and the invariant that
    relates a table to a finite map.  [RunGameMap] ([CRunGameHashMap]), [ClientMap]
    ([CAPGIClientHashMap]), [TemplateMaps] ([SHHaspMap]) and [CtHaspMap]
    ([CTHaspMap]) are the four classes; each refines a finite map of bounded size
    under every sequence of its operations (C21,
    [clients_refine_map], [sh_refines_map], [ct_refines_map]).  A walk over a chain has as
    much fuel as there are nodes; the invariant makes it enough.  New memory, the
    clock and the configuration are arguments; calls of the timer manager are
    recorded in order.

    ** The bot's evaluator

    [SBotEval] is [hand_evaluator.cpp], [SBotCards] the card text of [cards.cpp].
    [SBotEvalThm] shows that on five to seven cards [Evaluate] computes a number of
    the hand [hand_of] that the engine's evaluator was compared with;
    [SBotEvalOrder] that the two evaluators order hands alike (C22);
    [SBotEvalSmall] treats two to four cards.  The search for straights has
    ten rounds of fuel: its rank falls from 12 to 3.

    ** The bot's decisions

    - [BotGame]: the parameters of the bot's game and the values derived from them
      ([s_game.cpp], [param_factory.cpp], [help_functions.cpp]).
    - [TypicalCards], [Canon], [CanonCode]: cards up to a renaming of the suits
      ([typical_cards.cpp]).  The normal forms of two deals are equal exactly when a
      renaming takes one to the other.  [PrivateCards]: the numbers of hole cards are a
      bijection ([private_index_bijective]).
    - [Groups], [RawCards], [Boards], [BoardCount], [CardTree], [CardTreeThm]:
      [p_card_tree.cpp], which lists the boards street by street; it returns, lists no
      board twice, and the range of a board holds exactly its extensions
      ([board_ranges]).  [Count] and [Build] have one unit of fuel per street.
    - [Reader]: [reader.cpp], a buffered reader; what it returns are the bytes of the
      file, across all refills, short of cut values and seeks to the end (C27).  A line or string has as much
      fuel as the file has bytes.
    - [HandTree], [HandTreeThm]: [hand_value_tree.cpp]; the trees hold their files, and
      the three ways to look a value up agree (C28).
    - [Robot], [RobotThm]: [dt_robot.cpp], [cluster_hands.cpp].  Two hands have the same
      number exactly when they are the same, from the flop on up to the names of the suits
      (C25); the key of a query names the entry of that number
      in the file of clusters, and every invalid query is refused (C26).
    - [Double]: the arithmetic of [double] that the selection uses, as IEEE binary64 over
      [SpecFloat] of the Standard Library.  [Select], [SelectThm]:
      [action_idx_selector.cpp], [rule_filter.cpp], [hand_maker.cpp]; [DoAction] always
      returns an action of the node that the settings allow (C29).

    ** The game server

    - [BettingTree]: [BettingTree.cpp], the nodes of the strategy by their sequence of
      actions; a file that is loaded answers exactly the sequences of its lines
      (C30).  [SplitString] has as much fuel as the text has bytes, and one.
    - [MatchConv]: [matchstate_convertor.cpp]; the text of a hand determines it
      (C31).  [InfoText]: the query as text and back
      (C32).
    - [ParamHandle]: [param_handle.cpp], the settings of a model.  [SessionData]: the fields of
      [CRunGame], cards of the client, game definitions, models, and the class [RobotApi] of
      what a session uses of the robot with its laws [RobotOk].  [RobotImpl] proves the laws
      for [DTRobot] ([bot_ok]).
    - [Session]: [run_game.cpp].  [SetCfrModel] retries once, by a [goto]: its fuel is 1.
      [SessionThm]: a session is always in a position that the betting engine reaches
      (C33), takes exactly the legal actions that the tree lists
      (C34) and asks the robot in turn and once (C35).
      These are for player ids other than 0, bounded amounts and stacks below 10^9, which
      keep the code's fixed buffers and 32-bit sums in range.
      [SessionEnd]: the result of a hand and the scores (C36), over exact
      arithmetic for [double].  [BettingCards]: the betting does not depend on the cards, which
      a session receives after the betting has begun.
    - [Handlers]: the messages of [apg_task.cpp] and [cfr_task.cpp], over the class [GameTable]
      of tables of games with its laws [GameTableOk]; [HandlersThm] proves the laws for the
      table of [RunGameMap] ([games_table_ok]), shows that messages about one robot leave the
      others alone (C37), and that late answers change nothing
      (C38).

    ** The strategy server

    - [ActionTree]: [action_tree.cpp], [nonterminal_ids.cpp].  Nodes are shared: the objects
      are places of a store.  [Read] has one unit of fuel per byte of the file, and one; walks
      over the nodes have one per node of the store.  [ActionTreeThm]: a tree file is read
      back (C40), and walks over the store are walks over the tree.
    - [CfrValues]: [cfr_street_values.cpp], [cfr_values.cpp]; the element type of a street is
      a field.  [CfrValuesThm] follows one reading thread and then all of them, interleaved:
      a schedule names the thread of each turn, and a turn is the test for the missing arrays of
      a street, their making, or the rest of a node, which touches what belongs to one player.
      A thread needs as many turns as its walk visits nodes, and two; while one thread makes
      the arrays of a street the others of that street must not run ([undisturbed]), which the
      code does not ensure ([lost_values]).  [CfrValuesThm] also answers queries of nodes.
    - [DataModule]: [data_module.cpp], [task.cpp], the dispatch of [cfr_svr.cpp] and the
      version text of [conf.cpp]; jsoncpp and [rand()] are arguments.  Its theorem
      composes both servers: files, key, request, message, answer (C39), with
      JSON parsers that read the texts which the servers print; and shows that a key with too
      large a number of successors is accepted ([num_succ_trusted]).  The game, boards and
      clusters are those of the bot, whose sources the server repeats.

    ** Highlighting

    [Highlight] is [src/Common/acpc/src/highlight_card.cpp], which names a hand and
    marks its five cards for the display.  [HighlightThm] and [HighlightHand] follow
    its counting and sorting; [HighlightSpec] shows that what it marks is the hand
    [hand_of] of the rules (C23).

    ** Messages

    [ShmPipe] is [pipe/shm_pipe.cpp] of the framework, a ring of bytes: it refines a
    bounded queue of messages under every sequence of writes and reads as long as no
    write fills it (C24), and a full pipe is taken for an empty one.  [FrameBuffer] is
    [memory/buffer.cpp]: what is pushed is popped ([push_pop_round_trip]), and where the reader trusts
    its input.

    ** Not modelled

    - [src/Common/proto], [src/Proto]: generated by protoc.  [protobuf], [curl],
      [event], [hiredis], [iconv], [jsoncpp], [levelDb], [luajit-2.0], [pthread],
      [tinyxml], [r3c]: third-party code, headers or clients of services.
    - The rest of [src/Common/frame]; [network], [public], [util], [script], the rest of
      [shstd]: threads, sockets, timers, logs, configuration and file loading, whose
      behaviour is that of the operating system calls they wrap.
    - [src/APGIServer]: the start of the process, the dispatch of packets by their number,
      timers, the locks (a handler is one step), the configuration file, redis, and the
      messages that touch no game (log-in, keep-alive, statistics).  The table of connections
      is modelled but never filled: the calls of [Add] are commented out.
    - [src/CfrServer]: the names of the files, the configuration file, the packet queue and
      the sockets.  The strategy files are not in the repository; they are arguments.
    - The rest of [src/Common/SBotInterface]: wrappers of file and string calls.  The
      data files that the bot reads are not in the repository; they are arguments.
    - [src/train], [src/roomlogic], [src/timeoutlogic]: fragments of other programs
      whose headers are missing.
    - The interleaving of threads, but for those that read the strategy files: every other
      operation is modelled as running alone.
    - [DebugPrintf] of [run_game.cpp], a log of the state that a setting switches off. *)

From Stdlib Require Import ZArith Lia List.
From stdpp Require Import base list list_numbers numbers option sets gmap.

Open Scope Z_scope.

(** ** The fault monad

    The code can end in ways that are not a normal return: a failing [assert], a
    call of [exit], an access outside an array, a division by zero and a signed
    arithmetic overflow (the last three undefined behaviour in C).  [OutOfFuel] is
    the end of the fuel of a loop of the model.  Every modelled operation is a total
    function into [res]; a theorem that an operation returns [Ok] is a theorem that
    none of these happens. *)
Inductive fault : Set :=
  | AssertFailed
  | OutOfBounds
  | SignedOverflow
  | DivisionByZero
  | OutOfFuel
  | Exited.

Inductive res (A : Type) : Type :=
  | Ok (a : A)
  | Err (f : fault).
Arguments Ok {A} _.
Arguments Err {A} _.

#[global] Instance res_ret : MRet res := fun A a => Ok a.
#[global] Instance res_bind : MBind res := fun A B k m =>
  match m with Ok a => k a | Err f => Err f end.

#[global] Instance fault_eq_dec : EqDecision fault.
Proof. solve_decision. Defined.
#[global] Instance res_eq_dec {A} `{EqDecision A} : EqDecision (res A).
Proof. solve_decision. Defined.

(** [assert(b)] of [assert.h]. *)
Definition c_assert (b : bool) : res unit :=
  if b then Ok tt else Err AssertFailed.

Lemma bind_ok {A B} (a : A) (k : A → res B) : (Ok a ≫= k) = k a.
Proof. reflexivity. Qed.
Lemma bind_err {A B} (f : fault) (k : A → res B) : (Err f ≫= k) = Err f.
Proof. reflexivity. Qed.
Lemma bind_Ok_inv {A B} (m : res A) (k : A → res B) b :
  (m ≫= k) = Ok b → ∃ a, m = Ok a ∧ k a = Ok b.
Proof. destruct m; cbn; [eauto|discriminate]. Qed.

(** ** Machine integers *)

Definition INT32_MAX : Z := 2147483647.
Definition INT32_MIN : Z := -2147483648.
Definition UINT8_MAX : Z := 255.

(** Unsigned arithmetic wraps; a conversion to a narrower unsigned type does too. *)
Definition u8 (z : Z) : Z := z mod 256.
Definition u16 (z : Z) : Z := z mod 65536.
Definition u32 (z : Z) : Z := z mod 4294967296.
Definition u64 (z : Z) : Z := z mod 18446744073709551616.

(** A conversion to a narrower signed type keeps the low bits. *)
Definition s16 (z : Z) : Z := (z + 32768) mod 65536 - 32768.
Definition s32 (z : Z) : Z := (z + 2147483648) mod 4294967296 - 2147483648.

(** Signed 32-bit arithmetic is undefined outside its range. *)
Definition i32 (z : Z) : res Z :=
  if (INT32_MIN <=? z) && (z <=? INT32_MAX) then Ok z else Err SignedOverflow.

(** C's remainder by a value that may be zero. *)
Definition c_rem (a b : Z) : res Z :=
  if b =? 0 then Err DivisionByZero else Ok (Z.rem a b).

Lemma i32_ok z : INT32_MIN ≤ z ≤ INT32_MAX → i32 z = Ok z.
Proof.
  intros [? ?]. unfold i32.
  rewrite (proj2 (Z.leb_le INT32_MIN z)), (proj2 (Z.leb_le z INT32_MAX)) by lia.
  reflexivity.
Qed.

Lemma i32_inv z r : i32 z = Ok r → r = z ∧ INT32_MIN ≤ z ≤ INT32_MAX.
Proof.
  unfold i32. destruct (Z.leb_spec INT32_MIN z), (Z.leb_spec z INT32_MAX);
    cbn; intros [= <-]; lia.
Qed.

Lemma u8_small z : 0 ≤ z < 256 → u8 z = z.
Proof. apply Z.mod_small. Qed.
Lemma u8_range z : 0 ≤ u8 z < 256.
Proof. apply Z.mod_pos_bound; lia. Qed.
Lemma u16_small z : 0 ≤ z < 65536 → u16 z = z.
Proof. apply Z.mod_small. Qed.
Lemma u32_small z : 0 ≤ z < 4294967296 → u32 z = z.
Proof. apply Z.mod_small. Qed.
Lemma u32_range z : 0 ≤ u32 z < 4294967296.
Proof. apply Z.mod_pos_bound; lia. Qed.

(** ** Bit operations on [n]-bit values *)
Definition below (n z : Z) : Prop := 0 ≤ z < 2 ^ n.

Lemma below_log2 n z : 0 < n → below n z ↔ 0 ≤ z ∧ Z.log2 z < n.
Proof.
  intros Hn. unfold below. destruct (decide (z = 0)) as [->|].
  - change (Z.log2 0) with 0. pose proof (Z.pow_pos_nonneg 2 n). lia.
  - split; intros [? ?]; (split; [done|]); apply Z.log2_lt_pow2; lia.
Qed.

Section Below.
Context (n : Z) (Hn : 0 < n).

Lemma below_lxor a b : below n a → below n b → below n (Z.lxor a b).
Proof.
  rewrite !below_log2 by done. intros [? ?] [? ?]. split; [by apply Z.lxor_nonneg|].
  pose proof (Z.log2_lxor a b). lia.
Qed.

Lemma below_land a b : below n a → 0 ≤ b → below n (Z.land a b).
Proof.
  rewrite !below_log2 by done. intros [? ?] ?. split; [apply Z.land_nonneg; by left|].
  pose proof (Z.log2_land a b). lia.
Qed.

Lemma below_lor a b : below n a → below n b → below n (Z.lor a b).
Proof.
  rewrite !below_log2 by done. intros [? ?] [? ?]. split; [by apply Z.lor_nonneg|].
  rewrite Z.log2_lor by done. lia.
Qed.

Lemma below_shiftr a k : below n a → 0 ≤ k → below n (Z.shiftr a k).
Proof.
  intros [H0 H] ?. unfold below. rewrite Z.shiftr_div_pow2 by done.
  split; [apply Z.div_pos; lia|].
  apply Z.le_lt_trans with a; [|done]. apply Z.div_le_upper_bound; nia.
Qed.

Lemma below_testbit a i : below n a → n ≤ i → Z.testbit a i = false.
Proof.
  intros [H0 H]%(below_log2 n a Hn) Hi. destruct (decide (a = 0)) as [->|]; [apply Z.bits_0|].
  apply Z.bits_above_log2; lia.
Qed.
End Below.

(** C truth values. *)
Definition c_bool (b : bool) : Z := if b then 1 else 0.
Definition nz (z : Z) : bool := negb (z =? 0).

(** ** Arrays

    A C array is a list whose length is the declared bound; reading or writing
    outside it is a fault.  [at_] is the pure accessor used in specifications. *)
Definition at_ {A} `{Inhabited A} (l : list A) (i : Z) : A := l !!! Z.to_nat i.

Definition rd {A} (l : list A) (i : Z) : res A :=
  if i <? 0 then Err OutOfBounds
  else match l !! Z.to_nat i with
       | Some x => Ok x
       | None => Err OutOfBounds
       end.

Definition wr {A} (l : list A) (i : Z) (v : A) : res (list A) :=
  if (0 <=? i) && (i <? Z.of_nat (length l))
  then Ok (<[Z.to_nat i := v]> l) else Err OutOfBounds.

Section Arrays.
Context {A : Type} `{Inhabited A}.
Implicit Types (l : list A) (i j : Z) (v : A).

Lemma rd_ok l i : 0 ≤ i < Z.of_nat (length l) → rd l i = Ok (at_ l i).
Proof.
  intros [Hi Hl]. unfold rd, at_.
  destruct (Z.ltb_spec i 0); [lia|].
  destruct (lookup_lt_is_Some_2 l (Z.to_nat i)) as [x Hx]; [lia|].
  by rewrite Hx, (list_lookup_total_correct _ _ _ Hx).
Qed.

Lemma rd_inv l i x : rd l i = Ok x → 0 ≤ i < Z.of_nat (length l) ∧ x = at_ l i.
Proof.
  unfold rd, at_. destruct (Z.ltb_spec i 0); [discriminate|].
  destruct (l !! Z.to_nat i) eqn:E; [|discriminate]. intros [= <-].
  pose proof (lookup_lt_Some _ _ _ E).
  rewrite (list_lookup_total_correct _ _ _ E). split; [lia|done].
Qed.

Lemma rd_oob l i : ¬ (0 ≤ i < Z.of_nat (length l)) → rd l i = Err OutOfBounds.
Proof.
  intros Hi. unfold rd. destruct (Z.ltb_spec i 0); [done|].
  rewrite lookup_ge_None_2 by lia. done.
Qed.

Lemma wr_ok l i v :
  0 ≤ i < Z.of_nat (length l) → wr l i v = Ok (<[Z.to_nat i := v]> l).
Proof.
  intros [? ?]. unfold wr.
  rewrite (proj2 (Z.leb_le 0 i)), (proj2 (Z.ltb_lt i _)) by lia. done.
Qed.

Lemma wr_inv l i v l' :
  wr l i v = Ok l' → 0 ≤ i < Z.of_nat (length l) ∧ l' = <[Z.to_nat i := v]> l.
Proof.
  unfold wr.
  destruct (Z.leb_spec 0 i), (Z.ltb_spec i (Z.of_nat (length l)));
    cbn; intros [= <-]; done.
Qed.

Lemma wr_oob l i v :
  ¬ (0 ≤ i < Z.of_nat (length l)) → wr l i v = Err OutOfBounds.
Proof.
  intros Hi. unfold wr.
  destruct (Z.leb_spec 0 i), (Z.ltb_spec i (Z.of_nat (length l))); cbn; try done; lia.
Qed.

Lemma at_insert_eq l i v :
  0 ≤ i < Z.of_nat (length l) → at_ (<[Z.to_nat i := v]> l) i = v.
Proof. intros ?. unfold at_. apply list_lookup_total_insert_eq. lia. Qed.

Lemma at_insert_ne l i j v :
  0 ≤ i → 0 ≤ j → i ≠ j → at_ (<[Z.to_nat i := v]> l) j = at_ l j.
Proof. intros ???. unfold at_. apply list_lookup_total_insert_ne. lia. Qed.

Lemma at_insert l i j v :
  0 ≤ i < Z.of_nat (length l) → 0 ≤ j →
  at_ (<[Z.to_nat i := v]> l) j = if decide (i = j) then v else at_ l j.
Proof.
  intros. case_decide; subst; [by apply at_insert_eq|apply at_insert_ne; lia].
Qed.
End Arrays.

(** ** Counting loops

    [for( i = lo; i < hi; ++i ) body] as a monadic fold over [lo .. hi-1]; the
    loop state is whatever the body assigns. *)
Fixpoint foldM {A S} (body : A → S → res S) (l : list A) (s : S) : res S :=
  match l with
  | [] => Ok s
  | x :: l' => s' ← body x s; foldM body l' s'
  end.

Definition for_ {S} (lo hi : Z) (s : S) (body : Z → S → res S) : res S :=
  foldM body (seqZ lo (hi - lo)) s.

(** A loop whose body may [return r]: [inr r] stops it. *)
Fixpoint foldR {A S R} (body : A → S → res (S + R)) (l : list A) (s : S) : res (S + R) :=
  match l with
  | [] => Ok (inl s)
  | x :: l' =>
      o ← body x s;
      match o with
      | inl s' => foldR body l' s'
      | inr r => Ok (inr r)
      end
  end.

Definition forR {S R} (lo hi : Z) (s : S) (body : Z → S → res (S + R)) : res (S + R) :=
  foldR body (seqZ lo (hi - lo)) s.

(** The number of indices below [n] satisfying a test. *)
Definition countZ (f : Z → bool) (n : Z) : Z :=
  Z.of_nat (length (List.filter f (seqZ 0 n))).

(** The sum of an index function. *)
Definition sumZ (f : Z → Z) (n : Z) : Z := foldr (λ i a, f i + a) 0 (seqZ 0 n).

Section Loops.
Context {A S : Type}.

Lemma foldM_app (body : A → S → res S) l1 l2 s :
  foldM body (l1 ++ l2) s = (s' ← foldM body l1 s; foldM body l2 s').
Proof.
  revert s. induction l1 as [|x l1 IH]; intros s; [done|].
  cbn. destruct (body x s); cbn; [apply IH|done].
Qed.

(** Loop rule: an invariant indexed by the elements already visited. *)
Lemma foldM_inv (P : list A → S → Prop) (body : A → S → res S) l s :
  P [] s →
  (∀ done_ x rest s, l = done_ ++ x :: rest → P done_ s →
     ∃ s', body x s = Ok s' ∧ P (done_ ++ [x]) s') →
  ∃ s', foldM body l s = Ok s' ∧ P l s'.
Proof.
  intros H0 Hstep.
  enough (∀ done_ rest s, l = done_ ++ rest → P done_ s →
    ∃ s', foldM body rest s = Ok s' ∧ P l s') as G by (by apply (G [] l s)).
  clear s H0. intros done_ rest. revert done_.
  induction rest as [|x rest IH]; intros d s El Pd.
  - exists s. rewrite app_nil_r in El. by subst.
  - destruct (Hstep d x rest s El Pd) as (s' & E & P').
    cbn. rewrite E. cbn. apply (IH (d ++ [x])); [by rewrite <-app_assoc|done].
Qed.

(** Two bodies that agree on the elements visited give the same loop. *)
Lemma foldM_ext (b1 b2 : A → S → res S) l s :
  (∀ x s, x ∈ l → b1 x s = b2 x s) → foldM b1 l s = foldM b2 l s.
Proof.
  revert s. induction l as [|x l IH]; intros s Heq; [done|].
  cbn. rewrite Heq by set_solver. destruct (b2 x s); cbn; [|done].
  apply IH. set_solver.
Qed.

(** A loop whose body never faults is a left fold. *)
Lemma foldM_pure (f : S → A → S) (body : A → S → res S) l s :
  (∀ x s, x ∈ l → body x s = Ok (f s x)) → foldM body l s = Ok (fold_left f l s).
Proof.
  revert s. induction l as [|x l IH]; intros s Heq; [done|].
  cbn. rewrite Heq by set_solver. cbn. apply IH. set_solver.
Qed.
End Loops.

Lemma for_ext {S} lo hi (s : S) b1 b2 :
  (∀ i s, lo ≤ i < hi → b1 i s = b2 i s) → for_ lo hi s b1 = for_ lo hi s b2.
Proof.
  intros Heq. apply foldM_ext. intros i s' [? ?]%elem_of_seqZ. apply Heq. lia.
Qed.

Lemma for_pure {S} lo hi (s : S) f body :
  (∀ i s, lo ≤ i < hi → body i s = Ok (f s i)) →
  for_ lo hi s body = Ok (fold_left f (seqZ lo (hi - lo)) s).
Proof.
  intros Heq. apply foldM_pure. intros i s' [? ?]%elem_of_seqZ. apply Heq. lia.
Qed.

(** Loop rule for [for_]: an invariant indexed by the loop counter. *)
Lemma for_inv {S} (P : Z → S → Prop) lo hi (s : S) body :
  lo ≤ hi → P lo s →
  (∀ i s, lo ≤ i < hi → P i s → ∃ s', body i s = Ok s' ∧ P (i + 1) s') →
  ∃ s', for_ lo hi s body = Ok s' ∧ P hi s'.
Proof.
  intros Hle H0 Hstep. unfold for_.
  destruct (foldM_inv (λ d s, P (lo + Z.of_nat (length d)) s) body
              (seqZ lo (hi - lo)) s) as (s' & E & Ps').
  - cbn. by rewrite Z.add_0_r.
  - intros d x rest s1 El Pd.
    assert (Hx : x = lo + Z.of_nat (length d)).
    { assert (seqZ lo (hi - lo) !! length d = Some x) as Hl.
      { rewrite El. by rewrite list_lookup_middle. }
      apply lookup_seqZ in Hl. lia. }
    assert (x ∈ seqZ lo (hi - lo)) as [? ?]%elem_of_seqZ by (rewrite El; set_solver).
    destruct (Hstep x s1) as (s2 & E2 & P2); [lia|by rewrite Hx|].
    exists s2. split; [done|]. rewrite length_app; cbn.
    replace (lo + Z.of_nat (length d + 1)) with (x + 1) by lia. done.
  - exists s'. split; [done|]. rewrite length_seqZ in Ps'.
    replace (lo + Z.of_nat (Z.to_nat (hi - lo))) with hi in Ps' by lia. done.
Qed.

(** ** Counting and summing over an index range *)

Lemma seqZ_snoc lo n : 0 ≤ n → seqZ lo (n + 1) = seqZ lo n ++ [lo + n].
Proof. intros ?. rewrite seqZ_app by lia. done. Qed.

Lemma seqZ_nil_le lo n : n ≤ 0 → seqZ lo n = [].
Proof. intros ?. by apply seqZ_nil. Qed.

Lemma countZ_0 f : countZ f 0 = 0.
Proof. done. Qed.

Lemma countZ_S f n :
  0 ≤ n → countZ f (n + 1) = countZ f n + (if f n then 1 else 0).
Proof.
  intros Hn. unfold countZ. rewrite seqZ_snoc, Z.add_0_l by done.
  rewrite List.filter_app, length_app. cbn.
  destruct (f n); cbn; lia.
Qed.

(** Induction on a bound [n >= 0]. *)
Lemma Z_bound_ind (P : Z → Prop) :
  P 0 → (∀ n, 0 ≤ n → P n → P (n + 1)) → ∀ n, 0 ≤ n → P n.
Proof. intros H0 HS. apply natlike_ind; [done|]. intros. by apply HS. Qed.

Lemma countZ_nonneg f n : 0 ≤ countZ f n.
Proof. unfold countZ. lia. Qed.

Lemma countZ_le f n : 0 ≤ n → countZ f n ≤ n.
Proof.
  revert n. apply Z_bound_ind; [done|]. intros n ? IH.
  rewrite countZ_S by done. destruct (f n); lia.
Qed.

Lemma countZ_ext f g n : (∀ i, 0 ≤ i < n → f i = g i) → countZ f n = countZ g n.
Proof.
  intros Heq. unfold countZ. f_equal. f_equal. apply List.filter_ext_in.
  intros i Hi%list_elem_of_In%elem_of_seqZ. apply Heq. lia.
Qed.

Lemma countZ_mono f g n :
  (∀ i, 0 ≤ i < n → f i = true → g i = true) → countZ f n ≤ countZ g n.
Proof.
  destruct (Z.le_gt_cases 0 n) as [Hn|Hn];
    [|intros _; unfold countZ; rewrite seqZ_nil_le by lia; done].
  revert n Hn. apply (Z_bound_ind (λ n, _ → countZ f n ≤ countZ g n)); [done|].
  intros n Hn IH Hfg. rewrite !countZ_S by done.
  assert (countZ f n ≤ countZ g n) by (apply IH; intros; apply Hfg; [lia|done]).
  destruct (f n) eqn:E; [rewrite (Hfg n) by (done || lia); lia|].
  destruct (g n); lia.
Qed.

(** Changing the test at one index changes the count by the difference there. *)
Lemma countZ_update f g n p :
  0 ≤ p < n → (∀ i, 0 ≤ i < n → i ≠ p → f i = g i) →
  countZ f n + c_bool (g p) = countZ g n + c_bool (f p).
Proof.
  intros Hp. assert (Hn : 0 ≤ n) by lia. revert n Hn Hp.
  apply (Z_bound_ind (λ n, 0 ≤ p < n → _ → countZ f n + c_bool (g p) = countZ g n + c_bool (f p))); [lia|].
  intros n Hn IH Hp Hfg. rewrite !countZ_S by done.
  destruct (decide (p = n)) as [->|Hne].
  - rewrite (countZ_ext f g) by (intros; apply Hfg; lia).
    unfold c_bool. destruct (f n), (g n); lia.
  - rewrite (Hfg n) by lia. specialize (IH ltac:(lia)).
    assert (countZ f n + c_bool (g p) = countZ g n + c_bool (f p))
      by (apply IH; intros; apply Hfg; lia). destruct (g n); lia.
Qed.

Lemma countZ_pos f n : 0 < countZ f n → ∃ i, 0 ≤ i < n ∧ f i = true.
Proof.
  unfold countZ. destruct (List.filter f (seqZ 0 n)) as [|i l] eqn:E; cbn; [lia|].
  intros _. exists i.
  assert (In i (List.filter f (seqZ 0 n))) as [Hin Hf]%filter_In by (rewrite E; by left).
  apply list_elem_of_In, elem_of_seqZ in Hin. split; [lia|done].
Qed.

Lemma countZ_pos_intro f n i : 0 ≤ i < n → f i = true → 0 < countZ f n.
Proof.
  intros Hi Hf. unfold countZ.
  assert (In i (List.filter f (seqZ 0 n))) as Hin.
  { apply filter_In. split; [|done]. apply list_elem_of_In, elem_of_seqZ. lia. }
  destruct (List.filter f (seqZ 0 n)); [destruct Hin|cbn; lia].
Qed.

(** [countZ f n = n] says every index satisfies the test. *)
Lemma countZ_all f n : 0 ≤ n → countZ f n = n → ∀ i, 0 ≤ i < n → f i = true.
Proof.
  revert n. apply (Z_bound_ind (λ n, countZ f n = n → ∀ i, 0 ≤ i < n → f i = true)); [lia|].
  intros n Hn IH Hc i Hi. rewrite countZ_S in Hc by done.
  pose proof (countZ_le f n Hn).
  destruct (decide (i = n)) as [->|].
  - destruct (f n); [done|lia].
  - apply IH; [destruct (f n); lia|lia].
Qed.

Lemma countZ_true n : 0 ≤ n → countZ (λ _, true) n = n.
Proof.
  revert n. apply Z_bound_ind; [done|]. intros n Hn IH. rewrite countZ_S, IH by done. done.
Qed.

Lemma countZ_lt f n q : 0 ≤ q < n → f q = false → countZ f n < n.
Proof.
  intros Hq Fq. pose proof (countZ_le f n ltac:(lia)).
  destruct (Z.eq_dec (countZ f n) n) as [Ea|]; [|lia].
  rewrite (countZ_all f n ltac:(lia) Ea q Hq) in Fq. done.
Qed.

(** If two indices fail a test and one is known, the other can be found. *)
Lemma countZ_two f n q :
  0 ≤ q < n → f q = false → countZ f n + 1 < n → ∃ p, 0 ≤ p < n ∧ p ≠ q ∧ f p = false.
Proof.
  intros Hq Fq Hc. destruct (existsb (λ p, negb (p =? q) && negb (f p)) (seqZ 0 n)) eqn:E.
  - apply existsb_exists in E as (p & Hp%list_elem_of_In%elem_of_seqZ & [Hne Hfp]%andb_prop).
    exists p. split; [lia|]. split; [lia|]. by destruct (f p).
  - exfalso. pose proof (countZ_update f (λ _, true) n q Hq) as Hu. cbn beta in Hu.
    rewrite countZ_true, Fq in Hu by lia. cbn in Hu. enough (∀ i, 0 ≤ i < n → i ≠ q → f i = true) as Hf
      by (specialize (Hu Hf); lia).
    intros i Hi Hne. destruct (f i) eqn:Fi; [done|].
    assert (existsb (λ p, negb (p =? q) && negb (f p)) (seqZ 0 n) = true) as Hx; [|congruence].
    apply existsb_exists. exists i. split; [apply list_elem_of_In, elem_of_seqZ; lia|].
    by rewrite Fi, (proj2 (Z.eqb_neq i q)).
Qed.

(** A counting [for] loop over a [uint8_t] counter computes [countZ]. *)
Lemma for_countZ (f : Z → bool) (body : Z → Z → res Z) n :
  0 ≤ n < 256 →
  (∀ i c, 0 ≤ i < n → body i c = Ok (if f i then u8 (c + 1) else c)) →
  for_ 0 n 0 body = Ok (countZ f n).
Proof.
  intros Hn Hb.
  destruct (for_inv (λ i c, c = countZ f i) 0 n 0 body) as (c & E & ->); try done; try lia.
  intros i c Hi ->. exists (countZ f (i + 1)). split; [|done].
  rewrite Hb by done. rewrite countZ_S by lia.
  pose proof (countZ_le f i ltac:(lia)). pose proof (countZ_nonneg f i).
  destruct (f i); f_equal; [|lia]. rewrite u8_small; lia.
Qed.

Lemma sumZ_S f n : 0 ≤ n → sumZ f (n + 1) = sumZ f n + f n.
Proof.
  intros Hn. unfold sumZ. rewrite seqZ_snoc, Z.add_0_l by done. rewrite foldr_app. cbn.
  generalize (f n). intros z. induction (seqZ 0 n) as [|x l IH]; cbn; lia.
Qed.

Lemma sumZ_ext f g n : (∀ i, 0 ≤ i < n → f i = g i) → sumZ f n = sumZ g n.
Proof.
  intros Heq. unfold sumZ.
  assert (∀ i, i ∈ seqZ 0 n → f i = g i) as H.
  { intros i Hi%elem_of_seqZ. apply Heq. lia. }
  induction (seqZ 0 n) as [|x l IH]; cbn; [done|].
  rewrite H by set_solver. rewrite IH; [done|set_solver].
Qed.

Lemma sumZ_update f g n p :
  0 ≤ p < n → (∀ i, 0 ≤ i < n → i ≠ p → f i = g i) →
  sumZ f n + g p = sumZ g n + f p.
Proof.
  intros Hp. assert (Hn : 0 ≤ n) by lia. revert n Hn Hp.
  apply (Z_bound_ind (λ n, 0 ≤ p < n → _ → sumZ f n + g p = sumZ g n + f p)); [lia|].
  intros n Hn IH Hp Hfg. rewrite !sumZ_S by done.
  destruct (decide (p = n)) as [->|Hne].
  - rewrite (sumZ_ext f g) by (intros; apply Hfg; lia). lia.
  - rewrite (Hfg n) by lia. specialize (IH ltac:(lia)).
    assert (sumZ f n + g p = sumZ g n + f p) by (apply IH; intros; apply Hfg; lia). lia.
Qed.

Lemma sumZ_le f g n :
  0 ≤ n → (∀ i, 0 ≤ i < n → f i ≤ g i) → sumZ f n ≤ sumZ g n.
Proof.
  revert n. apply (Z_bound_ind (λ n, _ → sumZ f n ≤ sumZ g n)); [done|].
  intros n Hn IH Hfg. rewrite !sumZ_S by done. specialize (Hfg n ltac:(lia)) as Hn'.
  assert (sumZ f n ≤ sumZ g n) by (apply IH; intros; apply Hfg; lia). lia.
Qed.

(** Only the indices up to [r] contribute when the rest is zero. *)
Lemma sumZ_trunc f r n :
  0 ≤ r ≤ n → (∀ i, r ≤ i < n → f i = 0) → sumZ f n = sumZ f r.
Proof.
  intros Hr. replace n with (r + (n - r)) by lia. remember (n - r) as k eqn:Ek.
  assert (Hk : 0 ≤ k) by lia. clear Ek. revert k Hk.
  apply (Z_bound_ind (λ k, _ → sumZ f (r + k) = sumZ f r)); [by rewrite Z.add_0_r|].
  intros k Hk IH Hz. rewrite Z.add_assoc, sumZ_S by lia.
  rewrite IH by (intros; apply Hz; lia). rewrite Hz by lia. lia.
Qed.

Lemma sumZ_const c n : 0 ≤ n → sumZ (λ _, c) n = n * c.
Proof.
  revert n. apply Z_bound_ind; [done|]. intros n ? IH. rewrite sumZ_S by done. lia.
Qed.

Lemma sumZ_add f g n : 0 ≤ n → sumZ (λ i, f i + g i) n = sumZ f n + sumZ g n.
Proof.
  revert n. apply Z_bound_ind; [done|]. intros n ? IH. rewrite !sumZ_S by done. lia.
Qed.

(** ** Early-exit loops and index lists *)

Lemma forallb_seqZ f lo n :
  forallb f (seqZ lo n) = true ↔ ∀ i, lo ≤ i < lo + n → f i = true.
Proof.
  rewrite forallb_forall. setoid_rewrite <-list_elem_of_In. by setoid_rewrite elem_of_seqZ.
Qed.

(** A loop that returns [v] at the first index failing a test. *)
Lemma forR_forallb {R} (p : Z → bool) lo hi (body : Z → unit → res (unit + R)) (v : R) :
  (∀ i, lo ≤ i < hi → body i tt = Ok (if p i then inl tt else inr v)) →
  forR lo hi tt body = Ok (if forallb p (seqZ lo (hi - lo)) then inl tt else inr v).
Proof.
  intros Hb. unfold forR.
  assert (∀ i, i ∈ seqZ lo (hi - lo) → body i tt = Ok (if p i then inl tt else inr v)) as H.
  { intros i Hi%elem_of_seqZ. apply Hb. lia. }
  induction (seqZ lo (hi - lo)) as [|x l IH]; [done|]. cbn.
  rewrite H by set_solver. cbn. destruct (p x); cbn; [|done]. apply IH. set_solver.
Qed.

(** Loop rule for [forR]: the loop ends with the invariant or returns early. *)
Lemma forR_inv {S R} (P : Z → S → Prop) (Q : R → Prop) lo hi (s : S) body :
  lo ≤ hi → P lo s →
  (∀ i s, lo ≤ i < hi → P i s →
     (∃ s', body i s = Ok (inl s') ∧ P (i + 1) s') ∨ (∃ r, body i s = Ok (inr r) ∧ Q r)) →
  (∃ s', forR lo hi s body = Ok (inl s') ∧ P hi s') ∨
  (∃ r, forR lo hi s body = Ok (inr r) ∧ Q r).
Proof.
  intros Hle H0 Hstep. unfold forR. remember (hi - lo) as k eqn:Ek.
  assert (Hk : 0 ≤ k) by lia. revert lo Hle Ek s H0 Hstep. revert k Hk.
  apply (Z_bound_ind (λ k, ∀ lo, lo ≤ hi → k = hi - lo → ∀ s, P lo s → _ →
    (∃ s', foldR body (seqZ lo k) s = Ok (inl s') ∧ P hi s') ∨
    (∃ r, foldR body (seqZ lo k) s = Ok (inr r) ∧ Q r))).
  - intros lo ? ? s H0 _. assert (lo = hi) as -> by lia. left. by exists s.
  - intros k Hk IH lo Hle Ek s H0 Hstep. rewrite (seqZ_cons lo) by lia. cbn.
    destruct (Hstep lo s ltac:(lia) H0) as [(s' & -> & P')|(r & -> & Hr)]; cbn; [|right; by exists r].
    rewrite <-Z.add_1_r. replace (Z.pred (k + 1)) with k by lia.
    apply IH; [lia|lia|done|]. intros i si Hi. apply Hstep. lia.
Qed.

(** Two index lists are equal when the functions agree. *)
Lemma map_seqZ_eq {A} (f g : Z → A) n :
  f <$> seqZ 0 n = g <$> seqZ 0 n ↔ ∀ i, 0 ≤ i < n → f i = g i.
Proof.
  split.
  - intros E i Hi. apply (f_equal (λ l, l !! Z.to_nat i)) in E.
    rewrite !list_lookup_fmap, !lookup_seqZ_lt, Z2Nat.id in E by lia. cbn in E. by simplify_eq.
  - intros E. apply list_fmap_ext. intros i x [-> Hx]%lookup_seqZ. apply E. lia.
Qed.

(** Reading a list back by index. *)
Lemma map_at {A} `{Inhabited A} (D : list A) n :
  Z.of_nat (length D) = n → (λ i, at_ D i) <$> seqZ 0 n = D.
Proof.
  intros <-. apply list_eq_same_length with (length D);
    [done|by rewrite length_fmap, length_seqZ, Nat2Z.id|].
  intros i x y Hi Hx Hy. apply list_lookup_fmap_Some in Hx as (z & -> & Hz).
  apply lookup_seqZ in Hz as [-> _]. unfold at_. replace (Z.to_nat (0 + Z.of_nat i)) with i by lia.
  by apply list_lookup_total_correct.
Qed.

(** ** Automation

    [bounds] closes the side conditions of array accesses; [run] steps through a
    monadic program whose accesses are in bounds. *)
Create HintDb c_model.
Create Rewrite HintDb c_run.
Create Rewrite HintDb c_len.
#[export] Hint Rewrite @bind_ok @bind_err : c_run.
#[export] Hint Rewrite @length_insert : c_len.

Ltac bounds :=
  repeat (rewrite length_insert);
  first [ lia | (cbn in *; lia) | (autorewrite with c_len in *; lia) ].

Ltac run_step :=
  first
    [ rewrite bind_ok
    | match goal with |- context [rd ?l ?i] => rewrite (rd_ok l i) by bounds end
    | match goal with |- context [wr ?l ?i ?v] => rewrite (wr_ok l i v) by bounds end
    | match goal with |- context [i32 ?z] => rewrite (i32_ok z) by bounds end ].
Ltac run := repeat run_step; cbn beta iota zeta.

(** Inverts a chain of binds known to return [Ok]. *)
Ltac inv_ok :=
  repeat match goal with
  | H : (_ ≫= _) = Ok _ |- _ =>
      let x := fresh "v" in let E := fresh "E" in
      apply bind_Ok_inv in H as (x & E & H)
  | H : Ok _ = Ok _ |- _ => injection H; clear H; intros; subst
  | H : Err _ = Ok _ |- _ => discriminate H
  end.
