(* ===== verification/GameDef.v ===== *)
(** * The game engine's data ([Common/acpc/include/game.h])

    Constants, the [Action], [Game], [State] and [MatchState] structures with
    one record field per C field, the card macros, and the setters with which
    the operations update a [State] in place.  Fixed-size arrays are lists; the
    predicates [game_shape] and [state_shape] fix their lengths. *)

From stdpp Require Import base list list_numbers numbers option.
From S2P Require Import Prelude.
Open Scope Z_scope.

Definition MAX_ROUNDS : Z := 4.
Definition MAX_PLAYERS : Z := 10.
Definition MAX_BOARD_CARDS : Z := 7.
Definition MAX_HOLE_CARDS : Z := 3.
Definition MAX_NUM_ACTIONS : Z := 64.
Definition MAX_SUITS : Z := 4.
Definition MAX_RANKS : Z := 13.
Definition MAX_LINE_LEN : Z := 4096.

Inductive BettingType : Set := limitBetting | noLimitBetting.
Inductive ActionType : Set := a_fold | a_call | a_raise | a_invalid.

#[global] Instance BettingType_eq_dec : EqDecision BettingType.
Proof. solve_decision. Defined.
#[global] Instance ActionType_eq_dec : EqDecision ActionType.
Proof. solve_decision. Defined.
#[global] Instance ActionType_inhabited : Inhabited ActionType := populate a_invalid.

(** The enumeration constants as the integers C stores. *)
Definition ActionType_code (t : ActionType) : Z :=
  match t with a_fold => 0 | a_call => 1 | a_raise => 2 | a_invalid => 3 end.

Record Action : Set := mkAction {
  type : ActionType;   (* is action a fold, call, or raise? *)
  size : Z             (* for no-limit raises *)
}.
#[global] Instance Action_eq_dec : EqDecision Action.
Proof. solve_decision. Defined.
#[global] Instance Action_inhabited : Inhabited Action := populate (mkAction a_fold 0).

Record Game : Set := mkGame {
  stack : list Z;            (* [MAX_PLAYERS] *)
  blind : list Z;            (* [MAX_PLAYERS] *)
  raiseSize : list Z;        (* [MAX_ROUNDS] *)
  bettingType : BettingType;
  numPlayers : Z;
  numRounds : Z;
  firstPlayer : list Z;      (* [MAX_ROUNDS] *)
  maxRaises : list Z;        (* [MAX_ROUNDS] *)
  numSuits : Z;
  numRanks : Z;
  numHoleCards : Z;
  numBoardCards : list Z     (* [MAX_ROUNDS] *)
}.
#[global] Instance Game_eq_dec : EqDecision Game.
Proof. solve_decision. Defined.

Record State : Set := mkState {
  handId : Z;
  maxSpent : Z;
  minNoLimitRaiseTo : Z;
  spent : list Z;                (* [MAX_PLAYERS] *)
  action : list (list Action);   (* [MAX_ROUNDS][MAX_NUM_ACTIONS] *)
  actingPlayer : list (list Z);  (* [MAX_ROUNDS][MAX_NUM_ACTIONS] *)
  numActions : list Z;           (* [MAX_ROUNDS] *)
  round : Z;
  finished : Z;
  playerFolded : list Z;         (* [MAX_PLAYERS] *)
  boardCards : list Z;           (* [MAX_BOARD_CARDS] *)
  holeCards : list (list Z);     (* [MAX_PLAYERS][MAX_HOLE_CARDS] *)
  roundSpent : list Z            (* [MAX_ROUNDS] *)
}.
#[global] Instance State_eq_dec : EqDecision State.
Proof. solve_decision. Defined.

Record MatchState : Set := mkMatchState {
  state : State;
  viewingPlayer : Z
}.

(** [rankOfCard], [suitOfCard] and [makeCard]. *)
Definition rankOfCard (card : Z) : Z := card / MAX_SUITS.
Definition suitOfCard (card : Z) : Z := card mod MAX_SUITS.
Definition makeCard (rank suit : Z) : Z := rank * MAX_SUITS + suit.

Definition stateFinished (s : State) : Z := finished s.

(** ** In-place field updates *)
Definition set_handId v s := mkState v (maxSpent s) (minNoLimitRaiseTo s) (spent s)
  (action s) (actingPlayer s) (numActions s) (round s) (finished s) (playerFolded s)
  (boardCards s) (holeCards s) (roundSpent s).
Definition set_maxSpent v s := mkState (handId s) v (minNoLimitRaiseTo s) (spent s)
  (action s) (actingPlayer s) (numActions s) (round s) (finished s) (playerFolded s)
  (boardCards s) (holeCards s) (roundSpent s).
Definition set_minNoLimitRaiseTo v s := mkState (handId s) (maxSpent s) v (spent s)
  (action s) (actingPlayer s) (numActions s) (round s) (finished s) (playerFolded s)
  (boardCards s) (holeCards s) (roundSpent s).
Definition set_spent v s := mkState (handId s) (maxSpent s) (minNoLimitRaiseTo s) v
  (action s) (actingPlayer s) (numActions s) (round s) (finished s) (playerFolded s)
  (boardCards s) (holeCards s) (roundSpent s).
Definition set_action v s := mkState (handId s) (maxSpent s) (minNoLimitRaiseTo s)
  (spent s) v (actingPlayer s) (numActions s) (round s) (finished s) (playerFolded s)
  (boardCards s) (holeCards s) (roundSpent s).
Definition set_actingPlayer v s := mkState (handId s) (maxSpent s) (minNoLimitRaiseTo s)
  (spent s) (action s) v (numActions s) (round s) (finished s) (playerFolded s)
  (boardCards s) (holeCards s) (roundSpent s).
Definition set_numActions v s := mkState (handId s) (maxSpent s) (minNoLimitRaiseTo s)
  (spent s) (action s) (actingPlayer s) v (round s) (finished s) (playerFolded s)
  (boardCards s) (holeCards s) (roundSpent s).
Definition set_round v s := mkState (handId s) (maxSpent s) (minNoLimitRaiseTo s)
  (spent s) (action s) (actingPlayer s) (numActions s) v (finished s) (playerFolded s)
  (boardCards s) (holeCards s) (roundSpent s).
Definition set_finished v s := mkState (handId s) (maxSpent s) (minNoLimitRaiseTo s)
  (spent s) (action s) (actingPlayer s) (numActions s) (round s) v (playerFolded s)
  (boardCards s) (holeCards s) (roundSpent s).
Definition set_playerFolded v s := mkState (handId s) (maxSpent s) (minNoLimitRaiseTo s)
  (spent s) (action s) (actingPlayer s) (numActions s) (round s) (finished s) v
  (boardCards s) (holeCards s) (roundSpent s).
Definition set_boardCards v s := mkState (handId s) (maxSpent s) (minNoLimitRaiseTo s)
  (spent s) (action s) (actingPlayer s) (numActions s) (round s) (finished s)
  (playerFolded s) v (holeCards s) (roundSpent s).
Definition set_holeCards v s := mkState (handId s) (maxSpent s) (minNoLimitRaiseTo s)
  (spent s) (action s) (actingPlayer s) (numActions s) (round s) (finished s)
  (playerFolded s) (boardCards s) v (roundSpent s).
Definition set_roundSpent v s := mkState (handId s) (maxSpent s) (minNoLimitRaiseTo s)
  (spent s) (action s) (actingPlayer s) (numActions s) (round s) (finished s)
  (playerFolded s) (boardCards s) (holeCards s) v.

(** A state with other cards; the betting neither reads nor writes them. *)
Definition with_cards (hc : list (list Z)) (bc : list Z) (s : State) : State :=
  set_boardCards bc (set_holeCards hc s).

(** ** Shapes: the declared array bounds *)
Record game_shape (g : Game) : Prop := {
  gs_stack : length (stack g) = 10%nat;
  gs_blind : length (blind g) = 10%nat;
  gs_raise : length (raiseSize g) = 4%nat;
  gs_first : length (firstPlayer g) = 4%nat;
  gs_max : length (maxRaises g) = 4%nat;
  gs_board : length (numBoardCards g) = 4%nat
}.

Record state_shape (s : State) : Prop := {
  ss_spent : length (spent s) = 10%nat;
  ss_action : length (action s) = 4%nat;
  ss_action2 : ∀ r, (r < 4)%nat → length (action s !!! r) = 64%nat;
  ss_acting : length (actingPlayer s) = 4%nat;
  ss_acting2 : ∀ r, (r < 4)%nat → length (actingPlayer s !!! r) = 64%nat;
  ss_numActions : length (numActions s) = 4%nat;
  ss_folded : length (playerFolded s) = 10%nat;
  ss_board : length (boardCards s) = 7%nat;
  ss_hole : length (holeCards s) = 10%nat;
  ss_hole2 : ∀ p, (p < 10)%nat → length (holeCards s !!! p) = 3%nat;
  ss_roundSpent : length (roundSpent s) = 4%nat
}.

(** A [State] object as [calloc]/[memset 0] leaves it: every array at its bound. *)
Definition zero_state : State :=
  mkState 0 0 0 (replicate 10 0) (replicate 4 (replicate 64 (mkAction a_fold 0)))
    (replicate 4 (replicate 64 0)) (replicate 4 0) 0 0 (replicate 10 0) (replicate 7 0)
    (replicate 10 (replicate 3 0)) (replicate 4 0).

Lemma zero_state_shape : state_shape zero_state.
Proof.
  split; cbn; try done; intros i Hi;
    repeat (destruct i as [|i]; [done|]); lia.
Qed.

Lemma rank_makeCard r s : 0 ≤ s < 4 → rankOfCard (makeCard r s) = r.
Proof.
  intros ?. unfold rankOfCard, makeCard, MAX_SUITS.
  rewrite Z.div_add_l by lia. rewrite Z.div_small by lia. lia.
Qed.
Lemma suit_makeCard r s : 0 ≤ s < 4 → suitOfCard (makeCard r s) = s.
Proof.
  intros ?. unfold suitOfCard, makeCard, MAX_SUITS.
  rewrite Z.add_comm, Z.mod_add by lia. apply Z.mod_small; lia.
Qed.
Lemma makeCard_rank_suit c : makeCard (rankOfCard c) (suitOfCard c) = c.
Proof.
  unfold rankOfCard, suitOfCard, makeCard, MAX_SUITS.
  rewrite Z.mul_comm. symmetry. apply Z.div_mod; lia.
Qed.

(** The cards of a full deck. *)
Definition is_card (c : Z) : Prop := 0 ≤ c < 52.

Lemma card_parts c : is_card c → 0 ≤ suitOfCard c < 4 ∧ 0 ≤ rankOfCard c < 13.
Proof.
  intros Hc. unfold suitOfCard, rankOfCard, MAX_SUITS, is_card in *. split; [apply Z.mod_pos_bound; lia|].
  split; [apply Z.div_pos; lia|apply Z.div_lt_upper_bound; lia].
Qed.
