(* ===== verification/Betting.v ===== *)
(** * The betting engine ([Common/acpc/src/game.c], lines 458-1132)

    The queries on a [Game] and a [State], [initState], the validity tests and
    [doAction], translated operation by operation.  A pointer parameter the C
    code writes through becomes a component of the result; messages written to
    [stderr] are not modelled. *)

From stdpp Require Import base list list_numbers numbers option.
From S2P Require Import Prelude GameDef.
Open Scope Z_scope.

(** [state->a[ r ][ i ]] for the two-dimensional arrays. *)
Definition rd2 {A} (l : list (list A)) (r i : Z) : res A :=
  row ← rd l r; rd row i.
Definition wr2 {A} (l : list (list A)) (r i : Z) (v : A) : res (list (list A)) :=
  row ← rd l r; row' ← wr row i v; wr l r row'.

Definition bcStart (game : Game) (round : Z) : res Z :=
  for_ 0 round 0 (λ r start,
    n ← rd (numBoardCards game) r; Ok (u8 (start + n))).

Definition sumBoardCards (game : Game) (round : Z) : res Z :=
  for_ 0 (round + 1) 0 (λ r total,
    n ← rd (numBoardCards game) r; Ok (u8 (total + n))).

Definition sumActions (game : Game) (s : State) : res Z :=
  for_ 0 (numRounds game) 0 (λ r total,
    n ← rd (numActions s) r; Ok (u16 (total + n))).

Definition sumSpent (game : Game) (s : State) : res Z :=
  for_ 0 (numPlayers game) 0 (λ i total,
    x ← rd (spent s) i; Ok (u32 (total + x))).

(** The [do ... while] loop of [nextPlayer]: [cnt] bounds it, and the fuel is the
    number of iterations [cnt] lets through. *)
Fixpoint nextPlayer_loop (fuel : nat) (game : Game) (s : State) (n cnt : Z) : res Z :=
  match fuel with
  | O => Err OutOfFuel
  | S fuel =>
      n ← c_rem (n + 1) (numPlayers game);
      if numPlayers game + 2 <? cnt then Ok (u8 (-1))
      else
        f ← rd (playerFolded s) n;
        busy ← (if nz f then Ok true
                else sp ← rd (spent s) n; st ← rd (stack game) n; Ok (st <=? sp));
        if (busy : bool) then nextPlayer_loop fuel game s n (u8 (cnt + 1)) else Ok n
  end.

Definition nextPlayer (game : Game) (s : State) (curPlayer : Z) : res Z :=
  nextPlayer_loop (Z.to_nat (numPlayers game + 4)) game s curPlayer 0.

Definition currentPlayer (game : Game) (s : State) : res Z :=
  na ← rd (numActions s) (round s);
  if nz na then
    last ← rd2 (actingPlayer s) (round s) (na - 1);
    nextPlayer game s last
  else
    f ← rd (firstPlayer game) (round s);
    nextPlayer game s (u8 (f + numPlayers game - 1)).

Definition numRaises (s : State) : res Z :=
  na ← rd (numActions s) (round s);
  for_ 0 na 0 (λ i ret,
    a ← rd2 (action s) (round s) i;
    Ok (if decide (type a = a_raise) then u8 (ret + 1) else ret)).

Definition numFolded (game : Game) (s : State) : res Z :=
  for_ 0 (numPlayers game) 0 (λ p ret,
    f ← rd (playerFolded s) p;
    Ok (if nz f then u8 (ret + 1) else ret)).

(** The downward loop of [numCalled]; index [i] here is the source's [i - 1]. *)
Definition numCalled (game : Game) (s : State) : res Z :=
  na ← rd (numActions s) (round s);
  o ← foldR (λ i ret,
        p ← rd2 (actingPlayer s) (round s) i;
        a ← rd2 (action s) (round s) i;
        if decide (type a = a_raise) then
          sp ← rd (spent s) p; st ← rd (stack game) p;
          Ok (inr (if sp <? st then u8 (ret + 1) else ret))
        else if decide (type a = a_call) then
          sp ← rd (spent s) p; st ← rd (stack game) p;
          Ok (inl (if sp <? st then u8 (ret + 1) else ret))
        else Ok (inl ret))
      (reverse (seqZ 0 na)) 0;
  Ok (match o with inl ret => ret | inr ret => ret end).

Definition numAllIn (game : Game) (s : State) : res Z :=
  for_ 0 (numPlayers game) 0 (λ p ret,
    sp ← rd (spent s) p; st ← rd (stack game) p;
    Ok (if st <=? sp then u8 (ret + 1) else ret)).

Definition numActingPlayers (game : Game) (s : State) : res Z :=
  for_ 0 (numPlayers game) 0 (λ p ret,
    f ← rd (playerFolded s) p;
    if f =? 0 then
      sp ← rd (spent s) p; st ← rd (stack game) p;
      Ok (if sp <? st then u8 (ret + 1) else ret)
    else Ok ret).

(** ** [initState] *)

(** First pass over the blinds: [spent] and [maxSpent]. *)
Definition initState_blinds (game : Game) (s : State) : res State :=
  for_ 0 (numPlayers game) (set_maxSpent 0 s) (λ p s,
    b ← rd (blind game) p;
    sp ← wr (spent s) p b;
    let s := set_spent sp s in
    Ok (if maxSpent s <? b then set_maxSpent b s else s)).

Definition initState_minRaise (game : Game) (s : State) : res State :=
  if decide (bettingType game = noLimitBetting) then
    if nz (maxSpent s) then
      m ← i32 (maxSpent s * 2);
      Ok (set_minNoLimitRaiseTo m s)
    else Ok (set_minNoLimitRaiseTo 1 s)
  else Ok (set_minNoLimitRaiseTo 0 s).

(** Second pass, which also clears the folded flags. *)
Definition initState_players (game : Game) (s : State) : res State :=
  for_ 0 (numPlayers game) s (λ p s,
    b ← rd (blind game) p;
    sp ← wr (spent s) p b;
    let s := set_spent sp s in
    let s := if maxSpent s <? b then set_maxSpent b s else s in
    pf ← wr (playerFolded s) p 0;
    Ok (set_playerFolded pf s)).

Definition initState (game : Game) (handId : Z) (s : State) : res State :=
  s ← initState_blinds game (set_handId handId s);
  s ← initState_minRaise game s;
  s ← initState_players game s;
  s ← for_ 0 (numRounds game) s (λ r s,
        na ← wr (numActions s) r 0; Ok (set_numActions na s));
  Ok (set_finished 0 (set_round 0 s)).

(** ** Validity of actions *)

(** The result is [(return value, minSize, maxSize)]; [minSize] and [maxSize]
    are what the caller's variables hold afterwards. *)
Definition raiseIsValid (game : Game) (curState : State) (minSize maxSize : Z)
    : res (Z * Z * Z) :=
  nr ← numRaises curState;
  mr ← rd (maxRaises game) (round curState);
  if mr <=? nr then Ok (0, minSize, maxSize) else
  na ← rd (numActions curState) (round curState);
  if MAX_NUM_ACTIONS <? na + numPlayers game then Ok (0, minSize, maxSize) else
  act ← numActingPlayers game curState;
  if act <=? 1 then Ok (0, minSize, maxSize) else
  if decide (bettingType game ≠ noLimitBetting) then Ok (1, 0, 0) else
  p ← currentPlayer game curState;
  let minSize := minNoLimitRaiseTo curState in
  st ← rd (stack game) p;
  let maxSize := st in
  if st <? minSize then
    if st <=? maxSpent curState then Ok (0, minSize, maxSize)
    else Ok (1, maxSize, maxSize)
  else Ok (1, minSize, maxSize).

Definition isCanFold (game : Game) (curState : State) : res Z :=
  if nz (stateFinished curState) then Ok 0 else
  p ← currentPlayer game curState;
  sp ← rd (spent curState) p;
  if sp =? maxSpent curState then Ok 0 else
  st ← rd (stack game) p;
  if sp =? st then Ok 0 else Ok 1.

(** The result is [(return value, *action)]. *)
Definition isValidAction (game : Game) (curState : State) (tryFixing : Z)
    (act : Action) : res (Z * Action) :=
  if nz (stateFinished curState) || bool_decide (type act = a_invalid)
  then Ok (0, act) else
  p ← currentPlayer game curState;
  match type act with
  | a_raise =>
      '(ok, min, max) ← raiseIsValid game curState 0 0;
      if ok =? 0 then Ok (0, act) else
      if decide (bettingType game = noLimitBetting) then
        if size act <? min then
          if tryFixing =? 0 then Ok (0, act) else Ok (1, mkAction (type act) min)
        else if max <? size act then
          if tryFixing =? 0 then Ok (0, act) else Ok (1, mkAction (type act) max)
        else Ok (1, act)
      else Ok (1, act)
  | a_fold =>
      sp ← rd (spent curState) p; st ← rd (stack game) p;
      if sp =? st then Ok (0, act)
      else Ok (1, mkAction (type act) 0)
  | _ => Ok (1, mkAction (type act) 0)
  end.

(** ** [doAction] *)

(** Recording the action and its player in the history of the round. *)
Definition doAction_record (act : Action) (p : Z) (s : State) : res State :=
  na ← rd (numActions s) (round s);
  _ ← c_assert (na <? MAX_NUM_ACTIONS);
  ac ← wr2 (action s) (round s) na act;
  ap ← wr2 (actingPlayer s) (round s) na (u8 p);
  nas ← wr (numActions s) (round s) (u8 (na + 1));
  Ok (set_numActions nas (set_actingPlayer ap (set_action ac s))).

(** The [switch] on the kind of action. *)
Definition doAction_switch (game : Game) (act : Action) (p : Z) (s : State) : res State :=
  match type act with
  | a_fold =>
      pf ← wr (playerFolded s) p 1;
      Ok (set_playerFolded pf s)
  | a_call =>
      st ← rd (stack game) p;
      sps ← wr (spent s) p (if st <? maxSpent s then st else maxSpent s);
      let s := set_spent sps s in
      na ← rd (numActions s) (round s);
      a ← rd2 (action s) (round s) (na - 1);
      sp ← rd (spent s) p;
      ac ← wr2 (action s) (round s) (na - 1) (mkAction (type a) sp);
      Ok (set_action ac s)
  | a_raise =>
      s ← (if decide (bettingType game = noLimitBetting) then
             st ← rd (stack game) p;
             _ ← c_assert (maxSpent s <? size act);
             _ ← c_assert (size act <=? st);
             twice ← i32 (size act + size act);
             to ← i32 (twice - maxSpent s);
             let s := if minNoLimitRaiseTo s <? to
                      then set_minNoLimitRaiseTo to s else s in
             Ok (set_maxSpent (size act) s)
           else
             rs ← rd (raiseSize game) (round s);
             st ← rd (stack game) p;
             to ← i32 (maxSpent s + rs);
             Ok (set_maxSpent (if st <? to then st else to) s));
      sps ← wr (spent s) p (maxSpent s);
      Ok (set_spent sps s)
  | a_invalid => Err AssertFailed
  end.

(** Bookkeeping of the amount bet in each round. *)
Definition doAction_roundSpent (act : Action) (s : State) : res State :=
  if round s =? 0 then
    rs ← wr (roundSpent s) 0 (maxSpent s);
    Ok (set_roundSpent rs s)
  else if decide (type act = a_raise) then
    rs ← wr (roundSpent s) (round s) (maxSpent s);
    for_ 0 (round s) (set_roundSpent rs s) (λ i s,
      cur ← rd (roundSpent s) (round s);
      x ← rd (roundSpent s) i;
      d ← i32 (cur - x);
      rs ← wr (roundSpent s) (round s) d;
      Ok (set_roundSpent rs s))
  else Ok s.

(** The minimum raise of a new round: one chip or the largest blind. *)
Definition minRaiseBy (game : Game) : res Z :=
  for_ 0 (numPlayers game) 1 (λ p m,
    b ← rd (blind game) p; Ok (if m <? b then b else m)).

(** The end of the round or of the hand; the result carries [*bCurRoundEnd]. *)
Definition doAction_end (game : Game) (s : State) : res (State * bool) :=
  nf ← numFolded game s;
  if numPlayers game <=? nf + 1 then Ok (set_finished 1 s, true) else
  called ← numCalled game s;
  acting ← numActingPlayers game s;
  if acting <=? called then
    acting ← numActingPlayers game s;
    if 1 <? acting then
      if round s + 1 <? numRounds game then
        let s := set_round (u8 (round s + 1)) s in
        m ← minRaiseBy game;
        to ← i32 (m + maxSpent s);
        Ok (set_minNoLimitRaiseTo to s, true)
      else Ok (set_finished 1 s, true)
    else Ok (set_round (u8 (numRounds game - 1)) (set_finished 1 s), true)
  else Ok (s, false).

Definition doAction (game : Game) (act : Action) (s : State) : res (State * bool) :=
  p ← currentPlayer game s;
  s ← doAction_record act p s;
  s ← doAction_switch game act p s;
  s ← doAction_roundSpent act s;
  doAction_end game s.
