(* ===== verification/BettingSpec.v ===== *)
(** * Specifications of the betting queries

    Pure counterparts of the query functions of [Betting] and the lemmas that
    each monadic query computes its counterpart when the arrays have their
    declared bounds: the loops terminate in bounds and their [uint8_t] counters
    do not wrap. *)

From stdpp Require Import base list list_numbers numbers option sets.
From S2P Require Import Prelude GameDef Betting.
Open Scope Z_scope.

(** ** Two-dimensional arrays *)
Definition at2 {A} `{Inhabited A} (l : list (list A)) (r i : Z) : A := at_ (at_ l r) i.
Definition upd2 {A} (l : list (list A)) (r i : Z) (v : A) : list (list A) :=
  <[Z.to_nat r := <[Z.to_nat i := v]> (at_ l r)]> l.

Section Arrays2.
Context {A : Type} `{Inhabited A}.
Implicit Types (l : list (list A)) (r i : Z).

Lemma rd2_ok l r i :
  0 ≤ r < Z.of_nat (length l) → 0 ≤ i < Z.of_nat (length (at_ l r)) →
  rd2 l r i = Ok (at2 l r i).
Proof. intros. unfold rd2. rewrite rd_ok by done. cbn. by rewrite rd_ok. Qed.

Lemma wr2_ok l r i v :
  0 ≤ r < Z.of_nat (length l) → 0 ≤ i < Z.of_nat (length (at_ l r)) →
  wr2 l r i v = Ok (upd2 l r i v).
Proof.
  intros. unfold wr2. rewrite rd_ok by done. rewrite bind_ok.
  rewrite wr_ok by done. rewrite bind_ok. by rewrite wr_ok.
Qed.

Lemma length_upd2 l r i v : length (upd2 l r i v) = length l.
Proof. apply length_insert. Qed.

Lemma length_at_upd2 l r i v r' :
  0 ≤ r < Z.of_nat (length l) → 0 ≤ r' →
  length (at_ (upd2 l r i v) r') = length (at_ l r').
Proof.
  intros. unfold upd2. rewrite at_insert by lia.
  case_decide; subst; [apply length_insert|done].
Qed.

Lemma at2_upd2 l r i v r' i' :
  0 ≤ r < Z.of_nat (length l) → 0 ≤ i < Z.of_nat (length (at_ l r)) →
  0 ≤ r' → 0 ≤ i' →
  at2 (upd2 l r i v) r' i' =
    if decide (r = r' ∧ i = i') then v else at2 l r' i'.
Proof.
  intros. unfold at2, upd2. rewrite at_insert by lia.
  destruct (decide (r = r')) as [<-|]; [|rewrite decide_False by tauto; done].
  rewrite at_insert by lia.
  destruct (decide (i = i')); [rewrite decide_True by done|rewrite decide_False by tauto]; done.
Qed.
End Arrays2.

(** ** Pure views of a state *)
Definition foldedb (s : State) (p : Z) : bool := nz (at_ (playerFolded s) p).
Definition allinb (g : Game) (s : State) (p : Z) : bool :=
  at_ (stack g) p <=? at_ (spent s) p.
(** Neither folded nor all-in: the player can still act. *)
Definition actingb (g : Game) (s : State) (p : Z) : bool :=
  negb (foldedb s p) && negb (allinb g s p).
(** Length, actions and actors of the current round. *)
Definition na (s : State) : Z := at_ (numActions s) (round s).
Definition act (s : State) (i : Z) : Action := at2 (action s) (round s) i.
Definition actor (s : State) (i : Z) : Z := at2 (actingPlayer s) (round s) i.

Definition nFolded (g : Game) (s : State) : Z := countZ (foldedb s) (numPlayers g).
Definition nActing (g : Game) (s : State) : Z := countZ (actingb g s) (numPlayers g).
Definition nAllIn (g : Game) (s : State) : Z := countZ (allinb g s) (numPlayers g).

(** Indices of [lo .. hi-1] satisfying a test. *)
Definition cntR (f : Z → bool) (lo hi : Z) : Z :=
  Z.of_nat (length (List.filter f (seqZ lo (hi - lo)))).

Definition isRaise (a : Action) : bool := bool_decide (type a = a_raise).
Definition isFold (a : Action) : bool := bool_decide (type a = a_fold).

(** Raises made in the current round. *)
Definition nRaises (s : State) : Z := cntR (λ i, isRaise (act s i)) 0 (na s).

(** ** Range facts used by every query *)
Record in_shape (g : Game) (s : State) : Prop := {
  is_game : game_shape g;
  is_state : state_shape s;
  is_players : 2 ≤ numPlayers g ≤ 10;
  is_rounds : 1 ≤ numRounds g ≤ 4;
  is_round : 0 ≤ round s < numRounds g;
  is_na : 0 ≤ na s ≤ 64;
  is_actor : ∀ i, 0 ≤ i < na s → 0 ≤ actor s i < numPlayers g;
  is_type : ∀ i, 0 ≤ i < na s → type (act s i) ≠ a_invalid
}.

Lemma cntR_nil f lo hi : hi ≤ lo → cntR f lo hi = 0.
Proof. intros. unfold cntR. rewrite seqZ_nil_le by lia. done. Qed.

Lemma cntR_S f lo hi :
  lo ≤ hi → cntR f lo (hi + 1) = cntR f lo hi + (if f hi then 1 else 0).
Proof.
  intros. unfold cntR. replace (hi + 1 - lo) with (hi - lo + 1) by lia.
  rewrite seqZ_snoc by lia. replace (lo + (hi - lo)) with hi by lia.
  rewrite List.filter_app, length_app. cbn. destruct (f hi); cbn; lia.
Qed.

Lemma cntR_ext f g lo hi :
  (∀ i, lo ≤ i < hi → f i = g i) → cntR f lo hi = cntR g lo hi.
Proof.
  intros Heq. unfold cntR. f_equal. f_equal. apply List.filter_ext_in.
  intros i Hi%list_elem_of_In%elem_of_seqZ. apply Heq. lia.
Qed.

Lemma cntR_bound f lo hi : 0 ≤ cntR f lo hi ≤ Z.max 0 (hi - lo).
Proof.
  unfold cntR. pose proof (List.filter_length_le f (seqZ lo (hi - lo))) as H.
  rewrite length_seqZ in H. lia.
Qed.

Lemma cntR_countZ f n : cntR f 0 n = countZ f n.
Proof. unfold cntR, countZ. by rewrite Z.sub_0_r. Qed.

(** ** Turn order *)

(** Seat arithmetic modulo the number of players, for sums below [2 n]. *)
Definition wrapn (n x : Z) : Z := if x <? n then x else x - n.

(** The seat from which the search for the next player starts. *)
Definition firstSeat (g : Game) (s : State) : Z :=
  if na s =? 0 then at_ (firstPlayer g) (round s)
  else wrapn (numPlayers g) (actor s (na s - 1) + 1).

(** [p] is the first player able to act, going round the table from seat [c]. *)
Definition first_acting (g : Game) (s : State) (c p : Z) : Prop :=
  ∃ d, 0 ≤ d < numPlayers g ∧ p = wrapn (numPlayers g) (c + d) ∧ actingb g s p = true ∧
    ∀ d', 0 ≤ d' < d → actingb g s (wrapn (numPlayers g) (c + d')) = false.

Lemma wrapn_range n x : 0 ≤ x < 2 * n → 0 ≤ wrapn n x < n.
Proof. unfold wrapn. destruct (Z.ltb_spec x n); lia. Qed.

Lemma wrapn_rem n x : 0 < n → 0 ≤ x < 2 * n → Z.rem x n = wrapn n x.
Proof.
  intros. unfold wrapn. destruct (Z.ltb_spec x n); [apply Z.rem_small; lia|].
  replace x with (x - n + 1 * n) at 1 by lia.
  rewrite Z.rem_add by nia. apply Z.rem_small; lia.
Qed.

Lemma wrapn_succ n c d :
  0 ≤ c < n → 0 ≤ d < n → wrapn n (wrapn n (c + d) + 1) = wrapn n (c + (d + 1)).
Proof.
  intros. unfold wrapn.
  destruct (Z.ltb_spec (c + d) n), (Z.ltb_spec (c + (d + 1)) n);
    try destruct (Z.ltb_spec (c + d + 1) n);
    try destruct (Z.ltb_spec (c + d - n + 1) n); lia.
Qed.

(** A bounded search by decidable test. *)
Lemma least_witness (f : Z → bool) n :
  (∃ i, 0 ≤ i < n ∧ f i = true) →
  ∃ d, 0 ≤ d < n ∧ f d = true ∧ ∀ d', 0 ≤ d' < d → f d' = false.
Proof.
  intros (i & Hi & Hf).
  assert (∀ k, 0 ≤ k → (∃ d, 0 ≤ d < k ∧ f d = true ∧ ∀ d', 0 ≤ d' < d → f d' = false)
     ∨ (∀ d, 0 ≤ d < k → f d = false)) as Hk.
  { apply Z_bound_ind; [right; intros; lia|]. intros k Hk [(d & ? & ? & ?)|Hnone].
    - left. exists d. split_and!; [lia|lia|done|done].
    - destruct (f k) eqn:E.
      + left. exists k. split_and!; [lia|lia|done|]. intros. apply Hnone. lia.
      + right. intros d Hd. destruct (decide (d = k)) as [->|]; [done|apply Hnone; lia]. }
  destruct (Hk n ltac:(lia)) as [(d & ? & ? & ?)|Hnone]; [eauto|].
  rewrite Hnone in Hf by lia. done.
Qed.

Lemma first_acting_exists g s c :
  0 ≤ c < numPlayers g → 0 < nActing g s → ∃ p, first_acting g s c p.
Proof.
  intros Hc (q & Hq & Ha)%countZ_pos.
  destruct (least_witness (λ d, actingb g s (wrapn (numPlayers g) (c + d))) (numPlayers g))
    as (d & ? & ? & ?).
  - exists (if c <=? q then q - c else q - c + numPlayers g).
    unfold wrapn. destruct (Z.leb_spec c q).
    + split; [lia|]. destruct (Z.ltb_spec (c + (q - c)) (numPlayers g)); [|lia].
      by replace (c + (q - c)) with q by lia.
    + split; [lia|]. destruct (Z.ltb_spec (c + (q - c + numPlayers g)) (numPlayers g)); [lia|].
      by replace (c + (q - c + numPlayers g) - numPlayers g) with q by lia.
  - eexists _, d. split_and!; eauto; lia.
Qed.

Lemma first_acting_range g s c p :
  0 ≤ c < numPlayers g → first_acting g s c p → 0 ≤ p < numPlayers g.
Proof. intros ? (d & ? & -> & ?). apply wrapn_range. lia. Qed.

(** ** The queries *)
Section Queries.
Context (g : Game) (s : State) (Sh : in_shape g s).

Local Ltac shape :=
  pose proof (is_players _ _ Sh); pose proof (is_rounds _ _ Sh);
  pose proof (is_round _ _ Sh); pose proof (is_na _ _ Sh);
  pose proof (gs_stack _ (is_game _ _ Sh)); pose proof (gs_first _ (is_game _ _ Sh));
  pose proof (gs_max _ (is_game _ _ Sh)); pose proof (gs_blind _ (is_game _ _ Sh));
  pose proof (ss_spent _ (is_state _ _ Sh)); pose proof (ss_folded _ (is_state _ _ Sh));
  pose proof (ss_numActions _ (is_state _ _ Sh));
  pose proof (ss_action _ (is_state _ _ Sh)); pose proof (ss_acting _ (is_state _ _ Sh)).

Lemma len_action_row : Z.of_nat (length (at_ (action s) (round s))) = 64.
Proof. shape. unfold at_. rewrite (ss_action2 _ (is_state _ _ Sh)) by lia. done. Qed.
Lemma len_acting_row : Z.of_nat (length (at_ (actingPlayer s) (round s))) = 64.
Proof. shape. unfold at_. rewrite (ss_acting2 _ (is_state _ _ Sh)) by lia. done. Qed.

Lemma rd_na : rd (numActions s) (round s) = Ok (na s).
Proof. shape. by rewrite rd_ok by lia. Qed.
Lemma rd2_act i : 0 ≤ i < 64 → rd2 (action s) (round s) i = Ok (act s i).
Proof. shape. intros. rewrite rd2_ok; [done|lia|rewrite len_action_row; lia]. Qed.
Lemma rd2_actor i : 0 ≤ i < 64 → rd2 (actingPlayer s) (round s) i = Ok (actor s i).
Proof. shape. intros. rewrite rd2_ok; [done|lia|rewrite len_acting_row; lia]. Qed.

Lemma numFolded_ok : numFolded g s = Ok (nFolded g s).
Proof.
  shape. apply for_countZ; [lia|]. intros p c Hp. rewrite rd_ok by lia. reflexivity.
Qed.

Lemma numActingPlayers_ok : numActingPlayers g s = Ok (nActing g s).
Proof.
  shape. apply for_countZ; [lia|]. intros p c Hp. rewrite !rd_ok by lia. cbn.
  unfold actingb, foldedb, nz.
  destruct (at_ (playerFolded s) p =? 0); cbn; [|done]. unfold allinb.
  by rewrite Z.leb_antisym, Bool.negb_involutive.
Qed.

Lemma numAllIn_ok : numAllIn g s = Ok (nAllIn g s).
Proof.
  shape. apply for_countZ; [lia|]. intros p c Hp.
  rewrite !rd_ok by lia. reflexivity.
Qed.

Lemma numRaises_ok : numRaises s = Ok (nRaises s).
Proof.
  shape. unfold numRaises, nRaises. rewrite rd_na. cbn. rewrite cntR_countZ.
  apply for_countZ; [lia|]. intros i c Hi. rewrite rd2_act by lia. cbn.
  unfold isRaise. by repeat case_decide || case_bool_decide.
Qed.

(** One iteration of the search of [nextPlayer]. *)
Lemma nextPlayer_loop_step fuel n cnt :
  0 ≤ n → n + 1 < 2 * numPlayers g → 0 ≤ cnt ≤ numPlayers g + 2 →
  nextPlayer_loop (S fuel) g s n cnt =
    let n' := wrapn (numPlayers g) (n + 1) in
    if actingb g s n' then Ok n' else nextPlayer_loop fuel g s n' (cnt + 1).
Proof.
  shape. intros Hn Hn2 Hc. cbn [nextPlayer_loop].
  unfold c_rem. destruct (Z.eqb_spec (numPlayers g) 0); [lia|].
  rewrite wrapn_rem by lia. rewrite bind_ok.
  pose proof (wrapn_range (numPlayers g) (n + 1) ltac:(lia)) as Hw.
  destruct (Z.ltb_spec (numPlayers g + 2) cnt); [lia|].
  rewrite !rd_ok by lia. rewrite !bind_ok. rewrite u8_small by lia.
  unfold actingb, foldedb, allinb.
  destruct (nz (at_ (playerFolded s) (wrapn (numPlayers g) (n + 1)))); cbn; [done|].
  by destruct (_ <=? _).
Qed.

(** [nextPlayer] finds the first player able to act... *)
Lemma nextPlayer_ok cur p :
  0 ≤ cur → cur + 1 < 2 * numPlayers g →
  first_acting g s (wrapn (numPlayers g) (cur + 1)) p → nextPlayer g s cur = Ok p.
Proof.
  shape. intros Hc1 Hc2 (d & Hd & Hp & Ha & Hno). unfold nextPlayer.
  set (c := wrapn (numPlayers g) (cur + 1)) in *.
  assert (0 ≤ c < numPlayers g) as Hc by (apply wrapn_range; lia).
  assert (∀ j n fuel, 0 ≤ j ≤ d → Z.of_nat fuel = d - j + 1 + (3 + (numPlayers g - d)) →
    0 ≤ n → n + 1 < 2 * numPlayers g → wrapn (numPlayers g) (n + 1) = wrapn (numPlayers g) (c + j) →
    nextPlayer_loop fuel g s n j = Ok p) as Hloop.
  { intros j n fuel Hj. remember (d - j) as k eqn:Ek. assert (0 ≤ k) as Hk by lia.
    revert j n fuel Hj Ek. pattern k. apply Z_bound_ind; [| |done]; clear k Hk.
    - intros j n fuel Hj Ek Hf ?? Hw. destruct fuel as [|fuel]; [lia|].
      rewrite nextPlayer_loop_step by lia. cbv zeta. rewrite Hw.
      replace j with d by lia. rewrite <-Hp, Ha. done.
    - intros k Hk IH j n fuel Hj Ek Hf ?? Hw. destruct fuel as [|fuel]; [lia|].
      rewrite nextPlayer_loop_step by lia. cbv zeta. rewrite Hw, Hno by lia.
      pose proof (wrapn_range (numPlayers g) (c + j) ltac:(lia)).
      apply IH; try lia. rewrite wrapn_succ by lia. done. }
  apply Hloop; try lia. by rewrite Z.add_0_r; unfold c; unfold wrapn at 2;
    destruct (Z.ltb_spec (wrapn (numPlayers g) (cur + 1)) (numPlayers g)); [|lia].
Qed.

(** ... and reports the exceptional value 255 when nobody can act. *)
Lemma nextPlayer_none cur :
  0 ≤ cur → cur + 1 < 2 * numPlayers g → nActing g s = 0 →
  nextPlayer g s cur = Ok 255.
Proof.
  shape. intros Hc1 Hc2 Hz. unfold nextPlayer.
  assert (∀ q, 0 ≤ q < numPlayers g → actingb g s q = false) as Hno.
  { intros q Hq. destruct (actingb g s q) eqn:E; [|done].
    pose proof (countZ_pos_intro (actingb g s) (numPlayers g) q Hq E). unfold nActing in Hz. lia. }
  assert (∀ k n j, Z.of_nat k = numPlayers g + 3 - j → 0 ≤ j ≤ numPlayers g + 3 →
    0 ≤ n → n + 1 < 2 * numPlayers g →
    nextPlayer_loop (S k) g s n j = Ok 255) as Hloop.
  { induction k as [|k IH]; intros n j Hk Hj ??.
    - cbn [nextPlayer_loop]. unfold c_rem. destruct (Z.eqb_spec (numPlayers g) 0); [lia|].
      rewrite bind_ok. destruct (Z.ltb_spec (numPlayers g + 2) j); [done|lia].
    - rewrite nextPlayer_loop_step by lia. cbv zeta.
      pose proof (wrapn_range (numPlayers g) (n + 1) ltac:(lia)).
      rewrite Hno by lia. apply IH; lia. }
  replace (Z.to_nat (numPlayers g + 4)) with (S (Z.to_nat (numPlayers g + 3))) by lia.
  apply Hloop; lia.
Qed.

Context (First : 0 ≤ at_ (firstPlayer g) (round s) < numPlayers g).

Lemma firstSeat_range : 0 ≤ firstSeat g s < numPlayers g.
Proof.
  shape. unfold firstSeat. destruct (Z.eqb_spec (na s) 0); [done|].
  apply wrapn_range. pose proof (is_actor _ _ Sh (na s - 1) ltac:(lia)). lia.
Qed.

Lemma currentPlayer_ok p : first_acting g s (firstSeat g s) p → currentPlayer g s = Ok p.
Proof.
  shape. unfold currentPlayer, firstSeat. rewrite (rd_na), bind_ok.
  unfold nz. destruct (Z.eqb_spec (na s) 0) as [E|E]; cbn [negb]; intros Hp.
  - rewrite rd_ok by lia. rewrite bind_ok. rewrite u8_small by lia.
    apply nextPlayer_ok; [lia|lia|]. unfold wrapn at 1.
    destruct (Z.ltb_spec (at_ (firstPlayer g) (round s) + numPlayers g - 1 + 1) (numPlayers g)); [lia|].
    by replace (at_ (firstPlayer g) (round s) + numPlayers g - 1 + 1 - numPlayers g)
      with (at_ (firstPlayer g) (round s)) by lia.
  - rewrite rd2_actor by lia. rewrite bind_ok.
    pose proof (is_actor _ _ Sh (na s - 1) ltac:(lia)).
    apply nextPlayer_ok; [lia|lia|done].
Qed.

Lemma currentPlayer_none : nActing g s = 0 → currentPlayer g s = Ok 255.
Proof.
  shape. intros Hz. unfold currentPlayer. rewrite (rd_na), bind_ok.
  unfold nz. destruct (Z.eqb_spec (na s) 0) as [E|E]; cbn [negb].
  - rewrite rd_ok by lia. rewrite bind_ok. rewrite u8_small by lia.
    apply nextPlayer_none; lia.
  - rewrite rd2_actor by lia. rewrite bind_ok.
    pose proof (is_actor _ _ Sh (na s - 1) ltac:(lia)). apply nextPlayer_none; lia.
Qed.

(** [numCalled] counts, back to the start [m] of the current bet, the calls and
    the opening raise of players who are not all-in. *)
Lemma numCalled_ok m :
  0 ≤ m ≤ na s → (m = 0 ∨ m < na s ∧ type (act s m) = a_raise) →
  (∀ i, m < i < na s → type (act s i) ≠ a_raise) →
  numCalled g s = Ok (cntR (λ i, negb (isFold (act s i)) && negb (allinb g s (actor s i))) m (na s)).
Proof.
  shape. intros Hm Hhead Hnr. unfold numCalled. rewrite rd_na, bind_ok.
  set (test := λ i, negb (isFold (act s i)) && negb (allinb g s (actor s i))).
  set (body := λ i ret, _).
  assert (Hbody : ∀ i ret, 0 ≤ i < na s → 0 ≤ ret < 255 →
    body i ret = Ok (if isRaise (act s i) then inr (ret + c_bool (test i))
                     else inl (ret + c_bool (test i)))).
  { intros i ret Hi Hr. unfold body. rewrite rd2_actor, rd2_act by lia. rewrite !bind_ok.
    pose proof (is_actor _ _ Sh i Hi). pose proof (is_type _ _ Sh i Hi).
    rewrite !rd_ok by lia. rewrite !bind_ok. unfold isRaise, test, isFold, allinb.
    rewrite Z.leb_antisym, Bool.negb_involutive.
    destruct (type (act s i)); cbn; try done;
      destruct (_ <? _); cbn; rewrite ?u8_small, ?Z.add_0_r by lia; done. }
  assert (Hloop : ∀ k, 0 ≤ k → ∀ ret, m ≤ k ≤ na s → (m < k ∨ m = 0) →
    0 ≤ ret ≤ na s - k →
    (o ← foldR body (reverse (seqZ 0 k)) ret; Ok (match o with inl r => r | inr r => r end))
      = Ok (ret + cntR test m k)).
  { intros k Hk. pattern k. apply Z_bound_ind; [| |done]; clear k Hk.
    - intros ret ???. rewrite cntR_nil by lia. cbn. by rewrite Z.add_0_r.
    - intros k Hk IH ret Hmk Hms Hret.
      rewrite seqZ_snoc, Z.add_0_l by done. rewrite reverse_snoc. cbn [foldR].
      rewrite Hbody by lia. rewrite bind_ok.
      destruct (decide (k = m)) as [->|Hne].
      + rewrite cntR_S, cntR_nil by lia. unfold isRaise.
        destruct Hhead as [->|[_ E]].
        * case_bool_decide; cbn; unfold c_bool; destruct (test 0); f_equal; lia.
        * rewrite bool_decide_true by done. cbn. unfold c_bool. destruct (test m); f_equal; lia.
      + destruct (decide (m ≤ k)) as [Hmk2|]; [|lia].
        unfold isRaise. rewrite bool_decide_false by (apply Hnr; lia).
        rewrite IH; [|lia|lia|unfold c_bool; destruct (test k); lia].
        rewrite cntR_S by lia. unfold c_bool. destruct (test k); f_equal; lia. }
  specialize (Hloop (na s) ltac:(lia) 0). rewrite Z.add_0_l in Hloop.
  apply Hloop; [lia| |lia]. destruct Hhead as [|[? ?]]; [by right|by left].
Qed.
End Queries.
