(* ===== verification/BettingInv.v ===== *)
(** * The invariant of the betting engine

    [wf_game] is what a game definition must satisfy for a hand to be playable
    without undefined behaviour; [inv] is what holds of every state reached from
    [initState] by valid actions.  Its core is [bet_window]: since the bet now to
    be matched was opened (action [m] of the round, by player [f]) the players
    have acted once each, in seat order starting at [f], and every player behind
    the last actor who can still act has matched the bet. *)

From stdpp Require Import base list list_numbers numbers option sets.
From S2P Require Import Prelude GameDef Betting BettingSpec.
Open Scope Z_scope.

(** ** Well-formed games *)

(** Largest value of an index function, at least [m0]. *)
Definition maxZ (f : Z → Z) (n m0 : Z) : Z :=
  fold_left (λ m p, Z.max m (f p)) (seqZ 0 n) m0.

Definition maxBlind (g : Game) : Z := maxZ (at_ (blind g)) (numPlayers g) 1.
Definition maxRaiseSize (g : Game) : Z := maxZ (at_ (raiseSize g)) (numRounds g) 0.

Record wf_game (g : Game) : Prop := {
  wg_shape : game_shape g;
  wg_players : 2 ≤ numPlayers g ≤ 10;
  wg_rounds : 1 ≤ numRounds g ≤ 4;
  wg_first : ∀ r, 0 ≤ r < numRounds g → 0 ≤ at_ (firstPlayer g) r < numPlayers g;
  wg_blind : ∀ p, 0 ≤ p < numPlayers g → 0 ≤ at_ (blind g) p ≤ at_ (stack g) p;
  wg_stack : ∀ p, 0 ≤ p < numPlayers g → at_ (stack g) p ≤ INT32_MAX;
  (** somebody can act before the first card is seen *)
  wg_open : ∃ p, 0 ≤ p < numPlayers g ∧ at_ (blind g) p < at_ (stack g) p;
  (** limit games: equal stacks, and room below [INT32_MAX] for 256 raises *)
  wg_limit : bettingType g = limitBetting →
    (∀ p, 0 ≤ p < numPlayers g → at_ (stack g) p = at_ (stack g) 0) ∧
    (∀ r, 0 ≤ r < numRounds g → 0 ≤ at_ (raiseSize g) r) ∧
    2 * maxBlind g + 256 * maxRaiseSize g ≤ INT32_MAX;
  (** no-limit games: doubling a stack stays below [INT32_MAX] *)
  wg_nolimit : bettingType g = noLimitBetting →
    ∀ p, 0 ≤ p < numPlayers g → 2 * at_ (stack g) p ≤ INT32_MAX
}.

(** The same as a boolean test. *)
Definition forallZ (n : Z) (f : Z → bool) : bool := forallb f (seqZ 0 n).
Definition existsZ (n : Z) (f : Z → bool) : bool := existsb f (seqZ 0 n).

Definition game_shapeb (g : Game) : bool :=
  bool_decide (length (stack g) = 10%nat ∧ length (blind g) = 10%nat ∧
    length (raiseSize g) = 4%nat ∧ length (firstPlayer g) = 4%nat ∧
    length (maxRaises g) = 4%nat ∧ length (numBoardCards g) = 4%nat).

Definition wf_chipsb (g : Game) : bool :=
  match bettingType g with
  | limitBetting =>
      forallZ (numPlayers g) (λ p, at_ (stack g) p =? at_ (stack g) 0) &&
      (forallZ (numRounds g) (λ r, 0 <=? at_ (raiseSize g) r) &&
      (2 * maxBlind g + 256 * maxRaiseSize g <=? INT32_MAX))
  | noLimitBetting => forallZ (numPlayers g) (λ p, 2 * at_ (stack g) p <=? INT32_MAX)
  end.

Definition wf_gameb (g : Game) : bool :=
  game_shapeb g && (
  bool_decide (2 ≤ numPlayers g ≤ 10) && (bool_decide (1 ≤ numRounds g ≤ 4) && (
  forallZ (numRounds g) (λ r, bool_decide (0 ≤ at_ (firstPlayer g) r < numPlayers g)) && (
  forallZ (numPlayers g) (λ p, bool_decide (0 ≤ at_ (blind g) p ≤ at_ (stack g) p)) && (
  forallZ (numPlayers g) (λ p, at_ (stack g) p <=? INT32_MAX) && (
  existsZ (numPlayers g) (λ p, at_ (blind g) p <? at_ (stack g) p) &&
  wf_chipsb g)))))).

Lemma forallZ_spec n f : forallZ n f = true ↔ ∀ i, 0 ≤ i < n → f i = true.
Proof.
  unfold forallZ. rewrite forallb_forall. setoid_rewrite <-list_elem_of_In.
  setoid_rewrite elem_of_seqZ. by setoid_rewrite Z.add_0_l.
Qed.

Lemma maxZ_lb f n m0 : m0 ≤ maxZ f n m0.
Proof.
  unfold maxZ. generalize m0. induction (seqZ 0 n) as [|x l IH]; intros m; cbn; [lia|].
  specialize (IH (Z.max m (f x))). lia.
Qed.

Lemma maxZ_S f n m0 : 0 ≤ n → maxZ f (n + 1) m0 = Z.max (maxZ f n m0) (f n).
Proof.
  intros. unfold maxZ. rewrite seqZ_snoc, Z.add_0_l by done. by rewrite fold_left_app.
Qed.

Lemma maxZ_ge f n m0 i : 0 ≤ i < n → f i ≤ maxZ f n m0.
Proof.
  intros Hi. assert (Hn : 0 ≤ n) by lia. revert n Hn Hi.
  apply (Z_bound_ind (λ n, 0 ≤ i < n → f i ≤ maxZ f n m0)); [lia|].
  intros n Hn IH Hi. rewrite maxZ_S by done.
  destruct (decide (i = n)) as [->|]; [lia|]. specialize (IH ltac:(lia)). lia.
Qed.

Lemma maxZ_le f n m0 B : m0 ≤ B → (∀ i, 0 ≤ i < n → f i ≤ B) → maxZ f n m0 ≤ B.
Proof.
  intros H0 Hf. unfold maxZ.
  assert (∀ i, i ∈ seqZ 0 n → f i ≤ B) as Hl by (intros i ?%elem_of_seqZ; apply Hf; lia).
  revert m0 H0. induction (seqZ 0 n) as [|x l IH]; intros m Hm; cbn; [done|].
  apply IH; [set_solver|]. specialize (Hl x ltac:(set_solver)). lia.
Qed.

Lemma maxZ_attained f n m0 : maxZ f n m0 = m0 ∨ ∃ i, 0 ≤ i < n ∧ f i = maxZ f n m0.
Proof.
  destruct (Z.le_gt_cases 0 n) as [Hn|Hn]; [|left; unfold maxZ; by rewrite seqZ_nil_le by lia].
  revert n Hn. apply Z_bound_ind; [by left|]. intros n Hn [E|(i & Hi & E)]; rewrite maxZ_S by done.
  - rewrite E. destruct (Z.max_spec m0 (f n)) as [[? ->]|[? ->]]; [right; exists n; split; [lia|done]|by left].
  - right. destruct (Z.max_spec (maxZ f n m0) (f n)) as [[? ->]|[? ->]]; [exists n|exists i]; split; (lia || done).
Qed.

Lemma existsZ_spec n f : existsZ n f = true ↔ ∃ i, 0 ≤ i < n ∧ f i = true.
Proof.
  unfold existsZ. rewrite existsb_exists. setoid_rewrite <-list_elem_of_In.
  setoid_rewrite elem_of_seqZ. by setoid_rewrite Z.add_0_l.
Qed.

Lemma game_shapeb_spec g : game_shapeb g = true → game_shape g.
Proof. unfold game_shapeb. rewrite bool_decide_eq_true. intros. destruct_and!. by split. Qed.

Lemma wf_gameb_spec g : wf_gameb g = true → wf_game g.
Proof.
  unfold wf_gameb. intros H.
  repeat (let H' := fresh "W" in apply andb_prop in H as [H' H]).
  rewrite bool_decide_eq_true in W0, W1.
  rewrite forallZ_spec in W2, W3, W4. apply existsZ_spec in W5 as (p0 & Hp0 & Hlt).
  split; try done.
  - by apply game_shapeb_spec.
  - intros r Hr. specialize (W2 r Hr). by rewrite bool_decide_eq_true in W2.
  - intros p Hp. specialize (W3 p Hp). by rewrite bool_decide_eq_true in W3.
  - intros p Hp. by apply Z.leb_le, (W4 p).
  - exists p0. lia.
  - unfold wf_chipsb in H. intros E. rewrite E in H.
    apply andb_prop in H as [Ha H]; apply andb_prop in H as [Hb H].
    rewrite forallZ_spec in Ha, Hb. split_and!; [|intros; apply Z.leb_le; auto|lia].
    intros p Hp. by apply Z.eqb_eq, Ha.
  - unfold wf_chipsb in H. intros E. rewrite E in H. rewrite forallZ_spec in H.
    intros p Hp. by apply Z.leb_le, H.
Qed.

(** ** The invariant *)

(** Seats counted from [f]. *)
Definition rel (n f q : Z) : Z := if f <=? q then q - f else q - f + n.

(** Player [q] has acted since action [m] of the round. *)
Definition acted (s : State) (m q : Z) : bool :=
  existsb (λ i, actor s i =? q) (seqZ m (na s - m)).

(** Total number of actions of the hand. *)
Definition totalActions (g : Game) (s : State) : Z :=
  sumZ (at_ (numActions s)) (numRounds g).

Record bet_window (g : Game) (s : State) (m f : Z) : Prop := {
  bw_m : 0 ≤ m ≤ na s;
  bw_room : m + numPlayers g ≤ 64;
  bw_f : 0 ≤ f < numPlayers g;
  bw_fresh : m = na s → na s = 0;
  bw_head : m = 0 ∨ m < na s ∧ type (act s m) = a_raise;
  bw_noraise : ∀ i, m < i < na s → type (act s i) ≠ a_raise;
  bw_order : ∀ i, m ≤ i < na s →
    rel (numPlayers g) f (actor s i) ≤ rel (numPlayers g) f (actor s (na s - 1));
  bw_len : m < na s → na s - m ≤ rel (numPlayers g) f (actor s (na s - 1)) + 1;
  bw_cover : m < na s → ∀ q, 0 ≤ q < numPlayers g → actingb g s q = true →
    rel (numPlayers g) f q < rel (numPlayers g) f (actor s (na s - 1)) → acted s m q = true;
  bw_match : ∀ i, m ≤ i < na s → type (act s i) ≠ a_fold →
    at_ (spent s) (actor s i) = Z.min (maxSpent s) (at_ (stack g) (actor s i));
  bw_fold : ∀ i, m ≤ i < na s → type (act s i) = a_fold → foldedb s (actor s i) = true;
  bw_called :
    cntR (λ i, negb (isFold (act s i)) && negb (allinb g s (actor s i))) m (na s)
    = countZ (λ q, actingb g s q && acted s m q) (numPlayers g)
}.

(** The chips: nobody has spent more than the bet or his stack, and somebody
    has spent exactly the bet. *)
Record chips_ok (g : Game) (s : State) : Prop := {
  ck_spent : ∀ p, 0 ≤ p < numPlayers g →
    0 ≤ at_ (spent s) p ≤ at_ (stack g) p ∧ at_ (spent s) p ≤ maxSpent s;
  ck_max : ∃ p, 0 ≤ p < numPlayers g ∧ at_ (spent s) p = maxSpent s;
  ck_limit : bettingType g = limitBetting →
    maxSpent s ≤ maxBlind g + maxRaiseSize g * totalActions g s;
  ck_nolimit : bettingType g = noLimitBetting → maxSpent s < minNoLimitRaiseTo s
}.

(** The amounts bet round by round add up to the bet, once somebody has acted. *)
Record rounds_ok (g : Game) (s : State) : Prop := {
  rk_nonneg : ∀ r, 0 ≤ r < numRounds g → 0 ≤ at_ (roundSpent s) r;
  rk_future : ∀ r, round s < r < numRounds g → at_ (roundSpent s) r = 0;
  rk_sum : 0 < round s ∨ 0 < na s →
    sumZ (at_ (roundSpent s)) (numRounds g) = maxSpent s
}.

Record inv (g : Game) (s : State) : Prop := {
  inv_shape : in_shape g s;
  inv_na : ∀ r, 0 ≤ r < numRounds g → 0 ≤ at_ (numActions s) r ≤ 64;
  inv_future : ∀ r, round s < r < numRounds g → at_ (numActions s) r = 0;
  inv_hist : ∀ r i, 0 ≤ r < numRounds g → 0 ≤ i < at_ (numActions s) r →
    type (at2 (action s) r i) ≠ a_invalid ∧ 0 ≤ at2 (actingPlayer s) r i < numPlayers g;
  inv_folded : ∀ p, 0 ≤ p < numPlayers g → at_ (playerFolded s) p = 0 ∨ at_ (playerFolded s) p = 1;
  inv_chips : chips_ok g s;
  inv_rounds : rounds_ok g s;
  inv_finished : finished s = 0 ∨ finished s = 1;
  inv_open : finished s = 0 → nFolded g s + 1 < numPlayers g ∧
    ∃ m f, bet_window g s m f ∧
      countZ (λ q, actingb g s q && acted s m q) (numPlayers g) < nActing g s
}.

(** ** Concrete games for the witnesses *)

(** Heads-up limit hold'em with reversed blinds, unlimited stacks. *)
Definition limit2p : Game :=
  mkGame (replicate 10 INT32_MAX) [10; 5; 0; 0; 0; 0; 0; 0; 0; 0] [10; 10; 20; 20]
    limitBetting 2 4 [1; 0; 0; 0] [3; 4; 4; 4] 4 13 2 [0; 3; 1; 1].

(** Three-player no-limit hold'em. *)
Definition nolimit3p : Game :=
  mkGame (replicate 10 20000) [50; 100; 0; 0; 0; 0; 0; 0; 0; 0] [0; 0; 0; 0]
    noLimitBetting 3 4 [2; 0; 0; 0] [255; 255; 255; 255] 4 13 2 [0; 3; 1; 1].

Lemma limit2p_wf : wf_game limit2p.
Proof. apply wf_gameb_spec. vm_compute. reflexivity. Qed.
Lemma nolimit3p_wf : wf_game nolimit3p.
Proof. apply wf_gameb_spec. vm_compute. reflexivity. Qed.
