(* ===== verification/BettingStep.v ===== *)
(** * Preservation of the invariant by a betting step

    Turn order, the answer of [isValidAction], and the effect of [doAction] on
    a state satisfying [inv]. *)

From stdpp Require Import base list list_numbers numbers option sets.
From S2P Require Import Prelude GameDef Betting BettingSpec BettingInv.
Open Scope Z_scope.

(** ** Seats *)
Lemma rel_range n f q : 0 ≤ f < n → 0 ≤ q < n → 0 ≤ rel n f q < n.
Proof. unfold rel. destruct (Z.leb_spec f q); lia. Qed.

Lemma rel_self n f : rel n f f = 0.
Proof. unfold rel. destruct (Z.leb_spec f f); lia. Qed.

Lemma rel_inj n f p q :
  0 ≤ f < n → 0 ≤ p < n → 0 ≤ q < n → rel n f p = rel n f q → p = q.
Proof. unfold rel. destruct (Z.leb_spec f p), (Z.leb_spec f q); lia. Qed.

Lemma rel_wrapn n f last d :
  0 ≤ f < n → 0 ≤ last < n → 0 ≤ d < n →
  rel n f (wrapn n (wrapn n (last + 1) + d)) = wrapn n (rel n f last + 1 + d).
Proof.
  intros. unfold rel, wrapn.
  destruct (Z.ltb_spec (last + 1) n); [destruct (Z.ltb_spec (last + 1 + d) n)|
    destruct (Z.ltb_spec (last + 1 - n + d) n)];
  destruct (Z.leb_spec f last);
  match goal with |- context [f <=? ?x] => destruct (Z.leb_spec f x) end;
  match goal with |- context [?x <? n] => destruct (Z.ltb_spec x n) end; lia.
Qed.

Lemma acted_spec s m q :
  acted s m q = true ↔ ∃ i, m ≤ i < na s ∧ actor s i = q.
Proof.
  unfold acted. rewrite existsb_exists. setoid_rewrite <-list_elem_of_In.
  setoid_rewrite elem_of_seqZ. setoid_rewrite Z.eqb_eq.
  split; intros (i & ? & ?); exists i; split; (lia || done).
Qed.

(** If a stronger test is satisfied as often, the two tests agree. *)
Lemma countZ_eq_mono f g n :
  (∀ i, 0 ≤ i < n → f i = true → g i = true) → countZ g n ≤ countZ f n →
  ∀ i, 0 ≤ i < n → g i = true → f i = true.
Proof.
  intros Hfg Hle i Hi Hg. destruct (f i) eqn:E; [done|].
  pose proof (countZ_update (λ j, f j || (j =? i)) f n i Hi) as Hu.
  assert (countZ (λ j, f j || (j =? i)) n ≤ countZ g n) as Hm.
  { apply countZ_mono. intros j Hj [?|E'%Z.eqb_eq]%orb_prop; [by apply Hfg|by subst]. }
  cbn in Hu. rewrite E, Z.eqb_refl in Hu. cbn in Hu.
  enough (∀ j, 0 ≤ j < n → j ≠ i → f j || (j =? i) = f j) as Hj by (specialize (Hu Hj); lia).
  intros j Hj Hne. rewrite (proj2 (Z.eqb_neq j i)) by done. by rewrite orb_false_r.
Qed.

Section Turn.
Context (g : Game) (s : State) (Wf : wf_game g) (I : inv g s) (Open : finished s = 0).

(** The player to act exists and can act. *)
Lemma current_exists :
  ∃ p, first_acting g s (firstSeat g s) p ∧ currentPlayer g s = Ok p ∧
    0 ≤ p < numPlayers g ∧ actingb g s p = true.
Proof.
  pose proof (inv_shape _ _ I) as Sh. destruct (inv_open _ _ I Open) as (_ & m & f & BW & Hlt).
  pose proof (is_round _ _ Sh) as Hr. pose proof (wg_first _ Wf _ Hr) as Hf.
  destruct (first_acting_exists g s (firstSeat g s)) as [p Hp].
  - by apply firstSeat_range.
  - pose proof (countZ_nonneg (λ q, actingb g s q && acted s m q) (numPlayers g)). lia.
  - exists p. split_and!; [done|by apply currentPlayer_ok| | |by destruct Hp as (?&?&?&?&?)];
      apply (first_acting_range g s (firstSeat g s) p); (done || by apply firstSeat_range).
Qed.

Context (m f p : Z) (BW : bet_window g s m f).
Context (Hlt : countZ (λ q, actingb g s q && acted s m q) (numPlayers g) < nActing g s).
Context (Hp : first_acting g s (firstSeat g s) p).

Let n := numPlayers g.
Let last := actor s (na s - 1).

Lemma last_range : m < na s → 0 ≤ last < n.
Proof.
  intros. apply (is_actor _ _ (inv_shape _ _ I)). pose proof (bw_m _ _ _ _ BW). lia.
Qed.

Lemma p_seat : m < na s → ∃ d, 0 ≤ d < n ∧ rel n f p = wrapn n (rel n f last + 1 + d) ∧
  ∀ q, 0 ≤ q < n → actingb g s q = true →
    rel n f last < rel n f q → rel n f last + 1 + d ≤ rel n f q.
Proof.
  intros Hm. pose proof (last_range Hm) as Hl. pose proof (bw_f _ _ _ _ BW) as Hf.
  destruct Hp as (d & Hd & Ep & _ & Hno). pose proof (bw_m _ _ _ _ BW).
  unfold firstSeat in *. rewrite (proj2 (Z.eqb_neq (na s) 0)) in * by lia.
  fold last n in Ep, Hno, Hd. exists d. split; [done|]. split.
  - rewrite Ep. by apply rel_wrapn.
  - intros q Hq Hqa Hlq. destruct (Z.le_gt_cases (rel n f last + 1 + d) (rel n f q)) as [|Hgt]; [done|].
    pose proof (rel_range n f q Hf Hq). pose proof (rel_range n f last Hf Hl).
    specialize (Hno (rel n f q - rel n f last - 1) ltac:(lia)).
    assert (wrapn n (wrapn n (last + 1) + (rel n f q - rel n f last - 1)) = q) as E.
    { apply (rel_inj n f); [done| |done|].
      - apply wrapn_range. pose proof (wrapn_range n (last + 1) ltac:(lia)). lia.
      - rewrite rel_wrapn by lia. unfold wrapn. destruct (Z.ltb_spec (rel n f last + 1 + (rel n f q - rel n f last - 1)) n); lia. }
    rewrite E in Hno. congruence.
Qed.

(** The next player sits beyond everybody who has acted on the bet. *)
Lemma turn_advances : m < na s → rel n f last < rel n f p.
Proof.
  intros Hm. destruct (p_seat Hm) as (d & Hd & Ep & Hfar).
  destruct (Z.lt_ge_cases (rel n f last) (rel n f p)) as [|Hge]; [done|exfalso].
  pose proof (bw_f _ _ _ _ BW) as Hf. pose proof (last_range Hm) as Hl.
  pose proof (rel_range n f last Hf Hl).
  enough (nActing g s ≤ countZ (λ q, actingb g s q && acted s m q) (numPlayers g)) by lia.
  apply countZ_mono. intros q Hq Ha. rewrite Ha. cbn [andb].
  destruct (Z.lt_trichotomy (rel n f q) (rel n f last)) as [Hlq|[E|Hgt]].
  - by apply (bw_cover _ _ _ _ BW).
  - apply acted_spec. exists (na s - 1). split; [lia|]. symmetry. by apply (rel_inj n f).
  - exfalso. pose proof (Hfar q Hq Ha Hgt). pose proof (rel_range n f q Hf Hq).
    unfold wrapn in Ep. destruct (Z.ltb_spec (rel n f last + 1 + d) n); lia.
Qed.

Lemma turn_covers q :
  m < na s → 0 ≤ q < n → actingb g s q = true → rel n f q < rel n f p → acted s m q = true.
Proof.
  intros Hm Hq Ha Hlt'. destruct (p_seat Hm) as (d & Hd & Ep & Hfar).
  pose proof (turn_advances Hm). pose proof (bw_f _ _ _ _ BW) as Hf.
  pose proof (last_range Hm) as Hl. pose proof (rel_range n f last Hf Hl).
  destruct (Z.lt_trichotomy (rel n f q) (rel n f last)) as [Hlq|[E|Hgt]].
  - by apply (bw_cover _ _ _ _ BW).
  - apply acted_spec. exists (na s - 1). split; [lia|]. symmetry. by apply (rel_inj n f).
  - pose proof (Hfar q Hq Ha Hgt). unfold wrapn in Ep.
    destruct (Z.ltb_spec (rel n f last + 1 + d) n); lia.
Qed.

Lemma turn_fresh i : m ≤ i < na s → actor s i ≠ p.
Proof.
  intros Hi E. pose proof (turn_advances ltac:(lia)).
  pose proof (bw_order _ _ _ _ BW i Hi) as Ho. rewrite E in Ho. fold n last in Ho. lia.
Qed.

(** There is room for the action in the round's history. *)
Lemma turn_room : na s < 64.
Proof.
  pose proof (bw_m _ _ _ _ BW). pose proof (bw_room _ _ _ _ BW). pose proof (wg_players _ Wf).
  destruct (Z.lt_ge_cases m (na s)) as [Hm|]; [|lia].
  pose proof (turn_advances Hm). pose proof (bw_len _ _ _ _ BW Hm) as Hlen.
  pose proof (bw_room _ _ _ _ BW) as Hroom. fold n last in Hlen, Hroom.
  assert (0 ≤ p < n) as Hpr.
  { apply (first_acting_range g s (firstSeat g s) p); [|done].
    pose proof (inv_shape _ _ I) as Sh. apply firstSeat_range; [done|].
    by apply wg_first, (is_round _ _ Sh). }
  pose proof (rel_range n f p (bw_f _ _ _ _ BW) Hpr). lia.
Qed.
End Turn.

(** ** Validity of actions *)

(** The raise sizes open to player [p]; [None] when no raise is allowed.  In a
    limit game the size is not used and both bounds are 0. *)
Definition raiseRange (g : Game) (s : State) (p : Z) : option (Z * Z) :=
  if at_ (maxRaises g) (round s) <=? nRaises s then None
  else if MAX_NUM_ACTIONS <? na s + numPlayers g then None
  else if nActing g s <=? 1 then None
  else match bettingType g with
       | limitBetting => Some (0, 0)
       | noLimitBetting =>
           let st := at_ (stack g) p in
           if st <? minNoLimitRaiseTo s
           then if st <=? maxSpent s then None else Some (st, st)
           else Some (minNoLimitRaiseTo s, st)
       end.

(** What a valid action satisfies. *)
Definition valid_act (g : Game) (s : State) (p : Z) (a : Action) : Prop :=
  match type a with
  | a_raise => ∃ lo hi, raiseRange g s p = Some (lo, hi) ∧
      (bettingType g = noLimitBetting → lo ≤ size a ≤ hi)
  | a_invalid => False
  | a_fold | a_call => True
  end.

Section Validity.
Context (g : Game) (s : State) (Wf : wf_game g) (I : inv g s) (Open : finished s = 0).
Context (p : Z) (Hcur : currentPlayer g s = Ok p) (Hp : 0 ≤ p < numPlayers g).

Lemma raiseIsValid_ok mn mx :
  match raiseRange g s p with
  | Some (lo, hi) => raiseIsValid g s mn mx = Ok (1, lo, hi)
  | None => ∃ lo hi, raiseIsValid g s mn mx = Ok (0, lo, hi)
  end.
Proof.
  pose proof (inv_shape _ _ I) as Sh. pose proof (is_round _ _ Sh).
  pose proof (wg_players _ Wf). pose proof (wg_rounds _ Wf).
  pose proof (gs_max _ (wg_shape _ Wf)). pose proof (gs_stack _ (wg_shape _ Wf)).
  unfold raiseIsValid, raiseRange.
  rewrite (numRaises_ok g), (rd_na g) by done. run.
  destruct (_ <=? nRaises s); [eauto|].
  destruct (MAX_NUM_ACTIONS <? _); [eauto|].
  rewrite numActingPlayers_ok by done. rewrite bind_ok. destruct (nActing g s <=? 1); [eauto|].
  destruct (bettingType g); [by rewrite decide_True|rewrite decide_False by auto].
  rewrite Hcur. run.
  destruct (_ <? minNoLimitRaiseTo s); [|done].
  destruct (_ <=? maxSpent s); eauto.
Qed.

Lemma isValidAction_ok t a :
  ∃ ok a', isValidAction g s t a = Ok (ok, a') ∧ (ok = 0 ∨ ok = 1) ∧ type a' = type a ∧
    (ok = 1 → valid_act g s p a').
Proof.
  pose proof (wg_players _ Wf). pose proof (gs_stack _ (wg_shape _ Wf)).
  pose proof (ss_spent _ (is_state _ _ (inv_shape _ _ I))).
  unfold isValidAction. unfold stateFinished. rewrite Open. cbn [nz Z.eqb negb orb].
  destruct (type a) eqn:Ht;
    [rewrite bool_decide_false by done|rewrite bool_decide_false by done
    |rewrite bool_decide_false by done|rewrite bool_decide_true by done].
  - cbn [orb negb]. rewrite Hcur. run.
    destruct (_ =? _); eexists _, _; split_and!; try done; try auto.
  - cbn [orb negb]. rewrite Hcur, bind_ok. eexists _, _; split_and!; try done; auto.
  - cbn [orb negb]. rewrite Hcur, bind_ok.
    pose proof (raiseIsValid_ok 0 0) as HR.
    destruct (raiseRange g s p) as [[lo hi]|] eqn:ER;
      [|destruct HR as (lo & hi & HR); rewrite HR, bind_ok; cbn;
        exists 0, a; split_and!; [done|by left|done|done]].
    rewrite HR, bind_ok. cbn [Z.eqb].
    destruct (bettingType g) eqn:EB; [rewrite decide_False by done|rewrite decide_True by done].
    + eexists _, _; split_and!; try done; [by right|]. intros _.
      unfold valid_act. rewrite Ht. exists lo, hi. split; [done|congruence].
    + assert (lo ≤ hi) as Hlohi.
      { unfold raiseRange in ER. rewrite EB in ER. repeat case_match; simplify_eq; lia. }
      destruct (Z.ltb_spec (size a) lo); [|destruct (Z.ltb_spec hi (size a))];
        try destruct (t =? 0); eexists _, _; (split_and!; [done|auto|done|]); try done;
        intros _; unfold valid_act; cbn; rewrite ?Ht; exists lo, hi; (split; [done|cbn; lia]).
  - cbn. exists 0, a. split_and!; [done|by left|done|done].
Qed.

(** A call is always possible. *)
Lemma call_valid t z :
  isValidAction g s t (mkAction a_call z) = Ok (1, mkAction a_call 0).
Proof.
  unfold isValidAction, stateFinished. rewrite Open. cbn. by rewrite Hcur.
Qed.
End Validity.

(** ** The effect of an action, before the end-of-round test *)
Definition newMax (g : Game) (s : State) (a : Action) (p : Z) : Z :=
  match type a with
  | a_raise =>
      match bettingType g with
      | noLimitBetting => size a
      | limitBetting => Z.min (at_ (stack g) p) (maxSpent s + at_ (raiseSize g) (round s))
      end
  | _ => maxSpent s
  end.

Definition newMin (g : Game) (s : State) (a : Action) : Z :=
  match type a, bettingType g with
  | a_raise, noLimitBetting => Z.max (minNoLimitRaiseTo s) (2 * size a - maxSpent s)
  | _, _ => minNoLimitRaiseTo s
  end.

(** What player [p] has in the pot afterwards. *)
Definition newBet (g : Game) (s : State) (a : Action) (p : Z) : Z :=
  match type a with
  | a_call => Z.min (at_ (stack g) p) (maxSpent s)
  | a_raise => newMax g s a p
  | _ => at_ (spent s) p
  end.

Definition newRoundSpent (g : Game) (s : State) (a : Action) (p : Z) : list Z :=
  if round s =? 0 then <[0%nat := newMax g s a p]> (roundSpent s)
  else if isRaise a then
    <[Z.to_nat (round s) := newMax g s a p - sumZ (at_ (roundSpent s)) (round s)]> (roundSpent s)
  else roundSpent s.

Definition applied (g : Game) (s : State) (a : Action) (p : Z) : State :=
  mkState (handId s) (newMax g s a p) (newMin g s a)
    (<[Z.to_nat p := newBet g s a p]> (spent s))
    (upd2 (action s) (round s) (na s)
       (mkAction (type a) (match type a with a_call => newBet g s a p | _ => size a end)))
    (upd2 (actingPlayer s) (round s) (na s) p)
    (<[Z.to_nat (round s) := na s + 1]> (numActions s))
    (round s) (finished s)
    (if isFold a then <[Z.to_nat p := 1]> (playerFolded s) else playerFolded s)
    (boardCards s) (holeCards s) (newRoundSpent g s a p).

Lemma insert_at_id (l : list Z) p : 0 ≤ p < Z.of_nat (length l) →
  <[Z.to_nat p := at_ l p]> l = l.
Proof.
  intros. apply list_insert_id. unfold at_.
  destruct (lookup_lt_is_Some_2 l (Z.to_nat p)) as [x Hx]; [lia|].
  by rewrite (list_lookup_total_correct _ _ _ Hx).
Qed.

Lemma upd2_upd2 {A} (l : list (list A)) r i u v :
  0 ≤ r < Z.of_nat (length l) → upd2 (upd2 l r i u) r i v = upd2 l r i v.
Proof.
  intros. unfold upd2. rewrite at_insert_eq by lia.
  by rewrite list_insert_insert_eq, list_insert_insert_eq.
Qed.

Section Apply.
Context (g : Game) (s : State) (Wf : wf_game g) (Sh : in_shape g s).
Context (p : Z) (Hp : 0 ≤ p < numPlayers g) (Room : na s < 64).

Lemma record_ok a :
  doAction_record a p s =
    Ok (set_numActions (<[Z.to_nat (round s) := na s + 1]> (numActions s))
       (set_actingPlayer (upd2 (actingPlayer s) (round s) (na s) p)
       (set_action (upd2 (action s) (round s) (na s) a) s))).
Proof.
  pose proof (is_round _ _ Sh). pose proof (wg_rounds _ Wf). pose proof (is_na _ _ Sh).
  pose proof (wg_players _ Wf). pose proof (is_state _ _ Sh) as SS.
  pose proof (ss_numActions _ SS). pose proof (ss_action _ SS). pose proof (ss_acting _ SS).
  unfold doAction_record. rewrite (rd_na g) by done. run.
  unfold c_assert, MAX_NUM_ACTIONS. rewrite (proj2 (Z.ltb_lt (na s) 64)) by done. run.
  rewrite (wr2_ok (action s)) by (rewrite ?(len_action_row g) by done; lia). run.
  rewrite (wr2_ok (actingPlayer s)) by (rewrite ?(len_acting_row g) by done; lia). run.
  by rewrite !u8_small by lia.
Qed.

Context (CK : chips_ok g s) (RK : rounds_ok g s).
Context (NA : ∀ r, 0 ≤ r < numRounds g → 0 ≤ at_ (numActions s) r ≤ 64).
Context (a : Action) (Va : valid_act g s p a).

Lemma maxSpent_nonneg : 0 ≤ maxSpent s.
Proof.
  destruct (ck_max _ _ CK) as (q & Hq & E). pose proof (ck_spent _ _ CK q Hq). lia.
Qed.

Lemma totalActions_bound : 0 ≤ totalActions g s < 256.
Proof.
  pose proof (is_round _ _ Sh). pose proof (wg_rounds _ Wf). pose proof (is_na _ _ Sh).
  unfold totalActions. split.
  - rewrite <-(Z.mul_0_r (numRounds g)), <-sumZ_const by lia.
    apply sumZ_le; [lia|]. intros. apply NA. lia.
  - pose proof (sumZ_update (at_ (numActions s)) (λ i, if i =? round s then 64 else at_ (numActions s) i)
      (numRounds g) (round s) ltac:(lia)) as Hu. cbn beta in Hu. rewrite Z.eqb_refl in Hu.
    assert (sumZ (λ i, if i =? round s then 64 else at_ (numActions s) i) (numRounds g)
      ≤ sumZ (λ _, 64) (numRounds g)) as Hb.
    { apply sumZ_le; [lia|]. intros i Hi. destruct (_ =? _); [lia|]. apply NA. lia. }
    rewrite sumZ_const in Hb by lia.
    unfold na in *.
    specialize (Hu ltac:(intros i ? ?; by rewrite (proj2 (Z.eqb_neq i (round s))))). lia.
Qed.

(** What [valid_act] gives for a raise. *)
Lemma raise_facts :
  type a = a_raise → na s + numPlayers g ≤ 64 ∧ 1 < nActing g s ∧
    (bettingType g = noLimitBetting → maxSpent s < size a ≤ at_ (stack g) p).
Proof.
  intros Ht. unfold valid_act in Va. rewrite Ht in Va. destruct Va as (lo & hi & ER & Hsz).
  unfold raiseRange, MAX_NUM_ACTIONS in ER.
  destruct (_ <=? nRaises s); [done|].
  destruct (Z.ltb_spec 64 (na s + numPlayers g)); [done|].
  destruct (Z.leb_spec (nActing g s) 1); [done|].
  split_and!; [lia|lia|]. intros EB.
  rewrite EB in ER. specialize (Hsz EB). pose proof (ck_nolimit _ _ CK EB).
  destruct (Z.ltb_spec (at_ (stack g) p) (minNoLimitRaiseTo s));
    try destruct (Z.leb_spec (at_ (stack g) p) (maxSpent s)); simplify_eq; lia.
Qed.

Lemma newMax_bounds :
  maxSpent s ≤ newMax g s a p ≤ INT32_MAX ∧
  (type a = a_raise → newMax g s a p ≤ at_ (stack g) p) ∧
  (type a = a_raise → bettingType g = limitBetting →
    0 ≤ maxSpent s + at_ (raiseSize g) (round s) ≤ INT32_MAX ∧
    newMax g s a p ≤ maxSpent s + maxRaiseSize g).
Proof.
  pose proof maxSpent_nonneg. pose proof (wg_stack _ Wf p Hp). pose proof totalActions_bound.
  destruct (ck_max _ _ CK) as (q & Hq & E). pose proof (ck_spent _ _ CK q Hq).
  pose proof (wg_stack _ Wf q Hq). pose proof (is_round _ _ Sh) as Hr.
  unfold newMax. destruct (type a) eqn:Ht; try (split_and!; (done || lia)).
  destruct (raise_facts Ht) as (_ & _ & Hnl).
  destruct (bettingType g) eqn:EB.
  - destruct (wg_limit _ Wf EB) as (Heq & Hrs & Hroom).
    pose proof (Heq p Hp). pose proof (Heq q Hq). pose proof (Hrs _ Hr).
    pose proof (maxZ_ge (at_ (raiseSize g)) (numRounds g) 0 (round s) Hr) as Hm.
    fold (maxRaiseSize g) in Hm. pose proof (ck_limit _ _ CK EB).
    pose proof (maxZ_lb (at_ (blind g)) (numPlayers g) 1) as Hb. fold (maxBlind g) in Hb.
    assert (maxSpent s + maxRaiseSize g ≤ INT32_MAX) by nia.
    split_and!; intros; lia.
  - specialize (Hnl eq_refl). split_and!; intros; (done || lia).
Qed.

(** The loop of [doAction_roundSpent] subtracts the earlier rounds. *)
Lemma roundSpent_loop s1 v :
  round s1 = round s → roundSpent s1 = <[Z.to_nat (round s) := v]> (roundSpent s) →
  maxSpent s ≤ v ≤ INT32_MAX → 0 < round s →
  for_ 0 (round s) s1 (λ i s,
    cur ← rd (roundSpent s) (round s);
    x ← rd (roundSpent s) i;
    d ← i32 (cur - x);
    rs ← wr (roundSpent s) (round s) d;
    Ok (set_roundSpent rs s))
  = Ok (set_roundSpent
      (<[Z.to_nat (round s) := v - sumZ (at_ (roundSpent s)) (round s)]> (roundSpent s)) s1).
Proof.
  intros Er Ers Hv H0. pose proof (is_round _ _ Sh). pose proof (wg_rounds _ Wf).
  pose proof (ss_roundSpent _ (is_state _ _ Sh)) as Hlen. pose proof maxSpent_nonneg.
  assert (Hpre : ∀ i, 0 ≤ i ≤ round s → 0 ≤ sumZ (at_ (roundSpent s)) i ≤ maxSpent s).
  { intros i Hi. rewrite <-(rk_sum _ _ RK) by lia.
    assert (∀ k, 0 ≤ k → i + k ≤ numRounds g →
      sumZ (at_ (roundSpent s)) i ≤ sumZ (at_ (roundSpent s)) (i + k)) as Hk.
    { intros k Hk. pattern k. apply Z_bound_ind; [rewrite Z.add_0_r; lia| |done].
      intros k' ? IH ?. rewrite Z.add_assoc, sumZ_S by lia.
      pose proof (rk_nonneg _ _ RK (i + k') ltac:(lia)). specialize (IH ltac:(lia)). lia. }
    split.
    - rewrite <-(Z.mul_0_r i), <-sumZ_const by lia. apply sumZ_le; [lia|].
      intros. apply (rk_nonneg _ _ RK). lia.
    - specialize (Hk (numRounds g - i) ltac:(lia) ltac:(lia)).
      by replace (i + (numRounds g - i)) with (numRounds g) in Hk by lia. }
  destruct (for_inv (λ i s2, s2 = set_roundSpent
    (<[Z.to_nat (round s) := v - sumZ (at_ (roundSpent s)) i]> (roundSpent s)) s1)
    0 (round s) s1 (λ i s, cur ← rd (roundSpent s) (round s); x ← rd (roundSpent s) i;
      d ← i32 (cur - x); rs ← wr (roundSpent s) (round s) d; Ok (set_roundSpent rs s)))
    as (s' & -> & ->); [lia| | |done].
  - destruct s1; cbn in *; subst. unfold set_roundSpent; cbn.
    by rewrite Z.sub_0_r.
  - intros i s2 Hi ->. cbn [roundSpent set_roundSpent round]. rewrite Er.
    eexists. split; [|reflexivity].
    pose proof (Hpre i ltac:(lia)). pose proof (Hpre (i + 1) ltac:(lia)) as Hp1.
    rewrite sumZ_S in Hp1 by lia.
    run. rewrite at_insert_eq by lia. rewrite at_insert_ne by lia.
    unfold INT32_MIN, INT32_MAX in *. rewrite i32_ok by (unfold INT32_MIN, INT32_MAX; lia). run.
    rewrite list_insert_insert_eq. rewrite sumZ_S by lia.
    rewrite Z.sub_add_distr. reflexivity.
Qed.

Lemma roundSpent_ok s1 :
  round s1 = round s → maxSpent s1 = newMax g s a p → roundSpent s1 = roundSpent s →
  doAction_roundSpent a s1 = Ok (set_roundSpent (newRoundSpent g s a p) s1).
Proof.
  intros Er Em Ers. destruct newMax_bounds as (Hb & _ & _).
  pose proof (is_round _ _ Sh). pose proof (wg_rounds _ Wf).
  pose proof (ss_roundSpent _ (is_state _ _ Sh)) as Hlen.
  unfold doAction_roundSpent, newRoundSpent. rewrite Er, Em, Ers.
  destruct (Z.eqb_spec (round s) 0) as [E0|E0]; [by rewrite wr_ok by lia|].
  unfold isRaise. case_decide; [rewrite bool_decide_true by done|rewrite bool_decide_false by done].
  - rewrite wr_ok by lia. rewrite bind_ok.
    rewrite (roundSpent_loop _ (newMax g s a p)) by (done || lia). done.
  - destruct s1; cbn in *; by subst.
Qed.

(** Recording, applying and bookkeeping an action give [applied]. *)
Lemma apply_ok :
  (s1 ← doAction_record a p s; s2 ← doAction_switch g a p s1; doAction_roundSpent a s2)
  = Ok (applied g s a p).
Proof.
  pose proof (is_round _ _ Sh). pose proof (wg_rounds _ Wf). pose proof (is_na _ _ Sh).
  pose proof (wg_players _ Wf). pose proof (is_state _ _ Sh) as SS.
  pose proof (ss_spent _ SS). pose proof (ss_folded _ SS). pose proof (ss_numActions _ SS).
  pose proof (ss_action _ SS). pose proof (gs_stack _ (wg_shape _ Wf)).
  pose proof (gs_raise _ (wg_shape _ Wf)). pose proof maxSpent_nonneg.
  destruct newMax_bounds as (Hb & Hb2 & Hb3). pose proof (len_action_row g s Sh) as Hrow.
  rewrite record_ok. rewrite bind_ok.
  unfold doAction_switch, applied, newMin, newBet, isFold.
  destruct (type a) eqn:Ht.
  - cbn. run. rewrite (roundSpent_ok _) by (unfold newMax; rewrite ?Ht; done). cbn.
    unfold newMax. rewrite Ht. rewrite insert_at_id by lia. unfold newRoundSpent, newMax.
    destruct a; cbn in *; by rewrite Ht.
  - cbn -[at2]. run.
    rewrite !at_insert_eq by lia. replace (na s + 1 - 1) with (na s) by lia.
    replace (if at_ (stack g) p <? maxSpent s then at_ (stack g) p else maxSpent s)
      with (Z.min (at_ (stack g) p) (maxSpent s))
      by (destruct (Z.ltb_spec (at_ (stack g) p) (maxSpent s)); lia).
    rewrite rd2_ok by (rewrite ?length_upd2, ?length_at_upd2; lia). run.
    rewrite at2_upd2, decide_True by (done || lia).
    rewrite wr2_ok by (rewrite ?length_upd2, ?length_at_upd2; lia). run.
    rewrite upd2_upd2 by lia. rewrite Ht.
    rewrite (roundSpent_ok _) by (unfold newMax; rewrite ?Ht; done).
    unfold newMax. by rewrite Ht.
  - destruct (raise_facts Ht) as (_ & _ & Hnl). specialize (Hb2 eq_refl).
    assert (Hspent : ∀ s1, round s1 = round s → maxSpent s1 = newMax g s a p →
      spent s1 = spent s → roundSpent s1 = roundSpent s →
      (s2 ← (sps ← wr (spent s1) p (maxSpent s1); Ok (set_spent sps s1)); doAction_roundSpent a s2)
      = Ok (set_roundSpent (newRoundSpent g s a p)
             (set_spent (<[Z.to_nat p := newMax g s a p]> (spent s)) s1))).
    { intros s1 Er Em Es Ers. rewrite Em, Es, wr_ok by lia. rewrite !bind_ok.
      by rewrite (roundSpent_ok _). }
    destruct (bettingType g) eqn:EB; [rewrite decide_False by done|rewrite decide_True by done].
    + specialize (Hb3 eq_refl eq_refl). run. cbn [round set_numActions maxSpent].
      cbn. rewrite (i32_ok (maxSpent s + _)) by (unfold INT32_MIN; lia). rewrite !bind_ok.
      replace (if at_ (stack g) p <? maxSpent s + at_ (raiseSize g) (round s) then at_ (stack g) p
        else maxSpent s + at_ (raiseSize g) (round s)) with (newMax g s a p).
      * rewrite Hspent by done. by destruct a; cbn in *; subst.
      * unfold newMax. rewrite Ht, EB. destruct (Z.ltb_spec (at_ (stack g) p)
          (maxSpent s + at_ (raiseSize g) (round s))); lia.
    + specialize (Hnl eq_refl). pose proof (wg_nolimit _ Wf EB p Hp).
      run. cbn. unfold c_assert.
      rewrite (proj2 (Z.ltb_lt (maxSpent s) (size a))), (proj2 (Z.leb_le (size a) (at_ (stack g) p))) by lia.
      rewrite !bind_ok, (i32_ok (size a + size a)) by (unfold INT32_MIN; lia). rewrite bind_ok.
      rewrite i32_ok by (unfold INT32_MIN; lia). rewrite bind_ok.
      replace (size a + size a) with (2 * size a) by lia.
      rewrite bind_ok, Hspent; destruct (Z.ltb_spec (minNoLimitRaiseTo s) (2 * size a - maxSpent s));
        try done; try (cbn; unfold newMax; by rewrite Ht, EB).
      all: cbn; unfold newMax; rewrite Ht, EB; destruct a; cbn in *; subst.
      all: first [rewrite Z.max_r by lia | rewrite Z.max_l by lia]; reflexivity.
  - unfold valid_act in Va. rewrite Ht in Va. done.
Qed.
End Apply.
