(* ===== verification/BettingKeep.v ===== *)
(** * An action keeps the invariant

    The bet window, the chips and the round amounts of [applied], and from them
    the invariant after [doAction]. *)

From stdpp Require Import base list list_numbers numbers option sets.
From S2P Require Import Prelude GameDef Betting BettingSpec BettingInv BettingStep.
Open Scope Z_scope.

Section Views.
Context (g : Game) (s : State) (Wf : wf_game g) (Sh : in_shape g s).
Context (p : Z) (Hp : 0 ≤ p < numPlayers g) (Room : na s < 64) (a : Action).
Let s1 := applied g s a p.

Local Ltac facts :=
  pose proof (is_round _ _ Sh); pose proof (wg_rounds _ Wf); pose proof (is_na _ _ Sh);
  pose proof (wg_players _ Wf);
  pose proof (ss_spent _ (is_state _ _ Sh)); pose proof (ss_folded _ (is_state _ _ Sh));
  pose proof (ss_numActions _ (is_state _ _ Sh)); pose proof (ss_action _ (is_state _ _ Sh));
  pose proof (ss_acting _ (is_state _ _ Sh));
  pose proof (len_action_row g s Sh); pose proof (len_acting_row g s Sh).

Lemma na_applied : na s1 = na s + 1.
Proof. facts. unfold na at 1, s1; cbn. by rewrite at_insert_eq by lia. Qed.

Lemma numActions_applied r : 0 ≤ r < 4 →
  at_ (numActions s1) r = if decide (round s = r) then na s + 1 else at_ (numActions s) r.
Proof. facts. intros. unfold s1; cbn. by rewrite at_insert by lia. Qed.

Lemma type_applied r i : 0 ≤ r → 0 ≤ i →
  type (at2 (action s1) r i) =
    if decide (round s = r ∧ na s = i) then type a else type (at2 (action s) r i).
Proof. facts. intros. unfold s1; cbn. rewrite at2_upd2 by lia. by case_decide. Qed.

Lemma player_applied r i : 0 ≤ r → 0 ≤ i →
  at2 (actingPlayer s1) r i =
    if decide (round s = r ∧ na s = i) then p else at2 (actingPlayer s) r i.
Proof. facts. intros. unfold s1; cbn. by rewrite at2_upd2 by lia. Qed.

Lemma act_applied_old i : 0 ≤ i < na s → type (act s1 i) = type (act s i).
Proof. facts. intros. unfold act. rewrite type_applied by (cbn; lia). rewrite decide_False by lia. done. Qed.
Lemma act_applied_new : type (act s1 (na s)) = type a.
Proof. facts. unfold act. rewrite type_applied by (cbn; lia). by rewrite decide_True. Qed.
Lemma actor_applied_old i : 0 ≤ i < na s → actor s1 i = actor s i.
Proof. facts. intros. unfold actor. rewrite player_applied by (cbn; lia). rewrite decide_False by lia. done. Qed.
Lemma actor_applied_new : actor s1 (na s) = p.
Proof. facts. unfold actor. rewrite player_applied by (cbn; lia). by rewrite decide_True. Qed.

Lemma spent_applied q : 0 ≤ q →
  at_ (spent s1) q = if decide (p = q) then newBet g s a p else at_ (spent s) q.
Proof. facts. intros. unfold s1; cbn. by rewrite at_insert by lia. Qed.

Lemma folded_applied q : 0 ≤ q →
  at_ (playerFolded s1) q =
    if decide (p = q) then (if isFold a then 1 else at_ (playerFolded s) p) else at_ (playerFolded s) q.
Proof.
  facts. intros. unfold s1; cbn. destruct (isFold a).
  - by rewrite at_insert by lia.
  - by case_decide; subst.
Qed.

Lemma allin_applied_ne q : 0 ≤ q → q ≠ p → allinb g s1 q = allinb g s q.
Proof. intros. unfold allinb. rewrite spent_applied by done. by rewrite decide_False by congruence. Qed.
Lemma acting_applied_ne q : 0 ≤ q → q ≠ p → actingb g s1 q = actingb g s q.
Proof.
  intros. unfold actingb, foldedb. rewrite allin_applied_ne by done.
  rewrite folded_applied by done. by rewrite decide_False by congruence.
Qed.

(** After his action, a player who was able to act can act again exactly when
    he neither folded nor went all-in. *)
Lemma acting_applied_p : actingb g s p = true →
  actingb g s1 p = negb (isFold a) && negb (allinb g s1 p).
Proof.
  unfold actingb, foldedb. intros [Hf _]%andb_prop. rewrite folded_applied by lia.
  rewrite decide_True by done. destruct (isFold a); cbn; [done|]. by rewrite Hf.
Qed.

Lemma acted_applied m q : 0 ≤ m ≤ na s →
  acted s1 m q = acted s m q || (p =? q).
Proof.
  facts. intros. apply Bool.eq_iff_eq_true. rewrite orb_true_iff, !acted_spec, Z.eqb_eq, na_applied.
  split.
  - intros (i & Hi & E). destruct (decide (i = na s)) as [->|].
    + right. by rewrite actor_applied_new in E.
    + left. exists i. rewrite actor_applied_old in E by lia. split; [lia|done].
  - intros [(i & Hi & E)|<-].
    + exists i. rewrite actor_applied_old by lia. split; [lia|done].
    + exists (na s). rewrite actor_applied_new. split; [lia|done].
Qed.

Lemma state_shape_applied : state_shape s1.
Proof.
  facts. pose proof (is_state _ _ Sh) as SS. destruct SS.
  split; unfold s1; cbn; rewrite ?length_upd2, ?length_insert; try done.
  - intros r Hr. pose proof (length_at_upd2 (action s) (round s) (na s)
      (mkAction (type a) (match type a with a_call => newBet g s a p | _ => size a end))
      (Z.of_nat r) ltac:(lia) ltac:(lia)) as E. unfold at_ in E. rewrite Nat2Z.id in E. rewrite E. auto.
  - intros r Hr. pose proof (length_at_upd2 (actingPlayer s) (round s) (na s) p
      (Z.of_nat r) ltac:(lia) ltac:(lia)) as E. unfold at_ in E. rewrite Nat2Z.id in E. rewrite E. auto.
  - by destruct (isFold a); rewrite ?length_insert.
  - unfold newRoundSpent. repeat case_match; by rewrite ?length_insert.
Qed.

Lemma in_shape_applied : type a ≠ a_invalid → in_shape g s1.
Proof.
  facts. intros Ht. split; try (apply Sh).
  - apply state_shape_applied.
  - rewrite na_applied. lia.
  - rewrite na_applied. intros i Hi. destruct (decide (i = na s)) as [->|].
    + by rewrite actor_applied_new.
    + rewrite actor_applied_old by lia. apply (is_actor _ _ Sh). lia.
  - rewrite na_applied. intros i Hi. destruct (decide (i = na s)) as [->|].
    + by rewrite act_applied_new.
    + rewrite act_applied_old by lia. apply (is_type _ _ Sh). lia.
Qed.
End Views.

Lemma countZ_single (h : Z → bool) p n : 0 ≤ p < n →
  countZ (λ q, h q && (p =? q)) n = c_bool (h p).
Proof.
  intros Hp. pose proof (countZ_update (λ q, h q && (p =? q)) (λ _, false) n p Hp) as E.
  cbn beta in E. rewrite Z.eqb_refl, andb_true_r in E.
  assert (countZ (λ _, false) n = 0) as Hz.
  { unfold countZ. by induction (seqZ 0 n). }
  rewrite Hz in E. cbn [c_bool] in E. rewrite Z.add_0_r in E. apply E.
  intros i _ Hne. rewrite (proj2 (Z.eqb_neq p i)) by done. apply andb_false_r.
Qed.

Section Window.
Context (g : Game) (s : State) (Wf : wf_game g) (I : inv g s) (Open : finished s = 0).
Context (m f p : Z) (BW : bet_window g s m f).
Context (Hlt : countZ (λ q, actingb g s q && acted s m q) (numPlayers g) < nActing g s).
Context (Hfirst : first_acting g s (firstSeat g s) p).
Context (a : Action) (Va : valid_act g s p a).
Let s1 := applied g s a p.
Let n := numPlayers g.

Lemma p_range : 0 ≤ p < n.
Proof.
  pose proof (inv_shape _ _ I) as Sh. apply (first_acting_range g s (firstSeat g s) p); [|done].
  apply firstSeat_range; [done|]. by apply wg_first, (is_round _ _ Sh).
Qed.
Lemma p_acting : actingb g s p = true.
Proof. by destruct Hfirst as (?&?&?&?&?). Qed.
Lemma room : na s < 64.
Proof. by eapply turn_room. Qed.
Hint Resolve p_range p_acting room : core.
Let Sh := inv_shape _ _ I.
Let CK := inv_chips _ _ I.
Let RK := inv_rounds _ _ I.
Let NA := inv_na _ _ I.

Lemma type_valid : type a ≠ a_invalid.
Proof. unfold valid_act in Va. by destruct (type a). Qed.

Lemma isRaise_spec : isRaise a = true ↔ type a = a_raise.
Proof. unfold isRaise. apply bool_decide_eq_true. Qed.

Lemma nonraise_max : type a ≠ a_raise → maxSpent s1 = maxSpent s.
Proof. intros. cbn. unfold newMax. by destruct (type a). Qed.

(** An actor who did not fold has matched the bet. *)
Lemma bet_matched : type a ≠ a_fold →
  at_ (spent s1) p = Z.min (maxSpent s1) (at_ (stack g) p).
Proof.
  intros Hf. pose proof p_range.
  destruct (newMax_bounds g s Wf Sh p p_range room CK NA a Va) as (_ & Hb & _).
  unfold s1. rewrite spent_applied by (done || auto || lia). rewrite decide_True by done.
  pose proof type_valid. unfold newBet. cbn [maxSpent applied].
  destruct (type a) eqn:Ht; try done.
  - unfold newMax. rewrite Ht. lia.
  - specialize (Hb eq_refl). lia.
Qed.

Lemma window_raise : type a = a_raise → bet_window g s1 (na s) p.
Proof.
  intros Ht. pose proof p_range as Hp. pose proof (is_na _ _ Sh).
  destruct (raise_facts g s p CK a Va Ht) as (Hroom & _ & _).
  assert (Hna : na s1 = na s + 1) by (apply na_applied; auto).
  assert (Ha : actor s1 (na s) = p) by (apply actor_applied_new; auto).
  split; rewrite ?Hna; try lia.
  - right. split; [lia|]. unfold s1. by rewrite act_applied_new by auto.
  - intros i Hi. replace (na s + 1 - 1) with (na s) by lia. by replace i with (na s) by lia.
  - intros _. replace (na s + 1 - 1) with (na s) by lia. rewrite Ha, rel_self. lia.
  - intros _ q Hq _. replace (na s + 1 - 1) with (na s) by lia. rewrite Ha, rel_self.
    pose proof (rel_range (numPlayers g) p q Hp Hq). lia.
  - intros i Hi Hf. replace i with (na s) in * by lia. rewrite Ha. apply bet_matched. congruence.
  - intros i Hi. replace i with (na s) by lia. unfold s1. rewrite act_applied_new by auto. congruence.
  - rewrite cntR_S, cntR_nil by lia. rewrite Ha.
    rewrite (countZ_ext _ (λ q, actingb g s1 q && (p =? q))).
    + rewrite countZ_single by done. unfold s1.
      rewrite acting_applied_p by auto. unfold isFold. rewrite act_applied_new by auto.
      unfold c_bool. by destruct (_ && _).
    + intros q Hq. f_equal. unfold s1. rewrite acted_applied by (auto || lia).
      replace (acted s (na s) q) with false; [done|].
      unfold acted. by rewrite seqZ_nil_le by lia.
Qed.

(** The new entry of the history, outside a raise. *)
Lemma window_called : type a ≠ a_raise →
  cntR (λ i, negb (isFold (act s1 i)) && negb (allinb g s1 (actor s1 i))) m (na s1)
  = countZ (λ q, actingb g s1 q && acted s1 m q) n.
Proof.
  intros Ht. pose proof p_range as Hp. pose proof (bw_m _ _ _ _ BW) as Hm.
  assert (Hna : na s1 = na s + 1) by (apply na_applied; auto).
  rewrite Hna, cntR_S by lia.
  rewrite (cntR_ext _ (λ i, negb (isFold (act s i)) && negb (allinb g s (actor s i)))).
  2:{ intros i Hi. unfold s1, isFold. rewrite act_applied_old, actor_applied_old by (auto || lia).
      rewrite allin_applied_ne; try done;
        [pose proof (is_actor _ _ Sh i ltac:(lia)); lia | by eapply turn_fresh]. }
  rewrite (bw_called _ _ _ _ BW).
  pose proof (countZ_update (λ q, actingb g s q && acted s m q)
    (λ q, actingb g s1 q && acted s1 m q) n p Hp) as Hu. cbn beta in Hu.
  assert (Ep : acted s1 m p = true)
    by (unfold s1; rewrite acted_applied by (auto || lia); by rewrite Z.eqb_refl, orb_true_r).
  assert (Ea : actingb g s1 p = negb (isFold a) && negb (allinb g s1 p))
    by (apply acting_applied_p; auto).
  assert (En : isFold (act s1 (na s)) = isFold a)
    by (unfold isFold, s1; by rewrite act_applied_new by auto).
  assert (Eq : actor s1 (na s) = p) by (apply actor_applied_new; auto).
  rewrite Ep, Ea, andb_true_r in Hu. rewrite En, Eq.
  replace (acted s m p) with false in Hu.
  2:{ symmetry. apply Bool.not_true_is_false. rewrite acted_spec. intros (i & Hi & E).
      by eapply (turn_fresh g s I m f p BW Hlt Hfirst i). }
  rewrite andb_false_r in Hu. cbn [c_bool] in Hu.
  unfold c_bool in Hu. fold n.
  specialize (Hu ltac:(intros q Hq Hne; unfold s1;
    rewrite acting_applied_ne, acted_applied by (auto || lia);
    rewrite (proj2 (Z.eqb_neq p q)) by congruence; by rewrite orb_false_r)).
  lia.
Qed.

(** A call or a fold extends the window; the first action of a round opens it. *)
Lemma window_other : type a ≠ a_raise →
  bet_window g s1 m (if decide (m = na s) then p else f).
Proof.
  intros Ht. pose proof p_range as Hp. pose proof (bw_m _ _ _ _ BW) as Hm.
  pose proof (bw_room _ _ _ _ BW). pose proof (bw_f _ _ _ _ BW).
  assert (Hna : na s1 = na s + 1) by (apply na_applied; auto).
  assert (Ha : actor s1 (na s) = p) by (apply actor_applied_new; auto).
  assert (Ho : ∀ i, 0 ≤ i < na s → actor s1 i = actor s i) by (intros; apply actor_applied_old; auto).
  assert (Hlast : na s1 - 1 = na s) by lia.
  assert (Hmatch : ∀ i, m ≤ i < na s1 → type (act s1 i) ≠ a_fold →
    at_ (spent s1) (actor s1 i) = Z.min (maxSpent s1) (at_ (stack g) (actor s1 i))).
  { intros i Hi Hf. destruct (decide (i = na s)) as [->|].
    - rewrite Ha. apply bet_matched. intros E. unfold s1 in Hf. rewrite act_applied_new in Hf by auto. done.
    - rewrite Ho by lia. rewrite nonraise_max by done.
      unfold s1 in Hf. rewrite act_applied_old in Hf by (auto || lia).
      unfold s1. rewrite spent_applied; auto; [|pose proof (is_actor _ _ Sh i); lia].
      rewrite decide_False by (intros E; by eapply (turn_fresh g s I m f p BW Hlt Hfirst i); [lia|]).
      apply (bw_match _ _ _ _ BW); [lia|done]. }
  assert (Hnr : ∀ i, m < i < na s1 → type (act s1 i) ≠ a_raise).
  { intros i Hi. unfold s1. destruct (decide (i = na s)) as [->|].
    - by rewrite act_applied_new by auto.
    - rewrite act_applied_old by (auto || lia). apply (bw_noraise _ _ _ _ BW). lia. }
  assert (Hfold : ∀ i, m ≤ i < na s1 → type (act s1 i) = a_fold → foldedb s1 (actor s1 i) = true).
  { intros i Hi Hf. unfold foldedb. destruct (decide (i = na s)) as [->|].
    - rewrite Ha. unfold s1 in *. rewrite act_applied_new in Hf by auto.
      rewrite folded_applied by (auto || lia). rewrite decide_True by done.
      unfold isFold. by rewrite bool_decide_true.
    - rewrite Ho by lia. unfold s1 in *. rewrite act_applied_old in Hf by (auto || lia).
      rewrite folded_applied; auto; [|pose proof (is_actor _ _ Sh i); lia].
      rewrite decide_False by (intros E; by eapply (turn_fresh g s I m f p BW Hlt Hfirst i); [lia|]).
      apply (bw_fold _ _ _ _ BW); [lia|done]. }
  pose proof (window_called Ht) as Hcalled.
  destruct (decide (m = na s)) as [E|Hne].
  - pose proof (bw_fresh _ _ _ _ BW E).
    split; rewrite ?Hlast; try done; try lia; rewrite ?Ha, ?rel_self; try lia.
    + intros i Hi. replace i with (na s) by lia. rewrite Ha, rel_self. lia.
    + intros _ q Hq _. pose proof (rel_range (numPlayers g) p q Hp Hq). lia.
  - assert (Hmlt : m < na s) by lia.
    assert (Hadv : rel (numPlayers g) f (actor s (na s - 1)) < rel (numPlayers g) f p)
      by (by eapply turn_advances).
    split; rewrite ?Hlast; try done; try lia; rewrite ?Ha.
    + destruct (bw_head _ _ _ _ BW) as [->|[_ Hr]]; [by left|right]. split; [lia|].
      unfold s1. by rewrite act_applied_old by (auto || lia).
    + intros i Hi. destruct (decide (i = na s)) as [->|]; [rewrite Ha; lia|].
      rewrite Ho by lia. pose proof (bw_order _ _ _ _ BW i). lia.
    + pose proof (bw_len _ _ _ _ BW Hmlt). lia.
    + intros _ q Hq Hqa Hrel. assert (q ≠ p) by (intros ->; lia).
      unfold s1 in Hqa |- *. rewrite acting_applied_ne in Hqa by (auto || lia).
      rewrite acted_applied by (auto || lia). apply orb_true_iff. left.
      eapply (turn_covers g s I m f p BW Hlt Hfirst); (done || lia).
Qed.

Lemma totalActions_applied : totalActions g s1 = totalActions g s + 1.
Proof.
  pose proof (is_round _ _ Sh). pose proof (wg_rounds _ Wf).
  unfold totalActions.
  pose proof (sumZ_update (at_ (numActions s1)) (at_ (numActions s)) (numRounds g) (round s) ltac:(lia)) as Hu.
  unfold s1 in *. rewrite numActions_applied in Hu by (auto || lia). rewrite decide_True in Hu by done.
  unfold na in *.
  specialize (Hu ltac:(intros r Hr Hne; rewrite numActions_applied by (auto || lia);
    by rewrite decide_False by congruence)). lia.
Qed.

Lemma chips_applied : chips_ok g s1.
Proof.
  pose proof p_range as Hp. pose proof (ck_spent _ _ CK p Hp).
  destruct (newMax_bounds g s Wf Sh p p_range room CK NA a Va) as (Hb & Hb2 & Hb3).
  pose proof type_valid. pose proof totalActions_applied as Ht.
  assert (Hnew : 0 ≤ newBet g s a p ≤ at_ (stack g) p ∧ newBet g s a p ≤ newMax g s a p ∧
    at_ (spent s) p ≤ newBet g s a p).
  { unfold newBet. destruct (type a) eqn:E; try done; [unfold newMax in *; rewrite E in *; lia..|].
    specialize (Hb2 eq_refl). lia. }
  split.
  - intros q Hq. unfold s1. rewrite spent_applied by (auto || lia). cbn [maxSpent applied].
    case_decide; subst; [lia|]. pose proof (ck_spent _ _ CK q Hq). lia.
  - destruct (decide (type a = a_raise)) as [E|E].
    + exists p. split; [done|]. unfold s1. rewrite spent_applied by (auto || lia).
      rewrite decide_True by done. cbn. unfold newBet. by rewrite E.
    + destruct (ck_max _ _ CK) as (q & Hq & Eq). exists q. split; [done|].
      rewrite nonraise_max by done. unfold s1. rewrite spent_applied by (auto || lia).
      pose proof (nonraise_max E) as Em. cbn in Em.
      case_decide as Epq; [|done]. rewrite <-Epq in Eq. lia.
  - intros EB. rewrite Ht. change (maxSpent s1) with (newMax g s a p). pose proof (ck_limit _ _ CK EB).
    assert (newMax g s a p ≤ maxSpent s + maxRaiseSize g);
      [|rewrite Z.mul_add_distr_l, Z.mul_1_r; lia].
    destruct (decide (type a = a_raise)) as [E|E]; [by apply Hb3|].
    pose proof (nonraise_max E) as Em. cbn in Em.
    pose proof (maxZ_lb (at_ (raiseSize g)) (numRounds g) 0). unfold maxRaiseSize. lia.
  - intros EB. cbn. pose proof (ck_nolimit _ _ CK EB).
    unfold newMax, newMin. destruct (type a) eqn:E; try done. rewrite EB.
    destruct (raise_facts g s p CK a Va E) as (_ & _ & Hs). specialize (Hs EB). lia.
Qed.

Lemma roundSpent_applied r : 0 ≤ r < 4 →
  at_ (roundSpent s1) r =
    if decide (round s = r ∧ (r = 0 ∨ isRaise a = true)) then
      newMax g s a p - (if decide (r = 0) then 0 else sumZ (at_ (roundSpent s)) r)
    else at_ (roundSpent s) r.
Proof.
  intros Hr. pose proof (ss_roundSpent _ (is_state _ _ Sh)). pose proof (is_round _ _ Sh).
  pose proof (wg_rounds _ Wf). unfold s1, applied, newRoundSpent. cbn [roundSpent].
  destruct (Z.eqb_spec (round s) 0) as [E|E].
  - change 0%nat with (Z.to_nat 0). rewrite at_insert by lia.
    repeat case_decide; subst; try done; try lia; intuition lia.
  - destruct (isRaise a).
    + rewrite at_insert by lia. repeat case_decide; subst; try done; try lia; intuition lia.
    + rewrite decide_False by (intros (? & [?|?]); [lia|done]). done.
Qed.

Lemma rounds_applied : rounds_ok g s1.
Proof.
  destruct (newMax_bounds g s Wf Sh p p_range room CK NA a Va) as (Hb & _ & _).
  pose proof (is_round _ _ Sh) as Hr. pose proof (wg_rounds _ Wf).
  pose proof (maxSpent_nonneg g s CK). destruct RK as [R0 R1 R2].
  assert (Hpre : 0 < round s → sumZ (at_ (roundSpent s)) (round s) + at_ (roundSpent s) (round s) = maxSpent s).
  { intros. rewrite <-R2 by auto. rewrite <-sumZ_S by lia. symmetry. apply sumZ_trunc; [lia|].
    intros. apply R1. lia. }
  pose proof (R0 (round s) Hr).
  split.
  - intros r Hr'. rewrite roundSpent_applied by lia. case_decide as D; [|auto].
    case_decide; [lia|]. destruct D as [<- _]. specialize (Hpre ltac:(lia)). lia.
  - cbn [round s1 applied]. intros r Hr'. rewrite roundSpent_applied by lia.
    rewrite decide_False by lia. by apply R1.
  - intros _. cbn [maxSpent s1 applied].
    rewrite (sumZ_trunc _ (round s + 1)); [|lia|].
    2:{ intros i Hi. rewrite roundSpent_applied by lia. rewrite decide_False by lia. apply R1. lia. }
    rewrite sumZ_S by lia.
    rewrite (sumZ_ext _ (at_ (roundSpent s))).
    2:{ intros i Hi. rewrite roundSpent_applied by lia. rewrite decide_False by lia. done. }
    rewrite roundSpent_applied by lia. change (maxSpent s1) with (newMax g s a p).
    destruct (decide (round s = 0)) as [E0|E0].
    + rewrite decide_True by auto. rewrite E0. change (sumZ (at_ (roundSpent s)) 0) with 0. lia.
    + case_decide as D; [lia|].
      assert (type a ≠ a_raise) as Hne by (intros E%isRaise_spec; apply D; auto).
      pose proof (nonraise_max Hne) as Em. change (maxSpent s1) with (newMax g s a p) in Em.
      specialize (Hpre ltac:(lia)). lia.
Qed.
End Window.

(** ** The end of the round *)

(** Rebuilds a shape after an update of a scalar field. *)
Ltac reshape :=
  try match goal with
  | H : state_shape _ |- state_shape _ => destruct H; split; done
  end; try done.


(** What holds between the two halves of [doAction]. *)
Record mid_inv (g : Game) (s : State) (m f : Z) : Prop := {
  mi_shape : in_shape g s;
  mi_na : ∀ r, 0 ≤ r < numRounds g → 0 ≤ at_ (numActions s) r ≤ 64;
  mi_pos : 0 < na s;
  mi_future : ∀ r, round s < r < numRounds g → at_ (numActions s) r = 0;
  mi_hist : ∀ r i, 0 ≤ r < numRounds g → 0 ≤ i < at_ (numActions s) r →
    type (at2 (action s) r i) ≠ a_invalid ∧ 0 ≤ at2 (actingPlayer s) r i < numPlayers g;
  mi_folded : ∀ p, 0 ≤ p < numPlayers g → at_ (playerFolded s) p = 0 ∨ at_ (playerFolded s) p = 1;
  mi_chips : chips_ok g s;
  mi_rounds : rounds_ok g s;
  mi_finished : finished s = 0;
  mi_window : bet_window g s m f
}.

(** The round is complete when every player who can act has acted on the bet. *)
Definition roundDone (g : Game) (s : State) (m : Z) : bool :=
  nActing g s <=? countZ (λ q, actingb g s q && acted s m q) (numPlayers g).

(** [doAction_end] without its loops. *)
Definition ended (g : Game) (s : State) (m : Z) : State * bool :=
  if numPlayers g <=? nFolded g s + 1 then (set_finished 1 s, true)
  else if roundDone g s m then
    if 1 <? nActing g s then
      if round s + 1 <? numRounds g
      then (set_minNoLimitRaiseTo (maxBlind g + maxSpent s) (set_round (round s + 1) s), true)
      else (set_finished 1 s, true)
    else (set_round (numRounds g - 1) (set_finished 1 s), true)
  else (s, false).

Lemma minRaiseBy_ok g : wf_game g → minRaiseBy g = Ok (maxBlind g).
Proof.
  intros Wf. pose proof (wg_players _ Wf). pose proof (gs_blind _ (wg_shape _ Wf)).
  unfold minRaiseBy. rewrite (for_pure _ _ _ (λ m p, Z.max m (at_ (blind g) p))).
  - by rewrite Z.sub_0_r.
  - intros p m Hp. run. destruct (Z.ltb_spec m (at_ (blind g) p)); f_equal; lia.
Qed.

Section End.
Context (g : Game) (s : State) (Wf : wf_game g) (m f : Z) (M : mid_inv g s m f).

(** The minimum raise of the next round does not overflow. *)
Lemma nextMin_range : 0 ≤ maxBlind g + maxSpent s ≤ INT32_MAX.
Proof.
  pose proof (mi_chips _ _ _ _ M) as CK. pose proof (maxSpent_nonneg g s CK).
  pose proof (maxZ_lb (at_ (blind g)) (numPlayers g) 1) as Hb. fold (maxBlind g) in Hb.
  pose proof (wg_rounds _ Wf).
  assert (totalActions g s ≤ 256) as HT.
  { unfold totalActions. transitivity (sumZ (λ _, 64) (numRounds g)).
    - apply sumZ_le; [lia|]. intros. by apply (mi_na _ _ _ _ M).
    - rewrite sumZ_const by lia. lia. }
  destruct (bettingType g) eqn:EB.
  - destruct (wg_limit _ Wf EB) as (_ & _ & Hroom). pose proof (ck_limit _ _ CK EB).
    pose proof (maxZ_lb (at_ (raiseSize g)) (numRounds g) 0) as Hr. fold (maxRaiseSize g) in Hr. nia.
  - destruct (ck_max _ _ CK) as (q & Hq & E). pose proof (ck_spent _ _ CK q Hq).
    pose proof (wg_nolimit _ Wf EB q Hq).
    assert (maxBlind g ≤ 1073741823); [|unfold INT32_MAX in *; lia].
    apply maxZ_le; [lia|]. intros i Hi. pose proof (wg_blind _ Wf i Hi).
    pose proof (wg_nolimit _ Wf EB i Hi). unfold INT32_MAX in *. lia.
Qed.

Lemma end_ok : doAction_end g s = Ok (ended g s m).
Proof.
  pose proof (mi_shape _ _ _ _ M) as Sh. pose proof (mi_window _ _ _ _ M) as BW.
  pose proof (is_round _ _ Sh). pose proof (wg_rounds _ Wf).
  unfold doAction_end, ended, roundDone. rewrite numFolded_ok by done. rewrite bind_ok.
  destruct (_ <=? nFolded g s + 1); [done|].
  rewrite (numCalled_ok g s Sh m) by apply BW. rewrite bind_ok.
  rewrite numActingPlayers_ok by done. rewrite bind_ok. rewrite (bw_called _ _ _ _ BW).
  destruct (nActing g s <=? _); [|done]. rewrite bind_ok.
  destruct (1 <? nActing g s).
  - destruct (Z.ltb_spec (round s + 1) (numRounds g)); [|done].
    rewrite minRaiseBy_ok by done. rewrite bind_ok. cbn [maxSpent set_round].
    pose proof nextMin_range. rewrite i32_ok by (unfold INT32_MIN; lia). rewrite bind_ok.
    by rewrite u8_small by lia.
  - by rewrite u8_small by lia.
Qed.

(** Ending the hand keeps the invariant... *)
Lemma inv_finish : inv g (set_finished 1 s).
Proof.
  destruct M as [Sh ? ? ? ? ? CK RK ? ?]. split; try done.
  - destruct Sh. split; reshape.
  - destruct CK. by split.
  - destruct RK. by split.
  - by right.
Qed.

(** ... also when the remaining rounds are skipped ... *)
Lemma inv_showdown : inv g (set_round (numRounds g - 1) (set_finished 1 s)).
Proof.
  pose proof (wg_rounds _ Wf). destruct M as [Sh Na Hpos Fut Hist ? CK [R0 R1 R2] ? ?].
  pose proof (is_round _ _ Sh).
  split; try done; cbn; try (by right); try (intros; lia).
  - destruct Sh. split; reshape; cbn.
    + lia.
    + unfold na; cbn. apply Na. lia.
    + intros i Hi. by destruct (Hist (numRounds g - 1) i ltac:(lia) Hi).
    + intros i Hi. by destruct (Hist (numRounds g - 1) i ltac:(lia) Hi).
  - destruct CK. by split.
  - split; cbn; [done|intros; lia|]. intros _. apply R2. by right.
Qed.

(** ... and so does moving to the next round. *)
Lemma inv_next :
  nFolded g s + 1 < numPlayers g → 1 < nActing g s → round s + 1 < numRounds g →
  inv g (set_minNoLimitRaiseTo (maxBlind g + maxSpent s) (set_round (round s + 1) s)).
Proof.
  intros Hf Hact Hr. pose proof (wg_rounds _ Wf).
  pose proof (wg_players _ Wf). pose proof (maxZ_lb (at_ (blind g)) (numPlayers g) 1) as Hb.
  destruct M as [Sh Na Hpos Fut Hist Hfold CK [R0 R1 R2] Hfin ?].
  pose proof (is_round _ _ Sh).
  set (s2 := set_minNoLimitRaiseTo _ _).
  assert (Hna : na s2 = 0) by (unfold na, s2; cbn; apply Fut; lia).
  split; try done.
  - destruct Sh. split; reshape; rewrite ?Hna; cbn; intros; lia.
  - cbn. intros. apply Fut. lia.
  - destruct CK. split; try done. intros EB. cbn. unfold maxBlind in *. lia.
  - split; cbn; [done|intros; apply R1; lia|]. intros _. apply R2. by right.
  - by left.
  - intros _. split; [done|]. exists 0, 0.
    assert (Hz : countZ (λ q, actingb g s2 q && acted s2 0 q) (numPlayers g) = 0).
    { rewrite (countZ_ext _ (λ _, false)).
      - unfold countZ. by induction (seqZ 0 (numPlayers g)).
      - intros q Hq. unfold acted. rewrite Hna. apply andb_false_r. }
    split; [|rewrite Hz; change (nActing g s2) with (nActing g s); lia].
    split; rewrite ?Hna; try lia; try done; try (intros; lia).
Qed.

Lemma inv_continue : nFolded g s + 1 < numPlayers g → roundDone g s m = false → inv g s.
Proof.
  intros Hf Hd. destruct M as [Sh Na Hpos Fut Hist ? ? ? Hfin BW].
  split; try done; [by left|]. intros _. split; [done|]. exists m, f. split; [done|].
  unfold roundDone in Hd. lia.
Qed.

Lemma inv_ended : inv g (fst (ended g s m)).
Proof.
  unfold ended. destruct (Z.leb_spec (numPlayers g) (nFolded g s + 1)); cbn; [apply inv_finish|].
  destruct (roundDone g s m) eqn:E; [|by apply inv_continue].
  destruct (Z.ltb_spec 1 (nActing g s)); [|apply inv_showdown].
  destruct (Z.ltb_spec (round s + 1) (numRounds g)); [by apply inv_next|apply inv_finish].
Qed.
End End.
