(* ===== verification/BettingInit.v ===== *)
(** * [initState] starts a hand in the invariant *)

From stdpp Require Import base list list_numbers numbers option sets.
From S2P Require Import Prelude GameDef Betting BettingSpec BettingInv BettingStep BettingKeep.
Open Scope Z_scope.

(** What [initState] leaves in the state object [s]. *)
Record fresh_hand (g : Game) (h : Z) (s s' : State) : Prop := {
  fh_shape : state_shape s';
  fh_hand : handId s' = h;
  fh_max : maxSpent s' = maxZ (at_ (blind g)) (numPlayers g) 0;
  fh_min : minNoLimitRaiseTo s' =
    match bettingType g with
    | limitBetting => 0
    | noLimitBetting => if maxSpent s' =? 0 then 1 else 2 * maxSpent s'
    end;
  fh_spent : ∀ p, 0 ≤ p < numPlayers g → at_ (spent s') p = at_ (blind g) p;
  fh_folded : ∀ p, 0 ≤ p < numPlayers g → at_ (playerFolded s') p = 0;
  fh_na : ∀ r, 0 ≤ r < numRounds g → at_ (numActions s') r = 0;
  fh_round : round s' = 0;
  fh_finished : finished s' = 0;
  fh_rest : action s' = action s ∧ actingPlayer s' = actingPlayer s ∧
    boardCards s' = boardCards s ∧ holeCards s' = holeCards s ∧ roundSpent s' = roundSpent s
}.

Section Init.
Context (g : Game) (Wf : wf_game g).
Let n := numPlayers g.

Local Ltac facts :=
  pose proof (wg_players _ Wf); pose proof (wg_rounds _ Wf);
  pose proof (gs_blind _ (wg_shape _ Wf)).

Lemma init_blinds_ok s : length (spent s) = 10%nat →
  ∃ sp, initState_blinds g s
      = Ok (set_maxSpent (maxZ (at_ (blind g)) n 0) (set_spent sp s)) ∧
    length sp = 10%nat ∧ ∀ q, 0 ≤ q < n → at_ sp q = at_ (blind g) q.
Proof.
  facts. intros Hl. unfold initState_blinds.
  edestruct (for_inv (λ i s', ∃ sp,
    s' = set_maxSpent (maxZ (at_ (blind g)) i 0) (set_spent sp s) ∧
    length sp = 10%nat ∧ ∀ q, 0 ≤ q < i → at_ sp q = at_ (blind g) q))
    as (s' & E & sp & -> & Hlen & Hsp); [| | |rewrite E; exists sp; done].
  - unfold n. lia.
  - exists (spent s). destruct s; cbn. split_and!; [done|done|lia].
  - intros i s' Hi (sp & -> & Hlen & Hsp). cbn [spent maxSpent set_maxSpent set_spent].
    run. eexists. split; [reflexivity|].
    exists (<[Z.to_nat i := at_ (blind g) i]> sp).
    rewrite length_insert. split_and!; [|done|].
    + rewrite maxZ_S by lia. cbn [maxSpent set_maxSpent set_spent].
      destruct (Z.ltb_spec (maxZ (at_ (blind g)) i 0) (at_ (blind g) i));
        [rewrite Z.max_r by lia|rewrite Z.max_l by lia]; done.
    + intros q Hq. rewrite at_insert by lia. case_decide; [by subst|]. apply Hsp. lia.
Qed.

Lemma init_players_ok s :
  length (spent s) = 10%nat → length (playerFolded s) = 10%nat →
  (∀ q, 0 ≤ q < n → at_ (blind g) q ≤ maxSpent s) →
  (∀ q, 0 ≤ q < n → at_ (spent s) q = at_ (blind g) q) →
  ∃ sp pf, initState_players g s = Ok (set_playerFolded pf (set_spent sp s)) ∧
    length sp = 10%nat ∧ length pf = 10%nat ∧
    (∀ q, 0 ≤ q < n → at_ sp q = at_ (blind g) q) ∧ (∀ q, 0 ≤ q < n → at_ pf q = 0).
Proof.
  facts. intros Hl Hl2 Hmax Hs. unfold initState_players.
  edestruct (for_inv (λ i s', ∃ sp pf,
    s' = set_playerFolded pf (set_spent sp s) ∧ length sp = 10%nat ∧ length pf = 10%nat ∧
    (∀ q, 0 ≤ q < n → at_ sp q = at_ (blind g) q) ∧ (∀ q, 0 ≤ q < i → at_ pf q = 0)))
    as (s' & E & sp & pf & -> & ? & ? & ? & ?); [| | |rewrite E; exists sp, pf; done].
  - unfold n. lia.
  - exists (spent s), (playerFolded s). destruct s; cbn. split_and!; try done; lia.
  - intros i s' Hi (sp & pf & -> & Hlen & Hlen2 & Hsp & Hpf).
    cbn [spent maxSpent set_maxSpent set_spent set_playerFolded]. run.
    cbn [maxSpent set_spent set_playerFolded].
    specialize (Hmax i ltac:(unfold n; lia)).
    destruct (Z.ltb_spec (maxSpent s) (at_ (blind g) i)); [lia|]. cbn [playerFolded set_spent set_playerFolded].
    run. eexists. split; [reflexivity|].
    exists (<[Z.to_nat i := at_ (blind g) i]> sp), (<[Z.to_nat i := 0]> pf).
    rewrite !length_insert. split_and!; try done.
    + intros q Hq. rewrite at_insert by lia. case_decide; [by subst|]. auto.
    + intros q Hq. rewrite at_insert by lia. case_decide; [done|]. apply Hpf. lia.
Qed.

Lemma init_rounds_ok s : length (numActions s) = 4%nat →
  ∃ nas, for_ 0 (numRounds g) s (λ r s, na ← wr (numActions s) r 0; Ok (set_numActions na s))
      = Ok (set_numActions nas s) ∧
    length nas = 4%nat ∧ ∀ r, 0 ≤ r < numRounds g → at_ nas r = 0.
Proof.
  facts. intros Hl.
  edestruct (for_inv (λ i s', ∃ nas, s' = set_numActions nas s ∧ length nas = 4%nat ∧
    ∀ q, 0 ≤ q < i → at_ nas q = 0)) as (s' & E & nas & -> & Hlen & Hn);
    [| | |rewrite E; exists nas; done].
  - lia.
  - exists (numActions s). destruct s; cbn. split_and!; [done|done|lia].
  - intros i s' Hi (nas & -> & Hlen & Hn). cbn [numActions set_numActions]. run.
    eexists. split; [reflexivity|]. exists (<[Z.to_nat i := 0]> nas).
    rewrite length_insert. split_and!; [done|done|].
    intros q Hq. rewrite at_insert by lia. case_decide; [done|]. apply Hn. lia.
Qed.

Lemma maxBlind_bound : 0 ≤ maxZ (at_ (blind g)) n 0 ∧
  (bettingType g = noLimitBetting → 2 * maxZ (at_ (blind g)) n 0 ≤ INT32_MAX).
Proof.
  split; [apply maxZ_lb|]. intros EB.
  assert (maxZ (at_ (blind g)) n 0 ≤ 1073741823); [|unfold INT32_MAX; lia].
  apply maxZ_le; [lia|]. intros i Hi. pose proof (wg_blind _ Wf i Hi).
  pose proof (wg_nolimit _ Wf EB i Hi). unfold INT32_MAX in *. lia.
Qed.

Lemma initState_ok h s : state_shape s → ∃ s', initState g h s = Ok s' ∧ fresh_hand g h s s'.
Proof.
  facts. intros SS. destruct maxBlind_bound as [Hb0 Hb].
  unfold initState.
  destruct (init_blinds_ok (set_handId h s)) as (sp & -> & Hl & Hsp); [apply SS|].
  rewrite bind_ok. unfold initState_minRaise. cbn [maxSpent set_maxSpent].
  set (mx := maxZ (at_ (blind g)) n 0) in *.
  set (s1 := set_maxSpent mx _).
  set (mn := match bettingType g with limitBetting => 0
             | noLimitBetting => if mx =? 0 then 1 else 2 * mx end).
  assert ((if decide (bettingType g = noLimitBetting) then
      if nz mx then m ← i32 (mx * 2); Ok (set_minNoLimitRaiseTo m s1)
      else Ok (set_minNoLimitRaiseTo 1 s1)
    else Ok (set_minNoLimitRaiseTo 0 s1)) = Ok (set_minNoLimitRaiseTo mn s1)) as ->.
  { unfold mn, nz. destruct (bettingType g); [by rewrite decide_False|rewrite decide_True by done].
    specialize (Hb eq_refl). destruct (mx =? 0); cbn; [done|].
    rewrite i32_ok by (unfold INT32_MIN; lia). cbn. by rewrite Z.mul_comm. }
  rewrite bind_ok.
  destruct (init_players_ok (set_minNoLimitRaiseTo mn s1)) as (sp' & pf & -> & Hl1 & Hl2 & Hsp' & Hpf);
    [done|apply SS|intros; by apply maxZ_ge|done|].
  rewrite bind_ok.
  destruct (init_rounds_ok (set_playerFolded pf (set_spent sp' (set_minNoLimitRaiseTo mn s1))))
    as (nas & -> & Hl3 & Hna); [apply SS|].
  rewrite bind_ok. eexists. split; [reflexivity|].
  split; cbn; try done. destruct SS. by split.
Qed.

(** A fresh hand on a state object whose [roundSpent] is cleared. *)
Lemma fresh_inv h s s' :
  fresh_hand g h s s' → (∀ r, 0 ≤ r < numRounds g → at_ (roundSpent s) r = 0) → inv g s'.
Proof.
  facts. intros [SS Hh Hm Hmn Hsp Hf Hna Hr Hfin (?&?&?&?&Hrs)] Hz.
  destruct (wg_open _ Wf) as (p0 & Hp0 & Hlt). pose proof maxBlind_bound as [Hb0 _].
  assert (Hna0 : na s' = 0) by (unfold na; rewrite Hr; apply Hna; lia).
  assert (Hnf : nFolded g s' = 0).
  { unfold nFolded. rewrite (countZ_ext _ (λ _, false)).
    - unfold countZ. by induction (seqZ 0 (numPlayers g)).
    - intros q Hq. unfold foldedb. by rewrite Hf. }
  assert (Hact : 0 < nActing g s').
  { apply (countZ_pos_intro _ _ p0); [done|]. unfold actingb, foldedb, allinb.
    rewrite Hf, Hsp by done. cbn. destruct (Z.leb_spec (at_ (stack g) p0) (at_ (blind g) p0)); [lia|done]. }
  split; try done.
  - split; try done; try (apply Wf); rewrite ?Hna0, ?Hr; try lia; intros; lia.
  - intros. rewrite Hna by lia. lia.
  - intros. apply Hna. lia.
  - intros r i Hr' Hi. rewrite Hna in Hi by lia. lia.
  - intros. left. by apply Hf.
  - split.
    + intros p Hp. rewrite Hsp, Hm by done. pose proof (wg_blind _ Wf p Hp).
      pose proof (maxZ_ge (at_ (blind g)) (numPlayers g) 0 p Hp). lia.
    + destruct (maxZ_attained (at_ (blind g)) (numPlayers g) 0) as [E|(q & Hq & E)].
      * exists 0. split; [lia|]. rewrite Hsp, Hm by lia. rewrite E.
        pose proof (wg_blind _ Wf 0 ltac:(lia)).
        pose proof (maxZ_ge (at_ (blind g)) (numPlayers g) 0 0 ltac:(lia)). lia.
      * exists q. split; [done|]. rewrite Hsp, Hm by lia. done.
    + intros EB. rewrite Hm. transitivity (maxBlind g).
      * apply maxZ_le; [pose proof (maxZ_lb (at_ (blind g)) (numPlayers g) 1); unfold maxBlind; lia|].
        intros i Hi. by apply maxZ_ge.
      * pose proof (maxZ_lb (at_ (raiseSize g)) (numRounds g) 0) as Hrz. fold (maxRaiseSize g) in Hrz.
        assert (totalActions g s' = 0) as ->; [|lia].
        unfold totalActions. rewrite (sumZ_ext _ (λ _, 0)) by done. rewrite sumZ_const by lia. lia.
    + intros EB. rewrite Hmn, EB. destruct (Z.eqb_spec (maxSpent s') 0); [lia|].
      fold n in Hm. lia.
  - split; intros; rewrite Hrs in *; rewrite ?Hz by lia; try lia.
  - by left.
  - intros _. rewrite Hnf. split; [lia|]. exists 0, 0.
    assert (Hz0 : countZ (λ q, actingb g s' q && acted s' 0 q) (numPlayers g) = 0).
    { rewrite (countZ_ext _ (λ _, false)).
      - unfold countZ. by induction (seqZ 0 (numPlayers g)).
      - intros q Hq. unfold acted. rewrite Hna0. apply andb_false_r. }
    split; [|lia].
    split; rewrite ?Hna0; try lia; try done; try (intros; lia).
Qed.
End Init.

(** [initState] posts the blinds: every player has put in his blind, the bet is the
    largest blind, nobody has folded or acted, the hand is open in round 0, and the
    cards, the old action entries and [roundSpent] of the object are left as they were. *)
Theorem initState_posts_blinds g h s :
  wf_game g → state_shape s → ∃ s', initState g h s = Ok s' ∧ fresh_hand g h s s'.
Proof. intros Wf SS. by apply initState_ok. Qed.

Lemma initState_posts_blinds_witness :
  ∃ s', initState nolimit3p 3 zero_state = Ok s' ∧ fresh_hand nolimit3p 3 zero_state s'.
Proof. apply (initState_posts_blinds nolimit3p 3 zero_state nolimit3p_wf zero_state_shape). Defined.
