(* ===== verification/BettingThm.v ===== *)
(** * Theorems on the betting engine

    A hand is a sequence of steps, each an action accepted by [isValidAction]
    and carried out by [doAction]; the theorems are about every state reachable
    from [initState] on a cleared [State] object. *)

From stdpp Require Import base list list_numbers numbers option sets.
From S2P Require Import Prelude GameDef Betting BettingSpec BettingInv BettingStep BettingKeep BettingInit.
Open Scope Z_scope.

(** ** Steps and reachable states *)

(** One accepted action: the caller validates it and plays what comes back. *)
Inductive step (g : Game) : State → State → Prop :=
  | step_action s t a a' s' e :
      isValidAction g s t a = Ok (1, a') →
      doAction g a' s = Ok (s', e) →
      step g s s'.

Inductive steps (g : Game) : nat → State → State → Prop :=
  | steps_zero s : steps g 0 s s
  | steps_more k s s' s'' : steps g k s s' → step g s' s'' → steps g (S k) s s''.

(** A hand dealt on a cleared [State], as [run_game.cpp] clears it. *)
Definition starts (g : Game) (h : Z) (s : State) : Prop := initState g h zero_state = Ok s.

(** ** Invariance *)
Lemma mid_applied g s m f p a :
  wf_game g → inv g s → finished s = 0 → bet_window g s m f →
  countZ (λ q, actingb g s q && acted s m q) (numPlayers g) < nActing g s →
  first_acting g s (firstSeat g s) p → valid_act g s p a →
  ∃ m' f', mid_inv g (applied g s a p) m' f' ∧
    m' = if decide (type a = a_raise) then na s else m.
Proof.
  intros Wf I Open BW Hlt Hfirst Va.
  assert (Hp : 0 ≤ p < numPlayers g) by (by eapply p_range).
  assert (Room : na s < 64) by (by eapply turn_room).
  pose proof (inv_shape _ _ I) as Sh. pose proof (wg_rounds _ Wf). pose proof (is_round _ _ Sh).
  assert (Ht : type a ≠ a_invalid) by (unfold valid_act in Va; by destruct (type a)).
  assert (Hpre : ∀ m' f', bet_window g (applied g s a p) m' f' → mid_inv g (applied g s a p) m' f').
  { intros m' f' BW'. split; try done.
    - by apply in_shape_applied.
    - intros r Hr. rewrite numActions_applied by (done || lia). pose proof (is_na _ _ Sh).
      case_decide; [lia|]. by apply (inv_na _ _ I).
    - rewrite na_applied by done. pose proof (is_na _ _ Sh). lia.
    - cbn [round applied]. intros r Hr. rewrite numActions_applied by (done || lia).
      rewrite decide_False by lia. by apply (inv_future _ _ I).
    - intros r i Hr Hi. rewrite numActions_applied in Hi by (done || lia).
      rewrite type_applied, player_applied by (done || lia).
      destruct (decide (round s = r)) as [<-|].
      + destruct (decide (na s = i)) as [<-|]; [by rewrite !decide_True by done|].
        rewrite !decide_False by tauto. apply (inv_hist _ _ I); [done|]. unfold na in *. lia.
      + rewrite !decide_False by tauto. by apply (inv_hist _ _ I).
    - intros q Hq. rewrite folded_applied by (done || lia). case_decide; [|by apply (inv_folded _ _ I)].
      destruct (isFold a); [by right|by apply (inv_folded _ _ I)].
    - by eapply chips_applied.
    - by eapply rounds_applied. }
  case_decide.
  - exists (na s), p. split; [|done]. apply Hpre. by eapply window_raise.
  - eexists m, _. split; [|done]. apply Hpre. by eapply window_other.
Qed.

(** The step of an open state, in closed form. *)
Lemma doAction_ok g s p a :
  wf_game g → inv g s → finished s = 0 → currentPlayer g s = Ok p → valid_act g s p a →
  ∃ m f, mid_inv g (applied g s a p) m f ∧
    doAction g a s = Ok (ended g (applied g s a p) m).
Proof.
  intros Wf I Open Hcur Va. destruct (inv_open _ _ I Open) as (_ & m & f & BW & Hlt).
  destruct (current_exists g s Wf I Open) as (p' & Hfirst & Hcur' & Hp & _).
  assert (p' = p) as -> by congruence.
  destruct (mid_applied g s m f p a) as (m' & f' & M & _); try done.
  exists m', f'. split; [done|]. unfold doAction. rewrite Hcur. cbn.
  pose proof (apply_ok g s Wf (inv_shape _ _ I) p Hp) as E.
  specialize (E ltac:(by eapply turn_room) (inv_chips _ _ I) (inv_rounds _ _ I) (inv_na _ _ I) a Va).
  destruct (doAction_record a p s) as [s1|]; [|discriminate]. cbn in E |- *.
  destruct (doAction_switch g a p s1) as [s2|]; [|discriminate]. cbn in E |- *.
  rewrite E. cbn. by eapply end_ok.
Qed.

Lemma step_open g s s' : step g s s' → finished s = 0.
Proof.
  intros [? t a a' s'' e E _]. unfold isValidAction, stateFinished in E.
  unfold nz in E. destruct (Z.eqb_spec (finished s0) 0); [done|]. by cbn in E.
Qed.

Lemma step_inv g s s' : wf_game g → inv g s → step g s s' →
  ∃ p a m f, currentPlayer g s = Ok p ∧ valid_act g s p a ∧
    mid_inv g (applied g s a p) m f ∧ s' = fst (ended g (applied g s a p) m).
Proof.
  intros Wf I St. pose proof (step_open _ _ _ St) as Open.
  destruct St as [s t a a' s' e Ev Ed].
  destruct (current_exists g s Wf I Open) as (p & Hfirst & Hcur & Hp & _).
  destruct (isValidAction_ok g s Wf I Open p Hcur Hp t a) as (ok & a'' & E & _ & _ & Va).
  rewrite Ev in E. injection E as <- <-. specialize (Va eq_refl).
  destruct (doAction_ok g s p a' Wf I Open Hcur Va) as (m & f & M & Ed').
  rewrite Ed in Ed'. injection Ed' as Ed'. exists p, a', m, f. split_and!; try done.
  by rewrite <-Ed'.
Qed.

Lemma step_keeps g s s' : wf_game g → inv g s → step g s s' → inv g s'.
Proof.
  intros Wf I St. destruct (step_inv g s s' Wf I St) as (p & a & m & f & _ & _ & M & ->).
  by eapply inv_ended.
Qed.

Lemma starts_inv g h s : wf_game g → starts g h s → inv g s ∧ fresh_hand g h zero_state s.
Proof.
  intros Wf E. destruct (initState_ok g Wf h zero_state zero_state_shape) as (s' & E' & F).
  unfold starts in E. assert (s' = s) as -> by congruence. split; [|done].
  apply (fresh_inv g Wf h zero_state); [done|]. intros r Hr.
  pose proof (wg_rounds _ Wf). unfold zero_state, at_. cbn [roundSpent].
  rewrite lookup_total_replicate_2 by lia. done.
Qed.

Lemma steps_inv g h s k s' : wf_game g → starts g h s → steps g k s s' → inv g s'.
Proof.
  intros Wf Hs St. induction St; [by eapply starts_inv|]. by eapply step_keeps; [done|auto|].
Qed.

(** Plays a list of actions, each validated without fixing. *)
Definition play (g : Game) (acts : list Action) (s : State) : res State :=
  foldM (λ a s,
    '(ok, a') ← isValidAction g s 0 a;
    if ok =? 1 then '(s', _) ← doAction g a' s; Ok s' else Err AssertFailed) acts s.

Lemma play_steps g acts s k s0 s' :
  steps g k s0 s → play g acts s = Ok s' → steps g (length acts + k) s0 s'.
Proof.
  revert s k. induction acts as [|a acts IH]; intros s k St E; cbn in E; [by inv_ok|].
  inv_ok. destruct v0 as [ok a']. destruct (Z.eqb_spec ok 1) as [->|]; inv_ok.
  destruct v0 as [s1 e]. inv_ok. cbn. rewrite <-Nat.add_succ_r. eapply IH; [|done].
  econstructor; [done|]. by econstructor.
Qed.

Definition f_ : Action := mkAction a_fold 0.
Definition c_ : Action := mkAction a_call 0.
Definition r_ (z : Z) : Action := mkAction a_raise z.

(** A started hand and a hand played for some actions, for the witnesses. *)
Definition started (g : Game) : State :=
  match initState g 7 zero_state with Ok s => s | Err _ => zero_state end.
Definition played (g : Game) (acts : list Action) : State :=
  match play g acts (started g) with Ok s => s | Err _ => zero_state end.

(** ** Consequences of the invariant *)

(** Since the last raise of the round nobody acts twice. *)
Lemma fresh_turn g s p i :
  wf_game g → inv g s → finished s = 0 → currentPlayer g s = Ok p →
  0 ≤ i < na s → (∀ j, i < j < na s → type (act s j) ≠ a_raise) → actor s i ≠ p.
Proof.
  intros Wf I Open Hcur Hi Hno. destruct (inv_open _ _ I Open) as (_ & m & f & BW & Hlt).
  destruct (current_exists g s Wf I Open) as (p' & Hfirst & Hcur' & _).
  assert (p' = p) as -> by congruence. eapply turn_fresh; try done.
  destruct (bw_head _ _ _ _ BW) as [->|[? Hr]]; [lia|].
  destruct (Z.le_gt_cases m i); [lia|]. by destruct (Hno m); [lia|].
Qed.

(** Every player who is still in when the betting stops has matched the bet, or
    is all-in for less. *)
Lemma matched_when_done g s m f q :
  wf_game g → mid_inv g s m f → roundDone g s m = true → 0 ≤ q < numPlayers g →
  foldedb s q = false → at_ (spent s) q = Z.min (maxSpent s) (at_ (stack g) q).
Proof.
  intros Wf M Hd Hq Hf. pose proof (ck_spent _ _ (mi_chips _ _ _ _ M) q Hq).
  unfold roundDone in Hd. destruct (actingb g s q) eqn:Ha.
  - assert (acted s m q = true) as Hac.
    { pose proof (countZ_eq_mono (λ q, actingb g s q && acted s m q) (actingb g s) (numPlayers g)) as Hc.
      specialize (Hc ltac:(by intros i _ [? _]%andb_prop)).
      unfold nActing in Hd. specialize (Hc ltac:(lia) q Hq Ha).
      by apply andb_prop in Hc as [_ ?]. }
    apply acted_spec in Hac as (i & Hi & <-). pose proof (mi_window _ _ _ _ M) as BW.
    apply (bw_match _ _ _ _ BW); [done|]. intros E. rewrite (bw_fold _ _ _ _ BW i Hi E) in Hf. done.
  - unfold actingb in Ha. rewrite Hf in Ha. cbn in Ha. unfold allinb in Ha. lia.
Qed.

Lemma totalActions_ended g s m : totalActions g (fst (ended g s m)) = totalActions g s.
Proof. unfold ended. by repeat case_match. Qed.

Lemma spent_ended g s m : spent (fst (ended g s m)) = spent s.
Proof. unfold ended. by repeat case_match. Qed.

Lemma steps_total g h s k s' :
  wf_game g → starts g h s → steps g k s s' → totalActions g s' = Z.of_nat k.
Proof.
  intros Wf Hs St. induction St as [s|k s s' s'' St IH Hst].
  - destruct (starts_inv _ _ _ Wf Hs) as [_ F]. unfold totalActions.
    rewrite (sumZ_ext _ (λ _, 0)) by apply F. pose proof (wg_rounds _ Wf).
    rewrite sumZ_const by lia. lia.
  - pose proof (steps_inv g h s k s' Wf Hs St) as I.
    pose proof (step_open _ _ _ Hst) as Open.
    destruct (step_inv g s' s'' Wf I Hst) as (p & a & m & f & Hcur & Va & M & ->).
    rewrite totalActions_ended. destruct (inv_open _ _ I Open) as (_ & m0 & f0 & BW & Hlt).
    destruct (current_exists g s' Wf I Open) as (p' & Hfirst & Hcur' & Hp & _).
    assert (p' = p) as -> by congruence.
    rewrite totalActions_applied; try done. rewrite IH by done. lia.
Qed.

(** ** The properties *)

(** C1: No undefined behaviour.  In every state reached from the start of a hand by
    accepted actions, while the hand is open, [isValidAction] returns for any
    action whatever, and [doAction] returns for every action it accepts: no
    assertion fails, no array is accessed outside its bounds and no signed
    addition overflows. *)
Theorem hand_safe g h s k s' :
  wf_game g → starts g h s → steps g k s s' → finished s' = 0 →
  ∀ t a, ∃ ok a', isValidAction g s' t a = Ok (ok, a') ∧
    (ok = 1 → ∃ s'' e, doAction g a' s' = Ok (s'', e)).
Proof.
  intros Wf Hs St Open t a. pose proof (steps_inv g h s k s' Wf Hs St) as I.
  destruct (current_exists g s' Wf I Open) as (p & _ & Hcur & Hp & _).
  destruct (isValidAction_ok g s' Wf I Open p Hcur Hp t a) as (ok & a' & E & _ & _ & Va).
  exists ok, a'. split; [done|]. intros ->.
  destruct (doAction_ok g s' p a' Wf I Open Hcur (Va eq_refl)) as (m & f & _ & Ed).
  rewrite Ed. destruct (ended g (applied g s' a' p) m) as [s'' e]. eauto.
Qed.

Lemma hand_safe_witness :
  ∃ ok a', isValidAction nolimit3p (played nolimit3p [r_ 300; c_; r_ 900]) 1 (r_ 40000) = Ok (ok, a')
    ∧ (ok = 1 → ∃ s'' e, doAction nolimit3p a' (played nolimit3p [r_ 300; c_; r_ 900]) = Ok (s'', e)).
Proof.
  apply (hand_safe nolimit3p 7 (started nolimit3p) 3 (played nolimit3p [r_ 300; c_; r_ 900]) nolimit3p_wf).
  - vm_compute. reflexivity.
  - apply (play_steps nolimit3p [r_ 300; c_; r_ 900] (started nolimit3p) 0); [constructor|].
    vm_compute. reflexivity.
  - vm_compute. reflexivity.
Defined.

(** The end-of-round test leaves the chips and the folds alone. *)
Lemma ended_fields g s m : 
  let s' := fst (ended g s m) in
  spent s' = spent s ∧ maxSpent s' = maxSpent s ∧ playerFolded s' = playerFolded s ∧
  numActions s' = numActions s ∧ roundSpent s' = roundSpent s ∧ action s' = action s ∧
  actingPlayer s' = actingPlayer s.
Proof. unfold ended. by repeat case_match. Qed.

(** A state and an accepted action give the closed form of [doAction]. *)
Lemma accepted_step g s t a a' :
  wf_game g → inv g s → isValidAction g s t a = Ok (1, a') →
  finished s = 0 ∧ ∃ p, currentPlayer g s = Ok p ∧ 0 ≤ p < numPlayers g ∧ valid_act g s p a' ∧
    ∃ m f, mid_inv g (applied g s a' p) m f ∧ doAction g a' s = Ok (ended g (applied g s a' p) m).
Proof.
  intros Wf I Ev. assert (Open : finished s = 0).
  { unfold isValidAction, stateFinished, nz in Ev. by destruct (Z.eqb_spec (finished s) 0). }
  split; [done|]. destruct (current_exists g s Wf I Open) as (p & _ & Hcur & Hp & _).
  destruct (isValidAction_ok g s Wf I Open p Hcur Hp t a) as (ok & a'' & E & _ & _ & Va).
  rewrite Ev in E. injection E as <- <-. exists p. split_and!; try done; try (by apply Va); try lia.
  apply doAction_ok; try done. by apply Va.
Qed.

(** C2: A betting round ends only when the bet is matched.  When [doAction] reports
    the end of a round and at least two players remain, every player who has not
    folded has put in exactly the current bet, or his whole stack if that is less. *)
Theorem round_ends_matched g h s k s' t a a' s'' :
  wf_game g → starts g h s → steps g k s s' →
  isValidAction g s' t a = Ok (1, a') → doAction g a' s' = Ok (s'', true) →
  nFolded g s'' + 1 < numPlayers g →
  ∀ q, 0 ≤ q < numPlayers g → foldedb s'' q = false →
    at_ (spent s'') q = Z.min (maxSpent s'') (at_ (stack g) q).
Proof.
  intros Wf Hs St Ev Ed Hf q Hq Hnf. pose proof (steps_inv g h s k s' Wf Hs St) as I.
  destruct (accepted_step g s' t a a' Wf I Ev) as (_ & p & _ & _ & _ & m & f & M & Ed').
  rewrite Ed in Ed'. injection Ed' as Ed'.
  pose proof (ended_fields g (applied g s' a' p) m) as (E1 & E2 & E3 & _).
  rewrite <-Ed' in E1, E2, E3. cbn [fst] in E1, E2, E3.
  assert (roundDone g (applied g s' a' p) m = true) as Hd.
  { unfold ended in Ed'. unfold nFolded, foldedb in Hf. rewrite E3 in Hf.
    destruct (Z.leb_spec (numPlayers g) (nFolded g (applied g s' a' p) + 1)) as [Hle|];
      [unfold nFolded, foldedb in Hle; lia|].
    by destruct (roundDone g (applied g s' a' p) m). }
  rewrite E1, E2. eapply matched_when_done; try done. unfold foldedb in *. by rewrite <-E3.
Qed.

Lemma round_ends_matched_witness :
  at_ (spent (played nolimit3p [r_ 300; f_; c_])) 2
  = Z.min (maxSpent (played nolimit3p [r_ 300; f_; c_])) (at_ (stack nolimit3p) 2).
Proof.
  apply (round_ends_matched nolimit3p 7 (started nolimit3p) 2 (played nolimit3p [r_ 300; f_]) 0 c_ c_
    (played nolimit3p [r_ 300; f_; c_]) nolimit3p_wf).
  - vm_compute. reflexivity.
  - apply (play_steps nolimit3p [r_ 300; f_] (started nolimit3p) 0); [constructor|].
    vm_compute. reflexivity.
  - vm_compute. reflexivity.
  - vm_compute. reflexivity.
  - vm_compute. reflexivity.
  - vm_compute. split; [discriminate|reflexivity].
  - vm_compute. reflexivity.
Defined.

Lemma steps_bounded g h s k s' :
  wf_game g → starts g h s → steps g k s s' → Z.of_nat k ≤ 64 * numRounds g.
Proof.
  intros Wf Hs St. rewrite <-(steps_total g h s k s' Wf Hs St).
  pose proof (steps_inv g h s k s' Wf Hs St) as I. pose proof (wg_rounds _ Wf).
  rewrite Z.mul_comm, <-sumZ_const by lia. apply sumZ_le; [lia|].
  intros r Hr. by apply (inv_na _ _ I).
Qed.

(** What is asked of the engine: an action that may be refused.  An accepted one is played
    and counted. *)
Definition attempt (g : Game) (request : Z * Action) (sk : State * nat) : res (State * nat) :=
  let '(s, k) := sk in
  '(ok, a) ← isValidAction g s request.1 request.2;
  if ok =? 1 then '(s, _) ← doAction g a s; Ok (s, S k) else Ok (s, k).

Lemma attempt_ok g h s k s' t a : wf_game g → starts g h s → steps g k s s' → ∃ s'' k', attempt g (t, a) (s', k) = Ok (s'', k') ∧ steps g k' s s''.
Proof.
  intros Wf Hs St. pose proof (steps_inv g h s k s' Wf Hs St) as I. unfold attempt. cbn [fst snd]. destruct (inv_finished _ _ I) as [Open|Fin].
  - destruct (current_exists g s' Wf I Open) as (p & _ & Hcur & Hp & _). destruct (isValidAction_ok g s' Wf I Open p Hcur Hp t a) as (ok & a' & E & _ & _ & Va).
    rewrite E, bind_ok. destruct (Z.eqb_spec ok 1) as [->|]; [|by exists s', k].
    destruct (doAction_ok g s' p a' Wf I Open Hcur (Va eq_refl)) as (m & f & _ & Ed). rewrite Ed. destruct (ended g (applied g s' a' p) m) as [s'' e].
    rewrite bind_ok. exists s'', (S k). split; [done|]. econstructor; [done|]. by econstructor.
  - exists s', k. split; [|done]. unfold isValidAction, stateFinished. rewrite Fin. done.
Qed.

(** C3: A hand ends.  Whatever is asked of the engine after the start of a hand, in whatever
    number, it returns from every request without a fault, and the accepted actions are at
    most 64 in each round and 64 times the number of rounds in all: the room that
    [raiseIsValid] keeps is enough for the calls and folds that follow the last raise. *)
Theorem hand_length_bounded g h s requests :
  wf_game g → starts g h s →
  ∃ s' k, foldM (attempt g) requests (s, 0%nat) = Ok (s', k) ∧ steps g k s s' ∧
    (∀ r, 0 ≤ r < numRounds g → 0 ≤ at_ (numActions s') r ≤ 64) ∧ Z.of_nat k = totalActions g s' ∧ Z.of_nat k ≤ 64 * numRounds g.
Proof.
  intros Wf Hs. assert (∃ s' k, foldM (attempt g) requests (s, 0%nat) = Ok (s', k) ∧ steps g k s s') as (s' & k & E & St).
  { destruct (foldM_inv (λ _ sk, steps g sk.2 s sk.1) (attempt g) requests (s, 0%nat)) as ([s' k] & E & St); [constructor| |by exists s', k].
    intros _ [t a] _ [s1 k1] _ St. cbn in St. destruct (attempt_ok g h s k1 s1 t a Wf Hs St) as (s2 & k2 & E & St2). by exists (s2, k2). }
  exists s', k. split; [done|]. split; [done|]. split; [exact (inv_na _ _ (steps_inv g h s k s' Wf Hs St))|]. split; [symmetry; by apply (steps_total g h s)|by apply (steps_bounded g h s k s')].
Qed.

(** Raises until there is no room for another one, and calls. *)
Definition long_hand : list (Z * Action) := replicate 80 (1, r_ 0) ++ replicate 3 (0, c_).

Lemma hand_length_bounded_witness :
  ∃ s' k, foldM (attempt nolimit3p) long_hand (started nolimit3p, 0%nat) = Ok (s', k) ∧ steps nolimit3p k (started nolimit3p) s' ∧
    (∀ r, 0 ≤ r < 4 → 0 ≤ at_ (numActions s') r ≤ 64) ∧ Z.of_nat k = totalActions nolimit3p s' ∧ Z.of_nat k ≤ 64 * 4.
Proof.
  apply (hand_length_bounded nolimit3p 7 (started nolimit3p) long_hand nolimit3p_wf). vm_compute. reflexivity.
Defined.

(** The bound is reached: the first round of that hand takes 64 actions. *)
Fact long_hand_full :
  match foldM (attempt nolimit3p) long_hand (started nolimit3p, 0%nat) with Ok (s', k) => at_ (numActions s') 0 = 64 ∧ k = 65%nat | Err _ => False end.
Proof. vm_compute. split; reflexivity. Qed.

(** An open state always has a next step. *)
Lemma open_step g s : wf_game g → inv g s → finished s = 0 → ∃ s', step g s s'.
Proof.
  intros Wf I Open. destruct (current_exists g s Wf I Open) as (p & _ & Hcur & Hp & _).
  pose proof (call_valid g s Open p Hcur 0 0) as Ev.
  destruct (accepted_step g s 0 _ _ Wf I Ev) as (_ & p' & _ & _ & _ & m & f & _ & Ed).
  destruct (ended g _ m) as [s' e]. exists s'. by econstructor.
Qed.

(** C4: A hand can always be played to its end: from every reachable state some
    finished state is reached by accepted actions. *)
Theorem hand_can_finish g h s k s' :
  wf_game g → starts g h s → steps g k s s' →
  ∃ j s'', steps g (j + k) s s'' ∧ finished s'' = 1.
Proof.
  intros Wf Hs St. pose proof (steps_bounded g h s k s' Wf Hs St) as Hk.
  remember (Z.to_nat (64 * numRounds g - Z.of_nat k)) as d eqn:Ed.
  revert k s' St Hk Ed. induction d as [|d IH]; intros k s' St Hk Ed;
    pose proof (steps_inv g h s k s' Wf Hs St) as I;
    (destruct (inv_finished _ _ I) as [Open|Fin]; [|by exists 0%nat, s']);
    destruct (open_step g s' Wf I Open) as [s'' Hst];
    pose proof (steps_more g k s s' s'' St Hst) as St'.
  - pose proof (steps_bounded g h s (S k) s'' Wf Hs St'). lia.
  - pose proof (steps_bounded g h s (S k) s'' Wf Hs St') as Hle.
    destruct (IH (S k) s'' St' Hle ltac:(lia)) as (j & s3 & St3 & Fin).
    exists (S j), s3. split; [|done]. by rewrite Nat.add_succ_l, <-Nat.add_succ_r.
Qed.

Lemma hand_can_finish_witness :
  ∃ j s'', steps limit2p (j + 1) (started limit2p) s'' ∧ finished s'' = 1.
Proof.
  apply (hand_can_finish limit2p 7 (started limit2p) 1 (played limit2p [r_ 0]) limit2p_wf).
  - vm_compute. reflexivity.
  - apply (play_steps limit2p [r_ 0] (started limit2p) 0); [constructor|]. vm_compute. reflexivity.
Defined.

(** C5: Turn order.  While the hand is open, [currentPlayer] is the first player, going
    round the table from the seat after the last actor (or from the round's first
    player), who has neither folded nor gone all-in; and since the last raise of
    the round he has not acted yet. *)
Theorem turn_order g h s k s' :
  wf_game g → starts g h s → steps g k s s' → finished s' = 0 →
  ∃ p, currentPlayer g s' = Ok p ∧ first_acting g s' (firstSeat g s') p ∧
    ∀ i, 0 ≤ i < na s' → (∀ j, i < j < na s' → type (act s' j) ≠ a_raise) → actor s' i ≠ p.
Proof.
  intros Wf Hs St Open. pose proof (steps_inv g h s k s' Wf Hs St) as I.
  destruct (current_exists g s' Wf I Open) as (p & Hfirst & Hcur & Hp & _).
  exists p. split_and!; [done|done|]. intros i Hi Hno. by eapply fresh_turn.
Qed.

Lemma turn_order_witness :
  ∃ p, currentPlayer nolimit3p (played nolimit3p [r_ 300; c_]) = Ok p ∧
    first_acting nolimit3p (played nolimit3p [r_ 300; c_])
      (firstSeat nolimit3p (played nolimit3p [r_ 300; c_])) p ∧
    ∀ i, 0 ≤ i < na (played nolimit3p [r_ 300; c_]) →
      (∀ j, i < j < na (played nolimit3p [r_ 300; c_]) →
         type (act (played nolimit3p [r_ 300; c_]) j) ≠ a_raise) →
      actor (played nolimit3p [r_ 300; c_]) i ≠ p.
Proof.
  apply (turn_order nolimit3p 7 (started nolimit3p) 2 (played nolimit3p [r_ 300; c_]) nolimit3p_wf).
  - vm_compute. reflexivity.
  - apply (play_steps nolimit3p [r_ 300; c_] (started nolimit3p) 0); [constructor|]. vm_compute. reflexivity.
  - vm_compute. reflexivity.
Defined.

(** C6: Chips.  In every reachable state nobody has put in more than his stack, the
    recorded bet [maxSpent] is exactly the largest contribution, and in a no-limit
    game the next legal raise is above it. *)
Theorem chips_bounded g h s k s' :
  wf_game g → starts g h s → steps g k s s' →
  (∀ p, 0 ≤ p < numPlayers g → 0 ≤ at_ (spent s') p ≤ at_ (stack g) p) ∧
  maxSpent s' = maxZ (at_ (spent s')) (numPlayers g) 0 ∧
  (bettingType g = noLimitBetting → maxSpent s' < minNoLimitRaiseTo s').
Proof.
  intros Wf Hs St. pose proof (steps_inv g h s k s' Wf Hs St) as I.
  destruct (inv_chips _ _ I) as [Hsp (q & Hq & Eq) _ Hnl]. split_and!; [|..|done].
  - intros p Hp. by apply Hsp.
  - apply Z.le_antisymm.
    + rewrite <-Eq. by apply maxZ_ge.
    + apply maxZ_le; [pose proof (Hsp q Hq); lia|]. intros i Hi. by apply Hsp.
Qed.

Lemma chips_bounded_witness :
  maxSpent (played nolimit3p [r_ 300; c_; r_ 20000])
  = maxZ (at_ (spent (played nolimit3p [r_ 300; c_; r_ 20000]))) 3 0.
Proof.
  apply (chips_bounded nolimit3p 7 (started nolimit3p) 3
    (played nolimit3p [r_ 300; c_; r_ 20000]) nolimit3p_wf).
  - vm_compute. reflexivity.
  - apply (play_steps nolimit3p [r_ 300; c_; r_ 20000] (started nolimit3p) 0); [constructor|].
    vm_compute. reflexivity.
Defined.

(** An action only moves the actor's chips, and only into the pot: the other
    contributions and folds are unchanged, the actor's contribution and the bet do
    not decrease, and the action is appended to the history. *)
Theorem action_frame g h s k s' t a a' s'' e :
  wf_game g → starts g h s → steps g k s s' →
  isValidAction g s' t a = Ok (1, a') → doAction g a' s' = Ok (s'', e) →
  ∃ p, currentPlayer g s' = Ok p ∧
    (∀ q, 0 ≤ q → q ≠ p → at_ (spent s'') q = at_ (spent s') q ∧ foldedb s'' q = foldedb s' q) ∧
    at_ (spent s') p ≤ at_ (spent s'') p ∧ maxSpent s' ≤ maxSpent s'' ∧
    foldedb s'' p = isFold a' ∧
    at_ (numActions s'') (round s') = na s' + 1 ∧
    type (at2 (action s'') (round s') (na s')) = type a' ∧
    at2 (actingPlayer s'') (round s') (na s') = p.
Proof.
  intros Wf Hs St Ev Ed. pose proof (steps_inv g h s k s' Wf Hs St) as I.
  destruct (accepted_step g s' t a a' Wf I Ev) as (Open & p & Hcur & Hp & Va & m & f & M & Ed').
  rewrite Ed in Ed'. injection Ed' as Ed'.
  pose proof (ended_fields g (applied g s' a' p) m) as (E1 & E2 & E3 & E4 & _ & E6 & E7).
  rewrite <-Ed' in *. cbn [fst] in *.
  destruct (inv_open _ _ I Open) as (_ & m0 & f0 & BW & Hlt).
  destruct (current_exists g s' Wf I Open) as (p' & Hfirst & Hcur' & _ & Hact).
  assert (p' = p) as -> by congruence.
  assert (Room : na s' < 64) by (by eapply turn_room).
  pose proof (inv_shape _ _ I) as Sh. pose proof (is_round _ _ Sh) as Hr. pose proof (is_na _ _ Sh).
  pose proof (wg_rounds _ Wf).
  destruct (newMax_bounds g s' Wf Sh p Hp Room (inv_chips _ _ I) (inv_na _ _ I) a' Va) as (Hb & Hb2 & _).
  pose proof (ck_spent _ _ (inv_chips _ _ I) p Hp).
  exists p. unfold foldedb. rewrite E1, E2, E3, E4, E6, E7.
  rewrite numActions_applied, type_applied, player_applied by (done || lia).
  rewrite !decide_True by done. split_and!; try done.
  - intros q Hq Hne. rewrite spent_applied, folded_applied by (done || lia).
    by rewrite !decide_False by congruence.
  - rewrite spent_applied by (done || lia). rewrite decide_True by done.
    unfold newBet. destruct (type a'); lia.
  - cbn. lia.
  - rewrite folded_applied by (done || lia). rewrite decide_True by done.
    apply andb_prop in Hact as [Hnf _]. unfold foldedb in Hnf. by destruct (isFold a'); [|destruct (nz _)].
Qed.

Lemma action_frame_witness :
  ∃ p, currentPlayer limit2p (started limit2p) = Ok p ∧
    at_ (spent (started limit2p)) p ≤ at_ (spent (played limit2p [r_ 0])) p.
Proof.
  destruct (action_frame limit2p 7 (started limit2p) 0 (started limit2p) 0 (r_ 0) (r_ 0)
    (played limit2p [r_ 0]) false limit2p_wf) as (p & Hc & _ & Hle & _).
  - vm_compute. reflexivity.
  - constructor.
  - vm_compute. reflexivity.
  - vm_compute. reflexivity.
  - exists p. split; assumption.
Defined.

(** The amounts bet round by round add up to the bet: once somebody has acted, the
    entries of [roundSpent] are non-negative and sum to [maxSpent]. *)
Theorem round_amounts_sum g h s k s' :
  wf_game g → starts g h s → steps g k s s' → (0 < k)%nat →
  (∀ r, 0 ≤ r < numRounds g → 0 ≤ at_ (roundSpent s') r) ∧
  sumZ (at_ (roundSpent s')) (numRounds g) = maxSpent s'.
Proof.
  intros Wf Hs St Hk. pose proof (steps_inv g h s k s' Wf Hs St) as I.
  destruct (inv_rounds _ _ I) as [R0 R1 R2]. split; [done|]. apply R2.
  pose proof (steps_total g h s k s' Wf Hs St) as Ht.
  pose proof (is_round _ _ (inv_shape _ _ I)) as Hr. pose proof (is_na _ _ (inv_shape _ _ I)).
  destruct (Z.lt_ge_cases 0 (round s')) as [|Hz]; [by left|right].
  destruct (Z.lt_ge_cases 0 (na s')) as [|Hna]; [done|exfalso].
  enough (totalActions g s' = 0) by lia.
  unfold totalActions. rewrite (sumZ_ext _ (λ _, 0)); [rewrite sumZ_const; lia|].
  intros r Hr'. destruct (decide (r = round s')) as [->|]; [unfold na in *; lia|].
  apply (inv_future _ _ I). lia.
Qed.

Lemma round_amounts_sum_witness :
  sumZ (at_ (roundSpent (played limit2p [r_ 0; c_; r_ 0; c_]))) 4
  = maxSpent (played limit2p [r_ 0; c_; r_ 0; c_]).
Proof.
  apply (round_amounts_sum limit2p 7 (started limit2p) 4
    (played limit2p [r_ 0; c_; r_ 0; c_]) limit2p_wf).
  - vm_compute. reflexivity.
  - apply (play_steps limit2p [r_ 0; c_; r_ 0; c_] (started limit2p) 0); [constructor|].
    vm_compute. reflexivity.
  - repeat constructor.
Defined.

(** A raise without its checks. *)
Definition clamp (lo hi z : Z) : Z := if z <? lo then lo else if hi <? z then hi else z.

(** C7: Raises.  In an open state of a no-limit game, [isValidAction] accepts a raise
    exactly when a raise is allowed and its size lies in the legal range; when asked
    to fix the action it accepts every raise and moves its size to the nearest legal
    one.  A raise is allowed unless the round's limit of raises or of actions is
    reached, nobody else can act, or the player cannot exceed the current bet. *)
Theorem raise_accepted_iff g h s k s' p z :
  wf_game g → starts g h s → steps g k s s' → finished s' = 0 →
  bettingType g = noLimitBetting → currentPlayer g s' = Ok p →
  match raiseRange g s' p with
  | None => isValidAction g s' 0 (r_ z) = Ok (0, r_ z) ∧ isValidAction g s' 1 (r_ z) = Ok (0, r_ z)
  | Some (lo, hi) =>
      maxSpent s' < lo ≤ hi ∧ hi = at_ (stack g) p ∧
      isValidAction g s' 0 (r_ z) = Ok (c_bool (bool_decide (lo ≤ z ≤ hi)), r_ z) ∧
      isValidAction g s' 1 (r_ z) = Ok (1, r_ (clamp lo hi z))
  end.
Proof.
  intros Wf Hs St Open EB Hcur. pose proof (steps_inv g h s k s' Wf Hs St) as I.
  destruct (current_exists g s' Wf I Open) as (p' & _ & Hcur' & Hp & _).
  assert (p' = p) as -> by congruence.
  pose proof (raiseIsValid_ok g s' Wf I p Hcur Hp 0 0) as HR.
  pose proof (ck_nolimit _ _ (inv_chips _ _ I) EB) as Hmin.
  assert (Hopen : nz (stateFinished s') = false) by (unfold stateFinished; by rewrite Open).
  unfold isValidAction. rewrite Hopen. cbn [orb type r_]. rewrite bool_decide_false by done.
  rewrite Hcur, !bind_ok.
  destruct (raiseRange g s' p) as [[lo hi]|] eqn:ER;
    [|destruct HR as (lo & hi & HR); rewrite HR, !bind_ok; done].
  assert (Hb : maxSpent s' < lo ≤ hi ∧ hi = at_ (stack g) p).
  { unfold raiseRange in ER. rewrite EB in ER. repeat case_match; simplify_eq; lia. }
  rewrite HR, !bind_ok. cbn [Z.eqb]. rewrite !decide_True by done. cbn [size r_ type].
  split; [lia|]. split; [lia|]. unfold clamp.
  destruct (Z.ltb_spec z lo); [rewrite bool_decide_false by lia; done|].
  destruct (Z.ltb_spec hi z); [rewrite bool_decide_false by lia; done|].
  rewrite bool_decide_true by lia. done.
Qed.

Lemma raise_accepted_iff_witness :
  isValidAction nolimit3p (played nolimit3p [r_ 300]) 1 (r_ 350) = Ok (1, r_ (clamp 500 20000 350)).
Proof.
  assert (R : raiseRange nolimit3p (played nolimit3p [r_ 300]) 0 = Some (500, 20000))
    by (vm_compute; reflexivity).
  pose proof (raise_accepted_iff nolimit3p 7 (started nolimit3p) 1 (played nolimit3p [r_ 300]) 0 350
    nolimit3p_wf) as H.
  rewrite R in H. destruct H as (_ & _ & _ & H).
  - vm_compute. reflexivity.
  - apply (play_steps nolimit3p [r_ 300] (started nolimit3p) 0); [constructor|]. vm_compute. reflexivity.
  - vm_compute. reflexivity.
  - reflexivity.
  - vm_compute. reflexivity.
  - exact H.
Defined.

(** Index of the raise that opened the current bet (0 when there is none). *)
Definition betStart (s : State) : Z :=
  fold_left (λ m i, if isRaise (act s i) then i else m) (seqZ 0 (na s)) 0.

Lemma betStart_spec s m :
  0 ≤ m ≤ na s → (m = 0 ∨ m < na s ∧ type (act s m) = a_raise) →
  (∀ i, m < i < na s → type (act s i) ≠ a_raise) → betStart s = m.
Proof.
  intros Hm Hh Hn. unfold betStart.
  set (step_ := λ m i, if isRaise (act s i) then i else m).
  assert (Hlow : m < na s → fold_left step_ (seqZ 0 (m + 1)) 0 = m).
  { intros. rewrite seqZ_snoc, Z.add_0_l by lia. rewrite fold_left_app. cbn. unfold step_ at 1, isRaise.
    destruct Hh as [->|[_ E]]; [case_bool_decide; done|by rewrite bool_decide_true]. }
  destruct (decide (m = na s)) as [->|Hne].
  { destruct Hh as [->|[? _]]; [done|lia]. }
  replace (na s) with ((m + 1) + (na s - m - 1)) by lia.
  rewrite seqZ_app by lia. rewrite fold_left_app, Hlow by lia.
  assert (∀ i, i ∈ seqZ (0 + (m + 1)) (na s - m - 1) → isRaise (act s i) = false) as Hl.
  { intros i Hi%elem_of_seqZ. apply bool_decide_false, Hn. lia. }
  induction (seqZ (0 + (m + 1)) (na s - m - 1)) as [|x l IH]; cbn; [done|].
  unfold step_ at 2. rewrite Hl by set_solver. apply IH. set_solver.
Qed.

(** The loop-free transition function of the betting engine. *)
Definition transition (g : Game) (s : State) (a : Action) (p : Z) : State * bool :=
  let s1 := applied g s a p in ended g s1 (betStart s1).

(** [doAction] implements the transition function: it records the action, moves
    the actor's chips as [applied] says, and ends the hand when one player is left,
    moves to the next round when every player able to act has acted since the last
    raise, ends it after the last round, and goes to a showdown when at most one
    player can still act. *)
Theorem doAction_refines g h s k s' t a a' :
  wf_game g → starts g h s → steps g k s s' → isValidAction g s' t a = Ok (1, a') →
  ∃ p, currentPlayer g s' = Ok p ∧ doAction g a' s' = Ok (transition g s' a' p).
Proof.
  intros Wf Hs St Ev. pose proof (steps_inv g h s k s' Wf Hs St) as I.
  destruct (accepted_step g s' t a a' Wf I Ev) as (_ & p & Hcur & _ & _ & m & f & M & Ed).
  exists p. split; [done|]. rewrite Ed. unfold transition.
  pose proof (mi_window _ _ _ _ M) as BW.
  rewrite (betStart_spec _ m); [done|apply BW|apply BW|apply BW].
Qed.

Lemma doAction_refines_witness :
  ∃ p, currentPlayer limit2p (played limit2p [r_ 0]) = Ok p ∧
    doAction limit2p c_ (played limit2p [r_ 0]) = Ok (transition limit2p (played limit2p [r_ 0]) c_ p).
Proof.
  apply (doAction_refines limit2p 7 (started limit2p) 1 (played limit2p [r_ 0]) 0 c_ c_ limit2p_wf).
  - vm_compute. reflexivity.
  - apply (play_steps limit2p [r_ 0] (started limit2p) 0); [constructor|]. vm_compute. reflexivity.
  - vm_compute. reflexivity.
Defined.

(** ** Limits of the engine *)

(** Two players whose blinds are their whole stacks. *)
Definition allin_blinds : Game :=
  mkGame [10; 10; 0; 0; 0; 0; 0; 0; 0; 0] [10; 10; 0; 0; 0; 0; 0; 0; 0; 0] [10; 10; 20; 20]
    limitBetting 2 4 [0; 0; 0; 0] [3; 4; 4; 4] 4 13 2 [0; 3; 1; 1].

(** A hand in which the blinds put everybody all-in is left open by [initState]
    although nobody can act: [currentPlayer] answers 255 and testing a fold then
    reads the players' arrays outside their bounds. *)
Theorem allin_blinds_out_of_bounds :
  finished (started allin_blinds) = 0 ∧
  currentPlayer allin_blinds (started allin_blinds) = Ok 255 ∧
  isValidAction allin_blinds (started allin_blinds) 0 f_ = Err OutOfBounds.
Proof. vm_compute. split_and!; reflexivity. Qed.

(** A limit game whose second player has a short stack. *)
Definition short_stack : Game :=
  mkGame [1000; 12; 1000; 0; 0; 0; 0; 0; 0; 0] [10; 5; 10; 0; 0; 0; 0; 0; 0; 0] [10; 10; 20; 20]
    limitBetting 3 4 [0; 0; 0; 0] [3; 4; 4; 4] 4 13 2 [0; 3; 1; 1].

(** What follows the switch of [doAction] keeps the bet. *)
Lemma roundSpent_keeps a s s' : doAction_roundSpent a s = Ok s' → maxSpent s' = maxSpent s ∧ spent s' = spent s.
Proof.
  unfold doAction_roundSpent. destruct (round s =? 0); [intros E; inv_ok; done|]. case_decide; [|intros E; inv_ok; done]. intros E. apply bind_Ok_inv in E as (rs & _ & E). unfold for_ in E.
  change (maxSpent s) with (maxSpent (set_roundSpent rs s)). change (spent s) with (spent (set_roundSpent rs s)). revert E. generalize (set_roundSpent rs s) as s1. generalize (seqZ 0 (round s - 0)).
  intros l. induction l as [|i l IH]; intros s1 E; cbn in E; inv_ok; [done|]. apply IH in E as [-> ->]. done.
Qed.

Lemma doAction_end_keeps g s s' e : doAction_end g s = Ok (s', e) → maxSpent s' = maxSpent s ∧ spent s' = spent s.
Proof. unfold doAction_end. intros E. repeat (first [progress inv_ok | destruct (_ <=? _) | destruct (_ <? _)]); done. Qed.

(** An accepted raise has room. *)
Lemma raise_room g s t z a' : isValidAction g s t (r_ z) = Ok (1, a') → at_ (numActions s) (round s) + numPlayers g ≤ 64.
Proof.
  unfold isValidAction. destruct (_ || _); [done|]. cbn [type r_]. intros E. apply bind_Ok_inv in E as (p & _ & E). apply bind_Ok_inv in E as ([[ok mn] mx] & E1 & E).
  destruct (Z.eqb_spec ok 0) as [->|Hne]; [done|]. unfold raiseIsValid in E1. apply bind_Ok_inv in E1 as (nr & _ & E1). apply bind_Ok_inv in E1 as (mr & _ & E1).
  destruct (mr <=? nr); [inv_ok; done|]. apply bind_Ok_inv in E1 as (n & En & E1). apply rd_inv in En as [_ ->].
  destruct (Z.ltb_spec MAX_NUM_ACTIONS (at_ (numActions s) (round s) + numPlayers g)); [inv_ok; done|done].
Qed.



(** A state object on which a hand with a raise on the flop was played. *)
Definition reused : State :=
  match initState limit2p 8 (played limit2p [r_ 0; c_; r_ 0; f_]) with Ok s => s | Err _ => zero_state end.
Definition reused_played : State :=
  match play limit2p [c_; c_; c_; c_; r_ 0] reused with Ok s => s | Err _ => zero_state end.

(** [initState] does not clear [roundSpent].  A hand with no bet on the flop and a
    bet of 20 on the turn is recorded as such on a cleared [State]; on an object used
    for an earlier hand with a flop bet of 10, the same hand is recorded with 10 on
    the flop and 10 on the turn. *)
Fact stale_round_amounts :
  roundSpent reused_played = [10; 10; 10; 0] ∧
  roundSpent (played limit2p [c_; c_; c_; c_; r_ 0]) = [10; 0; 20; 0].
Proof. vm_compute. split_and!; reflexivity. Qed.
