(* ===== verification/BettingCards.v ===== *)
(** * The betting does not depend on the cards

    The queries, the validity test and [doAction] give the same on a state with other
    cards, so a hand in which cards arrive between the actions is a hand of the betting
    engine. *)

From stdpp Require Import base list list_numbers numbers option sets.
From S2P Require Import Prelude GameDef Betting BettingSpec BettingInv BettingStep BettingKeep BettingInit BettingThm.
Open Scope Z_scope.

Lemma bind_ext {A B} (m : res A) (f k : A → res B) : (∀ a, f a = k a) → (m ≫= f) = (m ≫= k).
Proof. intros H. destruct m; [apply H|done]. Qed.

(** The cards a session writes into a state. *)
Record card_arrays (hc : list (list Z)) (bc : list Z) : Prop := {
  ca_hole : length hc = 10%nat;
  ca_hole2 : ∀ p, (p < 10)%nat → length (hc !!! p) = 3%nat;
  ca_board : length bc = 7%nat }.

Lemma with_cards_state hc bc s : card_arrays hc bc → state_shape s → state_shape (with_cards hc bc s).
Proof. intros [H1 H2 H3] []. by split. Qed.

Section Cards.
Context (hc : list (list Z)) (bc : list Z).

Lemma nextPlayer_cards fuel g s n cnt : nextPlayer_loop fuel g (with_cards hc bc s) n cnt = nextPlayer_loop fuel g s n cnt.
Proof.
  revert n cnt. induction fuel as [|fuel IH]; intros n cnt; [done|]. cbn [nextPlayer_loop].
  apply bind_ext. intros n'. destruct (_ <? _); [done|]. apply bind_ext. intros f. apply bind_ext. intros []; [apply IH|done].
Qed.

Lemma currentPlayer_cards g s : currentPlayer g (with_cards hc bc s) = currentPlayer g s.
Proof.
  unfold currentPlayer, nextPlayer. apply bind_ext. intros x.
  destruct (nz x); apply bind_ext; intros l; apply nextPlayer_cards.
Qed.

Lemma raiseIsValid_cards g s lo hi : raiseIsValid g (with_cards hc bc s) lo hi = raiseIsValid g s lo hi.
Proof.
  unfold raiseIsValid. repeat (apply bind_ext; intros ? || case_match; try done). by rewrite currentPlayer_cards.
Qed.

Lemma isValidAction_cards g s t a : isValidAction g (with_cards hc bc s) t a = isValidAction g s t a.
Proof. unfold isValidAction. by rewrite currentPlayer_cards, raiseIsValid_cards. Qed.

Context (C : card_arrays hc bc).

Lemma in_shape_cards g s : in_shape g s → in_shape g (with_cards hc bc s).
Proof. intros []. split; try done. by apply with_cards_state. Qed.

Lemma inv_cards g s : inv g s → inv g (with_cards hc bc s).
Proof.
  intros [Sh N F H Fo Ch Ro Fi Op]. split; try done; [by apply in_shape_cards|..].
  - by destruct Ch.
  - by destruct Ro.
  - intros Open. destruct (Op Open) as (E & m & f & BW & Hlt). split; [done|]. exists m, f. split; [|done]. by destruct BW.
Qed.

Lemma mid_inv_cards g s m f : mid_inv g s m f → mid_inv g (with_cards hc bc s) m f.
Proof.
  intros []. split; try done; [by apply in_shape_cards|..].
  all: match goal with H : _ |- _ => by destruct H end.
Qed.

(** An accepted action has the same effect, and leaves the cards. *)
Lemma step_cards g s s' t a a' e : wf_game g → inv g s → isValidAction g s t a = Ok (1, a') →
  doAction g a' s = Ok (s', e) → doAction g a' (with_cards hc bc s) = Ok (with_cards hc bc s', e).
Proof.
  intros Wf I Ev Ed. destruct (accepted_step g s t a a' Wf I Ev) as (Open & p & Hcur & Hp & Va & m & f & M & Ed').
  rewrite Ed in Ed'. injection Ed' as Ed'.
  destruct (accepted_step g (with_cards hc bc s) t a a' Wf (inv_cards g s I)) as (_ & p' & Hcur' & _ & _ & m' & f' & M' & ->).
  { by rewrite isValidAction_cards. }
  rewrite currentPlayer_cards, Hcur in Hcur'. injection Hcur' as <-. 
  pose proof (end_ok g _ Wf m' f' M') as E1. pose proof (end_ok g _ Wf m f (mid_inv_cards g _ m f M)) as E2.
  change (applied g (with_cards hc bc s) a' p) with (with_cards hc bc (applied g s a' p)) in *.
  rewrite E1 in E2. injection E2 as ->. f_equal. revert Ed'. generalize (applied g s a' p). intros x Ex.
  transitivity (with_cards hc bc (fst (ended g x m)), snd (ended g x m)); [|by rewrite <-Ex].
  unfold ended. change (nFolded g (with_cards hc bc x)) with (nFolded g x).
  change (roundDone g (with_cards hc bc x) m) with (roundDone g x m).
  change (nActing g (with_cards hc bc x)) with (nActing g x).
  change (round (with_cards hc bc x)) with (round x). repeat case_match; done.
Qed.
End Cards.
