(* ===== verification/Rng.v ===== *)
(** * The random number generator ([Common/acpc/src/rng.c], [include/rng.h])

    The MT19937 generator that shuffles the deck.  [RandomSource] is what the
    rest of the engine relies on: a call returns a 32-bit word and a usable
    state. *)

From stdpp Require Import base list list_numbers numbers option sets.
From S2P Require Import Prelude.
Open Scope Z_scope.

Definition RNG_N : Z := 624.
Definition RNG_M : Z := 397.
Definition MATRIX_A : Z := 0x9908b0df.
Definition UPPER_MASK : Z := 0x80000000.
Definition LOWER_MASK : Z := 0x7fffffff.

Record rng_state_t : Set := mkRng {
  mt : list Z;   (* uint32_t mt[ RNG_N ] *)
  mti : Z
}.

(** The products are computed in [unsigned long], 64 bits wide, and truncated by
    the assignment to a [uint32_t]. *)
Definition init_genrand (st : rng_state_t) (s : Z) : res rng_state_t :=
  m0 ← wr (mt st) 0 (Z.land s 0xffffffff);
  m ← for_ 1 RNG_N m0 (λ i m,
    prev ← rd m (i - 1);
    wr m i (u32 (u64 (u64 (1812433253 * Z.lxor prev (Z.shiftr prev 30)) + i))));
  Ok (mkRng m RNG_N).

(** One iteration of the first mixing loop of [init_by_array]. *)
Definition init_mix1 (init_key : list Z) (key_length : Z) (st : list Z * Z * Z)
    : res (list Z * Z * Z) :=
  let '(m, i, j) := st in
  cur ← rd m i;
  prev ← rd m (i - 1);
  key ← rd init_key j;
  m ← wr m i (u32 (u64 (u64 (Z.lxor cur (u64 (Z.lxor prev (Z.shiftr prev 30) * 1664525))
                              + key) + j)));
  let i := i + 1 in
  let j := j + 1 in
  '(m, i) ← (if RNG_N <=? i then l ← rd m (RNG_N - 1); m ← wr m 0 l; Ok (m, 1) else Ok (m, i));
  let j := if key_length <=? j then 0 else j in
  Ok (m, i, j).

(** One iteration of the second loop. *)
Definition init_mix2 (st : list Z * Z) : res (list Z * Z) :=
  let '(m, i) := st in
  cur ← rd m i;
  prev ← rd m (i - 1);
  m ← wr m i (u32 (u64 (Z.lxor cur (u64 (Z.lxor prev (Z.shiftr prev 30) * 1566083941)) - i)));
  v ← rd m i;
  m ← wr m i (Z.land v 0xffffffff);
  let i := i + 1 in
  if RNG_N <=? i then l ← rd m (RNG_N - 1); m ← wr m 0 l; Ok (m, 1) else Ok (m, i).

Definition init_by_array (st : rng_state_t) (init_key : list Z) (key_length : Z)
    : res rng_state_t :=
  st ← init_genrand st 19650218;
  let k := if key_length <? RNG_N then RNG_N else key_length in
  '(m, i, _) ← for_ 0 k (mt st, 1, 0) (λ _ s, init_mix1 init_key key_length s);
  '(m, _) ← for_ 0 (RNG_N - 1) (m, i) (λ _ s, init_mix2 s);
  first ← rd m 0;
  m ← wr m 0 (Z.lor first 0x80000000);
  Ok (mkRng m (mti st)).

Definition mag01 : list Z := [0; MATRIX_A].

(** One generated word: [upper] gives the top bit, [lower] the rest. *)
Definition twist (upper lower : Z) : Z :=
  Z.lor (Z.land upper UPPER_MASK) (Z.land lower LOWER_MASK).

(** [mt[kk] = mt[src] ^ (y >> 1) ^ mag01[y & 1]] with [y] from [kk] and [nxt]. *)
Definition regen_word (m : list Z) (kk nxt src : Z) : res (list Z) :=
  a ← rd m kk;
  b ← rd m nxt;
  let y := twist a b in
  x ← rd m src;
  g ← rd mag01 (Z.land y 1);
  wr m kk (Z.lxor (Z.lxor x (Z.shiftr y 1)) g).

(** Generating [RNG_N] words at one time. *)
Definition regenerate (m : list Z) : res (list Z) :=
  m ← for_ 0 (RNG_N - RNG_M) m (λ kk m, regen_word m kk (kk + 1) (kk + RNG_M));
  m ← for_ (RNG_N - RNG_M) (RNG_N - 1) m (λ kk m, regen_word m kk (kk + 1) (kk + (RNG_M - RNG_N)));
  regen_word m (RNG_N - 1) 0 (RNG_M - 1).

Definition temper (y : Z) : Z :=
  let y := Z.lxor y (Z.shiftr y 11) in
  let y := Z.lxor y (Z.land (u32 (Z.shiftl y 7)) 0x9d2c5680) in
  let y := Z.lxor y (Z.land (u32 (Z.shiftl y 15)) 0xefc60000) in
  Z.lxor y (Z.shiftr y 18).

Definition genrand_int32 (st : rng_state_t) : res (Z * rng_state_t) :=
  st ← (if mti st =? RNG_N then m ← regenerate (mt st); Ok (mkRng m 0) else Ok st);
  y ← rd (mt st) (mti st);
  Ok (temper y, mkRng (mt st) (mti st + 1)).

(** [genrand_int31] of rng.h. *)
Definition genrand_int31 (st : rng_state_t) : res (Z * rng_state_t) :=
  '(v, st) ← genrand_int32 st; Ok (Z.shiftr v 1, st).

(** ** The interface *)
Class RandomSource (R : Type) := {
  rand32 : R → res (Z * R);
  rand_ok : R → Prop;
  rand32_ok : ∀ r, rand_ok r → ∃ v r', rand32 r = Ok (v, r') ∧ 0 ≤ v < 4294967296 ∧ rand_ok r'
}.

(** ** Words stay words *)
Definition word (z : Z) : Prop := 0 ≤ z < 4294967296.

Lemma word_u32 z : word (u32 z).
Proof. apply u32_range. Qed.
Lemma word_lxor a b : word a → word b → word (Z.lxor a b).
Proof. by apply (below_lxor 32). Qed.
Lemma word_land a b : word a → 0 ≤ b → word (Z.land a b).
Proof. by apply (below_land 32). Qed.
Lemma word_lor a b : word a → word b → word (Z.lor a b).
Proof. by apply (below_lor 32). Qed.
Lemma word_shiftr a n : word a → 0 ≤ n → word (Z.shiftr a n).
Proof. by apply (below_shiftr 32). Qed.

Ltac words :=
  repeat first
    [ apply word_u32 | apply word_lxor | apply word_lor | apply word_shiftr
    | apply word_land | done | lia | (unfold word; lia) ].

Lemma word_temper y : word y → word (temper y).
Proof. intros. unfold temper. words. Qed.

Lemma word_twist a b : word a → word b → word (twist a b).
Proof. intros. unfold twist, UPPER_MASK, LOWER_MASK. words. Qed.

Lemma land_1 y : 0 ≤ Z.land y 1 < 2.
Proof. change 1 with (Z.ones 1) at 1 2. rewrite Z.land_ones by lia. apply Z.mod_pos_bound. lia. Qed.

(** The state of a generator that can be used. *)
Record rng_words (m : list Z) : Prop := {
  rw_len : length m = 624%nat;
  rw_word : ∀ i, 0 ≤ i < 624 → word (at_ m i)
}.
Definition rng_ok (st : rng_state_t) : Prop := rng_words (mt st) ∧ 0 ≤ mti st ≤ 624.

Lemma rng_words_insert m i v :
  rng_words m → 0 ≤ i < 624 → word v → rng_words (<[Z.to_nat i := v]> m).
Proof.
  intros [Hl Hw] Hi Hv. split; [by rewrite length_insert|].
  intros j Hj. rewrite at_insert by lia. case_decide; auto.
Qed.

(** The value [regen_word] stores. *)
Definition regen_value (m : list Z) (kk nxt src : Z) : Z :=
  let y := twist (at_ m kk) (at_ m nxt) in
  Z.lxor (Z.lxor (at_ m src) (Z.shiftr y 1)) (at_ mag01 (Z.land y 1)).

Lemma regen_word_ok m kk nxt src :
  rng_words m → 0 ≤ kk < 624 → 0 ≤ nxt < 624 → 0 ≤ src < 624 →
  regen_word m kk nxt src = Ok (<[Z.to_nat kk := regen_value m kk nxt src]> m) ∧
  word (regen_value m kk nxt src).
Proof.
  intros W Hk Hn Hs. pose proof (rw_len _ W). pose proof (land_1 (twist (at_ m kk) (at_ m nxt))) as H1.
  unfold regen_word, regen_value. split.
  - run. done.
  - apply word_lxor.
    + pose proof (word_twist _ _ (rw_word _ W kk Hk) (rw_word _ W nxt Hn)).
      apply word_lxor; [by apply (rw_word _ W)|]. apply word_shiftr; [done|lia].
    + assert (Z.land (twist (at_ m kk) (at_ m nxt)) 1 = 0 ∨
        Z.land (twist (at_ m kk) (at_ m nxt)) 1 = 1) as [->| ->] by lia; vm_compute; split; (discriminate || done).
Qed.

(** ** Seeding *)

Lemma init_genrand_ok st s :
  length (mt st) = 624%nat → word s →
  ∃ st', init_genrand st s = Ok st' ∧ rng_words (mt st') ∧ mti st' = 624 ∧ at_ (mt st') 0 = s.
Proof.
  intros Hl Hs. unfold init_genrand.
  assert (Z.land s 0xffffffff = s) as ->.
  { change 0xffffffff with (Z.ones 32). rewrite Z.land_ones by lia. by apply Z.mod_small. }
  run.
  destruct (for_inv (λ i m, length m = 624%nat ∧ (∀ j, 0 ≤ j < i → word (at_ m j)) ∧ at_ m 0 = s)
    1 RNG_N (<[Z.to_nat 0:=s]> (mt st)) (λ i m,
      prev ← rd m (i - 1);
      wr m i (u32 (u64 (u64 (1812433253 * Z.lxor prev (Z.shiftr prev 30)) + i)))))
    as (m & E & Lm & Wm & M0).
  - done.
  - rewrite length_insert, at_insert_eq by lia. split; [done|split; [|done]].
    intros j Hj. replace j with 0 by lia. by rewrite at_insert_eq by lia.
  - unfold RNG_N. intros i m Hi (Lm & Wm & M0). run.
    eexists. split; [done|]. rewrite length_insert. split; [done|split].
    + intros j Hj. rewrite at_insert by lia. case_decide; [apply word_u32|apply Wm; lia].
    + rewrite at_insert_ne by lia. done.
  - cbn in E |- *. rewrite E. cbn. eexists. split; [done|]. cbn. split; [by split|]. done.
Qed.

Lemma wrap_ok m i :
  rng_words m → 1 < i ≤ 624 →
  ∃ m' i', (if RNG_N <=? i then l ← rd m (RNG_N - 1); m ← wr m 0 l; Ok (m, 1) else Ok (m, i))
           = Ok (m', i') ∧ rng_words m' ∧ 1 ≤ i' < 624.
Proof.
  intros W Hi. pose proof (rw_len _ W). unfold RNG_N. destruct (Z.leb_spec 624 i).
  - run. eexists _, _. split; [done|]. split; [|lia].
    apply rng_words_insert; [done|lia|]. apply (rw_word _ W). lia.
  - exists m, i. split; [done|]. split; [done|lia].
Qed.

Lemma init_mix1_ok key kl m i j :
  rng_words m → 1 ≤ i < 624 → kl = Z.of_nat (length key) → 0 ≤ j < kl →
  ∃ m' i' j', init_mix1 key kl (m, i, j) = Ok (m', i', j') ∧
    rng_words m' ∧ 1 ≤ i' < 624 ∧ 0 ≤ j' < kl.
Proof.
  intros W Hi Ek Hj. pose proof (rw_len _ W). unfold init_mix1. run.
  match goal with |- context [<[_ := ?v]> m] =>
    assert (rng_words (<[Z.to_nat i := v]> m)) as W' by (apply rng_words_insert; [done|lia|apply word_u32]) end.
  destruct (wrap_ok _ (i + 1) W') as (m' & i' & -> & ? & ?); [lia|]. run.
  eexists _, _, _. split_and!; try done; try lia; destruct (Z.leb_spec kl (j + 1)); lia.
Qed.

Lemma init_mix2_ok m i :
  rng_words m → 1 ≤ i < 624 →
  ∃ m' i', init_mix2 (m, i) = Ok (m', i') ∧ rng_words m' ∧ 1 ≤ i' < 624.
Proof.
  intros W Hi. pose proof (rw_len _ W). unfold init_mix2. run. apply wrap_ok; [|lia].
  apply rng_words_insert; [|lia|].
  - apply rng_words_insert; [done|lia|apply word_u32].
  - apply word_land; [|done]. rewrite at_insert_eq by lia. apply word_u32.
Qed.

Lemma init_by_array_ok st key kl :
  length (mt st) = 624%nat → kl = Z.of_nat (length key) → 1 ≤ kl →
  ∃ st', init_by_array st key kl = Ok st' ∧ rng_words (mt st') ∧ mti st' = 624 ∧
    Z.testbit (at_ (mt st') 0) 31 = true.
Proof.
  intros Hl Ek Hk. unfold init_by_array.
  destruct (init_genrand_ok st 19650218 Hl) as (s1 & -> & W1 & I1 & _); [by vm_compute|]. run.
  set (k := if kl <? RNG_N then RNG_N else kl).
  assert (0 ≤ k) by (unfold k, RNG_N; destruct (kl <? 624); lia).
  destruct (for_inv (λ _ (t : list Z * Z * Z), let '(m, i, j) := t in
      rng_words m ∧ 1 ≤ i < 624 ∧ 0 ≤ j < kl) 0 k (mt s1, 1, 0)
      (λ _ s, init_mix1 key kl s)) as ([[m i] j] & -> & W2 & Hi & Hj); [done|split_and!; done || lia| |].
  { intros _ [[m i] j] _ (W & Hi & Hj).
    destruct (init_mix1_ok key kl m i j) as (m' & i' & j' & E & ?); try done. by exists (m', i', j'). }
  run.
  destruct (for_inv (λ _ (t : list Z * Z), let '(m, i) := t in rng_words m ∧ 1 ≤ i < 624)
      0 (RNG_N - 1) (m, i) (λ _ s, init_mix2 s)) as ([m2 i2] & -> & W3 & Hi2); [done|done| |].
  { intros _ [m' i'] _ (W & Hi').
    destruct (init_mix2_ok m' i') as (m'' & i'' & E & ?); try done. by exists (m'', i''). }
  run. pose proof (rw_len _ W3). run. eexists. split; [done|]. cbn [mt mti]. split; [|split; [done|]].
  - apply (rng_words_insert _ 0); [done|lia|]. apply word_lor; [apply (rw_word _ W3); lia|by vm_compute].
  - rewrite (at_insert_eq m2 0) by lia. rewrite Z.lor_spec. apply orb_true_r.
Qed.

(** ** The MT19937 recurrence

    The reference: an infinite sequence in which each word is computed from the
    words 624, 623 and 227 places before it.  [mt_seq m n] is its [n]-th word when
    [m] holds the first 624; it is computed by sliding a window. *)
Definition mt_next (x0 x1 xm : Z) : Z :=
  let y := twist x0 x1 in
  Z.lxor (Z.lxor xm (Z.shiftr y 1)) (at_ mag01 (Z.land y 1)).

Definition slide (w : list Z) : list Z := tail w ++ [mt_next (at_ w 0) (at_ w 1) (at_ w RNG_M)].

Definition window (m : list Z) (n : Z) : list Z := Nat.iter (Z.to_nat n) slide m.

Definition mt_seq (m : list Z) (n : Z) : Z := at_ (window m n) 0.

Lemma window_S m n : 0 ≤ n → window m (n + 1) = slide (window m n).
Proof. intros. unfold window. by rewrite Z2Nat.inj_add by lia; rewrite Nat.add_1_r. Qed.

Lemma slide_length w : length w = 624%nat → length (slide w) = 624%nat.
Proof. destruct w as [|x w]; [done|]. cbn [slide tail]. unfold slide. cbn [tail length]. rewrite length_app. cbn. lia. Qed.

Lemma window_length m n : length m = 624%nat → 0 ≤ n → length (window m n) = 624%nat.
Proof.
  intros Hm. revert n. apply Z_bound_ind; [done|]. intros n Hn IH.
  rewrite window_S by done. by apply slide_length.
Qed.

Lemma slide_at w i : length w = 624%nat → 0 ≤ i < 623 → at_ (slide w) i = at_ w (i + 1).
Proof.
  intros Hw Hi. unfold slide, at_. destruct w as [|x w]; [done|]. cbn [tail length] in *.
  rewrite lookup_total_app_l by lia. by rewrite Z2Nat.inj_add, Nat.add_1_r by lia.
Qed.

Lemma slide_last w : length w = 624%nat → at_ (slide w) 623 = mt_next (at_ w 0) (at_ w 1) (at_ w 397).
Proof.
  intros Hw. unfold slide, at_ at 1. destruct w as [|x w]; [done|]. cbn [tail length] in *.
  rewrite lookup_total_app_r by lia. replace (Z.to_nat 623 - length w)%nat with 0%nat by lia. done.
Qed.

Lemma window_at m n i :
  length m = 624%nat → 0 ≤ n → 0 ≤ i < 624 → at_ (window m n) i = mt_seq m (n + i).
Proof.
  intros Hm Hn [Hi Hb]. revert i Hi n Hn Hb.
  apply (Z_bound_ind (λ i, ∀ n, 0 ≤ n → i < 624 → at_ (window m n) i = mt_seq m (n + i))).
  { intros. by rewrite Z.add_0_r. }
  intros i Hi IH n Hn Hb. replace (n + (i + 1)) with ((n + 1) + i) by lia.
  rewrite <-IH by lia. rewrite window_S by lia.
  rewrite slide_at; [done|by apply window_length|lia].
Qed.

Lemma mt_seq_start m i : length m = 624%nat → 0 ≤ i < 624 → mt_seq m i = at_ m i.
Proof. intros. change i with (0 + i) at 1. by rewrite <-(window_at m 0 i) by (done || lia). Qed.

Lemma mt_seq_rec m n :
  length m = 624%nat → 0 ≤ n →
  mt_seq m (n + 624) = mt_next (mt_seq m n) (mt_seq m (n + 1)) (mt_seq m (n + 397)).
Proof.
  intros Hm Hn. replace (n + 624) with ((n + 1) + 623) by lia.
  rewrite <-(window_at m (n + 1) 623), window_S by (done || lia).
  rewrite slide_last by (by apply window_length).
  rewrite !window_at by (done || lia). by rewrite Z.add_0_r.
Qed.

(** A block [a] holding words [b], [b+1], … of the sequence, of which the first
    [k] have been replaced by their successors 624 places later. *)
Definition block (m : list Z) (b k : Z) (a : list Z) : Prop :=
  rng_words a ∧ ∀ i, 0 ≤ i < 624 → at_ a i = mt_seq m (b + i + (if i <? k then 624 else 0)).

Lemma regen_step m b k nxt src a :
  length m = 624%nat → 0 ≤ b → 0 ≤ k < 624 → 0 ≤ nxt < 624 → 0 ≤ src < 624 →
  nxt + (if nxt <? k then 624 else 0) = k + 1 →
  src + (if src <? k then 624 else 0) = k + 397 →
  block m b k a → ∃ a', regen_word a k nxt src = Ok a' ∧ block m b (k + 1) a'.
Proof.
  intros Hm Hb Hk Hn Hs En Es [W B].
  destruct (regen_word_ok a k nxt src W) as [E Wv]; [done..|].
  eexists. split; [exact E|]. split; [by apply rng_words_insert|].
  intros i Hi. rewrite at_insert by (pose proof (rw_len _ W); lia).
  pose proof (B k Hk) as Bk. rewrite Z.ltb_irrefl in Bk.
  case_decide as Hik; [subst i|].
  - rewrite (proj2 (Z.ltb_lt _ _)) by lia. rewrite mt_seq_rec by (done || lia).
    unfold regen_value, mt_next. rewrite Bk, (B nxt Hn), (B src Hs).
    replace (b + k + 0) with (b + k) by lia.
    replace (b + nxt + _) with (b + k + 1) by lia.
    replace (b + src + _) with (b + k + 397) by lia. done.
  - rewrite B by done. do 2 f_equal. destruct (Z.ltb_spec i k), (Z.ltb_spec i (k + 1)); lia.
Qed.

Lemma regenerate_ok m b a :
  length m = 624%nat → 0 ≤ b → block m b 0 a →
  ∃ a', regenerate a = Ok a' ∧ block m (b + 624) 0 a'.
Proof.
  intros Hm Hb B. unfold regenerate.
  destruct (for_inv (λ k a, block m b k a) 0 (RNG_N - RNG_M) a
    (λ kk m, regen_word m kk (kk + 1) (kk + RNG_M))) as (a1 & -> & B1); [done|done| |].
  { unfold RNG_N, RNG_M. intros k a' Hk B'. apply (regen_step m b); try done; try lia;
      destruct (Z.ltb_spec (k + 1) k), (Z.ltb_spec (k + 397) k); lia. }
  run. 
  destruct (for_inv (λ k a, block m b k a) (RNG_N - RNG_M) (RNG_N - 1) a1
    (λ kk m, regen_word m kk (kk + 1) (kk + (RNG_M - RNG_N)))) as (a2 & -> & B2); [done|done| |].
  { unfold RNG_N, RNG_M. intros k a' Hk B'. apply (regen_step m b); try done; try lia;
      destruct (Z.ltb_spec (k + 1) k), (Z.ltb_spec (k + (397 - 624)) k); lia. }
  run. destruct (regen_step m b 623 0 396 a2) as (a3 & E & W3 & B3); try done.
  exists a3. split; [exact E|]. split; [done|]. intros i Hi. rewrite B3 by done.
  f_equal. destruct (Z.ltb_spec i (623 + 1)), (Z.ltb_spec i 0); lia.
Qed.

(** The generator is at place [n] of the sequence that starts with [m]. *)
Definition at_place (m : list Z) (n : Z) (st : rng_state_t) : Prop :=
  0 ≤ mti st ≤ 624 ∧ mti st ≤ n ∧ block m (n - mti st) 0 (mt st).

Lemma genrand_place m n st :
  length m = 624%nat → at_place m n st →
  ∃ st', genrand_int32 st = Ok (temper (mt_seq m n), st') ∧ at_place m (n + 1) st' ∧
    word (temper (mt_seq m n)).
Proof.
  intros Hm (Hi & Hn & B). unfold genrand_int32.
  assert (∃ s1, (if mti st =? RNG_N then m ← regenerate (mt st); Ok (mkRng m 0) else Ok st) = Ok s1
    ∧ 0 ≤ mti s1 < 624 ∧ mti s1 ≤ n ∧ block m (n - mti s1) 0 (mt s1)) as (s1 & -> & Hi1 & Hn1 & W & B1).
  { unfold RNG_N. destruct (Z.eqb_spec (mti st) 624) as [E|E].
    - destruct (regenerate_ok m (n - mti st) (mt st)) as (a & -> & B'); [done|lia|done|].
      run. eexists. split; [done|]. cbn. split; [lia|]. split; [lia|].
      by replace (n - 0) with (n - mti st + 624) by lia.
    - exists st. split; [done|]. split; [lia|]. done. }
  run. pose proof (rw_len _ W). run. pose proof (B1 (mti s1) ltac:(lia)) as Bn.
  destruct (Z.ltb_spec (mti s1) 0); [lia|]. replace (n - mti s1 + mti s1 + 0) with n in Bn by lia.
  rewrite Bn. eexists. split; [done|]. split.
  - split; cbn; [lia|]. split; [lia|]. replace (n + 1 - (mti s1 + 1)) with (n - mti s1) by lia. done.
  - apply word_temper. rewrite <-Bn. apply (rw_word _ W). lia.
Qed.

Lemma place_start st : rng_words (mt st) → mti st = 624 → at_place (mt st) 624 st.
Proof.
  intros W E. unfold at_place. rewrite E. split; [lia|]. split; [lia|]. split; [done|].
  intros i Hi. destruct (Z.ltb_spec i 0); [lia|].
  rewrite mt_seq_start; [f_equal; lia|apply (rw_len _ W)|lia].
Qed.

Lemma genrand_ok st : rng_ok st →
  ∃ v st', genrand_int32 st = Ok (v, st') ∧ word v ∧ rng_ok st'.
Proof.
  intros [W I]. destruct (genrand_place (mt st) (mti st) st (rw_len _ W)) as (st' & E & P & Hv).
  - split; [done|]. split; [lia|]. split; [done|]. intros i Hi. destruct (Z.ltb_spec i 0); [lia|].
    rewrite mt_seq_start; [f_equal; lia|apply (rw_len _ W)|lia].
  - exists (temper (mt_seq (mt st) (mti st))), st'. split; [done|]. split; [done|].
    destruct P as (? & ? & [? ?]). by split.
Qed.

#[export] Instance mt19937 : RandomSource rng_state_t :=
  {| rand32 := genrand_int32; rand_ok := rng_ok; rand32_ok := genrand_ok |}.

(** [k] calls in a row. *)
Fixpoint draws (k : nat) (st : rng_state_t) : res (list Z * rng_state_t) :=
  match k with
  | O => Ok ([], st)
  | S k => '(v, st) ← genrand_int32 st; '(vs, st) ← draws k st; Ok (v :: vs, st)
  end.

Lemma draws_place m k n st :
  length m = 624%nat → at_place m n st →
  ∃ st', draws k st = Ok ((λ i, temper (mt_seq m i)) <$> seqZ n (Z.of_nat k), st') ∧
    at_place m (n + Z.of_nat k) st'.
Proof.
  intros Hm. revert n st. induction k as [|k IH]; intros n st P.
  - exists st. split; [done|]. by rewrite Z.add_0_r.
  - destruct (genrand_place m n st Hm P) as (s1 & E1 & P1 & _).
    destruct (IH (n + 1) s1 P1) as (s2 & E2 & P2).
    exists s2. cbn [draws]. rewrite E1. run. rewrite E2. run. split.
    + rewrite (seqZ_cons n) by lia. cbn. rewrite <-Z.add_1_r.
      by replace (Z.pred (Z.of_nat (S k))) with (Z.of_nat k) by lia.
    + by replace (n + Z.of_nat (S k)) with (n + 1 + Z.of_nat k) by lia.
Qed.

(** An uninitialised generator. *)
Definition raw : rng_state_t := mkRng (replicate 624 0) 0.

(** C13: Seeding from an integer or from a key never faults, and however many words
    are then drawn, block by block with in-place regeneration of the 624-word
    array, they are the tempered words 624, 625, … of the MT19937 linear
    recurrence that starts with the seeded array. *)
Theorem draws_follow_recurrence st s key k :
  length (mt st) = 624%nat → word s → key ≠ [] →
  (∃ st0 st', init_genrand st s = Ok st0 ∧
     draws k st0 = Ok ((λ i, temper (mt_seq (mt st0) i)) <$> seqZ 624 (Z.of_nat k), st')) ∧
  (∃ st0 st', init_by_array st key (Z.of_nat (length key)) = Ok st0 ∧
     draws k st0 = Ok ((λ i, temper (mt_seq (mt st0) i)) <$> seqZ 624 (Z.of_nat k), st')).
Proof.
  intros Hl Hs Hk. split.
  - destruct (init_genrand_ok st s Hl Hs) as (s0 & E & W & I & _).
    destruct (draws_place (mt s0) k 624 s0 (rw_len _ W) (place_start _ W I)) as (s' & E' & _). eauto.
  - destruct (init_by_array_ok st key _ Hl eq_refl) as (s0 & E & W & I & _).
    { destruct key; [done|cbn; lia]. }
    destruct (draws_place (mt s0) k 624 s0 (rw_len _ W) (place_start _ W I)) as (s' & E' & _). eauto.
Qed.

Lemma draws_follow_recurrence_witness :
  ∃ st0 st', init_by_array raw [0x123] 1 = Ok st0 ∧
    draws 3 st0 = Ok ((λ i, temper (mt_seq (mt st0) i)) <$> seqZ 624 3, st').
Proof.
  exact (proj2 (draws_follow_recurrence raw 5489 [0x123] 3 eq_refl
    ltac:(by vm_compute) ltac:(discriminate))).
Defined.

(** The generator gives the outputs published with MT19937: the first ten and
    the thousandth word for the reference key, and the first word for the default
    seed 5489. *)
Fact genrand_published_outputs :
  (st ← init_by_array raw [0x123; 0x234; 0x345; 0x456] 4;
   '(vs, _) ← draws 1000 st; Ok (take 10 vs, at_ vs 999))
    = Ok ([1067595299; 955945823; 477289528; 4107218783; 4228976476;
           3344332714; 3355579695; 227628506; 810200273; 2591290167], 3460025646) ∧
  (st ← init_genrand raw 5489; '(v, _) ← genrand_int32 st; Ok v) = Ok 3499211612.
Proof. split; vm_compute; reflexivity. Qed.
