(* ===== verification/Deal.v ===== *)
(** * Dealing ([dealCard], [dealCards] of [Common/acpc/src/game.c])

    The deck array, the swap-with-last draw, and the order in which the hole and
    board cards are dealt.  The generator is any [RandomSource]. *)

From Stdlib Require Import Permutation.
From stdpp Require Import base list list_numbers numbers option sets.
From S2P Require Import Prelude GameDef Rng.
Open Scope Z_scope.

Section Deal.
Context {R : Type} `{RS : RandomSource R}.

(** [i = genrand_int32( rng ) % numCards]: the remainder is taken in [uint32_t] and
  stored in an [int]. *)
Definition dealCard (rng : R) (deck : list Z) (numCards : Z) : res (Z * (R * list Z)) :=
'(v, rng) ← rand32 rng;
m ← c_rem v (u32 numCards);
let i := if m <=? INT32_MAX then m else m - 4294967296 in
ret ← rd deck i;
l ← rd deck (numCards - 1);
deck ← wr deck i l;
Ok (ret, (rng, deck)).

(** The two loops that fill the deck. *)
Definition dealCards_deck (game : Game) (deck : list Z) : res (list Z * Z) :=
for_ (MAX_SUITS - numSuits game) MAX_SUITS (deck, 0) (λ s st,
  for_ (MAX_RANKS - numRanks game) MAX_RANKS st (λ r '(deck, numCards),
    deck ← wr deck numCards (u8 (makeCard r s));
    Ok (deck, numCards + 1))).

Definition dealCards_hole (game : Game) (st : R * list Z * Z * State) : res (R * list Z * Z * State) :=
for_ 0 (numPlayers game) st (λ p st,
  for_ 0 (numHoleCards game) st (λ i '(rng, deck, numCards, state),
    '(c, (rng, deck)) ← dealCard rng deck numCards;
    row ← rd (holeCards state) p;
    row ← wr row i c;
    h ← wr (holeCards state) p row;
    Ok (rng, deck, numCards - 1, set_holeCards h state))).

Definition dealCards_board (game : Game) (st : R * list Z * Z * State * Z)
  : res (R * list Z * Z * State * Z) :=
for_ 0 (numRounds game) st (λ r st,
  nb ← rd (numBoardCards game) r;
  for_ 0 nb st (λ _ '(rng, deck, numCards, state, s),
    '(c, (rng, deck)) ← dealCard rng deck numCards;
    b ← wr (boardCards state) s c;
    Ok (rng, deck, numCards - 1, set_boardCards b state, s + 1))).

(** [deck0] is the uninitialised local array [deck[ MAX_RANKS * MAX_SUITS ]]. *)
Definition dealCards (deck0 : list Z) (game : Game) (rng : R) (state : State) : res (R * State) :=
'(deck, numCards) ← dealCards_deck game deck0;
'(rng, deck, numCards, state) ← dealCards_hole game (rng, deck, numCards, state);
'(rng, _, _, state, _) ← dealCards_board game (rng, deck, numCards, state, 0);
Ok (rng, state).

(** [vs] are the words drawn between two states of the generator. *)
Inductive drawn (r : R) : list Z → R → Prop :=
| drawn_nil : drawn r [] r
| drawn_snoc vs r1 v r2 : drawn r vs r1 → rand32 r1 = Ok (v, r2) → drawn r (vs ++ [v]) r2.

End Deal.

(** ** The specification: drawing without replacement *)

(** The cards of the game, in the order the code enumerates them. *)
Definition suit_cards (g : Game) (s : Z) : list Z :=
  (λ r, makeCard r s) <$> seqZ (13 - numRanks g) (numRanks g).
Definition fullDeck (g : Game) : list Z :=
  concat (suit_cards g <$> seqZ (4 - numSuits g) (numSuits g)).

(** Removing place [i] by moving the last card there. *)
Definition swap_remove (live : list Z) (i : Z) : list Z :=
  take (length live - 1) (<[Z.to_nat i := at_ live (Z.of_nat (length live) - 1)]> live).

Definition choice (live : list Z) (v : Z) : Z := v mod Z.of_nat (length live).

(** The cards drawn by the words [vs], and the cards left. *)
Fixpoint deal_from (vs : list Z) (live : list Z) : list Z :=
  match vs with
  | [] => []
  | v :: vs => at_ live (choice live v) :: deal_from vs (swap_remove live (choice live v))
  end.
Fixpoint left_after (vs : list Z) (live : list Z) : list Z :=
  match vs with
  | [] => live
  | v :: vs => left_after vs (swap_remove live (choice live v))
  end.

Lemma deal_from_snoc vs v live :
  deal_from (vs ++ [v]) live =
  deal_from vs live ++ [at_ (left_after vs live) (choice (left_after vs live) v)].
Proof. revert live. induction vs as [|w vs IH]; intros live; cbn; [done|]. by rewrite IH. Qed.

Lemma left_after_snoc vs v live :
  left_after (vs ++ [v]) live =
  swap_remove (left_after vs live) (choice (left_after vs live) v).
Proof. revert live. induction vs as [|w vs IH]; intros live; cbn; [done|]. by rewrite IH. Qed.

Lemma length_deal_from vs live : length (deal_from vs live) = length vs.
Proof. revert live. induction vs; intros; cbn; auto. Qed.

Lemma length_swap_remove live i : length (swap_remove live i) = (length live - 1)%nat.
Proof. unfold swap_remove. rewrite length_take, length_insert. lia. Qed.

Lemma choice_range live v : live ≠ [] → 0 ≤ choice live v < Z.of_nat (length live).
Proof. intros H. apply Z.mod_pos_bound. destruct live; [done|cbn; lia]. Qed.

Lemma swap_remove_perm live i :
  0 ≤ i < Z.of_nat (length live) → at_ live i :: swap_remove live i ≡ₚ live.
Proof.
  intros Hi. destruct live as [|x live _] using rev_ind; [cbn in Hi; lia|].
  rewrite length_app in Hi. cbn in Hi. unfold swap_remove.
  rewrite length_app. cbn [length]. replace (length live + 1 - 1)%nat with (length live) by lia.
  assert (at_ (live ++ [x]) (Z.of_nat (length live + 1) - 1) = x) as ->.
  { unfold at_. rewrite lookup_total_app_r by lia.
    by replace (Z.to_nat (Z.of_nat (length live + 1) - 1) - length live)%nat with 0%nat by lia. }
  destruct (decide (i = Z.of_nat (length live))) as [->|Hne].
  - unfold at_. rewrite Nat2Z.id, lookup_total_app_r, Nat.sub_diag by lia. cbn.
    rewrite insert_app_r_alt, Nat.sub_diag by lia. cbn. rewrite take_app_length.
    apply Permutation_cons_append.
  - rewrite insert_app_l by lia. rewrite take_app_le by (rewrite length_insert; lia).
    rewrite take_ge by (rewrite length_insert; lia).
    unfold at_. rewrite lookup_total_app_l by lia.
    destruct (lookup_lt_is_Some_2 live (Z.to_nat i)) as [y Hy]; [lia|].
    rewrite (list_lookup_total_correct _ _ _ Hy).
    rewrite <-(take_drop_middle _ _ _ Hy) at 2.
    rewrite insert_take_drop by lia.
    rewrite <-!Permutation_middle, app_nil_r. apply Permutation_swap.
Qed.

Lemma deal_from_perm vs live :
  (length vs ≤ length live)%nat → deal_from vs live ++ left_after vs live ≡ₚ live.
Proof.
  revert live. induction vs as [|v vs IH]; intros live Hl; [done|]. cbn in Hl |- *.
  rewrite IH by (rewrite length_swap_remove; lia). apply swap_remove_perm, choice_range.
  by destruct live; [cbn in Hl; lia|].
Qed.

Lemma length_left_after vs live : length (left_after vs live) = (length live - length vs)%nat.
Proof.
  revert live. induction vs as [|v vs IH]; intros live; cbn; [lia|].
  rewrite IH, length_swap_remove. lia.
Qed.

(** ** The deck *)

Lemma length_suit_cards g s : 0 ≤ numRanks g → length (suit_cards g s) = Z.to_nat (numRanks g).
Proof. intros. unfold suit_cards. by rewrite length_fmap, length_seqZ. Qed.

Lemma fullDeck_snoc (g : Game) k :
  0 ≤ k →
  concat (suit_cards g <$> seqZ (4 - numSuits g) (k + 1)) =
  concat (suit_cards g <$> seqZ (4 - numSuits g) k) ++ suit_cards g (4 - numSuits g + k).
Proof. intros. rewrite seqZ_snoc, fmap_app, concat_app by done. cbn. by rewrite app_nil_r. Qed.

(** A deck array whose first [n] places hold [live]. *)
Definition holds (deck : list Z) (n : Z) (live : list Z) : Prop :=
  length deck = 52%nat ∧ n = Z.of_nat (length live) ∧ take (length live) deck = live.

Lemma holds_at deck n live i : holds deck n live → 0 ≤ i < n → at_ deck i = at_ live i.
Proof.
  intros (? & -> & E) Hi. rewrite <-E. unfold at_. rewrite !list_lookup_total_alt.
  rewrite lookup_take_lt by lia. done.
Qed.

Lemma holds_length deck n live : holds deck n live → (length live ≤ 52)%nat.
Proof. intros (L & -> & E). rewrite <-E, length_take. lia. Qed.

Lemma holds_push deck n live c :
  holds deck n live → n < 52 → holds (<[Z.to_nat n := c]> deck) (n + 1) (live ++ [c]).
Proof.
  intros (L & -> & E) Hn. split; [by rewrite length_insert|]. rewrite length_app. cbn. split; [lia|].
  rewrite Nat2Z.id, Nat.add_1_r.
  rewrite (take_S_r _ _ c) by (apply list_lookup_insert_eq; lia).
  by rewrite take_insert_ge, E by lia.
Qed.

Record wf_cards (g : Game) : Prop := {
  wc_suits : 1 ≤ numSuits g ≤ 4;
  wc_ranks : 1 ≤ numRanks g ≤ 13
}.

Lemma fullDeck_prefix_length g k :
  wf_cards g → 0 ≤ k →
  Z.of_nat (length (concat (suit_cards g <$> seqZ (4 - numSuits g) k))) = k * numRanks g.
Proof.
  intros [? ?]. revert k. apply Z_bound_ind; [done|]. intros k Hk IH.
  rewrite fullDeck_snoc, length_app, length_suit_cards by lia. lia.
Qed.

Lemma fullDeck_length g : wf_cards g → Z.of_nat (length (fullDeck g)) = numSuits g * numRanks g.
Proof. intros W. apply fullDeck_prefix_length; [done|destruct W; lia]. Qed.

Lemma fill_suit_ok g pre s deck n :
  wf_cards g → 0 ≤ s < 4 → Z.of_nat (length pre) + numRanks g ≤ 52 → holds deck n pre →
  ∃ deck' n', for_ (13 - numRanks g) 13 (deck, n) (λ r '(deck, numCards),
      deck ← wr deck numCards (u8 (makeCard r s)); Ok (deck, numCards + 1)) = Ok (deck', n') ∧
    holds deck' n' (pre ++ suit_cards g s).
Proof.
  intros [Hs Hr] Hsu Hlen Hd.
  destruct (for_inv (λ r '(deck, n), holds deck n (pre ++ ((λ r, makeCard r s) <$> seqZ (13 - numRanks g) (r - (13 - numRanks g)))))
    (13 - numRanks g) 13 (deck, n) (λ r '(deck, numCards),
      deck ← wr deck numCards (u8 (makeCard r s)); Ok (deck, numCards + 1))) as ([d' n'] & E & H).
  - lia.
  - rewrite Z.sub_diag. cbn. by rewrite app_nil_r.
  - intros r [d m] Hr' Hm.
    assert (0 ≤ m < 52).
    { destruct Hm as (_ & -> & _). rewrite length_app, length_fmap, length_seqZ. lia. }
    rewrite wr_ok by (destruct Hm as (-> & _); lia). run. eexists. split; [done|].
    replace (r + 1 - (13 - numRanks g)) with (r - (13 - numRanks g) + 1) by lia.
    rewrite seqZ_snoc, fmap_app, app_assoc by lia. cbn.
    replace (13 - numRanks g + (r - (13 - numRanks g))) with r by lia.
    rewrite u8_small by (unfold makeCard, MAX_SUITS; lia).
    apply holds_push; [done|lia].
  - exists d', n'. split; [done|]. unfold suit_cards.
    by replace (13 - (13 - numRanks g)) with (numRanks g) in H by lia.
Qed.

Lemma dealCards_deck_ok g deck0 :
  wf_cards g → length deck0 = 52%nat →
  ∃ deck, dealCards_deck g deck0 = Ok (deck, numSuits g * numRanks g) ∧
    holds deck (numSuits g * numRanks g) (fullDeck g).
Proof.
  intros W L. pose proof W as [Hs Hr].
  destruct (for_inv (λ s '(deck, n), holds deck n (concat (suit_cards g <$> seqZ (4 - numSuits g) (s - (4 - numSuits g)))))
    (MAX_SUITS - numSuits g) MAX_SUITS (deck0, 0) (λ s st,
    for_ (MAX_RANKS - numRanks g) MAX_RANKS st (λ r '(deck, numCards),
      deck ← wr deck numCards (u8 (makeCard r s));
      Ok (deck, numCards + 1)))) as ([deck n] & E & H); unfold MAX_SUITS, MAX_RANKS in *.
  - lia.
  - by rewrite Z.sub_diag.
  - intros s [deck n] Hi Hd. set (pre := concat _) in Hd.
    destruct (fill_suit_ok g pre s deck n) as (d' & n' & E & H); [done|lia| |done|].
    { unfold pre. rewrite fullDeck_prefix_length by (done || lia). nia. }
    exists (d', n'). split; [done|].
    replace (s + 1 - (4 - numSuits g)) with (s - (4 - numSuits g) + 1) by lia.
    rewrite fullDeck_snoc by lia. by replace (4 - numSuits g + (s - (4 - numSuits g))) with s by lia.
  - replace (4 - (4 - numSuits g)) with (numSuits g) in H by lia. fold (fullDeck g) in H.
    assert (n = numSuits g * numRanks g) as ->.
    { destruct H as (_ & -> & _). by apply fullDeck_length. }
    exists deck. by split.
Qed.

(** ** Drawing a card *)
Section Draw.
Context {R : Type} `{RS : RandomSource R}.

(** After the words [vs], the generator is in state [r] and the first [n] places
  of the array hold the cards left of [full]. *)
Record dealing (r0 : R) (full vs : list Z) (r : R) (deck : list Z) (n : Z) : Prop := {
dl_drawn : drawn r0 vs r;
dl_ok : rand_ok r;
dl_holds : holds deck n (left_after vs full)
}.

Lemma holds_remove deck n live i :
holds deck n live → 0 ≤ i < n →
holds (<[Z.to_nat i := at_ deck (n - 1)]> deck) (n - 1) (swap_remove live i).
Proof.
intros Hh Hi. rewrite (holds_at _ _ _ _ Hh) by lia. destruct Hh as (L & -> & E).
split; [by rewrite length_insert|]. rewrite length_swap_remove. split; [lia|].
unfold swap_remove. set (x := at_ live _).
transitivity (take (length live - 1) (take (length live) (<[Z.to_nat i := x]> deck))).
- rewrite take_take. f_equal. lia.
- by rewrite take_insert_lt, E by lia.
Qed.

Lemma dealCard_ok r0 full vs r deck n :
dealing r0 full vs r deck n → 0 < n →
∃ v r' deck', dealCard r deck n =
    Ok (at_ (left_after vs full) (choice (left_after vs full) v), (r', deck')) ∧
  dealing r0 full (vs ++ [v]) r' deck' (n - 1).
Proof.
intros [Hd Hok Hh] Hn. set (live := left_after vs full) in *.
destruct (rand32_ok r Hok) as (v & r' & Ev & Hv & Hok').
pose proof (holds_length _ _ _ Hh) as H52. pose proof Hh as (L & En & _).
assert (0 ≤ choice live v < n) as Hc by (rewrite En; apply choice_range; destruct live; [cbn in *; lia|done]).
exists v, r'. unfold dealCard. rewrite Ev. run.
unfold c_rem. rewrite u32_small by lia. destruct (Z.eqb_spec n 0); [lia|]. run.
rewrite Z.rem_mod_nonneg by lia.
replace (v mod n) with (choice live v) by (unfold choice; by rewrite En).
rewrite (proj2 (Z.leb_le _ _)) by (unfold INT32_MAX; lia).
run. eexists. rewrite (holds_at _ _ _ _ Hh Hc). split; [done|]. split.
- by econstructor.
- done.
- rewrite left_after_snoc. by apply holds_remove.
Qed.

(** ** The hole cards *)

(** Seat [p] of the deal that gave [D] has the cards [D[p*nh]], [D[p*nh+1]], …; the
  places not yet dealt keep their old contents. *)
Definition hole_slots (nh : Z) (h0 h : list (list Z)) (D : list Z) : Prop :=
length h = 10%nat ∧ (∀ p, 0 ≤ p < 10 → length (at_ h p) = 3%nat) ∧
∀ p i, 0 ≤ p < 10 → 0 ≤ i < 3 →
  at_ (at_ h p) i =
    if (i <? nh) && (p * nh + i <? Z.of_nat (length D)) then at_ D (p * nh + i)
    else at_ (at_ h0 p) i.

Lemma hole_slots_step nh h0 h D c p i :
hole_slots nh h0 h D → 0 ≤ p < 10 → 0 ≤ i < nh → nh ≤ 3 → Z.of_nat (length D) = p * nh + i →
hole_slots nh h0 (<[Z.to_nat p := <[Z.to_nat i := c]> (at_ h p)]> h) (D ++ [c]).
Proof.
intros (L & L3 & Hs) Hp Hi Hn HD. split; [by rewrite length_insert|]. split.
{ intros q Hq. rewrite at_insert by lia. case_decide; subst; [rewrite length_insert|]; auto. }
intros q j Hq Hj. rewrite length_app. cbn [length].
assert (at_ (at_ (<[Z.to_nat p:=<[Z.to_nat i:=c]> (at_ h p)]> h) q) j =
  if decide (p = q ∧ i = j) then c else at_ (at_ h q) j) as ->.
{ rewrite at_insert by lia. destruct (decide (p = q)) as [<-|]; [|case_decide; [lia|done]].
  rewrite at_insert by (rewrite ?L3 by lia; lia). by repeat case_decide; try lia. }
case_decide as E; [destruct E as [<- <-]|].
- rewrite (proj2 (Z.ltb_lt i nh)), (proj2 (Z.ltb_lt _ _)) by lia. cbn [andb].
  unfold at_. rewrite lookup_total_app_r by lia.
  by replace (Z.to_nat (p * nh + i) - length D)%nat with 0%nat by lia.
- rewrite Hs by lia. destruct (Z.ltb_spec j nh); [|done]. cbn [andb].
  assert (0 ≤ q * nh) by nia.
  assert (q * nh + j ≠ p * nh + i) by (intros ?; assert (q = p) by nia; nia).
  destruct (Z.ltb_spec (q * nh + j) (Z.of_nat (length D))),
    (Z.ltb_spec (q * nh + j) (Z.of_nat (length D + 1))); try lia.
  unfold at_. by rewrite lookup_total_app_l by lia.
Qed.

(** The state of the hole-card loops after [k] cards. *)
Definition hole_inv (g : Game) (r0 : R) (full : list Z) (s0 : State) (k : Z)
  (st : R * list Z * Z * State) : Prop :=
let '(r, deck, n, s) := st in
∃ vs h, Z.of_nat (length vs) = k ∧ dealing r0 full vs r deck n ∧
  s = set_holeCards h s0 ∧ hole_slots (numHoleCards g) (holeCards s0) h (deal_from vs full).

Lemma dealing_left r0 full vs r deck n :
dealing r0 full vs r deck n → n = Z.of_nat (length full - length vs).
Proof. intros [_ _ (_ & -> & _)]. by rewrite length_left_after. Qed.

Lemma dealCards_hole_ok g r0 full s0 deck n :
0 ≤ numPlayers g ≤ 10 → 0 ≤ numHoleCards g ≤ 3 → state_shape s0 →
numPlayers g * numHoleCards g ≤ Z.of_nat (length full) →
dealing r0 full [] r0 deck n →
∃ st, dealCards_hole g (r0, deck, n, s0) = Ok st ∧
  hole_inv g r0 full s0 (numPlayers g * numHoleCards g) st.
Proof.
intros Hp Hh Sh Hf Hd. unfold dealCards_hole.
apply (for_inv (λ p st, hole_inv g r0 full s0 (p * numHoleCards g) st)); [lia| |].
{ exists [], (holeCards s0). split; [done|]. split; [done|]. split; [by destruct s0|].
  split; [apply Sh|]. split; [intros; apply Sh; lia|]. intros p i Hp' Hi.
  destruct (Z.ltb_spec (p * numHoleCards g + i) (Z.of_nat (length (deal_from [] full)))) as [H|]; [|by rewrite andb_false_r].
  cbn in H. nia. }
intros p st Hpp Hinv.
replace ((p + 1) * numHoleCards g) with (p * numHoleCards g + numHoleCards g) by lia.
apply (for_inv (λ i st, hole_inv g r0 full s0 (p * numHoleCards g + i) st)); [lia|by rewrite Z.add_0_r|].
intros i [[[r d] m] s] Hi (vs & h & Hk & Hdl & -> & Hs).
pose proof (dealing_left _ _ _ _ _ _ Hdl).
destruct (dealCard_ok _ _ _ _ _ _ Hdl) as (v & r' & d' & -> & Hdl'); [nia|]. run.
pose proof Hs as (L & L3 & _). pose proof (L3 p ltac:(lia)). cbn [holeCards set_holeCards]. run.
eexists. split; [done|]. eexists (vs ++ [v]), _.
split; [rewrite length_app; cbn; lia|]. split; [done|]. split; [done|].
rewrite deal_from_snoc. apply hole_slots_step; [done|lia..|]. rewrite length_deal_from. lia.
Qed.

(** ** The board *)

Definition board_slots (base : Z) (b0 b : list Z) (D : list Z) : Prop :=
length b = 7%nat ∧
∀ j, 0 ≤ j < 7 → at_ b j = if base + j <? Z.of_nat (length D) then at_ D (base + j) else at_ b0 j.

Lemma board_slots_step base b0 b D c j :
board_slots base b0 b D → 0 ≤ base → 0 ≤ j < 7 → Z.of_nat (length D) = base + j →
board_slots base b0 (<[Z.to_nat j := c]> b) (D ++ [c]).
Proof.
intros (L & Hs) Hb Hj HD. split; [by rewrite length_insert|]. intros q Hq.
rewrite at_insert, length_app by lia. cbn [length]. case_decide as E; [subst q|].
- rewrite (proj2 (Z.ltb_lt _ _)) by lia. unfold at_. rewrite lookup_total_app_r by lia.
  by replace (Z.to_nat (base + j) - length D)%nat with 0%nat by lia.
- rewrite Hs by lia. destruct (Z.ltb_spec (base + q) (Z.of_nat (length D))),
    (Z.ltb_spec (base + q) (Z.of_nat (length D + 1))); try lia.
  unfold at_. by rewrite lookup_total_app_l by lia.
Qed.

Definition boardTotal (g : Game) : Z := sumZ (at_ (numBoardCards g)) (numRounds g).

Lemma board_sum_mono g r :
(∀ r, 0 ≤ r < 4 → 0 ≤ at_ (numBoardCards g) r) → 0 ≤ r ≤ numRounds g → numRounds g ≤ 4 →
0 ≤ sumZ (at_ (numBoardCards g)) r ≤ boardTotal g.
Proof.
intros Hb Hr Hn. unfold boardTotal. split.
- replace 0 with (sumZ (λ _, 0) r) by (rewrite sumZ_const; lia).
  apply sumZ_le; [lia|]. intros; apply Hb; lia.
- replace (sumZ (at_ (numBoardCards g)) r)
    with (sumZ (λ i, if i <? r then at_ (numBoardCards g) i else 0) (numRounds g)).
  + apply sumZ_le; [lia|]. intros i Hi. destruct (i <? r); [done|apply Hb; lia].
  + rewrite (sumZ_trunc _ r) by (lia || (intros i Hi; destruct (Z.ltb_spec i r); lia)).
    apply sumZ_ext. intros i Hi. destruct (Z.ltb_spec i r); lia.
Qed.

(** The state of the board loops after [k] board cards; the words [vs0] were drawn
  for the hole cards. *)
Definition board_inv (vs0 : list Z) (r0 : R) (full : list Z) (s0 : State) (k : Z)
  (st : R * list Z * Z * State * Z) : Prop :=
let '(r, deck, n, s, j) := st in
∃ ws b, Z.of_nat (length ws) = k ∧ j = k ∧ dealing r0 full (vs0 ++ ws) r deck n ∧
  s = set_boardCards b s0 ∧
  board_slots (Z.of_nat (length vs0)) (boardCards s0) b (deal_from (vs0 ++ ws) full).

(** What a dealer needs: a deck of at most 52 cards, room in the arrays, and no
  more cards to deal than the deck has. *)
Record wf_deal (g : Game) : Prop := {
wd_cards : wf_cards g;
wd_shape : game_shape g;
wd_players : 0 ≤ numPlayers g ≤ 10;
wd_hole : 0 ≤ numHoleCards g ≤ 3;
wd_rounds : 0 ≤ numRounds g ≤ 4;
wd_board : ∀ r, 0 ≤ r < 4 → 0 ≤ at_ (numBoardCards g) r;
wd_board7 : boardTotal g ≤ 7;
wd_enough : numPlayers g * numHoleCards g + boardTotal g ≤ numSuits g * numRanks g
}.

Lemma dealCards_board_ok g r0 full s0 vs r deck n :
wf_deal g → Z.of_nat (length vs) + boardTotal g ≤ Z.of_nat (length full) →
length (boardCards s0) = 7%nat → dealing r0 full vs r deck n →
∃ st, dealCards_board g (r, deck, n, s0, 0) = Ok st ∧
  board_inv vs r0 full s0 (boardTotal g) st.
Proof.
intros W Hf Hb7 Hd. pose proof (wd_rounds _ W). pose proof (wd_board7 _ W).
unfold dealCards_board.
apply (for_inv (λ k st, board_inv vs r0 full s0 (sumZ (at_ (numBoardCards g)) k) st)); [lia| |].
{ exists [], (boardCards s0). rewrite app_nil_r. split; [done|]. split; [done|].
  split; [done|]. split; [by destruct s0|]. split; [done|]. intros j Hj.
  rewrite length_deal_from. destruct (Z.ltb_spec (Z.of_nat (length vs) + j) (Z.of_nat (length vs))); [lia|done]. }
intros k st Hk Hinv. pose proof (gs_board _ (wd_shape _ W)). run.
rewrite sumZ_S by lia. pose proof (wd_board _ W k ltac:(lia)).
pose proof (board_sum_mono g (k + 1) (wd_board _ W) ltac:(lia) ltac:(lia)) as Hm.
pose proof (board_sum_mono g k (wd_board _ W) ltac:(lia) ltac:(lia)) as Hm'.
rewrite sumZ_S in Hm by lia. set (t := sumZ _ k) in *.
apply (for_inv (λ i st, board_inv vs r0 full s0 (t + i) st)); [lia|by rewrite Z.add_0_r|].
intros i [[[[r1 d] m] s] j] Hi (ws & b & Hw & -> & Hdl & -> & Hs).
pose proof (dealing_left _ _ _ _ _ _ Hdl) as Hm2. rewrite length_app in Hm2.
destruct (dealCard_ok _ _ _ _ _ _ Hdl) as (v & r' & d' & -> & Hdl'); [lia|]. run.
pose proof Hs as (L & _). cbn [boardCards set_boardCards]. run.
eexists. split; [done|]. eexists (ws ++ [v]), _. rewrite app_assoc.
split; [rewrite length_app; cbn; lia|]. split; [lia|]. split; [done|]. split; [done|].
rewrite deal_from_snoc. apply board_slots_step; [done|lia..|].
rewrite length_deal_from, length_app. lia.
Qed.

Lemma deal_from_app vs ws live :
deal_from (vs ++ ws) live = deal_from vs live ++ deal_from ws (left_after vs live).
Proof. revert live. induction vs as [|v vs IH]; intros live; cbn; [done|]. by rewrite IH. Qed.

(** The cards on the table, in the order they are dealt. *)
Definition dealt_hole (g : Game) (s : State) : list Z :=
concat ((λ p, (λ i, at_ (at_ (holeCards s) p) i) <$> seqZ 0 (numHoleCards g)) <$> seqZ 0 (numPlayers g)).
Definition dealt_board (g : Game) (s : State) : list Z :=
(λ j, at_ (boardCards s) j) <$> seqZ 0 (boardTotal g).

Lemma map_at_rows nh np (D : list Z) :
0 ≤ nh → 0 ≤ np → Z.of_nat (length D) = np * nh →
concat ((λ p, (λ i, at_ D (p * nh + i)) <$> seqZ 0 nh) <$> seqZ 0 np) = D.
Proof.
intros Hnh Hnp. revert np Hnp D.
apply (Z_bound_ind (λ np, ∀ D, Z.of_nat (length D) = np * nh →
  concat ((λ p, (λ i, at_ D (p * nh + i)) <$> seqZ 0 nh) <$> seqZ 0 np) = D)).
{ intros [|]; [done|]. cbn. lia. }
intros np Hnp IH D HD. rewrite seqZ_snoc, fmap_app, concat_app by done. cbn. rewrite app_nil_r.
transitivity (take (Z.to_nat (np * nh)) D ++ drop (Z.to_nat (np * nh)) D); [|apply take_drop].
f_equal.
- rewrite <-(IH (take _ D)) by (rewrite length_take; nia). f_equal. apply list_fmap_ext.
  intros p x [-> Hp]%lookup_seqZ. apply list_fmap_ext. intros i y [-> Hi]%lookup_seqZ.
  unfold at_. rewrite !list_lookup_total_alt, lookup_take_lt by nia. done.
- rewrite <-(map_at (drop _ D) nh) by (rewrite length_drop; nia). apply list_fmap_ext.
  intros i y [-> Hi]%lookup_seqZ. unfold at_. rewrite !list_lookup_total_alt, lookup_drop.
  do 2 f_equal. nia.
Qed.

Lemma dealt_hole_eq g s0 h D E :
0 ≤ numHoleCards g ≤ 3 → 0 ≤ numPlayers g ≤ 10 →
hole_slots (numHoleCards g) (holeCards s0) h D → Z.of_nat (length D) = numPlayers g * numHoleCards g →
holeCards E = h → dealt_hole g E = D.
Proof.
intros Hnh Hnp (_ & _ & Hs) HD <-. unfold dealt_hole.
rewrite <-(map_at_rows (numHoleCards g) (numPlayers g) D) at 1 by lia. f_equal.
apply list_fmap_ext. intros p x [-> Hp]%lookup_seqZ. apply list_fmap_ext. intros i y [-> Hi]%lookup_seqZ.
rewrite Hs by lia. rewrite (proj2 (Z.ltb_lt _ _)), (proj2 (Z.ltb_lt _ _)) by nia. done.
Qed.

Lemma dealt_board_eq g vs ws s0 b full E :
0 ≤ boardTotal g ≤ 7 → Z.of_nat (length ws) = boardTotal g →
board_slots (Z.of_nat (length vs)) (boardCards s0) b (deal_from (vs ++ ws) full) →
boardCards E = b → dealt_board g E = deal_from ws (left_after vs full).
Proof.
intros Ht Hw (_ & Hs) <-. unfold dealt_board.
rewrite <-(map_at (deal_from ws _) (boardTotal g)) by (by rewrite length_deal_from).
apply list_fmap_ext. intros j x [-> Hj]%lookup_seqZ.
rewrite Hs by lia. rewrite length_deal_from, length_app.
rewrite (proj2 (Z.ltb_lt _ _)) by lia. rewrite deal_from_app. unfold at_.
rewrite lookup_total_app_r by (rewrite length_deal_from; lia). rewrite length_deal_from.
f_equal. lia.
Qed.

Lemma dealCards_ok g deck0 r s :
wf_deal g → state_shape s → length deck0 = 52%nat → rand_ok r →
∃ vs r' h b, let s' := set_boardCards b (set_holeCards h s) in
  dealCards deck0 g r s = Ok (r', s') ∧
  drawn r vs r' ∧ rand_ok r' ∧ state_shape s' ∧
  Z.of_nat (length vs) = numPlayers g * numHoleCards g + boardTotal g ∧
  dealt_hole g s' ++ dealt_board g s' = deal_from vs (fullDeck g).
Proof.
intros W Sh L0 Hr. pose proof (wd_players _ W). pose proof (wd_hole _ W).
pose proof (wd_enough _ W). pose proof (wd_board7 _ W). pose proof (wd_rounds _ W).
pose proof (board_sum_mono g (numRounds g) (wd_board _ W) ltac:(lia) ltac:(lia)).
pose proof (fullDeck_length g (wd_cards _ W)) as Hfull.
unfold dealCards. destruct (dealCards_deck_ok g deck0 (wd_cards _ W) L0) as (d & -> & Hh). run.
destruct (dealCards_hole_ok g r (fullDeck g) s d (numSuits g * numRanks g))
  as ([[[r1 d1] n1] s1] & -> & vs & h & Hk & Hdl & -> & Hs); try done; try lia.
{ split; [constructor|done|done]. }
run. destruct (dealCards_board_ok g r (fullDeck g) (set_holeCards h s) vs r1 d1 n1)
  as ([[[[r2 d2] n2] s2] j] & -> & ws & b & Hw & -> & Hdl2 & -> & Hb); [done|lia|apply Sh|done|].
run. exists (vs ++ ws), r2, h, b. cbn zeta. split; [done|].
split; [apply Hdl2|]. split; [apply Hdl2|]. split.
{ destruct Sh, Hs as (Lh & Lh3 & _), Hb as (Lb & _). split; try done. intros p Hp.
  specialize (Lh3 (Z.of_nat p) ltac:(lia)). unfold at_ in Lh3. by rewrite Nat2Z.id in Lh3. }
split; [rewrite length_app; lia|]. rewrite deal_from_app. f_equal.
- eapply dealt_hole_eq; try done. rewrite length_deal_from. lia.
- by eapply dealt_board_eq; [lia|..].
Qed.
End Draw.

Lemma fullDeck_NoDup g : wf_cards g → NoDup (fullDeck g).
Proof.
  intros [Hs Hr].
  assert (forallb (λ ns, forallb (λ nr, bool_decide (NoDup (concat
    ((λ s, (λ r, makeCard r s) <$> seqZ (13 - nr) nr) <$> seqZ (4 - ns) ns)))) (seqZ 1 13)) (seqZ 1 4) = true)
    as H by (vm_compute; reflexivity).
  rewrite forallb_forall in H. specialize (H (numSuits g)). rewrite forallb_forall in H.
  assert (∀ x n, 1 ≤ x ≤ n → In x (seqZ 1 n)) as Hin.
  { intros x n ?. apply list_elem_of_In, elem_of_seqZ. lia. }
  apply (bool_decide_eq_true_1 _ (H (Hin _ 4 Hs) _ (Hin _ 13 Hr))).
Qed.

(** ** Claims *)

(** C9: [dealCards] on a game whose cards fit its deck and arrays returns, changes
    nothing but the hole and board cards, and the cards it puts on the table,
    together with the cards it leaves, are exactly the deck: so no card is dealt
    twice and none comes from outside it. *)
Theorem deal_partitions_deck (g : Game) (deck0 : list Z) (r : rng_state_t) (s : State) :
  wf_deal g → state_shape s → length deck0 = 52%nat → rng_ok r →
  ∃ r' h b rest, let s' := set_boardCards b (set_holeCards h s) in
    dealCards deck0 g r s = Ok (r', s') ∧ rng_ok r' ∧ state_shape s' ∧
    (dealt_hole g s' ++ dealt_board g s') ++ rest ≡ₚ fullDeck g ∧
    NoDup (dealt_hole g s' ++ dealt_board g s').
Proof.
  intros W Sh L Hr. destruct (dealCards_ok (RS := mt19937) g deck0 r s W Sh L Hr)
    as (vs & r' & h & b & E & _ & Hr' & Sh' & Hl & Hd).
  exists r', h, b, (left_after vs (fullDeck g)). cbn zeta. rewrite Hd.
  assert (deal_from vs (fullDeck g) ++ left_after vs (fullDeck g) ≡ₚ fullDeck g) as HP.
  { apply deal_from_perm. pose proof (fullDeck_length g (wd_cards _ W)). pose proof (wd_enough _ W). lia. }
  do 4 (split; [done|]).
  assert (NoDup (deal_from vs (fullDeck g) ++ left_after vs (fullDeck g))) as HN
    by (rewrite HP; apply fullDeck_NoDup, W).
  by apply NoDup_app in HN as (? & _).
Qed.

(** The words that choose: one below each number of cards left. *)
Fixpoint choices_ok (n : Z) (vs : list Z) : Prop :=
  match vs with [] => True | v :: vs => 0 ≤ v < n ∧ choices_ok (n - 1) vs end.

Lemma choice_small live v : 0 ≤ v < Z.of_nat (length live) → choice live v = v.
Proof. apply Z.mod_small. Qed.

Lemma swap_remove_elem live i c :
  NoDup live → 0 ≤ i < Z.of_nat (length live) →
  c ∈ swap_remove live i ↔ c ∈ live ∧ c ≠ at_ live i.
Proof.
  intros HN Hi. pose proof (swap_remove_perm live i Hi) as HP.
  assert (NoDup (at_ live i :: swap_remove live i)) as [Hn _]%NoDup_cons by by rewrite HP.
  rewrite <-HP at 2. rewrite elem_of_cons. split; [|intuition congruence].
  intros Hc. split; [by right|]. by intros ->.
Qed.

Lemma swap_remove_NoDup live i :
  NoDup live → 0 ≤ i < Z.of_nat (length live) → NoDup (swap_remove live i).
Proof.
  intros HN Hi. pose proof (swap_remove_perm live i Hi) as HP.
  assert (NoDup (at_ live i :: swap_remove live i)) as [_ ?]%NoDup_cons by by rewrite HP. done.
Qed.

Lemma at_inj (live : list Z) i j :
  NoDup live → 0 ≤ i < Z.of_nat (length live) → 0 ≤ j < Z.of_nat (length live) →
  at_ live i = at_ live j → i = j.
Proof.
  intros HN Hi Hj E. unfold at_ in E.
  destruct (lookup_lt_is_Some_2 live (Z.to_nat i)) as [x Hx]; [lia|].
  destruct (lookup_lt_is_Some_2 live (Z.to_nat j)) as [y Hy]; [lia|].
  rewrite (list_lookup_total_correct _ _ _ Hx), (list_lookup_total_correct _ _ _ Hy) in E. subst.
  pose proof (NoDup_lookup _ _ _ _ HN Hx Hy). lia.
Qed.

Lemma elem_at (live : list Z) c : c ∈ live → ∃ i, 0 ≤ i < Z.of_nat (length live) ∧ at_ live i = c.
Proof.
  intros [i Hi]%list_elem_of_lookup. exists (Z.of_nat i). pose proof (lookup_lt_Some _ _ _ Hi).
  split; [lia|]. unfold at_. rewrite Nat2Z.id. by apply list_lookup_total_correct.
Qed.

(** Every ordered deal of distinct cards of the deck is drawn by exactly one
    sequence of in-range choices (below 52, 51, 50, … for a full deck): drawing
    uniform choices makes all deals equally likely. *)
Theorem every_deal_one_choice (g : Game) (target : list Z) :
  wf_cards g → NoDup target → (∀ c, c ∈ target → c ∈ fullDeck g) →
  exists! vs, choices_ok (Z.of_nat (length (fullDeck g))) vs ∧ deal_from vs (fullDeck g) = target.
Proof.
  intros W. generalize (fullDeck_NoDup g W). generalize (fullDeck g). clear W g.
  induction target as [|c target IH]; intros live HN HT Hin.
  { exists []. split; [done|]. intros [|] [? ?]; [done|discriminate]. }
  apply NoDup_cons in HT as [Hc HT].
  destruct (elem_at live c) as (i & Hi & Ei); [apply Hin; set_solver|].
  assert (Z.of_nat (length live) - 1 = Z.of_nat (length (swap_remove live i))) as El
    by (rewrite length_swap_remove; lia).
  destruct (IH (swap_remove live i)) as (vs & [Hv Hd] & Hu).
  { by apply swap_remove_NoDup. }
  { done. }
  { intros c' Hc'. apply swap_remove_elem; [done..|]. split; [set_solver|]. rewrite Ei. by intros ->. }
  exists (i :: vs). split.
  - cbn [choices_ok deal_from]. rewrite El, choice_small, Ei, Hd by done. by split.
  - intros [|j ws] [Hj Hws]; [discriminate|]. cbn [choices_ok deal_from] in Hj, Hws.
    destruct Hj as [Hj Hok]. rewrite choice_small in Hws by done. injection Hws as E1 E2.
    assert (i = j) as <- by (apply (at_inj live); congruence).
    f_equal. apply Hu. by rewrite <-El.
Qed.

(** ** Concrete games *)
Definition holdem (np : Z) : Game :=
  mkGame (replicate 10 20000) [50; 100; 0; 0; 0; 0; 0; 0; 0; 0] [0; 0; 0; 0]
    noLimitBetting np 4 [2; 0; 0; 0] [255; 255; 255; 255] 4 13 2 [0; 3; 1; 1].

(** Checks [wf_deal] of a concrete game. *)
Ltac check_deal :=
  split; try (vm_compute; split; discriminate); try (vm_compute; discriminate);
  [ split; vm_compute; split; discriminate
  | by split
  | let r := fresh in let Hr := fresh in intros r Hr;
    assert (r = 0 ∨ r = 1 ∨ r = 2 ∨ r = 3) as [->|[->|[->| ->]]] by lia; by vm_compute ].

Lemma holdem_deal : wf_deal (holdem 6).
Proof. check_deal. Qed.

Lemma deal_partitions_deck_witness : ∃ r r' h b rest,
  let s' := set_boardCards b (set_holeCards h zero_state) in
  init_genrand raw 2020 = Ok r ∧
  dealCards (replicate 52 0) (holdem 6) r zero_state = Ok (r', s') ∧
  (dealt_hole (holdem 6) s' ++ dealt_board (holdem 6) s') ++ rest ≡ₚ fullDeck (holdem 6).
Proof.
  destruct (init_genrand_ok raw 2020 eq_refl ltac:(by vm_compute)) as (r & E & W & I & _).
  destruct (deal_partitions_deck (holdem 6) (replicate 52 0) r zero_state holdem_deal
    zero_state_shape eq_refl ltac:(split; [exact W|rewrite I; lia]))
    as (r' & h & b & rest & E' & _ & _ & HP & _).
  exists r, r', h, b, rest. cbn zeta. split; [exact E|]. split; [exact E'|exact HP].
Defined.

Lemma every_deal_one_choice_witness :
  exists! vs, choices_ok (Z.of_nat (length (fullDeck (holdem 2)))) vs ∧
    deal_from vs (fullDeck (holdem 2)) = [51; 0; 17].
Proof.
  apply (every_deal_one_choice (holdem 2)).
  - split; vm_compute; split; discriminate.
  - apply (bool_decide_eq_true_1 _). vm_compute. reflexivity.
  - intros c Hc. apply (bool_decide_eq_true_1 (c ∈ fullDeck (holdem 2))).
    repeat (apply elem_of_cons in Hc as [->|Hc]; [vm_compute; reflexivity|]).
    by apply elem_of_nil in Hc.
Defined.

(** Nothing bounds the number of board cards by the array that holds them. *)
Definition nine_board : Game :=
  mkGame (replicate 10 20000) [50; 100; 0; 0; 0; 0; 0; 0; 0; 0] [0; 0; 0; 0]
    noLimitBetting 2 4 [1; 0; 0; 0] [255; 255; 255; 255] 4 13 2 [0; 3; 3; 3].

(** A game definition with nine board cards in total fits the deck, so it is
    accepted, but dealing it writes past [boardCards[MAX_BOARD_CARDS]]. *)
Fact nine_board_cards_overflow :
  numPlayers nine_board * numHoleCards nine_board + boardTotal nine_board
    <= numSuits nine_board * numRanks nine_board ∧
  (r ← init_genrand raw 1; dealCards (replicate 52 0) nine_board r zero_state) = Err OutOfBounds.
Proof. split; vm_compute; [discriminate|reflexivity]. Qed.
