(* ===== verification/StateEq.v ===== *)
(** * State comparison ([statesEqual], [matchStatesEqual] of [Common/acpc/src/game.c])

    The comparisons look at the hand number, the betting of the rounds so far,
    the visible board and the hole cards.  They decide equality of these views;
    for states of a hand played by the rules equal betting implies equal chips,
    folds and turn, as the source's comment claims. *)

From stdpp Require Import base list list_numbers numbers option sets.
From S2P Require Import Prelude GameDef Betting BettingSpec BettingInv BettingStep BettingKeep BettingInit BettingThm Deal.
Open Scope Z_scope.

Definition ret0 (o : unit + Z) (k : res Z) : res Z :=
  match o with inr v => Ok v | inl _ => k end.

(** The body of the loop over the rounds. *)
Definition sameRound (a b : State) (r : Z) : res (unit + Z) :=
  na ← rd (numActions a) r;
  nb ← rd (numActions b) r;
  if negb (na =? nb) then Ok (inr 0) else
  forR 0 na tt (λ i _,
    x ← rd2 (action a) r i;
    y ← rd2 (action b) r i;
    if negb (bool_decide (type x = type y)) then Ok (inr 0) else
    if negb (size x =? size y) then Ok (inr 0) else Ok (inl tt)).

Definition statesEqualCommon (game : Game) (a b : State) : res Z :=
  if negb (handId a =? handId b) then Ok 0 else
  if negb (round a =? round b) then Ok 0 else
  o ← forR 0 (round a + 1) tt (λ r _, sameRound a b r);
  ret0 o (
  t ← sumBoardCards game (round a);
  o ← forR 0 t tt (λ i _,
    x ← rd (boardCards a) i;
    y ← rd (boardCards b) i;
    if negb (x =? y) then Ok (inr 0) else Ok (inl tt));
  ret0 o (Ok 1)).

(** The loop over one player's hole cards. *)
Definition sameHole (game : Game) (a b : State) (p : Z) : res (unit + Z) :=
  forR 0 (numHoleCards game) tt (λ i _,
    x ← rd2 (holeCards a) p i;
    y ← rd2 (holeCards b) p i;
    if negb (x =? y) then Ok (inr 0) else Ok (inl tt)).

Definition statesEqual (game : Game) (a b : State) : res Z :=
  c ← statesEqualCommon game a b;
  if negb (nz c) then Ok 0 else
  o ← forR 0 (numPlayers game) tt (λ p _, sameHole game a b p);
  ret0 o (Ok 1).

Definition matchStatesEqual (game : Game) (a b : MatchState) : res Z :=
  if negb (viewingPlayer a =? viewingPlayer b) then Ok 0 else
  c ← statesEqualCommon game (state a) (state b);
  if negb (nz c) then Ok 0 else
  o ← sameHole game (state a) (state b) (viewingPlayer a);
  ret0 o (Ok 1).

(** ** What the comparisons look at *)
Definition roundActions (s : State) (r : Z) : list Action :=
  (λ i, at2 (action s) r i) <$> seqZ 0 (at_ (numActions s) r).
Definition history (s : State) : list (list Action) :=
  roundActions s <$> seqZ 0 (round s + 1).
Definition boardUpTo (g : Game) (r : Z) : Z := sumZ (at_ (numBoardCards g)) (r + 1).
Definition visibleBoard (g : Game) (s : State) : list Z :=
  (λ i, at_ (boardCards s) i) <$> seqZ 0 (boardUpTo g (round s)).
Definition handOf (g : Game) (s : State) (p : Z) : list Z :=
  (λ i, at2 (holeCards s) p i) <$> seqZ 0 (numHoleCards g).

Definition commonView (g : Game) (s : State) : Z * Z * list (list Action) * list Z :=
  (handId s, round s, history s, visibleBoard g s).
Definition fullView (g : Game) (s : State) :=
  (commonView g s, handOf g s <$> seqZ 0 (numPlayers g)).
Definition playerView (g : Game) (m : MatchState) :=
  (viewingPlayer m, commonView g (state m), handOf g (state m) (viewingPlayer m)).

(** Array bounds of a comparable state. *)
Record comparable (g : Game) (s : State) : Prop := {
  cm_deal : wf_deal g;
  cm_state : state_shape s;
  cm_round : 0 ≤ round s < numRounds g;
  cm_na : ∀ r, 0 ≤ r ≤ round s → 0 ≤ at_ (numActions s) r ≤ 64
}.

Lemma sumBoardCards_ok g r :
  wf_deal g → 0 ≤ r < numRounds g →
  sumBoardCards g r = Ok (boardUpTo g r) ∧ 0 ≤ boardUpTo g r ≤ 7.
Proof.
  intros W Hr. pose proof (wd_rounds _ W). pose proof (gs_board _ (wd_shape _ W)).
  pose proof (wd_board7 _ W).
  assert (∀ k, 0 ≤ k ≤ r + 1 → 0 ≤ sumZ (at_ (numBoardCards g)) k ≤ 7) as Hs.
  { intros k Hk. pose proof (board_sum_mono g k (wd_board _ W)). lia. }
  split; [|apply Hs; lia]. unfold sumBoardCards.
  destruct (for_inv (λ k t, t = sumZ (at_ (numBoardCards g)) k) 0 (r + 1) 0
    (λ r total, n ← rd (numBoardCards g) r; Ok (u8 (total + n)))) as (t & E & ->); [lia|done| |done].
  intros k t Hk ->. run. eexists. split; [done|]. rewrite sumZ_S by lia.
  apply u8_small. pose proof (Hs (k + 1) ltac:(lia)) as H2. rewrite sumZ_S in H2 by lia. lia.
Qed.

Lemma if_neg_ret (x : bool) :
  (if negb x then Ok (inr 0) else Ok (inl tt)) = Ok (if x then inl tt else inr 0) :> res (unit + Z).
Proof. by destruct x. Qed.

Section Compare.
Context (g : Game) (a b : State) (Ca : comparable g a) (Cb : comparable g b).

Lemma len_row (s : State) (C : comparable g s) r : 0 ≤ r ≤ round s →
r < Z.of_nat (length (action s)) ∧ length (at_ (action s) r) = 64%nat ∧
r < Z.of_nat (length (numActions s)).
Proof.
intros Hr. destruct (cm_state _ _ C). pose proof (cm_round _ _ C).
pose proof (wd_rounds _ (cm_deal _ _ C)). split; [lia|]. split; [apply ss_action2; lia|lia].
Qed.

Lemma roundActions_eq r :
0 ≤ at_ (numActions a) r → 0 ≤ at_ (numActions b) r →
roundActions a r = roundActions b r ↔
at_ (numActions a) r = at_ (numActions b) r ∧
∀ i, 0 ≤ i < at_ (numActions a) r → at2 (action a) r i = at2 (action b) r i.
Proof.
intros Ha Hb. unfold roundActions. split.
- intros E. assert (at_ (numActions a) r = at_ (numActions b) r) as En.
  { apply (f_equal length) in E. rewrite !length_fmap, !length_seqZ in E. lia. }
  split; [done|]. rewrite <-En in E. by apply map_seqZ_eq.
- intros [En E]. rewrite <-En. by apply map_seqZ_eq.
Qed.

Lemma sameRound_ok r :
0 ≤ r ≤ round a → 0 ≤ r ≤ round b →
sameRound a b r =
  Ok (if bool_decide (roundActions a r = roundActions b r) then inl tt else inr 0).
Proof.
intros Hr Hr'. destruct (len_row a Ca r Hr) as (? & La & ?), (len_row b Cb r Hr') as (? & Lb & ?).
pose proof (cm_na _ _ Ca r Hr). pose proof (cm_na _ _ Cb r Hr').
unfold sameRound. run. destruct (Z.eqb_spec (at_ (numActions a) r) (at_ (numActions b) r)) as [En|En]; cbn [negb].
- rewrite (forR_forallb (λ i, bool_decide (at2 (action a) r i = at2 (action b) r i)) _ _ _ 0).
  + rewrite Z.sub_0_r. f_equal. apply (f_equal (λ b : bool, if b then inl tt else inr 0)). apply eq_iff_eq_true.
    rewrite forallb_seqZ, bool_decide_eq_true, roundActions_eq by lia. setoid_rewrite bool_decide_eq_true.
    rewrite Z.add_0_l. intuition.
  + intros i Hi. rewrite !rd2_ok by lia. run.
    destruct (at2 (action a) r i) as [t1 z1], (at2 (action b) r i) as [t2 z2]. cbn [type size].
    repeat case_bool_decide; simplify_eq; cbn [negb]; try done;
      [by rewrite Z.eqb_refl|]. destruct (Z.eqb_spec z1 z2); [congruence|done].
- by rewrite bool_decide_false by (rewrite roundActions_eq by lia; tauto).
Qed.

Lemma sameHole_ok p :
0 ≤ p < 10 →
sameHole g a b p = Ok (if bool_decide (handOf g a p = handOf g b p) then inl tt else inr 0).
Proof.
intros Hp. pose proof (wd_hole _ (cm_deal _ _ Ca)). pose proof (cm_state _ _ Ca) as Sa.
pose proof (cm_state _ _ Cb) as Sb. pose proof (ss_hole _ Sa). pose proof (ss_hole _ Sb). unfold sameHole. rewrite (forR_forallb (λ i, at2 (holeCards a) p i =? at2 (holeCards b) p i) _ _ _ 0).
- rewrite Z.sub_0_r. f_equal. apply (f_equal (λ b : bool, if b then inl tt else inr 0)). apply eq_iff_eq_true.
  rewrite forallb_seqZ, bool_decide_eq_true. unfold handOf. rewrite map_seqZ_eq.
  setoid_rewrite Z.eqb_eq. done.
- intros i Hi. assert (length (at_ (holeCards a) p) = 3%nat) by (apply (ss_hole2 _ Sa); lia).
  assert (length (at_ (holeCards b) p) = 3%nat) by (apply (ss_hole2 _ Sb); lia).
  rewrite !rd2_ok by lia. run. apply if_neg_ret.
Qed.

Lemma statesEqualCommon_ok :
statesEqualCommon g a b = Ok (c_bool (bool_decide (commonView g a = commonView g b))).
Proof.
pose proof (cm_round _ _ Ca). pose proof (cm_deal _ _ Ca) as W.
pose proof (ss_board _ (cm_state _ _ Ca)). pose proof (ss_board _ (cm_state _ _ Cb)).
unfold statesEqualCommon, commonView.
destruct (Z.eqb_spec (handId a) (handId b)) as [Eh|]; cbn [negb]; [|by rewrite bool_decide_false by congruence].
destruct (Z.eqb_spec (round a) (round b)) as [Er|]; cbn [negb]; [|by rewrite bool_decide_false by congruence].
rewrite (forR_forallb (λ r, bool_decide (roundActions a r = roundActions b r)) _ _ _ 0)
  by (intros; apply sameRound_ok; lia).
rewrite bind_ok, Z.sub_0_r.
replace (forallb _ _) with (bool_decide (history a = history b)).
2: { apply eq_iff_eq_true. rewrite forallb_seqZ, bool_decide_eq_true. unfold history.
     rewrite <-Er, map_seqZ_eq, Z.add_0_l. by setoid_rewrite bool_decide_eq_true. }
destruct (decide (history a = history b)) as [Ehi|Ehi];
  [rewrite bool_decide_true by done|rewrite bool_decide_false by done]; cbn [ret0];
  [|by rewrite bool_decide_false by congruence].
destruct (sumBoardCards_ok g (round a) W ltac:(lia)) as [-> Hb]. rewrite bind_ok.
rewrite (forR_forallb (λ i, at_ (boardCards a) i =? at_ (boardCards b) i) _ _ _ 0)
  by (intros; run; apply if_neg_ret).
rewrite bind_ok, Z.sub_0_r.
replace (forallb _ _) with (bool_decide (visibleBoard g a = visibleBoard g b)).
2: { apply eq_iff_eq_true. rewrite forallb_seqZ, bool_decide_eq_true. unfold visibleBoard.
     rewrite <-Er, map_seqZ_eq, Z.add_0_l. by setoid_rewrite Z.eqb_eq. }
destruct (decide (visibleBoard g a = visibleBoard g b)) as [Ev|Ev];
  [rewrite bool_decide_true by done|rewrite bool_decide_false by done]; cbn [ret0].
- by rewrite bool_decide_true by congruence.
- by rewrite bool_decide_false by congruence.
Qed.

Lemma statesEqual_ok :
statesEqual g a b = Ok (c_bool (bool_decide (fullView g a = fullView g b))).
Proof.
unfold statesEqual. rewrite statesEqualCommon_ok, bind_ok. unfold fullView.
pose proof (wd_players _ (cm_deal _ _ Ca)).
destruct (decide (commonView g a = commonView g b)) as [Ec|Ec];
  [rewrite bool_decide_true by done|rewrite bool_decide_false by done]; cbn [c_bool nz Z.eqb negb];
  [|by rewrite bool_decide_false by congruence].
rewrite (forR_forallb (λ p, bool_decide (handOf g a p = handOf g b p)) _ _ _ 0)
  by (intros; apply sameHole_ok; lia).
rewrite bind_ok, Z.sub_0_r.
replace (forallb _ _) with (bool_decide (handOf g a <$> seqZ 0 (numPlayers g) = handOf g b <$> seqZ 0 (numPlayers g))).
2: { apply eq_iff_eq_true. rewrite forallb_seqZ, bool_decide_eq_true.
     rewrite map_seqZ_eq, Z.add_0_l. by setoid_rewrite bool_decide_eq_true. }
case_bool_decide; cbn [ret0]; [by rewrite bool_decide_true by congruence|].
by rewrite bool_decide_false by congruence.
Qed.
End Compare.

Lemma matchStatesEqual_ok g a b :
  comparable g (state a) → comparable g (state b) → 0 ≤ viewingPlayer a < 10 →
  matchStatesEqual g a b = Ok (c_bool (bool_decide (playerView g a = playerView g b))).
Proof.
  intros Ca Cb Hv. unfold matchStatesEqual, playerView.
  destruct (Z.eqb_spec (viewingPlayer a) (viewingPlayer b)) as [Ev|]; cbn [negb];
    [|by rewrite bool_decide_false by congruence].
  rewrite statesEqualCommon_ok, bind_ok by done.
  destruct (decide (commonView g (state a) = commonView g (state b))) as [Ec|Ec];
    [rewrite bool_decide_true by done|rewrite bool_decide_false by done]; cbn [c_bool nz Z.eqb negb];
    [|by rewrite bool_decide_false by congruence].
  rewrite sameHole_ok, bind_ok by done. rewrite <-Ev.
  case_bool_decide; cbn [ret0]; [by rewrite bool_decide_true by congruence|].
  by rewrite bool_decide_false by congruence.
Qed.

(** ** Equal betting means equal states *)

(** All the actions of a hand, in order. *)
Definition allActions (g : Game) (s : State) : list Action :=
  concat (roundActions s <$> seqZ 0 (numRounds g)).

(** What [doAction] writes down for an action. *)
Definition recorded (g : Game) (s : State) (a : Action) (p : Z) : Action :=
  mkAction (type a) (match type a with a_call => newBet g s a p | _ => size a end).

Lemma concat_map_nil {A} (f : Z → list A) lo n :
  (∀ i, lo ≤ i < lo + n → f i = []) → concat (f <$> seqZ lo n) = [].
Proof.
  intros Hf. assert (∀ i, i ∈ seqZ lo n → f i = []) as H by (intros i Hi%elem_of_seqZ; auto).
  induction (seqZ lo n) as [|x l IH]; [done|]. cbn. rewrite H by set_solver. apply IH. set_solver.
Qed.

(** The actions up to the current round are all there are. *)
Lemma allActions_history g s : inv g s → allActions g s = concat (history s).
Proof.
  intros I. unfold allActions, history. pose proof (is_round _ _ (inv_shape _ _ I)).
  replace (numRounds g) with ((round s + 1) + (numRounds g - round s - 1)) by lia.
  rewrite seqZ_app, fmap_app, concat_app by lia.
  rewrite (concat_map_nil (roundActions s) (0 + (round s + 1))); [by rewrite app_nil_r|].
  intros r Hr. unfold roundActions. by rewrite (inv_future _ _ I) by lia.
Qed.

Lemma roundActions_applied g s p a r :
  wf_game g → in_shape g s → 0 ≤ p < numPlayers g → na s < 64 → 0 ≤ r < 4 →
  0 ≤ at_ (numActions s) r →
  roundActions (applied g s a p) r =
    roundActions s r ++ (if decide (round s = r) then [recorded g s a p] else []).
Proof.
  intros Wf Sh Hp Room Hr Hn. pose proof (is_state _ _ Sh) as SS. pose proof (is_round _ _ Sh).
  pose proof (is_na _ _ Sh). pose proof (ss_action _ SS). pose proof (wg_rounds _ Wf).
  unfold roundActions. rewrite (numActions_applied g s Wf Sh p a) by done.
  assert (∀ i, 0 ≤ i → at2 (action (applied g s a p)) r i =
    if decide (round s = r ∧ na s = i) then recorded g s a p else at2 (action s) r i) as Ha.
  { intros i Hi. cbn [action applied].
    rewrite at2_upd2 by (rewrite ?(len_action_row g) by done; lia). done. }
  destruct (decide (round s = r)) as [<-|].
  - rewrite seqZ_snoc, fmap_app by lia. cbn. rewrite Ha, decide_True by (done || lia). f_equal.
    unfold na. apply map_seqZ_eq. intros i Hi. rewrite Ha, decide_False by (unfold na; lia). done.
  - rewrite app_nil_r. apply map_seqZ_eq. intros i Hi. by rewrite Ha, decide_False by (lia || tauto).
Qed.

Lemma allActions_applied g s p a :
  wf_game g → inv g s → 0 ≤ p < numPlayers g → na s < 64 →
  allActions g (applied g s a p) = allActions g s ++ [recorded g s a p].
Proof.
  intros Wf I Hp Room. pose proof (inv_shape _ _ I) as Sh. pose proof (is_round _ _ Sh).
  pose proof (wg_rounds _ Wf). unfold allActions.
  replace (numRounds g) with (round s + 1 + (numRounds g - round s - 1)) by lia.
  rewrite seqZ_app, !fmap_app, !concat_app by lia.
  rewrite !(concat_map_nil _ (0 + (round s + 1))).
  - rewrite !app_nil_r, seqZ_snoc, !fmap_app, !concat_app by lia. cbn. rewrite !app_nil_r, <-app_assoc.
    f_equal.
    + f_equal. apply map_seqZ_eq. intros r Hr.
      rewrite roundActions_applied by (done || lia || (apply (inv_na _ _ I); lia)).
      rewrite decide_False by lia. apply app_nil_r.
    + rewrite roundActions_applied by (done || lia || (apply (inv_na _ _ I); lia)).
      by rewrite decide_True by done.
  - intros r Hr. unfold roundActions. by rewrite (inv_future _ _ I) by lia.
  - intros r Hr. rewrite roundActions_applied by (done || lia || (apply (inv_na _ _ I); lia)).
    rewrite decide_False by lia. unfold roundActions. by rewrite (inv_future _ _ I) by lia.
Qed.

Lemma allActions_ended g s m : allActions g (fst (ended g s m)) = allActions g s.
Proof. unfold ended. by repeat case_match. Qed.

(** A step writes one action down, and what it writes determines the next state. *)
Lemma step_record g s s' :
  wf_game g → inv g s → step g s s' →
  ∃ p a m f, currentPlayer g s = Ok p ∧ mid_inv g (applied g s a p) m f ∧
    s' = fst (ended g (applied g s a p) m) ∧ type a ≠ a_invalid ∧
    allActions g s' = allActions g s ++ [recorded g s a p].
Proof.
  intros Wf I St. destruct (step_inv g s s' Wf I St) as (p & a & m & f & Hcur & Va & M & ->).
  pose proof (step_open _ _ _ St) as Open. destruct (inv_open _ _ I Open) as (_ & m0 & f0 & BW & Hlt).
  destruct (current_exists g s Wf I Open) as (p' & Hfirst & Hcur' & Hp & _).
  assert (p' = p) as -> by congruence. exists p, a, m, f. split; [done|]. split; [done|].
  split; [done|]. split; [unfold valid_act in Va; by destruct (type a)|].
  rewrite allActions_ended. apply allActions_applied; try done; try lia. by eapply turn_room.
Qed.

Lemma recorded_inj g s a b p :
  recorded g s a p = recorded g s b p → applied g s a p = applied g s b p.
Proof.
  unfold recorded. intros [= Et Ez].
  assert (type a ≠ a_call → a = b) as Hab.
  { intros Hc. destruct a as [ta za], b as [tb zb]. cbn in *. subst tb. by destruct ta; subst. }
  destruct (decide (type a = a_call)) as [Hc|Hc]; [|by rewrite (Hab Hc)].
  assert (type b = a_call) as Hc' by congruence.
  unfold applied, newMax, newMin, newBet, newRoundSpent, newMax, isFold, isRaise.
  by rewrite Hc, Hc'.
Qed.

Lemma step_det g s s1 s2 :
  wf_game g → inv g s → step g s s1 → step g s s2 → allActions g s1 = allActions g s2 → s1 = s2.
Proof.
  intros Wf I St1 St2 E.
  destruct (step_record g s s1 Wf I St1) as (p & a & m & f & Hc & M & -> & _ & E1).
  destruct (step_record g s s2 Wf I St2) as (p' & b & m' & f' & Hc' & M' & -> & _ & E2).
  assert (p' = p) as -> by congruence. rewrite E1, E2 in E. apply app_inv_head in E. injection E as E.
  assert (recorded g s a p = recorded g s b p) as Er by (unfold recorded; congruence).
  pose proof (recorded_inj g s a b p Er) as Ea. rewrite Ea in M |- *.
  pose proof (end_ok g _ Wf m f M) as X. pose proof (end_ok g _ Wf m' f' M') as Y. congruence.
Qed.

Lemma steps_length g h s k s' :
  wf_game g → starts g h s → steps g k s s' → length (allActions g s') = k.
Proof.
  intros Wf Hs St. induction St as [s|k s s' s'' St IH Hst].
  - destruct (starts_inv g h s Wf Hs) as [I F]. unfold allActions.
    rewrite concat_map_nil; [done|]. intros r Hr. unfold roundActions.
    replace (at_ (numActions s) r) with 0; [done|]. symmetry. apply F. lia.
  - destruct (step_record g s' s'' Wf (steps_inv g h s k s' Wf Hs St) Hst)
      as (p & a & m & f & _ & _ & _ & _ & E).
    rewrite E, length_app, IH by done. cbn. lia.
Qed.

Lemma betting_determines g h s k s1 s2 :
  wf_game g → starts g h s → steps g k s s1 → steps g k s s2 →
  allActions g s1 = allActions g s2 → s1 = s2.
Proof.
  intros Wf Hs St1. revert s2. induction St1 as [s|k s s1' s1 St1 IH H1]; intros s2 St2 E;
    inversion St2 as [|? ? s2' ? St2' H2]; subst; [done|].
  pose proof (steps_inv g h s k s1' Wf Hs St1) as I1. pose proof (steps_inv g h s k s2' Wf Hs St2') as I2.
  assert (s1' = s2') as <-.
  { apply IH; [done..|].
    destruct (step_record g s1' s1 Wf I1 H1) as (? & ? & ? & ? & _ & _ & _ & _ & E1).
    destruct (step_record g s2' s2 Wf I2 H2) as (? & ? & ? & ? & _ & _ & _ & _ & E2).
    rewrite E1, E2 in E. by apply app_inj_tail in E as [? _]. }
  by eapply step_det.
Qed.

Lemma played_comparable g h s k s' :
  wf_game g → wf_deal g → starts g h s → steps g k s s' → comparable g s'.
Proof.
  intros Wf Wd Hs St. pose proof (steps_inv g h s k s' Wf Hs St) as I.
  pose proof (inv_shape _ _ I) as Sh. pose proof (is_round _ _ Sh).
  split; [done|apply Sh|done|]. intros r Hr. apply (inv_na _ _ I). lia.
Qed.

(** ** Claims *)

(** [matchStatesEqual] returns 1 exactly when the two match states show the same
    thing to the same viewing player: hand number, betting so far, visible board and
    his own hole cards; it never depends on another player's cards. *)
Theorem match_equal_iff_view g a b :
  comparable g (state a) → comparable g (state b) → 0 ≤ viewingPlayer a < 10 →
  matchStatesEqual g a b = Ok (if decide (playerView g a = playerView g b) then 1 else 0).
Proof.
  intros Ca Cb Hv. rewrite matchStatesEqual_ok by done.
  case_decide; [by rewrite bool_decide_true|by rewrite bool_decide_false].
Qed.

(** As the comment in the source claims, comparing hand number, betting and cards
    is enough: two states of a hand reached by accepted actions are accepted by
    [statesEqual] exactly when they are equal in every field, the amounts spent,
    the folds, the turn and the end of the hand included. *)
Theorem equal_betting_equal_state g h s k1 s1 k2 s2 :
  wf_game g → wf_deal g → starts g h s → steps g k1 s s1 → steps g k2 s s2 →
  statesEqual g s1 s2 = Ok (if decide (s1 = s2) then 1 else 0).
Proof.
  intros Wf Wd Hs St1 St2. rewrite statesEqual_ok by (by eapply played_comparable).
  case_decide as E; [subst; by rewrite bool_decide_true|].
  rewrite bool_decide_false; [done|]. intros Ev. apply E. unfold fullView, commonView in Ev.
  simplify_eq. assert (allActions g s1 = allActions g s2) as Ea.
  { rewrite !allActions_history by (by eapply steps_inv). congruence. }
  pose proof (steps_length g h s k1 s1 Wf Hs St1) as L1. pose proof (steps_length g h s k2 s2 Wf Hs St2) as L2.
  assert (k1 = k2) as -> by congruence. by eapply betting_determines.
Qed.

Lemma nolimit3p_deal : wf_deal nolimit3p.
Proof. check_deal. Qed.

Lemma started_nolimit3p : starts nolimit3p 7 (started nolimit3p).
Proof. vm_compute. reflexivity. Qed.

Lemma played_steps acts :
  play nolimit3p acts (started nolimit3p) = Ok (played nolimit3p acts) →
  steps nolimit3p (length acts) (started nolimit3p) (played nolimit3p acts).
Proof.
  intros E. rewrite <-(Nat.add_0_r (length acts)).
  eapply (play_steps nolimit3p acts (started nolimit3p) 0); [constructor|done].
Qed.

Lemma equal_betting_equal_state_witness :
  statesEqual nolimit3p (played nolimit3p [r_ 300; c_]) (played nolimit3p [r_ 300; f_])
  = Ok (if decide (played nolimit3p [r_ 300; c_] = played nolimit3p [r_ 300; f_]) then 1 else 0).
Proof.
  apply (equal_betting_equal_state nolimit3p 7 (started nolimit3p) 2 _ 2 _
    nolimit3p_wf nolimit3p_deal started_nolimit3p).
  - apply (played_steps [r_ 300; c_]). vm_compute. reflexivity.
  - apply (played_steps [r_ 300; f_]). vm_compute. reflexivity.
Defined.

(** Two views of one state that differ in a card only the opponent holds. *)
Definition unseen : MatchState :=
  mkMatchState (set_holeCards (<[1%nat := [7; 8; 0]]> (holeCards zero_state)) (started nolimit3p)) 0.

Lemma comparable_holes g s h :
  comparable g s → length h = 10%nat → (∀ p, (p < 10)%nat → length (h !!! p) = 3%nat) →
  comparable g (set_holeCards h s).
Proof. intros [Wd [] Hr Hn] L L3. split; [done| |done|done]. by split. Qed.

Lemma comparable_started : comparable nolimit3p (started nolimit3p).
Proof.
  eapply played_comparable; [apply nolimit3p_wf|apply nolimit3p_deal|apply started_nolimit3p|constructor].
Qed.

Lemma match_equal_iff_view_witness :
  matchStatesEqual nolimit3p (mkMatchState (started nolimit3p) 0) unseen
  = Ok (if decide (playerView nolimit3p (mkMatchState (started nolimit3p) 0) = playerView nolimit3p unseen) then 1 else 0).
Proof.
  apply (match_equal_iff_view nolimit3p (mkMatchState (started nolimit3p) 0) unseen).
  - cbn [state]. apply comparable_started.
  - unfold unseen. cbn [state]. apply comparable_holes; [apply comparable_started|done|].
    intros p Hp. do 10 (destruct p as [|p]; [vm_compute; reflexivity|]). lia.
  - cbn [viewingPlayer]. lia.
Defined.
