(* ===== verification/EvalTables.v ===== *)
(** * The evaluator's tables ([Common/acpc/include/evalHandTables])

    The ten lookup tables of the hand evaluator, entry for entry.  Each is indexed
    by a 13-bit set of ranks or by a rank; [Eval] proves what they contain. *)

From stdpp Require Import base list list_numbers numbers.
Open Scope Z_scope.

Definition HANDCLASS_SINGLE_CARD : Z := 0.
Definition HANDCLASS_PAIR : Z := 1287.
Definition HANDCLASS_TWO_PAIR : Z := 5005.
Definition HANDCLASS_TRIPS : Z := 8606.
Definition HANDCLASS_STRAIGHT : Z := 9620.
Definition HANDCLASS_FLUSH : Z := 9633.
Definition HANDCLASS_FULL_HOUSE : Z := 10920.
Definition HANDCLASS_QUADS : Z := 11934.
Definition HANDCLASS_STRAIGHT_FLUSH : Z := 12103.

Definition oneSuitVal : list Z :=
  [0; 0; 0; 0; 0; 0; 0; 0; 0; 0; 0; 0; 0; 0; 0; 0;
   0; 0; 0; 0; 0; 0; 0; 0; 0; 0; 0; 0; 0; 0; 0; 12107;
   0; 0; 0; 0; 0; 0; 0; 0; 0; 0; 0; 0; 0; 0; 0; 9634;
   0; 0; 0; 0; 0; 0; 0; 9635; 0; 0; 0; 9636; 0; 9637; 12108; 12108;
   0; 0; 0; 0; 0; 0; 0; 0; 0; 0; 0; 0; 0; 0; 0; 9639;
   0; 0; 0; 0; 0; 0; 0; 9640; 0; 0; 0; 9641; 0; 9642; 9643; 12107;
   0; 0; 0; 0; 0; 0; 0; 9644; 0; 0; 0; 9645; 0; 9646; 9647; 9647;
   0; 0; 0; 9648; 0; 9649; 9650; 9650; 0; 9651; 9652; 9652; 12109; 12109; 12109; 12109;
   0; 0; 0; 0; 0; 0; 0; 0; 0; 0; 0; 0; 0; 0; 0; 9654;
   0; 0; 0; 0; 0; 0; 0; 9655; 0; 0; 0; 9656; 0; 9657; 9658; 12107;
   0; 0; 0; 0; 0; 0; 0; 9659; 0; 0; 0; 9660; 0; 9661; 9662; 9662;
   0; 0; 0; 9663; 0; 9664; 9665; 9665; 0; 9666; 9667; 9667; 9668; 9668; 12108; 12108;
   0; 0; 0; 0; 0; 0; 0; 9669; 0; 0; 0; 9670; 0; 9671; 9672; 9672;
   0; 0; 0; 9673; 0; 9674; 9675; 9675; 0; 9676; 9677; 9677; 9678; 9678; 9678; 12107;
   0; 0; 0; 9679; 0; 9680; 9681; 9681; 0; 9682; 9683; 9683; 9684; 9684; 9684; 9684;
   0; 9685; 9686; 9686; 9687; 9687; 9687; 9687; 12110; 12110; 12110; 12110; 12110; 12110; 12110; 12110;
   0; 0; 0; 0; 0; 0; 0; 0; 0; 0; 0; 0; 0; 0; 0; 9689;
   0; 0; 0; 0; 0; 0; 0; 9690; 0; 0; 0; 9691; 0; 9692; 9693; 12107;
   0; 0; 0; 0; 0; 0; 0; 9694; 0; 0; 0; 9695; 0; 9696; 9697; 9697;
   0; 0; 0; 9698; 0; 9699; 9700; 9700; 0; 9701; 9702; 9702; 9703; 9703; 12108; 12108;
   0; 0; 0; 0; 0; 0; 0; 9704; 0; 0; 0; 9705; 0; 9706; 9707; 9707;
   0; 0; 0; 9708; 0; 9709; 9710; 9710; 0; 9711; 9712; 9712; 9713; 9713; 9713; 12107;
   0; 0; 0; 9714; 0; 9715; 9716; 9716; 0; 9717; 9718; 9718; 9719; 9719; 9719; 9719;
   0; 9720; 9721; 9721; 9722; 9722; 9722; 9722; 9723; 9723; 9723; 9723; 12109; 12109; 12109; 12109;
   0; 0; 0; 0; 0; 0; 0; 9724; 0; 0; 0; 9725; 0; 9726; 9727; 9727;
   0; 0; 0; 9728; 0; 9729; 9730; 9730; 0; 9731; 9732; 9732; 9733; 9733; 9733; 12107;
   0; 0; 0; 9734; 0; 9735; 9736; 9736; 0; 9737; 9738; 9738; 9739; 9739; 9739; 9739;
   0; 9740; 9741; 9741; 9742; 9742; 9742; 9742; 9743; 9743; 9743; 9743; 9743; 9743; 12108; 12108;
   0; 0; 0; 9744; 0; 9745; 9746; 9746; 0; 9747; 9748; 9748; 9749; 9749; 9749; 9749;
   0; 9750; 9751; 9751; 9752; 9752; 9752; 9752; 9753; 9753; 9753; 9753; 9753; 9753; 9753; 12107;
   0; 9754; 9755; 9755; 9756; 9756; 9756; 9756; 9757; 9757; 9757; 9757; 9757; 9757; 9757; 9757;
   12111; 12111; 12111; 12111; 12111; 12111; 12111; 12111; 12111; 12111; 12111; 12111; 12111; 12111; 12111; 12111;
   0; 0; 0; 0; 0; 0; 0; 0; 0; 0; 0; 0; 0; 0; 0; 9759;
   0; 0; 0; 0; 0; 0; 0; 9760; 0; 0; 0; 9761; 0; 9762; 9763; 12107;
   0; 0; 0; 0; 0; 0; 0; 9764; 0; 0; 0; 9765; 0; 9766; 9767; 9767;
   0; 0; 0; 9768; 0; 9769; 9770; 9770; 0; 9771; 9772; 9772; 9773; 9773; 12108; 12108;
   0; 0; 0; 0; 0; 0; 0; 9774; 0; 0; 0; 9775; 0; 9776; 9777; 9777;
   0; 0; 0; 9778; 0; 9779; 9780; 9780; 0; 9781; 9782; 9782; 9783; 9783; 9783; 12107;
   0; 0; 0; 9784; 0; 9785; 9786; 9786; 0; 9787; 9788; 9788; 9789; 9789; 9789; 9789;
   0; 9790; 9791; 9791; 9792; 9792; 9792; 9792; 9793; 9793; 9793; 9793; 12109; 12109; 12109; 12109;
   0; 0; 0; 0; 0; 0; 0; 9794; 0; 0; 0; 9795; 0; 9796; 9797; 9797;
   0; 0; 0; 9798; 0; 9799; 9800; 9800; 0; 9801; 9802; 9802; 9803; 9803; 9803; 12107;
   0; 0; 0; 9804; 0; 9805; 9806; 9806; 0; 9807; 9808; 9808; 9809; 9809; 9809; 9809;
   0; 9810; 9811; 9811; 9812; 9812; 9812; 9812; 9813; 9813; 9813; 9813; 9813; 9813; 12108; 12108;
   0; 0; 0; 9814; 0; 9815; 9816; 9816; 0; 9817; 9818; 9818; 9819; 9819; 9819; 9819;
   0; 9820; 9821; 9821; 9822; 9822; 9822; 9822; 9823; 9823; 9823; 9823; 9823; 9823; 9823; 12107;
   0; 9824; 9825; 9825; 9826; 9826; 9826; 9826; 9827; 9827; 9827; 9827; 9827; 9827; 9827; 9827;
   9828; 9828; 9828; 9828; 9828; 9828; 9828; 9828; 12110; 12110; 12110; 12110; 12110; 12110; 12110; 12110;
   0; 0; 0; 0; 0; 0; 0; 9829; 0; 0; 0; 9830; 0; 9831; 9832; 9832;
   0; 0; 0; 9833; 0; 9834; 9835; 9835; 0; 9836; 9837; 9837; 9838; 9838; 9838; 12107;
   0; 0; 0; 9839; 0; 9840; 9841; 9841; 0; 9842; 9843; 9843; 9844; 9844; 9844; 9844;
   0; 9845; 9846; 9846; 9847; 9847; 9847; 9847; 9848; 9848; 9848; 9848; 9848; 9848; 12108; 12108;
   0; 0; 0; 9849; 0; 9850; 9851; 9851; 0; 9852; 9853; 9853; 9854; 9854; 9854; 9854;
   0; 9855; 9856; 9856; 9857; 9857; 9857; 9857; 9858; 9858; 9858; 9858; 9858; 9858; 9858; 12107;
   0; 9859; 9860; 9860; 9861; 9861; 9861; 9861; 9862; 9862; 9862; 9862; 9862; 9862; 9862; 9862;
   9863; 9863; 9863; 9863; 9863; 9863; 9863; 9863; 9863; 9863; 9863; 9863; 12109; 12109; 12109; 12109;
   0; 0; 0; 9864; 0; 9865; 9866; 9866; 0; 9867; 9868; 9868; 9869; 9869; 9869; 9869;
   0; 9870; 9871; 9871; 9872; 9872; 9872; 9872; 9873; 9873; 9873; 9873; 9873; 9873; 9873; 12107;
   0; 9874; 9875; 9875; 9876; 9876; 9876; 9876; 9877; 9877; 9877; 9877; 9877; 9877; 9877; 9877;
   9878; 9878; 9878; 9878; 9878; 9878; 9878; 9878; 9878; 9878; 9878; 9878; 9878; 9878; 12108; 12108;
   0; 9879; 9880; 9880; 9881; 9881; 9881; 9881; 9882; 9882; 9882; 9882; 9882; 9882; 9882; 9882;
   9883; 9883; 9883; 9883; 9883; 9883; 9883; 9883; 9883; 9883; 9883; 9883; 9883; 9883; 9883; 12107;
   12112; 12112; 12112; 12112; 12112; 12112; 12112; 12112; 12112; 12112; 12112; 12112; 12112; 12112; 12112; 12112;
   12112; 12112; 12112; 12112; 12112; 12112; 12112; 12112; 12112; 12112; 12112; 12112; 12112; 12112; 12112; 12112;
   0; 0; 0; 0; 0; 0; 0; 0; 0; 0; 0; 0; 0; 0; 0; 9885;
   0; 0; 0; 0; 0; 0; 0; 9886; 0; 0; 0; 9887; 0; 9888; 9889; 12107;
   0; 0; 0; 0; 0; 0; 0; 9890; 0; 0; 0; 9891; 0; 9892; 9893; 9893;
   0; 0; 0; 9894; 0; 9895; 9896; 9896; 0; 9897; 9898; 9898; 9899; 9899; 12108; 12108;
   0; 0; 0; 0; 0; 0; 0; 9900; 0; 0; 0; 9901; 0; 9902; 9903; 9903;
   0; 0; 0; 9904; 0; 9905; 9906; 9906; 0; 9907; 9908; 9908; 9909; 9909; 9909; 12107;
   0; 0; 0; 9910; 0; 9911; 9912; 9912; 0; 9913; 9914; 9914; 9915; 9915; 9915; 9915;
   0; 9916; 9917; 9917; 9918; 9918; 9918; 9918; 9919; 9919; 9919; 9919; 12109; 12109; 12109; 12109;
   0; 0; 0; 0; 0; 0; 0; 9920; 0; 0; 0; 9921; 0; 9922; 9923; 9923;
   0; 0; 0; 9924; 0; 9925; 9926; 9926; 0; 9927; 9928; 9928; 9929; 9929; 9929; 12107;
   0; 0; 0; 9930; 0; 9931; 9932; 9932; 0; 9933; 9934; 9934; 9935; 9935; 9935; 9935;
   0; 9936; 9937; 9937; 9938; 9938; 9938; 9938; 9939; 9939; 9939; 9939; 9939; 9939; 12108; 12108;
   0; 0; 0; 9940; 0; 9941; 9942; 9942; 0; 9943; 9944; 9944; 9945; 9945; 9945; 9945;
   0; 9946; 9947; 9947; 9948; 9948; 9948; 9948; 9949; 9949; 9949; 9949; 9949; 9949; 9949; 12107;
   0; 9950; 9951; 9951; 9952; 9952; 9952; 9952; 9953; 9953; 9953; 9953; 9953; 9953; 9953; 9953;
   9954; 9954; 9954; 9954; 9954; 9954; 9954; 9954; 12110; 12110; 12110; 12110; 12110; 12110; 12110; 12110;
   0; 0; 0; 0; 0; 0; 0; 9955; 0; 0; 0; 9956; 0; 9957; 9958; 9958;
   0; 0; 0; 9959; 0; 9960; 9961; 9961; 0; 9962; 9963; 9963; 9964; 9964; 9964; 12107;
   0; 0; 0; 9965; 0; 9966; 9967; 9967; 0; 9968; 9969; 9969; 9970; 9970; 9970; 9970;
   0; 9971; 9972; 9972; 9973; 9973; 9973; 9973; 9974; 9974; 9974; 9974; 9974; 9974; 12108; 12108;
   0; 0; 0; 9975; 0; 9976; 9977; 9977; 0; 9978; 9979; 9979; 9980; 9980; 9980; 9980;
   0; 9981; 9982; 9982; 9983; 9983; 9983; 9983; 9984; 9984; 9984; 9984; 9984; 9984; 9984; 12107;
   0; 9985; 9986; 9986; 9987; 9987; 9987; 9987; 9988; 9988; 9988; 9988; 9988; 9988; 9988; 9988;
   9989; 9989; 9989; 9989; 9989; 9989; 9989; 9989; 9989; 9989; 9989; 9989; 12109; 12109; 12109; 12109;
   0; 0; 0; 9990; 0; 9991; 9992; 9992; 0; 9993; 9994; 9994; 9995; 9995; 9995; 9995;
   0; 9996; 9997; 9997; 9998; 9998; 9998; 9998; 9999; 9999; 9999; 9999; 9999; 9999; 9999; 12107;
   0; 10000; 10001; 10001; 10002; 10002; 10002; 10002; 10003; 10003; 10003; 10003; 10003; 10003; 10003; 10003;
   10004; 10004; 10004; 10004; 10004; 10004; 10004; 10004; 10004; 10004; 10004; 10004; 10004; 10004; 12108; 12108;
   0; 10005; 10006; 10006; 10007; 10007; 10007; 10007; 10008; 10008; 10008; 10008; 10008; 10008; 10008; 10008;
   10009; 10009; 10009; 10009; 10009; 10009; 10009; 10009; 10009; 10009; 10009; 10009; 10009; 10009; 10009; 12107;
   10010; 10010; 10010; 10010; 10010; 10010; 10010; 10010; 10010; 10010; 10010; 10010; 10010; 10010; 10010; 10010;
   12111; 12111; 12111; 12111; 12111; 12111; 12111; 12111; 12111; 12111; 12111; 12111; 12111; 12111; 12111; 12111;
   0; 0; 0; 0; 0; 0; 0; 10011; 0; 0; 0; 10012; 0; 10013; 10014; 10014;
   0; 0; 0; 10015; 0; 10016; 10017; 10017; 0; 10018; 10019; 10019; 10020; 10020; 10020; 12107;
   0; 0; 0; 10021; 0; 10022; 10023; 10023; 0; 10024; 10025; 10025; 10026; 10026; 10026; 10026;
   0; 10027; 10028; 10028; 10029; 10029; 10029; 10029; 10030; 10030; 10030; 10030; 10030; 10030; 12108; 12108;
   0; 0; 0; 10031; 0; 10032; 10033; 10033; 0; 10034; 10035; 10035; 10036; 10036; 10036; 10036;
   0; 10037; 10038; 10038; 10039; 10039; 10039; 10039; 10040; 10040; 10040; 10040; 10040; 10040; 10040; 12107;
   0; 10041; 10042; 10042; 10043; 10043; 10043; 10043; 10044; 10044; 10044; 10044; 10044; 10044; 10044; 10044;
   10045; 10045; 10045; 10045; 10045; 10045; 10045; 10045; 10045; 10045; 10045; 10045; 12109; 12109; 12109; 12109;
   0; 0; 0; 10046; 0; 10047; 10048; 10048; 0; 10049; 10050; 10050; 10051; 10051; 10051; 10051;
   0; 10052; 10053; 10053; 10054; 10054; 10054; 10054; 10055; 10055; 10055; 10055; 10055; 10055; 10055; 12107;
   0; 10056; 10057; 10057; 10058; 10058; 10058; 10058; 10059; 10059; 10059; 10059; 10059; 10059; 10059; 10059;
   10060; 10060; 10060; 10060; 10060; 10060; 10060; 10060; 10060; 10060; 10060; 10060; 10060; 10060; 12108; 12108;
   0; 10061; 10062; 10062; 10063; 10063; 10063; 10063; 10064; 10064; 10064; 10064; 10064; 10064; 10064; 10064;
   10065; 10065; 10065; 10065; 10065; 10065; 10065; 10065; 10065; 10065; 10065; 10065; 10065; 10065; 10065; 12107;
   10066; 10066; 10066; 10066; 10066; 10066; 10066; 10066; 10066; 10066; 10066; 10066; 10066; 10066; 10066; 10066;
   10066; 10066; 10066; 10066; 10066; 10066; 10066; 10066; 12110; 12110; 12110; 12110; 12110; 12110; 12110; 12110;
   0; 0; 0; 10067; 0; 10068; 10069; 10069; 0; 10070; 10071; 10071; 10072; 10072; 10072; 10072;
   0; 10073; 10074; 10074; 10075; 10075; 10075; 10075; 10076; 10076; 10076; 10076; 10076; 10076; 10076; 12107;
   0; 10077; 10078; 10078; 10079; 10079; 10079; 10079; 10080; 10080; 10080; 10080; 10080; 10080; 10080; 10080;
   10081; 10081; 10081; 10081; 10081; 10081; 10081; 10081; 10081; 10081; 10081; 10081; 10081; 10081; 12108; 12108;
   0; 10082; 10083; 10083; 10084; 10084; 10084; 10084; 10085; 10085; 10085; 10085; 10085; 10085; 10085; 10085;
   10086; 10086; 10086; 10086; 10086; 10086; 10086; 10086; 10086; 10086; 10086; 10086; 10086; 10086; 10086; 12107;
   10087; 10087; 10087; 10087; 10087; 10087; 10087; 10087; 10087; 10087; 10087; 10087; 10087; 10087; 10087; 10087;
   10087; 10087; 10087; 10087; 10087; 10087; 10087; 10087; 10087; 10087; 10087; 10087; 12109; 12109; 12109; 12109;
   0; 10088; 10089; 10089; 10090; 10090; 10090; 10090; 10091; 10091; 10091; 10091; 10091; 10091; 10091; 10091;
   10092; 10092; 10092; 10092; 10092; 10092; 10092; 10092; 10092; 10092; 10092; 10092; 10092; 10092; 10092; 12107;
   10093; 10093; 10093; 10093; 10093; 10093; 10093; 10093; 10093; 10093; 10093; 10093; 10093; 10093; 10093; 10093;
   10093; 10093; 10093; 10093; 10093; 10093; 10093; 10093; 10093; 10093; 10093; 10093; 10093; 10093; 12108; 12108;
   12113; 12113; 12113; 12113; 12113; 12113; 12113; 12113; 12113; 12113; 12113; 12113; 12113; 12113; 12113; 12113;
   12113; 12113; 12113; 12113; 12113; 12113; 12113; 12113; 12113; 12113; 12113; 12113; 12113; 12113; 12113; 12113;
   12113; 12113; 12113; 12113; 12113; 12113; 12113; 12113; 12113; 12113; 12113; 12113; 12113; 12113; 12113; 12113;
   12113; 12113; 12113; 12113; 12113; 12113; 12113; 12113; 12113; 12113; 12113; 12113; 12113; 12113; 12113; 12113;
   0; 0; 0; 0; 0; 0; 0; 0; 0; 0; 0; 0; 0; 0; 0; 10095;
   0; 0; 0; 0; 0; 0; 0; 10096; 0; 0; 0; 10097; 0; 10098; 10099; 12107;
   0; 0; 0; 0; 0; 0; 0; 10100; 0; 0; 0; 10101; 0; 10102; 10103; 10103;
   0; 0; 0; 10104; 0; 10105; 10106; 10106; 0; 10107; 10108; 10108; 10109; 10109; 12108; 12108;
   0; 0; 0; 0; 0; 0; 0; 10110; 0; 0; 0; 10111; 0; 10112; 10113; 10113;
   0; 0; 0; 10114; 0; 10115; 10116; 10116; 0; 10117; 10118; 10118; 10119; 10119; 10119; 12107;
   0; 0; 0; 10120; 0; 10121; 10122; 10122; 0; 10123; 10124; 10124; 10125; 10125; 10125; 10125;
   0; 10126; 10127; 10127; 10128; 10128; 10128; 10128; 10129; 10129; 10129; 10129; 12109; 12109; 12109; 12109;
   0; 0; 0; 0; 0; 0; 0; 10130; 0; 0; 0; 10131; 0; 10132; 10133; 10133;
   0; 0; 0; 10134; 0; 10135; 10136; 10136; 0; 10137; 10138; 10138; 10139; 10139; 10139; 12107;
   0; 0; 0; 10140; 0; 10141; 10142; 10142; 0; 10143; 10144; 10144; 10145; 10145; 10145; 10145;
   0; 10146; 10147; 10147; 10148; 10148; 10148; 10148; 10149; 10149; 10149; 10149; 10149; 10149; 12108; 12108;
   0; 0; 0; 10150; 0; 10151; 10152; 10152; 0; 10153; 10154; 10154; 10155; 10155; 10155; 10155;
   0; 10156; 10157; 10157; 10158; 10158; 10158; 10158; 10159; 10159; 10159; 10159; 10159; 10159; 10159; 12107;
   0; 10160; 10161; 10161; 10162; 10162; 10162; 10162; 10163; 10163; 10163; 10163; 10163; 10163; 10163; 10163;
   10164; 10164; 10164; 10164; 10164; 10164; 10164; 10164; 12110; 12110; 12110; 12110; 12110; 12110; 12110; 12110;
   0; 0; 0; 0; 0; 0; 0; 10165; 0; 0; 0; 10166; 0; 10167; 10168; 10168;
   0; 0; 0; 10169; 0; 10170; 10171; 10171; 0; 10172; 10173; 10173; 10174; 10174; 10174; 12107;
   0; 0; 0; 10175; 0; 10176; 10177; 10177; 0; 10178; 10179; 10179; 10180; 10180; 10180; 10180;
   0; 10181; 10182; 10182; 10183; 10183; 10183; 10183; 10184; 10184; 10184; 10184; 10184; 10184; 12108; 12108;
   0; 0; 0; 10185; 0; 10186; 10187; 10187; 0; 10188; 10189; 10189; 10190; 10190; 10190; 10190;
   0; 10191; 10192; 10192; 10193; 10193; 10193; 10193; 10194; 10194; 10194; 10194; 10194; 10194; 10194; 12107;
   0; 10195; 10196; 10196; 10197; 10197; 10197; 10197; 10198; 10198; 10198; 10198; 10198; 10198; 10198; 10198;
   10199; 10199; 10199; 10199; 10199; 10199; 10199; 10199; 10199; 10199; 10199; 10199; 12109; 12109; 12109; 12109;
   0; 0; 0; 10200; 0; 10201; 10202; 10202; 0; 10203; 10204; 10204; 10205; 10205; 10205; 10205;
   0; 10206; 10207; 10207; 10208; 10208; 10208; 10208; 10209; 10209; 10209; 10209; 10209; 10209; 10209; 12107;
   0; 10210; 10211; 10211; 10212; 10212; 10212; 10212; 10213; 10213; 10213; 10213; 10213; 10213; 10213; 10213;
   10214; 10214; 10214; 10214; 10214; 10214; 10214; 10214; 10214; 10214; 10214; 10214; 10214; 10214; 12108; 12108;
   0; 10215; 10216; 10216; 10217; 10217; 10217; 10217; 10218; 10218; 10218; 10218; 10218; 10218; 10218; 10218;
   10219; 10219; 10219; 10219; 10219; 10219; 10219; 10219; 10219; 10219; 10219; 10219; 10219; 10219; 10219; 12107;
   10220; 10220; 10220; 10220; 10220; 10220; 10220; 10220; 10220; 10220; 10220; 10220; 10220; 10220; 10220; 10220;
   12111; 12111; 12111; 12111; 12111; 12111; 12111; 12111; 12111; 12111; 12111; 12111; 12111; 12111; 12111; 12111;
   0; 0; 0; 0; 0; 0; 0; 10221; 0; 0; 0; 10222; 0; 10223; 10224; 10224;
   0; 0; 0; 10225; 0; 10226; 10227; 10227; 0; 10228; 10229; 10229; 10230; 10230; 10230; 12107;
   0; 0; 0; 10231; 0; 10232; 10233; 10233; 0; 10234; 10235; 10235; 10236; 10236; 10236; 10236;
   0; 10237; 10238; 10238; 10239; 10239; 10239; 10239; 10240; 10240; 10240; 10240; 10240; 10240; 12108; 12108;
   0; 0; 0; 10241; 0; 10242; 10243; 10243; 0; 10244; 10245; 10245; 10246; 10246; 10246; 10246;
   0; 10247; 10248; 10248; 10249; 10249; 10249; 10249; 10250; 10250; 10250; 10250; 10250; 10250; 10250; 12107;
   0; 10251; 10252; 10252; 10253; 10253; 10253; 10253; 10254; 10254; 10254; 10254; 10254; 10254; 10254; 10254;
   10255; 10255; 10255; 10255; 10255; 10255; 10255; 10255; 10255; 10255; 10255; 10255; 12109; 12109; 12109; 12109;
   0; 0; 0; 10256; 0; 10257; 10258; 10258; 0; 10259; 10260; 10260; 10261; 10261; 10261; 10261;
   0; 10262; 10263; 10263; 10264; 10264; 10264; 10264; 10265; 10265; 10265; 10265; 10265; 10265; 10265; 12107;
   0; 10266; 10267; 10267; 10268; 10268; 10268; 10268; 10269; 10269; 10269; 10269; 10269; 10269; 10269; 10269;
   10270; 10270; 10270; 10270; 10270; 10270; 10270; 10270; 10270; 10270; 10270; 10270; 10270; 10270; 12108; 12108;
   0; 10271; 10272; 10272; 10273; 10273; 10273; 10273; 10274; 10274; 10274; 10274; 10274; 10274; 10274; 10274;
   10275; 10275; 10275; 10275; 10275; 10275; 10275; 10275; 10275; 10275; 10275; 10275; 10275; 10275; 10275; 12107;
   10276; 10276; 10276; 10276; 10276; 10276; 10276; 10276; 10276; 10276; 10276; 10276; 10276; 10276; 10276; 10276;
   10276; 10276; 10276; 10276; 10276; 10276; 10276; 10276; 12110; 12110; 12110; 12110; 12110; 12110; 12110; 12110;
   0; 0; 0; 10277; 0; 10278; 10279; 10279; 0; 10280; 10281; 10281; 10282; 10282; 10282; 10282;
   0; 10283; 10284; 10284; 10285; 10285; 10285; 10285; 10286; 10286; 10286; 10286; 10286; 10286; 10286; 12107;
   0; 10287; 10288; 10288; 10289; 10289; 10289; 10289; 10290; 10290; 10290; 10290; 10290; 10290; 10290; 10290;
   10291; 10291; 10291; 10291; 10291; 10291; 10291; 10291; 10291; 10291; 10291; 10291; 10291; 10291; 12108; 12108;
   0; 10292; 10293; 10293; 10294; 10294; 10294; 10294; 10295; 10295; 10295; 10295; 10295; 10295; 10295; 10295;
   10296; 10296; 10296; 10296; 10296; 10296; 10296; 10296; 10296; 10296; 10296; 10296; 10296; 10296; 10296; 12107;
   10297; 10297; 10297; 10297; 10297; 10297; 10297; 10297; 10297; 10297; 10297; 10297; 10297; 10297; 10297; 10297;
   10297; 10297; 10297; 10297; 10297; 10297; 10297; 10297; 10297; 10297; 10297; 10297; 12109; 12109; 12109; 12109;
   0; 10298; 10299; 10299; 10300; 10300; 10300; 10300; 10301; 10301; 10301; 10301; 10301; 10301; 10301; 10301;
   10302; 10302; 10302; 10302; 10302; 10302; 10302; 10302; 10302; 10302; 10302; 10302; 10302; 10302; 10302; 12107;
   10303; 10303; 10303; 10303; 10303; 10303; 10303; 10303; 10303; 10303; 10303; 10303; 10303; 10303; 10303; 10303;
   10303; 10303; 10303; 10303; 10303; 10303; 10303; 10303; 10303; 10303; 10303; 10303; 10303; 10303; 12108; 12108;
   10304; 10304; 10304; 10304; 10304; 10304; 10304; 10304; 10304; 10304; 10304; 10304; 10304; 10304; 10304; 10304;
   10304; 10304; 10304; 10304; 10304; 10304; 10304; 10304; 10304; 10304; 10304; 10304; 10304; 10304; 10304; 12107;
   12112; 12112; 12112; 12112; 12112; 12112; 12112; 12112; 12112; 12112; 12112; 12112; 12112; 12112; 12112; 12112;
   12112; 12112; 12112; 12112; 12112; 12112; 12112; 12112; 12112; 12112; 12112; 12112; 12112; 12112; 12112; 12112;
   0; 0; 0; 0; 0; 0; 0; 10305; 0; 0; 0; 10306; 0; 10307; 10308; 10308;
   0; 0; 0; 10309; 0; 10310; 10311; 10311; 0; 10312; 10313; 10313; 10314; 10314; 10314; 12107;
   0; 0; 0; 10315; 0; 10316; 10317; 10317; 0; 10318; 10319; 10319; 10320; 10320; 10320; 10320;
   0; 10321; 10322; 10322; 10323; 10323; 10323; 10323; 10324; 10324; 10324; 10324; 10324; 10324; 12108; 12108;
   0; 0; 0; 10325; 0; 10326; 10327; 10327; 0; 10328; 10329; 10329; 10330; 10330; 10330; 10330;
   0; 10331; 10332; 10332; 10333; 10333; 10333; 10333; 10334; 10334; 10334; 10334; 10334; 10334; 10334; 12107;
   0; 10335; 10336; 10336; 10337; 10337; 10337; 10337; 10338; 10338; 10338; 10338; 10338; 10338; 10338; 10338;
   10339; 10339; 10339; 10339; 10339; 10339; 10339; 10339; 10339; 10339; 10339; 10339; 12109; 12109; 12109; 12109;
   0; 0; 0; 10340; 0; 10341; 10342; 10342; 0; 10343; 10344; 10344; 10345; 10345; 10345; 10345;
   0; 10346; 10347; 10347; 10348; 10348; 10348; 10348; 10349; 10349; 10349; 10349; 10349; 10349; 10349; 12107;
   0; 10350; 10351; 10351; 10352; 10352; 10352; 10352; 10353; 10353; 10353; 10353; 10353; 10353; 10353; 10353;
   10354; 10354; 10354; 10354; 10354; 10354; 10354; 10354; 10354; 10354; 10354; 10354; 10354; 10354; 12108; 12108;
   0; 10355; 10356; 10356; 10357; 10357; 10357; 10357; 10358; 10358; 10358; 10358; 10358; 10358; 10358; 10358;
   10359; 10359; 10359; 10359; 10359; 10359; 10359; 10359; 10359; 10359; 10359; 10359; 10359; 10359; 10359; 12107;
   10360; 10360; 10360; 10360; 10360; 10360; 10360; 10360; 10360; 10360; 10360; 10360; 10360; 10360; 10360; 10360;
   10360; 10360; 10360; 10360; 10360; 10360; 10360; 10360; 12110; 12110; 12110; 12110; 12110; 12110; 12110; 12110;
   0; 0; 0; 10361; 0; 10362; 10363; 10363; 0; 10364; 10365; 10365; 10366; 10366; 10366; 10366;
   0; 10367; 10368; 10368; 10369; 10369; 10369; 10369; 10370; 10370; 10370; 10370; 10370; 10370; 10370; 12107;
   0; 10371; 10372; 10372; 10373; 10373; 10373; 10373; 10374; 10374; 10374; 10374; 10374; 10374; 10374; 10374;
   10375; 10375; 10375; 10375; 10375; 10375; 10375; 10375; 10375; 10375; 10375; 10375; 10375; 10375; 12108; 12108;
   0; 10376; 10377; 10377; 10378; 10378; 10378; 10378; 10379; 10379; 10379; 10379; 10379; 10379; 10379; 10379;
   10380; 10380; 10380; 10380; 10380; 10380; 10380; 10380; 10380; 10380; 10380; 10380; 10380; 10380; 10380; 12107;
   10381; 10381; 10381; 10381; 10381; 10381; 10381; 10381; 10381; 10381; 10381; 10381; 10381; 10381; 10381; 10381;
   10381; 10381; 10381; 10381; 10381; 10381; 10381; 10381; 10381; 10381; 10381; 10381; 12109; 12109; 12109; 12109;
   0; 10382; 10383; 10383; 10384; 10384; 10384; 10384; 10385; 10385; 10385; 10385; 10385; 10385; 10385; 10385;
   10386; 10386; 10386; 10386; 10386; 10386; 10386; 10386; 10386; 10386; 10386; 10386; 10386; 10386; 10386; 12107;
   10387; 10387; 10387; 10387; 10387; 10387; 10387; 10387; 10387; 10387; 10387; 10387; 10387; 10387; 10387; 10387;
   10387; 10387; 10387; 10387; 10387; 10387; 10387; 10387; 10387; 10387; 10387; 10387; 10387; 10387; 12108; 12108;
   10388; 10388; 10388; 10388; 10388; 10388; 10388; 10388; 10388; 10388; 10388; 10388; 10388; 10388; 10388; 10388;
   10388; 10388; 10388; 10388; 10388; 10388; 10388; 10388; 10388; 10388; 10388; 10388; 10388; 10388; 10388; 12107;
   10388; 10388; 10388; 10388; 10388; 10388; 10388; 10388; 10388; 10388; 10388; 10388; 10388; 10388; 10388; 10388;
   12111; 12111; 12111; 12111; 12111; 12111; 12111; 12111; 12111; 12111; 12111; 12111; 12111; 12111; 12111; 12111;
   0; 0; 0; 10389; 0; 10390; 10391; 10391; 0; 10392; 10393; 10393; 10394; 10394; 10394; 10394;
   0; 10395; 10396; 10396; 10397; 10397; 10397; 10397; 10398; 10398; 10398; 10398; 10398; 10398; 10398; 12107;
   0; 10399; 10400; 10400; 10401; 10401; 10401; 10401; 10402; 10402; 10402; 10402; 10402; 10402; 10402; 10402;
   10403; 10403; 10403; 10403; 10403; 10403; 10403; 10403; 10403; 10403; 10403; 10403; 10403; 10403; 12108; 12108;
   0; 10404; 10405; 10405; 10406; 10406; 10406; 10406; 10407; 10407; 10407; 10407; 10407; 10407; 10407; 10407;
   10408; 10408; 10408; 10408; 10408; 10408; 10408; 10408; 10408; 10408; 10408; 10408; 10408; 10408; 10408; 12107;
   10409; 10409; 10409; 10409; 10409; 10409; 10409; 10409; 10409; 10409; 10409; 10409; 10409; 10409; 10409; 10409;
   10409; 10409; 10409; 10409; 10409; 10409; 10409; 10409; 10409; 10409; 10409; 10409; 12109; 12109; 12109; 12109;
   0; 10410; 10411; 10411; 10412; 10412; 10412; 10412; 10413; 10413; 10413; 10413; 10413; 10413; 10413; 10413;
   10414; 10414; 10414; 10414; 10414; 10414; 10414; 10414; 10414; 10414; 10414; 10414; 10414; 10414; 10414; 12107;
   10415; 10415; 10415; 10415; 10415; 10415; 10415; 10415; 10415; 10415; 10415; 10415; 10415; 10415; 10415; 10415;
   10415; 10415; 10415; 10415; 10415; 10415; 10415; 10415; 10415; 10415; 10415; 10415; 10415; 10415; 12108; 12108;
   10416; 10416; 10416; 10416; 10416; 10416; 10416; 10416; 10416; 10416; 10416; 10416; 10416; 10416; 10416; 10416;
   10416; 10416; 10416; 10416; 10416; 10416; 10416; 10416; 10416; 10416; 10416; 10416; 10416; 10416; 10416; 12107;
   10416; 10416; 10416; 10416; 10416; 10416; 10416; 10416; 10416; 10416; 10416; 10416; 10416; 10416; 10416; 10416;
   10416; 10416; 10416; 10416; 10416; 10416; 10416; 10416; 12110; 12110; 12110; 12110; 12110; 12110; 12110; 12110;
   0; 10417; 10418; 10418; 10419; 10419; 10419; 10419; 10420; 10420; 10420; 10420; 10420; 10420; 10420; 10420;
   10421; 10421; 10421; 10421; 10421; 10421; 10421; 10421; 10421; 10421; 10421; 10421; 10421; 10421; 10421; 12107;
   10422; 10422; 10422; 10422; 10422; 10422; 10422; 10422; 10422; 10422; 10422; 10422; 10422; 10422; 10422; 10422;
   10422; 10422; 10422; 10422; 10422; 10422; 10422; 10422; 10422; 10422; 10422; 10422; 10422; 10422; 12108; 12108;
   10423; 10423; 10423; 10423; 10423; 10423; 10423; 10423; 10423; 10423; 10423; 10423; 10423; 10423; 10423; 10423;
   10423; 10423; 10423; 10423; 10423; 10423; 10423; 10423; 10423; 10423; 10423; 10423; 10423; 10423; 10423; 12107;
   10423; 10423; 10423; 10423; 10423; 10423; 10423; 10423; 10423; 10423; 10423; 10423; 10423; 10423; 10423; 10423;
   10423; 10423; 10423; 10423; 10423; 10423; 10423; 10423; 10423; 10423; 10423; 10423; 12109; 12109; 12109; 12109;
   12114; 12114; 12114; 12114; 12114; 12114; 12114; 12114; 12114; 12114; 12114; 12114; 12114; 12114; 12114; 12114;
   12114; 12114; 12114; 12114; 12114; 12114; 12114; 12114; 12114; 12114; 12114; 12114; 12114; 12114; 12114; 12114;
   12114; 12114; 12114; 12114; 12114; 12114; 12114; 12114; 12114; 12114; 12114; 12114; 12114; 12114; 12114; 12114;
   12114; 12114; 12114; 12114; 12114; 12114; 12114; 12114; 12114; 12114; 12114; 12114; 12114; 12114; 12114; 12114;
   12114; 12114; 12114; 12114; 12114; 12114; 12114; 12114; 12114; 12114; 12114; 12114; 12114; 12114; 12114; 12114;
   12114; 12114; 12114; 12114; 12114; 12114; 12114; 12114; 12114; 12114; 12114; 12114; 12114; 12114; 12114; 12114;
   12114; 12114; 12114; 12114; 12114; 12114; 12114; 12114; 12114; 12114; 12114; 12114; 12114; 12114; 12114; 12114;
   12114; 12114; 12114; 12114; 12114; 12114; 12114; 12114; 12114; 12114; 12114; 12114; 12114; 12114; 12114; 12114;
   0; 0; 0; 0; 0; 0; 0; 0; 0; 0; 0; 0; 0; 0; 0; 12106;
   0; 0; 0; 0; 0; 0; 0; 10426; 0; 0; 0; 10427; 0; 10428; 10429; 12107;
   0; 0; 0; 0; 0; 0; 0; 10430; 0; 0; 0; 10431; 0; 10432; 10433; 12106;
   0; 0; 0; 10434; 0; 10435; 10436; 10436; 0; 10437; 10438; 10438; 10439; 10439; 12108; 12108;
   0; 0; 0; 0; 0; 0; 0; 10440; 0; 0; 0; 10441; 0; 10442; 10443; 12106;
   0; 0; 0; 10444; 0; 10445; 10446; 10446; 0; 10447; 10448; 10448; 10449; 10449; 10449; 12107;
   0; 0; 0; 10450; 0; 10451; 10452; 10452; 0; 10453; 10454; 10454; 10455; 10455; 10455; 12106;
   0; 10456; 10457; 10457; 10458; 10458; 10458; 10458; 10459; 10459; 10459; 10459; 12109; 12109; 12109; 12109;
   0; 0; 0; 0; 0; 0; 0; 10460; 0; 0; 0; 10461; 0; 10462; 10463; 12106;
   0; 0; 0; 10464; 0; 10465; 10466; 10466; 0; 10467; 10468; 10468; 10469; 10469; 10469; 12107;
   0; 0; 0; 10470; 0; 10471; 10472; 10472; 0; 10473; 10474; 10474; 10475; 10475; 10475; 12106;
   0; 10476; 10477; 10477; 10478; 10478; 10478; 10478; 10479; 10479; 10479; 10479; 10479; 10479; 12108; 12108;
   0; 0; 0; 10480; 0; 10481; 10482; 10482; 0; 10483; 10484; 10484; 10485; 10485; 10485; 12106;
   0; 10486; 10487; 10487; 10488; 10488; 10488; 10488; 10489; 10489; 10489; 10489; 10489; 10489; 10489; 12107;
   0; 10490; 10491; 10491; 10492; 10492; 10492; 10492; 10493; 10493; 10493; 10493; 10493; 10493; 10493; 12106;
   10494; 10494; 10494; 10494; 10494; 10494; 10494; 10494; 12110; 12110; 12110; 12110; 12110; 12110; 12110; 12110;
   0; 0; 0; 0; 0; 0; 0; 10495; 0; 0; 0; 10496; 0; 10497; 10498; 12106;
   0; 0; 0; 10499; 0; 10500; 10501; 10501; 0; 10502; 10503; 10503; 10504; 10504; 10504; 12107;
   0; 0; 0; 10505; 0; 10506; 10507; 10507; 0; 10508; 10509; 10509; 10510; 10510; 10510; 12106;
   0; 10511; 10512; 10512; 10513; 10513; 10513; 10513; 10514; 10514; 10514; 10514; 10514; 10514; 12108; 12108;
   0; 0; 0; 10515; 0; 10516; 10517; 10517; 0; 10518; 10519; 10519; 10520; 10520; 10520; 12106;
   0; 10521; 10522; 10522; 10523; 10523; 10523; 10523; 10524; 10524; 10524; 10524; 10524; 10524; 10524; 12107;
   0; 10525; 10526; 10526; 10527; 10527; 10527; 10527; 10528; 10528; 10528; 10528; 10528; 10528; 10528; 12106;
   10529; 10529; 10529; 10529; 10529; 10529; 10529; 10529; 10529; 10529; 10529; 10529; 12109; 12109; 12109; 12109;
   0; 0; 0; 10530; 0; 10531; 10532; 10532; 0; 10533; 10534; 10534; 10535; 10535; 10535; 12106;
   0; 10536; 10537; 10537; 10538; 10538; 10538; 10538; 10539; 10539; 10539; 10539; 10539; 10539; 10539; 12107;
   0; 10540; 10541; 10541; 10542; 10542; 10542; 10542; 10543; 10543; 10543; 10543; 10543; 10543; 10543; 12106;
   10544; 10544; 10544; 10544; 10544; 10544; 10544; 10544; 10544; 10544; 10544; 10544; 10544; 10544; 12108; 12108;
   0; 10545; 10546; 10546; 10547; 10547; 10547; 10547; 10548; 10548; 10548; 10548; 10548; 10548; 10548; 12106;
   10549; 10549; 10549; 10549; 10549; 10549; 10549; 10549; 10549; 10549; 10549; 10549; 10549; 10549; 10549; 12107;
   10550; 10550; 10550; 10550; 10550; 10550; 10550; 10550; 10550; 10550; 10550; 10550; 10550; 10550; 10550; 12106;
   12111; 12111; 12111; 12111; 12111; 12111; 12111; 12111; 12111; 12111; 12111; 12111; 12111; 12111; 12111; 12111;
   0; 0; 0; 0; 0; 0; 0; 10551; 0; 0; 0; 10552; 0; 10553; 10554; 12106;
   0; 0; 0; 10555; 0; 10556; 10557; 10557; 0; 10558; 10559; 10559; 10560; 10560; 10560; 12107;
   0; 0; 0; 10561; 0; 10562; 10563; 10563; 0; 10564; 10565; 10565; 10566; 10566; 10566; 12106;
   0; 10567; 10568; 10568; 10569; 10569; 10569; 10569; 10570; 10570; 10570; 10570; 10570; 10570; 12108; 12108;
   0; 0; 0; 10571; 0; 10572; 10573; 10573; 0; 10574; 10575; 10575; 10576; 10576; 10576; 12106;
   0; 10577; 10578; 10578; 10579; 10579; 10579; 10579; 10580; 10580; 10580; 10580; 10580; 10580; 10580; 12107;
   0; 10581; 10582; 10582; 10583; 10583; 10583; 10583; 10584; 10584; 10584; 10584; 10584; 10584; 10584; 12106;
   10585; 10585; 10585; 10585; 10585; 10585; 10585; 10585; 10585; 10585; 10585; 10585; 12109; 12109; 12109; 12109;
   0; 0; 0; 10586; 0; 10587; 10588; 10588; 0; 10589; 10590; 10590; 10591; 10591; 10591; 12106;
   0; 10592; 10593; 10593; 10594; 10594; 10594; 10594; 10595; 10595; 10595; 10595; 10595; 10595; 10595; 12107;
   0; 10596; 10597; 10597; 10598; 10598; 10598; 10598; 10599; 10599; 10599; 10599; 10599; 10599; 10599; 12106;
   10600; 10600; 10600; 10600; 10600; 10600; 10600; 10600; 10600; 10600; 10600; 10600; 10600; 10600; 12108; 12108;
   0; 10601; 10602; 10602; 10603; 10603; 10603; 10603; 10604; 10604; 10604; 10604; 10604; 10604; 10604; 12106;
   10605; 10605; 10605; 10605; 10605; 10605; 10605; 10605; 10605; 10605; 10605; 10605; 10605; 10605; 10605; 12107;
   10606; 10606; 10606; 10606; 10606; 10606; 10606; 10606; 10606; 10606; 10606; 10606; 10606; 10606; 10606; 12106;
   10606; 10606; 10606; 10606; 10606; 10606; 10606; 10606; 12110; 12110; 12110; 12110; 12110; 12110; 12110; 12110;
   0; 0; 0; 10607; 0; 10608; 10609; 10609; 0; 10610; 10611; 10611; 10612; 10612; 10612; 12106;
   0; 10613; 10614; 10614; 10615; 10615; 10615; 10615; 10616; 10616; 10616; 10616; 10616; 10616; 10616; 12107;
   0; 10617; 10618; 10618; 10619; 10619; 10619; 10619; 10620; 10620; 10620; 10620; 10620; 10620; 10620; 12106;
   10621; 10621; 10621; 10621; 10621; 10621; 10621; 10621; 10621; 10621; 10621; 10621; 10621; 10621; 12108; 12108;
   0; 10622; 10623; 10623; 10624; 10624; 10624; 10624; 10625; 10625; 10625; 10625; 10625; 10625; 10625; 12106;
   10626; 10626; 10626; 10626; 10626; 10626; 10626; 10626; 10626; 10626; 10626; 10626; 10626; 10626; 10626; 12107;
   10627; 10627; 10627; 10627; 10627; 10627; 10627; 10627; 10627; 10627; 10627; 10627; 10627; 10627; 10627; 12106;
   10627; 10627; 10627; 10627; 10627; 10627; 10627; 10627; 10627; 10627; 10627; 10627; 12109; 12109; 12109; 12109;
   0; 10628; 10629; 10629; 10630; 10630; 10630; 10630; 10631; 10631; 10631; 10631; 10631; 10631; 10631; 12106;
   10632; 10632; 10632; 10632; 10632; 10632; 10632; 10632; 10632; 10632; 10632; 10632; 10632; 10632; 10632; 12107;
   10633; 10633; 10633; 10633; 10633; 10633; 10633; 10633; 10633; 10633; 10633; 10633; 10633; 10633; 10633; 12106;
   10633; 10633; 10633; 10633; 10633; 10633; 10633; 10633; 10633; 10633; 10633; 10633; 10633; 10633; 12108; 12108;
   10634; 10634; 10634; 10634; 10634; 10634; 10634; 10634; 10634; 10634; 10634; 10634; 10634; 10634; 10634; 12106;
   10634; 10634; 10634; 10634; 10634; 10634; 10634; 10634; 10634; 10634; 10634; 10634; 10634; 10634; 10634; 12107;
   12112; 12112; 12112; 12112; 12112; 12112; 12112; 12112; 12112; 12112; 12112; 12112; 12112; 12112; 12112; 12112;
   12112; 12112; 12112; 12112; 12112; 12112; 12112; 12112; 12112; 12112; 12112; 12112; 12112; 12112; 12112; 12112;
   0; 0; 0; 0; 0; 0; 0; 10635; 0; 0; 0; 10636; 0; 10637; 10638; 12106;
   0; 0; 0; 10639; 0; 10640; 10641; 10641; 0; 10642; 10643; 10643; 10644; 10644; 10644; 12107;
   0; 0; 0; 10645; 0; 10646; 10647; 10647; 0; 10648; 10649; 10649; 10650; 10650; 10650; 12106;
   0; 10651; 10652; 10652; 10653; 10653; 10653; 10653; 10654; 10654; 10654; 10654; 10654; 10654; 12108; 12108;
   0; 0; 0; 10655; 0; 10656; 10657; 10657; 0; 10658; 10659; 10659; 10660; 10660; 10660; 12106;
   0; 10661; 10662; 10662; 10663; 10663; 10663; 10663; 10664; 10664; 10664; 10664; 10664; 10664; 10664; 12107;
   0; 10665; 10666; 10666; 10667; 10667; 10667; 10667; 10668; 10668; 10668; 10668; 10668; 10668; 10668; 12106;
   10669; 10669; 10669; 10669; 10669; 10669; 10669; 10669; 10669; 10669; 10669; 10669; 12109; 12109; 12109; 12109;
   0; 0; 0; 10670; 0; 10671; 10672; 10672; 0; 10673; 10674; 10674; 10675; 10675; 10675; 12106;
   0; 10676; 10677; 10677; 10678; 10678; 10678; 10678; 10679; 10679; 10679; 10679; 10679; 10679; 10679; 12107;
   0; 10680; 10681; 10681; 10682; 10682; 10682; 10682; 10683; 10683; 10683; 10683; 10683; 10683; 10683; 12106;
   10684; 10684; 10684; 10684; 10684; 10684; 10684; 10684; 10684; 10684; 10684; 10684; 10684; 10684; 12108; 12108;
   0; 10685; 10686; 10686; 10687; 10687; 10687; 10687; 10688; 10688; 10688; 10688; 10688; 10688; 10688; 12106;
   10689; 10689; 10689; 10689; 10689; 10689; 10689; 10689; 10689; 10689; 10689; 10689; 10689; 10689; 10689; 12107;
   10690; 10690; 10690; 10690; 10690; 10690; 10690; 10690; 10690; 10690; 10690; 10690; 10690; 10690; 10690; 12106;
   10690; 10690; 10690; 10690; 10690; 10690; 10690; 10690; 12110; 12110; 12110; 12110; 12110; 12110; 12110; 12110;
   0; 0; 0; 10691; 0; 10692; 10693; 10693; 0; 10694; 10695; 10695; 10696; 10696; 10696; 12106;
   0; 10697; 10698; 10698; 10699; 10699; 10699; 10699; 10700; 10700; 10700; 10700; 10700; 10700; 10700; 12107;
   0; 10701; 10702; 10702; 10703; 10703; 10703; 10703; 10704; 10704; 10704; 10704; 10704; 10704; 10704; 12106;
   10705; 10705; 10705; 10705; 10705; 10705; 10705; 10705; 10705; 10705; 10705; 10705; 10705; 10705; 12108; 12108;
   0; 10706; 10707; 10707; 10708; 10708; 10708; 10708; 10709; 10709; 10709; 10709; 10709; 10709; 10709; 12106;
   10710; 10710; 10710; 10710; 10710; 10710; 10710; 10710; 10710; 10710; 10710; 10710; 10710; 10710; 10710; 12107;
   10711; 10711; 10711; 10711; 10711; 10711; 10711; 10711; 10711; 10711; 10711; 10711; 10711; 10711; 10711; 12106;
   10711; 10711; 10711; 10711; 10711; 10711; 10711; 10711; 10711; 10711; 10711; 10711; 12109; 12109; 12109; 12109;
   0; 10712; 10713; 10713; 10714; 10714; 10714; 10714; 10715; 10715; 10715; 10715; 10715; 10715; 10715; 12106;
   10716; 10716; 10716; 10716; 10716; 10716; 10716; 10716; 10716; 10716; 10716; 10716; 10716; 10716; 10716; 12107;
   10717; 10717; 10717; 10717; 10717; 10717; 10717; 10717; 10717; 10717; 10717; 10717; 10717; 10717; 10717; 12106;
   10717; 10717; 10717; 10717; 10717; 10717; 10717; 10717; 10717; 10717; 10717; 10717; 10717; 10717; 12108; 12108;
   10718; 10718; 10718; 10718; 10718; 10718; 10718; 10718; 10718; 10718; 10718; 10718; 10718; 10718; 10718; 12106;
   10718; 10718; 10718; 10718; 10718; 10718; 10718; 10718; 10718; 10718; 10718; 10718; 10718; 10718; 10718; 12107;
   10718; 10718; 10718; 10718; 10718; 10718; 10718; 10718; 10718; 10718; 10718; 10718; 10718; 10718; 10718; 12106;
   12111; 12111; 12111; 12111; 12111; 12111; 12111; 12111; 12111; 12111; 12111; 12111; 12111; 12111; 12111; 12111;
   0; 0; 0; 10719; 0; 10720; 10721; 10721; 0; 10722; 10723; 10723; 10724; 10724; 10724; 12106;
   0; 10725; 10726; 10726; 10727; 10727; 10727; 10727; 10728; 10728; 10728; 10728; 10728; 10728; 10728; 12107;
   0; 10729; 10730; 10730; 10731; 10731; 10731; 10731; 10732; 10732; 10732; 10732; 10732; 10732; 10732; 12106;
   10733; 10733; 10733; 10733; 10733; 10733; 10733; 10733; 10733; 10733; 10733; 10733; 10733; 10733; 12108; 12108;
   0; 10734; 10735; 10735; 10736; 10736; 10736; 10736; 10737; 10737; 10737; 10737; 10737; 10737; 10737; 12106;
   10738; 10738; 10738; 10738; 10738; 10738; 10738; 10738; 10738; 10738; 10738; 10738; 10738; 10738; 10738; 12107;
   10739; 10739; 10739; 10739; 10739; 10739; 10739; 10739; 10739; 10739; 10739; 10739; 10739; 10739; 10739; 12106;
   10739; 10739; 10739; 10739; 10739; 10739; 10739; 10739; 10739; 10739; 10739; 10739; 12109; 12109; 12109; 12109;
   0; 10740; 10741; 10741; 10742; 10742; 10742; 10742; 10743; 10743; 10743; 10743; 10743; 10743; 10743; 12106;
   10744; 10744; 10744; 10744; 10744; 10744; 10744; 10744; 10744; 10744; 10744; 10744; 10744; 10744; 10744; 12107;
   10745; 10745; 10745; 10745; 10745; 10745; 10745; 10745; 10745; 10745; 10745; 10745; 10745; 10745; 10745; 12106;
   10745; 10745; 10745; 10745; 10745; 10745; 10745; 10745; 10745; 10745; 10745; 10745; 10745; 10745; 12108; 12108;
   10746; 10746; 10746; 10746; 10746; 10746; 10746; 10746; 10746; 10746; 10746; 10746; 10746; 10746; 10746; 12106;
   10746; 10746; 10746; 10746; 10746; 10746; 10746; 10746; 10746; 10746; 10746; 10746; 10746; 10746; 10746; 12107;
   10746; 10746; 10746; 10746; 10746; 10746; 10746; 10746; 10746; 10746; 10746; 10746; 10746; 10746; 10746; 12106;
   10746; 10746; 10746; 10746; 10746; 10746; 10746; 10746; 12110; 12110; 12110; 12110; 12110; 12110; 12110; 12110;
   0; 10747; 10748; 10748; 10749; 10749; 10749; 10749; 10750; 10750; 10750; 10750; 10750; 10750; 10750; 12106;
   10751; 10751; 10751; 10751; 10751; 10751; 10751; 10751; 10751; 10751; 10751; 10751; 10751; 10751; 10751; 12107;
   10752; 10752; 10752; 10752; 10752; 10752; 10752; 10752; 10752; 10752; 10752; 10752; 10752; 10752; 10752; 12106;
   10752; 10752; 10752; 10752; 10752; 10752; 10752; 10752; 10752; 10752; 10752; 10752; 10752; 10752; 12108; 12108;
   10753; 10753; 10753; 10753; 10753; 10753; 10753; 10753; 10753; 10753; 10753; 10753; 10753; 10753; 10753; 12106;
   10753; 10753; 10753; 10753; 10753; 10753; 10753; 10753; 10753; 10753; 10753; 10753; 10753; 10753; 10753; 12107;
   10753; 10753; 10753; 10753; 10753; 10753; 10753; 10753; 10753; 10753; 10753; 10753; 10753; 10753; 10753; 12106;
   10753; 10753; 10753; 10753; 10753; 10753; 10753; 10753; 10753; 10753; 10753; 10753; 12109; 12109; 12109; 12109;
   10754; 10754; 10754; 10754; 10754; 10754; 10754; 10754; 10754; 10754; 10754; 10754; 10754; 10754; 10754; 12106;
   10754; 10754; 10754; 10754; 10754; 10754; 10754; 10754; 10754; 10754; 10754; 10754; 10754; 10754; 10754; 12107;
   10754; 10754; 10754; 10754; 10754; 10754; 10754; 10754; 10754; 10754; 10754; 10754; 10754; 10754; 10754; 12106;
   10754; 10754; 10754; 10754; 10754; 10754; 10754; 10754; 10754; 10754; 10754; 10754; 10754; 10754; 12108; 12108;
   12113; 12113; 12113; 12113; 12113; 12113; 12113; 12113; 12113; 12113; 12113; 12113; 12113; 12113; 12113; 12113;
   12113; 12113; 12113; 12113; 12113; 12113; 12113; 12113; 12113; 12113; 12113; 12113; 12113; 12113; 12113; 12113;
   12113; 12113; 12113; 12113; 12113; 12113; 12113; 12113; 12113; 12113; 12113; 12113; 12113; 12113; 12113; 12113;
   12113; 12113; 12113; 12113; 12113; 12113; 12113; 12113; 12113; 12113; 12113; 12113; 12113; 12113; 12113; 12113;
   0; 0; 0; 0; 0; 0; 0; 10755; 0; 0; 0; 10756; 0; 10757; 10758; 12106;
   0; 0; 0; 10759; 0; 10760; 10761; 10761; 0; 10762; 10763; 10763; 10764; 10764; 10764; 12107;
   0; 0; 0; 10765; 0; 10766; 10767; 10767; 0; 10768; 10769; 10769; 10770; 10770; 10770; 12106;
   0; 10771; 10772; 10772; 10773; 10773; 10773; 10773; 10774; 10774; 10774; 10774; 10774; 10774; 12108; 12108;
   0; 0; 0; 10775; 0; 10776; 10777; 10777; 0; 10778; 10779; 10779; 10780; 10780; 10780; 12106;
   0; 10781; 10782; 10782; 10783; 10783; 10783; 10783; 10784; 10784; 10784; 10784; 10784; 10784; 10784; 12107;
   0; 10785; 10786; 10786; 10787; 10787; 10787; 10787; 10788; 10788; 10788; 10788; 10788; 10788; 10788; 12106;
   10789; 10789; 10789; 10789; 10789; 10789; 10789; 10789; 10789; 10789; 10789; 10789; 12109; 12109; 12109; 12109;
   0; 0; 0; 10790; 0; 10791; 10792; 10792; 0; 10793; 10794; 10794; 10795; 10795; 10795; 12106;
   0; 10796; 10797; 10797; 10798; 10798; 10798; 10798; 10799; 10799; 10799; 10799; 10799; 10799; 10799; 12107;
   0; 10800; 10801; 10801; 10802; 10802; 10802; 10802; 10803; 10803; 10803; 10803; 10803; 10803; 10803; 12106;
   10804; 10804; 10804; 10804; 10804; 10804; 10804; 10804; 10804; 10804; 10804; 10804; 10804; 10804; 12108; 12108;
   0; 10805; 10806; 10806; 10807; 10807; 10807; 10807; 10808; 10808; 10808; 10808; 10808; 10808; 10808; 12106;
   10809; 10809; 10809; 10809; 10809; 10809; 10809; 10809; 10809; 10809; 10809; 10809; 10809; 10809; 10809; 12107;
   10810; 10810; 10810; 10810; 10810; 10810; 10810; 10810; 10810; 10810; 10810; 10810; 10810; 10810; 10810; 12106;
   10810; 10810; 10810; 10810; 10810; 10810; 10810; 10810; 12110; 12110; 12110; 12110; 12110; 12110; 12110; 12110;
   0; 0; 0; 10811; 0; 10812; 10813; 10813; 0; 10814; 10815; 10815; 10816; 10816; 10816; 12106;
   0; 10817; 10818; 10818; 10819; 10819; 10819; 10819; 10820; 10820; 10820; 10820; 10820; 10820; 10820; 12107;
   0; 10821; 10822; 10822; 10823; 10823; 10823; 10823; 10824; 10824; 10824; 10824; 10824; 10824; 10824; 12106;
   10825; 10825; 10825; 10825; 10825; 10825; 10825; 10825; 10825; 10825; 10825; 10825; 10825; 10825; 12108; 12108;
   0; 10826; 10827; 10827; 10828; 10828; 10828; 10828; 10829; 10829; 10829; 10829; 10829; 10829; 10829; 12106;
   10830; 10830; 10830; 10830; 10830; 10830; 10830; 10830; 10830; 10830; 10830; 10830; 10830; 10830; 10830; 12107;
   10831; 10831; 10831; 10831; 10831; 10831; 10831; 10831; 10831; 10831; 10831; 10831; 10831; 10831; 10831; 12106;
   10831; 10831; 10831; 10831; 10831; 10831; 10831; 10831; 10831; 10831; 10831; 10831; 12109; 12109; 12109; 12109;
   0; 10832; 10833; 10833; 10834; 10834; 10834; 10834; 10835; 10835; 10835; 10835; 10835; 10835; 10835; 12106;
   10836; 10836; 10836; 10836; 10836; 10836; 10836; 10836; 10836; 10836; 10836; 10836; 10836; 10836; 10836; 12107;
   10837; 10837; 10837; 10837; 10837; 10837; 10837; 10837; 10837; 10837; 10837; 10837; 10837; 10837; 10837; 12106;
   10837; 10837; 10837; 10837; 10837; 10837; 10837; 10837; 10837; 10837; 10837; 10837; 10837; 10837; 12108; 12108;
   10838; 10838; 10838; 10838; 10838; 10838; 10838; 10838; 10838; 10838; 10838; 10838; 10838; 10838; 10838; 12106;
   10838; 10838; 10838; 10838; 10838; 10838; 10838; 10838; 10838; 10838; 10838; 10838; 10838; 10838; 10838; 12107;
   10838; 10838; 10838; 10838; 10838; 10838; 10838; 10838; 10838; 10838; 10838; 10838; 10838; 10838; 10838; 12106;
   12111; 12111; 12111; 12111; 12111; 12111; 12111; 12111; 12111; 12111; 12111; 12111; 12111; 12111; 12111; 12111;
   0; 0; 0; 10839; 0; 10840; 10841; 10841; 0; 10842; 10843; 10843; 10844; 10844; 10844; 12106;
   0; 10845; 10846; 10846; 10847; 10847; 10847; 10847; 10848; 10848; 10848; 10848; 10848; 10848; 10848; 12107;
   0; 10849; 10850; 10850; 10851; 10851; 10851; 10851; 10852; 10852; 10852; 10852; 10852; 10852; 10852; 12106;
   10853; 10853; 10853; 10853; 10853; 10853; 10853; 10853; 10853; 10853; 10853; 10853; 10853; 10853; 12108; 12108;
   0; 10854; 10855; 10855; 10856; 10856; 10856; 10856; 10857; 10857; 10857; 10857; 10857; 10857; 10857; 12106;
   10858; 10858; 10858; 10858; 10858; 10858; 10858; 10858; 10858; 10858; 10858; 10858; 10858; 10858; 10858; 12107;
   10859; 10859; 10859; 10859; 10859; 10859; 10859; 10859; 10859; 10859; 10859; 10859; 10859; 10859; 10859; 12106;
   10859; 10859; 10859; 10859; 10859; 10859; 10859; 10859; 10859; 10859; 10859; 10859; 12109; 12109; 12109; 12109;
   0; 10860; 10861; 10861; 10862; 10862; 10862; 10862; 10863; 10863; 10863; 10863; 10863; 10863; 10863; 12106;
   10864; 10864; 10864; 10864; 10864; 10864; 10864; 10864; 10864; 10864; 10864; 10864; 10864; 10864; 10864; 12107;
   10865; 10865; 10865; 10865; 10865; 10865; 10865; 10865; 10865; 10865; 10865; 10865; 10865; 10865; 10865; 12106;
   10865; 10865; 10865; 10865; 10865; 10865; 10865; 10865; 10865; 10865; 10865; 10865; 10865; 10865; 12108; 12108;
   10866; 10866; 10866; 10866; 10866; 10866; 10866; 10866; 10866; 10866; 10866; 10866; 10866; 10866; 10866; 12106;
   10866; 10866; 10866; 10866; 10866; 10866; 10866; 10866; 10866; 10866; 10866; 10866; 10866; 10866; 10866; 12107;
   10866; 10866; 10866; 10866; 10866; 10866; 10866; 10866; 10866; 10866; 10866; 10866; 10866; 10866; 10866; 12106;
   10866; 10866; 10866; 10866; 10866; 10866; 10866; 10866; 12110; 12110; 12110; 12110; 12110; 12110; 12110; 12110;
   0; 10867; 10868; 10868; 10869; 10869; 10869; 10869; 10870; 10870; 10870; 10870; 10870; 10870; 10870; 12106;
   10871; 10871; 10871; 10871; 10871; 10871; 10871; 10871; 10871; 10871; 10871; 10871; 10871; 10871; 10871; 12107;
   10872; 10872; 10872; 10872; 10872; 10872; 10872; 10872; 10872; 10872; 10872; 10872; 10872; 10872; 10872; 12106;
   10872; 10872; 10872; 10872; 10872; 10872; 10872; 10872; 10872; 10872; 10872; 10872; 10872; 10872; 12108; 12108;
   10873; 10873; 10873; 10873; 10873; 10873; 10873; 10873; 10873; 10873; 10873; 10873; 10873; 10873; 10873; 12106;
   10873; 10873; 10873; 10873; 10873; 10873; 10873; 10873; 10873; 10873; 10873; 10873; 10873; 10873; 10873; 12107;
   10873; 10873; 10873; 10873; 10873; 10873; 10873; 10873; 10873; 10873; 10873; 10873; 10873; 10873; 10873; 12106;
   10873; 10873; 10873; 10873; 10873; 10873; 10873; 10873; 10873; 10873; 10873; 10873; 12109; 12109; 12109; 12109;
   10874; 10874; 10874; 10874; 10874; 10874; 10874; 10874; 10874; 10874; 10874; 10874; 10874; 10874; 10874; 12106;
   10874; 10874; 10874; 10874; 10874; 10874; 10874; 10874; 10874; 10874; 10874; 10874; 10874; 10874; 10874; 12107;
   10874; 10874; 10874; 10874; 10874; 10874; 10874; 10874; 10874; 10874; 10874; 10874; 10874; 10874; 10874; 12106;
   10874; 10874; 10874; 10874; 10874; 10874; 10874; 10874; 10874; 10874; 10874; 10874; 10874; 10874; 12108; 12108;
   10874; 10874; 10874; 10874; 10874; 10874; 10874; 10874; 10874; 10874; 10874; 10874; 10874; 10874; 10874; 12106;
   10874; 10874; 10874; 10874; 10874; 10874; 10874; 10874; 10874; 10874; 10874; 10874; 10874; 10874; 10874; 12107;
   12112; 12112; 12112; 12112; 12112; 12112; 12112; 12112; 12112; 12112; 12112; 12112; 12112; 12112; 12112; 12112;
   12112; 12112; 12112; 12112; 12112; 12112; 12112; 12112; 12112; 12112; 12112; 12112; 12112; 12112; 12112; 12112;
   0; 0; 0; 10875; 0; 10876; 10877; 10877; 0; 10878; 10879; 10879; 10880; 10880; 10880; 12106;
   0; 10881; 10882; 10882; 10883; 10883; 10883; 10883; 10884; 10884; 10884; 10884; 10884; 10884; 10884; 12107;
   0; 10885; 10886; 10886; 10887; 10887; 10887; 10887; 10888; 10888; 10888; 10888; 10888; 10888; 10888; 12106;
   10889; 10889; 10889; 10889; 10889; 10889; 10889; 10889; 10889; 10889; 10889; 10889; 10889; 10889; 12108; 12108;
   0; 10890; 10891; 10891; 10892; 10892; 10892; 10892; 10893; 10893; 10893; 10893; 10893; 10893; 10893; 12106;
   10894; 10894; 10894; 10894; 10894; 10894; 10894; 10894; 10894; 10894; 10894; 10894; 10894; 10894; 10894; 12107;
   10895; 10895; 10895; 10895; 10895; 10895; 10895; 10895; 10895; 10895; 10895; 10895; 10895; 10895; 10895; 12106;
   10895; 10895; 10895; 10895; 10895; 10895; 10895; 10895; 10895; 10895; 10895; 10895; 12109; 12109; 12109; 12109;
   0; 10896; 10897; 10897; 10898; 10898; 10898; 10898; 10899; 10899; 10899; 10899; 10899; 10899; 10899; 12106;
   10900; 10900; 10900; 10900; 10900; 10900; 10900; 10900; 10900; 10900; 10900; 10900; 10900; 10900; 10900; 12107;
   10901; 10901; 10901; 10901; 10901; 10901; 10901; 10901; 10901; 10901; 10901; 10901; 10901; 10901; 10901; 12106;
   10901; 10901; 10901; 10901; 10901; 10901; 10901; 10901; 10901; 10901; 10901; 10901; 10901; 10901; 12108; 12108;
   10902; 10902; 10902; 10902; 10902; 10902; 10902; 10902; 10902; 10902; 10902; 10902; 10902; 10902; 10902; 12106;
   10902; 10902; 10902; 10902; 10902; 10902; 10902; 10902; 10902; 10902; 10902; 10902; 10902; 10902; 10902; 12107;
   10902; 10902; 10902; 10902; 10902; 10902; 10902; 10902; 10902; 10902; 10902; 10902; 10902; 10902; 10902; 12106;
   10902; 10902; 10902; 10902; 10902; 10902; 10902; 10902; 12110; 12110; 12110; 12110; 12110; 12110; 12110; 12110;
   0; 10903; 10904; 10904; 10905; 10905; 10905; 10905; 10906; 10906; 10906; 10906; 10906; 10906; 10906; 12106;
   10907; 10907; 10907; 10907; 10907; 10907; 10907; 10907; 10907; 10907; 10907; 10907; 10907; 10907; 10907; 12107;
   10908; 10908; 10908; 10908; 10908; 10908; 10908; 10908; 10908; 10908; 10908; 10908; 10908; 10908; 10908; 12106;
   10908; 10908; 10908; 10908; 10908; 10908; 10908; 10908; 10908; 10908; 10908; 10908; 10908; 10908; 12108; 12108;
   10909; 10909; 10909; 10909; 10909; 10909; 10909; 10909; 10909; 10909; 10909; 10909; 10909; 10909; 10909; 12106;
   10909; 10909; 10909; 10909; 10909; 10909; 10909; 10909; 10909; 10909; 10909; 10909; 10909; 10909; 10909; 12107;
   10909; 10909; 10909; 10909; 10909; 10909; 10909; 10909; 10909; 10909; 10909; 10909; 10909; 10909; 10909; 12106;
   10909; 10909; 10909; 10909; 10909; 10909; 10909; 10909; 10909; 10909; 10909; 10909; 12109; 12109; 12109; 12109;
   10910; 10910; 10910; 10910; 10910; 10910; 10910; 10910; 10910; 10910; 10910; 10910; 10910; 10910; 10910; 12106;
   10910; 10910; 10910; 10910; 10910; 10910; 10910; 10910; 10910; 10910; 10910; 10910; 10910; 10910; 10910; 12107;
   10910; 10910; 10910; 10910; 10910; 10910; 10910; 10910; 10910; 10910; 10910; 10910; 10910; 10910; 10910; 12106;
   10910; 10910; 10910; 10910; 10910; 10910; 10910; 10910; 10910; 10910; 10910; 10910; 10910; 10910; 12108; 12108;
   10910; 10910; 10910; 10910; 10910; 10910; 10910; 10910; 10910; 10910; 10910; 10910; 10910; 10910; 10910; 12106;
   10910; 10910; 10910; 10910; 10910; 10910; 10910; 10910; 10910; 10910; 10910; 10910; 10910; 10910; 10910; 12107;
   10910; 10910; 10910; 10910; 10910; 10910; 10910; 10910; 10910; 10910; 10910; 10910; 10910; 10910; 10910; 12106;
   12111; 12111; 12111; 12111; 12111; 12111; 12111; 12111; 12111; 12111; 12111; 12111; 12111; 12111; 12111; 12111;
   0; 10911; 10912; 10912; 10913; 10913; 10913; 10913; 10914; 10914; 10914; 10914; 10914; 10914; 10914; 12106;
   10915; 10915; 10915; 10915; 10915; 10915; 10915; 10915; 10915; 10915; 10915; 10915; 10915; 10915; 10915; 12107;
   10916; 10916; 10916; 10916; 10916; 10916; 10916; 10916; 10916; 10916; 10916; 10916; 10916; 10916; 10916; 12106;
   10916; 10916; 10916; 10916; 10916; 10916; 10916; 10916; 10916; 10916; 10916; 10916; 10916; 10916; 12108; 12108;
   10917; 10917; 10917; 10917; 10917; 10917; 10917; 10917; 10917; 10917; 10917; 10917; 10917; 10917; 10917; 12106;
   10917; 10917; 10917; 10917; 10917; 10917; 10917; 10917; 10917; 10917; 10917; 10917; 10917; 10917; 10917; 12107;
   10917; 10917; 10917; 10917; 10917; 10917; 10917; 10917; 10917; 10917; 10917; 10917; 10917; 10917; 10917; 12106;
   10917; 10917; 10917; 10917; 10917; 10917; 10917; 10917; 10917; 10917; 10917; 10917; 12109; 12109; 12109; 12109;
   10918; 10918; 10918; 10918; 10918; 10918; 10918; 10918; 10918; 10918; 10918; 10918; 10918; 10918; 10918; 12106;
   10918; 10918; 10918; 10918; 10918; 10918; 10918; 10918; 10918; 10918; 10918; 10918; 10918; 10918; 10918; 12107;
   10918; 10918; 10918; 10918; 10918; 10918; 10918; 10918; 10918; 10918; 10918; 10918; 10918; 10918; 10918; 12106;
   10918; 10918; 10918; 10918; 10918; 10918; 10918; 10918; 10918; 10918; 10918; 10918; 10918; 10918; 12108; 12108;
   10918; 10918; 10918; 10918; 10918; 10918; 10918; 10918; 10918; 10918; 10918; 10918; 10918; 10918; 10918; 12106;
   10918; 10918; 10918; 10918; 10918; 10918; 10918; 10918; 10918; 10918; 10918; 10918; 10918; 10918; 10918; 12107;
   10918; 10918; 10918; 10918; 10918; 10918; 10918; 10918; 10918; 10918; 10918; 10918; 10918; 10918; 10918; 12106;
   10918; 10918; 10918; 10918; 10918; 10918; 10918; 10918; 12110; 12110; 12110; 12110; 12110; 12110; 12110; 12110;
   12115; 12115; 12115; 12115; 12115; 12115; 12115; 12115; 12115; 12115; 12115; 12115; 12115; 12115; 12115; 12115;
   12115; 12115; 12115; 12115; 12115; 12115; 12115; 12115; 12115; 12115; 12115; 12115; 12115; 12115; 12115; 12115;
   12115; 12115; 12115; 12115; 12115; 12115; 12115; 12115; 12115; 12115; 12115; 12115; 12115; 12115; 12115; 12115;
   12115; 12115; 12115; 12115; 12115; 12115; 12115; 12115; 12115; 12115; 12115; 12115; 12115; 12115; 12115; 12115;
   12115; 12115; 12115; 12115; 12115; 12115; 12115; 12115; 12115; 12115; 12115; 12115; 12115; 12115; 12115; 12115;
   12115; 12115; 12115; 12115; 12115; 12115; 12115; 12115; 12115; 12115; 12115; 12115; 12115; 12115; 12115; 12115;
   12115; 12115; 12115; 12115; 12115; 12115; 12115; 12115; 12115; 12115; 12115; 12115; 12115; 12115; 12115; 12115;
   12115; 12115; 12115; 12115; 12115; 12115; 12115; 12115; 12115; 12115; 12115; 12115; 12115; 12115; 12115; 12115;
   12115; 12115; 12115; 12115; 12115; 12115; 12115; 12115; 12115; 12115; 12115; 12115; 12115; 12115; 12115; 12115;
   12115; 12115; 12115; 12115; 12115; 12115; 12115; 12115; 12115; 12115; 12115; 12115; 12115; 12115; 12115; 12115;
   12115; 12115; 12115; 12115; 12115; 12115; 12115; 12115; 12115; 12115; 12115; 12115; 12115; 12115; 12115; 12115;
   12115; 12115; 12115; 12115; 12115; 12115; 12115; 12115; 12115; 12115; 12115; 12115; 12115; 12115; 12115; 12115;
   12115; 12115; 12115; 12115; 12115; 12115; 12115; 12115; 12115; 12115; 12115; 12115; 12115; 12115; 12115; 12115;
   12115; 12115; 12115; 12115; 12115; 12115; 12115; 12115; 12115; 12115; 12115; 12115; 12115; 12115; 12115; 12115;
   12115; 12115; 12115; 12115; 12115; 12115; 12115; 12115; 12115; 12115; 12115; 12115; 12115; 12115; 12115; 12115;
   12115; 12115; 12115; 12115; 12115; 12115; 12115; 12115; 12115; 12115; 12115; 12115; 12115; 12115; 12115; 12115].

Definition pairOtherVal : list Z :=
  [0; 0; 1; 0; 2; 1; 2; 0; 3; 3; 4; 1; 5; 2; 3; 3;
   4; 6; 7; 4; 8; 5; 6; 6; 9; 7; 8; 8; 9; 9; 9; 9;
   5; 10; 11; 10; 12; 11; 12; 12; 13; 13; 14; 14; 15; 15; 15; 15;
   14; 16; 17; 17; 18; 18; 18; 18; 19; 19; 19; 19; 19; 19; 19; 19;
   6; 15; 16; 20; 17; 21; 22; 22; 18; 23; 24; 24; 25; 25; 25; 25;
   19; 26; 27; 27; 28; 28; 28; 28; 29; 29; 29; 29; 29; 29; 29; 29;
   20; 30; 31; 31; 32; 32; 32; 32; 33; 33; 33; 33; 33; 33; 33; 33;
   34; 34; 34; 34; 34; 34; 34; 34; 34; 34; 34; 34; 34; 34; 34; 34;
   7; 21; 22; 35; 23; 36; 37; 37; 24; 38; 39; 39; 40; 40; 40; 40;
   25; 41; 42; 42; 43; 43; 43; 43; 44; 44; 44; 44; 44; 44; 44; 44;
   26; 45; 46; 46; 47; 47; 47; 47; 48; 48; 48; 48; 48; 48; 48; 48;
   49; 49; 49; 49; 49; 49; 49; 49; 49; 49; 49; 49; 49; 49; 49; 49;
   27; 50; 51; 51; 52; 52; 52; 52; 53; 53; 53; 53; 53; 53; 53; 53;
   54; 54; 54; 54; 54; 54; 54; 54; 54; 54; 54; 54; 54; 54; 54; 54;
   55; 55; 55; 55; 55; 55; 55; 55; 55; 55; 55; 55; 55; 55; 55; 55;
   55; 55; 55; 55; 55; 55; 55; 55; 55; 55; 55; 55; 55; 55; 55; 55;
   8; 28; 29; 56; 30; 57; 58; 58; 31; 59; 60; 60; 61; 61; 61; 61;
   32; 62; 63; 63; 64; 64; 64; 64; 65; 65; 65; 65; 65; 65; 65; 65;
   33; 66; 67; 67; 68; 68; 68; 68; 69; 69; 69; 69; 69; 69; 69; 69;
   70; 70; 70; 70; 70; 70; 70; 70; 70; 70; 70; 70; 70; 70; 70; 70;
   34; 71; 72; 72; 73; 73; 73; 73; 74; 74; 74; 74; 74; 74; 74; 74;
   75; 75; 75; 75; 75; 75; 75; 75; 75; 75; 75; 75; 75; 75; 75; 75;
   76; 76; 76; 76; 76; 76; 76; 76; 76; 76; 76; 76; 76; 76; 76; 76;
   76; 76; 76; 76; 76; 76; 76; 76; 76; 76; 76; 76; 76; 76; 76; 76;
   35; 77; 78; 78; 79; 79; 79; 79; 80; 80; 80; 80; 80; 80; 80; 80;
   81; 81; 81; 81; 81; 81; 81; 81; 81; 81; 81; 81; 81; 81; 81; 81;
   82; 82; 82; 82; 82; 82; 82; 82; 82; 82; 82; 82; 82; 82; 82; 82;
   82; 82; 82; 82; 82; 82; 82; 82; 82; 82; 82; 82; 82; 82; 82; 82;
   83; 83; 83; 83; 83; 83; 83; 83; 83; 83; 83; 83; 83; 83; 83; 83;
   83; 83; 83; 83; 83; 83; 83; 83; 83; 83; 83; 83; 83; 83; 83; 83;
   83; 83; 83; 83; 83; 83; 83; 83; 83; 83; 83; 83; 83; 83; 83; 83;
   83; 83; 83; 83; 83; 83; 83; 83; 83; 83; 83; 83; 83; 83; 83; 83;
   9; 36; 37; 84; 38; 85; 86; 86; 39; 87; 88; 88; 89; 89; 89; 89;
   40; 90; 91; 91; 92; 92; 92; 92; 93; 93; 93; 93; 93; 93; 93; 93;
   41; 94; 95; 95; 96; 96; 96; 96; 97; 97; 97; 97; 97; 97; 97; 97;
   98; 98; 98; 98; 98; 98; 98; 98; 98; 98; 98; 98; 98; 98; 98; 98;
   42; 99; 100; 100; 101; 101; 101; 101; 102; 102; 102; 102; 102; 102; 102; 102;
   103; 103; 103; 103; 103; 103; 103; 103; 103; 103; 103; 103; 103; 103; 103; 103;
   104; 104; 104; 104; 104; 104; 104; 104; 104; 104; 104; 104; 104; 104; 104; 104;
   104; 104; 104; 104; 104; 104; 104; 104; 104; 104; 104; 104; 104; 104; 104; 104;
   43; 105; 106; 106; 107; 107; 107; 107; 108; 108; 108; 108; 108; 108; 108; 108;
   109; 109; 109; 109; 109; 109; 109; 109; 109; 109; 109; 109; 109; 109; 109; 109;
   110; 110; 110; 110; 110; 110; 110; 110; 110; 110; 110; 110; 110; 110; 110; 110;
   110; 110; 110; 110; 110; 110; 110; 110; 110; 110; 110; 110; 110; 110; 110; 110;
   111; 111; 111; 111; 111; 111; 111; 111; 111; 111; 111; 111; 111; 111; 111; 111;
   111; 111; 111; 111; 111; 111; 111; 111; 111; 111; 111; 111; 111; 111; 111; 111;
   111; 111; 111; 111; 111; 111; 111; 111; 111; 111; 111; 111; 111; 111; 111; 111;
   111; 111; 111; 111; 111; 111; 111; 111; 111; 111; 111; 111; 111; 111; 111; 111;
   44; 112; 113; 113; 114; 114; 114; 114; 115; 115; 115; 115; 115; 115; 115; 115;
   116; 116; 116; 116; 116; 116; 116; 116; 116; 116; 116; 116; 116; 116; 116; 116;
   117; 117; 117; 117; 117; 117; 117; 117; 117; 117; 117; 117; 117; 117; 117; 117;
   117; 117; 117; 117; 117; 117; 117; 117; 117; 117; 117; 117; 117; 117; 117; 117;
   118; 118; 118; 118; 118; 118; 118; 118; 118; 118; 118; 118; 118; 118; 118; 118;
   118; 118; 118; 118; 118; 118; 118; 118; 118; 118; 118; 118; 118; 118; 118; 118;
   118; 118; 118; 118; 118; 118; 118; 118; 118; 118; 118; 118; 118; 118; 118; 118;
   118; 118; 118; 118; 118; 118; 118; 118; 118; 118; 118; 118; 118; 118; 118; 118;
   119; 119; 119; 119; 119; 119; 119; 119; 119; 119; 119; 119; 119; 119; 119; 119;
   119; 119; 119; 119; 119; 119; 119; 119; 119; 119; 119; 119; 119; 119; 119; 119;
   119; 119; 119; 119; 119; 119; 119; 119; 119; 119; 119; 119; 119; 119; 119; 119;
   119; 119; 119; 119; 119; 119; 119; 119; 119; 119; 119; 119; 119; 119; 119; 119;
   119; 119; 119; 119; 119; 119; 119; 119; 119; 119; 119; 119; 119; 119; 119; 119;
   119; 119; 119; 119; 119; 119; 119; 119; 119; 119; 119; 119; 119; 119; 119; 119;
   119; 119; 119; 119; 119; 119; 119; 119; 119; 119; 119; 119; 119; 119; 119; 119;
   119; 119; 119; 119; 119; 119; 119; 119; 119; 119; 119; 119; 119; 119; 119; 119;
   10; 45; 46; 120; 47; 121; 122; 122; 48; 123; 124; 124; 125; 125; 125; 125;
   49; 126; 127; 127; 128; 128; 128; 128; 129; 129; 129; 129; 129; 129; 129; 129;
   50; 130; 131; 131; 132; 132; 132; 132; 133; 133; 133; 133; 133; 133; 133; 133;
   134; 134; 134; 134; 134; 134; 134; 134; 134; 134; 134; 134; 134; 134; 134; 134;
   51; 135; 136; 136; 137; 137; 137; 137; 138; 138; 138; 138; 138; 138; 138; 138;
   139; 139; 139; 139; 139; 139; 139; 139; 139; 139; 139; 139; 139; 139; 139; 139;
   140; 140; 140; 140; 140; 140; 140; 140; 140; 140; 140; 140; 140; 140; 140; 140;
   140; 140; 140; 140; 140; 140; 140; 140; 140; 140; 140; 140; 140; 140; 140; 140;
   52; 141; 142; 142; 143; 143; 143; 143; 144; 144; 144; 144; 144; 144; 144; 144;
   145; 145; 145; 145; 145; 145; 145; 145; 145; 145; 145; 145; 145; 145; 145; 145;
   146; 146; 146; 146; 146; 146; 146; 146; 146; 146; 146; 146; 146; 146; 146; 146;
   146; 146; 146; 146; 146; 146; 146; 146; 146; 146; 146; 146; 146; 146; 146; 146;
   147; 147; 147; 147; 147; 147; 147; 147; 147; 147; 147; 147; 147; 147; 147; 147;
   147; 147; 147; 147; 147; 147; 147; 147; 147; 147; 147; 147; 147; 147; 147; 147;
   147; 147; 147; 147; 147; 147; 147; 147; 147; 147; 147; 147; 147; 147; 147; 147;
   147; 147; 147; 147; 147; 147; 147; 147; 147; 147; 147; 147; 147; 147; 147; 147;
   53; 148; 149; 149; 150; 150; 150; 150; 151; 151; 151; 151; 151; 151; 151; 151;
   152; 152; 152; 152; 152; 152; 152; 152; 152; 152; 152; 152; 152; 152; 152; 152;
   153; 153; 153; 153; 153; 153; 153; 153; 153; 153; 153; 153; 153; 153; 153; 153;
   153; 153; 153; 153; 153; 153; 153; 153; 153; 153; 153; 153; 153; 153; 153; 153;
   154; 154; 154; 154; 154; 154; 154; 154; 154; 154; 154; 154; 154; 154; 154; 154;
   154; 154; 154; 154; 154; 154; 154; 154; 154; 154; 154; 154; 154; 154; 154; 154;
   154; 154; 154; 154; 154; 154; 154; 154; 154; 154; 154; 154; 154; 154; 154; 154;
   154; 154; 154; 154; 154; 154; 154; 154; 154; 154; 154; 154; 154; 154; 154; 154;
   155; 155; 155; 155; 155; 155; 155; 155; 155; 155; 155; 155; 155; 155; 155; 155;
   155; 155; 155; 155; 155; 155; 155; 155; 155; 155; 155; 155; 155; 155; 155; 155;
   155; 155; 155; 155; 155; 155; 155; 155; 155; 155; 155; 155; 155; 155; 155; 155;
   155; 155; 155; 155; 155; 155; 155; 155; 155; 155; 155; 155; 155; 155; 155; 155;
   155; 155; 155; 155; 155; 155; 155; 155; 155; 155; 155; 155; 155; 155; 155; 155;
   155; 155; 155; 155; 155; 155; 155; 155; 155; 155; 155; 155; 155; 155; 155; 155;
   155; 155; 155; 155; 155; 155; 155; 155; 155; 155; 155; 155; 155; 155; 155; 155;
   155; 155; 155; 155; 155; 155; 155; 155; 155; 155; 155; 155; 155; 155; 155; 155;
   54; 156; 157; 157; 158; 158; 158; 158; 159; 159; 159; 159; 159; 159; 159; 159;
   160; 160; 160; 160; 160; 160; 160; 160; 160; 160; 160; 160; 160; 160; 160; 160;
   161; 161; 161; 161; 161; 161; 161; 161; 161; 161; 161; 161; 161; 161; 161; 161;
   161; 161; 161; 161; 161; 161; 161; 161; 161; 161; 161; 161; 161; 161; 161; 161;
   162; 162; 162; 162; 162; 162; 162; 162; 162; 162; 162; 162; 162; 162; 162; 162;
   162; 162; 162; 162; 162; 162; 162; 162; 162; 162; 162; 162; 162; 162; 162; 162;
   162; 162; 162; 162; 162; 162; 162; 162; 162; 162; 162; 162; 162; 162; 162; 162;
   162; 162; 162; 162; 162; 162; 162; 162; 162; 162; 162; 162; 162; 162; 162; 162;
   163; 163; 163; 163; 163; 163; 163; 163; 163; 163; 163; 163; 163; 163; 163; 163;
   163; 163; 163; 163; 163; 163; 163; 163; 163; 163; 163; 163; 163; 163; 163; 163;
   163; 163; 163; 163; 163; 163; 163; 163; 163; 163; 163; 163; 163; 163; 163; 163;
   163; 163; 163; 163; 163; 163; 163; 163; 163; 163; 163; 163; 163; 163; 163; 163;
   163; 163; 163; 163; 163; 163; 163; 163; 163; 163; 163; 163; 163; 163; 163; 163;
   163; 163; 163; 163; 163; 163; 163; 163; 163; 163; 163; 163; 163; 163; 163; 163;
   163; 163; 163; 163; 163; 163; 163; 163; 163; 163; 163; 163; 163; 163; 163; 163;
   163; 163; 163; 163; 163; 163; 163; 163; 163; 163; 163; 163; 163; 163; 163; 163;
   164; 164; 164; 164; 164; 164; 164; 164; 164; 164; 164; 164; 164; 164; 164; 164;
   164; 164; 164; 164; 164; 164; 164; 164; 164; 164; 164; 164; 164; 164; 164; 164;
   164; 164; 164; 164; 164; 164; 164; 164; 164; 164; 164; 164; 164; 164; 164; 164;
   164; 164; 164; 164; 164; 164; 164; 164; 164; 164; 164; 164; 164; 164; 164; 164;
   164; 164; 164; 164; 164; 164; 164; 164; 164; 164; 164; 164; 164; 164; 164; 164;
   164; 164; 164; 164; 164; 164; 164; 164; 164; 164; 164; 164; 164; 164; 164; 164;
   164; 164; 164; 164; 164; 164; 164; 164; 164; 164; 164; 164; 164; 164; 164; 164;
   164; 164; 164; 164; 164; 164; 164; 164; 164; 164; 164; 164; 164; 164; 164; 164;
   164; 164; 164; 164; 164; 164; 164; 164; 164; 164; 164; 164; 164; 164; 164; 164;
   164; 164; 164; 164; 164; 164; 164; 164; 164; 164; 164; 164; 164; 164; 164; 164;
   164; 164; 164; 164; 164; 164; 164; 164; 164; 164; 164; 164; 164; 164; 164; 164;
   164; 164; 164; 164; 164; 164; 164; 164; 164; 164; 164; 164; 164; 164; 164; 164;
   164; 164; 164; 164; 164; 164; 164; 164; 164; 164; 164; 164; 164; 164; 164; 164;
   164; 164; 164; 164; 164; 164; 164; 164; 164; 164; 164; 164; 164; 164; 164; 164;
   164; 164; 164; 164; 164; 164; 164; 164; 164; 164; 164; 164; 164; 164; 164; 164;
   164; 164; 164; 164; 164; 164; 164; 164; 164; 164; 164; 164; 164; 164; 164; 164;
   11; 55; 56; 165; 57; 166; 167; 167; 58; 168; 169; 169; 170; 170; 170; 170;
   59; 171; 172; 172; 173; 173; 173; 173; 174; 174; 174; 174; 174; 174; 174; 174;
   60; 175; 176; 176; 177; 177; 177; 177; 178; 178; 178; 178; 178; 178; 178; 178;
   179; 179; 179; 179; 179; 179; 179; 179; 179; 179; 179; 179; 179; 179; 179; 179;
   61; 180; 181; 181; 182; 182; 182; 182; 183; 183; 183; 183; 183; 183; 183; 183;
   184; 184; 184; 184; 184; 184; 184; 184; 184; 184; 184; 184; 184; 184; 184; 184;
   185; 185; 185; 185; 185; 185; 185; 185; 185; 185; 185; 185; 185; 185; 185; 185;
   185; 185; 185; 185; 185; 185; 185; 185; 185; 185; 185; 185; 185; 185; 185; 185;
   62; 186; 187; 187; 188; 188; 188; 188; 189; 189; 189; 189; 189; 189; 189; 189;
   190; 190; 190; 190; 190; 190; 190; 190; 190; 190; 190; 190; 190; 190; 190; 190;
   191; 191; 191; 191; 191; 191; 191; 191; 191; 191; 191; 191; 191; 191; 191; 191;
   191; 191; 191; 191; 191; 191; 191; 191; 191; 191; 191; 191; 191; 191; 191; 191;
   192; 192; 192; 192; 192; 192; 192; 192; 192; 192; 192; 192; 192; 192; 192; 192;
   192; 192; 192; 192; 192; 192; 192; 192; 192; 192; 192; 192; 192; 192; 192; 192;
   192; 192; 192; 192; 192; 192; 192; 192; 192; 192; 192; 192; 192; 192; 192; 192;
   192; 192; 192; 192; 192; 192; 192; 192; 192; 192; 192; 192; 192; 192; 192; 192;
   63; 193; 194; 194; 195; 195; 195; 195; 196; 196; 196; 196; 196; 196; 196; 196;
   197; 197; 197; 197; 197; 197; 197; 197; 197; 197; 197; 197; 197; 197; 197; 197;
   198; 198; 198; 198; 198; 198; 198; 198; 198; 198; 198; 198; 198; 198; 198; 198;
   198; 198; 198; 198; 198; 198; 198; 198; 198; 198; 198; 198; 198; 198; 198; 198;
   199; 199; 199; 199; 199; 199; 199; 199; 199; 199; 199; 199; 199; 199; 199; 199;
   199; 199; 199; 199; 199; 199; 199; 199; 199; 199; 199; 199; 199; 199; 199; 199;
   199; 199; 199; 199; 199; 199; 199; 199; 199; 199; 199; 199; 199; 199; 199; 199;
   199; 199; 199; 199; 199; 199; 199; 199; 199; 199; 199; 199; 199; 199; 199; 199;
   200; 200; 200; 200; 200; 200; 200; 200; 200; 200; 200; 200; 200; 200; 200; 200;
   200; 200; 200; 200; 200; 200; 200; 200; 200; 200; 200; 200; 200; 200; 200; 200;
   200; 200; 200; 200; 200; 200; 200; 200; 200; 200; 200; 200; 200; 200; 200; 200;
   200; 200; 200; 200; 200; 200; 200; 200; 200; 200; 200; 200; 200; 200; 200; 200;
   200; 200; 200; 200; 200; 200; 200; 200; 200; 200; 200; 200; 200; 200; 200; 200;
   200; 200; 200; 200; 200; 200; 200; 200; 200; 200; 200; 200; 200; 200; 200; 200;
   200; 200; 200; 200; 200; 200; 200; 200; 200; 200; 200; 200; 200; 200; 200; 200;
   200; 200; 200; 200; 200; 200; 200; 200; 200; 200; 200; 200; 200; 200; 200; 200;
   64; 201; 202; 202; 203; 203; 203; 203; 204; 204; 204; 204; 204; 204; 204; 204;
   205; 205; 205; 205; 205; 205; 205; 205; 205; 205; 205; 205; 205; 205; 205; 205;
   206; 206; 206; 206; 206; 206; 206; 206; 206; 206; 206; 206; 206; 206; 206; 206;
   206; 206; 206; 206; 206; 206; 206; 206; 206; 206; 206; 206; 206; 206; 206; 206;
   207; 207; 207; 207; 207; 207; 207; 207; 207; 207; 207; 207; 207; 207; 207; 207;
   207; 207; 207; 207; 207; 207; 207; 207; 207; 207; 207; 207; 207; 207; 207; 207;
   207; 207; 207; 207; 207; 207; 207; 207; 207; 207; 207; 207; 207; 207; 207; 207;
   207; 207; 207; 207; 207; 207; 207; 207; 207; 207; 207; 207; 207; 207; 207; 207;
   208; 208; 208; 208; 208; 208; 208; 208; 208; 208; 208; 208; 208; 208; 208; 208;
   208; 208; 208; 208; 208; 208; 208; 208; 208; 208; 208; 208; 208; 208; 208; 208;
   208; 208; 208; 208; 208; 208; 208; 208; 208; 208; 208; 208; 208; 208; 208; 208;
   208; 208; 208; 208; 208; 208; 208; 208; 208; 208; 208; 208; 208; 208; 208; 208;
   208; 208; 208; 208; 208; 208; 208; 208; 208; 208; 208; 208; 208; 208; 208; 208;
   208; 208; 208; 208; 208; 208; 208; 208; 208; 208; 208; 208; 208; 208; 208; 208;
   208; 208; 208; 208; 208; 208; 208; 208; 208; 208; 208; 208; 208; 208; 208; 208;
   208; 208; 208; 208; 208; 208; 208; 208; 208; 208; 208; 208; 208; 208; 208; 208;
   209; 209; 209; 209; 209; 209; 209; 209; 209; 209; 209; 209; 209; 209; 209; 209;
   209; 209; 209; 209; 209; 209; 209; 209; 209; 209; 209; 209; 209; 209; 209; 209;
   209; 209; 209; 209; 209; 209; 209; 209; 209; 209; 209; 209; 209; 209; 209; 209;
   209; 209; 209; 209; 209; 209; 209; 209; 209; 209; 209; 209; 209; 209; 209; 209;
   209; 209; 209; 209; 209; 209; 209; 209; 209; 209; 209; 209; 209; 209; 209; 209;
   209; 209; 209; 209; 209; 209; 209; 209; 209; 209; 209; 209; 209; 209; 209; 209;
   209; 209; 209; 209; 209; 209; 209; 209; 209; 209; 209; 209; 209; 209; 209; 209;
   209; 209; 209; 209; 209; 209; 209; 209; 209; 209; 209; 209; 209; 209; 209; 209;
   209; 209; 209; 209; 209; 209; 209; 209; 209; 209; 209; 209; 209; 209; 209; 209;
   209; 209; 209; 209; 209; 209; 209; 209; 209; 209; 209; 209; 209; 209; 209; 209;
   209; 209; 209; 209; 209; 209; 209; 209; 209; 209; 209; 209; 209; 209; 209; 209;
   209; 209; 209; 209; 209; 209; 209; 209; 209; 209; 209; 209; 209; 209; 209; 209;
   209; 209; 209; 209; 209; 209; 209; 209; 209; 209; 209; 209; 209; 209; 209; 209;
   209; 209; 209; 209; 209; 209; 209; 209; 209; 209; 209; 209; 209; 209; 209; 209;
   209; 209; 209; 209; 209; 209; 209; 209; 209; 209; 209; 209; 209; 209; 209; 209;
   209; 209; 209; 209; 209; 209; 209; 209; 209; 209; 209; 209; 209; 209; 209; 209;
   65; 210; 211; 211; 212; 212; 212; 212; 213; 213; 213; 213; 213; 213; 213; 213;
   214; 214; 214; 214; 214; 214; 214; 214; 214; 214; 214; 214; 214; 214; 214; 214;
   215; 215; 215; 215; 215; 215; 215; 215; 215; 215; 215; 215; 215; 215; 215; 215;
   215; 215; 215; 215; 215; 215; 215; 215; 215; 215; 215; 215; 215; 215; 215; 215;
   216; 216; 216; 216; 216; 216; 216; 216; 216; 216; 216; 216; 216; 216; 216; 216;
   216; 216; 216; 216; 216; 216; 216; 216; 216; 216; 216; 216; 216; 216; 216; 216;
   216; 216; 216; 216; 216; 216; 216; 216; 216; 216; 216; 216; 216; 216; 216; 216;
   216; 216; 216; 216; 216; 216; 216; 216; 216; 216; 216; 216; 216; 216; 216; 216;
   217; 217; 217; 217; 217; 217; 217; 217; 217; 217; 217; 217; 217; 217; 217; 217;
   217; 217; 217; 217; 217; 217; 217; 217; 217; 217; 217; 217; 217; 217; 217; 217;
   217; 217; 217; 217; 217; 217; 217; 217; 217; 217; 217; 217; 217; 217; 217; 217;
   217; 217; 217; 217; 217; 217; 217; 217; 217; 217; 217; 217; 217; 217; 217; 217;
   217; 217; 217; 217; 217; 217; 217; 217; 217; 217; 217; 217; 217; 217; 217; 217;
   217; 217; 217; 217; 217; 217; 217; 217; 217; 217; 217; 217; 217; 217; 217; 217;
   217; 217; 217; 217; 217; 217; 217; 217; 217; 217; 217; 217; 217; 217; 217; 217;
   217; 217; 217; 217; 217; 217; 217; 217; 217; 217; 217; 217; 217; 217; 217; 217;
   218; 218; 218; 218; 218; 218; 218; 218; 218; 218; 218; 218; 218; 218; 218; 218;
   218; 218; 218; 218; 218; 218; 218; 218; 218; 218; 218; 218; 218; 218; 218; 218;
   218; 218; 218; 218; 218; 218; 218; 218; 218; 218; 218; 218; 218; 218; 218; 218;
   218; 218; 218; 218; 218; 218; 218; 218; 218; 218; 218; 218; 218; 218; 218; 218;
   218; 218; 218; 218; 218; 218; 218; 218; 218; 218; 218; 218; 218; 218; 218; 218;
   218; 218; 218; 218; 218; 218; 218; 218; 218; 218; 218; 218; 218; 218; 218; 218;
   218; 218; 218; 218; 218; 218; 218; 218; 218; 218; 218; 218; 218; 218; 218; 218;
   218; 218; 218; 218; 218; 218; 218; 218; 218; 218; 218; 218; 218; 218; 218; 218;
   218; 218; 218; 218; 218; 218; 218; 218; 218; 218; 218; 218; 218; 218; 218; 218;
   218; 218; 218; 218; 218; 218; 218; 218; 218; 218; 218; 218; 218; 218; 218; 218;
   218; 218; 218; 218; 218; 218; 218; 218; 218; 218; 218; 218; 218; 218; 218; 218;
   218; 218; 218; 218; 218; 218; 218; 218; 218; 218; 218; 218; 218; 218; 218; 218;
   218; 218; 218; 218; 218; 218; 218; 218; 218; 218; 218; 218; 218; 218; 218; 218;
   218; 218; 218; 218; 218; 218; 218; 218; 218; 218; 218; 218; 218; 218; 218; 218;
   218; 218; 218; 218; 218; 218; 218; 218; 218; 218; 218; 218; 218; 218; 218; 218;
   218; 218; 218; 218; 218; 218; 218; 218; 218; 218; 218; 218; 218; 218; 218; 218;
   219; 219; 219; 219; 219; 219; 219; 219; 219; 219; 219; 219; 219; 219; 219; 219;
   219; 219; 219; 219; 219; 219; 219; 219; 219; 219; 219; 219; 219; 219; 219; 219;
   219; 219; 219; 219; 219; 219; 219; 219; 219; 219; 219; 219; 219; 219; 219; 219;
   219; 219; 219; 219; 219; 219; 219; 219; 219; 219; 219; 219; 219; 219; 219; 219;
   219; 219; 219; 219; 219; 219; 219; 219; 219; 219; 219; 219; 219; 219; 219; 219;
   219; 219; 219; 219; 219; 219; 219; 219; 219; 219; 219; 219; 219; 219; 219; 219;
   219; 219; 219; 219; 219; 219; 219; 219; 219; 219; 219; 219; 219; 219; 219; 219;
   219; 219; 219; 219; 219; 219; 219; 219; 219; 219; 219; 219; 219; 219; 219; 219;
   219; 219; 219; 219; 219; 219; 219; 219; 219; 219; 219; 219; 219; 219; 219; 219;
   219; 219; 219; 219; 219; 219; 219; 219; 219; 219; 219; 219; 219; 219; 219; 219;
   219; 219; 219; 219; 219; 219; 219; 219; 219; 219; 219; 219; 219; 219; 219; 219;
   219; 219; 219; 219; 219; 219; 219; 219; 219; 219; 219; 219; 219; 219; 219; 219;
   219; 219; 219; 219; 219; 219; 219; 219; 219; 219; 219; 219; 219; 219; 219; 219;
   219; 219; 219; 219; 219; 219; 219; 219; 219; 219; 219; 219; 219; 219; 219; 219;
   219; 219; 219; 219; 219; 219; 219; 219; 219; 219; 219; 219; 219; 219; 219; 219;
   219; 219; 219; 219; 219; 219; 219; 219; 219; 219; 219; 219; 219; 219; 219; 219;
   219; 219; 219; 219; 219; 219; 219; 219; 219; 219; 219; 219; 219; 219; 219; 219;
   219; 219; 219; 219; 219; 219; 219; 219; 219; 219; 219; 219; 219; 219; 219; 219;
   219; 219; 219; 219; 219; 219; 219; 219; 219; 219; 219; 219; 219; 219; 219; 219;
   219; 219; 219; 219; 219; 219; 219; 219; 219; 219; 219; 219; 219; 219; 219; 219;
   219; 219; 219; 219; 219; 219; 219; 219; 219; 219; 219; 219; 219; 219; 219; 219;
   219; 219; 219; 219; 219; 219; 219; 219; 219; 219; 219; 219; 219; 219; 219; 219;
   219; 219; 219; 219; 219; 219; 219; 219; 219; 219; 219; 219; 219; 219; 219; 219;
   219; 219; 219; 219; 219; 219; 219; 219; 219; 219; 219; 219; 219; 219; 219; 219;
   219; 219; 219; 219; 219; 219; 219; 219; 219; 219; 219; 219; 219; 219; 219; 219;
   219; 219; 219; 219; 219; 219; 219; 219; 219; 219; 219; 219; 219; 219; 219; 219;
   219; 219; 219; 219; 219; 219; 219; 219; 219; 219; 219; 219; 219; 219; 219; 219;
   219; 219; 219; 219; 219; 219; 219; 219; 219; 219; 219; 219; 219; 219; 219; 219;
   219; 219; 219; 219; 219; 219; 219; 219; 219; 219; 219; 219; 219; 219; 219; 219;
   219; 219; 219; 219; 219; 219; 219; 219; 219; 219; 219; 219; 219; 219; 219; 219;
   219; 219; 219; 219; 219; 219; 219; 219; 219; 219; 219; 219; 219; 219; 219; 219;
   219; 219; 219; 219; 219; 219; 219; 219; 219; 219; 219; 219; 219; 219; 219; 219;
   12; 66; 67; 220; 68; 221; 222; 222; 69; 223; 224; 224; 225; 225; 225; 225;
   70; 226; 227; 227; 228; 228; 228; 228; 229; 229; 229; 229; 229; 229; 229; 229;
   71; 230; 231; 231; 232; 232; 232; 232; 233; 233; 233; 233; 233; 233; 233; 233;
   234; 234; 234; 234; 234; 234; 234; 234; 234; 234; 234; 234; 234; 234; 234; 234;
   72; 235; 236; 236; 237; 237; 237; 237; 238; 238; 238; 238; 238; 238; 238; 238;
   239; 239; 239; 239; 239; 239; 239; 239; 239; 239; 239; 239; 239; 239; 239; 239;
   240; 240; 240; 240; 240; 240; 240; 240; 240; 240; 240; 240; 240; 240; 240; 240;
   240; 240; 240; 240; 240; 240; 240; 240; 240; 240; 240; 240; 240; 240; 240; 240;
   73; 241; 242; 242; 243; 243; 243; 243; 244; 244; 244; 244; 244; 244; 244; 244;
   245; 245; 245; 245; 245; 245; 245; 245; 245; 245; 245; 245; 245; 245; 245; 245;
   246; 246; 246; 246; 246; 246; 246; 246; 246; 246; 246; 246; 246; 246; 246; 246;
   246; 246; 246; 246; 246; 246; 246; 246; 246; 246; 246; 246; 246; 246; 246; 246;
   247; 247; 247; 247; 247; 247; 247; 247; 247; 247; 247; 247; 247; 247; 247; 247;
   247; 247; 247; 247; 247; 247; 247; 247; 247; 247; 247; 247; 247; 247; 247; 247;
   247; 247; 247; 247; 247; 247; 247; 247; 247; 247; 247; 247; 247; 247; 247; 247;
   247; 247; 247; 247; 247; 247; 247; 247; 247; 247; 247; 247; 247; 247; 247; 247;
   74; 248; 249; 249; 250; 250; 250; 250; 251; 251; 251; 251; 251; 251; 251; 251;
   252; 252; 252; 252; 252; 252; 252; 252; 252; 252; 252; 252; 252; 252; 252; 252;
   253; 253; 253; 253; 253; 253; 253; 253; 253; 253; 253; 253; 253; 253; 253; 253;
   253; 253; 253; 253; 253; 253; 253; 253; 253; 253; 253; 253; 253; 253; 253; 253;
   254; 254; 254; 254; 254; 254; 254; 254; 254; 254; 254; 254; 254; 254; 254; 254;
   254; 254; 254; 254; 254; 254; 254; 254; 254; 254; 254; 254; 254; 254; 254; 254;
   254; 254; 254; 254; 254; 254; 254; 254; 254; 254; 254; 254; 254; 254; 254; 254;
   254; 254; 254; 254; 254; 254; 254; 254; 254; 254; 254; 254; 254; 254; 254; 254;
   255; 255; 255; 255; 255; 255; 255; 255; 255; 255; 255; 255; 255; 255; 255; 255;
   255; 255; 255; 255; 255; 255; 255; 255; 255; 255; 255; 255; 255; 255; 255; 255;
   255; 255; 255; 255; 255; 255; 255; 255; 255; 255; 255; 255; 255; 255; 255; 255;
   255; 255; 255; 255; 255; 255; 255; 255; 255; 255; 255; 255; 255; 255; 255; 255;
   255; 255; 255; 255; 255; 255; 255; 255; 255; 255; 255; 255; 255; 255; 255; 255;
   255; 255; 255; 255; 255; 255; 255; 255; 255; 255; 255; 255; 255; 255; 255; 255;
   255; 255; 255; 255; 255; 255; 255; 255; 255; 255; 255; 255; 255; 255; 255; 255;
   255; 255; 255; 255; 255; 255; 255; 255; 255; 255; 255; 255; 255; 255; 255; 255;
   75; 256; 257; 257; 258; 258; 258; 258; 259; 259; 259; 259; 259; 259; 259; 259;
   260; 260; 260; 260; 260; 260; 260; 260; 260; 260; 260; 260; 260; 260; 260; 260;
   261; 261; 261; 261; 261; 261; 261; 261; 261; 261; 261; 261; 261; 261; 261; 261;
   261; 261; 261; 261; 261; 261; 261; 261; 261; 261; 261; 261; 261; 261; 261; 261;
   262; 262; 262; 262; 262; 262; 262; 262; 262; 262; 262; 262; 262; 262; 262; 262;
   262; 262; 262; 262; 262; 262; 262; 262; 262; 262; 262; 262; 262; 262; 262; 262;
   262; 262; 262; 262; 262; 262; 262; 262; 262; 262; 262; 262; 262; 262; 262; 262;
   262; 262; 262; 262; 262; 262; 262; 262; 262; 262; 262; 262; 262; 262; 262; 262;
   263; 263; 263; 263; 263; 263; 263; 263; 263; 263; 263; 263; 263; 263; 263; 263;
   263; 263; 263; 263; 263; 263; 263; 263; 263; 263; 263; 263; 263; 263; 263; 263;
   263; 263; 263; 263; 263; 263; 263; 263; 263; 263; 263; 263; 263; 263; 263; 263;
   263; 263; 263; 263; 263; 263; 263; 263; 263; 263; 263; 263; 263; 263; 263; 263;
   263; 263; 263; 263; 263; 263; 263; 263; 263; 263; 263; 263; 263; 263; 263; 263;
   263; 263; 263; 263; 263; 263; 263; 263; 263; 263; 263; 263; 263; 263; 263; 263;
   263; 263; 263; 263; 263; 263; 263; 263; 263; 263; 263; 263; 263; 263; 263; 263;
   263; 263; 263; 263; 263; 263; 263; 263; 263; 263; 263; 263; 263; 263; 263; 263;
   264; 264; 264; 264; 264; 264; 264; 264; 264; 264; 264; 264; 264; 264; 264; 264;
   264; 264; 264; 264; 264; 264; 264; 264; 264; 264; 264; 264; 264; 264; 264; 264;
   264; 264; 264; 264; 264; 264; 264; 264; 264; 264; 264; 264; 264; 264; 264; 264;
   264; 264; 264; 264; 264; 264; 264; 264; 264; 264; 264; 264; 264; 264; 264; 264;
   264; 264; 264; 264; 264; 264; 264; 264; 264; 264; 264; 264; 264; 264; 264; 264;
   264; 264; 264; 264; 264; 264; 264; 264; 264; 264; 264; 264; 264; 264; 264; 264;
   264; 264; 264; 264; 264; 264; 264; 264; 264; 264; 264; 264; 264; 264; 264; 264;
   264; 264; 264; 264; 264; 264; 264; 264; 264; 264; 264; 264; 264; 264; 264; 264;
   264; 264; 264; 264; 264; 264; 264; 264; 264; 264; 264; 264; 264; 264; 264; 264;
   264; 264; 264; 264; 264; 264; 264; 264; 264; 264; 264; 264; 264; 264; 264; 264;
   264; 264; 264; 264; 264; 264; 264; 264; 264; 264; 264; 264; 264; 264; 264; 264;
   264; 264; 264; 264; 264; 264; 264; 264; 264; 264; 264; 264; 264; 264; 264; 264;
   264; 264; 264; 264; 264; 264; 264; 264; 264; 264; 264; 264; 264; 264; 264; 264;
   264; 264; 264; 264; 264; 264; 264; 264; 264; 264; 264; 264; 264; 264; 264; 264;
   264; 264; 264; 264; 264; 264; 264; 264; 264; 264; 264; 264; 264; 264; 264; 264;
   264; 264; 264; 264; 264; 264; 264; 264; 264; 264; 264; 264; 264; 264; 264; 264;
   76; 265; 266; 266; 267; 267; 267; 267; 268; 268; 268; 268; 268; 268; 268; 268;
   269; 269; 269; 269; 269; 269; 269; 269; 269; 269; 269; 269; 269; 269; 269; 269;
   270; 270; 270; 270; 270; 270; 270; 270; 270; 270; 270; 270; 270; 270; 270; 270;
   270; 270; 270; 270; 270; 270; 270; 270; 270; 270; 270; 270; 270; 270; 270; 270;
   271; 271; 271; 271; 271; 271; 271; 271; 271; 271; 271; 271; 271; 271; 271; 271;
   271; 271; 271; 271; 271; 271; 271; 271; 271; 271; 271; 271; 271; 271; 271; 271;
   271; 271; 271; 271; 271; 271; 271; 271; 271; 271; 271; 271; 271; 271; 271; 271;
   271; 271; 271; 271; 271; 271; 271; 271; 271; 271; 271; 271; 271; 271; 271; 271;
   272; 272; 272; 272; 272; 272; 272; 272; 272; 272; 272; 272; 272; 272; 272; 272;
   272; 272; 272; 272; 272; 272; 272; 272; 272; 272; 272; 272; 272; 272; 272; 272;
   272; 272; 272; 272; 272; 272; 272; 272; 272; 272; 272; 272; 272; 272; 272; 272;
   272; 272; 272; 272; 272; 272; 272; 272; 272; 272; 272; 272; 272; 272; 272; 272;
   272; 272; 272; 272; 272; 272; 272; 272; 272; 272; 272; 272; 272; 272; 272; 272;
   272; 272; 272; 272; 272; 272; 272; 272; 272; 272; 272; 272; 272; 272; 272; 272;
   272; 272; 272; 272; 272; 272; 272; 272; 272; 272; 272; 272; 272; 272; 272; 272;
   272; 272; 272; 272; 272; 272; 272; 272; 272; 272; 272; 272; 272; 272; 272; 272;
   273; 273; 273; 273; 273; 273; 273; 273; 273; 273; 273; 273; 273; 273; 273; 273;
   273; 273; 273; 273; 273; 273; 273; 273; 273; 273; 273; 273; 273; 273; 273; 273;
   273; 273; 273; 273; 273; 273; 273; 273; 273; 273; 273; 273; 273; 273; 273; 273;
   273; 273; 273; 273; 273; 273; 273; 273; 273; 273; 273; 273; 273; 273; 273; 273;
   273; 273; 273; 273; 273; 273; 273; 273; 273; 273; 273; 273; 273; 273; 273; 273;
   273; 273; 273; 273; 273; 273; 273; 273; 273; 273; 273; 273; 273; 273; 273; 273;
   273; 273; 273; 273; 273; 273; 273; 273; 273; 273; 273; 273; 273; 273; 273; 273;
   273; 273; 273; 273; 273; 273; 273; 273; 273; 273; 273; 273; 273; 273; 273; 273;
   273; 273; 273; 273; 273; 273; 273; 273; 273; 273; 273; 273; 273; 273; 273; 273;
   273; 273; 273; 273; 273; 273; 273; 273; 273; 273; 273; 273; 273; 273; 273; 273;
   273; 273; 273; 273; 273; 273; 273; 273; 273; 273; 273; 273; 273; 273; 273; 273;
   273; 273; 273; 273; 273; 273; 273; 273; 273; 273; 273; 273; 273; 273; 273; 273;
   273; 273; 273; 273; 273; 273; 273; 273; 273; 273; 273; 273; 273; 273; 273; 273;
   273; 273; 273; 273; 273; 273; 273; 273; 273; 273; 273; 273; 273; 273; 273; 273;
   273; 273; 273; 273; 273; 273; 273; 273; 273; 273; 273; 273; 273; 273; 273; 273;
   273; 273; 273; 273; 273; 273; 273; 273; 273; 273; 273; 273; 273; 273; 273; 273;
   274; 274; 274; 274; 274; 274; 274; 274; 274; 274; 274; 274; 274; 274; 274; 274;
   274; 274; 274; 274; 274; 274; 274; 274; 274; 274; 274; 274; 274; 274; 274; 274;
   274; 274; 274; 274; 274; 274; 274; 274; 274; 274; 274; 274; 274; 274; 274; 274;
   274; 274; 274; 274; 274; 274; 274; 274; 274; 274; 274; 274; 274; 274; 274; 274;
   274; 274; 274; 274; 274; 274; 274; 274; 274; 274; 274; 274; 274; 274; 274; 274;
   274; 274; 274; 274; 274; 274; 274; 274; 274; 274; 274; 274; 274; 274; 274; 274;
   274; 274; 274; 274; 274; 274; 274; 274; 274; 274; 274; 274; 274; 274; 274; 274;
   274; 274; 274; 274; 274; 274; 274; 274; 274; 274; 274; 274; 274; 274; 274; 274;
   274; 274; 274; 274; 274; 274; 274; 274; 274; 274; 274; 274; 274; 274; 274; 274;
   274; 274; 274; 274; 274; 274; 274; 274; 274; 274; 274; 274; 274; 274; 274; 274;
   274; 274; 274; 274; 274; 274; 274; 274; 274; 274; 274; 274; 274; 274; 274; 274;
   274; 274; 274; 274; 274; 274; 274; 274; 274; 274; 274; 274; 274; 274; 274; 274;
   274; 274; 274; 274; 274; 274; 274; 274; 274; 274; 274; 274; 274; 274; 274; 274;
   274; 274; 274; 274; 274; 274; 274; 274; 274; 274; 274; 274; 274; 274; 274; 274;
   274; 274; 274; 274; 274; 274; 274; 274; 274; 274; 274; 274; 274; 274; 274; 274;
   274; 274; 274; 274; 274; 274; 274; 274; 274; 274; 274; 274; 274; 274; 274; 274;
   274; 274; 274; 274; 274; 274; 274; 274; 274; 274; 274; 274; 274; 274; 274; 274;
   274; 274; 274; 274; 274; 274; 274; 274; 274; 274; 274; 274; 274; 274; 274; 274;
   274; 274; 274; 274; 274; 274; 274; 274; 274; 274; 274; 274; 274; 274; 274; 274;
   274; 274; 274; 274; 274; 274; 274; 274; 274; 274; 274; 274; 274; 274; 274; 274;
   274; 274; 274; 274; 274; 274; 274; 274; 274; 274; 274; 274; 274; 274; 274; 274;
   274; 274; 274; 274; 274; 274; 274; 274; 274; 274; 274; 274; 274; 274; 274; 274;
   274; 274; 274; 274; 274; 274; 274; 274; 274; 274; 274; 274; 274; 274; 274; 274;
   274; 274; 274; 274; 274; 274; 274; 274; 274; 274; 274; 274; 274; 274; 274; 274;
   274; 274; 274; 274; 274; 274; 274; 274; 274; 274; 274; 274; 274; 274; 274; 274;
   274; 274; 274; 274; 274; 274; 274; 274; 274; 274; 274; 274; 274; 274; 274; 274;
   274; 274; 274; 274; 274; 274; 274; 274; 274; 274; 274; 274; 274; 274; 274; 274;
   274; 274; 274; 274; 274; 274; 274; 274; 274; 274; 274; 274; 274; 274; 274; 274;
   274; 274; 274; 274; 274; 274; 274; 274; 274; 274; 274; 274; 274; 274; 274; 274;
   274; 274; 274; 274; 274; 274; 274; 274; 274; 274; 274; 274; 274; 274; 274; 274;
   274; 274; 274; 274; 274; 274; 274; 274; 274; 274; 274; 274; 274; 274; 274; 274;
   274; 274; 274; 274; 274; 274; 274; 274; 274; 274; 274; 274; 274; 274; 274; 274;
   77; 275; 276; 276; 277; 277; 277; 277; 278; 278; 278; 278; 278; 278; 278; 278;
   279; 279; 279; 279; 279; 279; 279; 279; 279; 279; 279; 279; 279; 279; 279; 279;
   280; 280; 280; 280; 280; 280; 280; 280; 280; 280; 280; 280; 280; 280; 280; 280;
   280; 280; 280; 280; 280; 280; 280; 280; 280; 280; 280; 280; 280; 280; 280; 280;
   281; 281; 281; 281; 281; 281; 281; 281; 281; 281; 281; 281; 281; 281; 281; 281;
   281; 281; 281; 281; 281; 281; 281; 281; 281; 281; 281; 281; 281; 281; 281; 281;
   281; 281; 281; 281; 281; 281; 281; 281; 281; 281; 281; 281; 281; 281; 281; 281;
   281; 281; 281; 281; 281; 281; 281; 281; 281; 281; 281; 281; 281; 281; 281; 281;
   282; 282; 282; 282; 282; 282; 282; 282; 282; 282; 282; 282; 282; 282; 282; 282;
   282; 282; 282; 282; 282; 282; 282; 282; 282; 282; 282; 282; 282; 282; 282; 282;
   282; 282; 282; 282; 282; 282; 282; 282; 282; 282; 282; 282; 282; 282; 282; 282;
   282; 282; 282; 282; 282; 282; 282; 282; 282; 282; 282; 282; 282; 282; 282; 282;
   282; 282; 282; 282; 282; 282; 282; 282; 282; 282; 282; 282; 282; 282; 282; 282;
   282; 282; 282; 282; 282; 282; 282; 282; 282; 282; 282; 282; 282; 282; 282; 282;
   282; 282; 282; 282; 282; 282; 282; 282; 282; 282; 282; 282; 282; 282; 282; 282;
   282; 282; 282; 282; 282; 282; 282; 282; 282; 282; 282; 282; 282; 282; 282; 282;
   283; 283; 283; 283; 283; 283; 283; 283; 283; 283; 283; 283; 283; 283; 283; 283;
   283; 283; 283; 283; 283; 283; 283; 283; 283; 283; 283; 283; 283; 283; 283; 283;
   283; 283; 283; 283; 283; 283; 283; 283; 283; 283; 283; 283; 283; 283; 283; 283;
   283; 283; 283; 283; 283; 283; 283; 283; 283; 283; 283; 283; 283; 283; 283; 283;
   283; 283; 283; 283; 283; 283; 283; 283; 283; 283; 283; 283; 283; 283; 283; 283;
   283; 283; 283; 283; 283; 283; 283; 283; 283; 283; 283; 283; 283; 283; 283; 283;
   283; 283; 283; 283; 283; 283; 283; 283; 283; 283; 283; 283; 283; 283; 283; 283;
   283; 283; 283; 283; 283; 283; 283; 283; 283; 283; 283; 283; 283; 283; 283; 283;
   283; 283; 283; 283; 283; 283; 283; 283; 283; 283; 283; 283; 283; 283; 283; 283;
   283; 283; 283; 283; 283; 283; 283; 283; 283; 283; 283; 283; 283; 283; 283; 283;
   283; 283; 283; 283; 283; 283; 283; 283; 283; 283; 283; 283; 283; 283; 283; 283;
   283; 283; 283; 283; 283; 283; 283; 283; 283; 283; 283; 283; 283; 283; 283; 283;
   283; 283; 283; 283; 283; 283; 283; 283; 283; 283; 283; 283; 283; 283; 283; 283;
   283; 283; 283; 283; 283; 283; 283; 283; 283; 283; 283; 283; 283; 283; 283; 283;
   283; 283; 283; 283; 283; 283; 283; 283; 283; 283; 283; 283; 283; 283; 283; 283;
   283; 283; 283; 283; 283; 283; 283; 283; 283; 283; 283; 283; 283; 283; 283; 283;
   284; 284; 284; 284; 284; 284; 284; 284; 284; 284; 284; 284; 284; 284; 284; 284;
   284; 284; 284; 284; 284; 284; 284; 284; 284; 284; 284; 284; 284; 284; 284; 284;
   284; 284; 284; 284; 284; 284; 284; 284; 284; 284; 284; 284; 284; 284; 284; 284;
   284; 284; 284; 284; 284; 284; 284; 284; 284; 284; 284; 284; 284; 284; 284; 284;
   284; 284; 284; 284; 284; 284; 284; 284; 284; 284; 284; 284; 284; 284; 284; 284;
   284; 284; 284; 284; 284; 284; 284; 284; 284; 284; 284; 284; 284; 284; 284; 284;
   284; 284; 284; 284; 284; 284; 284; 284; 284; 284; 284; 284; 284; 284; 284; 284;
   284; 284; 284; 284; 284; 284; 284; 284; 284; 284; 284; 284; 284; 284; 284; 284;
   284; 284; 284; 284; 284; 284; 284; 284; 284; 284; 284; 284; 284; 284; 284; 284;
   284; 284; 284; 284; 284; 284; 284; 284; 284; 284; 284; 284; 284; 284; 284; 284;
   284; 284; 284; 284; 284; 284; 284; 284; 284; 284; 284; 284; 284; 284; 284; 284;
   284; 284; 284; 284; 284; 284; 284; 284; 284; 284; 284; 284; 284; 284; 284; 284;
   284; 284; 284; 284; 284; 284; 284; 284; 284; 284; 284; 284; 284; 284; 284; 284;
   284; 284; 284; 284; 284; 284; 284; 284; 284; 284; 284; 284; 284; 284; 284; 284;
   284; 284; 284; 284; 284; 284; 284; 284; 284; 284; 284; 284; 284; 284; 284; 284;
   284; 284; 284; 284; 284; 284; 284; 284; 284; 284; 284; 284; 284; 284; 284; 284;
   284; 284; 284; 284; 284; 284; 284; 284; 284; 284; 284; 284; 284; 284; 284; 284;
   284; 284; 284; 284; 284; 284; 284; 284; 284; 284; 284; 284; 284; 284; 284; 284;
   284; 284; 284; 284; 284; 284; 284; 284; 284; 284; 284; 284; 284; 284; 284; 284;
   284; 284; 284; 284; 284; 284; 284; 284; 284; 284; 284; 284; 284; 284; 284; 284;
   284; 284; 284; 284; 284; 284; 284; 284; 284; 284; 284; 284; 284; 284; 284; 284;
   284; 284; 284; 284; 284; 284; 284; 284; 284; 284; 284; 284; 284; 284; 284; 284;
   284; 284; 284; 284; 284; 284; 284; 284; 284; 284; 284; 284; 284; 284; 284; 284;
   284; 284; 284; 284; 284; 284; 284; 284; 284; 284; 284; 284; 284; 284; 284; 284;
   284; 284; 284; 284; 284; 284; 284; 284; 284; 284; 284; 284; 284; 284; 284; 284;
   284; 284; 284; 284; 284; 284; 284; 284; 284; 284; 284; 284; 284; 284; 284; 284;
   284; 284; 284; 284; 284; 284; 284; 284; 284; 284; 284; 284; 284; 284; 284; 284;
   284; 284; 284; 284; 284; 284; 284; 284; 284; 284; 284; 284; 284; 284; 284; 284;
   284; 284; 284; 284; 284; 284; 284; 284; 284; 284; 284; 284; 284; 284; 284; 284;
   284; 284; 284; 284; 284; 284; 284; 284; 284; 284; 284; 284; 284; 284; 284; 284;
   284; 284; 284; 284; 284; 284; 284; 284; 284; 284; 284; 284; 284; 284; 284; 284;
   284; 284; 284; 284; 284; 284; 284; 284; 284; 284; 284; 284; 284; 284; 284; 284;
   285; 285; 285; 285; 285; 285; 285; 285; 285; 285; 285; 285; 285; 285; 285; 285;
   285; 285; 285; 285; 285; 285; 285; 285; 285; 285; 285; 285; 285; 285; 285; 285;
   285; 285; 285; 285; 285; 285; 285; 285; 285; 285; 285; 285; 285; 285; 285; 285;
   285; 285; 285; 285; 285; 285; 285; 285; 285; 285; 285; 285; 285; 285; 285; 285;
   285; 285; 285; 285; 285; 285; 285; 285; 285; 285; 285; 285; 285; 285; 285; 285;
   285; 285; 285; 285; 285; 285; 285; 285; 285; 285; 285; 285; 285; 285; 285; 285;
   285; 285; 285; 285; 285; 285; 285; 285; 285; 285; 285; 285; 285; 285; 285; 285;
   285; 285; 285; 285; 285; 285; 285; 285; 285; 285; 285; 285; 285; 285; 285; 285;
   285; 285; 285; 285; 285; 285; 285; 285; 285; 285; 285; 285; 285; 285; 285; 285;
   285; 285; 285; 285; 285; 285; 285; 285; 285; 285; 285; 285; 285; 285; 285; 285;
   285; 285; 285; 285; 285; 285; 285; 285; 285; 285; 285; 285; 285; 285; 285; 285;
   285; 285; 285; 285; 285; 285; 285; 285; 285; 285; 285; 285; 285; 285; 285; 285;
   285; 285; 285; 285; 285; 285; 285; 285; 285; 285; 285; 285; 285; 285; 285; 285;
   285; 285; 285; 285; 285; 285; 285; 285; 285; 285; 285; 285; 285; 285; 285; 285;
   285; 285; 285; 285; 285; 285; 285; 285; 285; 285; 285; 285; 285; 285; 285; 285;
   285; 285; 285; 285; 285; 285; 285; 285; 285; 285; 285; 285; 285; 285; 285; 285;
   285; 285; 285; 285; 285; 285; 285; 285; 285; 285; 285; 285; 285; 285; 285; 285;
   285; 285; 285; 285; 285; 285; 285; 285; 285; 285; 285; 285; 285; 285; 285; 285;
   285; 285; 285; 285; 285; 285; 285; 285; 285; 285; 285; 285; 285; 285; 285; 285;
   285; 285; 285; 285; 285; 285; 285; 285; 285; 285; 285; 285; 285; 285; 285; 285;
   285; 285; 285; 285; 285; 285; 285; 285; 285; 285; 285; 285; 285; 285; 285; 285;
   285; 285; 285; 285; 285; 285; 285; 285; 285; 285; 285; 285; 285; 285; 285; 285;
   285; 285; 285; 285; 285; 285; 285; 285; 285; 285; 285; 285; 285; 285; 285; 285;
   285; 285; 285; 285; 285; 285; 285; 285; 285; 285; 285; 285; 285; 285; 285; 285;
   285; 285; 285; 285; 285; 285; 285; 285; 285; 285; 285; 285; 285; 285; 285; 285;
   285; 285; 285; 285; 285; 285; 285; 285; 285; 285; 285; 285; 285; 285; 285; 285;
   285; 285; 285; 285; 285; 285; 285; 285; 285; 285; 285; 285; 285; 285; 285; 285;
   285; 285; 285; 285; 285; 285; 285; 285; 285; 285; 285; 285; 285; 285; 285; 285;
   285; 285; 285; 285; 285; 285; 285; 285; 285; 285; 285; 285; 285; 285; 285; 285;
   285; 285; 285; 285; 285; 285; 285; 285; 285; 285; 285; 285; 285; 285; 285; 285;
   285; 285; 285; 285; 285; 285; 285; 285; 285; 285; 285; 285; 285; 285; 285; 285;
   285; 285; 285; 285; 285; 285; 285; 285; 285; 285; 285; 285; 285; 285; 285; 285;
   285; 285; 285; 285; 285; 285; 285; 285; 285; 285; 285; 285; 285; 285; 285; 285;
   285; 285; 285; 285; 285; 285; 285; 285; 285; 285; 285; 285; 285; 285; 285; 285;
   285; 285; 285; 285; 285; 285; 285; 285; 285; 285; 285; 285; 285; 285; 285; 285;
   285; 285; 285; 285; 285; 285; 285; 285; 285; 285; 285; 285; 285; 285; 285; 285;
   285; 285; 285; 285; 285; 285; 285; 285; 285; 285; 285; 285; 285; 285; 285; 285;
   285; 285; 285; 285; 285; 285; 285; 285; 285; 285; 285; 285; 285; 285; 285; 285;
   285; 285; 285; 285; 285; 285; 285; 285; 285; 285; 285; 285; 285; 285; 285; 285;
   285; 285; 285; 285; 285; 285; 285; 285; 285; 285; 285; 285; 285; 285; 285; 285;
   285; 285; 285; 285; 285; 285; 285; 285; 285; 285; 285; 285; 285; 285; 285; 285;
   285; 285; 285; 285; 285; 285; 285; 285; 285; 285; 285; 285; 285; 285; 285; 285;
   285; 285; 285; 285; 285; 285; 285; 285; 285; 285; 285; 285; 285; 285; 285; 285;
   285; 285; 285; 285; 285; 285; 285; 285; 285; 285; 285; 285; 285; 285; 285; 285;
   285; 285; 285; 285; 285; 285; 285; 285; 285; 285; 285; 285; 285; 285; 285; 285;
   285; 285; 285; 285; 285; 285; 285; 285; 285; 285; 285; 285; 285; 285; 285; 285;
   285; 285; 285; 285; 285; 285; 285; 285; 285; 285; 285; 285; 285; 285; 285; 285;
   285; 285; 285; 285; 285; 285; 285; 285; 285; 285; 285; 285; 285; 285; 285; 285;
   285; 285; 285; 285; 285; 285; 285; 285; 285; 285; 285; 285; 285; 285; 285; 285;
   285; 285; 285; 285; 285; 285; 285; 285; 285; 285; 285; 285; 285; 285; 285; 285;
   285; 285; 285; 285; 285; 285; 285; 285; 285; 285; 285; 285; 285; 285; 285; 285;
   285; 285; 285; 285; 285; 285; 285; 285; 285; 285; 285; 285; 285; 285; 285; 285;
   285; 285; 285; 285; 285; 285; 285; 285; 285; 285; 285; 285; 285; 285; 285; 285;
   285; 285; 285; 285; 285; 285; 285; 285; 285; 285; 285; 285; 285; 285; 285; 285;
   285; 285; 285; 285; 285; 285; 285; 285; 285; 285; 285; 285; 285; 285; 285; 285;
   285; 285; 285; 285; 285; 285; 285; 285; 285; 285; 285; 285; 285; 285; 285; 285;
   285; 285; 285; 285; 285; 285; 285; 285; 285; 285; 285; 285; 285; 285; 285; 285;
   285; 285; 285; 285; 285; 285; 285; 285; 285; 285; 285; 285; 285; 285; 285; 285;
   285; 285; 285; 285; 285; 285; 285; 285; 285; 285; 285; 285; 285; 285; 285; 285;
   285; 285; 285; 285; 285; 285; 285; 285; 285; 285; 285; 285; 285; 285; 285; 285;
   285; 285; 285; 285; 285; 285; 285; 285; 285; 285; 285; 285; 285; 285; 285; 285;
   285; 285; 285; 285; 285; 285; 285; 285; 285; 285; 285; 285; 285; 285; 285; 285;
   285; 285; 285; 285; 285; 285; 285; 285; 285; 285; 285; 285; 285; 285; 285; 285;
   285; 285; 285; 285; 285; 285; 285; 285; 285; 285; 285; 285; 285; 285; 285; 285].

Definition anySuitVal : list Z :=
  [0; 0; 1; 0; 2; 1; 2; 0; 3; 3; 4; 1; 5; 2; 3; 0;
   4; 6; 7; 4; 8; 5; 6; 1; 9; 7; 8; 2; 9; 3; 4; 9624;
   5; 10; 11; 10; 12; 11; 12; 5; 13; 13; 14; 6; 15; 7; 8; 1;
   14; 16; 17; 9; 18; 10; 11; 2; 19; 12; 13; 3; 14; 4; 9625; 9625;
   6; 15; 16; 20; 17; 21; 22; 15; 18; 23; 24; 16; 25; 17; 18; 6;
   19; 26; 27; 19; 28; 20; 21; 7; 29; 22; 23; 8; 24; 9; 10; 9624;
   20; 30; 31; 25; 32; 26; 27; 11; 33; 28; 29; 12; 30; 13; 14; 14;
   34; 31; 32; 15; 33; 16; 17; 17; 34; 18; 19; 19; 9626; 9626; 9626; 9626;
   7; 21; 22; 35; 23; 36; 37; 35; 24; 38; 39; 36; 40; 37; 38; 21;
   25; 41; 42; 39; 43; 40; 41; 22; 44; 42; 43; 23; 44; 24; 25; 9624;
   26; 45; 46; 45; 47; 46; 47; 26; 48; 48; 49; 27; 50; 28; 29; 29;
   49; 51; 52; 30; 53; 31; 32; 32; 54; 33; 34; 34; 35; 35; 9625; 9625;
   27; 50; 51; 55; 52; 56; 57; 36; 53; 58; 59; 37; 60; 38; 39; 39;
   54; 61; 62; 40; 63; 41; 42; 42; 64; 43; 44; 44; 45; 45; 45; 9624;
   55; 65; 66; 46; 67; 47; 48; 48; 68; 49; 50; 50; 51; 51; 51; 51;
   69; 52; 53; 53; 54; 54; 54; 54; 9627; 9627; 9627; 9627; 9627; 9627; 9627; 9627;
   8; 28; 29; 56; 30; 57; 58; 70; 31; 59; 60; 71; 61; 72; 73; 56;
   32; 62; 63; 74; 64; 75; 76; 57; 65; 77; 78; 58; 79; 59; 60; 9624;
   33; 66; 67; 80; 68; 81; 82; 61; 69; 83; 84; 62; 85; 63; 64; 64;
   70; 86; 87; 65; 88; 66; 67; 67; 89; 68; 69; 69; 70; 70; 9625; 9625;
   34; 71; 72; 90; 73; 91; 92; 71; 74; 93; 94; 72; 95; 73; 74; 74;
   75; 96; 97; 75; 98; 76; 77; 77; 99; 78; 79; 79; 80; 80; 80; 9624;
   76; 100; 101; 81; 102; 82; 83; 83; 103; 84; 85; 85; 86; 86; 86; 86;
   104; 87; 88; 88; 89; 89; 89; 89; 90; 90; 90; 90; 9626; 9626; 9626; 9626;
   35; 77; 78; 105; 79; 106; 107; 91; 80; 108; 109; 92; 110; 93; 94; 94;
   81; 111; 112; 95; 113; 96; 97; 97; 114; 98; 99; 99; 100; 100; 100; 9624;
   82; 115; 116; 101; 117; 102; 103; 103; 118; 104; 105; 105; 106; 106; 106; 106;
   119; 107; 108; 108; 109; 109; 109; 109; 110; 110; 110; 110; 110; 110; 9625; 9625;
   83; 120; 121; 111; 122; 112; 113; 113; 123; 114; 115; 115; 116; 116; 116; 116;
   124; 117; 118; 118; 119; 119; 119; 119; 120; 120; 120; 120; 120; 120; 120; 9624;
   125; 121; 122; 122; 123; 123; 123; 123; 124; 124; 124; 124; 124; 124; 124; 124;
   9628; 9628; 9628; 9628; 9628; 9628; 9628; 9628; 9628; 9628; 9628; 9628; 9628; 9628; 9628; 9628;
   9; 36; 37; 84; 38; 85; 86; 126; 39; 87; 88; 127; 89; 128; 129; 126;
   40; 90; 91; 130; 92; 131; 132; 127; 93; 133; 134; 128; 135; 129; 130; 9624;
   41; 94; 95; 136; 96; 137; 138; 131; 97; 139; 140; 132; 141; 133; 134; 134;
   98; 142; 143; 135; 144; 136; 137; 137; 145; 138; 139; 139; 140; 140; 9625; 9625;
   42; 99; 100; 146; 101; 147; 148; 141; 102; 149; 150; 142; 151; 143; 144; 144;
   103; 152; 153; 145; 154; 146; 147; 147; 155; 148; 149; 149; 150; 150; 150; 9624;
   104; 156; 157; 151; 158; 152; 153; 153; 159; 154; 155; 155; 156; 156; 156; 156;
   160; 157; 158; 158; 159; 159; 159; 159; 160; 160; 160; 160; 9626; 9626; 9626; 9626;
   43; 105; 106; 161; 107; 162; 163; 161; 108; 164; 165; 162; 166; 163; 164; 164;
   109; 167; 168; 165; 169; 166; 167; 167; 170; 168; 169; 169; 170; 170; 170; 9624;
   110; 171; 172; 171; 173; 172; 173; 173; 174; 174; 175; 175; 176; 176; 176; 176;
   175; 177; 178; 178; 179; 179; 179; 179; 180; 180; 180; 180; 180; 180; 9625; 9625;
   111; 176; 177; 181; 178; 182; 183; 183; 179; 184; 185; 185; 186; 186; 186; 186;
   180; 187; 188; 188; 189; 189; 189; 189; 190; 190; 190; 190; 190; 190; 190; 9624;
   181; 191; 192; 192; 193; 193; 193; 193; 194; 194; 194; 194; 194; 194; 194; 194;
   195; 195; 195; 195; 195; 195; 195; 195; 9627; 9627; 9627; 9627; 9627; 9627; 9627; 9627;
   44; 112; 113; 182; 114; 183; 184; 196; 115; 185; 186; 197; 187; 198; 199; 199;
   116; 188; 189; 200; 190; 201; 202; 202; 191; 203; 204; 204; 205; 205; 205; 9624;
   117; 192; 193; 206; 194; 207; 208; 208; 195; 209; 210; 210; 211; 211; 211; 211;
   196; 212; 213; 213; 214; 214; 214; 214; 215; 215; 215; 215; 215; 215; 9625; 9625;
   118; 197; 198; 216; 199; 217; 218; 218; 200; 219; 220; 220; 221; 221; 221; 221;
   201; 222; 223; 223; 224; 224; 224; 224; 225; 225; 225; 225; 225; 225; 225; 9624;
   202; 226; 227; 227; 228; 228; 228; 228; 229; 229; 229; 229; 229; 229; 229; 229;
   230; 230; 230; 230; 230; 230; 230; 230; 230; 230; 230; 230; 9626; 9626; 9626; 9626;
   119; 203; 204; 231; 205; 232; 233; 233; 206; 234; 235; 235; 236; 236; 236; 236;
   207; 237; 238; 238; 239; 239; 239; 239; 240; 240; 240; 240; 240; 240; 240; 9624;
   208; 241; 242; 242; 243; 243; 243; 243; 244; 244; 244; 244; 244; 244; 244; 244;
   245; 245; 245; 245; 245; 245; 245; 245; 245; 245; 245; 245; 245; 245; 9625; 9625;
   209; 246; 247; 247; 248; 248; 248; 248; 249; 249; 249; 249; 249; 249; 249; 249;
   250; 250; 250; 250; 250; 250; 250; 250; 250; 250; 250; 250; 250; 250; 250; 9624;
   9629; 9629; 9629; 9629; 9629; 9629; 9629; 9629; 9629; 9629; 9629; 9629; 9629; 9629; 9629; 9629;
   9629; 9629; 9629; 9629; 9629; 9629; 9629; 9629; 9629; 9629; 9629; 9629; 9629; 9629; 9629; 9629;
   10; 45; 46; 120; 47; 121; 122; 210; 48; 123; 124; 211; 125; 212; 213; 252;
   49; 126; 127; 214; 128; 215; 216; 253; 129; 217; 218; 254; 219; 255; 256; 9624;
   50; 130; 131; 220; 132; 221; 222; 257; 133; 223; 224; 258; 225; 259; 260; 260;
   134; 226; 227; 261; 228; 262; 263; 263; 229; 264; 265; 265; 266; 266; 9625; 9625;
   51; 135; 136; 230; 137; 231; 232; 267; 138; 233; 234; 268; 235; 269; 270; 270;
   139; 236; 237; 271; 238; 272; 273; 273; 239; 274; 275; 275; 276; 276; 276; 9624;
   140; 240; 241; 277; 242; 278; 279; 279; 243; 280; 281; 281; 282; 282; 282; 282;
   244; 283; 284; 284; 285; 285; 285; 285; 286; 286; 286; 286; 9626; 9626; 9626; 9626;
   52; 141; 142; 245; 143; 246; 247; 287; 144; 248; 249; 288; 250; 289; 290; 290;
   145; 251; 252; 291; 253; 292; 293; 293; 254; 294; 295; 295; 296; 296; 296; 9624;
   146; 255; 256; 297; 257; 298; 299; 299; 258; 300; 301; 301; 302; 302; 302; 302;
   259; 303; 304; 304; 305; 305; 305; 305; 306; 306; 306; 306; 306; 306; 9625; 9625;
   147; 260; 261; 307; 262; 308; 309; 309; 263; 310; 311; 311; 312; 312; 312; 312;
   264; 313; 314; 314; 315; 315; 315; 315; 316; 316; 316; 316; 316; 316; 316; 9624;
   265; 317; 318; 318; 319; 319; 319; 319; 320; 320; 320; 320; 320; 320; 320; 320;
   321; 321; 321; 321; 321; 321; 321; 321; 9627; 9627; 9627; 9627; 9627; 9627; 9627; 9627;
   53; 148; 149; 266; 150; 267; 268; 322; 151; 269; 270; 323; 271; 324; 325; 325;
   152; 272; 273; 326; 274; 327; 328; 328; 275; 329; 330; 330; 331; 331; 331; 9624;
   153; 276; 277; 332; 278; 333; 334; 334; 279; 335; 336; 336; 337; 337; 337; 337;
   280; 338; 339; 339; 340; 340; 340; 340; 341; 341; 341; 341; 341; 341; 9625; 9625;
   154; 281; 282; 342; 283; 343; 344; 344; 284; 345; 346; 346; 347; 347; 347; 347;
   285; 348; 349; 349; 350; 350; 350; 350; 351; 351; 351; 351; 351; 351; 351; 9624;
   286; 352; 353; 353; 354; 354; 354; 354; 355; 355; 355; 355; 355; 355; 355; 355;
   356; 356; 356; 356; 356; 356; 356; 356; 356; 356; 356; 356; 9626; 9626; 9626; 9626;
   155; 287; 288; 357; 289; 358; 359; 359; 290; 360; 361; 361; 362; 362; 362; 362;
   291; 363; 364; 364; 365; 365; 365; 365; 366; 366; 366; 366; 366; 366; 366; 9624;
   292; 367; 368; 368; 369; 369; 369; 369; 370; 370; 370; 370; 370; 370; 370; 370;
   371; 371; 371; 371; 371; 371; 371; 371; 371; 371; 371; 371; 371; 371; 9625; 9625;
   293; 372; 373; 373; 374; 374; 374; 374; 375; 375; 375; 375; 375; 375; 375; 375;
   376; 376; 376; 376; 376; 376; 376; 376; 376; 376; 376; 376; 376; 376; 376; 9624;
   377; 377; 377; 377; 377; 377; 377; 377; 377; 377; 377; 377; 377; 377; 377; 377;
   9628; 9628; 9628; 9628; 9628; 9628; 9628; 9628; 9628; 9628; 9628; 9628; 9628; 9628; 9628; 9628;
   54; 156; 157; 294; 158; 295; 296; 378; 159; 297; 298; 379; 299; 380; 381; 381;
   160; 300; 301; 382; 302; 383; 384; 384; 303; 385; 386; 386; 387; 387; 387; 9624;
   161; 304; 305; 388; 306; 389; 390; 390; 307; 391; 392; 392; 393; 393; 393; 393;
   308; 394; 395; 395; 396; 396; 396; 396; 397; 397; 397; 397; 397; 397; 9625; 9625;
   162; 309; 310; 398; 311; 399; 400; 400; 312; 401; 402; 402; 403; 403; 403; 403;
   313; 404; 405; 405; 406; 406; 406; 406; 407; 407; 407; 407; 407; 407; 407; 9624;
   314; 408; 409; 409; 410; 410; 410; 410; 411; 411; 411; 411; 411; 411; 411; 411;
   412; 412; 412; 412; 412; 412; 412; 412; 412; 412; 412; 412; 9626; 9626; 9626; 9626;
   163; 315; 316; 413; 317; 414; 415; 415; 318; 416; 417; 417; 418; 418; 418; 418;
   319; 419; 420; 420; 421; 421; 421; 421; 422; 422; 422; 422; 422; 422; 422; 9624;
   320; 423; 424; 424; 425; 425; 425; 425; 426; 426; 426; 426; 426; 426; 426; 426;
   427; 427; 427; 427; 427; 427; 427; 427; 427; 427; 427; 427; 427; 427; 9625; 9625;
   321; 428; 429; 429; 430; 430; 430; 430; 431; 431; 431; 431; 431; 431; 431; 431;
   432; 432; 432; 432; 432; 432; 432; 432; 432; 432; 432; 432; 432; 432; 432; 9624;
   433; 433; 433; 433; 433; 433; 433; 433; 433; 433; 433; 433; 433; 433; 433; 433;
   433; 433; 433; 433; 433; 433; 433; 433; 9627; 9627; 9627; 9627; 9627; 9627; 9627; 9627;
   164; 322; 323; 434; 324; 435; 436; 436; 325; 437; 438; 438; 439; 439; 439; 439;
   326; 440; 441; 441; 442; 442; 442; 442; 443; 443; 443; 443; 443; 443; 443; 9624;
   327; 444; 445; 445; 446; 446; 446; 446; 447; 447; 447; 447; 447; 447; 447; 447;
   448; 448; 448; 448; 448; 448; 448; 448; 448; 448; 448; 448; 448; 448; 9625; 9625;
   328; 449; 450; 450; 451; 451; 451; 451; 452; 452; 452; 452; 452; 452; 452; 452;
   453; 453; 453; 453; 453; 453; 453; 453; 453; 453; 453; 453; 453; 453; 453; 9624;
   454; 454; 454; 454; 454; 454; 454; 454; 454; 454; 454; 454; 454; 454; 454; 454;
   454; 454; 454; 454; 454; 454; 454; 454; 454; 454; 454; 454; 9626; 9626; 9626; 9626;
   329; 455; 456; 456; 457; 457; 457; 457; 458; 458; 458; 458; 458; 458; 458; 458;
   459; 459; 459; 459; 459; 459; 459; 459; 459; 459; 459; 459; 459; 459; 459; 9624;
   460; 460; 460; 460; 460; 460; 460; 460; 460; 460; 460; 460; 460; 460; 460; 460;
   460; 460; 460; 460; 460; 460; 460; 460; 460; 460; 460; 460; 460; 460; 9625; 9625;
   9630; 9630; 9630; 9630; 9630; 9630; 9630; 9630; 9630; 9630; 9630; 9630; 9630; 9630; 9630; 9630;
   9630; 9630; 9630; 9630; 9630; 9630; 9630; 9630; 9630; 9630; 9630; 9630; 9630; 9630; 9630; 9630;
   9630; 9630; 9630; 9630; 9630; 9630; 9630; 9630; 9630; 9630; 9630; 9630; 9630; 9630; 9630; 9630;
   9630; 9630; 9630; 9630; 9630; 9630; 9630; 9630; 9630; 9630; 9630; 9630; 9630; 9630; 9630; 9630;
   11; 55; 56; 165; 57; 166; 167; 330; 58; 168; 169; 331; 170; 332; 333; 462;
   59; 171; 172; 334; 173; 335; 336; 463; 174; 337; 338; 464; 339; 465; 466; 9624;
   60; 175; 176; 340; 177; 341; 342; 467; 178; 343; 344; 468; 345; 469; 470; 470;
   179; 346; 347; 471; 348; 472; 473; 473; 349; 474; 475; 475; 476; 476; 9625; 9625;
   61; 180; 181; 350; 182; 351; 352; 477; 183; 353; 354; 478; 355; 479; 480; 480;
   184; 356; 357; 481; 358; 482; 483; 483; 359; 484; 485; 485; 486; 486; 486; 9624;
   185; 360; 361; 487; 362; 488; 489; 489; 363; 490; 491; 491; 492; 492; 492; 492;
   364; 493; 494; 494; 495; 495; 495; 495; 496; 496; 496; 496; 9626; 9626; 9626; 9626;
   62; 186; 187; 365; 188; 366; 367; 497; 189; 368; 369; 498; 370; 499; 500; 500;
   190; 371; 372; 501; 373; 502; 503; 503; 374; 504; 505; 505; 506; 506; 506; 9624;
   191; 375; 376; 507; 377; 508; 509; 509; 378; 510; 511; 511; 512; 512; 512; 512;
   379; 513; 514; 514; 515; 515; 515; 515; 516; 516; 516; 516; 516; 516; 9625; 9625;
   192; 380; 381; 517; 382; 518; 519; 519; 383; 520; 521; 521; 522; 522; 522; 522;
   384; 523; 524; 524; 525; 525; 525; 525; 526; 526; 526; 526; 526; 526; 526; 9624;
   385; 527; 528; 528; 529; 529; 529; 529; 530; 530; 530; 530; 530; 530; 530; 530;
   531; 531; 531; 531; 531; 531; 531; 531; 9627; 9627; 9627; 9627; 9627; 9627; 9627; 9627;
   63; 193; 194; 386; 195; 387; 388; 532; 196; 389; 390; 533; 391; 534; 535; 535;
   197; 392; 393; 536; 394; 537; 538; 538; 395; 539; 540; 540; 541; 541; 541; 9624;
   198; 396; 397; 542; 398; 543; 544; 544; 399; 545; 546; 546; 547; 547; 547; 547;
   400; 548; 549; 549; 550; 550; 550; 550; 551; 551; 551; 551; 551; 551; 9625; 9625;
   199; 401; 402; 552; 403; 553; 554; 554; 404; 555; 556; 556; 557; 557; 557; 557;
   405; 558; 559; 559; 560; 560; 560; 560; 561; 561; 561; 561; 561; 561; 561; 9624;
   406; 562; 563; 563; 564; 564; 564; 564; 565; 565; 565; 565; 565; 565; 565; 565;
   566; 566; 566; 566; 566; 566; 566; 566; 566; 566; 566; 566; 9626; 9626; 9626; 9626;
   200; 407; 408; 567; 409; 568; 569; 569; 410; 570; 571; 571; 572; 572; 572; 572;
   411; 573; 574; 574; 575; 575; 575; 575; 576; 576; 576; 576; 576; 576; 576; 9624;
   412; 577; 578; 578; 579; 579; 579; 579; 580; 580; 580; 580; 580; 580; 580; 580;
   581; 581; 581; 581; 581; 581; 581; 581; 581; 581; 581; 581; 581; 581; 9625; 9625;
   413; 582; 583; 583; 584; 584; 584; 584; 585; 585; 585; 585; 585; 585; 585; 585;
   586; 586; 586; 586; 586; 586; 586; 586; 586; 586; 586; 586; 586; 586; 586; 9624;
   587; 587; 587; 587; 587; 587; 587; 587; 587; 587; 587; 587; 587; 587; 587; 587;
   9628; 9628; 9628; 9628; 9628; 9628; 9628; 9628; 9628; 9628; 9628; 9628; 9628; 9628; 9628; 9628;
   64; 201; 202; 414; 203; 415; 416; 588; 204; 417; 418; 589; 419; 590; 591; 591;
   205; 420; 421; 592; 422; 593; 594; 594; 423; 595; 596; 596; 597; 597; 597; 9624;
   206; 424; 425; 598; 426; 599; 600; 600; 427; 601; 602; 602; 603; 603; 603; 603;
   428; 604; 605; 605; 606; 606; 606; 606; 607; 607; 607; 607; 607; 607; 9625; 9625;
   207; 429; 430; 608; 431; 609; 610; 610; 432; 611; 612; 612; 613; 613; 613; 613;
   433; 614; 615; 615; 616; 616; 616; 616; 617; 617; 617; 617; 617; 617; 617; 9624;
   434; 618; 619; 619; 620; 620; 620; 620; 621; 621; 621; 621; 621; 621; 621; 621;
   622; 622; 622; 622; 622; 622; 622; 622; 622; 622; 622; 622; 9626; 9626; 9626; 9626;
   208; 435; 436; 623; 437; 624; 625; 625; 438; 626; 627; 627; 628; 628; 628; 628;
   439; 629; 630; 630; 631; 631; 631; 631; 632; 632; 632; 632; 632; 632; 632; 9624;
   440; 633; 634; 634; 635; 635; 635; 635; 636; 636; 636; 636; 636; 636; 636; 636;
   637; 637; 637; 637; 637; 637; 637; 637; 637; 637; 637; 637; 637; 637; 9625; 9625;
   441; 638; 639; 639; 640; 640; 640; 640; 641; 641; 641; 641; 641; 641; 641; 641;
   642; 642; 642; 642; 642; 642; 642; 642; 642; 642; 642; 642; 642; 642; 642; 9624;
   643; 643; 643; 643; 643; 643; 643; 643; 643; 643; 643; 643; 643; 643; 643; 643;
   643; 643; 643; 643; 643; 643; 643; 643; 9627; 9627; 9627; 9627; 9627; 9627; 9627; 9627;
   209; 442; 443; 644; 444; 645; 646; 646; 445; 647; 648; 648; 649; 649; 649; 649;
   446; 650; 651; 651; 652; 652; 652; 652; 653; 653; 653; 653; 653; 653; 653; 9624;
   447; 654; 655; 655; 656; 656; 656; 656; 657; 657; 657; 657; 657; 657; 657; 657;
   658; 658; 658; 658; 658; 658; 658; 658; 658; 658; 658; 658; 658; 658; 9625; 9625;
   448; 659; 660; 660; 661; 661; 661; 661; 662; 662; 662; 662; 662; 662; 662; 662;
   663; 663; 663; 663; 663; 663; 663; 663; 663; 663; 663; 663; 663; 663; 663; 9624;
   664; 664; 664; 664; 664; 664; 664; 664; 664; 664; 664; 664; 664; 664; 664; 664;
   664; 664; 664; 664; 664; 664; 664; 664; 664; 664; 664; 664; 9626; 9626; 9626; 9626;
   449; 665; 666; 666; 667; 667; 667; 667; 668; 668; 668; 668; 668; 668; 668; 668;
   669; 669; 669; 669; 669; 669; 669; 669; 669; 669; 669; 669; 669; 669; 669; 9624;
   670; 670; 670; 670; 670; 670; 670; 670; 670; 670; 670; 670; 670; 670; 670; 670;
   670; 670; 670; 670; 670; 670; 670; 670; 670; 670; 670; 670; 670; 670; 9625; 9625;
   671; 671; 671; 671; 671; 671; 671; 671; 671; 671; 671; 671; 671; 671; 671; 671;
   671; 671; 671; 671; 671; 671; 671; 671; 671; 671; 671; 671; 671; 671; 671; 9624;
   9629; 9629; 9629; 9629; 9629; 9629; 9629; 9629; 9629; 9629; 9629; 9629; 9629; 9629; 9629; 9629;
   9629; 9629; 9629; 9629; 9629; 9629; 9629; 9629; 9629; 9629; 9629; 9629; 9629; 9629; 9629; 9629;
   65; 210; 211; 450; 212; 451; 452; 672; 213; 453; 454; 673; 455; 674; 675; 675;
   214; 456; 457; 676; 458; 677; 678; 678; 459; 679; 680; 680; 681; 681; 681; 9624;
   215; 460; 461; 682; 462; 683; 684; 684; 463; 685; 686; 686; 687; 687; 687; 687;
   464; 688; 689; 689; 690; 690; 690; 690; 691; 691; 691; 691; 691; 691; 9625; 9625;
   216; 465; 466; 692; 467; 693; 694; 694; 468; 695; 696; 696; 697; 697; 697; 697;
   469; 698; 699; 699; 700; 700; 700; 700; 701; 701; 701; 701; 701; 701; 701; 9624;
   470; 702; 703; 703; 704; 704; 704; 704; 705; 705; 705; 705; 705; 705; 705; 705;
   706; 706; 706; 706; 706; 706; 706; 706; 706; 706; 706; 706; 9626; 9626; 9626; 9626;
   217; 471; 472; 707; 473; 708; 709; 709; 474; 710; 711; 711; 712; 712; 712; 712;
   475; 713; 714; 714; 715; 715; 715; 715; 716; 716; 716; 716; 716; 716; 716; 9624;
   476; 717; 718; 718; 719; 719; 719; 719; 720; 720; 720; 720; 720; 720; 720; 720;
   721; 721; 721; 721; 721; 721; 721; 721; 721; 721; 721; 721; 721; 721; 9625; 9625;
   477; 722; 723; 723; 724; 724; 724; 724; 725; 725; 725; 725; 725; 725; 725; 725;
   726; 726; 726; 726; 726; 726; 726; 726; 726; 726; 726; 726; 726; 726; 726; 9624;
   727; 727; 727; 727; 727; 727; 727; 727; 727; 727; 727; 727; 727; 727; 727; 727;
   727; 727; 727; 727; 727; 727; 727; 727; 9627; 9627; 9627; 9627; 9627; 9627; 9627; 9627;
   218; 478; 479; 728; 480; 729; 730; 730; 481; 731; 732; 732; 733; 733; 733; 733;
   482; 734; 735; 735; 736; 736; 736; 736; 737; 737; 737; 737; 737; 737; 737; 9624;
   483; 738; 739; 739; 740; 740; 740; 740; 741; 741; 741; 741; 741; 741; 741; 741;
   742; 742; 742; 742; 742; 742; 742; 742; 742; 742; 742; 742; 742; 742; 9625; 9625;
   484; 743; 744; 744; 745; 745; 745; 745; 746; 746; 746; 746; 746; 746; 746; 746;
   747; 747; 747; 747; 747; 747; 747; 747; 747; 747; 747; 747; 747; 747; 747; 9624;
   748; 748; 748; 748; 748; 748; 748; 748; 748; 748; 748; 748; 748; 748; 748; 748;
   748; 748; 748; 748; 748; 748; 748; 748; 748; 748; 748; 748; 9626; 9626; 9626; 9626;
   485; 749; 750; 750; 751; 751; 751; 751; 752; 752; 752; 752; 752; 752; 752; 752;
   753; 753; 753; 753; 753; 753; 753; 753; 753; 753; 753; 753; 753; 753; 753; 9624;
   754; 754; 754; 754; 754; 754; 754; 754; 754; 754; 754; 754; 754; 754; 754; 754;
   754; 754; 754; 754; 754; 754; 754; 754; 754; 754; 754; 754; 754; 754; 9625; 9625;
   755; 755; 755; 755; 755; 755; 755; 755; 755; 755; 755; 755; 755; 755; 755; 755;
   755; 755; 755; 755; 755; 755; 755; 755; 755; 755; 755; 755; 755; 755; 755; 9624;
   755; 755; 755; 755; 755; 755; 755; 755; 755; 755; 755; 755; 755; 755; 755; 755;
   9628; 9628; 9628; 9628; 9628; 9628; 9628; 9628; 9628; 9628; 9628; 9628; 9628; 9628; 9628; 9628;
   219; 486; 487; 756; 488; 757; 758; 758; 489; 759; 760; 760; 761; 761; 761; 761;
   490; 762; 763; 763; 764; 764; 764; 764; 765; 765; 765; 765; 765; 765; 765; 9624;
   491; 766; 767; 767; 768; 768; 768; 768; 769; 769; 769; 769; 769; 769; 769; 769;
   770; 770; 770; 770; 770; 770; 770; 770; 770; 770; 770; 770; 770; 770; 9625; 9625;
   492; 771; 772; 772; 773; 773; 773; 773; 774; 774; 774; 774; 774; 774; 774; 774;
   775; 775; 775; 775; 775; 775; 775; 775; 775; 775; 775; 775; 775; 775; 775; 9624;
   776; 776; 776; 776; 776; 776; 776; 776; 776; 776; 776; 776; 776; 776; 776; 776;
   776; 776; 776; 776; 776; 776; 776; 776; 776; 776; 776; 776; 9626; 9626; 9626; 9626;
   493; 777; 778; 778; 779; 779; 779; 779; 780; 780; 780; 780; 780; 780; 780; 780;
   781; 781; 781; 781; 781; 781; 781; 781; 781; 781; 781; 781; 781; 781; 781; 9624;
   782; 782; 782; 782; 782; 782; 782; 782; 782; 782; 782; 782; 782; 782; 782; 782;
   782; 782; 782; 782; 782; 782; 782; 782; 782; 782; 782; 782; 782; 782; 9625; 9625;
   783; 783; 783; 783; 783; 783; 783; 783; 783; 783; 783; 783; 783; 783; 783; 783;
   783; 783; 783; 783; 783; 783; 783; 783; 783; 783; 783; 783; 783; 783; 783; 9624;
   783; 783; 783; 783; 783; 783; 783; 783; 783; 783; 783; 783; 783; 783; 783; 783;
   783; 783; 783; 783; 783; 783; 783; 783; 9627; 9627; 9627; 9627; 9627; 9627; 9627; 9627;
   494; 784; 785; 785; 786; 786; 786; 786; 787; 787; 787; 787; 787; 787; 787; 787;
   788; 788; 788; 788; 788; 788; 788; 788; 788; 788; 788; 788; 788; 788; 788; 9624;
   789; 789; 789; 789; 789; 789; 789; 789; 789; 789; 789; 789; 789; 789; 789; 789;
   789; 789; 789; 789; 789; 789; 789; 789; 789; 789; 789; 789; 789; 789; 9625; 9625;
   790; 790; 790; 790; 790; 790; 790; 790; 790; 790; 790; 790; 790; 790; 790; 790;
   790; 790; 790; 790; 790; 790; 790; 790; 790; 790; 790; 790; 790; 790; 790; 9624;
   790; 790; 790; 790; 790; 790; 790; 790; 790; 790; 790; 790; 790; 790; 790; 790;
   790; 790; 790; 790; 790; 790; 790; 790; 790; 790; 790; 790; 9626; 9626; 9626; 9626;
   9631; 9631; 9631; 9631; 9631; 9631; 9631; 9631; 9631; 9631; 9631; 9631; 9631; 9631; 9631; 9631;
   9631; 9631; 9631; 9631; 9631; 9631; 9631; 9631; 9631; 9631; 9631; 9631; 9631; 9631; 9631; 9631;
   9631; 9631; 9631; 9631; 9631; 9631; 9631; 9631; 9631; 9631; 9631; 9631; 9631; 9631; 9631; 9631;
   9631; 9631; 9631; 9631; 9631; 9631; 9631; 9631; 9631; 9631; 9631; 9631; 9631; 9631; 9631; 9631;
   9631; 9631; 9631; 9631; 9631; 9631; 9631; 9631; 9631; 9631; 9631; 9631; 9631; 9631; 9631; 9631;
   9631; 9631; 9631; 9631; 9631; 9631; 9631; 9631; 9631; 9631; 9631; 9631; 9631; 9631; 9631; 9631;
   9631; 9631; 9631; 9631; 9631; 9631; 9631; 9631; 9631; 9631; 9631; 9631; 9631; 9631; 9631; 9631;
   9631; 9631; 9631; 9631; 9631; 9631; 9631; 9631; 9631; 9631; 9631; 9631; 9631; 9631; 9631; 9631;
   12; 66; 67; 220; 68; 221; 222; 495; 69; 223; 224; 496; 225; 497; 498; 9623;
   70; 226; 227; 499; 228; 500; 501; 793; 229; 502; 503; 794; 504; 795; 796; 9624;
   71; 230; 231; 505; 232; 506; 507; 797; 233; 508; 509; 798; 510; 799; 800; 9623;
   234; 511; 512; 801; 513; 802; 803; 803; 514; 804; 805; 805; 806; 806; 9625; 9625;
   72; 235; 236; 515; 237; 516; 517; 807; 238; 518; 519; 808; 520; 809; 810; 9623;
   239; 521; 522; 811; 523; 812; 813; 813; 524; 814; 815; 815; 816; 816; 816; 9624;
   240; 525; 526; 817; 527; 818; 819; 819; 528; 820; 821; 821; 822; 822; 822; 9623;
   529; 823; 824; 824; 825; 825; 825; 825; 826; 826; 826; 826; 9626; 9626; 9626; 9626;
   73; 241; 242; 530; 243; 531; 532; 827; 244; 533; 534; 828; 535; 829; 830; 9623;
   245; 536; 537; 831; 538; 832; 833; 833; 539; 834; 835; 835; 836; 836; 836; 9624;
   246; 540; 541; 837; 542; 838; 839; 839; 543; 840; 841; 841; 842; 842; 842; 9623;
   544; 843; 844; 844; 845; 845; 845; 845; 846; 846; 846; 846; 846; 846; 9625; 9625;
   247; 545; 546; 847; 547; 848; 849; 849; 548; 850; 851; 851; 852; 852; 852; 9623;
   549; 853; 854; 854; 855; 855; 855; 855; 856; 856; 856; 856; 856; 856; 856; 9624;
   550; 857; 858; 858; 859; 859; 859; 859; 860; 860; 860; 860; 860; 860; 860; 9623;
   861; 861; 861; 861; 861; 861; 861; 861; 9627; 9627; 9627; 9627; 9627; 9627; 9627; 9627;
   74; 248; 249; 551; 250; 552; 553; 862; 251; 554; 555; 863; 556; 864; 865; 9623;
   252; 557; 558; 866; 559; 867; 868; 868; 560; 869; 870; 870; 871; 871; 871; 9624;
   253; 561; 562; 872; 563; 873; 874; 874; 564; 875; 876; 876; 877; 877; 877; 9623;
   565; 878; 879; 879; 880; 880; 880; 880; 881; 881; 881; 881; 881; 881; 9625; 9625;
   254; 566; 567; 882; 568; 883; 884; 884; 569; 885; 886; 886; 887; 887; 887; 9623;
   570; 888; 889; 889; 890; 890; 890; 890; 891; 891; 891; 891; 891; 891; 891; 9624;
   571; 892; 893; 893; 894; 894; 894; 894; 895; 895; 895; 895; 895; 895; 895; 9623;
   896; 896; 896; 896; 896; 896; 896; 896; 896; 896; 896; 896; 9626; 9626; 9626; 9626;
   255; 572; 573; 897; 574; 898; 899; 899; 575; 900; 901; 901; 902; 902; 902; 9623;
   576; 903; 904; 904; 905; 905; 905; 905; 906; 906; 906; 906; 906; 906; 906; 9624;
   577; 907; 908; 908; 909; 909; 909; 909; 910; 910; 910; 910; 910; 910; 910; 9623;
   911; 911; 911; 911; 911; 911; 911; 911; 911; 911; 911; 911; 911; 911; 9625; 9625;
   578; 912; 913; 913; 914; 914; 914; 914; 915; 915; 915; 915; 915; 915; 915; 9623;
   916; 916; 916; 916; 916; 916; 916; 916; 916; 916; 916; 916; 916; 916; 916; 9624;
   917; 917; 917; 917; 917; 917; 917; 917; 917; 917; 917; 917; 917; 917; 917; 9623;
   9628; 9628; 9628; 9628; 9628; 9628; 9628; 9628; 9628; 9628; 9628; 9628; 9628; 9628; 9628; 9628;
   75; 256; 257; 579; 258; 580; 581; 918; 259; 582; 583; 919; 584; 920; 921; 9623;
   260; 585; 586; 922; 587; 923; 924; 924; 588; 925; 926; 926; 927; 927; 927; 9624;
   261; 589; 590; 928; 591; 929; 930; 930; 592; 931; 932; 932; 933; 933; 933; 9623;
   593; 934; 935; 935; 936; 936; 936; 936; 937; 937; 937; 937; 937; 937; 9625; 9625;
   262; 594; 595; 938; 596; 939; 940; 940; 597; 941; 942; 942; 943; 943; 943; 9623;
   598; 944; 945; 945; 946; 946; 946; 946; 947; 947; 947; 947; 947; 947; 947; 9624;
   599; 948; 949; 949; 950; 950; 950; 950; 951; 951; 951; 951; 951; 951; 951; 9623;
   952; 952; 952; 952; 952; 952; 952; 952; 952; 952; 952; 952; 9626; 9626; 9626; 9626;
   263; 600; 601; 953; 602; 954; 955; 955; 603; 956; 957; 957; 958; 958; 958; 9623;
   604; 959; 960; 960; 961; 961; 961; 961; 962; 962; 962; 962; 962; 962; 962; 9624;
   605; 963; 964; 964; 965; 965; 965; 965; 966; 966; 966; 966; 966; 966; 966; 9623;
   967; 967; 967; 967; 967; 967; 967; 967; 967; 967; 967; 967; 967; 967; 9625; 9625;
   606; 968; 969; 969; 970; 970; 970; 970; 971; 971; 971; 971; 971; 971; 971; 9623;
   972; 972; 972; 972; 972; 972; 972; 972; 972; 972; 972; 972; 972; 972; 972; 9624;
   973; 973; 973; 973; 973; 973; 973; 973; 973; 973; 973; 973; 973; 973; 973; 9623;
   973; 973; 973; 973; 973; 973; 973; 973; 9627; 9627; 9627; 9627; 9627; 9627; 9627; 9627;
   264; 607; 608; 974; 609; 975; 976; 976; 610; 977; 978; 978; 979; 979; 979; 9623;
   611; 980; 981; 981; 982; 982; 982; 982; 983; 983; 983; 983; 983; 983; 983; 9624;
   612; 984; 985; 985; 986; 986; 986; 986; 987; 987; 987; 987; 987; 987; 987; 9623;
   988; 988; 988; 988; 988; 988; 988; 988; 988; 988; 988; 988; 988; 988; 9625; 9625;
   613; 989; 990; 990; 991; 991; 991; 991; 992; 992; 992; 992; 992; 992; 992; 9623;
   993; 993; 993; 993; 993; 993; 993; 993; 993; 993; 993; 993; 993; 993; 993; 9624;
   994; 994; 994; 994; 994; 994; 994; 994; 994; 994; 994; 994; 994; 994; 994; 9623;
   994; 994; 994; 994; 994; 994; 994; 994; 994; 994; 994; 994; 9626; 9626; 9626; 9626;
   614; 995; 996; 996; 997; 997; 997; 997; 998; 998; 998; 998; 998; 998; 998; 9623;
   999; 999; 999; 999; 999; 999; 999; 999; 999; 999; 999; 999; 999; 999; 999; 9624;
   1000; 1000; 1000; 1000; 1000; 1000; 1000; 1000; 1000; 1000; 1000; 1000; 1000; 1000; 1000; 9623;
   1000; 1000; 1000; 1000; 1000; 1000; 1000; 1000; 1000; 1000; 1000; 1000; 1000; 1000; 9625; 9625;
   1001; 1001; 1001; 1001; 1001; 1001; 1001; 1001; 1001; 1001; 1001; 1001; 1001; 1001; 1001; 9623;
   1001; 1001; 1001; 1001; 1001; 1001; 1001; 1001; 1001; 1001; 1001; 1001; 1001; 1001; 1001; 9624;
   9629; 9629; 9629; 9629; 9629; 9629; 9629; 9629; 9629; 9629; 9629; 9629; 9629; 9629; 9629; 9629;
   9629; 9629; 9629; 9629; 9629; 9629; 9629; 9629; 9629; 9629; 9629; 9629; 9629; 9629; 9629; 9629;
   76; 265; 266; 615; 267; 616; 617; 1002; 268; 618; 619; 1003; 620; 1004; 1005; 9623;
   269; 621; 622; 1006; 623; 1007; 1008; 1008; 624; 1009; 1010; 1010; 1011; 1011; 1011; 9624;
   270; 625; 626; 1012; 627; 1013; 1014; 1014; 628; 1015; 1016; 1016; 1017; 1017; 1017; 9623;
   629; 1018; 1019; 1019; 1020; 1020; 1020; 1020; 1021; 1021; 1021; 1021; 1021; 1021; 9625; 9625;
   271; 630; 631; 1022; 632; 1023; 1024; 1024; 633; 1025; 1026; 1026; 1027; 1027; 1027; 9623;
   634; 1028; 1029; 1029; 1030; 1030; 1030; 1030; 1031; 1031; 1031; 1031; 1031; 1031; 1031; 9624;
   635; 1032; 1033; 1033; 1034; 1034; 1034; 1034; 1035; 1035; 1035; 1035; 1035; 1035; 1035; 9623;
   1036; 1036; 1036; 1036; 1036; 1036; 1036; 1036; 1036; 1036; 1036; 1036; 9626; 9626; 9626; 9626;
   272; 636; 637; 1037; 638; 1038; 1039; 1039; 639; 1040; 1041; 1041; 1042; 1042; 1042; 9623;
   640; 1043; 1044; 1044; 1045; 1045; 1045; 1045; 1046; 1046; 1046; 1046; 1046; 1046; 1046; 9624;
   641; 1047; 1048; 1048; 1049; 1049; 1049; 1049; 1050; 1050; 1050; 1050; 1050; 1050; 1050; 9623;
   1051; 1051; 1051; 1051; 1051; 1051; 1051; 1051; 1051; 1051; 1051; 1051; 1051; 1051; 9625; 9625;
   642; 1052; 1053; 1053; 1054; 1054; 1054; 1054; 1055; 1055; 1055; 1055; 1055; 1055; 1055; 9623;
   1056; 1056; 1056; 1056; 1056; 1056; 1056; 1056; 1056; 1056; 1056; 1056; 1056; 1056; 1056; 9624;
   1057; 1057; 1057; 1057; 1057; 1057; 1057; 1057; 1057; 1057; 1057; 1057; 1057; 1057; 1057; 9623;
   1057; 1057; 1057; 1057; 1057; 1057; 1057; 1057; 9627; 9627; 9627; 9627; 9627; 9627; 9627; 9627;
   273; 643; 644; 1058; 645; 1059; 1060; 1060; 646; 1061; 1062; 1062; 1063; 1063; 1063; 9623;
   647; 1064; 1065; 1065; 1066; 1066; 1066; 1066; 1067; 1067; 1067; 1067; 1067; 1067; 1067; 9624;
   648; 1068; 1069; 1069; 1070; 1070; 1070; 1070; 1071; 1071; 1071; 1071; 1071; 1071; 1071; 9623;
   1072; 1072; 1072; 1072; 1072; 1072; 1072; 1072; 1072; 1072; 1072; 1072; 1072; 1072; 9625; 9625;
   649; 1073; 1074; 1074; 1075; 1075; 1075; 1075; 1076; 1076; 1076; 1076; 1076; 1076; 1076; 9623;
   1077; 1077; 1077; 1077; 1077; 1077; 1077; 1077; 1077; 1077; 1077; 1077; 1077; 1077; 1077; 9624;
   1078; 1078; 1078; 1078; 1078; 1078; 1078; 1078; 1078; 1078; 1078; 1078; 1078; 1078; 1078; 9623;
   1078; 1078; 1078; 1078; 1078; 1078; 1078; 1078; 1078; 1078; 1078; 1078; 9626; 9626; 9626; 9626;
   650; 1079; 1080; 1080; 1081; 1081; 1081; 1081; 1082; 1082; 1082; 1082; 1082; 1082; 1082; 9623;
   1083; 1083; 1083; 1083; 1083; 1083; 1083; 1083; 1083; 1083; 1083; 1083; 1083; 1083; 1083; 9624;
   1084; 1084; 1084; 1084; 1084; 1084; 1084; 1084; 1084; 1084; 1084; 1084; 1084; 1084; 1084; 9623;
   1084; 1084; 1084; 1084; 1084; 1084; 1084; 1084; 1084; 1084; 1084; 1084; 1084; 1084; 9625; 9625;
   1085; 1085; 1085; 1085; 1085; 1085; 1085; 1085; 1085; 1085; 1085; 1085; 1085; 1085; 1085; 9623;
   1085; 1085; 1085; 1085; 1085; 1085; 1085; 1085; 1085; 1085; 1085; 1085; 1085; 1085; 1085; 9624;
   1085; 1085; 1085; 1085; 1085; 1085; 1085; 1085; 1085; 1085; 1085; 1085; 1085; 1085; 1085; 9623;
   9628; 9628; 9628; 9628; 9628; 9628; 9628; 9628; 9628; 9628; 9628; 9628; 9628; 9628; 9628; 9628;
   274; 651; 652; 1086; 653; 1087; 1088; 1088; 654; 1089; 1090; 1090; 1091; 1091; 1091; 9623;
   655; 1092; 1093; 1093; 1094; 1094; 1094; 1094; 1095; 1095; 1095; 1095; 1095; 1095; 1095; 9624;
   656; 1096; 1097; 1097; 1098; 1098; 1098; 1098; 1099; 1099; 1099; 1099; 1099; 1099; 1099; 9623;
   1100; 1100; 1100; 1100; 1100; 1100; 1100; 1100; 1100; 1100; 1100; 1100; 1100; 1100; 9625; 9625;
   657; 1101; 1102; 1102; 1103; 1103; 1103; 1103; 1104; 1104; 1104; 1104; 1104; 1104; 1104; 9623;
   1105; 1105; 1105; 1105; 1105; 1105; 1105; 1105; 1105; 1105; 1105; 1105; 1105; 1105; 1105; 9624;
   1106; 1106; 1106; 1106; 1106; 1106; 1106; 1106; 1106; 1106; 1106; 1106; 1106; 1106; 1106; 9623;
   1106; 1106; 1106; 1106; 1106; 1106; 1106; 1106; 1106; 1106; 1106; 1106; 9626; 9626; 9626; 9626;
   658; 1107; 1108; 1108; 1109; 1109; 1109; 1109; 1110; 1110; 1110; 1110; 1110; 1110; 1110; 9623;
   1111; 1111; 1111; 1111; 1111; 1111; 1111; 1111; 1111; 1111; 1111; 1111; 1111; 1111; 1111; 9624;
   1112; 1112; 1112; 1112; 1112; 1112; 1112; 1112; 1112; 1112; 1112; 1112; 1112; 1112; 1112; 9623;
   1112; 1112; 1112; 1112; 1112; 1112; 1112; 1112; 1112; 1112; 1112; 1112; 1112; 1112; 9625; 9625;
   1113; 1113; 1113; 1113; 1113; 1113; 1113; 1113; 1113; 1113; 1113; 1113; 1113; 1113; 1113; 9623;
   1113; 1113; 1113; 1113; 1113; 1113; 1113; 1113; 1113; 1113; 1113; 1113; 1113; 1113; 1113; 9624;
   1113; 1113; 1113; 1113; 1113; 1113; 1113; 1113; 1113; 1113; 1113; 1113; 1113; 1113; 1113; 9623;
   1113; 1113; 1113; 1113; 1113; 1113; 1113; 1113; 9627; 9627; 9627; 9627; 9627; 9627; 9627; 9627;
   659; 1114; 1115; 1115; 1116; 1116; 1116; 1116; 1117; 1117; 1117; 1117; 1117; 1117; 1117; 9623;
   1118; 1118; 1118; 1118; 1118; 1118; 1118; 1118; 1118; 1118; 1118; 1118; 1118; 1118; 1118; 9624;
   1119; 1119; 1119; 1119; 1119; 1119; 1119; 1119; 1119; 1119; 1119; 1119; 1119; 1119; 1119; 9623;
   1119; 1119; 1119; 1119; 1119; 1119; 1119; 1119; 1119; 1119; 1119; 1119; 1119; 1119; 9625; 9625;
   1120; 1120; 1120; 1120; 1120; 1120; 1120; 1120; 1120; 1120; 1120; 1120; 1120; 1120; 1120; 9623;
   1120; 1120; 1120; 1120; 1120; 1120; 1120; 1120; 1120; 1120; 1120; 1120; 1120; 1120; 1120; 9624;
   1120; 1120; 1120; 1120; 1120; 1120; 1120; 1120; 1120; 1120; 1120; 1120; 1120; 1120; 1120; 9623;
   1120; 1120; 1120; 1120; 1120; 1120; 1120; 1120; 1120; 1120; 1120; 1120; 9626; 9626; 9626; 9626;
   1121; 1121; 1121; 1121; 1121; 1121; 1121; 1121; 1121; 1121; 1121; 1121; 1121; 1121; 1121; 9623;
   1121; 1121; 1121; 1121; 1121; 1121; 1121; 1121; 1121; 1121; 1121; 1121; 1121; 1121; 1121; 9624;
   1121; 1121; 1121; 1121; 1121; 1121; 1121; 1121; 1121; 1121; 1121; 1121; 1121; 1121; 1121; 9623;
   1121; 1121; 1121; 1121; 1121; 1121; 1121; 1121; 1121; 1121; 1121; 1121; 1121; 1121; 9625; 9625;
   9630; 9630; 9630; 9630; 9630; 9630; 9630; 9630; 9630; 9630; 9630; 9630; 9630; 9630; 9630; 9630;
   9630; 9630; 9630; 9630; 9630; 9630; 9630; 9630; 9630; 9630; 9630; 9630; 9630; 9630; 9630; 9630;
   9630; 9630; 9630; 9630; 9630; 9630; 9630; 9630; 9630; 9630; 9630; 9630; 9630; 9630; 9630; 9630;
   9630; 9630; 9630; 9630; 9630; 9630; 9630; 9630; 9630; 9630; 9630; 9630; 9630; 9630; 9630; 9630;
   77; 275; 276; 660; 277; 661; 662; 1122; 278; 663; 664; 1123; 665; 1124; 1125; 9623;
   279; 666; 667; 1126; 668; 1127; 1128; 1128; 669; 1129; 1130; 1130; 1131; 1131; 1131; 9624;
   280; 670; 671; 1132; 672; 1133; 1134; 1134; 673; 1135; 1136; 1136; 1137; 1137; 1137; 9623;
   674; 1138; 1139; 1139; 1140; 1140; 1140; 1140; 1141; 1141; 1141; 1141; 1141; 1141; 9625; 9625;
   281; 675; 676; 1142; 677; 1143; 1144; 1144; 678; 1145; 1146; 1146; 1147; 1147; 1147; 9623;
   679; 1148; 1149; 1149; 1150; 1150; 1150; 1150; 1151; 1151; 1151; 1151; 1151; 1151; 1151; 9624;
   680; 1152; 1153; 1153; 1154; 1154; 1154; 1154; 1155; 1155; 1155; 1155; 1155; 1155; 1155; 9623;
   1156; 1156; 1156; 1156; 1156; 1156; 1156; 1156; 1156; 1156; 1156; 1156; 9626; 9626; 9626; 9626;
   282; 681; 682; 1157; 683; 1158; 1159; 1159; 684; 1160; 1161; 1161; 1162; 1162; 1162; 9623;
   685; 1163; 1164; 1164; 1165; 1165; 1165; 1165; 1166; 1166; 1166; 1166; 1166; 1166; 1166; 9624;
   686; 1167; 1168; 1168; 1169; 1169; 1169; 1169; 1170; 1170; 1170; 1170; 1170; 1170; 1170; 9623;
   1171; 1171; 1171; 1171; 1171; 1171; 1171; 1171; 1171; 1171; 1171; 1171; 1171; 1171; 9625; 9625;
   687; 1172; 1173; 1173; 1174; 1174; 1174; 1174; 1175; 1175; 1175; 1175; 1175; 1175; 1175; 9623;
   1176; 1176; 1176; 1176; 1176; 1176; 1176; 1176; 1176; 1176; 1176; 1176; 1176; 1176; 1176; 9624;
   1177; 1177; 1177; 1177; 1177; 1177; 1177; 1177; 1177; 1177; 1177; 1177; 1177; 1177; 1177; 9623;
   1177; 1177; 1177; 1177; 1177; 1177; 1177; 1177; 9627; 9627; 9627; 9627; 9627; 9627; 9627; 9627;
   283; 688; 689; 1178; 690; 1179; 1180; 1180; 691; 1181; 1182; 1182; 1183; 1183; 1183; 9623;
   692; 1184; 1185; 1185; 1186; 1186; 1186; 1186; 1187; 1187; 1187; 1187; 1187; 1187; 1187; 9624;
   693; 1188; 1189; 1189; 1190; 1190; 1190; 1190; 1191; 1191; 1191; 1191; 1191; 1191; 1191; 9623;
   1192; 1192; 1192; 1192; 1192; 1192; 1192; 1192; 1192; 1192; 1192; 1192; 1192; 1192; 9625; 9625;
   694; 1193; 1194; 1194; 1195; 1195; 1195; 1195; 1196; 1196; 1196; 1196; 1196; 1196; 1196; 9623;
   1197; 1197; 1197; 1197; 1197; 1197; 1197; 1197; 1197; 1197; 1197; 1197; 1197; 1197; 1197; 9624;
   1198; 1198; 1198; 1198; 1198; 1198; 1198; 1198; 1198; 1198; 1198; 1198; 1198; 1198; 1198; 9623;
   1198; 1198; 1198; 1198; 1198; 1198; 1198; 1198; 1198; 1198; 1198; 1198; 9626; 9626; 9626; 9626;
   695; 1199; 1200; 1200; 1201; 1201; 1201; 1201; 1202; 1202; 1202; 1202; 1202; 1202; 1202; 9623;
   1203; 1203; 1203; 1203; 1203; 1203; 1203; 1203; 1203; 1203; 1203; 1203; 1203; 1203; 1203; 9624;
   1204; 1204; 1204; 1204; 1204; 1204; 1204; 1204; 1204; 1204; 1204; 1204; 1204; 1204; 1204; 9623;
   1204; 1204; 1204; 1204; 1204; 1204; 1204; 1204; 1204; 1204; 1204; 1204; 1204; 1204; 9625; 9625;
   1205; 1205; 1205; 1205; 1205; 1205; 1205; 1205; 1205; 1205; 1205; 1205; 1205; 1205; 1205; 9623;
   1205; 1205; 1205; 1205; 1205; 1205; 1205; 1205; 1205; 1205; 1205; 1205; 1205; 1205; 1205; 9624;
   1205; 1205; 1205; 1205; 1205; 1205; 1205; 1205; 1205; 1205; 1205; 1205; 1205; 1205; 1205; 9623;
   9628; 9628; 9628; 9628; 9628; 9628; 9628; 9628; 9628; 9628; 9628; 9628; 9628; 9628; 9628; 9628;
   284; 696; 697; 1206; 698; 1207; 1208; 1208; 699; 1209; 1210; 1210; 1211; 1211; 1211; 9623;
   700; 1212; 1213; 1213; 1214; 1214; 1214; 1214; 1215; 1215; 1215; 1215; 1215; 1215; 1215; 9624;
   701; 1216; 1217; 1217; 1218; 1218; 1218; 1218; 1219; 1219; 1219; 1219; 1219; 1219; 1219; 9623;
   1220; 1220; 1220; 1220; 1220; 1220; 1220; 1220; 1220; 1220; 1220; 1220; 1220; 1220; 9625; 9625;
   702; 1221; 1222; 1222; 1223; 1223; 1223; 1223; 1224; 1224; 1224; 1224; 1224; 1224; 1224; 9623;
   1225; 1225; 1225; 1225; 1225; 1225; 1225; 1225; 1225; 1225; 1225; 1225; 1225; 1225; 1225; 9624;
   1226; 1226; 1226; 1226; 1226; 1226; 1226; 1226; 1226; 1226; 1226; 1226; 1226; 1226; 1226; 9623;
   1226; 1226; 1226; 1226; 1226; 1226; 1226; 1226; 1226; 1226; 1226; 1226; 9626; 9626; 9626; 9626;
   703; 1227; 1228; 1228; 1229; 1229; 1229; 1229; 1230; 1230; 1230; 1230; 1230; 1230; 1230; 9623;
   1231; 1231; 1231; 1231; 1231; 1231; 1231; 1231; 1231; 1231; 1231; 1231; 1231; 1231; 1231; 9624;
   1232; 1232; 1232; 1232; 1232; 1232; 1232; 1232; 1232; 1232; 1232; 1232; 1232; 1232; 1232; 9623;
   1232; 1232; 1232; 1232; 1232; 1232; 1232; 1232; 1232; 1232; 1232; 1232; 1232; 1232; 9625; 9625;
   1233; 1233; 1233; 1233; 1233; 1233; 1233; 1233; 1233; 1233; 1233; 1233; 1233; 1233; 1233; 9623;
   1233; 1233; 1233; 1233; 1233; 1233; 1233; 1233; 1233; 1233; 1233; 1233; 1233; 1233; 1233; 9624;
   1233; 1233; 1233; 1233; 1233; 1233; 1233; 1233; 1233; 1233; 1233; 1233; 1233; 1233; 1233; 9623;
   1233; 1233; 1233; 1233; 1233; 1233; 1233; 1233; 9627; 9627; 9627; 9627; 9627; 9627; 9627; 9627;
   704; 1234; 1235; 1235; 1236; 1236; 1236; 1236; 1237; 1237; 1237; 1237; 1237; 1237; 1237; 9623;
   1238; 1238; 1238; 1238; 1238; 1238; 1238; 1238; 1238; 1238; 1238; 1238; 1238; 1238; 1238; 9624;
   1239; 1239; 1239; 1239; 1239; 1239; 1239; 1239; 1239; 1239; 1239; 1239; 1239; 1239; 1239; 9623;
   1239; 1239; 1239; 1239; 1239; 1239; 1239; 1239; 1239; 1239; 1239; 1239; 1239; 1239; 9625; 9625;
   1240; 1240; 1240; 1240; 1240; 1240; 1240; 1240; 1240; 1240; 1240; 1240; 1240; 1240; 1240; 9623;
   1240; 1240; 1240; 1240; 1240; 1240; 1240; 1240; 1240; 1240; 1240; 1240; 1240; 1240; 1240; 9624;
   1240; 1240; 1240; 1240; 1240; 1240; 1240; 1240; 1240; 1240; 1240; 1240; 1240; 1240; 1240; 9623;
   1240; 1240; 1240; 1240; 1240; 1240; 1240; 1240; 1240; 1240; 1240; 1240; 9626; 9626; 9626; 9626;
   1241; 1241; 1241; 1241; 1241; 1241; 1241; 1241; 1241; 1241; 1241; 1241; 1241; 1241; 1241; 9623;
   1241; 1241; 1241; 1241; 1241; 1241; 1241; 1241; 1241; 1241; 1241; 1241; 1241; 1241; 1241; 9624;
   1241; 1241; 1241; 1241; 1241; 1241; 1241; 1241; 1241; 1241; 1241; 1241; 1241; 1241; 1241; 9623;
   1241; 1241; 1241; 1241; 1241; 1241; 1241; 1241; 1241; 1241; 1241; 1241; 1241; 1241; 9625; 9625;
   1241; 1241; 1241; 1241; 1241; 1241; 1241; 1241; 1241; 1241; 1241; 1241; 1241; 1241; 1241; 9623;
   1241; 1241; 1241; 1241; 1241; 1241; 1241; 1241; 1241; 1241; 1241; 1241; 1241; 1241; 1241; 9624;
   9629; 9629; 9629; 9629; 9629; 9629; 9629; 9629; 9629; 9629; 9629; 9629; 9629; 9629; 9629; 9629;
   9629; 9629; 9629; 9629; 9629; 9629; 9629; 9629; 9629; 9629; 9629; 9629; 9629; 9629; 9629; 9629;
   285; 705; 706; 1242; 707; 1243; 1244; 1244; 708; 1245; 1246; 1246; 1247; 1247; 1247; 9623;
   709; 1248; 1249; 1249; 1250; 1250; 1250; 1250; 1251; 1251; 1251; 1251; 1251; 1251; 1251; 9624;
   710; 1252; 1253; 1253; 1254; 1254; 1254; 1254; 1255; 1255; 1255; 1255; 1255; 1255; 1255; 9623;
   1256; 1256; 1256; 1256; 1256; 1256; 1256; 1256; 1256; 1256; 1256; 1256; 1256; 1256; 9625; 9625;
   711; 1257; 1258; 1258; 1259; 1259; 1259; 1259; 1260; 1260; 1260; 1260; 1260; 1260; 1260; 9623;
   1261; 1261; 1261; 1261; 1261; 1261; 1261; 1261; 1261; 1261; 1261; 1261; 1261; 1261; 1261; 9624;
   1262; 1262; 1262; 1262; 1262; 1262; 1262; 1262; 1262; 1262; 1262; 1262; 1262; 1262; 1262; 9623;
   1262; 1262; 1262; 1262; 1262; 1262; 1262; 1262; 1262; 1262; 1262; 1262; 9626; 9626; 9626; 9626;
   712; 1263; 1264; 1264; 1265; 1265; 1265; 1265; 1266; 1266; 1266; 1266; 1266; 1266; 1266; 9623;
   1267; 1267; 1267; 1267; 1267; 1267; 1267; 1267; 1267; 1267; 1267; 1267; 1267; 1267; 1267; 9624;
   1268; 1268; 1268; 1268; 1268; 1268; 1268; 1268; 1268; 1268; 1268; 1268; 1268; 1268; 1268; 9623;
   1268; 1268; 1268; 1268; 1268; 1268; 1268; 1268; 1268; 1268; 1268; 1268; 1268; 1268; 9625; 9625;
   1269; 1269; 1269; 1269; 1269; 1269; 1269; 1269; 1269; 1269; 1269; 1269; 1269; 1269; 1269; 9623;
   1269; 1269; 1269; 1269; 1269; 1269; 1269; 1269; 1269; 1269; 1269; 1269; 1269; 1269; 1269; 9624;
   1269; 1269; 1269; 1269; 1269; 1269; 1269; 1269; 1269; 1269; 1269; 1269; 1269; 1269; 1269; 9623;
   1269; 1269; 1269; 1269; 1269; 1269; 1269; 1269; 9627; 9627; 9627; 9627; 9627; 9627; 9627; 9627;
   713; 1270; 1271; 1271; 1272; 1272; 1272; 1272; 1273; 1273; 1273; 1273; 1273; 1273; 1273; 9623;
   1274; 1274; 1274; 1274; 1274; 1274; 1274; 1274; 1274; 1274; 1274; 1274; 1274; 1274; 1274; 9624;
   1275; 1275; 1275; 1275; 1275; 1275; 1275; 1275; 1275; 1275; 1275; 1275; 1275; 1275; 1275; 9623;
   1275; 1275; 1275; 1275; 1275; 1275; 1275; 1275; 1275; 1275; 1275; 1275; 1275; 1275; 9625; 9625;
   1276; 1276; 1276; 1276; 1276; 1276; 1276; 1276; 1276; 1276; 1276; 1276; 1276; 1276; 1276; 9623;
   1276; 1276; 1276; 1276; 1276; 1276; 1276; 1276; 1276; 1276; 1276; 1276; 1276; 1276; 1276; 9624;
   1276; 1276; 1276; 1276; 1276; 1276; 1276; 1276; 1276; 1276; 1276; 1276; 1276; 1276; 1276; 9623;
   1276; 1276; 1276; 1276; 1276; 1276; 1276; 1276; 1276; 1276; 1276; 1276; 9626; 9626; 9626; 9626;
   1277; 1277; 1277; 1277; 1277; 1277; 1277; 1277; 1277; 1277; 1277; 1277; 1277; 1277; 1277; 9623;
   1277; 1277; 1277; 1277; 1277; 1277; 1277; 1277; 1277; 1277; 1277; 1277; 1277; 1277; 1277; 9624;
   1277; 1277; 1277; 1277; 1277; 1277; 1277; 1277; 1277; 1277; 1277; 1277; 1277; 1277; 1277; 9623;
   1277; 1277; 1277; 1277; 1277; 1277; 1277; 1277; 1277; 1277; 1277; 1277; 1277; 1277; 9625; 9625;
   1277; 1277; 1277; 1277; 1277; 1277; 1277; 1277; 1277; 1277; 1277; 1277; 1277; 1277; 1277; 9623;
   1277; 1277; 1277; 1277; 1277; 1277; 1277; 1277; 1277; 1277; 1277; 1277; 1277; 1277; 1277; 9624;
   1277; 1277; 1277; 1277; 1277; 1277; 1277; 1277; 1277; 1277; 1277; 1277; 1277; 1277; 1277; 9623;
   9628; 9628; 9628; 9628; 9628; 9628; 9628; 9628; 9628; 9628; 9628; 9628; 9628; 9628; 9628; 9628;
   714; 1278; 1279; 1279; 1280; 1280; 1280; 1280; 1281; 1281; 1281; 1281; 1281; 1281; 1281; 9623;
   1282; 1282; 1282; 1282; 1282; 1282; 1282; 1282; 1282; 1282; 1282; 1282; 1282; 1282; 1282; 9624;
   1283; 1283; 1283; 1283; 1283; 1283; 1283; 1283; 1283; 1283; 1283; 1283; 1283; 1283; 1283; 9623;
   1283; 1283; 1283; 1283; 1283; 1283; 1283; 1283; 1283; 1283; 1283; 1283; 1283; 1283; 9625; 9625;
   1284; 1284; 1284; 1284; 1284; 1284; 1284; 1284; 1284; 1284; 1284; 1284; 1284; 1284; 1284; 9623;
   1284; 1284; 1284; 1284; 1284; 1284; 1284; 1284; 1284; 1284; 1284; 1284; 1284; 1284; 1284; 9624;
   1284; 1284; 1284; 1284; 1284; 1284; 1284; 1284; 1284; 1284; 1284; 1284; 1284; 1284; 1284; 9623;
   1284; 1284; 1284; 1284; 1284; 1284; 1284; 1284; 1284; 1284; 1284; 1284; 9626; 9626; 9626; 9626;
   1285; 1285; 1285; 1285; 1285; 1285; 1285; 1285; 1285; 1285; 1285; 1285; 1285; 1285; 1285; 9623;
   1285; 1285; 1285; 1285; 1285; 1285; 1285; 1285; 1285; 1285; 1285; 1285; 1285; 1285; 1285; 9624;
   1285; 1285; 1285; 1285; 1285; 1285; 1285; 1285; 1285; 1285; 1285; 1285; 1285; 1285; 1285; 9623;
   1285; 1285; 1285; 1285; 1285; 1285; 1285; 1285; 1285; 1285; 1285; 1285; 1285; 1285; 9625; 9625;
   1285; 1285; 1285; 1285; 1285; 1285; 1285; 1285; 1285; 1285; 1285; 1285; 1285; 1285; 1285; 9623;
   1285; 1285; 1285; 1285; 1285; 1285; 1285; 1285; 1285; 1285; 1285; 1285; 1285; 1285; 1285; 9624;
   1285; 1285; 1285; 1285; 1285; 1285; 1285; 1285; 1285; 1285; 1285; 1285; 1285; 1285; 1285; 9623;
   1285; 1285; 1285; 1285; 1285; 1285; 1285; 1285; 9627; 9627; 9627; 9627; 9627; 9627; 9627; 9627;
   9632; 9632; 9632; 9632; 9632; 9632; 9632; 9632; 9632; 9632; 9632; 9632; 9632; 9632; 9632; 9632;
   9632; 9632; 9632; 9632; 9632; 9632; 9632; 9632; 9632; 9632; 9632; 9632; 9632; 9632; 9632; 9632;
   9632; 9632; 9632; 9632; 9632; 9632; 9632; 9632; 9632; 9632; 9632; 9632; 9632; 9632; 9632; 9632;
   9632; 9632; 9632; 9632; 9632; 9632; 9632; 9632; 9632; 9632; 9632; 9632; 9632; 9632; 9632; 9632;
   9632; 9632; 9632; 9632; 9632; 9632; 9632; 9632; 9632; 9632; 9632; 9632; 9632; 9632; 9632; 9632;
   9632; 9632; 9632; 9632; 9632; 9632; 9632; 9632; 9632; 9632; 9632; 9632; 9632; 9632; 9632; 9632;
   9632; 9632; 9632; 9632; 9632; 9632; 9632; 9632; 9632; 9632; 9632; 9632; 9632; 9632; 9632; 9632;
   9632; 9632; 9632; 9632; 9632; 9632; 9632; 9632; 9632; 9632; 9632; 9632; 9632; 9632; 9632; 9632;
   9632; 9632; 9632; 9632; 9632; 9632; 9632; 9632; 9632; 9632; 9632; 9632; 9632; 9632; 9632; 9632;
   9632; 9632; 9632; 9632; 9632; 9632; 9632; 9632; 9632; 9632; 9632; 9632; 9632; 9632; 9632; 9632;
   9632; 9632; 9632; 9632; 9632; 9632; 9632; 9632; 9632; 9632; 9632; 9632; 9632; 9632; 9632; 9632;
   9632; 9632; 9632; 9632; 9632; 9632; 9632; 9632; 9632; 9632; 9632; 9632; 9632; 9632; 9632; 9632;
   9632; 9632; 9632; 9632; 9632; 9632; 9632; 9632; 9632; 9632; 9632; 9632; 9632; 9632; 9632; 9632;
   9632; 9632; 9632; 9632; 9632; 9632; 9632; 9632; 9632; 9632; 9632; 9632; 9632; 9632; 9632; 9632;
   9632; 9632; 9632; 9632; 9632; 9632; 9632; 9632; 9632; 9632; 9632; 9632; 9632; 9632; 9632; 9632;
   9632; 9632; 9632; 9632; 9632; 9632; 9632; 9632; 9632; 9632; 9632; 9632; 9632; 9632; 9632; 9632].

Definition topBit : list Z :=
  [0; 0; 1; 1; 2; 2; 2; 2; 3; 3; 3; 3; 3; 3; 3; 3;
   4; 4; 4; 4; 4; 4; 4; 4; 4; 4; 4; 4; 4; 4; 4; 4;
   5; 5; 5; 5; 5; 5; 5; 5; 5; 5; 5; 5; 5; 5; 5; 5;
   5; 5; 5; 5; 5; 5; 5; 5; 5; 5; 5; 5; 5; 5; 5; 5;
   6; 6; 6; 6; 6; 6; 6; 6; 6; 6; 6; 6; 6; 6; 6; 6;
   6; 6; 6; 6; 6; 6; 6; 6; 6; 6; 6; 6; 6; 6; 6; 6;
   6; 6; 6; 6; 6; 6; 6; 6; 6; 6; 6; 6; 6; 6; 6; 6;
   6; 6; 6; 6; 6; 6; 6; 6; 6; 6; 6; 6; 6; 6; 6; 6;
   7; 7; 7; 7; 7; 7; 7; 7; 7; 7; 7; 7; 7; 7; 7; 7;
   7; 7; 7; 7; 7; 7; 7; 7; 7; 7; 7; 7; 7; 7; 7; 7;
   7; 7; 7; 7; 7; 7; 7; 7; 7; 7; 7; 7; 7; 7; 7; 7;
   7; 7; 7; 7; 7; 7; 7; 7; 7; 7; 7; 7; 7; 7; 7; 7;
   7; 7; 7; 7; 7; 7; 7; 7; 7; 7; 7; 7; 7; 7; 7; 7;
   7; 7; 7; 7; 7; 7; 7; 7; 7; 7; 7; 7; 7; 7; 7; 7;
   7; 7; 7; 7; 7; 7; 7; 7; 7; 7; 7; 7; 7; 7; 7; 7;
   7; 7; 7; 7; 7; 7; 7; 7; 7; 7; 7; 7; 7; 7; 7; 7;
   8; 8; 8; 8; 8; 8; 8; 8; 8; 8; 8; 8; 8; 8; 8; 8;
   8; 8; 8; 8; 8; 8; 8; 8; 8; 8; 8; 8; 8; 8; 8; 8;
   8; 8; 8; 8; 8; 8; 8; 8; 8; 8; 8; 8; 8; 8; 8; 8;
   8; 8; 8; 8; 8; 8; 8; 8; 8; 8; 8; 8; 8; 8; 8; 8;
   8; 8; 8; 8; 8; 8; 8; 8; 8; 8; 8; 8; 8; 8; 8; 8;
   8; 8; 8; 8; 8; 8; 8; 8; 8; 8; 8; 8; 8; 8; 8; 8;
   8; 8; 8; 8; 8; 8; 8; 8; 8; 8; 8; 8; 8; 8; 8; 8;
   8; 8; 8; 8; 8; 8; 8; 8; 8; 8; 8; 8; 8; 8; 8; 8;
   8; 8; 8; 8; 8; 8; 8; 8; 8; 8; 8; 8; 8; 8; 8; 8;
   8; 8; 8; 8; 8; 8; 8; 8; 8; 8; 8; 8; 8; 8; 8; 8;
   8; 8; 8; 8; 8; 8; 8; 8; 8; 8; 8; 8; 8; 8; 8; 8;
   8; 8; 8; 8; 8; 8; 8; 8; 8; 8; 8; 8; 8; 8; 8; 8;
   8; 8; 8; 8; 8; 8; 8; 8; 8; 8; 8; 8; 8; 8; 8; 8;
   8; 8; 8; 8; 8; 8; 8; 8; 8; 8; 8; 8; 8; 8; 8; 8;
   8; 8; 8; 8; 8; 8; 8; 8; 8; 8; 8; 8; 8; 8; 8; 8;
   8; 8; 8; 8; 8; 8; 8; 8; 8; 8; 8; 8; 8; 8; 8; 8;
   9; 9; 9; 9; 9; 9; 9; 9; 9; 9; 9; 9; 9; 9; 9; 9;
   9; 9; 9; 9; 9; 9; 9; 9; 9; 9; 9; 9; 9; 9; 9; 9;
   9; 9; 9; 9; 9; 9; 9; 9; 9; 9; 9; 9; 9; 9; 9; 9;
   9; 9; 9; 9; 9; 9; 9; 9; 9; 9; 9; 9; 9; 9; 9; 9;
   9; 9; 9; 9; 9; 9; 9; 9; 9; 9; 9; 9; 9; 9; 9; 9;
   9; 9; 9; 9; 9; 9; 9; 9; 9; 9; 9; 9; 9; 9; 9; 9;
   9; 9; 9; 9; 9; 9; 9; 9; 9; 9; 9; 9; 9; 9; 9; 9;
   9; 9; 9; 9; 9; 9; 9; 9; 9; 9; 9; 9; 9; 9; 9; 9;
   9; 9; 9; 9; 9; 9; 9; 9; 9; 9; 9; 9; 9; 9; 9; 9;
   9; 9; 9; 9; 9; 9; 9; 9; 9; 9; 9; 9; 9; 9; 9; 9;
   9; 9; 9; 9; 9; 9; 9; 9; 9; 9; 9; 9; 9; 9; 9; 9;
   9; 9; 9; 9; 9; 9; 9; 9; 9; 9; 9; 9; 9; 9; 9; 9;
   9; 9; 9; 9; 9; 9; 9; 9; 9; 9; 9; 9; 9; 9; 9; 9;
   9; 9; 9; 9; 9; 9; 9; 9; 9; 9; 9; 9; 9; 9; 9; 9;
   9; 9; 9; 9; 9; 9; 9; 9; 9; 9; 9; 9; 9; 9; 9; 9;
   9; 9; 9; 9; 9; 9; 9; 9; 9; 9; 9; 9; 9; 9; 9; 9;
   9; 9; 9; 9; 9; 9; 9; 9; 9; 9; 9; 9; 9; 9; 9; 9;
   9; 9; 9; 9; 9; 9; 9; 9; 9; 9; 9; 9; 9; 9; 9; 9;
   9; 9; 9; 9; 9; 9; 9; 9; 9; 9; 9; 9; 9; 9; 9; 9;
   9; 9; 9; 9; 9; 9; 9; 9; 9; 9; 9; 9; 9; 9; 9; 9;
   9; 9; 9; 9; 9; 9; 9; 9; 9; 9; 9; 9; 9; 9; 9; 9;
   9; 9; 9; 9; 9; 9; 9; 9; 9; 9; 9; 9; 9; 9; 9; 9;
   9; 9; 9; 9; 9; 9; 9; 9; 9; 9; 9; 9; 9; 9; 9; 9;
   9; 9; 9; 9; 9; 9; 9; 9; 9; 9; 9; 9; 9; 9; 9; 9;
   9; 9; 9; 9; 9; 9; 9; 9; 9; 9; 9; 9; 9; 9; 9; 9;
   9; 9; 9; 9; 9; 9; 9; 9; 9; 9; 9; 9; 9; 9; 9; 9;
   9; 9; 9; 9; 9; 9; 9; 9; 9; 9; 9; 9; 9; 9; 9; 9;
   9; 9; 9; 9; 9; 9; 9; 9; 9; 9; 9; 9; 9; 9; 9; 9;
   9; 9; 9; 9; 9; 9; 9; 9; 9; 9; 9; 9; 9; 9; 9; 9;
   9; 9; 9; 9; 9; 9; 9; 9; 9; 9; 9; 9; 9; 9; 9; 9;
   9; 9; 9; 9; 9; 9; 9; 9; 9; 9; 9; 9; 9; 9; 9; 9;
   9; 9; 9; 9; 9; 9; 9; 9; 9; 9; 9; 9; 9; 9; 9; 9;
   10; 10; 10; 10; 10; 10; 10; 10; 10; 10; 10; 10; 10; 10; 10; 10;
   10; 10; 10; 10; 10; 10; 10; 10; 10; 10; 10; 10; 10; 10; 10; 10;
   10; 10; 10; 10; 10; 10; 10; 10; 10; 10; 10; 10; 10; 10; 10; 10;
   10; 10; 10; 10; 10; 10; 10; 10; 10; 10; 10; 10; 10; 10; 10; 10;
   10; 10; 10; 10; 10; 10; 10; 10; 10; 10; 10; 10; 10; 10; 10; 10;
   10; 10; 10; 10; 10; 10; 10; 10; 10; 10; 10; 10; 10; 10; 10; 10;
   10; 10; 10; 10; 10; 10; 10; 10; 10; 10; 10; 10; 10; 10; 10; 10;
   10; 10; 10; 10; 10; 10; 10; 10; 10; 10; 10; 10; 10; 10; 10; 10;
   10; 10; 10; 10; 10; 10; 10; 10; 10; 10; 10; 10; 10; 10; 10; 10;
   10; 10; 10; 10; 10; 10; 10; 10; 10; 10; 10; 10; 10; 10; 10; 10;
   10; 10; 10; 10; 10; 10; 10; 10; 10; 10; 10; 10; 10; 10; 10; 10;
   10; 10; 10; 10; 10; 10; 10; 10; 10; 10; 10; 10; 10; 10; 10; 10;
   10; 10; 10; 10; 10; 10; 10; 10; 10; 10; 10; 10; 10; 10; 10; 10;
   10; 10; 10; 10; 10; 10; 10; 10; 10; 10; 10; 10; 10; 10; 10; 10;
   10; 10; 10; 10; 10; 10; 10; 10; 10; 10; 10; 10; 10; 10; 10; 10;
   10; 10; 10; 10; 10; 10; 10; 10; 10; 10; 10; 10; 10; 10; 10; 10;
   10; 10; 10; 10; 10; 10; 10; 10; 10; 10; 10; 10; 10; 10; 10; 10;
   10; 10; 10; 10; 10; 10; 10; 10; 10; 10; 10; 10; 10; 10; 10; 10;
   10; 10; 10; 10; 10; 10; 10; 10; 10; 10; 10; 10; 10; 10; 10; 10;
   10; 10; 10; 10; 10; 10; 10; 10; 10; 10; 10; 10; 10; 10; 10; 10;
   10; 10; 10; 10; 10; 10; 10; 10; 10; 10; 10; 10; 10; 10; 10; 10;
   10; 10; 10; 10; 10; 10; 10; 10; 10; 10; 10; 10; 10; 10; 10; 10;
   10; 10; 10; 10; 10; 10; 10; 10; 10; 10; 10; 10; 10; 10; 10; 10;
   10; 10; 10; 10; 10; 10; 10; 10; 10; 10; 10; 10; 10; 10; 10; 10;
   10; 10; 10; 10; 10; 10; 10; 10; 10; 10; 10; 10; 10; 10; 10; 10;
   10; 10; 10; 10; 10; 10; 10; 10; 10; 10; 10; 10; 10; 10; 10; 10;
   10; 10; 10; 10; 10; 10; 10; 10; 10; 10; 10; 10; 10; 10; 10; 10;
   10; 10; 10; 10; 10; 10; 10; 10; 10; 10; 10; 10; 10; 10; 10; 10;
   10; 10; 10; 10; 10; 10; 10; 10; 10; 10; 10; 10; 10; 10; 10; 10;
   10; 10; 10; 10; 10; 10; 10; 10; 10; 10; 10; 10; 10; 10; 10; 10;
   10; 10; 10; 10; 10; 10; 10; 10; 10; 10; 10; 10; 10; 10; 10; 10;
   10; 10; 10; 10; 10; 10; 10; 10; 10; 10; 10; 10; 10; 10; 10; 10;
   10; 10; 10; 10; 10; 10; 10; 10; 10; 10; 10; 10; 10; 10; 10; 10;
   10; 10; 10; 10; 10; 10; 10; 10; 10; 10; 10; 10; 10; 10; 10; 10;
   10; 10; 10; 10; 10; 10; 10; 10; 10; 10; 10; 10; 10; 10; 10; 10;
   10; 10; 10; 10; 10; 10; 10; 10; 10; 10; 10; 10; 10; 10; 10; 10;
   10; 10; 10; 10; 10; 10; 10; 10; 10; 10; 10; 10; 10; 10; 10; 10;
   10; 10; 10; 10; 10; 10; 10; 10; 10; 10; 10; 10; 10; 10; 10; 10;
   10; 10; 10; 10; 10; 10; 10; 10; 10; 10; 10; 10; 10; 10; 10; 10;
   10; 10; 10; 10; 10; 10; 10; 10; 10; 10; 10; 10; 10; 10; 10; 10;
   10; 10; 10; 10; 10; 10; 10; 10; 10; 10; 10; 10; 10; 10; 10; 10;
   10; 10; 10; 10; 10; 10; 10; 10; 10; 10; 10; 10; 10; 10; 10; 10;
   10; 10; 10; 10; 10; 10; 10; 10; 10; 10; 10; 10; 10; 10; 10; 10;
   10; 10; 10; 10; 10; 10; 10; 10; 10; 10; 10; 10; 10; 10; 10; 10;
   10; 10; 10; 10; 10; 10; 10; 10; 10; 10; 10; 10; 10; 10; 10; 10;
   10; 10; 10; 10; 10; 10; 10; 10; 10; 10; 10; 10; 10; 10; 10; 10;
   10; 10; 10; 10; 10; 10; 10; 10; 10; 10; 10; 10; 10; 10; 10; 10;
   10; 10; 10; 10; 10; 10; 10; 10; 10; 10; 10; 10; 10; 10; 10; 10;
   10; 10; 10; 10; 10; 10; 10; 10; 10; 10; 10; 10; 10; 10; 10; 10;
   10; 10; 10; 10; 10; 10; 10; 10; 10; 10; 10; 10; 10; 10; 10; 10;
   10; 10; 10; 10; 10; 10; 10; 10; 10; 10; 10; 10; 10; 10; 10; 10;
   10; 10; 10; 10; 10; 10; 10; 10; 10; 10; 10; 10; 10; 10; 10; 10;
   10; 10; 10; 10; 10; 10; 10; 10; 10; 10; 10; 10; 10; 10; 10; 10;
   10; 10; 10; 10; 10; 10; 10; 10; 10; 10; 10; 10; 10; 10; 10; 10;
   10; 10; 10; 10; 10; 10; 10; 10; 10; 10; 10; 10; 10; 10; 10; 10;
   10; 10; 10; 10; 10; 10; 10; 10; 10; 10; 10; 10; 10; 10; 10; 10;
   10; 10; 10; 10; 10; 10; 10; 10; 10; 10; 10; 10; 10; 10; 10; 10;
   10; 10; 10; 10; 10; 10; 10; 10; 10; 10; 10; 10; 10; 10; 10; 10;
   10; 10; 10; 10; 10; 10; 10; 10; 10; 10; 10; 10; 10; 10; 10; 10;
   10; 10; 10; 10; 10; 10; 10; 10; 10; 10; 10; 10; 10; 10; 10; 10;
   10; 10; 10; 10; 10; 10; 10; 10; 10; 10; 10; 10; 10; 10; 10; 10;
   10; 10; 10; 10; 10; 10; 10; 10; 10; 10; 10; 10; 10; 10; 10; 10;
   10; 10; 10; 10; 10; 10; 10; 10; 10; 10; 10; 10; 10; 10; 10; 10;
   10; 10; 10; 10; 10; 10; 10; 10; 10; 10; 10; 10; 10; 10; 10; 10;
   11; 11; 11; 11; 11; 11; 11; 11; 11; 11; 11; 11; 11; 11; 11; 11;
   11; 11; 11; 11; 11; 11; 11; 11; 11; 11; 11; 11; 11; 11; 11; 11;
   11; 11; 11; 11; 11; 11; 11; 11; 11; 11; 11; 11; 11; 11; 11; 11;
   11; 11; 11; 11; 11; 11; 11; 11; 11; 11; 11; 11; 11; 11; 11; 11;
   11; 11; 11; 11; 11; 11; 11; 11; 11; 11; 11; 11; 11; 11; 11; 11;
   11; 11; 11; 11; 11; 11; 11; 11; 11; 11; 11; 11; 11; 11; 11; 11;
   11; 11; 11; 11; 11; 11; 11; 11; 11; 11; 11; 11; 11; 11; 11; 11;
   11; 11; 11; 11; 11; 11; 11; 11; 11; 11; 11; 11; 11; 11; 11; 11;
   11; 11; 11; 11; 11; 11; 11; 11; 11; 11; 11; 11; 11; 11; 11; 11;
   11; 11; 11; 11; 11; 11; 11; 11; 11; 11; 11; 11; 11; 11; 11; 11;
   11; 11; 11; 11; 11; 11; 11; 11; 11; 11; 11; 11; 11; 11; 11; 11;
   11; 11; 11; 11; 11; 11; 11; 11; 11; 11; 11; 11; 11; 11; 11; 11;
   11; 11; 11; 11; 11; 11; 11; 11; 11; 11; 11; 11; 11; 11; 11; 11;
   11; 11; 11; 11; 11; 11; 11; 11; 11; 11; 11; 11; 11; 11; 11; 11;
   11; 11; 11; 11; 11; 11; 11; 11; 11; 11; 11; 11; 11; 11; 11; 11;
   11; 11; 11; 11; 11; 11; 11; 11; 11; 11; 11; 11; 11; 11; 11; 11;
   11; 11; 11; 11; 11; 11; 11; 11; 11; 11; 11; 11; 11; 11; 11; 11;
   11; 11; 11; 11; 11; 11; 11; 11; 11; 11; 11; 11; 11; 11; 11; 11;
   11; 11; 11; 11; 11; 11; 11; 11; 11; 11; 11; 11; 11; 11; 11; 11;
   11; 11; 11; 11; 11; 11; 11; 11; 11; 11; 11; 11; 11; 11; 11; 11;
   11; 11; 11; 11; 11; 11; 11; 11; 11; 11; 11; 11; 11; 11; 11; 11;
   11; 11; 11; 11; 11; 11; 11; 11; 11; 11; 11; 11; 11; 11; 11; 11;
   11; 11; 11; 11; 11; 11; 11; 11; 11; 11; 11; 11; 11; 11; 11; 11;
   11; 11; 11; 11; 11; 11; 11; 11; 11; 11; 11; 11; 11; 11; 11; 11;
   11; 11; 11; 11; 11; 11; 11; 11; 11; 11; 11; 11; 11; 11; 11; 11;
   11; 11; 11; 11; 11; 11; 11; 11; 11; 11; 11; 11; 11; 11; 11; 11;
   11; 11; 11; 11; 11; 11; 11; 11; 11; 11; 11; 11; 11; 11; 11; 11;
   11; 11; 11; 11; 11; 11; 11; 11; 11; 11; 11; 11; 11; 11; 11; 11;
   11; 11; 11; 11; 11; 11; 11; 11; 11; 11; 11; 11; 11; 11; 11; 11;
   11; 11; 11; 11; 11; 11; 11; 11; 11; 11; 11; 11; 11; 11; 11; 11;
   11; 11; 11; 11; 11; 11; 11; 11; 11; 11; 11; 11; 11; 11; 11; 11;
   11; 11; 11; 11; 11; 11; 11; 11; 11; 11; 11; 11; 11; 11; 11; 11;
   11; 11; 11; 11; 11; 11; 11; 11; 11; 11; 11; 11; 11; 11; 11; 11;
   11; 11; 11; 11; 11; 11; 11; 11; 11; 11; 11; 11; 11; 11; 11; 11;
   11; 11; 11; 11; 11; 11; 11; 11; 11; 11; 11; 11; 11; 11; 11; 11;
   11; 11; 11; 11; 11; 11; 11; 11; 11; 11; 11; 11; 11; 11; 11; 11;
   11; 11; 11; 11; 11; 11; 11; 11; 11; 11; 11; 11; 11; 11; 11; 11;
   11; 11; 11; 11; 11; 11; 11; 11; 11; 11; 11; 11; 11; 11; 11; 11;
   11; 11; 11; 11; 11; 11; 11; 11; 11; 11; 11; 11; 11; 11; 11; 11;
   11; 11; 11; 11; 11; 11; 11; 11; 11; 11; 11; 11; 11; 11; 11; 11;
   11; 11; 11; 11; 11; 11; 11; 11; 11; 11; 11; 11; 11; 11; 11; 11;
   11; 11; 11; 11; 11; 11; 11; 11; 11; 11; 11; 11; 11; 11; 11; 11;
   11; 11; 11; 11; 11; 11; 11; 11; 11; 11; 11; 11; 11; 11; 11; 11;
   11; 11; 11; 11; 11; 11; 11; 11; 11; 11; 11; 11; 11; 11; 11; 11;
   11; 11; 11; 11; 11; 11; 11; 11; 11; 11; 11; 11; 11; 11; 11; 11;
   11; 11; 11; 11; 11; 11; 11; 11; 11; 11; 11; 11; 11; 11; 11; 11;
   11; 11; 11; 11; 11; 11; 11; 11; 11; 11; 11; 11; 11; 11; 11; 11;
   11; 11; 11; 11; 11; 11; 11; 11; 11; 11; 11; 11; 11; 11; 11; 11;
   11; 11; 11; 11; 11; 11; 11; 11; 11; 11; 11; 11; 11; 11; 11; 11;
   11; 11; 11; 11; 11; 11; 11; 11; 11; 11; 11; 11; 11; 11; 11; 11;
   11; 11; 11; 11; 11; 11; 11; 11; 11; 11; 11; 11; 11; 11; 11; 11;
   11; 11; 11; 11; 11; 11; 11; 11; 11; 11; 11; 11; 11; 11; 11; 11;
   11; 11; 11; 11; 11; 11; 11; 11; 11; 11; 11; 11; 11; 11; 11; 11;
   11; 11; 11; 11; 11; 11; 11; 11; 11; 11; 11; 11; 11; 11; 11; 11;
   11; 11; 11; 11; 11; 11; 11; 11; 11; 11; 11; 11; 11; 11; 11; 11;
   11; 11; 11; 11; 11; 11; 11; 11; 11; 11; 11; 11; 11; 11; 11; 11;
   11; 11; 11; 11; 11; 11; 11; 11; 11; 11; 11; 11; 11; 11; 11; 11;
   11; 11; 11; 11; 11; 11; 11; 11; 11; 11; 11; 11; 11; 11; 11; 11;
   11; 11; 11; 11; 11; 11; 11; 11; 11; 11; 11; 11; 11; 11; 11; 11;
   11; 11; 11; 11; 11; 11; 11; 11; 11; 11; 11; 11; 11; 11; 11; 11;
   11; 11; 11; 11; 11; 11; 11; 11; 11; 11; 11; 11; 11; 11; 11; 11;
   11; 11; 11; 11; 11; 11; 11; 11; 11; 11; 11; 11; 11; 11; 11; 11;
   11; 11; 11; 11; 11; 11; 11; 11; 11; 11; 11; 11; 11; 11; 11; 11;
   11; 11; 11; 11; 11; 11; 11; 11; 11; 11; 11; 11; 11; 11; 11; 11;
   11; 11; 11; 11; 11; 11; 11; 11; 11; 11; 11; 11; 11; 11; 11; 11;
   11; 11; 11; 11; 11; 11; 11; 11; 11; 11; 11; 11; 11; 11; 11; 11;
   11; 11; 11; 11; 11; 11; 11; 11; 11; 11; 11; 11; 11; 11; 11; 11;
   11; 11; 11; 11; 11; 11; 11; 11; 11; 11; 11; 11; 11; 11; 11; 11;
   11; 11; 11; 11; 11; 11; 11; 11; 11; 11; 11; 11; 11; 11; 11; 11;
   11; 11; 11; 11; 11; 11; 11; 11; 11; 11; 11; 11; 11; 11; 11; 11;
   11; 11; 11; 11; 11; 11; 11; 11; 11; 11; 11; 11; 11; 11; 11; 11;
   11; 11; 11; 11; 11; 11; 11; 11; 11; 11; 11; 11; 11; 11; 11; 11;
   11; 11; 11; 11; 11; 11; 11; 11; 11; 11; 11; 11; 11; 11; 11; 11;
   11; 11; 11; 11; 11; 11; 11; 11; 11; 11; 11; 11; 11; 11; 11; 11;
   11; 11; 11; 11; 11; 11; 11; 11; 11; 11; 11; 11; 11; 11; 11; 11;
   11; 11; 11; 11; 11; 11; 11; 11; 11; 11; 11; 11; 11; 11; 11; 11;
   11; 11; 11; 11; 11; 11; 11; 11; 11; 11; 11; 11; 11; 11; 11; 11;
   11; 11; 11; 11; 11; 11; 11; 11; 11; 11; 11; 11; 11; 11; 11; 11;
   11; 11; 11; 11; 11; 11; 11; 11; 11; 11; 11; 11; 11; 11; 11; 11;
   11; 11; 11; 11; 11; 11; 11; 11; 11; 11; 11; 11; 11; 11; 11; 11;
   11; 11; 11; 11; 11; 11; 11; 11; 11; 11; 11; 11; 11; 11; 11; 11;
   11; 11; 11; 11; 11; 11; 11; 11; 11; 11; 11; 11; 11; 11; 11; 11;
   11; 11; 11; 11; 11; 11; 11; 11; 11; 11; 11; 11; 11; 11; 11; 11;
   11; 11; 11; 11; 11; 11; 11; 11; 11; 11; 11; 11; 11; 11; 11; 11;
   11; 11; 11; 11; 11; 11; 11; 11; 11; 11; 11; 11; 11; 11; 11; 11;
   11; 11; 11; 11; 11; 11; 11; 11; 11; 11; 11; 11; 11; 11; 11; 11;
   11; 11; 11; 11; 11; 11; 11; 11; 11; 11; 11; 11; 11; 11; 11; 11;
   11; 11; 11; 11; 11; 11; 11; 11; 11; 11; 11; 11; 11; 11; 11; 11;
   11; 11; 11; 11; 11; 11; 11; 11; 11; 11; 11; 11; 11; 11; 11; 11;
   11; 11; 11; 11; 11; 11; 11; 11; 11; 11; 11; 11; 11; 11; 11; 11;
   11; 11; 11; 11; 11; 11; 11; 11; 11; 11; 11; 11; 11; 11; 11; 11;
   11; 11; 11; 11; 11; 11; 11; 11; 11; 11; 11; 11; 11; 11; 11; 11;
   11; 11; 11; 11; 11; 11; 11; 11; 11; 11; 11; 11; 11; 11; 11; 11;
   11; 11; 11; 11; 11; 11; 11; 11; 11; 11; 11; 11; 11; 11; 11; 11;
   11; 11; 11; 11; 11; 11; 11; 11; 11; 11; 11; 11; 11; 11; 11; 11;
   11; 11; 11; 11; 11; 11; 11; 11; 11; 11; 11; 11; 11; 11; 11; 11;
   11; 11; 11; 11; 11; 11; 11; 11; 11; 11; 11; 11; 11; 11; 11; 11;
   11; 11; 11; 11; 11; 11; 11; 11; 11; 11; 11; 11; 11; 11; 11; 11;
   11; 11; 11; 11; 11; 11; 11; 11; 11; 11; 11; 11; 11; 11; 11; 11;
   11; 11; 11; 11; 11; 11; 11; 11; 11; 11; 11; 11; 11; 11; 11; 11;
   11; 11; 11; 11; 11; 11; 11; 11; 11; 11; 11; 11; 11; 11; 11; 11;
   11; 11; 11; 11; 11; 11; 11; 11; 11; 11; 11; 11; 11; 11; 11; 11;
   11; 11; 11; 11; 11; 11; 11; 11; 11; 11; 11; 11; 11; 11; 11; 11;
   11; 11; 11; 11; 11; 11; 11; 11; 11; 11; 11; 11; 11; 11; 11; 11;
   11; 11; 11; 11; 11; 11; 11; 11; 11; 11; 11; 11; 11; 11; 11; 11;
   11; 11; 11; 11; 11; 11; 11; 11; 11; 11; 11; 11; 11; 11; 11; 11;
   11; 11; 11; 11; 11; 11; 11; 11; 11; 11; 11; 11; 11; 11; 11; 11;
   11; 11; 11; 11; 11; 11; 11; 11; 11; 11; 11; 11; 11; 11; 11; 11;
   11; 11; 11; 11; 11; 11; 11; 11; 11; 11; 11; 11; 11; 11; 11; 11;
   11; 11; 11; 11; 11; 11; 11; 11; 11; 11; 11; 11; 11; 11; 11; 11;
   11; 11; 11; 11; 11; 11; 11; 11; 11; 11; 11; 11; 11; 11; 11; 11;
   11; 11; 11; 11; 11; 11; 11; 11; 11; 11; 11; 11; 11; 11; 11; 11;
   11; 11; 11; 11; 11; 11; 11; 11; 11; 11; 11; 11; 11; 11; 11; 11;
   11; 11; 11; 11; 11; 11; 11; 11; 11; 11; 11; 11; 11; 11; 11; 11;
   11; 11; 11; 11; 11; 11; 11; 11; 11; 11; 11; 11; 11; 11; 11; 11;
   11; 11; 11; 11; 11; 11; 11; 11; 11; 11; 11; 11; 11; 11; 11; 11;
   11; 11; 11; 11; 11; 11; 11; 11; 11; 11; 11; 11; 11; 11; 11; 11;
   11; 11; 11; 11; 11; 11; 11; 11; 11; 11; 11; 11; 11; 11; 11; 11;
   11; 11; 11; 11; 11; 11; 11; 11; 11; 11; 11; 11; 11; 11; 11; 11;
   11; 11; 11; 11; 11; 11; 11; 11; 11; 11; 11; 11; 11; 11; 11; 11;
   11; 11; 11; 11; 11; 11; 11; 11; 11; 11; 11; 11; 11; 11; 11; 11;
   11; 11; 11; 11; 11; 11; 11; 11; 11; 11; 11; 11; 11; 11; 11; 11;
   11; 11; 11; 11; 11; 11; 11; 11; 11; 11; 11; 11; 11; 11; 11; 11;
   11; 11; 11; 11; 11; 11; 11; 11; 11; 11; 11; 11; 11; 11; 11; 11;
   11; 11; 11; 11; 11; 11; 11; 11; 11; 11; 11; 11; 11; 11; 11; 11;
   11; 11; 11; 11; 11; 11; 11; 11; 11; 11; 11; 11; 11; 11; 11; 11;
   11; 11; 11; 11; 11; 11; 11; 11; 11; 11; 11; 11; 11; 11; 11; 11;
   11; 11; 11; 11; 11; 11; 11; 11; 11; 11; 11; 11; 11; 11; 11; 11;
   12; 12; 12; 12; 12; 12; 12; 12; 12; 12; 12; 12; 12; 12; 12; 12;
   12; 12; 12; 12; 12; 12; 12; 12; 12; 12; 12; 12; 12; 12; 12; 12;
   12; 12; 12; 12; 12; 12; 12; 12; 12; 12; 12; 12; 12; 12; 12; 12;
   12; 12; 12; 12; 12; 12; 12; 12; 12; 12; 12; 12; 12; 12; 12; 12;
   12; 12; 12; 12; 12; 12; 12; 12; 12; 12; 12; 12; 12; 12; 12; 12;
   12; 12; 12; 12; 12; 12; 12; 12; 12; 12; 12; 12; 12; 12; 12; 12;
   12; 12; 12; 12; 12; 12; 12; 12; 12; 12; 12; 12; 12; 12; 12; 12;
   12; 12; 12; 12; 12; 12; 12; 12; 12; 12; 12; 12; 12; 12; 12; 12;
   12; 12; 12; 12; 12; 12; 12; 12; 12; 12; 12; 12; 12; 12; 12; 12;
   12; 12; 12; 12; 12; 12; 12; 12; 12; 12; 12; 12; 12; 12; 12; 12;
   12; 12; 12; 12; 12; 12; 12; 12; 12; 12; 12; 12; 12; 12; 12; 12;
   12; 12; 12; 12; 12; 12; 12; 12; 12; 12; 12; 12; 12; 12; 12; 12;
   12; 12; 12; 12; 12; 12; 12; 12; 12; 12; 12; 12; 12; 12; 12; 12;
   12; 12; 12; 12; 12; 12; 12; 12; 12; 12; 12; 12; 12; 12; 12; 12;
   12; 12; 12; 12; 12; 12; 12; 12; 12; 12; 12; 12; 12; 12; 12; 12;
   12; 12; 12; 12; 12; 12; 12; 12; 12; 12; 12; 12; 12; 12; 12; 12;
   12; 12; 12; 12; 12; 12; 12; 12; 12; 12; 12; 12; 12; 12; 12; 12;
   12; 12; 12; 12; 12; 12; 12; 12; 12; 12; 12; 12; 12; 12; 12; 12;
   12; 12; 12; 12; 12; 12; 12; 12; 12; 12; 12; 12; 12; 12; 12; 12;
   12; 12; 12; 12; 12; 12; 12; 12; 12; 12; 12; 12; 12; 12; 12; 12;
   12; 12; 12; 12; 12; 12; 12; 12; 12; 12; 12; 12; 12; 12; 12; 12;
   12; 12; 12; 12; 12; 12; 12; 12; 12; 12; 12; 12; 12; 12; 12; 12;
   12; 12; 12; 12; 12; 12; 12; 12; 12; 12; 12; 12; 12; 12; 12; 12;
   12; 12; 12; 12; 12; 12; 12; 12; 12; 12; 12; 12; 12; 12; 12; 12;
   12; 12; 12; 12; 12; 12; 12; 12; 12; 12; 12; 12; 12; 12; 12; 12;
   12; 12; 12; 12; 12; 12; 12; 12; 12; 12; 12; 12; 12; 12; 12; 12;
   12; 12; 12; 12; 12; 12; 12; 12; 12; 12; 12; 12; 12; 12; 12; 12;
   12; 12; 12; 12; 12; 12; 12; 12; 12; 12; 12; 12; 12; 12; 12; 12;
   12; 12; 12; 12; 12; 12; 12; 12; 12; 12; 12; 12; 12; 12; 12; 12;
   12; 12; 12; 12; 12; 12; 12; 12; 12; 12; 12; 12; 12; 12; 12; 12;
   12; 12; 12; 12; 12; 12; 12; 12; 12; 12; 12; 12; 12; 12; 12; 12;
   12; 12; 12; 12; 12; 12; 12; 12; 12; 12; 12; 12; 12; 12; 12; 12;
   12; 12; 12; 12; 12; 12; 12; 12; 12; 12; 12; 12; 12; 12; 12; 12;
   12; 12; 12; 12; 12; 12; 12; 12; 12; 12; 12; 12; 12; 12; 12; 12;
   12; 12; 12; 12; 12; 12; 12; 12; 12; 12; 12; 12; 12; 12; 12; 12;
   12; 12; 12; 12; 12; 12; 12; 12; 12; 12; 12; 12; 12; 12; 12; 12;
   12; 12; 12; 12; 12; 12; 12; 12; 12; 12; 12; 12; 12; 12; 12; 12;
   12; 12; 12; 12; 12; 12; 12; 12; 12; 12; 12; 12; 12; 12; 12; 12;
   12; 12; 12; 12; 12; 12; 12; 12; 12; 12; 12; 12; 12; 12; 12; 12;
   12; 12; 12; 12; 12; 12; 12; 12; 12; 12; 12; 12; 12; 12; 12; 12;
   12; 12; 12; 12; 12; 12; 12; 12; 12; 12; 12; 12; 12; 12; 12; 12;
   12; 12; 12; 12; 12; 12; 12; 12; 12; 12; 12; 12; 12; 12; 12; 12;
   12; 12; 12; 12; 12; 12; 12; 12; 12; 12; 12; 12; 12; 12; 12; 12;
   12; 12; 12; 12; 12; 12; 12; 12; 12; 12; 12; 12; 12; 12; 12; 12;
   12; 12; 12; 12; 12; 12; 12; 12; 12; 12; 12; 12; 12; 12; 12; 12;
   12; 12; 12; 12; 12; 12; 12; 12; 12; 12; 12; 12; 12; 12; 12; 12;
   12; 12; 12; 12; 12; 12; 12; 12; 12; 12; 12; 12; 12; 12; 12; 12;
   12; 12; 12; 12; 12; 12; 12; 12; 12; 12; 12; 12; 12; 12; 12; 12;
   12; 12; 12; 12; 12; 12; 12; 12; 12; 12; 12; 12; 12; 12; 12; 12;
   12; 12; 12; 12; 12; 12; 12; 12; 12; 12; 12; 12; 12; 12; 12; 12;
   12; 12; 12; 12; 12; 12; 12; 12; 12; 12; 12; 12; 12; 12; 12; 12;
   12; 12; 12; 12; 12; 12; 12; 12; 12; 12; 12; 12; 12; 12; 12; 12;
   12; 12; 12; 12; 12; 12; 12; 12; 12; 12; 12; 12; 12; 12; 12; 12;
   12; 12; 12; 12; 12; 12; 12; 12; 12; 12; 12; 12; 12; 12; 12; 12;
   12; 12; 12; 12; 12; 12; 12; 12; 12; 12; 12; 12; 12; 12; 12; 12;
   12; 12; 12; 12; 12; 12; 12; 12; 12; 12; 12; 12; 12; 12; 12; 12;
   12; 12; 12; 12; 12; 12; 12; 12; 12; 12; 12; 12; 12; 12; 12; 12;
   12; 12; 12; 12; 12; 12; 12; 12; 12; 12; 12; 12; 12; 12; 12; 12;
   12; 12; 12; 12; 12; 12; 12; 12; 12; 12; 12; 12; 12; 12; 12; 12;
   12; 12; 12; 12; 12; 12; 12; 12; 12; 12; 12; 12; 12; 12; 12; 12;
   12; 12; 12; 12; 12; 12; 12; 12; 12; 12; 12; 12; 12; 12; 12; 12;
   12; 12; 12; 12; 12; 12; 12; 12; 12; 12; 12; 12; 12; 12; 12; 12;
   12; 12; 12; 12; 12; 12; 12; 12; 12; 12; 12; 12; 12; 12; 12; 12;
   12; 12; 12; 12; 12; 12; 12; 12; 12; 12; 12; 12; 12; 12; 12; 12;
   12; 12; 12; 12; 12; 12; 12; 12; 12; 12; 12; 12; 12; 12; 12; 12;
   12; 12; 12; 12; 12; 12; 12; 12; 12; 12; 12; 12; 12; 12; 12; 12;
   12; 12; 12; 12; 12; 12; 12; 12; 12; 12; 12; 12; 12; 12; 12; 12;
   12; 12; 12; 12; 12; 12; 12; 12; 12; 12; 12; 12; 12; 12; 12; 12;
   12; 12; 12; 12; 12; 12; 12; 12; 12; 12; 12; 12; 12; 12; 12; 12;
   12; 12; 12; 12; 12; 12; 12; 12; 12; 12; 12; 12; 12; 12; 12; 12;
   12; 12; 12; 12; 12; 12; 12; 12; 12; 12; 12; 12; 12; 12; 12; 12;
   12; 12; 12; 12; 12; 12; 12; 12; 12; 12; 12; 12; 12; 12; 12; 12;
   12; 12; 12; 12; 12; 12; 12; 12; 12; 12; 12; 12; 12; 12; 12; 12;
   12; 12; 12; 12; 12; 12; 12; 12; 12; 12; 12; 12; 12; 12; 12; 12;
   12; 12; 12; 12; 12; 12; 12; 12; 12; 12; 12; 12; 12; 12; 12; 12;
   12; 12; 12; 12; 12; 12; 12; 12; 12; 12; 12; 12; 12; 12; 12; 12;
   12; 12; 12; 12; 12; 12; 12; 12; 12; 12; 12; 12; 12; 12; 12; 12;
   12; 12; 12; 12; 12; 12; 12; 12; 12; 12; 12; 12; 12; 12; 12; 12;
   12; 12; 12; 12; 12; 12; 12; 12; 12; 12; 12; 12; 12; 12; 12; 12;
   12; 12; 12; 12; 12; 12; 12; 12; 12; 12; 12; 12; 12; 12; 12; 12;
   12; 12; 12; 12; 12; 12; 12; 12; 12; 12; 12; 12; 12; 12; 12; 12;
   12; 12; 12; 12; 12; 12; 12; 12; 12; 12; 12; 12; 12; 12; 12; 12;
   12; 12; 12; 12; 12; 12; 12; 12; 12; 12; 12; 12; 12; 12; 12; 12;
   12; 12; 12; 12; 12; 12; 12; 12; 12; 12; 12; 12; 12; 12; 12; 12;
   12; 12; 12; 12; 12; 12; 12; 12; 12; 12; 12; 12; 12; 12; 12; 12;
   12; 12; 12; 12; 12; 12; 12; 12; 12; 12; 12; 12; 12; 12; 12; 12;
   12; 12; 12; 12; 12; 12; 12; 12; 12; 12; 12; 12; 12; 12; 12; 12;
   12; 12; 12; 12; 12; 12; 12; 12; 12; 12; 12; 12; 12; 12; 12; 12;
   12; 12; 12; 12; 12; 12; 12; 12; 12; 12; 12; 12; 12; 12; 12; 12;
   12; 12; 12; 12; 12; 12; 12; 12; 12; 12; 12; 12; 12; 12; 12; 12;
   12; 12; 12; 12; 12; 12; 12; 12; 12; 12; 12; 12; 12; 12; 12; 12;
   12; 12; 12; 12; 12; 12; 12; 12; 12; 12; 12; 12; 12; 12; 12; 12;
   12; 12; 12; 12; 12; 12; 12; 12; 12; 12; 12; 12; 12; 12; 12; 12;
   12; 12; 12; 12; 12; 12; 12; 12; 12; 12; 12; 12; 12; 12; 12; 12;
   12; 12; 12; 12; 12; 12; 12; 12; 12; 12; 12; 12; 12; 12; 12; 12;
   12; 12; 12; 12; 12; 12; 12; 12; 12; 12; 12; 12; 12; 12; 12; 12;
   12; 12; 12; 12; 12; 12; 12; 12; 12; 12; 12; 12; 12; 12; 12; 12;
   12; 12; 12; 12; 12; 12; 12; 12; 12; 12; 12; 12; 12; 12; 12; 12;
   12; 12; 12; 12; 12; 12; 12; 12; 12; 12; 12; 12; 12; 12; 12; 12;
   12; 12; 12; 12; 12; 12; 12; 12; 12; 12; 12; 12; 12; 12; 12; 12;
   12; 12; 12; 12; 12; 12; 12; 12; 12; 12; 12; 12; 12; 12; 12; 12;
   12; 12; 12; 12; 12; 12; 12; 12; 12; 12; 12; 12; 12; 12; 12; 12;
   12; 12; 12; 12; 12; 12; 12; 12; 12; 12; 12; 12; 12; 12; 12; 12;
   12; 12; 12; 12; 12; 12; 12; 12; 12; 12; 12; 12; 12; 12; 12; 12;
   12; 12; 12; 12; 12; 12; 12; 12; 12; 12; 12; 12; 12; 12; 12; 12;
   12; 12; 12; 12; 12; 12; 12; 12; 12; 12; 12; 12; 12; 12; 12; 12;
   12; 12; 12; 12; 12; 12; 12; 12; 12; 12; 12; 12; 12; 12; 12; 12;
   12; 12; 12; 12; 12; 12; 12; 12; 12; 12; 12; 12; 12; 12; 12; 12;
   12; 12; 12; 12; 12; 12; 12; 12; 12; 12; 12; 12; 12; 12; 12; 12;
   12; 12; 12; 12; 12; 12; 12; 12; 12; 12; 12; 12; 12; 12; 12; 12;
   12; 12; 12; 12; 12; 12; 12; 12; 12; 12; 12; 12; 12; 12; 12; 12;
   12; 12; 12; 12; 12; 12; 12; 12; 12; 12; 12; 12; 12; 12; 12; 12;
   12; 12; 12; 12; 12; 12; 12; 12; 12; 12; 12; 12; 12; 12; 12; 12;
   12; 12; 12; 12; 12; 12; 12; 12; 12; 12; 12; 12; 12; 12; 12; 12;
   12; 12; 12; 12; 12; 12; 12; 12; 12; 12; 12; 12; 12; 12; 12; 12;
   12; 12; 12; 12; 12; 12; 12; 12; 12; 12; 12; 12; 12; 12; 12; 12;
   12; 12; 12; 12; 12; 12; 12; 12; 12; 12; 12; 12; 12; 12; 12; 12;
   12; 12; 12; 12; 12; 12; 12; 12; 12; 12; 12; 12; 12; 12; 12; 12;
   12; 12; 12; 12; 12; 12; 12; 12; 12; 12; 12; 12; 12; 12; 12; 12;
   12; 12; 12; 12; 12; 12; 12; 12; 12; 12; 12; 12; 12; 12; 12; 12;
   12; 12; 12; 12; 12; 12; 12; 12; 12; 12; 12; 12; 12; 12; 12; 12;
   12; 12; 12; 12; 12; 12; 12; 12; 12; 12; 12; 12; 12; 12; 12; 12;
   12; 12; 12; 12; 12; 12; 12; 12; 12; 12; 12; 12; 12; 12; 12; 12;
   12; 12; 12; 12; 12; 12; 12; 12; 12; 12; 12; 12; 12; 12; 12; 12;
   12; 12; 12; 12; 12; 12; 12; 12; 12; 12; 12; 12; 12; 12; 12; 12;
   12; 12; 12; 12; 12; 12; 12; 12; 12; 12; 12; 12; 12; 12; 12; 12;
   12; 12; 12; 12; 12; 12; 12; 12; 12; 12; 12; 12; 12; 12; 12; 12;
   12; 12; 12; 12; 12; 12; 12; 12; 12; 12; 12; 12; 12; 12; 12; 12;
   12; 12; 12; 12; 12; 12; 12; 12; 12; 12; 12; 12; 12; 12; 12; 12;
   12; 12; 12; 12; 12; 12; 12; 12; 12; 12; 12; 12; 12; 12; 12; 12;
   12; 12; 12; 12; 12; 12; 12; 12; 12; 12; 12; 12; 12; 12; 12; 12;
   12; 12; 12; 12; 12; 12; 12; 12; 12; 12; 12; 12; 12; 12; 12; 12;
   12; 12; 12; 12; 12; 12; 12; 12; 12; 12; 12; 12; 12; 12; 12; 12;
   12; 12; 12; 12; 12; 12; 12; 12; 12; 12; 12; 12; 12; 12; 12; 12;
   12; 12; 12; 12; 12; 12; 12; 12; 12; 12; 12; 12; 12; 12; 12; 12;
   12; 12; 12; 12; 12; 12; 12; 12; 12; 12; 12; 12; 12; 12; 12; 12;
   12; 12; 12; 12; 12; 12; 12; 12; 12; 12; 12; 12; 12; 12; 12; 12;
   12; 12; 12; 12; 12; 12; 12; 12; 12; 12; 12; 12; 12; 12; 12; 12;
   12; 12; 12; 12; 12; 12; 12; 12; 12; 12; 12; 12; 12; 12; 12; 12;
   12; 12; 12; 12; 12; 12; 12; 12; 12; 12; 12; 12; 12; 12; 12; 12;
   12; 12; 12; 12; 12; 12; 12; 12; 12; 12; 12; 12; 12; 12; 12; 12;
   12; 12; 12; 12; 12; 12; 12; 12; 12; 12; 12; 12; 12; 12; 12; 12;
   12; 12; 12; 12; 12; 12; 12; 12; 12; 12; 12; 12; 12; 12; 12; 12;
   12; 12; 12; 12; 12; 12; 12; 12; 12; 12; 12; 12; 12; 12; 12; 12;
   12; 12; 12; 12; 12; 12; 12; 12; 12; 12; 12; 12; 12; 12; 12; 12;
   12; 12; 12; 12; 12; 12; 12; 12; 12; 12; 12; 12; 12; 12; 12; 12;
   12; 12; 12; 12; 12; 12; 12; 12; 12; 12; 12; 12; 12; 12; 12; 12;
   12; 12; 12; 12; 12; 12; 12; 12; 12; 12; 12; 12; 12; 12; 12; 12;
   12; 12; 12; 12; 12; 12; 12; 12; 12; 12; 12; 12; 12; 12; 12; 12;
   12; 12; 12; 12; 12; 12; 12; 12; 12; 12; 12; 12; 12; 12; 12; 12;
   12; 12; 12; 12; 12; 12; 12; 12; 12; 12; 12; 12; 12; 12; 12; 12;
   12; 12; 12; 12; 12; 12; 12; 12; 12; 12; 12; 12; 12; 12; 12; 12;
   12; 12; 12; 12; 12; 12; 12; 12; 12; 12; 12; 12; 12; 12; 12; 12;
   12; 12; 12; 12; 12; 12; 12; 12; 12; 12; 12; 12; 12; 12; 12; 12;
   12; 12; 12; 12; 12; 12; 12; 12; 12; 12; 12; 12; 12; 12; 12; 12;
   12; 12; 12; 12; 12; 12; 12; 12; 12; 12; 12; 12; 12; 12; 12; 12;
   12; 12; 12; 12; 12; 12; 12; 12; 12; 12; 12; 12; 12; 12; 12; 12;
   12; 12; 12; 12; 12; 12; 12; 12; 12; 12; 12; 12; 12; 12; 12; 12;
   12; 12; 12; 12; 12; 12; 12; 12; 12; 12; 12; 12; 12; 12; 12; 12;
   12; 12; 12; 12; 12; 12; 12; 12; 12; 12; 12; 12; 12; 12; 12; 12;
   12; 12; 12; 12; 12; 12; 12; 12; 12; 12; 12; 12; 12; 12; 12; 12;
   12; 12; 12; 12; 12; 12; 12; 12; 12; 12; 12; 12; 12; 12; 12; 12;
   12; 12; 12; 12; 12; 12; 12; 12; 12; 12; 12; 12; 12; 12; 12; 12;
   12; 12; 12; 12; 12; 12; 12; 12; 12; 12; 12; 12; 12; 12; 12; 12;
   12; 12; 12; 12; 12; 12; 12; 12; 12; 12; 12; 12; 12; 12; 12; 12;
   12; 12; 12; 12; 12; 12; 12; 12; 12; 12; 12; 12; 12; 12; 12; 12;
   12; 12; 12; 12; 12; 12; 12; 12; 12; 12; 12; 12; 12; 12; 12; 12;
   12; 12; 12; 12; 12; 12; 12; 12; 12; 12; 12; 12; 12; 12; 12; 12;
   12; 12; 12; 12; 12; 12; 12; 12; 12; 12; 12; 12; 12; 12; 12; 12;
   12; 12; 12; 12; 12; 12; 12; 12; 12; 12; 12; 12; 12; 12; 12; 12;
   12; 12; 12; 12; 12; 12; 12; 12; 12; 12; 12; 12; 12; 12; 12; 12;
   12; 12; 12; 12; 12; 12; 12; 12; 12; 12; 12; 12; 12; 12; 12; 12;
   12; 12; 12; 12; 12; 12; 12; 12; 12; 12; 12; 12; 12; 12; 12; 12;
   12; 12; 12; 12; 12; 12; 12; 12; 12; 12; 12; 12; 12; 12; 12; 12;
   12; 12; 12; 12; 12; 12; 12; 12; 12; 12; 12; 12; 12; 12; 12; 12;
   12; 12; 12; 12; 12; 12; 12; 12; 12; 12; 12; 12; 12; 12; 12; 12;
   12; 12; 12; 12; 12; 12; 12; 12; 12; 12; 12; 12; 12; 12; 12; 12;
   12; 12; 12; 12; 12; 12; 12; 12; 12; 12; 12; 12; 12; 12; 12; 12;
   12; 12; 12; 12; 12; 12; 12; 12; 12; 12; 12; 12; 12; 12; 12; 12;
   12; 12; 12; 12; 12; 12; 12; 12; 12; 12; 12; 12; 12; 12; 12; 12;
   12; 12; 12; 12; 12; 12; 12; 12; 12; 12; 12; 12; 12; 12; 12; 12;
   12; 12; 12; 12; 12; 12; 12; 12; 12; 12; 12; 12; 12; 12; 12; 12;
   12; 12; 12; 12; 12; 12; 12; 12; 12; 12; 12; 12; 12; 12; 12; 12;
   12; 12; 12; 12; 12; 12; 12; 12; 12; 12; 12; 12; 12; 12; 12; 12;
   12; 12; 12; 12; 12; 12; 12; 12; 12; 12; 12; 12; 12; 12; 12; 12;
   12; 12; 12; 12; 12; 12; 12; 12; 12; 12; 12; 12; 12; 12; 12; 12;
   12; 12; 12; 12; 12; 12; 12; 12; 12; 12; 12; 12; 12; 12; 12; 12;
   12; 12; 12; 12; 12; 12; 12; 12; 12; 12; 12; 12; 12; 12; 12; 12;
   12; 12; 12; 12; 12; 12; 12; 12; 12; 12; 12; 12; 12; 12; 12; 12;
   12; 12; 12; 12; 12; 12; 12; 12; 12; 12; 12; 12; 12; 12; 12; 12;
   12; 12; 12; 12; 12; 12; 12; 12; 12; 12; 12; 12; 12; 12; 12; 12;
   12; 12; 12; 12; 12; 12; 12; 12; 12; 12; 12; 12; 12; 12; 12; 12;
   12; 12; 12; 12; 12; 12; 12; 12; 12; 12; 12; 12; 12; 12; 12; 12;
   12; 12; 12; 12; 12; 12; 12; 12; 12; 12; 12; 12; 12; 12; 12; 12;
   12; 12; 12; 12; 12; 12; 12; 12; 12; 12; 12; 12; 12; 12; 12; 12;
   12; 12; 12; 12; 12; 12; 12; 12; 12; 12; 12; 12; 12; 12; 12; 12;
   12; 12; 12; 12; 12; 12; 12; 12; 12; 12; 12; 12; 12; 12; 12; 12;
   12; 12; 12; 12; 12; 12; 12; 12; 12; 12; 12; 12; 12; 12; 12; 12;
   12; 12; 12; 12; 12; 12; 12; 12; 12; 12; 12; 12; 12; 12; 12; 12;
   12; 12; 12; 12; 12; 12; 12; 12; 12; 12; 12; 12; 12; 12; 12; 12;
   12; 12; 12; 12; 12; 12; 12; 12; 12; 12; 12; 12; 12; 12; 12; 12;
   12; 12; 12; 12; 12; 12; 12; 12; 12; 12; 12; 12; 12; 12; 12; 12;
   12; 12; 12; 12; 12; 12; 12; 12; 12; 12; 12; 12; 12; 12; 12; 12;
   12; 12; 12; 12; 12; 12; 12; 12; 12; 12; 12; 12; 12; 12; 12; 12;
   12; 12; 12; 12; 12; 12; 12; 12; 12; 12; 12; 12; 12; 12; 12; 12;
   12; 12; 12; 12; 12; 12; 12; 12; 12; 12; 12; 12; 12; 12; 12; 12;
   12; 12; 12; 12; 12; 12; 12; 12; 12; 12; 12; 12; 12; 12; 12; 12;
   12; 12; 12; 12; 12; 12; 12; 12; 12; 12; 12; 12; 12; 12; 12; 12;
   12; 12; 12; 12; 12; 12; 12; 12; 12; 12; 12; 12; 12; 12; 12; 12;
   12; 12; 12; 12; 12; 12; 12; 12; 12; 12; 12; 12; 12; 12; 12; 12;
   12; 12; 12; 12; 12; 12; 12; 12; 12; 12; 12; 12; 12; 12; 12; 12;
   12; 12; 12; 12; 12; 12; 12; 12; 12; 12; 12; 12; 12; 12; 12; 12;
   12; 12; 12; 12; 12; 12; 12; 12; 12; 12; 12; 12; 12; 12; 12; 12;
   12; 12; 12; 12; 12; 12; 12; 12; 12; 12; 12; 12; 12; 12; 12; 12;
   12; 12; 12; 12; 12; 12; 12; 12; 12; 12; 12; 12; 12; 12; 12; 12;
   12; 12; 12; 12; 12; 12; 12; 12; 12; 12; 12; 12; 12; 12; 12; 12;
   12; 12; 12; 12; 12; 12; 12; 12; 12; 12; 12; 12; 12; 12; 12; 12;
   12; 12; 12; 12; 12; 12; 12; 12; 12; 12; 12; 12; 12; 12; 12; 12;
   12; 12; 12; 12; 12; 12; 12; 12; 12; 12; 12; 12; 12; 12; 12; 12;
   12; 12; 12; 12; 12; 12; 12; 12; 12; 12; 12; 12; 12; 12; 12; 12;
   12; 12; 12; 12; 12; 12; 12; 12; 12; 12; 12; 12; 12; 12; 12; 12;
   12; 12; 12; 12; 12; 12; 12; 12; 12; 12; 12; 12; 12; 12; 12; 12;
   12; 12; 12; 12; 12; 12; 12; 12; 12; 12; 12; 12; 12; 12; 12; 12;
   12; 12; 12; 12; 12; 12; 12; 12; 12; 12; 12; 12; 12; 12; 12; 12;
   12; 12; 12; 12; 12; 12; 12; 12; 12; 12; 12; 12; 12; 12; 12; 12;
   12; 12; 12; 12; 12; 12; 12; 12; 12; 12; 12; 12; 12; 12; 12; 12;
   12; 12; 12; 12; 12; 12; 12; 12; 12; 12; 12; 12; 12; 12; 12; 12;
   12; 12; 12; 12; 12; 12; 12; 12; 12; 12; 12; 12; 12; 12; 12; 12;
   12; 12; 12; 12; 12; 12; 12; 12; 12; 12; 12; 12; 12; 12; 12; 12;
   12; 12; 12; 12; 12; 12; 12; 12; 12; 12; 12; 12; 12; 12; 12; 12;
   12; 12; 12; 12; 12; 12; 12; 12; 12; 12; 12; 12; 12; 12; 12; 12;
   12; 12; 12; 12; 12; 12; 12; 12; 12; 12; 12; 12; 12; 12; 12; 12;
   12; 12; 12; 12; 12; 12; 12; 12; 12; 12; 12; 12; 12; 12; 12; 12;
   12; 12; 12; 12; 12; 12; 12; 12; 12; 12; 12; 12; 12; 12; 12; 12;
   12; 12; 12; 12; 12; 12; 12; 12; 12; 12; 12; 12; 12; 12; 12; 12;
   12; 12; 12; 12; 12; 12; 12; 12; 12; 12; 12; 12; 12; 12; 12; 12;
   12; 12; 12; 12; 12; 12; 12; 12; 12; 12; 12; 12; 12; 12; 12; 12;
   12; 12; 12; 12; 12; 12; 12; 12; 12; 12; 12; 12; 12; 12; 12; 12;
   12; 12; 12; 12; 12; 12; 12; 12; 12; 12; 12; 12; 12; 12; 12; 12;
   12; 12; 12; 12; 12; 12; 12; 12; 12; 12; 12; 12; 12; 12; 12; 12;
   12; 12; 12; 12; 12; 12; 12; 12; 12; 12; 12; 12; 12; 12; 12; 12;
   12; 12; 12; 12; 12; 12; 12; 12; 12; 12; 12; 12; 12; 12; 12; 12;
   12; 12; 12; 12; 12; 12; 12; 12; 12; 12; 12; 12; 12; 12; 12; 12;
   12; 12; 12; 12; 12; 12; 12; 12; 12; 12; 12; 12; 12; 12; 12; 12;
   12; 12; 12; 12; 12; 12; 12; 12; 12; 12; 12; 12; 12; 12; 12; 12;
   12; 12; 12; 12; 12; 12; 12; 12; 12; 12; 12; 12; 12; 12; 12; 12;
   12; 12; 12; 12; 12; 12; 12; 12; 12; 12; 12; 12; 12; 12; 12; 12;
   12; 12; 12; 12; 12; 12; 12; 12; 12; 12; 12; 12; 12; 12; 12; 12;
   12; 12; 12; 12; 12; 12; 12; 12; 12; 12; 12; 12; 12; 12; 12; 12;
   12; 12; 12; 12; 12; 12; 12; 12; 12; 12; 12; 12; 12; 12; 12; 12;
   12; 12; 12; 12; 12; 12; 12; 12; 12; 12; 12; 12; 12; 12; 12; 12;
   12; 12; 12; 12; 12; 12; 12; 12; 12; 12; 12; 12; 12; 12; 12; 12;
   12; 12; 12; 12; 12; 12; 12; 12; 12; 12; 12; 12; 12; 12; 12; 12;
   12; 12; 12; 12; 12; 12; 12; 12; 12; 12; 12; 12; 12; 12; 12; 12;
   12; 12; 12; 12; 12; 12; 12; 12; 12; 12; 12; 12; 12; 12; 12; 12;
   12; 12; 12; 12; 12; 12; 12; 12; 12; 12; 12; 12; 12; 12; 12; 12].

Definition tripsOtherVal : list Z :=
  [0; 0; 1; 0; 2; 1; 2; 2; 3; 3; 4; 4; 5; 5; 5; 5;
   4; 6; 7; 7; 8; 8; 8; 8; 9; 9; 9; 9; 9; 9; 9; 9;
   5; 10; 11; 11; 12; 12; 12; 12; 13; 13; 13; 13; 13; 13; 13; 13;
   14; 14; 14; 14; 14; 14; 14; 14; 14; 14; 14; 14; 14; 14; 14; 14;
   6; 15; 16; 16; 17; 17; 17; 17; 18; 18; 18; 18; 18; 18; 18; 18;
   19; 19; 19; 19; 19; 19; 19; 19; 19; 19; 19; 19; 19; 19; 19; 19;
   20; 20; 20; 20; 20; 20; 20; 20; 20; 20; 20; 20; 20; 20; 20; 20;
   20; 20; 20; 20; 20; 20; 20; 20; 20; 20; 20; 20; 20; 20; 20; 20;
   7; 21; 22; 22; 23; 23; 23; 23; 24; 24; 24; 24; 24; 24; 24; 24;
   25; 25; 25; 25; 25; 25; 25; 25; 25; 25; 25; 25; 25; 25; 25; 25;
   26; 26; 26; 26; 26; 26; 26; 26; 26; 26; 26; 26; 26; 26; 26; 26;
   26; 26; 26; 26; 26; 26; 26; 26; 26; 26; 26; 26; 26; 26; 26; 26;
   27; 27; 27; 27; 27; 27; 27; 27; 27; 27; 27; 27; 27; 27; 27; 27;
   27; 27; 27; 27; 27; 27; 27; 27; 27; 27; 27; 27; 27; 27; 27; 27;
   27; 27; 27; 27; 27; 27; 27; 27; 27; 27; 27; 27; 27; 27; 27; 27;
   27; 27; 27; 27; 27; 27; 27; 27; 27; 27; 27; 27; 27; 27; 27; 27;
   8; 28; 29; 29; 30; 30; 30; 30; 31; 31; 31; 31; 31; 31; 31; 31;
   32; 32; 32; 32; 32; 32; 32; 32; 32; 32; 32; 32; 32; 32; 32; 32;
   33; 33; 33; 33; 33; 33; 33; 33; 33; 33; 33; 33; 33; 33; 33; 33;
   33; 33; 33; 33; 33; 33; 33; 33; 33; 33; 33; 33; 33; 33; 33; 33;
   34; 34; 34; 34; 34; 34; 34; 34; 34; 34; 34; 34; 34; 34; 34; 34;
   34; 34; 34; 34; 34; 34; 34; 34; 34; 34; 34; 34; 34; 34; 34; 34;
   34; 34; 34; 34; 34; 34; 34; 34; 34; 34; 34; 34; 34; 34; 34; 34;
   34; 34; 34; 34; 34; 34; 34; 34; 34; 34; 34; 34; 34; 34; 34; 34;
   35; 35; 35; 35; 35; 35; 35; 35; 35; 35; 35; 35; 35; 35; 35; 35;
   35; 35; 35; 35; 35; 35; 35; 35; 35; 35; 35; 35; 35; 35; 35; 35;
   35; 35; 35; 35; 35; 35; 35; 35; 35; 35; 35; 35; 35; 35; 35; 35;
   35; 35; 35; 35; 35; 35; 35; 35; 35; 35; 35; 35; 35; 35; 35; 35;
   35; 35; 35; 35; 35; 35; 35; 35; 35; 35; 35; 35; 35; 35; 35; 35;
   35; 35; 35; 35; 35; 35; 35; 35; 35; 35; 35; 35; 35; 35; 35; 35;
   35; 35; 35; 35; 35; 35; 35; 35; 35; 35; 35; 35; 35; 35; 35; 35;
   35; 35; 35; 35; 35; 35; 35; 35; 35; 35; 35; 35; 35; 35; 35; 35;
   9; 36; 37; 37; 38; 38; 38; 38; 39; 39; 39; 39; 39; 39; 39; 39;
   40; 40; 40; 40; 40; 40; 40; 40; 40; 40; 40; 40; 40; 40; 40; 40;
   41; 41; 41; 41; 41; 41; 41; 41; 41; 41; 41; 41; 41; 41; 41; 41;
   41; 41; 41; 41; 41; 41; 41; 41; 41; 41; 41; 41; 41; 41; 41; 41;
   42; 42; 42; 42; 42; 42; 42; 42; 42; 42; 42; 42; 42; 42; 42; 42;
   42; 42; 42; 42; 42; 42; 42; 42; 42; 42; 42; 42; 42; 42; 42; 42;
   42; 42; 42; 42; 42; 42; 42; 42; 42; 42; 42; 42; 42; 42; 42; 42;
   42; 42; 42; 42; 42; 42; 42; 42; 42; 42; 42; 42; 42; 42; 42; 42;
   43; 43; 43; 43; 43; 43; 43; 43; 43; 43; 43; 43; 43; 43; 43; 43;
   43; 43; 43; 43; 43; 43; 43; 43; 43; 43; 43; 43; 43; 43; 43; 43;
   43; 43; 43; 43; 43; 43; 43; 43; 43; 43; 43; 43; 43; 43; 43; 43;
   43; 43; 43; 43; 43; 43; 43; 43; 43; 43; 43; 43; 43; 43; 43; 43;
   43; 43; 43; 43; 43; 43; 43; 43; 43; 43; 43; 43; 43; 43; 43; 43;
   43; 43; 43; 43; 43; 43; 43; 43; 43; 43; 43; 43; 43; 43; 43; 43;
   43; 43; 43; 43; 43; 43; 43; 43; 43; 43; 43; 43; 43; 43; 43; 43;
   43; 43; 43; 43; 43; 43; 43; 43; 43; 43; 43; 43; 43; 43; 43; 43;
   44; 44; 44; 44; 44; 44; 44; 44; 44; 44; 44; 44; 44; 44; 44; 44;
   44; 44; 44; 44; 44; 44; 44; 44; 44; 44; 44; 44; 44; 44; 44; 44;
   44; 44; 44; 44; 44; 44; 44; 44; 44; 44; 44; 44; 44; 44; 44; 44;
   44; 44; 44; 44; 44; 44; 44; 44; 44; 44; 44; 44; 44; 44; 44; 44;
   44; 44; 44; 44; 44; 44; 44; 44; 44; 44; 44; 44; 44; 44; 44; 44;
   44; 44; 44; 44; 44; 44; 44; 44; 44; 44; 44; 44; 44; 44; 44; 44;
   44; 44; 44; 44; 44; 44; 44; 44; 44; 44; 44; 44; 44; 44; 44; 44;
   44; 44; 44; 44; 44; 44; 44; 44; 44; 44; 44; 44; 44; 44; 44; 44;
   44; 44; 44; 44; 44; 44; 44; 44; 44; 44; 44; 44; 44; 44; 44; 44;
   44; 44; 44; 44; 44; 44; 44; 44; 44; 44; 44; 44; 44; 44; 44; 44;
   44; 44; 44; 44; 44; 44; 44; 44; 44; 44; 44; 44; 44; 44; 44; 44;
   44; 44; 44; 44; 44; 44; 44; 44; 44; 44; 44; 44; 44; 44; 44; 44;
   44; 44; 44; 44; 44; 44; 44; 44; 44; 44; 44; 44; 44; 44; 44; 44;
   44; 44; 44; 44; 44; 44; 44; 44; 44; 44; 44; 44; 44; 44; 44; 44;
   44; 44; 44; 44; 44; 44; 44; 44; 44; 44; 44; 44; 44; 44; 44; 44;
   44; 44; 44; 44; 44; 44; 44; 44; 44; 44; 44; 44; 44; 44; 44; 44;
   10; 45; 46; 46; 47; 47; 47; 47; 48; 48; 48; 48; 48; 48; 48; 48;
   49; 49; 49; 49; 49; 49; 49; 49; 49; 49; 49; 49; 49; 49; 49; 49;
   50; 50; 50; 50; 50; 50; 50; 50; 50; 50; 50; 50; 50; 50; 50; 50;
   50; 50; 50; 50; 50; 50; 50; 50; 50; 50; 50; 50; 50; 50; 50; 50;
   51; 51; 51; 51; 51; 51; 51; 51; 51; 51; 51; 51; 51; 51; 51; 51;
   51; 51; 51; 51; 51; 51; 51; 51; 51; 51; 51; 51; 51; 51; 51; 51;
   51; 51; 51; 51; 51; 51; 51; 51; 51; 51; 51; 51; 51; 51; 51; 51;
   51; 51; 51; 51; 51; 51; 51; 51; 51; 51; 51; 51; 51; 51; 51; 51;
   52; 52; 52; 52; 52; 52; 52; 52; 52; 52; 52; 52; 52; 52; 52; 52;
   52; 52; 52; 52; 52; 52; 52; 52; 52; 52; 52; 52; 52; 52; 52; 52;
   52; 52; 52; 52; 52; 52; 52; 52; 52; 52; 52; 52; 52; 52; 52; 52;
   52; 52; 52; 52; 52; 52; 52; 52; 52; 52; 52; 52; 52; 52; 52; 52;
   52; 52; 52; 52; 52; 52; 52; 52; 52; 52; 52; 52; 52; 52; 52; 52;
   52; 52; 52; 52; 52; 52; 52; 52; 52; 52; 52; 52; 52; 52; 52; 52;
   52; 52; 52; 52; 52; 52; 52; 52; 52; 52; 52; 52; 52; 52; 52; 52;
   52; 52; 52; 52; 52; 52; 52; 52; 52; 52; 52; 52; 52; 52; 52; 52;
   53; 53; 53; 53; 53; 53; 53; 53; 53; 53; 53; 53; 53; 53; 53; 53;
   53; 53; 53; 53; 53; 53; 53; 53; 53; 53; 53; 53; 53; 53; 53; 53;
   53; 53; 53; 53; 53; 53; 53; 53; 53; 53; 53; 53; 53; 53; 53; 53;
   53; 53; 53; 53; 53; 53; 53; 53; 53; 53; 53; 53; 53; 53; 53; 53;
   53; 53; 53; 53; 53; 53; 53; 53; 53; 53; 53; 53; 53; 53; 53; 53;
   53; 53; 53; 53; 53; 53; 53; 53; 53; 53; 53; 53; 53; 53; 53; 53;
   53; 53; 53; 53; 53; 53; 53; 53; 53; 53; 53; 53; 53; 53; 53; 53;
   53; 53; 53; 53; 53; 53; 53; 53; 53; 53; 53; 53; 53; 53; 53; 53;
   53; 53; 53; 53; 53; 53; 53; 53; 53; 53; 53; 53; 53; 53; 53; 53;
   53; 53; 53; 53; 53; 53; 53; 53; 53; 53; 53; 53; 53; 53; 53; 53;
   53; 53; 53; 53; 53; 53; 53; 53; 53; 53; 53; 53; 53; 53; 53; 53;
   53; 53; 53; 53; 53; 53; 53; 53; 53; 53; 53; 53; 53; 53; 53; 53;
   53; 53; 53; 53; 53; 53; 53; 53; 53; 53; 53; 53; 53; 53; 53; 53;
   53; 53; 53; 53; 53; 53; 53; 53; 53; 53; 53; 53; 53; 53; 53; 53;
   53; 53; 53; 53; 53; 53; 53; 53; 53; 53; 53; 53; 53; 53; 53; 53;
   53; 53; 53; 53; 53; 53; 53; 53; 53; 53; 53; 53; 53; 53; 53; 53;
   54; 54; 54; 54; 54; 54; 54; 54; 54; 54; 54; 54; 54; 54; 54; 54;
   54; 54; 54; 54; 54; 54; 54; 54; 54; 54; 54; 54; 54; 54; 54; 54;
   54; 54; 54; 54; 54; 54; 54; 54; 54; 54; 54; 54; 54; 54; 54; 54;
   54; 54; 54; 54; 54; 54; 54; 54; 54; 54; 54; 54; 54; 54; 54; 54;
   54; 54; 54; 54; 54; 54; 54; 54; 54; 54; 54; 54; 54; 54; 54; 54;
   54; 54; 54; 54; 54; 54; 54; 54; 54; 54; 54; 54; 54; 54; 54; 54;
   54; 54; 54; 54; 54; 54; 54; 54; 54; 54; 54; 54; 54; 54; 54; 54;
   54; 54; 54; 54; 54; 54; 54; 54; 54; 54; 54; 54; 54; 54; 54; 54;
   54; 54; 54; 54; 54; 54; 54; 54; 54; 54; 54; 54; 54; 54; 54; 54;
   54; 54; 54; 54; 54; 54; 54; 54; 54; 54; 54; 54; 54; 54; 54; 54;
   54; 54; 54; 54; 54; 54; 54; 54; 54; 54; 54; 54; 54; 54; 54; 54;
   54; 54; 54; 54; 54; 54; 54; 54; 54; 54; 54; 54; 54; 54; 54; 54;
   54; 54; 54; 54; 54; 54; 54; 54; 54; 54; 54; 54; 54; 54; 54; 54;
   54; 54; 54; 54; 54; 54; 54; 54; 54; 54; 54; 54; 54; 54; 54; 54;
   54; 54; 54; 54; 54; 54; 54; 54; 54; 54; 54; 54; 54; 54; 54; 54;
   54; 54; 54; 54; 54; 54; 54; 54; 54; 54; 54; 54; 54; 54; 54; 54;
   54; 54; 54; 54; 54; 54; 54; 54; 54; 54; 54; 54; 54; 54; 54; 54;
   54; 54; 54; 54; 54; 54; 54; 54; 54; 54; 54; 54; 54; 54; 54; 54;
   54; 54; 54; 54; 54; 54; 54; 54; 54; 54; 54; 54; 54; 54; 54; 54;
   54; 54; 54; 54; 54; 54; 54; 54; 54; 54; 54; 54; 54; 54; 54; 54;
   54; 54; 54; 54; 54; 54; 54; 54; 54; 54; 54; 54; 54; 54; 54; 54;
   54; 54; 54; 54; 54; 54; 54; 54; 54; 54; 54; 54; 54; 54; 54; 54;
   54; 54; 54; 54; 54; 54; 54; 54; 54; 54; 54; 54; 54; 54; 54; 54;
   54; 54; 54; 54; 54; 54; 54; 54; 54; 54; 54; 54; 54; 54; 54; 54;
   54; 54; 54; 54; 54; 54; 54; 54; 54; 54; 54; 54; 54; 54; 54; 54;
   54; 54; 54; 54; 54; 54; 54; 54; 54; 54; 54; 54; 54; 54; 54; 54;
   54; 54; 54; 54; 54; 54; 54; 54; 54; 54; 54; 54; 54; 54; 54; 54;
   54; 54; 54; 54; 54; 54; 54; 54; 54; 54; 54; 54; 54; 54; 54; 54;
   54; 54; 54; 54; 54; 54; 54; 54; 54; 54; 54; 54; 54; 54; 54; 54;
   54; 54; 54; 54; 54; 54; 54; 54; 54; 54; 54; 54; 54; 54; 54; 54;
   54; 54; 54; 54; 54; 54; 54; 54; 54; 54; 54; 54; 54; 54; 54; 54;
   54; 54; 54; 54; 54; 54; 54; 54; 54; 54; 54; 54; 54; 54; 54; 54;
   11; 55; 56; 56; 57; 57; 57; 57; 58; 58; 58; 58; 58; 58; 58; 58;
   59; 59; 59; 59; 59; 59; 59; 59; 59; 59; 59; 59; 59; 59; 59; 59;
   60; 60; 60; 60; 60; 60; 60; 60; 60; 60; 60; 60; 60; 60; 60; 60;
   60; 60; 60; 60; 60; 60; 60; 60; 60; 60; 60; 60; 60; 60; 60; 60;
   61; 61; 61; 61; 61; 61; 61; 61; 61; 61; 61; 61; 61; 61; 61; 61;
   61; 61; 61; 61; 61; 61; 61; 61; 61; 61; 61; 61; 61; 61; 61; 61;
   61; 61; 61; 61; 61; 61; 61; 61; 61; 61; 61; 61; 61; 61; 61; 61;
   61; 61; 61; 61; 61; 61; 61; 61; 61; 61; 61; 61; 61; 61; 61; 61;
   62; 62; 62; 62; 62; 62; 62; 62; 62; 62; 62; 62; 62; 62; 62; 62;
   62; 62; 62; 62; 62; 62; 62; 62; 62; 62; 62; 62; 62; 62; 62; 62;
   62; 62; 62; 62; 62; 62; 62; 62; 62; 62; 62; 62; 62; 62; 62; 62;
   62; 62; 62; 62; 62; 62; 62; 62; 62; 62; 62; 62; 62; 62; 62; 62;
   62; 62; 62; 62; 62; 62; 62; 62; 62; 62; 62; 62; 62; 62; 62; 62;
   62; 62; 62; 62; 62; 62; 62; 62; 62; 62; 62; 62; 62; 62; 62; 62;
   62; 62; 62; 62; 62; 62; 62; 62; 62; 62; 62; 62; 62; 62; 62; 62;
   62; 62; 62; 62; 62; 62; 62; 62; 62; 62; 62; 62; 62; 62; 62; 62;
   63; 63; 63; 63; 63; 63; 63; 63; 63; 63; 63; 63; 63; 63; 63; 63;
   63; 63; 63; 63; 63; 63; 63; 63; 63; 63; 63; 63; 63; 63; 63; 63;
   63; 63; 63; 63; 63; 63; 63; 63; 63; 63; 63; 63; 63; 63; 63; 63;
   63; 63; 63; 63; 63; 63; 63; 63; 63; 63; 63; 63; 63; 63; 63; 63;
   63; 63; 63; 63; 63; 63; 63; 63; 63; 63; 63; 63; 63; 63; 63; 63;
   63; 63; 63; 63; 63; 63; 63; 63; 63; 63; 63; 63; 63; 63; 63; 63;
   63; 63; 63; 63; 63; 63; 63; 63; 63; 63; 63; 63; 63; 63; 63; 63;
   63; 63; 63; 63; 63; 63; 63; 63; 63; 63; 63; 63; 63; 63; 63; 63;
   63; 63; 63; 63; 63; 63; 63; 63; 63; 63; 63; 63; 63; 63; 63; 63;
   63; 63; 63; 63; 63; 63; 63; 63; 63; 63; 63; 63; 63; 63; 63; 63;
   63; 63; 63; 63; 63; 63; 63; 63; 63; 63; 63; 63; 63; 63; 63; 63;
   63; 63; 63; 63; 63; 63; 63; 63; 63; 63; 63; 63; 63; 63; 63; 63;
   63; 63; 63; 63; 63; 63; 63; 63; 63; 63; 63; 63; 63; 63; 63; 63;
   63; 63; 63; 63; 63; 63; 63; 63; 63; 63; 63; 63; 63; 63; 63; 63;
   63; 63; 63; 63; 63; 63; 63; 63; 63; 63; 63; 63; 63; 63; 63; 63;
   63; 63; 63; 63; 63; 63; 63; 63; 63; 63; 63; 63; 63; 63; 63; 63;
   64; 64; 64; 64; 64; 64; 64; 64; 64; 64; 64; 64; 64; 64; 64; 64;
   64; 64; 64; 64; 64; 64; 64; 64; 64; 64; 64; 64; 64; 64; 64; 64;
   64; 64; 64; 64; 64; 64; 64; 64; 64; 64; 64; 64; 64; 64; 64; 64;
   64; 64; 64; 64; 64; 64; 64; 64; 64; 64; 64; 64; 64; 64; 64; 64;
   64; 64; 64; 64; 64; 64; 64; 64; 64; 64; 64; 64; 64; 64; 64; 64;
   64; 64; 64; 64; 64; 64; 64; 64; 64; 64; 64; 64; 64; 64; 64; 64;
   64; 64; 64; 64; 64; 64; 64; 64; 64; 64; 64; 64; 64; 64; 64; 64;
   64; 64; 64; 64; 64; 64; 64; 64; 64; 64; 64; 64; 64; 64; 64; 64;
   64; 64; 64; 64; 64; 64; 64; 64; 64; 64; 64; 64; 64; 64; 64; 64;
   64; 64; 64; 64; 64; 64; 64; 64; 64; 64; 64; 64; 64; 64; 64; 64;
   64; 64; 64; 64; 64; 64; 64; 64; 64; 64; 64; 64; 64; 64; 64; 64;
   64; 64; 64; 64; 64; 64; 64; 64; 64; 64; 64; 64; 64; 64; 64; 64;
   64; 64; 64; 64; 64; 64; 64; 64; 64; 64; 64; 64; 64; 64; 64; 64;
   64; 64; 64; 64; 64; 64; 64; 64; 64; 64; 64; 64; 64; 64; 64; 64;
   64; 64; 64; 64; 64; 64; 64; 64; 64; 64; 64; 64; 64; 64; 64; 64;
   64; 64; 64; 64; 64; 64; 64; 64; 64; 64; 64; 64; 64; 64; 64; 64;
   64; 64; 64; 64; 64; 64; 64; 64; 64; 64; 64; 64; 64; 64; 64; 64;
   64; 64; 64; 64; 64; 64; 64; 64; 64; 64; 64; 64; 64; 64; 64; 64;
   64; 64; 64; 64; 64; 64; 64; 64; 64; 64; 64; 64; 64; 64; 64; 64;
   64; 64; 64; 64; 64; 64; 64; 64; 64; 64; 64; 64; 64; 64; 64; 64;
   64; 64; 64; 64; 64; 64; 64; 64; 64; 64; 64; 64; 64; 64; 64; 64;
   64; 64; 64; 64; 64; 64; 64; 64; 64; 64; 64; 64; 64; 64; 64; 64;
   64; 64; 64; 64; 64; 64; 64; 64; 64; 64; 64; 64; 64; 64; 64; 64;
   64; 64; 64; 64; 64; 64; 64; 64; 64; 64; 64; 64; 64; 64; 64; 64;
   64; 64; 64; 64; 64; 64; 64; 64; 64; 64; 64; 64; 64; 64; 64; 64;
   64; 64; 64; 64; 64; 64; 64; 64; 64; 64; 64; 64; 64; 64; 64; 64;
   64; 64; 64; 64; 64; 64; 64; 64; 64; 64; 64; 64; 64; 64; 64; 64;
   64; 64; 64; 64; 64; 64; 64; 64; 64; 64; 64; 64; 64; 64; 64; 64;
   64; 64; 64; 64; 64; 64; 64; 64; 64; 64; 64; 64; 64; 64; 64; 64;
   64; 64; 64; 64; 64; 64; 64; 64; 64; 64; 64; 64; 64; 64; 64; 64;
   64; 64; 64; 64; 64; 64; 64; 64; 64; 64; 64; 64; 64; 64; 64; 64;
   64; 64; 64; 64; 64; 64; 64; 64; 64; 64; 64; 64; 64; 64; 64; 64;
   65; 65; 65; 65; 65; 65; 65; 65; 65; 65; 65; 65; 65; 65; 65; 65;
   65; 65; 65; 65; 65; 65; 65; 65; 65; 65; 65; 65; 65; 65; 65; 65;
   65; 65; 65; 65; 65; 65; 65; 65; 65; 65; 65; 65; 65; 65; 65; 65;
   65; 65; 65; 65; 65; 65; 65; 65; 65; 65; 65; 65; 65; 65; 65; 65;
   65; 65; 65; 65; 65; 65; 65; 65; 65; 65; 65; 65; 65; 65; 65; 65;
   65; 65; 65; 65; 65; 65; 65; 65; 65; 65; 65; 65; 65; 65; 65; 65;
   65; 65; 65; 65; 65; 65; 65; 65; 65; 65; 65; 65; 65; 65; 65; 65;
   65; 65; 65; 65; 65; 65; 65; 65; 65; 65; 65; 65; 65; 65; 65; 65;
   65; 65; 65; 65; 65; 65; 65; 65; 65; 65; 65; 65; 65; 65; 65; 65;
   65; 65; 65; 65; 65; 65; 65; 65; 65; 65; 65; 65; 65; 65; 65; 65;
   65; 65; 65; 65; 65; 65; 65; 65; 65; 65; 65; 65; 65; 65; 65; 65;
   65; 65; 65; 65; 65; 65; 65; 65; 65; 65; 65; 65; 65; 65; 65; 65;
   65; 65; 65; 65; 65; 65; 65; 65; 65; 65; 65; 65; 65; 65; 65; 65;
   65; 65; 65; 65; 65; 65; 65; 65; 65; 65; 65; 65; 65; 65; 65; 65;
   65; 65; 65; 65; 65; 65; 65; 65; 65; 65; 65; 65; 65; 65; 65; 65;
   65; 65; 65; 65; 65; 65; 65; 65; 65; 65; 65; 65; 65; 65; 65; 65;
   65; 65; 65; 65; 65; 65; 65; 65; 65; 65; 65; 65; 65; 65; 65; 65;
   65; 65; 65; 65; 65; 65; 65; 65; 65; 65; 65; 65; 65; 65; 65; 65;
   65; 65; 65; 65; 65; 65; 65; 65; 65; 65; 65; 65; 65; 65; 65; 65;
   65; 65; 65; 65; 65; 65; 65; 65; 65; 65; 65; 65; 65; 65; 65; 65;
   65; 65; 65; 65; 65; 65; 65; 65; 65; 65; 65; 65; 65; 65; 65; 65;
   65; 65; 65; 65; 65; 65; 65; 65; 65; 65; 65; 65; 65; 65; 65; 65;
   65; 65; 65; 65; 65; 65; 65; 65; 65; 65; 65; 65; 65; 65; 65; 65;
   65; 65; 65; 65; 65; 65; 65; 65; 65; 65; 65; 65; 65; 65; 65; 65;
   65; 65; 65; 65; 65; 65; 65; 65; 65; 65; 65; 65; 65; 65; 65; 65;
   65; 65; 65; 65; 65; 65; 65; 65; 65; 65; 65; 65; 65; 65; 65; 65;
   65; 65; 65; 65; 65; 65; 65; 65; 65; 65; 65; 65; 65; 65; 65; 65;
   65; 65; 65; 65; 65; 65; 65; 65; 65; 65; 65; 65; 65; 65; 65; 65;
   65; 65; 65; 65; 65; 65; 65; 65; 65; 65; 65; 65; 65; 65; 65; 65;
   65; 65; 65; 65; 65; 65; 65; 65; 65; 65; 65; 65; 65; 65; 65; 65;
   65; 65; 65; 65; 65; 65; 65; 65; 65; 65; 65; 65; 65; 65; 65; 65;
   65; 65; 65; 65; 65; 65; 65; 65; 65; 65; 65; 65; 65; 65; 65; 65;
   65; 65; 65; 65; 65; 65; 65; 65; 65; 65; 65; 65; 65; 65; 65; 65;
   65; 65; 65; 65; 65; 65; 65; 65; 65; 65; 65; 65; 65; 65; 65; 65;
   65; 65; 65; 65; 65; 65; 65; 65; 65; 65; 65; 65; 65; 65; 65; 65;
   65; 65; 65; 65; 65; 65; 65; 65; 65; 65; 65; 65; 65; 65; 65; 65;
   65; 65; 65; 65; 65; 65; 65; 65; 65; 65; 65; 65; 65; 65; 65; 65;
   65; 65; 65; 65; 65; 65; 65; 65; 65; 65; 65; 65; 65; 65; 65; 65;
   65; 65; 65; 65; 65; 65; 65; 65; 65; 65; 65; 65; 65; 65; 65; 65;
   65; 65; 65; 65; 65; 65; 65; 65; 65; 65; 65; 65; 65; 65; 65; 65;
   65; 65; 65; 65; 65; 65; 65; 65; 65; 65; 65; 65; 65; 65; 65; 65;
   65; 65; 65; 65; 65; 65; 65; 65; 65; 65; 65; 65; 65; 65; 65; 65;
   65; 65; 65; 65; 65; 65; 65; 65; 65; 65; 65; 65; 65; 65; 65; 65;
   65; 65; 65; 65; 65; 65; 65; 65; 65; 65; 65; 65; 65; 65; 65; 65;
   65; 65; 65; 65; 65; 65; 65; 65; 65; 65; 65; 65; 65; 65; 65; 65;
   65; 65; 65; 65; 65; 65; 65; 65; 65; 65; 65; 65; 65; 65; 65; 65;
   65; 65; 65; 65; 65; 65; 65; 65; 65; 65; 65; 65; 65; 65; 65; 65;
   65; 65; 65; 65; 65; 65; 65; 65; 65; 65; 65; 65; 65; 65; 65; 65;
   65; 65; 65; 65; 65; 65; 65; 65; 65; 65; 65; 65; 65; 65; 65; 65;
   65; 65; 65; 65; 65; 65; 65; 65; 65; 65; 65; 65; 65; 65; 65; 65;
   65; 65; 65; 65; 65; 65; 65; 65; 65; 65; 65; 65; 65; 65; 65; 65;
   65; 65; 65; 65; 65; 65; 65; 65; 65; 65; 65; 65; 65; 65; 65; 65;
   65; 65; 65; 65; 65; 65; 65; 65; 65; 65; 65; 65; 65; 65; 65; 65;
   65; 65; 65; 65; 65; 65; 65; 65; 65; 65; 65; 65; 65; 65; 65; 65;
   65; 65; 65; 65; 65; 65; 65; 65; 65; 65; 65; 65; 65; 65; 65; 65;
   65; 65; 65; 65; 65; 65; 65; 65; 65; 65; 65; 65; 65; 65; 65; 65;
   65; 65; 65; 65; 65; 65; 65; 65; 65; 65; 65; 65; 65; 65; 65; 65;
   65; 65; 65; 65; 65; 65; 65; 65; 65; 65; 65; 65; 65; 65; 65; 65;
   65; 65; 65; 65; 65; 65; 65; 65; 65; 65; 65; 65; 65; 65; 65; 65;
   65; 65; 65; 65; 65; 65; 65; 65; 65; 65; 65; 65; 65; 65; 65; 65;
   65; 65; 65; 65; 65; 65; 65; 65; 65; 65; 65; 65; 65; 65; 65; 65;
   65; 65; 65; 65; 65; 65; 65; 65; 65; 65; 65; 65; 65; 65; 65; 65;
   65; 65; 65; 65; 65; 65; 65; 65; 65; 65; 65; 65; 65; 65; 65; 65;
   65; 65; 65; 65; 65; 65; 65; 65; 65; 65; 65; 65; 65; 65; 65; 65;
   12; 66; 67; 67; 68; 68; 68; 68; 69; 69; 69; 69; 69; 69; 69; 69;
   70; 70; 70; 70; 70; 70; 70; 70; 70; 70; 70; 70; 70; 70; 70; 70;
   71; 71; 71; 71; 71; 71; 71; 71; 71; 71; 71; 71; 71; 71; 71; 71;
   71; 71; 71; 71; 71; 71; 71; 71; 71; 71; 71; 71; 71; 71; 71; 71;
   72; 72; 72; 72; 72; 72; 72; 72; 72; 72; 72; 72; 72; 72; 72; 72;
   72; 72; 72; 72; 72; 72; 72; 72; 72; 72; 72; 72; 72; 72; 72; 72;
   72; 72; 72; 72; 72; 72; 72; 72; 72; 72; 72; 72; 72; 72; 72; 72;
   72; 72; 72; 72; 72; 72; 72; 72; 72; 72; 72; 72; 72; 72; 72; 72;
   73; 73; 73; 73; 73; 73; 73; 73; 73; 73; 73; 73; 73; 73; 73; 73;
   73; 73; 73; 73; 73; 73; 73; 73; 73; 73; 73; 73; 73; 73; 73; 73;
   73; 73; 73; 73; 73; 73; 73; 73; 73; 73; 73; 73; 73; 73; 73; 73;
   73; 73; 73; 73; 73; 73; 73; 73; 73; 73; 73; 73; 73; 73; 73; 73;
   73; 73; 73; 73; 73; 73; 73; 73; 73; 73; 73; 73; 73; 73; 73; 73;
   73; 73; 73; 73; 73; 73; 73; 73; 73; 73; 73; 73; 73; 73; 73; 73;
   73; 73; 73; 73; 73; 73; 73; 73; 73; 73; 73; 73; 73; 73; 73; 73;
   73; 73; 73; 73; 73; 73; 73; 73; 73; 73; 73; 73; 73; 73; 73; 73;
   74; 74; 74; 74; 74; 74; 74; 74; 74; 74; 74; 74; 74; 74; 74; 74;
   74; 74; 74; 74; 74; 74; 74; 74; 74; 74; 74; 74; 74; 74; 74; 74;
   74; 74; 74; 74; 74; 74; 74; 74; 74; 74; 74; 74; 74; 74; 74; 74;
   74; 74; 74; 74; 74; 74; 74; 74; 74; 74; 74; 74; 74; 74; 74; 74;
   74; 74; 74; 74; 74; 74; 74; 74; 74; 74; 74; 74; 74; 74; 74; 74;
   74; 74; 74; 74; 74; 74; 74; 74; 74; 74; 74; 74; 74; 74; 74; 74;
   74; 74; 74; 74; 74; 74; 74; 74; 74; 74; 74; 74; 74; 74; 74; 74;
   74; 74; 74; 74; 74; 74; 74; 74; 74; 74; 74; 74; 74; 74; 74; 74;
   74; 74; 74; 74; 74; 74; 74; 74; 74; 74; 74; 74; 74; 74; 74; 74;
   74; 74; 74; 74; 74; 74; 74; 74; 74; 74; 74; 74; 74; 74; 74; 74;
   74; 74; 74; 74; 74; 74; 74; 74; 74; 74; 74; 74; 74; 74; 74; 74;
   74; 74; 74; 74; 74; 74; 74; 74; 74; 74; 74; 74; 74; 74; 74; 74;
   74; 74; 74; 74; 74; 74; 74; 74; 74; 74; 74; 74; 74; 74; 74; 74;
   74; 74; 74; 74; 74; 74; 74; 74; 74; 74; 74; 74; 74; 74; 74; 74;
   74; 74; 74; 74; 74; 74; 74; 74; 74; 74; 74; 74; 74; 74; 74; 74;
   74; 74; 74; 74; 74; 74; 74; 74; 74; 74; 74; 74; 74; 74; 74; 74;
   75; 75; 75; 75; 75; 75; 75; 75; 75; 75; 75; 75; 75; 75; 75; 75;
   75; 75; 75; 75; 75; 75; 75; 75; 75; 75; 75; 75; 75; 75; 75; 75;
   75; 75; 75; 75; 75; 75; 75; 75; 75; 75; 75; 75; 75; 75; 75; 75;
   75; 75; 75; 75; 75; 75; 75; 75; 75; 75; 75; 75; 75; 75; 75; 75;
   75; 75; 75; 75; 75; 75; 75; 75; 75; 75; 75; 75; 75; 75; 75; 75;
   75; 75; 75; 75; 75; 75; 75; 75; 75; 75; 75; 75; 75; 75; 75; 75;
   75; 75; 75; 75; 75; 75; 75; 75; 75; 75; 75; 75; 75; 75; 75; 75;
   75; 75; 75; 75; 75; 75; 75; 75; 75; 75; 75; 75; 75; 75; 75; 75;
   75; 75; 75; 75; 75; 75; 75; 75; 75; 75; 75; 75; 75; 75; 75; 75;
   75; 75; 75; 75; 75; 75; 75; 75; 75; 75; 75; 75; 75; 75; 75; 75;
   75; 75; 75; 75; 75; 75; 75; 75; 75; 75; 75; 75; 75; 75; 75; 75;
   75; 75; 75; 75; 75; 75; 75; 75; 75; 75; 75; 75; 75; 75; 75; 75;
   75; 75; 75; 75; 75; 75; 75; 75; 75; 75; 75; 75; 75; 75; 75; 75;
   75; 75; 75; 75; 75; 75; 75; 75; 75; 75; 75; 75; 75; 75; 75; 75;
   75; 75; 75; 75; 75; 75; 75; 75; 75; 75; 75; 75; 75; 75; 75; 75;
   75; 75; 75; 75; 75; 75; 75; 75; 75; 75; 75; 75; 75; 75; 75; 75;
   75; 75; 75; 75; 75; 75; 75; 75; 75; 75; 75; 75; 75; 75; 75; 75;
   75; 75; 75; 75; 75; 75; 75; 75; 75; 75; 75; 75; 75; 75; 75; 75;
   75; 75; 75; 75; 75; 75; 75; 75; 75; 75; 75; 75; 75; 75; 75; 75;
   75; 75; 75; 75; 75; 75; 75; 75; 75; 75; 75; 75; 75; 75; 75; 75;
   75; 75; 75; 75; 75; 75; 75; 75; 75; 75; 75; 75; 75; 75; 75; 75;
   75; 75; 75; 75; 75; 75; 75; 75; 75; 75; 75; 75; 75; 75; 75; 75;
   75; 75; 75; 75; 75; 75; 75; 75; 75; 75; 75; 75; 75; 75; 75; 75;
   75; 75; 75; 75; 75; 75; 75; 75; 75; 75; 75; 75; 75; 75; 75; 75;
   75; 75; 75; 75; 75; 75; 75; 75; 75; 75; 75; 75; 75; 75; 75; 75;
   75; 75; 75; 75; 75; 75; 75; 75; 75; 75; 75; 75; 75; 75; 75; 75;
   75; 75; 75; 75; 75; 75; 75; 75; 75; 75; 75; 75; 75; 75; 75; 75;
   75; 75; 75; 75; 75; 75; 75; 75; 75; 75; 75; 75; 75; 75; 75; 75;
   75; 75; 75; 75; 75; 75; 75; 75; 75; 75; 75; 75; 75; 75; 75; 75;
   75; 75; 75; 75; 75; 75; 75; 75; 75; 75; 75; 75; 75; 75; 75; 75;
   75; 75; 75; 75; 75; 75; 75; 75; 75; 75; 75; 75; 75; 75; 75; 75;
   75; 75; 75; 75; 75; 75; 75; 75; 75; 75; 75; 75; 75; 75; 75; 75;
   76; 76; 76; 76; 76; 76; 76; 76; 76; 76; 76; 76; 76; 76; 76; 76;
   76; 76; 76; 76; 76; 76; 76; 76; 76; 76; 76; 76; 76; 76; 76; 76;
   76; 76; 76; 76; 76; 76; 76; 76; 76; 76; 76; 76; 76; 76; 76; 76;
   76; 76; 76; 76; 76; 76; 76; 76; 76; 76; 76; 76; 76; 76; 76; 76;
   76; 76; 76; 76; 76; 76; 76; 76; 76; 76; 76; 76; 76; 76; 76; 76;
   76; 76; 76; 76; 76; 76; 76; 76; 76; 76; 76; 76; 76; 76; 76; 76;
   76; 76; 76; 76; 76; 76; 76; 76; 76; 76; 76; 76; 76; 76; 76; 76;
   76; 76; 76; 76; 76; 76; 76; 76; 76; 76; 76; 76; 76; 76; 76; 76;
   76; 76; 76; 76; 76; 76; 76; 76; 76; 76; 76; 76; 76; 76; 76; 76;
   76; 76; 76; 76; 76; 76; 76; 76; 76; 76; 76; 76; 76; 76; 76; 76;
   76; 76; 76; 76; 76; 76; 76; 76; 76; 76; 76; 76; 76; 76; 76; 76;
   76; 76; 76; 76; 76; 76; 76; 76; 76; 76; 76; 76; 76; 76; 76; 76;
   76; 76; 76; 76; 76; 76; 76; 76; 76; 76; 76; 76; 76; 76; 76; 76;
   76; 76; 76; 76; 76; 76; 76; 76; 76; 76; 76; 76; 76; 76; 76; 76;
   76; 76; 76; 76; 76; 76; 76; 76; 76; 76; 76; 76; 76; 76; 76; 76;
   76; 76; 76; 76; 76; 76; 76; 76; 76; 76; 76; 76; 76; 76; 76; 76;
   76; 76; 76; 76; 76; 76; 76; 76; 76; 76; 76; 76; 76; 76; 76; 76;
   76; 76; 76; 76; 76; 76; 76; 76; 76; 76; 76; 76; 76; 76; 76; 76;
   76; 76; 76; 76; 76; 76; 76; 76; 76; 76; 76; 76; 76; 76; 76; 76;
   76; 76; 76; 76; 76; 76; 76; 76; 76; 76; 76; 76; 76; 76; 76; 76;
   76; 76; 76; 76; 76; 76; 76; 76; 76; 76; 76; 76; 76; 76; 76; 76;
   76; 76; 76; 76; 76; 76; 76; 76; 76; 76; 76; 76; 76; 76; 76; 76;
   76; 76; 76; 76; 76; 76; 76; 76; 76; 76; 76; 76; 76; 76; 76; 76;
   76; 76; 76; 76; 76; 76; 76; 76; 76; 76; 76; 76; 76; 76; 76; 76;
   76; 76; 76; 76; 76; 76; 76; 76; 76; 76; 76; 76; 76; 76; 76; 76;
   76; 76; 76; 76; 76; 76; 76; 76; 76; 76; 76; 76; 76; 76; 76; 76;
   76; 76; 76; 76; 76; 76; 76; 76; 76; 76; 76; 76; 76; 76; 76; 76;
   76; 76; 76; 76; 76; 76; 76; 76; 76; 76; 76; 76; 76; 76; 76; 76;
   76; 76; 76; 76; 76; 76; 76; 76; 76; 76; 76; 76; 76; 76; 76; 76;
   76; 76; 76; 76; 76; 76; 76; 76; 76; 76; 76; 76; 76; 76; 76; 76;
   76; 76; 76; 76; 76; 76; 76; 76; 76; 76; 76; 76; 76; 76; 76; 76;
   76; 76; 76; 76; 76; 76; 76; 76; 76; 76; 76; 76; 76; 76; 76; 76;
   76; 76; 76; 76; 76; 76; 76; 76; 76; 76; 76; 76; 76; 76; 76; 76;
   76; 76; 76; 76; 76; 76; 76; 76; 76; 76; 76; 76; 76; 76; 76; 76;
   76; 76; 76; 76; 76; 76; 76; 76; 76; 76; 76; 76; 76; 76; 76; 76;
   76; 76; 76; 76; 76; 76; 76; 76; 76; 76; 76; 76; 76; 76; 76; 76;
   76; 76; 76; 76; 76; 76; 76; 76; 76; 76; 76; 76; 76; 76; 76; 76;
   76; 76; 76; 76; 76; 76; 76; 76; 76; 76; 76; 76; 76; 76; 76; 76;
   76; 76; 76; 76; 76; 76; 76; 76; 76; 76; 76; 76; 76; 76; 76; 76;
   76; 76; 76; 76; 76; 76; 76; 76; 76; 76; 76; 76; 76; 76; 76; 76;
   76; 76; 76; 76; 76; 76; 76; 76; 76; 76; 76; 76; 76; 76; 76; 76;
   76; 76; 76; 76; 76; 76; 76; 76; 76; 76; 76; 76; 76; 76; 76; 76;
   76; 76; 76; 76; 76; 76; 76; 76; 76; 76; 76; 76; 76; 76; 76; 76;
   76; 76; 76; 76; 76; 76; 76; 76; 76; 76; 76; 76; 76; 76; 76; 76;
   76; 76; 76; 76; 76; 76; 76; 76; 76; 76; 76; 76; 76; 76; 76; 76;
   76; 76; 76; 76; 76; 76; 76; 76; 76; 76; 76; 76; 76; 76; 76; 76;
   76; 76; 76; 76; 76; 76; 76; 76; 76; 76; 76; 76; 76; 76; 76; 76;
   76; 76; 76; 76; 76; 76; 76; 76; 76; 76; 76; 76; 76; 76; 76; 76;
   76; 76; 76; 76; 76; 76; 76; 76; 76; 76; 76; 76; 76; 76; 76; 76;
   76; 76; 76; 76; 76; 76; 76; 76; 76; 76; 76; 76; 76; 76; 76; 76;
   76; 76; 76; 76; 76; 76; 76; 76; 76; 76; 76; 76; 76; 76; 76; 76;
   76; 76; 76; 76; 76; 76; 76; 76; 76; 76; 76; 76; 76; 76; 76; 76;
   76; 76; 76; 76; 76; 76; 76; 76; 76; 76; 76; 76; 76; 76; 76; 76;
   76; 76; 76; 76; 76; 76; 76; 76; 76; 76; 76; 76; 76; 76; 76; 76;
   76; 76; 76; 76; 76; 76; 76; 76; 76; 76; 76; 76; 76; 76; 76; 76;
   76; 76; 76; 76; 76; 76; 76; 76; 76; 76; 76; 76; 76; 76; 76; 76;
   76; 76; 76; 76; 76; 76; 76; 76; 76; 76; 76; 76; 76; 76; 76; 76;
   76; 76; 76; 76; 76; 76; 76; 76; 76; 76; 76; 76; 76; 76; 76; 76;
   76; 76; 76; 76; 76; 76; 76; 76; 76; 76; 76; 76; 76; 76; 76; 76;
   76; 76; 76; 76; 76; 76; 76; 76; 76; 76; 76; 76; 76; 76; 76; 76;
   76; 76; 76; 76; 76; 76; 76; 76; 76; 76; 76; 76; 76; 76; 76; 76;
   76; 76; 76; 76; 76; 76; 76; 76; 76; 76; 76; 76; 76; 76; 76; 76;
   76; 76; 76; 76; 76; 76; 76; 76; 76; 76; 76; 76; 76; 76; 76; 76;
   76; 76; 76; 76; 76; 76; 76; 76; 76; 76; 76; 76; 76; 76; 76; 76;
   77; 77; 77; 77; 77; 77; 77; 77; 77; 77; 77; 77; 77; 77; 77; 77;
   77; 77; 77; 77; 77; 77; 77; 77; 77; 77; 77; 77; 77; 77; 77; 77;
   77; 77; 77; 77; 77; 77; 77; 77; 77; 77; 77; 77; 77; 77; 77; 77;
   77; 77; 77; 77; 77; 77; 77; 77; 77; 77; 77; 77; 77; 77; 77; 77;
   77; 77; 77; 77; 77; 77; 77; 77; 77; 77; 77; 77; 77; 77; 77; 77;
   77; 77; 77; 77; 77; 77; 77; 77; 77; 77; 77; 77; 77; 77; 77; 77;
   77; 77; 77; 77; 77; 77; 77; 77; 77; 77; 77; 77; 77; 77; 77; 77;
   77; 77; 77; 77; 77; 77; 77; 77; 77; 77; 77; 77; 77; 77; 77; 77;
   77; 77; 77; 77; 77; 77; 77; 77; 77; 77; 77; 77; 77; 77; 77; 77;
   77; 77; 77; 77; 77; 77; 77; 77; 77; 77; 77; 77; 77; 77; 77; 77;
   77; 77; 77; 77; 77; 77; 77; 77; 77; 77; 77; 77; 77; 77; 77; 77;
   77; 77; 77; 77; 77; 77; 77; 77; 77; 77; 77; 77; 77; 77; 77; 77;
   77; 77; 77; 77; 77; 77; 77; 77; 77; 77; 77; 77; 77; 77; 77; 77;
   77; 77; 77; 77; 77; 77; 77; 77; 77; 77; 77; 77; 77; 77; 77; 77;
   77; 77; 77; 77; 77; 77; 77; 77; 77; 77; 77; 77; 77; 77; 77; 77;
   77; 77; 77; 77; 77; 77; 77; 77; 77; 77; 77; 77; 77; 77; 77; 77;
   77; 77; 77; 77; 77; 77; 77; 77; 77; 77; 77; 77; 77; 77; 77; 77;
   77; 77; 77; 77; 77; 77; 77; 77; 77; 77; 77; 77; 77; 77; 77; 77;
   77; 77; 77; 77; 77; 77; 77; 77; 77; 77; 77; 77; 77; 77; 77; 77;
   77; 77; 77; 77; 77; 77; 77; 77; 77; 77; 77; 77; 77; 77; 77; 77;
   77; 77; 77; 77; 77; 77; 77; 77; 77; 77; 77; 77; 77; 77; 77; 77;
   77; 77; 77; 77; 77; 77; 77; 77; 77; 77; 77; 77; 77; 77; 77; 77;
   77; 77; 77; 77; 77; 77; 77; 77; 77; 77; 77; 77; 77; 77; 77; 77;
   77; 77; 77; 77; 77; 77; 77; 77; 77; 77; 77; 77; 77; 77; 77; 77;
   77; 77; 77; 77; 77; 77; 77; 77; 77; 77; 77; 77; 77; 77; 77; 77;
   77; 77; 77; 77; 77; 77; 77; 77; 77; 77; 77; 77; 77; 77; 77; 77;
   77; 77; 77; 77; 77; 77; 77; 77; 77; 77; 77; 77; 77; 77; 77; 77;
   77; 77; 77; 77; 77; 77; 77; 77; 77; 77; 77; 77; 77; 77; 77; 77;
   77; 77; 77; 77; 77; 77; 77; 77; 77; 77; 77; 77; 77; 77; 77; 77;
   77; 77; 77; 77; 77; 77; 77; 77; 77; 77; 77; 77; 77; 77; 77; 77;
   77; 77; 77; 77; 77; 77; 77; 77; 77; 77; 77; 77; 77; 77; 77; 77;
   77; 77; 77; 77; 77; 77; 77; 77; 77; 77; 77; 77; 77; 77; 77; 77;
   77; 77; 77; 77; 77; 77; 77; 77; 77; 77; 77; 77; 77; 77; 77; 77;
   77; 77; 77; 77; 77; 77; 77; 77; 77; 77; 77; 77; 77; 77; 77; 77;
   77; 77; 77; 77; 77; 77; 77; 77; 77; 77; 77; 77; 77; 77; 77; 77;
   77; 77; 77; 77; 77; 77; 77; 77; 77; 77; 77; 77; 77; 77; 77; 77;
   77; 77; 77; 77; 77; 77; 77; 77; 77; 77; 77; 77; 77; 77; 77; 77;
   77; 77; 77; 77; 77; 77; 77; 77; 77; 77; 77; 77; 77; 77; 77; 77;
   77; 77; 77; 77; 77; 77; 77; 77; 77; 77; 77; 77; 77; 77; 77; 77;
   77; 77; 77; 77; 77; 77; 77; 77; 77; 77; 77; 77; 77; 77; 77; 77;
   77; 77; 77; 77; 77; 77; 77; 77; 77; 77; 77; 77; 77; 77; 77; 77;
   77; 77; 77; 77; 77; 77; 77; 77; 77; 77; 77; 77; 77; 77; 77; 77;
   77; 77; 77; 77; 77; 77; 77; 77; 77; 77; 77; 77; 77; 77; 77; 77;
   77; 77; 77; 77; 77; 77; 77; 77; 77; 77; 77; 77; 77; 77; 77; 77;
   77; 77; 77; 77; 77; 77; 77; 77; 77; 77; 77; 77; 77; 77; 77; 77;
   77; 77; 77; 77; 77; 77; 77; 77; 77; 77; 77; 77; 77; 77; 77; 77;
   77; 77; 77; 77; 77; 77; 77; 77; 77; 77; 77; 77; 77; 77; 77; 77;
   77; 77; 77; 77; 77; 77; 77; 77; 77; 77; 77; 77; 77; 77; 77; 77;
   77; 77; 77; 77; 77; 77; 77; 77; 77; 77; 77; 77; 77; 77; 77; 77;
   77; 77; 77; 77; 77; 77; 77; 77; 77; 77; 77; 77; 77; 77; 77; 77;
   77; 77; 77; 77; 77; 77; 77; 77; 77; 77; 77; 77; 77; 77; 77; 77;
   77; 77; 77; 77; 77; 77; 77; 77; 77; 77; 77; 77; 77; 77; 77; 77;
   77; 77; 77; 77; 77; 77; 77; 77; 77; 77; 77; 77; 77; 77; 77; 77;
   77; 77; 77; 77; 77; 77; 77; 77; 77; 77; 77; 77; 77; 77; 77; 77;
   77; 77; 77; 77; 77; 77; 77; 77; 77; 77; 77; 77; 77; 77; 77; 77;
   77; 77; 77; 77; 77; 77; 77; 77; 77; 77; 77; 77; 77; 77; 77; 77;
   77; 77; 77; 77; 77; 77; 77; 77; 77; 77; 77; 77; 77; 77; 77; 77;
   77; 77; 77; 77; 77; 77; 77; 77; 77; 77; 77; 77; 77; 77; 77; 77;
   77; 77; 77; 77; 77; 77; 77; 77; 77; 77; 77; 77; 77; 77; 77; 77;
   77; 77; 77; 77; 77; 77; 77; 77; 77; 77; 77; 77; 77; 77; 77; 77;
   77; 77; 77; 77; 77; 77; 77; 77; 77; 77; 77; 77; 77; 77; 77; 77;
   77; 77; 77; 77; 77; 77; 77; 77; 77; 77; 77; 77; 77; 77; 77; 77;
   77; 77; 77; 77; 77; 77; 77; 77; 77; 77; 77; 77; 77; 77; 77; 77;
   77; 77; 77; 77; 77; 77; 77; 77; 77; 77; 77; 77; 77; 77; 77; 77;
   77; 77; 77; 77; 77; 77; 77; 77; 77; 77; 77; 77; 77; 77; 77; 77;
   77; 77; 77; 77; 77; 77; 77; 77; 77; 77; 77; 77; 77; 77; 77; 77;
   77; 77; 77; 77; 77; 77; 77; 77; 77; 77; 77; 77; 77; 77; 77; 77;
   77; 77; 77; 77; 77; 77; 77; 77; 77; 77; 77; 77; 77; 77; 77; 77;
   77; 77; 77; 77; 77; 77; 77; 77; 77; 77; 77; 77; 77; 77; 77; 77;
   77; 77; 77; 77; 77; 77; 77; 77; 77; 77; 77; 77; 77; 77; 77; 77;
   77; 77; 77; 77; 77; 77; 77; 77; 77; 77; 77; 77; 77; 77; 77; 77;
   77; 77; 77; 77; 77; 77; 77; 77; 77; 77; 77; 77; 77; 77; 77; 77;
   77; 77; 77; 77; 77; 77; 77; 77; 77; 77; 77; 77; 77; 77; 77; 77;
   77; 77; 77; 77; 77; 77; 77; 77; 77; 77; 77; 77; 77; 77; 77; 77;
   77; 77; 77; 77; 77; 77; 77; 77; 77; 77; 77; 77; 77; 77; 77; 77;
   77; 77; 77; 77; 77; 77; 77; 77; 77; 77; 77; 77; 77; 77; 77; 77;
   77; 77; 77; 77; 77; 77; 77; 77; 77; 77; 77; 77; 77; 77; 77; 77;
   77; 77; 77; 77; 77; 77; 77; 77; 77; 77; 77; 77; 77; 77; 77; 77;
   77; 77; 77; 77; 77; 77; 77; 77; 77; 77; 77; 77; 77; 77; 77; 77;
   77; 77; 77; 77; 77; 77; 77; 77; 77; 77; 77; 77; 77; 77; 77; 77;
   77; 77; 77; 77; 77; 77; 77; 77; 77; 77; 77; 77; 77; 77; 77; 77;
   77; 77; 77; 77; 77; 77; 77; 77; 77; 77; 77; 77; 77; 77; 77; 77;
   77; 77; 77; 77; 77; 77; 77; 77; 77; 77; 77; 77; 77; 77; 77; 77;
   77; 77; 77; 77; 77; 77; 77; 77; 77; 77; 77; 77; 77; 77; 77; 77;
   77; 77; 77; 77; 77; 77; 77; 77; 77; 77; 77; 77; 77; 77; 77; 77;
   77; 77; 77; 77; 77; 77; 77; 77; 77; 77; 77; 77; 77; 77; 77; 77;
   77; 77; 77; 77; 77; 77; 77; 77; 77; 77; 77; 77; 77; 77; 77; 77;
   77; 77; 77; 77; 77; 77; 77; 77; 77; 77; 77; 77; 77; 77; 77; 77;
   77; 77; 77; 77; 77; 77; 77; 77; 77; 77; 77; 77; 77; 77; 77; 77;
   77; 77; 77; 77; 77; 77; 77; 77; 77; 77; 77; 77; 77; 77; 77; 77;
   77; 77; 77; 77; 77; 77; 77; 77; 77; 77; 77; 77; 77; 77; 77; 77;
   77; 77; 77; 77; 77; 77; 77; 77; 77; 77; 77; 77; 77; 77; 77; 77;
   77; 77; 77; 77; 77; 77; 77; 77; 77; 77; 77; 77; 77; 77; 77; 77;
   77; 77; 77; 77; 77; 77; 77; 77; 77; 77; 77; 77; 77; 77; 77; 77;
   77; 77; 77; 77; 77; 77; 77; 77; 77; 77; 77; 77; 77; 77; 77; 77;
   77; 77; 77; 77; 77; 77; 77; 77; 77; 77; 77; 77; 77; 77; 77; 77;
   77; 77; 77; 77; 77; 77; 77; 77; 77; 77; 77; 77; 77; 77; 77; 77;
   77; 77; 77; 77; 77; 77; 77; 77; 77; 77; 77; 77; 77; 77; 77; 77;
   77; 77; 77; 77; 77; 77; 77; 77; 77; 77; 77; 77; 77; 77; 77; 77;
   77; 77; 77; 77; 77; 77; 77; 77; 77; 77; 77; 77; 77; 77; 77; 77;
   77; 77; 77; 77; 77; 77; 77; 77; 77; 77; 77; 77; 77; 77; 77; 77;
   77; 77; 77; 77; 77; 77; 77; 77; 77; 77; 77; 77; 77; 77; 77; 77;
   77; 77; 77; 77; 77; 77; 77; 77; 77; 77; 77; 77; 77; 77; 77; 77;
   77; 77; 77; 77; 77; 77; 77; 77; 77; 77; 77; 77; 77; 77; 77; 77;
   77; 77; 77; 77; 77; 77; 77; 77; 77; 77; 77; 77; 77; 77; 77; 77;
   77; 77; 77; 77; 77; 77; 77; 77; 77; 77; 77; 77; 77; 77; 77; 77;
   77; 77; 77; 77; 77; 77; 77; 77; 77; 77; 77; 77; 77; 77; 77; 77;
   77; 77; 77; 77; 77; 77; 77; 77; 77; 77; 77; 77; 77; 77; 77; 77;
   77; 77; 77; 77; 77; 77; 77; 77; 77; 77; 77; 77; 77; 77; 77; 77;
   77; 77; 77; 77; 77; 77; 77; 77; 77; 77; 77; 77; 77; 77; 77; 77;
   77; 77; 77; 77; 77; 77; 77; 77; 77; 77; 77; 77; 77; 77; 77; 77;
   77; 77; 77; 77; 77; 77; 77; 77; 77; 77; 77; 77; 77; 77; 77; 77;
   77; 77; 77; 77; 77; 77; 77; 77; 77; 77; 77; 77; 77; 77; 77; 77;
   77; 77; 77; 77; 77; 77; 77; 77; 77; 77; 77; 77; 77; 77; 77; 77;
   77; 77; 77; 77; 77; 77; 77; 77; 77; 77; 77; 77; 77; 77; 77; 77;
   77; 77; 77; 77; 77; 77; 77; 77; 77; 77; 77; 77; 77; 77; 77; 77;
   77; 77; 77; 77; 77; 77; 77; 77; 77; 77; 77; 77; 77; 77; 77; 77;
   77; 77; 77; 77; 77; 77; 77; 77; 77; 77; 77; 77; 77; 77; 77; 77;
   77; 77; 77; 77; 77; 77; 77; 77; 77; 77; 77; 77; 77; 77; 77; 77;
   77; 77; 77; 77; 77; 77; 77; 77; 77; 77; 77; 77; 77; 77; 77; 77;
   77; 77; 77; 77; 77; 77; 77; 77; 77; 77; 77; 77; 77; 77; 77; 77;
   77; 77; 77; 77; 77; 77; 77; 77; 77; 77; 77; 77; 77; 77; 77; 77;
   77; 77; 77; 77; 77; 77; 77; 77; 77; 77; 77; 77; 77; 77; 77; 77;
   77; 77; 77; 77; 77; 77; 77; 77; 77; 77; 77; 77; 77; 77; 77; 77;
   77; 77; 77; 77; 77; 77; 77; 77; 77; 77; 77; 77; 77; 77; 77; 77;
   77; 77; 77; 77; 77; 77; 77; 77; 77; 77; 77; 77; 77; 77; 77; 77;
   77; 77; 77; 77; 77; 77; 77; 77; 77; 77; 77; 77; 77; 77; 77; 77;
   77; 77; 77; 77; 77; 77; 77; 77; 77; 77; 77; 77; 77; 77; 77; 77].

Definition quadsVal : list Z :=
  [11934; 11947; 11960; 11973; 11986; 11999; 12012; 12025; 12038; 12051; 12064; 12077; 12090].

Definition tripsVal : list Z :=
  [8606; 8684; 8762; 8840; 8918; 8996; 9074; 9152; 9230; 9308; 9386; 9464; 9542].

Definition pairsVal : list Z :=
  [1287; 1573; 1859; 2145; 2431; 2717; 3003; 3289; 3575; 3861; 4147; 4433; 4719].

Definition twoPairOtherVal : list Z :=
  [3718; 3731; 3744; 3757; 3770; 3783; 3796; 3809; 3822; 3835; 3848; 3861; 3874].

Definition fullHouseOtherVal : Z := HANDCLASS_FULL_HOUSE - HANDCLASS_TRIPS.
