(* ===== verification/Eval.v ===== *)
(** * The hand evaluator ([rankCardset] of [Common/acpc/include/evalHandTables])

    [rankCardset] is modelled with its table lookups; the reference evaluator
    [hand_of] knows no tables: it counts suits per rank and applies the rules of
    poker.  Proved: each table holds its closed form, [rankCardset] computes the
    number of the reference hand, and the numbers order hands as the rules do. *)

From stdpp Require Import base list list_numbers numbers option sets.
From S2P Require Import Prelude EvalTables.
Open Scope Z_scope.

(** ** The code *)

(** The union of [uint16_t bySuit[4]] and [uint64_t cards], as its 64-bit view on a
    little-endian machine. *)
Definition Cardset : Set := Z.
Definition bySuit (c : Cardset) (s : Z) : Z := u16 (Z.shiftr c (16 * s)).

Definition emptyCardset : Cardset := 0.
Definition addCardToCardset (c : Cardset) (suit rank : Z) : Cardset :=
  Z.lor c (u64 (Z.shiftl 1 (Z.shiftl suit 4 + rank))).

Definition bit (r : Z) : Z := Z.shiftl 1 r.

(** [if( oneSuitVal[ ... ] > postponed ) postponed = ...] for one suit. *)
Definition bestSuit (m postponed : Z) : res Z :=
  v ← rd oneSuitVal m; Ok (if postponed <? v then v else postponed).

(** [postponed] after looking for a flush and a straight: [inr] is a return. *)
Definition flushOrStraight (postponed s0 : Z) : res (Z + Z) :=
  if nz postponed then Ok (inr postponed) else
  postponed ← rd anySuitVal s0;
  if HANDCLASS_STRAIGHT <=? postponed then Ok (inr postponed) else Ok (inl postponed).

Definition rankQuads (s0 s3 : Z) : res Z :=
  r ← rd topBit s3;
  q ← rd quadsVal r;
  k ← rd topBit (Z.lxor s0 (bit r));
  Ok (q + k).

Definition rankTrips (postponed s0 s1 s2 : Z) : res Z :=
  r ← rd topBit s2;
  let s1 := u16 (Z.lxor s1 (bit r)) in
  if nz s1 then
    v ← rd tripsVal r; k ← rd topBit s1; Ok (v + fullHouseOtherVal + k)
  else
  o ← flushOrStraight postponed s0;
  match o with
  | inr v => Ok v
  | inl _ =>
      let s0 := u16 (Z.lxor s0 (bit r)) in
      v ← rd tripsVal r; k ← rd tripsOtherVal s0; Ok (v + k)
  end.

Definition rankPairs (postponed s0 s1 : Z) : res Z :=
  if nz s1 then
    r ← rd topBit s1;
    let s0 := u16 (Z.lxor s0 (bit r)) in
    let s1 := u16 (Z.lxor s1 (bit r)) in
    if nz s1 then
      t ← rd topBit s1;
      let s0 := u16 (Z.lxor s0 (bit t)) in
      v ← rd pairsVal r; t ← rd topBit s1; w ← rd twoPairOtherVal t; k ← rd topBit s0;
      Ok (v + w + k)
    else v ← rd pairsVal r; k ← rd pairOtherVal s0; Ok (v + k)
  else Ok postponed.

Definition rankCardset (cards : Cardset) : res Z :=
  let c0 := bySuit cards 0 in let c1 := bySuit cards 1 in
  let c2 := bySuit cards 2 in let c3 := bySuit cards 3 in
  postponed ← rd oneSuitVal c0;
  postponed ← bestSuit c1 postponed;
  postponed ← bestSuit c2 postponed;
  postponed ← bestSuit c3 postponed;
  if HANDCLASS_STRAIGHT_FLUSH <=? postponed then Ok postponed else
  let s0 := Z.lor c0 c1 in
  let s1 := Z.land c0 c1 in
  let s2 := Z.land s1 c2 in
  let s1 := Z.lor s1 (Z.land s0 c2) in
  let s0 := Z.lor s0 c2 in
  let s3 := Z.land s2 c3 in
  let s2 := Z.lor s2 (Z.land s1 c3) in
  let s1 := Z.lor s1 (Z.land s0 c3) in
  let s0 := Z.lor s0 c3 in
  if nz s3 then rankQuads s0 s3
  else if nz s2 then rankTrips postponed s0 s1 s2
  else
  o ← flushOrStraight postponed s0;
  match o with
  | inr v => Ok v
  | inl postponed => rankPairs postponed s0 s1
  end.

(** ** The rules of poker *)

(** The ranks of a set, highest first. *)
Definition all_ranks : list Z := [12; 11; 10; 9; 8; 7; 6; 5; 4; 3; 2; 1; 0].
Definition ranks (has : Z → bool) : list Z := List.filter has all_ranks.

(** The top rank of the best straight; the ace also counts below the deuce. *)
Definition straight_at (has : Z → bool) (t : Z) : bool :=
  forallb (λ i, has (if t - i =? -1 then 12 else t - i)) (seqZ 0 5).
Definition straight_top (has : Z → bool) : option Z :=
  List.find (straight_at has) [12; 11; 10; 9; 8; 7; 6; 5; 4; 3].

Inductive hand : Set :=
  | HighCard (kickers : list Z)
  | Pair (r : Z) (kickers : list Z)
  | TwoPair (r1 r2 kicker : Z)
  | Trips (r : Z) (kickers : list Z)
  | Straight (top : Z)
  | Flush (kickers : list Z)
  | FullHouse (r p : Z)
  | Quads (r kicker : Z)
  | StraightFlush (top : Z).

(** Binomial coefficients by Pascal's triangle. *)
Fixpoint pascal (n : nat) : list Z :=
  match n with
  | O => [1]
  | S n => let row := pascal n in zip_with Z.add (0 :: row) (row ++ [0])
  end.
Definition binom (n k : Z) : Z := nth (Z.to_nat k) (pascal (Z.to_nat n)) 0.

(** The number of a descending list of ranks among those of its length. *)
Fixpoint kidx (l : list Z) : Z :=
  match l with
  | [] => 0
  | r :: l' => binom r (Z.of_nat (length l)) + kidx l'
  end.

(** The number of a hand. *)
Definition code (h : hand) : Z :=
  match h with
  | HighCard l => HANDCLASS_SINGLE_CARD + kidx l
  | Pair r l => HANDCLASS_PAIR + 286 * r + kidx l
  | TwoPair r1 r2 k => HANDCLASS_TWO_PAIR + 286 * r1 + 13 * r2 + k
  | Trips r l => HANDCLASS_TRIPS + 78 * r + kidx l
  | Straight t => HANDCLASS_STRAIGHT + t
  | Flush l => HANDCLASS_FLUSH + kidx l
  | FullHouse r p => HANDCLASS_FULL_HOUSE + 78 * r + p
  | Quads r k => HANDCLASS_QUADS + 13 * r + k
  | StraightFlush t => HANDCLASS_STRAIGHT_FLUSH + t
  end.

(** The flush a suit holds, if any. *)
Definition suit_hand (has : Z → bool) : option hand :=
  match straight_top has with
  | Some t => Some (StraightFlush t)
  | None => if (5 <=? length (ranks has))%nat then Some (Flush (take 5 (ranks has))) else None
  end.
Definition code_opt (o : option hand) : Z := match o with Some h => code h | None => 0 end.

(** The better of two; the first on a tie. *)
Definition better (a b : option hand) : option hand :=
  if code_opt a <? code_opt b then b else a.

Definition without (r : Z) (l : list Z) : list Z := List.filter (λ x, negb (x =? r)) l.

(** The best hand in the cards [c]: [c s r] tells whether the card of suit [s] and
    rank [r] is there. *)
Section Rules.
Context (c : Z → Z → bool).

Definition count (r : Z) : Z := c_bool (c 0 r) + c_bool (c 1 r) + c_bool (c 2 r) + c_bool (c 3 r).
Definition atLeast (k : Z) : list Z := ranks (λ r, k <=? count r).
Definition flush : option hand :=
better (better (better (suit_hand (c 0)) (suit_hand (c 1))) (suit_hand (c 2))) (suit_hand (c 3)).
Definition straight : option Z := straight_top (λ r, 1 <=? count r).

Definition below_fullhouse (others : hand) : hand :=
match flush with
| Some f => f
| None => match straight with Some t => Straight t | None => others end
end.

Definition pairs_hand : hand :=
match atLeast 2 with
| [] => HighCard (take 5 (atLeast 1))
| [r] => Pair r (take 3 (without r (atLeast 1)))
| r1 :: r2 :: _ => TwoPair r1 r2 (hd 0 (without r2 (without r1 (atLeast 1))))
end.

Definition sets_hand : hand :=
match atLeast 4 with
| r :: _ => Quads r (hd 0 (without r (atLeast 1)))
| [] =>
    match atLeast 3 with
    | r :: _ =>
        match without r (atLeast 2) with
        | p :: _ => FullHouse r p
        | [] => below_fullhouse (Trips r (take 2 (without r (atLeast 1))))
        end
    | [] => below_fullhouse pairs_hand
    end
end.

Definition hand_of : hand :=
match flush with
| Some (StraightFlush t) => StraightFlush t
| _ => sets_hand
end.
End Rules.

(** The cards of a set. *)
Definition has_card (cards : Cardset) (s r : Z) : bool := Z.testbit cards (16 * s + r).

(** ** The tables *)

(** The numbers from [i] on; counting up evaluates faster than [seqZ]. *)
Fixpoint count_up (k : nat) (i : Z) : list Z :=
  match k with O => [] | S k => i :: count_up k (i + 1) end.

Lemma count_up_seqZ k i : count_up k i = seqZ i (Z.of_nat k).
Proof.
  revert i. induction k as [|k IH]; intros i; [done|]. cbn [count_up]. rewrite IH, (seqZ_cons i) by lia.
  f_equal. f_equal; lia.
Qed.

Lemma table_values T (f : Z → Z) n : 0 ≤ n → T = f <$> count_up (Z.to_nat n) 0 → T = f <$> seqZ 0 n.
Proof. intros Hn ->. by rewrite count_up_seqZ, Z2Nat.id. Qed.

Lemma oneSuitVal_spec : oneSuitVal = (λ m, code_opt (suit_hand (Z.testbit m))) <$> seqZ 0 8192.
Proof. apply table_values; [lia|]. vm_cast_no_check (eq_refl oneSuitVal). Qed.
Lemma anySuitVal_spec : anySuitVal =
  (λ m, match straight_top (Z.testbit m) with
        | Some t => code (Straight t) | None => code (HighCard (take 5 (ranks (Z.testbit m)))) end)
  <$> seqZ 0 8192.
Proof. apply table_values; [lia|]. vm_cast_no_check (eq_refl anySuitVal). Qed.
Lemma pairOtherVal_spec : pairOtherVal = (λ m, kidx (take 3 (ranks (Z.testbit m)))) <$> seqZ 0 8192.
Proof. apply table_values; [lia|]. vm_cast_no_check (eq_refl pairOtherVal). Qed.
Lemma tripsOtherVal_spec : tripsOtherVal = (λ m, kidx (take 2 (ranks (Z.testbit m)))) <$> seqZ 0 8192.
Proof. apply table_values; [lia|]. vm_cast_no_check (eq_refl tripsOtherVal). Qed.
Lemma topBit_spec : topBit = (λ m, hd 0 (ranks (Z.testbit m))) <$> seqZ 0 8192.
Proof. apply table_values; [lia|]. vm_cast_no_check (eq_refl topBit). Qed.

Lemma rd_table {T n} {f : Z → Z} m : T = f <$> seqZ 0 n → 0 ≤ m < n → rd T m = Ok (f m).
Proof.
  intros -> Hm. unfold rd. destruct (Z.ltb_spec m 0); [lia|].
  rewrite list_lookup_fmap, lookup_seqZ_lt by lia. cbn. do 2 f_equal. lia.
Qed.

Lemma quadsVal_spec : quadsVal = (λ r, HANDCLASS_QUADS + 13 * r) <$> seqZ 0 13.
Proof. reflexivity. Qed.
Lemma tripsVal_spec : tripsVal = (λ r, HANDCLASS_TRIPS + 78 * r) <$> seqZ 0 13.
Proof. reflexivity. Qed.
Lemma pairsVal_spec : pairsVal = (λ r, HANDCLASS_PAIR + 286 * r) <$> seqZ 0 13.
Proof. reflexivity. Qed.
Lemma twoPairOtherVal_spec :
  twoPairOtherVal = (λ r, HANDCLASS_TWO_PAIR - HANDCLASS_PAIR + 13 * r) <$> seqZ 0 13.
Proof. reflexivity. Qed.

(** ** Sets of ranks as masks *)
Lemma all_ranks_elem r : r ∈ all_ranks ↔ 0 ≤ r < 13.
Proof.
  unfold all_ranks. rewrite !elem_of_cons. split.
  - intros H. assert (¬ r ∈ @nil Z) by apply not_elem_of_nil. intuition lia.
  - intros H. lia.
Qed.

Lemma ranks_ext f g : (∀ r, 0 ≤ r < 13 → f r = g r) → ranks f = ranks g.
Proof.
  intros H. apply List.filter_ext_in. intros r Hr%list_elem_of_In%all_ranks_elem. by apply H.
Qed.

Lemma ranks_elem f r : r ∈ ranks f ↔ 0 ≤ r < 13 ∧ f r = true.
Proof. unfold ranks. by rewrite list_elem_of_In, filter_In, <-list_elem_of_In, all_ranks_elem. Qed.

Lemma find_ext {A} (f g : A → bool) l : (∀ x, In x l → f x = g x) → List.find f l = List.find g l.
Proof.
  induction l as [|x l IH]; intros H; [done|]. cbn. rewrite H by (by left).
  destruct (g x); [done|]. apply IH. intros. apply H. by right.
Qed.

Lemma straight_top_ext f g : (∀ r, 0 ≤ r < 13 → f r = g r) → straight_top f = straight_top g.
Proof.
  intros H. apply find_ext. intros t Ht. unfold straight_at.
  assert (3 ≤ t ≤ 12) by (cbn in Ht; lia).
  apply eq_iff_eq_true. rewrite !forallb_seqZ.
  split; intros Hf i Hi; specialize (Hf i Hi); rewrite <-Hf; [symmetry|]; apply H;
    destruct (Z.eqb_spec (t - i) (-1)); lia.
Qed.

Lemma suit_hand_ext f g : (∀ r, 0 ≤ r < 13 → f r = g r) → suit_hand f = suit_hand g.
Proof. intros H. unfold suit_hand. by rewrite (straight_top_ext f g H), (ranks_ext f g H). Qed.

Definition mask (m : Z) : Prop := 0 ≤ m < 8192.

Lemma mask_lor a b : mask a → mask b → mask (Z.lor a b).
Proof. by apply (below_lor 13). Qed.
Lemma mask_land a b : mask a → mask b → mask (Z.land a b).
Proof. intros ? [? ?]. by apply (below_land 13). Qed.
Lemma mask_bit r : 0 ≤ r < 13 → mask (bit r).
Proof.
  intros Hr. unfold mask, bit. rewrite Z.shiftl_1_l. change 8192 with (2 ^ 13).
  split; [apply Z.pow_nonneg; lia|]. apply Z.pow_lt_mono_r; lia.
Qed.
Lemma mask_flip m r : mask m → 0 ≤ r < 13 → mask (Z.lxor m (bit r)).
Proof. intros. apply (below_lxor 13); [done|done|by apply mask_bit]. Qed.

Lemma testbit_bit r i : 0 ≤ r → Z.testbit (bit r) i = (r =? i).
Proof. intros. unfold bit. rewrite Z.shiftl_1_l. by apply Z.pow2_bits_eqb. Qed.

(** Taking a rank out of a set that has it. *)
Lemma ranks_flip m r : 0 ≤ r < 13 → Z.testbit m r = true →
  ranks (Z.testbit (Z.lxor m (bit r))) = without r (ranks (Z.testbit m)).
Proof.
  intros Hr Hm. unfold ranks, without. generalize all_ranks. intros l.
  induction l as [|x l IH]; [done|]. cbn [List.filter].
  rewrite Z.lxor_spec, testbit_bit by lia. destruct (Z.eqb_spec r x) as [<-|].
  - rewrite Hm. cbn. by rewrite Z.eqb_refl.
  - rewrite xorb_false_r. destruct (Z.testbit m x); [|done]. cbn.
    rewrite (proj2 (Z.eqb_neq x r)) by lia. cbn. by rewrite IH.
Qed.

Lemma mask_zero m : mask m → nz m = match ranks (Z.testbit m) with [] => false | _ => true end.
Proof.
  intros Hm. unfold nz. destruct (Z.eqb_spec m 0) as [->|Hne]; [by vm_compute|].
  destruct (ranks (Z.testbit m)) eqn:E; [|done]. exfalso. apply Hne.
  apply Z.bits_inj. intros i. rewrite Z.bits_0.
  destruct (Z.lt_ge_cases i 0) as [|Hi]; [by apply Z.testbit_neg_r|].
  destruct (Z.lt_ge_cases i 13) as [|Hi'].
  - destruct (Z.testbit m i) eqn:Eb; [|done].
    assert (i ∈ ranks (Z.testbit m)) as Hin by (by apply ranks_elem).
    rewrite E in Hin. by apply not_elem_of_nil in Hin.
  - by apply (below_testbit 13).
Qed.

Lemma ranks_head f r l : ranks f = r :: l → 0 ≤ r < 13 ∧ f r = true.
Proof. intros E. apply ranks_elem. rewrite E. set_solver. Qed.

(** ** The branches *)
Ltac lookup_table spec := rewrite (rd_table _ spec), bind_ok by (assumption || lia).

Lemma flip_u16 m r : mask m → 0 ≤ r < 13 → u16 (Z.lxor m (bit r)) = Z.lxor m (bit r).
Proof. intros Hm Hr. pose proof (mask_flip m r Hm Hr) as [? ?]. apply u16_small. lia. Qed.

Lemma rankQuads_ok s0 s3 r l :
  mask s0 → mask s3 → ranks (Z.testbit s3) = r :: l → Z.testbit s0 r = true →
  rankQuads s0 s3 = Ok (code (Quads r (hd 0 (without r (ranks (Z.testbit s0)))))).
Proof.
  intros H0 H3 E Hb. destruct (ranks_head _ _ _ E) as [Hr _]. unfold rankQuads.
  pose proof (mask_flip s0 r H0 Hr).
  lookup_table topBit_spec. rewrite E. cbn [hd].
  lookup_table quadsVal_spec. lookup_table topBit_spec. by rewrite ranks_flip.
Qed.

(** [flush] and [straight] of a set, as the code finds them. *)
Definition below_fh (f : option hand) (s0 : Z) (others : hand) : hand :=
  match f with
  | Some h => h
  | None => match straight_top (Z.testbit s0) with Some t => Straight t | None => others end
  end.

(** ** Numbering descending rank lists *)

(** Strictly descending ranks below [b]. *)
Fixpoint desc (b : Z) (l : list Z) : Prop :=
  match l with [] => True | r :: l' => 0 ≤ r < b ∧ desc r l' end.

Lemma desc_weaken b b' l : b ≤ b' → desc b l → desc b' l.
Proof. destruct l; cbn; [done|]. intros ? [? ?]. split; [lia|done]. Qed.

Lemma desc_filter f b l : desc b l → desc b (List.filter f l).
Proof.
  revert b. induction l as [|r l IH]; intros b; cbn; [done|]. intros [Hr Hl].
  destruct (f r); cbn; [by auto|]. apply IH. by eapply desc_weaken; [|done]; lia.
Qed.

Lemma without_head b r l : desc b (r :: l) → without r (r :: l) = l.
Proof.
  intros [_ Hl]. unfold without. cbn. rewrite Z.eqb_refl. cbn.
  assert (∀ x, In x l → negb (x =? r) = true) as H.
  { clear b. assert (∀ b, desc b l → ∀ x, In x l → x < b) as G.
    { clear. induction l as [|y l IH]; intros b; cbn; [done|]. intros [Hy Hl] x [<-|Hx]; [lia|].
      specialize (IH y Hl x Hx). lia. }
    intros x Hx. specialize (G r Hl x Hx). destruct (Z.eqb_spec x r); [lia|done]. }
  clear Hl. induction l as [|x l IH]; cbn; [done|]. rewrite H by (by left). f_equal. apply IH.
  intros. apply H. by right.
Qed.

Lemma desc_take k b l : desc b l → desc b (take k l).
Proof. revert k b. induction l as [|r l IH]; intros [|k] b; cbn; try done. intros [? ?]. auto. Qed.

Lemma desc_ranks f : desc 13 (ranks f).
Proof. apply desc_filter. vm_compute. intuition discriminate. Qed.

Lemma desc_length b l : 0 ≤ b → desc b l → Z.of_nat (length l) ≤ b.
Proof.
  revert b. induction l as [|r l IH]; intros b Hb; cbn; [lia|]. intros [Hr Hl].
  specialize (IH r ltac:(lia) Hl). lia.
Qed.

Lemma desc_elem b l x : desc b l → x ∈ l → 0 ≤ x < b.
Proof.
  revert b. induction l as [|r l IH]; intros b; cbn; [by intros _ ?%not_elem_of_nil|].
  intros [Hr Hl] [->|Hx]%elem_of_cons; [lia|]. specialize (IH r Hl Hx). lia.
Qed.

Lemma binom_pascal n k : 0 ≤ n < 13 → 0 ≤ k < 13 → binom (n + 1) (k + 1) = binom n k + binom n (k + 1).
Proof.
  intros Hn Hk.
  assert (forallb (λ n, forallb (λ k, binom (n + 1) (k + 1) =? binom n k + binom n (k + 1)) (seqZ 0 13)) (seqZ 0 13) = true)
    as H by (vm_compute; reflexivity).
  rewrite forallb_seqZ in H. specialize (H n ltac:(lia)). rewrite forallb_seqZ in H.
  apply Z.eqb_eq, H. lia.
Qed.

Lemma binom_mono n n' k : 0 ≤ n ≤ n' → n' ≤ 13 → 0 ≤ k ≤ 13 → 0 ≤ binom n k ≤ binom n' k.
Proof.
  intros Hn Hn' Hk.
  assert (forallb (λ n, forallb (λ d, forallb (λ k, (0 <=? binom n k) && (binom n k <=? binom (n + d) k))
    (seqZ 0 14)) (seqZ 0 (14 - n))) (seqZ 0 14) = true) as H by (vm_compute; reflexivity).
  rewrite forallb_seqZ in H. specialize (H n ltac:(lia)). rewrite forallb_seqZ in H.
  specialize (H (n' - n) ltac:(lia)). rewrite forallb_seqZ in H. specialize (H k ltac:(lia)).
  replace (n + (n' - n)) with n' in H by lia. lia.
Qed.

Lemma kidx_bound b l : 0 ≤ b ≤ 13 → desc b l → 0 ≤ kidx l < binom b (Z.of_nat (length l)).
Proof.
  revert b. induction l as [|r l IH]; intros b Hb.
  { intros _. assert (binom b 0 = 1) as E; [|cbn [length kidx]; change (Z.of_nat 0) with 0; lia].
    assert (forallb (λ b, binom b 0 =? 1) (seqZ 0 14) = true) as H by (vm_compute; reflexivity).
    rewrite forallb_seqZ in H. apply Z.eqb_eq, H. lia. }
  cbn [kidx desc]. intros [Hr Hl]. specialize (IH r ltac:(lia) Hl).
  pose proof (desc_length r l ltac:(lia) Hl). cbn [length].
  replace (Z.of_nat (S (length l))) with (Z.of_nat (length l) + 1) by lia.
  pose proof (binom_pascal r (Z.of_nat (length l)) ltac:(lia) ltac:(lia)).
  pose proof (binom_mono (r + 1) b (Z.of_nat (length l) + 1) ltac:(lia) ltac:(lia) ltac:(lia)).
  pose proof (binom_mono r r (Z.of_nat (length l) + 1) ltac:(lia) ltac:(lia) ltac:(lia)). lia.
Qed.

(** Kickers compare card by card, from the highest. *)
Fixpoint lex_lt (l l' : list Z) : Prop :=
  match l, l' with
  | r :: l, r' :: l' => r < r' ∨ r = r' ∧ lex_lt l l'
  | _, _ => False
  end.

Lemma kidx_mono b l l' :
  0 ≤ b ≤ 13 → desc b l → desc b l' → length l = length l' → lex_lt l l' → kidx l < kidx l'.
Proof.
  revert b l'. induction l as [|r l IH]; intros b [|r' l'] Hb; try done.
  intros [Hr Hl] [Hr' Hl'] [= El] [Hlt|[-> Hlt]].
  - pose proof (kidx_bound (r + 1) (r :: l) ltac:(lia) ltac:(cbn; split; [lia|done])) as [_ H].
    pose proof (desc_length r l ltac:(lia) Hl).
    pose proof (binom_mono (r + 1) r' (Z.of_nat (length (r :: l))) ltac:(lia) ltac:(lia) ltac:(cbn; lia)).
    pose proof (kidx_bound r' l' ltac:(lia) Hl') as [? _].
    cbn [kidx] in *. cbn [length] in *. rewrite El in *. lia.
  - specialize (IH r' l' ltac:(lia) Hl Hl' El Hlt). cbn [kidx length]. rewrite El. lia.
Qed.

Lemma kidx_take_bound k f (B : Z) :
  (k ≤ 5)%nat → B = binom 13 (Z.of_nat k) → 0 ≤ kidx (take k (ranks f)) < B.
Proof.
  intros Hk ->. pose proof (kidx_bound 13 _ ltac:(lia) (desc_take k _ _ (desc_ranks f))) as H.
  assert (length (take k (ranks f)) ≤ k)%nat as Hl by (rewrite length_take; lia). revert H Hl.
  generalize (length (take k (ranks f))). intros j H Hl. 
  assert (binom 13 (Z.of_nat j) ≤ binom 13 (Z.of_nat k)); [|lia].
  do 6 (destruct k as [|k]; [do 6 (destruct j as [|j]; [first [lia | vm_compute; discriminate]|]); lia|]). lia.
Qed.

Lemma flushOrStraight_ok f s0 others :
  mask s0 → (∀ h, f = Some h → 0 < code h) →
  flushOrStraight (code_opt f) s0 =
    Ok (match f, straight_top (Z.testbit s0) with
        | None, None => inl (code (HighCard (take 5 (ranks (Z.testbit s0)))))
        | _, _ => inr (code (below_fh f s0 others))
        end).
Proof.
  intros Hm Hf. unfold flushOrStraight, below_fh. destruct f as [h|]; cbn [code_opt].
  - specialize (Hf h eq_refl). unfold nz. rewrite (proj2 (Z.eqb_neq _ 0)) by lia. done.
  - cbn [nz Z.eqb negb]. lookup_table anySuitVal_spec.
    destruct (straight_top (Z.testbit s0)) as [t|] eqn:E.
    + apply find_some in E as [Ht _]. cbn [code]. rewrite (proj2 (Z.leb_le _ _)); [done|].
      cbn in Ht. lia.
    + pose proof (kidx_take_bound 5 (Z.testbit s0) 1287 ltac:(lia) eq_refl). cbn [code].
      rewrite (proj2 (Z.leb_gt _ _)); [done|]. unfold HANDCLASS_STRAIGHT, HANDCLASS_SINGLE_CARD. lia.
Qed.

Lemma below_fh_match {A} f s0 o (x : A) (k : Z → A) :
  (match (match f, straight_top (Z.testbit s0) with
          | None, None => inl (code (HighCard (take 5 (ranks (Z.testbit s0)))))
          | _, _ => inr (code (below_fh f s0 o))
          end : Z + Z) with inr v => k v | inl _ => x end)
  = match f, straight_top (Z.testbit s0) with None, None => x | _, _ => k (code (below_fh f s0 o)) end.
Proof. by destruct f, (straight_top (Z.testbit s0)). Qed.

Lemma rankTrips_ok f s0 s1 s2 r l :
  mask s0 → mask s1 → mask s2 → (∀ h, f = Some h → 0 < code h) →
  ranks (Z.testbit s2) = r :: l → Z.testbit s0 r = true → Z.testbit s1 r = true →
  rankTrips (code_opt f) s0 s1 s2 =
    Ok (code (match without r (ranks (Z.testbit s1)) with
              | p :: _ => FullHouse r p
              | [] => below_fh f s0 (Trips r (take 2 (without r (ranks (Z.testbit s0)))))
              end)).
Proof.
  intros H0 H1 H2 Hf E Hb0 Hb1. destruct (ranks_head _ _ _ E) as [Hr _]. unfold rankTrips.
  pose proof (mask_flip s0 r H0 Hr). pose proof (mask_flip s1 r H1 Hr).
  lookup_table topBit_spec. rewrite E. cbn [hd]. rewrite !flip_u16 by done. cbv zeta.
  rewrite mask_zero, ranks_flip by done. destruct (without r (ranks (Z.testbit s1))) as [|p l'] eqn:E1.
  - rewrite (flushOrStraight_ok f s0 (Trips r (take 2 (without r (ranks (Z.testbit s0)))))), bind_ok by done.
    rewrite below_fh_match. unfold below_fh.
    destruct f, (straight_top (Z.testbit s0)); try done.
    lookup_table tripsVal_spec. lookup_table tripsOtherVal_spec. by rewrite ranks_flip.
  - lookup_table tripsVal_spec. lookup_table topBit_spec. rewrite ranks_flip, E1 by done.
    cbn [hd code]. unfold fullHouseOtherVal. f_equal. lia.
Qed.

Lemma rankPairs_ok v s0 s1 :
  mask s0 → mask s1 → (∀ r, Z.testbit s1 r = true → Z.testbit s0 r = true) →
  v = code (HighCard (take 5 (ranks (Z.testbit s0)))) →
  rankPairs v s0 s1 =
    Ok (code (match ranks (Z.testbit s1) with
              | [] => HighCard (take 5 (ranks (Z.testbit s0)))
              | [r] => Pair r (take 3 (without r (ranks (Z.testbit s0))))
              | r1 :: r2 :: _ => TwoPair r1 r2 (hd 0 (without r2 (without r1 (ranks (Z.testbit s0)))))
              end)).
Proof.
  intros H0 H1 Hsub Hv. unfold rankPairs. rewrite mask_zero by done.
  destruct (ranks (Z.testbit s1)) as [|r l] eqn:E; [by subst|].
  destruct (ranks_head _ _ _ E) as [Hr Hb1]. pose proof (Hsub r Hb1) as Hb0.
  pose proof (mask_flip s0 r H0 Hr) as F0. pose proof (mask_flip s1 r H1 Hr) as F1.
  lookup_table topBit_spec. rewrite E. cbn [hd]. rewrite !flip_u16 by done. cbv zeta.
  assert (ranks (Z.testbit (Z.lxor s1 (bit r))) = l) as El.
  { rewrite ranks_flip, E by done. apply (without_head 13). rewrite <-E. apply desc_ranks. }
  rewrite mask_zero, El by done. destruct l as [|t l].
  - lookup_table pairsVal_spec. lookup_table pairOtherVal_spec. by rewrite ranks_flip.
  - destruct (ranks_head _ _ _ El) as [Ht Hbt].
    assert (Z.testbit (Z.lxor s0 (bit r)) t = true) as Hbt0.
    { rewrite Z.lxor_spec, testbit_bit in Hbt |- * by lia.
      destruct (Z.eqb_spec r t) as [->|]; [rewrite Hb1 in Hbt; done|].
      rewrite xorb_false_r in *. by apply Hsub. }
    pose proof (mask_flip _ t F0 Ht).
    lookup_table topBit_spec. rewrite El. cbn [hd]. rewrite !flip_u16 by done.
    lookup_table pairsVal_spec. rewrite ?bind_ok.
    lookup_table twoPairOtherVal_spec. lookup_table topBit_spec.
    rewrite ranks_flip, ranks_flip by done. cbn [code]. f_equal.
    unfold HANDCLASS_PAIR, HANDCLASS_TWO_PAIR. lia.
Qed.

(** ** The whole evaluator *)
Definition valid_cards (c : Cardset) : Prop := ∀ s, 0 ≤ s < 4 → mask (bySuit c s).

Lemma has_bySuit c s r : 0 ≤ s → 0 ≤ r < 13 → Z.testbit (bySuit c s) r = has_card c s r.
Proof.
  intros Hs Hr. unfold bySuit, u16, has_card. change 65536 with (2 ^ 16).
  rewrite Z.mod_pow2_bits_low by lia. rewrite Z.shiftr_spec by lia. f_equal. lia.
Qed.

Lemma suit_hand_cases f :
  suit_hand f = None ∨ (∃ t, suit_hand f = Some (StraightFlush t) ∧ 3 ≤ t ≤ 12) ∨
  (suit_hand f = Some (Flush (take 5 (ranks f))) ∧ (5 ≤ length (ranks f))%nat).
Proof.
  unfold suit_hand. destruct (straight_top f) as [t|] eqn:E.
  - right; left. exists t. split; [done|]. apply find_some in E as [Ht _]. cbn in Ht. lia.
  - destruct (Nat.leb_spec 5 (length (ranks f))); auto.
Qed.

Lemma flush_cases c :
  flush c = None ∨ (∃ t, flush c = Some (StraightFlush t) ∧ 3 ≤ t ≤ 12) ∨
  ∃ s, 0 ≤ s < 4 ∧ flush c = Some (Flush (take 5 (ranks (c s)))) ∧ (5 ≤ length (ranks (c s)))%nat.
Proof.
  assert (∃ s, 0 ≤ s < 4 ∧ flush c = suit_hand (c s)) as (s & Hs & ->).
  { unfold flush, better. repeat case_match; eexists; (split; [|done]); lia. }
  destruct (suit_hand_cases (c s)) as [|[|]]; [by left|by right; left|right; right; by exists s].
Qed.

Lemma flush_code c :
  code_opt (flush c) = 0 ∧ flush c = None ∨
  (∃ t, flush c = Some (StraightFlush t) ∧ HANDCLASS_STRAIGHT_FLUSH ≤ code_opt (flush c)) ∨
  (∃ l, flush c = Some (Flush l) ∧ 0 < code_opt (flush c) < HANDCLASS_FULL_HOUSE).
Proof.
  destruct (flush_cases c) as [->|[(t & -> & Ht)|(s & Hs & -> & Hl)]]; [by left|right; left|right; right].
  - exists t. split; [done|]. cbn. lia.
  - eexists. split; [done|]. cbn [code_opt code].
    pose proof (kidx_take_bound 5 (c s) 1287 ltac:(lia) eq_refl).
    unfold HANDCLASS_FLUSH, HANDCLASS_FULL_HOUSE. lia.
Qed.

Section Sets.
Context (c : Cardset) (V : valid_cards c).
Let c0 := bySuit c 0.
Let c1 := bySuit c 1.
Let c2 := bySuit c 2.
Let c3 := bySuit c 3.

(** The masks of the ranks held at least once, twice, thrice, four times. *)
Definition set1 : Z := Z.lor (Z.lor (Z.lor c0 c1) c2) c3.
Definition set2 : Z :=
Z.lor (Z.lor (Z.land c0 c1) (Z.land (Z.lor c0 c1) c2)) (Z.land (Z.lor (Z.lor c0 c1) c2) c3).
Definition set3 : Z :=
Z.lor (Z.land (Z.land c0 c1) c2) (Z.land (Z.lor (Z.land c0 c1) (Z.land (Z.lor c0 c1) c2)) c3).
Definition set4 : Z := Z.land (Z.land (Z.land c0 c1) c2) c3.

Lemma masks : mask c0 ∧ mask c1 ∧ mask c2 ∧ mask c3.
Proof. split_and!; apply V; lia. Qed.

Lemma set_masks : mask set1 ∧ mask set2 ∧ mask set3 ∧ mask set4.
Proof.
destruct masks as (? & ? & ? & ?). unfold set1, set2, set3, set4.
split_and!; repeat first [apply mask_lor | apply mask_land | done].
Qed.

Lemma set_bits r :
let n := c_bool (Z.testbit c0 r) + c_bool (Z.testbit c1 r) + c_bool (Z.testbit c2 r) + c_bool (Z.testbit c3 r) in
Z.testbit set1 r = (1 <=? n) ∧ Z.testbit set2 r = (2 <=? n) ∧
Z.testbit set3 r = (3 <=? n) ∧ Z.testbit set4 r = (4 <=? n).
Proof.
unfold set1, set2, set3, set4. rewrite !Z.lor_spec, !Z.land_spec, !Z.lor_spec, ?Z.land_spec, ?Z.lor_spec.
by destruct (Z.testbit c0 r), (Z.testbit c1 r), (Z.testbit c2 r), (Z.testbit c3 r).
Qed.

Lemma set_ranks :
ranks (Z.testbit set1) = atLeast (has_card c) 1 ∧ ranks (Z.testbit set2) = atLeast (has_card c) 2 ∧
ranks (Z.testbit set3) = atLeast (has_card c) 3 ∧ ranks (Z.testbit set4) = atLeast (has_card c) 4.
Proof.
unfold atLeast, count. split_and!; apply ranks_ext; intros r Hr;
  rewrite <-!has_bySuit by lia; apply (set_bits r).
Qed.

Lemma set_straight : straight_top (Z.testbit set1) = straight (has_card c).
Proof.
unfold straight, count. apply straight_top_ext. intros r Hr.
rewrite <-!has_bySuit by lia. apply (set_bits r).
Qed.

(** The better hands are among the lesser sets. *)
Lemma set_sub r :
(Z.testbit set4 r = true → Z.testbit set1 r = true) ∧
(Z.testbit set3 r = true → Z.testbit set1 r = true ∧ Z.testbit set2 r = true) ∧
(Z.testbit set2 r = true → Z.testbit set1 r = true).
Proof. destruct (set_bits r) as (-> & -> & -> & ->). rewrite !Z.leb_le. lia. Qed.

Lemma suit_table s : 0 ≤ s < 4 →
rd oneSuitVal (bySuit c s) = Ok (code_opt (suit_hand (has_card c s))).
Proof.
intros Hs. rewrite (rd_table _ oneSuitVal_spec) by (by apply V).
by rewrite (suit_hand_ext _ (has_card c s)) by (intros; apply has_bySuit; lia).
Qed.

Lemma bestSuit_ok s a : 0 ≤ s < 4 →
bestSuit (bySuit c s) (code_opt a) = Ok (code_opt (better a (suit_hand (has_card c s)))).
Proof.
intros Hs. unfold bestSuit. rewrite suit_table, bind_ok by done. unfold better.
by destruct (_ <? _).
Qed.

Lemma below_fh_ok others :
below_fh (flush (has_card c)) set1 others = below_fullhouse (has_card c) others.
Proof. unfold below_fh, below_fullhouse. by rewrite set_straight. Qed.

Lemma flush_pos h : flush (has_card c) = Some h → 0 < code h.
Proof.
destruct (flush_code (has_card c)) as [[_ ->]|[(t & -> & Hc)|(l & -> & Hc)]]; [done|..];
  intros [= <-]; cbn [code_opt] in Hc; unfold HANDCLASS_STRAIGHT_FLUSH in *; lia.
Qed.

Lemma sets_ok :
(if nz set4 then rankQuads set1 set4
 else if nz set3 then rankTrips (code_opt (flush (has_card c))) set1 set2 set3
 else
 o ← flushOrStraight (code_opt (flush (has_card c))) set1;
 match o with inr v => Ok v | inl postponed => rankPairs postponed set1 set2 end)
= Ok (code (sets_hand (has_card c))).
Proof.
destruct set_masks as (M1 & M2 & M3 & M4). destruct set_ranks as (R1 & R2 & R3 & R4).
rewrite !mask_zero by done. rewrite R4, R3. unfold sets_hand.
destruct (atLeast (has_card c) 4) as [|r l] eqn:E4.
2: { destruct (set_sub r) as (S4 & _ & _), (ranks_head _ _ _ R4) as [_ Hb].
     by rewrite (rankQuads_ok _ _ r l), R1 by auto. }
destruct (atLeast (has_card c) 3) as [|r l] eqn:E3.
2: { destruct (set_sub r) as (_ & S3 & _), (ranks_head _ _ _ R3) as [_ [Hb0 Hb1]%S3].
     rewrite (rankTrips_ok _ _ _ _ r l) by (done || apply flush_pos).
     rewrite R1, R2. by destruct (without r (atLeast (has_card c) 2)); [rewrite below_fh_ok|]. }
rewrite (flushOrStraight_ok _ _ (pairs_hand (has_card c))), bind_ok by (done || apply flush_pos).
rewrite below_fh_ok, set_straight. unfold below_fullhouse.
destruct (flush (has_card c)); [done|]. destruct (straight (has_card c)); [done|].
rewrite rankPairs_ok; try done; [|intros r; apply (set_sub r)].
unfold pairs_hand. by rewrite R1, R2.
Qed.

Lemma rankCardset_ok : rankCardset c = Ok (code (hand_of (has_card c))).
Proof.
unfold rankCardset. cbv zeta.
rewrite suit_table, bind_ok by lia. rewrite !bestSuit_ok, bind_ok by lia.
rewrite bestSuit_ok, bind_ok, bestSuit_ok, bind_ok by lia.
fold (flush (has_card c)). fold c0 c1 c2 c3. fold set4. fold set3. fold set2. fold set1.
pose proof sets_ok as S. unfold hand_of.
destruct (flush_code (has_card c)) as [[Hz Hn]|[(t & Hf & Hc)|(l & Hf & Hc)]].
- rewrite Hz, Hn in *. by rewrite (proj2 (Z.leb_gt _ _)).
- rewrite (proj2 (Z.leb_le _ _)) by done. by rewrite Hf.
- rewrite (proj2 (Z.leb_gt _ _)); [by rewrite Hf in *|].
  unfold HANDCLASS_STRAIGHT_FLUSH, HANDCLASS_FULL_HOUSE in *. lia.
Qed.
End Sets.

(** ** Claim *)

(** C11: [rankCardset] agrees with the table-free reference evaluator on every set of
    cards, of any size: it returns the number of the hand that counting suits per
    rank and the rules of poker give. *)
Theorem rankCardset_reference c :
  valid_cards c → rankCardset c = Ok (code (hand_of (has_card c))).
Proof. apply rankCardset_ok. Qed.

Lemma valid_cards_dec c : forallb (λ s, (0 <=? bySuit c s) && (bySuit c s <? 8192)) (seqZ 0 4) = true → valid_cards c.
Proof. rewrite forallb_seqZ. intros H s Hs. specialize (H s ltac:(lia)). unfold mask. lia. Qed.

(** Aces full of nines with two spare cards. *)
Definition aces_full : Cardset :=
  fold_left (λ c '(s, r), addCardToCardset c s r) [(0, 12); (1, 12); (2, 12); (0, 7); (3, 7); (1, 3); (2, 0)] emptyCardset.

(** A spade flush over a possible straight. *)
Definition spade_flush : Cardset :=
  fold_left (λ c '(s, r), addCardToCardset c s r) [(3, 12); (3, 9); (3, 8); (3, 7); (3, 6); (1, 5); (2, 10)] emptyCardset.

Lemma rankCardset_reference_witness :
  rankCardset aces_full = Ok (code (FullHouse 12 7)).
Proof.
  rewrite (rankCardset_reference aces_full); [vm_compute; reflexivity|].
  apply valid_cards_dec. vm_compute. reflexivity.
Defined.
