(* ===== verification/EvalOrder.v ===== *)
(** * The order of hands

    The numbers [rankCardset] returns compare as the rules of poker compare
    hands: by class, then card by card. *)

From stdpp Require Import base list list_numbers numbers option sets.
From S2P Require Import Prelude EvalTables Eval.
Open Scope Z_scope.

#[global] Instance hand_eq_dec : EqDecision hand.
Proof. solve_decision. Defined.

(** ** The rules' order *)
Definition class (h : hand) : Z :=
  match h with
  | HighCard _ => 0 | Pair _ _ => 1 | TwoPair _ _ _ => 2 | Trips _ _ => 3 | Straight _ => 4
  | Flush _ => 5 | FullHouse _ _ => 6 | Quads _ _ => 7 | StraightFlush _ => 8
  end.

(** The ranks that decide between hands of one class, in order of importance. *)
Definition deciding (h : hand) : list Z :=
  match h with
  | HighCard l => l
  | Pair r l => r :: l
  | TwoPair r1 r2 k => [r1; r2; k]
  | Trips r l => r :: l
  | Straight t => [t]
  | Flush l => l
  | FullHouse r p => [r; p]
  | Quads r k => [r; k]
  | StraightFlush t => [t]
  end.

Definition beats (h' h : hand) : Prop :=
  class h < class h' ∨ class h = class h' ∧ lex_lt (deciding h) (deciding h').

(** Hands made of five cards. *)
Definition five (h : hand) : Prop :=
  match h with
  | HighCard l | Flush l => desc 13 l ∧ length l = 5%nat
  | Pair r l => 0 ≤ r < 13 ∧ desc 13 l ∧ length l = 3%nat
  | TwoPair r1 r2 k => 0 ≤ r2 < r1 ∧ r1 < 13 ∧ 0 ≤ k < 13
  | Trips r l => 0 ≤ r < 13 ∧ desc 13 l ∧ length l = 2%nat
  | Straight t | StraightFlush t => 3 ≤ t ≤ 12
  | FullHouse r k | Quads r k => 0 ≤ r < 13 ∧ 0 ≤ k < 13
  end.

Lemma kidx_range k l : desc 13 l → length l = k → 0 ≤ kidx l < binom 13 (Z.of_nat k).
Proof. intros Hd <-. by apply kidx_bound. Qed.

(** The first number of each class and of the next. *)
Definition class_lo (n : Z) : Z :=
  nth (Z.to_nat n) [0; 1287; 5005; 8606; 9620; 9633; 10920; 11934; 12103; 12116] 0.

Ltac norm_lo :=
  cbn [class code];
  repeat match goal with |- context [class_lo ?k] =>
    let v := eval vm_compute in (class_lo k) in change (class_lo k) with v end;
  unfold HANDCLASS_SINGLE_CARD, HANDCLASS_PAIR, HANDCLASS_TWO_PAIR, HANDCLASS_TRIPS,
    HANDCLASS_STRAIGHT, HANDCLASS_FLUSH, HANDCLASS_FULL_HOUSE, HANDCLASS_QUADS,
    HANDCLASS_STRAIGHT_FLUSH in *.

Ltac kidx_ranges :=
  repeat match goal with H : length ?l = ?k, D : desc 13 ?l |- _ =>
    pose proof (kidx_range k l D H); revert H end; intros;
  change (binom 13 (Z.of_nat 5)) with 1287 in *;
  change (binom 13 (Z.of_nat 3)) with 286 in *;
  change (binom 13 (Z.of_nat 2)) with 78 in *.

Lemma code_class h : five h → class_lo (class h) ≤ code h < class_lo (class h + 1).
Proof. intros H. destruct h; cbn [five] in H; destruct_and?; kidx_ranges; norm_lo; lia. Qed.

Lemma class_lo_mono n m : 0 ≤ n < m → m ≤ 8 → class_lo (n + 1) ≤ class_lo m.
Proof.
  intros Hn Hm.
  assert (forallb (λ m, forallb (λ n, class_lo (n + 1) <=? class_lo m) (seqZ 0 m)) (seqZ 0 9) = true)
    as H by (vm_compute; reflexivity).
  rewrite forallb_seqZ in H. specialize (H m ltac:(lia)). rewrite forallb_seqZ in H.
  apply Z.leb_le, H. lia.
Qed.

Lemma class_range h : 0 ≤ class h ≤ 8.
Proof. destruct h; cbn; lia. Qed.

Lemma code_mono h h' : five h → five h' → beats h' h → code h < code h'.
Proof.
  intros F F' [Hc|[Hc Hl]].
  - pose proof (code_class h F). pose proof (code_class h' F').
    pose proof (class_range h). pose proof (class_range h').
    pose proof (class_lo_mono (class h) (class h') ltac:(lia) ltac:(lia)). lia.
  - destruct h, h'; try discriminate Hc; cbn [five] in F, F'; destruct_and?; cbn [deciding] in Hl;
      cbn [code].
    1, 6: apply Z.add_lt_mono_l; by apply (kidx_mono 13); [lia|..|congruence|].
    1, 3: cbn [lex_lt] in Hl; destruct Hl as [Hl|[-> Hl]]; [kidx_ranges; lia|];
      apply Z.add_lt_mono_l; by apply (kidx_mono 13); [lia|..|congruence|].
    all: cbn [lex_lt] in Hl; lia.
Qed.

(** ** Comparison is total *)
Lemma lex_total l l' : length l = length l' → lex_lt l l' ∨ l = l' ∨ lex_lt l' l.
Proof.
  revert l'. induction l as [|r l IH]; intros [|r' l']; cbn; try done; [auto|]. intros [= E].
  destruct (Z.lt_trichotomy r r') as [|[->|]]; [by left; left| |by right; right; left].
  destruct (IH l' E) as [|[->|]]; [left; by right|by right; left|right; right; by right].
Qed.

Lemma deciding_inj h h' : class h = class h' → deciding h = deciding h' → h = h'.
Proof. destruct h, h'; cbn; intros Hc; try discriminate Hc; intros; simplify_eq; done. Qed.

Lemma beats_total h h' : five h → five h' → beats h' h ∨ h = h' ∨ beats h h'.
Proof.
  intros F F'. unfold beats. destruct (Z.lt_trichotomy (class h) (class h')) as [|[Hc|]]; [auto| |auto].
  assert (length (deciding h) = length (deciding h')) as El.
  { destruct h, h'; try discriminate Hc; cbn [five deciding length] in *; destruct_and?; congruence. }
  destruct (lex_total _ _ El) as [|[E|]]; [auto|right; left; by apply deciding_inj|auto 6].
Qed.

Lemma code_order h h' : five h → five h' →
  (code h < code h' ↔ beats h' h) ∧ (code h = code h' ↔ h = h').
Proof.
  intros F F'. pose proof (code_mono h h' F F'). pose proof (code_mono h' h F' F).
  split; split; try done; try (by intros ->); intros Hc;
    destruct (beats_total h h' F F') as [Hb|[->|Hb]]; try done; try lia;
    specialize (H0 Hb) || specialize (H Hb); lia.
Qed.

(** ** Hands of five or more cards *)
Section Cards.
Context (c : Z → Z → bool).

Definition ncards : Z := foldr (λ r a, count c r + a) 0 all_ranks.

Lemma count_range r : 0 ≤ count c r ≤ 4.
Proof. unfold count, c_bool. repeat case_match; lia. Qed.

Lemma ncards_sets :
ncards = Z.of_nat (length (atLeast c 1) + length (atLeast c 2) + length (atLeast c 3) + length (atLeast c 4)).
Proof.
unfold ncards, atLeast, ranks. induction all_ranks as [|r l IH]; [done|]. cbn [foldr List.filter].
rewrite IH. pose proof (count_range r).
destruct (Z.leb_spec 1 (count c r)), (Z.leb_spec 2 (count c r)), (Z.leb_spec 3 (count c r)),
  (Z.leb_spec 4 (count c r)); cbn [length]; lia.
Qed.

Lemma atLeast_sub k k' r : k ≤ k' → r ∈ atLeast c k' → r ∈ atLeast c k.
Proof. unfold atLeast. rewrite !ranks_elem, !Z.leb_le. intros ? [? ?]. split; [done|lia]. Qed.

Lemma atLeast_desc k : desc 13 (atLeast c k).
Proof. apply desc_ranks. Qed.

Lemma atLeast_nil k k' : k ≤ k' → atLeast c k = [] → atLeast c k' = [].
Proof.
intros Hk E. destruct (atLeast c k') as [|r l] eqn:E'; [done|].
assert (r ∈ atLeast c k) as Hin by (apply (atLeast_sub k k' r Hk); rewrite E'; set_solver).
rewrite E in Hin. by apply not_elem_of_nil in Hin.
Qed.

Lemma without_desc b r l : desc b l → desc b (without r l).
Proof. apply desc_filter. Qed.

(** Taking one rank out of a list without repetitions shortens it by at most one. *)
Lemma without_length b r l : desc b l → (length l ≤ S (length (without r l)))%nat.
Proof.
revert b. induction l as [|x l IH]; intros b; cbn; [lia|]. intros [Hx Hl].
destruct (Z.eqb_spec x r) as [->|]; cbn.
- rewrite <-(without_head b r l) at 1 by (cbn; done).
  unfold without. cbn. rewrite Z.eqb_refl. cbn. lia.
- specialize (IH x Hl). unfold without in IH. lia.
Qed.

Lemma hd_range b l : 0 < b → desc b l → 0 ≤ hd 0 l < b.
Proof. destruct l; cbn; lia. Qed.

Lemma take_five n l : desc 13 l → (n ≤ length l)%nat → desc 13 (take n l) ∧ length (take n l) = n.
Proof. intros. split; [by apply desc_take|]. rewrite length_take. lia. Qed.

Lemma below_fullhouse_five others : (flush c = None → straight c = None → five others) →
five (below_fullhouse c others).
Proof.
intros Ho. unfold below_fullhouse. destruct (flush_cases c) as [E|[(t & -> & Ht)|(s & _ & -> & Hl)]].
- rewrite E. destruct (straight c) as [t|] eqn:Es; [|by apply Ho].
  apply find_some in Es as [Ht _]. cbn in Ht |- *. lia.
- cbn. lia.
- cbn [five]. apply take_five; [apply desc_ranks|done].
Qed.

Lemma pairs_five : 5 ≤ ncards → atLeast c 3 = [] → five (pairs_hand c).
Proof.
intros Hn E3. rewrite ncards_sets, E3, (atLeast_nil 3 4 ltac:(lia) E3) in Hn. cbn [length] in Hn.
unfold pairs_hand. pose proof (atLeast_desc 1) as D1. pose proof (atLeast_desc 2) as D2.
destruct (atLeast c 2) as [|r1 [|r2 l]]; cbn [five length] in *.
- apply take_five; [done|lia].
- destruct D2 as [Hr _]. split; [lia|]. pose proof (without_length 13 r1 _ D1).
  apply take_five; [by apply without_desc|lia].
- destruct D2 as [Hr [Hr2 _]]. split; [lia|]. split; [lia|].
  apply hd_range; [lia|]. by apply without_desc, without_desc.
Qed.

Lemma sets_five : 5 ≤ ncards → five (sets_hand c).
Proof.
intros Hn. unfold sets_hand. pose proof (atLeast_desc 1) as D1. pose proof (atLeast_desc 2) as D2.
pose proof (atLeast_desc 3) as D3. pose proof (atLeast_desc 4) as D4.
destruct (atLeast c 4) as [|r l] eqn:E4.
2: { cbn [five]. destruct D4 as [? _]. split; [lia|]. apply hd_range; [lia|by apply without_desc]. }
destruct (atLeast c 3) as [|r l] eqn:E3; [by apply below_fullhouse_five; intros; apply pairs_five|].
destruct D3 as [Hr D3]. pose proof (without_desc 13 r _ D2) as Dw.
destruct (without r (atLeast c 2)) as [|p l'] eqn:Ew; [|cbn [five]; destruct Dw; lia].
apply below_fullhouse_five. intros _ _. cbn [five]. split; [lia|].
apply take_five; [by apply without_desc|].
pose proof (without_length 13 r _ D2) as L2. rewrite Ew in L2. cbn [length] in L2.
pose proof (without_length 13 r _ D1) as L1.
assert (l = []) as ->.
{ destruct l as [|x l]; [done|]. cbn in D3.
  assert (x ∈ without r (atLeast c 2)) as Hx.
  { unfold without. apply list_elem_of_In, filter_In. split.
    - apply list_elem_of_In, (atLeast_sub 2 3); [lia|]. rewrite E3. apply elem_of_cons. right. apply elem_of_cons. by left.
    - rewrite (proj2 (Z.eqb_neq x r)) by lia. done. }
  rewrite Ew in Hx. by apply not_elem_of_nil in Hx. }
rewrite ncards_sets, E3, E4 in Hn. cbn [length] in Hn. lia.
Qed.

Lemma hand_five : 5 ≤ ncards → five (hand_of c).
Proof.
intros Hn. pose proof (sets_five Hn). unfold hand_of.
destruct (flush_cases c) as [->|[(t & -> & Ht)|(s & _ & -> & _)]]; done.
Qed.
End Cards.

(** ** The evaluator does not depend on the names of the suits *)
Definition suits : list Z := [0; 1; 2; 3].

Lemma better_max a b : code_opt (better a b) = Z.max (code_opt a) (code_opt b).
Proof. unfold better. destruct (Z.ltb_spec (code_opt a) (code_opt b)); lia. Qed.

Lemma flush_max c : (∀ f, 0 ≤ code_opt (suit_hand f)) →
  code_opt (flush c) = foldr Z.max 0 ((λ s, code_opt (suit_hand (c s))) <$> suits).
Proof.
  intros H. unfold flush. rewrite !better_max. cbn [suits fmap list_fmap foldr].
  pose proof (H (c 0)). pose proof (H (c 1)). pose proof (H (c 2)). pose proof (H (c 3)). lia.
Qed.

Lemma suit_hand_nonneg f : 0 ≤ code_opt (suit_hand f).
Proof.
  destruct (suit_hand_cases f) as [->|[(t & -> & Ht)|[-> _]]]; cbn [code_opt code].
  - lia.
  - unfold HANDCLASS_STRAIGHT_FLUSH. lia.
  - pose proof (kidx_take_bound 5 f 1287 ltac:(lia) eq_refl). unfold HANDCLASS_FLUSH. lia.
Qed.

Lemma count_sum c r : count c r = foldr Z.add 0 ((λ s, c_bool (c s r)) <$> suits).
Proof. unfold count. cbn [suits fmap list_fmap foldr]. lia. Qed.

#[export] Instance max_perm : Proper ((≡ₚ) ==> (=)) (foldr Z.max 0).
Proof. apply (foldr_permutation_proper (=)); [apply _|intros; lia]. Qed.
#[export] Instance sum_perm : Proper ((≡ₚ) ==> (=)) (foldr Z.add 0).
Proof. apply (foldr_permutation_proper (=)); [apply _|intros; lia]. Qed.

(** The number of a hand from the number of its flush and the counts per rank. *)
Lemma below_fullhouse_code c c' o o' :
  code_opt (flush c) = code_opt (flush c') → (∀ r, 0 ≤ r < 13 → count c r = count c' r) → o = o' →
  code (below_fullhouse c o) = code (below_fullhouse c' o').
Proof.
  intros Hf Hc ->. unfold below_fullhouse, straight.
  rewrite (straight_top_ext _ (λ r, 1 <=? count c' r)) by (intros; by rewrite Hc).
  destruct (flush_code c) as [[Hz E]|[(t & E & H)|(l & E & H)]],
    (flush_code c') as [[Hz' E']|[(t' & E' & H')|(l' & E' & H')]]; rewrite E, E' in *; try done;
    unfold HANDCLASS_STRAIGHT_FLUSH, HANDCLASS_FULL_HOUSE in *; cbn [code_opt] in *; lia.
Qed.

Lemma hand_code_ext c c' :
  code_opt (flush c) = code_opt (flush c') → (∀ r, 0 ≤ r < 13 → count c r = count c' r) →
  code (hand_of c) = code (hand_of c').
Proof.
  intros Hf Hc.
  assert (∀ k, atLeast c k = atLeast c' k) as HA by (intros k; apply ranks_ext; intros; by rewrite Hc).
  assert (code (sets_hand c) = code (sets_hand c')) as HS.
  { unfold sets_hand, pairs_hand. rewrite !HA.
    repeat (case_match; try done); apply below_fullhouse_code; done. }
  unfold hand_of.
  destruct (flush_code c) as [[Hz E]|[(t & E & H)|(l & E & H)]],
    (flush_code c') as [[Hz' E']|[(t' & E' & H')|(l' & E' & H')]]; rewrite E, E' in *; try done;
    unfold HANDCLASS_STRAIGHT_FLUSH, HANDCLASS_FULL_HOUSE in *; cbn [code_opt] in *; lia.
Qed.

(** ** Claims *)

(** C12: On sets of five or more cards the numbers order hands exactly as the rules do:
    one number is smaller exactly when the other hand beats it, by class and then by
    the deciding cards in turn, and equal exactly for hands that tie. *)
Theorem rank_orders_hands a b :
  valid_cards a → valid_cards b → 5 ≤ ncards (has_card a) → 5 ≤ ncards (has_card b) →
  ∃ va vb, rankCardset a = Ok va ∧ rankCardset b = Ok vb ∧
    (va < vb ↔ beats (hand_of (has_card b)) (hand_of (has_card a))) ∧
    (va = vb ↔ hand_of (has_card a) = hand_of (has_card b)).
Proof.
  intros Va Vb Na Nb. exists (code (hand_of (has_card a))), (code (hand_of (has_card b))).
  split; [by apply rankCardset_ok|]. split; [by apply rankCardset_ok|].
  by apply code_order; apply hand_five.
Qed.

Lemma rank_orders_hands_witness : ∃ va vb,
  rankCardset spade_flush = Ok va ∧ rankCardset aces_full = Ok vb ∧
  (va < vb ↔ beats (hand_of (has_card aces_full)) (hand_of (has_card spade_flush))) ∧
  (va = vb ↔ hand_of (has_card spade_flush) = hand_of (has_card aces_full)).
Proof.
  apply (rank_orders_hands spade_flush aces_full).
  - apply valid_cards_dec. vm_compute. reflexivity.
  - apply valid_cards_dec. vm_compute. reflexivity.
  - vm_compute. discriminate.
  - vm_compute. discriminate.
Defined.

(** Renaming the suits of all cards does not change the rank of a hand. *)
Theorem rank_suit_symmetric a b (σ : Z → Z) :
  valid_cards a → valid_cards b → σ <$> suits ≡ₚ suits →
  (∀ s r, 0 ≤ s < 4 → 0 ≤ r < 13 → has_card b s r = has_card a (σ s) r) →
  rankCardset b = rankCardset a.
Proof.
  intros Va Vb Hσ Hb. rewrite !rankCardset_ok by done. f_equal.
  assert (∀ s, s ∈ suits → 0 ≤ s < 4) as Hs.
  { intros s. unfold suits. rewrite !elem_of_cons, elem_of_nil. lia. }
  apply hand_code_ext.
  - rewrite !flush_max by apply suit_hand_nonneg. rewrite <-Hσ at 2. rewrite <-list_fmap_compose.
    f_equal. apply list_fmap_ext. intros i s Hi. cbn. f_equal. apply suit_hand_ext.
    intros r Hr. apply Hb; [|done]. apply Hs. by eapply list_elem_of_lookup_2.
  - intros r Hr. rewrite !count_sum. rewrite <-Hσ at 2. rewrite <-list_fmap_compose.
    f_equal. apply list_fmap_ext. intros i s Hi. cbn. f_equal. apply Hb; [|done].
    apply Hs. by eapply list_elem_of_lookup_2.
Qed.

(** The flush moved from spades to clubs. *)
Definition club_flush : Cardset :=
  fold_left (λ c '(s, r), addCardToCardset c s r) [(0, 12); (0, 9); (0, 8); (0, 7); (0, 6); (2, 5); (1, 10)] emptyCardset.

Lemma rank_suit_symmetric_witness : rankCardset club_flush = rankCardset spade_flush.
Proof.
  apply (rank_suit_symmetric spade_flush club_flush (λ s, 3 - s));
    try (apply valid_cards_dec; vm_compute; reflexivity).
  - change (Permutation [3; 2; 1; 0] (rev [3; 2; 1; 0])). apply Permutation_rev.
  - intros s r Hs Hr.
    assert (forallb (λ s, forallb (λ r, Bool.eqb (has_card club_flush s r) (has_card spade_flush (3 - s) r)) (seqZ 0 13)) (seqZ 0 4) = true)
      as H by (vm_compute; reflexivity).
    rewrite forallb_seqZ in H. specialize (H s ltac:(lia)). rewrite forallb_seqZ in H.
    apply Bool.eqb_prop, H. lia.
Defined.
