(* ===== verification/Value.v ===== *)
(** * The value of a finished hand ([rankHand], [valueOfState] of [Common/acpc/src/game.c])

    The side-pot loop over the two local arrays, with its in-place compaction, and
    its refinement to a function on lists of contributions.  The arithmetic of
    [double] is an interface with two implementations: IEEE binary64 (the
    executable model) and exact rationals, in which the payoffs are proved to be
    zero-sum. *)

From Stdlib Require Import QArith Qcanon SpecFloat.
From stdpp Require Import base list list_numbers numbers option sets.
From S2P Require Import Prelude GameDef Betting BettingSpec EvalTables Eval.
Open Scope Z_scope.

(** ** Floating-point arithmetic *)
Class Double (D : Type) := {
  of_int : Z → D;
  dadd : D → D → D;
  dsub : D → D → D;
  ddiv : D → D → D
}.

(** IEEE binary64, rounding to nearest even. *)
#[export] Instance binary64 : Double spec_float := {|
  of_int := λ z, binary_normalize 53 1024 z 0 false;
  dadd := SFadd 53 1024;
  dsub := SFsub 53 1024;
  ddiv := SFdiv 53 1024
|}.

(** Exact rationals. *)
#[export] Instance exact : Double Qc := {|
  of_int := λ z, Q2Qc (inject_Z z);
  dadd := Qcplus;
  dsub := Qcminus;
  ddiv := Qcdiv
|}.

Definition rankHand (game : Game) (s : State) (player : Z) : res Z :=
  c ← for_ 0 (numHoleCards game) emptyCardset (λ i c,
    h ← rd2 (holeCards s) player i;
    Ok (addCardToCardset c (suitOfCard h) (rankOfCard h)));
  t ← sumBoardCards game (round s);
  c ← for_ 0 t c (λ i c,
    b ← rd (boardCards s) i;
    Ok (addCardToCardset c (suitOfCard b) (rankOfCard b)));
  rankCardset c.

Section Value.
Context {D : Type} `{FD : Double D}.

(** The players in the showdown: their number, the index of the player of interest,
  and the arrays [rank] and [spent]. *)
Definition showdownPlayers (game : Game) (s : State) (player : Z) (rank0 spent0 : list Z)
  : res (Z * Z * list Z * list Z) :=
for_ 0 (numPlayers game) (0, -1, rank0, spent0) (λ p '(n, playerIdx, rank, sp),
  x ← rd (spent s) p;
  if x =? 0 then Ok (n, playerIdx, rank, sp) else
  f ← rd (playerFolded s) p;
  '(playerIdx, rank) ←
    (if nz f then r ← wr rank n (-1); Ok (playerIdx, r)
     else
       let playerIdx := if p =? player then n else playerIdx in
       v ← rankHand game s p;
       r ← wr rank n v;
       Ok (playerIdx, r));
  sp ← wr sp n x;
  Ok (n + 1, playerIdx, rank, sp)).

(** The smallest contribution, the best rank and the number of players who have it. *)
Definition potScan (n : Z) (rank sp : list Z) : res (Z * Z * Z) :=
for_ 0 n (INT32_MAX, 0, 0) (λ p '(size, winRank, numWinners),
  x ← rd sp p;
  c_assert (0 <? x) ;;
  let size := if x <? size then x else size in
  r ← rd rank p;
  Ok (if winRank <? r then (size, r, 1)
      else if r =? winRank then (size, winRank, numWinners + 1)
      else (size, winRank, numWinners))).

(** The loop body of [potShift]. *)
Definition shift_body (size : Z) (value : D) (p : Z) (st : Z * Z * list Z * list Z)
  : res ((Z * Z * list Z * list Z) + D) :=
let '(newNum, playerIdx, rank, sp) := st in
  x ← rd sp p;
  x ← i32 (x - size);
  sp ← wr sp p x;
  if x =? 0 then
    if p =? playerIdx then Ok (inr value) else Ok (inl (newNum, playerIdx, rank, sp))
  else
    let playerIdx := if p =? playerIdx then newNum else playerIdx in
    '(rank, sp) ←
      (if p =? newNum then Ok (rank, sp)
       else
         x ← rd sp p; sp ← wr sp newNum x;
         r ← rd rank p; rank ← wr rank newNum r;
         Ok (rank, sp));
    Ok (inl (newNum + 1, playerIdx, rank, sp)).

(** The player list for the next pot; [inr] when the player of interest is done. *)
Definition potShift (n size : Z) (value : D) (st : Z * Z * list Z * list Z)
  : res ((Z * Z * list Z * list Z) + D) :=
forR 0 n st (shift_body size value).

(** The [while( 1 )] over the side pots; each iteration drops a player. *)
Fixpoint sidePots (fuel : nat) (n playerIdx : Z) (rank sp : list Z) (value : D) : res D :=
match fuel with
| O => Err OutOfFuel
| S fuel =>
    '(size, winRank, numWinners) ← potScan n rank sp;
    r ← rd rank playerIdx;
    value ←
      (if r =? winRank then
         x ← i32 (size * (n - numWinners));
         Ok (dadd value (ddiv (of_int x) (of_int numWinners)))
       else Ok (dsub value (of_int size)));
    o ← potShift n size value (0, playerIdx, rank, sp);
    match o with
    | inr v => Ok v
    | inl (n, playerIdx, rank, sp) => sidePots fuel n playerIdx rank sp value
    end
end.

(** [rank0] and [spent0] are the uninitialised local arrays. *)
Definition valueOfState (rank0 spent0 : list Z) (game : Game) (s : State) (player : Z) : res D :=
f ← rd (playerFolded s) player;
if nz f then
  x ← rd (spent s) player;
  x ← i32 (- x);
  Ok (of_int x)
else
nf ← numFolded game s;
if nf + 1 =? numPlayers game then
  for_ 0 (numPlayers game) (of_int 0) (λ p value,
    if p =? player then Ok value
    else x ← rd (spent s) p; Ok (dadd value (of_int x)))
else
'(n, playerIdx, rank, sp) ← showdownPlayers game s player rank0 spent0;
c_assert (1 <? n) ;;
sidePots (S (Z.to_nat n)) n playerIdx rank sp (of_int 0).
End Value.

(** ** The reference: payoffs of a list of contributions *)

(** One entry per player in the pot: what he put in and his rank. *)
Abbreviation entry := (Z * Z)%type.

Definition potSize (l : list entry) : Z := foldr (λ e m, Z.min e.1 m) INT32_MAX l.
Definition bestRank (l : list entry) : Z := foldr (λ e m, Z.max e.2 m) 0 l.
Definition winners (l : list entry) : Z := Z.of_nat (length (List.filter (λ e, snd e =? bestRank l) l)).

(** Those who stay in after a pot of [size] each. *)
Fixpoint remain (size : Z) (l : list entry) : list entry :=
  match l with
  | [] => []
  | (x, r) :: l => if x =? size then remain size l else (x - size, r) :: remain size l
  end.

Section Payoff.
Context {D : Type} `{FD : Double D}.

(** What the entry [e] wins or loses in the first pot of [l]. *)
Definition potValue (l : list entry) (e : entry) (value : D) : D :=
if snd e =? bestRank l then
  dadd value (ddiv (of_int (potSize l * (Z.of_nat (length l) - winners l))) (of_int (winners l)))
else dsub value (of_int (potSize l)).

(** The payoff of entry [i], pot after pot. *)
Fixpoint payoff (fuel : nat) (l : list entry) (i : nat) (value : D) : D :=
match fuel with
| O => value
| S fuel =>
    let v := potValue l (l !!! i) value in
    if fst (l !!! i) =? potSize l then v
    else payoff fuel (remain (potSize l) l) (length (remain (potSize l) (take i l))) v
end.
End Payoff.

(** ** The arrays hold the list *)
Definition arr (l : list entry) (rank sp : list Z) : Prop :=
  length rank = 10%nat ∧ length sp = 10%nat ∧ (length l ≤ 10)%nat ∧
  ∀ i, 0 ≤ i < Z.of_nat (length l) → at_ sp i = (at_ l i).1 ∧ at_ rank i = (at_ l i).2.

Lemma take_snoc (l : list entry) p :
  0 ≤ p < Z.of_nat (length l) → take (Z.to_nat (p + 1)) l = take (Z.to_nat p) l ++ [at_ l p].
Proof.
  intros Hp. rewrite Z2Nat.inj_add, Nat.add_1_r by lia. apply take_S_r. unfold at_.
  destruct (lookup_lt_is_Some_2 l (Z.to_nat p)) as [x Hx]; [lia|].
  by rewrite Hx, (list_lookup_total_correct _ _ _ Hx).
Qed.

Lemma potSize_snoc l e : potSize (l ++ [e]) = Z.min (potSize l) e.1.
Proof.
  unfold potSize. induction l as [|x l IH]; cbn [app foldr]; lia.
Qed.

Lemma bestRank_snoc l e : bestRank (l ++ [e]) = Z.max (bestRank l) e.2.
Proof.
  unfold bestRank. induction l as [|x l IH]; cbn [app foldr]; lia.
Qed.

Lemma bestRank_ge l : 0 ≤ bestRank l ∧ ∀ e, e ∈ l → e.2 ≤ bestRank l.
Proof.
  induction l as [|x l [IH0 IH]]; cbn; [split; [done|by intros ? ?%not_elem_of_nil]|].
  unfold bestRank in *. cbn [foldr]. split; [lia|]. intros e [->|He]%elem_of_cons; [lia|].
  specialize (IH e He). lia.
Qed.

Lemma filter_none {A} (f : A → bool) l : (∀ x, x ∈ l → f x = false) → List.filter f l = [].
Proof.
  induction l as [|x l IH]; intros H; [done|]. cbn. rewrite H by set_solver. apply IH. set_solver.
Qed.

Lemma winners_snoc l e :
  winners (l ++ [e]) =
    if bestRank l <? e.2 then 1 else if e.2 =? bestRank l then winners l + 1 else winners l.
Proof.
  unfold winners. rewrite bestRank_snoc, List.filter_app, length_app. cbn [List.filter].
  destruct (Z.ltb_spec (bestRank l) e.2).
  - rewrite Z.max_r by lia. rewrite Z.eqb_refl, filter_none; [done|].
    intros x Hx. apply Z.eqb_neq. pose proof (proj2 (bestRank_ge l) x Hx). lia.
  - rewrite Z.max_l by lia. destruct (Z.eqb_spec e.2 (bestRank l)); cbn [length]; lia.
Qed.

Lemma potScan_ok l rank sp :
  arr l rank sp → (∀ e, e ∈ l → 0 < e.1) →
  potScan (Z.of_nat (length l)) rank sp = Ok (potSize l, bestRank l, winners l).
Proof.
  intros (Lr & Ls & L10 & Ha) Hpos. unfold potScan.
  destruct (for_inv (λ p st, st = let l := take (Z.to_nat p) l in (potSize l, bestRank l, winners l))
    0 (Z.of_nat (length l)) (INT32_MAX, 0, 0) (λ p '(size, winRank, numWinners),
    x ← rd sp p; c_assert (0 <? x) ;;
    let size := if x <? size then x else size in
    r ← rd rank p;
    Ok (if winRank <? r then (size, r, 1)
        else if r =? winRank then (size, winRank, numWinners + 1)
        else (size, winRank, numWinners)))) as (st & E & ->); [lia|done| |].
  - intros p st Hp ->. cbn zeta. destruct (Ha p Hp) as [Es Er]. run.
    assert (at_ l p ∈ l) as Hin by (unfold at_; apply list_elem_of_lookup_total_2; lia).
    specialize (Hpos _ Hin). unfold c_assert. rewrite Es, (proj2 (Z.ltb_lt 0 (at_ l p).1)), bind_ok by lia. run.
    eexists. split; [done|]. rewrite take_snoc, potSize_snoc, bestRank_snoc, winners_snoc by done.
    rewrite Er. set (t := take (Z.to_nat p) l).
    replace (if (at_ l p).1 <? potSize t then (at_ l p).1 else potSize t) with (Z.min (potSize t) (at_ l p).1)
      by (destruct (Z.ltb_spec (at_ l p).1 (potSize t)); lia).
    destruct (Z.ltb_spec (bestRank t) (at_ l p).2); [by rewrite Z.max_r by lia|].
    rewrite Z.max_l by lia. by destruct (Z.eqb_spec (at_ l p).2 (bestRank t)).
  - cbn zeta in E. by rewrite Nat2Z.id, firstn_all in E.
Qed.

Lemma remain_app size l1 l2 : remain size (l1 ++ l2) = remain size l1 ++ remain size l2.
Proof. induction l1 as [|[x r] l1 IH]; cbn; [done|]. destruct (x =? size); [done|]. cbn. by rewrite IH. Qed.

Lemma remain_length size l : (length (remain size l) ≤ length l)%nat.
Proof. induction l as [|[x r] l IH]; cbn; [done|]. destruct (x =? size); cbn; lia. Qed.

Lemma remain_snoc size l e :
  remain size (l ++ [e]) = if e.1 =? size then remain size l else remain size l ++ [(e.1 - size, e.2)].
Proof. rewrite remain_app. destruct e as [x r]. cbn. destruct (x =? size); [apply app_nil_r|done]. Qed.

(** Before entry [p] is handled: the survivors of the first [p] entries are in
    front, the others are untouched, and the player of interest is followed. *)
Record shifting (l : list entry) (size i p : Z) (st : Z * Z * list Z * list Z) : Prop := {
  sh_lens : let '(n, idx, rank, sp) := st in length rank = 10%nat ∧ length sp = 10%nat;
  sh_num : let '(n, idx, rank, sp) := st in
    n = Z.of_nat (length (remain size (take (Z.to_nat p) l)));
  sh_front : let '(n, idx, rank, sp) := st in
    ∀ j, 0 ≤ j < n → at_ sp j = (at_ (remain size (take (Z.to_nat p) l)) j).1 ∧
      at_ rank j = (at_ (remain size (take (Z.to_nat p) l)) j).2;
  sh_back : let '(n, idx, rank, sp) := st in
    ∀ j, p ≤ j < Z.of_nat (length l) → at_ sp j = (at_ l j).1 ∧ at_ rank j = (at_ l j).2;
  sh_idx : let '(n, idx, rank, sp) := st in
    idx = (if p <=? i then i else Z.of_nat (length (remain size (take (Z.to_nat i) l)))) ∧
    (i < p → (at_ l i).1 ≠ size)
}.

Lemma at_snoc_l {A} `{Inhabited A} (l : list A) x j :
  0 ≤ j < Z.of_nat (length l) → at_ (l ++ [x]) j = at_ l j.
Proof. intros. unfold at_. by rewrite lookup_total_app_l by lia. Qed.
Lemma at_snoc_r {A} `{Inhabited A} (l : list A) x j : j = Z.of_nat (length l) → at_ (l ++ [x]) j = x.
Proof. intros ->. unfold at_. by rewrite Nat2Z.id, lookup_total_app_r, Nat.sub_diag by lia. Qed.

(** Entry [p] leaves. *)
Lemma shifting_drop l size i p n idx rank sp v :
  0 ≤ p < Z.of_nat (length l) → (at_ l p).1 = size → p ≠ i → n ≤ p →
  shifting l size i p (n, idx, rank, sp) →
  shifting l size i (p + 1) (n, idx, rank, <[Z.to_nat p := v]> sp).
Proof.
  intros Hp Hs Hpi Hnp [[Lr Ls] Hn Hf Hb [Ei Hi]].
  split; rewrite ?take_snoc, ?remain_snoc, ?Hs, ?Z.eqb_refl by done.
  - by rewrite length_insert.
  - done.
  - intros j Hj. rewrite at_insert_ne by lia. by apply Hf.
  - intros j Hj. rewrite at_insert_ne by lia. apply Hb. lia.
  - split; [|intros; apply Hi; lia]. rewrite Ei.
    destruct (Z.leb_spec p i), (Z.leb_spec (p + 1) i); try done; lia.
Qed.

(** Entry [p] stays: it is now at place [n]. *)
Lemma shifting_keep l size i p n idx rank sp rank' sp' :
  0 ≤ p < Z.of_nat (length l) → (at_ l p).1 ≠ size → n ≤ p →
  shifting l size i p (n, idx, rank, sp) →
  length rank' = 10%nat → length sp' = 10%nat →
  (∀ j, 0 ≤ j → j ≠ n → j ≠ p → at_ sp' j = at_ sp j) →
  (∀ j, 0 ≤ j → j ≠ n → at_ rank' j = at_ rank j) →
  at_ sp' n = (at_ l p).1 - size → at_ rank' n = (at_ l p).2 →
  shifting l size i (p + 1) (n + 1, if p =? i then n else idx, rank', sp').
Proof.
  intros Hp Hs Hnp [_ Hn Hf Hb [Ei Hi]] Lr' Ls' Hs1 Hr1 Hs2 Hr2.
  split; rewrite ?take_snoc, ?remain_snoc, ?(proj2 (Z.eqb_neq _ size)) by (done || lia).
  - done.
  - rewrite length_app. cbn. lia.
  - intros j Hj. destruct (decide (j = n)) as [->|].
    + rewrite !at_snoc_r by done. by rewrite Hs2, Hr2.
    + rewrite !at_snoc_l by lia. rewrite Hs1, Hr1 by lia. apply Hf. lia.
  - intros j Hj. rewrite Hs1, Hr1 by lia. apply Hb. lia.
  - split.
    + destruct (Z.eqb_spec p i) as [->|]; [by rewrite (proj2 (Z.leb_gt (i + 1) i)) by lia|].
      rewrite Ei. destruct (Z.leb_spec p i), (Z.leb_spec (p + 1) i); try done; lia.
    + intros. destruct (decide (i = p)) as [->|]; [done|]. apply Hi. lia.
Qed.

(** The copy to the front. *)
Lemma copy_ok (rank sp : list Z) p n x :
  length rank = 10%nat → length sp = 10%nat → 0 ≤ n ≤ p → p < 10 → at_ sp p = x →
  ∃ rank' sp', (if p =? n then Ok (rank, sp)
     else x ← rd sp p; sp0 ← wr sp n x; r ← rd rank p; rank0 ← wr rank n r; Ok (rank0, sp0))
     = Ok (rank', sp') ∧
    length rank' = 10%nat ∧ length sp' = 10%nat ∧
    (∀ j, 0 ≤ j → j ≠ n → at_ sp' j = at_ sp j) ∧ (∀ j, 0 ≤ j → j ≠ n → at_ rank' j = at_ rank j) ∧
    at_ sp' n = x ∧ at_ rank' n = at_ rank p.
Proof.
  intros Lr Ls Hn Hp Ex. destruct (Z.eqb_spec p n) as [->|En]; [by exists rank, sp|].
  run. rewrite Ex. eexists _, _. split; [done|]. rewrite !length_insert, !at_insert_eq by lia.
  split_and!; try done; intros; by rewrite at_insert_ne by lia.
Qed.

Section Shift.
Context {D : Type} `{FD : Double D}.

Lemma shift_step (l : list entry) size (value : D) i p st :
(length l ≤ 10)%nat → 0 ≤ i < Z.of_nat (length l) → 0 ≤ p < Z.of_nat (length l) →
0 < size → (∀ e, e ∈ l → size ≤ e.1 ≤ INT32_MAX) → shifting l size i p st →
(∃ st', shift_body size value p st = Ok (inl st') ∧ shifting l size i (p + 1) st') ∨
(∃ v, shift_body size value p st = Ok (inr v) ∧ v = value ∧ (at_ l i).1 = size).
Proof.
intros L10 Hi Hp Hsz Hl Sh. destruct st as [[[n idx] rank] sp].
pose proof Sh as [[Lr Ls] Hn Hf Hb [Ei Hi']].
assert (0 ≤ n ≤ p) as Hnp.
{ pose proof (remain_length size (take (Z.to_nat p) l)) as H. rewrite length_take in H. lia. }
assert (Z.of_nat (length (remain size (take (Z.to_nat i) l))) ≤ i) as Hir.
{ pose proof (remain_length size (take (Z.to_nat i) l)) as H. rewrite length_take in H. lia. }
destruct (Hb p ltac:(lia)) as [Ex Er].
assert (at_ l p ∈ l) as Hin by (unfold at_; apply list_elem_of_lookup_total_2; lia).
pose proof (Hl _ Hin) as Hlp. unfold shift_body.
assert ((p =? idx) = (p =? i)) as ->.
{ subst idx. destruct (Z.leb_spec p i); [done|]. rewrite !(proj2 (Z.eqb_neq p _)) by lia. done. }
rewrite (rd_ok sp p), bind_ok, Ex by lia. rewrite i32_ok, bind_ok by (unfold INT32_MIN; lia).
rewrite (wr_ok sp p), bind_ok by lia.
destruct (Z.eqb_spec ((at_ l p).1 - size) 0) as [Hz|Hz].
- destruct (Z.eqb_spec p i) as [->|Hpi]; [right; eexists; split; [done|split; [done|lia]]|].
  left. eexists. split; [done|]. apply shifting_drop; try done; lia.
- left. destruct (copy_ok rank (<[Z.to_nat p:=(at_ l p).1 - size]> sp) p n ((at_ l p).1 - size))
    as (rank' & sp' & -> & Lr' & Ls' & Hs1 & Hr1 & Hs2 & Hr2); try done; try lia.
  { by rewrite length_insert. } { by rewrite at_insert_eq by lia. }
  run. eexists. split; [done|].
  apply (shifting_keep l size i p n idx rank sp); try done; try lia; try congruence.
  intros j Hj1 Hj2 Hj3. rewrite Hs1 by done. by rewrite at_insert_ne by lia.
Qed.

Lemma potShift_ok (l : list entry) size (value : D) i rank sp :
arr l rank sp → 0 ≤ i < Z.of_nat (length l) → 0 < size → (∀ e, e ∈ l → size ≤ e.1 ≤ INT32_MAX) →
if (at_ l i).1 =? size
then potShift (Z.of_nat (length l)) size value (0, i, rank, sp) = Ok (inr value)
else ∃ rank' sp',
  potShift (Z.of_nat (length l)) size value (0, i, rank, sp) =
    Ok (inl (Z.of_nat (length (remain size l)), Z.of_nat (length (remain size (take (Z.to_nat i) l))), rank', sp')) ∧
  arr (remain size l) rank' sp'.
Proof.
intros (Lr & Ls & L10 & Ha) Hi Hsz Hl.
destruct (forR_inv (λ p st, shifting l size i p st) (λ v, v = value ∧ (at_ l i).1 = size)
  0 (Z.of_nat (length l)) (0, i, rank, sp) (shift_body size value))
  as [([[[n idx] rank'] sp'] & E & Sh)|(v & E & -> & Hs)]; [lia| | | |].
- split; cbn; try done; try lia.
  split; [by destruct (Z.leb_spec 0 i); [|lia]|lia].
- intros p st Hp Sh. destruct (shift_step l size value i p st) as [?|(v & ? & ? & ?)]; eauto.
- destruct Sh as [[Lr' Ls'] Hn Hf _ [Ei Hne]]. rewrite Nat2Z.id, firstn_all in *.
  specialize (Hne ltac:(lia)). rewrite (proj2 (Z.eqb_neq _ _)) by done.
  exists rank', sp'. rewrite (proj2 (Z.leb_gt _ _)) in Ei by lia. subst n idx. split; [done|].
  split; [done|]. split; [done|]. split; [pose proof (remain_length size l); lia|done].
- by rewrite Hs, Z.eqb_refl.
Qed.

(** ** The side pots *)

(** Contributions that can be paid out: positive, and the whole pot fits an [int]. *)
Definition payable (B : Z) (l : list entry) : Prop :=
∀ e, e ∈ l → 0 < e.1 ≤ B.

Lemma potSize_le l e : e ∈ l → potSize l ≤ e.1.
Proof.
unfold potSize. induction l as [|x l IH]; [by intros ?%not_elem_of_nil|].
cbn [foldr]. intros [->|He]%elem_of_cons; [lia|]. specialize (IH He). lia.
Qed.

Lemma potSize_pos B l : payable B l → 0 < potSize l.
Proof.
unfold potSize, payable. induction l as [|x l IH]; cbn [foldr]; [unfold INT32_MAX; lia|].
intros H. pose proof (H x (list_elem_of_here x l)).
assert (0 < foldr (λ e m, Z.min e.1 m) INT32_MAX l); [|lia]. apply IH. intros. apply H. set_solver.
Qed.

Lemma potSize_in l : (∀ e, e ∈ l → e.1 ≤ INT32_MAX) → l ≠ [] → ∃ e, e ∈ l ∧ e.1 = potSize l.
Proof.
unfold potSize. induction l as [|x l IH]; [done|]. intros H _. cbn [foldr].
destruct l as [|y l].
- exists x. split; [set_solver|]. specialize (H x ltac:(set_solver)). cbn [foldr]. lia.
- destruct IH as (e & He & Ee); [intros; apply H; set_solver|done|].
  set (m := foldr _ _ (y :: l)) in *. destruct (Z.le_gt_cases x.1 m).
  + exists x. split; [set_solver|lia].
  + exists e. split; [set_solver|lia].
Qed.

Lemma remain_payable B l : payable B l → payable B (remain (potSize l) l).
Proof.
intros H. pose proof (potSize_pos B l H) as Hp.
assert (∀ e, e ∈ l → potSize l ≤ e.1) as Hle by apply potSize_le.
generalize (potSize l) Hp Hle. clear Hp Hle. intros z Hz Hle.
induction l as [|[x r] l IH]; [done|]. cbn.
assert (payable B l) by (intros e He; apply H; set_solver).
specialize (IH ltac:(done) ltac:(intros; apply Hle; set_solver)).
destruct (Z.eqb_spec x z); [done|]. intros e [->|He]%elem_of_cons; [|by apply IH]. cbn.
specialize (H (x, r) ltac:(set_solver)). specialize (Hle (x, r) ltac:(set_solver)). cbn in *. lia.
Qed.

Lemma remain_shorter size l e : e ∈ l → e.1 = size → (length (remain size l) < length l)%nat.
Proof.
induction l as [|[x r] l IH]; [by intros ?%not_elem_of_nil|]. intros [->|He]%elem_of_cons Hs; cbn in *.
- rewrite Hs, Z.eqb_refl. pose proof (remain_length size l). lia.
- specialize (IH He Hs). destruct (x =? size); cbn; lia.
Qed.

Lemma remain_at size l i : 0 ≤ i < Z.of_nat (length l) → (at_ l i).1 ≠ size →
at_ (remain size l) (Z.of_nat (length (remain size (take (Z.to_nat i) l)))) = ((at_ l i).1 - size, (at_ l i).2) ∧
(length (remain size (take (Z.to_nat i) l)) < length (remain size l))%nat.
Proof.
intros Hi Hne.
assert (l = take (Z.to_nat i) l ++ at_ l i :: drop (S (Z.to_nat i)) l) as E.
{ symmetry. apply take_drop_middle. unfold at_.
  destruct (lookup_lt_is_Some_2 l (Z.to_nat i)) as [x Hx]; [lia|].
  by rewrite Hx, (list_lookup_total_correct _ _ _ Hx). }
assert (remain size l = remain size (take (Z.to_nat i) l) ++
  ((at_ l i).1 - size, (at_ l i).2) :: remain size (drop (S (Z.to_nat i)) l)) as ->.
{ rewrite E at 1. rewrite remain_app. destruct (at_ l i) as [x r]. cbn [remain fst snd] in *.
  by rewrite (proj2 (Z.eqb_neq x size)). }
split.
- unfold at_ at 1. by rewrite Nat2Z.id, lookup_total_app_r, Nat.sub_diag by lia.
- rewrite length_app. cbn. lia.
Qed.

Lemma sidePots_ok B fuel (l : list entry) i rank sp (v : D) :
(length l ≤ fuel)%nat → arr l rank sp → 0 ≤ i < Z.of_nat (length l) →
payable B l → B * Z.of_nat (length l) ≤ INT32_MAX →
sidePots fuel (Z.of_nat (length l)) i rank sp v = Ok (payoff fuel l (Z.to_nat i) v).
Proof.
revert l i rank sp v. induction fuel as [|fuel IH]; intros l i rank sp v Hf Ha Hi Hpay HB; [lia|].
pose proof (potSize_pos B l Hpay) as Hpos. pose proof Ha as (Lr & Ls & L10 & Hat).
assert (at_ l i ∈ l) as Hin by (unfold at_; apply list_elem_of_lookup_total_2; lia).
pose proof (Hpay _ Hin) as Hpi. pose proof (potSize_le l _ Hin) as Hple.
assert (∀ e, e ∈ l → potSize l ≤ e.1 ≤ INT32_MAX) as Hl.
{ intros e He. split; [by apply potSize_le|]. specialize (Hpay e He). nia. }
cbn [sidePots]. rewrite potScan_ok by (done || (intros; by apply Hpay)). run.
rewrite (proj2 (Hat i Hi)). cbn [payoff]. change (l !!! Z.to_nat i) with (at_ l i).
assert (0 ≤ winners l ≤ Z.of_nat (length l)) as Hw.
{ unfold winners. pose proof (List.filter_length_le (λ e : entry, e.2 =? bestRank l) l). lia. }
assert ((if (at_ l i).2 =? bestRank l then
    x ← i32 (potSize l * (Z.of_nat (length l) - winners l));
    Ok (dadd v (ddiv (of_int x) (of_int (winners l))))
  else Ok (dsub v (of_int (potSize l)))) = Ok (potValue l (at_ l i) v)) as ->.
{ unfold potValue. destruct (_ =? _); [|done]. rewrite i32_ok; [done|]. unfold INT32_MIN. nia. }
run. pose proof (potShift_ok l (potSize l) (potValue l (at_ l i) v) i rank sp Ha Hi Hpos Hl) as Hsh.
destruct (Z.eqb_spec (at_ l i).1 (potSize l)) as [E|E].
- by rewrite Hsh.
- destruct Hsh as (rank' & sp' & -> & Ha'). run.
  destruct (remain_at (potSize l) l i Hi E) as [_ Hlt].
  destruct (potSize_in l) as (e & He & Ee); [intros; by apply Hl|by intros ->|].
  pose proof (remain_shorter _ l e He Ee).
  rewrite IH; [by rewrite Nat2Z.id|lia|done|lia|by apply remain_payable|nia].
Qed.
End Shift.
