(* ===== verification/ValueThm.v ===== *)
(** * Theorems on the value of a hand

    What [rankHand] computes from the cards on the table, the showdown players,
    and the payoffs: in exact arithmetic they sum to zero over the players and
    nobody loses more than he put in. *)

From Stdlib Require Import QArith Qcanon SpecFloat.
From stdpp Require Import base list list_numbers numbers option sets.
From S2P Require Import Prelude GameDef Betting BettingSpec BettingInv BettingStep BettingKeep BettingInit BettingThm Deal StateEq EvalTables Eval EvalOrder Value.
Open Scope Z_scope.

(** ** The cards of a player *)
Definition addCard (s : Cardset) (c : Z) : Cardset := addCardToCardset s (suitOfCard c) (rankOfCard c).
Definition cardset (l : list Z) : Cardset := fold_left addCard l emptyCardset.

Lemma addCard_bit s c i : is_card c → 0 ≤ i →
  Z.testbit (addCard s c) i = Z.testbit s i || (i =? 16 * suitOfCard c + rankOfCard c).
Proof.
  intros Hc Hi. destruct (card_parts c Hc) as [Hs Hr]. unfold addCard, addCardToCardset.
  rewrite Z.lor_spec. f_equal. rewrite Z.shiftl_1_l, Z.shiftl_mul_pow2 by lia. change (2 ^ 4) with 16.
  unfold u64. rewrite Z.mod_small.
  - rewrite Z.pow2_bits_eqb by lia. destruct (Z.eqb_spec (suitOfCard c * 16 + rankOfCard c) i),
      (Z.eqb_spec i (16 * suitOfCard c + rankOfCard c)); lia || done.
  - split; [apply Z.pow_nonneg; lia|]. change 18446744073709551616 with (2 ^ 64). apply Z.pow_lt_mono_r; lia.
Qed.

Lemma cardset_bit l s0 i : (∀ c, c ∈ l → is_card c) → 0 ≤ i →
  Z.testbit (fold_left addCard l s0) i =
    Z.testbit s0 i || existsb (λ c, i =? 16 * suitOfCard c + rankOfCard c) l.
Proof.
  revert s0. induction l as [|c l IH]; intros s0 Hl Hi; cbn [fold_left existsb]; [by rewrite orb_false_r|].
  rewrite IH by (done || (intros; apply Hl; set_solver)).
  rewrite addCard_bit by (done || (apply Hl; set_solver)). by rewrite orb_assoc.
Qed.

(** A card is in the set exactly when it is in the list. *)
Lemma cardset_has l s r : (∀ c, c ∈ l → is_card c) → 0 ≤ s < 4 → 0 ≤ r < 13 →
  has_card (cardset l) s r = bool_decide (makeCard r s ∈ l).
Proof.
  intros Hl Hs Hr. unfold has_card, cardset. rewrite cardset_bit by (done || lia). cbn [orb emptyCardset].
  rewrite Z.bits_0. cbn. apply eq_iff_eq_true. rewrite existsb_exists, bool_decide_eq_true. split.
  - intros (c & Hc%list_elem_of_In & E%Z.eqb_eq). destruct (card_parts c (Hl c Hc)).
    assert (suitOfCard c = s) as <- by lia. assert (rankOfCard c = r) as <- by lia.
    by rewrite makeCard_rank_suit.
  - intros Hin. exists (makeCard r s). split; [by apply list_elem_of_In|].
    rewrite rank_makeCard, suit_makeCard by lia. lia.
Qed.

Lemma cardset_valid l : (∀ c, c ∈ l → is_card c) → valid_cards (cardset l).
Proof.
  intros Hl s Hs. unfold mask, bySuit. set (z := u16 _).
  assert (0 ≤ z) by (apply Z.mod_pos_bound; lia). split; [done|].
  destruct (decide (z = 0)) as [->|Hz]; [lia|]. change 8192 with (2 ^ 13).
  apply Z.log2_lt_pow2; [lia|]. destruct (Z.lt_ge_cases (Z.log2 z) 13) as [|Hge]; [done|exfalso].
  pose proof (Z.bit_log2 z ltac:(lia)) as Hb.
  assert (Z.log2 z < 16).
  { apply Z.log2_lt_pow2; [lia|]. apply Z.mod_pos_bound. lia. }
  assert (∀ j, 0 ≤ j < 16 → Z.testbit z j = Z.testbit (cardset l) (j + 16 * s)) as Hz'.
  { intros j Hj. unfold z, u16. change 65536 with (2 ^ 16).
    by rewrite Z.mod_pow2_bits_low, Z.shiftr_spec by lia. }
  rewrite Hz' in Hb by lia. unfold cardset in Hb.
  rewrite cardset_bit in Hb by (done || lia). unfold emptyCardset in Hb. rewrite Z.bits_0 in Hb. cbn in Hb.
  apply existsb_exists in Hb as (c & Hc%list_elem_of_In & E%Z.eqb_eq).
  destruct (card_parts c (Hl c Hc)). lia.
Qed.

(** The cards player [p] can use: his hole cards and the visible board. *)
Definition table_cards (g : Game) (s : State) (p : Z) : list Z := handOf g s p ++ visibleBoard g s.

Lemma fold_fmap {A B} (f : B → A → B) (h : Z → A) l b :
  fold_left (λ b i, f b (h i)) l b = fold_left f (h <$> l) b.
Proof. revert b. induction l; intros; cbn; auto. Qed.

Lemma kidx_nonneg l : desc 13 l → 0 ≤ kidx l.
Proof. intros Hl. apply (kidx_bound 13 l); [lia|done]. Qed.

Lemma desc_hd r l : desc 13 (r :: l) → 0 ≤ r.
Proof. intros [? _]. lia. Qed.

(** The number of a hand is never negative, however few cards it has. *)
Lemma hand_nonneg c : 0 ≤ code (hand_of c).
Proof.
  pose proof (atLeast_desc c 1) as D1. pose proof (atLeast_desc c 2) as D2.
  pose proof (atLeast_desc c 3) as D3. pose proof (atLeast_desc c 4) as D4.
  assert (∀ o, 0 ≤ code o → 0 ≤ code (below_fullhouse c o)) as HB.
  { intros o Ho. unfold below_fullhouse. destruct (flush_code c) as [[_ ->]|[(t & -> & H)|(l & -> & H)]].
    - destruct (straight c) as [t|] eqn:E; [|done]. apply find_some in E as [Ht _]. cbn in Ht |- *.
      unfold HANDCLASS_STRAIGHT. lia.
    - cbn [code_opt] in H. unfold HANDCLASS_STRAIGHT_FLUSH in H. lia.
    - cbn [code_opt] in H. lia. }
  assert (0 ≤ code (sets_hand c)) as HS.
  { unfold sets_hand, pairs_hand.
    assert (∀ r k, 0 ≤ kidx (take k (without r (atLeast c 1)))) as K
      by (intros; apply kidx_nonneg, desc_take, without_desc, D1).
    assert (∀ r, 0 ≤ hd 0 (without r (atLeast c 1))) as H1
      by (intros; apply (hd_range 13); [lia|by apply without_desc]).
    assert (∀ r r', 0 ≤ hd 0 (without r (without r' (atLeast c 1)))) as H2
      by (intros; apply (hd_range 13); [lia|by apply without_desc, without_desc]).
    assert (0 ≤ kidx (take 5 (atLeast c 1))) as K5 by (apply kidx_nonneg, desc_take, D1).
    destruct (atLeast c 4) as [|r l]; [|cbn [code]; specialize (H1 r); apply desc_hd in D4;
      unfold HANDCLASS_QUADS; lia].
    destruct (atLeast c 3) as [|r l].
    - apply HB. destruct (atLeast c 2) as [|r1 [|r2 l2]]; norm_lo; [lia| |].
      + specialize (K r1 3%nat). apply desc_hd in D2. lia.
      + specialize (H2 r2 r1). destruct D2 as [? [? _]]. lia.
    - apply desc_hd in D3. pose proof (without_desc 13 r _ D2) as Dw.
      destruct (without r (atLeast c 2)) as [|q lq]; [apply HB|]; norm_lo.
      + specialize (K r 2%nat). lia.
      + apply desc_hd in Dw. lia. }
  unfold hand_of. destruct (flush_cases c) as [->|[(t & -> & Ht)|(s & _ & -> & _)]]; try done.
  cbn [code]. unfold HANDCLASS_STRAIGHT_FLUSH. lia.
Qed.

Lemma rankHand_ok g s p :
  comparable g s → 0 ≤ p < 10 → (∀ c, c ∈ table_cards g s p → is_card c) →
  rankHand g s p = Ok (code (hand_of (has_card (cardset (table_cards g s p))))).
Proof.
  intros C Hp Hc. pose proof (wd_hole _ (cm_deal _ _ C)). pose proof (cm_state _ _ C) as Sh.
  pose proof (ss_hole _ Sh). pose proof (ss_board _ Sh).
  assert (length (at_ (holeCards s) p) = 3%nat) by (apply (ss_hole2 _ Sh); lia).
  destruct (sumBoardCards_ok g (round s) (cm_deal _ _ C) (cm_round _ _ C)) as [Eb Hb].
  unfold rankHand.
  rewrite (for_pure _ _ _ (λ c i, addCard c (at2 (holeCards s) p i))) by (intros; by rewrite rd2_ok by lia).
  rewrite bind_ok, Eb, bind_ok, Z.sub_0_r.
  rewrite (for_pure _ _ _ (λ c i, addCard c (at_ (boardCards s) i))) by (intros; by rewrite rd_ok by lia).
  rewrite bind_ok, Z.sub_0_r.
  rewrite (fold_fmap addCard (at_ (boardCards s))), (fold_fmap addCard (at2 (holeCards s) p)).
  transitivity (rankCardset (cardset (table_cards g s p))).
  - apply (f_equal rankCardset). unfold cardset, table_cards. by rewrite fold_left_app.
  - by apply rankCardset_ok, cardset_valid.
Qed.

(** ** Sums of exact values *)
Open Scope Qc_scope.

Definition qz (z : Z) : Qc := Q2Qc (inject_Z z).

Lemma qz_add a b : qz (a + b)%Z = qz a + qz b.
Proof.
  unfold qz. apply Qc_is_canon. cbn -[inject_Z]. rewrite !Qred_correct, inject_Z_plus. reflexivity.
Qed.
Lemma qz_mul a b : qz (a * b)%Z = qz a * qz b.
Proof.
  unfold qz. apply Qc_is_canon. cbn -[inject_Z]. rewrite !Qred_correct, inject_Z_mult. reflexivity.
Qed.
Lemma qz_opp a : qz (- a)%Z = - qz a.
Proof.
  unfold qz. apply Qc_is_canon. cbn -[inject_Z]. rewrite !Qred_correct, inject_Z_opp. reflexivity.
Qed.
Lemma qz_sub a b : qz (a - b)%Z = qz a - qz b.
Proof. unfold Z.sub, Qcminus. by rewrite qz_add, qz_opp. Qed.
Lemma qz_nonzero a : a ≠ 0%Z → qz a ≠ 0.
Proof.
  intros Ha E. apply Ha. apply (f_equal this) in E. unfold qz in E. cbn [Q2Qc this] in E.
  assert (Qred (inject_Z a) == 0)%Q as H by (rewrite E; reflexivity).
  rewrite Qred_correct in H. unfold Qeq, inject_Z in H. cbn in H. lia.
Qed.

Fixpoint sumQ (f : nat → Qc) (n : nat) : Qc :=
  match n with O => 0 | S n => sumQ f n + f n end.

Lemma sumQ_ext f h n : (∀ i, (i < n)%nat → f i = h i) → sumQ f n = sumQ h n.
Proof. induction n as [|n IH]; intros H; [done|]. cbn. rewrite IH, H by (auto with lia). done. Qed.

Lemma sumQ_add f h n : sumQ (λ i, f i + h i) n = sumQ f n + sumQ h n.
Proof. induction n as [|n IH]; cbn; [done|]. rewrite IH. ring. Qed.

(** How many of the first [n] indices satisfy a test. *)
Fixpoint cnt (p : nat → bool) (n : nat) : nat :=
  match n with O => O | S n => (cnt p n + (if p n then 1 else 0))%nat end.

(** Renumbering the indices that satisfy a test. *)
Lemma sumQ_renumber (p : nat → bool) f n :
  sumQ (λ i, if p i then f (cnt p i) else 0) n = sumQ f (cnt p n).
Proof.
  induction n as [|n IH]; cbn; [done|]. rewrite IH. destruct (p n).
  - rewrite Nat.add_1_r. done.
  - rewrite Nat.add_0_r. ring.
Qed.

Lemma sumQ_two (p : nat → bool) a b n :
  sumQ (λ i, if p i then a else b) n = qz (Z.of_nat (cnt p n)) * a + qz (Z.of_nat n - Z.of_nat (cnt p n)) * b.
Proof.
  induction n as [|n IH]; cbn [sumQ cnt].
  - change (qz (Z.of_nat 0)) with 0. change (qz (Z.of_nat 0 - Z.of_nat 0)) with 0. ring.
  - rewrite IH. rewrite !qz_sub. destruct (p n).
    + replace (Z.of_nat (cnt p n + 1)) with (Z.of_nat (cnt p n) + 1)%Z by lia.
      replace (Z.of_nat (S n)) with (Z.of_nat n + 1)%Z by lia. rewrite !qz_add. change (qz 1) with 1. ring.
    + rewrite Nat.add_0_r. replace (Z.of_nat (S n)) with (Z.of_nat n + 1)%Z by lia.
      rewrite !qz_add. change (qz 1) with 1. ring.
Qed.

(** ** The pots are zero-sum *)
Lemma cnt_ext p q n : (∀ i, (i < n)%nat → p i = q i) → cnt p n = cnt q n.
Proof. induction n as [|n IH]; intros H; [done|]. cbn. rewrite IH, H by (auto with lia). done. Qed.

Lemma cnt_filter (f : entry → bool) l : cnt (λ i, f (l !!! i)) (length l) = length (List.filter f l).
Proof.
  induction l as [|e l IH] using rev_ind; [done|].
  rewrite length_app, List.filter_app, length_app, Nat.add_1_r. cbn [cnt length List.filter].
  rewrite lookup_total_app_r, Nat.sub_diag by lia. cbn.
  rewrite (cnt_ext _ (λ i, f (l !!! i))), IH by (intros; by rewrite lookup_total_app_l).
  by destruct (f e).
Qed.

Lemma cnt_remain size l i : (i ≤ length l)%nat →
  cnt (λ i, negb ((l !!! i).1 =? size)%Z) i = length (remain size (take i l)).
Proof.
  induction i as [|i IH]; intros Hi; [done|]. cbn [cnt]. rewrite IH by lia.
  destruct (lookup_lt_is_Some_2 l i) as [e He]; [lia|].
  rewrite (take_S_r _ _ _ He), remain_snoc, (list_lookup_total_correct _ _ _ He).
  destruct (e.1 =? size)%Z; cbn; [lia|]. rewrite length_app. cbn. lia.
Qed.

(** What an entry wins in the first pot. *)
Definition delta (l : list entry) (e : entry) : Qc :=
  if (e.2 =? bestRank l)%Z then qz (potSize l * (Z.of_nat (length l) - winners l)) / qz (winners l)
  else - qz (potSize l).

Lemma potValue_delta l e v : potValue l e v = v + delta l e.
Proof. unfold potValue, delta. destruct (_ =? _)%Z; [done|]. unfold dsub, exact, Qcminus. done. Qed.

Lemma payoff_add fuel l i v : payoff fuel l i v = v + payoff fuel l i 0.
Proof.
  revert l i v. induction fuel as [|fuel IH]; intros l i v; cbn [payoff]; [ring|].
  rewrite !potValue_delta. destruct (_ =? _)%Z; [ring|]. rewrite (IH _ _ (v + _)), (IH _ _ (0 + _)). ring.
Qed.

Lemma payoff_step fuel l i : (i < length l)%nat →
  payoff (S fuel) l i 0 = delta l (l !!! i) +
    (if negb ((l !!! i).1 =? potSize l)%Z
     then payoff fuel (remain (potSize l) l) (cnt (λ i, negb ((l !!! i).1 =? potSize l)%Z) i) 0 else 0).
Proof.
  intros Hi. cbn [payoff]. rewrite potValue_delta, cnt_remain by lia.
  destruct (_ =? _)%Z; cbn [negb]; [ring|]. rewrite payoff_add. ring.
Qed.

(** Some player who has not folded has put in as much as anybody. *)
Definition top_live (l : list entry) : Prop :=
  ∃ e, e ∈ l ∧ (0 ≤ e.2)%Z ∧ ∀ e', e' ∈ l → (e'.1 ≤ e.1)%Z.

Lemma bestRank_attained l : bestRank l = 0%Z ∨ ∃ e, e ∈ l ∧ e.2 = bestRank l.
Proof.
  induction l as [|x l IH]; [by left|]. unfold bestRank in *. cbn [foldr].
  set (m := foldr _ 0%Z l) in *. destruct (Z.le_gt_cases m x.2).
  - right. exists x. split; [apply list_elem_of_here|lia].
  - destruct IH as [E|(e & He & E)]; [left; lia|]. right. exists e. split; [by apply list_elem_of_further|lia].
Qed.

Lemma top_live_winners l : top_live l → (0 < winners l)%Z.
Proof.
  intros (e & He & Hr & _). unfold winners. destruct (bestRank_ge l) as [H0 Hb].
  assert (∃ e', e' ∈ l ∧ e'.2 = bestRank l) as (e' & He' & E).
  { destruct (bestRank_attained l) as [E|]; [|done]. exists e. split; [done|]. specialize (Hb e He). lia. }
  assert (In e' (List.filter (λ e, e.2 =? bestRank l)%Z l)) as Hin
    by (apply filter_In; split; [by apply list_elem_of_In|lia]).
  destruct (List.filter _ l); [done|cbn; lia].
Qed.

Lemma remain_elem size l e : e ∈ remain size l ↔ ∃ x, (x, e.2) ∈ l ∧ x ≠ size ∧ e.1 = (x - size)%Z.
Proof.
  destruct e as [z q]. induction l as [|[x r] l IH]; cbn [remain fst snd].
  - split; [by intros ?%not_elem_of_nil|]. by intros (? & ?%not_elem_of_nil & _).
  - destruct (Z.eqb_spec x size) as [->|Hx].
    + rewrite IH. cbn. split; intros (y & Hy & Hne & E); exists y; (split; [|done]); [by right|].
      apply elem_of_cons in Hy as [[= -> _]|]; [done|by auto].
    + rewrite elem_of_cons, IH. cbn. split.
      * intros [[= -> ->]|(y & ? & ?)]; [exists x; split; [by left|done]|exists y; split; [by right|done]].
      * intros (y & [[= -> ->]|Hy]%elem_of_cons & Hne & ->); [by left|right; by exists y].
Qed.

Lemma top_live_remain l : top_live l → remain (potSize l) l ≠ [] → top_live (remain (potSize l) l).
Proof.
  intros ([x r] & He & Hr & Hm) Hne. cbn in *.
  destruct (decide (x = potSize l)) as [->|Hx].
  - exfalso. destruct (remain (potSize l) l) as [|e' l'] eqn:E; [done|].
    assert (e' ∈ remain (potSize l) l) as (y & Hy & Hny & _)%remain_elem by (rewrite E; apply list_elem_of_here).
    pose proof (potSize_le l _ Hy). specialize (Hm _ Hy). cbn in *. lia.
  - exists ((x - potSize l)%Z, r). split; [apply remain_elem; by exists x|]. split; [done|].
    intros e' (y & Hy & Hny & E)%remain_elem. specialize (Hm _ Hy). cbn in *. lia.
Qed.

Lemma delta_sum l : (0 < winners l)%Z → sumQ (λ i, delta l (l !!! i)) (length l) = 0.
Proof.
  intros Hw. unfold delta.
  rewrite (sumQ_two (λ i, ((l !!! i).2 =? bestRank l)%Z)), (cnt_filter (λ e, (e.2 =? bestRank l)%Z)).
  fold (winners l). rewrite qz_mul. pose proof (qz_nonzero (winners l) ltac:(lia)). field. done.
Qed.

Lemma pots_zero_sum B fuel l :
  (length l ≤ fuel)%nat → payable B l → (B ≤ INT32_MAX)%Z → l = [] ∨ top_live l →
  sumQ (λ i, payoff fuel l i 0) (length l) = 0.
Proof.
  revert l. induction fuel as [|fuel IH]; intros l Hf Hp HB Ht; [by destruct l; [|cbn in Hf; lia]|].
  destruct Ht as [->|Ht]; [done|].
  rewrite (sumQ_ext _ (λ i, delta l (l !!! i) +
    (if negb ((l !!! i).1 =? potSize l)%Z
     then payoff fuel (remain (potSize l) l) (cnt (λ i, negb ((l !!! i).1 =? potSize l)%Z) i) 0 else 0)))
    by (intros; by apply payoff_step).
  rewrite sumQ_add, delta_sum by (by apply top_live_winners).
  rewrite (sumQ_renumber (λ i, negb ((l !!! i).1 =? potSize l)%Z) (λ j, payoff fuel (remain (potSize l) l) j 0)).
  rewrite cnt_remain, firstn_all by done.
  rewrite IH; [ring| |by apply remain_payable|done|].
  - destruct Ht as (e & He & _).
    destruct (potSize_in l) as (e' & He' & E'); [intros x Hx; specialize (Hp x Hx); lia|by intros ->; apply not_elem_of_nil in He|].
    pose proof (remain_shorter _ l e' He' E'). lia.
  - destruct (remain (potSize l) l) eqn:E; [by left|right]. rewrite <-E. apply top_live_remain; [done|by rewrite E].
Qed.

(** A folded entry loses all it put in. *)
Lemma payoff_folded B fuel l i :
  (length l ≤ fuel)%nat → payable B l → (B ≤ INT32_MAX)%Z → (i < length l)%nat → ((l !!! i).2 < 0)%Z →
  payoff fuel l i 0 = - qz (l !!! i).1.
Proof.
  revert l i. induction fuel as [|fuel IH]; intros l i Hf Hp HB Hi Hr; [lia|].
  rewrite payoff_step by done. unfold delta.
  pose proof (proj1 (bestRank_ge l)). rewrite (proj2 (Z.eqb_neq (l !!! i).2 (bestRank l))) by lia.
  destruct (Z.eqb_spec (l !!! i).1 (potSize l)) as [E|E]; cbn [negb]; [rewrite E; ring|].
  rewrite cnt_remain by lia.
  destruct (remain_at (potSize l) l (Z.of_nat i) ltac:(lia)) as [Ea Hl]; unfold at_ in *; rewrite ?Nat2Z.id in *; [done|].
  destruct (potSize_in l) as (e' & He' & E'); [intros x Hx; specialize (Hp x Hx); lia|by intros ->; cbn in Hi; lia|].
  pose proof (remain_shorter _ l e' He' E').
  rewrite IH; [|lia|by apply remain_payable|done|done|by rewrite Ea].
  rewrite Ea. cbn [fst]. rewrite qz_sub. ring.
Qed.
Close Scope Qc_scope.

(** ** The players in the showdown *)
Definition rank_at (g : Game) (s : State) (p : Z) : Z :=
  if foldedb s p then -1 else match rankHand g s p with Ok v => v | Err _ => 0 end.

Definition in_pot (s : State) (p : Z) : bool := negb (at_ (spent s) p =? 0).

Definition entries (g : Game) (s : State) (k : Z) : list entry :=
  (λ p, (at_ (spent s) p, rank_at g s p)) <$> List.filter (in_pot s) (seqZ 0 k).

Lemma entries_S g s k : 0 ≤ k →
  entries g s (k + 1) = entries g s k ++ (if in_pot s k then [(at_ (spent s) k, rank_at g s k)] else []).
Proof.
  intros Hk. unfold entries. rewrite seqZ_snoc, Z.add_0_l, List.filter_app, fmap_app by done. cbn.
  by destruct (in_pot s k).
Qed.

Lemma entries_length g s k : 0 ≤ k → length (entries g s k) = cnt (λ i, in_pot s (Z.of_nat i)) (Z.to_nat k).
Proof.
  revert k. apply Z_bound_ind; [done|]. intros k Hk IH.
  rewrite entries_S, length_app, IH by done. rewrite Z2Nat.inj_add, Nat.add_1_r by lia. cbn [cnt].
  rewrite Z2Nat.id by lia. by destruct (in_pot s k).
Qed.

Lemma entries_le g s k : 0 ≤ k → Z.of_nat (length (entries g s k)) ≤ k.
Proof.
  revert k. apply Z_bound_ind; [done|]. intros k Hk IH. rewrite entries_S, length_app by done.
  destruct (in_pot s k); cbn; lia.
Qed.

Lemma entries_elem g s k e : e ∈ entries g s k ↔
  ∃ p, 0 ≤ p < k ∧ at_ (spent s) p ≠ 0 ∧ e = (at_ (spent s) p, rank_at g s p).
Proof.
  unfold entries. rewrite list_elem_of_fmap. setoid_rewrite list_elem_of_In. setoid_rewrite filter_In.
  setoid_rewrite <-list_elem_of_In. setoid_rewrite elem_of_seqZ. unfold in_pot.
  split; intros (p & H).
  - destruct H as (-> & Hp & Hi). exists p. destruct (Z.eqb_spec (at_ (spent s) p) 0); [done|]. split; [lia|done].
  - destruct H as (Hp & Hi & ->). exists p. split; [done|]. split; [lia|].
    destruct (Z.eqb_spec (at_ (spent s) p) 0); done.
Qed.

(** The entry of player [p] stands at the number of entries before him. *)
Lemma entries_at g s k p : 0 ≤ p < k → in_pot s p = true →
  (length (entries g s p) < length (entries g s k))%nat ∧
  entries g s k !!! length (entries g s p) = (at_ (spent s) p, rank_at g s p).
Proof.
  intros Hp Hi. assert (Hk : 0 ≤ k) by lia. revert k Hk Hp.
  apply (Z_bound_ind (λ k, 0 ≤ p < k → _)); [lia|]. intros k Hk IH Hp. rewrite entries_S, length_app by done.
  destruct (decide (p = k)) as [->|].
  - rewrite Hi. cbn. split; [lia|]. by rewrite lookup_total_app_r, Nat.sub_diag by lia.
  - destruct (IH ltac:(lia)) as [Hl E]. split; [lia|]. by rewrite lookup_total_app_l by lia.
Qed.

Lemma arr_snoc l rank sp x r :
  arr l rank sp → (length l < 10)%nat →
  arr (l ++ [(x, r)]) (<[length l := r]> rank) (<[length l := x]> sp).
Proof.
  intros (Lr & Ls & L10 & Ha) Hl. unfold arr. rewrite !length_insert, length_app. cbn [length].
  split; [done|]. split; [done|]. split; [lia|]. intros i Hi.
  rewrite <-(Nat2Z.id (length l)). destruct (decide (i = Z.of_nat (length l))) as [->|].
  - rewrite !at_insert_eq by lia. by rewrite at_snoc_r.
  - rewrite !at_insert_ne by lia. rewrite at_snoc_l by lia. apply Ha. lia.
Qed.

Section Showdown.
Context (g : Game) (s : State) (rank0 spent0 : list Z).
Context (Np : 0 ≤ numPlayers g ≤ 10) (Sh : state_shape s).
Context (L0 : length rank0 = 10%nat) (L1 : length spent0 = 10%nat).
Context (Rk : ∀ p, 0 ≤ p < numPlayers g → foldedb s p = false → at_ (spent s) p ≠ 0 →
∃ v, rankHand g s p = Ok v ∧ 0 ≤ v).

Lemma showdownPlayers_ok player :
0 ≤ player < numPlayers g → foldedb s player = false → at_ (spent s) player ≠ 0 →
∃ rank sp, showdownPlayers g s player rank0 spent0 =
    Ok (Z.of_nat (length (entries g s (numPlayers g))), Z.of_nat (length (entries g s player)), rank, sp) ∧
  arr (entries g s (numPlayers g)) rank sp.
Proof.
intros Hpl Hfl Hsp. pose proof (ss_spent _ Sh). pose proof (ss_folded _ Sh). unfold showdownPlayers.
match goal with |- context [for_ 0 _ _ ?b] => set (body := b) end.
destruct (for_inv (λ p '(n, idx, rank, sp), n = Z.of_nat (length (entries g s p)) ∧
    idx = (if p <=? player then -1 else Z.of_nat (length (entries g s player))) ∧
    arr (entries g s p) rank sp) 0 (numPlayers g) (0, -1, rank0, spent0) body)
  as ([[[n idx] rank] sp] & E & -> & -> & Ha); [lia| | |].
- split; [done|]. split; [by destruct (Z.leb_spec 0 player); [|lia]|].
  change (entries g s 0) with (@nil entry).
  split; [done|]. split; [done|]. split; [cbn [length]; lia|]. intros i Hi. cbn [length] in Hi. lia.
- intros p [[[n idx] rank] sp] Hp (-> & -> & Ha). unfold body. run. rewrite entries_S by lia.
  pose proof (entries_le g s p ltac:(lia)) as Hle. unfold in_pot.
  destruct (Z.eqb_spec (at_ (spent s) p) 0) as [E0|E0]; cbn [negb].
  + eexists. split; [done|]. rewrite app_nil_r. split; [done|]. split; [|done].
    destruct (Z.leb_spec p player), (Z.leb_spec (p + 1) player); try done; try lia.
    assert (p = player) as -> by lia. done.
  + pose proof Ha as (Lr & Ls & L10 & _). rewrite length_app. cbn [length].
    pose proof (arr_snoc _ _ _ (at_ (spent s) p) (rank_at g s p) Ha ltac:(lia)) as Ha'.
    change (nz (at_ (playerFolded s) p)) with (foldedb s p).
    destruct (foldedb s p) eqn:Ef.
    * rewrite (wr_ok rank) by lia. run. rewrite Nat2Z.id.
      eexists. split; [done|]. split; [lia|]. split.
      -- destruct (Z.leb_spec p player), (Z.leb_spec (p + 1) player); try done; try lia.
         assert (p = player) as -> by lia. congruence.
      -- unfold rank_at in Ha'. rewrite Ef in Ha'. unfold rank_at. by rewrite Ef.
    * destruct (Rk p Hp Ef E0) as (v & Ev & _). rewrite Ev. run. rewrite Nat2Z.id.
      eexists. split; [done|]. split; [lia|]. split.
      -- destruct (Z.eqb_spec p player) as [->|].
         ++ by rewrite (proj2 (Z.leb_gt (player + 1) player)) by lia.
         ++ destruct (Z.leb_spec p player), (Z.leb_spec (p + 1) player); done || lia.
      -- unfold rank_at in Ha'. rewrite Ef, Ev in Ha'. unfold rank_at. by rewrite Ef, Ev.
- exists rank, sp. unfold body in E. rewrite (proj2 (Z.leb_gt _ _)) in E by lia. by split.
Qed.
End Showdown.

(** ** What a hand is worth to each player *)

(** A hand that can be settled. *)
Record settled (g : Game) (s : State) (B : Z) : Prop := {
  st_shape : in_shape g s;
  st_spent : ∀ p, 0 ≤ p < numPlayers g → 0 ≤ at_ (spent s) p ≤ B;
  st_bound : B * numPlayers g ≤ INT32_MAX;
  st_some : ∃ q, 0 ≤ q < numPlayers g ∧ foldedb s q = false;
  (** in a showdown, somebody still in has put in as much as anybody *)
  st_top : nFolded g s + 1 < numPlayers g → ∃ q, 0 ≤ q < numPlayers g ∧ foldedb s q = false ∧
    ∀ p, 0 ≤ p < numPlayers g → at_ (spent s) p ≤ at_ (spent s) q;
  st_live : nFolded g s + 1 < numPlayers g → ∀ p, 0 ≤ p < numPlayers g → foldedb s p = false →
    0 < at_ (spent s) p ∧ ∃ v, rankHand g s p = Ok v ∧ 0 ≤ v
}.

Section Settle.
Context (g : Game) (s : State) (B : Z) (St : settled g s B).

Definition sp_ (i : nat) : Qc := qz (at_ (spent s) (Z.of_nat i)).

(** What the other players put in. *)
Definition others (p : Z) (k : Z) : Qc :=
sumQ (λ i, if Z.of_nat i =? p then 0%Qc else sp_ i) (Z.to_nat k).

Definition pay (p : Z) : Qc :=
if foldedb s p then Qcopp (qz (at_ (spent s) p))
else if nFolded g s + 1 =? (numPlayers g) then others p (numPlayers g)
else payoff (S (length (entries g s (numPlayers g)))) (entries g s (numPlayers g)) (length (entries g s p)) 0%Qc.

Lemma spent_payable : payable B (entries g s (numPlayers g)).
Proof.
intros e (p & Hp & Hne & ->)%entries_elem. cbn. pose proof (st_spent _ _ _ St p Hp). lia.
Qed.

Lemma B_fits : B ≤ INT32_MAX ∧ B * Z.of_nat (length (entries g s (numPlayers g))) ≤ INT32_MAX.
Proof.
pose proof (is_players _ _ (st_shape _ _ _ St)) as Hn. pose proof (st_bound _ _ _ St).
pose proof (entries_le g s (numPlayers g) ltac:(lia)).
pose proof (st_spent _ _ _ St 0 ltac:(lia)). nia.
Qed.

Lemma others_ok p :
for_ 0 (numPlayers g) (of_int 0) (λ q value, if q =? p then Ok value else x ← rd (spent s) q; Ok (dadd value (of_int x)))
= Ok (others p (numPlayers g)).
Proof.
pose proof (is_players _ _ (st_shape _ _ _ St)) as Hn.
pose proof (ss_spent _ (is_state _ _ (st_shape _ _ _ St))).
match goal with |- for_ 0 (numPlayers g) ?z ?b = _ => destruct (for_inv (λ k v, v = others p k) 0 (numPlayers g) z b) as (v & E & ->) end;
  [lia|done| |exact E].
intros k v Hk ->. unfold others. rewrite Z2Nat.inj_add, Nat.add_1_r by lia. cbn [sumQ].
rewrite Z2Nat.id by lia. destruct (Z.eqb_spec k p).
- eexists. split; [done|]. ring.
- run. eexists. split; [done|]. unfold sp_. by rewrite Z2Nat.id by lia.
Qed.

Lemma two_in_pot : nFolded g s + 1 < (numPlayers g) → 1 < Z.of_nat (length (entries g s (numPlayers g))).
Proof.
intros Hf. pose proof (is_players _ _ (st_shape _ _ _ St)) as Hn.
assert (∃ p q, 0 ≤ p < q ∧ q < numPlayers g ∧ foldedb s p = false ∧ foldedb s q = false)
  as (p & q & Hpq & Hq & Fp & Fq).
{ destruct (st_some _ _ _ St) as (q & Hq & Fq).
  destruct (countZ_two (foldedb s) (numPlayers g) q Hq Fq Hf) as (p & Hp & Hne & Fp).
  destruct (Z.lt_ge_cases p q); [exists p, q|exists q, p]; split_and!; try done; lia. }
destruct (st_live _ _ _ St Hf p ltac:(lia) Fp) as [Sp _].
destruct (st_live _ _ _ St Hf q ltac:(lia) Fq) as [Sq _].
assert (in_pot s p = true ∧ in_pot s q = true) as [Ip Iq] by (unfold in_pot; lia).
destruct (entries_at g s q p ltac:(lia) Ip) as [H1 _]. destruct (entries_at g s (numPlayers g) q ltac:(lia) Iq) as [H2 _]. lia.
Qed.

Lemma valueOfState_ok rank0 spent0 p :
length rank0 = 10%nat → length spent0 = 10%nat → 0 ≤ p < (numPlayers g) →
valueOfState rank0 spent0 g s p = Ok (pay p).
Proof.
intros L0 L1 Hp. pose proof (st_shape _ _ _ St) as Sh. pose proof (is_players _ _ Sh) as Hn.
pose proof (is_state _ _ Sh) as SS. pose proof (ss_spent _ SS). pose proof (ss_folded _ SS).
unfold valueOfState, pay. run. change (nz (at_ (playerFolded s) p)) with (foldedb s p).
pose proof (st_spent _ _ _ St p Hp). pose proof B_fits as [HB HB'].
destruct (foldedb s p) eqn:Fp.
- run. rewrite i32_ok by (unfold INT32_MIN, INT32_MAX in *; lia). rewrite bind_ok. f_equal. apply qz_opp.
- rewrite numFolded_ok by done. rewrite bind_ok.
  destruct (Z.eqb_spec (nFolded g s + 1) (numPlayers g)) as [E|E]; [apply others_ok|].
  assert (nFolded g s + 1 < (numPlayers g)) as Hf.
  { pose proof (countZ_lt (foldedb s) (numPlayers g) p Hp Fp). unfold nFolded in *. lia. }
  destruct (st_live _ _ _ St Hf p Hp Fp) as [Sp _].
  destruct (showdownPlayers_ok g s rank0 spent0 ltac:(lia) SS L0 L1) with (player := p)
    as (rank & sp & -> & Ha); [|done|done|lia|].
  { intros q Hq Fq _. apply (st_live _ _ _ St Hf q Hq Fq). }
  run. pose proof (two_in_pot Hf). unfold c_assert. rewrite (proj2 (Z.ltb_lt 1 _)) by done.
  rewrite bind_ok, Nat2Z.id.
  destruct (entries_at g s (numPlayers g) p Hp) as [Hlt _]; [unfold in_pot; lia|].
  rewrite (sidePots_ok B); [by rewrite Nat2Z.id|lia|done|lia|apply spent_payable|done].
Qed.

(** In the pot, every payoff is that of the player's entry. *)
Lemma pay_entry p : nFolded g s + 1 < numPlayers g → 0 ≤ p < numPlayers g →
pay p = if in_pot s p
        then payoff (S (length (entries g s (numPlayers g)))) (entries g s (numPlayers g))
               (length (entries g s p)) 0%Qc
        else 0%Qc.
Proof.
intros Hf Hp. unfold pay. pose proof B_fits as [HB _].
destruct (foldedb s p) eqn:Fp; [|rewrite (proj2 (Z.eqb_neq _ _)) by lia].
- destruct (in_pot s p) eqn:Ip.
  + destruct (entries_at g s (numPlayers g) p Hp Ip) as [Hl Ea].
    rewrite (payoff_folded B), Ea; try done; [lia|apply spent_payable|].
    rewrite Ea. unfold rank_at. rewrite Fp. cbn. lia.
  + unfold in_pot in Ip. assert (at_ (spent s) p = 0) as -> by lia. done.
- destruct (st_live _ _ _ St Hf p Hp Fp) as [Sp _]. unfold in_pot.
  by rewrite (proj2 (Z.eqb_neq _ 0)) by lia.
Qed.

Lemma entries_top : nFolded g s + 1 < numPlayers g → top_live (entries g s (numPlayers g)).
Proof.
intros Hf. destruct (st_top _ _ _ St Hf) as (q & Hq & Fq & Hm).
destruct (st_live _ _ _ St Hf q Hq Fq) as [Sq (v & Ev & Hv)].
exists (at_ (spent s) q, rank_at g s q). split; [apply entries_elem; exists q; split; [done|]; split; [lia|done]|].
split; [unfold rank_at; rewrite Fq, Ev; done|].
intros e' (p & Hp & _ & ->)%entries_elem. by apply Hm.
Qed.

(** The last player standing. *)
Lemma sole_survivor q p : nFolded g s + 1 = numPlayers g → 0 ≤ q < numPlayers g → foldedb s q = false →
0 ≤ p < numPlayers g → foldedb s p = negb (p =? q).
Proof.
intros Hf Hq Fq Hp. destruct (Z.eqb_spec p q) as [->|Hne]; [done|]. cbn.
pose proof (countZ_update (λ i, foldedb s i || (i =? q)) (foldedb s) (numPlayers g) q Hq) as Hu.
cbn beta in Hu. rewrite Fq, Z.eqb_refl in Hu. cbn in Hu.
assert (countZ (λ i, foldedb s i || (i =? q)) (numPlayers g) = numPlayers g) as Ha.
{ unfold nFolded in Hf. enough (∀ i, 0 ≤ i < numPlayers g → i ≠ q → foldedb s i || (i =? q) = foldedb s i) as H
    by (specialize (Hu H); lia).
  intros i _ Hi. rewrite (proj2 (Z.eqb_neq i q)) by done. apply orb_false_r. }
pose proof (countZ_all (λ i, foldedb s i || (i =? q)) (numPlayers g) ltac:(lia) Ha p Hp) as Hpq. cbn in Hpq.
rewrite (proj2 (Z.eqb_neq p q)) in Hpq by done. by rewrite orb_false_r in Hpq.
Qed.

Lemma sumQ_single (a : Qc) q k : (q < k)%nat → sumQ (λ i, if Z.of_nat i =? Z.of_nat q then a else 0%Qc) k = a.
Proof.
induction k as [|k IH]; [lia|]. intros Hq. cbn [sumQ]. destruct (decide (q = k)) as [->|].
- rewrite Z.eqb_refl. rewrite (sumQ_ext _ (λ _, 0%Qc)).
  + assert (∀ k, sumQ (λ _, 0%Qc) k = 0%Qc) as -> by (intros m; induction m as [|m E]; cbn; [done|rewrite E; ring]). ring.
  + intros i Hi. by rewrite (proj2 (Z.eqb_neq _ _)) by lia.
- rewrite IH by lia. rewrite (proj2 (Z.eqb_neq (Z.of_nat k) _)) by lia. ring.
Qed.

Lemma sumQ_opp f k : sumQ (λ i, Qcopp (f i)) k = Qcopp (sumQ f k).
Proof. induction k as [|k IH]; cbn; [ring|]. rewrite IH. ring. Qed.

Lemma pay_zero_sum : sumQ (λ i, pay (Z.of_nat i)) (Z.to_nat (numPlayers g)) = 0%Qc.
Proof.
pose proof (is_players _ _ (st_shape _ _ _ St)) as Hn. destruct (st_some _ _ _ St) as (q & Hq & Fq).
destruct (Z.eq_dec (nFolded g s + 1) (numPlayers g)) as [E|E].
- rewrite (sumQ_ext _ (λ i, (if Z.of_nat i =? Z.of_nat (Z.to_nat q) then others q (numPlayers g) else 0) +
    Qcopp (if Z.of_nat i =? q then 0 else sp_ i))%Qc).
  + rewrite sumQ_add, sumQ_single, sumQ_opp by lia. fold (others q (numPlayers g)). ring.
  + intros i Hi. unfold pay. rewrite (sole_survivor q) by (done || lia). rewrite Z2Nat.id by lia.
    destruct (Z.eqb_spec (Z.of_nat i) q) as [->|]; cbn [negb].
    * rewrite E, Z.eqb_refl. ring.
    * unfold sp_. ring.
- assert (nFolded g s + 1 < numPlayers g) as Hf.
  { pose proof (countZ_lt (foldedb s) (numPlayers g) q Hq Fq). unfold nFolded in *. lia. }
  rewrite (sumQ_ext _ (λ i, if in_pot s (Z.of_nat i) then payoff (S (length (entries g s (numPlayers g))))
    (entries g s (numPlayers g)) (cnt (λ i, in_pot s (Z.of_nat i)) i) 0 else 0)%Qc).
  + rewrite (sumQ_renumber (λ i, in_pot s (Z.of_nat i))
      (λ j, payoff (S (length (entries g s (numPlayers g)))) (entries g s (numPlayers g)) j 0%Qc)).
    rewrite <-(entries_length g s) by lia. pose proof B_fits as [HB _].
    apply (pots_zero_sum B); [lia|apply spent_payable|done|right; by apply entries_top].
  + intros i Hi. rewrite pay_entry by (done || lia).
    rewrite (entries_length g s (Z.of_nat i)) by lia. by rewrite Nat2Z.id.
Qed.
End Settle.
