(* ===== verification/HandValue.v ===== *)
(** * A hand from the blinds to the payoff

    The betting theorems and the payoff theorems together: a hand played by
    accepted actions to its end and valued by [valueOfState]. *)

From Stdlib Require Import QArith Qcanon SpecFloat.
From stdpp Require Import base list list_numbers numbers option sets.
From S2P Require Import Prelude GameDef Betting BettingSpec BettingInv BettingStep BettingKeep BettingInit BettingThm Deal StateEq EvalTables Eval EvalOrder Value ValueThm.
Open Scope Z_scope.

(** ** Finished hands *)
Lemma ended_finished g s m :
  finished s = 0 → finished (fst (ended g s m)) = 1 →
  numPlayers g ≤ nFolded g s + 1 ∨ roundDone g s m = true.
Proof.
  unfold ended. intros Hs. destruct (Z.leb_spec (numPlayers g) (nFolded g s + 1)); [by left|].
  destruct (roundDone g s m); [by right|]. cbn. lia.
Qed.

Lemma nFolded_ended g s m : nFolded g (fst (ended g s m)) = nFolded g s.
Proof. unfold ended. by repeat case_match. Qed.

Lemma nFolded_applied g s p a :
  wf_game g → in_shape g s → 0 ≤ p < numPlayers g → nFolded g (applied g s a p) ≤ nFolded g s + 1.
Proof.
  intros Wf Sh Hp. unfold nFolded.
  pose proof (countZ_update (foldedb (applied g s a p)) (foldedb s) (numPlayers g) p Hp) as Hu.
  enough (∀ i, 0 ≤ i < numPlayers g → i ≠ p → foldedb (applied g s a p) i = foldedb s i) as H.
  { specialize (Hu H). unfold c_bool in Hu. repeat case_match; lia. }
  intros i Hi Hne. unfold foldedb. rewrite (folded_applied g s Wf Sh p Hp a) by lia.
  by rewrite decide_False by congruence.
Qed.

(** At the end of a hand somebody is left, and if several are, they have matched
    the bet or are all-in. *)
Lemma finished_matched g h s k s' :
  wf_game g → starts g h s → steps g k s s' → finished s' = 1 →
  nFolded g s' < numPlayers g ∧
  (nFolded g s' + 1 < numPlayers g → ∀ q, 0 ≤ q < numPlayers g → foldedb s' q = false →
    at_ (spent s') q = Z.min (maxSpent s') (at_ (stack g) q)).
Proof.
  intros Wf Hs St Hf. inversion St as [s0 E1 E2|k0 s0 s1 s2 St' Hst E1 E2 E3]; subst.
  { destruct (starts_inv _ _ _ Wf Hs) as [_ F]. rewrite (fh_finished _ _ _ _ F) in Hf. lia. }
  pose proof (steps_inv _ _ _ _ _ Wf Hs St') as I. pose proof (step_open _ _ _ Hst) as Open.
  destruct (step_inv _ _ _ Wf I Hst) as (p & a & m & f & Hcur & Va & M & ->).
  destruct (current_exists _ _ Wf I Open) as (p' & _ & Hcur' & Hp & _).
  assert (p' = p) as -> by congruence.
  rewrite nFolded_ended. destruct (inv_open _ _ I Open) as [Hlt _].
  pose proof (nFolded_applied g s1 p a Wf (inv_shape _ _ I) Hp). split; [lia|].
  intros Hn q Hq Fq. destruct (ended_fields g (applied g s1 a p) m) as (E1 & E2 & E3 & _).
  rewrite E1, E2. unfold foldedb in Fq. rewrite E3 in Fq.
  destruct (ended_finished g _ m (mi_finished _ _ _ _ M) Hf) as [|Hd]; [lia|].
  by apply (matched_when_done g _ m f).
Qed.

Lemma live_exists g s : nFolded g s < numPlayers g → ∃ q, 0 ≤ q < numPlayers g ∧ foldedb s q = false.
Proof.
  unfold nFolded. intros H. destruct (existsZ (numPlayers g) (λ q, negb (foldedb s q))) eqn:E.
  - apply existsZ_spec in E as (q & Hq & Fq). exists q. split; [done|]. by destruct (foldedb s q).
  - exfalso. assert (numPlayers g ≤ countZ (foldedb s) (numPlayers g)); [|lia].
    destruct (Z.le_gt_cases 0 (numPlayers g)); [|pose proof (countZ_nonneg (foldedb s) (numPlayers g)); lia].
    rewrite <-(countZ_true (numPlayers g)) at 1 by done. apply countZ_mono. intros i Hi _.
    destruct (foldedb s i) eqn:Fi; [done|exfalso].
    assert (existsZ (numPlayers g) (λ q, negb (foldedb s q)) = true); [|congruence].
    apply existsZ_spec. exists i. by rewrite Fi.
Qed.

(** A hand played to its end, and its stakes. *)
Record played_out (g : Game) (s' : State) (hc : list (list Z)) (bc : list Z) : Prop := {
  po_game : wf_game g;
  po_deal : wf_deal g;
  po_hand : ∃ h s k, starts g h s ∧ steps g k s s';
  po_done : finished s' = 1;
  po_shape : state_shape (with_cards hc bc s');
  po_cards : ∀ p c, 0 ≤ p < numPlayers g → c ∈ table_cards g (with_cards hc bc s') p → is_card c;
  po_stack : ∀ p, 0 ≤ p < numPlayers g → 0 < at_ (stack g) p;
  po_stake : 0 < maxSpent s' ∧ maxSpent s' * numPlayers g ≤ INT32_MAX
}.

Lemma played_out_settled g s' hc bc :
  played_out g s' hc bc →
  (numPlayers g = 2 ∨ ∃ q, 0 ≤ q < numPlayers g ∧ foldedb s' q = false ∧ at_ (spent s') q = maxSpent s') →
  settled g (with_cards hc bc s') (maxSpent s').
Proof.
  intros [Wf Wd (h & s & k & Hs & St) Hf Sh Hc Hst [Hpos Hfit]] Htop.
  pose proof (steps_inv g h s k s' Wf Hs St) as I. pose proof (inv_shape _ _ I) as Sh'.
  destruct (finished_matched g h s k s' Wf Hs St Hf) as [Hlt Hm].
  pose proof (inv_chips _ _ I) as CK. pose proof (wg_players _ Wf) as Hn.
  assert (nFolded g (with_cards hc bc s') = nFolded g s') as En by done.
  split.
  - destruct Sh'. by split.
  - intros p Hp. cbn. pose proof (ck_spent _ _ CK p Hp). lia.
  - done.
  - by apply live_exists.
  - intros Hf2. rewrite En in Hf2. cbn.
    assert (∃ q, 0 ≤ q < numPlayers g ∧ foldedb s' q = false ∧ at_ (spent s') q = maxSpent s') as (q & Hq & Fq & Eq).
    { destruct Htop as [H2|]; [|done]. destruct (ck_max _ _ CK) as (q & Hq & Eq). exists q. split; [done|].
      split; [|done]. destruct (foldedb s' q) eqn:Fq; [|done].
      unfold nFolded in Hf2. pose proof (countZ_pos_intro (foldedb s') (numPlayers g) q Hq Fq). lia. }
    exists q. split; [done|]. split; [done|]. intros p Hp. rewrite Eq. apply (ck_spent _ _ CK p Hp).
  - intros Hf2 p Hp Fp. cbn. split.
    + rewrite (Hm Hf2 p Hp Fp). specialize (Hst p Hp). lia.
    + eexists. split; [|apply hand_nonneg].
      apply rankHand_ok; [|lia|intros c; by apply Hc].
      split; [done|done|apply Sh'|]. intros r Hr. apply (inv_na _ _ I).
      pose proof (is_round _ _ Sh'). cbn in Hr |- *. lia.
Qed.

(** ** Nobody loses more than he put in *)
Open Scope Qc_scope.

Lemma qz_le a b : (a ≤ b)%Z → qz a <= qz b.
Proof.
  intros H. unfold qz, Qcle. cbn [Q2Qc this]. rewrite !Qred_correct. by rewrite <-Zle_Qle.
Qed.

Lemma qz_div_nonneg a b : (0 ≤ a)%Z → (0 < b)%Z → 0 <= qz a / qz b.
Proof.
  intros Ha Hb. apply Qcmult_lt_0_le_reg_r with (qz b).
  - apply Qcnot_le_lt. intros H. apply (qz_nonzero b); [lia|]. apply Qcle_antisym; [done|].
    change (Q2Qc 0) with (qz 0). apply qz_le. lia.
  - assert (qz a / qz b * qz b = qz a) as -> by (field; apply qz_nonzero; lia).
    rewrite Qcmult_0_l. change (Q2Qc 0) with (qz 0). by apply qz_le.
Qed.

Lemma winners_le l : (winners l ≤ Z.of_nat (length l))%Z.
Proof. unfold winners. pose proof (List.filter_length_le (λ e : entry, (e.2 =? bestRank l)%Z) l). lia. Qed.

Lemma payoff_lower B fuel l i :
  (length l ≤ fuel)%nat → payable B l → (B ≤ INT32_MAX)%Z → (i < length l)%nat →
  - qz (l !!! i).1 <= payoff fuel l i 0.
Proof.
  revert l i. induction fuel as [|fuel IH]; intros l i Hf Hp HB Hi; [lia|].
  pose proof (potSize_pos B l Hp) as Hpos.
  assert (- qz (potSize l) <= delta l (l !!! i)) as Hd.
  { unfold delta. destruct (Z.eqb_spec (l !!! i).2 (bestRank l)) as [E|]; [|apply Qcle_refl].
    apply Qcle_trans with 0.
    - rewrite <-qz_opp. change (Q2Qc 0) with (qz 0). apply qz_le. lia.
    - pose proof (winners_le l). apply qz_div_nonneg; [nia|].
      unfold winners. assert (In (l !!! i) (List.filter (λ e : entry, (e.2 =? bestRank l)%Z) l)) as Hin.
      { apply filter_In. split; [apply list_elem_of_In, list_elem_of_lookup_total_2; lia|lia]. }
      destruct (List.filter _ l); [done|cbn; lia]. }
  rewrite payoff_step by done. destruct (Z.eqb_spec (l !!! i).1 (potSize l)) as [E|E]; cbn [negb].
  - rewrite E, Qcplus_0_r. done.
  - rewrite cnt_remain by lia.
    destruct (remain_at (potSize l) l (Z.of_nat i) ltac:(lia)) as [Ea Hl]; unfold at_ in *; rewrite ?Nat2Z.id in *; [done|].
    destruct (potSize_in l) as (e' & He' & E'); [intros x Hx; specialize (Hp x Hx); lia|by intros ->; cbn in Hi; lia|].
    pose proof (remain_shorter _ l e' He' E').
    pose proof (IH (remain (potSize l) l) (length (remain (potSize l) (take i l))) ltac:(lia)
      (remain_payable B l Hp) HB Hl) as Hr. rewrite Ea in Hr. cbn [fst] in Hr. rewrite qz_sub in Hr.
    assert (- qz (l !!! i).1 = - qz (potSize l) + - (qz (l !!! i).1 - qz (potSize l))) as -> by ring.
    by apply Qcplus_le_compat.
Qed.

Lemma sumQ_nonneg f k : (∀ i, (i < k)%nat → 0 <= f i) → 0 <= sumQ f k.
Proof.
  induction k as [|k IH]; intros H; [apply Qcle_refl|]. cbn.
  rewrite <-(Qcplus_0_l 0). apply Qcplus_le_compat; [apply IH; auto with lia|apply H; lia].
Qed.

Lemma pay_lower g s B p : settled g s B → (0 ≤ p < numPlayers g)%Z → - qz (at_ (spent s) p) <= pay g s p.
Proof.
  intros St Hp. unfold pay. pose proof (st_spent _ _ _ St p Hp) as Hs. destruct (B_fits g s B St) as [HB _].
  destruct (foldedb s p) eqn:Fp; [apply Qcle_refl|].
  destruct (Z.eqb_spec (nFolded g s + 1) (numPlayers g)) as [E|E].
  - apply Qcle_trans with 0; [rewrite <-qz_opp; change (Q2Qc 0) with (qz 0); apply qz_le; lia|].
    unfold others. apply sumQ_nonneg. intros i Hi. destruct (_ =? _)%Z; [apply Qcle_refl|].
    unfold sp_. change (Q2Qc 0) with (qz 0). apply qz_le. apply (st_spent _ _ _ St). lia.
  - assert (nFolded g s + 1 < numPlayers g)%Z as Hf.
    { pose proof (countZ_lt (foldedb s) (numPlayers g) p Hp Fp). unfold nFolded in *. lia. }
    destruct (st_live _ _ _ St Hf p Hp Fp) as [Sp _].
    destruct (entries_at g s (numPlayers g) p Hp) as [Hl Ea]; [unfold in_pot; lia|].
    pose proof (payoff_lower B (S (length (entries g s (numPlayers g)))) (entries g s (numPlayers g)) _
      ltac:(lia) (spent_payable g s B St) HB Hl) as H. by rewrite Ea in H.
Qed.
Close Scope Qc_scope.

(** ** Claims *)

(** C10: The payoffs of a hand sum to zero.  When a hand has been played by accepted
    actions to its end, [valueOfState] in exact arithmetic returns a value for every
    player, the values add up to zero, and nobody loses more than he put into the pot.
    The game is playable, stacks are positive, something was bet and the largest stake
    times the number of players fits an [int].  It holds for every heads-up hand, and with
    more players whenever somebody who has not folded has put in the full bet
    ([folded_side_pot_vanishes] is a hand where nobody has). *)
Theorem hand_zero_sum g s' hc bc rank0 spent0 :
  played_out g s' hc bc → length rank0 = 10%nat → length spent0 = 10%nat →
  (numPlayers g = 2 ∨ ∃ q, 0 ≤ q < numPlayers g ∧ foldedb s' q = false ∧ at_ (spent s') q = maxSpent s') →
  ∃ v : nat → Qc,
    (∀ p, 0 ≤ p < numPlayers g →
       valueOfState rank0 spent0 g (with_cards hc bc s') p = Ok (v (Z.to_nat p)) ∧
       Qcle (Qcopp (qz (at_ (spent s') p))) (v (Z.to_nat p))) ∧
    sumQ v (Z.to_nat (numPlayers g)) = 0%Qc.
Proof.
  intros Po L0 L1 Htop. pose proof (played_out_settled g s' hc bc Po Htop) as St.
  exists (λ i, pay g (with_cards hc bc s') (Z.of_nat i)). split.
  - intros p Hp. rewrite Z2Nat.id by lia. split.
    + by apply (valueOfState_ok g _ (maxSpent s') St).
    + apply (pay_lower g (with_cards hc bc s') (maxSpent s') p St Hp).
  - by apply (pay_zero_sum g _ (maxSpent s')).
Qed.

(** Seat 0 folds before the flop, seats 1 and 2 check to the river. *)
Definition checked_down : list Action := [r_ 300; f_; c_; c_; c_; c_; c_; c_; c_].
Definition some_holes : list (list Z) :=
  [[3; 9; 0]; [48; 49; 0]; [40; 45; 0]; [0; 0; 0]; [0; 0; 0]; [0; 0; 0]; [0; 0; 0]; [0; 0; 0]; [0; 0; 0]; [0; 0; 0]].
Definition some_board : list Z := [50; 41; 10; 22; 31; 0; 0].

(** Decides the cards of a concrete table. *)
Definition cardsb (g : Game) (t : State) : bool :=
  forallZ (numPlayers g) (λ p, forallb (λ c, (0 <=? c) && (c <? 52)) (table_cards g t p)).

Lemma cardsb_spec g t : cardsb g t = true →
  ∀ p c, 0 ≤ p < numPlayers g → c ∈ table_cards g t p → is_card c.
Proof.
  unfold cardsb. rewrite forallZ_spec. intros H p c Hp Hc. specialize (H p Hp).
  rewrite forallb_forall in H. apply list_elem_of_In in Hc. specialize (H c Hc). unfold is_card. lia.
Qed.

Lemma with_cards_shape hc bc s :
  state_shape s → length hc = 10%nat → Forall (λ row, length row = 3%nat) hc → length bc = 7%nat →
  state_shape (with_cards hc bc s).
Proof.
  intros [] Lh Hr Lb. split; try done. cbn. intros p Hp. rewrite Forall_lookup in Hr.
  destruct (lookup_lt_is_Some_2 hc p) as [x Hx]; [lia|]. rewrite (list_lookup_total_correct _ _ _ Hx). by eapply Hr.
Qed.

Lemma played_out_example : played_out nolimit3p (played nolimit3p checked_down) some_holes some_board.
Proof.
  assert (steps nolimit3p 9 (started nolimit3p) (played nolimit3p checked_down)) as St.
  { apply (played_steps checked_down). vm_compute. reflexivity. }
  split.
  - apply nolimit3p_wf.
  - apply nolimit3p_deal.
  - exists 7, (started nolimit3p), 9%nat. split; [apply started_nolimit3p|exact St].
  - vm_compute. reflexivity.
  - apply with_cards_shape; [|done|by repeat constructor|done].
    apply (is_state nolimit3p), inv_shape, (steps_inv nolimit3p 7 _ _ _ nolimit3p_wf started_nolimit3p St).
  - apply cardsb_spec. vm_compute. reflexivity.
  - intros p Hp. assert (p = 0 ∨ p = 1 ∨ p = 2) as [->|[->| ->]] by (cbn in Hp; lia); vm_compute; reflexivity.
  - vm_compute. split; [reflexivity|discriminate].
Qed.

Lemma hand_zero_sum_witness : ∃ v : nat → Qc,
  (∀ p, 0 ≤ p < 3 →
     valueOfState (replicate 10 0) (replicate 10 0) nolimit3p
       (with_cards some_holes some_board (played nolimit3p checked_down)) p = Ok (v (Z.to_nat p)) ∧
     Qcle (Qcopp (qz (at_ (spent (played nolimit3p checked_down)) p))) (v (Z.to_nat p))) ∧
  sumQ v 3 = 0%Qc.
Proof.
  apply (hand_zero_sum nolimit3p (played nolimit3p checked_down) some_holes some_board
    (replicate 10 0) (replicate 10 0) played_out_example eq_refl eq_refl).
  right. exists 1. split; [cbn; lia|]. split; vm_compute; reflexivity.
Defined.

(** ** Where it fails *)

(** Four players, two of them with short stacks. *)
Definition short_stacks : Game :=
  mkGame [1000; 1000; 200; 100; 0; 0; 0; 0; 0; 0] [10; 20; 0; 0; 0; 0; 0; 0; 0; 0] [0; 0; 0; 0]
    noLimitBetting 4 4 [2; 0; 0; 0] [255; 255; 255; 255] 4 13 2 [0; 3; 1; 1].

(** Two players are all-in; the others build a side pot of 200 each beyond the larger
    all-in and both fold it after the flop. *)
Definition folded_side_pot : list Action := [r_ 200; c_; r_ 400; c_; f_; f_].

(** The values of a hand as rationals in lowest terms. *)
Definition values (g : Game) (t : State) : list (option Q) :=
  (λ p, match valueOfState (replicate 10 0) (replicate 10 0) g t p with
        | Ok v => Some (this v)
        | Err _ => None
        end) <$> seqZ 0 (numPlayers g).

(** The side condition of the zero-sum property is needed.  [isValidAction] lets a
    player fold when he has nothing to call; when both players of a side pot do so the
    chips in it are paid to nobody: the four values of this hand sum to -400. *)
Theorem folded_side_pot_vanishes :
  match play short_stacks folded_side_pot (started short_stacks) with
  | Ok s => finished s = 1 ∧ values short_stacks (with_cards some_holes some_board s)
              = [Some (-400 # 1); Some (-400 # 1); Some (500 # 1); Some (-100 # 1)]%Q
  | Err _ => False
  end.
Proof. vm_compute. split; reflexivity. Qed.

(** Four deep stacks. *)
Definition deep_stacks : Game :=
  mkGame (replicate 10 1000000000) [50; 100; 0; 0; 0; 0; 0; 0; 0; 0] [0; 0; 0; 0]
    noLimitBetting 4 4 [2; 0; 0; 0] [255; 255; 255; 255] 4 13 2 [0; 3; 1; 1].

(** The pot is multiplied out in an [int] before it is converted to [double].  With
    four stacks of 1,000,000,000, a game on which the whole betting is free of overflow,
    four players going all-in make [size * ( numPlayers - numWinners )] overflow for the
    winner. *)
Fact deep_pot_overflows :
  wf_gameb deep_stacks = true ∧
  match play deep_stacks [r_ 1000000000; c_; c_; c_] (started deep_stacks) with
  | Ok s => finished s = 1 ∧
      valueOfState (D := Qc) (replicate 10 0) (replicate 10 0) deep_stacks
        (with_cards some_holes some_board s) 1 = Err SignedOverflow
  | Err _ => False
  end.
Proof. split; [vm_compute; reflexivity|]. vm_compute. split; reflexivity. Qed.

(** A game without blinds. *)
Definition no_blinds : Game :=
  mkGame (replicate 10 1000) (replicate 10 0) [0; 0; 0; 0]
    noLimitBetting 2 1 [0; 0; 0; 0] [255; 255; 255; 255] 4 13 2 [0; 0; 0; 0].

(** A hand checked down without blinds ends with an empty pot, and valuing it fails
    the assertion [numPlayers > 1]. *)
Fact empty_pot_asserts :
  wf_gameb no_blinds = true ∧
  match play no_blinds [c_; c_] (started no_blinds) with
  | Ok s => finished s = 1 ∧
      valueOfState (D := Qc) (replicate 10 0) (replicate 10 0) no_blinds
        (with_cards some_holes some_board s) 0 = Err AssertFailed
  | Err _ => False
  end.
Proof. split; [vm_compute; reflexivity|]. vm_compute. split; reflexivity. Qed.

(** In binary64, a pot of 100 split three ways. *)
Example split_three_ways :
  payoff (D := spec_float) 1 [(100, 5); (100, 5); (100, -1); (100, 5)] 0 (of_int 0)
  = S754_finite false 4691249611844267 (-47).
Proof. vm_compute. reflexivity. Qed.
