(* ===== verification/Text.v ===== *)
(** * C strings ([snprintf], [sscanf] and the character tables of [Common/acpc/src/game.c])

    A [const char *] being read is the list of bytes from the pointer to the end
    of the array it points into; reading past it is a fault.  A [char *] being
    written is an offset into a buffer.  The conversions of [printf] and [scanf]
    the engine uses are modelled with the C library's behaviour; a number that
    does not fit the object it is read into is undefined behaviour, a fault. *)

From stdpp Require Import base list list_numbers numbers option sets.
From S2P Require Import Prelude GameDef.
Open Scope Z_scope.

Definition rdp (s : list Z) (c : Z) : res Z := rd s c.
(** [&string[ c ]]. *)
Definition from (s : list Z) (c : Z) : list Z := drop (Z.to_nat c) s.

(** ** Characters *)
Definition isspace (ch : Z) : bool := (ch =? 32) || ((9 <=? ch) && (ch <=? 13)).
Definition isdigit (ch : Z) : bool := (48 <=? ch) && (ch <=? 57).
Definition toupper (ch : Z) : Z := if (97 <=? ch) && (ch <=? 122) then ch - 32 else ch.
Definition tolower (ch : Z) : Z := if (65 <=? ch) && (ch <=? 90) then ch + 32 else ch.

Definition actingPlayerChars : list Z := [48; 49; 50; 51; 52; 53; 54; 55; 56; 57; 0].
Definition actionChars : list Z := [102; 99; 114; 0].
Definition suitChars : list Z := [99; 100; 104; 115; 0].
Definition rankChars : list Z := [50; 51; 52; 53; 54; 55; 56; 57; 84; 74; 81; 75; 65; 0].

(** [strchr]: the place of the first [ch]; the terminator is found too. *)
Fixpoint strchr (s : list Z) (ch : Z) : res (option Z) :=
  match s with
  | [] => Err OutOfBounds
  | x :: s =>
      if x =? ch then Ok (Some 0)
      else if x =? 0 then Ok None
      else o ← strchr s ch; Ok (match o with Some i => Some (i + 1) | None => None end)
  end.

(** ** Decimal numbers *)
Fixpoint dec_fuel (fuel : nat) (n : Z) : list Z :=
  match fuel with
  | O => []
  | S fuel => if n <? 10 then [48 + n] else dec_fuel fuel (n / 10) ++ [48 + n mod 10]
  end.
Definition dec (n : Z) : list Z := dec_fuel 20 n.
(** [%d]. *)
Definition dec_signed (z : Z) : list Z := if z <? 0 then 45 :: dec (- z) else dec z.

(** The number of spaces in front. *)
Fixpoint spaces (s : list Z) : res Z :=
  match s with
  | [] => Err OutOfBounds
  | ch :: s => if isspace ch then n ← spaces s; Ok (n + 1) else Ok 0
  end.

(** The digits in front: their value, after [acc], and how many. *)
Fixpoint scan_digits (s : list Z) (acc n : Z) : res (Z * Z) :=
  match s with
  | [] => Err OutOfBounds
  | ch :: s => if isdigit ch then scan_digits s (10 * acc + (ch - 48)) (n + 1) else Ok (acc, n)
  end.

(** A number as [strtol] reads it: sign, magnitude and characters consumed. *)
Definition scan_number (s : list Z) : res (option (bool * Z * Z)) :=
  sp ← spaces s;
  let s := from s sp in
  ch ← rdp s 0;
  let sign := (ch =? 43) || (ch =? 45) in
  let s := if sign then from s 1 else s in
  '(v, n) ← scan_digits s 0 0;
  Ok (if n =? 0 then None else Some (ch =? 45, v, sp + (if sign then 1 else 0) + n)).

(** [%d] into an [int32_t]. *)
Definition scan_i32 (s : list Z) : res (option (Z * Z)) :=
  o ← scan_number s;
  match o with
  | None => Ok None
  | Some (neg, v, n) => v ← i32 (if neg : bool then - v else v); Ok (Some (v, n))
  end.

(** [%u] into an unsigned object of the given maximum. *)
Definition scan_unsigned (umax : Z) (s : list Z) : res (option (Z * Z)) :=
  o ← scan_number s;
  match o with
  | None => Ok None
  | Some (neg, v, n) =>
      if v <=? umax then Ok (Some (if neg : bool then (- v) mod (umax + 1) else v, n))
      else Err SignedOverflow
  end.

(** Literal characters of a format: whether they match, up to the first mismatch. *)
Fixpoint literal (lit s : list Z) : res bool :=
  match lit with
  | [] => Ok true
  | x :: lit => ch ← rdp s 0; if ch =? x then literal lit (from s 1) else Ok false
  end.

(** ** Writing *)

(** [snprintf( &buf[ o ], n, ... )] of a text: at most [n - 1] bytes and a terminator;
    [n] is a [size_t].  The result is the length of the whole text. *)
Fixpoint put_bytes (buf : list Z) (o : Z) (t : list Z) : res (list Z) :=
  match t with
  | [] => Ok buf
  | ch :: t => buf ← wr buf o ch; put_bytes buf (o + 1) t
  end.
Definition snprintf (buf : list Z) (o n : Z) (t : list Z) : res (Z * list Z) :=
  let n := u64 n in
  if n =? 0 then Ok (Z.of_nat (length t), buf)
  else
    buf ← put_bytes buf o (take (Z.to_nat (Z.min (n - 1) (Z.of_nat (length t)))) t ++ [0]);
    Ok (Z.of_nat (length t), buf).

(** ** Reading back what was printed *)
Definition digits (t : list Z) : Prop := Forall (λ ch, isdigit ch = true) t.
Definition dval (acc : Z) (t : list Z) : Z := fold_left (λ a ch, 10 * a + (ch - 48)) t acc.

Lemma dec_fuel_spec fuel n :
  0 ≤ n < 10 ^ Z.of_nat fuel → (0 < fuel)%nat →
  digits (dec_fuel fuel n) ∧ dval 0 (dec_fuel fuel n) = n ∧ dec_fuel fuel n ≠ [] ∧
  (length (dec_fuel fuel n) ≤ fuel)%nat.
Proof.
  revert n. induction fuel as [|fuel IH]; intros n Hn Hf; [lia|]. cbn [dec_fuel].
  destruct (Z.ltb_spec n 10).
  - split; [|split; [cbn; lia|split; [done|cbn; lia]]]. constructor; [|done]. unfold isdigit. lia.
  - assert (0 < fuel)%nat. { destruct fuel; [cbn in Hn; lia|lia]. }
    destruct (IH (n / 10)) as (D & V & NE & L); [|done|].
    + split; [apply Z.div_pos; lia|]. apply Z.div_lt_upper_bound; [lia|].
      rewrite Nat2Z.inj_succ, Z.pow_succ_r in Hn by lia. lia.
    + pose proof (Z.mod_pos_bound n 10 ltac:(lia)).
      split; [|split; [|split]].
      * apply Forall_app. split; [done|]. constructor; [|done]. unfold isdigit. lia.
      * unfold dval in *. rewrite fold_left_app, V. cbn. pose proof (Z.div_mod n 10 ltac:(lia)). lia.
      * by destruct (dec_fuel fuel (n / 10)).
      * rewrite length_app. cbn. lia.
Qed.

Lemma dec_spec n : 0 ≤ n < 10 ^ 20 →
  digits (dec n) ∧ dval 0 (dec n) = n ∧ dec n ≠ [] ∧ (length (dec n) ≤ 20)%nat.
Proof. intros. apply dec_fuel_spec; [done|lia]. Qed.

Lemma dec_fuel_length fuel k n :
  0 ≤ n < 10 ^ Z.of_nat k → (0 < k)%nat → (length (dec_fuel fuel n) ≤ k)%nat.
Proof.
  revert k n. induction fuel as [|fuel IH]; intros k n Hn Hk; [cbn; lia|]. cbn [dec_fuel].
  destruct (Z.ltb_spec n 10); [cbn; lia|]. rewrite length_app. cbn [length].
  destruct k as [|[|k]]; [lia|cbn in Hn; lia|].
  specialize (IH (S k) (n / 10)). rewrite (Nat2Z.inj_succ (S k)), Z.pow_succ_r in Hn by lia.
  assert (0 ≤ n / 10 < 10 ^ Z.of_nat (S k)); [|specialize (IH ltac:(done) ltac:(lia)); lia].
  split; [apply Z.div_pos; lia|]. apply Z.div_lt_upper_bound; lia.
Qed.

(** A [uint32_t] has at most ten digits. *)
Lemma dec_u32_length n : 0 ≤ n < 4294967296 → (length (dec n) ≤ 10)%nat.
Proof. intros. apply dec_fuel_length; [cbn; lia|lia]. Qed.

Lemma scan_digits_app t rest acc k ch :
  digits t → isdigit ch = false →
  scan_digits (t ++ ch :: rest) acc k = Ok (dval acc t, k + Z.of_nat (length t)).
Proof.
  intros Ht Hch. revert acc k. induction Ht as [|x t Hx _ IH]; intros acc k; cbn.
  - rewrite Hch. by rewrite Z.add_0_r.
  - rewrite Hx, IH. f_equal. f_equal. lia.
Qed.

Lemma from_0 s : from s 0 = s.
Proof. done. Qed.
Lemma rdp_hd x s : rdp (x :: s) 0 = Ok x.
Proof. done. Qed.
Lemma from_app (t s : list Z) n : n = Z.of_nat (length t) → from (t ++ s) n = s.
Proof. intros ->. unfold from. by rewrite Nat2Z.id, drop_app_length. Qed.

(** A printed number followed by another character reads back. *)
Lemma scan_number_dec n ch rest :
  0 ≤ n < 10 ^ 20 → isdigit ch = false →
  scan_number (dec n ++ ch :: rest) = Ok (Some (false, n, Z.of_nat (length (dec n)))).
Proof.
  intros Hn Hch. destruct (dec_spec n Hn) as (D & V & NE & _). unfold scan_number.
  pose proof (scan_digits_app (dec n) rest 0 0 ch D Hch) as E. rewrite V in E.
  destruct (dec n) as [|x t] eqn:Ed; [done|]. inversion D as [|? ? Hx Ht]; subst.
  assert (isspace x = false ∧ (x =? 43) = false ∧ (x =? 45) = false) as (H1 & H2 & H3)
    by (unfold isdigit, isspace in *; lia).
  cbn [app] in *. cbn [spaces]. rewrite H1, bind_ok, from_0, rdp_hd, bind_ok. cbv zeta.
  rewrite H2, H3. cbn [orb]. rewrite E, bind_ok. rewrite (proj2 (Z.eqb_neq _ 0)) by (cbn [length]; lia).
  done.
Qed.

Lemma scan_i32_dec n ch rest :
  0 ≤ n ≤ INT32_MAX → isdigit ch = false →
  scan_i32 (dec n ++ ch :: rest) = Ok (Some (n, Z.of_nat (length (dec n)))).
Proof.
  intros Hn Hch. unfold scan_i32. rewrite scan_number_dec by (unfold INT32_MAX in *; done || lia).
  cbn [mbind res_bind]. rewrite i32_ok by (unfold INT32_MIN; lia). done.
Qed.

Lemma scan_unsigned_dec umax n ch rest :
  0 ≤ n ≤ umax → umax < 10 ^ 20 → isdigit ch = false →
  scan_unsigned umax (dec n ++ ch :: rest) = Ok (Some (n, Z.of_nat (length (dec n)))).
Proof.
  intros Hn Hu Hch. unfold scan_unsigned. rewrite scan_number_dec by (done || lia).
  cbn [mbind res_bind]. by rewrite (proj2 (Z.leb_le n umax)) by lia.
Qed.

(** ** What a buffer holds after printing *)

(** The text [t] was written at [o]; what stands before [o] is as it was. *)
Record writes (buf : list Z) (o : Z) (t buf' : list Z) : Prop := {
  ws_len : length buf' = length buf;
  ws_pos : 0 ≤ o;
  ws_fit : o + Z.of_nat (length t) ≤ Z.of_nat (length buf);
  ws_text : take (Z.to_nat o + length t) buf' = take (Z.to_nat o) buf ++ t
}.

Lemma writes_nil buf o : 0 ≤ o ≤ Z.of_nat (length buf) → writes buf o [] buf.
Proof. intros. split; [done|lia|cbn; lia|]. cbn. by rewrite Nat.add_0_r, app_nil_r. Qed.

Lemma writes_app buf o t1 buf1 o' t2 buf2 :
  writes buf o t1 buf1 → o' = o + Z.of_nat (length t1) → writes buf1 o' t2 buf2 →
  writes buf o (t1 ++ t2) buf2.
Proof.
  intros [L1 P1 F1 T1] -> [L2 P2 F2 T2]. split; [congruence|done|rewrite length_app; lia|].
  rewrite length_app. rewrite Z2Nat.inj_add, Nat2Z.id in T2 by lia.
  rewrite Nat.add_assoc, T2, T1. by rewrite app_assoc.
Qed.

Lemma writes_wr buf o ch : 0 ≤ o < Z.of_nat (length buf) →
  wr buf o ch = Ok (<[Z.to_nat o := ch]> buf) ∧ writes buf o [ch] (<[Z.to_nat o := ch]> buf).
Proof.
  intros Ho. split; [by apply wr_ok|]. split; [by rewrite length_insert|lia|cbn; lia|]. cbn.
  rewrite Nat.add_1_r, (take_S_r _ _ ch) by (apply list_lookup_insert_eq; lia).
  by rewrite take_insert_ge by lia.
Qed.

Lemma writes_prefix buf o t t' buf' : writes buf o (t ++ t') buf' → writes buf o t buf'.
Proof.
  intros [L P F T]. rewrite length_app in *. split; [done|done|lia|].
  apply (f_equal (take (Z.to_nat o + length t))) in T. rewrite take_take in T.
  rewrite Nat.min_l in T by lia. rewrite T, app_assoc, take_app_le.
  - apply take_ge. rewrite length_app, length_take. lia.
  - rewrite length_app, length_take. lia.
Qed.

Lemma writes_text buf o t buf' : writes buf o t buf' →
  ∃ rest, from buf' o = t ++ rest ∧ take (Z.to_nat o) buf' = take (Z.to_nat o) buf.
Proof.
  intros [L P F T].
  assert (∃ rest, buf' = (take (Z.to_nat o) buf ++ t) ++ rest) as [rest ->].
  { exists (drop (Z.to_nat o + length t) buf'). rewrite <-T. symmetry. apply take_drop. }
  assert (length (take (Z.to_nat o) buf) = Z.to_nat o) as Lo by (rewrite length_take; lia).
  exists rest. unfold from. rewrite <-app_assoc. split.
  - by rewrite drop_app_length' by done.
  - by rewrite take_app_length' by done.
Qed.

Lemma put_bytes_ok buf o t : 0 ≤ o → o + Z.of_nat (length t) ≤ Z.of_nat (length buf) →
  ∃ buf', put_bytes buf o t = Ok buf' ∧ writes buf o t buf'.
Proof.
  revert buf o. induction t as [|ch t IH]; intros buf o Ho Hl; cbn [put_bytes].
  - exists buf. split; [done|]. apply writes_nil. cbn in Hl. lia.
  - cbn in Hl. destruct (writes_wr buf o ch) as [-> W]; [lia|]. rewrite bind_ok.
    destruct (IH (<[Z.to_nat o:=ch]> buf) (o + 1)) as (buf' & -> & W'); [lia|rewrite length_insert; lia|].
    exists buf'. split; [done|]. by apply (writes_app _ _ [ch] _ (o + 1)) with (1 := W).
Qed.

(** What [snprintf] does with the room it is given. *)
Lemma snprintf_ok buf o n t : 0 ≤ o → 0 ≤ n < 18446744073709551616 → o + n ≤ Z.of_nat (length buf) →
  ∃ buf', snprintf buf o n t = Ok (Z.of_nat (length t), buf') ∧
    (Z.of_nat (length t) < n → writes buf o (t ++ [0]) buf') ∧ length buf' = length buf ∧
    take (Z.to_nat o) buf' = take (Z.to_nat o) buf.
Proof.
  intros Ho Hn Hl. unfold snprintf, u64. rewrite Z.mod_small by lia.
  destruct (Z.eqb_spec n 0) as [->|]; [exists buf; split; [done|]; split; [lia|done]|].
  destruct (put_bytes_ok buf o (take (Z.to_nat (Z.min (n - 1) (Z.of_nat (length t)))) t ++ [0])) as (buf' & -> & W); [done| |].
  { rewrite length_app, length_take. cbn. lia. }
  exists buf'. split; [done|]. split; [|split; [apply W|by destruct (writes_text _ _ _ _ W) as (? & _ & ?)]].
  intros Hf. by rewrite take_ge in W by lia.
Qed.

(** ** Printing functions

    [prints z sl f t]: given room, [f] writes the text [t] followed by [z] (its
    terminator, or nothing) and returns the length of [t], or returns -1, which it
    does only when fewer than [sl] bytes would be left; in no case does it write
    outside its room. *)
Definition fails (buf : list Z) (o : Z) (r : res (Z * list Z)) : Prop :=
  ∃ buf', r = Ok (-1, buf') ∧ length buf' = length buf ∧ take (Z.to_nat o) buf' = take (Z.to_nat o) buf.

Definition room (maxLen o : Z) (buf : list Z) : Prop :=
  0 ≤ o ∧ 0 ≤ maxLen < 2147483648 ∧ o + maxLen ≤ Z.of_nat (length buf).

Definition printer : Type := Z → Z → list Z → res (Z * list Z).

Definition prints (z : list Z) (sl : Z) (f : printer) (t : list Z) : Prop :=
  ∀ maxLen o buf, room maxLen o buf →
  (Z.of_nat (length (t ++ z)) ≤ maxLen ∧
     ∃ buf', f maxLen o buf = Ok (Z.of_nat (length t), buf') ∧ writes buf o (t ++ z) buf') ∨
  (maxLen ≤ Z.of_nat (length t) + sl ∧ fails buf o (f maxLen o buf)).

(** ** The printing idiom

    Every printing function of the engine keeps a count [c] of the bytes written so
    far at [string[ 0 .. c-1 ]] and returns -1 as soon as something does not fit.  A
    continuation takes the count and the buffer. *)
Definition cont : Type := Z → list Z → res (Z * list Z).

Section Idiom.
Context (maxLen o : Z).

(** [r = f( ..., maxLen - c, &string[ c ] ); if( r < 0 ) return -1; c += r;] *)
Definition call (f : printer) (k : cont) : cont := λ c buf,
'(r, buf) ← f (maxLen - c) (o + c) buf;
if r <? 0 then Ok (-1, buf) else k (c + r) buf.

(** [if( c >= maxLen ) return -1; string[ c ] = ch; ++c;] *)
Definition putc (ch : Z) (k : cont) : cont := λ c buf,
if maxLen <=? c then Ok (-1, buf) else buf ← wr buf (o + c) ch; k (c + 1) buf.

(** [if( c >= maxLen ) return -1; string[ c ] = 0; return c;] *)
Definition finish : cont := λ c buf,
if maxLen <=? c then Ok (-1, buf) else buf ← wr buf (o + c) 0; Ok (c, buf).

(** [r = snprintf( &string[ c ], maxLen - c, ... ); if( r < 0 ) return -1; c += r;] *)
Definition text (t : list Z) (k : cont) : cont := λ c buf,
'(r, buf) ← snprintf buf (o + c) (maxLen - c) t;
if r <? 0 then Ok (-1, buf) else k (c + r) buf.

(** A loop of printing steps. *)
Fixpoint each {A} (l : list A) (body : A → cont → cont) (k : cont) : cont :=
match l with [] => k | x :: l => body x (each l body k) end.

(** Fetching a value before printing it. *)
Definition fetch {A} (m : res A) (k : A → cont) : cont := λ c buf, x ← m; k x c buf.

(** Running [r] from the count [c] appends the text [t] and [z], or fails. *)
Definition outcome (z : list Z) (sl c : Z) (buf : list Z) (r : res (Z * list Z)) (t : list Z) : Prop :=
(c + Z.of_nat (length (t ++ z)) ≤ maxLen ∧
   ∃ buf', r = Ok (c + Z.of_nat (length t), buf') ∧ writes buf (o + c) (t ++ z) buf') ∨
(maxLen ≤ c + Z.of_nat (length t) + sl ∧ fails buf (o + c) r).

(** A continuation that appends the text [t] and [z]. *)
Definition appends (z : list Z) (sl : Z) (k : cont) (t : list Z) : Prop :=
∀ c buf, room maxLen o buf → 0 ≤ c ≤ maxLen → outcome z sl c buf (k c buf) t.

Lemma fails_shift buf buf1 o' o'' r :
0 ≤ o' ≤ o'' → length buf1 = length buf → take (Z.to_nat o') buf1 = take (Z.to_nat o') buf →
fails buf1 o'' r → fails buf o' r.
Proof.
intros Ho L T (buf' & -> & L' & T'). exists buf'. split; [done|]. split; [congruence|].
rewrite <-T. apply (f_equal (take (Z.to_nat o'))) in T'. rewrite !take_take in T'.
by rewrite !Nat.min_l in T' by lia.
Qed.

Lemma outcome_seq z sl t t1 c buf buf1 r :
room maxLen o buf → 0 ≤ c → writes buf (o + c) t1 buf1 →
outcome z sl (c + Z.of_nat (length t1)) buf1 r t → outcome z sl c buf r (t1 ++ t).
Proof.
intros (R1 & R2 & R3) Hc W K. unfold outcome. pose proof (ws_len _ _ _ _ W) as L.
destruct K as [(H & buf' & -> & W')|(H & F)].
- left. rewrite <-app_assoc, !length_app in *. split; [lia|]. exists buf'. split; [do 2 f_equal; lia|].
  apply (writes_app _ _ t1 buf1 (o + (c + Z.of_nat (length t1)))); [done|lia|done].
- right. rewrite length_app. split; [lia|].
  destruct (writes_text _ _ _ _ W) as (_ & _ & T).
  apply (fails_shift buf buf1 (o + c) (o + (c + Z.of_nat (length t1)))); try done; lia.
Qed.

Lemma appends_seq z sl k t t1 c buf buf1 r :
room maxLen o buf → 0 ≤ c → c + Z.of_nat (length t1) ≤ maxLen → writes buf (o + c) t1 buf1 →
appends z sl k t → r = k (c + Z.of_nat (length t1)) buf1 → outcome z sl c buf r (t1 ++ t).
Proof.
intros R Hc Hf W K ->. apply (outcome_seq z sl t t1 c buf buf1); try done.
apply K; [|lia]. destruct R as (? & ? & ?). split; [done|]. split; [done|]. by rewrite (ws_len _ _ _ _ W).
Qed.

(** A call at a given count. *)
Lemma outcome_call z z1 sl f t1 k t c buf :
room maxLen o buf → 0 ≤ c ≤ maxLen →
((Z.of_nat (length (t1 ++ z1)) ≤ maxLen - c ∧
   ∃ buf', f (maxLen - c) (o + c) buf = Ok (Z.of_nat (length t1), buf') ∧ writes buf (o + c) (t1 ++ z1) buf') ∨
 (maxLen - c ≤ Z.of_nat (length t1) + sl ∧ fails buf (o + c) (f (maxLen - c) (o + c) buf))) →
appends z sl k t → outcome z sl c buf (call f k c buf) (t1 ++ t).
Proof.
intros R Hc Hf K. unfold call. destruct Hf as [(H & buf1 & E & W)|(H & buf1 & E & L & T)].
- rewrite length_app in H. apply writes_prefix in W.
  apply (appends_seq z sl k t t1 c buf buf1 _ R ltac:(lia) ltac:(lia) W K).
  rewrite E, bind_ok. by rewrite (proj2 (Z.ltb_ge _ 0)) by lia.
- right. rewrite E, bind_ok. cbn. rewrite length_app. split; [lia|]. by exists buf1.
Qed.

Lemma appends_finish sl : 0 ≤ sl → appends [0] sl finish [].
Proof.
intros Hsl c buf (R1 & R2 & R3) Hc. unfold finish. destruct (Z.leb_spec maxLen c).
- right. cbn. split; [lia|]. by exists buf.
- left. cbn. split; [lia|]. destruct (writes_wr buf (o + c) 0) as [-> W]; [lia|].
  rewrite bind_ok, Z.add_0_r. eauto.
Qed.

Lemma appends_stop sl : appends [] sl (λ c buf, Ok (c, buf)) [].
Proof.
intros c buf (R1 & R2 & R3) Hc. left. cbn. split; [lia|]. exists buf. rewrite Z.add_0_r.
split; [done|]. apply writes_nil. lia.
Qed.

Lemma appends_putc z sl ch k t : 0 ≤ sl → appends z sl k t → appends z sl (putc ch k) (ch :: t).
Proof.
intros Hsl K c buf R Hc. pose proof R as (R1 & R2 & R3). unfold putc. destruct (Z.leb_spec maxLen c).
- right. cbn. split; [lia|]. by exists buf.
- destruct (writes_wr buf (o + c) ch) as [E W]; [lia|].
  apply (appends_seq z sl k t [ch] c buf _ _ R ltac:(lia) ltac:(cbn; lia) W K). by rewrite E, bind_ok.
Qed.

Lemma appends_call z z1 sl f t1 k t :
prints z1 sl f t1 → appends z sl k t → appends z sl (call f k) (t1 ++ t).
Proof.
intros Hf K c buf R Hc. apply (outcome_call z z1 sl f t1 k t c buf R Hc); [|done].
pose proof R as (R1 & R2 & R3). apply (Hf (maxLen - c) (o + c) buf). split; [lia|]. split; lia.
Qed.

(** [snprintf] is not checked for truncation: the text must fit. *)
Lemma outcome_text z sl t1 k t c buf :
room maxLen o buf → 0 ≤ c → c + Z.of_nat (length t1) < maxLen →
(∀ buf1, room maxLen o buf1 → outcome z sl (c + Z.of_nat (length t1)) buf1 (k (c + Z.of_nat (length t1)) buf1) t) →
outcome z sl c buf (text t1 k c buf) (t1 ++ t).
Proof.
intros R Hc Hf K. pose proof R as (R1 & R2 & R3).
destruct (snprintf_ok buf (o + c) (maxLen - c) t1) as (buf1 & E & W & L & _); [lia|lia|lia|].
specialize (W ltac:(lia)). apply writes_prefix in W.
apply (outcome_seq z sl t t1 c buf buf1 _ R Hc W). unfold text. rewrite E, bind_ok.
rewrite (proj2 (Z.ltb_ge _ 0)) by lia. apply K. split; [done|]. split; [done|]. by rewrite L.
Qed.

(** A number and the terminator: truncation is noticed. *)
Lemma appends_text_finish sl t1 : 0 ≤ sl → appends [0] sl (text t1 finish) t1.
Proof.
intros Hsl c buf R Hc. destruct (Z.lt_ge_cases (c + Z.of_nat (length t1)) maxLen) as [Hf|Hf].
- rewrite <-(app_nil_r t1) at 2. apply outcome_text; [done|lia|done|].
  intros buf1 R1. by apply appends_finish; [| |lia].
- right. split; [lia|]. pose proof R as (R1 & R2 & R3).
  destruct (snprintf_ok buf (o + c) (maxLen - c) t1) as (buf1 & E & _ & L & T); [lia..|].
  unfold text. rewrite E, bind_ok. rewrite (proj2 (Z.ltb_ge _ 0)) by lia. unfold finish.
  rewrite (proj2 (Z.leb_le maxLen _)) by lia. by exists buf1.
Qed.

Lemma appends_each {A} z sl (l : list A) body (f : A → list Z) k t :
(∀ x k t, x ∈ l → appends z sl k t → appends z sl (body x k) (f x ++ t)) →
appends z sl k t → appends z sl (each l body k) (concat (f <$> l) ++ t).
Proof.
induction l as [|x l IH]; intros Hb K; cbn; [done|]. rewrite <-app_assoc. apply Hb; [set_solver|].
apply IH; [|done]. intros. apply Hb; [set_solver|done].
Qed.

Lemma appends_fetch {A} z sl (m : res A) x k t :
m = Ok x → appends z sl (k x) t → appends z sl (fetch m k) t.
Proof. intros -> K c buf. unfold fetch. rewrite bind_ok. apply K. Qed.
End Idiom.

Lemma prints_of z sl k t : (∀ maxLen o, appends maxLen o z sl (k maxLen o) t) →
  prints z sl (λ maxLen o buf, k maxLen o 0 buf) t.
Proof.
  intros K maxLen o buf R. destruct (K maxLen o 0 buf R) as [(H & buf' & E & W)|(H & F)].
  - pose proof R as (? & ? & ?). lia.
  - left. rewrite Z.add_0_l, Z.add_0_r in *. eauto.
  - right. rewrite Z.add_0_l, Z.add_0_r in *. eauto.
Qed.

Lemma outcome_at_0 maxLen o z sl buf r t : outcome maxLen o z sl 0 buf r t →
  (Z.of_nat (length (t ++ z)) ≤ maxLen ∧
     ∃ buf', r = Ok (Z.of_nat (length t), buf') ∧ writes buf o (t ++ z) buf') ∨
  (maxLen ≤ Z.of_nat (length t) + sl ∧ fails buf o r).
Proof. unfold outcome. by rewrite Z.add_0_r, !Z.add_0_l. Qed.

(** The rest of a printing function whose first bytes [t1] are written. *)
Lemma prints_after maxLen o z sl k t t1 buf buf1 :
  room maxLen o buf → Z.of_nat (length t1) ≤ maxLen → writes buf o t1 buf1 →
  appends maxLen o z sl k t →
  let r := k (Z.of_nat (length t1)) buf1 in
  (Z.of_nat (length ((t1 ++ t) ++ z)) ≤ maxLen ∧
     ∃ buf', r = Ok (Z.of_nat (length (t1 ++ t)), buf') ∧ writes buf o ((t1 ++ t) ++ z) buf') ∨
  (maxLen ≤ Z.of_nat (length (t1 ++ t)) + sl ∧ fails buf o r).
Proof.
  intros R Hl W K r.
  pose proof (appends_seq maxLen o z sl k t t1 0 buf buf1 r R ltac:(lia) ltac:(lia)) as H.
  unfold outcome in H. rewrite Z.add_0_r, !Z.add_0_l in H. by apply H.
Qed.
