(* ===== verification/Print.v ===== *)
(** * Printing states ([print...] of [Common/acpc/src/game.c])

    Every printing function of the engine, over the idiom of [Text], and the text
    each one produces: given room it writes exactly that text, and when the text
    does not fit it returns -1 without leaving its room. *)

From stdpp Require Import base list list_numbers numbers option sets.
From S2P Require Import Prelude GameDef Betting BettingSpec BettingInv BettingThm Deal StateEq Text.
Open Scope Z_scope.

Definition printCard (card : Z) : printer := λ maxLen o buf,
  if maxLen <? 3 then Ok (-1, buf) else
  ch ← rd rankChars (rankOfCard card);
  buf ← wr buf o ch;
  ch ← rd suitChars (suitOfCard card);
  buf ← wr buf (o + 1) ch;
  buf ← wr buf (o + 2) 0;
  Ok (2, buf).

Definition printCards (numCards : Z) (cards : list Z) : printer := λ maxLen o buf,
  each (seqZ 0 numCards) (λ i k, fetch (rd cards i) (λ card, call maxLen o (printCard card) k))
    (λ c buf, Ok (c, buf)) 0 buf.

Definition printAction (game : Game) (a : Action) : printer := λ maxLen o buf,
  if maxLen =? 0 then Ok (-1, buf) else
  ch ← rd actionChars (ActionType_code (type a));
  buf ← wr buf o ch;
  if bool_decide (bettingType game = noLimitBetting ∧ type a = a_raise)
  then text maxLen o (dec_signed (size a)) (finish maxLen o) 1 buf
  else finish maxLen o 1 buf.

(** The betting, with [delim] between the rounds. *)
Definition printBetting2 (game : Game) (s : State) (delim : Z) : printer := λ maxLen o buf,
  each (seqZ 0 (round s + 1)) (λ i k,
    (if i =? 0 then (λ k, k) else putc maxLen o delim)
    (fetch (rd (numActions s) i) (λ n,
      each (seqZ 0 n) (λ a k, fetch (rd2 (action s) i a) (λ act, call maxLen o (printAction game act) k)) k)))
    (finish maxLen o) 0 buf.

Definition printBetting (game : Game) (s : State) : printer := printBetting2 game s 47.

Definition printAllHoleCards (game : Game) (s : State) : printer := λ maxLen o buf,
  each (seqZ 0 (numPlayers game)) (λ p k,
    (if p =? 0 then (λ k, k) else putc maxLen o 124)
    (fetch (rd (holeCards s) p) (λ row, call maxLen o (printCards (numHoleCards game) row) k)))
    (finish maxLen o) 0 buf.

(** Whether another player's cards are hidden from [player]. *)
Definition hidden (game : Game) (s : State) (player p : Z) : res bool :=
  if p =? player then Ok false else
  if negb (nz (stateFinished s)) then Ok true else
  f ← rd (playerFolded s) p;
  if nz f then Ok true else
  nf ← numFolded game s;
  Ok (nf + 1 =? numPlayers game).

Definition printPlayerHoleCards (game : Game) (s : State) (player : Z) : printer := λ maxLen o buf,
  each (seqZ 0 (numPlayers game)) (λ p k,
    (if p =? 0 then (λ k, k) else putc maxLen o 124)
    (fetch (hidden game s player p) (λ h : bool,
      if h then k
      else fetch (rd (holeCards s) p) (λ row, call maxLen o (printCards (numHoleCards game) row) k))))
    (finish maxLen o) 0 buf.

(** The board of the first [rounds] rounds. *)
Definition print_board (game : Game) (s : State) (rounds : Z) : printer := λ maxLen o buf,
  each (seqZ 0 rounds) (λ i k,
    (if i =? 0 then (λ k, k) else putc maxLen o 47)
    (fetch (rd (numBoardCards game) i) (λ nb,
      fetch (bcStart game i) (λ b,
        call maxLen o (printCards nb (from (boardCards s) b)) k))))
    (finish maxLen o) 0 buf.

Definition printBoardCards (game : Game) (s : State) : printer := print_board game s (round s + 1).
Definition printAllBoardCards (game : Game) (s : State) : printer := print_board game s (numRounds game).

Definition STATE_ : list Z := [83; 84; 65; 84; 69].
Definition MATCHSTATE_ : list Z := [77; 65; 84; 67; 72; 83; 84; 65; 84; 69; 58].

Definition printStateCommon (game : Game) (s : State) : printer := λ maxLen o buf,
  text maxLen o (58 :: dec (handId s) ++ [58])
    (call maxLen o (printBetting game s) (putc maxLen o 58 (λ c buf, Ok (c, buf)))) 0 buf.

Definition printState (game : Game) (s : State) : printer := λ maxLen o buf,
  text maxLen o STATE_
    (call maxLen o (printStateCommon game s)
    (call maxLen o (printAllHoleCards game s)
    (call maxLen o (printBoardCards game s)
    (finish maxLen o)))) 0 buf.

Definition printMatchState (game : Game) (ms : MatchState) : printer := λ maxLen o buf,
  text maxLen o (MATCHSTATE_ ++ dec (viewingPlayer ms))
    (call maxLen o (printStateCommon game (state ms))
    (call maxLen o (printPlayerHoleCards game (state ms) (viewingPlayer ms))
    (call maxLen o (printBoardCards game (state ms))
    (finish maxLen o)))) 0 buf.

(** [string[c]] is written without a test in the next two. *)
Definition setc (o ch : Z) (k : cont) : cont := λ c buf, buf ← wr buf (o + c) ch; k (c + 1) buf.

Definition printSpent (game : Game) (s : State) : printer := λ maxLen o buf,
  if maxLen <? 100 then Ok (0, buf) else
  setc o 58 (each (seqZ 0 (numPlayers game)) (λ i k,
    fetch (rd (spent s) i) (λ x, text maxLen o (dec_signed x) (setc o 47 k)))
    (finish maxLen o)) 0 buf.

Definition printActingPlayerAction (game : Game) (a : Action) (acting : Z) : printer := λ maxLen o buf,
  if maxLen <? 12 then Ok (-1, buf) else
  buf ← wr buf o 91;
  ch ← rd actingPlayerChars acting;
  buf ← wr buf (o + 1) ch;
  ch ← rd actionChars (ActionType_code (type a));
  buf ← wr buf (o + 2) ch;
  let k := setc o 93 (finish maxLen o) in
  if bool_decide (bettingType game = noLimitBetting ∧ type a = a_raise)
  then text maxLen o (dec_signed (size a)) k 3 buf
  else k 3 buf.

Definition printDetailedBetting (game : Game) (s : State) : printer := λ maxLen o buf,
  each (seqZ 0 (round s + 1)) (λ i k,
    (if i =? 0 then (λ k, k) else putc maxLen o 47)
    (fetch (rd (numActions s) i) (λ n,
      each (seqZ 0 n) (λ a k, fetch (rd2 (action s) i a) (λ act,
        fetch (rd2 (actingPlayer s) i a) (λ p,
          call maxLen o (printActingPlayerAction game act p) k))) k)))
    (finish maxLen o) 0 buf.

Definition printStateCommonDetailed (game : Game) (s : State) : printer := λ maxLen o buf,
  text maxLen o (58 :: dec (handId s) ++ [58])
    (call maxLen o (printDetailedBetting game s) (putc maxLen o 58 (λ c buf, Ok (c, buf)))) 0 buf.

Definition printStateDetailed (game : Game) (s : State) : printer := λ maxLen o buf,
  text maxLen o STATE_
    (call maxLen o (printStateCommonDetailed game s)
    (call maxLen o (printAllHoleCards game s)
    (call maxLen o (printAllBoardCards game s)
    (call maxLen o (printSpent game s)
    (finish maxLen o))))) 0 buf.

(** One card of [toPythonCards]; [err] is the code returned when it does not fit. *)
Definition pyCard (len o card err : Z) (k : cont) : cont := λ c buf,
  '(r, buf) ← printCard card (len - c) (o + c) buf;
  if r <? 0 then Ok (err, buf) else k (c + r) buf.

Definition toPythonCards (game : Game) (s : State) (player len o : Z) (buf : list Z) : res (Z * list Z) :=
  if numPlayers game <=? player then Ok (-11, buf) else
  cnt ← sumBoardCards game (round s);
  each (seqZ 0 cnt) (λ i k,
    (if 0 <? i then setc o 45 else (λ k, k))
    (fetch (rd (boardCards s) i) (λ card, pyCard len o card (-1) k)))
  (each (seqZ 0 (numHoleCards game)) (λ i k,
    setc o 45 (fetch (rd2 (holeCards s) player i) (λ card, pyCard len o card (-12) k)))
  (λ _ buf, Ok (0, buf))) 0 buf.

(** [sprintf( cards + len, "%d, ", card )]. *)
Definition sprintf_card (o : Z) (card : Z) (k : cont) : cont := λ len buf,
  buf ← put_bytes buf (o + len) (dec_signed card ++ [44; 32; 0]);
  k (len + Z.of_nat (length (dec_signed card)) + 2) buf.

(** The result is the buffer: the function returns no value. *)
Definition printAllCards (game : Game) (s : State) (o : Z) (buf : list Z) : res (Z * list Z) :=
  each (seqZ 0 (numPlayers game)) (λ i k,
    each (seqZ 0 (numHoleCards game)) (λ j k,
      fetch (rd2 (holeCards s) i j) (λ card, sprintf_card o card k)) k)
  (fetch (sumBoardCards game (numRounds game)) (λ n,
    each (seqZ 0 n) (λ j k, fetch (rd (boardCards s) j) (λ card, sprintf_card o card k))
    (λ len buf, buf ← wr buf (o + (len - 2)) 0; Ok (0, buf)))) 0 buf.

(** ** The texts *)
Definition cardText (c : Z) : list Z := [at_ rankChars (rankOfCard c); at_ suitChars (suitOfCard c)].
Definition cardsText (l : list Z) : list Z := concat (cardText <$> l).
Definition actText (g : Game) (a : Action) : list Z :=
  at_ actionChars (ActionType_code (type a)) ::
  (if bool_decide (bettingType g = noLimitBetting ∧ type a = a_raise) then dec_signed (size a) else []).
Definition sep (ch i : Z) : list Z := if i =? 0 then [] else [ch].

Definition bettingText (g : Game) (s : State) (delim : Z) : list Z :=
  concat ((λ i, sep delim i ++ concat (actText g <$> roundActions s i)) <$> seqZ 0 (round s + 1)).
Definition holeText (g : Game) (s : State) : list Z :=
  concat ((λ p, sep 124 p ++ cardsText (handOf g s p)) <$> seqZ 0 (numPlayers g)).

(** The board cards dealt in round [i]. *)
Definition boardOf (g : Game) (s : State) (i : Z) : list Z :=
  (λ j, at_ (boardCards s) (sumZ (at_ (numBoardCards g)) i + j)) <$> seqZ 0 (at_ (numBoardCards g) i).
Definition boardText (g : Game) (s : State) (rounds : Z) : list Z :=
  concat ((λ i, sep 47 i ++ cardsText (boardOf g s i)) <$> seqZ 0 rounds).
Definition commonText (g : Game) (s : State) : list Z :=
  (58 :: dec (handId s) ++ [58]) ++ bettingText g s 47 ++ [58].
Definition stateText (g : Game) (s : State) : list Z :=
  STATE_ ++ commonText g s ++ holeText g s ++ boardText g s (round s + 1).

(** ** Cards *)
Lemma printCard_prints c : is_card c → prints [0] 0 (printCard c) (cardText c).
Proof.
  intros Hc maxLen o buf (R1 & R2 & R3). destruct (card_parts c Hc) as [Hs Hr].
  unfold printCard. destruct (Z.ltb_spec maxLen 3).
  - right. cbn. split; [lia|]. by exists buf.
  - left. split; [cbn; lia|]. rewrite (rd_ok rankChars), bind_ok by (cbn; lia).
    destruct (put_bytes_ok buf o (cardText c ++ [0])) as (buf' & E & W); [lia|cbn; lia|].
    exists buf'. split; [|done]. cbn [cardText app put_bytes] in E. cbn [length cardText].
    apply bind_Ok_inv in E as (b1 & -> & E). rewrite bind_ok, (rd_ok suitChars), bind_ok by (cbn; lia).
    apply bind_Ok_inv in E as (b2 & -> & E). rewrite bind_ok.
    replace (o + 1 + 1) with (o + 2) in E by lia. apply bind_Ok_inv in E as (b3 & -> & [= <-]). done.
Qed.

Lemma printCards_prints n cards :
  0 ≤ n ≤ Z.of_nat (length cards) → (∀ i, 0 ≤ i < n → is_card (at_ cards i)) →
  prints [] 0 (printCards n cards) (cardsText ((λ i, at_ cards i) <$> seqZ 0 n)).
Proof.
  intros Hn Hc. unfold cardsText. rewrite <-list_fmap_compose.
  apply (prints_of [] 0 (λ maxLen o, each (seqZ 0 n)
    (λ i k, fetch (rd cards i) (λ card, call maxLen o (printCard card) k)) (λ c buf, Ok (c, buf)))).
  intros maxLen o. rewrite <-(app_nil_r (concat _)). apply appends_each; [|apply appends_stop].
  intros i k t [? ?]%elem_of_seqZ K. apply (appends_fetch _ _ _ _ _ (at_ cards i)); [apply rd_ok; lia|].
  apply (appends_call _ _ _ [0]); [|done]. apply printCard_prints, Hc. lia.
Qed.

(** ** Actions *)
Lemma code_range t : 0 ≤ ActionType_code t < 4.
Proof. destruct t; cbn; lia. Qed.

Lemma printAction_prints g a : prints [0] 0 (printAction g a) (actText g a).
Proof.
  intros maxLen o buf R. pose proof R as (R1 & R2 & R3). unfold printAction.
  destruct (Z.eqb_spec maxLen 0) as [->|]; [right; split; [lia|]; by exists buf|].
  pose proof (code_range (type a)). rewrite (rd_ok actionChars), bind_ok by (cbn; lia).
  destruct (writes_wr buf o (at_ actionChars (ActionType_code (type a)))) as [-> W]; [lia|].
  rewrite bind_ok. set (ch := at_ actionChars _) in *.
  assert (∀ k t, appends maxLen o [0] 0 k t → _) as Hk
    by (intros k t K; exact (prints_after maxLen o [0] 0 k t [ch] buf _ R ltac:(cbn; lia) W K)).
  unfold actText. case_bool_decide; apply Hk; [by apply appends_text_finish|by apply appends_finish].
Qed.

Lemma appends_sep maxLen o z ch i k t :
  appends maxLen o z 0 k t →
  appends maxLen o z 0 ((if i =? 0 then (λ k, k) else putc maxLen o ch) k) (sep ch i ++ t).
Proof. intros K. unfold sep. destruct (i =? 0); [done|]. by apply appends_putc. Qed.

Section StatePrint.
Context (g : Game) (s : State) (C : comparable g s).

Lemma printBetting2_prints delim : prints [0] 0 (printBetting2 g s delim) (bettingText g s delim).
Proof.
unfold bettingText.
apply (prints_of [0] 0 (λ maxLen o, each (seqZ 0 (round s + 1)) (λ i k,
  (if i =? 0 then (λ k, k) else putc maxLen o delim)
  (fetch (rd (numActions s) i) (λ n,
    each (seqZ 0 n) (λ a k, fetch (rd2 (action s) i a) (λ act, call maxLen o (printAction g act) k)) k)))
  (finish maxLen o))).
intros maxLen o. rewrite <-(app_nil_r (concat _)). apply appends_each; [|by apply appends_finish].
intros i k t Hi%elem_of_seqZ K. destruct (len_row g s C i ltac:(lia)) as (L1 & L2 & L3).
pose proof (cm_na _ _ C i ltac:(lia)). rewrite <-app_assoc. apply appends_sep.
apply (appends_fetch _ _ _ _ _ (at_ (numActions s) i)); [apply rd_ok; lia|].
unfold roundActions. rewrite <-list_fmap_compose. apply appends_each; [|done].
intros a k' t' Ha%elem_of_seqZ K'. apply (appends_fetch _ _ _ _ _ (at2 (action s) i a)); [apply rd2_ok; lia|].
apply (appends_call _ _ _ [0]); [|done]. apply printAction_prints.
Qed.

Lemma handOf_at p i : at2 (holeCards s) p i = at_ (at_ (holeCards s) p) i.
Proof. done. Qed.

Lemma hole_prints p : 0 ≤ p < 10 → (∀ c, c ∈ handOf g s p → is_card c) →
prints [] 0 (printCards (numHoleCards g) (at_ (holeCards s) p)) (cardsText (handOf g s p)).
Proof.
intros Hp Hc. pose proof (wd_hole _ (cm_deal _ _ C)). pose proof (cm_state _ _ C) as Sh.
assert (length (at_ (holeCards s) p) = 3%nat) by (apply (ss_hole2 _ Sh); lia).
apply printCards_prints; [lia|]. intros i Hi. apply Hc. unfold handOf. apply list_elem_of_fmap.
exists i. split; [done|]. apply elem_of_seqZ. lia.
Qed.

Lemma printAllHoleCards_prints :
(∀ p c, 0 ≤ p < numPlayers g → c ∈ handOf g s p → is_card c) →
prints [0] 0 (printAllHoleCards g s) (holeText g s).
Proof.
intros Hc. pose proof (wd_players _ (cm_deal _ _ C)). pose proof (ss_hole _ (cm_state _ _ C)).
unfold holeText.
apply (prints_of [0] 0 (λ maxLen o, each (seqZ 0 (numPlayers g)) (λ p k,
  (if p =? 0 then (λ k, k) else putc maxLen o 124)
  (fetch (rd (holeCards s) p) (λ row, call maxLen o (printCards (numHoleCards g) row) k)))
  (finish maxLen o))).
intros maxLen o. rewrite <-(app_nil_r (concat _)). apply appends_each; [|by apply appends_finish].
intros p k t Hp%elem_of_seqZ K. rewrite <-app_assoc. apply appends_sep.
apply (appends_fetch _ _ _ _ _ (at_ (holeCards s) p)); [apply rd_ok; lia|].
apply (appends_call _ _ _ []); [|done]. apply hole_prints; [lia|]. intros. apply (Hc p); [lia|done].
Qed.

Lemma bcStart_ok r : 0 ≤ r ≤ numRounds g →
bcStart g r = Ok (sumZ (at_ (numBoardCards g)) r) ∧ 0 ≤ sumZ (at_ (numBoardCards g)) r.
Proof.
intros Hr. pose proof (cm_deal _ _ C) as W. pose proof (wd_rounds _ W). pose proof (gs_board _ (wd_shape _ W)).
pose proof (wd_board7 _ W).
assert (∀ k, 0 ≤ k ≤ r → 0 ≤ sumZ (at_ (numBoardCards g)) k ≤ 7) as Hs.
{ intros k Hk. pose proof (board_sum_mono g k (wd_board _ W)). lia. }
split; [|apply Hs; lia]. unfold bcStart.
destruct (for_inv (λ k t, t = sumZ (at_ (numBoardCards g)) k) 0 r 0
  (λ r start, n ← rd (numBoardCards g) r; Ok (u8 (start + n)))) as (t & E & ->); [lia|done| |done].
intros k t Hk ->. run. eexists. split; [done|]. rewrite sumZ_S by lia.
apply u8_small. pose proof (Hs (k + 1) ltac:(lia)) as H2. rewrite sumZ_S in H2 by lia. lia.
Qed.

Lemma print_board_prints rounds : 0 ≤ rounds ≤ numRounds g →
(∀ i c, 0 ≤ i < rounds → c ∈ boardOf g s i → is_card c) →
prints [0] 0 (print_board g s rounds) (boardText g s rounds).
Proof.
intros Hr Hc. pose proof (cm_deal _ _ C) as W. pose proof (wd_rounds _ W).
pose proof (gs_board _ (wd_shape _ W)). pose proof (ss_board _ (cm_state _ _ C)).
unfold boardText.
apply (prints_of [0] 0 (λ maxLen o, each (seqZ 0 rounds) (λ i k,
  (if i =? 0 then (λ k, k) else putc maxLen o 47)
  (fetch (rd (numBoardCards g) i) (λ nb,
    fetch (bcStart g i) (λ b, call maxLen o (printCards nb (from (boardCards s) b)) k))))
  (finish maxLen o))).
intros maxLen o. rewrite <-(app_nil_r (concat _)). apply appends_each; [|by apply appends_finish].
intros i k t Hi%elem_of_seqZ K. rewrite <-app_assoc. apply appends_sep.
apply (appends_fetch _ _ _ _ _ (at_ (numBoardCards g) i)); [apply rd_ok; lia|].
destruct (bcStart_ok i ltac:(lia)) as [Eb Hb]. apply (appends_fetch _ _ _ _ _ _ _ _ Eb).
pose proof (board_sum_mono g (i + 1) (wd_board _ W) ltac:(lia) ltac:(lia)) as Hm. rewrite sumZ_S in Hm by lia.
pose proof (wd_board7 _ W). pose proof (wd_board _ W i ltac:(lia)). set (b := sumZ _ i) in *.
apply (appends_call _ _ _ []); [|done].
assert (boardOf g s i = (λ j, at_ (from (boardCards s) b) j) <$> seqZ 0 (at_ (numBoardCards g) i)) as E.
{ unfold boardOf. fold b. apply map_seqZ_eq. intros j Hj. unfold at_, from.
  rewrite !list_lookup_total_alt, lookup_drop. do 2 f_equal. lia. }
rewrite E. apply printCards_prints.
- unfold from. rewrite length_drop. lia.
- intros j Hj. apply (Hc i); [lia|]. rewrite E. apply list_elem_of_fmap. exists j. split; [done|].
  apply elem_of_seqZ. lia.
Qed.

(** [snprintf]'s result is not compared with the room left, so the header needs it. *)
Lemma printStateCommon_prints maxLen o buf :
0 ≤ handId s < 4294967296 → room maxLen o buf → 13 ≤ maxLen →
(Z.of_nat (length (commonText g s ++ [])) ≤ maxLen ∧
   ∃ buf', printStateCommon g s maxLen o buf = Ok (Z.of_nat (length (commonText g s)), buf') ∧
     writes buf o (commonText g s ++ []) buf') ∨
(maxLen ≤ Z.of_nat (length (commonText g s)) + 0 ∧ fails buf o (printStateCommon g s maxLen o buf)).
Proof.
intros Hh R Hm. pose proof R as (R1 & R2 & R3). pose proof (dec_u32_length _ Hh) as L.
unfold printStateCommon. apply outcome_at_0. unfold commonText.
apply outcome_text; [done|lia|cbn [length]; rewrite length_app; cbn [length]; lia|].
intros buf1 Rb. set (c := 0 + _).
assert (0 ≤ c ≤ maxLen) as Hc by (unfold c; cbn [length]; rewrite length_app; cbn [length]; lia).
pose proof Rb as (Rb1 & Rb2 & Rb3).
apply (outcome_call maxLen o [] [0] 0 _ _ _ _ c buf1 Rb Hc).
- apply (printBetting2_prints 47). split; [lia|]. split; lia.
- apply appends_putc; [lia|]. apply appends_stop.
Qed.

Lemma printState_prints maxLen o buf :
0 ≤ handId s < 4294967296 → (∀ p c, 0 ≤ p < numPlayers g → c ∈ handOf g s p → is_card c) →
(∀ i c, 0 ≤ i < round s + 1 → c ∈ boardOf g s i → is_card c) →
room maxLen o buf → 18 ≤ maxLen →
(Z.of_nat (length (stateText g s ++ [0])) ≤ maxLen ∧
   ∃ buf', printState g s maxLen o buf = Ok (Z.of_nat (length (stateText g s)), buf') ∧
     writes buf o (stateText g s ++ [0]) buf') ∨
(maxLen ≤ Z.of_nat (length (stateText g s)) + 0 ∧ fails buf o (printState g s maxLen o buf)).
Proof.
intros Hh Hc Hb R Hm. pose proof R as (R1 & R2 & R3). pose proof (cm_round _ _ C).
unfold printState. apply outcome_at_0. unfold stateText.
apply outcome_text; [done|lia|cbn; lia|]. intros buf1 Rb. pose proof Rb as (Rb1 & Rb2 & Rb3).
cbn [length STATE_ Z.of_nat]. rewrite Z.add_0_l.
apply (outcome_call maxLen o [0] [] 0 _ _ _ _ _ buf1 Rb); [lia| |].
- apply printStateCommon_prints; [done| |lia]. split; [lia|]. split; lia.
- apply (appends_call _ _ _ [0]); [by apply printAllHoleCards_prints|].
  rewrite <-(app_nil_r (boardText _ _ _)).
  apply (appends_call _ _ _ [0]); [|by apply appends_finish]. apply print_board_prints; [lia|done].
Qed.
End StatePrint.

(** ** The detailed text of a state

    [printStateDetailed] writes some characters without a test for room, one byte past its
    [maxLen] at the worst when sizes have at most nine digits.  [safe]: with a byte to spare a
    printing function returns, with a length inside its room or an error. *)
Definition safe (f : printer) : Prop := ∀ maxLen o buf, 0 ≤ o → 0 ≤ maxLen < 2147483648 → o + maxLen < Z.of_nat (length buf) →
  ∃ r buf', f maxLen o buf = Ok (r, buf') ∧ length buf' = length buf ∧ r ≤ maxLen.

Lemma prints_safe z sl f t : prints z sl f t → safe f.
Proof.
  intros Hf maxLen o buf Ho Hm Hl. destruct (Hf maxLen o buf) as [(H & buf' & E & W)|(_ & buf' & E & L & _)]; [split; [done|lia]| |].
  - exists (Z.of_nat (length t)), buf'. split; [done|]. split; [apply W|]. rewrite length_app in H. lia.
  - exists (-1), buf'. split; [done|]. split; [done|lia].
Qed.

Section Safe.
Context (maxLen o : Z) (Ho : 0 ≤ o) (Hm : 0 ≤ maxLen < 2147483648).

Definition safe_from (k : cont) : Prop := ∀ c buf, 0 ≤ c ≤ maxLen → o + maxLen < Z.of_nat (length buf) →
  ∃ r buf', k c buf = Ok (r, buf') ∧ length buf' = length buf ∧ r ≤ maxLen.

Lemma safe_finish : safe_from (finish maxLen o).
Proof.
  intros c buf Hc Hl. unfold finish. destruct (Z.leb_spec maxLen c); [exists (-1), buf; split; [done|]; split; [done|lia]|].
  rewrite wr_ok, bind_ok by lia. eexists _, _. split; [done|]. rewrite length_insert. split; [done|lia].
Qed.
Lemma safe_stop : safe_from (λ c buf, Ok (c, buf)).
Proof. intros c buf Hc Hl. exists c, buf. split; [done|]. split; [done|lia]. Qed.
Lemma safe_putc ch k : safe_from k → safe_from (putc maxLen o ch k).
Proof.
  intros K c buf Hc Hl. unfold putc. destruct (Z.leb_spec maxLen c); [exists (-1), buf; split; [done|]; split; [done|lia]|].
  rewrite wr_ok, bind_ok by lia. destruct (K (c + 1) (<[Z.to_nat (o + c) := ch]> buf)) as (r & buf' & -> & L & Hr); [lia|rewrite length_insert; lia|].
  exists r, buf'. by rewrite length_insert in L.
Qed.
Lemma safe_fetch {A} (m : res A) x k : m = Ok x → safe_from (k x) → safe_from (fetch m k).
Proof. intros -> K c buf. unfold fetch. rewrite bind_ok. apply K. Qed.
Lemma safe_call f k : safe f → safe_from k → safe_from (call maxLen o f k).
Proof.
  intros Hf K c buf Hc Hl. unfold call. destruct (Hf (maxLen - c) (o + c) buf) as (r & buf1 & -> & L & Hr); [lia|lia|lia|]. rewrite bind_ok.
  destruct (Z.ltb_spec r 0); [exists (-1), buf1; split; [done|]; split; [done|lia]|]. destruct (K (c + r) buf1) as (r' & buf' & -> & L' & Hr'); [lia|lia|].
  exists r', buf'. split; [done|]. split; [congruence|done].
Qed.
Lemma safe_each {A} (l : list A) body k : (∀ x k, x ∈ l → safe_from k → safe_from (body x k)) → safe_from k → safe_from (each l body k).
Proof. induction l as [|x l IH]; intros Hb K; cbn; [done|]. apply Hb; [left|]. apply IH; [|done]. intros. apply Hb; [by right|done]. Qed.

(** A number that fits. *)
Lemma text_fits t k c buf : 0 ≤ c → c + Z.of_nat (length t) ≤ maxLen → o + maxLen < Z.of_nat (length buf) →
  ∃ buf', text maxLen o t k c buf = k (c + Z.of_nat (length t)) buf' ∧ length buf' = length buf.
Proof.
  intros Hc Ht Hl. unfold text. destruct (snprintf_ok buf (o + c) (maxLen - c) t) as (buf' & -> & _ & L & _); [lia|lia|lia|]. rewrite bind_ok, (proj2 (Z.ltb_ge _ 0)) by lia. by exists buf'.
Qed.
End Safe.

Lemma dec_short n k : (0 < k)%nat → 0 ≤ n < 10 ^ Z.of_nat k → (length (dec n) ≤ k)%nat.
Proof. intros Hk Hn. by apply dec_fuel_length. Qed.
Lemma dec_signed_short n : INT32_MIN ≤ n ≤ INT32_MAX → (length (dec_signed n) ≤ 11)%nat.
Proof.
  unfold INT32_MIN, INT32_MAX, dec_signed. intros Hn. destruct (Z.ltb_spec n 0); cbn [length].
  - pose proof (dec_short (- n) 10 ltac:(lia) ltac:(cbn; lia)). lia.
  - pose proof (dec_short n 10 ltac:(lia) ltac:(cbn; lia)). lia.
Qed.

Lemma printActingPlayerAction_safe g a p : 0 ≤ p < 10 → (type a = a_raise → 0 ≤ size a < 1000000000) → safe (printActingPlayerAction g a p).
Proof.
  intros Hp Ha maxLen o buf Ho Hm Hl. unfold printActingPlayerAction. destruct (Z.ltb_spec maxLen 12); [exists (-1), buf; split; [done|]; split; [done|lia]|].
  rewrite wr_ok, bind_ok by lia. rewrite (rd_ok actingPlayerChars) by (cbn; lia). rewrite bind_ok, wr_ok, bind_ok by (rewrite length_insert; lia).
  pose proof (code_range (type a)). rewrite (rd_ok actionChars) by (cbn; lia). rewrite bind_ok, wr_ok, bind_ok by (rewrite !length_insert; lia).
  match goal with |- context [<[Z.to_nat (o + 2) := ?x]> ?b] => set (buf1 := <[Z.to_nat (o + 2) := x]> b) end.
  assert (length buf1 = length buf) as L1 by (unfold buf1; by rewrite !length_insert).
  assert (∀ c b, 3 ≤ c ≤ 12 → length b = length buf → ∃ r buf', setc o 93 (finish maxLen o) c b = Ok (r, buf') ∧ length buf' = length buf ∧ r ≤ maxLen) as K.
  { intros c b Hc Lb. unfold setc. rewrite wr_ok, bind_ok by lia. unfold finish. destruct (Z.leb_spec maxLen (c + 1)).
    - eexists (-1), _. split; [done|]. rewrite length_insert. split; [done|lia].
    - rewrite wr_ok, bind_ok by (rewrite length_insert; lia). eexists _, _. split; [done|]. rewrite !length_insert. split; [done|lia]. }
  case_bool_decide as Hd; [|apply K; [lia|done]]. destruct Hd as [_ Ht]. specialize (Ha Ht).
  assert (Z.of_nat (length (dec_signed (size a))) ≤ 9).
  { unfold dec_signed. rewrite (proj2 (Z.ltb_ge _ 0)) by lia. pose proof (dec_short (size a) 9 ltac:(lia) ltac:(cbn; lia)). lia. }
  destruct (text_fits maxLen o Ho Hm (dec_signed (size a)) (setc o 93 (finish maxLen o)) 3 buf1) as (buf2 & -> & L2); [lia|lia|lia|]. apply K; [lia|congruence].
Qed.

Section Detailed.
Context (g : Game) (s : State) (C : comparable g s) (Two : numPlayers g = 2).
Context (Spent : ∀ p, 0 ≤ p < 2 → INT32_MIN ≤ at_ (spent s) p ≤ INT32_MAX).
Context (Acts : ∀ r i, 0 ≤ r ≤ round s → 0 ≤ i < at_ (numActions s) r →
  0 ≤ at2 (actingPlayer s) r i < 10 ∧ (type (at2 (action s) r i) = a_raise → 0 ≤ size (at2 (action s) r i) < 1000000000)).

Lemma printDetailedBetting_safe : safe (printDetailedBetting g s).
Proof.
  intros maxLen o buf Ho Hm Hl. unfold printDetailedBetting.
  cut (safe_from maxLen o (each (seqZ 0 (round s + 1)) (λ i k, (if i =? 0 then (λ k, k) else putc maxLen o 47)
    (fetch (rd (numActions s) i) (λ n, each (seqZ 0 n) (λ a k, fetch (rd2 (action s) i a) (λ act, fetch (rd2 (actingPlayer s) i a) (λ p,
       call maxLen o (printActingPlayerAction g act p) k))) k))) (finish maxLen o))); [intros K; apply K; lia|].
  apply safe_each; [|by apply safe_finish]. intros i k Hi%elem_of_seqZ K. destruct (len_row g s C i ltac:(lia)) as (L1 & L2 & L3). pose proof (cm_na _ _ C i ltac:(lia)).
  assert (i < Z.of_nat (length (actingPlayer s)) ∧ length (at_ (actingPlayer s) i) = 64%nat) as [L4 L5].
  { pose proof (cm_round _ _ C). pose proof (wd_rounds _ (cm_deal _ _ C)). split; [rewrite (ss_acting _ (cm_state _ _ C)); lia|]. apply (ss_acting2 _ (cm_state _ _ C)). lia. }
  cut (safe_from maxLen o (fetch (rd (numActions s) i) (λ n, each (seqZ 0 n) (λ a k, fetch (rd2 (action s) i a) (λ act, fetch (rd2 (actingPlayer s) i a) (λ p,
       call maxLen o (printActingPlayerAction g act p) k))) k))); [destruct (i =? 0); [done|by apply safe_putc]|].
  apply (safe_fetch _ _ _ (at_ (numActions s) i)); [apply rd_ok; lia|]. apply safe_each; [|done]. intros a k' Ha%elem_of_seqZ K'. destruct (Acts i a ltac:(lia) ltac:(lia)) as [Hp Hs].
  apply (safe_fetch _ _ _ (at2 (action s) i a)); [apply rd2_ok; lia|]. apply (safe_fetch _ _ _ (at2 (actingPlayer s) i a)); [apply rd2_ok; lia|].
  apply (safe_call maxLen o Ho Hm); [by apply printActingPlayerAction_safe|done].
Qed.

Lemma printSpent_safe : safe (printSpent g s).
Proof.
  intros maxLen o buf Ho Hm Hl. unfold printSpent. destruct (Z.ltb_spec maxLen 100); [exists 0, buf; split; [done|]; split; [done|lia]|]. rewrite Two.
  change (seqZ 0 2) with [0; 1]. cbn [each]. unfold setc at 1. rewrite wr_ok, bind_ok by lia. pose proof (ss_spent _ (cm_state _ _ C)).
  pose proof (dec_signed_short _ (Spent 0 ltac:(lia))). pose proof (dec_signed_short _ (Spent 1 ltac:(lia))). unfold fetch. rewrite (rd_ok (spent s) 0), bind_ok by lia.
  match goal with |- context [text _ _ ?t ?k ?c ?b] => destruct (text_fits maxLen o Ho Hm t k c b) as (b1 & -> & L1); [lia|lia|rewrite length_insert; lia|] end. rewrite length_insert in L1.
  unfold setc at 1. rewrite wr_ok, bind_ok by lia. rewrite (rd_ok (spent s) 1), bind_ok by lia.
  match goal with |- context [text _ _ ?t ?k ?c ?b] => destruct (text_fits maxLen o Ho Hm t k c b) as (b2 & -> & L2); [lia|lia|rewrite length_insert; lia|] end. rewrite length_insert in L2.
  unfold setc. rewrite wr_ok, bind_ok by lia. unfold finish. rewrite (proj2 (Z.leb_gt _ _)) by lia. rewrite wr_ok, bind_ok by (rewrite length_insert; lia).
  eexists _, _. split; [done|]. rewrite !length_insert. split; [congruence|lia].
Qed.

(** The text of a state of two players always fits a buffer of 256 bytes, or is refused. *)
Lemma printStateDetailed_ok buf : (∀ p c, 0 ≤ p < numPlayers g → c ∈ handOf g s p → is_card c) → (∀ i c, 0 ≤ i < numRounds g → c ∈ boardOf g s i → is_card c) →
  0 ≤ handId s < 4294967296 → length buf = 256%nat → ∃ r buf', printStateDetailed g s 255 0 buf = Ok (r, buf').
Proof.
  intros Hc Hb Hh Hl. unfold printStateDetailed. pose proof (wd_rounds _ (cm_deal _ _ C)).
  match goal with |- context [text _ _ ?t ?k ?c ?b] => destruct (text_fits 255 0 ltac:(lia) ltac:(lia) t k c b) as (b1 & -> & L1); [lia|cbn; lia|lia|] end.
  change (0 + Z.of_nat (length STATE_)) with 5. unfold call at 1.
  assert (∃ r buf', printStateCommonDetailed g s 250 5 b1 = Ok (r, buf') ∧ length buf' = length b1 ∧ r ≤ 250) as (r & b2 & E & L2 & Hr).
  { unfold printStateCommonDetailed. pose proof (dec_short (handId s) 10 ltac:(lia) ltac:(cbn; lia)).
    match goal with |- context [text _ _ ?t ?k ?c ?b] => destruct (text_fits 250 5 ltac:(lia) ltac:(lia) t k c b) as (b2 & -> & L2);
      [lia|cbn [length]; rewrite length_app; cbn [length]; lia|lia|] end.
    destruct (safe_call 250 5 ltac:(lia) ltac:(lia) (printDetailedBetting g s) (putc 250 5 58 (λ c buf, Ok (c, buf))) printDetailedBetting_safe
      (safe_putc 250 5 ltac:(lia) ltac:(lia) 58 _ (safe_stop 250 5)) (0 + Z.of_nat (length (58 :: dec (handId s) ++ [58]))) b2) as (r & b3 & E & L3 & Hr);
      [cbn [length]; rewrite length_app; cbn [length]; lia|lia|]. exists r, b3. split; [exact E|]. split; [congruence|done]. }
  change (255 - 5) with 250. change (0 + 5) with 5. rewrite E, bind_ok. destruct (Z.ltb_spec r 0); [by eexists _, _|].
  destruct (safe_call 255 0 ltac:(lia) ltac:(lia) _ _ (prints_safe _ _ _ _ (printAllHoleCards_prints g s C Hc))
    (safe_call 255 0 ltac:(lia) ltac:(lia) _ _ (prints_safe _ _ _ _ (print_board_prints g s C (numRounds g) ltac:(lia) Hb))
    (safe_call 255 0 ltac:(lia) ltac:(lia) _ _ printSpent_safe (safe_finish 255 0 ltac:(lia) ltac:(lia)))) (5 + r) b2) as (r' & b3 & E' & _); [lia|lia|]. exists r', b3. exact E'.
Qed.
End Detailed.

(** ** Claims *)

(** Every card a state shows is a card. *)
Record cards_ok (g : Game) (s : State) : Prop := {
  co_hole : ∀ p c, 0 ≤ p < numPlayers g → c ∈ handOf g s p → is_card c;
  co_board : ∀ i c, 0 ≤ i < round s + 1 → c ∈ boardOf g s i → is_card c
}.

(** C18: Given at least 18 bytes, [printState] either writes exactly the text of the state,
    with its terminator, and returns the length of the text, when that fits; or
    returns -1, when it does not.  It never writes past its [maxLen] bytes (the
    buffer ends there) and what stands in front of them is kept. *)
Theorem printState_exact g s maxLen o buf :
  comparable g s → cards_ok g s → 0 ≤ handId s < 4294967296 →
  0 ≤ o → 18 ≤ maxLen < 2147483648 → Z.of_nat (length buf) = o + maxLen →
  ∃ r buf', printState g s maxLen o buf = Ok (r, buf') ∧
    length buf' = length buf ∧ take (Z.to_nat o) buf' = take (Z.to_nat o) buf ∧
    if Z.of_nat (length (stateText g s)) <? maxLen
    then r = Z.of_nat (length (stateText g s)) ∧ ∃ rest, from buf' o = stateText g s ++ 0 :: rest
    else r = -1.
Proof.
  intros C [Hc Hb] Hh Ho Hm Hl.
  destruct (printState_prints g s C maxLen o buf Hh Hc Hb) as [(H & buf' & E & W)|(H & buf' & E & L & T)];
    [split; [lia|split; lia]|lia| |]; rewrite E; eexists _, buf'; (split; [done|]).
  - split; [apply W|]. destruct (writes_text _ _ _ _ W) as (rest & F & T). split; [done|].
    rewrite length_app in H. cbn [length] in H. rewrite (proj2 (Z.ltb_lt _ _)) by lia.
    split; [done|]. exists rest. by rewrite F, <-app_assoc.
  - split; [done|]. split; [done|]. by rewrite (proj2 (Z.ltb_ge _ _)) by lia.
Qed.

Definition blank (n : Z) : list Z := replicate (Z.to_nat n) 0.
(** The characters written, up to the terminator. *)
Fixpoint chars (l : list Z) : list Z :=
  match l with [] => [] | ch :: l => if ch =? 0 then [] else ch :: chars l end.

(** Two players' cards and a whole board. *)
Definition shown (s : State) : State :=
  set_holeCards (<[0%nat := [50; 47; 0]]> (<[1%nat := [0; 13; 0]]> (<[2%nat := [8; 20; 0]]> (holeCards zero_state))))
    (set_boardCards [1; 2; 3; 51; 33; 0; 0] s).

Lemma comparable_shown acts :
  play nolimit3p acts (started nolimit3p) = Ok (played nolimit3p acts) →
  comparable nolimit3p (shown (played nolimit3p acts)).
Proof.
  intros E. destruct (played_comparable nolimit3p 7 (started nolimit3p) (length acts) (played nolimit3p acts))
    as [Wd [] Hr Hn]; [apply nolimit3p_wf|apply nolimit3p_deal|apply started_nolimit3p|by apply played_steps|].
  split; [done| |done|done]. split; try done. intros p Hp. do 10 (destruct p as [|p]; [done|]). lia.
Qed.

Lemma forallb_cards (l : list Z) : forallb (λ c, (0 <=? c) && (c <? 52)) l = true → ∀ c, c ∈ l → is_card c.
Proof.
  intros H c Hc. rewrite forallb_forall in H. apply list_elem_of_In in Hc. specialize (H c Hc).
  unfold is_card. lia.
Qed.

Lemma cards_shown acts :
  round (played nolimit3p acts) < 4 → cards_ok nolimit3p (shown (played nolimit3p acts)).
Proof.
  intros Hr. split.
  - intros p c Hp Hc. revert c Hc. apply forallb_cards.
    assert (p = 0 ∨ p = 1 ∨ p = 2) as [->|[->| ->]] by (cbn in Hp; lia); reflexivity.
  - intros i c Hi Hc. revert c Hc. apply forallb_cards. cbn [shown round set_holeCards set_boardCards] in Hi.
    assert (i = 0 ∨ i = 1 ∨ i = 2 ∨ i = 3) as [->|[->|[->| ->]]] by lia; reflexivity.
Qed.

(** "STATE:7:r300cc/r900:AhKs|..." fits in 60 bytes. *)
Lemma printState_exact_witness :
  ∃ r buf', printState nolimit3p (shown (played nolimit3p [r_ 300; c_; c_; r_ 900])) 60 4 (blank 64) = Ok (r, buf') ∧
    length buf' = 64%nat ∧ take 4 buf' = take 4 (blank 64) ∧
    if Z.of_nat (length (stateText nolimit3p (shown (played nolimit3p [r_ 300; c_; c_; r_ 900])))) <? 60
    then r = Z.of_nat (length (stateText nolimit3p (shown (played nolimit3p [r_ 300; c_; c_; r_ 900])))) ∧
      ∃ rest, from buf' 4 = stateText nolimit3p (shown (played nolimit3p [r_ 300; c_; c_; r_ 900])) ++ 0 :: rest
    else r = -1.
Proof.
  apply (printState_exact nolimit3p (shown (played nolimit3p [r_ 300; c_; c_; r_ 900])) 60 4 (blank 64)).
  - apply comparable_shown. vm_compute. reflexivity.
  - apply cards_shown. vm_compute. reflexivity.
  - vm_compute. split; [discriminate|reflexivity].
  - lia.
  - lia.
  - reflexivity.
Defined.

(** [printState] adds the length [snprintf] reports to its count without comparing it
    with the room: with [maxLen] 3 the room left becomes negative, a huge [size_t],
    and the header is written past the three bytes. *)
Fact printState_small_overflow :
  printState nolimit3p (started nolimit3p) 3 0 (blank 3) = Err OutOfBounds.
Proof. vm_compute. reflexivity. Qed.

(** [printActingPlayerAction] asks for 12 bytes, which a raise of ten digits exceeds:
    the closing bracket is stored past them. *)
Fact printActingPlayerAction_overflow :
  printActingPlayerAction nolimit3p (r_ 1000000000) 1 12 0 (blank 12) = Err OutOfBounds.
Proof. vm_compute. reflexivity. Qed.

(** [toPythonCards] puts a separator in front of every hole card: before the flop,
    when there are no board cards, the text starts with it ("-Ah-Ks"). *)
Fact toPythonCards_leading_separator :
  chars (match toPythonCards nolimit3p (shown (started nolimit3p)) 0 32 0 (blank 32) with Ok (_, b) => b | Err _ => [] end)
  = [45; 65; 104; 45; 75; 115].
Proof. vm_compute. reflexivity. Qed.

(** [printAllCards] passes [numRounds] to [sumBoardCards], whose loop includes it: in a
    game of four rounds it reads [numBoardCards[ 4 ]]. *)
Fact printAllCards_out_of_bounds :
  printAllCards nolimit3p (shown (started nolimit3p)) 0 (blank 256) = Err OutOfBounds.
Proof. vm_compute. reflexivity. Qed.
