(* ===== verification/Read.v ===== *)
(** * Reading states ([read...] of [Common/acpc/src/game.c])

    The readers of actions, cards, betting, states and match states, and the round
    trips: what [printState] and [printMatchState] write for a hand in progress,
    the readers read back as the same hand. *)

From stdpp Require Import base list list_numbers numbers option sets.
From S2P Require Import Prelude GameDef Betting BettingSpec BettingInv BettingStep BettingKeep BettingThm Deal StateEq Text Print.
Open Scope Z_scope.

(** [charToAction]: a row per sixteen characters, [0x00] to [0xFF]. *)
Definition invalid16 : list ActionType := replicate 16 a_invalid.
(** Rows [0x4X] and [0x6X]: "bB" raises, "cC" and "kK" call, "fF" folds. *)
Definition bcfk16 : list ActionType :=
  [a_invalid; a_invalid; a_raise; a_call; a_invalid; a_invalid; a_fold; a_invalid;
   a_invalid; a_invalid; a_invalid; a_call; a_invalid; a_invalid; a_invalid; a_invalid].
(** Rows [0x5X] and [0x7X]: "rR" raises. *)
Definition r16 : list ActionType :=
  [a_invalid; a_invalid; a_raise; a_invalid; a_invalid; a_invalid; a_invalid; a_invalid;
   a_invalid; a_invalid; a_invalid; a_invalid; a_invalid; a_invalid; a_invalid; a_invalid].
Definition charToAction : list ActionType :=
  invalid16 ++ invalid16 ++ invalid16 ++ invalid16 ++ bcfk16 ++ r16 ++ bcfk16 ++ r16 ++
  invalid16 ++ invalid16 ++ invalid16 ++ invalid16 ++ invalid16 ++ invalid16 ++ invalid16 ++ invalid16.

(** The result is [(return value, *action)]. *)
Definition readAction (string : list Z) (game : Game) (a : Action) : res (Z * Action) :=
  ch ← rdp string 0;
  t ← rd charToAction (u8 ch);
  let a := mkAction t (size a) in
  if ActionType_code t <? 0 then Ok (-1, a) else
  if bool_decide (t = a_raise ∧ bettingType game = noLimitBetting) then
    o ← scan_i32 (from string 1);
    match o with
    | None => Ok (-1, a)
    | Some (v, r) => Ok (1 + r, mkAction t v)
    end
  else Ok (1, mkAction t 0).

(** The result is the card read, if one was. *)
Definition readCard (string : list Z) : res (option Z) :=
  ch ← rdp string 0;
  if ch =? 0 then Ok None else
  spos ← strchr rankChars (toupper ch);
  match spos with
  | None => Ok None
  | Some c =>
      ch ← rdp string 1;
      if ch =? 0 then Ok None else
      spos ← strchr suitChars (tolower ch);
      match spos with
      | None => Ok None
      | Some s => Ok (Some (u8 (makeCard c s)))
      end
  end.

(** [cards] points at place [b] of an array; the result is the number of cards read,
    [*charsConsumed] and the array. *)
Definition readCards (string : list Z) (maxCards : Z) (cards : list Z) (b : Z) : res (Z * Z * list Z) :=
  o ← forR 0 maxCards (0, cards) (λ i '(c, cards),
        r ← readCard (from string c);
        match r with
        | None => Ok (inr (i, c, cards))
        | Some card => cards ← wr cards (b + i) card; Ok (inl (c + 2, cards))
        end);
  Ok (match o with inl (c, cards) => (Z.max 0 maxCards, c, cards) | inr x => x end).

(** [action] is a local of the loop, not initialised; its size is only read when it was
    set.  Each iteration consumes a character, so the characters bound the loop. *)
Fixpoint readBetting_loop (fuel : nat) (string : list Z) (game : Game) (c : Z) (s : State) : res (Z * State) :=
  match fuel with
  | O => Err OutOfFuel
  | S fuel =>
      ch ← rdp string c;
      if ch =? 0 then Ok (c, s) else
      if ch =? 58 then Ok (c + 1, s) else
      if ch =? 47 then readBetting_loop fuel string game (c + 1) s else
      '(r, a) ← readAction (from string c) game (mkAction a_invalid 0);
      if r <? 0 then Ok (-1, s) else
      '(ok, a) ← isValidAction game s 0 a;
      if ok =? 0 then Ok (-1, s) else
      '(s, _) ← doAction game a s;
      readBetting_loop fuel string game (c + r) s
  end.
Definition readBetting (string : list Z) (game : Game) (s : State) : res (Z * State) :=
  readBetting_loop (S (length string)) string game 0 s.

(** Skips a separator when it is there. *)
Definition skip_sep (string : list Z) (sep i c : Z) : res Z :=
  if i =? 0 then Ok c else ch ← rdp string c; Ok (if ch =? sep then c + 1 else c).

Definition readHoleCards (string : list Z) (game : Game) (s : State) : res (Z * State) :=
  o ← forR 0 (numPlayers game) (0, s) (λ p '(c, s),
        c ← skip_sep string 124 p c;
        row ← rd (holeCards s) p;
        '(num, r, row) ← readCards (from string c) (numHoleCards game) row 0;
        hc ← wr (holeCards s) p row;
        let s := set_holeCards hc s in
        if num =? 0 then Ok (inl (c, s)) else
        if num =? numHoleCards game then Ok (inl (c + r, s)) else Ok (inr s));
  Ok (match o with inl x => x | inr s => (-1, s) end).

Definition readBoardCards (string : list Z) (game : Game) (s : State) : res (Z * State) :=
  o ← forR 0 (round s + 1) (0, s) (λ i '(c, s),
        c ← skip_sep string 47 i c;
        nb ← rd (numBoardCards game) i;
        b ← bcStart game i;
        '(num, r, bc) ← readCards (from string c) nb (boardCards s) b;
        let s := set_boardCards bc s in
        nb ← rd (numBoardCards game) i;
        if num =? nb then Ok (inl (c + r, s)) else Ok (inr s));
  Ok (match o with inl x => x | inr s => (-1, s) end).

Definition readStateCommon (string : list Z) (game : Game) (s : State) : res (Z * State) :=
  lit ← literal [58] string;
  if negb lit then Ok (-1, s) else
  o ← scan_unsigned 4294967295 (from string 1);
  match o with
  | None => Ok (-1, s)
  | Some (handId, n) =>
      let c := 1 + n in
      s ← initState game handId s;
      ch ← rdp string c;
      if negb (ch =? 58) then Ok (-1, s) else
      let c := c + 1 in
      '(r, s) ← readBetting (from string c) game s;
      if r <? 0 then Ok (-1, s) else
      let c := c + r in
      '(r, s) ← readHoleCards (from string c) game s;
      if r <? 0 then Ok (-1, s) else
      let c := c + r in
      '(r, s) ← readBoardCards (from string c) game s;
      if r <? 0 then Ok (-1, s) else Ok (c + r, s)
  end.

Definition readState (string : list Z) (game : Game) (s : State) : res (Z * State) :=
  same ← literal STATE_ string;
  if negb same then Ok (-1, s) else
  '(r, s) ← readStateCommon (from string 5) game s;
  if r <? 0 then Ok (-1, s) else Ok (5 + r, s).

Definition readMatchState (string : list Z) (game : Game) (ms : MatchState) : res (Z * MatchState) :=
  lit ← literal MATCHSTATE_ string;
  if negb lit then Ok (-1, ms) else
  o ← scan_unsigned 255 (from string 11);
  match o with
  | None => Ok (-1, ms)
  | Some (v, n) =>
      let ms := mkMatchState (state ms) v in
      if numPlayers game <=? v then Ok (-1, ms) else
      '(r, s) ← readStateCommon (from string (11 + n)) game (state ms);
      let ms := mkMatchState s v in
      if r <? 0 then Ok (-1, ms) else Ok (11 + n + r, ms)
  end.

(** ** Cards *)
Lemma rank_char r : 0 ≤ r < 13 →
  (at_ rankChars r =? 0) = false ∧ strchr rankChars (toupper (at_ rankChars r)) = Ok (Some r).
Proof.
  intros Hr. assert (r ∈ seqZ 0 13) as Hin by (apply elem_of_seqZ; lia). revert r Hr Hin.
  assert (Forall (λ r, (at_ rankChars r =? 0) = false ∧ strchr rankChars (toupper (at_ rankChars r)) = Ok (Some r))
    (seqZ 0 13)) as H by (repeat constructor).
  rewrite Forall_forall in H. auto.
Qed.

Lemma suit_char s : 0 ≤ s < 4 →
  (at_ suitChars s =? 0) = false ∧ strchr suitChars (tolower (at_ suitChars s)) = Ok (Some s).
Proof.
  intros Hs. assert (s = 0 ∨ s = 1 ∨ s = 2 ∨ s = 3) as [->|[->|[->| ->]]] by lia; by split.
Qed.

(** A printed card reads back. *)
Lemma readCard_text c rest : is_card c → readCard (cardText c ++ rest) = Ok (Some c).
Proof.
  intros Hc. destruct (card_parts c Hc) as [Hs Hr]. destruct (rank_char _ Hr) as [R0 R1].
  destruct (suit_char _ Hs) as [S0 S1]. unfold readCard, cardText. cbn [app].
  rewrite rdp_hd, bind_ok, R0, R1, bind_ok. change (rdp _ 1) with (Ok (at_ suitChars (suitOfCard c))).
  rewrite bind_ok, S0, S1, bind_ok, makeCard_rank_suit. unfold is_card in Hc. by rewrite u8_small by lia.
Qed.

(** A character that starts no card. *)
Definition nocard (ch : Z) : Prop := ch = 0 ∨ strchr rankChars (toupper ch) = Ok None.

Lemma readCard_none ch rest : nocard ch → readCard (ch :: rest) = Ok None.
Proof.
  intros H. unfold readCard. rewrite rdp_hd, bind_ok. destruct (Z.eqb_spec ch 0); [done|].
  destruct H as [?| ->]; [done|]. done.
Qed.

Lemma cardsText_length l : length (cardsText l) = (2 * length l)%nat.
Proof. unfold cardsText. induction l as [|c l IH]; [done|]. cbn in *. lia. Qed.

Lemma cardsText_app l l' : cardsText (l ++ l') = cardsText l ++ cardsText l'.
Proof. unfold cardsText. by rewrite fmap_app, concat_app. Qed.

Lemma cardsText_drop l rest i : 0 ≤ i < Z.of_nat (length l) →
  from (cardsText l ++ rest) (2 * i) = cardText (at_ l i) ++ (cardsText (drop (S (Z.to_nat i)) l) ++ rest).
Proof.
  intros Hi. rewrite <-(take_drop (Z.to_nat i) l) at 1. rewrite cardsText_app, <-app_assoc, from_app.
  - rewrite (drop_S l (at_ l i)); [by rewrite app_assoc|]. unfold at_. apply list_lookup_lookup_total_lt. lia.
  - rewrite cardsText_length, length_take. lia.
Qed.

(** The array [cards] with [l] stored from place [b] on. *)
Record stored (cards : list Z) (b : Z) (l cards' : list Z) : Prop := {
  sd_len : length cards' = length cards;
  sd_at : ∀ j, 0 ≤ j → at_ cards' j =
    if (b <=? j) && (j <? b + Z.of_nat (length l)) then at_ l (j - b) else at_ cards j
}.

Lemma stored_nil cards b : stored cards b [] cards.
Proof.
  split; [done|]. intros j Hj. cbn [length].
  destruct (Z.leb_spec b j), (Z.ltb_spec j (b + Z.of_nat 0)); cbn; done || lia.
Qed.

Lemma readCards_text l rest cards b :
  Forall is_card l → 0 ≤ b → b + Z.of_nat (length l) ≤ Z.of_nat (length cards) →
  ∃ cards', readCards (cardsText l ++ rest) (Z.of_nat (length l)) cards b =
      Ok (Z.of_nat (length l), Z.of_nat (length (cardsText l)), cards') ∧ stored cards b l cards'.
Proof.
  intros Hl Hb Hf. unfold readCards.
  destruct (forR_inv (λ i '(c, cards'), c = 2 * i ∧ stored cards b (take (Z.to_nat i) l) cards')
    (λ _ : Z * Z * list Z, False) 0 (Z.of_nat (length l)) (0, cards)
    (λ i '(c, cards), r ← readCard (from (cardsText l ++ rest) c);
        match r with
        | None => Ok (inr (i, c, cards))
        | Some card => cards ← wr cards (b + i) card; Ok (inl (c + 2, cards))
        end)) as [([c cards'] & -> & -> & Sd)|(? & _ & [])]; [lia|split; [done|apply stored_nil]| |].
  - intros i [c cs] Hi [-> [L A]]. left. rewrite cardsText_drop by lia.
    assert (is_card (at_ l i)) as Hc.
    { rewrite Forall_forall in Hl. apply Hl. unfold at_. apply list_elem_of_lookup_total_2. lia. }
    rewrite (readCard_text _ _ Hc), bind_ok. rewrite wr_ok, bind_ok by lia. eexists. split; [done|].
    split; [lia|]. split; [by rewrite length_insert|]. intros j Hj. rewrite at_insert by lia.
    rewrite A by done. rewrite !length_take, !Nat.min_l by lia. rewrite !Z2Nat.id by lia.
    destruct (decide (b + i = j)) as [<-|].
    + rewrite (proj2 (Z.leb_le b (b + i))), (proj2 (Z.ltb_lt (b + i) _)) by lia. cbn [andb].
      replace (b + i - b) with i by lia. unfold at_. by rewrite lookup_total_take_lt by lia.
    + destruct (Z.leb_spec b j), (Z.ltb_spec j (b + i)), (Z.ltb_spec j (b + (i + 1))); cbn [andb]; try lia; [|done..].
      unfold at_. by rewrite !lookup_total_take_lt by lia.
  - exists cards'. rewrite bind_ok, cardsText_length. split; [do 3 f_equal; lia|].
    by rewrite take_ge in Sd by lia.
Qed.

Lemma readCards_none ch rest n cards b :
  nocard ch → readCards (ch :: rest) n cards b = Ok (0, 0, cards).
Proof.
  intros H. unfold readCards, forR. destruct (Z.lt_ge_cases 0 n).
  - rewrite seqZ_cons by lia. cbn [foldR]. rewrite from_0, readCard_none by done. done.
  - rewrite seqZ_nil_le by lia. cbn. by rewrite Z.max_l by lia.
Qed.

(** ** Betting *)

(** The action the text of [a] reads back as. *)
Definition reread (g : Game) (a : Action) : Action :=
  mkAction (type a) (if bool_decide (bettingType g = noLimitBetting ∧ type a = a_raise) then size a else 0).
Definition readable (g : Game) (a : Action) : Prop :=
  type a ≠ a_invalid ∧
  (bettingType g = noLimitBetting → type a = a_raise → 0 ≤ size a ≤ INT32_MAX).

Lemma from_from s a b : 0 ≤ a → 0 ≤ b → from s (a + b) = from (from s a) b.
Proof. intros. unfold from. rewrite drop_drop. f_equal. lia. Qed.
Lemma rdp_from s c : 0 ≤ c → rdp s c = rdp (from s c) 0.
Proof.
  intros. unfold rdp, rd, from. destruct (Z.ltb_spec c 0); [lia|]. cbn [Z.ltb Z.compare].
  by rewrite lookup_drop, Nat.add_0_r.
Qed.

Lemma action_char t : t ≠ a_invalid →
  let ch := at_ actionChars (ActionType_code t) in
  rd charToAction (u8 ch) = Ok t ∧ (ch =? 0) = false ∧ (ch =? 58) = false ∧ (ch =? 47) = false.
Proof. by destruct t. Qed.

Lemma readAction_text g a ch rest a0 :
  readable g a → isdigit ch = false →
  readAction (actText g a ++ ch :: rest) g a0 = Ok (Z.of_nat (length (actText g a)), reread g a).
Proof.
  intros [Ht Hz] Hch. destruct (action_char _ Ht) as [E _]. unfold readAction, actText.
  rewrite <-app_comm_cons, rdp_hd, bind_ok, E, bind_ok. cbv zeta.
  pose proof (code_range (type a)). rewrite (proj2 (Z.ltb_ge _ 0)) by lia. unfold reread.
  change (from (?x :: ?l) 1) with l.
  destruct (bool_decide_reflect (type a = a_raise ∧ bettingType g = noLimitBetting)) as [[H1 H2]|Hn].
  - rewrite bool_decide_true by done. specialize (Hz H2 H1). unfold dec_signed.
    rewrite (proj2 (Z.ltb_ge (size a) 0)) by lia. rewrite scan_i32_dec by done. rewrite bind_ok.
    do 2 f_equal. cbn [length]. lia.
  - by rewrite bool_decide_false by tauto.
Qed.

Lemma play_cons g a acts s s1 : play g (a :: acts) s = Ok s1 →
  ∃ a' s2 e, isValidAction g s 0 a = Ok (1, a') ∧ doAction g a' s = Ok (s2, e) ∧ play g acts s2 = Ok s1.
Proof.
  unfold play. cbn [foldM]. intros Hp. apply bind_Ok_inv in Hp as (s2 & E & Hp).
  apply bind_Ok_inv in E as ([ok a'] & Ev & E). destruct (Z.eqb_spec ok 1) as [->|]; [|done].
  apply bind_Ok_inv in E as ([s2' e] & Ed & [= ->]). eauto 10.
Qed.

Section ReadBetting.
Context (g : Game) (string : list Z).

(** The actions of a round are validated and played as they are read. *)
Lemma loop_acts acts fuel c s s1 ch rest :
Forall (readable g) acts → isdigit ch = false → 0 ≤ c →
from string c = concat (actText g <$> acts) ++ ch :: rest →
play g (reread g <$> acts) s = Ok s1 → (length acts ≤ fuel)%nat →
readBetting_loop fuel string g c s =
readBetting_loop (fuel - length acts) string g (c + Z.of_nat (length (concat (actText g <$> acts)))) s1.
Proof.
intros Hr Hch. revert fuel c s. induction Hr as [|a acts Ha _ IH]; intros fuel c s Hc Hs Hp Hf.
- cbn in *. injection Hp as <-. by rewrite Nat.sub_0_r, Z.add_0_r.
- destruct fuel as [|fuel]; cbn [length] in Hf; [lia|]. cbn [readBetting_loop].
  cbn [fmap list_fmap concat] in *.
  assert (∃ ch' rest', concat (actText g <$> acts) ++ ch :: rest = ch' :: rest' ∧ isdigit ch' = false)
    as (ch' & rest' & Eh & Hd).
  { destruct acts as [|b acts]; [by exists ch, rest|]. cbn. eexists _, _. split; [done|].
    by destruct (type b). }
  cbn [list_fmap concat] in Hs. rewrite <-app_assoc in Hs.
  destruct (action_char (type a)) as (_ & E0 & E58 & E47); [apply Ha|].
  rewrite rdp_from, Hs by done.
  change (rdp (actText g a ++ _) 0) with (Ok (at_ actionChars (ActionType_code (type a)))).
  rewrite bind_ok, E0, E58, E47.
  rewrite Eh, readAction_text, bind_ok by done. rewrite (proj2 (Z.ltb_ge _ 0)) by lia.
  destruct (play_cons _ _ _ _ _ Hp) as (a' & s2 & e & Ev & Ed & Hp').
  rewrite Ev. cbn [mbind res_bind Z.eqb]. rewrite Ed. cbn [mbind res_bind].
  rewrite (IH fuel (c + Z.of_nat (length (actText g a))) s2); [|lia| |done|lia].
  + cbn [length Nat.sub]. f_equal. rewrite length_app. lia.
  + rewrite from_from, Hs by lia. by rewrite from_app.
Qed.

Definition roundsText (f : Z → list Action) (l : list Z) : list Z :=
concat ((λ i, sep 47 i ++ concat (actText g <$> f i)) <$> l).

Lemma acts_short acts : Forall (readable g) acts → (length acts ≤ length (concat (actText g <$> acts)))%nat.
Proof. induction 1 as [|a acts _ _ IH]; cbn; [lia|]. rewrite length_app. lia. Qed.

Lemma rounds_head f l rest : Forall (λ i, i ≠ 0) l →
∃ ch rest', roundsText f l ++ 58 :: rest = ch :: rest' ∧ isdigit ch = false.
Proof.
intros Hl. destruct Hl as [|i l Hi _]; [by eexists _, _|]. unfold roundsText, sep. cbn.
destruct (Z.eqb_spec i 0); [done|]. by eexists _, _.
Qed.

(** One round and what follows it. *)
Lemma loop_round f i fuel c s s1 tail ch rest :
Forall (readable g) (f i) → 0 ≤ c → tail = ch :: rest → isdigit ch = false →
from string c = (sep 47 i ++ concat (actText g <$> f i)) ++ tail →
play g (reread g <$> f i) s = Ok s1 →
(length (sep 47 i ++ concat (actText g <$> f i)) ≤ fuel)%nat →
∃ fuel', (fuel ≤ fuel' + length (sep 47 i ++ concat (actText g <$> f i)))%nat ∧
  readBetting_loop fuel string g c s =
  readBetting_loop fuel' string g (c + Z.of_nat (length (sep 47 i ++ concat (actText g <$> f i)))) s1.
Proof.
intros Hr Hc -> Hch Hs Hp Hf. pose proof (acts_short _ Hr) as Ha. unfold sep in *.
destruct (i =? 0).
- cbn [app] in *. exists (fuel - length (f i))%nat. split; [lia|]. by eapply loop_acts; [..|lia].
- rewrite <-app_assoc in Hs. cbn [app length] in *. destruct fuel as [|fuel]; [lia|].
  exists (fuel - length (f i))%nat. split; [lia|]. cbn [readBetting_loop].
  rewrite rdp_from, Hs by done. rewrite rdp_hd, bind_ok. cbn [Z.eqb Pos.eqb].
  rewrite (loop_acts (f i) fuel (c + 1) s s1 ch rest); [|done|done|lia| |done|lia].
  + f_equal. lia.
  + rewrite from_from, Hs by lia. done.
Qed.

Lemma loop_rounds f l rest : ∀ fuel c s s1,
Forall (λ i, i ≠ 0) l → Forall (readable g) (concat (f <$> l)) → 0 ≤ c →
from string c = roundsText f l ++ 58 :: rest →
play g (reread g <$> concat (f <$> l)) s = Ok s1 → (length (roundsText f l) < fuel)%nat →
readBetting_loop fuel string g c s = Ok (c + Z.of_nat (length (roundsText f l)) + 1, s1).
Proof.
induction l as [|i l IH]; intros fuel c s s1 Hl Hr Hc Hs Hp Hf.
- cbn in *. injection Hp as <-. destruct fuel as [|fuel]; [lia|]. cbn [readBetting_loop].
  rewrite rdp_from, Hs, rdp_hd, bind_ok by done. cbn. do 2 f_equal. lia.
- inversion Hl as [|? ? Hi Hl']; subst. unfold roundsText in *. cbn [fmap list_fmap concat] in *.
  rewrite Forall_app in Hr. destruct Hr as [Hr Hr']. rewrite fmap_app in Hp.
  unfold play in Hp. rewrite foldM_app in Hp. apply bind_Ok_inv in Hp as (s2 & Hp & Hp').
  rewrite <-app_assoc in Hs. destruct (rounds_head f l rest Hl') as (ch & rest' & Eh & Hd).
  rewrite length_app in *. cbn [list_fmap] in *.
  destruct (loop_round f i fuel c s s2 _ ch rest' Hr Hc Eh Hd Hs Hp) as (fuel' & Hf' & ->); [lia|].
  unfold roundsText in *.
  rewrite (IH fuel' (c + Z.of_nat (length (sep 47 i ++ concat (actText g <$> f i)))) s2 s1); try done.
  + do 2 f_equal. lia.
  + lia.
  + rewrite from_from, Hs by lia. by apply from_app.
  + lia.
Qed.
End ReadBetting.

Lemma readBetting_text g s0 s1 rest :
  0 ≤ round s1 → Forall (readable g) (concat (history s1)) →
  play g (reread g <$> concat (history s1)) s0 = Ok s1 →
  readBetting (bettingText g s1 47 ++ 58 :: rest) g s0 = Ok (Z.of_nat (length (bettingText g s1 47)) + 1, s1).
Proof.
  intros Hr Hf Hp. unfold readBetting, history in *. change (bettingText g s1 47) with
    (roundsText g (roundActions s1) (seqZ 0 (round s1 + 1))).
  rewrite seqZ_cons in * by lia. set (l := seqZ _ _) in *.
  assert (Forall (λ i, i ≠ 0) l) as Hl by (apply Forall_forall; intros i Hi%elem_of_seqZ; lia).
  set (string := roundsText _ _ _ ++ _).
  assert (string = (sep 47 0 ++ concat (actText g <$> roundActions s1 0)) ++ roundsText g (roundActions s1) l ++ 58 :: rest)
    as Es by (unfold string, roundsText; cbn [fmap list_fmap concat]; by rewrite <-!app_assoc).
  cbn [fmap list_fmap concat] in Hf, Hp. apply Forall_app in Hf as [Hf Hf']. rewrite fmap_app in Hp.
  unfold play in Hp. rewrite foldM_app in Hp. apply bind_Ok_inv in Hp as (s2 & Hp & Hp').
  destruct (rounds_head g (roundActions s1) l rest Hl) as (ch & rest' & Eh & Hd).
  destruct (loop_round g string (roundActions s1) 0 (S (length string)) 0 s0 s2 _ ch rest' Hf ltac:(lia) Eh Hd Es Hp)
    as (fuel' & Hf'' & ->). { rewrite Es, !length_app. lia. }
  rewrite (loop_rounds g string (roundActions s1) l rest fuel' _ s2 s1 Hl Hf'); [|lia| |done|].
  - unfold roundsText at 2. cbn [fmap list_fmap concat]. do 2 f_equal. unfold roundsText. rewrite !length_app. cbn [list_fmap]. lia.
  - rewrite Z.add_0_l. rewrite Es at 1. by apply from_app.
  - rewrite Es, !length_app in Hf''. lia.
Qed.

(** ** Replaying a hand *)

(** In a limit game the sizes of raises are not printed: they must be zero, as
    [readAction] leaves them. *)
Definition unsized (g : Game) (s : State) : Prop :=
  bettingType g = limitBetting → Forall (λ a, type a = a_raise → size a = 0) (allActions g s).

Lemma raiseIsValid_range g s mn mx ok lo hi :
  bettingType g = noLimitBetting → ok ≠ 0 → raiseIsValid g s mn mx = Ok (ok, lo, hi) → lo ≤ hi.
Proof.
  intros Hb Hok E. unfold raiseIsValid in E. inv_ok.
  repeat (case_match; inv_ok; try done); repeat match goal with H : (_ <? _) = false |- _ => apply Z.ltb_ge in H end; lia.
Qed.

(** An accepted action is accepted again as it stands. *)
Lemma revalid g s t a a' :
  isValidAction g s t a = Ok (1, a') → isValidAction g s 0 a' = Ok (1, a').
Proof.
  unfold isValidAction. destruct (nz (stateFinished s)); [done|].
  destruct a as [ty z]. cbn [orb type size]. case_bool_decide as Hi; [done|].
  destruct (currentPlayer g s) as [p|]; [|done]. cbn [mbind res_bind].
  destruct ty; [| | |done].
  - destruct (rd (spent s) p) as [sp|]; [|done]. cbn. destruct (rd (stack g) p) as [st|]; [|done]. cbn.
    destruct (sp =? st); intros [= <-]. done.
  - intros [= <-]. done.
  - destruct (raiseIsValid g s 0 0) as [[[ok lo] hi]|] eqn:ER; [|done]. cbn.
    destruct (Z.eqb_spec ok 0); [done|]. case_decide.
    + assert (lo ≤ hi) as Hlh by (eapply raiseIsValid_range; [done|done|by rewrite ER]).
      destruct (Z.ltb_spec z lo), (Z.ltb_spec hi z); try destruct (t =? 0); intros [= <-]; cbn;
        repeat (rewrite (proj2 (Z.ltb_ge _ _)) by lia); done.
    + by intros [= <-].
Qed.

(** An accepted action that is no raise has size 0. *)
Lemma accepted_unsized g s t a a' :
  isValidAction g s t a = Ok (1, a') → type a' = a_raise ∨ size a' = 0.
Proof.
  unfold isValidAction. destruct (nz (stateFinished s)); [done|].
  destruct a as [ty z]. cbn [orb type size]. case_bool_decide as Hi; [done|].
  destruct (currentPlayer g s) as [p|]; [|done]. cbn [mbind res_bind].
  destruct ty; [| | |done].
  - intros E. right. inv_ok. repeat case_match; by simplify_eq.
  - intros [= <-]. by right.
  - destruct (raiseIsValid g s 0 0) as [[[ok lo] hi]|]; [|done]. cbn.
    intros E. left. repeat case_match; by simplify_eq.
Qed.

(** A step plays an action that reads back from what it records. *)
Lemma step_reread g s s' :
  wf_game g → inv g s → step g s s' → ∃ a r,
    isValidAction g s 0 a = Ok (1, a) ∧ (∃ e, doAction g a s = Ok (s', e)) ∧
    allActions g s' = allActions g s ++ [r] ∧ readable g r ∧
    ((bettingType g = limitBetting → type r = a_raise → size r = 0) → reread g r = a).
Proof.
  intros Wf I St. destruct St as [s_ t a0 a s_' e Ev Ed]. pose proof (accepted_unsized _ _ _ _ _ Ev) as Hz.
  destruct (accepted_step g s_ t a0 a Wf I Ev) as (Open & p & Hcur & Hp & Va & m & f & M & Ed').
  destruct (inv_open _ _ I Open) as (_ & m0 & f0 & BW & Hlt).
  destruct (current_exists g s_ Wf I Open) as (p' & Hfirst & Hcur' & _). assert (p' = p) as -> by congruence.
  exists a, (recorded g s_ a p). split; [by eapply revalid|]. split; [by exists e|].
  split; [|split].
  - rewrite Ed in Ed'. injection Ed' as E.
    replace s_' with (fst (ended g (applied g s_ a p) m)) by (by rewrite <-E).
    rewrite allActions_ended. apply allActions_applied; try done. by eapply turn_room.
  - split; [cbn; unfold valid_act in Va; by destruct (type a)|]. cbn. intros Hb Ht. rewrite Ht.
    destruct (raise_facts g s_ p (inv_chips _ _ I) a Va Ht) as (_ & _ & Hs). specialize (Hs Hb).
    pose proof (maxSpent_nonneg g s_ (inv_chips _ _ I)). pose proof (wg_stack _ Wf p Hp). lia.
  - unfold reread, recorded. cbn [type size]. intros Hl. destruct a as [ty z]. cbn [type size] in *.
    destruct ty; cbn in *; try (rewrite bool_decide_false by (intros [? ?]; done); destruct Hz; by subst).
    case_bool_decide as Hb; [done|]. f_equal. symmetry. apply Hl; [|done]. destruct (bettingType g); tauto.
Qed.

Lemma play_snoc g acts a s s1 s2 e :
  play g acts s = Ok s1 → isValidAction g s1 0 a = Ok (1, a) → doAction g a s1 = Ok (s2, e) →
  play g (acts ++ [a]) s = Ok s2.
Proof.
  intros Hp Ev Ed. unfold play in *. rewrite foldM_app, Hp, bind_ok. cbn [foldM].
  rewrite Ev, bind_ok. cbn [Z.eqb Pos.eqb]. rewrite Ed. done.
Qed.

Lemma replay g h s k s' :
  wf_game g → starts g h s → steps g k s s' → unsized g s' →
  Forall (readable g) (allActions g s') ∧ play g (reread g <$> allActions g s') s = Ok s'.
Proof.
  intros Wf Hs St. induction St as [s|k s s' s'' St IH Hst]; intros Hu.
  - assert (allActions g s = []) as ->; [|by split].
    pose proof (steps_length g h s 0 s Wf Hs ltac:(constructor)). by destruct (allActions g s).
  - destruct (step_reread g s' s'' Wf (steps_inv g h s k s' Wf Hs St) Hst) as (a & r & Ev & (e & Ed) & E & Hr & Er).
    unfold unsized in Hu. rewrite E in *. destruct (IH Hs) as [Hf Hp].
    { intros Hb. by apply (proj1 (Forall_app _ _ _)) in Hu as [? _]. }
    split; [by apply Forall_app; split; [|constructor]|]. rewrite fmap_app. cbn [fmap list_fmap].
    rewrite Er; [by eapply play_snoc|]. intros Hb.
    apply (proj1 (Forall_app _ _ _)) in Hu as [_ Hu]; [|done]. by inversion Hu.
Qed.

(** ** Hole and board cards *)

(** The hands of the players in [vis]; nothing stands for the others'. *)
Definition handsText (g : Game) (s : State) (vis : Z → bool) : list Z :=
  concat ((λ p, sep 124 p ++ (if vis p then cardsText (handOf g s p) else [])) <$> seqZ 0 (numPlayers g)).

Lemma skip_sep_text string ch i c t :
  0 ≤ c → from string c = sep ch i ++ t →
  ∃ c', skip_sep string ch i c = Ok c' ∧ c' = c + Z.of_nat (length (sep ch i)) ∧ from string c' = t.
Proof.
  intros Hc Hs. unfold skip_sep, sep in *. destruct (i =? 0).
  - exists c. cbn in *. split; [done|]. split; [lia|done].
  - rewrite rdp_from, Hs by done. cbn [app] in *. rewrite rdp_hd, bind_ok, Z.eqb_refl. exists (c + 1).
    split; [done|]. split; [done|]. rewrite from_from, Hs by lia. done.
Qed.

Lemma seqZ_split n i {A} (f : Z → list A) rest : 0 ≤ i < n →
  concat (f <$> seqZ i (n - i)) ++ rest = f i ++ (concat (f <$> seqZ (i + 1) (n - (i + 1))) ++ rest).
Proof.
  intros Hi. rewrite seqZ_cons by lia. cbn. rewrite <-app_assoc, Z.add_1_r.
  by replace (Z.pred (n - i)) with (n - Z.succ i) by lia.
Qed.

Lemma length_handOf g s p : 0 ≤ numHoleCards g → Z.of_nat (length (handOf g s p)) = numHoleCards g.
Proof. intros. unfold handOf. rewrite length_fmap, length_seqZ. lia. Qed.
Lemma length_boardOf g s i : 0 ≤ at_ (numBoardCards g) i →
  Z.of_nat (length (boardOf g s i)) = at_ (numBoardCards g) i.
Proof. intros. unfold boardOf. rewrite length_fmap, length_seqZ. lia. Qed.

Lemma at_fmap_seqZ (f : Z → Z) n j : 0 ≤ j < n → at_ (f <$> seqZ 0 n) j = f j.
Proof.
  intros Hj. unfold at_. apply list_lookup_total_correct. rewrite list_lookup_fmap, lookup_seqZ_lt by lia.
  cbn. do 2 f_equal. lia.
Qed.

Section Cards.
Context (g : Game) (sc : State) (C : comparable g sc) (Hc : cards_ok g sc).

Record hands_read (vis : Z → bool) (h0 h : list (list Z)) (p : Z) : Prop := {
hr_len : length h = 10%nat;
hr_row : ∀ q, 0 ≤ q < 10 → length (at_ h q) = 3%nat;
hr_vis : ∀ q, 0 ≤ q < p → vis q = true → ∀ j, 0 ≤ j < numHoleCards g → at2 h q j = at2 (holeCards sc) q j;
hr_rest : ∀ q, 0 ≤ q → (q < p → vis q = false) → at_ h q = at_ h0 q
}.

Lemma hand_cards p : 0 ≤ p < numPlayers g → Forall is_card (handOf g sc p).
Proof. intros Hp. apply Forall_forall. intros c Hin. by apply (co_hole _ _ Hc p). Qed.

(** Reading one player's hand, or nothing. *)
Lemma readCards_hand vis p row tail ch rest :
0 ≤ p < numPlayers g → tail = ch :: rest → (vis p = false → nocard ch) → length row = 3%nat →
∃ row', readCards ((if vis p : bool then cardsText (handOf g sc p) else []) ++ tail) (numHoleCards g) row 0 =
  Ok (if vis p then (numHoleCards g, Z.of_nat (length (cardsText (handOf g sc p))), row') else (0, 0, row')) ∧
  length row' = 3%nat ∧
  (if vis p then ∀ j, 0 ≤ j < numHoleCards g → at_ row' j = at2 (holeCards sc) p j else row' = row).
Proof.
intros Hp -> Hch L. pose proof (wd_hole _ (cm_deal _ _ C)) as Hh.
destruct (vis p).
- pose proof (length_handOf g sc p ltac:(lia)) as LH. rewrite <-LH.
  destruct (readCards_text (handOf g sc p) (ch :: rest) row 0 (hand_cards p Hp)) as (row' & E & [L' A]); [lia|lia|].
  exists row'. split; [done|]. split; [congruence|]. intros j Hj. rewrite A by lia.
  rewrite (proj2 (Z.leb_le 0 j)), (proj2 (Z.ltb_lt j _)) by lia. cbn [andb]. rewrite Z.sub_0_r.
  unfold handOf. apply at_fmap_seqZ. lia.
- exists row. cbn [app]. rewrite readCards_none by auto. done.
Qed.

(** The loop of [readHoleCards] before player [p]: what is left to read, and the hands read. *)
Definition hole_loop (vis : Z → bool) (string rest : list Z) (s : State) (p : Z) (st : Z * State) : Prop :=
0 ≤ fst st ∧ fst st + Z.of_nat (length (from string (fst st))) = Z.of_nat (length string) ∧
from string (fst st) = concat ((λ p, sep 124 p ++ (if vis p then cardsText (handOf g sc p) else []))
  <$> seqZ p (numPlayers g - p)) ++ rest ∧
∃ h, snd st = set_holeCards h s ∧ hands_read vis (holeCards s) h p.

Lemma hands_step vis h0 h p row :
0 ≤ p < 10 → hands_read vis h0 h p → length row = 3%nat →
(if vis p : bool then ∀ j, 0 ≤ j < numHoleCards g → at_ row j = at2 (holeCards sc) p j else row = at_ h p) →
hands_read vis h0 (<[Z.to_nat p := row]> h) (p + 1).
Proof.
intros Hp [L1 L2 L3 L4] Lr Ar. split.
- by rewrite length_insert.
- intros q Hq. rewrite at_insert by lia. case_decide; [done|auto].
- intros q Hq Hv j Hj. unfold at2. rewrite at_insert by lia. case_decide as E.
  + subst q. rewrite Hv in Ar. by apply Ar.
  + apply (L3 q ltac:(lia) Hv j Hj).
- intros q Hq Hv. rewrite at_insert by lia. case_decide as E.
  + subst q. rewrite (Hv ltac:(lia)) in Ar. subst row. apply L4; lia.
  + apply L4; [lia|]. intros. apply Hv. lia.
Qed.

(** The text of the hands after [p] starts with a separator, or is over. *)
Lemma hands_tail vis p ch rest :
0 ≤ p < numPlayers g → (∀ p, 0 ≤ p < numPlayers g → vis p = false → nocard ch) →
∃ ch1 r1, concat ((λ p, sep 124 p ++ (if vis p then cardsText (handOf g sc p) else []))
  <$> seqZ (p + 1) (numPlayers g - (p + 1))) ++ ch :: rest = ch1 :: r1 ∧ (vis p = false → nocard ch1).
Proof.
intros Hp Hch. destruct (decide (p + 1 < numPlayers g)).
- rewrite seqZ_split by lia. unfold sep at 1. rewrite (proj2 (Z.eqb_neq (p + 1) 0)) by lia. cbn.
  eexists _, _. split; [done|]. intros _. by right.
- rewrite seqZ_nil_le by lia. eexists _, _. split; [done|]. by apply Hch.
Qed.

Lemma hole_step vis string ch rest s p st :
0 ≤ p < numPlayers g → (∀ p, 0 ≤ p < numPlayers g → vis p = false → nocard ch) →
hole_loop vis string (ch :: rest) s p st →
∃ st', (let '(c, s) := st in
    c ← skip_sep string 124 p c;
    row ← rd (holeCards s) p;
    '(num, r, row) ← readCards (from string c) (numHoleCards g) row 0;
    hc ← wr (holeCards s) p row;
    let s := set_holeCards hc s in
    if num =? 0 then Ok (inl (c, s)) else
    if num =? numHoleCards g then Ok (inl (c + r, s)) else Ok (inr s)) = Ok (@inl _ State st') ∧
  hole_loop vis string (ch :: rest) s (p + 1) st'.
Proof.
destruct st as [c s']. intros Hp Hch (Hc0 & Ec & Ef & h & Es & HR). cbn [fst snd] in *. subst s'.
pose proof (cm_deal _ _ C) as Wd. pose proof (wd_players _ Wd) as Hn.
rewrite seqZ_split in Ef by lia. destruct (hands_tail vis p ch rest Hp Hch) as (ch1 & r1 & Et & Hch1).
set (tail := concat _ ++ _) in Ef, Et. rewrite <-app_assoc in Ef.
destruct (skip_sep_text string 124 p c _ Hc0 Ef) as (c' & -> & Hc' & Ef'). rewrite bind_ok.
pose proof (hr_len _ _ _ _ HR) as L1. pose proof (hr_row _ _ _ _ HR) as L2.
cbn [holeCards set_holeCards]. rewrite rd_ok, bind_ok by lia.
destruct (readCards_hand vis p (at_ h p) tail ch1 r1 Hp Et Hch1 (L2 p ltac:(lia))) as (row' & Er & Lr & Ar).
rewrite Ef', Er. clear Er. set (t := if vis p then cardsText (handOf g sc p) else []) in *.
rewrite Ef, !length_app in Ec.
assert (from string (c' + Z.of_nat (length t)) = tail) as Ef2 by (rewrite from_from, Ef' by lia; by apply from_app).
exists (c' + Z.of_nat (length t), set_holeCards (<[Z.to_nat p := row']> h) s). split.
- unfold t. destruct (vis p); rewrite bind_ok; rewrite wr_ok, bind_ok by lia; cbv zeta.
  + pose proof (length_handOf g sc p ltac:(apply Wd)) as LH. rewrite cardsText_length.
    destruct (Z.eqb_spec (numHoleCards g) 0); [do 3 f_equal; lia|]. by rewrite Z.eqb_refl.
  + cbn. do 3 f_equal. lia.
- split; [cbn; lia|]. cbn [fst snd]. rewrite Ef2. split; [lia|]. split; [done|]. eexists. split; [done|].
  apply hands_step; [lia|done|done|done].
Qed.

Lemma readHoleCards_text vis ch rest s :
(∀ p, 0 ≤ p < numPlayers g → vis p = false → nocard ch) → state_shape s →
∃ h, readHoleCards (handsText g sc vis ++ ch :: rest) g s =
    Ok (Z.of_nat (length (handsText g sc vis)), set_holeCards h s) ∧
  hands_read vis (holeCards s) h (numPlayers g).
Proof.
intros Hch Sh. pose proof (wd_players _ (cm_deal _ _ C)) as Hn.
set (string := handsText g sc vis ++ ch :: rest). unfold readHoleCards.
match goal with |- context [forR 0 _ _ ?body] =>
  destruct (forR_inv (hole_loop vis string (ch :: rest) s) (λ _ : State, False) 0 (numPlayers g) (0, s) body)
    as [([c s'] & -> & Hc0 & Ec & Ef & h & Es & HR)|(? & _ & [])]
end.
- lia.
- split; [done|]. cbn [fst snd]. rewrite from_0. split; [lia|]. split; [by rewrite Z.sub_0_r|].
  exists (holeCards s). split; [by destruct s|]. split; [apply Sh| |lia|done].
  intros q Hq. unfold at_. apply (ss_hole2 _ Sh). lia.
- intros p st Hp HL. left. by apply hole_step.
- exists h. split; [|done]. rewrite bind_ok. cbn [fst snd] in *. subst s'. do 2 f_equal.
  rewrite seqZ_nil_le in Ef by lia. rewrite Ef in Ec. cbn [concat fmap list_fmap app length] in Ec.
  unfold string in Ec. rewrite length_app in Ec. cbn [length] in Ec. lia.
Qed.

(** The board: the same loop, over the rounds. *)
Definition board_loop (string rest : list Z) (s : State) (i : Z) (st : Z * State) : Prop :=
0 ≤ fst st ∧ fst st + Z.of_nat (length (from string (fst st))) = Z.of_nat (length string) ∧
from string (fst st) = concat ((λ i, sep 47 i ++ cardsText (boardOf g sc i))
  <$> seqZ i (round s + 1 - i)) ++ rest ∧
∃ b, snd st = set_boardCards b s ∧ length b = 7%nat ∧
  ∀ j, 0 ≤ j < sumZ (at_ (numBoardCards g)) i → at_ b j = at_ (boardCards sc) j.

Lemma board_step string rest s i st :
round s = round sc → 0 ≤ i < round s + 1 → board_loop string rest s i st →
∃ st', (let '(c, s) := st in
    c ← skip_sep string 47 i c;
    nb ← rd (numBoardCards g) i;
    b ← bcStart g i;
    '(num, r, bc) ← readCards (from string c) nb (boardCards s) b;
    let s := set_boardCards bc s in
    nb ← rd (numBoardCards g) i;
    if num =? nb then Ok (inl (c + r, s)) else Ok (inr s)) = Ok (@inl _ State st') ∧
  board_loop string rest s (i + 1) st'.
Proof.
destruct st as [c s']. intros Hrd Hi (Hc0 & Ec & Ef & b & Es & Lb & Ab). cbn [fst snd] in *. subst s'.
pose proof (cm_deal _ _ C) as Wd. pose proof (wd_rounds _ Wd). pose proof (cm_round _ _ C).
pose proof (gs_board _ (wd_shape _ Wd)). rewrite seqZ_split in Ef by lia.
set (tail := concat _ ++ _) in Ef. rewrite <-app_assoc in Ef.
destruct (skip_sep_text string 47 i c _ Hc0 Ef) as (c' & -> & Hc' & Ef'). rewrite bind_ok.
rewrite rd_ok, !bind_ok by lia. destruct (bcStart_ok g sc C i ltac:(lia)) as [-> Hb]. rewrite bind_ok.
pose proof (board_sum_mono g (i + 1) (wd_board _ Wd) ltac:(lia) ltac:(lia)) as Hm. rewrite sumZ_S in Hm by lia.
pose proof (wd_board7 _ Wd). pose proof (length_boardOf g sc i (wd_board _ Wd i ltac:(lia))) as LB.
cbn [boardCards set_boardCards]. rewrite Ef', <-LB.
destruct (readCards_text (boardOf g sc i) tail b (sumZ (at_ (numBoardCards g)) i)) as (b' & -> & Sd); [|lia|lia|].
{ apply Forall_forall. intros x Hx. apply (co_board _ _ Hc i); [lia|done]. }
rewrite bind_ok. cbv zeta. rewrite bind_ok, Z.eqb_refl.
eexists. split; [done|]. rewrite Ef, !length_app in Ec.
assert (from string (c' + Z.of_nat (length (cardsText (boardOf g sc i)))) = tail) as Ef2
  by (rewrite from_from, Ef' by lia; by apply from_app).
split; [cbn; lia|]. cbn [fst snd]. rewrite Ef2. split; [lia|]. split; [done|]. exists b'. split; [done|].
split; [by rewrite (sd_len _ _ _ _ Sd)|]. intros j Hj. rewrite sumZ_S in Hj by lia.
rewrite (sd_at _ _ _ _ Sd) by lia.
destruct (Z.leb_spec (sumZ (at_ (numBoardCards g)) i) j); cbn [andb]; [|apply Ab; lia].
rewrite (proj2 (Z.ltb_lt j _)) by lia. unfold boardOf. rewrite at_fmap_seqZ by lia. f_equal. lia.
Qed.

Lemma readBoardCards_text rest s :
round s = round sc → length (boardCards s) = 7%nat →
∃ b, readBoardCards (boardText g sc (round sc + 1) ++ rest) g s =
    Ok (Z.of_nat (length (boardText g sc (round sc + 1))), set_boardCards b s) ∧
  length b = 7%nat ∧
  ∀ j, 0 ≤ j < sumZ (at_ (numBoardCards g)) (round sc + 1) → at_ b j = at_ (boardCards sc) j.
Proof.
intros Hrd L. pose proof (cm_round _ _ C) as Hr.
rewrite <-Hrd in Hr |- *. set (string := boardText _ _ _ ++ _). unfold readBoardCards.
match goal with |- context [forR 0 _ _ ?body] =>
  destruct (forR_inv (board_loop string rest s) (λ _ : State, False) 0 (round s + 1) (0, s) body)
    as [([c s'] & -> & Hc0 & Ec & Ef & b & Es & Lb & Ab)|(? & _ & [])]
end.
- lia.
- split; [done|]. cbn [fst snd]. rewrite from_0. split; [lia|]. split; [by rewrite Z.sub_0_r|].
  exists (boardCards s). split; [by destruct s|]. split; [done|]. intros j Hj. change (sumZ _ 0) with 0 in Hj. lia.
- intros i st Hi HL. left. by apply board_step.
- exists b. split; [|done]. rewrite bind_ok. cbn [fst snd] in *. subst s'. do 2 f_equal.
  rewrite seqZ_nil_le in Ef by lia. rewrite Ef in Ec. cbn [concat fmap list_fmap app length] in Ec.
  unfold string in Ec. rewrite length_app in Ec. lia.
Qed.
End Cards.
