(* ===== verification/RoundTrip.v ===== *)
(** * Printing a hand and reading it back

    The text of a state carries the whole hand: [readState] of what [printState]
    wrote rebuilds the betting state by replaying the actions, and the cards; the
    same for match states, whose text holds only the cards the viewing player may
    see. *)

From stdpp Require Import base list list_numbers numbers option sets.
From S2P Require Import Prelude GameDef Betting BettingSpec BettingInv BettingInit BettingStep BettingKeep BettingThm Deal StateEq Text Print Read.
Open Scope Z_scope.

(** The players whose cards the viewer does not see: all others, until a showdown, and
    then those who folded. *)
Definition hiddenb (g : Game) (s : State) (v p : Z) : bool :=
  negb (p =? v) && (negb (nz (finished s)) || foldedb s p || (nFolded g s + 1 =? numPlayers g)).

Definition matchText (g : Game) (ms : MatchState) : list Z :=
  (MATCHSTATE_ ++ dec (viewingPlayer ms)) ++ commonText g (state ms) ++
  handsText g (state ms) (λ p, negb (hiddenb g (state ms) (viewingPlayer ms) p)) ++
  boardText g (state ms) (round (state ms) + 1).

Lemma steps_handId g h s k s' : wf_game g → starts g h s → steps g k s s' → handId s' = h.
Proof.
  intros Wf Hs St. induction St as [s|k s s' s'' St IH Hst]; [apply (starts_inv g h s Wf Hs)|].
  destruct (step_inv g s' s'' Wf (steps_inv g h s k s' Wf Hs St) Hst) as (p & a & m & f & _ & _ & _ & ->).
  rewrite <-(IH Hs). unfold ended. by repeat case_match.
Qed.

(** The betting does not touch the cards. *)
Lemma steps_cards g h s k s' : wf_game g → starts g h s → steps g k s s' →
  holeCards s' = holeCards zero_state ∧ boardCards s' = boardCards zero_state.
Proof.
  intros Wf Hs St. induction St as [s|k s s' s'' St IH Hst].
  - destruct (starts_inv g h s Wf Hs) as [_ F]. split; apply F.
  - destruct (step_inv g s' s'' Wf (steps_inv g h s k s' Wf Hs St) Hst) as (p & a & m & f & _ & _ & _ & ->).
    rewrite <-(proj1 (IH Hs)), <-(proj2 (IH Hs)). unfold ended. by repeat case_match.
Qed.

Section Trip.
Context (g : Game) (h : Z) (s0 : State) (k : nat) (s1 : State).
Context (Wf : wf_game g) (Wd : wf_deal g) (Hs : starts g h s0) (St : steps g k s0 s1).
Context (hc : list (list Z)) (bc : list Z).
Context (Lh : length hc = 10%nat) (Lh3 : ∀ p, 0 ≤ p < 10 → length (at_ hc p) = 3%nat) (Lb : length bc = 7%nat).

Lemma shape_with_cards s h' b' :
state_shape s → length h' = 10%nat → (∀ p, 0 ≤ p < 10 → length (at_ h' p) = 3%nat) → length b' = 7%nat →
state_shape (with_cards h' b' s).
Proof.
intros [] L1 L2 L3. split; try done. intros p Hp. specialize (L2 (Z.of_nat p) ltac:(lia)).
unfold at_ in L2. by rewrite Nat2Z.id in L2.
Qed.

Lemma comparable_with_cards h' b' :
length h' = 10%nat → (∀ p, 0 ≤ p < 10 → length (at_ h' p) = 3%nat) → length b' = 7%nat →
comparable g (with_cards h' b' s1).
Proof.
intros L1 L2 L3. destruct (played_comparable g h s0 k s1 Wf Wd Hs St) as [_ Sh Hr Hn].
split; [done|by apply shape_with_cards|done|done].
Qed.

Abbreviation sc := (with_cards hc bc s1).

Lemma comparable_sc : comparable g sc.
Proof. by apply comparable_with_cards. Qed.

Lemma hidden_ok v p : 0 ≤ p < numPlayers g → hidden g sc v p = Ok (hiddenb g sc v p).
Proof.
intros Hp. pose proof (steps_inv g h s0 k s1 Wf Hs St) as I. pose proof (inv_shape _ _ I) as Sh.
pose proof (wg_players _ Wf). pose proof (ss_folded _ (is_state _ _ Sh)) as L.
unfold hidden, hiddenb, stateFinished. destruct (p =? v); [done|]. cbn [negb andb].
destruct (nz (finished sc)); cbn [negb orb]; [|done].
rewrite rd_ok, bind_ok by (cbn; lia). unfold foldedb. destruct (nz _); cbn [orb]; [done|].
change (numFolded g sc) with (numFolded g s1). rewrite (numFolded_ok g s1 Sh). done.
Qed.

Context (Cok : cards_ok g sc) (Hh : 0 ≤ h < 4294967296).

Lemma printPlayerHoleCards_prints v :
prints [0] 0 (printPlayerHoleCards g sc v) (handsText g sc (λ p, negb (hiddenb g sc v p))).
Proof.
pose proof comparable_sc as C. pose proof (wd_players _ Wd). unfold handsText.
apply (prints_of [0] 0 (λ maxLen o, each (seqZ 0 (numPlayers g)) (λ p k,
  (if p =? 0 then (λ k, k) else putc maxLen o 124)
  (fetch (hidden g sc v p) (λ h : bool,
    if h then k
    else fetch (rd (holeCards sc) p) (λ row, call maxLen o (printCards (numHoleCards g) row) k))))
  (finish maxLen o))).
intros maxLen o. rewrite <-(app_nil_r (concat _)). apply appends_each; [|by apply appends_finish].
intros p k' t Hp%elem_of_seqZ K. rewrite <-app_assoc. apply appends_sep.
apply (appends_fetch _ _ _ _ _ _ _ _ (hidden_ok v p ltac:(lia))).
destruct (hiddenb g sc v p); cbn [negb]; [done|].
apply (appends_fetch _ _ _ _ _ (at_ hc p)); [by apply rd_ok; cbn; lia|].
apply (appends_call _ _ _ []); [|done]. apply (hole_prints g sc C); [lia|].
intros. apply (co_hole _ _ Cok p); [lia|done].
Qed.

Lemma printMatchState_prints v maxLen o buf :
0 ≤ v < numPlayers g → room maxLen o buf → 25 ≤ maxLen →
let t := matchText g (mkMatchState sc v) in
(Z.of_nat (length (t ++ [0])) ≤ maxLen ∧
   ∃ buf', printMatchState g (mkMatchState sc v) maxLen o buf = Ok (Z.of_nat (length t), buf') ∧
     writes buf o (t ++ [0]) buf') ∨
(maxLen ≤ Z.of_nat (length t) + 0 ∧ fails buf o (printMatchState g (mkMatchState sc v) maxLen o buf)).
Proof.
intros Hv R Hm t. pose proof R as (R1 & R2 & R3). pose proof comparable_sc as C.
pose proof (cm_round _ _ C). pose proof (wd_players _ Wd).
assert (length (dec v) ≤ 1)%nat as L by (apply dec_fuel_length; [cbn; lia|lia]).
unfold printMatchState. apply outcome_at_0. unfold t, matchText. cbn [state viewingPlayer].
assert (length (MATCHSTATE_ ++ dec v) ≤ 12)%nat as L1 by (rewrite length_app; cbn [length MATCHSTATE_]; lia).
apply outcome_text; [done|lia|lia|]. intros buf1 Rb. pose proof Rb as (Rb1 & Rb2 & Rb3).
rewrite Z.add_0_l.
apply (outcome_call maxLen o [0] [] 0 _ _ _ _ _ buf1 Rb); [lia| |].
- apply printStateCommon_prints; [done| |split; [lia|split; lia]|lia].
  change (handId sc) with (handId s1). by rewrite (steps_handId g h s0 k s1 Wf Hs St).
- apply (appends_call _ _ _ [0]); [apply printPlayerHoleCards_prints|].
  rewrite <-(app_nil_r (boardText _ _ _)).
  apply (appends_call _ _ _ [0]); [|by apply appends_finish].
  apply (print_board_prints g sc C); [lia|apply Cok].
Qed.

(** *** Reading *)
Context (Hu : unsized g s1).

(** The board text starts with no card when the first round has none. *)
Lemma board_head rest : ∃ ch rest', boardText g sc (round sc + 1) ++ 0 :: rest = ch :: rest' ∧
(at_ (numBoardCards g) 0 = 0 → nocard ch).
Proof.
pose proof (cm_round _ _ comparable_sc) as Hr. unfold boardText.
replace (round sc + 1) with (round sc + 1 - 0) by lia. rewrite (seqZ_split (round sc + 1) 0) by lia.
unfold sep at 1. cbn [Z.eqb app]. unfold boardOf at 1.
destruct (Z.lt_ge_cases 0 (at_ (numBoardCards g) 0)) as [Hn|Hn].
- rewrite (seqZ_cons 0) by lia. cbn. eexists _, _. split; [done|lia].
- rewrite (seqZ_nil_le 0) by lia. cbn [fmap list_fmap cardsText concat app]. destruct (decide (round sc = 0)).
  + rewrite seqZ_nil_le by lia. eexists _, _. split; [done|]. by left.
  + rewrite seqZ_split by lia. eexists _, _. split; [done|]. intros _. by right.
Qed.

(** What the reader ends with: the betting state, and the cards that were shown. *)
Definition reads_as (vis : Z → bool) (s2 : State) : Prop :=
∃ hd b, s2 = with_cards hd b s1 ∧ length b = 7%nat ∧
  hands_read g sc vis (holeCards zero_state) hd (numPlayers g) ∧
  ∀ j, 0 ≤ j < sumZ (at_ (numBoardCards g)) (round sc + 1) → at_ b j = at_ bc j.

Lemma common_layout t2 :
commonText g sc ++ t2 = (58 :: dec h) ++ 58 :: bettingText g s1 47 ++ 58 :: t2.
Proof.
unfold commonText. change (handId sc) with (handId s1). rewrite (steps_handId g h s0 k s1 Wf Hs St).
cbn [app]. by rewrite <-!app_assoc.
Qed.

Lemma readStateCommon_text vis rest :
((∀ p, vis p = true) ∨ at_ (numBoardCards g) 0 = 0) →
let t := commonText g sc ++ handsText g sc vis ++ boardText g sc (round sc + 1) in
∃ s2, readStateCommon (t ++ 0 :: rest) g zero_state = Ok (Z.of_nat (length t), s2) ∧ reads_as vis s2.
Proof.
intros Hvis t. pose proof comparable_sc as C. pose proof (steps_inv g h s0 k s1 Wf Hs St) as I.
destruct (steps_cards g h s0 k s1 Wf Hs St) as [E1 E2].
destruct (replay g h s0 k s1 Wf Hs St Hu) as [Hf Hp]. rewrite (allActions_history g s1 I) in Hf, Hp.
pose proof (is_round _ _ (inv_shape _ _ I)). pose proof (is_state _ _ (inv_shape _ _ I)) as Sh.
destruct (board_head rest) as (ch & rest' & Eb & Hch).
assert (∀ p, 0 ≤ p < numPlayers g → vis p = false → nocard ch) as Hno.
{ intros p _ Hv. destruct Hvis as [Ht|H0]; [by rewrite Ht in Hv|auto]. }
set (ht := handsText g sc vis) in *. set (bt := bettingText g s1 47). set (brd := boardText g sc (round sc + 1)) in *.
assert (t ++ 0 :: rest = (58 :: dec h) ++ 58 :: bt ++ 58 :: ht ++ ch :: rest') as Et
  by (unfold t; by rewrite <-app_assoc, common_layout, <-app_assoc, Eb).
pose proof (f_equal length Et) as Lt. pose proof (f_equal length Eb) as Lr.
repeat (rewrite length_app in Lt; cbn [length] in Lt). rewrite length_app in Lr. cbn [length] in Lr.
rewrite Et. unfold readStateCommon. cbn [literal app]. rewrite rdp_hd, bind_ok. cbn [Z.eqb Pos.eqb mbind res_bind negb].
change (from (?x :: ?l) 1) with l. rewrite scan_unsigned_dec by (done || lia). cbn [mbind res_bind].
unfold starts in Hs. rewrite Hs. cbn [mbind res_bind].
change (58 :: dec h ++ ?l) with ((58 :: dec h) ++ l). set (c0 := 1 + Z.of_nat (length (dec h))).
set (string := (58 :: dec h) ++ _).
assert (from string c0 = 58 :: bt ++ 58 :: ht ++ ch :: rest') as F0
  by (apply from_app; unfold c0; cbn [length]; lia).
assert (from string (c0 + 1) = bt ++ 58 :: ht ++ ch :: rest') as F1
  by (rewrite from_from, F0 by lia; done).
assert (from string (c0 + 1 + (Z.of_nat (length bt) + 1)) = ht ++ ch :: rest') as F2
  by (rewrite Z.add_assoc, from_from, from_from, F1, from_app by (done || lia); done).
assert (from string (c0 + 1 + (Z.of_nat (length bt) + 1) + Z.of_nat (length ht)) = brd ++ 0 :: rest) as F3
  by (rewrite from_from, F2, from_app by (done || lia); done).
rewrite rdp_from, F0, rdp_hd by lia. cbn [mbind res_bind Z.eqb Pos.eqb negb].
rewrite F1, (readBetting_text g s0 s1) by (done || lia). fold bt. cbn [mbind res_bind].
rewrite (proj2 (Z.ltb_ge _ 0)) by lia. rewrite F2.
destruct (readHoleCards_text g sc C Cok vis ch rest' s1 Hno Sh) as (hd & Er1 & HR). fold ht in Er1.
rewrite Er1. cbn [mbind res_bind]. rewrite (proj2 (Z.ltb_ge _ 0)) by lia. rewrite F3.
destruct (readBoardCards_text g sc C Cok (0 :: rest) (set_holeCards hd s1)) as (b & Er & Lb' & Ab); [done|apply Sh|].
fold brd in Er. rewrite Er. cbn [mbind res_bind]. rewrite (proj2 (Z.ltb_ge _ 0)) by lia.
eexists. split; [do 2 f_equal; unfold c0; lia|]. exists hd, b. rewrite <-E1. done.
Qed.

(** The reader's state shows what was shown. *)
Lemma reads_view vis s2 : reads_as vis s2 →
comparable g s2 ∧ commonView g s2 = commonView g sc ∧
(∀ p, 0 ≤ p < numPlayers g → vis p = true → handOf g s2 p = handOf g sc p) ∧
(∀ p, 0 ≤ p < numPlayers g → vis p = false → at_ (holeCards s2) p = replicate 3 0).
Proof.
intros (hd & b & -> & Lb' & [L1 L2 L3 L4] & Ab). pose proof (wd_players _ Wd).
split; [by apply comparable_with_cards|]. split; [|split].
- unfold commonView. f_equal. unfold visibleBoard. apply map_seqZ_eq. intros j Hj. by apply Ab.
- intros p Hp Hv. unfold handOf. apply map_seqZ_eq. intros j Hj. by apply L3.
- intros p Hp Hv. cbn [with_cards holeCards set_boardCards set_holeCards]. rewrite L4 by (done || lia).
  unfold zero_state, at_. cbn [holeCards]. by rewrite lookup_total_replicate_2 by lia.
Qed.
End Trip.

(** ** Claims *)

(** C14: What [printState] writes for a hand played from its start, [readState] reads
    back: it consumes exactly the text, accepts and replays every action, and ends in
    a state [statesEqual] takes for the printed one, with the very same betting
    fields. *)
Theorem state_round_trip g h s0 k s1 hc bc maxLen o buf :
  wf_game g → wf_deal g → starts g h s0 → steps g k s0 s1 → unsized g s1 → 0 ≤ h < 4294967296 →
  length hc = 10%nat → (∀ p, 0 ≤ p < 10 → length (at_ hc p) = 3%nat) → length bc = 7%nat →
  cards_ok g (with_cards hc bc s1) →
  0 ≤ o → 18 ≤ maxLen < 2147483648 → o + maxLen ≤ Z.of_nat (length buf) →
  Z.of_nat (length (stateText g (with_cards hc bc s1))) < maxLen →
  ∃ r buf' hc' bc',
    printState g (with_cards hc bc s1) maxLen o buf = Ok (r, buf') ∧
    readState (from buf' o) g zero_state = Ok (r, with_cards hc' bc' s1) ∧
    statesEqual g (with_cards hc' bc' s1) (with_cards hc bc s1) = Ok 1.
Proof.
  intros Wf Wd Hs St Hu Hh Lh Lh3 Lb Cok Ho Hm Hl Hfit.
  pose proof (comparable_sc g h s0 k s1 Wf Wd Hs St hc bc Lh Lh3 Lb) as C.
  destruct (printState_prints g (with_cards hc bc s1) C maxLen o buf) as [(H & buf' & E & W)|(H & _)];
    [|apply Cok|apply Cok|split; [done|split; lia]|lia| |lia].
  { change (handId _) with (handId s1). by rewrite (steps_handId g h s0 k s1 Wf Hs St). }
  destruct (writes_text _ _ _ _ W) as (rest & F & _).
  destruct (readStateCommon_text g h s0 k s1 Wf Wd Hs St hc bc Lh Lh3 Lb Cok Hh Hu (λ _, true) rest) as (s2 & Er & Rd); [by left|].
  pose proof Rd as (hd & b & -> & _). destruct (reads_view g h s0 k s1 Wf Wd Hs St hc bc Lh Lb _ _ Rd) as (C2 & V & Hv & _).
  exists (Z.of_nat (length (stateText g (with_cards hc bc s1)))), buf', hd, b. split; [done|]. split.
  - rewrite F, <-app_assoc. unfold readState. change (literal STATE_ _) with (@Ok bool true). cbn [mbind res_bind negb].
    change (from _ 5) with ((commonText g (with_cards hc bc s1) ++ holeText g (with_cards hc bc s1) ++
      boardText g (with_cards hc bc s1) (round (with_cards hc bc s1) + 1)) ++ 0 :: rest).
    change (holeText g ?s) with (handsText g s (λ _, true)). rewrite Er. cbn [mbind res_bind].
    rewrite (proj2 (Z.ltb_ge _ 0)) by lia. do 2 f_equal. unfold stateText. rewrite (length_app STATE_).
    change (length STATE_) with 5%nat. change (holeText g ?s) with (handsText g s (λ _, true)). lia.
  - rewrite (statesEqual_ok g _ _ C2 C). rewrite bool_decide_true; [done|]. unfold fullView. f_equal; [done|].
    apply map_seqZ_eq. intros p Hp. by apply Hv.
Qed.

Lemma state_round_trip_witness :
  ∃ r buf' hc' bc',
    printState nolimit3p (shown (played nolimit3p [r_ 300; c_; c_; r_ 900])) 60 4 (blank 64) = Ok (r, buf') ∧
    readState (from buf' 4) nolimit3p zero_state = Ok (r, with_cards hc' bc' (played nolimit3p [r_ 300; c_; c_; r_ 900])) ∧
    statesEqual nolimit3p (with_cards hc' bc' (played nolimit3p [r_ 300; c_; c_; r_ 900]))
      (shown (played nolimit3p [r_ 300; c_; c_; r_ 900])) = Ok 1.
Proof.
  apply (state_round_trip nolimit3p 7 (started nolimit3p) 4 (played nolimit3p [r_ 300; c_; c_; r_ 900])
    (holeCards (shown zero_state)) (boardCards (shown zero_state)) 60 4 (blank 64)
    nolimit3p_wf nolimit3p_deal started_nolimit3p).
  - apply (played_steps [r_ 300; c_; c_; r_ 900]). vm_compute. reflexivity.
  - intros H. discriminate H.
  - lia.
  - reflexivity.
  - intros p Hp. assert (p = 0 ∨ p = 1 ∨ p = 2 ∨ p = 3 ∨ p = 4 ∨ p = 5 ∨ p = 6 ∨ p = 7 ∨ p = 8 ∨ p = 9) as Hc by lia.
    repeat destruct Hc as [->|Hc]; try reflexivity. subst p. reflexivity.
  - reflexivity.
  - apply (cards_shown [r_ 300; c_; c_; r_ 900]). vm_compute. reflexivity.
  - lia.
  - lia.
  - vm_compute. discriminate.
  - vm_compute. reflexivity.
Defined.

(** The bytes [printMatchState] writes, given room. *)
Lemma printMatchState_fits g h s0 k s1 hc bc v maxLen o buf :
  wf_game g → wf_deal g → starts g h s0 → steps g k s0 s1 → 0 ≤ h < 4294967296 →
  length hc = 10%nat → (∀ p, 0 ≤ p < 10 → length (at_ hc p) = 3%nat) → length bc = 7%nat →
  cards_ok g (with_cards hc bc s1) → 0 ≤ v < numPlayers g → room maxLen o buf → 25 ≤ maxLen →
  Z.of_nat (length (matchText g (mkMatchState (with_cards hc bc s1) v))) < maxLen →
  ∃ buf' rest, printMatchState g (mkMatchState (with_cards hc bc s1) v) maxLen o buf =
      Ok (Z.of_nat (length (matchText g (mkMatchState (with_cards hc bc s1) v))), buf') ∧
    from buf' o = matchText g (mkMatchState (with_cards hc bc s1) v) ++ 0 :: rest.
Proof.
  intros Wf Wd Hs St Hh Lh Lh3 Lb Cok Hv R Hm Hfit.
  destruct (printMatchState_prints g h s0 k s1 Wf Wd Hs St hc bc Lh Lh3 Lb Cok Hh v maxLen o buf Hv R Hm)
    as [(H & buf' & E & W)|(H & _)]; [|lia].
  destruct (writes_text _ _ _ _ W) as (rest & F & _). exists buf', rest. split; [done|]. by rewrite F, <-app_assoc.
Qed.


Lemma shown_rows p : 0 ≤ p < 10 → length (at_ (holeCards (shown zero_state)) p) = 3%nat.
Proof.
  intros Hp. assert (p = 0 ∨ p = 1 ∨ p = 2 ∨ p = 3 ∨ p = 4 ∨ p = 5 ∨ p = 6 ∨ p = 7 ∨ p = 8 ∨ p = 9) as Hc by lia.
  repeat destruct Hc as [->|Hc]; try reflexivity. by subst p.
Qed.


(** Two deals the viewer [v] cannot tell apart. *)
Record same_to (g : Game) (s : State) (v : Z) (hc hc' : list (list Z)) (bc bc' : list Z) : Prop := {
  st_hole : ∀ p j, 0 ≤ p < numPlayers g → 0 ≤ j < numHoleCards g → hiddenb g s v p = false → at2 hc p j = at2 hc' p j;
  st_board : ∀ j, 0 ≤ j < boardUpTo g (round s) → at_ bc j = at_ bc' j
}.

Lemma fmap_ext_in {A} (f f' : Z → A) lo n : (∀ i, lo ≤ i < lo + n → f i = f' i) → f <$> seqZ lo n = f' <$> seqZ lo n.
Proof. intros H. apply list_fmap_ext. intros i x [-> ?]%lookup_seqZ. apply H. lia. Qed.

Lemma sumZ_mono (f : Z → Z) a b : 0 ≤ a ≤ b → (∀ i, 0 ≤ i < b → 0 ≤ f i) → sumZ f a ≤ sumZ f b.
Proof.
  intros [Ha Hab]. replace b with (a + (b - a)) by lia. assert (0 ≤ b - a) as Hd by lia. revert Hd.
  generalize (b - a) as d. apply (Z_bound_ind (λ d, (∀ i, 0 ≤ i < a + d → 0 ≤ f i) → sumZ f a ≤ sumZ f (a + d))).
  - intros _. rewrite Z.add_0_r. lia.
  - intros d Hd IH Hf. rewrite Z.add_assoc, sumZ_S by lia. specialize (IH ltac:(intros; apply Hf; lia)).
    specialize (Hf (a + d) ltac:(lia)). lia.
Qed.

Lemma matchText_same g s v hc hc' bc bc' :
  comparable g s → same_to g s v hc hc' bc bc' →
  matchText g (mkMatchState (with_cards hc bc s) v) = matchText g (mkMatchState (with_cards hc' bc' s) v).
Proof.
  intros C [Hh Hb]. pose proof (cm_deal _ _ C) as Wd. pose proof (cm_round _ _ C). pose proof (wd_rounds _ Wd).
  unfold matchText. cbn [state viewingPlayer]. f_equal. f_equal. f_equal.
  - unfold handsText. f_equal. apply fmap_ext_in. intros p Hp. f_equal.
    change (hiddenb g (with_cards ?a ?b s) v p) with (hiddenb g s v p).
    destruct (hiddenb g s v p) eqn:E; [done|]. cbn [negb]. f_equal. apply fmap_ext_in. intros j Hj. apply Hh; (done || lia).
  - unfold boardText. f_equal. apply fmap_ext_in. intros i Hi. f_equal. f_equal. apply fmap_ext_in. intros j Hj.
    cbn [with_cards boardCards set_boardCards round set_holeCards] in *. apply Hb. unfold boardUpTo.
    pose proof (sumZ_mono (at_ (numBoardCards g)) (i + 1) (round s + 1) ltac:(lia)) as Hm. rewrite sumZ_S in Hm by lia.
    specialize (Hm ltac:(intros; apply (wd_board _ Wd); lia)).
    destruct (bcStart_ok g s C i ltac:(lia)). lia.
Qed.

(** C16: The text sent to a player says nothing about the cards he may not see: for two
    deals that agree on his own hand, on the hands shown down and on the board dealt so
    far, [printMatchState] writes the same text. *)
Theorem match_view_secret g h s0 k s1 hc hc' bc bc' v maxLen o buf :
  wf_game g → wf_deal g → starts g h s0 → steps g k s0 s1 → 0 ≤ h < 4294967296 →
  length hc = 10%nat → (∀ p, 0 ≤ p < 10 → length (at_ hc p) = 3%nat) → length bc = 7%nat →
  length hc' = 10%nat → (∀ p, 0 ≤ p < 10 → length (at_ hc' p) = 3%nat) → length bc' = 7%nat →
  cards_ok g (with_cards hc bc s1) → cards_ok g (with_cards hc' bc' s1) →
  same_to g s1 v hc hc' bc bc' → 0 ≤ v < numPlayers g → room maxLen o buf → 25 ≤ maxLen →
  Z.of_nat (length (matchText g (mkMatchState (with_cards hc bc s1) v))) < maxLen →
  ∃ r text buf1 rest1 buf2 rest2,
    printMatchState g (mkMatchState (with_cards hc bc s1) v) maxLen o buf = Ok (r, buf1) ∧
    printMatchState g (mkMatchState (with_cards hc' bc' s1) v) maxLen o buf = Ok (r, buf2) ∧
    from buf1 o = text ++ 0 :: rest1 ∧ from buf2 o = text ++ 0 :: rest2 ∧ r = Z.of_nat (length text).
Proof.
  intros Wf Wd Hs St Hh Lh Lh3 Lb Lh' Lh3' Lb' Cok Cok' Same Hv R Hm Hfit.
  pose proof (matchText_same g s1 v hc hc' bc bc' (played_comparable g h s0 k s1 Wf Wd Hs St) Same) as Et.
  destruct (printMatchState_fits g h s0 k s1 hc bc v maxLen o buf) as (buf1 & rest1 & E1 & F1); [done..|].
  destruct (printMatchState_fits g h s0 k s1 hc' bc' v maxLen o buf) as (buf2 & rest2 & E2 & F2); [done..|by rewrite <-Et|].
  rewrite <-Et in E2, F2. eauto 12.
Qed.

(** The opponents' hands of [shown] replaced. *)
Definition other_hands : list (list Z) := <[0%nat := [5; 6; 0]]> (<[2%nat := [9; 10; 0]]> (holeCards (shown zero_state))).

Lemma match_view_secret_witness :
  ∃ r text buf1 rest1 buf2 rest2,
    printMatchState nolimit3p (mkMatchState (shown (played nolimit3p [r_ 300])) 1) 60 0 (blank 60) = Ok (r, buf1) ∧
    printMatchState nolimit3p (mkMatchState (with_cards other_hands (replicate 7 51) (played nolimit3p [r_ 300])) 1) 60 0 (blank 60)
      = Ok (r, buf2) ∧
    from buf1 0 = text ++ 0 :: rest1 ∧ from buf2 0 = text ++ 0 :: rest2 ∧ r = Z.of_nat (length text).
Proof.
  apply (match_view_secret nolimit3p 7 (started nolimit3p) 1 (played nolimit3p [r_ 300])
    (holeCards (shown zero_state)) other_hands (boardCards (shown zero_state)) (replicate 7 51) 1 60 0 (blank 60)
    nolimit3p_wf nolimit3p_deal started_nolimit3p).
  - apply (played_steps [r_ 300]). vm_compute. reflexivity.
  - lia.
  - reflexivity.
  - apply shown_rows.
  - reflexivity.
  - reflexivity.
  - intros p Hp. assert (p = 0 ∨ p = 1 ∨ p = 2 ∨ p = 3 ∨ p = 4 ∨ p = 5 ∨ p = 6 ∨ p = 7 ∨ p = 8 ∨ p = 9) as Hc by lia.
    repeat destruct Hc as [->|Hc]; try reflexivity. subst p. reflexivity.
  - reflexivity.
  - apply (cards_shown [r_ 300]). vm_compute. reflexivity.
  - split.
    + intros p c Hp Hc. revert c Hc. apply forallb_cards.
      assert (p = 0 ∨ p = 1 ∨ p = 2) as [->|[->| ->]] by (cbn in Hp; lia); reflexivity.
    + intros i c Hi Hc. revert c Hc. apply forallb_cards.
      assert (i = 0) as -> by (change (round (with_cards _ _ _)) with 0 in Hi; lia). reflexivity.
  - split.
    + intros p j Hp Hj Hv. assert (p = 0 ∨ p = 1 ∨ p = 2) as [->|[->| ->]] by (cbn in Hp; lia);
        [vm_compute in Hv; discriminate| |vm_compute in Hv; discriminate]. reflexivity.
    + intros j Hj. change (boardUpTo _ _) with 0 in Hj. lia.
  - cbn. lia.
  - split; [lia|]. split; [lia|]. vm_compute. discriminate.
  - lia.
  - vm_compute. reflexivity.
Defined.
