(* ===== verification/ReadSafe.v ===== *)
(** * Reading untrusted text

    The readers of [Read] on an arbitrary terminated string: whatever it holds,
    they end, stay inside the string and the state's arrays, and never run into an
    assertion of the betting engine.  The one fault left is a number too large for
    the object [sscanf] stores it in. *)

From stdpp Require Import base list list_numbers numbers option sets.
From S2P Require Import Prelude GameDef Betting BettingSpec BettingInv BettingInit BettingStep BettingKeep BettingThm Deal StateEq Text Print Read.
Open Scope Z_scope.

(** Closes a goal its decision procedure evaluates to true. *)
Ltac decided := apply (bool_decide_unpack _); vm_compute; exact Logic.I.

(** A C string: somewhere there is a terminator. *)
Definition terminated (s : list Z) : Prop := 0 ∈ s.
(** Place [c] of the string is at or before a terminator. *)
Definition within (s : list Z) (c : Z) : Prop := 0 ≤ c ∧ terminated (from s c).

(** An outcome in [Q], or a number out of range. *)
Definition tame {A} (Q : A → Prop) (r : res A) : Prop :=
  match r with Ok x => Q x | Err f => f = SignedOverflow end.

Lemma tame_bind {A B} (P : A → Prop) (Q : B → Prop) m (k : A → res B) :
  tame P m → (∀ x, P x → tame Q (k x)) → tame Q (m ≫= k).
Proof. intros Hm Hk. destruct m; cbn in *; [by apply Hk|done]. Qed.

Lemma tame_mono {A} (P Q : A → Prop) m : tame P m → (∀ x, P x → Q x) → tame Q m.
Proof. destruct m; cbn; auto. Qed.

Lemma tame_total {A B} (Q : B → Prop) (x : A) m (k : A → res B) : m = Ok x → tame Q (k x) → tame Q (m ≫= k).
Proof. by intros ->. Qed.

Lemma terminated_cons ch s : terminated (ch :: s) → ch ≠ 0 → terminated s.
Proof. unfold terminated. rewrite elem_of_cons. intros [?|?] ?; [congruence|done]. Qed.

Lemma within_0 s : terminated s → within s 0.
Proof. by split. Qed.

Lemma within_app s c d : within s c → within (from s c) d → within s (c + d).
Proof. intros [Hc T] [Hd T']. split; [lia|]. by rewrite from_from by lia. Qed.

Lemma within_rdp s c : within s c → ∃ ch, rdp s c = Ok ch ∧ (ch ≠ 0 → within s (c + 1)).
Proof.
  intros [Hc T]. rewrite rdp_from by done. destruct (from s c) as [|ch t] eqn:E; [by apply not_elem_of_nil in T|].
  exists ch. split; [done|]. intros Hn. split; [lia|]. rewrite from_from, E by lia. by apply terminated_cons in T.
Qed.

Lemma within_length s c : within s c → (0 < length (from s c))%nat.
Proof. intros [_ T]. destruct (from s c); [by apply not_elem_of_nil in T|cbn; lia]. Qed.

(** ** Numbers *)
Lemma spaces_within s : terminated s → ∃ n, spaces s = Ok n ∧ within s n.
Proof.
  induction s as [|ch s IH]; intros T; [by apply not_elem_of_nil in T|]. cbn [spaces].
  destruct (isspace ch) eqn:E; [|exists 0; by split].
  destruct IH as (n & -> & Hn & Tn).
  { apply terminated_cons in T; [done|]. intros ->. done. }
  exists (n + 1). split; [done|]. split; [lia|]. unfold from in *. by rewrite Z2Nat.inj_add, Nat.add_1_r by lia.
Qed.

Lemma scan_digits_within s acc k : terminated s →
  ∃ v d, scan_digits s acc k = Ok (v, k + d) ∧ within s d ∧ 0 ≤ d.
Proof.
  revert acc k. induction s as [|ch s IH]; intros acc k T; [by apply not_elem_of_nil in T|]. cbn [scan_digits].
  destruct (isdigit ch) eqn:E; [|exists acc, 0; rewrite Z.add_0_r; by split].
  destruct (IH (10 * acc + (ch - 48)) (k + 1)) as (v & d & -> & [Hd Td] & _).
  { apply terminated_cons in T; [done|]. intros ->. done. }
  exists v, (d + 1). split; [do 2 f_equal; lia|]. split; [|lia]. split; [lia|]. unfold from in *.
  by rewrite Z2Nat.inj_add, Nat.add_1_r by lia.
Qed.

Lemma scan_number_within s : terminated s →
  ∃ o, scan_number s = Ok o ∧ ∀ neg v n, o = Some (neg, v, n) → within s n.
Proof.
  intros T. unfold scan_number. destruct (spaces_within s T) as (sp & -> & Ws). rewrite bind_ok. cbv zeta.
  destruct (within_rdp (from s sp) 0 (within_0 _ (proj2 Ws))) as (ch & -> & Hch). rewrite bind_ok.
  set (sign := (ch =? 43) || (ch =? 45)).
  assert (within (from s sp) (if sign then 1 else 0)) as Wg.
  { destruct sign eqn:E; [|apply within_0, Ws]. apply Hch. intros ->. done. }
  assert ((if sign then from (from s sp) 1 else from s sp) = from (from s sp) (if sign then 1 else 0)) as ->
    by (by destruct sign).
  destruct (scan_digits_within _ 0 0 (proj2 Wg)) as (v & d & -> & Wn & Hd). rewrite bind_ok.
  eexists. split; [done|]. intros neg v' n E. destruct (_ =? 0); [done|]. simplify_eq. rewrite Z.add_0_l.
  rewrite <-Z.add_assoc. apply within_app; [done|]. by apply within_app.
Qed.

Lemma scan_i32_tame s : terminated s → tame (λ o, ∀ v n, o = Some (v, n) → within s n) (scan_i32 s).
Proof.
  intros T. unfold scan_i32. destruct (scan_number_within s T) as (o & -> & Ho). rewrite bind_ok.
  destruct o as [[[neg v] n]|]; [|by cbn]. unfold i32. destruct (_ && _); cbn; [|done].
  intros v' n' [= <- <-]. by eapply Ho.
Qed.

Lemma scan_unsigned_tame umax s : terminated s → tame (λ o, ∀ v n, o = Some (v, n) → within s n) (scan_unsigned umax s).
Proof.
  intros T. unfold scan_unsigned. destruct (scan_number_within s T) as (o & -> & Ho). rewrite bind_ok.
  destruct o as [[[neg v] n]|]; [|by cbn]. destruct (_ <=? _); cbn; [|done].
  intros v' n' [= <- <-]. by eapply Ho.
Qed.

Lemma literal_total lit s : terminated s → 0 ∉ lit →
  ∃ b, literal lit s = Ok b ∧ (b = true → within s (Z.of_nat (length lit))).
Proof.
  revert s. induction lit as [|x lit IH]; intros s T Hlit; [exists true; split; [done|]; intros _; by apply within_0|].
  cbn [literal]. destruct (within_rdp s 0 (within_0 _ T)) as (ch & -> & Hch). rewrite bind_ok.
  destruct (Z.eqb_spec ch x) as [->|]; [|by exists false].
  assert (within s 1) as W1 by (apply Hch; set_solver).
  destruct (IH (from s 1) (proj2 W1)) as (b & -> & Hb); [set_solver|]. exists b. split; [done|]. intros Eb.
  cbn [length]. replace (Z.of_nat (S (length lit))) with (1 + Z.of_nat (length lit)) by lia.
  apply within_app; auto.
Qed.

(** ** Cards *)
Lemma strchr_total s ch : terminated s → ∃ o, strchr s ch = Ok o.
Proof.
  induction s as [|x s IH]; intros T; [by apply not_elem_of_nil in T|]. cbn [strchr].
  destruct (x =? ch); [eauto|]. destruct (Z.eqb_spec x 0); [eauto|].
  destruct (IH (terminated_cons _ _ T n)) as (o & ->). cbn. eauto.
Qed.

Lemma chars_terminated : terminated rankChars ∧ terminated suitChars.
Proof. unfold terminated. split; decided. Qed.

Lemma readCard_within s c : within s c →
  ∃ o, readCard (from s c) = Ok o ∧ (o ≠ None → within s (c + 2)).
Proof.
  intros W. destruct chars_terminated as [T1 T2]. pose proof (within_0 _ (proj2 W)) as W0. unfold readCard.
  destruct (within_rdp _ _ W0) as (ch & -> & Hch). rewrite bind_ok.
  destruct (Z.eqb_spec ch 0) as [|N1]; [by exists None|].
  destruct (strchr_total rankChars (toupper ch) T1) as (o & ->). rewrite bind_ok.
  destruct o as [r|]; [|by exists None].
  destruct (within_rdp _ _ (Hch N1)) as (ch2 & E & Hch2). rewrite Z.add_0_l in E. rewrite E, bind_ok.
  destruct (Z.eqb_spec ch2 0) as [|N2]; [by exists None|].
  destruct (strchr_total suitChars (tolower ch2) T2) as (o & ->). rewrite bind_ok.
  destruct o as [su|]; [|by exists None]. eexists. split; [done|]. intros _.
  apply within_app; [done|]. apply (Hch2 N2).
Qed.

Lemma readCards_within s c m cards b :
  within s c → 0 ≤ b → 0 ≤ m → b + m ≤ Z.of_nat (length cards) →
  ∃ n r cards', readCards (from s c) m cards b = Ok (n, r, cards') ∧ length cards' = length cards ∧
    within s (c + r) ∧ 0 ≤ r.
Proof.
  intros W Hb Hm Hl. unfold readCards.
  destruct (forR_inv (λ i '(d, cs), length cs = length cards ∧ within s (c + d) ∧ 0 ≤ d)
    (λ '(n, d, cs), length cs = length cards ∧ within s (c + d) ∧ 0 ≤ d) 0 m (0, cards)
    (λ i '(d, cards), r ← readCard (from (from s c) d);
        match r with
        | None => Ok (inr (i, d, cards))
        | Some card => cards ← wr cards (b + i) card; Ok (inl (d + 2, cards))
        end)) as [([d cs] & -> & H)|([[n d] cs] & -> & H)].
  - done.
  - rewrite Z.add_0_r. done.
  - intros i [d cs] Hi (L & Wd & Hd). rewrite <-from_from by (destruct W; lia).
    destruct (readCard_within s (c + d) Wd) as (o & -> & Ho). rewrite bind_ok. destruct o as [card|].
    + left. rewrite wr_ok, bind_ok by lia. eexists. split; [done|]. cbn beta iota. rewrite length_insert. split; [done|].
      rewrite Z.add_assoc. split; [by apply Ho|lia].
    + right. by eexists.
  - rewrite bind_ok. eexists _, _, _. split; [done|]. tauto.
  - rewrite bind_ok. eexists _, _, _. split; [done|]. tauto.
Qed.

Lemma skip_sep_within s ch i c : within s c → ch ≠ 0 → ∃ c', skip_sep s ch i c = Ok c' ∧ within s c'.
Proof.
  intros W Hch. unfold skip_sep. destruct (i =? 0); [by exists c|].
  destruct (within_rdp s c W) as (x & -> & Hx). rewrite bind_ok. eexists. split; [done|].
  destruct (Z.eqb_spec x ch); [apply Hx; lia|done].
Qed.

(** ** Betting *)
Lemma readAction_tame g s c a0 :
  within s c → (∀ ch, rdp s c = Ok ch → ch ≠ 0) →
  tame (λ '(r, a), 0 ≤ r → 1 ≤ r ∧ within s (c + r)) (readAction (from s c) g a0).
Proof.
  intros W Hch. unfold readAction. destruct (within_rdp s c W) as (ch & E & H1). specialize (H1 (Hch ch E)).
  rewrite rdp_from in E by apply W. rewrite E, bind_ok.
  pose proof (u8_range ch). rewrite rd_ok, bind_ok by (change (length charToAction) with 256%nat; lia). cbv zeta.
  destruct (_ <? 0); [by cbn|]. case_bool_decide; [|cbn; split; [lia|done]].
  rewrite <-from_from by (destruct W; lia).
  eapply tame_bind; [apply scan_i32_tame, H1|]. intros o Ho. destruct o as [[v r]|]; [|by cbn].
  cbn. intros _. specialize (Ho v r eq_refl). rewrite Z.add_assoc. split; [destruct Ho; lia|]. by apply within_app.
Qed.

Section Safe.
Context (g : Game) (Wf : wf_game g) (Wd : wf_deal g).

(** Reading the betting keeps the invariant of the hand. *)
Lemma readBetting_loop_tame string fuel c s :
within string c → inv g s → (length (from string c) ≤ fuel)%nat →
tame (λ '(r, s'), inv g s' ∧ (0 ≤ r → within string r)) (readBetting_loop fuel string g c s).
Proof.
revert c s. induction fuel as [|fuel IH]; intros c s W I Hf.
{ pose proof (within_length _ _ W). lia. }
assert (∀ d, 1 ≤ d → within string (c + d) → (length (from string (c + d)) ≤ fuel)%nat) as Hless.
{ intros d Hd W'. destruct W. rewrite from_from by lia. unfold from at 1. rewrite length_drop.
  pose proof (within_length _ _ W') as Hp. rewrite from_from in Hp by lia. unfold from at 1 in Hp.
  rewrite length_drop in Hp. lia. }
cbn [readBetting_loop]. destruct (within_rdp string c W) as (ch & E & H1). rewrite E, bind_ok.
destruct (Z.eqb_spec ch 0) as [|N0]; [by cbn|]. specialize (H1 N0).
destruct (ch =? 58); [by cbn|]. destruct (ch =? 47); [apply IH; [done|done|by apply Hless]|].
eapply tame_bind; [apply readAction_tame; [done|congruence]|]. intros [r a] Hr.
destruct (Z.ltb_spec r 0); [cbn; split; [done|lia]|]. destruct (Hr ltac:(lia)) as [Hr1 Wr].
destruct (decide (finished s = 0)) as [Open|Fin].
- destruct (current_exists g s Wf I Open) as (p & _ & Hcur & Hp & _).
  destruct (isValidAction_ok g s Wf I Open p Hcur Hp 0 a) as (ok & a' & Ev & Hok & _). rewrite Ev, bind_ok.
  destruct Hok as [->| ->]; cbn [Z.eqb]; [cbn; split; [done|lia]|].
  destruct (accepted_step g s 0 a a' Wf I Ev) as (_ & p' & _ & _ & _ & m & f & _ & Ed).
  destruct (ended g (applied g s a' p') m) as [s' e]. rewrite Ed, bind_ok. apply IH; [done| |by apply Hless].
  eapply step_keeps; [done|done|]. by econstructor.
- unfold isValidAction, stateFinished, nz. rewrite (proj2 (Z.eqb_neq (finished s) 0)) by done. cbn. split; [done|lia].
Qed.

(** Reading cards changes only the cards, and keeps the arrays' sizes. *)
Definition card_change (s s' : State) : Prop :=
∃ h b, s' = set_boardCards b (set_holeCards h s) ∧ length h = 10%nat ∧
  (∀ p, 0 ≤ p < 10 → length (at_ h p) = 3%nat) ∧ length b = 7%nat.

Lemma card_change_refl s : state_shape s → card_change s s.
Proof.
intros Sh. exists (holeCards s), (boardCards s). split; [by destruct s|]. split; [apply Sh|]. split; [|apply Sh].
intros p Hp. unfold at_. apply (ss_hole2 _ Sh). lia.
Qed.

Lemma readHoleCards_total string c s : within string c → state_shape s →
∃ r s', readHoleCards (from string c) g s = Ok (r, s') ∧ card_change s s' ∧ (0 ≤ r → within string (c + r)).
Proof.
intros W Sh. pose proof (wd_players _ Wd). pose proof (wd_hole _ Wd). unfold readHoleCards.
match goal with |- context [forR 0 _ _ ?body] =>
  destruct (forR_inv (λ p '(d, s'), card_change s s' ∧ within string (c + d) ∧ 0 ≤ d) (card_change s)
    0 (numPlayers g) (0, s) body) as [([d s'] & -> & Hcc & Wc & _)|(s' & -> & Hcc)]
end.
- lia.
- split; [by apply card_change_refl|]. rewrite Z.add_0_r. done.
- intros p [d s'] Hp ((h & b & -> & L1 & L2 & L3) & Wc & Hd).
  assert (within (from string c) d) as Wf' by (split; [done|]; rewrite <-from_from by (destruct W; lia); apply Wc).
  destruct (skip_sep_within (from string c) 124 p d Wf' ltac:(lia)) as (d' & -> & Wd'). rewrite bind_ok.
  cbn [holeCards set_boardCards set_holeCards]. rewrite rd_ok, bind_ok by lia.
  destruct (readCards_within (from string c) d' (numHoleCards g) (at_ h p) 0) as (n & r & row & -> & Lr & Wr & Hr);
    [done|lia|lia|rewrite L2 by lia; lia|]. rewrite bind_ok, wr_ok, bind_ok by lia. cbv zeta.
  assert (card_change s (set_holeCards (<[Z.to_nat p:=row]> h) (set_boardCards b (set_holeCards h s)))) as Hcc.
  { exists (<[Z.to_nat p:=row]> h), b. split; [done|]. rewrite length_insert. split; [done|]. split; [|done].
    intros q Hq. rewrite at_insert by lia. case_decide; [rewrite Lr; apply L2; lia|by apply L2]. }
  destruct (n =? 0); [|destruct (n =? numHoleCards g)].
  + left. eexists. split; [done|]. split; [done|]. split; [by apply within_app|by destruct Wd'].
  + left. eexists. split; [done|]. split; [done|]. split; [by apply within_app|destruct Wd'; lia].
  + right. by eexists.
- rewrite bind_ok. eexists _, _. split; [done|]. done.
- rewrite bind_ok. eexists _, _. split; [done|]. split; [done|lia].
Qed.

Lemma readBoardCards_total string c s : within string c → comparable g s →
∃ r s', readBoardCards (from string c) g s = Ok (r, s') ∧ card_change s s' ∧ (0 ≤ r → within string (c + r)).
Proof.
intros W C. pose proof (cm_state _ _ C) as Sh. pose proof (cm_round _ _ C). pose proof (wd_rounds _ Wd).
pose proof (gs_board _ (wd_shape _ Wd)). pose proof (wd_board7 _ Wd). unfold readBoardCards.
match goal with |- context [forR 0 _ _ ?body] =>
  destruct (forR_inv (λ p '(d, s'), card_change s s' ∧ within string (c + d) ∧ 0 ≤ d) (card_change s)
    0 (round s + 1) (0, s) body) as [([d s'] & -> & Hcc & Wc & _)|(s' & -> & Hcc)]
end.
- lia.
- split; [by apply card_change_refl|]. rewrite Z.add_0_r. done.
- intros i [d s'] Hi ((h & b & -> & L1 & L2 & L3) & Wc & Hd).
  assert (within (from string c) d) as Wf' by (split; [done|]; rewrite <-from_from by (destruct W; lia); apply Wc).
  destruct (skip_sep_within (from string c) 47 i d Wf' ltac:(lia)) as (d' & -> & Wd'). rewrite bind_ok.
  rewrite rd_ok, bind_ok by lia. destruct (bcStart_ok g s C i ltac:(lia)) as [-> Hb]. rewrite bind_ok.
  pose proof (board_sum_mono g (i + 1) (wd_board _ Wd) ltac:(lia) ltac:(lia)) as Hm. rewrite sumZ_S in Hm by lia.
  pose proof (wd_board _ Wd i ltac:(lia)). cbn [boardCards set_boardCards].
  destruct (readCards_within (from string c) d' (at_ (numBoardCards g) i) b (sumZ (at_ (numBoardCards g)) i))
    as (n & r & b' & -> & Lr & Wr & Hr); [done|lia|lia|lia|]. rewrite !bind_ok. cbv zeta.
  assert (card_change s (set_boardCards b' (set_boardCards b (set_holeCards h s)))) as Hcc
    by (exists h, b'; split; [done|]; split; [done|]; split; [done|congruence]).
  destruct (n =? at_ (numBoardCards g) i); [|right; by eexists].
  left. eexists. split; [done|]. split; [done|]. split; [by apply within_app|destruct Wd'; lia].
- rewrite bind_ok. eexists _, _. split; [done|]. done.
- rewrite bind_ok. eexists _, _. split; [done|]. split; [done|lia].
Qed.

Lemma card_change_inv s s' : inv g s → card_change s s' → inv g s'.
Proof.
intros I (h & b & -> & L1 & L2 & L3).
assert (in_shape g (set_boardCards b (set_holeCards h s))) as Sh.
{ destruct (inv_shape _ _ I) as [? [] ? ? ? ? ? ?]. split; try done. split; try done.
  intros p Hp. specialize (L2 (Z.of_nat p) ltac:(lia)). unfold at_ in L2. by rewrite Nat2Z.id in L2. }
destruct I as [_ ? ? ? ? [] [] ? Hopen]. split; try done; try (by split).
intros Of. destruct (Hopen Of) as (? & m & f & [] & ?). split; [done|]. exists m, f. split; [by split|done].
Qed.

(** A cleared object. *)
Definition cleared (s : State) : Prop :=
state_shape s ∧ ∀ r, 0 ≤ r < numRounds g → at_ (roundSpent s) r = 0.

(** -1, or the characters of the string read and a state of a hand. *)
Definition read_result (string : list Z) (r : Z) (s : State) : Prop :=
r = -1 ∨ 0 ≤ r ∧ within string r ∧ inv g s.

Lemma inv_comparable s : inv g s → comparable g s.
Proof.
intros I. pose proof (inv_shape _ _ I) as Sh. pose proof (is_round _ _ Sh).
split; [done|apply Sh|done|]. intros r Hr. apply (inv_na _ _ I). lia.
Qed.

(** The cards after the betting. *)
Lemma read_cards_total string c s : within string c → inv g s →
∃ r s', ('(r, s) ← readHoleCards (from string c) g s;
    if r <? 0 then Ok (-1, s) else
    let c := c + r in
    '(r, s) ← readBoardCards (from string c) g s;
    if r <? 0 then Ok (-1, s) else Ok (c + r, s)) = Ok (r, s') ∧ read_result string r s'.
Proof.
intros W I. destruct (readHoleCards_total string c s W) as (r1 & s2 & -> & Hc1 & W1); [apply (inv_shape _ _ I)|].
rewrite bind_ok. destruct (Z.ltb_spec r1 0); [eexists _, _; split; [done|by left]|].
pose proof (card_change_inv _ _ I Hc1) as I2. specialize (W1 ltac:(lia)). cbv zeta.
destruct (readBoardCards_total string (c + r1) s2 W1 (inv_comparable _ I2)) as (r2 & s3 & -> & Hc2 & W2).
rewrite bind_ok. destruct (Z.ltb_spec r2 0); [eexists _, _; split; [done|by left]|].
specialize (W2 ltac:(lia)). eexists _, _. split; [done|]. right. split; [destruct W2; lia|]. split; [done|].
by apply (card_change_inv s2).
Qed.

Lemma readStateCommon_tame string s : terminated string → cleared s →
tame (λ '(r, s'), read_result string r s') (readStateCommon string g s).
Proof.
intros T [Sh Hz]. unfold readStateCommon.
destruct (literal_total [58] string T) as (b & -> & Hb); [decided|]. rewrite bind_ok.
destruct b; cbn [negb]; [|by left]. specialize (Hb eq_refl). cbn [length] in Hb.
eapply tame_bind; [apply scan_unsigned_tame, Hb|]. intros o Ho. destruct o as [[hid n]|]; [|by left]. cbv zeta.
specialize (Ho hid n eq_refl). pose proof (within_app _ 1 n Hb Ho) as W1.
destruct (initState_ok g Wf hid s Sh) as (s1 & -> & F). rewrite bind_ok.
pose proof (fresh_inv g Wf hid s s1 F Hz) as I1. destruct (within_rdp string (1 + n) W1) as (ch & -> & Hch). rewrite bind_ok.
destruct (Z.eqb_spec ch 58) as [->|]; cbn [negb]; [|by left]. specialize (Hch ltac:(lia)).
eapply tame_bind; [apply (readBetting_loop_tame (from string (1 + n + 1)) _ 0 s1)|].
- apply within_0, Hch.
- done.
- rewrite from_0. lia.
- intros [r s2] [I2 W2]. destruct (Z.ltb_spec r 0); [by left|]. specialize (W2 ltac:(lia)).
  pose proof (within_app _ _ _ Hch W2) as W3.
  destruct (read_cards_total string (1 + n + 1 + r) s2 W3 I2) as (r3 & s3 & E & R).
  unfold read_result in *. cbv zeta in E. rewrite E. done.
Qed.
End Safe.

(** ** Claims *)

(** C17: On any terminated string whatsoever, [readState] ends: it returns -1, or reads a
    prefix of the string and leaves a state in which the invariant of the betting
    engine holds; it never reads past the terminator, writes outside an array or
    fails an assertion.  The exception is a number too large for its type. *)
Theorem readState_safe g string s :
  wf_game g → wf_deal g → terminated string → cleared g s →
  tame (λ '(r, s'), read_result g string r s') (readState string g s).
Proof.
  intros Wf Wd T Cl. unfold readState.
  destruct (literal_total STATE_ string T) as (b & -> & Hb); [decided|]. rewrite bind_ok.
  destruct b; cbn [negb]; [|by left]. specialize (Hb eq_refl).
  eapply tame_bind; [apply readStateCommon_tame; [done|done|apply Hb|done]|]. intros [r s'] R.
  destruct (Z.ltb_spec r 0); [by left|]. destruct R as [->|(Hr & W & I)]; [lia|].
  right. split; [lia|]. split; [by apply (within_app string 5)|done].
Qed.

Lemma nolimit3p_cleared : cleared nolimit3p zero_state.
Proof.
  split; [apply zero_state_shape|]. intros r Hr. unfold at_, zero_state. cbn [roundSpent].
  cbn in Hr. rewrite lookup_total_replicate_2 by lia. done.
Qed.

(** "STATE:1:r300q" *)
Lemma readState_safe_witness :
  tame (λ '(r, s'), read_result nolimit3p (STATE_ ++ [58; 49; 58; 114; 51; 48; 48; 113; 0]) r s')
    (readState (STATE_ ++ [58; 49; 58; 114; 51; 48; 48; 113; 0]) nolimit3p zero_state).
Proof.
  apply (readState_safe nolimit3p (STATE_ ++ [58; 49; 58; 114; 51; 48; 48; 113; 0]) zero_state
    nolimit3p_wf nolimit3p_deal); [|apply nolimit3p_cleared].
  unfold terminated. decided.
Defined.

(** The same for [readMatchState], whose viewing player is in the game when it succeeds. *)
Fact readMatchState_safe g string ms :
  wf_game g → wf_deal g → terminated string → cleared g (state ms) →
  tame (λ '(r, ms'), r = -1 ∨ 0 ≤ r ∧ within string r ∧ inv g (state ms') ∧ viewingPlayer ms' < numPlayers g)
    (readMatchState string g ms).
Proof.
  intros Wf Wd T Cl. unfold readMatchState.
  destruct (literal_total MATCHSTATE_ string T) as (b & -> & Hb); [decided|]. rewrite bind_ok.
  destruct b; cbn [negb]; [|by left]. specialize (Hb eq_refl). change (Z.of_nat (length MATCHSTATE_)) with 11 in Hb.
  eapply tame_bind; [apply scan_unsigned_tame, Hb|]. intros o Ho. destruct o as [[v n]|]; [|by left]. cbv zeta.
  specialize (Ho v n eq_refl). pose proof (within_app _ _ _ Hb Ho) as W1.
  destruct (Z.leb_spec (numPlayers g) v); [by left|].
  eapply tame_bind; [apply readStateCommon_tame; [done|done|apply W1|done]|]. intros [r s'] R.
  destruct (Z.ltb_spec r 0); [by left|]. destruct R as [->|(Hr & W & I)]; [lia|].
  right. split; [destruct W1; lia|]. split; [by apply within_app|]. split; [done|]. done.
Qed.

Lemma readMatchState_safe_witness :
  tame (λ '(r, ms'), r = -1 ∨ 0 ≤ r ∧ within (MATCHSTATE_ ++ [50; 0]) r ∧ inv nolimit3p (state ms') ∧ viewingPlayer ms' < 3)
    (readMatchState (MATCHSTATE_ ++ [50; 0]) nolimit3p (mkMatchState zero_state 0)).
Proof.
  apply (readMatchState_safe nolimit3p (MATCHSTATE_ ++ [50; 0]) (mkMatchState zero_state 0) nolimit3p_wf nolimit3p_deal);
    [|apply nolimit3p_cleared].
  unfold terminated. decided.
Defined.
