(* ===== verification/GameFileThm.v ===== *)
(** * Theorems on game definition files

    What [readGame] guarantees of a game it returns, the round trip with
    [printGame], and the defects of the reader. *)

From Stdlib Require Import Strings.Ascii Strings.String.
From stdpp Require Import base list list_numbers numbers option sets.
From S2P Require Import Prelude GameDef Betting BettingSpec BettingInv Deal Text Print Read GameFile.
Open Scope Z_scope.

(** ** Lists of numbers *)
Definition nonneg (B : Z) (l : list Z) : Prop := Forall (λ x, 0 ≤ x ≤ B) l.

(** A conversion that reads printed numbers up to [B] and nothing from an empty string. *)
Record scans (B : Z) (scan : list Z → res (option (Z * Z))) : Prop := {
  sc_dec : ∀ x ch rest, 0 ≤ x ≤ B → isdigit ch = false →
    scan (dec x ++ ch :: rest) = Ok (Some (x, Z.of_nat (length (dec x))));
  sc_end : scan [0] = Ok None
}.

Lemma scans_i32 : scans INT32_MAX scan_i32.
Proof. split; [intros; by apply scan_i32_dec|done]. Qed.
Lemma scans_u8 : scans 255 scan_u8.
Proof. split; [intros; apply scan_unsigned_dec; (done || lia)|done]. Qed.

Lemma dec_signed_nonneg x : 0 ≤ x → dec_signed x = dec x.
Proof. intros. unfold dec_signed. by rewrite (proj2 (Z.ltb_ge x 0)) by lia. Qed.

Lemma nums_cons x l : 0 ≤ x → nums (x :: l) = 32 :: dec x ++ nums l.
Proof. intros. unfold nums. cbn. by rewrite dec_signed_nonneg. Qed.

(** What follows a number starts with no digit. *)
Lemma nums_head l : ∃ ch rest, nums l ++ [10; 0] = ch :: rest ∧ isdigit ch = false.
Proof. destruct l as [|x l]; [by eexists _, _|]. cbn. by eexists _, _. Qed.

Lemma digit_no_space x s : 0 ≤ x ≤ INT32_MAX → consumeSpaces (dec x ++ s) true = Ok 0.
Proof.
  intros Hx. destruct (dec_spec x) as (D & _ & NE & _); [unfold INT32_MAX in *; lia|].
  destruct (dec x) as [|ch t]; [done|]. inversion D as [|? ? Hd _]; subst. cbn [app consumeSpaces].
  unfold isdigit in Hd. unfold isspace. assert ((ch =? 61) = false) as -> by lia.
  assert ((ch =? 32) || ((9 <=? ch) && (ch <=? 13)) = false) as -> by lia.
  by rewrite Bool.andb_false_r.
Qed.

Section Items.
Context (B : Z) (scan : list Z → res (option (Z * Z))) (Sc : scans B scan) (HB : B ≤ INT32_MAX).

Definition blanks (sp : list Z) : Prop := Forall (λ ch, ch ≠ 0 ∧ isspace ch || (ch =? 61) = true) sp.

Lemma consumeSpaces_app sp s : blanks sp →
consumeSpaces (sp ++ s) true = (i ← consumeSpaces s true; Ok (Z.of_nat (length sp) + i)).
Proof.
induction 1 as [|ch sp [H0 H1] _ IH]; cbn [app consumeSpaces length].
- destruct (consumeSpaces s true); done.
- rewrite (proj2 (Z.eqb_neq ch 0)) by done. cbn [negb andb]. rewrite H1, IH.
  destruct (consumeSpaces s true); cbn; [|done]. f_equal. lia.
Qed.

Definition item_step (string : list Z) (i : Z) (st : Z * list Z) : res ((Z * list Z) + (Z * Z * list Z)) :=
let '(c, items) := st in
sp ← consumeSpaces (from string c) true;
let c := c + sp in
o ← scan (from string c);
match o with
| None => Ok (inr (i, c, items))
| Some (v, r) => items ← wr items i v; Ok (inl (c + r, items))
end.

Lemma item_step_end string sp c i arr :
0 ≤ c → blanks sp → from string c = sp ++ [10; 0] →
∃ c', item_step string i (c, arr) = Ok (inr (i, c', arr)).
Proof.
intros Hc Hsp Hs. unfold item_step. rewrite Hs, consumeSpaces_app by done.
change (consumeSpaces [10; 0] true) with (@Ok Z 1). cbn [mbind res_bind].
rewrite from_from, Hs by lia. rewrite from_from, from_app by (done || lia).
change (from [10; 0] 1) with [0]. rewrite (sc_end _ _ Sc). cbn. eauto.
Qed.

Lemma item_step_num string sp x l c i arr :
0 ≤ c → blanks sp → 0 ≤ x ≤ B → from string c = sp ++ nums (x :: l) ++ [10; 0] →
0 ≤ i < Z.of_nat (length arr) →
∃ c', 0 ≤ c' ∧ item_step string i (c, arr) = Ok (inl (c', <[Z.to_nat i := x]> arr)) ∧
  from string c' = nums l ++ [10; 0].
Proof.
intros Hc Hsp Hx Hs Hi. rewrite nums_cons in Hs by lia. cbn [app] in Hs. rewrite <-app_assoc in Hs.
destruct (nums_head l) as (ch & rest & Eh & Hd).
assert (from string (c + (Z.of_nat (length sp) + 1)) = dec x ++ nums l ++ [10; 0]) as F1.
{ rewrite from_from, Hs by lia. rewrite from_from, from_app by (done || lia). done. }
exists (c + (Z.of_nat (length sp) + 1) + Z.of_nat (length (dec x))). split; [lia|]. split.
- unfold item_step. rewrite Hs, consumeSpaces_app by done. cbn [consumeSpaces].
  change (isspace 32) with true. cbn [negb andb orb Z.eqb]. rewrite digit_no_space by lia.
  cbn [mbind res_bind]. change (0 + 1) with 1. rewrite F1, Eh, (sc_dec _ _ Sc) by done. cbn [mbind res_bind].
  by rewrite wr_ok by lia.
- rewrite from_from, F1 by lia. by apply from_app.
Qed.

Lemma stored_cons arr k x l arr' :
0 ≤ k < Z.of_nat (length arr) → stored (<[Z.to_nat k := x]> arr) (k + 1) l arr' → stored arr k (x :: l) arr'.
Proof.
intros Hk [L A]. split; [by rewrite L, length_insert|].
intros j Hj. rewrite A by done. rewrite at_insert by lia. cbn [length].
destruct (decide (k = j)) as [<-|].
- rewrite (proj2 (Z.leb_gt (k + 1) k)), (proj2 (Z.leb_le k k)) by lia. cbn [andb].
  rewrite (proj2 (Z.ltb_lt k (k + _))) by lia. by rewrite Z.sub_diag.
- destruct (Z.leb_spec k j), (Z.leb_spec (k + 1) j), (Z.ltb_spec j (k + 1 + Z.of_nat (length l))),
    (Z.ltb_spec j (k + Z.of_nat (S (length l)))); cbn [andb]; try lia; try done.
  unfold at_. replace (Z.to_nat (j - k)) with (S (Z.to_nat (j - (k + 1)))) by lia. done.
Qed.

(** The loop on what is left of a line of numbers, with [k] items stored already. *)
Lemma readItems_loop string l : ∀ sp c k n arr,
0 ≤ c → blanks sp → from string c = sp ++ nums l ++ [10; 0] → nonneg B l →
0 ≤ k → k + Z.of_nat (length l) ≤ n → k + Z.of_nat (length l) ≤ Z.of_nat (length arr) →
∃ c' arr',
  (o ← foldR (item_step string) (seqZ k (n - k)) (c, arr);
   Ok (match o with inl (c, items) => (n, c, items) | inr x => x end)) = Ok (k + Z.of_nat (length l), c', arr') ∧
  stored arr k l arr'.
Proof.
induction l as [|x l IH]; intros sp c k n arr Hc Hsp Hs Hl Hk Hn Ha.
- cbn [length] in *. rewrite Z.add_0_r in *. destruct (Z.eq_dec n k) as [->|].
  + rewrite seqZ_nil_le by lia. cbn. eexists _, _. split; [done|]. apply stored_nil.
  + rewrite seqZ_cons by lia. cbn [foldR]. destruct (item_step_end string sp c k arr Hc Hsp Hs) as (c' & ->). cbn.
    eexists _, _. split; [done|]. apply stored_nil.
- inversion Hl as [|? ? Hx Hl']; subst. cbn [length] in Hn, Ha. rewrite seqZ_cons by lia. cbn [foldR].
  destruct (item_step_num string sp x l c k arr Hc Hsp Hx Hs ltac:(lia)) as (c1 & Hc1 & -> & Hs1).
  rewrite bind_ok, <-Z.add_1_r. replace (Z.pred (n - k)) with (n - (k + 1)) by lia.
  destruct (IH [] c1 (k + 1) n (<[Z.to_nat k := x]> arr)) as (c' & arr' & -> & Sd); try done; try lia.
  + constructor.
  + rewrite length_insert. lia.
  + exists c', arr'. split; [do 3 f_equal; cbn [length]; lia|]. apply stored_cons; [lia|done].
Qed.

(** A printed list of numbers is read into the array. *)
Lemma readItems_line l n arr :
nonneg B l → Z.of_nat (length l) ≤ n → Z.of_nat (length l) ≤ Z.of_nat (length arr) →
∃ c arr', readItems scan n (bytes " =" ++ nums l ++ [10; 0]) true arr = Ok (Z.of_nat (length l), c, arr') ∧
  stored arr 0 l arr'.
Proof.
intros Hl Hn Ha.
destruct (readItems_loop (bytes " =" ++ nums l ++ [10; 0]) l (bytes " =") 0 0 n arr) as (c & arr' & E & S); try done; try lia.
- repeat constructor; done.
- exists c, arr'. split; [|done]. unfold readItems, forR. rewrite Z.add_0_l in E. exact E.
Qed.
End Items.

(** ** Lines *)
Lemma fgets_bytes_line n body rest : Forall (λ ch, ch ≠ 10) body → (length body < n)%nat →
  fgets_bytes n (body ++ 10 :: rest) = (body ++ [10], rest).
Proof.
  intros Hb. revert n. induction Hb as [|ch body Hc _ IH]; intros n Hn; (destruct n as [|n]; [cbn in Hn; lia|]); cbn [app fgets_bytes].
  - done.
  - rewrite (proj2 (Z.eqb_neq ch 10)), IH by (done || (cbn in Hn; lia)). done.
Qed.

Lemma fgets_line body rest : Forall (λ ch, ch ≠ 10) body → Z.of_nat (length body) < 4095 →
  fgets MAX_LINE_LEN (body ++ 10 :: rest) = Some (body ++ [10; 0], rest).
Proof.
  intros Hb Hl. unfold fgets. destruct (body ++ 10 :: rest) as [|ch t] eqn:E; [by destruct body|]. rewrite <-E.
  rewrite fgets_bytes_line by (done || (unfold MAX_LINE_LEN; lia)). by rewrite <-app_assoc.
Qed.

Lemma nums_plain B l : B ≤ INT32_MAX → nonneg B l →
  Forall (λ ch, ch ≠ 10) (nums l) ∧ (length (nums l) ≤ 11 * length l)%nat.
Proof.
  intros HB. induction 1 as [|x l Hx _ [IH1 IH2]]; [by split|]. rewrite nums_cons by lia.
  destruct (dec_spec x) as (D & _); [unfold INT32_MAX in *; lia|].
  pose proof (dec_u32_length x ltac:(unfold INT32_MAX in *; lia)). split.
  - constructor; [done|]. apply Forall_app. split; [|done].
    eapply Forall_impl; [apply D|]. intros ch Hd ->. done.
  - cbn [length]. rewrite length_app. lia.
Qed.

(** The file [file] turns the variables [r] into [r']. *)
Definition reads (file : list Z) (r r' : Reading) : Prop :=
  ∀ fuel, (length file < fuel)%nat → readGame_lines fuel file r = Ok r'.

(** A keyword as [printGame] writes it, and what the reader does with the rest of its line. *)
Definition handles (kw : list Z) (handle : list Z → Reading → res Reading) : Prop :=
  Forall (λ ch, ch ≠ 10) kw ∧ (length kw ≤ 20)%nat ∧
  ∀ tail, (∃ ch, rdp (kw ++ tail) 0 = Ok ch ∧ (ch =? 35) || (ch =? 10) = false) ∧
    strncasecmp (bytes "end gamedef") (kw ++ tail) = Ok false ∧
    ∀ r, dispatch (kw ++ tail) keywords r = handle tail r.

Lemma reads_raw kw body rest r r1 r' handle :
  handles kw handle → Forall (λ ch, ch ≠ 10) body → (length body ≤ 1000)%nat →
  handle (body ++ [10; 0]) r = Ok r1 → reads rest r1 r' → reads (kw ++ body ++ 10 :: rest) r r'.
Proof.
  intros (Hk & Lk & Hd) Hb Lb Hh Hr fuel Hf. rewrite !length_app in Hf. cbn [length] in Hf.
  destruct fuel as [|fuel]; [lia|]. cbn [readGame_lines].
  rewrite app_assoc, fgets_line; [|by apply Forall_app|rewrite length_app; lia].
  rewrite <-app_assoc. destruct (Hd (body ++ [10; 0])) as ((ch & -> & Hch) & Hend & Hdis).
  rewrite bind_ok, Hch, Hend, bind_ok, Hdis, Hh, bind_ok. apply Hr. lia.
Qed.

Lemma reads_nums B kw l rest r r1 r' handle :
  B ≤ INT32_MAX → nonneg B l → (length l ≤ 10)%nat → handles kw handle →
  handle (bytes " =" ++ nums l ++ [10; 0]) r = Ok r1 → reads rest r1 r' → reads (line_of kw l ++ rest) r r'.
Proof.
  intros HB Hl Ll Hk Hh Hr. destruct (nums_plain B l HB Hl) as [P L]. unfold line_of. rewrite <-!app_assoc.
  rewrite (app_assoc (bytes " =") (nums l)). apply (reads_raw kw _ _ r r1 r' handle); try done.
  - apply Forall_app. split; [repeat constructor; done|done].
  - rewrite length_app. cbn. lia.
Qed.

Lemma reads_end r : reads (bytes "END GAMEDEF" ++ [10]) r r.
Proof. intros fuel Hf. destruct fuel as [|fuel]; [cbn in Hf; lia|]. reflexivity. Qed.

(** Checks [handles] for a printed keyword. *)
Ltac handled := split; [repeat constructor; done|]; split; [cbn; lia|];
  intros tail; split; [eexists; split; reflexivity|]; split; [reflexivity|intros; reflexivity].

Lemma handles_gamedef : handles (bytes "GAMEDEF") (λ _ r, Ok r).
Proof. handled. Qed.
Lemma handles_stack : handles (bytes "stack") (λ rest r,
  '(n, _, x) ← readItems scan_i32 MAX_PLAYERS rest true (stack (game r));
  Ok (mkReading (set_stack x (game r)) n (blindRead r) (raiseSizeRead r) (boardCardsRead r))).
Proof. handled. Qed.
Lemma handles_blind : handles (bytes "blind") (λ rest r,
  '(n, _, x) ← readItems scan_i32 MAX_PLAYERS rest true (blind (game r));
  Ok (mkReading (set_blind x (game r)) (stackRead r) n (raiseSizeRead r) (boardCardsRead r))).
Proof. handled. Qed.
Lemma handles_raiseSize : handles (bytes "raiseSize") (λ rest r,
  '(n, _, x) ← readItems scan_i32 MAX_PLAYERS rest true (raiseSize (game r));
  Ok (mkReading (set_raiseSize x (game r)) (stackRead r) (blindRead r) n (boardCardsRead r))).
Proof. handled. Qed.
Lemma handles_limit : handles (bytes "limit") (λ _ r, Ok (upd_game r (set_bettingType limitBetting))).
Proof. handled. Qed.
Lemma handles_nolimit : handles (bytes "nolimit") (λ _ r, Ok (upd_game r (set_bettingType noLimitBetting))).
Proof. handled. Qed.
Lemma handles_firstPlayer : handles (bytes "firstPlayer") (λ rest r,
  '(_, _, x) ← readItems scan_u8 MAX_ROUNDS rest true (firstPlayer (game r));
  Ok (upd_game r (set_firstPlayer x))).
Proof. handled. Qed.
Lemma handles_maxRaises : handles (bytes "maxRaises") (λ rest r,
  '(_, _, x) ← readItems scan_u8 MAX_ROUNDS rest true (maxRaises (game r));
  Ok (upd_game r (set_maxRaises x))).
Proof. handled. Qed.
Lemma handles_numBoardCards : handles (bytes "numBoardCards") (λ rest r,
  '(n, _, x) ← readItems scan_u8 MAX_ROUNDS rest true (numBoardCards (game r));
  Ok (mkReading (set_numBoardCards x (game r)) (stackRead r) (blindRead r) (raiseSizeRead r) n)).
Proof. handled. Qed.
Lemma handles_u8 : handles (bytes "numPlayers") (read_u8 numPlayers set_numPlayers) ∧
  handles (bytes "numRounds") (read_u8 numRounds set_numRounds) ∧
  handles (bytes "numSuits") (read_u8 numSuits set_numSuits) ∧
  handles (bytes "numRanks") (read_u8 numRanks set_numRanks) ∧
  handles (bytes "numHoleCards") (read_u8 numHoleCards set_numHoleCards).
Proof. split_and!; handled. Qed.

Lemma read_u8_line get set v r : 0 ≤ v ≤ 255 →
  read_u8 get set (bytes " =" ++ nums [v] ++ [10; 0]) r = Ok (upd_game r (set v)).
Proof.
  intros Hv. unfold read_u8.
  destruct (readItems_line 255 scan_u8 scans_u8 ltac:(unfold INT32_MAX; lia) [v] 1 [get (game r)]) as (c & x & -> & [L A]).
  - constructor; [done|constructor].
  - cbn. lia.
  - cbn. lia.
  - rewrite bind_ok. cbn [length] in L. rewrite rd_ok by lia. rewrite A by lia. cbn. done.
Qed.

(** ** The checks *)
Lemma blind_over_stack_ok g : length (blind g) = 10%nat → length (stack g) = 10%nat → 0 ≤ numPlayers g ≤ 10 →
  blind_over_stack g = Ok (negb (forallb (λ p, at_ (blind g) p <=? at_ (stack g) p) (seqZ 0 (numPlayers g)))).
Proof.
  intros L1 L2 Hn. unfold blind_over_stack.
  rewrite (forR_forallb (λ p, at_ (blind g) p <=? at_ (stack g) p) 0 (numPlayers g) _ tt).
  - rewrite bind_ok, Z.sub_0_r. by destruct (forallb _ _).
  - intros i Hi. rewrite !rd_ok by lia. rewrite !bind_ok. rewrite Z.ltb_antisym. by destruct (_ <=? _).
Qed.

Lemma check_firstPlayer_ok g :
  length (firstPlayer g) = 4%nat → 0 ≤ numRounds g ≤ 4 → numPlayers g ≤ 10 →
  (∀ j, 0 ≤ j < numRounds g → 0 ≤ at_ (firstPlayer g) j) →
  (∃ fps, check_firstPlayer g = Ok (inl (set_firstPlayer fps g)) ∧ length fps = 4%nat ∧
    ∀ j, 0 ≤ j < numRounds g → 1 ≤ at_ (firstPlayer g) j ≤ numPlayers g ∧ at_ fps j = at_ (firstPlayer g) j - 1) ∨
  (check_firstPlayer g = Ok (inr tt) ∧
    ∃ j, 0 ≤ j < numRounds g ∧ ¬ (1 ≤ at_ (firstPlayer g) j ≤ numPlayers g)).
Proof.
  intros L Hr Hn H0. unfold check_firstPlayer.
  destruct (forR_inv (λ c g', ∃ fps, g' = set_firstPlayer fps g ∧ length fps = 4%nat ∧
      (∀ j, 0 ≤ j → at_ fps j = if j <? c then at_ (firstPlayer g) j - 1 else at_ (firstPlayer g) j) ∧
      ∀ j, 0 ≤ j < c → 1 ≤ at_ (firstPlayer g) j ≤ numPlayers g)
    (λ u : unit, u = tt ∧ ∃ j, 0 ≤ j < numRounds g ∧ ¬ (1 ≤ at_ (firstPlayer g) j ≤ numPlayers g)) 0 (numRounds g) g
    (λ c g, fp ← rd (firstPlayer g) c;
      if (fp =? 0) || (numPlayers g <? fp) then Ok (inr tt) else
      fps ← wr (firstPlayer g) c (u8 (fp - 1)); Ok (inl (set_firstPlayer fps g))))
    as [(g' & E & fps & -> & Lf & A & R)|(u & E & -> & HR)].
  - lia.
  - exists (firstPlayer g). split; [by destruct g|]. split; [done|]. split; [|lia].
    intros j Hj. by rewrite (proj2 (Z.ltb_ge j 0)) by lia.
  - intros c g' Hc (fps & -> & Lf & A & R). cbn [firstPlayer set_firstPlayer numPlayers].
    rewrite rd_ok, bind_ok by lia. rewrite A, Z.ltb_irrefl by lia. pose proof (H0 c ltac:(lia)).
    destruct (Z.eqb_spec (at_ (firstPlayer g) c) 0); cbn [orb];
      [right; eexists; split; [done|]; split; [done|]; exists c; lia|].
    destruct (Z.ltb_spec (numPlayers g) (at_ (firstPlayer g) c));
      [right; eexists; split; [done|]; split; [done|]; exists c; lia|].
    left. rewrite wr_ok, bind_ok by lia. eexists. split; [done|]. eexists. split; [done|].
    rewrite length_insert. split; [done|]. split.
    + intros j Hj. rewrite at_insert, A by lia. rewrite u8_small by lia.
      destruct (decide (c = j)) as [<-|]; [by rewrite (proj2 (Z.ltb_lt c (c + 1))) by lia|].
      destruct (Z.ltb_spec j c), (Z.ltb_spec j (c + 1)); lia || done.
    + intros j Hj. destruct (Z.eq_dec j c) as [->|]; [lia|]. apply R. lia.
  - left. exists fps. split; [done|]. split; [done|]. intros j Hj. split; [by apply R|].
    rewrite A by lia. by rewrite (proj2 (Z.ltb_lt j _)) by lia.
  - right. done.
Qed.

Lemma cards_total_ok g : length (numBoardCards g) = 4%nat → 0 ≤ numRounds g ≤ 4 →
  for_ 0 (numRounds g) (numHoleCards g * numPlayers g) (λ c t, nb ← rd (numBoardCards g) c; Ok (t + nb)) =
  Ok (numHoleCards g * numPlayers g + boardTotal g).
Proof.
  intros L Hr.
  destruct (for_inv (λ c t, t = numHoleCards g * numPlayers g + sumZ (at_ (numBoardCards g)) c) 0 (numRounds g)
    (numHoleCards g * numPlayers g) (λ c t, nb ← rd (numBoardCards g) c; Ok (t + nb))) as (t & E & ->); [lia| | |done].
  - change (sumZ _ 0) with 0. lia.
  - intros c t Hc ->. rewrite rd_ok, bind_ok by lia. eexists. split; [done|]. rewrite sumZ_S by lia. lia.
Qed.

(** What the checks establish. *)
Record checked (g : Game) : Prop := {
  ch_shape : game_shape g;
  ch_rounds : 1 ≤ numRounds g ≤ 4;
  ch_players : 2 ≤ numPlayers g ≤ 10;
  ch_blind : ∀ p, 0 ≤ p < numPlayers g → at_ (blind g) p ≤ at_ (stack g) p;
  ch_first : ∀ r, 0 ≤ r < numRounds g → 0 ≤ at_ (firstPlayer g) r < numPlayers g;
  ch_suits : 1 ≤ numSuits g ≤ 4;
  ch_ranks : 1 ≤ numRanks g ≤ 13;
  ch_hole : 1 ≤ numHoleCards g ≤ 3;
  ch_deck : numHoleCards g * numPlayers g + boardTotal g ≤ numSuits g * numRanks g
}.

(** The variables during the reading: array bounds, and bytes in byte fields. *)
Record reading_ok (r : Reading) : Prop := {
  ro_shape : game_shape (game r);
  ro_first : ∀ j, 0 ≤ j < 4 → 0 ≤ at_ (firstPlayer (game r)) j;
  ro_board : ∀ j, 0 ≤ j < 4 → 0 ≤ at_ (numBoardCards (game r)) j;
  ro_players : 0 ≤ numPlayers (game r);
  ro_rounds : 0 ≤ numRounds (game r);
  ro_suits : 0 ≤ numSuits (game r);
  ro_ranks : 0 ≤ numRanks (game r);
  ro_hole : 0 ≤ numHoleCards (game r)
}.

Lemma reject_if_inv b k g : reject_if b k = Ok (Some g) → b = false ∧ k = Ok (Some g).
Proof. by destruct b. Qed.

Lemma readGame_checks_some r g : reading_ok r → readGame_checks r = Ok (Some g) →
  checked g ∧ ∃ fps, g = set_firstPlayer fps (game r) ∧ length fps = 4%nat.
Proof.
  intros [Sh Hf Hb _ Hr Hs Hk Hh] E. unfold readGame_checks in E. unfold MAX_ROUNDS, MAX_PLAYERS, MAX_SUITS, MAX_RANKS, MAX_HOLE_CARDS in E.
  destruct Sh as [S1 S2 S3 S4 S5 S6].
  apply reject_if_inv in E as [E1 E]. apply reject_if_inv in E as [E2 E]. apply reject_if_inv in E as [E3 E].
  apply reject_if_inv in E as [E4 E]. apply orb_false_iff in E1 as [?%Z.eqb_neq ?%Z.ltb_ge].
  apply orb_false_iff in E2 as [?%Z.ltb_ge ?%Z.ltb_ge]. rewrite blind_over_stack_ok, bind_ok in E by (done || lia).
  apply reject_if_inv in E as [E5 E]. apply reject_if_inv in E as [_ E].
  apply negb_false_iff in E5. rewrite forallb_forall in E5.
  destruct (check_firstPlayer_ok (game r)) as [(fps & Ec & Lf & Hfp)|(Ec & _)];
    [done|lia|lia|intros; apply Hf; lia|rewrite Ec, bind_ok in E|by rewrite Ec in E].
  apply reject_if_inv in E as [E6 E]. apply reject_if_inv in E as [E7 E]. apply reject_if_inv in E as [E8 E].
  apply reject_if_inv in E as [_ E]. cbn [numSuits numRanks numHoleCards set_firstPlayer] in *.
  apply orb_false_iff in E6 as [?%Z.eqb_neq ?%Z.ltb_ge]. apply orb_false_iff in E7 as [?%Z.eqb_neq ?%Z.ltb_ge].
  apply orb_false_iff in E8 as [?%Z.eqb_neq ?%Z.ltb_ge].
  pose proof (cards_total_ok (set_firstPlayer fps (game r)) S6 ltac:(cbn; lia)) as Et.
  cbn [numRounds numHoleCards numPlayers numBoardCards set_firstPlayer] in Et, E. rewrite Et, bind_ok in E.
  apply reject_if_inv in E as [E9%Z.ltb_ge [= <-]].
  split; [|by exists fps]. split; cbn [numRounds numPlayers blind stack firstPlayer numSuits numRanks numHoleCards set_firstPlayer]; try done; try lia.
  - intros p Hp. apply Z.leb_le, E5. apply list_elem_of_In, elem_of_seqZ. lia.
  - intros j Hj. destruct (Hfp j Hj). lia.
Qed.

(** ** Whatever the file holds *)
Lemma foldR_keeps {A S R} (P : S → Prop) (Q : R → Prop) (body : A → S → res (S + R)) l s o :
  P s → (∀ i s o, P s → body i s = Ok o → match o with inl s' => P s' | inr r => Q r end) →
  foldR body l s = Ok o → match o with inl s' => P s' | inr r => Q r end.
Proof.
  intros HP Hb. revert s HP. induction l as [|x l IH]; intros s HP E; cbn in E; [by injection E as <-|].
  apply bind_Ok_inv in E as (o1 & E1 & E). pose proof (Hb x s o1 HP E1) as H1. destruct o1 as [s1|r]; [exact (IH s1 H1 E)|].
  by injection E as <-.
Qed.

Definition all_nonneg (l : list Z) : Prop := ∀ j, 0 ≤ j < Z.of_nat (length l) → 0 ≤ at_ l j.

Lemma scan_digits_nonneg s acc k v n : 0 ≤ acc → scan_digits s acc k = Ok (v, n) → 0 ≤ v.
Proof.
  revert acc k. induction s as [|ch s IH]; intros acc k Ha E; cbn in E; [done|].
  destruct (isdigit ch) eqn:D; [|by injection E as <- _]. apply (IH _ _) in E; [done|]. unfold isdigit in D. lia.
Qed.

Lemma scan_u8_nonneg s v n : scan_u8 s = Ok (Some (v, n)) → 0 ≤ v.
Proof.
  unfold scan_u8, scan_unsigned, scan_number. intros E. apply bind_Ok_inv in E as (o & E1 & E).
  apply bind_Ok_inv in E1 as (sp & _ & E1). apply bind_Ok_inv in E1 as (ch & _ & E1).
  apply bind_Ok_inv in E1 as ([w k] & Ew & E1). apply scan_digits_nonneg in Ew; [|lia].
  destruct (k =? 0); injection E1 as <-; [done|]. destruct (w <=? 255); [|done]. injection E as <- _.
  destruct (ch =? 45); [|done]. apply Z.mod_pos_bound. lia.
Qed.

Lemma readItems_keeps scan n string eq items k c items' :
  readItems scan n string eq items = Ok (k, c, items') →
  length items' = length items ∧
  ((∀ s v m, scan s = Ok (Some (v, m)) → 0 ≤ v) → all_nonneg items → all_nonneg items').
Proof.
  unfold readItems, forR. intros E. apply bind_Ok_inv in E as (o & Ef & E).
  assert (match o with
    | inl s' => length s'.2 = length items ∧ ((∀ s v m, scan s = Ok (Some (v, m)) → 0 ≤ v) → all_nonneg items → all_nonneg s'.2)
    | inr r => length r.2 = length items ∧ ((∀ s v m, scan s = Ok (Some (v, m)) → 0 ≤ v) → all_nonneg items → all_nonneg r.2)
    end) as H.
  { refine (foldR_keeps _ _ _ _ _ _ _ _ Ef); [done|]. intros i [d cs] o' [L N] Eb. cbn [snd] in *.
    apply bind_Ok_inv in Eb as (sp & _ & Eb). cbv zeta in Eb. apply bind_Ok_inv in Eb as (x & Ex & Eb).
    destruct x as [[v m]|]; [|by injection Eb as <-].
    apply bind_Ok_inv in Eb as (cs' & Ew & Eb). injection Eb as <-. cbn [snd].
    unfold wr in Ew. destruct (_ && _) eqn:Eb; [|done]. injection Ew as <-. rewrite length_insert. split; [done|].
    intros Hs Hi j Hj. rewrite length_insert in Hj. rewrite at_insert by lia. case_decide; [exact (Hs _ _ _ Ex)|]. by apply (N Hs Hi). }
  destruct o as [[d cs]|[[m d] cs]]; injection E as <- <- <-; done.
Qed.

Definition keeps (h : list Z → Reading → res Reading) : Prop :=
  ∀ rest r r', reading_ok r → h rest r = Ok r' → reading_ok r'.

Lemma shape_arrays g : game_shape g →
  length (stack g) = 10%nat ∧ length (blind g) = 10%nat ∧ length (raiseSize g) = 4%nat ∧
  length (firstPlayer g) = 4%nat ∧ length (maxRaises g) = 4%nat ∧ length (numBoardCards g) = 4%nat.
Proof. by intros []. Qed.

(** The fields of a shape after one array was replaced. *)
Ltac reshape := repeat match goal with H : reading_ok _ |- _ => destruct H as [[] ? ? ? ? ? ? ?] end;
  split; [split; cbn in *; try done; congruence|cbn in *..]; try done.

Lemma read_u8_keeps get set rest r r' : 0 ≤ get (game r) →
  read_u8 get set rest r = Ok r' → ∃ v, 0 ≤ v ∧ r' = upd_game r (set v).
Proof.
  intros Hg E. unfold read_u8 in E. apply bind_Ok_inv in E as ([[k c] x] & Ei & E).
  destruct (readItems_keeps _ _ _ _ _ _ _ _ Ei) as [L N]. cbn [length] in L.
  apply bind_Ok_inv in E as (v & Ev & E). injection E as <-. exists v. split; [|done].
  rewrite rd_ok in Ev by lia. injection Ev as <-. apply N; [intros; by eapply scan_u8_nonneg| |lia].
  intros j Hj. cbn in Hj. assert (j = 0) as -> by lia. done.
Qed.

Lemma keywords_keep : Forall (λ e, keeps (snd e)) keywords.
Proof.
  repeat apply Forall_cons_2; try apply Forall_nil_2; intros rest r r' R E; cbn [snd] in E.
  all: try (injection E as <-; reshape; fail).
  all: try match type of E with read_u8 ?get ?set ?rest ?r = _ =>
    destruct (read_u8_keeps get set rest r r') as (v & Hv & ->); [apply R|done|reshape]; fail end.
  all: apply bind_Ok_inv in E as ([[k c] x] & Ei & E); injection E as <-;
    destruct (readItems_keeps _ _ _ _ _ _ _ _ Ei) as [L N]; specialize (N scan_u8_nonneg) || clear N.
  all: try (reshape; fail).
  - pose proof (gs_first _ (ro_shape _ R)) as Lf. pose proof (ro_first _ R) as Hf. reshape.
    intros j Hj. apply N; [|lia]. intros i Hi. apply Hf. lia.
  - pose proof (gs_board _ (ro_shape _ R)) as Lf. pose proof (ro_board _ R) as Hf. reshape.
    intros j Hj. apply N; [|lia]. intros i Hi. apply Hf. lia.
Qed.

Lemma dispatch_keeps line table r r' :
  Forall (λ e, keeps (snd e)) table → reading_ok r → dispatch line table r = Ok r' → reading_ok r'.
Proof.
  induction 1 as [|[kw h] table Hk _ IH]; cbn; intros R E; [by injection E as <-|].
  apply bind_Ok_inv in E as (b & _ & E). destruct b; [by eapply Hk|auto].
Qed.

Lemma readGame_lines_keeps fuel file r r' : reading_ok r → readGame_lines fuel file r = Ok r' → reading_ok r'.
Proof.
  revert file r. induction fuel as [|fuel IH]; intros file r R E; cbn [readGame_lines] in E; [done|].
  destruct (fgets _ _) as [[line rest]|]; [|by injection E as <-].
  apply bind_Ok_inv in E as (ch & _ & E). destruct (_ || _); [by eapply IH|].
  apply bind_Ok_inv in E as (b & _ & E). destruct b; [by injection E as <-|].
  apply bind_Ok_inv in E as (r1 & Ed & E). eapply IH; [|done]. by eapply dispatch_keeps; [apply keywords_keep| |].
Qed.

Lemma readGame_init_ok : ∃ r, readGame_init = Ok r ∧ reading_ok r.
Proof.
  eexists. split; [vm_compute; reflexivity|]. split; cbn; try done.
  - intros j Hj. assert (j = 0 ∨ j = 1 ∨ j = 2 ∨ j = 3) as [->|[->|[->| ->]]] by lia; by vm_compute.
  - intros j Hj. assert (j = 0 ∨ j = 1 ∨ j = 2 ∨ j = 3) as [->|[->|[->| ->]]] by lia; by vm_compute.
Qed.

(** C20: Whatever the file holds, a game [readGame] returns has passed every check: rounds,
    players, suits, ranks and hole cards in the ranges of the arrays, blinds within the
    stacks, first players among the players, and a deck large enough for every card.
    It can then be dealt, if it has no more than seven board cards.  The checks do not
    bound the number of board cards, refuse negative blinds, or leave every player
    something to act with after the blinds. *)
Theorem readGame_checked file g : readGame file = Ok (Some g) → checked g ∧ (boardTotal g ≤ 7 → wf_deal g).
Proof.
  unfold readGame. destruct readGame_init_ok as (r0 & -> & R0). rewrite bind_ok. intros E.
  apply bind_Ok_inv in E as (r & El & E). pose proof (readGame_lines_keeps _ _ _ _ R0 El) as R.
  destruct (readGame_checks_some r g R E) as (Ch & fps & -> & Lf). split; [done|]. intros H7.
  destruct Ch as [Sh Hr Hp _ _ Hs Hk Hh Hd]. split; try done; try lia; try (by split). apply (ro_board _ R).
Qed.

(** ** Printing and reading back *)

(** The defaults. *)
Definition reading0 : Reading :=
  mkReading (mkGame (replicate 4 INT32_MAX ++ replicate 6 0) (replicate 10 0) (replicate 4 0) limitBetting 0 0
    (replicate 4 1) (replicate 4 255) 0 0 0 (replicate 4 0)) 4 0 0 0.
Lemma readGame_init_eq : readGame_init = Ok reading0.
Proof. vm_compute. reflexivity. Qed.

Definition pre (n : Z) (a : list Z) : list Z := (λ i, at_ a i) <$> seqZ 0 n.
Definition anyb (n : Z) (a : list Z) (test : Z → bool) : bool := existsb (λ i, test (at_ a i)) (seqZ 0 n).

Lemma firsts_ok n a : 0 ≤ n ≤ Z.of_nat (length a) → firsts n a = Ok (pre n a).
Proof.
  intros Hn. unfold firsts.
  destruct (for_inv (λ i acc, acc = pre i a) 0 n [] (λ i acc, x ← rd a i; Ok (acc ++ [x]))) as (acc & -> & ->);
    [lia|done| |done].
  intros i acc Hi ->. rewrite rd_ok, bind_ok by lia. eexists. split; [done|]. unfold pre.
  by rewrite seqZ_snoc, fmap_app by lia.
Qed.

Lemma print_if_any_ok n a test t : 0 ≤ n ≤ Z.of_nat (length a) →
  print_if_any n a test (Ok t) = Ok (if anyb n a test then t else []).
Proof.
  intros Hn. unfold print_if_any. rewrite (forR_forallb (λ i, negb (test (at_ a i))) 0 n _ t).
  - rewrite bind_ok, Z.sub_0_r. unfold anyb.
    assert (forallb (λ i, negb (test (at_ a i))) (seqZ 0 n) = negb (existsb (λ i, test (at_ a i)) (seqZ 0 n))) as ->.
    { induction (seqZ 0 n) as [|x l IH]; [done|]. cbn. rewrite IH. by destruct (test _). }
    by destruct (existsb _ _).
  - intros i Hi. rewrite rd_ok, bind_ok by lia. by destruct (test _).
Qed.

Lemma anyb_false n a test : anyb n a test = false → ∀ j, 0 ≤ j < n → test (at_ a j) = false.
Proof.
  intros H j Hj. destruct (test (at_ a j)) eqn:E; [|done]. unfold anyb in H.
  assert (existsb (λ i, test (at_ a i)) (seqZ 0 n) = true); [|congruence].
  apply existsb_exists. exists j. split; [|done]. apply list_elem_of_In, elem_of_seqZ. lia.
Qed.

Lemma length_pre n a : 0 ≤ n → Z.of_nat (length (pre n a)) = n.
Proof. intros. unfold pre. rewrite length_fmap, length_seqZ. lia. Qed.

Lemma nonneg_pre B n a : (∀ j, 0 ≤ j < n → 0 ≤ at_ a j ≤ B) → nonneg B (pre n a).
Proof.
  intros H. apply Forall_forall. intros x Hx. apply list_elem_of_fmap in Hx as (j & -> & Hj%elem_of_seqZ).
  apply H. lia.
Qed.

Definition agree (n : Z) (a b : list Z) : Prop := ∀ j, 0 ≤ j < n → at_ a j = at_ b j.

Lemma stored_pre n a b b' : 0 ≤ n → stored b 0 (pre n a) b' → agree n a b' ∧ length b' = length b.
Proof.
  intros Hn [L A]. split; [|done]. intros j Hj. rewrite A by lia. rewrite length_pre by lia.
  rewrite (proj2 (Z.leb_le 0 j)), (proj2 (Z.ltb_lt j _)) by lia. cbn [andb]. rewrite Z.sub_0_r.
  symmetry. by apply at_fmap_seqZ.
Qed.

(** A text that turns the variables [r] into [r1] and leaves the rest of the file. *)
Definition takes (text : list Z) (r r1 : Reading) : Prop :=
  ∀ rest r', reads rest r1 r' → reads (text ++ rest) r r'.

Lemma takes_nil r : takes [] r r.
Proof. by intros rest r'. Qed.
Lemma takes_app t1 t2 r r1 r2 : takes t1 r r1 → takes t2 r1 r2 → takes (t1 ++ t2) r r2.
Proof. intros H1 H2 rest r' H. rewrite <-app_assoc. by apply H1, H2. Qed.
Lemma takes_word kw r r1 handle : handles kw handle → (∀ tail, handle tail r = Ok r1) → takes (kw ++ [10]) r r1.
Proof.
  intros Hk Hh rest r' H. rewrite <-app_assoc. apply (reads_raw kw [] rest r r1 r' handle); [done|constructor|cbn; lia|by apply Hh|done].
Qed.
Lemma takes_nums B kw l r r1 handle :
  B ≤ INT32_MAX → nonneg B l → (length l ≤ 10)%nat → handles kw handle →
  handle (bytes " =" ++ nums l ++ [10; 0]) r = Ok r1 → takes (line_of kw l) r r1.
Proof. intros ? ? ? ? ? rest r' H. by eapply reads_nums. Qed.
Lemma takes_u8 kw get set v r :
  handles kw (read_u8 get set) → 0 ≤ v ≤ 255 → takes (line_of kw [v]) r (upd_game r (set v)).
Proof.
  intros Hk Hv. eapply (takes_nums 255); [unfold INT32_MAX; lia|constructor; [done|constructor]|cbn; lia|done|].
  by apply read_u8_line.
Qed.

(** An array line: the array read agrees with the one printed. *)
Lemma takes_array B scan kw n a k arr r (upd : Z → list Z → Reading) :
  scans B scan → B ≤ INT32_MAX → (∀ j, 0 ≤ j < n → 0 ≤ at_ a j ≤ B) → 0 ≤ n ≤ 10 → n ≤ k →
  n ≤ Z.of_nat (length arr) →
  (∃ handle, handles kw handle ∧ ∀ rest, handle rest r = ('(m, _, x) ← readItems scan k rest true arr; Ok (upd m x))) →
  ∃ arr', takes (line_of kw (pre n a)) r (upd n arr') ∧ agree n a arr' ∧ length arr' = length arr.
Proof.
  intros Sc HB Ha Hn Hk Hl (handle & Hh & He). pose proof (length_pre n a ltac:(lia)) as Lp.
  destruct (readItems_line B scan Sc HB (pre n a) k arr (nonneg_pre B n a Ha)) as (c & arr' & E & S); [lia|lia|].
  exists arr'. split; [|by apply stored_pre; [lia|]].
  eapply (takes_nums B); [done|by apply nonneg_pre|lia|done|]. rewrite He, E, bind_ok. by rewrite Lp.
Qed.

(** What [printGame] can print and [readGame] accepts. *)
Record printable (g : Game) : Prop := {
  pr_checked : checked g;
  pr_stack : ∀ p, 0 ≤ p < numPlayers g → 0 ≤ at_ (stack g) p ≤ INT32_MAX;
  pr_blind : ∀ p, 0 ≤ p < numPlayers g → 0 ≤ at_ (blind g) p;
  pr_raise : bettingType g = limitBetting → ∀ r, 0 ≤ r < numRounds g → 0 ≤ at_ (raiseSize g) r ≤ INT32_MAX;
  pr_max : ∀ r, 0 ≤ r < numRounds g → 0 ≤ at_ (maxRaises g) r ≤ 255;
  pr_board : ∀ r, 0 ≤ r < numRounds g → 0 ≤ at_ (numBoardCards g) r ≤ 255;
  (** the default stacks are for four players *)
  pr_default : numPlayers g ≤ 4 ∨ anyb (numPlayers g) (stack g) (λ x, x <? INT32_MAX) = true
}.

(** The same game, as far as it is used. *)
Record same_game (g g' : Game) : Prop := {
  sg_type : bettingType g' = bettingType g;
  sg_scalars : numPlayers g' = numPlayers g ∧ numRounds g' = numRounds g ∧ numSuits g' = numSuits g ∧
    numRanks g' = numRanks g ∧ numHoleCards g' = numHoleCards g;
  sg_stack : agree (numPlayers g) (stack g) (stack g');
  sg_blind : agree (numPlayers g) (blind g) (blind g');
  sg_raise : bettingType g = limitBetting → agree (numRounds g) (raiseSize g) (raiseSize g');
  sg_first : agree (numRounds g) (firstPlayer g) (firstPlayer g');
  sg_max : agree (numRounds g) (maxRaises g) (maxRaises g');
  sg_board : agree (numRounds g) (numBoardCards g) (numBoardCards g')
}.

Definition stackText (g : Game) : list Z :=
  if anyb (numPlayers g) (stack g) (λ x, x <? INT32_MAX) then line_of (bytes "stack") (pre (numPlayers g) (stack g)) else [].
Definition raiseText (g : Game) : list Z :=
  if decide (bettingType g = limitBetting) then line_of (bytes "raiseSize") (pre (numRounds g) (raiseSize g)) else [].
Definition firstText (g : Game) : list Z :=
  if anyb (numRounds g) (firstPlayer g) (λ x, negb (x =? 0))
  then line_of (bytes "firstPlayer") ((λ x, x + 1) <$> pre (numRounds g) (firstPlayer g)) else [].
Definition maxText (g : Game) : list Z :=
  if anyb (numRounds g) (maxRaises g) (λ x, negb (x =? UINT8_MAX))
  then line_of (bytes "maxRaises") (pre (numRounds g) (maxRaises g)) else [].
Definition typeText (g : Game) : list Z :=
  (if decide (bettingType g = noLimitBetting) then bytes "nolimit" else bytes "limit") ++ [10].

(** The lines before END GAMEDEF. *)
Definition gameText (g : Game) : list Z :=
  (bytes "GAMEDEF" ++ [10]) ++ typeText g ++ line_of (bytes "numPlayers") [numPlayers g] ++
  line_of (bytes "numRounds") [numRounds g] ++ stackText g ++
  line_of (bytes "blind") (pre (numPlayers g) (blind g)) ++ raiseText g ++ firstText g ++ maxText g ++
  line_of (bytes "numSuits") [numSuits g] ++ line_of (bytes "numRanks") [numRanks g] ++
  line_of (bytes "numHoleCards") [numHoleCards g] ++ line_of (bytes "numBoardCards") (pre (numRounds g) (numBoardCards g)).

Section RoundTrip.
Context (g : Game) (Pr : printable g).

Local Ltac ranges :=
pose proof (pr_checked _ Pr) as Ch; destruct (ch_shape _ Ch) as [S1 S2 S3 S4 S5 S6];
pose proof (ch_rounds _ Ch); pose proof (ch_players _ Ch); pose proof (ch_suits _ Ch);
pose proof (ch_ranks _ Ch); pose proof (ch_hole _ Ch).

Lemma printGame_ok : printGame g = Ok (gameText g ++ bytes "END GAMEDEF" ++ [10]).
Proof.
ranges. unfold printGame. rewrite !firsts_ok, !bind_ok by lia. rewrite !print_if_any_ok, !bind_ok by lia.
unfold gameText, typeText, raiseText.
destruct (decide (bettingType g = limitBetting)); cbn [mbind res_bind]; rewrite <-!app_assoc; done.
Qed.

Lemma takes_type r : takes (typeText g) r (upd_game r (set_bettingType (bettingType g))).
Proof.
unfold typeText. destruct (decide (bettingType g = noLimitBetting)) as [->|N].
- by eapply takes_word; [apply handles_nolimit|].
- replace (bettingType g) with limitBetting by (by destruct (bettingType g)).
  by eapply takes_word; [apply handles_limit|].
Qed.

Lemma takes_stack r :
length (stack (game r)) = 10%nat → stackRead r = 4 → (∀ p, 0 ≤ p < 4 → at_ (stack (game r)) p = INT32_MAX) →
∃ st k, takes (stackText g) r (mkReading (set_stack st (game r)) k (blindRead r) (raiseSizeRead r) (boardCardsRead r)) ∧
  agree (numPlayers g) (stack g) st ∧ length st = 10%nat ∧ numPlayers g ≤ k.
Proof.
intros L Hk Hd. ranges. unfold stackText. destruct (anyb _ _ _) eqn:Ea.
- destruct (takes_array INT32_MAX scan_i32 (bytes "stack") (numPlayers g) (stack g) MAX_PLAYERS (stack (game r)) r
    (λ n x, mkReading (set_stack x (game r)) n (blindRead r) (raiseSizeRead r) (boardCardsRead r)))
    as (st & T & A & Ls); [apply scans_i32|done|apply (pr_stack _ Pr)|lia|unfold MAX_PLAYERS; lia|lia|
      eexists; split; [apply handles_stack|done]|].
  exists st, (numPlayers g). split; [done|]. split; [done|]. split; [by rewrite Ls|lia].
- exists (stack (game r)), 4. destruct (pr_default _ Pr) as [H4|H4]; [|congruence]. split; [|split; [|done]].
  + replace (mkReading _ _ _ _ _) with r; [apply takes_nil|]. destruct r as [[] ? ? ? ?]. cbn in *. by subst.
  + intros p Hp. rewrite Hd by lia. pose proof (anyb_false _ _ _ Ea p Hp) as Ht. cbn in Ht.
    pose proof (pr_stack _ Pr p Hp). lia.
Qed.

Lemma takes_raise r : length (raiseSize (game r)) = 4%nat →
∃ rs k, takes (raiseText g) r (mkReading (set_raiseSize rs (game r)) (stackRead r) (blindRead r) k (boardCardsRead r)) ∧
  (bettingType g = limitBetting → agree (numRounds g) (raiseSize g) rs ∧ numRounds g ≤ k) ∧ length rs = 4%nat.
Proof.
intros L. ranges. unfold raiseText. destruct (decide _) as [Hl|Hl].
- destruct (takes_array INT32_MAX scan_i32 (bytes "raiseSize") (numRounds g) (raiseSize g) MAX_PLAYERS (raiseSize (game r)) r
    (λ n x, mkReading (set_raiseSize x (game r)) (stackRead r) (blindRead r) n (boardCardsRead r)))
    as (rs & T & A & Ls); [apply scans_i32|done|by apply (pr_raise _ Pr)|lia|unfold MAX_PLAYERS; lia|lia|
      eexists; split; [apply handles_raiseSize|done]|].
  exists rs, (numRounds g). split; [done|]. split; [by split|]. by rewrite Ls.
- exists (raiseSize (game r)), (raiseSizeRead r). split; [|by split].
  replace (mkReading _ _ _ _ _) with r; [apply takes_nil|]. by destruct r as [[] ? ? ? ?].
Qed.

Lemma takes_first r : length (firstPlayer (game r)) = 4%nat → (∀ j, 0 ≤ j < 4 → at_ (firstPlayer (game r)) j = 1) →
∃ fp, takes (firstText g) r (upd_game r (set_firstPlayer fp)) ∧
  (∀ j, 0 ≤ j < numRounds g → at_ fp j = at_ (firstPlayer g) j + 1) ∧ length fp = 4%nat.
Proof.
intros L Hd. ranges. unfold firstText. destruct (anyb _ _ _) eqn:Ea.
- set (a := (λ x, x + 1) <$> firstPlayer g).
  assert (∀ j, 0 ≤ j < numRounds g → at_ a j = at_ (firstPlayer g) j + 1) as Haj.
  { intros j Hj. unfold a, at_. apply list_lookup_total_correct. rewrite list_lookup_fmap.
    by rewrite (list_lookup_lookup_total_lt (firstPlayer g)) by lia. }
  assert ((λ x, x + 1) <$> pre (numRounds g) (firstPlayer g) = pre (numRounds g) a) as ->.
  { unfold pre. rewrite <-list_fmap_compose. apply map_seqZ_eq. intros j Hj. cbn. by rewrite Haj. }
  destruct (takes_array 255 scan_u8 (bytes "firstPlayer") (numRounds g) a MAX_ROUNDS (firstPlayer (game r)) r
    (λ n x, upd_game r (set_firstPlayer x)))
    as (fp & T & A & Ls); [apply scans_u8|unfold INT32_MAX; lia| |lia|unfold MAX_ROUNDS; lia|lia|
      eexists; split; [apply handles_firstPlayer|done]|].
  + intros j Hj. rewrite Haj by done. pose proof (ch_first _ Ch j Hj). lia.
  + exists fp. split; [done|]. split; [|by rewrite Ls]. intros j Hj. rewrite <-A by done. by apply Haj.
- exists (firstPlayer (game r)). split; [|split; [|done]].
  + replace (upd_game _ _) with r; [apply takes_nil|]. by destruct r as [[] ? ? ? ?].
  + intros j Hj. rewrite Hd by lia. pose proof (anyb_false _ _ _ Ea j Hj) as Ht. cbn in Ht. lia.
Qed.

Lemma takes_max r : length (maxRaises (game r)) = 4%nat → (∀ j, 0 ≤ j < 4 → at_ (maxRaises (game r)) j = 255) →
∃ mr, takes (maxText g) r (upd_game r (set_maxRaises mr)) ∧ agree (numRounds g) (maxRaises g) mr ∧ length mr = 4%nat.
Proof.
intros L Hd. ranges. unfold maxText. destruct (anyb _ _ _) eqn:Ea.
- destruct (takes_array 255 scan_u8 (bytes "maxRaises") (numRounds g) (maxRaises g) MAX_ROUNDS (maxRaises (game r)) r
    (λ n x, upd_game r (set_maxRaises x)))
    as (mr & T & A & Ls); [apply scans_u8|unfold INT32_MAX; lia|apply (pr_max _ Pr)|lia|unfold MAX_ROUNDS; lia|lia|
      eexists; split; [apply handles_maxRaises|done]|].
  exists mr. split; [done|]. split; [done|]. by rewrite Ls.
- exists (maxRaises (game r)). split; [|split; [|done]].
  + replace (upd_game _ _) with r; [apply takes_nil|]. by destruct r as [[] ? ? ? ?].
  + intros j Hj. rewrite Hd by lia. pose proof (anyb_false _ _ _ Ea j Hj) as Ht. cbn in Ht. unfold UINT8_MAX in Ht. lia.
Qed.

(** The variables after the whole text. *)
Definition read_back (r : Reading) : Prop :=
let g' := game r in
game_shape g' ∧ bettingType g' = bettingType g ∧
(numPlayers g' = numPlayers g ∧ numRounds g' = numRounds g ∧ numSuits g' = numSuits g ∧
  numRanks g' = numRanks g ∧ numHoleCards g' = numHoleCards g) ∧
(agree (numPlayers g) (stack g) (stack g') ∧ numPlayers g ≤ stackRead r) ∧
(agree (numPlayers g) (blind g) (blind g') ∧ numPlayers g ≤ blindRead r) ∧
(bettingType g = limitBetting → agree (numRounds g) (raiseSize g) (raiseSize g') ∧ numRounds g ≤ raiseSizeRead r) ∧
(∀ j, 0 ≤ j < numRounds g → at_ (firstPlayer g') j = at_ (firstPlayer g) j + 1) ∧
agree (numRounds g) (maxRaises g) (maxRaises g') ∧
(agree (numRounds g) (numBoardCards g) (numBoardCards g') ∧ numRounds g ≤ boardCardsRead r).

Lemma gameText_takes : ∃ r0 r, readGame_init = Ok r0 ∧ takes (gameText g) r0 r ∧ read_back r.
Proof.
ranges. destruct handles_u8 as (K1 & K2 & K3 & K4 & K5). exists reading0.
set (r1 := upd_game (upd_game (upd_game reading0 (set_bettingType (bettingType g))) (set_numPlayers (numPlayers g)))
  (set_numRounds (numRounds g))).
destruct (takes_stack r1) as (st & k & T1 & A1 & L1 & Hk); [done|done| |].
{ intros p Hp. assert (p = 0 ∨ p = 1 ∨ p = 2 ∨ p = 3) as [->|[->|[->| ->]]] by lia; done. }
set (r2 := mkReading _ _ _ _ _) in T1.
destruct (takes_array INT32_MAX scan_i32 (bytes "blind") (numPlayers g) (blind g) MAX_PLAYERS (blind (game r2)) r2
  (λ n x, mkReading (set_blind x (game r2)) (stackRead r2) n (raiseSizeRead r2) (boardCardsRead r2)))
  as (bl & T2 & A2 & L2); [apply scans_i32|done| |lia|unfold MAX_PLAYERS; lia|cbn; lia|
    eexists; split; [apply handles_blind|done]|].
{ intros p Hp. pose proof (pr_stack _ Pr p Hp). pose proof (pr_blind _ Pr p Hp). pose proof (ch_blind _ Ch p Hp). lia. }
set (r3 := mkReading _ _ _ _ _) in T2.
destruct (takes_raise r3) as (rs & k' & T3 & A3 & L3); [done|]. set (r4 := mkReading _ _ _ _ _) in T3.
destruct (takes_first r4) as (fp & T4 & A4 & L4); [done| |].
{ intros p Hp. assert (p = 0 ∨ p = 1 ∨ p = 2 ∨ p = 3) as [->|[->|[->| ->]]] by lia; done. }
destruct (takes_max (upd_game r4 (set_firstPlayer fp))) as (mr & T5 & A5 & L5); [done| |].
{ intros p Hp. assert (p = 0 ∨ p = 1 ∨ p = 2 ∨ p = 3) as [->|[->|[->| ->]]] by lia; done. }
set (r5 := upd_game (upd_game (upd_game (upd_game (upd_game r4 (set_firstPlayer fp)) (set_maxRaises mr))
  (set_numSuits (numSuits g))) (set_numRanks (numRanks g))) (set_numHoleCards (numHoleCards g))).
destruct (takes_array 255 scan_u8 (bytes "numBoardCards") (numRounds g) (numBoardCards g) MAX_ROUNDS (numBoardCards (game r5)) r5
  (λ n x, mkReading (set_numBoardCards x (game r5)) (stackRead r5) (blindRead r5) (raiseSizeRead r5) n))
  as (nb & T6 & A6 & L6); [apply scans_u8|unfold INT32_MAX; lia|apply (pr_board _ Pr)|lia|unfold MAX_ROUNDS; lia|cbn; lia|
    eexists; split; [apply handles_numBoardCards|done]|].
eexists. split; [apply readGame_init_eq|]. split.
- unfold gameText. eapply (takes_app _ _ reading0 reading0); [by eapply takes_word; [apply handles_gamedef|]|].
  eapply takes_app; [apply takes_type|]. eapply takes_app; [apply (takes_u8 _ _ _ _ _ K1); lia|].
  eapply takes_app; [apply (takes_u8 _ _ _ _ _ K2); lia|]. eapply takes_app; [exact T1|].
  eapply takes_app; [exact T2|]. eapply takes_app; [exact T3|]. eapply takes_app; [exact T4|].
  eapply takes_app; [exact T5|]. eapply takes_app; [apply (takes_u8 _ _ _ _ _ K3); lia|].
  eapply takes_app; [apply (takes_u8 _ _ _ _ _ K4); lia|]. eapply takes_app; [apply (takes_u8 _ _ _ _ _ K5); lia|].
  exact T6.
- split; [by split|]. split; [done|]. split; [done|]. split; [done|]. split; [split; [done|cbn; lia]|].
  split; [done|]. split; [done|]. split; [done|]. split; [done|cbn; lia].
Qed.

Lemma reject_pass b k : b = false → reject_if b k = k.
Proof. by intros ->. Qed.

Lemma checks_pass r : read_back r → ∃ g', readGame_checks r = Ok (Some g') ∧ same_game g g'.
Proof.
intros (Sh & Et & (E1 & E2 & E3 & E4 & E5) & [As Hs] & [Ab Hb] & Hr & Af & Am & [An Hn]). ranges.
destruct Sh as [Z1 Z2 Z3 Z4 Z5 Z6]. unfold readGame_checks.
unfold MAX_ROUNDS, MAX_PLAYERS, MAX_SUITS, MAX_RANKS, MAX_HOLE_CARDS. rewrite !E1, !E2.
rewrite reject_pass by lia. rewrite reject_pass by lia. rewrite reject_pass by lia. rewrite reject_pass by lia.
rewrite blind_over_stack_ok, bind_ok by (done || lia). rewrite E1.
rewrite reject_pass; [|apply negb_false_iff, forallb_forall; intros p Hp; apply list_elem_of_In, elem_of_seqZ in Hp;
  rewrite <-As, <-Ab by lia; apply Z.leb_le, (ch_blind _ Ch); lia].
rewrite reject_pass.
2:{ rewrite Et. case_bool_decide as Hl; [|done]. destruct (Hr Hl). cbn [andb]. lia. }
destruct (check_firstPlayer_ok (game r)) as [(fps & -> & Lf & Hfp)|(_ & j & Hj & Hbad)]; [done|lia|lia| | |].
{ rewrite E2. intros j Hj. rewrite Af by done. pose proof (ch_first _ Ch j Hj). lia. }
2:{ rewrite E2 in Hj. rewrite Af in Hbad by done. pose proof (ch_first _ Ch j Hj). lia. }
rewrite bind_ok. cbn [numSuits numRanks numHoleCards set_firstPlayer]. rewrite E3, E4, E5.
rewrite reject_pass by lia. rewrite reject_pass by lia. rewrite reject_pass by lia.
pose proof (cards_total_ok (set_firstPlayer fps (game r)) Z6 ltac:(cbn; lia)) as Ec.
cbn [numRounds numHoleCards numPlayers numBoardCards set_firstPlayer] in Ec |- *. rewrite E2, E5, E1 in Ec.
rewrite E2, E1, reject_pass, Ec, bind_ok by lia.
assert (boardTotal (set_firstPlayer fps (game r)) = boardTotal g) as ->.
{ unfold boardTotal. cbn [numRounds numBoardCards set_firstPlayer]. rewrite E2. apply sumZ_ext. intros j Hj. symmetry. by apply An. }
rewrite reject_pass by (pose proof (ch_deck _ Ch); lia). eexists. split; [done|].
split; cbn [bettingType numPlayers numRounds numSuits numRanks numHoleCards stack blind raiseSize firstPlayer maxRaises
  numBoardCards set_firstPlayer]; try done.
- intros Hl. by apply Hr.
- intros j Hj. rewrite E2 in Hfp. destruct (Hfp j Hj) as [_ ->]. rewrite Af by done. lia.
Qed.
End RoundTrip.

(** C19: A game that meets the checks of [readGame] and whose numbers are not negative and
    in the range of their types is printed by [printGame], and [readGame] reads the text
    back as the same game.  With more than four players some stack must be below
    [INT32_MAX]: otherwise no stacks are printed, and the reader, which has default stacks
    for four players, refuses the game ([five_players_refused]). *)
Theorem game_round_trip g : printable g →
  ∃ text g', printGame g = Ok text ∧ readGame text = Ok (Some g') ∧ same_game g g'.
Proof.
  intros Pr. destruct (gameText_takes g Pr) as (r0 & r & E0 & T & Rb). destruct (checks_pass g Pr r Rb) as (g' & Ec & Sg).
  eexists _, g'. split; [by apply printGame_ok|]. split; [|done]. unfold readGame. rewrite E0, bind_ok.
  rewrite (T _ r (reads_end r)) by lia. by rewrite bind_ok.
Qed.

Definition gameFile (g : Game) : list Z := match printGame g with Ok t => t | Err _ => [] end.
Definition gameOf (file : list Z) : Game := match readGame file with Ok (Some g) => g | _ => limit2p end.

Lemma readGame_checked_witness :
  checked (gameOf (gameFile limit2p)) ∧ (boardTotal (gameOf (gameFile limit2p)) ≤ 7 → wf_deal (gameOf (gameFile limit2p))).
Proof. apply (readGame_checked (gameFile limit2p)). vm_compute. reflexivity. Defined.

Lemma forall_below (n : Z) (f : Z → bool) : forallb f (seqZ 0 n) = true → ∀ j, 0 ≤ j < n → f j = true.
Proof. intros H j Hj. rewrite forallb_forall in H. apply H, list_elem_of_In, elem_of_seqZ. lia. Qed.

Lemma nolimit3p_printable : printable nolimit3p.
Proof.
  assert (∀ f : Z → bool, forallb f (seqZ 0 3) = true → ∀ j, 0 ≤ j < 3 → f j = true) as P3 by (intros; by eapply forall_below).
  assert (∀ f : Z → bool, forallb f (seqZ 0 4) = true → ∀ j, 0 ≤ j < 4 → f j = true) as P4 by (intros; by eapply forall_below).
  split; [split|..]; cbn [numPlayers numRounds numSuits numRanks numHoleCards nolimit3p bettingType]; try lia; try done.
  - intros p Hp. apply Z.leb_le. by apply (P3 (λ p, at_ (blind nolimit3p) p <=? at_ (stack nolimit3p) p)).
  - intros j Hj. pose proof (P4 (λ j, (0 <=? at_ (firstPlayer nolimit3p) j) && (at_ (firstPlayer nolimit3p) j <? 3)) eq_refl j Hj) as H. cbn beta in H. lia.
  - intros j Hj. pose proof (P3 (λ j, (0 <=? at_ (stack nolimit3p) j) && (at_ (stack nolimit3p) j <=? INT32_MAX)) eq_refl j Hj) as H. cbn beta in H. lia.
  - intros j Hj. pose proof (P3 (λ j, 0 <=? at_ (blind nolimit3p) j) eq_refl j Hj) as H. cbn beta in H. lia.
  - intros j Hj. pose proof (P4 (λ j, (0 <=? at_ (maxRaises nolimit3p) j) && (at_ (maxRaises nolimit3p) j <=? 255)) eq_refl j Hj) as H. cbn beta in H. lia.
  - intros j Hj. pose proof (P4 (λ j, (0 <=? at_ (numBoardCards nolimit3p) j) && (at_ (numBoardCards nolimit3p) j <=? 255)) eq_refl j Hj) as H. cbn beta in H. lia.
Qed.

Lemma game_round_trip_witness :
  ∃ text g', printGame nolimit3p = Ok text ∧ readGame text = Ok (Some g') ∧ same_game nolimit3p g'.
Proof. apply (game_round_trip nolimit3p nolimit3p_printable). Defined.

(** A line with five raise sizes makes [readGame] write past [raiseSize[ 4 ]]: it asks for
    [MAX_PLAYERS] items where the array has [MAX_ROUNDS]. *)
Theorem raiseSize_overflow : readGame (line_of (bytes "raiseSize") [1; 1; 2; 2; 4]) = Err OutOfBounds.
Proof. vm_compute. reflexivity. Qed.

(** Five players with unlimited stacks. *)
Definition five_players : Game :=
  mkGame (replicate 10 INT32_MAX) (replicate 10 0) [10; 10; 20; 20] limitBetting 5 4 [0; 0; 0; 0] [4; 4; 4; 4] 4 13 2 [0; 3; 1; 1].

(** The default stack covers [MAX_ROUNDS] players, not [MAX_PLAYERS]: a game of five players
    with unlimited stacks is printed without its stacks and then refused. *)
Fact five_players_refused : readGame (gameFile five_players) = Ok None.
Proof. vm_compute. reflexivity. Qed.

(** ** [LogGame] *)

(** A buffer that holds a string of length [n]. *)
Definition holds_str (sz : list Z) (n : Z) : Prop :=
  0 ≤ n ∧ ∃ t rest, sz = t ++ 0 :: rest ∧ Z.of_nat (length t) = n ∧ Forall (λ ch, ch ≠ 0) t.

Lemma strlen_holds sz n : holds_str sz n → strlen sz = Ok n.
Proof.
  intros (Hn & t & rest & -> & <- & Ht). clear Hn. induction Ht as [|ch t Hc _ IH]; [done|].
  cbn [app strlen length]. rewrite (proj2 (Z.eqb_neq ch 0)), IH by done. cbn. f_equal. lia.
Qed.

Lemma dec_signed_nonzero x : INT32_MIN ≤ x ≤ INT32_MAX → Forall (λ ch, ch ≠ 0) (dec_signed x).
Proof.
  intros Hx. unfold INT32_MIN, INT32_MAX in Hx.
  assert (∀ y, 0 ≤ y < 10 ^ 20 → Forall (λ ch, ch ≠ 0) (dec y)) as H.
  { intros y Hy. destruct (dec_spec y Hy) as (D & _). eapply Forall_impl; [apply D|]. intros ch Hd ->. done. }
  unfold dec_signed. destruct (Z.ltb_spec x 0); [constructor; [done|]|]; apply H; lia.
Qed.

Lemma append_num_ok sz n x : length sz = 64%nat → holds_str sz n → n ≤ 62 → INT32_MIN ≤ x ≤ INT32_MAX →
  ∃ sz' n', append_num sz x = Ok sz' ∧ length sz' = 64%nat ∧ holds_str sz' n' ∧ n' ≤ 62.
Proof.
  intros L Hs Hn Hx. unfold append_num. rewrite (strlen_holds sz n Hs), bind_ok. unfold snprintf, u64.
  destruct Hs as (H0 & t & rest & E & Lt & Ht). rewrite (Z.mod_small (64 - 1 - n)) by lia. rewrite Z.mod_small by lia.
  rewrite (proj2 (Z.eqb_neq _ 0)) by lia. set (w := dec_signed x ++ [32]).
  set (w' := take _ w). assert (Z.of_nat (length w') ≤ 62 - n) as Lw by (unfold w'; rewrite length_take; lia).
  destruct (put_bytes_ok sz n (w' ++ [0])) as (sz' & -> & W); [lia|rewrite length_app; cbn; lia|].
  exists sz', (n + Z.of_nat (length w')). split; [done|]. pose proof (ws_len _ _ _ _ W) as L'.
  split; [lia|]. split; [|lia]. split; [lia|].
  exists (t ++ w'), (drop (Z.to_nat n + length (w' ++ [0])) sz'). split; [|split].
  - rewrite <-(take_drop (Z.to_nat n + length (w' ++ [0])) sz') at 1. rewrite (ws_text _ _ _ _ W), E.
    rewrite take_app_length' by lia. by rewrite <-!app_assoc.
  - rewrite length_app. lia.
  - apply Forall_app. split; [done|]. unfold w'. apply Forall_take, Forall_app. split; [by apply dec_signed_nonzero|].
    by constructor.
Qed.

Lemma append_all_ok n a : 0 ≤ n ≤ Z.of_nat (length a) → (∀ j, 0 ≤ j < n → INT32_MIN ≤ at_ a j ≤ INT32_MAX) →
  ∃ sz, append_all n a = Ok sz.
Proof.
  intros Hn Ha. unfold append_all.
  destruct (for_inv (λ _ sz, length sz = 64%nat ∧ ∃ k, holds_str sz k ∧ k ≤ 62) 0 n (replicate 64 0)
    (λ i sz, x ← rd a i; append_num sz x)) as (sz & E & _).
  - lia.
  - split; [done|]. exists 0. split; [|lia]. split; [lia|]. exists [], (replicate 63 0). by split_and!.
  - intros i sz Hi (L & k & Hs & Hk). rewrite rd_ok, bind_ok by lia.
    destruct (append_num_ok sz k (at_ a i) L Hs Hk (Ha i ltac:(lia))) as (sz' & k' & -> & L' & Hs' & Hk'). eauto 10.
  - eauto.
Qed.

(** [LogGame] stays inside its six buffers of 64 bytes and the caller's buffer, whatever
    the numbers in the game. *)
Theorem LogGame_safe g len logBuf :
  game_shape g → 0 ≤ numPlayers g ≤ 10 → 0 ≤ numRounds g ≤ 4 →
  (∀ a j, a ∈ [stack g; blind g; raiseSize g; firstPlayer g; maxRaises g; numBoardCards g] → 0 ≤ j →
    INT32_MIN ≤ at_ a j ≤ INT32_MAX) →
  1 ≤ len < 2147483648 → len - 1 ≤ Z.of_nat (length logBuf) → ∃ out, LogGame g len logBuf = Ok out.
Proof.
  intros [] Hp Hr Ha Hl Hb. unfold LogGame.
  destruct (append_all_ok (numPlayers g) (stack g)) as (z1 & ->); [lia|intros; apply Ha; [apply list_elem_of_In; cbn; tauto|lia]|].
  destruct (append_all_ok (numPlayers g) (blind g)) as (z2 & ->); [lia|intros; apply Ha; [apply list_elem_of_In; cbn; tauto|lia]|].
  destruct (append_all_ok (numRounds g) (raiseSize g)) as (z3 & ->); [lia|intros; apply Ha; [apply list_elem_of_In; cbn; tauto|lia]|].
  destruct (append_all_ok (numRounds g) (firstPlayer g)) as (z4 & ->); [lia|intros; apply Ha; [apply list_elem_of_In; cbn; tauto|lia]|].
  destruct (append_all_ok (numRounds g) (maxRaises g)) as (z5 & ->); [lia|intros; apply Ha; [apply list_elem_of_In; cbn; tauto|lia]|].
  destruct (append_all_ok (numRounds g) (numBoardCards g)) as (z6 & ->); [lia|intros; apply Ha; [apply list_elem_of_In; cbn; tauto|lia]|].
  rewrite !bind_ok. match goal with |- context [snprintf _ _ _ ?t] =>
    destruct (snprintf_ok logBuf 0 (len - 1) t) as (out & -> & _); [lia|lia|lia|] end.
  eauto.
Qed.

Lemma at_in_range (f : Z → bool) l j : f inhabitant = true → forallb f l = true → f (at_ l j) = true.
Proof.
  intros H0 Hl. unfold at_. rewrite list_lookup_total_alt. destruct (l !! Z.to_nat j) as [x|] eqn:E; [|done].
  rewrite forallb_forall in Hl. apply Hl, list_elem_of_In. by eapply list_elem_of_lookup_2.
Qed.

Lemma LogGame_safe_witness : ∃ out, LogGame nolimit3p 512 (blank 511) = Ok out.
Proof.
  apply (LogGame_safe nolimit3p 512 (blank 511) (ch_shape _ (pr_checked _ nolimit3p_printable))).
  - cbn. lia.
  - cbn. lia.
  - intros a j Ha Hj.
    assert (forallb (λ x, (INT32_MIN <=? x) && (x <=? INT32_MAX)) a = true) as Hf.
    { repeat (apply elem_of_cons in Ha as [->|Ha]; [vm_compute; reflexivity|]). by apply not_elem_of_nil in Ha. }
    pose proof (at_in_range (λ x, (INT32_MIN <=? x) && (x <=? INT32_MAX)) a j eq_refl Hf) as H. cbn beta in H. lia.
  - lia.
  - vm_compute. discriminate.
Defined.
