(* ===== verification/HashTable.v ===== *)
(** * Hash tables with preallocated nodes: the shared code shape

    Four classes of the program are one data structure written four times:
    [CRunGameHashMap] and [CAPGIClientHashMap] (the games and the connections
    of the game server) and the templates [SHHaspMap] and [CTHaspMap].  Nodes
    are allocated once, by [Init]; a free list hands them out; each bucket is a
    chain linked through [next].  This file holds what the four share: the
    memory, the loops over a chain, linking and unlinking a node, and the
    interface of a free list with its two implementations (a stack through
    [next]; a queue through [next] and [prev]).

    Memory follows the component-as-array model: one finite map per field,
    from node addresses to the contents of that field.  Address 0 is [NULL],
    and a read or write at an address that is not a node is a fault. *)

From stdpp Require Import base list list_numbers numbers option sets gmap fin_maps.
From S2P Require Import Prelude.

Open Scope Z_scope.

Definition NULL : Z := 0.

(** Reading and writing one field of the node at [p]. *)
Definition ld {A} (m : gmap Z A) (p : Z) : res A :=
  match m !! p with Some x => Ok x | None => Err OutOfBounds end.

Definition st {A} (m : gmap Z A) (p : Z) (x : A) : res (gmap Z A) :=
  match m !! p with Some _ => Ok (<[p := x]> m) | None => Err OutOfBounds end.

(** The link fields of all nodes; a singly linked node has no [prev]. *)
Record Links := mkLinks { next : gmap Z Z; prev : gmap Z Z }.

Definition set_next (p q : Z) (L : Links) : res Links :=
  n ← st (next L) p q; Ok (mkLinks n (prev L)).

Definition set_prev (p q : Z) (L : Links) : res Links :=
  n ← st (prev L) p q; Ok (mkLinks (next L) n).

(** The interface of a free list: take a node ([NULL] when there is none), give
    one back, and the count of nodes handed out. *)
Class FreeList (F : Type) := {
  used : F → Z;
  set_used : Z → F → F;
  PopNode : Links → F → res (Links * F * Z);
  PushNode : Links → F → Z → res (Links * F) }.

(** ** The free list of the singly linked tables: a stack *)
Record Stack := mkStack { m_lstFree : Z; s_nUseSize : Z }.

Definition Stack_PopNode (L : Links) (f : Stack) : res (Links * Stack * Z) :=
  if m_lstFree f =? NULL then Ok (L, f, NULL) else
  let p := m_lstFree f in
  n ← ld (next L) p;
  L ← set_next p NULL L;
  Ok (L, mkStack n (u32 (s_nUseSize f + 1)), p).

Definition Stack_PushNode (L : Links) (f : Stack) (node : Z) : res (Links * Stack) :=
  if node =? NULL then Ok (L, f) else
  L ← set_next node (m_lstFree f) L;
  Ok (L, mkStack node (u32 (s_nUseSize f - 1))).

#[global] Instance Stack_FreeList : FreeList Stack := {
  used := s_nUseSize;
  set_used u f := mkStack (m_lstFree f) u;
  PopNode := Stack_PopNode;
  PushNode := Stack_PushNode }.

(** ** The free list of [SHHaspMap]: nodes enter at the head, leave at the tail *)
Record Queue := mkQueue { head : Z; tail : Z; q_nUseSize : Z }.

Definition Queue_PopNode (L : Links) (f : Queue) : res (Links * Queue * Z) :=
  if tail f =? NULL then Ok (L, f, NULL) else
  let p := tail f in
  t ← ld (prev L) p;
  L ← set_next p NULL L;
  L ← set_prev p NULL L;
  let h := if t =? NULL then NULL else head f in
  Ok (L, mkQueue h t (u32 (q_nUseSize f + 1)), p).

Definition Queue_PushNode (L : Links) (f : Queue) (node : Z) : res (Links * Queue) :=
  if node =? NULL then Ok (L, f) else
  let u := u32 (q_nUseSize f - 1) in
  if head f =? NULL then
    L ← set_next node NULL L;
    L ← set_prev node NULL L;
    Ok (L, mkQueue node node u)
  else
    L ← set_next node (head f) L;
    L ← set_prev node NULL L;
    L ← set_prev (head f) node L;
    Ok (L, mkQueue node (tail f) u).

#[global] Instance Queue_FreeList : FreeList Queue := {
  used := q_nUseSize;
  set_used u f := mkQueue (head f) (tail f) u;
  PopNode := Queue_PopNode;
  PushNode := Queue_PushNode }.

(** ** The table

    [vals] is the record a node carries; [m_pBucket] is the array of chain
    heads, [None] while it has not been allocated. *)
Record Table (F V : Type) := mkTable {
  vals : gmap Z V;
  links : Links;
  freeList : F;
  m_pBucket : option (list Z);
  m_nTotalSize : Z;
  m_nBuckets : Z }.
Arguments mkTable {F V} _ _ _ _ _ _.
Arguments vals {F V} _.
Arguments links {F V} _.
Arguments freeList {F V} _.
Arguments m_pBucket {F V} _.
Arguments m_nTotalSize {F V} _.
Arguments m_nBuckets {F V} _.

Section Ops.
Context {F V K : Type} `{FreeList F} `{EqDecision K} (key_of : V → K).
Implicit Types (t : Table F V) (k : K) (p h : Z).

Definition bucket t h : res Z :=
  match m_pBucket t with Some b => rd b h | None => Err OutOfBounds end.

Definition set_bucket h p t : res (Table F V) :=
  match m_pBucket t with
  | Some b =>
      b ← wr b h p;
      Ok (mkTable (vals t) (links t) (freeList t) (Some b) (m_nTotalSize t) (m_nBuckets t))
  | None => Err OutOfBounds
  end.

Definition with_vals (v : gmap Z V) t : Table F V :=
  mkTable v (links t) (freeList t) (m_pBucket t) (m_nTotalSize t) (m_nBuckets t).

Definition with_links (L : Links) (f : F) t : Table F V :=
  mkTable (vals t) L f (m_pBucket t) (m_nTotalSize t) (m_nBuckets t).

(** Writing the record of the node at [p]. *)
Definition set_val p (v : V) t : res (Table F V) :=
  m ← st (vals t) p v; Ok (with_vals m t).

(** [p->next = q] *)
Definition link p q t : res (Table F V) :=
  L ← set_next p q (links t); Ok (with_links L (freeList t) t).

Definition take t : res (Table F V * Z) :=
  '(L, f, p) ← PopNode (links t) (freeList t); Ok (with_links L f t, p).

Definition give p t : res (Table F V) :=
  '(L, f) ← PushNode (links t) (freeList t) p; Ok (with_links L f t).

(** The loop over a chain of [Get], [Add], [Del] and [IsTimeOut]: it stops at
    the first node with key [k] or at the end, and gives the node before, the
    node ([NULL] at the end) and the number of nodes passed.  A chain has at
    most as many nodes as there are, so that number is the fuel. *)
Fixpoint walk (fuel : nat) t k (pre p cnt : Z) : res (Z * Z * Z) :=
  if p =? NULL then Ok (pre, NULL, cnt) else
  match fuel with
  | O => Err OutOfFuel
  | S fuel =>
      v ← ld (vals t) p;
      if decide (key_of v = k) then Ok (pre, p, cnt) else
      n ← ld (next (links t)) p;
      walk fuel t k p n (cnt + 1)
  end.

Definition chain_fuel t : nat := size (vals t).

(** The start of [Get], [Add], [Del] and [IsTimeOut]: the bucket of the key and
    the walk through it. *)
Definition find (hash : Z → K → res Z) k t : res (Z * Z * Z * Z) :=
  h ← hash (m_nBuckets t) k;
  b ← bucket t h;
  '(pre, p, cnt) ← walk (chain_fuel t) t k NULL b 0;
  Ok (h, pre, p, cnt).

(** Entering a node into its bucket: the first of the bucket, or before the
    present first. *)
Definition link_first h p t : res (Table F V) :=
  b ← bucket t h;
  if b =? NULL then
    t ← set_bucket h p t;
    link p NULL t
  else
    t ← link p b t;
    set_bucket h p t.

(** Taking a node out of its bucket. *)
Definition unlink h pre del t : res (Table F V) :=
  n ← ld (next (links t)) del;
  if pre =? NULL then set_bucket h n t else link pre n t.

(** A free node is taken, its record written (from what it held before), and it
    is entered into its bucket; [NULL] when no node is free. *)
Definition enter h (write : V → V) t : res (Table F V * Z) :=
  '(t, p) ← take t;
  if p =? NULL then Ok (t, NULL) else
  old ← ld (vals t) p;
  t ← set_val p (write old) t;
  t ← link p NULL t;
  t ← link_first h p t;
  Ok (t, p).

(** The node [del], found after [pre], leaves its bucket, its record is written
    and it goes back to the free list. *)
Definition recycle h pre del (write : V → V) t : res (Table F V) :=
  t ← unlink h pre del t;
  old ← ld (vals t) del;
  t ← set_val del (write old) t;
  t ← link del NULL t;
  give del t.

(** [Clear]: every node of every chain goes back to the free list. *)
Fixpoint drain (fuel : nat) (node : Z) t : res (Table F V) :=
  if node =? NULL then Ok t else
  match fuel with
  | O => Err OutOfFuel
  | S fuel =>
      n ← ld (next (links t)) node;
      t ← link node NULL t;
      t ← give node t;
      drain fuel n t
  end.

Definition clear_bucket (i : Z) t : res (Table F V) :=
  node ← bucket t i;
  t ← drain (chain_fuel t) node t;
  set_bucket i NULL t.

Definition clear t : res (Table F V) := for_ 0 (m_nBuckets t) t clear_bucket.

(** New nodes go to the free list one after the other. *)
Definition fill (ps : list Z) t : res (Table F V) := foldM give ps t.

(** The use count is reset and the buckets are allocated and emptied. *)
Definition new_buckets t : Table F V :=
  mkTable (vals t) (links t) (set_used 0 (freeList t))
    (Some (replicate (Z.to_nat (m_nBuckets t)) NULL)) (m_nTotalSize t) (m_nBuckets t).

Definition Size t : Z := used (freeList t).
Definition Free t : Z := u32 (m_nTotalSize t - used (freeList t)).
End Ops.

Arguments find : simpl never.
Arguments enter : simpl never.
Arguments recycle : simpl never.
Arguments set_val : simpl never.
Arguments clear : simpl never.
Arguments fill : simpl never.

(** Signed 64-bit arithmetic, as of [time_t]. *)
Definition i64 (z : Z) : res Z :=
  if (-9223372036854775808 <=? z) && (z <=? 9223372036854775807) then Ok z else Err SignedOverflow.

(** The calls the tables of the server make to the timer manager, a library:
    a timer with its period in milliseconds, and its removal. *)
Inductive TimerCall : Set :=
  | Attach (id ms : Z)
  | Detach (id : Z).

(** The timers set and not removed after a sequence of calls. *)
Definition armed (calls : list TimerCall) : gset Z :=
  foldl (λ s c, match c with Attach id _ => {[id]} ∪ s | Detach id => s ∖ {[id]} end) ∅ calls.

(** The nodes [pTotal + i] of an array of [size] new nodes, and one field of new
    nodes, holding [x] (for a link field, which is set before it is read, any
    value). *)
Definition node_range (pTotal size : Z) : list Z := seqZ pTotal size.

Definition new_field {A} (x : A) (ps : list Z) : gmap Z A :=
  list_to_map ((λ p, (p, x)) <$> ps).

(** ** Sequences of operations

    Operations run one after the other on a concrete state and on the abstract
    one; a relation kept by every step relates the ends of the runs, and the
    results are the same. *)
Section Runs.
Context {Op Out S A : Type} (exec : Op → S → res (Out * S)) (spec : Op → A → Out * A).

Fixpoint run (os : list Op) (s : S) : res (list Out * S) :=
    match os with
    | [] => Ok ([], s)
    | o :: os => '(x, s) ← exec o s; '(xs, s) ← run os s; Ok (x :: xs, s)
    end.

Fixpoint run_spec (os : list Op) (a : A) : list Out * A :=
    match os with
    | [] => ([], a)
    | o :: os =>
        let '(x, a) := spec o a in
        let '(xs, a) := run_spec os a in (x :: xs, a)
    end.

Context (R : S → A → Prop) (ok : Op → Prop)
    (step : ∀ s a o, R s a → ok o → ∃ s', exec o s = Ok ((spec o a).1, s') ∧ R s' (spec o a).2).

Lemma run_refines os : ∀ s a,
    R s a → Forall ok os → ∃ s', run os s = Ok ((run_spec os a).1, s') ∧ R s' (run_spec os a).2.
Proof.
    induction os as [|o os IH]; intros s a Hs Ho; cbn [run run_spec]; [eauto|].
    apply Forall_cons in Ho as [Ho Hos]. destruct (step s a o Hs Ho) as (s' & E & Hs').
    rewrite E. cbn. destruct (spec o a) as [x a1]. cbn in Hs'.
    destruct (IH s' a1 Hs' Hos) as (s2 & E2 & Hs2). rewrite E2. cbn.
    destruct (run_spec os a1) as [xs a2]. eauto.
Qed.
End Runs.
