(* ===== verification/HashTableInv.v ===== *)
(** * The invariant of the hash tables

    What a free list promises to the table ([FreeListLaws], discharged for the
    stack and for the queue), the representation of chains, and the invariant
    that ties a table to the finite map it stands for: the buckets and the free
    list partition the nodes, every record sits in the bucket of its key, no
    key occurs twice, and the use count is the number of records.  The lemmas
    about searching, entering, removing, changing and clearing are proved
    against the interface and used by all four classes. *)

From stdpp Require Import base list list_numbers numbers option sets gmap fin_maps.
From S2P Require Import Prelude HashTable.

Open Scope Z_scope.

(** ** Memory *)
Lemma ld_ok {A} (m : gmap Z A) p x : m !! p = Some x → ld m p = Ok x.
Proof. intros E. unfold ld. by rewrite E. Qed.

Lemma st_ok {A} (m : gmap Z A) p x : is_Some (m !! p) → st m p x = Ok (<[p := x]> m).
Proof. intros [y E]. unfold st. by rewrite E. Qed.

Lemma set_next_ok L p q :
  is_Some (next L !! p) → set_next p q L = Ok (mkLinks (<[p := q]> (next L)) (prev L)).
Proof. intros E. unfold set_next. by rewrite st_ok. Qed.

Lemma set_prev_ok L p q :
  is_Some (prev L !! p) → set_prev p q L = Ok (mkLinks (next L) (<[p := q]> (prev L))).
Proof. intros E. unfold set_prev. by rewrite st_ok. Qed.

Lemma is_Some_insert {A} (m : gmap Z A) p q x :
  is_Some (m !! p) → is_Some (<[q := x]> m !! p).
Proof.
  intros E. destruct (decide (p = q)) as [->|].
  - rewrite lookup_insert_eq. eauto.
  - by rewrite lookup_insert_ne.
Qed.

Lemma i64_ok z : -9223372036854775808 ≤ z ≤ 9223372036854775807 → i64 z = Ok z.
Proof.
  intros [? ?]. unfold i64.
  by rewrite (proj2 (Z.leb_le _ z)), (proj2 (Z.leb_le z 9223372036854775807)) by lia.
Qed.

(** [m] is defined wherever [m0] is. *)
Definition keeps {A} (m0 m : gmap Z A) : Prop := ∀ p, is_Some (m0 !! p) → is_Some (m !! p).

Lemma keeps_insert {A} (m0 m : gmap Z A) q x : keeps m0 m → keeps m0 (<[q := x]> m).
Proof. intros Hk p Hp. apply is_Some_insert. auto. Qed.
Lemma keeps_refl {A} (m : gmap Z A) : keeps m m.
Proof. intros p; done. Qed.

(** Links that differ only at the addresses [l], with every node still there. *)
Record same_off (l : list Z) (L L' : Links) : Prop := {
  so_next : ∀ p, p ∉ l → next L' !! p = next L !! p;
  so_prev : ∀ p, p ∉ l → prev L' !! p = prev L !! p;
  so_knext : keeps (next L) (next L');
  so_kprev : keeps (prev L) (prev L') }.

Lemma same_off_refl l L : same_off l L L.
Proof. split; auto using keeps_refl. Qed.

Lemma same_off_next l L p q :
  p ∈ l → same_off l L (mkLinks (<[p := q]> (next L)) (prev L)).
Proof.
  intros Hp. split; cbn; intros; auto using keeps_refl, keeps_insert.
  apply lookup_insert_ne. by intros ->.
Qed.

(** ** Chains: [l] is what a walk through [nx] from [p] meets *)
Fixpoint chain (nx : gmap Z Z) (p : Z) (l : list Z) : Prop :=
  match l with
  | [] => p = NULL
  | x :: l' => p = x ∧ x ≠ NULL ∧ ∃ q, nx !! x = Some q ∧ chain nx q l'
  end.

Lemma chain_frame nx nx' p l :
  (∀ x, x ∈ l → nx' !! x = nx !! x) → chain nx p l → chain nx' p l.
Proof.
  revert p. induction l as [|x l IH]; intros p Hf; [done|].
  intros (-> & Hx & q & Eq & Hc). cbn. split_and!; [done..|].
  exists q. split; [rewrite Hf; [done|left]|].
  apply IH; [|done]. intros. apply Hf. by right.
Qed.

Lemma chain_insert nx p l a b :
  a ∉ l → chain nx p l → chain (<[a := b]> nx) p l.
Proof.
  intros Ha. apply chain_frame. intros x Hx. apply lookup_insert_ne. by intros ->.
Qed.

Lemma chain_nil nx p l : chain nx p l → p = NULL → l = [].
Proof. destruct l; [done|]. by intros (-> & Hx & _) ?. Qed.

Lemma chain_cons_inv nx p l :
  chain nx p l → p ≠ NULL →
  ∃ l' q, l = p :: l' ∧ nx !! p = Some q ∧ chain nx q l'.
Proof.
  destruct l as [|x l]; [by intros -> ?|].
  intros (-> & Hx & q & E & Hc) _. eauto.
Qed.

(** The last node before [p] in [c1], or [before]. *)
Definition last_of (before : Z) (c : list Z) : Z := default before (last c).

Lemma last_of_cons before x c : last_of before (x :: c) = last_of x c.
Proof.
  unfold last_of. rewrite last_cons. by destruct (last c).
Qed.

(** Cutting a node out of a chain. *)
Lemma chain_cut nx p c1 x c2 n :
  chain nx p (c1 ++ x :: c2) → NoDup (c1 ++ x :: c2) → nx !! x = Some n →
  (c1 = [] ∧ p = x ∧ chain nx n c2) ∨
  (last_of NULL c1 ∈ c1 ∧ is_Some (nx !! last_of NULL c1) ∧
   chain (<[last_of NULL c1 := n]> nx) p (c1 ++ c2)).
Proof.
  intros Hc Hnd Hn. destruct c1 as [|y c1]; [left|right].
  - destruct Hc as (-> & _ & q & Eq & Hc). simplify_eq. done.
  - rewrite last_of_cons. cbn [app] in *.
    assert (p = y) as -> by apply Hc. rename Hc into Hy.
    revert y Hy Hnd. induction c1 as [|z c1 IH]; intros y Hy Hnd; cbn [app] in *.
    + destruct Hy as (_ & Hy0 & q & Eq & (-> & Hx & q' & Eq' & Hc2)). simplify_eq.
      change (last_of y []) with y.
      apply NoDup_cons in Hnd as [Hy [Hx' _]%NoDup_cons].
      apply not_elem_of_cons in Hy as [Hyx Hy].
      split_and!; [left|eauto|].
      cbn. split_and!; [done..|]. exists n. rewrite lookup_insert_eq. split; [done|].
      by apply chain_insert.
    + rewrite last_of_cons. destruct Hy as (_ & Hy0 & q & Eq & Hz).
      pose proof Hz as (-> & _). apply NoDup_cons in Hnd as [Hy Hnd].
      destruct (IH z Hz Hnd) as (Hin & Hs & Hc). split_and!; [by right|done|].
      cbn. split_and!; [done..|]. exists z. split; [|exact Hc].
      rewrite lookup_insert_ne; [done|]. intros E. apply Hy. rewrite <-E.
      rewrite app_comm_cons. apply elem_of_app. by left.
Qed.

Lemma last_of_nonempty a b c : c ≠ [] → last_of a c = last_of b c.
Proof. destruct c; [done|]. intros _. by rewrite !last_of_cons. Qed.

Lemma last_of_elem before x c : last_of before (x :: c) ∈ x :: c.
Proof.
  rewrite last_of_cons. revert x. induction c as [|y c IH]; intros x; [left|].
  rewrite last_of_cons. right. apply IH.
Qed.

(** Appending a node to a chain. *)
Lemma chain_snoc nx p x l a :
  chain nx p (x :: l) → NoDup (x :: l) → a ∉ x :: l → a ≠ NULL →
  chain (<[last_of x l := a]> (<[a := NULL]> nx)) p ((x :: l) ++ [a]).
Proof.
  intros (-> & Hx & q & Eq & Hc) Hnd Ha Ha0. revert x q Hx Eq Hc Hnd Ha.
  induction l as [|y l IH]; intros x q Hx Eq Hc Hnd Ha; cbn [app].
  - cbn. split_and!; [done..|]. exists a. rewrite lookup_insert_eq. split_and!; [done..|].
    exists NULL. rewrite lookup_insert_ne by set_solver. by rewrite lookup_insert_eq.
  - destruct Hc as (-> & Hy & q' & Eq' & Hc). rewrite last_of_cons.
    apply NoDup_cons in Hnd as [Hxn Hnd]. apply not_elem_of_cons in Ha as [Hax Ha].
    cbn. split_and!; [done..|]. exists y. split; [|by eapply (IH y q')].
    rewrite lookup_insert_ne, lookup_insert_ne; [done|done|].
    intros E. apply Hxn. rewrite <-E, <-(last_of_cons x). apply last_of_elem.
Qed.

(** ** What a free list promises *)
Class FreeListLaws (F : Type) `{FreeList F} := {
  owns : Links → Z → Prop;
  holds : Links → F → list Z → Prop;
  owns_next L p : owns L p → is_Some (next L !! p);
  owns_keeps L L' p :
    keeps (next L) (next L') → keeps (prev L) (prev L') → owns L p → owns L' p;
  holds_frame l fl L L' f :
    same_off l L L' → (∀ p, p ∈ fl → p ∉ l) → holds L f fl → holds L' f fl;
  holds_set_used L f fl u : holds L f fl → holds L (set_used u f) fl;
  used_set_used u f : used (set_used u f) = u;
  pop_empty L f : holds L f [] → PopNode L f = Ok (L, f, NULL);
  pop_node L f fl :
    holds L f fl → fl ≠ [] → NoDup fl → Forall (owns L) fl →
    ∃ L' f' p fl', PopNode L f = Ok (L', f', p) ∧ fl ≡ₚ p :: fl' ∧ holds L' f' fl' ∧
      p ≠ NULL ∧ next L' !! p = Some NULL ∧ same_off [p] L L' ∧ used f' = u32 (used f + 1);
  push_node L f fl p :
    holds L f fl → p ∉ fl → NoDup fl → p ≠ NULL → owns L p → Forall (owns L) fl →
    ∃ L' f' fl', PushNode L f p = Ok (L', f') ∧ fl' ≡ₚ p :: fl ∧ holds L' f' fl' ∧
      same_off fl' L L' ∧ used f' = u32 (used f - 1) }.
#[global] Hint Mode FreeListLaws ! - : typeclass_instances.

(** The stack keeps its promise. *)
#[global] Program Instance Stack_laws : FreeListLaws Stack := {
  owns L p := is_Some (next L !! p);
  holds L f fl := chain (next L) (m_lstFree f) fl }.
Next Obligation. done. Qed.
Next Obligation. cbn. auto. Qed.
Next Obligation.
  cbn. intros l fl L L' f Hs Hd. apply chain_frame. intros x Hx. by apply Hs, Hd.
Qed.
Next Obligation. done. Qed.
Next Obligation. done. Qed.
Next Obligation. intros L f E. cbn in *. unfold Stack_PopNode. by rewrite E. Qed.
Next Obligation.
  cbn. intros L f fl Hc Hne Hnd Ho. destruct fl as [|x fl]; [done|].
  destruct Hc as (E & Hx & q & Eq & Hc). unfold Stack_PopNode.
  rewrite E, (proj2 (Z.eqb_neq _ _)) by done.
  apply NoDup_cons in Hnd as [Hn Hnd].
  rewrite (ld_ok _ _ _ Eq). cbn. rewrite set_next_ok by eauto. cbn.
  eexists _, _, x, fl. split_and!; [done..| |done| | |done].
  - by apply chain_insert.
  - apply lookup_insert_eq.
  - apply same_off_next. left.
Qed.
Next Obligation.
  cbn. intros L f fl p Hc Hn _ Hp Ho _. unfold Stack_PushNode.
  rewrite (proj2 (Z.eqb_neq _ _)) by done. rewrite set_next_ok by done. cbn.
  eexists _, _, (p :: fl). split_and!; [done..| | |done].
  - cbn. split_and!; [done..|]. exists (m_lstFree f). rewrite lookup_insert_eq.
    split; [done|]. by apply chain_insert.
  - apply same_off_next. left.
Qed.

(** The queue keeps its promise: its nodes are linked backwards from the tail.
    The [next] fields of its nodes are not part of it. *)
Definition queue_of (L : Links) (f : Queue) (fl : list Z) : Prop :=
  chain (prev L) (tail f) fl ∧ head f = last_of NULL fl.

Lemma Queue_pop L f x fl :
  queue_of L f (x :: fl) → NoDup (x :: fl) → is_Some (next L !! x) →
  ∃ L' f', Queue_PopNode L f = Ok (L', f', x) ∧ queue_of L' f' fl ∧
    next L' !! x = Some NULL ∧ same_off [x] L L' ∧ q_nUseSize f' = u32 (q_nUseSize f + 1).
Proof.
  intros [(E & Hx & q & Eq & Hc) Hh] [Hn Hnd]%NoDup_cons Hs. unfold Queue_PopNode.
  rewrite E, (proj2 (Z.eqb_neq _ _)), (ld_ok _ _ _ Eq) by done. cbn.
  rewrite set_next_ok by done. cbn. rewrite set_prev_ok by (cbn; eauto). cbn.
  eexists _, _. split_and!; [done| | | |done].
  - split; cbn; [by apply chain_insert|].
    rewrite Hh, last_of_cons. destruct (Z.eqb_spec q NULL) as [->|Hq].
    + by rewrite (chain_nil _ _ _ Hc).
    + apply last_of_nonempty. intros ->. by apply Hq.
  - apply lookup_insert_eq.
  - split; cbn; auto using keeps_insert, keeps_refl;
      intros p Hp; apply lookup_insert_ne; intros ->; apply Hp; left.
Qed.

Lemma Queue_push L f fl p :
  queue_of L f fl → NoDup fl → p ∉ fl → p ≠ NULL →
  is_Some (next L !! p) → is_Some (prev L !! p) →
  ∃ L' f', Queue_PushNode L f p = Ok (L', f') ∧ queue_of L' f' (fl ++ [p]) ∧
    same_off (fl ++ [p]) L L' ∧ q_nUseSize f' = u32 (q_nUseSize f - 1).
Proof.
  intros [Hc Hh] Hnd Hp Hp0 Hsn Hsp. unfold Queue_PushNode.
  rewrite (proj2 (Z.eqb_neq p NULL)) by done.
  assert (Hpl : p ∈ fl ++ [p]) by (apply elem_of_app; right; left).
  destruct fl as [|x fl].
  - rewrite Hh. cbn. rewrite set_next_ok by done. cbn. rewrite set_prev_ok by done. cbn.
    eexists _, _. split_and!; [done| | |done].
    + split; [|done]. cbn. split_and!; [done..|]. exists NULL. by rewrite lookup_insert_eq.
    + split; cbn; auto using keeps_insert, keeps_refl;
        intros q Hq; apply lookup_insert_ne; intros ->; by apply Hq.
  - assert (Hlast : head f ∈ x :: fl) by (rewrite Hh; apply last_of_elem).
    assert (Hh0 : head f ≠ NULL ∧ is_Some (prev L !! head f)).
    { clear -Hc Hlast. revert Hc. generalize (tail f) as p.
      induction (x :: fl) as [|y l IH]; [by apply not_elem_of_nil in Hlast|].
      intros p (-> & Hy & q & Eq & Hc). apply elem_of_cons in Hlast as [->|Hin]; eauto. }
    destruct Hh0 as [Hh0 Hs]. rewrite (proj2 (Z.eqb_neq (head f) NULL)) by done.
    rewrite set_next_ok by done. cbn. rewrite set_prev_ok by done. cbn.
    rewrite set_prev_ok by (cbn; by apply is_Some_insert). cbn.
    eexists _, _. split_and!; [done| | |done].
    + split; cbn [tail head prev].
      * rewrite Hh, last_of_cons. by apply chain_snoc.
      * unfold last_of. by rewrite app_comm_cons, last_snoc.
    + split; cbn; auto using keeps_insert, keeps_refl; intros q Hq.
      * apply lookup_insert_ne. by intros ->.
      * rewrite !lookup_insert_ne; [done|by intros ->|].
        intros <-. apply Hq. rewrite app_comm_cons. apply elem_of_app. by left.
Qed.

#[global] Program Instance Queue_laws : FreeListLaws Queue := {
  owns L p := is_Some (next L !! p) ∧ is_Some (prev L !! p);
  holds := queue_of }.
Next Obligation. by intros L p []. Qed.
Next Obligation. cbn. intros L L' p Hn Hp []. eauto. Qed.
Next Obligation.
  cbn. intros l fl L L' f Hs Hd [Hc Hh]. split; [|done].
  eapply chain_frame; [|exact Hc]. intros x Hx. by apply Hs, Hd.
Qed.
Next Obligation. done. Qed.
Next Obligation. done. Qed.
Next Obligation. intros L f [E _]. cbn in *. unfold Queue_PopNode. by rewrite E. Qed.
Next Obligation.
  intros L f [|x fl] Hq Hne Hnd Ho; [done|]. apply Forall_cons in Ho as [[Hx _] _].
  destruct (Queue_pop L f x fl Hq Hnd Hx) as (L' & f' & E & H1 & H2 & H3 & H4).
  exists L', f', x, fl. split_and!; try done. apply Hq.
Qed.
Next Obligation.
  intros L f fl p Hq Hp Hnd Hp0 [] _.
  destruct (Queue_push L f fl p) as (L' & f' & E & H1 & H2 & H3); [done..|].
  exists L', f', (fl ++ [p]). split_and!; try done. apply Permutation_app_comm.
Qed.
