(* ===== verification/HashTableRep.v ===== *)
(** * A hash table and the finite map it stands for

    [core] relates a table to the chains of its buckets, its free nodes, the
    nodes held by the operation in progress and a finite map; [rep] adds the
    bucket array.  Each step of the operations is a lemma from [core] to
    [core]; the operations of the four classes are compositions of them. *)

From stdpp Require Import base list list_numbers numbers option sets gmap fin_maps.
From S2P Require Import Prelude HashTable HashTableInv.

Open Scope Z_scope.

(** ** Lists of chains *)
Section Chains.
Context {A : Type}.
Implicit Types (cs : list (list A)) (c : list A).

Lemma concat_lookup_perm cs i c :
  cs !! i = Some c → concat cs ≡ₚ c ++ concat (delete i cs).
Proof.
  revert i. induction cs as [|d cs IH]; intros i E; [done|].
  destruct i as [|i]; cbn in *; [by simplify_eq|].
  rewrite (IH i E). rewrite !app_assoc. apply Permutation_app_tail, Permutation_app_comm.
Qed.

Lemma concat_insert_perm cs i c c' :
  cs !! i = Some c → concat (<[i := c']> cs) ≡ₚ c' ++ concat (delete i cs).
Proof.
  intros E. revert i E. induction cs as [|d cs IH]; intros i E; [done|].
  destruct i as [|i]; cbn in *; [done|].
  rewrite (IH i E), !app_assoc. apply Permutation_app_tail, Permutation_app_comm.
Qed.

Lemma elem_of_concat_lookup cs x : x ∈ concat cs ↔ ∃ i c, cs !! i = Some c ∧ x ∈ c.
Proof.
  rewrite list_elem_of_In, in_concat. split.
  - intros (c & Hc & Hx). apply list_elem_of_In, list_elem_of_lookup in Hc as [i Hi].
    exists i, c. by rewrite list_elem_of_In.
  - intros (i & c & Hi & Hx). exists c. rewrite <-!list_elem_of_In.
    split; [by eapply list_elem_of_lookup_2|done].
Qed.
End Chains.

Section Rep.
Context {F V K : Type} `{Laws : FreeListLaws F} `{Countable K}
  (key_of : V → K) (hash : Z → K → res Z).
Implicit Types (t : Table F V) (B fl out : list Z) (cs : list (list Z)) (M : gmap K V).

Record core t B cs fl out M : Prop := mkCore {
  r_chains : Forall2 (chain (next (links t))) B cs;
  r_nb : m_nBuckets t = Z.of_nat (length cs);
  r_free : holds (links t) (freeList t) fl;
  r_nodup : NoDup (concat cs ++ fl ++ out);
  r_nodes : ∀ p, p ∈ concat cs ++ fl ++ out →
    p ≠ NULL ∧ owns (links t) p ∧ is_Some (vals t !! p);
  r_total : m_nTotalSize t = Z.of_nat (length (concat cs ++ fl ++ out));
  r_u32 : m_nTotalSize t < 4294967296;
  r_used : used (freeList t) = Z.of_nat (length (concat cs ++ out));
  r_place : ∀ i c p v, cs !! i = Some c → p ∈ c → vals t !! p = Some v →
    hash (m_nBuckets t) (key_of v) = Ok (Z.of_nat i);
  r_map : ∀ k v, M !! k = Some v ↔ ∃ p, p ∈ concat cs ∧ vals t !! p = Some v ∧ key_of v = k;
  r_unique : ∀ p q v w, p ∈ concat cs → q ∈ concat cs → vals t !! p = Some v →
    vals t !! q = Some w → key_of v = key_of w → p = q;
  r_size : size M = length (concat cs) }.

(** The table at rest, between two operations. *)
Definition rep t M : Prop :=
  ∃ B cs fl, m_pBucket t = Some B ∧ core t B cs fl [] M.

(** ** Searching *)
Lemma walk_spec t k c fuel : ∀ pre p cnt,
  chain (next (links t)) p c → (∀ x, x ∈ c → is_Some (vals t !! x)) → (length c ≤ fuel)%nat →
  (∃ c1 x c2 v, c = c1 ++ x :: c2 ∧ vals t !! x = Some v ∧ key_of v = k ∧
     walk key_of fuel t k pre p cnt = Ok (last_of pre c1, x, cnt + Z.of_nat (length c1))) ∨
  ((∀ x v, x ∈ c → vals t !! x = Some v → key_of v ≠ k) ∧
   walk key_of fuel t k pre p cnt = Ok (last_of pre c, NULL, cnt + Z.of_nat (length c))).
Proof.
  revert c. induction fuel as [|fuel IH]; intros c pre p cnt Hc Hv Hl.
  - destruct c; [|cbn in Hl; lia]. cbn in Hc. subst p. right.
    split; [by intros ?? ?%not_elem_of_nil|]. cbn. by rewrite Z.add_0_r.
  - destruct c as [|x c].
    + cbn in Hc. subst p. right. split; [by intros ?? ?%not_elem_of_nil|].
      cbn. by rewrite Z.add_0_r.
    + destruct Hc as (-> & Hx & q & Eq & Hc). cbn [walk].
      rewrite (proj2 (Z.eqb_neq x NULL)) by done.
      destruct (Hv x ltac:(left)) as [v Ev]. rewrite (ld_ok _ _ _ Ev). cbn.
      destruct (decide (key_of v = k)) as [Ek|Nk].
      * left. exists [], x, c, v. split_and!; [done..|]. cbn. by rewrite Z.add_0_r.
      * rewrite (ld_ok _ _ _ Eq). cbn.
        destruct (IH c x q (cnt + 1) Hc) as [(c1 & y & c2 & w & -> & Ew & Hk & E)|[Hn E]];
          [intros; apply Hv; by right|cbn in Hl; lia| |].
        -- left. exists (x :: c1), y, c2, w. split_and!; [done..|].
           rewrite E, last_of_cons. cbn [length]. by rewrite Nat2Z.inj_succ, <-Z.add_1_l, Z.add_assoc.
        -- right. split.
           ++ intros y w [->|Hy]%elem_of_cons Ey; [congruence|eauto].
           ++ rewrite E, last_of_cons. cbn [length]. by rewrite Nat2Z.inj_succ, <-Z.add_1_l, Z.add_assoc.
Qed.

Lemma core_lookup_chain t B cs fl out M i c :
  core t B cs fl out M → cs !! i = Some c →
  ∃ b, B !! i = Some b ∧ chain (next (links t)) b c.
Proof.
  intros Hc Ei. destruct (Forall2_lookup_r _ _ _ _ _ (r_chains _ _ _ _ _ _ Hc) Ei) as (b & Eb & Hb).
  eauto.
Qed.

Lemma core_in t B cs fl out M i c x :
  core t B cs fl out M → cs !! i = Some c → x ∈ c → x ∈ concat cs.
Proof. intros _ Ei Hx. apply elem_of_concat_lookup. eauto. Qed.

Lemma core_fuel t B cs fl out M i c :
  core t B cs fl out M → cs !! i = Some c → (length c ≤ chain_fuel t)%nat.
Proof.
  intros Hc Ei. unfold chain_fuel.
  pose proof (r_nodup _ _ _ _ _ _ Hc) as Hnd.
  rewrite (concat_lookup_perm _ _ _ Ei), <-!app_assoc in Hnd. apply NoDup_app in Hnd as (Hnd & _ & _).
  rewrite <-size_dom. rewrite <-(size_list_to_set (C := gset Z) c) by done.
  apply subseteq_size. intros x Hx%elem_of_list_to_set.
  apply elem_of_dom, (r_nodes _ _ _ _ _ _ Hc). apply elem_of_app. left.
  by eapply core_in.
Qed.

(** What a search finds, in terms of the finite map. *)
Lemma find_spec t B cs fl M k h :
  core t B cs fl [] M → m_pBucket t = Some B →
  hash (m_nBuckets t) k = Ok h → 0 ≤ h < m_nBuckets t →
  ∃ b c, bucket t h = Ok b ∧ cs !! Z.to_nat h = Some c ∧
   ((∃ c1 x c2 v, c = c1 ++ x :: c2 ∧ vals t !! x = Some v ∧ key_of v = k ∧
      x ≠ NULL ∧ M !! k = Some v ∧
      walk key_of (chain_fuel t) t k NULL b 0 = Ok (last_of NULL c1, x, Z.of_nat (length c1))) ∨
    (M !! k = None ∧
      walk key_of (chain_fuel t) t k NULL b 0 = Ok (last_of NULL c, NULL, Z.of_nat (length c)))).
Proof.
  intros Hc HB Hh Hr. rewrite (r_nb _ _ _ _ _ _ Hc) in Hr.
  destruct (lookup_lt_is_Some_2 cs (Z.to_nat h)) as [c Ec]; [lia|].
  destruct (core_lookup_chain _ _ _ _ _ _ _ _ Hc Ec) as (b & Eb & Hb).
  assert (Hnodes : ∀ x, x ∈ c → x ≠ NULL ∧ is_Some (vals t !! x)).
  { intros x Hx. destruct (r_nodes _ _ _ _ _ _ Hc x) as (? & _ & ?); [|done].
    apply elem_of_app. left. by eapply core_in. }
  exists b, c. split; [|split; [done|]].
  { unfold bucket. rewrite HB. unfold rd.
    rewrite (proj2 (Z.ltb_ge h 0)) by lia. by rewrite Eb. }
  destruct (walk_spec t k c (chain_fuel t) NULL b 0) as
    [(c1 & x & c2 & v & -> & Ev & Ek & E)|[Hn E]];
    [done|intros; by apply Hnodes|by eapply core_fuel|left|right].
  - assert (x ∈ c1 ++ x :: c2) by (apply elem_of_app; right; left).
    exists c1, x, c2, v. split_and!; [done..|by apply Hnodes| |by rewrite E].
    apply (r_map _ _ _ _ _ _ Hc). exists x. split_and!; [by eapply core_in|done..].
  - split; [|by rewrite E].
    destruct (M !! k) as [v|] eqn:EM; [exfalso|done].
    apply (r_map _ _ _ _ _ _ Hc) in EM as (p & Hp & Ev & Ek).
    apply elem_of_concat_lookup in Hp as (i & d & Ei & Hp).
    pose proof (r_place _ _ _ _ _ _ Hc i d p v Ei Hp Ev) as Hi. rewrite Ek, Hh in Hi.
    injection Hi as Hi. rewrite Hi, Nat2Z.id in Ec. simplify_eq.
    by apply (Hn p v).
Qed.

(** ** Moving nodes *)
Lemma chains_frame (nx nx' : gmap Z Z) B cs :
  (∀ x, x ∈ concat cs → nx' !! x = nx !! x) →
  Forall2 (chain nx) B cs → Forall2 (chain nx') B cs.
Proof.
  intros Hf HF. apply Forall2_same_length_lookup. split; [by eapply Forall2_length|].
  intros i b c Eb Ec. pose proof (Forall2_lookup_lr _ _ _ _ _ _ HF Eb Ec) as Hc.
  eapply chain_frame; [|exact Hc]. intros x Hx. apply Hf, elem_of_concat_lookup. eauto.
Qed.

(** The chains stay; nodes move between the free list and the operation. *)
Lemma core_rebuild t t' B cs fl out fl' out' M :
  core t B cs fl out M →
  vals t' = vals t → m_nBuckets t' = m_nBuckets t → m_nTotalSize t' = m_nTotalSize t →
  (∀ x, x ∈ concat cs → next (links t') !! x = next (links t) !! x) →
  keeps (next (links t)) (next (links t')) → keeps (prev (links t)) (prev (links t')) →
  holds (links t') (freeList t') fl' → fl' ++ out' ≡ₚ fl ++ out →
  used (freeList t') = Z.of_nat (length (concat cs ++ out')) →
  core t' B cs fl' out' M.
Proof.
  intros Hc Ev Eb Et Hn Hkn Hkp Hh Hp Hu.
  split; rewrite ?Ev, ?Eb, ?Et, ?Hp; try apply Hc; try done.
  - eapply chains_frame; [exact Hn|apply Hc].
  - intros p Hin. rewrite Hp in Hin. destruct (r_nodes _ _ _ _ _ _ Hc p Hin) as (? & ? & ?).
    split_and!; [done|by eapply owns_keeps|done].
Qed.

(** A node that belongs to the operation is in no chain and not free. *)
Lemma core_out t B cs fl p out M :
  core t B cs fl (p :: out) M →
  p ∉ concat cs ∧ p ∉ fl ∧ p ∉ out ∧ p ≠ NULL ∧ owns (links t) p ∧ is_Some (vals t !! p).
Proof.
  intros Hc. pose proof (r_nodup _ _ _ _ _ _ Hc) as Hnd.
  rewrite <-Permutation_middle, <-Permutation_middle in Hnd.
  apply NoDup_cons in Hnd as [Hp _]. rewrite !not_elem_of_app in Hp.
  destruct (r_nodes _ _ _ _ _ _ Hc p) as (? & ? & ?).
  { rewrite !elem_of_app. right. right. left. }
  tauto.
Qed.

Lemma core_owns_fl t B cs fl out M : core t B cs fl out M → Forall (owns (links t)) fl ∧ NoDup fl.
Proof.
  intros Hc. split.
  - apply Forall_forall. intros p Hp. apply (r_nodes _ _ _ _ _ _ Hc).
    rewrite !elem_of_app. auto.
  - pose proof (r_nodup _ _ _ _ _ _ Hc) as Hnd.
    apply NoDup_app in Hnd as (_ & _ & Hnd). by apply NoDup_app in Hnd as (? & _ & _).
Qed.

Lemma core_disjoint t B cs fl out M p : core t B cs fl out M → p ∈ fl → p ∉ concat cs.
Proof.
  intros Hc Hp Hin. pose proof (r_nodup _ _ _ _ _ _ Hc) as Hnd.
  apply NoDup_app in Hnd as (_ & Hd & _). apply (Hd p Hin), elem_of_app. by left.
Qed.

Lemma core_counts t B cs fl out M :
  core t B cs fl out M →
  0 ≤ Z.of_nat (length (concat cs ++ out)) ≤ m_nTotalSize t ∧
  m_nTotalSize t = Z.of_nat (length (concat cs ++ out)) + Z.of_nat (length fl).
Proof.
  intros Hc. rewrite (r_total _ _ _ _ _ _ Hc). rewrite !length_app. lia.
Qed.

Lemma take_none t B cs out M : core t B cs [] out M → take t = Ok (t, NULL).
Proof.
  intros Hc. unfold take. rewrite (pop_empty _ _ (r_free _ _ _ _ _ _ Hc)).
  cbn. unfold with_links. by destruct t.
Qed.

Lemma take_spec t B cs fl out M :
  core t B cs fl out M → fl ≠ [] →
  ∃ t' p fl', take t = Ok (t', p) ∧ core t' B cs fl' (p :: out) M ∧
    vals t' = vals t ∧ m_pBucket t' = m_pBucket t ∧ p ≠ NULL ∧
    m_nBuckets t' = m_nBuckets t ∧ m_nTotalSize t' = m_nTotalSize t ∧
    length fl = S (length fl').
Proof.
  intros Hc Hne. destruct (core_owns_fl _ _ _ _ _ _ Hc) as [Ho Hnd].
  destruct (pop_node _ _ _ (r_free _ _ _ _ _ _ Hc) Hne Hnd Ho)
    as (L & f & p & fl' & E & Hp & Hh & Hp0 & Hn & Hs & Hu).
  exists (with_links L f t), p, fl'. unfold take. rewrite E. cbn.
  split_and!; [done| |done..|by rewrite Hp].
  assert (Hpin : p ∈ fl) by (rewrite Hp; left).
  eapply core_rebuild; [exact Hc|done..| | | |exact Hh| |]; cbn.
  - intros x Hx. apply Hs. intros ->%list_elem_of_singleton.
    by eapply core_disjoint.
  - apply Hs.
  - apply Hs.
  - rewrite Hp. by rewrite <-Permutation_middle.
  - rewrite Hu, (r_used _ _ _ _ _ _ Hc). pose proof (core_counts _ _ _ _ _ _ Hc).
    pose proof (r_u32 _ _ _ _ _ _ Hc).
    assert (length fl = S (length fl')) as Hl by (by rewrite Hp).
    rewrite u32_small by lia. rewrite !length_app. cbn [length]. lia.
Qed.

Lemma give_spec t B cs fl p out M :
  core t B cs fl (p :: out) M →
  ∃ t' fl', give p t = Ok t' ∧ core t' B cs fl' out M ∧
    vals t' = vals t ∧ m_pBucket t' = m_pBucket t ∧
    m_nBuckets t' = m_nBuckets t ∧ m_nTotalSize t' = m_nTotalSize t.
Proof.
  intros Hc. destruct (core_owns_fl _ _ _ _ _ _ Hc) as [Ho Hnd].
  destruct (core_out _ _ _ _ _ _ _ Hc) as (H1 & H2 & H3 & H4 & H5 & H6).
  destruct (push_node _ _ _ p (r_free _ _ _ _ _ _ Hc) H2 Hnd H4 H5 Ho)
    as (L & f & fl' & E & Hp & Hh & Hs & Hu).
  exists (with_links L f t), fl'. unfold give. rewrite E. cbn. split_and!; [done| |done..].
  eapply core_rebuild; [exact Hc|done..| | | |exact Hh| |]; cbn.
  - intros x Hx. apply Hs. rewrite Hp. intros [->|Hin]%elem_of_cons; [done|].
    by eapply core_disjoint.
  - apply Hs.
  - apply Hs.
  - rewrite Hp. cbn. by rewrite Permutation_middle.
  - rewrite Hu, (r_used _ _ _ _ _ _ Hc). pose proof (core_counts _ _ _ _ _ _ Hc) as Hcn.
    pose proof (r_u32 _ _ _ _ _ _ Hc). rewrite length_app in *. cbn [length] in *.
    rewrite length_app, u32_small by lia. lia.
Qed.

Lemma core_link_out t B cs fl p q out M :
  core t B cs fl (p :: out) M →
  ∃ t', link p q t = Ok t' ∧ core t' B cs fl (p :: out) M ∧ next (links t') !! p = Some q ∧
    vals t' = vals t ∧ m_pBucket t' = m_pBucket t ∧ m_nBuckets t' = m_nBuckets t ∧
    m_nTotalSize t' = m_nTotalSize t ∧ links t' = mkLinks (<[p := q]> (next (links t))) (prev (links t)).
Proof.
  intros Hc. destruct (core_out _ _ _ _ _ _ _ Hc) as (H1 & H2 & H3 & H4 & H5 & H6).
  unfold link. rewrite set_next_ok by (by apply owns_next). cbn.
  eexists. split_and!; [done| |by apply lookup_insert_eq|done..].
  eapply core_rebuild; [exact Hc|done..| | | | |done|apply Hc]; cbn.
  - intros x Hx. apply lookup_insert_ne. by intros ->.
  - apply keeps_insert, keeps_refl.
  - apply keeps_refl.
  - eapply holds_frame; [apply (same_off_next [p])| |apply Hc]; [left|].
    intros y Hy ->%list_elem_of_singleton. done.
Qed.

Lemma core_set_out t B cs fl p v out M :
  core t B cs fl (p :: out) M →
  ∃ t', set_val p v t = Ok t' ∧ core t' B cs fl (p :: out) M ∧ vals t' = <[p := v]> (vals t) ∧
    m_pBucket t' = m_pBucket t ∧ m_nBuckets t' = m_nBuckets t ∧
    m_nTotalSize t' = m_nTotalSize t ∧ links t' = links t.
Proof.
  intros Hc. destruct (core_out _ _ _ _ _ _ _ Hc) as (H1 & H2 & H3 & H4 & H5 & H6).
  unfold set_val. rewrite st_ok by done. cbn. eexists. split_and!; [done| |done..].
  assert (Hv : ∀ x, x ∈ concat cs → <[p := v]> (vals t) !! x = vals t !! x).
  { intros x Hx. apply lookup_insert_ne. by intros ->. }
  split; cbn; try apply Hc.
  - intros x Hx. destruct (r_nodes _ _ _ _ _ _ Hc x Hx) as (? & ? & ?).
    split_and!; [done..|by apply is_Some_insert].
  - intros i c x w Ei Hx. rewrite Hv by (by eapply core_in). by eapply (r_place _ _ _ _ _ _ Hc).
  - intros k w. rewrite (r_map _ _ _ _ _ _ Hc). split; intros (x & Hx & E & Ek);
      exists x; rewrite ?Hv in * by done; done.
  - intros x y w w' Hx Hy. rewrite !Hv by done. by apply (r_unique _ _ _ _ _ _ Hc).
Qed.

(** Changing the record of a node in use, its key kept. *)
Lemma core_set_in t B cs fl p v w M :
  core t B cs fl [] M → p ∈ concat cs → vals t !! p = Some v → key_of w = key_of v →
  ∃ t', set_val p w t = Ok t' ∧ core t' B cs fl [] (<[key_of v := w]> M) ∧
    vals t' = <[p := w]> (vals t) ∧ m_pBucket t' = m_pBucket t ∧ m_nBuckets t' = m_nBuckets t ∧
    m_nTotalSize t' = m_nTotalSize t ∧ links t' = links t.
Proof.
  intros Hc Hp Ev Ek. unfold set_val. rewrite st_ok by eauto. cbn.
  eexists. split_and!; [done| |done..].
  assert (Hv : ∀ x u, <[p := w]> (vals t) !! x = Some u →
    ∃ u', vals t !! x = Some u' ∧ key_of u' = key_of u).
  { intros x u. destruct (decide (x = p)) as [->|]; [rewrite lookup_insert_eq|rewrite lookup_insert_ne by done]; naive_solver. }
  split; cbn; try apply Hc.
  - intros x Hx. destruct (r_nodes _ _ _ _ _ _ Hc x Hx) as (? & ? & ?).
    split_and!; [done..|by apply is_Some_insert].
  - intros i c x u Ei Hx (u' & E & <-)%Hv. by eapply (r_place _ _ _ _ _ _ Hc).
  - intros k u. destruct (decide (k = key_of v)) as [->|Hk].
    + rewrite lookup_insert_eq. split.
      * intros [= <-]. exists p. rewrite lookup_insert_eq. done.
      * intros (x & Hx & E & Eku). pose proof (Hv _ _ E) as (u' & E' & Hu').
        assert (x = p) as -> by (eapply (r_unique _ _ _ _ _ _ Hc); eauto; congruence).
        by rewrite lookup_insert_eq in E.
    + rewrite lookup_insert_ne by done. rewrite (r_map _ _ _ _ _ _ Hc).
      split; intros (x & Hx & E & <-); exists x; (destruct (decide (x = p)) as [->|];
        [rewrite ?lookup_insert_eq in *; simplify_eq; congruence|
         by rewrite ?lookup_insert_ne in * by done]).
  - intros x y u u' Hx Hy (u1 & E1 & <-)%Hv (u2 & E2 & <-)%Hv.
    by apply (r_unique _ _ _ _ _ _ Hc).
  - rewrite map_size_insert_Some; [apply Hc|].
    exists v. apply (r_map _ _ _ _ _ _ Hc). eauto.
Qed.

(** ** Entering and removing a record *)
Lemma set_bucket_ok t B h p :
  m_pBucket t = Some B → 0 ≤ h < Z.of_nat (length B) →
  set_bucket h p t = Ok (mkTable (vals t) (links t) (freeList t)
    (Some (<[Z.to_nat h := p]> B)) (m_nTotalSize t) (m_nBuckets t)).
Proof. intros E Hh. unfold set_bucket. rewrite E, wr_ok by done. done. Qed.

Lemma core_length_B t B cs fl out M : core t B cs fl out M → length B = length cs.
Proof. intros Hc. eapply Forall2_length, Hc. Qed.

(** Only the bucket array differs. *)
Lemma core_bucket t t' B cs fl out M :
  vals t' = vals t → links t' = links t → freeList t' = freeList t →
  m_nBuckets t' = m_nBuckets t → m_nTotalSize t' = m_nTotalSize t →
  core t B cs fl out M → core t' B cs fl out M.
Proof. intros E1 E2 E3 E4 E5 Hc. split; rewrite ?E1, ?E2, ?E3, ?E4, ?E5; apply Hc. Qed.

Lemma perm_attach cs i c p fl out :
  cs !! i = Some c →
  concat cs ++ fl ++ p :: out ≡ₚ concat (<[i := p :: c]> cs) ++ fl ++ out.
Proof.
  intros Ei. rewrite (concat_lookup_perm _ _ _ Ei), (concat_insert_perm _ _ _ _ Ei).
  by rewrite <-!Permutation_middle.
Qed.

Lemma elem_attach cs i c p x :
  cs !! i = Some c → x ∈ concat (<[i := p :: c]> cs) ↔ x = p ∨ x ∈ concat cs.
Proof.
  intros Ei. rewrite (concat_insert_perm _ _ _ _ Ei), (concat_lookup_perm _ _ _ Ei).
  cbn. by rewrite elem_of_cons.
Qed.

(** The new first node of chain [i]. *)
Lemma core_attach t B cs fl p out M i b c v :
  core t B cs fl (p :: out) M → B !! i = Some b → cs !! i = Some c →
  vals t !! p = Some v → next (links t) !! p = Some b → M !! key_of v = None →
  hash (m_nBuckets t) (key_of v) = Ok (Z.of_nat i) →
  core t (<[i := p]> B) (<[i := p :: c]> cs) fl out (<[key_of v := v]> M).
Proof.
  intros Hc Eb Ec Ev En EM Eh.
  destruct (core_out _ _ _ _ _ _ _ Hc) as (H1 & H2 & H3 & H4 & H5 & H6).
  pose proof (perm_attach cs i c p fl out Ec) as Hp.
  pose proof (λ x, elem_attach cs i c p x Ec) as He.
  split; rewrite <-?Hp; try apply Hc.
  - apply Forall2_insert; [apply Hc|]. cbn. split_and!; [done..|]. exists b. split; [done|].
    by apply (Forall2_lookup_lr _ _ _ _ _ _ (r_chains _ _ _ _ _ _ Hc) Eb Ec).
  - rewrite length_insert. apply Hc.
  - intros x Hx. rewrite <-Hp in Hx. by apply (r_nodes _ _ _ _ _ _ Hc).
  - rewrite (r_used _ _ _ _ _ _ Hc). f_equal.
    pose proof (Permutation_length (perm_attach cs i c p [] out Ec)). done.
  - intros j d x w Ej Hx Ex. apply list_lookup_insert_Some in Ej as [(-> & <- & _)|[_ Ej]].
    + apply elem_of_cons in Hx as [->|Hx]; [by simplify_eq|].
      by eapply (r_place _ _ _ _ _ _ Hc).
    + by eapply (r_place _ _ _ _ _ _ Hc).
  - intros k w. destruct (decide (k = key_of v)) as [->|Hk].
    + rewrite lookup_insert_eq. split.
      * intros [= <-]. exists p. rewrite He. auto.
      * intros (x & Hx & Ex & Ek). rewrite He in Hx. destruct Hx as [->|Hx]; [congruence|].
        assert (M !! key_of v = Some w) by (apply (r_map _ _ _ _ _ _ Hc); eauto). congruence.
    + rewrite lookup_insert_ne by done. rewrite (r_map _ _ _ _ _ _ Hc).
      split; intros (x & Hx & Ex & Ek); exists x; rewrite He in *; [by auto|].
      destruct Hx as [->|Hx]; [congruence|done].
  - assert (Hno : ∀ x w, x ∈ concat cs → vals t !! x = Some w → key_of w ≠ key_of v).
    { intros x w Hx Ex Ek. assert (M !! key_of v = Some w) by (apply (r_map _ _ _ _ _ _ Hc); eauto).
      congruence. }
    intros x y w w' Hx Hy Ex Ey Ek. rewrite He in Hx, Hy.
    destruct Hx as [->|Hx], Hy as [->|Hy]; [done| | |by eapply (r_unique _ _ _ _ _ _ Hc)];
      exfalso; simplify_eq; eapply Hno; eauto.
  - rewrite map_size_insert_None by done. rewrite (r_size _ _ _ _ _ _ Hc).
    rewrite (concat_lookup_perm _ _ _ Ec), (concat_insert_perm _ _ _ _ Ec). done.
Qed.

Lemma link_first_spec t B cs fl p out M h c v :
  core t B cs fl (p :: out) M → m_pBucket t = Some B → cs !! Z.to_nat h = Some c → 0 ≤ h →
  vals t !! p = Some v → M !! key_of v = None → hash (m_nBuckets t) (key_of v) = Ok h →
  ∃ t' B', link_first h p t = Ok t' ∧ m_pBucket t' = Some B' ∧
    core t' B' (<[Z.to_nat h := p :: c]> cs) fl out (<[key_of v := v]> M) ∧
    vals t' = vals t ∧ m_nBuckets t' = m_nBuckets t ∧ m_nTotalSize t' = m_nTotalSize t.
Proof.
  intros Hc HB Ec Hh Ev EM Eh.
  destruct (core_lookup_chain _ _ _ _ _ _ _ _ Hc Ec) as (b & Eb & Hb).
  pose proof (lookup_lt_Some _ _ _ Eb).
  assert (Ebk : bucket t h = Ok b).
  { unfold bucket. rewrite HB. unfold rd. rewrite (proj2 (Z.ltb_ge h 0)) by lia. by rewrite Eb. }
  unfold link_first. rewrite Ebk. cbn.
  destruct (core_link_out t B cs fl p b out M Hc)
    as (t1 & E1 & Hc1 & En & Ev1 & EB1 & En1 & Et1 & EL1).
  assert (Hfin : ∀ t', vals t' = vals t1 → links t' = links t1 → freeList t' = freeList t1 →
     m_nBuckets t' = m_nBuckets t1 → m_nTotalSize t' = m_nTotalSize t1 →
     core t' (<[Z.to_nat h := p]> B) (<[Z.to_nat h := p :: c]> cs) fl out (<[key_of v := v]> M)).
  { intros t' F1 F2 F3 F4 F5.
    apply (core_attach t' B cs fl p out M _ b); rewrite ?F1, ?F2, ?F4, ?Ev1, ?En1; try done.
    - by eapply core_bucket.
    - by rewrite Z2Nat.id. }
  destruct (Z.eqb_spec b NULL) as [->|Hb0].
  - rewrite (set_bucket_ok _ B) by (done || lia). cbn. unfold link in E1 |- *. cbn.
    destruct (set_next p NULL (links t)) as [L|]; cbn in E1 |- *; [|done]. injection E1 as <-.
    eexists _, _. split_and!; [done|done|by apply Hfin|done..].
  - rewrite E1. cbn. rewrite (set_bucket_ok _ B) by (congruence || lia).
    eexists _, _. split_and!; [done|done|by apply Hfin|done..].
Qed.

Lemma perm_detach cs i c1 x c2 :
  cs !! i = Some (c1 ++ x :: c2) → concat cs ≡ₚ x :: concat (<[i := c1 ++ c2]> cs).
Proof.
  intros Ei. rewrite (concat_lookup_perm _ _ _ Ei), (concat_insert_perm _ _ _ _ Ei).
  by rewrite <-Permutation_middle.
Qed.

(** Node [x] leaves chain [i]; the links of the nodes before it may change. *)
Lemma core_detach t t' B B' cs fl out M i c1 x c2 v :
  core t B cs fl out M → cs !! i = Some (c1 ++ x :: c2) → vals t !! x = Some v →
  vals t' = vals t → freeList t' = freeList t → m_nBuckets t' = m_nBuckets t →
  m_nTotalSize t' = m_nTotalSize t → same_off c1 (links t) (links t') →
  Forall2 (chain (next (links t'))) B' (<[i := c1 ++ c2]> cs) →
  core t' B' (<[i := c1 ++ c2]> cs) fl (x :: out) (delete (key_of v) M).
Proof.
  intros Hc Ei Ev E1 E2 E3 E4 Hs HF. pose proof (perm_detach _ _ _ _ _ Ei) as Hp.
  assert (Hp' : concat (<[i := c1 ++ c2]> cs) ++ fl ++ x :: out ≡ₚ concat cs ++ fl ++ out).
  { rewrite Hp. by rewrite <-!Permutation_middle. }
  assert (He : ∀ y, y ∈ concat cs ↔ y = x ∨ y ∈ concat (<[i := c1 ++ c2]> cs)).
  { intros y. by rewrite Hp, elem_of_cons. }
  assert (Hx : x ∉ concat (<[i := c1 ++ c2]> cs)).
  { pose proof (r_nodup _ _ _ _ _ _ Hc) as Hnd. rewrite Hp in Hnd. apply NoDup_cons in Hnd as [Hn _].
    rewrite elem_of_app in Hn. tauto. }
  assert (Hx' : x ∈ concat cs) by (rewrite He; by left).
  split; rewrite ?E1, ?E2, ?E3, ?E4, ?Hp'; try apply Hc; try done.
  - rewrite length_insert. apply Hc.
  - eapply holds_frame; [exact Hs| |apply Hc]. intros y Hy Hin.
    apply (core_disjoint _ _ _ _ _ _ y Hc Hy), elem_of_concat_lookup.
    exists i, (c1 ++ x :: c2). split; [done|]. apply elem_of_app. by left.
  - intros y Hy. rewrite Hp' in Hy. destruct (r_nodes _ _ _ _ _ _ Hc y Hy) as (? & ? & ?).
    split_and!; [done|eapply owns_keeps; [apply Hs|apply Hs|done]|done].
  - rewrite (r_used _ _ _ _ _ _ Hc). rewrite !length_app, Hp. cbn [length]. lia.
  - intros j d y w Ej Hy. apply list_lookup_insert_Some in Ej as [(-> & <- & _)|[_ Ej]].
    + eapply (r_place _ _ _ _ _ _ Hc); [exact Ei|]. apply elem_of_app in Hy. rewrite elem_of_app, elem_of_cons. tauto.
    + by eapply (r_place _ _ _ _ _ _ Hc).
  - intros k w. destruct (decide (k = key_of v)) as [->|Hk].
    + rewrite lookup_delete_eq. split; [done|]. intros (y & Hy & Ey & Ek). exfalso.
      assert (y = x) as -> by (eapply (r_unique _ _ _ _ _ _ Hc); eauto; rewrite He; auto). done.
    + rewrite lookup_delete_ne by done. rewrite (r_map _ _ _ _ _ _ Hc).
      split; intros (y & Hy & Ey & Ek); exists y; rewrite He in *; [|by auto].
      destruct Hy as [->|Hy]; [congruence|done].
  - intros y z w w' Hy Hz. apply (r_unique _ _ _ _ _ _ Hc); rewrite He; auto.
  - rewrite map_size_delete_Some, (r_size _ _ _ _ _ _ Hc), Hp; [done|].
    exists v. apply (r_map _ _ _ _ _ _ Hc). eauto.
Qed.

Lemma unlink_spec t B cs fl M h c1 x c2 v :
  core t B cs fl [] M → m_pBucket t = Some B → cs !! Z.to_nat h = Some (c1 ++ x :: c2) →
  0 ≤ h → vals t !! x = Some v →
  ∃ t' B', unlink h (last_of NULL c1) x t = Ok t' ∧ m_pBucket t' = Some B' ∧
    core t' B' (<[Z.to_nat h := c1 ++ c2]> cs) fl [x] (delete (key_of v) M) ∧
    vals t' = vals t ∧ m_nBuckets t' = m_nBuckets t ∧ m_nTotalSize t' = m_nTotalSize t.
Proof.
  intros Hc HB Ec Hh Ev.
  destruct (core_lookup_chain _ _ _ _ _ _ _ _ Hc Ec) as (b & Eb & Hb).
  pose proof (lookup_lt_Some _ _ _ Eb).
  assert (Hxc : x ∈ concat cs) by (eapply core_in; [done..|apply elem_of_app; right; left]).
  destruct (r_nodes _ _ _ _ _ _ Hc x) as (Hx0 & Ho & _); [apply elem_of_app; by left|].
  destruct (owns_next _ _ Ho) as [n En]. unfold unlink. rewrite (ld_ok _ _ _ En). cbn.
  assert (Hnd : NoDup (c1 ++ x :: c2)).
  { pose proof (r_nodup _ _ _ _ _ _ Hc) as Hnd. rewrite (concat_lookup_perm _ _ _ Ec) in Hnd.
    rewrite <-app_assoc in Hnd. by apply NoDup_app in Hnd as (? & _ & _). }
  destruct (chain_cut _ _ _ _ _ _ Hb Hnd En) as [(-> & -> & Hc2)|(Hlast & [m Em] & Hcut)].
  - cbn. rewrite (set_bucket_ok _ B) by (done || lia). eexists _, _. split_and!; [done|done| |done..].
    apply (core_detach t _ B _ cs fl [] M _ [] x c2 v); [done..|apply same_off_refl|].
    apply (Forall2_insert _ B cs n c2); [apply Hc|done].
  - assert (Hl0 : last_of NULL c1 ≠ NULL).
    { apply (r_nodes _ _ _ _ _ _ Hc). apply elem_of_app. left. eapply core_in; [done..|].
      apply elem_of_app. by left. }
    rewrite (proj2 (Z.eqb_neq _ _)) by done. unfold link. rewrite set_next_ok by eauto. cbn.
    eexists _, _. split_and!; [done|done| |done..].
    eapply core_detach; [exact Hc|done..|by apply same_off_next|]. cbn.
    apply Forall2_same_length_lookup. split; [rewrite length_insert; by eapply core_length_B|].
    intros j y d Ey Ed. apply list_lookup_insert_Some in Ed as [(<- & <- & _)|[Hne Ed]].
    + by simplify_eq.
    + pose proof (Forall2_lookup_lr _ _ _ _ _ _ (r_chains _ _ _ _ _ _ Hc) Ey Ed) as Hd.
      apply chain_insert; [|done]. intros Hin.
      pose proof (r_nodup _ _ _ _ _ _ Hc) as Hn. rewrite (concat_lookup_perm _ _ _ Ec) in Hn.
      rewrite <-app_assoc in Hn. apply NoDup_app in Hn as (_ & Hdis & _).
      apply (Hdis (last_of NULL c1)); [apply elem_of_app; by left|].
      apply elem_of_app. left. apply elem_of_concat_lookup.
      apply list_elem_of_lookup in Hin as [q Hq].
      destruct (decide (j < Z.to_nat h)%nat).
      * exists j, d. rewrite list_lookup_delete_lt by done. split; [done|]. by eapply list_elem_of_lookup_2.
      * exists (j - 1)%nat, d. rewrite list_lookup_delete_ge by lia.
        replace (S (j - 1)) with j by lia. split; [done|]. by eapply list_elem_of_lookup_2.
Qed.

(** ** Clearing *)
Lemma drain_spec fuel : ∀ t B cs fl M i node c,
  core t (<[i := node]> B) cs fl [] M → cs !! i = Some c → (length c ≤ fuel)%nat →
  ∃ t' fl' M', drain fuel node t = Ok t' ∧ core t' (<[i := NULL]> B) (<[i := []]> cs) fl' [] M' ∧
    vals t' = vals t ∧ m_pBucket t' = m_pBucket t ∧
    m_nBuckets t' = m_nBuckets t ∧ m_nTotalSize t' = m_nTotalSize t.
Proof.
  induction fuel as [|fuel IH]; intros t B cs fl M i node c Hc Ec Hf;
    destruct (core_lookup_chain _ _ _ _ _ _ _ _ Hc Ec) as (b & Eb & Hb);
    (assert (b = node) as -> by
      (pose proof (lookup_lt_Some _ _ _ Eb) as Hl; rewrite length_insert in Hl;
       rewrite list_lookup_insert_eq in Eb by done; by simplify_eq));
    (destruct c as [|x c];
      [cbn in Hb; subst node; exists t, fl, M; split_and!; try done;
       by rewrite (list_insert_id cs)|]); [cbn in Hf; lia|].
  destruct Hb as (-> & Hx0 & n & En & Hb). cbn [drain].
  rewrite (proj2 (Z.eqb_neq _ _)) by done. rewrite (ld_ok _ _ _ En). cbn.
  destruct (r_nodes _ _ _ _ _ _ Hc x) as (_ & _ & [v Ev]).
  { apply elem_of_app. left. eapply core_in; [done..|left]. }
  assert (Hc1 : core t (<[i := n]> B) (<[i := c]> cs) fl [x] (delete (key_of v) M)).
  { apply (core_detach t t (<[i := x]> B) (<[i := n]> B) cs fl [] M i [] x c v);
      [done..|apply same_off_refl|].
    rewrite <-(list_insert_insert_eq B i n x). apply Forall2_insert; [apply Hc|done]. }
  destruct (core_link_out _ _ _ _ x NULL _ _ Hc1) as (t1 & E1 & Hc2 & _ & Ev1 & EB1 & En1 & Et1 & _).
  rewrite E1. cbn.
  destruct (give_spec _ _ _ _ _ _ _ Hc2) as (t2 & fl2 & E2 & Hc3 & Ev2 & EB2 & En2 & Et2).
  rewrite E2. cbn.
  destruct (IH t2 B (<[i := c]> cs) fl2 _ i n c Hc3) as (t3 & fl3 & M3 & E3 & Hc4 & Ev3 & EB3 & En3 & Et3).
  { apply list_lookup_insert_eq. by eapply lookup_lt_Some. }
  { cbn in Hf. lia. }
  exists t3, fl3, M3. rewrite list_insert_insert_eq in Hc4. split_and!; [done..|congruence|congruence|congruence|congruence].
Qed.

Lemma clear_bucket_spec t B cs fl M i :
  core t B cs fl [] M → m_pBucket t = Some B → 0 ≤ i < m_nBuckets t →
  ∃ t' B' fl' M', clear_bucket i t = Ok t' ∧ m_pBucket t' = Some B' ∧
    core t' B' (<[Z.to_nat i := []]> cs) fl' [] M' ∧
    vals t' = vals t ∧ m_nBuckets t' = m_nBuckets t ∧ m_nTotalSize t' = m_nTotalSize t.
Proof.
  intros Hc HB Hi. rewrite (r_nb _ _ _ _ _ _ Hc) in Hi.
  destruct (lookup_lt_is_Some_2 cs (Z.to_nat i)) as [c Ec]; [lia|].
  destruct (core_lookup_chain _ _ _ _ _ _ _ _ Hc Ec) as (b & Eb & Hb).
  pose proof (core_length_B _ _ _ _ _ _ Hc) as HlB.
  unfold clear_bucket, bucket. rewrite HB. unfold rd.
  rewrite (proj2 (Z.ltb_ge i 0)), Eb by lia. cbn.
  destruct (drain_spec (chain_fuel t) t B cs fl M (Z.to_nat i) b c)
    as (t1 & fl1 & M1 & E1 & Hc1 & Ev1 & EB1 & En1 & Et1); [by rewrite list_insert_id|done|by eapply core_fuel|].
  rewrite E1. cbn. rewrite (set_bucket_ok _ B) by (congruence || lia).
  eexists _, _, _, _. split_and!; [done|done|by apply (core_bucket t1); [..|exact Hc1]|done..].
Qed.

Lemma clear_spec t M :
  rep t M → ∃ t', clear t = Ok t' ∧ rep t' ∅ ∧
    m_nBuckets t' = m_nBuckets t ∧ m_nTotalSize t' = m_nTotalSize t.
Proof.
  intros (B & cs & fl & HB & Hc). pose proof (r_nb _ _ _ _ _ _ Hc) as Hnb.
  destruct (for_inv (λ i s, ∃ B cs fl M, m_pBucket s = Some B ∧ core s B cs fl [] M ∧
      m_nBuckets s = m_nBuckets t ∧ m_nTotalSize s = m_nTotalSize t ∧
      ∀ j, 0 ≤ j < i → cs !! Z.to_nat j = Some []) 0 (m_nBuckets t) t clear_bucket)
    as (t' & E & (B' & cs' & fl' & M' & HB' & Hc' & En & Et & Hall)); [lia| | |].
  - exists B, cs, fl, M. split_and!; try done. intros. lia.
  - intros i s Hi (B1 & cs1 & fl1 & M1 & HB1 & Hc1 & En1 & Et1 & Hj).
    destruct (clear_bucket_spec s B1 cs1 fl1 M1 i Hc1 HB1) as
      (s' & B2 & fl2 & M2 & E2 & HB2 & Hc2 & _ & En2 & Et2); [lia|].
    exists s'. split; [done|]. exists B2, (<[Z.to_nat i := []]> cs1), fl2, M2.
    split_and!; [done..|congruence|congruence|]. intros j Hj'.
    pose proof (r_nb _ _ _ _ _ _ Hc1).
    destruct (decide (j = i)) as [->|]; [apply list_lookup_insert_eq; lia|].
    rewrite list_lookup_insert_ne by lia. apply Hj. lia.
  - exists t'. split_and!; [exact E| |done..]. exists B', cs', fl'. split; [done|].
    assert (Hnil : concat cs' = []).
    { destruct (concat cs') as [|x l] eqn:Ecc; [done|]. exfalso.
      assert (x ∈ concat cs') as (i & c & Ei & Hx)%elem_of_concat_lookup by (rewrite Ecc; left).
      pose proof (lookup_lt_Some _ _ _ Ei). pose proof (r_nb _ _ _ _ _ _ Hc').
      specialize (Hall (Z.of_nat i)). rewrite Nat2Z.id in Hall. rewrite Hall in Ei by lia.
      simplify_eq. by apply not_elem_of_nil in Hx. }
    assert (M' = ∅) as <-; [|done]. apply map_size_empty_inv.
    by rewrite (r_size _ _ _ _ _ _ Hc'), Hnil.
Qed.

(** ** The operations on a table at rest *)
Definition full t : bool := used (freeList t) =? m_nTotalSize t.

Lemma rep_size t M : rep t M → used (freeList t) = Z.of_nat (size M) ∧ 0 ≤ Z.of_nat (size M) ≤ m_nTotalSize t.
Proof.
  intros (B & cs & fl & _ & Hc). pose proof (core_counts _ _ _ _ _ _ Hc) as Hn.
  rewrite (r_used _ _ _ _ _ _ Hc), (r_size _ _ _ _ _ _ Hc).
  rewrite app_nil_r in *. split; [done|lia].
Qed.

(** The search, at rest: the node found carries the record of the key. *)
Lemma search_spec t M k h :
  rep t M → hash (m_nBuckets t) k = Ok h → 0 ≤ h < m_nBuckets t →
  ∃ b pre p cnt, bucket t h = Ok b ∧
    walk key_of (chain_fuel t) t k NULL b 0 = Ok (pre, p, cnt) ∧ 0 ≤ cnt ≤ m_nTotalSize t ∧
    match M !! k with
    | Some v => p ≠ NULL ∧ vals t !! p = Some v ∧ key_of v = k
    | None => p = NULL
    end.
Proof.
  intros (B & cs & fl & HB & Hc) Hh Hr.
  destruct (find_spec _ _ _ _ _ _ _ Hc HB Hh Hr) as (b & c & Eb & Ec & Hcase).
  assert (Z.of_nat (length c) ≤ m_nTotalSize t).
  { rewrite (r_total _ _ _ _ _ _ Hc), (concat_lookup_perm _ _ _ Ec), !length_app. lia. }
  destruct Hcase as [(c1 & x & c2 & v & -> & Ev & Ek & Hx & EM & E)|[EM E]];
    rewrite EM; exists b; eexists _, _, _; split_and!; try exact E; try done; try lia.
  rewrite length_app in *. lia.
Qed.

(** Changing the record found, its key kept. *)
Lemma change_spec t M k h b pre p cnt v w :
  rep t M → hash (m_nBuckets t) k = Ok h → 0 ≤ h < m_nBuckets t → bucket t h = Ok b →
  walk key_of (chain_fuel t) t k NULL b 0 = Ok (pre, p, cnt) → M !! k = Some v → key_of w = k →
  ∃ t', set_val p w t = Ok t' ∧ rep t' (<[k := w]> M) ∧ vals t' !! p = Some w ∧
    m_nBuckets t' = m_nBuckets t ∧ m_nTotalSize t' = m_nTotalSize t.
Proof.
  intros (B & cs & fl & HB & Hc) Hh Hr Eb Ew EM Ek.
  destruct (find_spec _ _ _ _ _ _ _ Hc HB Hh Hr) as (b' & c & Eb' & Ec & Hcase).
  rewrite Eb in Eb'. injection Eb' as <-. rewrite EM, Ew in Hcase.
  destruct Hcase as [(c1 & x & c2 & v' & -> & Ev & Ek' & Hx & EM' & E)|[EM' E]]; [|done].
  injection EM' as <-. injection E as -> -> ->.
  destruct (core_set_in t B cs fl x v w M Hc) as (t' & E' & Hc' & Ev' & EB & En & Et & _);
    [eapply core_in; [done..|apply elem_of_app; right; left]|done|congruence|].
  exists t'. rewrite Ev', lookup_insert_eq. split_and!; [done| |done..].
  exists B, cs, fl. by rewrite EB, <-Ek'.
Qed.

Lemma enter_spec t M k h write :
  rep t M → hash (m_nBuckets t) k = Ok h → 0 ≤ h < m_nBuckets t → M !! k = None →
  (∀ v, key_of (write v) = k) →
  if full t then enter h write t = Ok (t, NULL)
  else ∃ t' p old, enter h write t = Ok (t', p) ∧ p ≠ NULL ∧ rep t' (<[k := write old]> M) ∧
    vals t' !! p = Some (write old) ∧
    m_nBuckets t' = m_nBuckets t ∧ m_nTotalSize t' = m_nTotalSize t ∧
    (∀ w, key_of w = k → ∃ t'', set_val p w t' = Ok t'' ∧ rep t'' (<[k := w]> M) ∧
       m_nBuckets t'' = m_nBuckets t ∧ m_nTotalSize t'' = m_nTotalSize t).
Proof.
  intros (B & cs & fl & HB & Hc) Hh Hr EM Hw.
  destruct (core_counts _ _ _ _ _ _ Hc) as [_ Hcn].
  unfold full. rewrite (r_used _ _ _ _ _ _ Hc), Hcn. unfold enter.
  destruct (Z.eqb_spec (Z.of_nat (length (concat cs ++ []))) (Z.of_nat (length (concat cs ++ [])) + Z.of_nat (length fl))) as [He|He].
  { assert (fl = []) as -> by (apply length_zero_iff_nil; lia).
    by rewrite (take_none _ _ _ _ _ Hc). }
  destruct (take_spec _ _ _ _ _ _ Hc) as (t1 & p & fl1 & E1 & Hc1 & Ev1 & EB1 & Hp & En1 & Et1 & _).
  { intros ->. cbn in He. lia. }
  rewrite E1. cbn. rewrite (proj2 (Z.eqb_neq _ _)) by done.
  destruct (core_out _ _ _ _ _ _ _ Hc1) as (_ & _ & _ & _ & _ & [old Eold]).
  rewrite (ld_ok _ _ _ Eold). cbn.
  destruct (core_set_out _ _ _ _ _ (write old) _ _ Hc1) as (t2 & E2 & Hc2 & Ev2 & EB2 & En2 & Et2 & _).
  rewrite E2. cbn.
  destruct (core_link_out _ _ _ _ _ NULL _ _ Hc2) as (t3 & E3 & Hc3 & _ & Ev3 & EB3 & En3 & Et3 & _).
  rewrite E3. cbn. rewrite (r_nb _ _ _ _ _ _ Hc) in Hr.
  destruct (lookup_lt_is_Some_2 cs (Z.to_nat h)) as [c Ec]; [lia|].
  assert (Ep : vals t3 !! p = Some (write old)) by (by rewrite Ev3, Ev2, lookup_insert_eq).
  destruct (link_first_spec t3 B cs fl1 p [] M h c (write old) Hc3)
    as (t4 & B4 & E4 & EB4 & Hc4 & Ev4 & En4 & Et4); rewrite ?Hw; [congruence|done|lia|done|done|congruence|].
  rewrite E4. cbn. exists t4, p, old. rewrite Hw in Hc4.
  split_and!; [done|done| |congruence|congruence|congruence|].
  { exists B4, (<[Z.to_nat h := p :: c]> cs), fl1. done. }
  intros w Hk. destruct (core_set_in _ _ _ _ p (write old) w _ Hc4) as (t5 & E5 & Hc5 & _ & EB5 & En5 & Et5 & _).
  { apply (elem_attach _ _ _ _ _ Ec). by left. }
  { congruence. }
  { congruence. }
  exists t5. rewrite Hw, insert_insert_eq in Hc5.
  split_and!; [done| |congruence|congruence]. exists B4, (<[Z.to_nat h := p :: c]> cs), fl1.
  split; [congruence|done].
Qed.

Lemma recycle_spec t M k h b pre p cnt v write :
  rep t M → hash (m_nBuckets t) k = Ok h → 0 ≤ h < m_nBuckets t → bucket t h = Ok b →
  walk key_of (chain_fuel t) t k NULL b 0 = Ok (pre, p, cnt) → M !! k = Some v →
  ∃ t', recycle h pre p write t = Ok t' ∧ rep t' (delete k M) ∧
    m_nBuckets t' = m_nBuckets t ∧ m_nTotalSize t' = m_nTotalSize t.
Proof.
  intros (B & cs & fl & HB & Hc) Hh Hr Eb Ew EM.
  destruct (find_spec _ _ _ _ _ _ _ Hc HB Hh Hr) as (b' & c & Eb' & Ec & Hcase).
  rewrite Eb in Eb'. injection Eb' as <-. rewrite EM, Ew in Hcase.
  destruct Hcase as [(c1 & x & c2 & v' & -> & Ev & Ek' & Hx & EM' & E)|[EM' E]]; [|done].
  injection EM' as <-. injection E as -> -> ->.
  destruct (unlink_spec _ _ _ _ _ h _ _ _ v Hc HB Ec) as (t1 & B1 & E1 & EB1 & Hc1 & Ev1 & En1 & Et1); [lia|done|].
  unfold recycle. rewrite E1. cbn. rewrite Ev1, (ld_ok _ _ _ Ev). cbn.
  destruct (core_set_out _ _ _ _ _ (write v) _ _ Hc1) as (t2 & E2 & Hc2 & Ev2 & EB2 & En2 & Et2 & _).
  rewrite E2. cbn.
  destruct (core_link_out _ _ _ _ _ NULL _ _ Hc2) as (t3 & E3 & Hc3 & _ & Ev3 & EB3 & En3 & Et3 & _).
  rewrite E3. cbn.
  destruct (give_spec _ _ _ _ _ _ _ Hc3) as (t4 & fl4 & E4 & Hc4 & Ev4 & EB4 & En4 & Et4).
  exists t4. split_and!; [done| |congruence|congruence].
  exists B1. eexists _, fl4. split; [congruence|by rewrite <-Ek'].
Qed.

(** Neither the number of nodes nor that of buckets has changed. *)
Definition same_shape t t' : Prop :=
  m_nBuckets t' = m_nBuckets t ∧ m_nTotalSize t' = m_nTotalSize t.

(** Everything an operation needs to know about a table at rest and a key:
    where the search ends, and what each continuation does to the map. *)
Lemma find_cases t M k h :
  rep t M → hash (m_nBuckets t) k = Ok h → 0 ≤ h < m_nBuckets t →
  match M !! k with
  | Some v => ∃ pre p cnt,
      find key_of hash k t = Ok (h, pre, p, cnt) ∧ (p =? NULL) = false ∧ ld (vals t) p = Ok v ∧
      key_of v = k ∧ 0 ≤ cnt ≤ m_nTotalSize t ∧
      (∀ w, key_of w = k → ∃ t', set_val p w t = Ok t' ∧ ld (vals t') p = Ok w ∧
         rep t' (<[k := w]> M) ∧ same_shape t t') ∧
      (∀ write, ∃ t', recycle h pre p write t = Ok t' ∧ rep t' (delete k M) ∧ same_shape t t')
  | None => ∃ pre cnt,
      find key_of hash k t = Ok (h, pre, NULL, cnt) ∧ 0 ≤ cnt ≤ m_nTotalSize t ∧
      (∀ write, (∀ v, key_of (write v) = k) →
         if Z.of_nat (size M) =? m_nTotalSize t then enter h write t = Ok (t, NULL)
         else ∃ t' p old, enter h write t = Ok (t', p) ∧ (p =? NULL) = false ∧
           rep t' (<[k := write old]> M) ∧ ld (vals t') p = Ok (write old) ∧ same_shape t t' ∧
           (∀ w, key_of w = k → ∃ t'', set_val p w t' = Ok t'' ∧ rep t'' (<[k := w]> M) ∧
              same_shape t t''))
  end.
Proof.
  intros Hr Hh Hb. unfold find. rewrite Hh.
  destruct (search_spec _ _ _ _ Hr Hh Hb) as (b & pre & p & cnt & Eb & Ew & Hc & Hm).
  cbn. rewrite Eb. cbn. rewrite Ew. cbn. destruct (M !! k) as [v|] eqn:EM.
  - destruct Hm as (Hp & Ev & Ek). exists pre, p, cnt.
    split_and!; [done|by apply Z.eqb_neq|by apply ld_ok|done|lia|lia| |].
    + intros w Hw. destruct (change_spec _ _ _ _ _ _ _ _ _ w Hr Hh Hb Eb Ew EM Hw)
        as (t' & E & Hr' & Ew' & Hs). exists t'. split_and!; [done|by apply ld_ok|done|apply Hs..].
    + intros write. destruct (recycle_spec _ _ _ _ _ _ _ _ _ write Hr Hh Hb Eb Ew EM)
        as (t' & E & Hr' & Hs). exists t'. done.
  - subst p. exists pre, cnt. split_and!; [done|lia|lia|]. intros write Hw.
    pose proof (enter_spec _ _ _ _ write Hr Hh Hb EM Hw) as He. unfold full in He.
    destruct (rep_size _ _ Hr) as [Hu _]. rewrite Hu in He.
    destruct (Z.of_nat (size M) =? m_nTotalSize t); [done|].
    destruct He as (t' & p & old & E & Hp & Hr' & Ev & En & Et & Hset). exists t', p, old.
    split_and!; [done|by apply Z.eqb_neq|done|by apply ld_ok|by split|exact Hset].
Qed.

(** ** Initialisation *)
Lemma new_field_lookup {A} (x : A) ps p :
  NoDup ps → new_field x ps !! p = Some x ↔ p ∈ ps.
Proof.
  intros Hnd. unfold new_field. rewrite <-elem_of_list_to_map.
  - rewrite list_elem_of_fmap. split; [intros (q & [= ->] & Hq); done|eauto].
  - rewrite <-list_fmap_compose. cbn. by rewrite list_fmap_id.
Qed.

(** A step that puts one node on the free list and touches nothing else of the
    table. *)
Definition puts (body : Z → Table F V → res (Table F V)) : Prop := ∀ p t fl,
  holds (links t) (freeList t) fl → p ∉ fl → NoDup fl → p ≠ NULL → owns (links t) p →
  Forall (owns (links t)) fl →
  ∃ t' fl', body p t = Ok t' ∧ fl' ≡ₚ p :: fl ∧ holds (links t') (freeList t') fl' ∧
    vals t' = vals t ∧ same_shape t t' ∧ m_pBucket t' = m_pBucket t ∧
    keeps (next (links t)) (next (links t')) ∧ keeps (prev (links t)) (prev (links t')).

Lemma give_puts : puts give.
Proof.
  intros p t fl Hh Hp Hnd Hz Ho Hfl. unfold give.
  destruct (push_node _ _ _ p Hh Hp Hnd Hz Ho Hfl) as (L & f & fl' & E & Hpm & Hh' & Hs & _).
  rewrite E. cbn. eexists _, fl'. split_and!; [done|done|exact Hh'|done..|apply Hs|apply Hs].
Qed.

Lemma puts_spec body ps : puts body → ∀ t fl0,
  NoDup (ps ++ fl0) → NULL ∉ ps → holds (links t) (freeList t) fl0 →
  (∀ p, p ∈ ps ++ fl0 → owns (links t) p) →
  ∃ t' fl, foldM body ps t = Ok t' ∧ holds (links t') (freeList t') fl ∧ fl ≡ₚ ps ++ fl0 ∧
    vals t' = vals t ∧ same_shape t t' ∧ m_pBucket t' = m_pBucket t ∧
    (∀ p, p ∈ ps ++ fl0 → owns (links t') p).
Proof.
  intros Hb. induction ps as [|p ps IH]; intros t fl0 Hnd Hz Hh Ho.
  - exists t, fl0. split_and!; done.
  - apply NoDup_cons in Hnd as [Hp Hnd]. rewrite not_elem_of_app in Hp.
    apply not_elem_of_cons in Hz as [Hp0 Hz].
    destruct (Hb p t fl0) as (t1 & fl1 & E1 & Hpm & Hh1 & Ev1 & [Sn St] & Eb1 & Kn & Kp);
      [done|tauto|by apply NoDup_app in Hnd as (_ & _ & ?)|done|apply Ho; left| |].
    { apply Forall_forall. intros q Hq. apply Ho. right. apply elem_of_app. by right. }
    cbn. rewrite E1. cbn.
    assert (Hpm' : ps ++ fl1 ≡ₚ p :: ps ++ fl0) by (rewrite Hpm; symmetry; apply Permutation_middle).
    destruct (IH t1 fl1) as (t2 & fl2 & E2 & Hh2 & Hp2 & Ev2 & [Sn2 St2] & Eb2 & Ho2).
    + rewrite Hpm'. apply NoDup_cons. rewrite not_elem_of_app. tauto.
    + done.
    + done.
    + intros q Hq. rewrite Hpm' in Hq. eapply owns_keeps; [done..|by apply Ho].
    + exists t2, fl2. split_and!; [done|done|by rewrite Hp2, Hpm'|congruence|
        split; congruence|congruence|].
      intros q Hq. apply Ho2. by rewrite Hpm'.
Qed.

(** All nodes on the free list, the use count reset and the buckets empty: the
    table stands for the empty map. *)
Lemma new_buckets_rep ps t nb size fl :
  NoDup ps → NULL ∉ ps → size = Z.of_nat (length ps) → 0 ≤ nb → size < 4294967296 →
  holds (links t) (freeList t) fl → fl ≡ₚ ps → (∀ p, p ∈ ps → owns (links t) p) →
  (∀ p, p ∈ ps → is_Some (vals t !! p)) → m_nBuckets t = nb → m_nTotalSize t = size →
  rep (new_buckets t) ∅.
Proof.
  intros Hnd Hz Hsz Hnb Hlt Hf Hpm Ho Hv En Et.
  exists (replicate (Z.to_nat nb) NULL), (replicate (Z.to_nat nb) []), fl. cbn in *.
  split; [by rewrite En|].
  assert (Hcc : ∀ n, concat (replicate n (@nil Z)) = []) by (intros n; induction n; cbn; done).
  split; cbn; rewrite ?Hcc, ?En, ?Et, ?app_nil_r; cbn.
  - apply Forall2_replicate. done.
  - rewrite length_replicate. lia.
  - by apply holds_set_used.
  - by rewrite Hpm.
  - intros p. rewrite Hpm. intros Hin. split_and!; [by intros ->|by apply Ho|by apply Hv].
  - by rewrite Hpm.
  - lia.
  - apply used_set_used.
  - intros i c p v [-> _]%lookup_replicate Hin. by apply not_elem_of_nil in Hin.
  - intros k v. rewrite lookup_empty. split; [done|]. intros (p & Hin & _). by apply not_elem_of_nil in Hin.
  - intros p q v w Hin. by apply not_elem_of_nil in Hin.
  - done.
Qed.

Lemma init_spec body ps blank L f pb size nb :
  puts body →
  NoDup ps → NULL ∉ ps → size = Z.of_nat (length ps) → size < 4294967296 → 0 ≤ nb →
  holds L f [] → (∀ p, p ∈ ps → owns L p) →
  let t := mkTable (new_field blank ps) L f pb size nb in
  ∃ t', foldM body ps t = Ok t' ∧ rep (new_buckets t') ∅ ∧ same_shape t t'.
Proof.
  intros Hb Hnd Hz Hsz Hlt Hnb Hh Ho t.
  destruct (puts_spec body ps Hb t []) as (t' & fl & E & Hf & Hpm & Ev & [Sn St] & Eb & Hos);
    rewrite ?app_nil_r; try done.
  rewrite app_nil_r in *. exists t'. split_and!; [done| |done..].
  eapply (new_buckets_rep ps t'); [done..|exact Hf|done|done| |done|done].
  intros p Hp. rewrite Ev. exists blank. by apply new_field_lookup.
Qed.

Lemma node_range_ok pTotal size :
  0 < pTotal → 0 ≤ size →
  NoDup (node_range pTotal size) ∧ NULL ∉ node_range pTotal size ∧
  size = Z.of_nat (length (node_range pTotal size)).
Proof.
  intros Hp Hs. unfold node_range. split_and!; [apply NoDup_seqZ| |rewrite length_seqZ; lia].
  rewrite elem_of_seqZ. unfold NULL. lia.
Qed.
End Rep.
