(* ===== verification/HashTableIter.v ===== *)
(** * Iterating over a hash table and destroying it

    [Begin]/[Next] of the template maps and their destructors: iteration visits
    every record once, and destruction of a table whose free list is a stack
    frees every node once. *)

From stdpp Require Import base list list_numbers numbers option sets gmap fin_maps.
From S2P Require Import Prelude HashTable HashTableInv HashTableRep.

Open Scope Z_scope.

Section Defs.
Context {F V : Type}.
Implicit Types (t : Table F V).

(** The loop of [Begin] and [Next] over the buckets from number [i]: the first
    node met ([NULL] at the end), the number of its bucket and the node after
    it; [nxt] is what [m_pNextNode] holds so far. *)
Fixpoint scan (fuel : nat) t (i nxt : Z) : res (Z * Z * Z) :=
  if m_nBuckets t <=? i then Ok (NULL, i, nxt) else
  match fuel with
  | O => Err OutOfFuel
  | S fuel =>
      b ← bucket t i;
      if b =? NULL then scan fuel t (u32 (i + 1)) nxt else
      n ← ld (next (links t)) b; Ok (b, i, n)
  end.

Definition scan_fuel t : nat := Z.to_nat (m_nBuckets t).

Definition iter_begin t (nxt : Z) : res (Z * Z * Z) := scan (scan_fuel t) t 0 nxt.

Definition iter_next t (cur nxt : Z) : res (Z * Z * Z) :=
  if negb (nxt =? NULL) then
    n ← ld (next (links t)) nxt; Ok (nxt, cur, n)
  else scan (scan_fuel t) t (u32 (cur + 1)) nxt.

(** A caller's loop [for( p = Begin(); p; p = Next() )]: the nodes it sees. *)
Fixpoint visit_from (fuel : nat) t (p cur nxt : Z) : res (list Z) :=
  if p =? NULL then Ok [] else
  match fuel with
  | O => Err OutOfFuel
  | S fuel =>
      '(q, cur, nxt) ← iter_next t cur nxt;
      ps ← visit_from fuel t q cur nxt;
      Ok (p :: ps)
  end.

Definition visit (nxt : Z) t : res (list Z) :=
  '(p, cur, nxt) ← iter_begin t nxt;
  visit_from (chain_fuel t) t p cur nxt.

(** [delete p]: the node is no longer memory of the program. *)
Definition delete_node (p : Z) t : res (Table F V) :=
  match vals t !! p with
  | None => Err OutOfBounds
  | Some _ =>
      Ok (mkTable (base.delete p (vals t))
            (mkLinks (base.delete p (next (links t))) (base.delete p (prev (links t))))
            (freeList t) (m_pBucket t) (m_nTotalSize t) (m_nBuckets t))
  end.

(** [while(NULL != p) { q = p; p = p->next; delete q; }], with the nodes
    deleted in order. *)
Fixpoint delete_chain (fuel : nat) (p : Z) t : res (list Z * Table F V) :=
  if p =? NULL then Ok ([], t) else
  match fuel with
  | O => Err OutOfFuel
  | S fuel =>
      n ← ld (next (links t)) p;
      t ← delete_node p t;
      '(ps, t) ← delete_chain fuel n t;
      Ok (p :: ps, t)
  end.

(** The destructors (one unit of fuel more than there are nodes left, so that a
    walk into deleted memory faults): the free list from its first node, then every bucket. *)
Definition destroy (free_head : Z) t : res (list Z * Table F V) :=
  '(ps, t) ← delete_chain (S (chain_fuel t)) free_head t;
  match m_pBucket t with
  | None => Ok (ps, t)
  | Some B =>
      for_ 0 (m_nBuckets t) (ps, t) (λ i '(ps, t),
        b ← rd B i;
        '(qs, t) ← delete_chain (S (chain_fuel t)) b t;
        Ok (ps ++ qs, t))
  end.
End Defs.

Section Iter.
Context {F V K : Type} `{Laws : FreeListLaws F} `{Countable K}
  (key_of : V → K) (hash : Z → K → res Z).
Implicit Types (t : Table F V) (B fl : list Z) (cs : list (list Z)) (M : gmap K V).
Abbreviation core := (core key_of hash).

Lemma drop_concat_step cs i c :
  cs !! i = Some c → concat (drop i cs) = c ++ concat (drop (S i) cs).
Proof. intros E. by rewrite (drop_S _ _ _ E). Qed.

(** The nodes still to come when the scan is at bucket [i]. *)
Lemma scan_spec t B cs fl M nxt fuel : ∀ i,
  core t B cs fl [] M → m_pBucket t = Some B → m_nBuckets t < 4294967296 →
  (length cs - i ≤ fuel)%nat → (i ≤ length cs)%nat →
  (concat (drop i cs) = [] ∧ ∃ j, scan fuel t (Z.of_nat i) nxt = Ok (NULL, j, nxt)) ∨
  (∃ j x c n, cs !! j = Some (x :: c) ∧ x ≠ NULL ∧ chain (next (links t)) n c ∧
     concat (drop i cs) = x :: c ++ concat (drop (S j) cs) ∧
     scan fuel t (Z.of_nat i) nxt = Ok (x, Z.of_nat j, n)).
Proof.
  induction fuel as [|fuel IH]; intros i Hc HB Hnb Hf Hi; cbn [scan];
    pose proof (r_nb _ _ _ _ _ _ _ _ Hc) as Hn.
  - destruct (Z.leb_spec (m_nBuckets t) (Z.of_nat i)); [|lia].
    left. rewrite drop_ge by lia. eauto.
  - destruct (Z.leb_spec (m_nBuckets t) (Z.of_nat i)); [left; rewrite drop_ge by lia; eauto|].
    destruct (lookup_lt_is_Some_2 cs i) as [c Ec]; [lia|].
    destruct (core_lookup_chain _ _ _ _ _ _ _ _ _ _ Hc Ec) as (b & Eb & Hb).
    unfold bucket. rewrite HB. unfold rd. rewrite (proj2 (Z.ltb_ge _ 0)), Nat2Z.id, Eb by lia. cbn.
    rewrite (drop_concat_step _ _ _ Ec). destruct c as [|x c].
    + cbn in Hb. subst b. cbn. rewrite u32_small by lia.
      replace (Z.of_nat i + 1) with (Z.of_nat (S i)) by lia. apply IH; try done; lia.
    + destruct Hb as (-> & Hx & n & En & Hcn). rewrite (proj2 (Z.eqb_neq _ _)) by done.
      rewrite (ld_ok _ _ _ En). cbn. right. exists i, x, c, n. done.
Qed.

Lemma visit_from_spec t B cs fl M fuel : ∀ p j c nxt,
  core t B cs fl [] M → m_pBucket t = Some B → m_nBuckets t < 4294967296 →
  p ≠ NULL → chain (next (links t)) nxt c → (j < length cs)%nat →
  (length (p :: c ++ concat (drop (S j) cs)) ≤ fuel)%nat →
  visit_from fuel t p (Z.of_nat j) nxt = Ok (p :: c ++ concat (drop (S j) cs)).
Proof.
  induction fuel as [|fuel IH]; intros p j c nxt Hc HB Hnb Hp Hch Hj Hf; [cbn in Hf; lia|].
  cbn [visit_from]. rewrite (proj2 (Z.eqb_neq _ _)) by done. unfold iter_next.
  pose proof (r_nb _ _ _ _ _ _ _ _ Hc) as Hn.
  destruct c as [|y c].
  - cbn in Hch. subst nxt. cbn [NULL Z.eqb negb app].
    rewrite u32_small by lia. replace (Z.of_nat j + 1) with (Z.of_nat (S j)) by lia.
    destruct (scan_spec t B cs fl M NULL (scan_fuel t) (S j)) as
      [(E & j' & Es)|(j' & x & c & n & Ej & Hx & Hcn & E & Es)]; try done; try (unfold scan_fuel; lia).
    + rewrite Es, E. cbn. by destruct fuel.
    + rewrite Es, E. cbn. rewrite (IH x j' c n); try done.
      * by eapply lookup_lt_Some.
      * cbn [app] in Hf. rewrite E in Hf. cbn [length] in Hf |- *. lia.
  - destruct Hch as (-> & Hy & q & Eq & Hch). rewrite (proj2 (Z.eqb_neq _ _)) by done. cbn [negb].
    rewrite (ld_ok _ _ _ Eq). cbn. rewrite (IH y j c q); try done. cbn [length app] in *. lia.
Qed.

(** Iteration over a table at rest sees the nodes of all chains in turn. *)
Lemma visit_spec t B cs fl M nxt :
  core t B cs fl [] M → m_pBucket t = Some B → m_nBuckets t < 4294967296 →
  visit nxt t = Ok (concat cs).
Proof.
  intros Hc HB Hnb. unfold visit, iter_begin. pose proof (r_nb _ _ _ _ _ _ _ _ Hc) as Hn.
  destruct (scan_spec t B cs fl M nxt (scan_fuel t) 0) as
    [(E & j' & Es)|(j' & x & c & n & Ej & Hx & Hcn & E & Es)]; try done; try (unfold scan_fuel; lia);
    change (Z.of_nat 0) with 0 in Es; rewrite Es; rewrite drop_0 in E; rewrite E; cbn.
  - by destruct (chain_fuel t).
  - apply (visit_from_spec t B cs fl M); try done.
    + by eapply lookup_lt_Some.
    + rewrite <-E. unfold chain_fuel. rewrite <-size_dom.
      pose proof (r_nodup _ _ _ _ _ _ _ _ Hc) as [Hnd _]%NoDup_app.
      rewrite <-(size_list_to_set (C := gset Z) (concat cs)) by done.
      apply subseteq_size. intros y Hy%elem_of_list_to_set.
      apply elem_of_dom, (r_nodes _ _ _ _ _ _ _ _ Hc), elem_of_app. by left.
Qed.

(** What iteration sees: every record of the map once and nothing else. *)
Lemma visit_records t M nxt :
  rep key_of hash t M → m_nBuckets t < 4294967296 →
  ∃ ps, visit nxt t = Ok ps ∧ NoDup ps ∧ length ps = size M ∧
    ∀ k v, M !! k = Some v ↔ ∃ p, p ∈ ps ∧ vals t !! p = Some v ∧ key_of v = k.
Proof.
  intros (B & cs & fl & HB & Hc) Hnb. exists (concat cs). split_and!.
  - by eapply visit_spec.
  - by pose proof (r_nodup _ _ _ _ _ _ _ _ Hc) as [? _]%NoDup_app.
  - by rewrite (r_size _ _ _ _ _ _ _ _ Hc).
  - apply (r_map _ _ _ _ _ _ _ _ Hc).
Qed.

(** ** Destruction *)

(** Deleting the nodes of a chain takes exactly those out of memory. *)
Lemma delete_chain_spec fuel : ∀ t p l,
  chain (next (links t)) p l → NoDup l → (∀ x, x ∈ l → is_Some (vals t !! x)) →
  (length l ≤ fuel)%nat →
  ∃ t', delete_chain fuel p t = Ok (l, t') ∧ m_pBucket t' = m_pBucket t ∧ same_shape t t' ∧
    (∀ x, x ∉ l → vals t' !! x = vals t !! x ∧ next (links t') !! x = next (links t) !! x).
Proof.
  induction fuel as [|fuel IH]; intros t p l Hch Hnd Hv Hf;
    (destruct l as [|x l]; [cbn in Hch; subst p; exists t; split_and!; done|]); [cbn in Hf; lia|].
  destruct Hch as (-> & Hx & q & Eq & Hch). cbn [delete_chain].
  rewrite (proj2 (Z.eqb_neq _ _)), (ld_ok _ _ _ Eq) by done. cbn. unfold delete_node at 1.
  destruct (Hv x ltac:(left)) as [v Ev]. rewrite Ev. cbn.
  apply NoDup_cons in Hnd as [Hxl Hnd].
  match goal with |- context [delete_chain fuel q ?t1] => destruct (IH t1 q l) as (t' & E & Eb & [Sn St] & Hout) end.
  - cbn. eapply chain_frame; [|exact Hch]. intros y Hy. apply lookup_delete_ne. by intros ->.
  - done.
  - cbn. intros y Hy. rewrite lookup_delete_ne by (by intros ->). apply Hv. by right.
  - cbn in Hf. lia.
  - rewrite E. cbn. exists t'. split_and!; [done..|]. intros y [Hyx Hy]%not_elem_of_cons.
    destruct (Hout y Hy) as [-> ->]. cbn. by rewrite !lookup_delete_ne by done.
Qed.

Lemma chain_fuel_ge t l : NoDup l → (∀ x, x ∈ l → is_Some (vals t !! x)) → (length l ≤ chain_fuel t)%nat.
Proof.
  intros Hnd Hv. unfold chain_fuel. rewrite <-size_dom, <-(size_list_to_set (C := gset Z) l) by done.
  apply subseteq_size. intros y Hy%elem_of_list_to_set. by apply elem_of_dom, Hv.
Qed.

Lemma concat_take_snoc cs i c :
  cs !! i = Some c → concat (firstn (S i) cs) = concat (firstn i cs) ++ c.
Proof. intros E. rewrite (take_S_r _ _ _ E), concat_app. cbn. by rewrite app_nil_r. Qed.
End Iter.

Arguments delete_chain : simpl never.

(** With a stack as free list the destructor frees every node once. *)
Lemma destroy_stack {V K} `{Countable K} (key_of : V → K) hash (t : Table Stack V) M :
  rep key_of hash t M →
  ∃ ps t', destroy (m_lstFree (freeList t)) t = Ok (ps, t') ∧ NoDup ps ∧
    Z.of_nat (length ps) = m_nTotalSize t.
Proof.
  intros (B & cs & fl & HB & Hc). pose proof (r_nodup _ _ _ _ _ _ _ _ Hc) as Hnd.
  rewrite app_nil_r in Hnd.
  assert (Hv : ∀ x, x ∈ concat cs ++ fl → is_Some (vals t !! x)).
  { intros x Hx. apply (r_nodes _ _ _ _ _ _ _ _ Hc). by rewrite app_nil_r. }
  apply NoDup_app in Hnd as (Hcs & Hdis & Hfl). unfold destroy.
  destruct (delete_chain_spec (S (chain_fuel t)) t (m_lstFree (freeList t)) fl)
    as (t1 & E1 & Eb1 & [Sn1 St1] & Hout1); [apply Hc|done| | |].
  { intros x Hx. apply Hv, elem_of_app. by right. }
  { apply Nat.le_le_succ_r, chain_fuel_ge; [done|]. intros x Hx. apply Hv, elem_of_app. by right. }
  rewrite E1. cbn. rewrite Eb1, HB. pose proof (r_nb _ _ _ _ _ _ _ _ Hc) as Hn.
  destruct (for_inv (λ i '(ps, s), ps = fl ++ concat (firstn (Z.to_nat i) cs) ∧
      ∀ x, x ∈ concat (drop (Z.to_nat i) cs) →
        vals s !! x = vals t !! x ∧ next (links s) !! x = next (links t) !! x)
    0 (m_nBuckets t1) (fl, t1) (λ i '(ps, t),
        b ← rd B i; '(qs, t) ← delete_chain (S (chain_fuel t)) b t; Ok (ps ++ qs, t)))
    as ([ps t2] & E2 & Hps & _); [lia| | |].
  - split; [by rewrite app_nil_r|]. intros x Hx. apply Hout1. cbn in Hx. by apply Hdis.
  - intros i [ps s] Hi [-> Hs]. destruct (lookup_lt_is_Some_2 cs (Z.to_nat i)) as [c Ec]; [lia|].
    destruct (core_lookup_chain _ _ _ _ _ _ _ _ _ _ Hc Ec) as (b & Eb & Hb).
    unfold rd. rewrite (proj2 (Z.ltb_ge _ 0)), Eb by lia. cbn.
    rewrite (drop_concat_step _ _ _ Ec) in Hs.
    assert (Hcl : ∀ x, x ∈ c → x ∈ concat cs) by (intros x Hx; apply elem_of_concat_lookup; eauto).
    assert (Hndc : NoDup (c ++ concat (drop (S (Z.to_nat i)) cs))).
    { rewrite <-(drop_concat_step _ _ _ Ec). rewrite <-(take_drop (Z.to_nat i) cs), concat_app in Hcs.
      by apply NoDup_app in Hcs as (_ & _ & ?). }
    apply NoDup_app in Hndc as (Hndc & Hdc & _).
    assert (Hvc : ∀ x, x ∈ c → is_Some (vals s !! x)).
    { intros x Hx. destruct (Hs x) as [-> _]; [apply elem_of_app; by left|].
      apply Hv, elem_of_app. left. by apply Hcl. }
    destruct (delete_chain_spec (S (chain_fuel s)) s b c) as (s' & E & _ & _ & Hout).
    + eapply chain_frame; [|exact Hb]. intros x Hx. apply Hs, elem_of_app. by left.
    + done.
    + done.
    + by apply Nat.le_le_succ_r, chain_fuel_ge.
    + rewrite E. cbn. exists (fl ++ concat (firstn (Z.to_nat i) cs) ++ c, s').
      rewrite <-app_assoc. split; [done|].
      replace (Z.to_nat (i + 1)) with (S (Z.to_nat i)) by lia. split.
      * by rewrite (concat_take_snoc _ _ _ Ec).
      * intros x Hx. destruct (Hout x) as [-> ->]; [intros Hin; by apply (Hdc x)|].
        apply Hs, elem_of_app. by right.
  - exists ps, t2. split_and!; [exact E2| |].
    + rewrite Hps, take_ge by lia. apply NoDup_app. split_and!; [done| |done].
      intros x Hx Hin. by apply (Hdis x).
    + rewrite Hps, take_ge by lia. rewrite (r_total _ _ _ _ _ _ _ _ Hc), !length_app. cbn. lia.
Qed.
