(* ===== verification/RunGameMap.v ===== *)
(** * The table of running games ([CRunGameHashMap])

    The game server keeps one [CRunGame] per robot, found by the robot's id,
    in [src/APGIServer/src/run_game_hashmap.cpp].  The locks are left out: the
    operations run one after the other.  [time(NULL)], the configured timeouts
    and the address and contents of newly allocated nodes are arguments; calls
    to the timer manager are recorded in the order they are made.  The table is
    proved to behave as a finite map of bounded size under every sequence of
    operations. *)

From stdpp Require Import base list list_numbers numbers option sets gmap fin_maps.
From S2P Require Import Prelude HashTable HashTableInv HashTableRep.

Open Scope Z_scope.

(** A game: the id and time stamp, and the fields the table only copies. *)
Record CRunGame (R : Type) := mkRunGame {
  m_nRobotID : Z;
  m_nLastTime : Z;
  m_others : R }.
Arguments mkRunGame {R} _ _ _.
Arguments m_nRobotID {R} _.
Arguments m_nLastTime {R} _.
Arguments m_others {R} _.

Record CRunGameHashMap (R : Type) := mkRunGameMap {
  tab : Table Stack (CRunGame R);
  calls : list TimerCall }.
Arguments mkRunGameMap {R} _ _.
Arguments tab {R} _.
Arguments calls {R} _.

Module RunGame.
Section RunGame.
Context {R : Type}.
Abbreviation Game := (CRunGame R).
Abbreviation HashMap := (CRunGameHashMap R).
Implicit Types (g : Game) (s : HashMap) (k h p now : Z).

(** [CAPGIConf]: [m_nDataTimeout] in seconds, [m_nRobotTimeout] in seconds. *)
Context (m_nDataTimeout m_nRobotTimeout : Z).

Definition SetRobotID (v : Z) g : Game := mkRunGame v (m_nLastTime g) (m_others g).
Definition SetLastTime (v : Z) g : Game := mkRunGame (m_nRobotID g) v (m_others g).

Arguments SetRobotID : simpl never.
Arguments SetLastTime : simpl never.

(** [nRobotID % m_nBuckets] is computed in 64-bit signed arithmetic and then
    converted to [uint32]. *)
Definition Hash (m_nBuckets nRobotID : Z) : res Z :=
  r ← c_rem nRobotID m_nBuckets; Ok (u32 r).

(** [bool Init]: every [return] of the body is converted to [bool]. *)
Definition to_bool (z : Z) : bool := negb (z =? 0).

Definition Init (pTotal : Z) (blank : Game) (size buckets : Z) s : res (bool * HashMap) :=
  if 500000 <? size then Ok (to_bool (-1), s) else
  if u32 (5 * buckets) <? size then Ok (to_bool (-2), s) else
  let ps := node_range pTotal size in
  let t := mkTable (new_field blank ps) (mkLinks (new_field NULL ps) ∅)
             (mkStack NULL (s_nUseSize (freeList (tab s)))) (m_pBucket (tab s)) size buckets in
  t ← fill ps t;
  Ok (to_bool 0, mkRunGameMap (new_buckets t) (calls s)).

Definition search k s : res (Z * Z * Z * Z) := find m_nRobotID Hash k (tab s).

Definition Get (nRobotID : Z) (bUpdateTime : bool) now s : res (Z * HashMap) :=
  '(_, _, p, _) ← search nRobotID s;
  if p =? NULL then Ok (NULL, s) else
  if bUpdateTime then
    g ← ld (vals (tab s)) p;
    t ← set_val p (SetLastTime now g) (tab s);
    Ok (p, mkRunGameMap t (calls s))
  else Ok (p, s).

Definition Add (oGame : Game) now s : res (Z * HashMap) :=
  if m_nRobotID oGame =? 0 then Ok (-9001, s) else
  '(h, _, en, cnt) ← search (m_nRobotID oGame) s;
  if negb (en =? NULL) then Ok (-9004, s) else
  nHCnt ← i32 cnt;
  if negb (20 <? nHCnt) && (100 <? nHCnt) then Ok (-9005, s) else
  '(t, p) ← enter h (λ _, SetLastTime now oGame) (tab s);
  if p =? NULL then Ok (-9006, s) else
  Ok (0, mkRunGameMap t (calls s ++ [Attach (m_nRobotID oGame) (u32 (m_nRobotTimeout * 1000))])).

Definition Del (nRobotID : Z) s : res (Z * HashMap) :=
  '(h, pre, del, _) ← search nRobotID s;
  '(nRet, t) ←
    (if del =? NULL then Ok (-99, tab s) else
     t ← recycle h pre del (SetRobotID 0) (tab s); Ok (0, t));
  Ok (nRet, mkRunGameMap t (calls s ++ [Detach nRobotID])).

Definition IsTimeOut (nRobotID : Z) now s : res bool :=
  '(_, _, p, _) ← search nRobotID s;
  if p =? NULL then Ok true else
  g ← ld (vals (tab s)) p;
  d ← i64 (now - m_nLastTime g);
  Ok (m_nDataTimeout <? d).

Definition Clear s : res HashMap :=
  t ← clear (tab s); Ok (mkRunGameMap t (calls s)).

Definition GetSize s : Z := Size (tab s).
Definition GetFree s : Z := Free (tab s).

(** ** The finite map the table implements *)
Inductive Op :=
  | OGet (k : Z) (upd : bool) (now : Z)
  | OAdd (g : Game) (now : Z)
  | ODel (k : Z)
  | OIsTimeOut (k now : Z)
  | OClear
  | OSize
  | OFree
  (** the caller assigns [g] through the pointer [Get] gave it *)
  | OPut (k : Z) (g : Game).

Inductive Out :=
  | OutGame (g : option Game)
  | OutInt (z : Z)
  | OutBool (b : bool)
  | OutNone.

Definition exec (o : Op) s : res (Out * HashMap) :=
  match o with
  | OGet k upd now =>
      '(p, s) ← Get k upd now s;
      if p =? NULL then Ok (OutGame None, s) else
      g ← ld (vals (tab s)) p; Ok (OutGame (Some g), s)
  | OAdd g now => '(r, s) ← Add g now s; Ok (OutInt r, s)
  | ODel k => '(r, s) ← Del k s; Ok (OutInt r, s)
  | OIsTimeOut k now => b ← IsTimeOut k now s; Ok (OutBool b, s)
  | OClear => s ← Clear s; Ok (OutNone, s)
  | OSize => Ok (OutInt (GetSize s), s)
  | OFree => Ok (OutInt (GetFree s), s)
  | OPut k g =>
      '(p, s) ← Get k false 0 s;
      if p =? NULL then Ok (OutNone, s) else
      t ← set_val p g (tab s); Ok (OutNone, mkRunGameMap t (calls s))
  end.

Definition spec (cap : Z) (o : Op) (M : gmap Z Game) : Out * gmap Z Game :=
  match o with
  | OGet k upd now =>
      match M !! k with
      | None => (OutGame None, M)
      | Some g =>
          let g := if upd then SetLastTime now g else g in
          (OutGame (Some g), <[k := g]> M)
      end
  | OAdd g now =>
      let k := m_nRobotID g in
      if k =? 0 then (OutInt (-9001), M) else
      match M !! k with
      | Some _ => (OutInt (-9004), M)
      | None =>
          if Z.of_nat (size M) =? cap then (OutInt (-9006), M)
          else (OutInt 0, <[k := SetLastTime now g]> M)
      end
  | ODel k =>
      match M !! k with
      | Some _ => (OutInt 0, delete k M)
      | None => (OutInt (-99), M)
      end
  | OIsTimeOut k now =>
      match M !! k with
      | Some g => (OutBool (m_nDataTimeout <? now - m_nLastTime g), M)
      | None => (OutBool true, M)
      end
  | OClear => (OutNone, ∅)
  | OSize => (OutInt (Z.of_nat (size M)), M)
  | OFree => (OutInt (cap - Z.of_nat (size M)), M)
  | OPut k g => (OutNone, if decide (is_Some (M !! k)) then <[k := g]> M else M)
  end.

(** Robot ids are not negative, time stamps are non-negative 64-bit values, and
    a caller does not change the id of a game it holds. *)
Definition time_ok (z : Z) : Prop := 0 ≤ z ≤ 9223372036854775807.

Definition allowed (o : Op) : Prop :=
  match o with
  | OGet k _ now | OIsTimeOut k now => 0 ≤ k ∧ time_ok now
  | OAdd g now => 0 ≤ m_nRobotID g ∧ time_ok now
  | ODel k => 0 ≤ k
  | OPut k g => 0 ≤ k ∧ m_nRobotID g = k ∧ time_ok (m_nLastTime g)
  | OClear | OSize | OFree => True
  end.

Definition exec_all := run exec.

Definition spec_all (cap : Z) := run_spec (spec cap).

(** What holds between operations. *)
Record sound (cap : Z) s (M : gmap Z Game) : Prop := {
  s_rep : rep m_nRobotID Hash (tab s) M;
  s_cap : m_nTotalSize (tab s) = cap;
  s_nb : 0 < m_nBuckets (tab s) < 4294967296;
  s_small : cap ≤ 500000;
  s_times : map_Forall (λ _ g, time_ok (m_nLastTime g)) M;
  s_timers : dom M ⊆ armed (calls s) }.

Lemma games_Hash_range nb k : 0 < nb < 4294967296 → 0 ≤ k → ∃ h, Hash nb k = Ok h ∧ 0 ≤ h < nb.
Proof.
  intros Hnb Hk. unfold Hash, c_rem. rewrite (proj2 (Z.eqb_neq nb 0)) by lia. cbn.
  pose proof (Z.rem_bound_pos k nb). eexists. split; [done|]. rewrite u32_small; lia.
Qed.

Lemma armed_attach cs id ms : armed (cs ++ [Attach id ms]) = {[id]} ∪ armed cs.
Proof. unfold armed. by rewrite foldl_app. Qed.
Lemma armed_detach cs id : armed (cs ++ [Detach id]) = armed cs ∖ {[id]}.
Proof. unfold armed. by rewrite foldl_app. Qed.

(** The map, the limits and the timers after a step that keeps the shape. *)
Lemma games_sound_step cap s M t M' cs :
  sound cap s M → rep m_nRobotID Hash t M' → same_shape (tab s) t →
  map_Forall (λ _ g, time_ok (m_nLastTime g)) M' → dom M' ⊆ armed cs →
  sound cap (mkRunGameMap t cs) M'.
Proof. intros [] Hr [Hn Ht] Htm Hd. by split; cbn; rewrite ?Hn, ?Ht. Qed.

Lemma games_find_sound cap s M k :
  sound cap s M → 0 ≤ k →
  match M !! k with
  | Some g => ∃ h pre p cnt,
      search k s = Ok (h, pre, p, cnt) ∧ (p =? NULL) = false ∧ ld (vals (tab s)) p = Ok g ∧
      m_nRobotID g = k ∧ 0 ≤ cnt ≤ cap ∧
      (∀ w, m_nRobotID w = k → time_ok (m_nLastTime w) →
         ∃ t', set_val p w (tab s) = Ok t' ∧ ld (vals t') p = Ok w ∧
         sound cap (mkRunGameMap t' (calls s)) (<[k := w]> M)) ∧
      (∃ t', recycle h pre p (SetRobotID 0) (tab s) = Ok t' ∧
         sound cap (mkRunGameMap t' (calls s ++ [Detach k])) (delete k M))
  | None => ∃ h pre cnt,
      search k s = Ok (h, pre, NULL, cnt) ∧ 0 ≤ cnt ≤ cap ∧
      (∀ w ms, m_nRobotID w = k → time_ok (m_nLastTime w) →
         if Z.of_nat (size M) =? cap then enter h (λ _, w) (tab s) = Ok (tab s, NULL)
         else ∃ t' p, enter h (λ _, w) (tab s) = Ok (t', p) ∧ (p =? NULL) = false ∧
           sound cap (mkRunGameMap t' (calls s ++ [Attach k ms])) (<[k := w]> M))
  end.
Proof.
  intros Hs Hk. destruct (games_Hash_range _ _ (s_nb _ _ _ Hs) Hk) as (h & Eh & Hh).
  pose proof (find_cases _ _ _ _ _ _ (s_rep _ _ _ Hs) Eh Hh) as Hf.
  rewrite (s_cap _ _ _ Hs) in Hf. pose proof (s_times _ _ _ Hs). pose proof (s_timers _ _ _ Hs).
  destruct (M !! k) as [g|] eqn:EM.
  - destruct Hf as (pre & p & cnt & Es & Hp & Ev & Ek & Hc & Hset & Hrec).
    exists h, pre, p, cnt. split_and!; [done..|lia|lia| |].
    + intros w Hw Ht. destruct (Hset w Hw) as (t' & E & El & Hr & Hsh). exists t'.
      split_and!; [done..|]. eapply games_sound_step; [done..|by apply map_Forall_insert_2|].
      by rewrite dom_insert_lookup_L by eauto.
    + destruct (Hrec (SetRobotID 0)) as (t' & E & Hr & Hsh). exists t'. split; [done|].
      eapply games_sound_step; [done..|by apply map_Forall_delete|]. rewrite dom_delete_L, armed_detach. set_solver.
  - destruct Hf as (pre & cnt & Es & Hc & Hent). exists h, pre, cnt. split_and!; [done|lia|lia|].
    intros w ms Hw Ht. specialize (Hent (λ _, w) (λ _, Hw)).
    destruct (Z.of_nat (size M) =? cap); [done|].
    destruct Hent as (t' & p & old & E & Hp & Hr & _ & Hsh & _). exists t', p. split_and!; [done..|].
    eapply games_sound_step; [done..|by apply map_Forall_insert_2|]. rewrite dom_insert_L, armed_attach. set_solver.
Qed.

(** One step of the table is one step of the finite map. *)
Lemma games_step_sound cap s M o :
  sound cap s M → allowed o →
  ∃ s', exec o s = Ok ((spec cap o M).1, s') ∧ sound cap s' (spec cap o M).2.
Proof.
  intros Hs Ho. pose proof (λ k, games_find_sound cap s M k Hs) as Hf.
  destruct o as [k upd now|g now|k|k now| | | |k g]; cbn [exec spec allowed] in *.
  - destruct Ho as [Hk Hn]. specialize (Hf k Hk). unfold Get. destruct (M !! k) as [g|] eqn:EM.
    + destruct Hf as (h & pre & p & cnt & -> & Hp & Ev & Ek & Hc & Hset & _). cbn. rewrite Hp.
      destruct upd; cbn.
      * rewrite Ev. cbn. destruct (Hset (SetLastTime now g)) as (t' & -> & Ev' & Hs'); [done..|].
        cbn. rewrite Hp, Ev'. eauto.
      * rewrite Hp, Ev. rewrite insert_id by done. eauto.
    + destruct Hf as (h & pre & cnt & -> & _). cbn. eauto.
  - destruct Ho as [Hk Hn]. specialize (Hf _ Hk). unfold Add.
    destruct (m_nRobotID g =? 0); [cbn; eauto|]. destruct (M !! m_nRobotID g) as [g'|] eqn:EM.
    + destruct Hf as (h & pre & p & cnt & -> & Hp & _). cbn. rewrite Hp. cbn. eauto.
    + destruct Hf as (h & pre & cnt & -> & Hc & Hent). cbn. pose proof (s_small _ _ _ Hs).
      rewrite i32_ok by (unfold INT32_MIN, INT32_MAX; lia). cbn.
      assert (negb (20 <? cnt) && (100 <? cnt) = false) as ->
        by (destruct (Z.ltb_spec 20 cnt), (Z.ltb_spec 100 cnt); try done; lia).
      specialize (Hent (SetLastTime now g) (u32 (m_nRobotTimeout * 1000)) eq_refl Hn).
      destruct (Z.of_nat (size M) =? cap); [rewrite Hent; cbn; eauto|].
      destruct Hent as (t' & p & -> & Hp & Hs'). cbn. rewrite Hp. cbn. eauto.
  - specialize (Hf k Ho). unfold Del. destruct (M !! k) as [g|] eqn:EM.
    + destruct Hf as (h & pre & p & cnt & -> & Hp & _ & _ & _ & _ & t' & E & Hs').
      cbn. rewrite Hp, E. cbn. eauto.
    + destruct Hf as (h & pre & cnt & -> & _). cbn. eexists. split; [done|].
      apply (games_sound_step cap s M); [done|apply Hs|done|apply Hs|].
      rewrite armed_detach. pose proof (s_timers _ _ _ Hs). apply not_elem_of_dom in EM. set_solver.
  - destruct Ho as [Hk Hn]. specialize (Hf k Hk). unfold IsTimeOut. destruct (M !! k) as [g|] eqn:EM.
    + destruct Hf as (h & pre & p & cnt & -> & Hp & Ev & _). cbn. rewrite Hp, Ev. cbn.
      pose proof (s_times _ _ _ Hs _ _ EM) as Hg. unfold time_ok in *. cbn in Hg.
      rewrite i64_ok by lia. cbn. eauto.
    + destruct Hf as (h & pre & cnt & -> & _). cbn. eauto.
  - destruct (clear_spec _ _ _ _ (s_rep _ _ _ Hs)) as (t & E & Hr' & Hsh).
    unfold Clear. rewrite E. cbn. eexists. split; [done|]. by eapply games_sound_step.
  - exists s. unfold GetSize, Size. destruct (rep_size _ _ _ _ (s_rep _ _ _ Hs)) as [-> _]. done.
  - exists s. unfold GetFree, Free. destruct (rep_size _ _ _ _ (s_rep _ _ _ Hs)) as [-> Hb].
    rewrite (s_cap _ _ _ Hs) in *. pose proof (s_small _ _ _ Hs). rewrite u32_small by lia. done.
  - destruct Ho as (Hk & Ek & Ht). specialize (Hf k Hk). unfold Get. destruct (M !! k) as [g'|] eqn:EM.
    + destruct Hf as (h & pre & p & cnt & -> & Hp & Ev & _ & Hc & Hset & _). cbn. rewrite Hp. cbn. rewrite Hp.
      rewrite decide_True by eauto. destruct (Hset g Ek Ht) as (t' & -> & _ & Hs'). cbn. eauto.
    + destruct Hf as (h & pre & cnt & -> & _). cbn. rewrite decide_False by (by intros [? ?]). eauto.
Qed.

Lemma games_Init_sound pTotal blank sz nb s :
  0 < pTotal → 0 ≤ sz ≤ 500000 → 0 < nb < 4294967296 → sz ≤ u32 (5 * nb) →
  ∃ s', Init pTotal blank sz nb s = Ok (false, s') ∧ sound sz s' ∅.
Proof.
  intros Hp Hsz Hnb Hle. unfold Init.
  rewrite (proj2 (Z.ltb_ge 500000 sz)), (proj2 (Z.ltb_ge _ sz)) by lia.
  destruct (node_range_ok pTotal sz) as (Hnd & H0 & Hlen); [lia..|].
  destruct (init_spec m_nRobotID Hash give (node_range pTotal sz) blank
    (mkLinks (new_field NULL (node_range pTotal sz)) ∅) (mkStack NULL (s_nUseSize (freeList (tab s))))
    (m_pBucket (tab s)) sz nb) as (t & E & Hr & En & Et); [apply give_puts|done..|lia|lia|done| |].
  { intros p Hp'. exists NULL. by apply new_field_lookup. }
  unfold fill. rewrite E. cbn in *. eexists. split; [done|].
  split; cbn; rewrite ?En, ?Et; try done; lia.
Qed.

(** C21: a successful [Init] followed by any sequence of operations with
    non-negative robot ids and non-negative 64-bit times returns, without a bad access, an overflow or an
    endless walk, and every result is that of a finite map from ids to games
    that holds at most [sz] games: [Get], [Add], [Del], [IsTimeOut], [Clear],
    [Size], [Free] and a caller's write through the pointer [Get] returned.
    Every game in the map then has a timer set and not removed since. *)
Theorem games_refine_map pTotal blank sz nb s os :
  0 < pTotal → 0 ≤ sz ≤ 500000 → 0 < nb < 4294967296 → sz ≤ u32 (5 * nb) →
  Forall allowed os →
  ∃ s1 s2, Init pTotal blank sz nb s = Ok (false, s1) ∧
    exec_all os s1 = Ok ((spec_all sz os ∅).1, s2) ∧ dom (spec_all sz os ∅).2 ⊆ armed (calls s2).
Proof.
  intros Hp Hsz Hnb Hle Hos. destruct (games_Init_sound pTotal blank sz nb s) as (s1 & E1 & Hs1); [done..|].
  destruct (run_refines _ _ _ _ (games_step_sound sz) os s1 ∅ Hs1 Hos) as (s2 & E2 & Hs2). exists s1, s2. split_and!; [done..|apply Hs2].
Qed.

End RunGame.

(** ** Concrete runs *)
Definition empty_map : CRunGameHashMap unit :=
  mkRunGameMap (mkTable ∅ (mkLinks ∅ ∅) (mkStack NULL 0) None 0 0) [].

Definition game (id : Z) : CRunGame unit := mkRunGame id 0 ().

(** Two buckets, two nodes: games 1 and 3 share a bucket, game 2 finds no node
    until game 1 is deleted. *)
Definition demo : list Op :=
  [OAdd (game 1) 10; OAdd (game 3) 11; OAdd (game 2) 12; OAdd (game 3) 13; ODel 1; OAdd (game 2) 14;
   OGet 3 true 20; OIsTimeOut 3 25; OIsTimeOut 2 60; OSize; OFree].

Lemma demo_allowed : Forall allowed demo.
Proof. repeat (constructor; [cbn; unfold time_ok; repeat split; try lia; done|]). constructor. Qed.

Lemma games_refine_map_witness :
  ∃ s1 s2, Init 1000 (game 0) 2 2 empty_map = Ok (false, s1) ∧
    exec_all 30 5 demo s1 = Ok ([OutInt 0; OutInt 0; OutInt (-9006); OutInt (-9004); OutInt 0; OutInt 0;
      OutGame (Some (mkRunGame 3 20 ())); OutBool false; OutBool true; OutInt 2; OutInt 0], s2) ∧
    2 ∈ armed (calls s2).
Proof.
  destruct (games_refine_map 30 5 1000 (game 0) 2 2 empty_map demo) as (s1 & s2 & E1 & E2 & Ht);
    [lia|lia|lia|vm_compute; discriminate|exact demo_allowed|].
  exists s1, s2. split; [exact E1|]. split; [rewrite E2; f_equal|].
  apply Ht, elem_of_dom. exists (mkRunGame 2 14 ()). vm_compute. reflexivity.
Defined.

(** [Init] returns [bool]: the error codes convert to [true] and success, 0,
    to [false]. *)
Fact Init_result_inverted :
  (∃ s, Init 1000 (game 0) 2 2 empty_map = Ok (false, s)) ∧
  Init 1000 (game 0) 500001 500001 empty_map = Ok (true, empty_map) ∧
  Init 1000 (game 0) 11 2 empty_map = Ok (true, empty_map).
Proof. split; [eexists|split]; vm_compute; reflexivity. Qed.

(** A negative robot id gives a negative remainder, which as a [uint32] is far
    beyond the bucket array: the lookup reads out of bounds. *)
Fact negative_id_out_of_bounds :
  ∃ s, Init 1000 (game 0) 2 3 empty_map = Ok (false, s) ∧
    Get (-1) true 10 s = Err OutOfBounds.
Proof.
  eexists. split; [vm_compute; reflexivity|]. unfold Get, search, find. cbn [tab m_nBuckets].
  change (Hash 3 (-1)) with (Ok 4294967295). cbn [mbind res_bind]. unfold bucket. cbn [m_pBucket].
  rewrite rd_oob by (cbn [length]; lia). reflexivity.
Qed.

(** A bucket with 101 games accepts one more: the limit of 100 is tested only
    when there are at most 20. *)
Fact bucket_limit_unreachable :
  ('(_, s) ← Init 1000 (game 0) 110 100 empty_map;
   '(outs, _) ← exec_all 30 5 ((λ i, OAdd (game (100 * i)) 1) <$> seqZ 1 102) s;
   Ok outs) = Ok (replicate 102 (OutInt 0)).
Proof. vm_compute. reflexivity. Qed.
End RunGame.
