(* ===== verification/ClientMap.v ===== *)
(** * The table of connections ([CAPGIClientHashMap])

    [src/APGIServer/src/client_hashmap.cpp]: one [APGIClient] per connection,
    found by the connection id, which packs the connection's unique id and its
    socket into 64 bits.  Modelled as [RunGameMap] is: locks left out, time,
    configuration and new memory as arguments, timer calls recorded.  The id is
    shown to identify the connection, and the table to be a bounded finite map
    from ids to connections. *)

From stdpp Require Import base list list_numbers numbers option sets gmap fin_maps.
From S2P Require Import Prelude HashTable HashTableInv HashTableRep.

Open Scope Z_scope.

(** [v << 32] on 64 bits, plus the socket converted to 64 bits: a negative
    socket is sign-extended. *)
Definition GToConnID (nUniqueID nSockFd : Z) : Z :=
  u64 (u64 (Z.shiftl nUniqueID 32) + u64 nSockFd).

Record APGIClient := mkClient {
  m_nSockFd : Z;
  m_nUniqueID : Z;
  m_szDesc : list Z;
  c_nLastTime : Z }.

Definition GetConnID (c : APGIClient) : Z := GToConnID (m_nUniqueID c) (m_nSockFd c).

Definition SetConnID (nUniqueID nSockFd : Z) (c : APGIClient) : APGIClient :=
  mkClient nSockFd nUniqueID (m_szDesc c) (c_nLastTime c).

(** The stamp is a [uint32]; [time(NULL)] is truncated to it. *)
Definition SetLastTime (v : Z) (c : APGIClient) : APGIClient :=
  mkClient (m_nSockFd c) (m_nUniqueID c) (m_szDesc c) (u32 v).

Arguments SetConnID : simpl never.
Arguments SetLastTime : simpl never.

Record CAPGIClientHashMap := mkClientMap {
  tab : Table Stack APGIClient;
  calls : list TimerCall }.

Module Client.
Section Client.
Implicit Types (c : APGIClient) (s : CAPGIClientHashMap) (k h p now : Z).
Context (m_nTCPTimeOut : Z).

Definition Hash (m_nBuckets nConnID : Z) : res Z :=
  if m_nBuckets =? 0 then Err DivisionByZero else Ok (u32 (nConnID mod m_nBuckets)).

Definition to_bool (z : Z) : bool := negb (z =? 0).

Definition Init (pTotal : Z) (blank : APGIClient) (size buckets : Z) s
  : res (bool * CAPGIClientHashMap) :=
  if 500000 <? size then Ok (to_bool (-1), s) else
  if u32 (5 * buckets) <? size then Ok (to_bool (-2), s) else
  let ps := node_range pTotal size in
  let t := mkTable (new_field blank ps) (mkLinks (new_field NULL ps) ∅)
             (mkStack NULL (s_nUseSize (freeList (tab s)))) (m_pBucket (tab s)) size buckets in
  t ← fill ps t;
  Ok (to_bool 0, mkClientMap (new_buckets t) (calls s)).

Definition search k s : res (Z * Z * Z * Z) := find GetConnID Hash k (tab s).

Definition Get (nConnID now : Z) s : res (Z * CAPGIClientHashMap) :=
  '(_, _, p, _) ← search nConnID s;
  if p =? NULL then Ok (NULL, s) else
  c ← ld (vals (tab s)) p;
  t ← set_val p (SetLastTime now c) (tab s);
  Ok (p, mkClientMap t (calls s)).

(** The overload that copies the record out; [oClient] is what the caller's
    variable held. *)
Definition GetCopy (nConnID : Z) (oClient : APGIClient) now s
  : res (Z * APGIClient * CAPGIClientHashMap) :=
  '(_, _, p, _) ← search nConnID s;
  if p =? NULL then Ok (-99, oClient, s) else
  c ← ld (vals (tab s)) p;
  t ← set_val p (SetLastTime now c) (tab s);
  c ← ld (vals t) p;
  Ok (0, c, mkClientMap t (calls s)).

Definition Add (oClient : APGIClient) now s : res (Z * CAPGIClientHashMap) :=
  if GetConnID oClient =? 0 then Ok (-9001, s) else
  if negb (GetConnID oClient =? GToConnID (m_nUniqueID oClient) (m_nSockFd oClient))
  then Ok (-9002, s) else
  '(h, _, en, cnt) ← search (GetConnID oClient) s;
  if negb (en =? NULL) then Ok (-9004, s) else
  nHCnt ← i32 cnt;
  if negb (20 <? nHCnt) && (100 <? nHCnt) then Ok (-9005, s) else
  '(t, p) ← enter h (λ _, SetLastTime now oClient) (tab s);
  if p =? NULL then Ok (-9006, s) else
  Ok (0, mkClientMap t (calls s ++ [Attach (GetConnID oClient) (u32 (m_nTCPTimeOut * 1000))])).

Definition Del (nConnID : Z) s : res (Z * CAPGIClientHashMap) :=
  '(h, pre, del, _) ← search nConnID s;
  '(nRet, t) ←
    (if del =? NULL then Ok (-99, tab s) else
     t ← recycle h pre del (SetConnID 0 0) (tab s); Ok (0, t));
  Ok (nRet, mkClientMap t (calls s ++ [Detach nConnID])).

Definition IsTimeOut (nConnID now : Z) s : res bool :=
  '(_, _, p, _) ← search nConnID s;
  if p =? NULL then Ok true else
  c ← ld (vals (tab s)) p;
  d ← i64 (now - c_nLastTime c);
  Ok (m_nTCPTimeOut <? d).

Definition Clear s : res CAPGIClientHashMap :=
  t ← clear (tab s); Ok (mkClientMap t (calls s)).

Definition GetSize s : Z := Size (tab s).
Definition GetFree s : Z := Free (tab s).

(** ** The finite map the table implements *)
Inductive Op :=
  | OGet (k now : Z)
  | OGetCopy (k : Z) (c : APGIClient) (now : Z)
  | OAdd (c : APGIClient) (now : Z)
  | ODel (k : Z)
  | OIsTimeOut (k now : Z)
  | OClear
  | OSize
  | OFree.

Inductive Out :=
  | OutClient (c : option APGIClient)
  | OutCopy (r : Z) (c : APGIClient)
  | OutInt (z : Z)
  | OutBool (b : bool)
  | OutNone.

Definition exec (o : Op) s : res (Out * CAPGIClientHashMap) :=
  match o with
  | OGet k now =>
      '(p, s) ← Get k now s;
      if p =? NULL then Ok (OutClient None, s) else
      c ← ld (vals (tab s)) p; Ok (OutClient (Some c), s)
  | OGetCopy k c now => '(r, c, s) ← GetCopy k c now s; Ok (OutCopy r c, s)
  | OAdd c now => '(r, s) ← Add c now s; Ok (OutInt r, s)
  | ODel k => '(r, s) ← Del k s; Ok (OutInt r, s)
  | OIsTimeOut k now => b ← IsTimeOut k now s; Ok (OutBool b, s)
  | OClear => s ← Clear s; Ok (OutNone, s)
  | OSize => Ok (OutInt (GetSize s), s)
  | OFree => Ok (OutInt (GetFree s), s)
  end.

Definition spec (cap : Z) (o : Op) (M : gmap Z APGIClient) : Out * gmap Z APGIClient :=
  match o with
  | OGet k now =>
      match M !! k with
      | None => (OutClient None, M)
      | Some c => (OutClient (Some (SetLastTime now c)), <[k := SetLastTime now c]> M)
      end
  | OGetCopy k c0 now =>
      match M !! k with
      | None => (OutCopy (-99) c0, M)
      | Some c => (OutCopy 0 (SetLastTime now c), <[k := SetLastTime now c]> M)
      end
  | OAdd c now =>
      let k := GetConnID c in
      if k =? 0 then (OutInt (-9001), M) else
      match M !! k with
      | Some _ => (OutInt (-9004), M)
      | None =>
          if Z.of_nat (size M) =? cap then (OutInt (-9006), M)
          else (OutInt 0, <[k := SetLastTime now c]> M)
      end
  | ODel k =>
      match M !! k with
      | Some _ => (OutInt 0, delete k M)
      | None => (OutInt (-99), M)
      end
  | OIsTimeOut k now =>
      match M !! k with
      | Some c => (OutBool (m_nTCPTimeOut <? now - c_nLastTime c), M)
      | None => (OutBool true, M)
      end
  | OClear => (OutNone, ∅)
  | OSize => (OutInt (Z.of_nat (size M)), M)
  | OFree => (OutInt (cap - Z.of_nat (size M)), M)
  end.

(** [time(NULL)] is a non-negative 64-bit value. *)
Definition allowed (o : Op) : Prop :=
  match o with OIsTimeOut _ now => 0 ≤ now ≤ 9223372036854775807 | _ => True end.

Definition exec_all := run exec.

Definition spec_all (cap : Z) := run_spec (spec cap).

Record sound (cap : Z) s (M : gmap Z APGIClient) : Prop := {
  s_rep : rep GetConnID Hash (tab s) M;
  s_cap : m_nTotalSize (tab s) = cap;
  s_nb : 0 < m_nBuckets (tab s) < 4294967296;
  s_small : cap ≤ 500000;
  s_times : map_Forall (λ _ c, 0 ≤ c_nLastTime c < 4294967296) M }.

Lemma clients_Hash_range nb k : 0 < nb < 4294967296 → ∃ h, Hash nb k = Ok h ∧ 0 ≤ h < nb.
Proof.
  intros Hnb. unfold Hash. rewrite (proj2 (Z.eqb_neq nb 0)) by lia.
  pose proof (Z.mod_pos_bound k nb). eexists. split; [done|]. rewrite u32_small; lia.
Qed.

Lemma clients_sound_step cap s M t M' cs :
  sound cap s M → rep GetConnID Hash t M' → same_shape (tab s) t →
  map_Forall (λ _ c, 0 ≤ c_nLastTime c < 4294967296) M' → sound cap (mkClientMap t cs) M'.
Proof. intros [] Hr [Hn Ht] Htm. by split; cbn; rewrite ?Hn, ?Ht. Qed.

Lemma clients_find_sound cap s M k :
  sound cap s M →
  match M !! k with
  | Some c => ∃ h pre p cnt,
      search k s = Ok (h, pre, p, cnt) ∧ (p =? NULL) = false ∧ ld (vals (tab s)) p = Ok c ∧
      (∀ now, ∃ t', set_val p (SetLastTime now c) (tab s) = Ok t' ∧
         ld (vals t') p = Ok (SetLastTime now c) ∧
         sound cap (mkClientMap t' (calls s)) (<[k := SetLastTime now c]> M)) ∧
      (∀ cs, ∃ t', recycle h pre p (SetConnID 0 0) (tab s) = Ok t' ∧
         sound cap (mkClientMap t' cs) (delete k M))
  | None => ∃ h pre cnt,
      search k s = Ok (h, pre, NULL, cnt) ∧ 0 ≤ cnt ≤ cap ∧
      (∀ c now cs, GetConnID c = k →
         if Z.of_nat (size M) =? cap then enter h (λ _, SetLastTime now c) (tab s) = Ok (tab s, NULL)
         else ∃ t' p, enter h (λ _, SetLastTime now c) (tab s) = Ok (t', p) ∧ (p =? NULL) = false ∧
           sound cap (mkClientMap t' cs) (<[k := SetLastTime now c]> M))
  end.
Proof.
  intros Hs. destruct (clients_Hash_range _ k (s_nb _ _ _ Hs)) as (h & Eh & Hh).
  pose proof (find_cases _ _ _ _ _ _ (s_rep _ _ _ Hs) Eh Hh) as Hf.
  rewrite (s_cap _ _ _ Hs) in Hf. pose proof (s_times _ _ _ Hs) as Hts.
  assert (Hst : ∀ now c, 0 ≤ c_nLastTime (SetLastTime now c) < 4294967296).
  { intros. apply u32_range. }
  destruct (M !! k) as [c|] eqn:EM.
  - destruct Hf as (pre & p & cnt & Es & Hp & Ev & Ek & Hc & Hset & Hrec).
    exists h, pre, p, cnt. split_and!; [done..| |].
    + intros now. destruct (Hset (SetLastTime now c) Ek) as (t' & E & El & Hr & Hsh). exists t'.
      split_and!; [done..|]. eapply clients_sound_step; [done..|by apply map_Forall_insert_2].
    + intros cs. destruct (Hrec (SetConnID 0 0)) as (t' & E & Hr & Hsh). exists t'. split; [done|].
      eapply clients_sound_step; [done..|by apply map_Forall_delete].
  - destruct Hf as (pre & cnt & Es & Hc & Hent). exists h, pre, cnt. split_and!; [done|lia|lia|].
    intros c now cs Hw. specialize (Hent (λ _, SetLastTime now c) (λ _, Hw)).
    destruct (Z.of_nat (size M) =? cap); [done|].
    destruct Hent as (t' & p & old & E & Hp & Hr & _ & Hsh & _). exists t', p. split_and!; [done..|].
    eapply clients_sound_step; [done..|by apply map_Forall_insert_2].
Qed.

Lemma clients_step_sound cap s M o :
  sound cap s M → allowed o →
  ∃ s', exec o s = Ok ((spec cap o M).1, s') ∧ sound cap s' (spec cap o M).2.
Proof.
  intros Hs Ho. pose proof (λ k, clients_find_sound cap s M k Hs) as Hf.
  destruct o as [k now|k c0 now|c now|k|k now| | | ]; cbn [exec spec allowed] in *.
  - specialize (Hf k). unfold Get. destruct (M !! k) as [c|] eqn:EM.
    + destruct Hf as (h & pre & p & cnt & -> & Hp & Ev & Hset & _). cbn. rewrite Hp, Ev. cbn.
      destruct (Hset now) as (t' & -> & Ev' & Hs'). cbn. rewrite Hp, Ev'. eauto.
    + destruct Hf as (h & pre & cnt & -> & _). cbn. eauto.
  - specialize (Hf k). unfold GetCopy. destruct (M !! k) as [c|] eqn:EM.
    + destruct Hf as (h & pre & p & cnt & -> & Hp & Ev & Hset & _). cbn. rewrite Hp, Ev. cbn.
      destruct (Hset now) as (t' & -> & Ev' & Hs'). cbn. rewrite Ev'. cbn. eauto.
    + destruct Hf as (h & pre & cnt & -> & _). cbn. eauto.
  - specialize (Hf (GetConnID c)). unfold Add.
    destruct (GetConnID c =? 0); [cbn; eauto|].
    unfold GetConnID at 1. rewrite Z.eqb_refl. cbn [negb].
    destruct (M !! GetConnID c) as [c'|] eqn:EM.
    + destruct Hf as (h & pre & p & cnt & -> & Hp & _). cbn. rewrite Hp. cbn. eauto.
    + destruct Hf as (h & pre & cnt & -> & Hc & Hent). cbn. pose proof (s_small _ _ _ Hs).
      rewrite i32_ok by (unfold INT32_MIN, INT32_MAX; lia). cbn.
      assert (negb (20 <? cnt) && (100 <? cnt) = false) as ->
        by (destruct (Z.ltb_spec 20 cnt), (Z.ltb_spec 100 cnt); try done; lia).
      specialize (Hent c now (calls s ++ [Attach (GetConnID c) (u32 (m_nTCPTimeOut * 1000))]) eq_refl).
      destruct (Z.of_nat (size M) =? cap); [rewrite Hent; cbn; eauto|].
      destruct Hent as (t' & p & -> & Hp & Hs'). cbn. rewrite Hp. cbn. eauto.
  - specialize (Hf k). unfold Del. destruct (M !! k) as [g|] eqn:EM.
    + destruct Hf as (h & pre & p & cnt & -> & Hp & _ & _ & Hrec).
      destruct (Hrec (calls s ++ [Detach k])) as (t' & E & Hs'). cbn. rewrite Hp, E. cbn. eauto.
    + destruct Hf as (h & pre & cnt & -> & _). cbn. eexists. split; [done|].
      by apply (clients_sound_step cap s M); [|apply Hs| |apply Hs].
  - specialize (Hf k). unfold IsTimeOut. destruct (M !! k) as [c|] eqn:EM.
    + destruct Hf as (h & pre & p & cnt & -> & Hp & Ev & _). cbn. rewrite Hp, Ev. cbn.
      pose proof (s_times _ _ _ Hs _ _ EM) as Hg. cbn in Hg. rewrite i64_ok by lia. cbn. eauto.
    + destruct Hf as (h & pre & cnt & -> & _). cbn. eauto.
  - destruct (clear_spec _ _ _ _ (s_rep _ _ _ Hs)) as (t & E & Hr' & Hsh).
    unfold Clear. rewrite E. cbn. eexists. split; [done|]. by eapply clients_sound_step.
  - exists s. unfold GetSize, Size. destruct (rep_size _ _ _ _ (s_rep _ _ _ Hs)) as [-> _]. done.
  - exists s. unfold GetFree, Free. destruct (rep_size _ _ _ _ (s_rep _ _ _ Hs)) as [-> Hb].
    rewrite (s_cap _ _ _ Hs) in *. pose proof (s_small _ _ _ Hs). rewrite u32_small by lia. done.
Qed.

(** A successful [Init] followed by any sequence of operations returns,
    without a bad access, an overflow or an endless walk, and every result is
    that of a finite map from connection ids to connections holding at most
    [sz] of them; the codes -9002 and -9005 never occur. *)
Theorem clients_refine_map pTotal blank sz nb s os :
  0 < pTotal → 0 ≤ sz ≤ 500000 → 0 < nb < 4294967296 → sz ≤ u32 (5 * nb) →
  Forall allowed os →
  ∃ s1 s2, Init pTotal blank sz nb s = Ok (false, s1) ∧
    exec_all os s1 = Ok ((spec_all sz os ∅).1, s2).
Proof.
  intros Hp Hsz Hnb Hle Hos. unfold Init.
  rewrite (proj2 (Z.ltb_ge 500000 sz)), (proj2 (Z.ltb_ge _ sz)) by lia.
  destruct (node_range_ok pTotal sz) as (Hnd & H0 & Hlen); [lia..|].
  destruct (init_spec GetConnID Hash give (node_range pTotal sz) blank
    (mkLinks (new_field NULL (node_range pTotal sz)) ∅) (mkStack NULL (s_nUseSize (freeList (tab s))))
    (m_pBucket (tab s)) sz nb) as (t & E & Hr & En & Et); [apply give_puts|done..|lia|lia|done| |].
  { intros p Hp'. exists NULL. by apply new_field_lookup. }
  unfold fill. rewrite E. cbn in *.
  destruct (run_refines _ _ _ _ (clients_step_sound sz) os (mkClientMap (new_buckets t) (calls s)) ∅) as (s2 & E2 & _);
    [split; cbn; rewrite ?En, ?Et; try done; lia|done|eauto].
Qed.
End Client.

Lemma GToConnID_value u f :
  0 ≤ u < 4294967296 → -2147483648 ≤ f < 2147483648 →
  GToConnID u f = (u * 4294967296 + f) mod 18446744073709551616.
Proof.
  intros Hu Hf. unfold GToConnID, u64. rewrite Z.shiftl_mul_pow2 by lia.
  change (2 ^ 32) with 4294967296. by rewrite <-Zplus_mod.
Qed.

(** The connection id identifies the connection: two connections with the
    same id have the same unique id and the same socket, negative sockets
    included. *)
Theorem connID_injective u f u' f' :
  0 ≤ u < 4294967296 → 0 ≤ u' < 4294967296 →
  -2147483648 ≤ f < 2147483648 → -2147483648 ≤ f' < 2147483648 →
  GToConnID u f = GToConnID u' f' → u = u' ∧ f = f'.
Proof.
  intros Hu Hu' Hf Hf'. rewrite !GToConnID_value by done. intros E.
  pose proof (Z.div_mod (u * 4294967296 + f) 18446744073709551616 ltac:(lia)).
  pose proof (Z.div_mod (u' * 4294967296 + f') 18446744073709551616 ltac:(lia)).
  rewrite E in *. nia.
Qed.

Lemma connID_injective_witness : 7 = 7 ∧ -1 = -1.
Proof. apply (connID_injective 7 (-1) 7 (-1)); [lia|lia|lia|lia|vm_compute; reflexivity]. Defined.

(** ** Concrete runs *)
Definition empty_map : CAPGIClientHashMap :=
  mkClientMap (mkTable ∅ (mkLinks ∅ ∅) (mkStack NULL 0) None 0 0) [].
Definition client (u f : Z) : APGIClient := mkClient f u [] 0.

Definition demo : list Op :=
  [OAdd (client 0 0) 1; OAdd (client 1 4) 10; OAdd (client 2 4) 11; OAdd (client 3 5) 12;
   ODel (GToConnID 1 4); OAdd (client 3 5) 13; OGetCopy (GToConnID 2 4) (client 0 0) 40;
   OIsTimeOut (GToConnID 3 5) 50; OIsTimeOut (GToConnID 2 4) 50; OSize; OFree].

Lemma clients_refine_map_witness :
  ∃ s1 s2, Init 64 (client 0 (-1)) 2 3 empty_map = Ok (false, s1) ∧
    exec_all 30 demo s1 = Ok ([OutInt (-9001); OutInt 0; OutInt 0; OutInt (-9006); OutInt 0; OutInt 0;
      OutCopy 0 (mkClient 4 2 [] 40); OutBool true; OutBool false; OutInt 2; OutInt 0], s2).
Proof.
  destruct (clients_refine_map 30 64 (client 0 (-1)) 2 3 empty_map demo) as (s1 & s2 & E1 & E2);
    [lia|lia|lia|vm_compute; discriminate|repeat constructor; lia|].
  exists s1, s2. split; [exact E1|]. rewrite E2. f_equal.
Defined.
End Client.
