(* ===== verification/TemplateMaps.v ===== *)
(** * The hash map templates [SHHaspMap] and [CTHaspMap]

    [src/Common/shstd/include/shhashmap.h] and [shhashmap1.h], for any key and
    value type.  A node carries its key and its value, so the record of a node
    is a pair.  The hash function is a pointer, [None] when it is [NULL];
    calling it then is a fault.  [SHHaspMap] takes free nodes from a queue,
    hands out pointers to values and lets the caller fill them in; [CTHaspMap]
    uses a stack and copies values.  Both are proved to be bounded finite maps
    whose iteration sees every record once. *)

From stdpp Require Import base list list_numbers numbers option sets gmap fin_maps.
From S2P Require Import Prelude HashTable HashTableInv HashTableRep HashTableIter.

Open Scope Z_scope.

(** The error codes, the same in both headers. *)
Definition HM_OK : Z := 0.
Definition HM_NO_RECORD : Z := 1081.
Definition HM_NO_MEMORY : Z := 1082.
Definition HM_NOT_INIT : Z := 1083.
Definition HM_HASH_MAX_CNT : Z := 1084.
Definition HM_RECORD_EXIST : Z := 1085.
Definition HM_INTERNAL_ERR : Z := 1086.

(** The members of a map: the table, the hash function and the iteration. *)
Record HaspMap (F K T : Type) := mkHasp {
  tab : Table F (K * T);
  m_pMyHash : option (K → Z);
  m_nCurBucket : Z;
  m_pNextNode : Z }.
Arguments mkHasp {F K T} _ _ _ _.
Arguments tab {F K T} _.
Arguments m_pMyHash {F K T} _.
Arguments m_nCurBucket {F K T} _.
Arguments m_pNextNode {F K T} _.

Section Common.
Context {F K T : Type} `{Laws : FreeListLaws F} `{Countable K}.
Implicit Types (m : HaspMap F K T) (k : K).

(** The hash function's result, a [uint32_t], modulo [m_nBuckets]. *)
Definition hash_by (f : option (K → Z)) (m_nBuckets : Z) (k : K) : res Z :=
  match f with
  | None => Err OutOfBounds
  | Some f => if m_nBuckets =? 0 then Err DivisionByZero else Ok (u32 (f k) mod m_nBuckets)
  end.

Definition with_tab m (t : Table F (K * T)) : HaspMap F K T :=
  mkHasp t (m_pMyHash m) (m_nCurBucket m) (m_pNextNode m).

Definition with_iter m (cur nxt : Z) : HaspMap F K T := mkHasp (tab m) (m_pMyHash m) cur nxt.

(** The map at rest stands for [N], from keys to values. *)
Definition sound (cap : Z) m (N : gmap K T) : Prop :=
  ∃ M f, m_pMyHash m = Some f ∧ rep fst (hash_by (Some f)) (tab m) M ∧ N = snd <$> M ∧
    m_nTotalSize (tab m) = cap ∧ 0 < m_nBuckets (tab m) < 4294967296 ∧ cap ≤ INT32_MAX.

Lemma hash_range f nb k : 0 < nb → ∃ h, hash_by (Some f) nb k = Ok h ∧ 0 ≤ h < nb.
Proof.
  intros Hnb. unfold hash_by. rewrite (proj2 (Z.eqb_neq nb 0)) by lia.
  eexists. split; [done|]. apply Z.mod_pos_bound. lia.
Qed.

(** A step that keeps the shape and the hash function. *)
Lemma sound_step cap m N m' (M' : gmap K (K * T)) f N' :
  sound cap m N → m_pMyHash m = Some f → rep fst (hash_by (Some f)) (tab m') M' → N' = snd <$> M' →
  same_shape (tab m) (tab m') → m_pMyHash m' = m_pMyHash m → sound cap m' N'.
Proof.
  intros (M & f0 & Ef0 & _ & _ & Hcap & Hnb & Hsm) Ef Hr Hm [Hn Ht] Ef'. exists M', f.
  rewrite Hn, Ht, Ef'. done.
Qed.

(** What every operation starts from. *)
Lemma sound_find cap m N k :
  sound cap m N →
  ∃ h, hash_by (m_pMyHash m) (m_nBuckets (tab m)) k = Ok h ∧ 
  match N !! k with
  | Some v => ∃ b pre p cnt,
      bucket (tab m) h = Ok b ∧
      walk fst (chain_fuel (tab m)) (tab m) k NULL b 0 = Ok (pre, p, cnt) ∧
      (b =? NULL) = false ∧ (p =? NULL) = false ∧
      ld (vals (tab m)) p = Ok (k, v) ∧ 0 ≤ cnt ≤ INT32_MAX ∧
      (∀ w, ∃ t', set_val p (k, w) (tab m) = Ok t' ∧ sound cap (with_tab m t') (<[k := w]> N)) ∧
      (∃ t', recycle h pre p id (tab m) = Ok t' ∧ sound cap (with_tab m t') (delete k N))
  | None => ∃ b pre cnt,
      bucket (tab m) h = Ok b ∧
      walk fst (chain_fuel (tab m)) (tab m) k NULL b 0 = Ok (pre, NULL, cnt) ∧ 0 ≤ cnt ≤ INT32_MAX ∧
      (∀ write, (∀ v, (write v).1 = k) →
         if Z.of_nat (size N) =? cap then enter h write (tab m) = Ok (tab m, NULL)
         else ∃ t' p v, enter h write (tab m) = Ok (t', p) ∧ (p =? NULL) = false ∧
           sound cap (with_tab m t') (<[k := (write v).2]> N) ∧ ld (vals t') p = Ok (write v) ∧
           (∀ w, ∃ t'', set_val p (k, w) t' = Ok t'' ∧ sound cap (with_tab m t'') (<[k := w]> N)))
  end.
Proof.
  intros Hs. pose proof Hs as (M & f & Ef & Hr & -> & Hcap & Hnb & Hsm). rewrite Ef.
  destruct (hash_range f (m_nBuckets (tab m)) k ltac:(lia)) as (h & Eh & Hh). exists h. split; [done|].
  pose proof (find_cases _ _ _ _ _ _ Hr Eh Hh) as Hf. rewrite Hcap in Hf. unfold find in Hf.
  rewrite Eh in Hf. cbn in Hf. destruct (bucket (tab m) h) as [b|] eqn:Eb;
    [|destruct (M !! k); naive_solver]. cbn in Hf.
  assert (Hstep : ∀ t' M', rep fst (hash_by (Some f)) t' M' → same_shape (tab m) t' →
    sound cap (with_tab m t') (snd <$> M')) by (intros; by eapply sound_step).
  rewrite lookup_fmap. destruct (M !! k) as [[k' v]|] eqn:EM; cbn.
  - destruct Hf as (pre & p & cnt & Es & Hp & Ev & Ek & Hc & Hset & Hrec). cbn in Ek. subst k'.
    destruct (walk fst (chain_fuel (tab m)) (tab m) k NULL b 0) as [[[pre' p'] cnt']|] eqn:Ew; [|done].
    cbn in Es. injection Es as -> -> ->. exists b, pre, p, cnt. split_and!; [done..| |done|done|lia|lia| |].
    + destruct (Z.eqb_spec b NULL) as [->|]; [exfalso|done]. revert Ew.
      destruct (chain_fuel (tab m)); intros [= _ <- _]; done.
    + intros w. destruct (Hset (k, w) eq_refl) as (t' & E & _ & Hr' & Hsh). exists t'. split; [done|].
      rewrite <-(fmap_insert snd M k (k, w)). by apply Hstep.
    + destruct (Hrec id) as (t' & E & Hr' & Hsh). exists t'. split; [done|].
      rewrite <-fmap_delete. by apply Hstep.
  - destruct Hf as (pre & cnt & Es & Hc & Hent).
    destruct (walk fst (chain_fuel (tab m)) (tab m) k NULL b 0) as [[[pre' p'] cnt']|] eqn:Ew; [|done].
    cbn in Es. injection Es as -> -> ->. exists b, pre, cnt. split_and!; [done..|lia|lia|].
    intros write Hw. specialize (Hent write Hw). rewrite map_size_fmap.
    destruct (Z.of_nat (size M) =? cap); [done|].
    destruct Hent as (t' & p & v & E & Hp & Hr' & Ev & Hsh & Hset). exists t', p, v.
    split_and!; [done..| |done|].
    + rewrite <-fmap_insert. by apply Hstep.
    + intros w. destruct (Hset (k, w) eq_refl) as (t'' & E' & Hr'' & Hsh'). exists t''. split; [done|].
      rewrite <-(fmap_insert snd M k (k, w)). by apply Hstep.
Qed.

Lemma sound_clear cap m N cur nxt :
  sound cap m N → ∃ t, clear (tab m) = Ok t ∧ sound cap (mkHasp t (m_pMyHash m) cur nxt) ∅.
Proof.
  intros Hs. pose proof Hs as (M & f & Ef & Hr & -> & Hcap & Hnb & Hsm).
  destruct (clear_spec _ _ _ _ Hr) as (t & E & Hr' & Hsh). exists t. split; [done|].
  eapply (sound_step cap m _ _ ∅); [done..| |done|done]. by rewrite fmap_empty.
Qed.

Lemma sound_size cap m N :
  sound cap m N → Size (tab m) = Z.of_nat (size N) ∧ Free (tab m) = cap - Z.of_nat (size N).
Proof.
  intros (M & f & Ef & Hr & -> & Hcap & Hnb & Hsm). rewrite map_size_fmap.
  destruct (rep_size _ _ _ _ Hr) as [Hu Hb]. unfold Size, Free. rewrite Hu, Hcap in *.
  unfold INT32_MAX in *. by rewrite u32_small by lia.
Qed.

Lemma sound_iter cap m N cur nxt : sound cap m N → sound cap (with_iter m cur nxt) N.
Proof. done. Qed.

(** Iteration sees every record once and nothing else. *)
Lemma sound_visit cap m N :
  sound cap m N →
  ∃ ps, visit (m_pNextNode m) (tab m) = Ok ps ∧ NoDup ps ∧ length ps = size N ∧
    ∀ k v, N !! k = Some v ↔ ∃ p, p ∈ ps ∧ vals (tab m) !! p = Some (k, v).
Proof.
  intros (M & f & Ef & Hr & -> & Hcap & Hnb & Hsm).
  destruct (visit_records _ _ _ _ (m_pNextNode m) Hr ltac:(lia)) as (ps & E & Hnd & Hl & Hm).
  exists ps. rewrite map_size_fmap. split_and!; [done..|].
  intros k v. rewrite lookup_fmap, fmap_Some. split.
  - intros ([k' v'] & (p & Hp & Ev & Ek)%Hm & ->). cbn in *. subst k'. eauto.
  - intros (p & Hp & Ev). exists (k, v). rewrite Hm. split; [|done]. eauto.
Qed.

(** ** Finding the node to delete

    [Del] tests the first node by itself and then walks from it. *)
Definition locate (t : Table F (K * T)) k (b : Z) : res (Z * Z) :=
  v ← ld (vals t) b;
  if decide (v.1 = k) then Ok (NULL, b) else
  n ← ld (next (links t)) b;
  '(pre, del, _) ← walk fst (chain_fuel t) t k b n 0;
  Ok (pre, del).

Lemma walk_S (t : Table F (K * T)) k fuel pre p c :
  walk fst (S fuel) t k pre p c =
  if p =? NULL then Ok (pre, NULL, c) else
  v ← ld (vals t) p;
  if decide (v.1 = k) then Ok (pre, p, c) else
  n ← ld (next (links t)) p; walk fst fuel t k p n (c + 1).
Proof. done. Qed.

Lemma walk_mono (t : Table F (K * T)) k fuel : ∀ pre p c r,
  walk fst fuel t k pre p c = Ok r → walk fst (S fuel) t k pre p c = Ok r.
Proof.
  induction fuel as [|fuel IH]; intros pre p c r.
  - cbn. by destruct (p =? NULL).
  - rewrite walk_S, (walk_S _ _ (S fuel)).
    destruct (p =? NULL); [done|]. destruct (ld (vals t) p) as [v|]; [|done]. cbn [mbind res_bind].
    destruct (decide (v.1 = k)); [done|]. destruct (ld (next (links t)) p) as [q|]; [|done]. cbn [mbind res_bind].
    apply IH.
Qed.

Lemma walk_count (t : Table F (K * T)) k fuel : ∀ pre p c c' a b d,
  walk fst fuel t k pre p c = Ok (a, b, d) → ∃ d', walk fst fuel t k pre p c' = Ok (a, b, d').
Proof.
  induction fuel as [|fuel IH]; intros pre p c c' a b d; cbn;
    (destruct (p =? NULL); [intros [= <- <- _]; eauto|]); [done|].
  destruct (ld (vals t) p) as [v|]; [|done]. cbn.
  destruct (decide (v.1 = k)); [intros [= <- <- _]; eauto|].
  destruct (ld (next (links t)) p) as [q|]; [|done]. cbn. apply IH.
Qed.

Lemma locate_walk (t : Table F (K * T)) k b pre p cnt :
  (b =? NULL) = false → walk fst (chain_fuel t) t k NULL b 0 = Ok (pre, p, cnt) →
  locate t k b = Ok (pre, p).
Proof.
  intros Hb E. unfold locate. destruct (chain_fuel t) as [|f] eqn:Ef; [cbn in E; by rewrite Hb in E|].
  rewrite walk_S, Hb in E. destruct (ld (vals t) b) as [v|]; [|done]. cbn [mbind res_bind] in E |- *.
  destruct (decide (v.1 = k)); [by injection E as <- <- _|].
  destruct (ld (next (links t)) b) as [q|]; [|done]. cbn [mbind res_bind] in E |- *.
  destruct (walk_count _ _ _ _ _ _ 0 _ _ _ E) as [d E'].
  by rewrite (walk_mono _ _ _ _ _ _ _ E').
Qed.
End Common.

Module SHHaspMap.
Section SHHaspMap.
Context {K T : Type} `{Countable K}.
Abbreviation Map := (HaspMap Queue K T).
Implicit Types (m : Map) (k : K) (v : T).

(** The constructor; the members it does not set are arguments. *)
Definition construct (use total cur nxt : Z) : Map :=
  mkHasp (mkTable ∅ (mkLinks ∅ ∅) (mkQueue NULL NULL use) None total 0) None cur nxt.

Definition Init (pTotal : Z) (blank : K * T) (size : Z) (pHash : option (K → Z)) (buckets : Z) m
  : res (Z * Map) :=
  if size <? 0 then Ok (-1, m) else
  if u32 (5 * buckets) <? size then Ok (-2, m) else
  match pHash with
  | None => Ok (-3, m)
  | Some _ =>
      let t := tab m in
      let ps := node_range pTotal size in
      let t := mkTable (new_field blank ps ∪ vals t)
                 (mkLinks (new_field NULL ps ∪ next (links t)) (new_field NULL ps ∪ prev (links t)))
                 (freeList t) (m_pBucket t) size buckets in
      t ← fill ps t;
      Ok (HM_OK, mkHasp (new_buckets t) pHash (m_nCurBucket m) (m_pNextNode m))
  end.

Definition Hash m k : res Z := hash_by (m_pMyHash m) (m_nBuckets (tab m)) k.

(** The pointer to a value is given by the address of its node. *)
Definition Get k m : res Z :=
  h ← Hash m k;
  match m_pBucket (tab m) with
  | None => Ok NULL
  | Some _ =>
      b ← bucket (tab m) h;
      if b =? NULL then Ok NULL else
      '(_, p, _) ← walk fst (chain_fuel (tab m)) (tab m) k NULL b 0;
      Ok p
  end.

Definition Add k (pVal : Z) m : res (Z * Z * Map) :=
  h ← Hash m k;
  match m_pBucket (tab m) with
  | None => Ok (HM_NOT_INIT, pVal, m)
  | Some _ =>
      if negb (pVal =? NULL) then Ok (HM_INTERNAL_ERR, pVal, m) else
      b ← bucket (tab m) h;
      '(_, en, cnt) ← walk fst (chain_fuel (tab m)) (tab m) k NULL b 0;
      if negb (en =? NULL) then Ok (HM_RECORD_EXIST, pVal, m) else
      nKCnt ← i32 cnt;
      if negb (100 <? nKCnt) && (1000 <? nKCnt) then Ok (HM_HASH_MAX_CNT, pVal, m) else
      '(t, p) ← enter h (λ old, (k, old.2)) (tab m);
      if p =? NULL then Ok (HM_NO_MEMORY, pVal, m) else
      Ok (HM_OK, p, with_tab m t)
  end.

Definition Del k m : res (Z * Map) :=
  h ← Hash m k;
  b ← bucket (tab m) h;
  if b =? NULL then Ok (HM_NO_RECORD, m) else
  '(pre, del) ← locate (tab m) k b;
  if del =? NULL then Ok (HM_NO_RECORD, m) else
  t ← recycle h pre del id (tab m);
  Ok (HM_OK, with_tab m t).

Definition Clear m : res Map :=
  t ← clear (tab m); Ok (mkHasp t (m_pMyHash m) (m_nCurBucket m) NULL).

Definition Begin m : res (Z * Map) :=
  '(p, cur, nxt) ← iter_begin (tab m) (m_pNextNode m); Ok (p, with_iter m cur nxt).

Definition Next m : res (Z * Map) :=
  '(p, cur, nxt) ← iter_next (tab m) (m_nCurBucket m) (m_pNextNode m); Ok (p, with_iter m cur nxt).

(** The destructor walks the free list from its head. *)
Definition destruct_map m : res (list Z) :=
  '(ps, _) ← destroy (head (freeList (tab m))) (tab m); Ok ps.

(** ** The finite map it implements *)
Inductive Op :=
  | OGet (k : K)
  (** [Add] followed by the assignment of [v] through the pointer it gives *)
  | OInsert (k : K) (v : T)
  (** an assignment of [v] through the pointer [Get] gives *)
  | OStore (k : K) (v : T)
  | ODel (k : K)
  | OClear
  | OSize
  | OFree.

Inductive Out :=
  | OutVal (v : option T)
  | OutInt (z : Z)
  | OutNone.

Definition exec (o : Op) m : res (Out * Map) :=
  match o with
  | OGet k =>
      p ← Get k m;
      if p =? NULL then Ok (OutVal None, m) else
      r ← ld (vals (tab m)) p; Ok (OutVal (Some r.2), m)
  | OInsert k v =>
      '(r, p, m) ← Add k NULL m;
      if r =? HM_OK then t ← set_val p (k, v) (tab m); Ok (OutInt r, with_tab m t)
      else Ok (OutInt r, m)
  | OStore k v =>
      p ← Get k m;
      if p =? NULL then Ok (OutNone, m) else
      t ← set_val p (k, v) (tab m); Ok (OutNone, with_tab m t)
  | ODel k => '(r, m) ← Del k m; Ok (OutInt r, m)
  | OClear => m ← Clear m; Ok (OutNone, m)
  | OSize => Ok (OutInt (Size (tab m)), m)
  | OFree => Ok (OutInt (Free (tab m)), m)
  end.

Definition spec (cap : Z) (o : Op) (N : gmap K T) : Out * gmap K T :=
  match o with
  | OGet k => (OutVal (N !! k), N)
  | OInsert k v =>
      match N !! k with
      | Some _ => (OutInt HM_RECORD_EXIST, N)
      | None =>
          if Z.of_nat (size N) =? cap then (OutInt HM_NO_MEMORY, N)
          else (OutInt HM_OK, <[k := v]> N)
      end
  | OStore k v => (OutNone, if decide (is_Some (N !! k)) then <[k := v]> N else N)
  | ODel k =>
      match N !! k with
      | Some _ => (OutInt HM_OK, delete k N)
      | None => (OutInt HM_NO_RECORD, N)
      end
  | OClear => (OutNone, ∅)
  | OSize => (OutInt (Z.of_nat (size N)), N)
  | OFree => (OutInt (cap - Z.of_nat (size N)), N)
  end.

Definition exec_all := run exec.

Definition spec_all (cap : Z) := run_spec (spec cap).

(** A caller's loop [for( p = Begin(); p; p = Next() )]: the nodes it sees. *)
Fixpoint each_from (fuel : nat) (p : Z) m : res (list Z) :=
  if p =? NULL then Ok [] else
  match fuel with
  | O => Err OutOfFuel
  | S fuel => '(q, m) ← Next m; ps ← each_from fuel q m; Ok (p :: ps)
  end.

Definition each m : res (list Z) :=
  '(p, m) ← Begin m; each_from (chain_fuel (tab m)) p m.

Lemma sh_each_from_visit fuel : ∀ p m,
  each_from fuel p m = visit_from fuel (tab m) p (m_nCurBucket m) (m_pNextNode m).
Proof.
  induction fuel as [|fuel IH]; intros p m; cbn; [done|]. destruct (p =? NULL); [done|].
  unfold Next. destruct (iter_next (tab m) (m_nCurBucket m) (m_pNextNode m)) as [[[q cur] nxt]|]; [|done].
  cbn. by rewrite IH.
Qed.

Lemma sh_each_visit m : each m = visit (m_pNextNode m) (tab m).
Proof.
  unfold each, Begin, visit. destruct (iter_begin (tab m) (m_pNextNode m)) as [[[p cur] nxt]|]; [|done].
  cbn. apply sh_each_from_visit.
Qed.

Lemma sh_sound_bucket cap m N : sound cap m N → ∃ B, m_pBucket (tab m) = Some B.
Proof. intros (M & f & _ & (B & cs & fl & HB & _) & _). eauto. Qed.

Lemma sh_Get_sound cap m N k :
  sound cap m N →
  match N !! k with
  | Some v => ∃ p, Get k m = Ok p ∧ (p =? NULL) = false ∧ ld (vals (tab m)) p = Ok (k, v) ∧
      ∀ w, ∃ t', set_val p (k, w) (tab m) = Ok t' ∧ sound cap (with_tab m t') (<[k := w]> N)
  | None => Get k m = Ok NULL
  end.
Proof.
  intros Hs. destruct (sh_sound_bucket _ _ _ Hs) as [B HB].
  destruct (sound_find _ _ _ k Hs) as (h & Eh & Hf). unfold Get, Hash. rewrite Eh. cbn. rewrite HB.
  destruct (N !! k) as [v|].
  - destruct Hf as (b & pre & p & cnt & -> & E & Hb & Hp & Ev & _ & Hset & _).
    exists p. cbn. rewrite Hb, E. done.
  - destruct Hf as (b & pre & cnt & -> & E & _). cbn. destruct (b =? NULL); [done|]. by rewrite E.
Qed.

Lemma sh_step_sound cap m N o :
  sound cap m N → True → ∃ m', exec o m = Ok ((spec cap o N).1, m') ∧ sound cap m' (spec cap o N).2.
Proof.
  intros Hs _. destruct (sh_sound_bucket _ _ _ Hs) as [B HB].
  destruct o as [k|k v|k v|k| | | ]; cbn [exec spec].
  - pose proof (sh_Get_sound _ _ _ k Hs) as Hg. destruct (N !! k) as [v|].
    + destruct Hg as (p & -> & Hp & Ev & _). cbn. rewrite Hp, Ev. cbn. eauto.
    + rewrite Hg. cbn. eauto.
  - destruct (sound_find _ _ _ k Hs) as (h & Eh & Hf). unfold Add, Hash. rewrite Eh. cbn. rewrite HB.
    destruct (N !! k) as [v'|].
    + destruct Hf as (b & pre & p & cnt & -> & E & Hb & Hp & _). cbn. rewrite E. cbn. rewrite Hp. cbn. eauto.
    + destruct Hf as (b & pre & cnt & -> & E & Hc & Hent). cbn. rewrite E. cbn.
      rewrite i32_ok by (unfold INT32_MIN in *; lia). cbn.
      assert (negb (100 <? cnt) && (1000 <? cnt) = false) as ->
        by (destruct (Z.ltb_spec 100 cnt), (Z.ltb_spec 1000 cnt); try done; lia).
      specialize (Hent (λ old, (k, old.2)) (λ _, eq_refl)).
      destruct (Z.of_nat (size N) =? cap); [rewrite Hent; cbn; eauto|].
      destruct Hent as (t' & p & old & -> & Hp & _ & _ & Hset). cbn. rewrite Hp. cbn.
      destruct (Hset v) as (t'' & -> & Hs'). cbn. eauto.
  - pose proof (sh_Get_sound _ _ _ k Hs) as Hg. destruct (N !! k) as [v'|].
    + destruct Hg as (p & -> & Hp & _ & Hset). cbn. rewrite Hp, decide_True by eauto.
      destruct (Hset v) as (t' & -> & Hs'). cbn. eauto.
    + rewrite Hg. cbn. rewrite decide_False by (by intros [? ?]). eauto.
  - destruct (sound_find _ _ _ k Hs) as (h & Eh & Hf). unfold Del, Hash. rewrite Eh. cbn.
    destruct (N !! k) as [v'|].
    + destruct Hf as (b & pre & p & cnt & -> & E & Hb & Hp & _ & _ & _ & t' & Er & Hs'). cbn.
      rewrite Hb, (locate_walk _ _ _ _ _ _ Hb E). cbn. rewrite Hp, Er. cbn. eauto.
    + destruct Hf as (b & pre & cnt & -> & E & _). cbn. destruct (b =? NULL) eqn:Hb; [cbn; eauto|].
      rewrite (locate_walk _ _ _ _ _ _ Hb E). cbn. eauto.
  - destruct (sound_clear _ _ _ (m_nCurBucket m) NULL Hs) as (t & E & Hs'). unfold Clear. rewrite E. cbn. eauto.
  - destruct (sound_size _ _ _ Hs) as [-> _]. eauto.
  - destruct (sound_size _ _ _ Hs) as [_ ->]. eauto.
Qed.

(** A map constructed and successfully initialised behaves, under every
    sequence of operations, as a finite map of at most [sz] records, with the
    documented error codes; and iteration with [Begin] and [Next] then sees
    every record exactly once. *)
Theorem sh_refines_map pTotal blank sz f nb use total cur nxt os :
  0 < pTotal → 0 ≤ sz ≤ INT32_MAX → 0 < nb < 4294967296 → sz ≤ u32 (5 * nb) →
  ∃ m1 m2 ps, Init pTotal blank sz (Some f) nb (construct use total cur nxt) = Ok (HM_OK, m1) ∧
    exec_all os m1 = Ok ((spec_all sz os ∅).1, m2) ∧
    each m2 = Ok ps ∧ NoDup ps ∧ length ps = size (spec_all sz os ∅).2 ∧
    ∀ k v, (spec_all sz os ∅).2 !! k = Some v ↔ ∃ p, p ∈ ps ∧ vals (tab m2) !! p = Some (k, v).
Proof.
  intros Hp Hsz Hnb Hle. unfold Init. unfold INT32_MAX in Hsz.
  rewrite (proj2 (Z.ltb_ge sz 0)), (proj2 (Z.ltb_ge _ sz)) by lia. unfold construct.
  cbn [tab vals links next prev freeList m_pBucket m_nCurBucket m_pNextNode]. rewrite !map_union_empty. destruct (node_range_ok pTotal sz) as (Hnd & Hz & Hlen); [lia..|].
  destruct (init_spec fst (hash_by (Some f)) give (node_range pTotal sz) blank
    (mkLinks (new_field NULL (node_range pTotal sz)) (new_field NULL (node_range pTotal sz)))
    (mkQueue NULL NULL use) None sz nb) as (t & E & Hr & En & Et); [apply give_puts|done..|lia|lia|done| |].
  { intros p Hp'. split; exists NULL; by apply new_field_lookup. }
  unfold fill. rewrite E. cbn in *.
  destruct (run_refines _ _ _ _ (sh_step_sound sz) os (mkHasp (new_buckets t) (Some f) cur nxt) ∅) as (m2 & E2 & Hs2).
  { exists ∅, f. cbn. rewrite En, Et, fmap_empty. unfold INT32_MAX. split_and!; (done || lia). }
  { by apply (Forall_true (λ _, True)). }
  destruct (sound_visit _ _ _ Hs2) as (ps & Ev & H1 & H2 & H3). rewrite <-sh_each_visit in Ev.
  eexists _, m2, ps. split_and!; done.
Qed.
End SHHaspMap.

(** ** Concrete runs *)
Definition ident (k : Z) : Z := k.

Definition demo : list (@Op Z Z) :=
  [OInsert 1 10; OInsert 4 40; OInsert 1 11; OInsert 7 70; OInsert 2 20; ODel 4; OInsert 2 20;
   OStore 1 15; OGet 1; OGet 4; OGet 7; OSize; OFree].

Lemma sh_refines_map_witness :
  ∃ m1 m2 ps, Init 16 (0, 0) 3 (Some ident) 3 (construct 99 98 97 96) = Ok (HM_OK, m1) ∧
    exec_all demo m1 = Ok ([OutInt HM_OK; OutInt HM_OK; OutInt HM_RECORD_EXIST; OutInt HM_OK;
      OutInt HM_NO_MEMORY; OutInt HM_OK; OutInt HM_OK; OutNone; OutVal (Some 15); OutVal None;
      OutVal (Some 70); OutInt 3; OutInt 0], m2) ∧
    each m2 = Ok ps ∧ NoDup ps ∧ length ps = 3%nat.
Proof.
  destruct (sh_refines_map 16 (0, 0) 3 ident 3 99 98 97 96 demo) as (m1 & m2 & ps & E1 & E2 & E3 & H1 & H2 & _);
    [lia|unfold INT32_MAX; lia|lia|vm_compute; discriminate|].
  exists m1, m2, ps. split; [exact E1|]. split; [rewrite E2; f_equal|].
  split; [exact E3|]. split; [exact H1|]. rewrite H2. reflexivity.
Defined.

(** The destructor frees a node in use twice: [PopNode] leaves the [next] of the
    new tail pointing at the node it hands out, and the walk over the free list
    follows it. *)
Fact destructor_double_free :
  ('(_, m) ← Init 16 (0, 0) 2 (Some ident) 1 (construct 0 0 0 0);
   '(_, _, m) ← Add 5 NULL m;
   destruct_map m) = Err OutOfBounds.
Proof. vm_compute. reflexivity. Qed.

(** Before [Init] the hash function is a null pointer, and every operation calls
    it before its test for an uninitialised map. *)
Fact unused_before_init :
  Get 1 (construct (K := Z) (T := Z) 0 0 0 0) = Err OutOfBounds ∧
  Add 1 NULL (construct (K := Z) (T := Z) 0 0 0 0) = Err OutOfBounds ∧
  Del 1 (construct (K := Z) (T := Z) 0 0 0 0) = Err OutOfBounds.
Proof. vm_compute. done. Qed.
End SHHaspMap.
