(* ===== verification/CtHaspMap.v ===== *)
(** * The hash map template [CTHaspMap]

    [src/Common/shstd/include/shhashmap1.h]: the map that copies values in and
    out.  Its nodes are allocated one by one and its free list is a stack
    hanging from a dummy node. *)

From stdpp Require Import base list list_numbers numbers option sets gmap fin_maps.
From S2P Require Import Prelude HashTable HashTableInv HashTableRep HashTableIter TemplateMaps.

Open Scope Z_scope.

Module CTHaspMap.
Section CTHaspMap.
Context {K T : Type} `{Countable K}.
Abbreviation Map := (HaspMap Stack K T).
Implicit Types (m : Map) (k : K) (v : T).

Definition DEFAULT_BUCKET_NUM : Z := 100000.

Definition construct (use total cur nxt : Z) : Map :=
  mkHasp (mkTable ∅ (mkLinks ∅ ∅) (mkStack NULL use) None total 0) None cur nxt.

(** The loop body of [Init]: a new node is put before the first free one; the
    use count, already 0, stays. *)
Definition push_new (p : Z) (t : Table Stack (K * T)) : res (Table Stack (K * T)) :=
  L ← set_next p (m_lstFree (freeList t)) (links t);
  Ok (with_links L (mkStack p (s_nUseSize (freeList t))) t).

(** [ps] are the addresses the allocator gives to the [size] nodes. *)
Definition Init (ps : list Z) (blank : K * T) (size : Z) (pHash : option (K → Z)) (buckets : Z) m
  : res (Z * Map) :=
  if size <? 0 then Ok (-1, m) else
  if u32 (5 * buckets) <? size then Ok (-2, m) else
  match pHash with
  | None => Ok (-3, m)
  | Some _ =>
      let t := tab m in
      let t := mkTable (new_field blank ps ∪ vals t)
                 (mkLinks (new_field NULL ps ∪ next (links t)) (prev (links t)))
                 (mkStack (m_lstFree (freeList t)) 0) (m_pBucket t) size buckets in
      t ← foldM push_new ps t;
      Ok (HM_OK, mkHasp (mkTable (vals t) (links t) (freeList t)
                           (Some (replicate (Z.to_nat buckets) NULL)) size buckets)
                   pHash (m_nCurBucket m) (m_pNextNode m))
  end.

Definition Hash m k : res Z := hash_by (m_pMyHash m) (m_nBuckets (tab m)) k.

(** The pointer to a value is given by the address of its node. *)
Definition Get k m : res Z :=
  h ← Hash m k;
  match m_pBucket (tab m) with
  | None => Ok NULL
  | Some _ =>
      b ← bucket (tab m) h;
      if b =? NULL then Ok NULL else
      '(_, p, _) ← walk fst (chain_fuel (tab m)) (tab m) k NULL b 0;
      Ok p
  end.

(** The overload that copies; [v0] is what the caller's variable held. *)
Definition GetCopy k (v0 : T) m : res (Z * T) :=
  h ← Hash m k;
  match m_pBucket (tab m) with
  | None => Ok (HM_NOT_INIT, v0)
  | Some _ =>
      b ← bucket (tab m) h;
      if b =? NULL then Ok (HM_NO_RECORD, v0) else
      '(_, p, _) ← walk fst (chain_fuel (tab m)) (tab m) k NULL b 0;
      if p =? NULL then Ok (HM_NO_RECORD, v0) else
      r ← ld (vals (tab m)) p;
      Ok (HM_OK, r.2)
  end.

(** [Set] returns the value it replaced, written to [cover] when that is not
    [NULL]. *)
Definition Set_ k v (cover : bool) m : res (Z * option T * Map) :=
  h ← Hash m k;
  match m_pBucket (tab m) with
  | None => Ok (HM_NOT_INIT, None, m)
  | Some _ =>
      b ← bucket (tab m) h;
      '(_, p, cnt) ← walk fst (chain_fuel (tab m)) (tab m) k NULL b 0;
      if negb (p =? NULL) then
        r ← ld (vals (tab m)) p;
        t ← set_val p (r.1, v) (tab m);
        Ok (HM_OK, if cover then Some r.2 else None, with_tab m t)
      else
        nKCnt ← i32 cnt;
        if negb (100 <? nKCnt) && (1000 <? nKCnt) then Ok (HM_HASH_MAX_CNT, None, m) else
        '(t, p) ← enter h (λ _, (k, v)) (tab m);
        if p =? NULL then Ok (HM_NO_MEMORY, None, m) else
        Ok (HM_OK, None, with_tab m t)
  end.

(** [Del] returns the value it removed, written to [v] when that is not [NULL]. *)
Definition Del k (want : bool) m : res (Z * option T * Map) :=
  h ← Hash m k;
  match m_pBucket (tab m) with
  | None => Ok (HM_NOT_INIT, None, m)
  | Some _ =>
      b ← bucket (tab m) h;
      if b =? NULL then Ok (HM_NO_RECORD, None, m) else
      '(pre, del) ← locate (tab m) k b;
      if del =? NULL then Ok (HM_NO_RECORD, None, m) else
      r ← ld (vals (tab m)) del;
      t ← recycle h pre del id (tab m);
      Ok (HM_OK, if want then Some r.2 else None, with_tab m t)
  end.

Definition Clear m : res Map :=
  t ← clear (tab m); Ok (mkHasp t (m_pMyHash m) (m_nCurBucket m) NULL).

Definition Begin m : res (Z * Map) :=
  '(p, cur, nxt) ← iter_begin (tab m) (m_pNextNode m); Ok (p, with_iter m cur nxt).

Definition Next m : res (Z * Map) :=
  '(p, cur, nxt) ← iter_next (tab m) (m_nCurBucket m) (m_pNextNode m); Ok (p, with_iter m cur nxt).

Definition destruct_map m : res (list Z) :=
  '(ps, _) ← destroy (m_lstFree (freeList (tab m))) (tab m); Ok ps.

(** ** The finite map it implements *)
Inductive Op :=
  | OGet (k : K)
  | OGetCopy (k : K) (v0 : T)
  | OSet (k : K) (v : T) (cover : bool)
  | ODel (k : K) (want : bool)
  | OClear
  | OSize
  | OFree.

Inductive Out :=
  | OutVal (v : option T)
  | OutCopy (r : Z) (v : T)
  | OutRes (r : Z) (v : option T)
  | OutInt (z : Z)
  | OutNone.

Definition exec (o : Op) m : res (Out * Map) :=
  match o with
  | OGet k =>
      p ← Get k m;
      if p =? NULL then Ok (OutVal None, m) else
      r ← ld (vals (tab m)) p; Ok (OutVal (Some r.2), m)
  | OGetCopy k v0 => '(r, v) ← GetCopy k v0 m; Ok (OutCopy r v, m)
  | OSet k v cover => '(r, old, m) ← Set_ k v cover m; Ok (OutRes r old, m)
  | ODel k want => '(r, old, m) ← Del k want m; Ok (OutRes r old, m)
  | OClear => m ← Clear m; Ok (OutNone, m)
  | OSize => Ok (OutInt (Size (tab m)), m)
  | OFree => Ok (OutInt (Free (tab m)), m)
  end.

Definition spec (cap : Z) (o : Op) (N : gmap K T) : Out * gmap K T :=
  match o with
  | OGet k => (OutVal (N !! k), N)
  | OGetCopy k v0 =>
      match N !! k with
      | Some v => (OutCopy HM_OK v, N)
      | None => (OutCopy HM_NO_RECORD v0, N)
      end
  | OSet k v cover =>
      match N !! k with
      | Some old => (OutRes HM_OK (if cover then Some old else None), <[k := v]> N)
      | None =>
          if Z.of_nat (size N) =? cap then (OutRes HM_NO_MEMORY None, N)
          else (OutRes HM_OK None, <[k := v]> N)
      end
  | ODel k want =>
      match N !! k with
      | Some old => (OutRes HM_OK (if want then Some old else None), delete k N)
      | None => (OutRes HM_NO_RECORD None, N)
      end
  | OClear => (OutNone, ∅)
  | OSize => (OutInt (Z.of_nat (size N)), N)
  | OFree => (OutInt (cap - Z.of_nat (size N)), N)
  end.

Definition exec_all := run exec.

Definition spec_all (cap : Z) := run_spec (spec cap).

(** A caller's loop [for( p = Begin(); p; p = Next() )]. *)
Fixpoint each_from (fuel : nat) (p : Z) m : res (list Z) :=
  if p =? NULL then Ok [] else
  match fuel with
  | O => Err OutOfFuel
  | S fuel => '(q, m) ← Next m; ps ← each_from fuel q m; Ok (p :: ps)
  end.

Definition each m : res (list Z) :=
  '(p, m) ← Begin m; each_from (chain_fuel (tab m)) p m.

Lemma ct_each_from_visit fuel : ∀ p m,
  each_from fuel p m = visit_from fuel (tab m) p (m_nCurBucket m) (m_pNextNode m).
Proof.
  induction fuel as [|fuel IH]; intros p m; cbn; [done|]. destruct (p =? NULL); [done|].
  unfold Next. destruct (iter_next (tab m) (m_nCurBucket m) (m_pNextNode m)) as [[[q cur] nxt]|]; [|done].
  cbn. by rewrite IH.
Qed.

Lemma ct_each_visit m : each m = visit (m_pNextNode m) (tab m).
Proof.
  unfold each, Begin, visit. destruct (iter_begin (tab m) (m_pNextNode m)) as [[[p cur] nxt]|]; [|done].
  cbn. apply ct_each_from_visit.
Qed.

Lemma ct_sound_bucket cap m N : sound cap m N → ∃ B, m_pBucket (tab m) = Some B.
Proof. intros (M & f & _ & (B & cs & fl & HB & _) & _). eauto. Qed.

Lemma ct_step_sound cap m N o :
  sound cap m N → True → ∃ m', exec o m = Ok ((spec cap o N).1, m') ∧ sound cap m' (spec cap o N).2.
Proof.
  intros Hs _. destruct (ct_sound_bucket _ _ _ Hs) as [B HB].
  pose proof (λ k, sound_find _ _ _ k Hs) as Hall.
  destruct o as [k|k v0|k v cover|k want| | | ]; cbn [exec spec];
    try (destruct (Hall k) as (h & Eh & Hf)).
  - unfold Get, Hash. rewrite Eh. cbn. rewrite HB. destruct (N !! k) as [v|].
    + destruct Hf as (b & pre & p & cnt & -> & E & Hb & Hp & Ev & _). cbn. rewrite Hb, E. cbn.
      rewrite Hp, Ev. cbn. eauto.
    + destruct Hf as (b & pre & cnt & -> & E & _). cbn. destruct (b =? NULL); [|rewrite E]; cbn; eauto.
  - unfold GetCopy, Hash. rewrite Eh. cbn. rewrite HB. destruct (N !! k) as [v|].
    + destruct Hf as (b & pre & p & cnt & -> & E & Hb & Hp & Ev & _). cbn. rewrite Hb, E. cbn.
      rewrite Hp, Ev. cbn. eauto.
    + destruct Hf as (b & pre & cnt & -> & E & _). cbn. destruct (b =? NULL); [|rewrite E]; cbn; eauto.
  - unfold Set_, Hash. rewrite Eh. cbn. rewrite HB. destruct (N !! k) as [v'|].
    + destruct Hf as (b & pre & p & cnt & -> & E & Hb & Hp & Ev & _ & Hset & _). cbn. rewrite E. cbn.
      rewrite Hp, Ev. cbn. destruct (Hset v) as (t' & -> & Hs'). cbn. eauto.
    + destruct Hf as (b & pre & cnt & -> & E & Hc & Hent). cbn. rewrite E. cbn.
      rewrite i32_ok by (unfold INT32_MIN in *; lia). cbn.
      assert (negb (100 <? cnt) && (1000 <? cnt) = false) as ->
        by (destruct (Z.ltb_spec 100 cnt), (Z.ltb_spec 1000 cnt); try done; lia).
      specialize (Hent (λ _, (k, v)) (λ _, eq_refl)).
      destruct (Z.of_nat (size N) =? cap); [rewrite Hent; cbn; eauto|].
      destruct Hent as (t' & p & old & -> & Hp & Hs' & _). cbn. rewrite Hp. cbn. eauto.
  - unfold Del, Hash. rewrite Eh. cbn. rewrite HB. destruct (N !! k) as [v'|].
    + destruct Hf as (b & pre & p & cnt & -> & E & Hb & Hp & Ev & _ & _ & t' & Er & Hs'). cbn.
      rewrite Hb, (locate_walk _ _ _ _ _ _ Hb E). cbn. rewrite Hp, Ev. cbn. rewrite Er. cbn. eauto.
    + destruct Hf as (b & pre & cnt & -> & E & _). cbn. destruct (b =? NULL) eqn:Hb; [cbn; eauto|].
      rewrite (locate_walk _ _ _ _ _ _ Hb E). cbn. eauto.
  - destruct (sound_clear _ _ _ (m_nCurBucket m) NULL Hs) as (t & E & Hs'). unfold Clear. rewrite E. cbn. eauto.
  - destruct (sound_size _ _ _ Hs) as [-> _]. eauto.
  - destruct (sound_size _ _ _ Hs) as [_ ->]. eauto.
Qed.

Lemma push_new_puts : puts push_new.
Proof.
  intros p t fl Hh Hp Hnd Hz Ho Hfl. cbn in *. unfold push_new. rewrite set_next_ok by done. cbn.
  eexists _, (p :: fl). split; [done|]. split; [done|].
  split; [|split_and!; [done..|apply keeps_insert, keeps_refl|apply keeps_refl]].
  cbn. split_and!; [done..|]. exists (m_lstFree (freeList t)). rewrite lookup_insert_eq.
  split; [done|]. by apply chain_insert.
Qed.

Lemma push_new_used ps : ∀ t t',
  foldM push_new ps t = Ok t' → s_nUseSize (freeList t') = s_nUseSize (freeList t).
Proof.
  induction ps as [|p ps IH]; intros t t' E; [by injection E as <-|].
  cbn [foldM] in E. apply bind_Ok_inv in E as (t1 & E1 & E). rewrite (IH _ _ E).
  unfold push_new in E1. apply bind_Ok_inv in E1 as (L & _ & E1). by injection E1 as <-.
Qed.

Lemma ct_Init_sound ps blank sz f nb use total cur nxt :
  NoDup ps → NULL ∉ ps → sz = Z.of_nat (length ps) → sz ≤ INT32_MAX → 0 < nb < 4294967296 →
  sz ≤ u32 (5 * nb) →
  ∃ m, Init ps blank sz (Some f) nb (construct use total cur nxt) = Ok (HM_OK, m) ∧ sound sz m ∅.
Proof.
  intros Hnd Hz Hlen Hsz Hnb Hle. unfold Init. unfold INT32_MAX in Hsz.
  rewrite (proj2 (Z.ltb_ge sz 0)), (proj2 (Z.ltb_ge _ sz)) by lia. unfold construct.
  cbn [tab vals links next prev freeList m_pBucket m_nCurBucket m_pNextNode m_lstFree]. rewrite !map_union_empty.
  destruct (init_spec fst (hash_by (Some f)) push_new ps blank
    (mkLinks (new_field NULL ps) ∅) (mkStack NULL 0) None sz nb) as (t & E & Hr & En & Et);
    [apply push_new_puts|done..|lia|lia|done| |].
  { intros p Hp'. exists NULL. by apply new_field_lookup. }
  rewrite E. cbn. eexists. split; [done|]. exists ∅, f. cbn in *.
  pose proof (push_new_used _ _ _ E) as Hu. cbn in Hu.
  split_and!; [done| |by rewrite fmap_empty|done|lia|lia|done].
  unfold new_buckets in Hr. rewrite En, Et in Hr. cbn in Hr.
  replace (freeList t) with (mkStack (m_lstFree (freeList t)) 0); [done|].
  destruct (freeList t); cbn in *. by subst.
Qed.

(** a map constructed and successfully initialised behaves, under every
    sequence of operations, as a finite map of at most [sz] records, with the
    documented error codes; iteration then sees every record exactly once, and
    the destructor frees each of the [sz] nodes exactly once. *)
Theorem ct_refines_map ps blank sz f nb use total cur nxt os :
  NoDup ps → NULL ∉ ps → sz = Z.of_nat (length ps) → sz ≤ INT32_MAX → 0 < nb < 4294967296 →
  sz ≤ u32 (5 * nb) →
  ∃ m1 m2 seen freed,
    Init ps blank sz (Some f) nb (construct use total cur nxt) = Ok (HM_OK, m1) ∧
    exec_all os m1 = Ok ((spec_all sz os ∅).1, m2) ∧
    each m2 = Ok seen ∧ NoDup seen ∧ length seen = size (spec_all sz os ∅).2 ∧
    (∀ k v, (spec_all sz os ∅).2 !! k = Some v ↔ ∃ p, p ∈ seen ∧ vals (tab m2) !! p = Some (k, v)) ∧
    destruct_map m2 = Ok freed ∧ NoDup freed ∧ Z.of_nat (length freed) = sz.
Proof.
  intros Hnd Hz Hlen Hsz Hnb Hle.
  destruct (ct_Init_sound ps blank sz f nb use total cur nxt) as (m1 & E1 & Hs1); [done..|].
  destruct (run_refines _ _ _ (λ _, True) (ct_step_sound sz) os m1 ∅ Hs1) as (m2 & E2 & Hs2);
        [by apply Forall_true|].
  destruct (sound_visit _ _ _ Hs2) as (seen & Ev & H1 & H2 & H3). rewrite <-ct_each_visit in Ev.
  pose proof Hs2 as (M & f' & _ & Hr & _ & Hcap & _).
  destruct (destroy_stack _ _ _ _ Hr) as (freed & t' & Ed & Hd1 & Hd2).
  exists m1, m2, seen, freed. split_and!; [done..| |done|congruence].
  unfold destruct_map. by rewrite Ed.
Qed.
End CTHaspMap.

(** ** A concrete run *)
Definition demo : list (@Op Z Z) :=
  [OSet 1 10 true; OSet 4 40 true; OSet 1 11 true; OSet 7 70 false; OSet 2 20 true; ODel 4 true;
   OSet 2 20 true; OGetCopy 1 0; OGet 4; OSize; OFree].

Lemma ct_refines_map_witness :
  ∃ m1 m2 seen freed, Init [8; 24; 16] (0, 0) 3 (Some SHHaspMap.ident) 3 (construct 99 98 97 96) = Ok (HM_OK, m1) ∧
    exec_all demo m1 = Ok ([OutRes HM_OK None; OutRes HM_OK None; OutRes HM_OK (Some 10); OutRes HM_OK None;
      OutRes HM_NO_MEMORY None; OutRes HM_OK (Some 40); OutRes HM_OK None; OutCopy HM_OK 11; OutVal None;
      OutInt 3; OutInt 0], m2) ∧
    each m2 = Ok seen ∧ NoDup seen ∧ length seen = 3%nat ∧
    destruct_map m2 = Ok freed ∧ NoDup freed ∧ Z.of_nat (length freed) = 3.
Proof.
  destruct (ct_refines_map [8; 24; 16] (0, 0) 3 SHHaspMap.ident 3 99 98 97 96 demo)
    as (m1 & m2 & seen & freed & E1 & E2 & E3 & H1 & H2 & _ & H3 & H4 & H5);
    [repeat (constructor; [rewrite list_elem_of_In; cbn; intuition discriminate|]); constructor
    |rewrite list_elem_of_In; cbn; intuition discriminate|reflexivity|unfold INT32_MAX; lia|lia|vm_compute; discriminate|].
  exists m1, m2, seen, freed. split; [exact E1|]. split; [rewrite E2; f_equal|].
  split; [exact E3|]. split; [exact H1|]. split; [rewrite H2; reflexivity|]. auto.
Defined.
End CTHaspMap.
