(* ===== verification/SBotEval.v ===== *)
(** * The bot's hand evaluator ([HoldemHandEvaluator])

    [src/Common/SBotInterface/src/hand_evaluator.cpp] gives a hand of two to
    seven cards a number; the bot compares hands by it.  It is independent of
    the table-driven evaluator of the game engine ([Eval]): it counts ranks and
    suits and looks for straights and groups.  A card is its rank times the
    number of suits plus its suit, the same numbering as the engine's. *)

From stdpp Require Import base list list_numbers numbers option.
From S2P Require Import Prelude.

Open Scope Z_scope.

(** [S_Game::NumSuits()]: the evaluator's arrays are made for 13 ranks in four
    suits. *)
Definition NumSuits : Z := 4.

Definition Rank (card : Z) : Z := Z.quot card NumSuits.
Definition Suit (card : Z) : Z := Z.rem card NumSuits.
Definition MakeCard (rank suit : Z) : Z := rank * NumSuits + suit.

Definition InCards (c : Z) (cards : list Z) (num_cards : Z) : res bool :=
  o ← forR 0 num_cards tt (λ i _, x ← rd cards i; Ok (if c =? x then inr true else inl tt));
  Ok (match o with inr b => b | inl _ => false end).

(** ** Class constants *)
Definition kMaxHandVal : Z := 775905.
Definition kStraightFlush : Z := 775892.
Definition kQuads : Z := 775723.
Definition kFullHouse : Z := 775554.
Definition kFlush : Z := 404261.
Definition kStraight : Z := 404248.
Definition kThreeOfAKind : Z := 402051.
Definition kTwoPair : Z := 399854.
Definition kPair : Z := 371293.
Definition kNoPair : Z := 0.

Definition kH4Quads : Z := 31096.
Definition kH4ThreeOfAKind : Z := 30927.
Definition kH4TwoPair : Z := 30758.
Definition kH4Pair : Z := 28561.

(** [++a[i]] *)
Definition incr (a : list Z) (i : Z) : res (list Z) := n ← rd a i; wr a i (n + 1).

(** ** Two, three and four cards *)
Definition EvaluateTwo (cards : list Z) : res Z :=
  c0 ← rd cards 0; c1 ← rd cards 1;
  let r0 := Rank c0 in let r1 := Rank c1 in
  if r0 =? r1 then Ok (78 + r0) else
  let '(hr, lr) := if r1 <? r0 then (r0, r1) else (r1, r0) in
  Ok (if hr =? 1 then 0 else if hr =? 2 then 1 + lr else if hr =? 3 then 3 + lr
      else if hr =? 4 then 6 + lr else if hr =? 5 then 10 + lr else if hr =? 6 then 15 + lr
      else if hr =? 7 then 21 + lr else if hr =? 8 then 28 + lr else if hr =? 9 then 36 + lr
      else if hr =? 10 then 45 + lr else if hr =? 11 then 55 + lr else 66 + lr).

Definition EvaluateThree (cards : list Z) : res Z :=
  c0 ← rd cards 0; c1 ← rd cards 1; c2 ← rd cards 2;
  let r0 := Rank c0 in let r1 := Rank c1 in let r2 := Rank c2 in
  if (r0 =? r1) && (r1 =? r2) then Ok (2366 + r0)
  else if (r0 =? r1) || (r0 =? r2) || (r1 =? r2) then
    let '(pr_rank, kicker) :=
      if r0 =? r1 then (r0, r2) else if r0 =? r2 then (r0, r1) else (r1, r0) in
    Ok (2197 + pr_rank * 13 + kicker)
  else
    let '(hr, mr, lr) :=
      if r1 <? r0 then
        if r2 <? r1 then (r0, r1, r2) else if r2 <? r0 then (r0, r2, r1) else (r2, r0, r1)
      else if r2 <? r0 then (r1, r0, r2)
      else if r1 <? r2 then (r2, r1, r0)
      else (r1, r2, r0) in
    Ok (hr * 169 + mr * 13 + lr).

(** [for( r = 12; r >= 0; --r )] *)
Definition ranks_down : list Z := [12; 11; 10; 9; 8; 7; 6; 5; 4; 3; 2; 1; 0].

(** The first [k] ranks held by exactly one card, highest first, -1 where there
    are fewer. *)
Definition singles (k : nat) (rank_counts : list Z) : res (list Z) :=
  ks ← foldM (λ r ks, n ← rd rank_counts r;
                Ok (if (n =? 1) && (length ks <? k)%nat then ks ++ [r] else ks)) ranks_down [];
  Ok (ks ++ replicate (k - length ks) (-1)).

(** The loop over the ranks: a result returned at once, or the two pair ranks;
    it ends when the second pair is found. *)
Definition four_groups (rc : list Z) : res ((Z * Z) + Z) :=
  foldR (λ r '((p1, p2) : Z * Z),
    if negb (p2 =? -1) then Ok (inl (p1, p2)) else
    n ← rd rc r;
    if n =? 4 then Ok (inr (kH4Quads + r))
    else if n =? 3 then ks ← singles 1 rc; k ← rd ks 0; Ok (inr (kH4ThreeOfAKind + 13 * r + k))
    else if n =? 2 then Ok (inl (if p1 =? -1 then (r, p2) else (p1, r)))
    else Ok (inl (p1, p2))) ranks_down (-1, -1).

Definition EvaluateFour (cards : list Z) : res Z :=
  rc ← for_ 0 4 (replicate 13 0) (λ i rc, c ← rd cards i; incr rc (Rank c));
  o ← four_groups rc;
  match o with
  | inr v => Ok v
  | inl (pair_rank1, pair_rank2) =>
      if 0 <=? pair_rank2 then Ok (pair_rank1 * 13 + pair_rank2 + kH4TwoPair) else
      if 0 <=? pair_rank1 then
        ks ← singles 2 rc; k1 ← rd ks 0; k2 ← rd ks 1;
        Ok (pair_rank1 * 169 + k1 * 13 + k2 + kH4Pair)
      else
        ks ← singles 4 rc; k1 ← rd ks 0; k2 ← rd ks 1; k3 ← rd ks 2; k4 ← rd ks 3;
        Ok (k1 * 2197 + k2 * 169 + k3 * 13 + k4)
  end.

(** ** Five to seven cards *)

(** The members of the evaluator. *)
Record Tally := mkTally {
  ranks_ : list Z;
  suits_ : list Z;
  rank_counts_ : list Z;
  suit_counts_ : list Z }.

Definition tally (cards : list Z) (num_cards : Z) (ranks0 suits0 : list Z) : res Tally :=
  for_ 0 num_cards (mkTally ranks0 suits0 (replicate 13 0) (replicate 4 0)) (λ i t,
    c ← rd cards i;
    ra ← wr (ranks_ t) i (Rank c);
    rc ← incr (rank_counts_ t) (Rank c);
    sa ← wr (suits_ t) i (Suit c);
    sc ← incr (suit_counts_ t) (Suit c);
    Ok (mkTally ra sa rc sc)).

Definition flush_suit_of (suit_counts : list Z) : res Z :=
  o ← forR 0 4 tt (λ s _, n ← rd suit_counts s; Ok (if 5 <=? n then inr s else inl tt));
  Ok (match o with inr s => s | inl _ => -1 end).

(** The test for a card of rank [r1], the ace standing below the deuce too. *)
Definition present (rc : list Z) (r1 : Z) : res bool :=
  if -1 <? r1 then n ← rd rc r1; Ok (0 <? n)
  else if r1 =? -1 then n ← rd rc 12; Ok (0 <? n)
  else Ok false.

Fixpoint down (fuel : nat) (rc : list Z) (r1 end_ : Z) : res Z :=
  if negb (end_ <=? r1) then Ok r1 else
  match fuel with
  | O => Err OutOfFuel
  | S fuel =>
      b ← present rc r1;
      if (b : bool) then down fuel rc (r1 - 1) end_ else Ok r1
  end.

(** The cards of the flush suit among the five ranks from [end_] to [r]. *)
Definition suited (t : Tally) (num_cards flush_suit end_ r : Z) : res Z :=
  for_ 0 num_cards 0 (λ i num,
    s ← rd (suits_ t) i;
    rk ← rd (ranks_ t) i;
    Ok (if (s =? flush_suit) && (((end_ <=? rk) && (rk <=? r)) || ((end_ =? -1) && (rk =? 12)))
        then num + 1 else num)).

(** The search for straights: a straight flush is returned at once, otherwise
    the top of the best straight or -1.  [r] falls from 12 to 3, so ten rounds
    are enough; a straight is five ranks, so the inner loop has five. *)
Fixpoint straights (fuel : nat) (t : Tally) (num_cards flush_suit r straight_rank : Z)
  : res (Z + Z) :=
  match fuel with
  | O => Err OutOfFuel
  | S fuel =>
      let end_ := r - 4 in
      r1 ← down 5 (rank_counts_ t) r end_;
      if r1 =? end_ - 1 then
        if 0 <=? flush_suit then
          let straight_rank := if straight_rank =? -1 then r else straight_rank in
          num ← suited t num_cards flush_suit end_ r;
          if num =? 5 then Ok (inr (kStraightFlush + r)) else
          if r - 1 <? 3 then Ok (inl straight_rank)
          else straights fuel t num_cards flush_suit (r - 1) straight_rank
        else Ok (inl r)
      else if r1 - 1 <? 3 then Ok (inl straight_rank)
      else straights fuel t num_cards flush_suit (r1 - 1) straight_rank
  end.

(** The cascade [if( r > hr1 ) ... else if( r > hr2 ) ...] on [hr1, hr2, ...]:
    [r] goes before the first smaller one and the last falls out. *)
Fixpoint shift_in (r : Z) (hrs : list Z) : list Z :=
  match hrs with
  | [] => []
  | h :: t => if h <? r then r :: removelast hrs else h :: shift_in r t
  end.

(** The highest [k] ranks among the cards that [keep] accepts. *)
Definition highest (k : nat) (t : Tally) (num_cards : Z) (keep : Z → Z → bool) : res (list Z) :=
  for_ 0 num_cards (replicate k (-1)) (λ i hrs,
    s ← rd (suits_ t) i;
    r ← rd (ranks_ t) i;
    Ok (if keep s r then shift_in r hrs else hrs)).

(** [... + hr1 * 169 + hr2 * 13 + hr3] *)
Definition base13 (l : list Z) : Z := fold_left (λ a r, a * 13 + r) l 0.

(** The loop over the ranks: quads are returned at once; otherwise the rank of
    the first three of a kind and of the first two other groups. *)
Definition groups (t : Tally) (num_cards : Z) : res ((Z * Z * Z) + Z) :=
  foldR (λ r '((three_rank, pair_rank, pair2_rank) : Z * Z * Z),
    ct ← rd (rank_counts_ t) r;
    if ct =? 4 then
      hrs ← highest 1 t num_cards (λ _ r1, negb (r1 =? r));
      Ok (inr (kQuads + r * 13 + base13 hrs))
    else if ct =? 3 then
      Ok (inl (if three_rank =? -1 then (r, pair_rank, pair2_rank)
               else if pair_rank =? -1 then (three_rank, r, pair2_rank)
               else (three_rank, pair_rank, pair2_rank)))
    else if ct =? 2 then
      Ok (inl (if pair_rank =? -1 then (three_rank, r, pair2_rank)
               else if pair2_rank =? -1 then (three_rank, pair_rank, r)
               else (three_rank, pair_rank, pair2_rank)))
    else Ok (inl (three_rank, pair_rank, pair2_rank))) ranks_down (-1, -1, -1).

(** What follows the loops, for five cards or more. *)
Definition finish (t : Tally) (num_cards flush_suit straight_rank three_rank pair_rank pair2_rank : Z)
  : res Z :=
  if (0 <=? three_rank) && (0 <=? pair_rank) then Ok (kFullHouse + three_rank * 13 + pair_rank) else
  if 0 <=? flush_suit then
    hrs ← highest 5 t num_cards (λ s _, s =? flush_suit);
    Ok (kFlush + base13 hrs)
  else if 0 <=? straight_rank then Ok (kStraight + straight_rank)
  else if 0 <=? three_rank then
    hrs ← highest 2 t num_cards (λ _ r, negb (r =? three_rank));
    Ok (kThreeOfAKind + three_rank * 169 + base13 hrs)
  else if 0 <=? pair2_rank then
    hrs ← highest 1 t num_cards (λ _ r, negb (r =? pair_rank) && negb (r =? pair2_rank));
    Ok (kTwoPair + pair_rank * 169 + pair2_rank * 13 + base13 hrs)
  else if 0 <=? pair_rank then
    hrs ← highest 3 t num_cards (λ _ r, negb (r =? pair_rank));
    Ok (kPair + pair_rank * 2197 + base13 hrs)
  else
    hrs ← highest 5 t num_cards (λ _ _, true);
    Ok (kNoPair + base13 hrs).

(** [Evaluate]; [ranks0] and [suits0] are what the members [ranks_] and [suits_],
    arrays of seven, hold from earlier calls.  The special encodings for three
    and four cards in the last part of the code cannot be reached, since those
    numbers of cards are handled first. *)
Definition Evaluate (ranks0 suits0 : list Z) (cards : list Z) (num_cards : Z) : res Z :=
  if num_cards =? 2 then EvaluateTwo cards else
  if num_cards =? 3 then EvaluateThree cards else
  if num_cards =? 4 then EvaluateFour cards else
  t ← tally cards num_cards ranks0 suits0;
  flush_suit ← flush_suit_of (suit_counts_ t);
  o ← straights 10 t num_cards flush_suit 12 (-1);
  match o with
  | inr v => Ok v
  | inl straight_rank =>
      o ← groups t num_cards;
      match o with
      | inr v => Ok v
      | inl (three_rank, pair_rank, pair2_rank) =>
          finish t num_cards flush_suit straight_rank three_rank pair_rank pair2_rank
      end
  end.
