(* ===== verification/SBotEvalThm.v ===== *)
(** * The two hand evaluators agree

    The bot's evaluator ([SBotEval]) computes, for five to seven distinct cards
    in any order, a number of the best hand by the rules of poker ([Eval.hand_of]);
    so it orders hands as the engine's table-driven evaluator does. *)

From stdpp Require Import base list list_numbers numbers option.
From S2P Require Import Prelude GameDef EvalTables Eval EvalOrder SBotEval.

Open Scope Z_scope.

(** The cards of a list, by suit and rank. *)
Definition held (l : list Z) (s r : Z) : bool := existsb (Z.eqb (4 * r + s)) l.

Lemma card_split x :
  is_card x → 0 ≤ Rank x < 13 ∧ 0 ≤ Suit x < 4 ∧ x = 4 * Rank x + Suit x.
Proof.
  intros Hx. unfold Rank, Suit, NumSuits. unfold is_card in Hx.
  rewrite Z.quot_div_nonneg, Z.rem_mod_nonneg by lia.
  pose proof (Z.div_mod x 4). pose proof (Z.mod_pos_bound x 4). lia.
Qed.

Lemma held_cons x l s r :
  is_card x → 0 ≤ s < 4 → 0 ≤ r < 13 →
  held (x :: l) s r = ((Suit x =? s) && (Rank x =? r)) || held l s r.
Proof.
  intros Hx Hs Hr. unfold held. cbn [existsb]. f_equal.
  destruct (card_split x Hx) as (Hrx & Hsx & E). rewrite E at 1.
  destruct (Z.eqb_spec (4 * r + s) (4 * Rank x + Suit x)),
    (Z.eqb_spec (Suit x) s), (Z.eqb_spec (Rank x) r); cbn; try done; lia.
Qed.

Lemma held_fresh x l : is_card x → x ∉ l → held l (Suit x) (Rank x) = false.
Proof.
  intros Hx Hn. destruct (card_split x Hx) as (_ & _ & E).
  unfold held. apply not_true_iff_false. rewrite existsb_exists. intros (y & Hy & Ey%Z.eqb_eq).
  apply Hn. rewrite E, Ey. by apply list_elem_of_In.
Qed.

Lemma filter_filter_and {A} (f g : A → bool) (L : list A) :
  List.filter f (List.filter g L) = List.filter (λ x, g x && f x) L.
Proof. induction L as [|a L IH]; [done|]. cbn. destruct (g a); cbn; by rewrite IH. Qed.

(** ** Inserting a rank into a descending list *)
Fixpoint ins (r : Z) (l : list Z) : list Z :=
  match l with
  | [] => [r]
  | h :: t => if h <? r then r :: l else h :: ins r t
  end.

Lemma filter_ins (P Q : Z → bool) r A b :
  desc b A → r ∈ A → P r = false → (∀ x, Q x = P x || (x =? r)) →
  List.filter Q A = ins r (List.filter P A).
Proof.
  intros HA Hr HP HQ. revert b HA Hr. induction A as [|a A IH]; intros b HA Hr;
    [by apply not_elem_of_nil in Hr|]. destruct HA as [Ha HA]. cbn [List.filter]. rewrite HQ.
  destruct (Z.eqb_spec a r) as [->|Hne].
  - rewrite HP. cbn.
    assert (List.filter Q A = List.filter P A) as ->.
    { apply List.filter_ext_in. intros x Hx%list_elem_of_In. rewrite HQ.
      pose proof (desc_elem _ _ _ HA Hx). rewrite (proj2 (Z.eqb_neq x r)) by lia. apply orb_false_r. }
    pose proof (desc_filter P _ _ HA) as Hd. destruct (List.filter P A) as [|h t]; [done|].
    destruct Hd as [Hh _]. cbn. by rewrite (proj2 (Z.ltb_lt h r)) by lia.
  - apply elem_of_cons in Hr as [->|Hr]; [done|]. pose proof (desc_elem _ _ _ HA Hr).
    rewrite orb_false_r. destruct (P a); [|by eapply IH]. cbn.
    rewrite (proj2 (Z.ltb_ge a r)) by lia. f_equal. by eapply IH.
Qed.

Lemma ranks_ins (P Q : Z → bool) r :
  0 ≤ r < 13 → P r = false → (∀ x, Q x = P x || (x =? r)) → ranks Q = ins r (ranks P).
Proof.
  intros Hr HP HQ. eapply (filter_ins _ _ _ _ 13); [|by apply all_ranks_elem|done..].
  cbn. lia.
Qed.

Lemma length_ins r l : length (ins r l) = S (length l).
Proof. induction l as [|h t IH]; cbn; [done|]. destruct (h <? r); cbn; lia. Qed.

(** ** The highest ranks *)
Fixpoint pad (k : nat) (l : list Z) : list Z :=
  match k with
  | O => []
  | S k => match l with [] => -1 :: pad k [] | h :: t => h :: pad k t end
  end.

Lemma pad_nil k : pad k [] = replicate k (-1).
Proof. induction k; cbn; congruence. Qed.

Lemma pad_full k l : (k ≤ length l)%nat → pad k l = take k l.
Proof.
  revert l. induction k as [|k IH]; intros l Hl; [done|].
  destruct l as [|h t]; cbn in *; [lia|]. f_equal. apply IH. lia.
Qed.

Lemma removelast_pad k l : removelast (pad (S k) l) = pad k l.
Proof.
  revert l. induction k as [|k IH]; intros l; [by destruct l|].
  destruct l as [|h t].
  - transitivity (-1 :: removelast (pad (S k) [])); [done|]. by rewrite IH.
  - transitivity (h :: removelast (pad (S k) t)); [by destruct t|]. by rewrite IH.
Qed.

Lemma shift_in_pad k r l : 0 ≤ r → shift_in r (pad k l) = pad k (ins r l).
Proof.
  intros Hr. revert l. induction k as [|k IH]; intros l; [done|].
  destruct l as [|h t]; cbn [pad ins].
  - change (-1 :: pad k []) with (pad (S k) []). cbn [shift_in pad].
    rewrite (proj2 (Z.ltb_lt (-1) r)) by lia. f_equal. apply (removelast_pad k []).
  - cbn [shift_in]. destruct (h <? r).
    + cbn [pad]. f_equal. apply (removelast_pad k (h :: t)).
    + cbn [pad]. by rewrite IH.
Qed.

Section Kept.
Context (keep : Z → Z → bool).

Definition kept (x : Z) : bool := keep (Suit x) (Rank x).

(** The ranks of the cards kept. *)
Definition kept_rank (l : list Z) (r : Z) : bool :=
  existsb (λ x, kept x && (Rank x =? r)) l.

Definition scan_high (k : nat) (l : list Z) : list Z :=
  fold_left (λ hrs x, if kept x then shift_in (Rank x) hrs else hrs) l (replicate k (-1)).

Lemma scan_high_spec k l :
  Forall is_card l → NoDup l →
  (∀ x y, x ∈ l → y ∈ l → kept x → kept y → Rank x = Rank y → x = y) →
  scan_high k l = pad k (ranks (kept_rank l)).
Proof.
  induction l as [|x l IH] using rev_ind; intros Hl Hnd Hd.
  - unfold scan_high. cbn. by rewrite pad_nil.
  - apply Forall_app in Hl as [Hl Hx]. rewrite Forall_singleton in Hx.
    apply list.NoDup_app in Hnd as (Hnd & Hdis & _).
    assert (Hxl : x ∉ l) by (intros Hin; apply (Hdis x Hin); left).
    unfold scan_high. rewrite fold_left_app. cbn [fold_left]. fold (scan_high k l).
    rewrite IH by (try done; intros; apply Hd; rewrite ?elem_of_app; auto).
    assert (Hk : ∀ r, kept_rank (l ++ [x]) r = kept_rank l r || (kept x && (Rank x =? r))).
    { intros r. unfold kept_rank. rewrite existsb_app. cbn. by rewrite orb_false_r. }
    destruct (card_split x Hx) as (Hr & _ & _).
    destruct (kept x) eqn:Ek.
    + rewrite shift_in_pad by lia. f_equal. symmetry. apply ranks_ins; [done| |].
      * apply not_true_iff_false. unfold kept_rank. rewrite existsb_exists.
        intros (y & Hy & [Ey Er%Z.eqb_eq]%andb_true_iff). apply list_elem_of_In in Hy.
        apply Hxl. rewrite (Hd x y) ; rewrite ?elem_of_app, ?Ek, ?Ey; auto. right. left.
      * intros r. rewrite Hk. cbn. by rewrite (Z.eqb_sym r).
    + f_equal. apply ranks_ext. intros r _. rewrite Hk. cbn. by rewrite orb_false_r.
Qed.
End Kept.

(** ** Counting *)
Lemma held_snoc l x s r :
  is_card x → 0 ≤ s < 4 → 0 ≤ r < 13 →
  held (l ++ [x]) s r = held l s r || ((Suit x =? s) && (Rank x =? r)).
Proof.
  intros Hx Hs Hr. pose proof (held_cons x [] s r Hx Hs Hr) as E. unfold held in *.
  rewrite existsb_app, E. f_equal. apply orb_false_r.
Qed.

Lemma count_snoc l x r :
  is_card x → x ∉ l → 0 ≤ r < 13 →
  count (held (l ++ [x])) r = count (held l) r + c_bool (Rank x =? r).
Proof.
  intros Hx Hn Hr. destruct (card_split x Hx) as (_ & Hs & _). pose proof (held_fresh x l Hx Hn) as Hf.
  unfold count. rewrite !held_snoc by (done || lia).
  destruct (Z.eqb_spec (Rank x) r) as [<-|]; rewrite ?andb_true_r, ?andb_false_r, ?orb_false_r; [|cbn; lia].
  assert (Suit x = 0 ∨ Suit x = 1 ∨ Suit x = 2 ∨ Suit x = 3) as [E|[E|[E|E]]] by lia;
    rewrite E in Hf |- *; rewrite Hf; cbn; rewrite ?orb_false_r; lia.
Qed.

Lemma suit_snoc l x s :
  is_card x → x ∉ l → 0 ≤ s < 4 →
  Z.of_nat (length (ranks (held (l ++ [x]) s))) =
  Z.of_nat (length (ranks (held l s))) + c_bool (Suit x =? s).
Proof.
  intros Hx Hn Hs. destruct (card_split x Hx) as (Hr & _ & _). pose proof (held_fresh x l Hx Hn) as Hf.
  destruct (Z.eqb_spec (Suit x) s) as [<-|Hne].
  - rewrite (ranks_ext _ (λ r, held l (Suit x) r || (r =? Rank x))).
    + rewrite (ranks_ins (held l (Suit x)) _ (Rank x) Hr Hf) by done. rewrite length_ins. cbn. lia.
    + intros r Hr'. rewrite held_snoc by done. by rewrite Z.eqb_refl, (Z.eqb_sym r).
  - rewrite (ranks_ext _ (held l s)); [cbn; lia|]. intros r Hr'. rewrite held_snoc by done.
    rewrite (proj2 (Z.eqb_neq _ _)) by done. apply orb_false_r.
Qed.

(** What the members hold after the cards [l]. *)
Record tallied (t : Tally) (l : list Z) : Prop := {
  t_ranks : length (ranks_ t) = 7%nat;
  t_suits : length (suits_ t) = 7%nat;
  t_rc : length (rank_counts_ t) = 13%nat;
  t_sc : length (suit_counts_ t) = 4%nat;
  t_rank : ∀ i, 0 ≤ i < Z.of_nat (length l) → at_ (ranks_ t) i = Rank (at_ l i);
  t_suit : ∀ i, 0 ≤ i < Z.of_nat (length l) → at_ (suits_ t) i = Suit (at_ l i);
  t_rcount : ∀ r, 0 ≤ r < 13 → at_ (rank_counts_ t) r = count (held l) r;
  t_scount : ∀ s, 0 ≤ s < 4 → at_ (suit_counts_ t) s = Z.of_nat (length (ranks (held l s))) }.

Lemma incr_ok a i :
  0 ≤ i < Z.of_nat (length a) → incr a i = Ok (<[Z.to_nat i := at_ a i + 1]> a).
Proof. intros Hi. unfold incr. rewrite rd_ok by done. cbn. by rewrite wr_ok. Qed.

Lemma at_prefix_l (l : list Z) x i : 0 ≤ i < Z.of_nat (length l) → at_ (l ++ [x]) i = at_ l i.
Proof. intros Hi. unfold at_. apply lookup_total_app_l. lia. Qed.

Lemma at_prefix_r (l : list Z) x : at_ (l ++ [x]) (Z.of_nat (length l)) = x.
Proof. unfold at_. rewrite Nat2Z.id. apply list_lookup_total_middle. done. Qed.

(** One card more. *)
Lemma tally_step t l x :
  tallied t l → is_card x → x ∉ l → (length l < 7)%nat →
  ∃ t', (ra ← wr (ranks_ t) (Z.of_nat (length l)) (Rank x);
         rc ← incr (rank_counts_ t) (Rank x);
         sa ← wr (suits_ t) (Z.of_nat (length l)) (Suit x);
         sc ← incr (suit_counts_ t) (Suit x);
         Ok (mkTally ra sa rc sc)) = Ok t' ∧ tallied t' (l ++ [x]).
Proof.
  intros [H1 H2 H3 H4 H5 H6 H7 H8] Hx Hn Hl. destruct (card_split x Hx) as (Hr & Hs & _).
  rewrite wr_ok by lia. cbn. rewrite incr_ok by lia. cbn. rewrite wr_ok by lia. cbn.
  rewrite incr_ok by lia. cbn. eexists. split; [done|].
  split; cbn [ranks_ suits_ rank_counts_ suit_counts_]; rewrite ?length_insert; try done;
    rewrite ?length_app; cbn [length].
  - intros i Hi. rewrite at_insert by lia. case_decide as E.
    + subst i. by rewrite at_prefix_r.
    + rewrite H5, at_prefix_l by lia. done.
  - intros i Hi. rewrite at_insert by lia. case_decide as E.
    + subst i. by rewrite at_prefix_r.
    + rewrite H6, at_prefix_l by lia. done.
  - intros r Hr'. rewrite at_insert, count_snoc by (done || lia). rewrite <-!H7 by done.
    case_decide as E; [subst; rewrite Z.eqb_refl|rewrite (proj2 (Z.eqb_neq _ _)) by done]; cbn; lia.
  - intros s Hs'. rewrite at_insert, suit_snoc by (done || lia). rewrite <-!H8 by done.
    case_decide as E; [subst; rewrite Z.eqb_refl|rewrite (proj2 (Z.eqb_neq _ _)) by done]; cbn; lia.
Qed.

Lemma tally_ok l ra sa :
  Forall is_card l → NoDup l → (length l ≤ 7)%nat → length ra = 7%nat → length sa = 7%nat →
  ∃ t, tally l (Z.of_nat (length l)) ra sa = Ok t ∧ tallied t l.
Proof.
  intros Hl Hnd Hlen Hra Hsa. unfold tally.
  destruct (for_inv (λ i t, tallied t (take (Z.to_nat i) l)) 0 (Z.of_nat (length l))
    (mkTally ra sa (replicate 13 0) (replicate 4 0)) (λ i t,
      c ← rd l i; ra ← wr (ranks_ t) i (Rank c); rc ← incr (rank_counts_ t) (Rank c);
      sa ← wr (suits_ t) i (Suit c); sc ← incr (suit_counts_ t) (Suit c);
      Ok (mkTally ra sa rc sc))) as (t & E & Ht); [lia| | |].
  - change (take (Z.to_nat 0) l) with (@nil Z).
    split; cbn [ranks_ suits_ rank_counts_ suit_counts_]; [done|done|done|done| | | |].
    + intros i Hi. cbn in Hi. lia.
    + intros i Hi. cbn in Hi. lia.
    + intros r Hr. unfold at_. rewrite lookup_total_replicate_2 by lia. done.
    + intros s Hs. unfold at_. rewrite lookup_total_replicate_2 by lia. done.
  - intros i t Hi Ht. destruct (lookup_lt_is_Some_2 l (Z.to_nat i)) as [x Ex]; [lia|].
    unfold rd at 1. rewrite (proj2 (Z.ltb_ge i 0)), Ex by lia.
    assert (Hsp : take (Z.to_nat (i + 1)) l = take (Z.to_nat i) l ++ [x]).
    { rewrite Z2Nat.inj_add, Nat.add_1_r by lia. by apply take_S_r. }
    assert (Htl : length (take (Z.to_nat i) l) = Z.to_nat i) by (rewrite length_take; lia).
    destruct (tally_step t _ x Ht) as (t' & E & Ht').
    + rewrite Forall_lookup in Hl. by eapply Hl.
    + intros Hin. apply list_elem_of_lookup in Hin as (j & Hj).
      rewrite lookup_take_Some in Hj. destruct Hj as [Ej Hj].
      pose proof (NoDup_lookup _ _ _ _ Hnd Ej Ex). lia.
    + lia.
    + exists t'. rewrite Hsp. split; [|done]. rewrite Htl, Z2Nat.id in E by lia. exact E.
  - exists t. split; [exact E|]. rewrite Nat2Z.id, take_ge in Ht by done. done.
Qed.

(** ** Loops over the cards *)
Lemma fold_at {S} (f : S → Z → S) l s :
  fold_left (λ s i, f s (at_ l i)) (seqZ 0 (Z.of_nat (length l))) s = fold_left f l s.
Proof.
  revert s. induction l as [|x l IH] using rev_ind; intros s; [done|].
  rewrite length_app. cbn [length].
  replace (Z.of_nat (length l + 1)) with (Z.of_nat (length l) + 1) by lia.
  rewrite seqZ_snoc, !fold_left_app by lia. cbn [fold_left]. rewrite Z.add_0_l, at_prefix_r. f_equal.
  rewrite <-IH. assert (∀ L, (∀ i, In i L → 0 ≤ i < Z.of_nat (length l)) → ∀ s,
    fold_left (λ s i, f s (at_ (l ++ [x]) i)) L s = fold_left (λ s i, f s (at_ l i)) L s) as G.
  { clear s. induction L as [|i L IHL]; intros HL s; [done|]. cbn.
    rewrite at_prefix_l by (apply HL; by left). apply IHL. intros j Hj. apply HL. by right. }
  apply G. intros i Hi%list_elem_of_In%elem_of_seqZ. lia.
Qed.

Lemma highest_ok keep k t l :
  tallied t l → (length l ≤ 7)%nat →
  highest k t (Z.of_nat (length l)) keep = Ok (scan_high keep k l).
Proof.
  intros Ht Hl. unfold highest, scan_high.
  rewrite (for_pure _ _ _ (λ hrs i, if kept keep (at_ l i) then shift_in (Rank (at_ l i)) hrs else hrs)).
  - rewrite Z.sub_0_r. f_equal. apply (fold_at (λ hrs x, if kept keep x then shift_in (Rank x) hrs else hrs)).
  - intros i hrs Hi. rewrite !rd_ok by (rewrite ?(t_suits _ _ Ht), ?(t_ranks _ _ Ht); lia). cbn.
    by rewrite (t_suit _ _ Ht), (t_rank _ _ Ht) by done.
Qed.

(** A card of the flush suit within the five ranks that end at [r]. *)
Definition in_window (f r x : Z) : bool :=
  (Suit x =? f) && (((r - 4 <=? Rank x) && (Rank x <=? r)) || ((r - 4 =? -1) && (Rank x =? 12))).

Lemma suited_ok t l f r :
  tallied t l → (length l ≤ 7)%nat →
  suited t (Z.of_nat (length l)) f (r - 4) r =
    Ok (fold_left (λ n x, if in_window f r x then n + 1 else n) l 0).
Proof.
  intros Ht Hl. unfold suited.
  rewrite (for_pure _ _ _ (λ n i, if in_window f r (at_ l i) then n + 1 else n)).
  - rewrite Z.sub_0_r. f_equal. apply (fold_at (λ n x, if in_window f r x then n + 1 else n)).
  - intros i n Hi. rewrite !rd_ok by (rewrite ?(t_suits _ _ Ht), ?(t_ranks _ _ Ht); lia). cbn.
    by rewrite (t_suit _ _ Ht), (t_rank _ _ Ht) by done.
Qed.

(** The five ranks of a straight that ends at [t]. *)
Definition window (t : Z) : list Z := (λ i, if t - i =? -1 then 12 else t - i) <$> [0; 1; 2; 3; 4].

Definition window_count (has : Z → bool) (t : Z) : Z :=
  foldr (λ r a, c_bool (has r) + a) 0 (window t).

Lemma straight_at_window has t : straight_at has t = (window_count has t =? 5).
Proof.
  unfold straight_at, window_count, window. change (seqZ 0 5) with [0; 1; 2; 3; 4].
  cbn [fmap list_fmap forallb foldr].
  repeat match goal with |- context [has ?x] => destruct (has x) end; reflexivity.
Qed.

Lemma window_suited l f r :
  Forall is_card l → NoDup l → 0 ≤ f < 4 → 3 ≤ r ≤ 12 →
  fold_left (λ n x, if in_window f r x then n + 1 else n) l 0 = window_count (held l f) r.
Proof.
  intros Hl Hnd Hf Hr. induction l as [|x l IH] using rev_ind.
  - unfold window_count, window. cbn [fmap list_fmap foldr held existsb]. done.
  - apply Forall_app in Hl as [Hl Hx]. rewrite Forall_singleton in Hx.
    apply list.NoDup_app in Hnd as (Hnd & Hdis & _).
    assert (Hxl : x ∉ l) by (intros Hin; apply (Hdis x Hin); left).
    rewrite fold_left_app. cbn [fold_left]. rewrite IH by done. clear IH.
    destruct (card_split x Hx) as (Hrx & Hsx & _). pose proof (held_fresh x l Hx Hxl) as Hf0.
    unfold window_count, window, in_window. cbn [fmap list_fmap foldr].
    assert (Hlow : ∀ i, 0 ≤ i ≤ 4 → 0 ≤ (if r - i =? -1 then 12 else r - i) < 13).
    { intros i Hi. destruct (Z.eqb_spec (r - i) (-1)); lia. }
    rewrite !held_snoc by (try done; apply Hlow; lia).
    destruct (Z.eqb_spec (Suit x) f) as [<-|Hne]; cbn [andb]; rewrite ?orb_false_r; [|lia].
    revert Hf0. repeat match goal with |- context [if ?a =? -1 then 12 else ?b] => destruct (Z.eqb_spec a (-1)) end; try lia;
    intros Hf0;
    repeat match goal with
    | |- context [?a =? ?b] => destruct (Z.eqb_spec a b)
    | |- context [?a <=? ?b] => destruct (Z.leb_spec a b)
    end; try lia; cbn [andb orb]; rewrite ?orb_false_r, ?orb_true_r; subst;
    repeat match goal with H : Rank x = ?b |- _ => rewrite H in Hf0; clear H end;
    rewrite ?Hf0; cbn [c_bool]; try lia.
Qed.

(** ** The flush suit *)
Lemma straight_five has t :
  3 ≤ t ≤ 12 → straight_at has t = true → (5 ≤ length (ranks has))%nat.
Proof.
  intros Ht Hs. change 5%nat with (length (window t)). apply NoDup_incl_length.
  - apply NoDup_ListNoDup. assert (E : forallb (λ t, bool_decide (NoDup (window t))) (seqZ 3 10) = true)
      by (vm_compute; reflexivity).
    rewrite forallb_seqZ in E. specialize (E t ltac:(lia)). by apply bool_decide_eq_true in E.
  - intros r Hr. apply list_elem_of_In, ranks_elem. unfold straight_at in Hs. rewrite forallb_forall in Hs.
    unfold window in Hr. apply list_elem_of_In, list_elem_of_fmap in Hr as (i & -> & Hi).
    assert (Hi' : In i (seqZ 0 5)) by (by apply list_elem_of_In).
    split; [|by apply (Hs i Hi')]. apply list_elem_of_In, elem_of_seqZ in Hi'.
    destruct (Z.eqb_spec (t - i) (-1)); lia.
Qed.

Lemma straight_top_range has t : straight_top has = Some t → 3 ≤ t ≤ 12 ∧ straight_at has t = true.
Proof. intros E. apply find_some in E as [Ht E]. split; [|done]. cbn in Ht. lia. Qed.

Lemma suit_hand_small has : (length (ranks has) < 5)%nat → suit_hand has = None.
Proof.
  intros Hl. unfold suit_hand. destruct (straight_top has) as [t|] eqn:E.
  - apply straight_top_range in E as [Ht Hs]. pose proof (straight_five _ _ Ht Hs). lia.
  - by rewrite (proj2 (Nat.leb_gt 5 _)).
Qed.

Lemma suit_hand_large has :
  (5 ≤ length (ranks has))%nat →
  suit_hand has = Some (match straight_top has with
                        | Some t => StraightFlush t | None => Flush (take 5 (ranks has)) end).
Proof. intros Hl. unfold suit_hand. destruct (straight_top has); [done|]. by rewrite (proj2 (Nat.leb_le 5 _)). Qed.

Lemma suit_hand_pos has h : suit_hand has = Some h → 0 < code_opt (suit_hand has).
Proof.
  intros E. destruct (suit_hand_cases has) as [E'|[(t & E' & Ht)|[E' _]]]; rewrite E'; [congruence| |]; cbn [code_opt code].
  - unfold HANDCLASS_STRAIGHT_FLUSH. lia.
  - pose proof (kidx_take_bound 5 has 1287 ltac:(lia) eq_refl). unfold HANDCLASS_FLUSH. lia.
Qed.

(** With one suit of five cards at most, that suit decides the flush. *)
Lemma flush_one (c : Z → Z → bool) f :
  (∀ s, 0 ≤ s < 4 → s ≠ f → suit_hand (c s) = None) → 0 ≤ f < 4 → flush c = suit_hand (c f).
Proof.
  intros Ho Hf. unfold flush.
  assert (Hb1 : better None (suit_hand (c f)) = suit_hand (c f)).
  { unfold better. destruct (suit_hand (c f)) as [h|] eqn:E; [|done].
    pose proof (suit_hand_pos _ _ E) as Hp. rewrite E in Hp. by rewrite (proj2 (Z.ltb_lt _ _)). }
  assert (Hb2 : better (suit_hand (c f)) None = suit_hand (c f)).
  { unfold better. pose proof (suit_hand_nonneg (c f)). by rewrite (proj2 (Z.ltb_ge _ _)). }
  assert (f = 0 ∨ f = 1 ∨ f = 2 ∨ f = 3) as [->|[->|[->| ->]]] by lia;
    repeat match goal with |- context [suit_hand (c ?s)] =>
      rewrite (Ho s) by lia end; change (better None None) with (@None hand); rewrite ?Hb1, ?Hb2; done.
Qed.

Lemma suit_total l :
  Forall is_card l → NoDup l →
  Z.of_nat (length l) = Z.of_nat (length (ranks (held l 0))) + Z.of_nat (length (ranks (held l 1))) +
    Z.of_nat (length (ranks (held l 2))) + Z.of_nat (length (ranks (held l 3))).
Proof.
  induction l as [|x l IH] using rev_ind; intros Hl Hnd; [done|].
  apply Forall_app in Hl as [Hl Hx]. rewrite Forall_singleton in Hx.
  apply list.NoDup_app in Hnd as (Hnd & Hdis & _).
  assert (Hxl : x ∉ l) by (intros Hin; apply (Hdis x Hin); left).
  rewrite !suit_snoc by (done || lia). rewrite length_app. cbn [length].
  destruct (card_split x Hx) as (_ & Hs & _). specialize (IH Hl Hnd).
  assert (Suit x = 0 ∨ Suit x = 1 ∨ Suit x = 2 ∨ Suit x = 3) as [E|[E|[E|E]]] by lia;
    rewrite E; cbn [Z.eqb c_bool Pos.eqb]; lia.
Qed.

Lemma flush_suit_ok t l :
  tallied t l → Forall is_card l → NoDup l → (length l ≤ 7)%nat →
  ∃ f, flush_suit_of (suit_counts_ t) = Ok f ∧
    (f = -1 ∧ flush (held l) = None ∨
     0 ≤ f < 4 ∧ (5 ≤ length (ranks (held l f)))%nat ∧ flush (held l) = suit_hand (held l f)).
Proof.
  intros Ht Hl Hnd Hlen. pose proof (suit_total l Hl Hnd) as Htot.
  assert (Hone : ∀ f, 0 ≤ f < 4 → (5 ≤ length (ranks (held l f)))%nat →
    flush (held l) = suit_hand (held l f)).
  { intros f Hf H5. apply flush_one; [|done]. intros s Hs Hne. apply suit_hand_small.
    assert (f = 0 ∨ f = 1 ∨ f = 2 ∨ f = 3) as [->|[->|[->| ->]]] by lia;
    assert (s = 0 ∨ s = 1 ∨ s = 2 ∨ s = 3) as [->|[->|[->| ->]]] by lia; lia. }
  unfold flush_suit_of, forR. change (seqZ 0 (4 - 0)) with [0; 1; 2; 3]. cbn [foldR].
  assert (Hrd : ∀ s, 0 ≤ s < 4 → rd (suit_counts_ t) s = Ok (Z.of_nat (length (ranks (held l s))))).
  { intros s Hs. rewrite rd_ok by (rewrite (t_sc _ _ Ht); lia). by rewrite (t_scount _ _ Ht). }
  rewrite !Hrd by lia. cbn [mbind res_bind].
  destruct (Z.leb_spec 5 (Z.of_nat (length (ranks (held l 0)))));
    [exists 0; split; [done|right]; split_and!; [lia|lia|lia|apply Hone; lia]|].
  cbn [mbind res_bind].
  destruct (Z.leb_spec 5 (Z.of_nat (length (ranks (held l 1)))));
    [exists 1; split; [done|right]; split_and!; [lia|lia|lia|apply Hone; lia]|].
  cbn [mbind res_bind].
  destruct (Z.leb_spec 5 (Z.of_nat (length (ranks (held l 2)))));
    [exists 2; split; [done|right]; split_and!; [lia|lia|lia|apply Hone; lia]|].
  cbn [mbind res_bind].
  destruct (Z.leb_spec 5 (Z.of_nat (length (ranks (held l 3)))));
    [exists 3; split; [done|right]; split_and!; [lia|lia|lia|apply Hone; lia]|].
  exists (-1). split; [done|left]. split; [done|].
  unfold flush. rewrite !suit_hand_small by lia. done.
Qed.

(** ** Straights *)

(** The first [t] below [n + 3] and not below 3 with [p t]. *)
Fixpoint first (p : Z → bool) (n : nat) : option Z :=
  match n with
  | O => None
  | S m => if p (Z.of_nat m + 3) then Some (Z.of_nat m + 3) else first p m
  end.

Lemma straight_top_first has : straight_top has = first (straight_at has) 10.
Proof. unfold straight_top. cbn [List.find first]. reflexivity. Qed.

Lemma first_skip p m n :
  (n ≤ m)%nat → (∀ t, Z.of_nat n + 3 ≤ t < Z.of_nat m + 3 → p t = false) → first p m = first p n.
Proof.
  induction m as [|m IH]; intros Hle Hp; [by destruct n; [|lia]|].
  destruct (decide (n = S m)) as [->|]; [done|]. cbn [first]. rewrite Hp by lia.
  apply IH; [lia|]. intros. apply Hp. lia.
Qed.

Lemma first_top p r : 3 ≤ r → first p (Z.to_nat (r - 2)) =
  if p r then Some r else first p (Z.to_nat (r - 3)).
Proof.
  intros Hr. replace (Z.to_nat (r - 2)) with (S (Z.to_nat (r - 3))) by lia. cbn [first].
  replace (Z.of_nat (Z.to_nat (r - 3)) + 3) with r by lia. done.
Qed.

(** The rank that stands for [x] in a straight. *)
Definition low (x : Z) : Z := if x =? -1 then 12 else x.

Lemma straight_at_low has r : straight_at has r = true ↔ ∀ x, r - 4 ≤ x ≤ r → has (low x) = true.
Proof.
  unfold straight_at. rewrite forallb_seqZ. unfold low. split.
  - intros Hs x Hx. specialize (Hs (r - x) ltac:(lia)). by replace (r - (r - x)) with x in Hs by lia.
  - intros Hs i Hi. apply Hs. lia.
Qed.

(** After the walk down from [r] stopped at the missing rank [r1], no straight
    ends at [r1] or above. *)
Lemma skip_to has r r1 :
  r - 4 ≤ r1 ≤ r → 3 ≤ r → has (low r1) = false →
  first (straight_at has) (Z.to_nat (r - 2)) = first (straight_at has) (Z.to_nat (r1 - 3)).
Proof.
  intros Hr1 Hr Hno. apply first_skip; [lia|]. intros u Hu.
  apply not_true_iff_false. rewrite straight_at_low. intros Hs. rewrite Hs in Hno; [done|lia].
Qed.

Section Straights.
Context (t : Tally) (l : list Z).
Context (Ht : tallied t l) (Hl : Forall is_card l) (Hnd : NoDup l) (Hlen : (length l ≤ 7)%nat).

Definition any (r : Z) : bool := 1 <=? count (held l) r.

Lemma present_ok r1 : -1 ≤ r1 ≤ 12 → present (rank_counts_ t) r1 = Ok (any (low r1)).
Proof.
  intros Hr. unfold present, low, any.
  assert (Hrd : ∀ r, 0 ≤ r < 13 → rd (rank_counts_ t) r = Ok (count (held l) r)).
  { intros r Hr'. rewrite rd_ok by (rewrite (t_rc _ _ Ht); lia). by rewrite (t_rcount _ _ Ht). }
  assert (Hlt : ∀ n, (0 <? n) = (1 <=? n)).
  { intros n. destruct (Z.ltb_spec 0 n), (Z.leb_spec 1 n); try done; lia. }
  destruct (Z.ltb_spec (-1) r1).
  - rewrite Hrd by lia. cbn. by rewrite (proj2 (Z.eqb_neq r1 (-1))), Hlt by lia.
  - replace r1 with (-1) by lia. rewrite Z.eqb_refl, Hrd by lia. cbn. by rewrite Hlt.
Qed.

Lemma down_ok end_ : -1 ≤ end_ → ∀ fuel r1,
  end_ - 1 ≤ r1 ≤ 12 → r1 - end_ + 1 ≤ Z.of_nat fuel →
  ∃ r1', down fuel (rank_counts_ t) r1 end_ = Ok r1' ∧ end_ - 1 ≤ r1' ≤ r1 ∧
    (∀ x, r1' < x ≤ r1 → any (low x) = true) ∧ (end_ ≤ r1' → any (low r1') = false).
Proof.
  intros He. induction fuel as [|fuel IH]; intros r1 Hr Hf; cbn [down].
  - destruct (Z.leb_spec end_ r1); [lia|]. exists r1. split_and!; try done; try lia.
  - destruct (Z.leb_spec end_ r1); cbn [negb].
    + rewrite present_ok by lia. cbn. destruct (any (low r1)) eqn:E.
      * destruct (IH (r1 - 1)) as (r1' & E' & Hb & Hall & Hno); [lia|lia|]. exists r1'.
        split_and!; [done|lia|lia| |done]. intros x Hx. destruct (decide (x = r1)) as [->|]; [done|].
        apply Hall. lia.
      * exists r1. split_and!; try done; try lia.
    + exists r1. split_and!; try done; try lia.
Qed.

(** The straights found from [r] downwards, without a flush suit. *)
Lemma straights_none fuel : ∀ r sr,
  3 ≤ r ≤ 12 → r - 2 ≤ Z.of_nat fuel →
  straights fuel t (Z.of_nat (length l)) (-1) r sr =
    Ok (inl (default sr (first (straight_at any) (Z.to_nat (r - 2))))).
Proof.
  induction fuel as [|fuel IH]; intros r sr Hr Hf; [lia|]. cbn [straights].
  destruct (down_ok (r - 4) ltac:(lia) 5 r) as (r1 & E & Hb & Hall & Hno); [lia|lia|].
  rewrite E. cbn [mbind res_bind]. destruct (Z.eqb_spec r1 (r - 4 - 1)) as [->|Hne].
  - cbn. rewrite first_top by lia.
    assert (straight_at any r = true) as -> by (apply straight_at_low; intros; apply Hall; lia). done.
  - rewrite (skip_to any r r1) by (try lia; apply Hno; lia).
    destruct (Z.ltb_spec (r1 - 1) 3).
    + replace (Z.to_nat (r1 - 3)) with O by lia. done.
    + rewrite IH by lia. by replace (r1 - 1 - 2) with (r1 - 3) by lia.
Qed.

Lemma held_any f r : 0 ≤ f < 4 → 0 ≤ r < 13 → held l f r = true → any r = true.
Proof.
  intros Hf Hr Hh. unfold any, count. apply Z.leb_le.
  assert (f = 0 ∨ f = 1 ∨ f = 2 ∨ f = 3) as [->|[->|[->| ->]]] by lia; rewrite Hh;
    unfold c_bool; repeat case_match; lia.
Qed.

(** With a flush suit: a straight flush is found if there is one. *)
Lemma straights_flush f fuel : 0 ≤ f < 4 → ∀ r sr,
  3 ≤ r ≤ 12 → r - 2 ≤ Z.of_nat fuel → -1 ≤ sr →
  straights fuel t (Z.of_nat (length l)) f r sr =
    Ok (match first (straight_at (held l f)) (Z.to_nat (r - 2)) with
        | Some u => inr (kStraightFlush + u)
        | None => inl (if sr =? -1 then default (-1) (first (straight_at any) (Z.to_nat (r - 2))) else sr)
        end).
Proof.
  intros Hf. induction fuel as [|fuel IH]; intros r sr Hr Hfu Hsr; [lia|]. cbn [straights].
  destruct (down_ok (r - 4) ltac:(lia) 5 r) as (r1 & E & Hb & Hall & Hno); [lia|lia|].
  rewrite E. cbn [mbind res_bind]. destruct (Z.eqb_spec r1 (r - 4 - 1)) as [->|Hne].
  - rewrite (proj2 (Z.leb_le 0 f)), suited_ok, window_suited by (done || lia).
    cbn [mbind res_bind]. rewrite <-straight_at_window.
    rewrite (first_top (straight_at (held l f))) by lia. rewrite (first_top (straight_at any)) by lia.
    assert (straight_at any r = true) as -> by (apply straight_at_low; intros; apply Hall; lia).
    destruct (straight_at (held l f) r); [done|]. cbn [default from_option].
    destruct (Z.ltb_spec (r - 1) 3).
    + replace (Z.to_nat (r - 3)) with O by lia. done.
    + rewrite IH by (try lia; destruct (sr =? -1); lia).
      replace (r - 1 - 2) with (r - 3) by lia.
      destruct (first (straight_at (held l f)) _); [done|].
      destruct (Z.eqb_spec sr (-1)) as [->|]; cbn [id].
      * by rewrite (proj2 (Z.eqb_neq r (-1))) by lia.
      * by rewrite (proj2 (Z.eqb_neq sr (-1))) by lia.
  - assert (Hnf : held l f (low r1) = false).
    { apply not_true_iff_false. intros Hh. apply held_any in Hh; [|done|unfold low; destruct (Z.eqb_spec r1 (-1)); lia].
      rewrite Hno in Hh by lia. done. }
    rewrite (skip_to any r r1) by (try lia; apply Hno; lia). rewrite (skip_to (held l f) r r1) by (done || lia).
    destruct (Z.ltb_spec (r1 - 1) 3).
    + replace (Z.to_nat (r1 - 3)) with O by lia. cbn. by destruct (Z.eqb_spec sr (-1)) as [->|].
    + rewrite IH by lia. by replace (r1 - 1 - 2) with (r1 - 3) by lia.
Qed.
End Straights.

(** ** Groups of equal ranks *)
Definition group_step (ct : Z → Z) (st : Z * Z * Z) (r : Z) : Z * Z * Z :=
  let '(three_rank, pair_rank, pair2_rank) := st in
  if ct r =? 3 then
    if three_rank =? -1 then (r, pair_rank, pair2_rank)
    else if pair_rank =? -1 then (three_rank, r, pair2_rank)
    else (three_rank, pair_rank, pair2_rank)
  else if ct r =? 2 then
    if pair_rank =? -1 then (three_rank, r, pair2_rank)
    else if pair2_rank =? -1 then (three_rank, pair_rank, r)
    else (three_rank, pair_rank, pair2_rank)
  else (three_rank, pair_rank, pair2_rank).

Lemma without_app r l l' : without r (l ++ l') = without r l ++ without r l'.
Proof. apply List.filter_app. Qed.

Lemma without_none r l : r ∉ l → without r l = l.
Proof.
  induction l as [|x l IH]; [done|]. intros [Hx Hl]%not_elem_of_cons. unfold without in *. cbn.
  rewrite (proj2 (Z.eqb_neq x r)) by done. cbn. by rewrite IH.
Qed.

Lemma hd_filter_nonneg f (D : list Z) :
  Forall (λ r, 0 ≤ r) D → hd (-1) (List.filter f D) = -1 ↔ List.filter f D = [].
Proof.
  intros HD. split; [|by intros ->]. destruct (List.filter f D) as [|x l'] eqn:E; [done|]. cbn. intros ->.
  assert (In (-1) (List.filter f D)) as [Hin _]%filter_In by (rewrite E; by left).
  rewrite List.Forall_forall in HD. specialize (HD (-1) Hin). lia.
Qed.

Lemma filter_in f (D : list Z) x : x ∈ List.filter f D → x ∈ D.
Proof. rewrite !list_elem_of_In, filter_In. tauto. Qed.

Lemma groups_fold (ct : Z → Z) D :
  Forall (λ r, 0 ≤ r) D → NoDup D → (∀ r, r ∈ D → ct r ≤ 3) →
  let '(th, p, p2) := fold_left (group_step ct) D (-1, -1, -1) in
  let L3 := List.filter (λ r, 3 <=? ct r) D in
  let L2 := List.filter (λ r, 2 <=? ct r) D in
  th = hd (-1) L3 ∧ p = hd (-1) (without th L2) ∧ (L3 = [] → p2 = hd (-1) (tl L2)).
Proof.
  induction D as [|x D IH] using rev_ind; intros HD Hnd Hct; [done|].
  apply Forall_app in HD as [HD Hx]. rewrite Forall_singleton in Hx.
  apply list.NoDup_app in Hnd as (Hnd & Hdis & _).
  assert (HxD : x ∉ D) by (intros Hin; apply (Hdis x Hin); left).
  specialize (IH HD Hnd (λ r Hr, Hct r (proj2 (elem_of_app _ _ _) (or_introl Hr)))).
  specialize (Hct x ltac:(apply elem_of_app; right; left)).
  rewrite fold_left_app. cbn [fold_left]. rewrite !List.filter_app. cbn [List.filter].
  destruct (fold_left (group_step ct) D (-1, -1, -1)) as [[th p] p2]. cbn [group_step].
  destruct IH as (-> & -> & Hp2).
  assert (HL3 := hd_filter_nonneg (λ r, 3 <=? ct r) D HD).
  assert (Hx2 : x ∉ List.filter (λ r, 2 <=? ct r) D) by (by intros ?%filter_in).
  assert (Hn2 : ∀ y, y ∈ List.filter (λ r, 2 <=? ct r) D → 0 ≤ y).
  { intros y Hy%filter_in%list_elem_of_In. rewrite List.Forall_forall in HD. by apply HD. }
  assert (Hw2 : ∀ y, hd (-1) (without y (List.filter (λ r, 2 <=? ct r) D)) = -1 →
     without y (List.filter (λ r, 2 <=? ct r) D) = []).
  { intros y. destruct (without y _) as [|z l'] eqn:E; [done|]. cbn. intros ->.
    assert (-1 ∈ without y (List.filter (λ r, 2 <=? ct r) D)) as Hin%filter_in by (rewrite E; left).
    specialize (Hn2 _ Hin). lia. }
  assert (Hxne : hd (-1) (List.filter (λ r, 3 <=? ct r) D) ≠ x).
  { destruct (List.filter (λ r, 3 <=? ct r) D) as [|z l'] eqn:E; cbn; [lia|]. intros ->.
    apply HxD. apply (filter_in (λ r, 3 <=? ct r)). rewrite E. left. }
  set (L3 := List.filter (λ r, 3 <=? ct r) D) in *. set (L2 := List.filter (λ r, 2 <=? ct r) D) in *.
  clearbody L3 L2.
  destruct (Z.eqb_spec (ct x) 3) as [E3|N3]; [|destruct (Z.eqb_spec (ct x) 2) as [E2|N2]].
  - rewrite E3. cbn [Z.leb Z.compare Pos.compare Pos.compare_cont].
    destruct (Z.eqb_spec (hd (-1) L3) (-1)) as [Eh|Nh].
    + apply HL3 in Eh. rewrite Eh. cbn [hd app]. split_and!; [done| |done].
      assert (without x [x] = []) as Exx by (unfold without; cbn; by rewrite Z.eqb_refl).
      rewrite without_app, Exx, app_nil_r, (without_none x) by done.
      rewrite without_none; [done|]. intros Hin%Hn2. lia.
    + assert (hd (-1) (L3 ++ [x]) = hd (-1) L3) as E by (destruct L3; [done|done]).
      assert (without (hd (-1) L3) [x] = [x]) as Ew by (apply without_none; by intros ?%list_elem_of_singleton).
      destruct (Z.eqb_spec (hd (-1) (without (hd (-1) L3) L2)) (-1)) as [Ep|Np].
      * rewrite E, without_app, (Hw2 _ Ep), Ew. split_and!; [done|done|]. intros EL. destruct L3; done.
      * rewrite E, without_app, Ew. split_and!; [done| |intros EL; destruct L3; done].
        by destruct (without (hd (-1) L3) L2).
  - rewrite E2. cbn [Z.leb Z.compare Pos.compare Pos.compare_cont]. rewrite app_nil_r.
    assert (without (hd (-1) L3) [x] = [x]) as Ew by (apply without_none; by intros ?%list_elem_of_singleton).
    destruct (Z.eqb_spec (hd (-1) (without (hd (-1) L3) L2)) (-1)) as [Ep|Np].
    + rewrite without_app, (Hw2 _ Ep), Ew. split_and!; [done|done|]. intros EL. rewrite EL in *. cbn [hd] in *.
      rewrite without_none in Ep by (intros Hin%Hn2; lia).
      specialize (Hp2 eq_refl). destruct L2 as [|a L2']; [done|]. cbn in Ep. subst a.
      specialize (Hn2 (-1) ltac:(left)). lia.
    + assert (hd (-1) (without (hd (-1) L3) L2 ++ [x]) = hd (-1) (without (hd (-1) L3) L2)) as E
        by (by destruct (without (hd (-1) L3) L2)).
      destruct (Z.eqb_spec p2 (-1)) as [->|Hp].
      * rewrite without_app, Ew, E. split_and!; [done|done|]. intros EL. rewrite EL in *. cbn [hd] in *.
        rewrite without_none in Np by (intros Hin%Hn2; lia). specialize (Hp2 eq_refl).
        destruct L2 as [|a [|b L2']]; [done|done|]. cbn in Hp2. subst b.
        specialize (Hn2 (-1) ltac:(right; left)). lia.
      * rewrite without_app, Ew, E. split_and!; [done|done|]. intros EL. rewrite EL in *. cbn [hd] in *.
        specialize (Hp2 eq_refl). destruct L2 as [|a [|b L2']]; [done|done|]. done.
  - assert ((3 <=? ct x) = false) as -> by (apply Z.leb_gt; lia).
    assert ((2 <=? ct x) = false) as -> by (apply Z.leb_gt; lia).
    rewrite !app_nil_r. done.
Qed.

(** A loop that may return: the elements before the first that does. *)
Lemma foldR_prefix {A S R} (body : A → S → res (S + R)) (g : S → A → S) A1 A2 : ∀ s,
  (∀ x s, x ∈ A1 → body x s = Ok (inl (g s x))) →
  foldR body (A1 ++ A2) s = foldR body A2 (fold_left g A1 s).
Proof.
  induction A1 as [|x A1 IH]; intros s Hb; [done|]. cbn. rewrite Hb by left. cbn.
  apply IH. intros. apply Hb. by right.
Qed.

Lemma filter_first {A} (f : A → bool) L r l' :
  List.filter f L = r :: l' → ∃ A1 A2, L = A1 ++ r :: A2 ∧ f r = true ∧ ∀ x, x ∈ A1 → f x = false.
Proof.
  induction L as [|a L IH]; [done|]. cbn. destruct (f a) eqn:E.
  - intros [= -> _]. exists [], L. split_and!; [done..|]. by intros x ?%not_elem_of_nil.
  - intros Hf. destruct (IH Hf) as (A1 & A2 & -> & Hr & Hn). exists (a :: A1), A2.
    split_and!; [done..|]. intros x [->|Hx]%elem_of_cons; auto.
Qed.

Section Groups.
Context (t : Tally) (l : list Z).
Context (Ht : tallied t l) (Hl : Forall is_card l) (Hnd : NoDup l) (Hlen : (length l ≤ 7)%nat).
Abbreviation c := (held l).

Lemma ranks_down_all r : r ∈ ranks_down ↔ 0 ≤ r < 13.
Proof. apply (all_ranks_elem r). Qed.

(** The body of the loop on a rank held by fewer than four cards. *)
Lemma groups_quads r l' :
  atLeast c 4 = r :: l' →
  groups t (Z.of_nat (length l)) =
    Ok (inr (kQuads + r * 13 + base13 (scan_high (λ _ r1, negb (r1 =? r)) 1 l))).
Proof.
  intros E. destruct (filter_first _ _ _ _ E) as (A1 & A2 & EA & Hr & Hn).
  unfold groups. change ranks_down with all_ranks. rewrite EA.
  assert (HA1 : ∀ x, x ∈ A1 → 0 ≤ x < 13).
  { intros x Hx. apply all_ranks_elem. rewrite EA. apply elem_of_app. by left. }
  assert (Hr13 : 0 ≤ r < 13) by (apply all_ranks_elem; rewrite EA; apply elem_of_app; right; left).
  rewrite (foldR_prefix _ (group_step (count c)) A1).
  - cbn [foldR]. destruct (fold_left (group_step (count c)) A1 (-1, -1, -1)) as [[th p] p2].
    rewrite rd_ok by (rewrite (t_rc _ _ Ht); lia). cbn [mbind res_bind].
    rewrite (t_rcount _ _ Ht) by done. apply Z.leb_le in Hr. pose proof (count_range c r).
    rewrite (proj2 (Z.eqb_eq (count c r) 4)) by lia. by rewrite (highest_ok _ _ _ l) by done.
  - intros x [[th p] p2] Hx. specialize (HA1 x Hx). specialize (Hn x Hx). apply Z.leb_gt in Hn.
    rewrite rd_ok by (rewrite (t_rc _ _ Ht); lia). cbn [mbind res_bind].
    rewrite (t_rcount _ _ Ht) by done. rewrite (proj2 (Z.eqb_neq (count c x) 4)) by lia.
    cbn [group_step]. by destruct (count c x =? 3), (count c x =? 2).
Qed.

Lemma groups_none :
  atLeast c 4 = [] →
  ∃ th p p2, groups t (Z.of_nat (length l)) = Ok (inl (th, p, p2)) ∧
    th = hd (-1) (atLeast c 3) ∧ p = hd (-1) (without th (atLeast c 2)) ∧
    (atLeast c 3 = [] → p2 = hd (-1) (tl (atLeast c 2))).
Proof.
  intros E. unfold groups. change ranks_down with all_ranks.
  assert (Hn : ∀ x, x ∈ all_ranks → count c x ≤ 3).
  { intros x Hx. destruct (Z.leb_spec 4 (count c x)) as [H4|]; [|lia].
    assert (x ∈ atLeast c 4) as Hin by (unfold atLeast; rewrite ranks_elem, Z.leb_le; split; [by apply all_ranks_elem|done]).
    rewrite E in Hin. by apply not_elem_of_nil in Hin. }
  pose proof (groups_fold (count c) all_ranks) as Hg.
  rewrite <-(app_nil_r all_ranks), (foldR_prefix _ (group_step (count c)) all_ranks).
  - destruct (fold_left (group_step (count c)) all_ranks (-1, -1, -1)) as [[th p] p2].
    exists th, p, p2. split; [done|]. apply Hg; [| |done].
    + apply List.Forall_forall. intros x Hx. apply list_elem_of_In, all_ranks_elem in Hx. lia.
    + apply (bool_decide_unpack _). vm_compute. exact I.
  - intros x [[th p] p2] Hx. specialize (Hn x Hx). apply all_ranks_elem in Hx.
    rewrite rd_ok by (rewrite (t_rc _ _ Ht); lia). cbn [mbind res_bind].
    rewrite (t_rcount _ _ Ht) by done. rewrite (proj2 (Z.eqb_neq (count c x) 4)) by lia.
    cbn [group_step]. by destruct (count c x =? 3), (count c x =? 2).
Qed.

(** ** The ranks of the cards kept *)
Lemma held_in x : is_card x → held l (Suit x) (Rank x) = true ↔ x ∈ l.
Proof.
  intros Hx. destruct (card_split x Hx) as (_ & _ & E). unfold held. rewrite existsb_exists, list_elem_of_In.
  rewrite <-E. split; [|exists x; by rewrite Z.eqb_refl]. intros (y & Hy & <-%Z.eqb_eq). done.
Qed.

Lemma same_rank_pair x y :
  x ∈ l → y ∈ l → Rank x = Rank y → x ≠ y → 2 ≤ count c (Rank x).
Proof.
  intros Hx Hy Er Hne. rewrite List.Forall_forall in Hl.
  pose proof (Hl x (proj1 (list_elem_of_In _ _) Hx)) as Cx. pose proof (Hl y (proj1 (list_elem_of_In _ _) Hy)) as Cy.
  destruct (card_split x Cx) as (_ & Sx & Ex). destruct (card_split y Cy) as (_ & Sy & Ey).
  assert (Suit x ≠ Suit y) by congruence.
  apply held_in in Hx; [|done]. apply held_in in Hy; [|done]. rewrite <-Er in Hy. unfold count.
  assert (Suit x = 0 ∨ Suit x = 1 ∨ Suit x = 2 ∨ Suit x = 3) as [E|[E|[E|E]]] by lia;
  assert (Suit y = 0 ∨ Suit y = 1 ∨ Suit y = 2 ∨ Suit y = 3) as [E'|[E'|[E'|E']]] by lia;
  try congruence; rewrite E in Hx; rewrite E' in Hy; rewrite Hx, Hy; unfold c_bool; repeat case_match; lia.
Qed.

Lemma any_card r : 0 ≤ r < 13 → 1 ≤ count c r ↔ ∃ x, x ∈ l ∧ Rank x = r.
Proof.
  intros Hr. split.
  - intros H1. unfold count in H1.
    assert (∃ s, 0 ≤ s < 4 ∧ c s r = true) as (s & Hs & E).
    { destruct (c 0 r) eqn:E0; [exists 0; split; [lia|done]|]. destruct (c 1 r) eqn:E1; [exists 1; split; [lia|done]|].
      destruct (c 2 r) eqn:E2; [exists 2; split; [lia|done]|]. destruct (c 3 r) eqn:E3; [exists 3; split; [lia|done]|].
      cbn in H1. lia. }
    unfold held in E. apply existsb_exists in E as (x & Hx & <-%Z.eqb_eq). exists (4 * r + s).
    split; [by apply list_elem_of_In|]. unfold Rank, NumSuits. rewrite Z.quot_div_nonneg by lia.
    symmetry. apply (Z.div_unique _ _ _ s); lia.
  - intros (x & Hx & <-). rewrite List.Forall_forall in Hl.
    pose proof (Hl x (proj1 (list_elem_of_In _ _) Hx)) as Cx. destruct (card_split x Cx) as (_ & Sx & _).
    apply held_in in Hx; [|done]. apply Z.leb_le. by eapply held_any.
Qed.

Lemma kept_ranks (p : Z → bool) :
  ranks (kept_rank (λ _ r, p r) l) = List.filter p (atLeast c 1).
Proof.
  unfold atLeast, ranks. rewrite filter_filter_and. apply List.filter_ext_in. intros r Hr.
  apply list_elem_of_In, all_ranks_elem in Hr. apply Bool.eq_iff_eq_true.
  rewrite andb_true_iff, Z.leb_le, (any_card r Hr). unfold kept_rank. rewrite existsb_exists. split.
  - intros (x & Hx & [Hp E%Z.eqb_eq]%andb_true_iff). unfold kept in Hp. rewrite E in Hp.
    split; [|done]. exists x. by rewrite list_elem_of_In.
  - intros [(x & Hx & E) Hp]. exists x. rewrite list_elem_of_In in Hx. split; [done|].
    unfold kept. by rewrite E, Hp, Z.eqb_refl.
Qed.

(** Kickers of ranks held once. *)
Lemma highest_singles (p : Z → bool) k :
  (∀ r, 0 ≤ r < 13 → p r = true → count c r ≤ 1) →
  scan_high (λ _ r, p r) k l = pad k (List.filter p (atLeast c 1)).
Proof.
  intros Hp. rewrite scan_high_spec, kept_ranks; try done.
  intros x y Hx Hy Px _ Er. destruct (decide (x = y)) as [|Hne]; [done|].
  pose proof (same_rank_pair x y Hx Hy Er Hne). rewrite List.Forall_forall in Hl.
  pose proof (Hl x (proj1 (list_elem_of_In _ _) Hx)) as Cx. destruct (card_split x Cx) as (Rx & _ & _).
  unfold kept in Px. apply Is_true_eq_true in Px. specialize (Hp _ Rx Px). lia.
Qed.

(** Kickers of the flush suit. *)
Lemma highest_suit f k : 0 ≤ f < 4 →
  scan_high (λ s _, s =? f) k l = pad k (ranks (c f)).
Proof.
  intros Hf. rewrite scan_high_spec; try done.
  - f_equal. apply ranks_ext. intros r Hr. apply Bool.eq_iff_eq_true. unfold kept_rank, held.
    rewrite !existsb_exists. split.
    + intros (x & Hx & [E1%Z.eqb_eq E2%Z.eqb_eq]%andb_true_iff). exists x. split; [done|].
      rewrite List.Forall_forall in Hl. destruct (card_split x (Hl x Hx)) as (_ & _ & E).
      rewrite <-E1, <-E2. by apply Z.eqb_eq.
    + intros (x & Hx & E%Z.eqb_eq). exists x. split; [done|]. rewrite List.Forall_forall in Hl.
      destruct (card_split x (Hl x Hx)) as (Rx & Sx & Ex). unfold kept.
      apply andb_true_iff. rewrite !Z.eqb_eq. lia.
  - intros x y Hx Hy Kx Ky Er. rewrite List.Forall_forall in Hl. rewrite list_elem_of_In in Hx, Hy.
    destruct (card_split x (Hl x Hx)) as (_ & _ & Ex). destruct (card_split y (Hl y Hy)) as (_ & _ & Ey).
    unfold kept in Kx, Ky. apply Is_true_eq_true, Z.eqb_eq in Kx, Ky. congruence.
Qed.
End Groups.

(** The highest single kicker, of any ranks. *)
Lemma highest_one keep l :
  Forall is_card l → scan_high keep 1 l = pad 1 (ranks (kept_rank keep l)).
Proof.
  induction l as [|x l IH] using rev_ind; intros Hl; [done|].
  apply Forall_app in Hl as [Hl Hx]. rewrite Forall_singleton in Hx.
  unfold scan_high. rewrite fold_left_app. cbn [fold_left]. fold (scan_high keep 1 l). rewrite IH by done.
  assert (Hk : ∀ r, kept_rank keep (l ++ [x]) r = kept_rank keep l r || (kept keep x && (Rank x =? r))).
  { intros r. unfold kept_rank. rewrite existsb_app. cbn. by rewrite orb_false_r. }
  destruct (card_split x Hx) as (Hr & _ & _).
  destruct (kept keep x) eqn:Ek; [|f_equal; apply ranks_ext; intros r _; rewrite Hk; cbn; by rewrite orb_false_r].
  rewrite shift_in_pad by lia. destruct (kept_rank keep l (Rank x)) eqn:Eo.
  - rewrite (ranks_ext (kept_rank keep (l ++ [x])) (kept_rank keep l)).
    + assert (Rank x ∈ ranks (kept_rank keep l)) as Hin by (by apply ranks_elem).
      pose proof (desc_ranks (kept_rank keep l)) as Hd.
      destruct (ranks (kept_rank keep l)) as [|h t]; [by apply not_elem_of_nil in Hin|].
      destruct Hd as [Hh Hd]. cbn [ins]. destruct (Z.ltb_spec h (Rank x)); [|done].
      apply elem_of_cons in Hin as [E|Hin]; [lia|]. pose proof (desc_elem _ _ _ Hd Hin). lia.
    + intros r _. rewrite Hk. destruct (Z.eqb_spec (Rank x) r) as [<-|]; rewrite ?Eo; [done|].
      by rewrite andb_false_r, orb_false_r.
  - f_equal. symmetry. apply ranks_ins; [done..|]. intros r. rewrite Hk. cbn. by rewrite (Z.eqb_sym r).
Qed.

Lemma ncards_length l : Forall is_card l → NoDup l → ncards (held l) = Z.of_nat (length l).
Proof.
  induction l as [|x l IH] using rev_ind; intros Hl Hnd; [done|].
  apply Forall_app in Hl as [Hl Hx]. rewrite Forall_singleton in Hx.
  apply list.NoDup_app in Hnd as (Hnd & Hdis & _).
  assert (Hxl : x ∉ l) by (intros Hin; apply (Hdis x Hin); left).
  specialize (IH Hl Hnd). rewrite length_app. cbn [length]. revert IH. unfold ncards.
  cbn [all_ranks foldr]. rewrite !(count_snoc l x) by (done || lia). destruct (card_split x Hx) as (Hr & _ & _).
  assert (foldr (λ r a, c_bool (Rank x =? r) + a) 0 all_ranks = 1) as H1.
  { assert (Hall : forallb (λ y, foldr (λ r a, c_bool (y =? r) + a) 0 all_ranks =? 1) (seqZ 0 13) = true)
      by (vm_compute; reflexivity).
    rewrite forallb_seqZ in Hall. apply Z.eqb_eq, Hall. lia. }
  cbn [all_ranks foldr] in H1. lia.
Qed.

(** ** The number of a hand *)
Definition scode (h : hand) : Z :=
  match h with
  | HighCard ks => kNoPair + base13 ks
  | Pair r ks => kPair + r * 2197 + base13 ks
  | TwoPair r1 r2 k => kTwoPair + r1 * 169 + r2 * 13 + k
  | Trips r ks => kThreeOfAKind + r * 169 + base13 ks
  | Straight t => kStraight + t
  | Flush ks => kFlush + base13 ks
  | FullHouse r p => kFullHouse + r * 13 + p
  | Quads r k => kQuads + r * 13 + k
  | StraightFlush t => kStraightFlush + t
  end.

Lemma base13_one L : L ≠ [] → base13 (pad 1 L) = hd 0 L.
Proof. by destruct L. Qed.

Section Result.
Context (t : Tally) (l : list Z).
Context (Ht : tallied t l) (Hl : Forall is_card l) (Hnd : NoDup l) (H5 : (5 ≤ length l ≤ 7)%nat).
Abbreviation c := (held l).
Abbreviation n := (Z.of_nat (length l)).

(** The flush suit found and what it means. *)
Definition flush_is (fs : Z) : Prop :=
  fs = -1 ∧ flush c = None ∨
  0 ≤ fs < 4 ∧ (5 ≤ length (ranks (c fs)))%nat ∧ flush c = Some (Flush (take 5 (ranks (c fs)))).

Lemma ncards_five : 5 ≤ ncards c.
Proof. rewrite ncards_length by done. lia. Qed.

(** Below a full house: the flush, then the straight, then the rest. *)
Lemma finish_below fs th p p2 o :
  flush_is fs → (0 <=? th) && (0 <=? p) = false →
  (flush c = None → straight c = None → finish t n (-1) (-1) th p p2 = Ok (scode o)) →
  finish t n fs (default (-1) (straight c)) th p p2 = Ok (scode (below_fullhouse c o)).
Proof.
  intros Hfs Hfh Ho. unfold below_fullhouse. destruct Hfs as [[-> E]|(Hfs & Hlen & E)]; rewrite E.
  - destruct (straight c) as [u|] eqn:Es; [|by apply Ho].
    pose proof (straight_top_range _ _ Es) as [Hu _]. unfold finish. rewrite Hfh. cbn [default from_option id].
    change (0 <=? -1) with false. cbn iota. by rewrite (proj2 (Z.leb_le 0 u)) by lia.
  - unfold finish. rewrite Hfh, (proj2 (Z.leb_le 0 fs)) by lia.
    rewrite (highest_ok _ _ _ l), highest_suit, pad_full by (done || lia). done.
Qed.

Lemma result_trips fs r l3 p2 :
  flush_is fs → atLeast c 4 = [] → atLeast c 3 = r :: l3 → without r (atLeast c 2) = [] →
  finish t n fs (default (-1) (straight c)) r (-1) p2 = Ok (scode (sets_hand c)).
Proof.
  intros Hfs E4 E3 E2. pose proof (sets_five c ncards_five) as Hfive.
  pose proof (atLeast_desc c 3) as D3. rewrite E3 in D3. destruct D3 as [Hr _].
  unfold sets_hand in *. rewrite E4, E3, E2 in *. apply finish_below; [done|by rewrite andb_false_r|].
  intros Ef Es. unfold below_fullhouse in Hfive. rewrite Ef, Es in Hfive. cbn [five] in Hfive.
  destruct Hfive as (_ & _ & Hlen2). rewrite length_take in Hlen2.
  unfold finish. rewrite andb_false_r, (proj2 (Z.leb_le 0 r)) by lia. change (0 <=? -1) with false. cbn iota.
  assert (Hone : ∀ r1, 0 ≤ r1 < 13 → negb (r1 =? r) = true → count c r1 ≤ 1).
  { intros r1 Hr1 Hne. destruct (Z.leb_spec 2 (count c r1)) as [H2|]; [|lia].
    assert (r1 ∈ without r (atLeast c 2)) as Hin.
    { apply list_elem_of_In, filter_In. split; [|done].
      apply list_elem_of_In, ranks_elem. split; [done|by apply Z.leb_le]. }
    rewrite E2 in Hin. by apply not_elem_of_nil in Hin. }
  rewrite (highest_ok _ _ _ l), (highest_singles l Hl Hnd) by (done || lia).
  fold (without r (atLeast c 1)). rewrite pad_full by lia. done.
Qed.

Lemma result_pairs fs p2 :
  flush_is fs → atLeast c 4 = [] → atLeast c 3 = [] → p2 = hd (-1) (tl (atLeast c 2)) →
  finish t n fs (default (-1) (straight c)) (-1) (hd (-1) (atLeast c 2)) p2 = Ok (scode (sets_hand c)).
Proof.
  intros Hfs E4 E3 ->. pose proof (sets_five c ncards_five) as Hfive.
  pose proof (ncards_sets c) as Hn. rewrite ncards_length, E3, E4 in Hn by done. cbn [length] in Hn.
  unfold sets_hand in *. rewrite E4, E3 in *. apply finish_below; [done|done|].
  intros Ef Es. unfold below_fullhouse in Hfive. rewrite Ef, Es in Hfive.
  unfold pairs_hand in *. pose proof (atLeast_desc c 2) as D2. pose proof (atLeast_desc c 1) as D1.
  assert (Hone : ∀ r, 0 ≤ r < 13 → r ∉ atLeast c 2 → count c r ≤ 1).
  { intros r Hr Hn2. destruct (Z.leb_spec 2 (count c r)); [|lia]. exfalso. apply Hn2.
    apply ranks_elem. split; [done|by apply Z.leb_le]. }
  unfold finish. change (0 <=? -1) with false. cbn [andb]. cbn iota.
  destruct (atLeast c 2) as [|r1 [|r2 l2]] eqn:E2; cbn [hd tl] in *.
  - change (0 <=? -1) with false. cbn iota. cbn [five] in Hfive. rewrite length_take in Hfive.
    assert (Hs : ∀ r, 0 ≤ r < 13 → true = true → count c r ≤ 1) by (intros r Hr _; by apply Hone, not_elem_of_nil).
    rewrite (highest_ok _ _ _ l), (highest_singles l Hl Hnd ltac:(lia) (λ _, true)) by (done || lia).
    assert (List.filter (λ _, true) (atLeast c 1) = atLeast c 1) as ->.
    { clear. induction (atLeast c 1); cbn; congruence. }
    rewrite pad_full by lia. done.
  - destruct D2 as [Hr1 _]. change (0 <=? -1) with false. cbn iota. rewrite (proj2 (Z.leb_le 0 r1)) by lia.
    cbn [five] in Hfive. rewrite length_take in Hfive.
    assert (Hs : ∀ r, 0 ≤ r < 13 → negb (r =? r1) = true → count c r ≤ 1).
    { intros r Hr Hne. apply Hone; [done|]. intros ->%list_elem_of_singleton. by rewrite Z.eqb_refl in Hne. }
    rewrite (highest_ok _ _ _ l), (highest_singles l Hl Hnd) by (done || lia).
    fold (without r1 (atLeast c 1)). rewrite pad_full by lia. done.
  - destruct D2 as (Hr1 & Hr2 & D2). rewrite (proj2 (Z.leb_le 0 r2)) by lia.
    rewrite (highest_ok _ _ _ l), highest_one, (kept_ranks l Hl) by (done || lia).
    assert (List.filter (λ r, negb (r =? r1) && negb (r =? r2)) (atLeast c 1) = without r2 (without r1 (atLeast c 1))) as ->.
    { unfold without. clear. induction (atLeast c 1) as [|a A IH]; [done|]. cbn.
      destruct (a =? r1); cbn; [done|]. destruct (a =? r2); cbn; [done|]. by rewrite IH. }
    cbn [mbind res_bind]. rewrite base13_one; [done|]. intros Ew.
    pose proof (without_length 13 r1 _ D1). pose proof (without_length 13 r2 _ (without_desc 13 r1 _ D1)) as L2.
    rewrite Ew in L2. cbn [length] in *.
    destruct l2 as [|x l2]; [cbn [length] in *; lia|].
    assert (x ∈ without r2 (without r1 (atLeast c 1))) as Hin; [|rewrite Ew in Hin; by apply not_elem_of_nil in Hin].
    unfold without. rewrite !list_elem_of_In, !filter_In, <-list_elem_of_In.
    rewrite (proj2 (Z.eqb_neq x r1)), (proj2 (Z.eqb_neq x r2)) by (destruct D2 as [Hx _]; lia).
    split_and!; [|done..]. apply (atLeast_sub c 1 2); [lia|]. rewrite E2. right. right. left.
Qed.

(** Quads, full houses and what is below them. *)
Lemma groups_result fs :
  flush_is fs →
  (o ← groups t n;
   match o with
   | inr v => Ok v
   | inl (th, p, p2) => finish t n fs (default (-1) (straight c)) th p p2
   end) = Ok (scode (sets_hand c)).
Proof.
  intros Hfs. destruct (atLeast c 4) as [|r l4] eqn:E4.
  - destruct (groups_none t l Ht ltac:(lia) E4) as (th & p & p2 & E & -> & -> & Hp2). rewrite E. cbn [mbind res_bind].
    destruct (atLeast c 3) as [|r l3] eqn:E3; cbn [hd].
    + assert (without (-1) (atLeast c 2) = atLeast c 2) as ->.
      { apply without_none. unfold atLeast. rewrite ranks_elem. lia. }
      apply result_pairs; auto.
    + pose proof (atLeast_desc c 3) as D3. rewrite E3 in D3. destruct D3 as [Hr _].
      destruct (without r (atLeast c 2)) as [|p l'] eqn:Ew; cbn [hd]; [by eapply result_trips|].
      pose proof (without_desc 13 r _ (atLeast_desc c 2)) as Dw. rewrite Ew in Dw. destruct Dw as [Hp _].
      unfold finish, sets_hand. rewrite E4, E3, Ew, (proj2 (Z.leb_le 0 r)), (proj2 (Z.leb_le 0 p)) by lia. done.
  - rewrite (groups_quads t l Ht ltac:(lia) r l4 E4). cbn [mbind res_bind]. unfold sets_hand. rewrite E4.
    rewrite highest_one, (kept_ranks l Hl) by (done || lia). fold (without r (atLeast c 1)).
    cbn [mbind res_bind]. rewrite base13_one; [done|]. intros Ew.
    pose proof (ncards_sets c) as Hn. rewrite ncards_length in Hn by done.
    pose proof (atLeast_desc c 1) as D1. pose proof (without_length 13 r _ D1) as L1. rewrite Ew in L1.
    assert (∀ k, 1 ≤ k → (length (atLeast c k) ≤ length (atLeast c 1))%nat) as Hle.
    { intros k Hk. apply NoDup_incl_length.
      - apply NoDup_ListNoDup. clear. pose proof (atLeast_desc c k) as D. revert D. generalize 13.
        induction (atLeast c k) as [|a A IH]; intros b D; [constructor|]. destruct D as [_ D].
        apply list.NoDup_cons. split; [|by eapply IH]. intros Hin. pose proof (desc_elem _ _ _ D Hin). lia.
      - intros x Hx. apply list_elem_of_In. apply list_elem_of_In in Hx. by apply (atLeast_sub c 1 k). }
    pose proof (Hle 2 ltac:(lia)). pose proof (Hle 3 ltac:(lia)). pose proof (Hle 4 ltac:(lia)).
    cbn [length] in L1. lia.
Qed.
End Result.

(** The evaluator computes the number of the best hand by the rules. *)
Lemma Evaluate_hand l ra sa :
  Forall is_card l → NoDup l → (5 ≤ length l ≤ 7)%nat → length ra = 7%nat → length sa = 7%nat →
  Evaluate ra sa l (Z.of_nat (length l)) = Ok (scode (hand_of (held l))).
Proof.
  intros Hl Hnd H5 Hra Hsa. unfold Evaluate.
  rewrite (proj2 (Z.eqb_neq _ 2)), (proj2 (Z.eqb_neq _ 3)), (proj2 (Z.eqb_neq _ 4)) by lia.
  destruct (tally_ok l ra sa) as (t & E & Ht); [done..|lia|done|done|]. rewrite E. cbn [mbind res_bind].
  destruct (flush_suit_ok t l Ht Hl Hnd ltac:(lia)) as (f & Ef & Hf). rewrite Ef. cbn [mbind res_bind].
  assert (Hst : first (straight_at (any l)) 10 = straight (held l)) by (symmetry; apply straight_top_first).
  unfold hand_of. destruct Hf as [[-> Hfl]|(Hf & Hlen & Hfl)].
  - rewrite straights_none by (done || lia). cbn [mbind res_bind]. change (Z.to_nat (12 - 2)) with 10%nat.
    rewrite Hst, Hfl. apply groups_result; try done. left. done.
  - rewrite straights_flush by (done || lia). cbn [mbind res_bind]. change (Z.to_nat (12 - 2)) with 10%nat.
    rewrite <-straight_top_first, Hst, Hfl, suit_hand_large by done.
    destruct (straight_top (held l f)) as [u|] eqn:Es; [done|]. cbn iota. change (-1 =? -1) with true. cbn iota.
    apply groups_result; try done. right. rewrite Hfl, suit_hand_large, Es by done. done.
Qed.
