(* ===== verification/SBotEvalOrder.v ===== *)
(** * The order the bot's evaluator gives hands

    The numbers of [SBotEval.Evaluate] order hands of five to seven cards as the
    rules do, hence as the engine's table-driven [Eval.rankCardset] does; those
    of two to four cards order hands by their groups and kickers. *)

From stdpp Require Import base list list_numbers numbers option.
From S2P Require Import Prelude GameDef EvalTables Eval EvalOrder Value ValueThm SBotEval SBotEvalThm.

Open Scope Z_scope.

(** ** Numerals in base 13 *)
Definition digit (r : Z) : Prop := 0 ≤ r < 13.

Lemma base13_acc l a :
  fold_left (λ a r, a * 13 + r) l a = a * 13 ^ Z.of_nat (length l) + base13 l.
Proof.
  unfold base13. revert a. induction l as [|r l IH]; intros a; cbn [fold_left length]; [cbn; lia|].
  rewrite (IH (a * 13 + r)), (IH (0 * 13 + r)), Nat2Z.inj_succ, Z.pow_succ_r by lia. lia.
Qed.

Lemma base13_cons r l : base13 (r :: l) = r * 13 ^ Z.of_nat (length l) + base13 l.
Proof. unfold base13. cbn [fold_left]. rewrite base13_acc. unfold base13. lia. Qed.

Lemma base13_range l : Forall digit l → 0 ≤ base13 l < 13 ^ Z.of_nat (length l).
Proof.
  induction 1 as [|r l Hr _ IH]; [cbn; lia|]. unfold digit in Hr. rewrite base13_cons. cbn [length].
  rewrite Nat2Z.inj_succ, Z.pow_succ_r by lia. nia.
Qed.

Lemma base13_mono l l' :
  Forall digit l → Forall digit l' → length l = length l' → lex_lt l l' → base13 l < base13 l'.
Proof.
  intros H. revert l'. induction H as [|r l Hr Hl IH]; intros [|r' l'] H' El; cbn [lex_lt]; try done.
  inversion H' as [|? ? Hr' Hl']; subst. injection El as El. rewrite !base13_cons, El.
  pose proof (base13_range l Hl) as B. pose proof (base13_range l' Hl') as B'. rewrite El in B.
  intros [Hlt|[-> Hlt]]; [nia|]. specialize (IH l' Hl' El Hlt). lia.
Qed.

Lemma desc_digits b l : b ≤ 13 → desc b l → Forall digit l.
Proof.
  revert b. induction l as [|r l IH]; intros b Hb; [constructor|]. intros [Hr Hl].
  constructor; [unfold digit; lia|]. apply (IH r); [lia|done].
Qed.

(** ** The numbers of five-card hands *)

(** The first number of each class and of the next. *)
Definition sclass_lo (n : Z) : Z :=
  nth (Z.to_nat n) [kNoPair; kPair; kTwoPair; kThreeOfAKind; kStraight; kFlush; kFullHouse; kQuads;
                    kStraightFlush; kMaxHandVal] 0.

Lemma kicker_range k l : desc 13 l → length l = k → 0 ≤ base13 l < 13 ^ Z.of_nat k.
Proof. intros D <-. apply base13_range. by apply (desc_digits 13). Qed.

Ltac kicker_ranges :=
  repeat match goal with H : length ?l = ?k, D : desc 13 ?l |- _ =>
    pose proof (kicker_range k l D H); revert H end; intros;
  change (13 ^ Z.of_nat 5) with 371293 in *;
  change (13 ^ Z.of_nat 3) with 2197 in *;
  change (13 ^ Z.of_nat 2) with 169 in *.

Ltac norm_sclass :=
  cbn [class scode];
  repeat match goal with |- context [sclass_lo ?k] =>
    let v := eval vm_compute in (sclass_lo k) in change (sclass_lo k) with v end;
  unfold kNoPair, kPair, kTwoPair, kThreeOfAKind, kStraight, kFlush, kFullHouse, kQuads,
    kStraightFlush in *.

Lemma scode_class h : five h → sclass_lo (class h) ≤ scode h < sclass_lo (class h + 1).
Proof. intros H. destruct h; cbn [five] in H; destruct_and?; kicker_ranges; norm_sclass; lia. Qed.

Lemma sclass_lo_mono n m : 0 ≤ n < m → m ≤ 8 → sclass_lo (n + 1) ≤ sclass_lo m.
Proof.
  intros Hn Hm. assert (Hall : forallb (λ m, forallb (λ n, sclass_lo (n + 1) <=? sclass_lo m) (seqZ 0 m)) (seqZ 0 9) = true)
    by (vm_compute; reflexivity).
  rewrite forallb_seqZ in Hall. specialize (Hall m ltac:(lia)). cbn beta in Hall. rewrite forallb_seqZ in Hall.
  apply Z.leb_le, Hall. lia.
Qed.

Lemma scode_mono h h' : five h → five h' → beats h' h → scode h < scode h'.
Proof.
  intros F F' [Hc|[Hc Hl]].
  - pose proof (scode_class h F). pose proof (scode_class h' F').
    pose proof (class_range h). pose proof (class_range h').
    pose proof (sclass_lo_mono (class h) (class h') ltac:(lia) ltac:(lia)). lia.
  - destruct h, h'; try discriminate Hc; cbn [five] in F, F'; destruct_and?; cbn [deciding] in Hl;
      cbn [scode].
    1, 6: apply Z.add_lt_mono_l; apply base13_mono; [by apply (desc_digits 13)..|congruence|done].
    1, 3: cbn [lex_lt] in Hl; destruct Hl as [Hl|[-> Hl]]; [kicker_ranges; lia|];
      apply Z.add_lt_mono_l; apply base13_mono; [by apply (desc_digits 13)..|congruence|done].
    all: cbn [lex_lt] in Hl; lia.
Qed.

Lemma scode_order h h' : five h → five h' →
  (scode h < scode h' ↔ beats h' h) ∧ (scode h = scode h' ↔ h = h').
Proof.
  intros F F'. pose proof (scode_mono h h' F F') as M. pose proof (scode_mono h' h F' F) as M'.
  split; split; try done; try (by intros ->); intros Hc;
    destruct (beats_total h h' F F') as [Hb|[->|Hb]]; try done; try lia;
    specialize (M' Hb) || specialize (M Hb); lia.
Qed.

(** ** The same hand in both representations *)
Lemma held_cardset l s r : Forall is_card l → 0 ≤ s < 4 → 0 ≤ r < 13 →
  has_card (cardset l) s r = held l s r.
Proof.
  intros Hl Hs Hr. rewrite List.Forall_forall in Hl.
  rewrite cardset_has by (done || (intros x Hx; by apply Hl, list_elem_of_In)).
  apply Bool.eq_iff_eq_true. unfold held, makeCard, MAX_SUITS. rewrite bool_decide_eq_true, existsb_exists, list_elem_of_In.
  replace (r * 4 + s) with (4 * r + s) by lia. split.
  - intros Hin. exists (4 * r + s). by rewrite Z.eqb_refl.
  - by intros (x & Hx & ->%Z.eqb_eq).
Qed.

Lemma hand_cardset l : Forall is_card l → NoDup l → (5 ≤ length l)%nat →
  5 ≤ ncards (has_card (cardset l)) ∧ hand_of (has_card (cardset l)) = hand_of (held l).
Proof.
  intros Hl Hnd H5.
  assert (Hc : ∀ r, 0 ≤ r < 13 → count (has_card (cardset l)) r = count (held l) r).
  { intros r Hr. unfold count. by rewrite !held_cardset by (done || lia). }
  assert (Hn : ncards (has_card (cardset l)) = Z.of_nat (length l)).
  { rewrite <-ncards_length by done. unfold ncards. cbn [all_ranks foldr]. by rewrite !Hc by lia. }
  split; [lia|]. apply code_order; [apply hand_five; lia|apply hand_five; rewrite ncards_length by done; lia|].
  apply hand_code_ext; [|done]. rewrite !flush_max by apply suit_hand_nonneg. f_equal.
  unfold suits. cbn [fmap list_fmap].
  by rewrite !(suit_hand_ext (has_card (cardset l) _) (held l _)) by (intros; apply held_cardset; done || lia).
Qed.

(** A hand as the evaluators are given it: five to seven different cards. *)
Definition dealt (l : list Z) : Prop := Forall is_card l ∧ NoDup l ∧ (5 ≤ length l ≤ 7)%nat.

#[global] Instance dealt_dec l : Decision (dealt l).
Proof. unfold dealt, is_card. apply _. Defined.

(** The two arrays of seven the evaluator keeps from call to call. *)
Definition members (ra sa : list Z) : Prop := length ra = 7%nat ∧ length sa = 7%nat.

(** C22: On five to seven different cards in any order, and whatever its arrays hold
    from earlier calls, the bot's [Evaluate] returns a number below [kMaxHandVal],
    and it orders two hands, and sees a tie between them, exactly when the engine's
    [rankCardset] does on the same cards. *)
Theorem evaluators_agree la lb ra sa rb sb :
  dealt la → dealt lb → members ra sa → members rb sb →
  ∃ va vb ea eb,
    Evaluate ra sa la (Z.of_nat (length la)) = Ok va ∧ Evaluate rb sb lb (Z.of_nat (length lb)) = Ok vb ∧
    rankCardset (cardset la) = Ok ea ∧ rankCardset (cardset lb) = Ok eb ∧
    0 ≤ va < kMaxHandVal ∧ (va < vb ↔ ea < eb) ∧ (va = vb ↔ ea = eb).
Proof.
  intros (Ha & Na & La) (Hb & Nb & Lb) [Ra Sa] [Rb Sb].
  destruct (hand_cardset la Ha Na ltac:(lia)) as [Ca Ea]. destruct (hand_cardset lb Hb Nb ltac:(lia)) as [Cb Eb].
  exists (scode (hand_of (held la))), (scode (hand_of (held lb))),
    (code (hand_of (held la))), (code (hand_of (held lb))).
  rewrite !Evaluate_hand, !rankCardset_ok, Ea, Eb by (done || (apply cardset_valid; by apply list.Forall_forall)).
  assert (five (hand_of (held la))) as Fa by (rewrite <-Ea; by apply hand_five).
  assert (five (hand_of (held lb))) as Fb by (rewrite <-Eb; by apply hand_five).
  destruct (scode_order _ _ Fa Fb) as [S1 S2]. destruct (code_order _ _ Fa Fb) as [E1 E2].
  split_and!; [done..| | |by rewrite S1, E1|by rewrite S2, E2];
    destruct (hand_of (held la)); cbn [five] in Fa; destruct_and?; kicker_ranges;
    unfold kMaxHandVal; norm_sclass; lia.
Qed.

(** A full house of the flush suit against a straight flush with an ace below. *)
Lemma evaluators_agree_witness : ∃ va vb ea eb,
  Evaluate (replicate 7 5) (replicate 7 9) [48; 49; 28; 51; 30; 0; 44] 7 = Ok va ∧
  Evaluate (replicate 7 0) (replicate 7 0) [2; 50; 14; 6; 10; 17] 6 = Ok vb ∧
  rankCardset (cardset [48; 49; 28; 51; 30; 0; 44]) = Ok ea ∧
  rankCardset (cardset [2; 50; 14; 6; 10; 17]) = Ok eb ∧
  0 ≤ va < kMaxHandVal ∧ (va < vb ↔ ea < eb) ∧ (va = vb ↔ ea = eb).
Proof.
  apply (evaluators_agree [48; 49; 28; 51; 30; 0; 44] [2; 50; 14; 6; 10; 17]);
    [apply (bool_decide_unpack _); vm_compute; exact I..|done|done].
Defined.
