(* ===== verification/SBotEvalSmall.v ===== *)
(** * The bot's evaluator on two to four cards

    Below five cards there are no straights or flushes: [EvaluateTwo],
    [EvaluateThree] and [EvaluateFour] of [hand_evaluator.cpp] compare the groups
    of equal ranks, larger groups first, and then the ranks of the groups. *)

From stdpp Require Import base list list_numbers numbers option.
From S2P Require Import Prelude GameDef EvalTables Eval EvalOrder Value ValueThm SBotEval SBotEvalThm SBotEvalOrder.

Open Scope Z_scope.

(** ** Groups of equal ranks *)
Definition multiplicity (rs : list Z) (r : Z) : Z := Z.of_nat (length (List.filter (Z.eqb r) rs)).

(** The groups as (size, rank), larger first and higher ranks first. *)
Definition rank_groups (rs : list Z) : list (Z * Z) :=
  m ← [4; 3; 2; 1]; (λ r, (m, r)) <$> List.filter (λ r, multiplicity rs r =? m) ranks_down.

Definition sizes (l : list Z) : list Z := fst <$> rank_groups (Rank <$> l).
Definition group_ranks (l : list Z) : list Z := snd <$> rank_groups (Rank <$> l).

(** The cards [lb] are better than [la]: larger groups, or the same groups and
    higher ranks. *)
Definition outranks (lb la : list Z) : Prop :=
  lex_lt (sizes la) (sizes lb) ∨ sizes la = sizes lb ∧ lex_lt (group_ranks la) (group_ranks lb).

(** The largest number for [k] cards. *)
Definition small_max (k : nat) : Z :=
  match k with 2%nat => 90 | 3%nat => 2378 | _ => 31108 end.

(** ** The numbers from the groups *)
Definition shapes (k : nat) : list (list Z) :=
  match k with
  | 2%nat => [[2]; [1; 1]]
  | 3%nat => [[3]; [2; 1]; [1; 1; 1]]
  | 4%nat => [[4]; [3; 1]; [2; 2]; [2; 1; 1]; [1; 1; 1; 1]]
  | _ => []
  end.

Definition small_base (k : nat) (ms : list Z) : Z :=
  match k, ms with
  | 2%nat, [2] => 78
  | 3%nat, [3] => 2366
  | 3%nat, [2; 1] => 2197
  | 4%nat, [4] => kH4Quads
  | 4%nat, [3; 1] => kH4ThreeOfAKind
  | 4%nat, [2; 2] => kH4TwoPair
  | 4%nat, [2; 1; 1] => kH4Pair
  | _, _ => 0
  end.

(** Two cards of different ranks are numbered without gaps. *)
Definition small_ranks (k : nat) (rs : list Z) : Z :=
  match k, rs with
  | 2%nat, [h; l] => h * (h - 1) / 2 + l
  | _, _ => base13 rs
  end.

Definition small_code (k : nat) (ms rs : list Z) : Z := small_base k ms + small_ranks k rs.

(** The numbers for a class of groups are below those for larger groups. *)
Definition small_ok (k : nat) (ms rs : list Z) : Prop :=
  ms ∈ shapes k ∧ length rs = length ms ∧ Forall digit rs ∧
  (k = 2%nat → match rs with [h; l] => l < h | _ => True end).

Lemma triangle h : 2 * (h * (h - 1) / 2) = h * (h - 1).
Proof.
  symmetry. apply Z_div_exact_2; [lia|]. rewrite Zmult_mod, Zminus_mod.
  pose proof (Z.mod_pos_bound h 2 ltac:(lia)).
  assert (h mod 2 = 0 ∨ h mod 2 = 1) as [E|E] by lia; by rewrite E.
Qed.

(** Splits a list of known length into its elements. *)
Ltac split_list :=
  repeat match goal with
  | H : length ?l = S _ |- _ => destruct l as [|? ?]; [discriminate H|injection H as H]
  | H : length ?l = 0%nat |- _ => destruct l; [clear H|discriminate H]
  | H : Forall _ (_ :: _) |- _ => inversion H; subst; clear H
  | H : Forall _ [] |- _ => clear H
  end.

Ltac shape_cases H :=
  repeat (apply elem_of_cons in H as [->|H]); [..|by apply not_elem_of_nil in H].

Lemma small_mono k ms rs ms' rs' :
  (2 ≤ k ≤ 4)%nat → small_ok k ms rs → small_ok k ms' rs' →
  lex_lt ms ms' ∨ ms = ms' ∧ lex_lt rs rs' → small_code k ms rs < small_code k ms' rs'.
Proof.
  intros Hk (Hms & Hl & Hd & H2) (Hms' & Hl' & Hd' & H2').
  destruct k as [|[|[|[|[|]]]]]; try lia; clear Hk; cbn [shapes] in Hms, Hms';
    shape_cases Hms; shape_cases Hms'; cbn [length] in Hl, Hl'; split_list; unfold digit in *;
    unfold small_code, small_base, small_ranks, base13, kH4Quads, kH4ThreeOfAKind, kH4TwoPair, kH4Pair;
    cbn [fold_left lex_lt]; try specialize (H2 eq_refl); try specialize (H2' eq_refl);
    repeat match goal with |- context [?h * (?h - 1) / 2] =>
      let T := fresh "T" in pose proof (triangle h) as T; set (h * (h - 1) / 2) in * end;
    intros [Hlt|[E Hlt]]; try discriminate E; try nia.
Qed.

Lemma small_bound k ms rs :
  (2 ≤ k ≤ 4)%nat → small_ok k ms rs → 0 ≤ small_code k ms rs ≤ small_max k.
Proof.
  intros Hk (Hms & Hl & Hd & H2).
  destruct k as [|[|[|[|[|]]]]]; try lia; clear Hk; cbn [shapes] in Hms;
    shape_cases Hms; cbn [length] in Hl; split_list; unfold digit in *;
    unfold small_code, small_base, small_ranks, base13, kH4Quads, kH4ThreeOfAKind, kH4TwoPair, kH4Pair, small_max;
    cbn [fold_left lex_lt]; try specialize (H2 eq_refl);
    repeat match goal with |- context [?h * (?h - 1) / 2] =>
      let T := fresh "T" in pose proof (triangle h) as T; set (h * (h - 1) / 2) in * end; nia.
Qed.

Lemma small_total k ms rs ms' rs' : small_ok k ms rs → small_ok k ms' rs' →
  (lex_lt ms ms' ∨ ms = ms' ∧ lex_lt rs rs') ∨ (ms = ms' ∧ rs = rs') ∨
  (lex_lt ms' ms ∨ ms' = ms ∧ lex_lt rs' rs).
Proof.
  intros (Hms & Hl & _) (Hms' & Hl' & _).
  assert (lex_lt ms ms' ∨ ms = ms' ∨ lex_lt ms' ms) as [?|[->|?]]; [|by auto| |by auto].
  - clear Hl Hl'. destruct k as [|[|[|[|[|]]]]]; cbn [shapes] in Hms, Hms'; try by apply not_elem_of_nil in Hms.
    all: shape_cases Hms; shape_cases Hms'; cbn [lex_lt]; lia || auto.
  - rewrite <-Hl' in Hl. destruct (lex_total rs rs' Hl) as [?|[->|?]]; auto.
Qed.

Lemma small_order k ms rs ms' rs' : (2 ≤ k ≤ 4)%nat → small_ok k ms rs → small_ok k ms' rs' →
  (small_code k ms rs < small_code k ms' rs' ↔ lex_lt ms ms' ∨ ms = ms' ∧ lex_lt rs rs') ∧
  (small_code k ms rs = small_code k ms' rs' ↔ ms = ms' ∧ rs = rs').
Proof.
  intros Hk H H'. pose proof (small_mono k ms rs ms' rs' Hk H H') as M.
  pose proof (small_mono k ms' rs' ms rs Hk H' H) as M'.
  destruct (small_total k ms rs ms' rs' H H') as [C|[[-> ->]|C]].
  - specialize (M C). split; split; intros X; try done; [lia|]. destruct X as [-> ->]. lia.
  - split; [|done]. split; [lia|]. intros X. specialize (M X). lia.
  - specialize (M' C). split; split; intros X; try lia; [specialize (M X); lia|]. destruct X as [-> ->]. lia.
Qed.

(** ** The code computes these numbers *)

(** The order of the cards does not matter. *)
Lemma multiplicity_perm rs rs' r : rs ≡ₚ rs' → multiplicity rs r = multiplicity rs' r.
Proof.
  unfold multiplicity. induction 1; cbn [List.filter]; repeat case_match; cbn [length]; lia.
Qed.

Lemma rank_groups_perm rs rs' : rs ≡ₚ rs' → rank_groups rs = rank_groups rs'.
Proof.
  intros Hp. unfold rank_groups. apply list_bind_ext; [|done]. intros m. f_equal.
  apply List.filter_ext. intros r. by rewrite (multiplicity_perm _ _ r Hp).
Qed.

Lemma fold_left_perm {A B} (f : B → A → B) l l' : (∀ b x y, f (f b x) y = f (f b y) x) →
  l ≡ₚ l' → ∀ b, fold_left f l b = fold_left f l' b.
Proof.
  intros Hf. induction 1; intros b; cbn [fold_left]; auto; [by rewrite Hf|congruence].
Qed.

(** [++rank_counts_[r]] *)
Definition bump (a : list Z) (r : Z) : list Z := <[Z.to_nat r := at_ a r + 1]> a.

Lemma bump_swap a x y : bump (bump a x) y = bump (bump a y) x.
Proof.
  unfold bump, at_. destruct (decide (Z.to_nat x = Z.to_nat y)) as [->|Hne]; [done|].
  rewrite !list_lookup_total_insert_ne by done. by rewrite list_insert_insert_ne by done.
Qed.

Lemma four_counts l : Forall is_card l → length l = 4%nat →
  for_ 0 4 (replicate 13 0) (λ i rc, c ← rd l i; incr rc (Rank c)) =
    Ok (fold_left bump (Rank <$> l) (replicate 13 0)).
Proof.
  intros Hl H4.
  destruct (for_inv (λ i rc, length rc = 13%nat ∧
      rc = fold_left bump (Rank <$> take (Z.to_nat i) l) (replicate 13 0)) 0 4 (replicate 13 0)
      (λ i rc, c ← rd l i; incr rc (Rank c))) as (rc & E & _ & ->); [lia|done| |].
  - intros i rc Hi [Hlen Erc]. rewrite rd_ok by lia. cbn [mbind res_bind].
    assert (is_card (at_ l i)) as Hc.
    { rewrite Forall_lookup in Hl. apply (Hl (Z.to_nat i)). apply list_lookup_lookup_total_lt. lia. }
    destruct (card_split _ Hc) as (Hr & _ & _). rewrite incr_ok by lia. eexists. split; [done|].
    rewrite length_insert. split; [done|]. rewrite Z2Nat.inj_add, Nat.add_1_r by lia.
    rewrite (take_S_r _ _ (at_ l i)) by (apply list_lookup_lookup_total_lt; lia).
    rewrite fmap_app, fold_left_app, <-Erc. done.
  - rewrite E. f_equal. by rewrite take_ge by (rewrite H4; done).
Qed.

Lemma EvaluateFour_perm l l' : Forall is_card l → Forall is_card l' → length l = 4%nat →
  Rank <$> l ≡ₚ Rank <$> l' → EvaluateFour l = EvaluateFour l'.
Proof.
  intros Hl Hl' H4 Hp. assert (length l' = 4%nat) as H4'.
  { apply Permutation_length in Hp. rewrite !length_fmap in Hp. lia. }
  unfold EvaluateFour. rewrite !four_counts by done. f_equal. f_equal.
  apply fold_left_perm; [apply bump_swap|done].
Qed.

(** The lists of [k] ranks, falling from at most [b]. *)
Fixpoint falling (k : nat) (b : Z) : list (list Z) :=
  match k with
  | O => [[]]
  | S k => r ← seqZ 0 (b + 1); (λ t, r :: t) <$> falling k r
  end.

Fixpoint falls (b : Z) (l : list Z) : Prop :=
  match l with [] => True | r :: l => 0 ≤ r ≤ b ∧ falls r l end.

Lemma falls_elem b l : falls b l → l ∈ falling (length l) b.
Proof.
  revert b. induction l as [|r l IH]; intros b; [left|]. intros [Hr Hl]. cbn [length falling].
  apply list_elem_of_bind. exists r. rewrite elem_of_seqZ. split; [|lia].
  apply list_elem_of_fmap. eauto.
Qed.

Lemma ins_falls b r l : 0 ≤ r ≤ b → falls b l → falls b (ins r l).
Proof.
  revert b. induction l as [|h t IH]; intros b Hr; cbn [ins falls]; [done|]. intros [Hh Ht].
  destruct (Z.ltb_spec h r); cbn [falls]; [split; [lia|split; [lia|done]]|].
  split; [done|]. apply IH; [lia|done].
Qed.

Lemma ins_perm r l : ins r l ≡ₚ r :: l.
Proof.
  induction l as [|h t IH]; cbn [ins]; [done|]. destruct (h <? r); [done|]. rewrite IH. constructor.
Qed.

Lemma sorted_ranks l : Forall digit l → ∃ l', l ≡ₚ l' ∧ falls 12 l'.
Proof.
  induction 1 as [|r l Hr _ (l' & Hp & Hf)]; [by exists []|]. unfold digit in Hr.
  exists (ins r l'). split; [by rewrite ins_perm, <-Hp|]. apply ins_falls; [lia|done].
Qed.

Definition small_check (k : nat) (rs : list Z) : bool :=
  let g := rank_groups rs in let ms := g.*1 in let ds := g.*2 in
  match Evaluate [] [] ((λ r, 4 * r) <$> rs) (Z.of_nat k) with
  | Ok v => v =? small_code k ms ds
  | Err _ => false
  end && existsb (λ s, bool_decide (s = ms)) (shapes k) &&
  forallb (λ r, (0 <=? r) && (r <? 13)) ds &&
  match k, ds with 2%nat, [h; l] => l <? h | _, _ => true end.

(** All lists of [k] ranks. *)
Fixpoint tuples (k : nat) : list (list Z) :=
  match k with
  | O => [[]]
  | S k => t ← tuples k; (λ r, r :: t) <$> ranks_down
  end.

Lemma tuples_all l : Forall digit l → l ∈ tuples (length l).
Proof.
  induction 1 as [|r l Hr _ IH]; [left|]. cbn [length tuples]. apply list_elem_of_bind. exists l.
  split; [|done]. apply list_elem_of_fmap. exists r. split; [done|]. by apply ranks_down_all.
Qed.

Lemma checked_two : forallb (small_check 2) (tuples 2) = true.
Proof. vm_cast_no_check (eq_refl true). Qed.
Lemma checked_three : forallb (small_check 3) (tuples 3) = true.
Proof. vm_cast_no_check (eq_refl true). Qed.
Lemma checked_four : forallb (small_check 4) (falling 4 12) = true.
Proof. vm_cast_no_check (eq_refl true). Qed.

Lemma card_of_rank r : digit r → is_card (4 * r) ∧ Rank (4 * r) = r.
Proof.
  unfold digit, is_card, Rank, NumSuits. intros Hr. split; [lia|].
  rewrite Z.mul_comm. by apply Z.quot_mul.
Qed.

Lemma cards_of_ranks rs : Forall digit rs →
  Forall is_card ((λ r, 4 * r) <$> rs) ∧ Rank <$> ((λ r, 4 * r) <$> rs) = rs.
Proof.
  induction 1 as [|r rs Hr _ [IH1 IH2]]; [done|]. destruct (card_of_rank r Hr).
  rewrite !fmap_cons, IH2. split; [by constructor|congruence].
Qed.

Lemma Evaluate_ranks ra sa ra' sa' l l' : (2 ≤ length l ≤ 4)%nat → Rank <$> l = Rank <$> l' →
  Evaluate ra sa l (Z.of_nat (length l)) = Evaluate ra' sa' l' (Z.of_nat (length l)).
Proof.
  intros Hk E. assert (length l = length l') as El by (apply (f_equal length) in E; by rewrite !length_fmap in E).
  assert (Hat : ∀ i, 0 ≤ i < Z.of_nat (length l) → Rank (at_ l i) = Rank (at_ l' i)).
  { intros i Hi. unfold at_. rewrite <-!(list_lookup_total_fmap Rank) by lia. by rewrite E. }
  destruct (length l) as [|[|[|[|[|]]]]] eqn:Hl; try lia.
  - change (EvaluateTwo l = EvaluateTwo l'). unfold EvaluateTwo.
    rewrite !(rd_ok l), !(rd_ok l') by lia. cbn [mbind res_bind]. by rewrite !Hat by lia.
  - change (EvaluateThree l = EvaluateThree l'). unfold EvaluateThree.
    rewrite !(rd_ok l), !(rd_ok l') by lia. cbn [mbind res_bind]. by rewrite !Hat by lia.
  - change (EvaluateFour l = EvaluateFour l'). unfold EvaluateFour. f_equal. apply for_ext.
    intros i s Hi. rewrite !rd_ok by lia. cbn [mbind res_bind]. by rewrite Hat by lia.
Qed.

Lemma small_checked rs : (2 ≤ length rs ≤ 4)%nat → Forall digit rs → small_check (length rs) rs = true.
Proof.
  intros Hk Hd. assert (length rs = 2 ∨ length rs = 3 ∨ length rs = 4)%nat as [E|[E|E]] by lia.
  - pose proof checked_two as C. rewrite forallb_forall in C. rewrite E. apply C, list_elem_of_In.
    rewrite <-E. by apply tuples_all.
  - pose proof checked_three as C. rewrite forallb_forall in C. rewrite E. apply C, list_elem_of_In.
    rewrite <-E. by apply tuples_all.
  - destruct (sorted_ranks rs Hd) as (rs' & Hp & Hf). pose proof checked_four as C.
    rewrite forallb_forall in C. rewrite E. specialize (C rs').
    assert (Forall digit rs') as Hd' by (by rewrite <-Hp).
    destruct (cards_of_ranks rs Hd) as [Hc Hr]. destruct (cards_of_ranks rs' Hd') as [Hc' Hr'].
    assert (length rs' = 4%nat) as E' by (by rewrite <-Hp).
    revert C. unfold small_check. change (Evaluate [] [] ?l (Z.of_nat 4)) with (EvaluateFour l).
    rewrite (EvaluateFour_perm ((λ r, 4 * r) <$> rs) ((λ r, 4 * r) <$> rs')), (rank_groups_perm rs rs');
      [|done|done|done|by rewrite length_fmap|by rewrite Hr, Hr'].
    intros C. apply C, list_elem_of_In. rewrite <-E'. by apply falls_elem.
Qed.

Lemma group_lengths rs : length (rank_groups rs).*2 = length (rank_groups rs).*1.
Proof. by rewrite !length_fmap. Qed.

Lemma Evaluate_small l ra sa : (2 ≤ length l ≤ 4)%nat → Forall is_card l →
  Evaluate ra sa l (Z.of_nat (length l)) = Ok (small_code (length l) (sizes l) (group_ranks l)) ∧
  small_ok (length l) (sizes l) (group_ranks l).
Proof.
  intros Hk Hl. assert (Hd : Forall digit (Rank <$> l)).
  { apply Forall_fmap. revert Hl. apply List.Forall_impl. intros x Hx. by destruct (card_split x Hx). }
  pose proof (small_checked (Rank <$> l)) as C. rewrite length_fmap in C. specialize (C Hk Hd).
  destruct (cards_of_ranks _ Hd) as [_ Hr].
  unfold small_check in C. cbv zeta in C. rewrite !andb_true_iff in C. destruct C as (((C1 & C2) & C3) & C4).
  rewrite <-(Evaluate_ranks ra sa [] [] l) in C1 by done.
  destruct (Evaluate ra sa l (Z.of_nat (length l))) as [v|] eqn:E; [|done]. apply Z.eqb_eq in C1. subst v.
  split; [done|]. unfold small_ok. split_and!.
  - apply existsb_exists in C2 as (ms & Hms & Ems). apply bool_decide_eq_true in Ems. subst ms.
    by apply list_elem_of_In.
  - apply group_lengths.
  - apply List.Forall_forall. intros x Hx. rewrite forallb_forall in C3. specialize (C3 x Hx). unfold digit. lia.
  - intros E2. rewrite E2 in C4. unfold group_ranks. repeat case_match; try done. lia.
Qed.

(** On two, three or four cards, in any order, the bot's [Evaluate] returns a
    number in the documented range (0 to 90, 2378 or 31108), and it orders two
    hands of the same size by the sizes of their groups of equal ranks and then by
    the ranks of the groups, kickers last; the numbers tie exactly when the ranks
    of the hands are the same. *)
Theorem small_hands_order la lb ra sa rb sb :
  (2 ≤ length la ≤ 4)%nat → length lb = length la → Forall is_card la → Forall is_card lb →
  ∃ va vb,
    Evaluate ra sa la (Z.of_nat (length la)) = Ok va ∧ Evaluate rb sb lb (Z.of_nat (length lb)) = Ok vb ∧
    0 ≤ va ≤ small_max (length la) ∧ (va < vb ↔ outranks lb la) ∧
    (va = vb ↔ sizes la = sizes lb ∧ group_ranks la = group_ranks lb).
Proof.
  intros Hk El Ha Hb. destruct (Evaluate_small la ra sa Hk Ha) as [Ea Oa].
  destruct (Evaluate_small lb rb sb ltac:(lia) Hb) as [Eb Ob]. rewrite Ea, Eb.
  eexists _, _. split; [done|]. split; [done|]. split; [by apply small_bound|].
  rewrite El in Ob |- *. by apply small_order.
Qed.

(** Two pairs against three of a kind. *)
Lemma small_hands_order_witness : ∃ va vb,
  Evaluate [] [] [50; 48; 6; 4] 4 = Ok va ∧ Evaluate [] [] [3; 1; 9; 0] 4 = Ok vb ∧
  0 ≤ va ≤ small_max 4 ∧ (va < vb ↔ outranks [3; 1; 9; 0] [50; 48; 6; 4]) ∧
  (va = vb ↔ sizes [50; 48; 6; 4] = sizes [3; 1; 9; 0] ∧ group_ranks [50; 48; 6; 4] = group_ranks [3; 1; 9; 0]).
Proof.
  apply (small_hands_order [50; 48; 6; 4] [3; 1; 9; 0]); [cbn; lia|done|..];
    repeat constructor; unfold is_card; lia.
Defined.
