(* ===== verification/SBotCards.v ===== *)
(** * The bot's card text ([src/Common/SBotInterface/src/cards.cpp])

    [getCardsString] writes cards for people and for file names; on cards of the
    deck it is the engine's notation ([Print.cardText]) with spaces between the
    cards. *)

From stdpp Require Import base list list_numbers numbers option.
From S2P Require Import Prelude GameDef Text Print SBotEval.

Open Scope Z_scope.

Definition getCardsString (cards : list Z) (n : Z) : res (list Z) :=
  for_ 0 n [] (λ i cardString,
    let cardString := if 0 <? i then cardString ++ [32] else cardString in
    card ← rd cards i;
    let rank := Rank card in
    let suit := Suit card in
    cardString ←
      (if rank <? 8 then Ok (cardString ++ dec_signed (rank + 2))
       else if rank =? 8 then Ok (cardString ++ [84])
       else if rank =? 9 then Ok (cardString ++ [74])
       else if rank =? 10 then Ok (cardString ++ [81])
       else if rank =? 11 then Ok (cardString ++ [75])
       else if rank =? 12 then Ok (cardString ++ [65])
       else Err Exited);
    if suit =? 0 then Ok (cardString ++ [99])
    else if suit =? 1 then Ok (cardString ++ [100])
    else if suit =? 2 then Ok (cardString ++ [104])
    else if suit =? 3 then Ok (cardString ++ [115])
    else Err Exited).

(** The cards in the engine's notation, with spaces between them. *)
Definition spacedCards (l : list Z) : list Z := drop 1 (concat ((λ c, 32 :: cardText c) <$> l)).

(** The text of one card, from the decisions of the code. *)
Definition botCard (card : Z) : list Z :=
  (if Rank card <? 8 then dec_signed (Rank card + 2) else [at_ [84; 74; 81; 75; 65] (Rank card - 8)]) ++
  [at_ [99; 100; 104; 115] (Suit card)].

Lemma botCard_text card : is_card card → botCard card = cardText card.
Proof.
  intros Hc. unfold is_card in Hc.
  assert (Hall : forallb (λ c, bool_decide (botCard c = cardText c)) (seqZ 0 52) = true) by (vm_compute; reflexivity).
  rewrite forallb_seqZ in Hall. by apply (bool_decide_eq_true_1 _), (Hall card).
Qed.

Lemma card_of_deck card : is_card card → 0 ≤ Rank card < 13 ∧ 0 ≤ Suit card < 4.
Proof. unfold is_card, Rank, Suit, NumSuits. intros Hc. Z.quot_rem_to_equations. lia. Qed.

(** On cards of the deck the loop appends the engine's text of each card. *)
Lemma getCardsString_text l : Forall is_card l →
  getCardsString l (Z.of_nat (length l)) = Ok (spacedCards l).
Proof.
  intros Hl. unfold getCardsString.
  match goal with |- for_ _ _ _ ?b = _ =>
    destruct (for_inv (λ i s, s = spacedCards (take (Z.to_nat i) l)) 0 (Z.of_nat (length l)) [] b)
      as (s & E & ->); [lia|done| |by rewrite E, Nat2Z.id, take_ge by done] end.
  intros i s Hi ->. rewrite rd_ok by lia. cbn [mbind res_bind].
  assert (is_card (at_ l i)) as Hc.
  { rewrite Forall_lookup in Hl. apply (Hl (Z.to_nat i)), list_lookup_lookup_total_lt. lia. }
  set (pre := if 0 <? i then _ else _).
  assert (spacedCards (take (Z.to_nat (i + 1)) l) = pre ++ botCard (at_ l i)) as ->.
  { rewrite botCard_text, Z2Nat.inj_add, Nat.add_1_r by (done || lia).
    rewrite (take_S_r _ _ (at_ l i)) by (apply list_lookup_lookup_total_lt; lia).
    unfold pre, spacedCards. rewrite fmap_app, concat_app. cbn [fmap list_fmap concat]. rewrite app_nil_r.
    destruct (Z.ltb_spec 0 i) as [Hp|Hp].
    - destruct (Z.to_nat i) as [|k] eqn:Ek; [lia|]. destruct l as [|a l]; [cbn in Hi; lia|].
      cbn [take fmap list_fmap concat app drop]. by rewrite <-!app_assoc.
    - replace i with 0 by lia. done. }
  destruct (card_of_deck _ Hc) as [Hr Hs]. unfold botCard. clearbody pre.
  set (r := Rank (at_ l i)) in *. set (u := Suit (at_ l i)) in *. clearbody r u.
  destruct (Z.ltb_spec r 8).
  - assert (u = 0 ∨ u = 1 ∨ u = 2 ∨ u = 3) as Eu by lia; destruct_or! Eu; subst u; eexists; (split; [reflexivity|]);
      cbn; by rewrite <-?app_assoc.
  - assert (r = 8 ∨ r = 9 ∨ r = 10 ∨ r = 11 ∨ r = 12) as Er by lia; destruct_or! Er; subst r;
    assert (u = 0 ∨ u = 1 ∨ u = 2 ∨ u = 3) as Eu by lia; destruct_or! Eu; subst u; eexists; (split; [reflexivity|]);
      cbn; by rewrite <-?app_assoc.
Qed.
