(* ===== verification/Highlight.v ===== *)
(** * Highlighting the cards of a hand ([src/Common/acpc/src/highlight_card.cpp])

    Given the cards of a player as texts of two characters, the code classifies
    the best hand in them and marks the five cards that make it.  A [string] is
    its list of bytes, without the terminator; [s[i]] may read the terminator.
    [map<K, int>] and [set<int>] are lists in the order of their keys, which is the
    order their iterators follow.  An [at] outside a vector, which throws, is the
    fault [OutOfBounds].  [std::sort] is insertion sort: the code sorts by total
    orders, for which all sorts agree. *)

From stdpp Require Import base list list_numbers numbers option.
From S2P Require Import Prelude.

Open Scope Z_scope.

(** ** The standard library *)

(** [s[i]] *)
Definition idx (s : list Z) (i : Z) : res Z := rd (s ++ [0]) i.

(** [s.find( c )] for a character, converted to [int]. *)
Fixpoint find_char (s : list Z) (c : Z) : Z :=
  match s with
  | [] => -1
  | x :: s => if x =? c then 0 else let r := find_char s c in if r <? 0 then -1 else r + 1
  end.

Fixpoint prefix_of (p s : list Z) : bool :=
  match p, s with
  | [], _ => true
  | x :: p, y :: s => (x =? y) && prefix_of p s
  | _, [] => false
  end.

(** [s.find( t ) != string::npos] *)
Fixpoint contains (s t : list Z) : bool :=
  prefix_of t s || match s with [] => false | _ :: s => contains s t end.

Fixpoint insert_by {A} (lt : A → A → bool) (x : A) (l : list A) : list A :=
  match l with
  | [] => [x]
  | y :: l' => if lt y x then y :: insert_by lt x l' else x :: l
  end.
Definition sort_by {A} (lt : A → A → bool) (l : list A) : list A := foldr (insert_by lt) [] l.

(** [sort( v.rbegin(), v.rend(), lt )] *)
Definition sort_back {A} (lt : A → A → bool) (l : list A) : list A := rev (sort_by lt (rev l)).

(** [set::insert] *)
Fixpoint set_insert (x : Z) (l : list Z) : list Z :=
  match l with
  | [] => [x]
  | y :: l' => if y <? x then y :: set_insert x l' else if x =? y then l else x :: l
  end.

(** [if( !resMap.count( ele ) ) resMap[ ele ] = 1; else resMap[ ele ] += 1;] *)
Fixpoint map_count (x : Z) (m : list (Z * Z)) : list (Z * Z) :=
  match m with
  | [] => [(x, 1)]
  | (y, n) :: m' => if y <? x then (y, n) :: map_count x m' else if x =? y then (y, n + 1) :: m' else (x, 1) :: m
  end.

(** ** Constants *)
Definition STD_HAND_NUM : Z := 5.
Definition CARD_RANKS : list Z := [50; 51; 52; 53; 54; 55; 56; 57; 84; 74; 81; 75; 65].
Definition ACE_RANK : Z := find_char CARD_RANKS 65.
Definition ACE_LOW_RANK : Z := -1.

Definition ROYAL_FLUSH : Z := 10.
Definition HIGH_CARD : Z := 9.
Definition PAIR : Z := 8.
Definition TWO_PAIR : Z := 7.
Definition THREE_OF_A_KIND : Z := 6.
Definition STRAIGHT : Z := 5.
Definition FLUSH : Z := 4.
Definition FULL_HOUSE : Z := 3.
Definition FOUR_OF_A_KIND : Z := 2.
Definition STRAIGHT_FLUSH : Z := 1.

(** ** Helpers *)
Definition char2String (c : Z) : list Z := [c].
Definition card2Rank (card : list Z) : res Z := c ← idx card 0; Ok (find_char CARD_RANKS c).
Definition card2Suit (card : list Z) : res Z := idx card 1.

Definition countVecEle (l : list Z) : list (Z * Z) := fold_left (λ m ele, map_count ele m) l [].

Definition CmpByValue (p1 p2 : Z * Z) : bool :=
  if snd p1 =? snd p2 then fst p2 <? fst p1 else snd p2 <? snd p1.

Definition sortMapByValue (m : list (Z * Z)) (reverse : bool) : list (Z * Z) :=
  if reverse then sort_by CmpByValue m else sort_back CmpByValue m.

Definition getCardIndex (cards : list (list Z)) (findCard : list Z) (i : Z) : res Z :=
  o ← forR 0 (Z.of_nat (length cards)) 0 (λ j count,
    card ← rd cards j;
    if contains card findCard then
      if count =? i then Ok (inr j) else Ok (inl (count + 1))
    else Ok (inl count));
  Ok (match o with inr j => j | inl _ => -1 end).

Definition getCountFromPairs (rankCounts : list (Z * Z)) (rank : Z) : Z :=
  match List.find (λ rc, fst rc =? rank) rankCounts with Some rc => snd rc | None => 0 end.

Definition getRanksOfSuit (cards : list (list Z)) (suit : Z) : res (list Z) :=
  foldM (λ c ranksOfSuit,
    s ← card2Suit c;
    if s =? suit then r ← card2Rank c; Ok (ranksOfSuit ++ [r]) else Ok ranksOfSuit) cards [].

Definition hotEncoding (indexes : list Z) (encodingIndexes : list Z) : res (list Z) :=
  foldM (λ i e, wr e i 1) indexes encodingIndexes.

Definition pushCardIndex (cards : list (list Z)) (card : list Z) (i : Z) (win : list Z) : res (list Z) :=
  cardIndex ← getCardIndex cards card i;
  Ok (if negb (cardIndex =? -1) then win ++ [cardIndex] else win).

(** [char2String( CARD_RANKS[ r ] )] *)
Definition rank_text (r : Z) : res (list Z) := c ← idx CARD_RANKS r; Ok (char2String c).

Definition zlen {A} (l : list A) : Z := Z.of_nat (length l).

(** ** All types but straights *)

(** The searches of the two special cases: the first rank that [other] accepts is
    pushed and the function returns. *)
Definition push_other (cards : list (list Z)) (ranks : list Z) (rankSize : Z) (other : Z → bool)
    (win : list Z) : res (list Z + list Z) :=
  forR 0 rankSize win (λ j win,
    x ← rd ranks j;
    if other x then t ← rank_text x; win ← pushCardIndex cards t 0 win; Ok (inr win)
    else Ok (inl win)).

(** One round of the loop over the groups of equal ranks. *)
Definition winGroup (cards : list (list Z)) (rSortedCardRanks : list Z)
    (rSortedRankCounts : list (Z * Z)) (i : Z) (win : list Z) : res (list Z + list Z) :=
  let rankSize := zlen rSortedRankCounts in
  rc ← rd rSortedRankCounts i;
  let r := fst rc in
  card ← rank_text r;
  let rCount := getCountFromPairs rSortedRankCounts r in
  win ← for_ 0 rCount win (λ j win,
    if zlen win <? STD_HAND_NUM then pushCardIndex cards card j win else Ok win);
  o ← (if (i =? 0) && (zlen win =? STD_HAND_NUM - 1)
       then push_other cards rSortedCardRanks rankSize (λ x, negb (x =? r)) win
       else Ok (inl win));
  match o with
  | inr win => Ok (inr win)
  | inl win =>
      if (i =? 1) && (rankSize =? 4) then
        c0 ← rd rSortedRankCounts 0; c1 ← rd rSortedRankCounts 1; c2 ← rd rSortedRankCounts 2;
        if (snd c0 =? 2) && (snd c1 =? 2) && (snd c2 =? 2) then
          push_other cards rSortedCardRanks rankSize
            (λ x, negb (x =? fst c0) && negb (x =? fst c1)) win
        else Ok (inl win)
      else Ok (inl win)
  end.

Definition setWinCardIndexes (cards : list (list Z)) (rSortedCardRanks : list Z)
    (rSortedRankCounts : list (Z * Z)) (flushSuit : Z) (win : list Z) : res (list Z) :=
  if nz flushSuit then
    for_ 0 (zlen rSortedCardRanks) win (λ i win,
      if zlen win <? STD_HAND_NUM then
        x ← rd rSortedCardRanks i;
        card ← rank_text x;
        pushCardIndex cards (card ++ char2String flushSuit) 0 win
      else Ok win)
  else
    o ← forR 0 (zlen rSortedRankCounts) win (winGroup cards rSortedCardRanks rSortedRankCounts);
    Ok (match o with inl win => win | inr win => win end).

(** ** Straights *)

(** The [while] loop: whether the five ranks from place [i] on fall by one each. *)
Definition five_down (ranks : list Z) (i : Z) : res bool :=
  o ← forR i (i + STD_HAND_NUM - 1) tt (λ j _,
    x ← rd ranks j; y ← rd ranks (j + 1);
    Ok (if negb (x - 1 =? y) then inr tt else inl tt));
  Ok (match o with inl _ => true | inr _ => false end).

(** The result is [result], [maxRank] and the indexes. *)
Definition analyzeStraight (cards : list (list Z)) (rSortedCardRanks : list Z) (flushSuit : Z)
    (result : bool) (maxRank : Z) (win : list Z) : res (bool * Z * list Z) :=
  let rankSize := zlen rSortedCardRanks in
  if STD_HAND_NUM <=? rankSize then
    let '(ranks, rankSize) :=
      if existsb (Z.eqb ACE_RANK) rSortedCardRanks
      then (rSortedCardRanks ++ [ACE_LOW_RANK], rankSize + 1) else (rSortedCardRanks, rankSize) in
    o ← forR 0 (rankSize - STD_HAND_NUM + 1) tt (λ i _,
      b ← five_down ranks i;
      if (b : bool) then
        win ← for_ i (i + STD_HAND_NUM) win (λ k win,
          rank ← rd ranks k;
          let rank := if rank =? ACE_LOW_RANK then ACE_RANK else rank in
          card ← rank_text rank;
          pushCardIndex cards (if nz flushSuit then card ++ char2String flushSuit else card) 0 win);
        m ← rd ranks i;
        Ok (inr (true, m, win))
      else Ok (inl tt));
    Ok (match o with inr r => r | inl _ => (result, maxRank, win) end)
  else Ok (result, maxRank, win).

(** ** The classification *)
Definition analyzeCards (cards : list (list Z)) (win : list Z) : res (Z * list Z) :=
  cardRanks ← foldM (λ c rs, r ← card2Rank c; Ok (rs ++ [r])) cards [];
  let counts := sortMapByValue (countVecEle cardRanks) true in
  let ranks := rev (fold_left (λ s x, set_insert x s) cardRanks []) in
  c0 ← rd counts 0;
  let c1 := match counts !! 1%nat with Some c => snd c | None => 0 end in
  if snd c0 =? 4 then
    win ← setWinCardIndexes cards ranks counts 0 win; Ok (FOUR_OF_A_KIND, win)
  else if (snd c0 =? 3) && (1 <? zlen counts) && (2 <=? c1) then
    win ← setWinCardIndexes cards ranks counts 0 win; Ok (FULL_HOUSE, win)
  else
    cardSuits ← foldM (λ c ss, s ← card2Suit c; Ok (ss ++ [s])) cards [];
    let suitCounts := sortMapByValue (countVecEle cardSuits) true in
    s0 ← rd suitCounts 0;
    let flushSuit := if STD_HAND_NUM <=? snd s0 then fst s0 else 0 in
    if nz flushSuit then
      ranksOfSuit ← getRanksOfSuit cards flushSuit;
      let ranksOfSuit := sort_back Z.ltb ranksOfSuit in
      '(straight, maxStraightRank, win) ← analyzeStraight cards ranksOfSuit flushSuit false (-1) win;
      if (straight : bool) then
        Ok (if maxStraightRank =? ACE_RANK then ROYAL_FLUSH else STRAIGHT_FLUSH, win)
      else win ← setWinCardIndexes cards ranksOfSuit counts flushSuit win; Ok (FLUSH, win)
    else
      '(straight, maxStraightRank, win) ← analyzeStraight cards ranks 0 false (-1) win;
      if (straight : bool) then Ok (STRAIGHT, win) else
      win ← setWinCardIndexes cards ranks counts 0 win;
      Ok (if 3 <=? snd c0 then THREE_OF_A_KIND
          else if (snd c0 =? 2) && (1 <? zlen counts) && (c1 =? 2) then TWO_PAIR
          else if snd c0 =? 2 then PAIR
          else HIGH_CARD, win).

Definition hotEncodingWinCardIndexes (cards : list (list Z)) (winCardEncoding : list Z) : res (Z * list Z) :=
  '(type, winCardIndexes) ← analyzeCards cards [];
  e ← hotEncoding winCardIndexes winCardEncoding;
  Ok (type, e).

(** The example of [do_cards_highlight]: an ace high. *)
Example highlight_example :
  hotEncodingWinCardIndexes
    [[55; 99]; [84; 115]; [65; 115]; [54; 115]; [56; 115]; [75; 104]; [51; 100]] (replicate 7 0) =
    Ok (HIGH_CARD, [1; 1; 1; 0; 1; 1; 0]).
Proof. reflexivity. Qed.
