(* ===== verification/HighlightThm.v ===== *)
(** * Theorems on highlighting

    The code of [Highlight] on five to seven different cards in the engine's
    notation: the type it gives is the class of the best hand by the rules, and the
    cards it marks make that hand. *)

From stdpp Require Import base list list_numbers numbers option sorting.
From S2P Require Import Prelude GameDef Text EvalTables Eval EvalOrder Value ValueThm Print SBotEval SBotEvalThm SBotEvalOrder SBotEvalSmall Highlight.

Open Scope Z_scope.

(** ** Sorting *)
Section Sorting.
Context {A : Type} (lt : A → A → bool).

(** [a] may stand before [b]. *)
Definition before (a b : A) : Prop := lt b a = false.

Lemma insert_by_perm x l : insert_by lt x l ≡ₚ x :: l.
Proof.
  induction l as [|y l IH]; cbn [insert_by]; [done|]. destruct (lt y x); [|done].
  rewrite IH. constructor.
Qed.

Lemma sort_by_perm l : sort_by lt l ≡ₚ l.
Proof. induction l as [|x l IH]; [done|]. cbn [sort_by foldr]. rewrite insert_by_perm. by constructor. Qed.

Context (Htrans : Transitive before) (Hasym : ∀ a b, lt a b = true → lt b a = false).

Lemma insert_by_sorted x l : StronglySorted before l → StronglySorted before (insert_by lt x l).
Proof.
  induction 1 as [|y l Hl IH Hy]; cbn [insert_by]; [by repeat constructor|].
  destruct (lt y x) eqn:E.
  - constructor; [done|]. apply list.Forall_forall. intros z Hz. rewrite insert_by_perm in Hz.
    apply elem_of_cons in Hz as [->|Hz]; [by apply Hasym|]. by apply (proj1 (list.Forall_forall _ _) Hy).
  - constructor; [by constructor|]. constructor; [done|]. apply list.Forall_forall. intros z Hz.
    apply (Htrans x y z); [done|]. by apply (proj1 (list.Forall_forall _ _) Hy).
Qed.

Lemma sort_by_sorted l : StronglySorted before (sort_by lt l).
Proof. induction l as [|x l IH]; [constructor|]. by apply insert_by_sorted. Qed.

(** A sorted list of the same elements is the result. *)
Lemma sort_by_unique l l' : AntiSymm (=) before → StronglySorted before l' → l ≡ₚ l' → sort_by lt l = l'.
Proof.
  intros Hanti Hs Hp. apply (StronglySorted_unique before); [apply sort_by_sorted|done|].
  by rewrite sort_by_perm.
Qed.
End Sorting.

Lemma sorted_filter {A} (R : A → A → Prop) (f : A → bool) l :
  StronglySorted R l → StronglySorted R (List.filter f l).
Proof.
  induction 1 as [|x l Hl IH Hx]; cbn [List.filter]; [constructor|]. destruct (f x); [|done].
  constructor; [done|]. apply List.Forall_forall. intros y [Hy _]%filter_In.
  rewrite List.Forall_forall in Hx. by apply Hx.
Qed.

Lemma NoDup_lfilter {A} (f : A → bool) (l : list A) : NoDup l → NoDup (List.filter f l).
Proof. rewrite !NoDup_ListNoDup. apply List.NoDup_filter. Qed.

(** *** The order of groups *)
#[local] Instance groups_trans : Transitive (before CmpByValue).
Proof.
  intros [a m] [b n] [c o]. unfold before, CmpByValue. cbn [fst snd].
  destruct (Z.eqb_spec n m), (Z.eqb_spec o n), (Z.eqb_spec o m); lia.
Qed.
#[local] Instance groups_anti : AntiSymm (=) (before CmpByValue).
Proof.
  intros [a m] [b n]. unfold before, CmpByValue. cbn [fst snd].
  destruct (Z.eqb_spec n m), (Z.eqb_spec m n); try lia; intros; f_equal; lia.
Qed.
Lemma groups_asym a b : CmpByValue a b = true → CmpByValue b a = false.
Proof.
  destruct a as [a m], b as [b n]. unfold CmpByValue. cbn [fst snd].
  destruct (Z.eqb_spec m n), (Z.eqb_spec n m); lia.
Qed.

(** ** Counting *)
Definition setOf (rs : list Z) : list Z := fold_left (λ s x, set_insert x s) rs [].

Lemma set_insert_elem x s y : y ∈ set_insert x s ↔ y = x ∨ y ∈ s.
Proof.
  induction s as [|z s IH]; cbn [set_insert]; [by rewrite list_elem_of_singleton, elem_of_nil; intuition|].
  destruct (z <? x); [|destruct (Z.eqb_spec x z)]; rewrite ?elem_of_cons, ?IH; intuition congruence.
Qed.

Lemma set_insert_sorted x s : StronglySorted Z.lt s → StronglySorted Z.lt (set_insert x s).
Proof.
  induction 1 as [|z s Hs IH Hz]; cbn [set_insert]; [by repeat constructor|].
  rewrite list.Forall_forall in Hz. destruct (Z.ltb_spec z x); [|destruct (Z.eqb_spec x z)].
  - constructor; [done|]. apply list.Forall_forall. intros y [->|Hy]%set_insert_elem; auto.
  - constructor; [done|by apply list.Forall_forall].
  - constructor; [by constructor; [|apply list.Forall_forall]|]. apply list.Forall_forall.
    intros y [->|Hy]%elem_of_cons; [lia|]. specialize (Hz y Hy). lia.
Qed.

(** Counting one more element. *)
Lemma map_count_set x s (f : Z → Z) : StronglySorted Z.lt s → (x ∉ s → f x = 0) →
  map_count x ((λ r, (r, f r)) <$> s) = (λ r, (r, f r + c_bool (r =? x))) <$> set_insert x s.
Proof.
  induction 1 as [|z s Hs IH Hz]; cbn [map_count set_insert fmap list_fmap]; intros Hf.
  - rewrite Z.eqb_refl, Hf by apply not_elem_of_nil. done.
  - rewrite list.Forall_forall in Hz. assert (Hsame : x ≤ z → ∀ y, y ∈ s → (y =? x) = false).
    { intros Hle y Hy. specialize (Hz y Hy). lia. }
    assert (Htail : x ≤ z → (λ r, (r, f r)) <$> s = (λ r, (r, f r + c_bool (r =? x))) <$> s).
    { intros Hle. apply list_fmap_ext. intros i y Hy%list_elem_of_lookup_2. rewrite Hsame by done.
      f_equal. cbn. lia. }
    destruct (Z.ltb_spec z x).
    + rewrite IH by (intros Hn; apply Hf; rewrite elem_of_cons; intros [->|?]; [lia|done]).
      cbn [fmap list_fmap]. rewrite (proj2 (Z.eqb_neq z x)) by lia. cbn [c_bool]. by rewrite Z.add_0_r.
    + rewrite Htail by done. destruct (Z.eqb_spec x z) as [->|Hne]; cbn [fmap list_fmap].
      * by rewrite Z.eqb_refl.
      * rewrite Z.eqb_refl, Hf, (proj2 (Z.eqb_neq z x)) by (lia || (rewrite elem_of_cons; intros [->|Hin];
          [done|specialize (Hz x Hin); lia])).
        cbn [c_bool]. by rewrite Z.add_0_r.
Qed.

Lemma setOf_snoc rs x : setOf (rs ++ [x]) = set_insert x (setOf rs).
Proof. unfold setOf. by rewrite fold_left_app. Qed.

Lemma setOf_elem rs y : y ∈ setOf rs ↔ y ∈ rs.
Proof.
  induction rs as [|x rs IH] using rev_ind; [done|].
  rewrite setOf_snoc, set_insert_elem, IH, elem_of_app, list_elem_of_singleton. tauto.
Qed.

Lemma setOf_sorted rs : StronglySorted Z.lt (setOf rs).
Proof.
  induction rs as [|x rs IH] using rev_ind; [constructor|]. rewrite setOf_snoc. by apply set_insert_sorted.
Qed.

Lemma multiplicity_snoc rs x r : multiplicity (rs ++ [x]) r = multiplicity rs r + c_bool (r =? x).
Proof.
  unfold multiplicity. rewrite List.filter_app, length_app. cbn [List.filter].
  destruct (r =? x); cbn [length c_bool]; lia.
Qed.

Lemma multiplicity_none rs r : r ∉ rs → multiplicity rs r = 0.
Proof.
  induction rs as [|x rs IH] using rev_ind; [done|]. rewrite elem_of_app, list_elem_of_singleton. intros Hn.
  rewrite multiplicity_snoc, IH, (proj2 (Z.eqb_neq r x)) by tauto. done.
Qed.

Lemma countVecEle_set rs : countVecEle rs = (λ r, (r, multiplicity rs r)) <$> setOf rs.
Proof.
  induction rs as [|x rs IH] using rev_ind; [done|]. unfold countVecEle. rewrite fold_left_app.
  cbn [fold_left]. fold (countVecEle rs). rewrite IH, setOf_snoc, map_count_set.
  - apply list_fmap_ext. intros i y _. by rewrite multiplicity_snoc.
  - apply setOf_sorted.
  - rewrite setOf_elem. apply multiplicity_none.
Qed.

Lemma multiplicity_pos rs r : r ∈ rs ↔ 1 ≤ multiplicity rs r.
Proof.
  split.
  - unfold multiplicity. intros Hr. destruct (List.filter (Z.eqb r) rs) as [|y f] eqn:E; [|cbn; lia].
    assert (In r (List.filter (Z.eqb r) rs)) as Hin by (apply filter_In; split; [by apply list_elem_of_In|apply Z.eqb_refl]).
    by rewrite E in Hin.
  - intros H1. destruct (decide (r ∈ rs)) as [|Hn]; [done|]. rewrite multiplicity_none in H1 by done. lia.
Qed.

(** ** The groups and the ranks of the cards, in the order the code has them *)
Definition all_pairs : list (Z * Z) := m ← [4; 3; 2; 1]; (λ r, (r, m)) <$> all_ranks.

Lemma all_pairs_elem r m : (r, m) ∈ all_pairs ↔ 0 ≤ r < 13 ∧ 1 ≤ m ≤ 4.
Proof.
  unfold all_pairs. rewrite list_elem_of_bind. split.
  - intros (k & Hr & Hk). rewrite list_elem_of_fmap in Hr. destruct Hr as (y & [= -> ->] & Hy%all_ranks_elem).
    rewrite !elem_of_cons, elem_of_nil in Hk. lia.
  - intros [Hr Hm]. exists m. split; [|rewrite !elem_of_cons; lia]. apply list_elem_of_fmap. exists r.
    by rewrite all_ranks_elem.
Qed.

Lemma all_pairs_sorted : StronglySorted (before CmpByValue) all_pairs.
Proof.
  apply Sorted_StronglySorted; [exact groups_trans|]. unfold all_pairs, before. cbn.
  repeat constructor.
Qed.

Lemma all_pairs_nodup : NoDup all_pairs.
Proof. apply (bool_decide_unpack _). vm_compute. exact I. Qed.

Definition rankGroups (rs : list Z) : list (Z * Z) :=
  List.filter (λ p, multiplicity rs (fst p) =? snd p) all_pairs.

Lemma sorted_counts rs : Forall digit rs → (∀ r, multiplicity rs r ≤ 4) →
  sortMapByValue (countVecEle rs) true = rankGroups rs.
Proof.
  intros Hd H4. rewrite countVecEle_set. cbn [sortMapByValue].
  apply sort_by_unique; [exact groups_trans|exact groups_asym|exact groups_anti| |].
  { by apply sorted_filter, all_pairs_sorted. }
  apply NoDup_Permutation.
  - apply NoDup_fmap_2; [by intros ? ? [= ->]|]. pose proof (setOf_sorted rs) as Hs.
    induction Hs as [|x s Hs IH Hx]; constructor; [|done]. intros Hin. rewrite list.Forall_forall in Hx.
    specialize (Hx x Hin). lia.
  - apply NoDup_lfilter, all_pairs_nodup.
  - intros [r m]. rewrite list_elem_of_fmap. unfold rankGroups.
    rewrite (list_elem_of_In (List.filter _ _)), filter_In, <-list_elem_of_In, all_pairs_elem. cbn [fst snd].
    rewrite Z.eqb_eq. split.
    + intros (y & [= -> ->] & Hy). apply (proj1 (setOf_elem _ _)) in Hy. rewrite list.Forall_forall in Hd. specialize (Hd y Hy).
      apply multiplicity_pos in Hy. specialize (H4 y). unfold digit in Hd. lia.
    + intros [[Hr Hm] <-]. exists r. split; [done|]. apply setOf_elem, multiplicity_pos. lia.
Qed.

#[local] Instance desc_trans : Transitive (λ a b : Z, b < a).
Proof. intros a b c. lia. Qed.

Lemma desc_unique (l l' : list Z) :
  StronglySorted (λ a b, b < a) l → StronglySorted (λ a b, b < a) l' → (∀ x, x ∈ l ↔ x ∈ l') → l = l'.
Proof.
  intros Hs Hs' He. apply (StronglySorted_unique_strong (λ a b, b < a)); [lia|done|done|].
  assert (Hnd : ∀ k, StronglySorted (λ a b, b < a) k → NoDup k).
  { clear. induction 1 as [|x s Hs IH Hx]; constructor; [|done]. intros Hin. rewrite list.Forall_forall in Hx.
    specialize (Hx x Hin). lia. }
  apply NoDup_Permutation; auto.
Qed.

Lemma sorted_rev (l : list Z) : StronglySorted Z.lt l → StronglySorted (λ a b, b < a) (rev l).
Proof.
  induction 1 as [|x l Hl IH Hx]; cbn [rev]; [constructor|]. apply StronglySorted_app. split_and!; [|done|by repeat constructor].
  intros a b Ha Hb%list_elem_of_singleton. subst b. rewrite list.Forall_forall in Hx. apply Hx.
  by apply list_elem_of_In, in_rev, list_elem_of_In in Ha.
Qed.

Lemma filter_ranks_sorted (f : Z → bool) : StronglySorted (λ a b, b < a) (ranks f).
Proof.
  apply sorted_filter. apply Sorted_StronglySorted; [exact desc_trans|]. repeat constructor.
Qed.

Lemma sorted_ranks_of rs : Forall digit rs → rev (setOf rs) = ranks (λ r, 1 <=? multiplicity rs r).
Proof.
  intros Hd. apply desc_unique; [apply sorted_rev, setOf_sorted|apply filter_ranks_sorted|].
  intros x. rewrite ranks_elem, Z.leb_le, <-multiplicity_pos, list_elem_of_In, <-in_rev, <-list_elem_of_In, setOf_elem.
  rewrite list.Forall_forall in Hd. split; [|tauto]. intros Hx. split; [by apply Hd|done].
Qed.

(** [sort( v.rbegin(), v.rend() )] of different numbers. *)
Lemma sort_back_desc (l : list Z) (f : Z → bool) : NoDup l → (∀ x, x ∈ l ↔ 0 ≤ x < 13 ∧ f x = true) →
  sort_back Z.ltb l = ranks f.
Proof.
  intros Hnd He. unfold sort_back. apply desc_unique; [|apply filter_ranks_sorted|].
  - apply sorted_rev. assert (Hw : StronglySorted (before Z.ltb) (sort_by Z.ltb (rev l))).
    { apply sort_by_sorted; [intros a b c; unfold before; lia|lia]. }
    assert (Hn : NoDup (sort_by Z.ltb (rev l))) by (rewrite sort_by_perm, <-Permutation_rev; done).
    revert Hn. induction Hw as [|x s Hs IH Hx]; intros Hn; [constructor|]. apply list.NoDup_cons in Hn as [Hn1 Hn2].
    constructor; [by apply IH|]. rewrite list.Forall_forall in Hx |- *. intros y Hy.
    specialize (Hx y Hy). unfold before in Hx. assert (x ≠ y) by (by intros ->). lia.
  - intros x. rewrite ranks_elem, <-He, (list_elem_of_In (rev _)), <-in_rev, <-list_elem_of_In, sort_by_perm.
    by rewrite (list_elem_of_In (rev _)), <-in_rev, <-list_elem_of_In.
Qed.

(** ** The texts of cards *)
Definition rankChar (r : Z) : Z := at_ rankChars r.
Definition suitChar (s : Z) : Z := at_ suitChars s.

Definition text_check (x : Z) : bool :=
  bool_decide (card2Rank (cardText x) = Ok (Rank x)) &&
  bool_decide (card2Suit (cardText x) = Ok (suitChar (Suit x))) &&
  forallb (λ r, Bool.eqb (contains (cardText x) [rankChar r]) (Rank x =? r)) all_ranks &&
  forallb (λ y, Bool.eqb (contains (cardText x) [rankChar (Rank y); suitChar (Suit y)]) (x =? y)) (seqZ 0 52).

Lemma text_checked x : is_card x → text_check x = true.
Proof.
  intros Hx. unfold is_card in Hx. assert (Hall : forallb text_check (seqZ 0 52) = true) by (vm_compute; reflexivity).
  rewrite forallb_seqZ in Hall. apply Hall. lia.
Qed.

Section Texts.
Context (x : Z) (Hx : is_card x).

Lemma card2Rank_text : card2Rank (cardText x) = Ok (Rank x).
Proof. pose proof (text_checked x Hx) as C. unfold text_check in C. rewrite !andb_true_iff, !bool_decide_eq_true in C. tauto. Qed.

Lemma card2Suit_text : card2Suit (cardText x) = Ok (suitChar (Suit x)).
Proof. pose proof (text_checked x Hx) as C. unfold text_check in C. rewrite !andb_true_iff, !bool_decide_eq_true in C. tauto. Qed.

Lemma contains_rank r : 0 ≤ r < 13 → contains (cardText x) [rankChar r] = (Rank x =? r).
Proof.
  intros Hr. pose proof (text_checked x Hx) as C. unfold text_check in C. rewrite !andb_true_iff in C.
  destruct C as [[_ C] _]. rewrite forallb_forall in C. apply Bool.eqb_prop, C, list_elem_of_In, all_ranks_elem, Hr.
Qed.

Lemma contains_card r s : 0 ≤ r < 13 → 0 ≤ s < 4 →
  contains (cardText x) [rankChar r; suitChar s] = (x =? 4 * r + s).
Proof.
  intros Hr Hs. pose proof (text_checked x Hx) as C. unfold text_check in C. rewrite !andb_true_iff in C.
  destruct C as [_ C]. rewrite forallb_seqZ in C. specialize (C (4 * r + s) ltac:(lia)). apply Bool.eqb_prop in C.
  assert (Rank (4 * r + s) = r ∧ Suit (4 * r + s) = s) as [E1 E2].
  { unfold Rank, Suit, NumSuits. Z.quot_rem_to_equations. lia. }
  by rewrite E1, E2 in C.
Qed.
End Texts.

Lemma rank_text_ok r : 0 ≤ r < 13 → rank_text r = Ok [rankChar r].
Proof.
  intros Hr. assert (Hall : forallb (λ r, bool_decide (rank_text r = Ok [rankChar r])) (seqZ 0 13) = true)
    by (vm_compute; reflexivity).
  rewrite forallb_seqZ in Hall. by apply (bool_decide_eq_true_1 _), (Hall r).
Qed.

Lemma suitChar_inj s s' : 0 ≤ s < 4 → 0 ≤ s' < 4 → (suitChar s =? suitChar s') = (s =? s').
Proof.
  intros Hs Hs'. assert (Hall : forallb (λ s, forallb (λ s', Bool.eqb (suitChar s =? suitChar s') (s =? s')) (seqZ 0 4)) (seqZ 0 4) = true)
    by (vm_compute; reflexivity).
  rewrite forallb_seqZ in Hall. specialize (Hall s ltac:(lia)). cbn beta in Hall. rewrite forallb_seqZ in Hall.
  apply Bool.eqb_prop, Hall. lia.
Qed.

Lemma suitChar_nz s : 0 ≤ s < 4 → nz (suitChar s) = true.
Proof.
  intros Hs. assert (Hall : forallb (λ s, nz (suitChar s)) (seqZ 0 4) = true) by (vm_compute; reflexivity).
  rewrite forallb_seqZ in Hall. by apply Hall.
Qed.

(** ** Places of cards *)

(** The places of the cards [p] accepts. *)
Definition places (p : Z → bool) (l : list Z) : list Z :=
  List.filter (λ i, p (at_ l i)) (seqZ 0 (zlen l)).

Lemma nth_search (q : Z → bool) i : ∀ L c, 0 ≤ c ≤ i →
  (o ← foldR (λ j count, if q j then if count =? i then Ok (inr j) else Ok (inl (count + 1)) else Ok (inl count)) L c;
   Ok (match o with inr j => j | inl _ => -1 end)) = Ok (nth (Z.to_nat (i - c)) (List.filter q L) (-1)).
Proof.
  induction L as [|j L IH]; intros c Hc; cbn [foldR List.filter].
  - cbn. by destruct (Z.to_nat (i - c)).
  - destruct (q j); cbn [mbind res_bind]; [|by apply IH].
    destruct (Z.eqb_spec c i) as [->|Hne]; cbn [mbind res_bind].
    + by rewrite Z.sub_diag.
    + change (match foldR _ L (c + 1) with Ok a => _ | Err f => _ end) with
        (o ← foldR (λ j count, if q j then if count =? i then Ok (inr j) else Ok (inl (count + 1)) else Ok (inl count)) L (c + 1);
         Ok (match o with inr j => j | inl _ => -1 end)).
      rewrite IH by lia. replace (Z.to_nat (i - c)) with (S (Z.to_nat (i - (c + 1)))) by lia. done.
Qed.

Lemma foldR_ext {A S R} (b1 b2 : A → S → res (S + R)) L s :
  (∀ x s, x ∈ L → b1 x s = b2 x s) → foldR b1 L s = foldR b2 L s.
Proof.
  revert s. induction L as [|x L IH]; intros s Hb; [done|]. cbn [foldR]. rewrite Hb by left.
  destruct (b2 x s) as [[s'|r]|]; cbn [mbind res_bind]; try done. apply IH. intros y s'' Hy. apply Hb. by right.
Qed.

Lemma getCardIndex_ok l (p : Z → bool) t i : Forall is_card l → 0 ≤ i →
  (∀ x, x ∈ l → contains (cardText x) t = p x) →
  getCardIndex (cardText <$> l) t i = Ok (nth (Z.to_nat i) (places p l) (-1)).
Proof.
  intros Hl Hi Hp. unfold getCardIndex, forR. rewrite length_fmap, Z.sub_0_r.
  rewrite (foldR_ext _ (λ j count, if p (at_ l j) then if count =? i then Ok (inr j) else Ok (inl (count + 1)) else Ok (inl count))).
  - rewrite nth_search by lia. by rewrite Z.sub_0_r.
  - intros j s [Hj1 Hj2]%elem_of_seqZ. rewrite rd_ok by (rewrite length_fmap; lia). cbn [mbind res_bind].
    unfold at_ at 1. rewrite (list_lookup_total_fmap cardText l) by lia. fold (at_ l j). rewrite Hp; [done|].
    apply list_elem_of_lookup. exists (Z.to_nat j). apply list_lookup_lookup_total_lt. lia.
Qed.

Lemma places_nodup p l : NoDup (places p l).
Proof. apply NoDup_lfilter, NoDup_seqZ. Qed.

Lemma places_elem p l w : w ∈ places p l ↔ 0 ≤ w < zlen l ∧ p (at_ l w) = true.
Proof.
  unfold places. rewrite list_elem_of_In, filter_In, <-list_elem_of_In, elem_of_seqZ. naive_solver lia.
Qed.

Lemma places_length r l : zlen (places (λ x, Rank x =? r) l) = multiplicity (Rank <$> l) r.
Proof.
  unfold places, zlen, multiplicity. f_equal. induction l as [|x l IH] using rev_ind; [done|].
  rewrite fmap_app, length_app, Nat2Z.inj_add, seqZ_app, !List.filter_app, !length_app, <-IH by lia. f_equal.
  - f_equal. apply List.filter_ext_in. intros i [Hi1 Hi2]%list_elem_of_In%elem_of_seqZ. by rewrite at_prefix_l by lia.
  - rewrite Z.add_0_l. change (Z.of_nat (length [x])) with 1. rewrite seqZ_cons by lia. cbn [List.filter seqZ].
    rewrite at_prefix_r. cbn [fmap list_fmap List.filter]. rewrite (Z.eqb_sym r). by destruct (Rank x =? r).
Qed.

Section Picks.
Context (l : list Z) (Hl : Forall is_card l).
Abbreviation mult := (multiplicity (Rank <$> l)).
Abbreviation spots r := (places (λ x, Rank x =? r) l).

(** [W] are places of cards with the ranks [R], each place the first unused one. *)
Inductive picked : list Z → list Z → Prop :=
  | picked_nil : picked [] []
  | picked_snoc R W r w :
      picked R W → spots r !! Z.to_nat (multiplicity R r) = Some w → picked (R ++ [r]) (W ++ [w]).

Lemma picked_length R W : picked R W → length W = length R.
Proof. induction 1; [done|]. rewrite !length_app. cbn. lia. Qed.

Lemma spot_rank r j w : spots r !! j = Some w → 0 ≤ w < zlen l ∧ Rank (at_ l w) = r.
Proof. intros Hw%list_elem_of_lookup_2. apply places_elem in Hw. by rewrite Z.eqb_eq in Hw. Qed.

Lemma picked_ranks R W : picked R W → Forall2 (λ w r, 0 ≤ w < zlen l ∧ Rank (at_ l w) = r) W R.
Proof.
  induction 1 as [|R W r w _ IH Hw]; [constructor|]. apply Forall2_app; [done|]. constructor; [|constructor].
  by eapply spot_rank.
Qed.

Lemma picked_used R W w : picked R W → w ∈ W →
  ∃ j, (Z.of_nat j < multiplicity R (Rank (at_ l w))) ∧ spots (Rank (at_ l w)) !! j = Some w.
Proof.
  induction 1 as [|R W r w' _ IH Hw]; [by intros ?%not_elem_of_nil|].
  rewrite elem_of_app, list_elem_of_singleton, multiplicity_snoc. intros [Hin| ->].
  - destruct (IH Hin) as (j & Hj & E). exists j. split; [|done]. unfold c_bool. case_match; lia.
  - destruct (spot_rank _ _ _ Hw) as [_ ->].
    rewrite Z.eqb_refl. exists (Z.to_nat (multiplicity R r)). split; [|done]. unfold multiplicity. cbn. lia.
Qed.

Lemma picked_nodup R W : picked R W → NoDup W.
Proof.
  induction 1 as [|R W r w Hp IH Hw]; [constructor|]. apply list.NoDup_app. split; [done|].
  split; [|apply NoDup_singleton]. intros y Hy ->%list_elem_of_singleton.
  destruct (picked_used R W w Hp Hy) as (j & Hj & E).
  destruct (spot_rank _ _ _ Hw) as [_ Er].
  rewrite Er in *. pose proof (NoDup_lookup _ _ _ _ (places_nodup _ _) E Hw). lia.
Qed.

(** Pushing the next card of rank [r]. *)
Lemma push_rank R W r : picked R W → 0 ≤ r < 13 → multiplicity R r < mult r →
  ∃ W', pushCardIndex (cardText <$> l) [rankChar r] (multiplicity R r) W = Ok W' ∧ picked (R ++ [r]) W'.
Proof.
  intros Hp Hr Hm. unfold pushCardIndex.
  rewrite (getCardIndex_ok l (λ x, Rank x =? r)); [|done|unfold multiplicity; lia|].
  - rewrite <-places_length in Hm. unfold zlen in Hm. assert (0 ≤ multiplicity R r) by (unfold multiplicity; lia).
    destruct (lookup_lt_is_Some_2 (spots r) (Z.to_nat (multiplicity R r))) as [w Hw]; [lia|].
    assert (nth (Z.to_nat (multiplicity R r)) (spots r) (-1) = w) as -> by (by apply nth_lookup_Some).
    destruct (spot_rank _ _ _ Hw) as [Hw' _].
    cbn [mbind res_bind]. rewrite (proj2 (Z.eqb_neq w (-1))) by lia. cbn [negb].
    eexists. split; [done|]. by apply picked_snoc.
  - intros x Hx. apply contains_rank; [|done]. rewrite list.Forall_forall in Hl. by apply Hl.
Qed.
End Picks.
