(* ===== verification/HighlightHand.v ===== *)
(** * The cards highlighted make the hand

    The loops of [setWinCardIndexes] and [analyzeStraight] over the groups of equal
    ranks, and from them the theorem on [hotEncodingWinCardIndexes]. *)

From stdpp Require Import base list list_numbers numbers option sorting.
From S2P Require Import Prelude GameDef Text EvalTables Eval EvalOrder Value ValueThm Print SBotEval SBotEvalThm SBotEvalOrder SBotEvalSmall Highlight HighlightThm.

Open Scope Z_scope.

Lemma multiplicity_app rs rs' r : multiplicity (rs ++ rs') r = multiplicity rs r + multiplicity rs' r.
Proof. unfold multiplicity. rewrite List.filter_app, length_app. lia. Qed.

Lemma multiplicity_replicate k r : multiplicity (replicate k r) r = Z.of_nat k.
Proof. unfold multiplicity. induction k as [|k IH]; [done|]. cbn. rewrite Z.eqb_refl. cbn [length]. lia. Qed.

Lemma rd_at {A} (l : list A) i x : 0 ≤ i → l !! Z.to_nat i = Some x → rd l i = Ok x.
Proof. intros Hi E. unfold rd. by rewrite (proj2 (Z.ltb_ge i 0)), E by lia. Qed.

(** The ranks of groups, one for each card. *)
Definition expand (G : list (Z * Z)) : list Z :=
  concat ((λ p : Z * Z, replicate (Z.to_nat (snd p)) (fst p)) <$> G).

Lemma expand_elem G r : r ∈ expand G → r ∈ G.*1.
Proof.
  unfold expand. rewrite list_elem_of_In, in_concat. intros (k & Hk & Hr).
  apply list_elem_of_In, list_elem_of_fmap in Hk as ([r' m] & -> & Hp). cbn [fst snd] in Hr.
  apply list_elem_of_In, elem_of_replicate in Hr as [-> _]. apply list_elem_of_fmap. by exists (r', m).
Qed.

Lemma expand_app G G' : expand (G ++ G') = expand G ++ expand G'.
Proof. unfold expand. by rewrite fmap_app, concat_app. Qed.

Section Loops.
Context (l : list Z) (Hl : Forall is_card l).
Abbreviation mult := (multiplicity (Rank <$> l)).
Abbreviation G := (rankGroups (Rank <$> l)).
Abbreviation cards := (cardText <$> l).

(** The cards of one group, as many as there is room for. *)
Lemma push_group R W r m : picked l R W → 0 ≤ r < 13 → multiplicity R r = 0 → 0 ≤ m ≤ mult r → (length R ≤ 5)%nat →
  ∃ W', for_ 0 m W (λ j win, if zlen win <? STD_HAND_NUM then pushCardIndex cards [rankChar r] j win else Ok win) = Ok W' ∧
    picked l (take 5 (R ++ replicate (Z.to_nat m) r)) W'.
Proof.
  intros Hp Hr H0 Hm HR.
  apply (for_inv (λ j W, picked l (take 5 (R ++ replicate (Z.to_nat j) r)) W)); [lia| |].
  - change (Z.to_nat 0) with 0%nat. cbn [replicate]. rewrite app_nil_r, take_ge by lia. done.
  - intros j W1 Hj Hp1. pose proof (picked_length _ _ _ Hp1) as Hlen. rewrite length_take, length_app, length_replicate in Hlen.
    rewrite Z2Nat.inj_add, Nat.add_1_r, replicate_S_end, app_assoc by lia.
    unfold zlen, STD_HAND_NUM. destruct (Z.ltb_spec (Z.of_nat (length W1)) 5).
    + rewrite take_ge in Hp1 by (rewrite length_app, length_replicate; lia).
      destruct (push_rank l Hl _ _ r Hp1 Hr) as (W' & E & Hp').
      { rewrite multiplicity_app, multiplicity_replicate. lia. }
      rewrite multiplicity_app, multiplicity_replicate, H0, Z.add_0_l, Z2Nat.id in E by lia.
      exists W'. split; [done|]. by rewrite take_ge by (rewrite !length_app, length_replicate; cbn; lia).
    + exists W1. split; [done|]. by rewrite take_app_le by (rewrite length_app, length_replicate; lia).
Qed.

Lemma groups_elem r m : (r, m) ∈ G ↔ 0 ≤ r < 13 ∧ 1 ≤ m ≤ 4 ∧ mult r = m.
Proof.
  unfold rankGroups. rewrite list_elem_of_In, filter_In, <-list_elem_of_In, all_pairs_elem, Z.eqb_eq. cbn. tauto.
Qed.

Lemma groups_keys : NoDup G.*1.
Proof.
  assert (Hnd : NoDup G) by (apply NoDup_lfilter, all_pairs_nodup).
  assert (Hf : ∀ r m m', (r, m) ∈ G → (r, m') ∈ G → m = m').
  { intros r m m' H1%groups_elem H2%groups_elem. lia. }
  revert Hnd Hf. generalize G as g. induction g as [|[r m] g IH]; cbn; [constructor|].
  intros [Hn Hnd]%list.NoDup_cons Hf. constructor.
  - intros ([r' m'] & E & Hin)%list_elem_of_fmap. cbn in E. subst r'.
    assert (m = m') as -> by (apply (Hf r); [by left|by right]). done.
  - apply IH; [done|]. intros r' m1 m2 H1 H2. apply (Hf r'); by right.
Qed.

Lemma groups_count r m : (r, m) ∈ G → getCountFromPairs G r = m.
Proof.
  intros Hin. unfold getCountFromPairs. destruct (List.find (λ rc, fst rc =? r) G) as [[r' m']|] eqn:E.
  - apply find_some in E as [H1 H2%Z.eqb_eq]. cbn in H2. subst r'. apply list_elem_of_In, groups_elem in H1.
    apply groups_elem in Hin. cbn. lia.
  - apply list_elem_of_In in Hin. apply (find_none _ _ E) in Hin. cbn in Hin. lia.
Qed.

(** What the first [i] groups leave. *)
Definition sofar (i : Z) : list Z := take 5 (expand (take (Z.to_nat i) G)).

Lemma sofar_step i r m : 0 ≤ i → G !! Z.to_nat i = Some (r, m) →
  sofar (i + 1) = take 5 (sofar i ++ replicate (Z.to_nat m) r).
Proof.
  intros Hi E. unfold sofar. rewrite Z2Nat.inj_add, Nat.add_1_r, (take_S_r _ _ _ E), expand_app by lia.
  change (expand [(r, m)]) with (replicate (Z.to_nat m) r ++ []). rewrite app_nil_r.
  set (x := expand _). set (y := replicate _ _).
  destruct (decide (length x ≤ 5)%nat); [by rewrite (take_ge x)|].
  rewrite !take_app_le by (rewrite ?length_take; lia). by rewrite take_take, Nat.min_id.
Qed.

Lemma sofar_fresh i r m : 0 ≤ i → G !! Z.to_nat i = Some (r, m) → multiplicity (sofar i) r = 0.
Proof.
  intros Hi E. apply multiplicity_none. intros Hin. unfold sofar in Hin.
  apply (subseteq_take 5), expand_elem in Hin. apply list_elem_of_lookup in Hin as (k & Hk).
  rewrite list_lookup_fmap in Hk. destruct (take (Z.to_nat i) G !! k) as [[r' m']|] eqn:Ek; [|done].
  cbn in Hk. injection Hk as ->. apply lookup_take_Some in Ek as [Ek Hki].
  assert (G.*1 !! k = Some r) as E1 by (by rewrite list_lookup_fmap, Ek).
  assert (G.*1 !! Z.to_nat i = Some r) as E2 by (by rewrite list_lookup_fmap, E).
  pose proof (NoDup_lookup _ _ _ _ groups_keys E1 E2). lia.
Qed.

Context (ranks : list Z).

(** One round without the special cases. *)
Lemma winGroup_plain i W : 0 ≤ i < zlen G → picked l (sofar i) W →
  (i = 0 → ∀ r, G !! 0%nat ≠ Some (r, 4)) →
  (i = 1 → zlen G = 4 → ∀ r0 r1 r2, ¬ (G !! 0%nat = Some (r0, 2) ∧ G !! 1%nat = Some (r1, 2) ∧ G !! 2%nat = Some (r2, 2))) →
  ∃ W', winGroup cards ranks G i W = Ok (inl W') ∧ picked l (sofar (i + 1)) W'.
Proof.
  intros Hi Hp Hq H2. unfold zlen in Hi. destruct (lookup_lt_is_Some_2 G (Z.to_nat i)) as [[r m] E]; [lia|].
  pose proof (list_elem_of_lookup_2 _ _ _ E) as Hin. pose proof (proj1 (groups_elem r m) Hin) as (Hr & Hm & Em).
  unfold winGroup. rewrite (rd_at _ _ _ (proj1 Hi) E). cbn [mbind res_bind fst].
  rewrite rank_text_ok by done. cbn [mbind res_bind]. rewrite (groups_count r m Hin).
  destruct (push_group (sofar i) W r m Hp Hr) as (W' & E' & Hp'); [apply (sofar_fresh i r m); [lia|done]|lia|unfold sofar; rewrite length_take; lia|].
  rewrite E'. cbn [mbind res_bind]. rewrite <-(sofar_step i r m) in Hp' by (done || lia).
  assert ((i =? 0) && (zlen W' =? STD_HAND_NUM - 1) = false) as ->.
  { destruct (Z.eqb_spec i 0) as [->|]; [|done]. cbn [andb]. apply Z.eqb_neq. unfold zlen, STD_HAND_NUM.
    rewrite (picked_length _ _ _ Hp'). rewrite (sofar_step 0 r m) by done. unfold sofar.
    change (take (Z.to_nat 0) G) with (@nil (Z * Z)). cbn [expand fmap list_fmap concat app]. rewrite take_nil.
    cbn [app]. rewrite length_take, length_replicate. intros H4. assert (m = 4) as -> by lia. by apply (Hq eq_refl r). }
  cbn [mbind res_bind]. exists W'. split; [|done].
  destruct (Z.eqb_spec i 1) as [->|]; [|done]. destruct (Z.eqb_spec (zlen G) 4) as [E4|]; [|done].
  specialize (H2 eq_refl E4). cbn [andb]. unfold zlen in E4.
  destruct (lookup_lt_is_Some_2 G 0) as [[r0 m0] E0]; [lia|]. destruct (lookup_lt_is_Some_2 G 1) as [[r1 m1] E1]; [lia|].
  destruct (lookup_lt_is_Some_2 G 2) as [[r2 m2] E2]; [lia|].
  rewrite (rd_at _ 0 _ ltac:(lia) E0), (rd_at _ 1 _ ltac:(lia) E1), (rd_at _ 2 _ ltac:(lia) E2). cbn [mbind res_bind snd].
  destruct (Z.eqb_spec m0 2) as [->|]; [|done]. destruct (Z.eqb_spec m1 2) as [->|]; [|done].
  destruct (Z.eqb_spec m2 2) as [->|]; [|done]. by destruct (H2 r0 r1 r2).
Qed.

Lemma win_plain :
  (∀ r, G !! 0%nat ≠ Some (r, 4)) →
  (zlen G = 4 → ∀ r0 r1 r2, ¬ (G !! 0%nat = Some (r0, 2) ∧ G !! 1%nat = Some (r1, 2) ∧ G !! 2%nat = Some (r2, 2))) →
  ∃ W, setWinCardIndexes cards ranks G 0 [] = Ok W ∧ picked l (take 5 (expand G)) W.
Proof.
  intros Hq H2. unfold setWinCardIndexes. change (nz 0) with false. cbn iota.
  destruct (forR_inv (λ i W, picked l (sofar i) W) (λ _ : list Z, False) 0 (zlen G) [] (winGroup cards ranks G))
    as [(W & E & Hp)|(r & _ & [])]; [unfold zlen; lia|constructor| |].
  - intros i W Hi Hp. left. apply winGroup_plain; auto.
  - rewrite E. exists W. split; [done|]. unfold sofar, zlen in Hp. by rewrite Nat2Z.id, firstn_all in Hp.
Qed.

Lemma push_other_ok other R W k : Forall digit ranks → List.find other ranks = Some k → picked l R W →
  multiplicity R k < mult k → multiplicity R k = 0 → ∀ rankSize, rankSize = zlen ranks →
  ∃ W', push_other cards ranks rankSize other W = Ok (inr W') ∧ picked l (R ++ [k]) W'.
Proof.
  intros Hd Hk Hp Hm H0 rankSize ->.
  destruct (push_rank l Hl R W k Hp) as (W' & E & Hp'); [|done|].
  { apply find_some in Hk as [Hk _]. rewrite List.Forall_forall in Hd. by apply Hd. }
  rewrite H0 in E. exists W'. split; [|done]. unfold push_other, forR, zlen. rewrite Z.sub_0_r.
  assert (Hsuf : ∀ n, (n ≤ length ranks)%nat → List.find other (drop n ranks) = Some k →
    foldR (λ j win, x ← rd ranks j; if other x then t ← rank_text x; win ← pushCardIndex cards t 0 win; Ok (inr win) else Ok (inl win))
      (seqZ (Z.of_nat n) (Z.of_nat (length ranks - n))) W = Ok (inr W')); [|specialize (Hsuf 0%nat); rewrite Nat.sub_0_r in Hsuf; apply Hsuf; [lia|done]].
  intros n. remember (length ranks - n)%nat as d eqn:Ed. revert n Ed. induction d as [|d IH]; intros n Ed Hn Hf.
  - rewrite drop_ge in Hf by lia. done.
  - destruct (lookup_lt_is_Some_2 ranks n) as [x Hx]; [lia|]. rewrite (drop_S _ x) in Hf by done. cbn [List.find] in Hf.
    rewrite seqZ_cons by lia. cbn [foldR]. rewrite (rd_at _ _ x) by (lia || by rewrite Nat2Z.id). cbn [mbind res_bind].
    destruct (other x).
    + injection Hf as ->. apply find_some in Hk as [Hk _]. rewrite List.Forall_forall in Hd.
      rewrite rank_text_ok by (by apply Hd). cbn [mbind res_bind]. rewrite E. done.
    + cbn [mbind res_bind]. replace (Z.succ (Z.of_nat n)) with (Z.of_nat (S n)) by lia.
      replace (Z.pred (Z.of_nat (S d))) with (Z.of_nat d) by lia. apply IH; [lia|lia|done].
Qed.

Lemma forR_first {S R} (body : Z → S → res (S + R)) lo hi s : lo < hi →
  forR lo hi s body = (o ← body lo s; match o with inl s' => forR (lo + 1) hi s' body | inr r => Ok (inr r) end).
Proof.
  intros Hlt. unfold forR. rewrite seqZ_cons by lia. cbn [foldR]. unfold Z.succ.
  by replace (Z.pred (hi - lo)) with (hi - (lo + 1)) by lia.
Qed.

Context (Hranks : Forall digit ranks) (Hsize : zlen ranks = zlen G).

Lemma win_quads r k : G !! 0%nat = Some (r, 4) → List.find (λ x, negb (x =? r)) ranks = Some k → 1 ≤ mult k →
  ∃ W, setWinCardIndexes cards ranks G 0 [] = Ok W ∧ picked l [r; r; r; r; k] W.
Proof.
  intros E0 Hk Hmk. unfold setWinCardIndexes. change (nz 0) with false. cbn iota.
  pose proof (lookup_lt_Some _ _ _ E0) as Hlen. pose proof (list_elem_of_lookup_2 _ _ _ E0) as Hin.
  pose proof (proj1 (groups_elem r 4) Hin) as (Hr & _ & Em).
  rewrite forR_first by (unfold zlen; lia). unfold winGroup. rewrite (rd_at _ 0 _ ltac:(lia) E0). cbn [mbind res_bind fst].
  rewrite rank_text_ok by done. cbn [mbind res_bind]. rewrite (groups_count r 4 Hin).
  destruct (push_group [] [] r 4) as (W' & E' & Hp'); [constructor|done|done|lia|cbn; lia|].
  rewrite E'. cbn [mbind res_bind]. pose proof (picked_length _ _ _ Hp') as HW. cbn in HW, Hp'.
  change (zlen W') with (Z.of_nat (length W')). rewrite HW. change ((0 =? 0) && (Z.of_nat 4 =? STD_HAND_NUM - 1)) with true. cbn iota.
  apply find_some in Hk as Hk'. destruct Hk' as [_ Hk'%negb_true_iff].
  assert (multiplicity [r; r; r; r] k = 0) as Hz.
  { apply multiplicity_none. rewrite !elem_of_cons, elem_of_nil. intros Hc. assert (k = r) by tauto. lia. }
  destruct (push_other_ok (λ x, negb (x =? r)) [r; r; r; r] W' k Hranks Hk Hp' ltac:(lia) Hz (zlen G) (eq_sym Hsize))
    as (W2 & E2 & Hp2).
  rewrite E2. exists W2. done.
Qed.

Lemma win_three_pairs r0 r1 r2 k : zlen G = 4 →
  G !! 0%nat = Some (r0, 2) → G !! 1%nat = Some (r1, 2) → G !! 2%nat = Some (r2, 2) →
  List.find (λ x, negb (x =? r0) && negb (x =? r1)) ranks = Some k → 1 ≤ mult k →
  ∃ W, setWinCardIndexes cards ranks G 0 [] = Ok W ∧ picked l [r0; r0; r1; r1; k] W.
Proof.
  intros H4 E0 E1 E2 Hk Hmk. unfold setWinCardIndexes. change (nz 0) with false. cbn iota.
  rewrite forR_first by lia.
  destruct (winGroup_plain 0 []) as (W & E & Hp); [lia|constructor|intros _ r; by rewrite E0|lia|].
  rewrite E. cbn [mbind res_bind]. rewrite forR_first by lia. cbn in Hp.
  assert (Hs1 : sofar 1 = [r0; r0]).
  { change 1 with (0 + 1) at 1. rewrite (sofar_step 0 r0 2) by done. unfold sofar. change (take (Z.to_nat 0) G) with (@nil (Z * Z)). done. }
  assert (Hs2 : sofar 2 = [r0; r0; r1; r1]) by (change 2 with (1 + 1) at 1; rewrite (sofar_step 1 r1 2), Hs1 by done; done).
  change (0 + 1) with 1 in *. rewrite Hs1 in Hp.
  pose proof (list_elem_of_lookup_2 _ _ _ E1) as Hin. pose proof (proj1 (groups_elem r1 2) Hin) as (Hr & _ & Em).
  unfold winGroup. rewrite (rd_at _ 1 _ ltac:(lia) E1). cbn [mbind res_bind fst].
  rewrite rank_text_ok by done. cbn [mbind res_bind]. rewrite (groups_count r1 2 Hin).
  destruct (push_group [r0; r0] W r1 2 Hp Hr) as (W' & E' & Hp'); [rewrite <-Hs1; by apply (sofar_fresh 1 r1 2)|lia|cbn; lia|].
  rewrite E'. cbn [mbind res_bind]. cbn in Hp'. change ((1 =? 0) && _) with false. cbn iota. cbn [mbind res_bind].
  rewrite H4. change ((1 =? 1) && (4 =? 4)) with true. cbn iota.
  rewrite (rd_at _ 0 _ ltac:(lia) E0), (rd_at _ 2 _ ltac:(lia) E2). cbn [mbind res_bind snd fst].
  change ((2 =? 2) && (2 =? 2) && (2 =? 2)) with true. cbn iota.
  apply find_some in Hk as Hk'. destruct Hk' as [_ [Hk1%negb_true_iff Hk2%negb_true_iff]%andb_true_iff].
  assert (multiplicity [r0; r0; r1; r1] k = 0) as Hz.
  { apply multiplicity_none. rewrite !elem_of_cons, elem_of_nil. intros Hc. assert (k = r0 ∨ k = r1) by tauto. lia. }
  destruct (push_other_ok (λ x, negb (x =? r0) && negb (x =? r1)) [r0; r0; r1; r1] W' k Hranks Hk Hp' ltac:(lia) Hz 4 ltac:(lia))
    as (W2 & EW & Hp2).
  rewrite EW. exists W2. done.
Qed.
End Loops.

(** ** Straights in a descending list *)
Abbreviation falls_strictly := (StronglySorted (λ a b : Z, b < a)).

(** The list starts with five ranks that fall by one each. *)
Definition run5 (rk : list Z) : bool :=
  match rk with
  | a :: b :: c :: d :: e :: _ => (a - 1 =? b) && (b - 1 =? c) && (c - 1 =? d) && (d - 1 =? e)
  | _ => false
  end.

Fixpoint scan (rk : list Z) : option Z :=
  match rk with
  | [] => None
  | t :: rest => if run5 rk then Some t else scan rest
  end.

(** The next rank down, if there is one, comes next. *)
Lemma next_down t rk : falls_strictly (t :: rk) → t - 1 ∈ rk → ∃ rk', rk = t - 1 :: rk'.
Proof.
  intros [Hs Ht]%StronglySorted_inv Hin. rewrite list.Forall_forall in Ht. destruct rk as [|a rk]; [by apply not_elem_of_nil in Hin|].
  exists rk. f_equal. apply elem_of_cons in Hin as [->|Hin]; [done|]. apply StronglySorted_inv in Hs as [_ Ha].
  rewrite list.Forall_forall in Ha. specialize (Ha _ Hin). cbn in Ha. specialize (Ht a ltac:(left)). cbn in Ht. lia.
Qed.

Lemma run_down a rk lo : falls_strictly (a :: rk) → lo < a → (∀ x, lo ≤ x ≤ a → x ∈ a :: rk) →
  ∃ rk', rk = a - 1 :: rk' ∧ falls_strictly (a - 1 :: rk') ∧ (∀ x, lo ≤ x ≤ a - 1 → x ∈ a - 1 :: rk').
Proof.
  intros Hs Hlo Hall. assert (Hin : ∀ x, lo ≤ x ≤ a - 1 → x ∈ rk).
  { intros x Hx. specialize (Hall x ltac:(lia)). apply elem_of_cons in Hall as [->|?]; [lia|done]. }
  destruct (next_down a rk Hs) as (rk' & ->); [apply Hin; lia|]. apply StronglySorted_inv in Hs as [Hs _]. eauto.
Qed.

Lemma run5_iff t rk : falls_strictly (t :: rk) →
  run5 (t :: rk) = true ↔ ∀ x, t - 4 ≤ x ≤ t → x ∈ t :: rk.
Proof.
  intros Hs. split.
  - intros Hr x Hx. destruct rk as [|b [|c [|d [|e rk]]]]; try done. cbn [run5] in Hr. rewrite !elem_of_cons. lia.
  - intros Hall. destruct (run_down t rk (t - 4) Hs ltac:(lia) Hall) as (rk1 & -> & Hs1 & Hall1).
    destruct (run_down _ rk1 (t - 4) Hs1 ltac:(lia) Hall1) as (rk2 & -> & Hs2 & Hall2).
    destruct (run_down _ rk2 (t - 4) Hs2 ltac:(lia) Hall2) as (rk3 & -> & Hs3 & Hall3).
    destruct (run_down _ rk3 (t - 4) Hs3 ltac:(lia) Hall3) as (rk4 & -> & Hs4 & Hall4).
    cbn [run5]. lia.
Qed.

(** [scan] finds the top of the highest five ranks in a row. *)
Definition row (rk : list Z) (t : Z) : Prop := ∀ x, t - 4 ≤ x ≤ t → x ∈ rk.

Lemma row_below t rk t' : falls_strictly (t :: rk) → t' < t → row (t :: rk) t' → row rk t'.
Proof. intros _ Ht Hr x Hx. specialize (Hr x Hx). apply elem_of_cons in Hr as [->|?]; [lia|done]. Qed.

Lemma row_top t rk t' : falls_strictly (t :: rk) → row (t :: rk) t' → t' ≤ t.
Proof.
  intros [_ Ht]%StronglySorted_inv Hr. specialize (Hr t' ltac:(lia)). apply elem_of_cons in Hr as [->|Hr]; [lia|].
  rewrite list.Forall_forall in Ht. specialize (Ht t' Hr). cbn in Ht. lia.
Qed.

Lemma scan_top rk : falls_strictly rk →
  match scan rk with
  | Some t => row rk t ∧ (∀ t', t < t' → ¬ row rk t')
  | None => ∀ t', ¬ row rk t'
  end.
Proof.
  induction rk as [|t rk IH]; intros Hs.
  - intros t' Hr. specialize (Hr t' ltac:(lia)). by apply not_elem_of_nil in Hr.
  - cbn [scan]. destruct (run5 (t :: rk)) eqn:E.
    + split; [exact (proj1 (run5_iff _ _ Hs) E)|]. intros t' Ht Hr. apply row_top in Hr; [lia|done].
    + assert (Hno : ¬ row (t :: rk) t) by (intros Hr; pose proof (proj2 (run5_iff _ _ Hs) Hr); congruence).
      pose proof Hs as [Hs' _]%StronglySorted_inv. specialize (IH Hs').
      assert (Hcut : ∀ t', row (t :: rk) t' → row rk t').
      { intros t' Hr. pose proof (row_top _ _ _ Hs Hr). destruct (decide (t' = t)) as [->|]; [done|].
        apply (row_below t); [done|lia|done]. }
      destruct (scan rk) as [u|].
      * destruct IH as [Hu Hmax]. split; [intros x Hx; right; by apply Hu|]. intros t' Ht Hr. by apply (Hmax t' Ht), Hcut.
      * intros t' Hr. by apply (IH t'), Hcut.
Qed.

Lemma first_max p n t : 3 ≤ t < Z.of_nat n + 3 → p t = true →
  (∀ t', t < t' < Z.of_nat n + 3 → p t' = false) → first p n = Some t.
Proof.
  intros Ht Hp Hmax. rewrite (first_skip p n (Z.to_nat (t - 2))); [|lia|intros u Hu; apply Hmax; lia].
  rewrite first_top by lia. by rewrite Hp.
Qed.

(** The ranks with the ace below the deuce too. *)
Definition with_low_ace (rk : list Z) : list Z :=
  if existsb (Z.eqb ACE_RANK) rk then rk ++ [ACE_LOW_RANK] else rk.

Section AnyStraight.
Context (f : Z → bool).

Lemma low_ace_elem x : x ∈ with_low_ace (ranks f) ↔ -1 ≤ x ≤ 12 ∧ f (low x) = true.
Proof.
  unfold with_low_ace, low, ACE_LOW_RANK. change ACE_RANK with 12.
  assert (existsb (Z.eqb 12) (ranks f) = f 12) as ->.
  { apply Bool.eq_iff_eq_true. rewrite existsb_exists. split.
    - intros (y & Hy & <-%Z.eqb_eq). apply list_elem_of_In, ranks_elem in Hy. tauto.
    - intros H12. exists 12. split; [apply list_elem_of_In, ranks_elem; split; [lia|done]|done]. }
  destruct (f 12) eqn:E12; rewrite ?elem_of_app, ?list_elem_of_singleton, ranks_elem;
    destruct (Z.eqb_spec x (-1)) as [->|]; rewrite ?E12; intuition (lia || congruence).
Qed.

Lemma low_ace_sorted : falls_strictly (with_low_ace (ranks f)).
Proof.
  unfold with_low_ace. destruct (existsb _ _); [|apply filter_ranks_sorted].
  apply StronglySorted_app. split_and!; [|apply filter_ranks_sorted|by repeat constructor].
  intros a b Ha%ranks_elem Hb%list_elem_of_singleton. unfold ACE_LOW_RANK in Hb. lia.
Qed.

Lemma row_straight t : row (with_low_ace (ranks f)) t ↔ 3 ≤ t ≤ 12 ∧ straight_at f t = true.
Proof.
  rewrite straight_at_low. unfold row. split.
  - intros Hr. assert (Hr' : ∀ x, t - 4 ≤ x ≤ t → -1 ≤ x ≤ 12 ∧ f (low x) = true) by (intros x Hx; by apply low_ace_elem, Hr).
    pose proof (Hr' t ltac:(lia)) as [Ht _]. pose proof (Hr' (t - 4) ltac:(lia)) as [Ht' _].
    split; [lia|]. intros x Hx. by apply Hr'.
  - intros [Ht Hs] x Hx. apply low_ace_elem. split; [lia|by apply Hs].
Qed.

Lemma scan_straight : scan (with_low_ace (ranks f)) = straight_top f.
Proof.
  pose proof (scan_top _ low_ace_sorted) as Hs. rewrite straight_top_first. destruct (scan _) as [t|].
  - destruct Hs as [[Ht Hp]%row_straight Hmax]. symmetry. apply first_max; [lia|done|].
    intros t' Ht'. apply not_true_iff_false. intros Hp'. apply (Hmax t'); [lia|]. apply row_straight. split; [lia|done].
  - destruct (first (straight_at f) 10) as [t|] eqn:E; [|done]. exfalso. rewrite <-straight_top_first in E.
    apply straight_top_range in E. by apply (Hs t), row_straight.
Qed.
End AnyStraight.

(** ** [analyzeStraight] *)
Lemma rd_drop {A} (rk : list A) n k x : drop n rk !! k = Some x → rd rk (Z.of_nat n + Z.of_nat k) = Ok x.
Proof. intros E. rewrite lookup_drop in E. apply rd_at; [lia|]. by replace (Z.to_nat _) with (n + k)%nat by lia. Qed.

Lemma five_down_ok rk n : (n + 5 ≤ length rk)%nat → five_down rk (Z.of_nat n) = Ok (run5 (drop n rk)).
Proof.
  intros Hn. assert (Hd : length (drop n rk) = (length rk - n)%nat) by apply length_drop.
  pose proof (λ k x, rd_drop rk n k x) as Hrd.
  destruct (drop n rk) as [|a [|b [|c [|d [|e rest]]]]]; cbn [length] in Hd; try lia. clear Hd.
  pose proof (Hrd 0%nat a eq_refl) as Ha. pose proof (Hrd 1%nat b eq_refl) as Hb. pose proof (Hrd 2%nat c eq_refl) as Hc.
  pose proof (Hrd 3%nat d eq_refl) as Hd. pose proof (Hrd 4%nat e eq_refl) as He. clear Hrd.
  set (i := Z.of_nat n) in *. unfold five_down, STD_HAND_NUM. cbn [run5].
  replace (i + Z.of_nat 0) with i in Ha by lia.
  rewrite forR_first, Ha by lia. replace (i + 1) with (i + Z.of_nat 1) by lia. rewrite Hb. cbn [mbind res_bind].
  destruct (a - 1 =? b); cbn [negb andb mbind res_bind]; [|done].
  rewrite forR_first, Hb by lia. replace (i + Z.of_nat 1 + 1) with (i + Z.of_nat 2) by lia. rewrite Hc. cbn [mbind res_bind].
  destruct (b - 1 =? c); cbn [negb andb mbind res_bind]; [|done].
  rewrite forR_first, Hc by lia. replace (i + Z.of_nat 2 + 1) with (i + Z.of_nat 3) by lia. rewrite Hd. cbn [mbind res_bind].
  destruct (c - 1 =? d); cbn [negb andb mbind res_bind]; [|done].
  rewrite forR_first, Hd by lia. replace (i + Z.of_nat 3 + 1) with (i + Z.of_nat 4) by lia. rewrite He. cbn [mbind res_bind].
  destruct (d - 1 =? e); cbn [negb andb mbind res_bind]; [|done].
  unfold forR. by replace (i + 5 - 1 - (i + Z.of_nat 4)) with 0 by lia.
Qed.

Section Push.
Context (cards : list (list Z)) (f : Z → bool) (flushSuit : Z) (h : Z → Z).
Context (Hpush : ∀ r W, 0 ≤ r < 13 → f r = true →
  (card ← rank_text r; pushCardIndex cards (if nz flushSuit then card ++ char2String flushSuit else card) 0 W) = Ok (W ++ [h r])).

Abbreviation push_straight ranks i :=
  (for_ i (i + STD_HAND_NUM) [] (λ k win,
     rank ← rd ranks k;
     let rank := if rank =? ACE_LOW_RANK then ACE_RANK else rank in
     card ← rank_text rank;
     pushCardIndex cards (if nz flushSuit then card ++ char2String flushSuit else card) 0 win)).

(** The five cards of a straight found at place [n]. *)
Lemma push_straight_ok n t rest : drop n (with_low_ace (ranks f)) = t :: rest → run5 (t :: rest) = true →
  push_straight (with_low_ace (ranks f)) (Z.of_nat n) = Ok (h <$> window t).
Proof.
  intros Ed Hr. destruct rest as [|b [|c [|d [|e rest]]]]; try done. cbn [run5] in Hr.
  assert (b = t - 1 ∧ c = t - 2 ∧ d = t - 3 ∧ e = t - 4) as (-> & -> & -> & ->) by lia. clear Hr.
  assert (Hk : ∀ k W, (k < 5)%nat →
    (rank ← rd (with_low_ace (ranks f)) (Z.of_nat n + Z.of_nat k);
     let rank := if rank =? ACE_LOW_RANK then ACE_RANK else rank in
     card ← rank_text rank;
     pushCardIndex cards (if nz flushSuit then card ++ char2String flushSuit else card) 0 W) =
    Ok (W ++ [h (low (t - Z.of_nat k))])).
  { intros k W Hk5. assert (drop n (with_low_ace (ranks f)) !! k = Some (t - Z.of_nat k)) as E.
    { rewrite Ed. do 5 (destruct k as [|k]; [cbn; f_equal; lia|]). lia. }
    rewrite (rd_drop _ _ _ _ E). cbn [mbind res_bind]. apply list_elem_of_lookup_2, (subseteq_drop n), low_ace_elem in E.
    destruct E as [Hx Hf]. unfold ACE_LOW_RANK. change ACE_RANK with 12. fold (low (t - Z.of_nat k)).
    apply Hpush; [|done]. unfold low. destruct (Z.eqb_spec (t - Z.of_nat k) (-1)); lia. }
  unfold for_, STD_HAND_NUM. replace (Z.of_nat n + 5 - Z.of_nat n) with 5 by lia.
  change (seqZ (Z.of_nat n) 5) with ((λ k, Z.of_nat k + Z.of_nat n) <$> seq 0 5).
  cbn [seq fmap list_fmap foldM]. rewrite !(Z.add_comm _ (Z.of_nat n)).
  rewrite !Hk by lia. cbn [mbind res_bind]. rewrite !Hk by lia. cbn [mbind res_bind app].
  rewrite !Hk by lia. cbn [mbind res_bind app]. rewrite !Hk by lia. cbn [mbind res_bind app].
  rewrite !Hk by lia. cbn [mbind res_bind app]. done.
Qed.

(** The loop over the places where a straight can start. *)
Lemma straight_search n : ∀ i, (length (with_low_ace (ranks f)) - i)%nat = n →
  (i ≤ length (with_low_ace (ranks f)))%nat →
  forR (Z.of_nat i) (Z.max (Z.of_nat i) (zlen (with_low_ace (ranks f)) - STD_HAND_NUM + 1)) tt (λ i _,
      b ← five_down (with_low_ace (ranks f)) i;
      if (b : bool) then
        win ← push_straight (with_low_ace (ranks f)) i;
        m ← rd (with_low_ace (ranks f)) i;
        Ok (inr (true, m, win))
      else Ok (inl tt)) =
    Ok (match scan (drop i (with_low_ace (ranks f))) with
        | Some t => inr (true, t, h <$> window t) | None => inl tt end).
Proof.
  set (rk := with_low_ace (ranks f)). induction n as [|n IH]; intros i Hn Hi.
  - rewrite drop_ge by lia. unfold forR, zlen, STD_HAND_NUM. rewrite Z.max_l, Z.sub_diag by lia. done.
  - unfold zlen, STD_HAND_NUM in *. destruct (lookup_lt_is_Some_2 rk i) as [t Et]; [lia|].
    rewrite (drop_S _ t) by done. cbn [scan]. rewrite <-(drop_S _ t) by done.
    destruct (decide (i + 5 ≤ length rk)%nat) as [H5|H5].
    + rewrite Z.max_r, forR_first, five_down_ok by lia. cbn [mbind res_bind].
      destruct (run5 (drop i rk)) eqn:E.
      * pose proof (push_straight_ok i t (drop (S i) rk)) as Hp. rewrite <-(drop_S _ t) in Hp by done.
        fold rk in Hp. unfold STD_HAND_NUM in Hp. rewrite Hp by done. cbn [mbind res_bind].
        rewrite (rd_at _ _ t) by (lia || by rewrite Nat2Z.id). done.
      * cbn [mbind res_bind]. specialize (IH (S i) ltac:(lia) ltac:(lia)).
        rewrite <-IH. replace (Z.of_nat i + 1) with (Z.of_nat (S i)) by lia. f_equal. lia.
    + rewrite Z.max_l by lia. unfold forR. rewrite Z.sub_diag. cbn [seqZ foldR].
      assert (Hshort : ∀ k : list Z, (length k < 5)%nat → run5 k = false ∧ scan k = None).
      { induction k as [|a k IHk]; intros Hk; [done|]. destruct (IHk ltac:(cbn in Hk; lia)) as [_ Hs].
        assert (run5 (a :: k) = false) as Hr by (destruct k as [|? [|? [|? [|? ?]]]]; cbn in Hk; done || lia).
        split; [done|]. cbn [scan]. by rewrite Hr. }
      destruct (Hshort (drop i rk)) as [-> _]; [rewrite length_drop; lia|].
      destruct (Hshort (drop (S i) rk)) as [_ ->]; [rewrite length_drop; lia|]. done.
Qed.

Lemma analyzeStraight_ok : analyzeStraight cards (ranks f) flushSuit false (-1) [] =
  Ok (match straight_top f with Some t => (true, t, h <$> window t) | None => (false, -1, []) end).
Proof.
  unfold analyzeStraight. destruct (Z.leb_spec STD_HAND_NUM (zlen (ranks f))) as [H5|H5].
  - pose proof (straight_search _ 0%nat eq_refl ltac:(lia)) as Hs. rewrite drop_0, scan_straight in Hs.
    assert (Hm : STD_HAND_NUM ≤ zlen (with_low_ace (ranks f))).
    { unfold with_low_ace. destruct (existsb _ _); [|done]. unfold zlen in *. rewrite length_app. lia. }
    rewrite Z.max_r in Hs by (unfold STD_HAND_NUM in *; lia).
    assert (E : (if existsb (Z.eqb ACE_RANK) (ranks f) then (ranks f ++ [ACE_LOW_RANK], zlen (ranks f) + 1)
                 else (ranks f, zlen (ranks f))) = (with_low_ace (ranks f), zlen (with_low_ace (ranks f)))).
    { unfold with_low_ace. destruct (existsb _ _); [|done]. f_equal. unfold zlen. rewrite length_app. cbn [length]. lia. }
    cbv zeta in Hs |- *. rewrite E. cbv iota beta. change (Z.of_nat 0) with 0 in Hs. rewrite Hs. cbn [mbind res_bind]. by destruct (straight_top f).
  - destruct (straight_top f) as [t|] eqn:E; [|done]. apply straight_top_range in E as [Ht Hs].
    pose proof (straight_five _ _ Ht Hs). unfold zlen, STD_HAND_NUM in H5. lia.
Qed.

(** The cards of a flush: the five highest of the suit. *)
Lemma flush_cards G : nz flushSuit = true →
  setWinCardIndexes cards (ranks f) G flushSuit [] = Ok (h <$> take 5 (ranks f)).
Proof.
  intros Hz. unfold setWinCardIndexes. rewrite Hz in Hpush |- *.
  match goal with |- for_ _ _ _ ?b = _ =>
    destruct (for_inv (λ i W, W = h <$> take 5 (take (Z.to_nat i) (ranks f))) 0 (zlen (ranks f)) [] b)
      as (W & E & ->) end; [unfold zlen; lia|done| |].
  - intros i W Hi ->. unfold zlen in Hi |- *. rewrite length_fmap, !length_take.
    rewrite Z2Nat.inj_add, Nat.add_1_r by lia. destruct (lookup_lt_is_Some_2 (ranks f) (Z.to_nat i)) as [r Er]; [lia|].
    rewrite (take_S_r _ _ _ Er). unfold STD_HAND_NUM. destruct (Z.ltb_spec (Z.of_nat (5 `min` (Z.to_nat i `min` length (ranks f)))) 5).
    + rewrite (rd_at _ _ _ (proj1 Hi) Er). cbn [mbind res_bind].
      apply list_elem_of_lookup_2, ranks_elem in Er as [Hr Hf]. rewrite (Hpush r _ Hr Hf). eexists. split; [done|].
      rewrite (take_ge (_ ++ [r])), (take_ge (take _ _)) by (rewrite ?length_app, ?length_take; cbn [length]; lia).
      by rewrite fmap_app.
    + eexists. split; [done|]. by rewrite take_app_le by (rewrite length_take; lia).
  - rewrite E. unfold zlen. by rewrite Nat2Z.id, firstn_all.
Qed.
End Push.
