(* ===== verification/HighlightSpec.v ===== *)
(** * What the highlighting promises

    On five to seven different cards the type is that of the best hand by the
    rules ([Eval.hand_of]) and the cards marked are five cards with the ranks of
    that hand, of one suit when the hand is a flush. *)

From stdpp Require Import base list list_numbers numbers option sorting.
From S2P Require Import Prelude GameDef Text EvalTables Eval EvalOrder Value ValueThm Print SBotEval SBotEvalThm SBotEvalOrder SBotEvalSmall Highlight HighlightThm HighlightHand.

Open Scope Z_scope.

Definition type_of (h : hand) : Z :=
  match h with
  | HighCard _ => HIGH_CARD
  | Pair _ _ => PAIR
  | TwoPair _ _ _ => TWO_PAIR
  | Trips _ _ => THREE_OF_A_KIND
  | Straight _ => STRAIGHT
  | Flush _ => FLUSH
  | FullHouse _ _ => FULL_HOUSE
  | Quads _ _ => FOUR_OF_A_KIND
  | StraightFlush t => if t =? ACE_RANK then ROYAL_FLUSH else STRAIGHT_FLUSH
  end.

(** The ranks of the five cards. *)
Definition hand_ranks (h : hand) : list Z :=
  match h with
  | HighCard ks | Flush ks => ks
  | Pair r ks => [r; r] ++ ks
  | TwoPair r1 r2 k => [r1; r1; r2; r2; k]
  | Trips r ks => [r; r; r] ++ ks
  | Straight t | StraightFlush t => window t
  | FullHouse r p => [r; r; r; p; p]
  | Quads r k => [r; r; r; r; k]
  end.

Definition one_suit (h : hand) : bool :=
  match h with Flush _ | StraightFlush _ => true | _ => false end.

(** The places [W] hold the cards of the hand [h] among the cards [l]. *)
Definition marks (l : list Z) (h : hand) (W : list Z) : Prop :=
  NoDup W ∧ Forall2 (λ w r, 0 ≤ w < zlen l ∧ Rank (at_ l w) = r) W (hand_ranks h) ∧
  (one_suit h = true → ∃ s, ∀ w, w ∈ W → Suit (at_ l w) = s).

(** ** Groups by size *)
Definition exactly (c : Z → Z → bool) (m : Z) : list Z := ranks (λ r, count c r =? m).

Lemma filter_fmap_pair (f : Z * Z → bool) m L :
  List.filter f ((λ r, (r, m)) <$> L) = (λ r, (r, m)) <$> List.filter (λ r, f (r, m)) L.
Proof. induction L as [|x L IH]; [done|]. cbn [fmap list_fmap List.filter]. destruct (f (x, m)); cbn [fmap list_fmap]; by rewrite IH. Qed.

Lemma filter_split (f g h : Z → bool) L : (∀ x, x ∈ L → f x = g x || h x) → (∀ x, x ∈ L → g x && h x = false) →
  length (List.filter f L) = (length (List.filter g L) + length (List.filter h L))%nat.
Proof.
  induction L as [|x L IH]; intros Hf Hg; [done|]. cbn [List.filter]. specialize (Hf x ltac:(left)) as Hx.
  specialize (Hg x ltac:(left)) as Hx'. rewrite Hx.
  assert (IH' := IH (λ y Hy, Hf y (list_elem_of_further _ _ _ Hy)) (λ y Hy, Hg y (list_elem_of_further _ _ _ Hy))).
  destruct (g x), (h x); cbn in *; try done; lia.
Qed.

(** The ranks of a straight are different and all there. *)
Lemma window_nodup t : 3 ≤ t ≤ 12 → NoDup (window t).
Proof.
  intros Ht. assert (E : forallb (λ t, bool_decide (NoDup (window t))) (seqZ 3 10) = true) by (vm_compute; reflexivity).
  rewrite forallb_seqZ in E. specialize (E t ltac:(lia)). by apply bool_decide_eq_true in E.
Qed.

Lemma window_there f t r : 3 ≤ t ≤ 12 → straight_at f t = true → r ∈ window t → 0 ≤ r < 13 ∧ f r = true.
Proof.
  intros Ht Hs (i & -> & Hi)%list_elem_of_fmap. rewrite straight_at_low in Hs.
  assert (0 ≤ i ≤ 4) as Hi' by (rewrite !elem_of_cons, elem_of_nil in Hi; lia).
  specialize (Hs (t - i) ltac:(lia)). unfold low in Hs. split; [|done]. destruct (Z.eqb_spec (t - i) (-1)); lia.
Qed.

Lemma ranks_nodup f : NoDup (ranks f).
Proof. apply NoDup_lfilter. apply (bool_decide_unpack _). vm_compute. exact I. Qed.

Section Dealt.
Context (l : list Z) (Hl : Forall is_card l) (Hnd : NoDup l) (H5 : (5 ≤ length l ≤ 7)%nat).
Abbreviation c := (held l).
Abbreviation rs := (Rank <$> l).
Abbreviation G := (rankGroups rs).
Abbreviation cards := (cardText <$> l).

Lemma mult_count r : 0 ≤ r < 13 → multiplicity rs r = count c r.
Proof.
  clear H5. revert Hl Hnd. induction l as [|x k IH] using rev_ind; intros Hk Hn Hr; [done|].
  apply Forall_app in Hk as [Hk Hx]. rewrite Forall_singleton in Hx. apply list.NoDup_app in Hn as (Hn & Hdis & _).
  assert (Hxk : x ∉ k) by (intros Hin; apply (Hdis x Hin); left).
  rewrite fmap_app. change (Rank <$> [x]) with [Rank x]. rewrite multiplicity_snoc, count_snoc, IH by done.
  by rewrite Z.eqb_sym.
Qed.

Lemma rs_digits : Forall digit rs.
Proof. apply Forall_fmap. revert Hl. apply List.Forall_impl. intros x Hx. by destruct (card_split x Hx). Qed.

Lemma mult_four r : multiplicity rs r ≤ 4.
Proof.
  destruct (decide (0 ≤ r < 13)) as [Hr|Hr]; [rewrite mult_count by done; apply count_range|].
  rewrite multiplicity_none; [lia|]. intros Hin. pose proof rs_digits as Hd. rewrite list.Forall_forall in Hd.
  by apply Hd in Hin.
Qed.

Lemma groups_exactly : G = ((λ r, (r, 4)) <$> exactly c 4) ++ ((λ r, (r, 3)) <$> exactly c 3) ++
  ((λ r, (r, 2)) <$> exactly c 2) ++ ((λ r, (r, 1)) <$> exactly c 1).
Proof.
  unfold rankGroups, all_pairs. cbn [mbind list_bind]. rewrite app_nil_r, !List.filter_app, !filter_fmap_pair.
  unfold exactly, ranks. cbn [fst snd].
  assert (He : ∀ m, List.filter (λ r, multiplicity rs r =? m) all_ranks = List.filter (λ r, count c r =? m) all_ranks).
  { intros m. apply List.filter_ext_in. intros r Hr%list_elem_of_In%all_ranks_elem. by rewrite mult_count. }
  by rewrite !He.
Qed.

Lemma ranks_atLeast : rev (setOf rs) = atLeast c 1.
Proof.
  rewrite sorted_ranks_of by apply rs_digits. apply ranks_ext. intros r Hr. by rewrite mult_count.
Qed.

Lemma atLeast_split k : length (atLeast c k) = (length (exactly c k) + length (atLeast c (k + 1)))%nat.
Proof.
  apply filter_split; intros r _; [|lia].
  destruct (Z.leb_spec k (count c r)), (Z.eqb_spec (count c r) k), (Z.leb_spec (k + 1) (count c r)); try done; lia.
Qed.

Lemma atLeast_five : atLeast c 5 = [].
Proof.
  destruct (atLeast c 5) as [|r k] eqn:E; [done|]. assert (r ∈ atLeast c 5) as Hin by (rewrite E; left).
  apply ranks_elem in Hin as [_ Hin]. pose proof (count_range c r). lia.
Qed.

(** The sizes. *)
Lemma sizes_sum :
  (4 * length (exactly c 4) + 3 * length (exactly c 3) + 2 * length (exactly c 2) + length (exactly c 1) = length l)%nat ∧
  (length (exactly c 4) + length (exactly c 3) + length (exactly c 2) + length (exactly c 1) = length (atLeast c 1))%nat.
Proof.
  pose proof (ncards_sets c) as Hn. rewrite ncards_length in Hn by done.
  pose proof (atLeast_split 1) as S1. pose proof (atLeast_split 2) as S2. pose proof (atLeast_split 3) as S3.
  pose proof (atLeast_split 4) as S4. change (1 + 1) with 2 in S1. change (2 + 1) with 3 in S2.
  change (3 + 1) with 4 in S3. change (4 + 1) with 5 in S4. rewrite atLeast_five in S4. cbn [length] in S4. lia.
Qed.

Lemma filter_mono (f g : Z → bool) L : (∀ x, x ∈ L → f x = true → g x = true) →
  (length (List.filter f L) ≤ length (List.filter g L))%nat.
Proof.
  induction L as [|x L IH]; intros Hfg; [done|]. cbn [List.filter].
  assert (IH' := IH (λ y Hy, Hfg y (list_elem_of_further _ _ _ Hy))).
  specialize (Hfg x ltac:(left)). destruct (f x); [rewrite Hfg by done; cbn [length]; lia|].
  destruct (g x); cbn [length]; lia.
Qed.

Lemma suit_ranks_few s : 0 ≤ s < 4 → (length (ranks (c s)) ≤ length (atLeast c 1))%nat.
Proof.
  intros Hs. apply filter_mono. intros r Hr%all_ranks_elem E. by apply (held_any l ltac:(lia) s r).
Qed.

(** Too few different ranks for a flush. *)
Lemma flush_few : (length (atLeast c 1) < 5)%nat → flush c = None.
Proof.
  intros Hf. pose proof (suit_ranks_few 0 ltac:(lia)). pose proof (suit_ranks_few 1 ltac:(lia)).
  pose proof (suit_ranks_few 2 ltac:(lia)). pose proof (suit_ranks_few 3 ltac:(lia)).
  unfold flush. by rewrite !suit_hand_small by lia.
Qed.

(** ** Marks *)
Lemma marks_picked h W : picked l (hand_ranks h) W → one_suit h = false → marks l h W.
Proof.
  intros Hp Hs. split; [by eapply picked_nodup|]. split; [by apply picked_ranks|]. by rewrite Hs.
Qed.

(** The first place of a card that [p] accepts. *)
Definition spot (p : Z → bool) : Z := nth 0 (places p l) (-1).

Lemma spot_ok p x : x ∈ l → p x = true → 0 ≤ spot p < zlen l ∧ p (at_ l (spot p)) = true.
Proof.
  intros Hx Hp. apply places_elem. unfold spot.
  apply list_elem_of_lookup in Hx as (i & Hi). pose proof (lookup_lt_Some _ _ _ Hi).
  assert (Z.of_nat i ∈ places p l) as Hin.
  { apply places_elem. unfold zlen. split; [lia|]. unfold at_. rewrite Nat2Z.id, (list_lookup_total_correct _ _ _ Hi). done. }
  destruct (places p l) as [|w k]; [by apply not_elem_of_nil in Hin|]. left.
Qed.

Lemma marks_spots h (q : Z → Z → bool) : NoDup (hand_ranks h) →
  (∀ r, r ∈ hand_ranks h → ∃ x, x ∈ l ∧ q r x = true) → (∀ r x, x ∈ l → q r x = true → Rank x = r) →
  (one_suit h = true → ∃ s, ∀ r x, x ∈ l → q r x = true → Suit x = s) →
  marks l h ((λ r, spot (q r)) <$> hand_ranks h).
Proof.
  intros Hn Hex Hq Hs.
  assert (Hsp : ∀ r, r ∈ hand_ranks h → 0 ≤ spot (q r) < zlen l ∧ q r (at_ l (spot (q r))) = true).
  { intros r Hr. destruct (Hex r Hr) as (x & Hx & Hqx). by apply (spot_ok _ x). }
  assert (Hin : ∀ w, 0 ≤ w < zlen l → at_ l w ∈ l).
  { intros w Hw. unfold zlen in Hw. apply list_elem_of_lookup. exists (Z.to_nat w). apply list_lookup_lookup_total_lt. lia. }
  assert (Hrk : ∀ r, r ∈ hand_ranks h → Rank (at_ l (spot (q r))) = r).
  { intros r Hr. destruct (Hsp r Hr) as [Hw Hqw]. by apply (Hq r); [apply Hin|]. }
  split_and!.
  - apply NoDup_fmap_2_strong; [|done]. intros r r' Hr Hr' E. rewrite <-(Hrk r Hr), <-(Hrk r' Hr'). by rewrite E.
  - apply Forall2_fmap_l, Forall_Forall2_diag, list.Forall_forall. intros r Hr. split; [by apply Hsp|by apply Hrk].
  - intros H1. destruct (Hs H1) as (s & Hs'). exists s. intros w (r & -> & Hr)%list_elem_of_fmap.
    destruct (Hsp r Hr) as [Hw Hqw]. by apply (Hs' r); [apply Hin|].
Qed.

(** Pushing the first card of a rank, or of a rank and a suit. *)
Lemma push_first t p W x : (∀ x, x ∈ l → contains (cardText x) t = p x) → x ∈ l → p x = true →
  pushCardIndex cards t 0 W = Ok (W ++ [spot p]).
Proof.
  intros Ht Hx Hp. unfold pushCardIndex. rewrite (getCardIndex_ok l p) by (done || lia). cbn [mbind res_bind].
  change (nth (Z.to_nat 0) (places p l) (-1)) with (spot p). destruct (spot_ok p x Hx Hp) as [Hw _].
  by rewrite (proj2 (Z.eqb_neq (spot p) (-1))) by lia.
Qed.

Lemma card_in x : x ∈ l → is_card x.
Proof. intros Hx. by apply (proj1 (list.Forall_forall _ _) Hl). Qed.

Lemma push_of_rank r W : 0 ≤ r < 13 → (1 <=? count c r) = true →
  (card ← rank_text r; pushCardIndex cards (if nz 0 then card ++ char2String 0 else card) 0 W) =
  Ok (W ++ [spot (λ x, Rank x =? r)]).
Proof.
  intros Hr Hc%Z.leb_le. rewrite rank_text_ok by done. cbn [mbind res_bind]. change (nz 0) with false. cbn iota.
  rewrite <-mult_count in Hc by done. apply multiplicity_pos, list_elem_of_fmap in Hc as (x & -> & Hx).
  apply (push_first _ _ _ x); [|done|apply Z.eqb_refl]. intros y Hy. apply contains_rank; [by apply card_in|done].
Qed.

Lemma held_card s r : c s r = true ↔ 4 * r + s ∈ l.
Proof.
  unfold held. rewrite existsb_exists, list_elem_of_In. split.
  - by intros (x & Hx & ->%Z.eqb_eq).
  - intros Hx. exists (4 * r + s). by rewrite Z.eqb_refl.
Qed.

Lemma push_of_suit f r W : 0 ≤ f < 4 → 0 ≤ r < 13 → c f r = true →
  (card ← rank_text r; pushCardIndex cards (if nz (suitChar f) then card ++ char2String (suitChar f) else card) 0 W) =
  Ok (W ++ [spot (λ x, x =? 4 * r + f)]).
Proof.
  intros Hf Hr Hc. rewrite rank_text_ok by done. cbn [mbind res_bind]. rewrite suitChar_nz by done.
  apply held_card in Hc. apply (push_first _ _ _ (4 * r + f)); [|done|apply Z.eqb_refl].
  intros y Hy. apply contains_card; [by apply card_in|done|done].
Qed.

(** ** Reading the texts *)
Lemma collect {A} (read : list Z → res A) (g : Z → A) : (∀ x, is_card x → read (cardText x) = Ok (g x)) →
  foldM (λ t acc, y ← read t; Ok (acc ++ [y])) cards [] = Ok (g <$> l).
Proof.
  intros Hg. assert (Hgen : ∀ k acc, Forall is_card k →
    foldM (λ t acc, y ← read t; Ok (acc ++ [y])) (cardText <$> k) acc = Ok (acc ++ (g <$> k))).
  { induction k as [|x k IH]; intros acc Hk; [by rewrite app_nil_r|]. inversion Hk; subst.
    cbn [fmap list_fmap foldM]. rewrite Hg by done. cbn [mbind res_bind]. rewrite IH by done. by rewrite <-app_assoc. }
  by rewrite Hgen.
Qed.

Lemma getRanksOfSuit_ok f : 0 ≤ f < 4 →
  getRanksOfSuit cards (suitChar f) = Ok (Rank <$> List.filter (λ x, Suit x =? f) l).
Proof.
  intros Hf. unfold getRanksOfSuit. assert (Hgen : ∀ k acc, Forall is_card k →
    foldM (λ t acc, s ← card2Suit t; if s =? suitChar f then r ← card2Rank t; Ok (acc ++ [r]) else Ok acc) (cardText <$> k) acc =
    Ok (acc ++ (Rank <$> List.filter (λ x, Suit x =? f) k))).
  { induction k as [|x k IH]; intros acc Hk; [by rewrite app_nil_r|]. inversion Hk; subst.
    destruct (card_split x) as (_ & Hs & _); [done|].
    cbn [fmap list_fmap foldM List.filter]. rewrite card2Suit_text, card2Rank_text by done. cbn [mbind res_bind].
    rewrite suitChar_inj by done. destruct (Suit x =? f); cbn [mbind res_bind fmap list_fmap]; rewrite IH by done; [|done].
    by rewrite <-app_assoc. }
  by rewrite Hgen.
Qed.

Lemma ranks_of_suit f : 0 ≤ f < 4 → sort_back Z.ltb (Rank <$> List.filter (λ x, Suit x =? f) l) = ranks (c f).
Proof.
  intros Hf. assert (Hin : ∀ x, x ∈ List.filter (λ x, Suit x =? f) l ↔ x ∈ l ∧ Suit x = f).
  { intros x. by rewrite list_elem_of_In, filter_In, <-list_elem_of_In, Z.eqb_eq. }
  apply sort_back_desc.
  - apply NoDup_fmap_2_strong; [|by apply NoDup_lfilter]. intros x y [Hx Sx]%Hin [Hy Sy]%Hin E.
    apply card_in in Hx, Hy. destruct (card_split x Hx) as (_ & _ & Ex). destruct (card_split y Hy) as (_ & _ & Ey). congruence.
  - intros r. rewrite list_elem_of_fmap. split.
    + intros (x & -> & [Hx Sx]%Hin). pose proof (card_in x Hx) as Cx. destruct (card_split x Cx) as (Hr & _ & Ex).
      split; [done|]. apply held_card. by rewrite <-Sx, <-Ex.
    + intros [Hr Hx%held_card]. exists (4 * r + f).
      assert (Rank (4 * r + f) = r ∧ Suit (4 * r + f) = f) as [E1 E2].
      { unfold Rank, Suit, NumSuits. Z.quot_rem_to_equations. lia. }
      by rewrite Hin, E1.
Qed.

(** ** The flush suit *)
Abbreviation suits_of := ((λ x, suitChar (Suit x)) <$> l).

Lemma suit_mult s : 0 ≤ s < 4 → multiplicity suits_of (suitChar s) = Z.of_nat (length (ranks (c s))).
Proof.
  clear H5. revert Hl Hnd. induction l as [|x k IH] using rev_ind; intros Hk Hn Hs; [done|].
  apply Forall_app in Hk as [Hk Hx]. rewrite Forall_singleton in Hx. apply list.NoDup_app in Hn as (Hn & Hdis & _).
  assert (Hxk : x ∉ k) by (intros Hin; apply (Hdis x Hin); left). destruct (card_split x Hx) as (_ & Hsx & _).
  rewrite fmap_app. change ((λ x, suitChar (Suit x)) <$> [x]) with [suitChar (Suit x)].
  rewrite multiplicity_snoc, suit_snoc, IH by done. by rewrite suitChar_inj, Z.eqb_sym by done.
Qed.

Lemma flush_head : ∃ s0 rest, sortMapByValue (countVecEle suits_of) true = s0 :: rest ∧
  ((snd s0 < 5 ∧ flush c = None) ∨
   (∃ f, 0 ≤ f < 4 ∧ s0 = (suitChar f, Z.of_nat (length (ranks (c f)))) ∧ 5 ≤ snd s0 ∧
      (5 ≤ length (ranks (c f)))%nat ∧ flush c = suit_hand (c f))).
Proof.
  cbn [sortMapByValue]. set (S := sort_by CmpByValue (countVecEle suits_of)).
  assert (Hel : ∀ ch m, (ch, m) ∈ S ↔ ∃ x, x ∈ l ∧ ch = suitChar (Suit x) ∧ m = Z.of_nat (length (ranks (c (Suit x))))).
  { intros ch m. unfold S. rewrite sort_by_perm, countVecEle_set, list_elem_of_fmap. split.
    - intros (y & [= -> ->] & Hy). apply (proj1 (setOf_elem _ _)), list_elem_of_fmap in Hy as (x & -> & Hx).
      exists x. destruct (card_split x (card_in x Hx)) as (_ & Hs & _). by rewrite suit_mult.
    - intros (x & Hx & -> & ->). exists (suitChar (Suit x)). destruct (card_split x (card_in x Hx)) as (_ & Hs & _).
      rewrite suit_mult by done. split; [done|]. apply setOf_elem, list_elem_of_fmap. by exists x. }
  assert (Hsort : StronglySorted (before CmpByValue) S).
  { apply sort_by_sorted; [exact groups_trans|exact groups_asym]. }
  assert (Hne : ∃ x, x ∈ l) by (destruct l as [|x k]; [cbn in H5; lia|exists x; left]).
  destruct S as [|[ch m] rest] eqn:ES.
  { destruct Hne as (x & Hx). exfalso. apply (not_elem_of_nil (suitChar (Suit x), Z.of_nat (length (ranks (c (Suit x)))))).
    apply Hel. eauto. }
  exists (ch, m), rest. split; [done|]. cbn [snd].
  destruct (proj1 (Hel ch m) ltac:(left)) as (x0 & Hx0 & -> & ->).
  destruct (card_split x0 (card_in x0 Hx0)) as (_ & Hs0 & _).
  apply StronglySorted_inv in Hsort as [_ Hmax]. rewrite list.Forall_forall in Hmax.
  assert (Hall : ∀ s, 0 ≤ s < 4 → (5 ≤ length (ranks (c s)))%nat → s = Suit x0).
  { intros s Hs Hlen. destruct (ranks (c s)) as [|r k] eqn:Er; [cbn in Hlen; lia|].
    assert (r ∈ ranks (c s)) as Hr by (rewrite Er; left). apply ranks_elem in Hr as [Hr Hc%held_card].
    assert (Suit (4 * r + s) = s) as Es by (unfold Suit, NumSuits; Z.quot_rem_to_equations; lia).
    assert ((suitChar s, Z.of_nat (length (ranks (c s)))) ∈ (suitChar (Suit x0), Z.of_nat (length (ranks (c (Suit x0))))) :: rest) as Hin.
    { apply Hel. exists (4 * r + s). by rewrite Es. }
    pose proof (suit_total l Hl Hnd) as Htot. rewrite Er in Hin.
    assert (Z.of_nat (length (r :: k)) ≤ Z.of_nat (length (ranks (c (Suit x0))))) as Hle.
    { apply elem_of_cons in Hin as [[= _ E]|Hin]; [by rewrite <-E|]. specialize (Hmax _ Hin).
      unfold before, CmpByValue in Hmax. cbn [fst snd] in Hmax. case_match; lia. }
    destruct (decide (s = Suit x0)) as [|Hd]; [done|].
    assert (s = 0 ∨ s = 1 ∨ s = 2 ∨ s = 3) as Hsv by lia.
    assert (Suit x0 = 0 ∨ Suit x0 = 1 ∨ Suit x0 = 2 ∨ Suit x0 = 3) as Hxv by lia.
    destruct_or! Hsv; destruct_or! Hxv; rewrite ?Hsv, ?Hxv in *; try done; rewrite Er in Htot; lia. }
  destruct (tally_ok l (replicate 7 0) (replicate 7 0)) as (t & _ & Ht); [done|done|lia|done|done|].
  destruct (flush_suit_ok t l Ht Hl Hnd ltac:(lia)) as (f & _ & [[_ Hfl]|(Hf & Hlen & Hfl)]).
  - left. split; [|done]. destruct (Z.lt_ge_cases (Z.of_nat (length (ranks (c (Suit x0))))) 5) as [|Hge]; [done|exfalso].
    pose proof (suit_hand_large (c (Suit x0)) ltac:(lia)) as Hh. apply suit_hand_pos in Hh.
    pose proof (flush_max c suit_hand_nonneg) as Hm. rewrite Hfl in Hm. cbn [code_opt] in Hm.
    assert (Suit x0 = 0 ∨ Suit x0 = 1 ∨ Suit x0 = 2 ∨ Suit x0 = 3) as Hxv by lia.
    destruct_or! Hxv; rewrite Hxv in Hh; cbn [suits fmap list_fmap foldr] in Hm; lia.
  - right. exists f. pose proof (Hall f Hf Hlen) as ->. split_and!; try done; lia.
Qed.

(** ** The classification *)
Lemma find_filter (p : Z → bool) L x k : List.filter p L = x :: k → List.find p L = Some x.
Proof.
  induction L as [|y L IH]; cbn [List.filter List.find]; [done|]. destruct (p y); [by intros [= -> _]|done].
Qed.

Lemma atLeast_top k : atLeast c (k + 1) = [] → atLeast c k = exactly c k.
Proof.
  intros E. apply ranks_ext. intros r Hr. apply Bool.eq_iff_eq_true. rewrite Z.leb_le, Z.eqb_eq. split; [|lia].
  intros Hk. destruct (Z.leb_spec (k + 1) (count c r)) as [Hk1|]; [|lia]. exfalso. apply (not_elem_of_nil r).
  rewrite <-E. apply ranks_elem. split; [done|by apply Z.leb_le].
Qed.

Lemma exactly_elem m r : r ∈ exactly c m ↔ 0 ≤ r < 13 ∧ count c r = m.
Proof. unfold exactly. by rewrite ranks_elem, Z.eqb_eq. Qed.

(** All groups but [r] have [m] cards. *)
Lemma without_group k m r : k ≤ m → (∀ r', 0 ≤ r' < 13 → k ≤ count c r' → r' ≠ r → count c r' = m) → count c r ≠ m →
  without r (atLeast c k) = exactly c m.
Proof.
  intros Hkm Hall Hr. unfold without, atLeast, exactly, ranks. rewrite filter_filter_and.
  apply List.filter_ext_in. intros r' Hr'%list_elem_of_In%all_ranks_elem. apply Bool.eq_iff_eq_true.
  rewrite andb_true_iff, Z.leb_le, negb_true_iff, Z.eqb_neq, Z.eqb_eq. split.
  - intros [Hk Hne]. by apply Hall.
  - intros E. split; [lia|]. intros ->. done.
Qed.

Lemma exactly_nil m r : exactly c m = [] → 0 ≤ r < 13 → count c r ≠ m.
Proof. intros E Hr Hc. apply (not_elem_of_nil r). rewrite <-E. by apply exactly_elem. Qed.

Lemma exactly_one m r r' : exactly c m = [r] → 0 ≤ r' < 13 → count c r' = m → r' = r.
Proof.
  intros E Hr Hc. assert (r' ∈ exactly c m) as Hin by (by apply exactly_elem). rewrite E in Hin.
  by apply list_elem_of_singleton in Hin.
Qed.

Lemma analyze_start : analyzeCards cards [] =
  (c0 ← rd G 0;
   let c1 := match G !! 1%nat with Some c => snd c | None => 0 end in
   if snd c0 =? 4 then win ← setWinCardIndexes cards (atLeast c 1) G 0 []; Ok (FOUR_OF_A_KIND, win)
   else if (snd c0 =? 3) && (1 <? zlen G) && (2 <=? c1) then
     win ← setWinCardIndexes cards (atLeast c 1) G 0 []; Ok (FULL_HOUSE, win)
   else
     s0 ← rd (sortMapByValue (countVecEle suits_of) true) 0;
     let flushSuit := if STD_HAND_NUM <=? snd s0 then fst s0 else 0 in
     if nz flushSuit then
       ranksOfSuit ← getRanksOfSuit cards flushSuit;
       let ranksOfSuit := sort_back Z.ltb ranksOfSuit in
       '(straight, maxStraightRank, win) ← analyzeStraight cards ranksOfSuit flushSuit false (-1) [];
       if (straight : bool) then
         Ok (if maxStraightRank =? ACE_RANK then ROYAL_FLUSH else STRAIGHT_FLUSH, win)
       else win ← setWinCardIndexes cards ranksOfSuit G flushSuit win; Ok (FLUSH, win)
     else
       '(straight, maxStraightRank, win) ← analyzeStraight cards (atLeast c 1) 0 false (-1) [];
       if (straight : bool) then Ok (STRAIGHT, win) else
       win ← setWinCardIndexes cards (atLeast c 1) G 0 win;
       Ok (if 3 <=? snd c0 then THREE_OF_A_KIND
           else if (snd c0 =? 2) && (1 <? zlen G) && (c1 =? 2) then TWO_PAIR
           else if snd c0 =? 2 then PAIR
           else HIGH_CARD, win)).
Proof.
  unfold analyzeCards. rewrite (collect card2Rank Rank) by apply card2Rank_text. cbn [mbind res_bind].
  rewrite sorted_counts by (apply rs_digits || apply mult_four).
  change (fold_left (λ s x, set_insert x s) rs []) with (setOf rs). rewrite ranks_atLeast.
  rewrite (collect card2Suit (λ x, suitChar (Suit x))) by apply card2Suit_text. done.
Qed.

Definition highlighted : Prop :=
  ∃ W, analyzeCards cards [] = Ok (type_of (hand_of c), W) ∧ marks l (hand_of c) W.

Lemma groups_size : zlen (atLeast c 1) = zlen G.
Proof.
  destruct sizes_sum as [_ Hs]. rewrite groups_exactly. unfold zlen. rewrite !length_app, !length_fmap. lia.
Qed.

Lemma atLeast_digits k : Forall digit (atLeast c k).
Proof. apply list.Forall_forall. intros r Hr%ranks_elem. apply Hr. Qed.

Lemma atLeast_mult k r : 1 ≤ k → r ∈ atLeast c k → k ≤ multiplicity rs r.
Proof. intros Hk [Hr Hc%Z.leb_le]%ranks_elem. by rewrite mult_count. Qed.

Lemma atLeast_four : atLeast c 4 = exactly c 4.
Proof. apply (atLeast_top 4), atLeast_five. Qed.

(** Four of a kind. *)
Lemma highlight_quads r e4 : exactly c 4 = r :: e4 → highlighted.
Proof.
  intros E4. destruct sizes_sum as [S1 S2]. rewrite E4 in S1, S2. cbn [length] in S1, S2.
  assert (Hfl : flush c = None) by (apply flush_few; lia).
  pose proof groups_exactly as EG. rewrite E4 in EG. cbn [fmap list_fmap app] in EG.
  assert (Hk : ∃ k rest, without r (atLeast c 1) = k :: rest).
  { pose proof (without_length 13 r _ (atLeast_desc c 1)) as Hw. destruct (without r (atLeast c 1)); [cbn [length] in Hw; lia|eauto]. }
  destruct Hk as (k & rest & Ek).
  assert (Hh : hand_of c = Quads r k).
  { unfold hand_of, sets_hand. by rewrite Hfl, atLeast_four, E4, Ek. }
  assert (Hin : k ∈ atLeast c 1).
  { assert (k ∈ without r (atLeast c 1)) as Hin by (rewrite Ek; left).
    by apply list_elem_of_In, filter_In in Hin as [?%list_elem_of_In _]. }
  destruct (win_quads l Hl (atLeast c 1) (atLeast_digits 1) groups_size r k) as (W & EW & Hp).
  - by rewrite EG.
  - by apply (find_filter _ _ k rest).
  - by apply atLeast_mult.
  - exists W. rewrite Hh. split; [|by apply marks_picked]. rewrite analyze_start.
    assert (rd G 0 = Ok (r, 4)) as -> by (by rewrite EG). cbn [mbind res_bind snd]. change (4 =? 4) with true. cbn iota.
    by rewrite EW.
Qed.

(** The groups without four of a kind nor two equal pairs that need the special case. *)
Lemma no_four : exactly c 4 = [] → ∀ r, G !! 0%nat ≠ Some (r, 4).
Proof.
  intros E4 r E. apply list_elem_of_lookup_2, groups_elem in E as (Hr & _ & Hm). rewrite mult_count in Hm by done.
  by apply (exactly_nil 4 r E4 Hr).
Qed.

Lemma highlight_full r p m rest : exactly c 4 = [] → G = (r, 3) :: (p, m) :: rest → 2 ≤ m ≤ 3 →
  sets_hand c = FullHouse r p → flush c = None → highlighted.
Proof.
  intros E4 EG Hm Hs Hfl. assert (Hh : hand_of c = FullHouse r p) by (unfold hand_of; by rewrite Hfl).
  destruct (win_plain l Hl (atLeast c 1)) as (W & EW & Hp); [by apply no_four| |].
  { intros _ r0 r1 r2 (E0 & _). rewrite EG in E0. done. }
  exists W. rewrite Hh. split.
  - rewrite analyze_start. assert (rd G 0 = Ok (r, 3)) as -> by (by rewrite EG). cbn [mbind res_bind snd].
    assert (G !! 1%nat = Some (p, m)) as -> by (by rewrite EG). cbn [snd].
    assert (zlen G = Z.of_nat (2 + length rest)) as -> by (by rewrite EG).
    change (3 =? 4) with false. change (3 =? 3) with true. cbn [andb]. cbn iota.
    rewrite (proj2 (Z.ltb_lt 1 (Z.of_nat (2 + length rest)))), (proj2 (Z.leb_le 2 m)) by lia. cbn [andb]. cbn iota.
    by rewrite EW.
  - apply marks_picked; [|done]. cbn [hand_ranks].
    assert (take 5 (expand G) = [r; r; r; p; p]) as E; [|by rewrite E in Hp].
    rewrite EG. assert (m = 2 ∨ m = 3) as [->| ->] by lia; done.
Qed.

(** A hand of one suit. *)
Lemma marks_suited f h : 0 ≤ f < 4 → one_suit h = true → NoDup (hand_ranks h) →
  (∀ r, r ∈ hand_ranks h → 0 ≤ r < 13 ∧ c f r = true) →
  marks l h ((λ r, spot (λ x, x =? 4 * r + f)) <$> hand_ranks h).
Proof.
  intros Hf Hs Hn Hin.
  assert (Hparts : ∀ r, Rank (4 * r + f) = r ∨ ¬ 0 ≤ r).
  { intros r. destruct (decide (0 ≤ r)); [left|by right]. unfold Rank, NumSuits. Z.quot_rem_to_equations. lia. }
  apply marks_spots; [done| | |].
  - intros r Hr. destruct (Hin r Hr) as [_ Hc%held_card]. exists (4 * r + f). by rewrite Z.eqb_refl.
  - intros r x Hx%card_in E%Z.eqb_eq. destruct (card_split x Hx) as (Hr & Hsx & Ex). lia.
  - intros _. exists f. intros r x Hx%card_in E%Z.eqb_eq. destruct (card_split x Hx) as (Hr & Hsx & Ex). lia.
Qed.

Lemma marks_straight t : straight c = Some t →
  marks l (Straight t) ((λ r, spot (λ x, Rank x =? r)) <$> window t).
Proof.
  intros Hs. apply straight_top_range in Hs as [Ht Hs].
  apply (marks_spots (Straight t) (λ r x, Rank x =? r)); cbn [hand_ranks]; [by apply window_nodup| | |done].
  - intros r Hr. destruct (window_there _ _ _ Ht Hs Hr) as [Hr13 Hc%Z.leb_le]. rewrite <-mult_count in Hc by done.
    apply multiplicity_pos, list_elem_of_fmap in Hc as (x & -> & Hx). exists x. by rewrite Z.eqb_refl.
  - by intros r x _ ->%Z.eqb_eq.
Qed.

(** Below a full house: flushes, straights, and then the groups. *)
Lemma highlight_late others c0 rest :
  exactly c 4 = [] → G = c0 :: rest →
  (snd c0 =? 3) && (1 <? zlen G) && (2 <=? match rest with p :: _ => snd p | [] => 0 end) = false →
  sets_hand c = below_fullhouse c others → one_suit others = false →
  (∃ W, setWinCardIndexes cards (atLeast c 1) G 0 [] = Ok W ∧ picked l (hand_ranks others) W) →
  type_of others =
    (if 3 <=? snd c0 then THREE_OF_A_KIND
     else if (snd c0 =? 2) && (1 <? zlen G) && (match rest with p :: _ => snd p | [] => 0 end =? 2) then TWO_PAIR
     else if snd c0 =? 2 then PAIR else HIGH_CARD) →
  highlighted.
Proof.
  intros E4 EG Hfull Hsets Hsuit (Wo & EWo & Hpo) Htype. unfold highlighted. rewrite analyze_start.
  assert (rd G 0 = Ok c0) as -> by (by rewrite EG). cbn [mbind res_bind]. cbv zeta.
  assert (match G !! 1%nat with Some p => snd p | None => 0 end = match rest with p :: _ => snd p | [] => 0 end) as ->
    by (rewrite EG; by destruct rest).
  assert ((snd c0 =? 4) = false) as ->.
  { apply Z.eqb_neq. intros H4. destruct c0 as [r m]. cbn in H4. subst m. apply (no_four E4 r). by rewrite EG. }
  rewrite Hfull. rewrite <-Htype. clear Htype Hfull.
  destruct flush_head as (s0 & srest & -> & Hfl). change (rd (s0 :: srest) 0) with (Ok s0). cbn [mbind res_bind].
  unfold STD_HAND_NUM. destruct Hfl as [[Hlt Hno]|(f & Hf & -> & H55 & Hlen & Hfl)].
  - rewrite (proj2 (Z.leb_gt 5 (snd s0))) by lia. change (nz 0) with false. cbn iota.
    pose proof (analyzeStraight_ok cards (λ r, 1 <=? count c r) 0 (λ r, spot (λ x, Rank x =? r)) push_of_rank) as Ha.
    fold (atLeast c 1) in Ha. fold (straight c) in Ha. rewrite Ha. cbn [mbind res_bind].
    assert (hand_of c = match straight c with Some t => Straight t | None => others end) as ->.
    { unfold hand_of. rewrite Hno, Hsets. unfold below_fullhouse. by rewrite Hno. }
    destruct (straight c) as [t|] eqn:Es.
    + eexists. split; [done|]. by apply marks_straight.
    + rewrite EWo. eexists. split; [done|]. by apply marks_picked.
  - cbn [snd fst] in *. rewrite (proj2 (Z.leb_le 5 _)) by lia. rewrite suitChar_nz by done.
    rewrite getRanksOfSuit_ok by done. cbn [mbind res_bind]. rewrite ranks_of_suit by done.
    rewrite (analyzeStraight_ok cards (c f) (suitChar f) (λ r, spot (λ x, x =? 4 * r + f)) (λ r W, push_of_suit f r W Hf)).
    cbn [mbind res_bind].
    rewrite suit_hand_large in Hfl by done.
    assert (hand_of c = match straight_top (c f) with Some t => StraightFlush t | None => Flush (take 5 (ranks (c f))) end) as ->.
    { unfold hand_of. rewrite Hfl. destruct (straight_top (c f)); [done|]. rewrite Hsets. unfold below_fullhouse. by rewrite Hfl. }
    destruct (straight_top (c f)) as [t|] eqn:Es.
    + apply straight_top_range in Es as [Ht Hs]. eexists. split; [done|].
      apply (marks_suited f (StraightFlush t)); [done|done|by apply window_nodup|]. intros r. by apply window_there.
    + rewrite (flush_cards cards (c f) (suitChar f) _ (λ r W, push_of_suit f r W Hf)) by (by apply suitChar_nz).
      cbn [mbind res_bind]. eexists. split; [done|].
      apply (marks_suited f (Flush (take 5 (ranks (c f))))); [done|done|cbn [hand_ranks]|].
      * pose proof (ranks_nodup (c f)) as Hn. rewrite <-(take_drop 5 (ranks (c f))) in Hn. by apply list.NoDup_app in Hn as [? _].
      * intros r Hr%subseteq_take. by apply ranks_elem in Hr.
Qed.

(** ** The cases *)
Lemma expand_singles L : expand ((λ r, (r, 1)) <$> L) = L.
Proof. unfold expand. induction L as [|x L IH]; [done|]. cbn. by f_equal. Qed.

Lemma highlight_three r e3 : exactly c 4 = [] → exactly c 3 = r :: e3 → highlighted.
Proof.
  intros E4 E3. destruct sizes_sum as [S1 S2]. rewrite E4, E3 in S1, S2. cbn [length] in S1, S2.
  pose proof groups_exactly as EG. rewrite E4, E3 in EG. cbn [fmap list_fmap app] in EG.
  assert (A4 : atLeast c 4 = []) by (by rewrite atLeast_four).
  assert (A3 : atLeast c 3 = r :: e3) by (rewrite <-E3; by apply (atLeast_top 3)).
  assert (Hr : 0 ≤ r < 13 ∧ count c r = 3) by (apply exactly_elem; rewrite E3; left).
  assert (Hsets : ∀ L, without r (atLeast c 2) = L → sets_hand c =
    match L with p :: _ => FullHouse r p | [] => below_fullhouse c (Trips r (take 2 (without r (atLeast c 1)))) end).
  { intros L <-. unfold sets_hand. by rewrite A4, A3. }
  destruct e3 as [|r' e3]; cbn [fmap list_fmap app length] in *.
  - assert (Hw : ∀ k m, 1 ≤ k ≤ m → m ≤ 2 → (k = 1 → m = 1 → exactly c 2 = []) → (m = 2 → k = 2) → without r (atLeast c k) = exactly c m).
    { intros k m Hkm Hm H21 H22. apply without_group; [lia| |lia]. intros r' Hr' Hc Hne. pose proof (count_range c r').
      pose proof (exactly_nil 4 r' E4 Hr'). assert (count c r' ≠ 3) by (intros H3; apply Hne; by apply (exactly_one 3)).
      destruct (decide (count c r' = 2)) as [E2|]; [|lia]. destruct (decide (m = 2)) as [|]; [lia|].
      exfalso. by apply (exactly_nil 2 r' (H21 ltac:(lia) ltac:(lia)) Hr'). }
    pose proof (Hw 2 2 ltac:(lia) ltac:(lia) ltac:(lia) ltac:(lia)) as W2. specialize (Hsets _ W2).
    destruct (exactly c 2) as [|p e2] eqn:E2; cbn [fmap list_fmap app] in EG.
    + rewrite (Hw 1 1 ltac:(lia) ltac:(lia) ltac:(done) ltac:(lia)) in Hsets.
      apply (highlight_late (Trips r (take 2 (exactly c 1))) (r, 3) ((λ r, (r, 1)) <$> exactly c 1)); try done.
      * cbn [snd]. destruct (exactly c 1); cbn [fmap list_fmap snd]; by rewrite andb_false_r.
      * destruct (win_plain l Hl (atLeast c 1)) as (W & EW & Hp); [by apply no_four| |].
        { intros _ r0 r1 r2 (E0 & _). rewrite EG in E0. done. }
        exists W. split; [done|]. rewrite EG in Hp. change ((r, 3) :: ?L) with ([(r, 3)] ++ L) in Hp.
        rewrite expand_app, expand_singles in Hp. exact Hp.
    + apply (highlight_full r p 2 _ E4 EG); [lia|done|]. apply flush_few. cbn [length] in S1, S2. lia.
  - assert (e3 = [] ∧ exactly c 2 = []) as [-> E2].
    { destruct e3, (exactly c 2); cbn [length] in S1; try lia. done. }
    rewrite E2 in EG. cbn [fmap list_fmap app] in EG.
    assert (A2 : atLeast c 2 = exactly c 3).
    { unfold atLeast, exactly. apply ranks_ext. intros x Hx. pose proof (count_range c x). pose proof (exactly_nil 4 x E4 Hx).
      pose proof (exactly_nil 2 x E2 Hx). lia. }
    assert (r ≠ r') as Hne by (pose proof (atLeast_desc c 3) as D; rewrite A3 in D; destruct D as (_ & D & _); lia).
    rewrite A2, E3 in Hsets. specialize (Hsets _ eq_refl). cbn [without List.filter] in Hsets.
    rewrite Z.eqb_refl, (proj2 (Z.eqb_neq r' r)) in Hsets by done. cbn [negb] in Hsets.
    apply (highlight_full r r' 3 _ E4 EG); [lia|done|]. apply flush_few. rewrite E2 in S1, S2. cbn [length] in S1, S2. lia.
Qed.

Section Pairs.
Context (E4 : exactly c 4 = []) (E3 : exactly c 3 = []).

Lemma pairs_atLeast : atLeast c 3 = [] ∧ atLeast c 2 = exactly c 2.
Proof.
  assert (A3 : atLeast c 3 = exactly c 3) by (apply (atLeast_top 3); change (3 + 1) with 4; by rewrite atLeast_four).
  rewrite E3 in A3. split; [done|]. by apply (atLeast_top 2).
Qed.

Lemma pairs_sets : sets_hand c = below_fullhouse c (pairs_hand c).
Proof. unfold sets_hand. by rewrite atLeast_four, E4, (proj1 pairs_atLeast). Qed.

Lemma pairs_groups : G = ((λ r, (r, 2)) <$> exactly c 2) ++ ((λ r, (r, 1)) <$> exactly c 1).
Proof. rewrite groups_exactly, E4, E3. done. Qed.

(** The plain loop marks the groups in order. *)
Lemma pairs_plain : (zlen G = 4 → ∀ r0 r1 r2, ¬ (G !! 0%nat = Some (r0, 2) ∧ G !! 1%nat = Some (r1, 2) ∧ G !! 2%nat = Some (r2, 2))) →
  ∃ W, setWinCardIndexes cards (atLeast c 1) G 0 [] = Ok W ∧
    picked l (take 5 (expand ((λ r, (r, 2)) <$> exactly c 2) ++ exactly c 1)) W.
Proof.
  intros H2. destruct (win_plain l Hl (atLeast c 1) (no_four E4) H2) as (W & EW & Hp). exists W. split; [done|].
  by rewrite pairs_groups, expand_app, expand_singles in Hp.
Qed.

Lemma single_of r : r ∈ exactly c 1 → count c r = 1.
Proof. intros Hr. by apply exactly_elem in Hr as [_ ?]. Qed.

Lemma highlight_high : exactly c 2 = [] → highlighted.
Proof.
  intros E2. destruct sizes_sum as [S1 S2]. rewrite E4, E3, E2 in S1, S2. cbn [length] in S1, S2.
  pose proof pairs_sets as Hs. destruct pairs_atLeast as [_ A2]. unfold pairs_hand in Hs. rewrite A2, E2 in Hs.
  assert (A1 : atLeast c 1 = exactly c 1) by (apply (atLeast_top 1); change (1 + 1) with 2; by rewrite A2).
  rewrite A1 in Hs. pose proof pairs_groups as EG. rewrite E2 in EG. cbn [fmap list_fmap app] in EG.
  destruct (exactly c 1) as [|k e1] eqn:E1; [cbn [length] in S1; lia|]. cbn [fmap list_fmap] in EG.
  apply (highlight_late (HighCard (take 5 (k :: e1))) (k, 1) ((λ r, (r, 1)) <$> e1)); try done.
  destruct pairs_plain as (W & EW & Hp); [intros _ r0 r1 r2 (Eg & _); by rewrite EG in Eg|].
  exists W. split; [done|]. by rewrite E2, E1 in Hp.
Qed.

Lemma highlight_pair r : exactly c 2 = [r] → highlighted.
Proof.
  intros E2. destruct sizes_sum as [S1 S2]. rewrite E4, E3, E2 in S1, S2. cbn [length] in S1, S2.
  pose proof pairs_sets as Hs. destruct pairs_atLeast as [_ A2]. unfold pairs_hand in Hs. rewrite A2, E2 in Hs.
  assert (Hr : 0 ≤ r < 13 ∧ count c r = 2) by (apply exactly_elem; rewrite E2; left).
  assert (Hw : without r (atLeast c 1) = exactly c 1).
  { apply without_group; [lia| |lia]. intros r' Hr' Hc Hne. pose proof (count_range c r').
    pose proof (exactly_nil 4 r' E4 Hr'). pose proof (exactly_nil 3 r' E3 Hr').
    assert (count c r' ≠ 2) by (intros H2; apply Hne; by apply (exactly_one 2)). lia. }
  rewrite Hw in Hs. pose proof pairs_groups as EG. rewrite E2 in EG. cbn [fmap list_fmap app] in EG.
  apply (highlight_late (Pair r (take 3 (exactly c 1))) (r, 2) ((λ r, (r, 1)) <$> exactly c 1)); try done.
  - destruct pairs_plain as (W & EW & Hp).
    { intros _ r0 r1 r2 (_ & Eg & _). rewrite EG in Eg. by destruct (exactly c 1). }
    exists W. split; [done|]. rewrite E2 in Hp. exact Hp.
  - cbn [snd type_of]. rewrite (proj2 (Z.leb_gt 3 2)) by lia. change (2 =? 2) with true.
    destruct (exactly c 1); cbn [fmap list_fmap snd andb]; by rewrite ?andb_false_r.
Qed.

(** The kicker of two pairs. *)
Lemma two_pair_kicker r1 r2 e2 : exactly c 2 = r1 :: r2 :: e2 → ∃ k rest,
  without r2 (without r1 (atLeast c 1)) = k :: rest ∧
  List.find (λ x, negb (x =? r1) && negb (x =? r2)) (atLeast c 1) = Some k ∧ 1 ≤ multiplicity rs k.
Proof.
  intros E2. destruct sizes_sum as [S1 S2]. rewrite E4, E3, E2 in S1, S2. cbn [length] in S1, S2.
  pose proof (without_length 13 r1 _ (atLeast_desc c 1)) as L1.
  pose proof (without_length 13 r2 _ (without_desc 13 r1 _ (atLeast_desc c 1))) as L2.
  destruct (without r2 (without r1 (atLeast c 1))) as [|k rest] eqn:Ew; [cbn [length] in L2; lia|].
  exists k, rest. split; [done|]. pose proof Ew as Ef. unfold without in Ef. rewrite filter_filter_and in Ef.
  split; [by eapply find_filter|]. apply (atLeast_mult 1); [lia|].
  assert (k ∈ without r2 (without r1 (atLeast c 1))) as Hk by (rewrite Ew; left).
  unfold without in Hk. by apply list_elem_of_In, filter_In in Hk as [[Hk%list_elem_of_In _]%filter_In _].
Qed.

Lemma two_pair_cards r1 r2 e2 k rest : exactly c 2 = r1 :: r2 :: e2 →
  without r2 (without r1 (atLeast c 1)) = k :: rest →
  List.find (λ x, negb (x =? r1) && negb (x =? r2)) (atLeast c 1) = Some k → 1 ≤ multiplicity rs k →
  ∃ W, setWinCardIndexes cards (atLeast c 1) G 0 [] = Ok W ∧ picked l [r1; r1; r2; r2; k] W.
Proof.
  intros E2 Ek Hfind Hmk. destruct sizes_sum as [S1 S2]. rewrite E4, E3, E2 in S1, S2. cbn [length] in S1, S2.
  pose proof pairs_groups as EG. rewrite E2 in EG. cbn [fmap list_fmap app] in EG.
  assert (Hd : r1 ≠ r2 ∧ ∀ r, r ∈ e2 → r ≠ r1 ∧ r ≠ r2).
  { pose proof (ranks_nodup (λ r, count c r =? 2)) as Hn. fold (exactly c 2) in Hn. rewrite E2 in Hn.
    apply list.NoDup_cons in Hn as [Hn1 Hn2]. apply list.NoDup_cons in Hn2 as [Hn2 _]. rewrite elem_of_cons in Hn1.
    split; [tauto|]. intros r Hr. split; intros ->; tauto. }
  destruct e2 as [|r3 [|r4 e2]]; cbn [length] in S1; [| |lia].
  - destruct pairs_plain as (W & EW & Hp).
    { intros _ x0 x1 x2 (_ & _ & Eg). rewrite EG in Eg. by destruct (exactly c 1). }
    exists W. split; [done|]. assert (Hw : without r2 (without r1 (atLeast c 1)) = exactly c 1).
    { unfold without, atLeast, exactly, ranks. rewrite !filter_filter_and. apply List.filter_ext_in.
      intros x Hx%list_elem_of_In%all_ranks_elem. pose proof (count_range c x). pose proof (exactly_nil 4 x E4 Hx).
      pose proof (exactly_nil 3 x E3 Hx). assert (count c x = 2 ↔ x = r1 ∨ x = r2) as H2.
      { pose proof (exactly_elem 2 x) as He. rewrite E2, !elem_of_cons, elem_of_nil in He. tauto. }
      lia. }
    rewrite E2 in Hp. rewrite <-Hw, Ek in Hp. exact Hp.
  - destruct (exactly c 1) as [|k1 [|]] eqn:E1; cbn [length] in S1; [| |lia].
    + destruct pairs_plain as (W & EW & Hp); [intros H4; rewrite EG in H4; done|].
      exists W. split; [done|]. rewrite E2, E1 in Hp. cbn in Hp.
      assert (A1 : atLeast c 1 = exactly c 2).
      { unfold atLeast, exactly. apply ranks_ext. intros x Hx. pose proof (count_range c x). pose proof (exactly_nil 4 x E4 Hx).
        pose proof (exactly_nil 3 x E3 Hx). pose proof (exactly_nil 1 x E1 Hx). lia. }
      rewrite A1, E2 in Hfind. cbn [List.find] in Hfind. destruct Hd as [H12 Hd]. destruct (Hd r3 ltac:(left)) as [H31 H32].
      rewrite !Z.eqb_refl, (proj2 (Z.eqb_neq r3 r1)), (proj2 (Z.eqb_neq r3 r2)) in Hfind by done.
      cbn [negb andb] in Hfind. rewrite andb_false_r in Hfind. by injection Hfind as <-.
    + apply (win_three_pairs l Hl (atLeast c 1) (atLeast_digits 1) groups_size r1 r2 r3 k); rewrite ?EG; done.
Qed.

Lemma highlight_two r1 r2 e2 : exactly c 2 = r1 :: r2 :: e2 → highlighted.
Proof.
  intros E2. pose proof pairs_sets as Hs. destruct pairs_atLeast as [_ A2]. unfold pairs_hand in Hs. rewrite A2, E2 in Hs.
  destruct (two_pair_kicker r1 r2 e2 E2) as (k & rest & Ek & Hfind & Hmk).
  pose proof (two_pair_cards r1 r2 e2 k rest E2 Ek Hfind Hmk) as Hwin. rewrite Ek in Hs. cbn [hd] in Hs.
  pose proof pairs_groups as EG. rewrite E2 in EG. cbn [fmap list_fmap app] in EG.
  eapply (highlight_late (TwoPair r1 r2 k) (r1, 2)); [done|exact EG|done|done|done|exact Hwin|].
  rewrite EG. unfold zlen. cbn [length snd type_of]. by rewrite (proj2 (Z.ltb_lt 1 _)) by lia.
Qed.
End Pairs.

Lemma analyzeCards_highlights : highlighted.
Proof.
  destruct (exactly c 4) as [|r e4] eqn:E4; [|by eapply highlight_quads].
  destruct (exactly c 3) as [|r e3] eqn:E3; [|by eapply highlight_three].
  destruct (exactly c 2) as [|r1 [|r2 e2]] eqn:E2; [by apply highlight_high|by eapply highlight_pair|by eapply highlight_two].
Qed.
End Dealt.

(** ** The encoding *)
Lemma hotEncoding_ok W e : Forall (λ w, 0 ≤ w < zlen e) W →
  ∃ e', hotEncoding W e = Ok e' ∧ length e' = length e ∧
    ∀ i, 0 ≤ i < zlen e → at_ e' i = if bool_decide (i ∈ W) then 1 else at_ e i.
Proof.
  unfold hotEncoding. revert e. induction W as [|w W IH]; intros e Hw; [by exists e|].
  inversion Hw as [|? ? Hw1 Hw2]; subst. unfold zlen in *. cbn [foldM]. rewrite wr_ok by done. cbn [mbind res_bind].
  destruct (IH (<[Z.to_nat w := 1]> e)) as (e' & E & Hlen & Hat); [by rewrite length_insert|].
  rewrite length_insert in Hlen, Hat. exists e'. split; [done|]. split; [done|]. intros i Hi. rewrite Hat by done.
  rewrite at_insert by lia. destruct (decide (w = i)) as [->|Hne].
  - rewrite (bool_decide_eq_true_2 (i ∈ i :: W)) by left. by case_bool_decide.
  - assert (bool_decide (i ∈ w :: W) = bool_decide (i ∈ W)) as -> by (apply bool_decide_ext; rewrite elem_of_cons; intuition congruence).
    done.
Qed.

(** C23: On five to seven different cards, in any order, [hotEncodingWinCardIndexes]
    returns: the type is that of the best hand by the rules, with a royal flush for
    a straight flush up to the ace, and the places marked with 1 are five places of
    cards that have the ranks of that hand and, for a flush, one suit. *)
Theorem highlight_marks_hand l : dealt l →
  ∃ W enc, hotEncodingWinCardIndexes (cardText <$> l) (replicate (length l) 0) =
      Ok (type_of (hand_of (held l)), enc) ∧
    length enc = length l ∧ (∀ i, 0 ≤ i < zlen l → at_ enc i = if bool_decide (i ∈ W) then 1 else 0) ∧
    length W = 5%nat ∧ marks l (hand_of (held l)) W.
Proof.
  intros (Hl & Hnd & H5). destruct (analyzeCards_highlights l Hl Hnd H5) as (W & EW & HW).
  pose proof HW as (_ & H2 & _). exists W.
  destruct (hotEncoding_ok W (replicate (length l) 0)) as (e & Ee & Hlen & Hat).
  { unfold zlen. rewrite length_replicate. apply list.Forall_forall. intros w Hw. apply list_elem_of_lookup in Hw as (i & Hi).
    destruct (Forall2_lookup_l _ _ _ _ _ H2 Hi) as (r & _ & Hr & _). done. }
  exists e. unfold hotEncodingWinCardIndexes. rewrite EW. cbn [mbind res_bind]. rewrite Ee.
  unfold zlen in *. rewrite length_replicate in Hlen, Hat. split_and!; [done|done| | |done].
  - intros i Hi. rewrite Hat by done. unfold at_. rewrite lookup_total_replicate_2 by lia. done.
  - rewrite (Forall2_length _ _ _ H2). assert (five (hand_of (held l))) as F.
    { apply hand_five. rewrite ncards_length by done. lia. }
    destruct (hand_of (held l)); cbn [five hand_ranks length app] in *; destruct_and?; done || lia.
Qed.

(** A full house with a second three of a kind among the seven cards. *)
Lemma highlight_marks_hand_witness :
  ∃ W enc, hotEncodingWinCardIndexes (cardText <$> [48; 20; 49; 21; 51; 22; 3]) (replicate 7 0) =
      Ok (type_of (hand_of (held [48; 20; 49; 21; 51; 22; 3])), enc) ∧
    length enc = 7%nat ∧ (∀ i, 0 ≤ i < 7 → at_ enc i = if bool_decide (i ∈ W) then 1 else 0) ∧
    length W = 5%nat ∧ marks [48; 20; 49; 21; 51; 22; 3] (hand_of (held [48; 20; 49; 21; 51; 22; 3])) W.
Proof.
  apply (highlight_marks_hand [48; 20; 49; 21; 51; 22; 3]). apply (bool_decide_unpack _). vm_compute. exact I.
Defined.
