(* ===== verification/ShmPipe.v ===== *)
(** * The pipe in shared memory ([src/Common/frame/src/pipe/shm_pipe.cpp])

    Processes of the server pass messages through a ring of bytes in shared
    memory.  A message is its length in two bytes and then its bytes.  The locks
    and the signalling are left out: an operation runs alone.  What the operating
    system answers when the memory is opened is an argument.

    The pipe behaves as a queue of messages of bounded total size, provided no
    write fills it to the last byte: the code then takes the full pipe for an empty
    one. *)

From stdpp Require Import base list list_numbers numbers option.
From S2P Require Import Prelude.

Open Scope Z_scope.

(** ** The code *)
Definition SIZEOF_PIPE_HEAD : Z := 12.
Definition SIZEOF_UINT16 : Z := 2.

Record PIPE_HEAD := mkHead { head : Z; tail : Z; size : Z }.

(** [m_pHead] is [None] when it is [NULL]; [m_pData] are the bytes behind the head;
    [m_nSize] is the size of the shared memory. *)
Record ShmPipe := mkPipe { m_pHead : option PIPE_HEAD; m_pData : list Z; m_nSize : Z }.

Definition construct : ShmPipe := mkPipe None [] 0.

(** [memcpy( d + off, src, ... )] *)
Definition blit (d : list Z) (off : Z) (src : list Z) : res (list Z) :=
  if (0 <=? off) && (off + Z.of_nat (length src) <=? Z.of_nat (length d))
  then Ok (take (Z.to_nat off) d ++ src ++ drop (Z.to_nat off + length src) d) else Err OutOfBounds.

(** The [n] bytes [memcpy] reads at [d + off]. *)
Definition slice (d : list Z) (off n : Z) : res (list Z) :=
  if (0 <=? off) && (0 <=? n) && (off + n <=? Z.of_nat (length d))
  then Ok (take (Z.to_nat n) (drop (Z.to_nat off) d)) else Err OutOfBounds.


Definition umod (a b : Z) : res Z := if b =? 0 then Err DivisionByZero else Ok (a mod b).

Definition GetLeftSize (nHead nTail nSize : Z) : Z :=
  if nHead <=? nTail then u32 (nSize - nTail + nHead) else u32 (nHead - nTail).

Definition GetSize (nHead nTail nSize : Z) : Z :=
  if nHead <=? nTail then u32 (nTail - nHead) else u32 (nSize - nHead + nTail).

Definition Reset (p : ShmPipe) : ShmPipe :=
  mkPipe (Some (mkHead 0 0 (u32 (m_nSize p - SIZEOF_PIPE_HEAD)))) (m_pData p) (m_nSize p).

(** [Open]; [init], [attach] and [create] are what the semaphore and the shared
    memory answer, [found] the head and bytes in the memory. *)
Definition Open (p : ShmPipe) (nSize nSemKey : Z) (bResume : bool)
    (init : Z) (attach create : bool) (found : PIPE_HEAD * list Z) : bool * ShmPipe :=
  if nSize <? SIZEOF_PIPE_HEAD then (false, p) else
  if (0 <? nSemKey) && (init <? 0) then (false, p) else
  if negb attach && negb create then (false, p) else
  let p := mkPipe (Some (fst found)) (snd found) nSize in
  (true, if bResume then p else Reset p).

Definition Close (p : ShmPipe) : ShmPipe := construct.

(** [WriteBuffer]; [None] is a [NULL] pointer. *)
Definition WriteBuffer (p : ShmPipe) (pBuffer : option (list Z)) (nLen : Z) : res (Z * ShmPipe) :=
  match pBuffer with
  | None => Ok (-1, p)
  | Some buf =>
      if nLen =? 0 then Ok (-1, p) else
      match m_pHead p with
      | None => Ok (-2, p)
      | Some h =>
          let nHead := head h in let nTail := tail h in let nSize := size h in
          let nLeftSize := GetLeftSize nHead nTail nSize in
          if nLeftSize <? u32 (u32 nLen + SIZEOF_UINT16) then Ok (-3, p) else
          '(d, nTail) ← for_ 0 SIZEOF_UINT16 (m_pData p, nTail) (λ i '(d, nTail),
            d ← wr d nTail (u8 (Z.shiftr nLen (8 * i)));
            nTail ← umod (u32 (nTail + 1)) nSize;
            Ok (d, nTail));
          d ← (if nSize <? nTail + nLen then
                 let nWriteLen := u32 (nSize - nTail) in
                 s ← slice buf 0 nWriteLen; d ← blit d nTail s;
                 s ← slice buf nWriteLen (nLen - nWriteLen); blit d 0 s
               else s ← slice buf 0 nLen; blit d nTail s);
          t ← umod (nTail + nLen) nSize;
          Ok (s32 (u32 nLen), mkPipe (Some (mkHead nHead t nSize)) d (m_nSize p))
      end
  end.

(** [ReadBuffer]; the result has the bytes copied to [pBuffer]. *)
Definition ReadBuffer (p : ShmPipe) (pBuffer : bool) (nLen : Z) : res (Z * list Z * ShmPipe) :=
  if negb pBuffer || (nLen =? 0) then Ok (-1, [], p) else
  match m_pHead p with
  | None => Ok (-2, [], p)
  | Some h =>
      let nHead := head h in let nTail := tail h in let nSize := size h in
      if nHead =? nTail then Ok (0, [], p) else
      let nNotReadSize := GetSize nHead nTail nSize in
      if nNotReadSize <? SIZEOF_UINT16 then Ok (-3, [], p) else
      '(nBufLen, nHead) ← for_ 0 SIZEOF_UINT16 (0, nHead) (λ i '(n, nHead),
        b ← rd (m_pData p) nHead;
        nHead ← umod (u32 (nHead + 1)) nSize;
        Ok (n + Z.shiftl b (8 * i), nHead));
      let nNotReadSize := u32 (nNotReadSize - SIZEOF_UINT16) in
      if nNotReadSize <? nBufLen then Ok (-4, [], p) else
      t ← umod (u32 (nHead + nBufLen)) nSize;
      let p' := mkPipe (Some (mkHead t nTail nSize)) (m_pData p) (m_nSize p) in
      if nLen <? nBufLen then Ok (-5, [], p') else
      out ← (if nSize <? u32 (nHead + nBufLen) then
               let nReadLen := u32 (nSize - nHead) in
               a ← slice (m_pData p) nHead nReadLen;
               b ← slice (m_pData p) 0 (nBufLen - nReadLen);
               Ok (a ++ b)
             else slice (m_pData p) nHead nBufLen);
      Ok (nBufLen, out, p')
  end.

Definition Write (p : ShmPipe) (pBuffer : option (list Z)) (nLen : Z) : res (Z * ShmPipe) := WriteBuffer p pBuffer nLen.
Definition Read (p : ShmPipe) (pBuffer : bool) (nLen : Z) : res (Z * list Z * ShmPipe) := ReadBuffer p pBuffer nLen.

(** ** Rings of bytes *)
Section Ring.
Context (N : Z) (HN : 0 < N).

(** The [n] bytes from place [h] on, around the ring. *)
Definition ring (d : list Z) (h n : Z) : list Z := (λ i, at_ d ((h + i) mod N)) <$> seqZ 0 n.

(** The ring after [src] was written from place [t] on. *)
Definition rput (d : list Z) (t : Z) (src : list Z) : list Z :=
  (λ i, let k := (i - t) mod N in if k <? Z.of_nat (length src) then at_ src k else at_ d i) <$> seqZ 0 N.

Lemma at_tabulate (f : Z → Z) n i : 0 ≤ i < n → at_ (f <$> seqZ 0 n) i = f i.
Proof.
  intros Hi. unfold at_. apply list_lookup_total_correct. rewrite list_lookup_fmap, lookup_seqZ_lt by lia.
  cbn. do 2 f_equal. lia.
Qed.

Lemma list_at_ext (d d' : list Z) n : Z.of_nat (length d) = n → Z.of_nat (length d') = n →
  (∀ i, 0 ≤ i < n → at_ d i = at_ d' i) → d = d'.
Proof.
  intros Hd Hd' Hat. apply list_eq_same_length with (n := length d); [lia|lia|]. intros i x y Hi Hx Hy.
  specialize (Hat (Z.of_nat i) ltac:(lia)). unfold at_ in Hat. rewrite Nat2Z.id in Hat.
  by rewrite (list_lookup_total_correct _ _ _ Hx), (list_lookup_total_correct _ _ _ Hy) in Hat.
Qed.

Lemma rput_length d t src : Z.of_nat (length (rput d t src)) = N.
Proof. unfold rput. rewrite length_fmap, length_seqZ. lia. Qed.

Lemma ring_length d h n : 0 ≤ n → Z.of_nat (length (ring d h n)) = n.
Proof. intros Hn. unfold ring. rewrite length_fmap, length_seqZ. lia. Qed.

Lemma at_rput d t src i : 0 ≤ i < N →
  at_ (rput d t src) i = if (i - t) mod N <? Z.of_nat (length src) then at_ src ((i - t) mod N) else at_ d i.
Proof. intros Hi. unfold rput. by rewrite at_tabulate. Qed.

Lemma at_ring d h n i : 0 ≤ i < n → at_ (ring d h n) i = at_ d ((h + i) mod N).
Proof. intros Hi. unfold ring. by rewrite at_tabulate. Qed.

Lemma ring_app d h a b : 0 ≤ a → 0 ≤ b → ring d h (a + b) = ring d h a ++ ring d ((h + a) mod N) b.
Proof.
  intros Ha Hb. unfold ring. rewrite seqZ_app, fmap_app by lia. f_equal.
  replace (0 + a) with (a + 0) by lia. rewrite <-fmap_add_seqZ.
  rewrite <-list_fmap_compose. apply list_fmap_ext. intros _ i _. cbn. f_equal.
  rewrite Zplus_mod_idemp_l. f_equal. lia.
Qed.

(** What was written is read back. *)
Lemma ring_rput d t src : Z.of_nat (length src) ≤ N → ring (rput d t src) t (Z.of_nat (length src)) = src.
Proof.
  intros Hs. apply (list_at_ext _ _ (Z.of_nat (length src))); [by apply ring_length; lia|done|]. intros i Hi.
  rewrite at_ring, at_rput by (lia || apply Z.mod_pos_bound; lia).
  rewrite Zminus_mod_idemp_l. replace (t + i - t) with i by lia. rewrite Z.mod_small by lia.
  by rewrite (proj2 (Z.ltb_lt i _)) by lia.
Qed.

(** What lies before is kept. *)
Lemma ring_kept d h n src : 0 ≤ n → n + Z.of_nat (length src) ≤ N →
  ring (rput d ((h + n) mod N) src) h n = ring d h n.
Proof.
  intros Hn Hs. apply (list_at_ext _ _ n); [by apply ring_length|by apply ring_length|]. intros i Hi.
  rewrite !at_ring, at_rput by (lia || apply Z.mod_pos_bound; lia).
  rewrite <-Zminus_mod. replace (h + i - (h + n)) with (i - n) by lia.
  rewrite <-(Z.mod_add (i - n) 1 N), Z.mod_small by lia.
  by rewrite (proj2 (Z.ltb_ge _ _)) by lia.
Qed.

Lemma rput_app d t a b : Z.of_nat (length a) + Z.of_nat (length b) ≤ N →
  rput (rput d t a) ((t + Z.of_nat (length a)) mod N) b = rput d t (a ++ b).
Proof.
  intros Hs. apply (list_at_ext _ _ N); [apply rput_length..|]. intros i Hi. rewrite !at_rput by done.
  rewrite length_app, Nat2Z.inj_add, Zminus_mod_idemp_r.
  set (x := (i - t) mod N). pose proof (Z.mod_pos_bound (i - t) N HN) as Hx. fold x in Hx.
  assert (E : (i - (t + Z.of_nat (length a))) mod N = if x <? Z.of_nat (length a) then x - Z.of_nat (length a) + N else x - Z.of_nat (length a)).
  { replace (i - (t + Z.of_nat (length a))) with ((i - t) - Z.of_nat (length a)) by lia.
    rewrite <-Zminus_mod_idemp_l. fold x. destruct (Z.ltb_spec x (Z.of_nat (length a))); [|apply Z.mod_small; lia].
    rewrite <-(Z.mod_add _ 1 N) by lia. rewrite Z.mod_small; lia. }
  rewrite E. unfold at_. destruct (Z.ltb_spec x (Z.of_nat (length a))) as [Hxa|Hxa].
  - rewrite (proj2 (Z.ltb_ge (x - Z.of_nat (length a) + N) _)), (proj2 (Z.ltb_lt x (_ + _))) by lia.
    by rewrite lookup_total_app_l by lia.
  - destruct (Z.ltb_spec (x - Z.of_nat (length a)) (Z.of_nat (length b))).
    + rewrite (proj2 (Z.ltb_lt x (_ + _))) by lia. rewrite lookup_total_app_r by lia. f_equal. lia.
    + by rewrite (proj2 (Z.ltb_ge x (_ + _))) by lia.
Qed.

(** *** Copies into and out of the ring *)
Lemma at_app_l (a b : list Z) i : 0 ≤ i < Z.of_nat (length a) → at_ (a ++ b) i = at_ a i.
Proof. intros Hi. unfold at_. apply lookup_total_app_l. lia. Qed.
Lemma at_app_r (a b : list Z) i : Z.of_nat (length a) ≤ i → at_ (a ++ b) i = at_ b (i - Z.of_nat (length a)).
Proof. intros Hi. unfold at_. rewrite lookup_total_app_r by lia. f_equal. lia. Qed.
Lemma at_take (a : list Z) n i : 0 ≤ i < Z.of_nat n → at_ (take n a) i = at_ a i.
Proof. intros Hi. unfold at_. rewrite lookup_total_take. case_decide; [done|lia]. Qed.
Lemma at_drop (a : list Z) n i : 0 ≤ i → at_ (drop n a) i = at_ a (Z.of_nat n + i).
Proof. intros Hi. unfold at_. rewrite lookup_total_drop. f_equal. lia. Qed.

Context (d : list Z) (Hd : Z.of_nat (length d) = N).

Lemma blit_rput t src : 0 ≤ t → t + Z.of_nat (length src) ≤ N → blit d t src = Ok (rput d t src).
Proof.
  intros Ht Hs. unfold blit. rewrite (proj2 (Z.leb_le 0 t)), (proj2 (Z.leb_le (t + _) _)) by lia. cbn [andb]. f_equal.
  apply (list_at_ext _ _ N); [|apply rput_length|].
  - rewrite !length_app, length_take, length_drop. lia.
  - intros i Hi. rewrite at_rput by done.
    assert (Hlt : Z.of_nat (length (take (Z.to_nat t) d)) = t) by (rewrite length_take; lia).
    destruct (Z.lt_ge_cases i t).
    + rewrite at_app_l, at_take by lia. rewrite <-(Z.mod_add (i - t) 1 N), Z.mod_small by lia.
      by rewrite (proj2 (Z.ltb_ge _ _)) by lia.
    + rewrite at_app_r, Hlt, Z.mod_small by lia. destruct (Z.ltb_spec (i - t) (Z.of_nat (length src))).
      * by rewrite at_app_l by lia.
      * rewrite at_app_r, at_drop by lia. f_equal. lia.
Qed.

Lemma wr_rput t v : 0 ≤ t < N → wr d t v = Ok (rput d t [v]).
Proof.
  intros Ht. rewrite wr_ok by lia. f_equal. apply (list_at_ext _ _ N); [by rewrite length_insert|apply rput_length|].
  intros i Hi. rewrite at_rput, at_insert by lia. cbn [length]. case_decide as E.
  - subst i. rewrite Z.sub_diag, Z.mod_0_l by lia. done.
  - rewrite (proj2 (Z.ltb_ge _ _)); [done|]. destruct (Z.lt_ge_cases i t).
    + rewrite <-(Z.mod_add (i - t) 1 N), Z.mod_small by lia. lia.
    + rewrite Z.mod_small by lia. lia.
Qed.

Lemma slice_ring h n : 0 ≤ h → 0 ≤ n → h + n ≤ N → slice d h n = Ok (ring d h n).
Proof.
  intros Hh Hn Hs. unfold slice. rewrite (proj2 (Z.leb_le 0 h)), (proj2 (Z.leb_le 0 n)), (proj2 (Z.leb_le (h + n) _)) by lia.
  cbn [andb]. f_equal. apply (list_at_ext _ _ n); [rewrite length_take, length_drop; lia|by apply ring_length|].
  intros i Hi. rewrite at_take, at_drop, at_ring by lia. f_equal. rewrite Z.mod_small by lia. lia.
Qed.
End Ring.

(** The two ways of copying a message into the ring. *)
Lemma copy_in N d t src : 0 < N → Z.of_nat (length d) = N → N < 4294967296 → 0 ≤ t < N → Z.of_nat (length src) ≤ N →
  (if N <? t + Z.of_nat (length src) then
     s ← slice src 0 (u32 (N - t)); d ← blit d t s;
     s ← slice src (u32 (N - t)) (Z.of_nat (length src) - u32 (N - t)); blit d 0 s
   else s ← slice src 0 (Z.of_nat (length src)); blit d t s) = Ok (rput N d t src).
Proof.
  intros HN Hd H32 Ht Hs. rewrite u32_small by lia.
  assert (Hsl : ∀ o n, 0 ≤ o → 0 ≤ n → o + n ≤ Z.of_nat (length src) → slice src o n = Ok (take (Z.to_nat n) (drop (Z.to_nat o) src))).
  { intros o n Ho Hn Hon. unfold slice.
    by rewrite (proj2 (Z.leb_le 0 o)), (proj2 (Z.leb_le 0 n)), (proj2 (Z.leb_le (o + n) _)) by lia. }
  destruct (Z.ltb_spec N (t + Z.of_nat (length src))) as [Hw|Hw].
  - rewrite !Hsl by lia. cbn [mbind res_bind]. change (Z.to_nat 0) with 0%nat. rewrite drop_0.
    set (a := take (Z.to_nat (N - t)) src). set (b := take _ (drop _ src)).
    assert (Hab : src = a ++ b).
    { unfold a, b. rewrite (take_ge (drop _ _)) by (rewrite length_drop; lia). by rewrite take_drop. }
    assert (Ha : Z.of_nat (length a) = N - t) by (unfold a; rewrite length_take; lia).
    assert (Hb : Z.of_nat (length b) = Z.of_nat (length src) - (N - t)) by (rewrite Hab, length_app; lia).
    rewrite (blit_rput N HN d Hd) by lia. cbn [mbind res_bind].
    rewrite (blit_rput N HN _ (rput_length N HN d t a)) by lia. f_equal. clearbody a b. subst src.
    rewrite <-(rput_app N HN d t a b) by lia.
    f_equal. rewrite Ha. replace (t + (N - t)) with N by lia. by rewrite Z.mod_same by lia.
  - rewrite Hsl by lia. cbn [mbind res_bind]. change (Z.to_nat 0) with 0%nat. rewrite drop_0, Nat2Z.id, firstn_all.
    apply blit_rput; lia.
Qed.

(** And out of it. *)
Lemma copy_out N d h n : 0 < N → Z.of_nat (length d) = N → N + 65535 < 4294967296 → 0 ≤ h < N → 0 ≤ n ≤ 65535 → n ≤ N →
  (if N <? u32 (h + n) then
     a ← slice d h (u32 (N - h)); b ← slice d 0 (n - u32 (N - h)); Ok (a ++ b)
   else slice d h n) = Ok (ring N d h n).
Proof.
  intros HN Hd H32 Hh Hn HnN. rewrite !u32_small by lia. destruct (Z.ltb_spec N (h + n)) as [Hw|Hw].
  - rewrite !(slice_ring N HN d Hd) by lia. cbn [mbind res_bind]. f_equal.
    replace n with ((N - h) + (n - (N - h))) at 2 by lia. rewrite ring_app by lia. f_equal. f_equal.
    replace (h + (N - h)) with N by lia. by rewrite Z.mod_same by lia.
  - apply slice_ring; lia.
Qed.

(** ** The pipe as a queue of messages *)
Definition enc (m : list Z) : list Z :=
  [Z.of_nat (length m) mod 256; Z.of_nat (length m) / 256] ++ m.
Definition encs (q : list (list Z)) : list Z := concat (enc <$> q).
Definition used (q : list (list Z)) : Z := Z.of_nat (length (encs q)).
Definition msg (m : list Z) : Prop := 1 ≤ Z.of_nat (length m) ≤ 65535.

Lemma enc_length m : Z.of_nat (length (enc m)) = Z.of_nat (length m) + 2.
Proof. unfold enc. rewrite length_app. cbn. lia. Qed.
Lemma encs_cons m q : encs (m :: q) = enc m ++ encs q.
Proof. done. Qed.
Lemma encs_snoc q m : encs (q ++ [m]) = encs q ++ enc m.
Proof. unfold encs. rewrite fmap_app, concat_app. cbn. by rewrite app_nil_r. Qed.

(** The pipe of [N] bytes whose next message starts at [h] holds the messages [q]. *)
Record rep_at (N : Z) (h : Z) (p : ShmPipe) (q : list (list Z)) : Prop := {
  r_head : m_pHead p = Some (mkHead h ((h + used q) mod N) N);
  r_place : 0 ≤ h < N;
  r_bytes : ring N (m_pData p) h (used q) = encs q;
  r_data : Z.of_nat (length (m_pData p)) = N;
  r_used : used q < N;
  r_msgs : Forall msg q }.

Definition rep (N : Z) (p : ShmPipe) (q : list (list Z)) : Prop := ∃ h, rep_at N h p q.

Section Operations.
Context (N : Z) (HN : 0 < N) (H32 : N + 65535 < 4294967296).

Lemma around h u : 0 ≤ h < N → 0 ≤ u < N →
  (h + u < N ∧ (h + u) mod N = h + u) ∨ (N ≤ h + u ∧ (h + u) mod N = h + u - N).
Proof.
  intros Hh Hu. destruct (Z.lt_ge_cases (h + u) N); [left|right]; (split; [done|]); [apply Z.mod_small; lia|].
  rewrite <-(Z.mod_add (h + u) (-1) N) by lia. rewrite Z.mod_small; lia.
Qed.

Lemma left_size h u : 0 ≤ h < N → 0 ≤ u < N → GetLeftSize h ((h + u) mod N) N = N - u.
Proof.
  intros Hh Hu. unfold GetLeftSize.
  destruct (around h u Hh Hu) as [[Hlt ->]|[Hge ->]]; case_match; rewrite ?u32_small by lia; lia.
Qed.

Lemma unread_size h u : 0 ≤ h < N → 0 ≤ u < N → GetSize h ((h + u) mod N) N = u.
Proof.
  intros Hh Hu. unfold GetSize.
  destruct (around h u Hh Hu) as [[Hlt ->]|[Hge ->]]; case_match; rewrite ?u32_small by lia; lia.
Qed.

Lemma length_bytes m : msg m → [u8 (Z.shiftr (Z.of_nat (length m)) 0); u8 (Z.shiftr (Z.of_nat (length m)) 8)] =
  [Z.of_nat (length m) mod 256; Z.of_nat (length m) / 256].
Proof.
  unfold msg, u8. intros Hm. rewrite Z.shiftr_0_r, Z.shiftr_div_pow2 by lia. change (2 ^ 8) with 256.
  f_equal. f_equal. rewrite Z.mod_small; [done|]. split; [apply Z.div_pos; lia|apply Z.div_lt_upper_bound; lia].
Qed.

(** The two bytes of the length. *)
Lemma write_length d t m : Z.of_nat (length d) = N → 2 ≤ N → 0 ≤ t < N → msg m →
  for_ 0 SIZEOF_UINT16 (d, t) (λ i '(d, nTail),
    d ← wr d nTail (u8 (Z.shiftr (Z.of_nat (length m)) (8 * i)));
    nTail ← umod (u32 (nTail + 1)) N;
    Ok (d, nTail)) =
  Ok (rput N d t [Z.of_nat (length m) mod 256; Z.of_nat (length m) / 256], (t + 2) mod N).
Proof.
  intros Hd H2 Ht Hm. unfold for_, SIZEOF_UINT16. change (seqZ 0 (2 - 0)) with [0; 1]. cbn [foldM].
  change (8 * 0) with 0. change (8 * 1) with 8.
  assert (Hu : ∀ t, 0 ≤ t < N → umod (u32 (t + 1)) N = Ok ((t + 1) mod N)).
  { intros t' Ht'. unfold umod. rewrite (proj2 (Z.eqb_neq N 0)), u32_small by lia. done. }
  pose proof (Z.mod_pos_bound (t + 1) N HN).
  rewrite (wr_rput N HN d Hd), bind_ok, Hu, bind_ok, bind_ok by lia.
  rewrite (wr_rput N HN _ (rput_length N HN _ _ _)), bind_ok, Hu, bind_ok, bind_ok by lia.
  rewrite <-(length_bytes m Hm). pose proof (rput_app N HN d t [u8 (Z.shiftr (Z.of_nat (length m)) 0)] [u8 (Z.shiftr (Z.of_nat (length m)) 8)]) as Ha.
  cbn [length app] in Ha. change (Z.of_nat 1) with 1 in Ha. rewrite Ha by lia.
  f_equal. f_equal. rewrite Zplus_mod_idemp_l. f_equal. lia.
Qed.

Lemma s32_small z : 0 ≤ z ≤ 65535 → s32 z = z.
Proof. intros Hz. unfold s32. rewrite Z.mod_small by lia. lia. Qed.

Lemma write_ok p q m : rep N p q → msg m → used q + 2 + Z.of_nat (length m) < N →
  ∃ p', WriteBuffer p (Some m) (Z.of_nat (length m)) = Ok (Z.of_nat (length m), p') ∧ rep N p' (q ++ [m]).
Proof.
  intros (h & [Hh Hpl Hby Hd Hus Hms]) Hm Hfit. assert (0 ≤ used q) as Hu0 by (unfold used; lia). unfold msg in Hm.
  unfold WriteBuffer. rewrite (proj2 (Z.eqb_neq _ 0)), Hh by lia. cbn [head tail size].
  rewrite left_size by done. rewrite (u32_small (Z.of_nat (length m))), u32_small by (unfold SIZEOF_UINT16; lia).
  rewrite (proj2 (Z.ltb_ge _ _)) by (unfold SIZEOF_UINT16; lia). cbv zeta.
  pose proof (Z.mod_pos_bound (h + used q) N HN) as Ht. set (t := (h + used q) mod N) in *.
  rewrite write_length by (done || lia). rewrite bind_ok.
  pose proof (Z.mod_pos_bound (t + 2) N HN) as Ht2.
  rewrite (copy_in N) by (lia || by apply rput_length). rewrite bind_ok.
  unfold umod. rewrite (proj2 (Z.eqb_neq N 0)), bind_ok, s32_small by lia. eexists. split; [done|].
  pose proof (rput_app N HN (m_pData p) t [Z.of_nat (length m) mod 256; Z.of_nat (length m) / 256] m) as Ha.
  cbn [length] in Ha. change (Z.of_nat 2) with 2 in Ha. rewrite Ha by lia. fold (enc m).
  assert (Hu' : used (q ++ [m]) = used q + Z.of_nat (length (enc m))) by (unfold used; rewrite encs_snoc, length_app; lia).
  pose proof (enc_length m) as Hel.
  exists h. split; cbn [m_pHead m_pData]; [|done| |by apply rput_length|lia|].
  - do 2 f_equal. rewrite Zplus_mod_idemp_l, <-Z.add_assoc. unfold t. rewrite Zplus_mod_idemp_l, Hu', Hel. f_equal. lia.
  - rewrite Hu', encs_snoc, ring_app by lia. fold t. rewrite ring_rput by lia. f_equal. unfold t. by rewrite ring_kept by lia.
  - apply Forall_app. split; [done|]. by constructor.
Qed.

Lemma write_full p q m : rep N p q → msg m → N < used q + 2 + Z.of_nat (length m) →
  WriteBuffer p (Some m) (Z.of_nat (length m)) = Ok (-3, p).
Proof.
  intros (h & [Hh Hpl Hby Hd Hus Hms]) Hm Hfit. assert (0 ≤ used q) as Hu0 by (unfold used; lia). unfold msg in Hm.
  unfold WriteBuffer. rewrite (proj2 (Z.eqb_neq _ 0)), Hh by lia. cbn [head tail size].
  rewrite left_size by done. rewrite (u32_small (Z.of_nat (length m))), u32_small by (unfold SIZEOF_UINT16; lia).
  by rewrite (proj2 (Z.ltb_lt _ _)) by (unfold SIZEOF_UINT16; lia).
Qed.

Lemma read_empty p cap : rep N p [] → cap ≠ 0 → ReadBuffer p true cap = Ok (0, [], p).
Proof.
  intros (h & [Hh Hpl Hby Hd Hus Hms]) Hc. unfold ReadBuffer. rewrite (proj2 (Z.eqb_neq cap 0)), Hh by done.
  cbn [negb orb head tail size]. change (used []) with 0. rewrite Z.add_0_r, Z.mod_small, Z.eqb_refl by lia. done.
Qed.

Lemma read_length d h m q : Z.of_nat (length d) = N → 0 ≤ h < N → msg m →
  ring N d h (used (m :: q)) = encs (m :: q) →
  for_ 0 SIZEOF_UINT16 (0, h) (λ i '(n, nHead),
    b ← rd d nHead;
    nHead ← umod (u32 (nHead + 1)) N;
    Ok (n + Z.shiftl b (8 * i), nHead)) = Ok (Z.of_nat (length m), (h + 2) mod N).
Proof.
  intros Hd Hh Hm Hby. unfold msg in Hm. assert (2 ≤ used (m :: q)) as Hu2.
  { unfold used. rewrite encs_cons, length_app, Nat2Z.inj_add, enc_length. lia. }
  unfold for_, SIZEOF_UINT16. change (seqZ 0 (2 - 0)) with [0; 1]. cbn [foldM].
  assert (Hu : ∀ t, 0 ≤ t < N → umod (u32 (t + 1)) N = Ok ((t + 1) mod N)).
  { intros t' Ht'. unfold umod. rewrite (proj2 (Z.eqb_neq N 0)), u32_small by lia. done. }
  pose proof (Z.mod_pos_bound (h + 1) N HN).
  assert (H0 : at_ d h = Z.of_nat (length m) mod 256).
  { transitivity (at_ (ring N d h (used (m :: q))) 0); [|by rewrite Hby].
    rewrite at_ring, Z.add_0_r, Z.mod_small by lia. done. }
  assert (H1 : at_ d ((h + 1) mod N) = Z.of_nat (length m) / 256).
  { transitivity (at_ (ring N d h (used (m :: q))) 1); [by rewrite at_ring by lia|by rewrite Hby]. }
  rewrite rd_ok, bind_ok, Hu, bind_ok, bind_ok by lia. rewrite rd_ok, bind_ok, Hu, bind_ok, bind_ok by lia.
  rewrite H0, H1. change (8 * 0) with 0. change (8 * 1) with 8. rewrite Z.shiftl_0_r, Z.shiftl_mul_pow2 by lia.
  change (2 ^ 8) with 256. f_equal. f_equal.
  - pose proof (Z.div_mod (Z.of_nat (length m)) 256). lia.
  - rewrite Zplus_mod_idemp_l. f_equal. lia.
Qed.

Lemma read_msg p m q cap : rep N p (m :: q) → 0 < cap →
  ∃ p', ReadBuffer p true cap =
      Ok (if Z.of_nat (length m) <=? cap then (Z.of_nat (length m), m, p') else (-5, [], p')) ∧ rep N p' q.
Proof.
  intros (h & [Hh Hpl Hby Hd Hus Hms]) Hc. pose proof (Forall_inv Hms) as Hm. pose proof (Forall_inv_tail Hms) as Hms'.
  pose proof (enc_length m) as Hel. assert (Hu' : used (m :: q) = Z.of_nat (length m) + 2 + used q).
  { unfold used. rewrite encs_cons, length_app. lia. }
  assert (0 ≤ used q) as Hu0 by (unfold used; lia). pose proof Hm as Hm'. unfold msg in Hm'.
  unfold ReadBuffer. rewrite (proj2 (Z.eqb_neq cap 0)), Hh by lia. cbn [negb orb head tail size].
  assert ((h =? (h + used (m :: q)) mod N) = false) as ->.
  { apply Z.eqb_neq. destruct (around h (used (m :: q)) Hpl ltac:(lia)) as [[_ ->]|[_ ->]]; lia. }
  rewrite unread_size by lia. rewrite (proj2 (Z.ltb_ge _ _)) by (unfold SIZEOF_UINT16; lia).
  rewrite (read_length _ _ m q) by done. rewrite bind_ok. cbv zeta.
  rewrite u32_small by (unfold SIZEOF_UINT16; lia). rewrite (proj2 (Z.ltb_ge _ _)) by (unfold SIZEOF_UINT16; lia).
  pose proof (Z.mod_pos_bound (h + 2) N HN) as Ht2.
  rewrite (copy_out N) by (done || lia). unfold umod. rewrite (proj2 (Z.eqb_neq N 0)), bind_ok, u32_small by lia.
  set (h' := ((h + 2) mod N + Z.of_nat (length m)) mod N).
  assert (Hparts : ring N (m_pData p) ((h + 2) mod N) (Z.of_nat (length m)) = m ∧ ring N (m_pData p) h' (used q) = encs q).
  { rewrite Hu', encs_cons in Hby. replace (Z.of_nat (length m) + 2 + used q) with (2 + (Z.of_nat (length m) + used q)) in Hby by lia.
    rewrite ring_app, ring_app in Hby by lia. fold h' in Hby. unfold enc in Hby. rewrite <-app_assoc in Hby.
    apply app_inj_1 in Hby as [_ Hby]; [|apply Nat2Z.inj; rewrite ring_length by lia; done].
    apply app_inj_1 in Hby; [done|apply Nat2Z.inj; by rewrite ring_length by lia]. }
  destruct Hparts as [Hr1 Hr2]. rewrite Hr1.
  eexists (mkPipe (Some (mkHead h' ((h + used (m :: q)) mod N) N)) (m_pData p) (m_nSize p)). split.
  - destruct (Z.leb_spec (Z.of_nat (length m)) cap).
    + by rewrite (proj2 (Z.ltb_ge cap _)) by lia.
    + by rewrite (proj2 (Z.ltb_lt cap _)) by lia.
  - exists h'. split; cbn [m_pHead m_pData]; [|apply Z.mod_pos_bound; lia|done|done|lia|done].
    do 2 f_equal. unfold h'. rewrite Zplus_mod_idemp_l, <-Z.add_assoc, Zplus_mod_idemp_l. f_equal. lia.
Qed.
End Operations.

(** ** Sequences of operations *)
Inductive pipe_op := OWrite (m : list Z) | ORead (cap : Z).

(** What an operation answers: the number returned and the bytes received. *)
Definition pipe_do (p : ShmPipe) (o : pipe_op) : res ((Z * list Z) * ShmPipe) :=
  match o with
  | OWrite m => '(r, p) ← Write p (Some m) (Z.of_nat (length m)); Ok ((r, []), p)
  | ORead cap => '(r, out, p) ← Read p true cap; Ok ((r, out), p)
  end.

Fixpoint pipe_run (p : ShmPipe) (os : list pipe_op) : res (list (Z * list Z)) :=
  match os with
  | [] => Ok []
  | o :: os => '(a, p) ← pipe_do p o; l ← pipe_run p os; Ok (a :: l)
  end.

(** A queue of messages for which [N] bytes are there, two more for each message. *)
Definition queue_do (N : Z) (q : list (list Z)) (o : pipe_op) : (Z * list Z) * list (list Z) :=
  match o with
  | OWrite m =>
      if length m is 0%nat then ((-1, []), q)
      else if N <? used q + 2 + Z.of_nat (length m) then ((-3, []), q)
      else ((Z.of_nat (length m), []), q ++ [m])
  | ORead cap =>
      if cap =? 0 then ((-1, []), q) else
      match q with
      | [] => ((0, []), [])
      | m :: q => if Z.of_nat (length m) <=? cap then ((Z.of_nat (length m), m), q) else ((-5, []), q)
      end
  end.

Fixpoint queue_run (N : Z) (q : list (list Z)) (os : list pipe_op) : list (Z * list Z) :=
  match os with
  | [] => []
  | o :: os => let '(a, q) := queue_do N q o in a :: queue_run N q os
  end.

(** Messages are at most 65535 bytes long and none fills the pipe to the last byte;
    a reader's buffer is not of negative size. *)
Definition op_fine (N : Z) (q : list (list Z)) (o : pipe_op) : Prop :=
  match o with
  | OWrite m => Z.of_nat (length m) ≤ 65535 ∧ used q + 2 + Z.of_nat (length m) ≠ N
  | ORead cap => 0 ≤ cap
  end.

Fixpoint ops_fine (N : Z) (q : list (list Z)) (os : list pipe_op) : Prop :=
  match os with
  | [] => True
  | o :: os => op_fine N q o ∧ ops_fine N (snd (queue_do N q o)) os
  end.

Lemma do_refines N p q o : 0 < N → N + 65535 < 4294967296 → rep N p q → op_fine N q o →
  ∃ p', pipe_do p o = Ok (fst (queue_do N q o), p') ∧ rep N p' (snd (queue_do N q o)).
Proof.
  intros HN H32 Hp Hf. destruct o as [m|cap]; cbn [op_fine pipe_do queue_do] in *; unfold Write, Read.
  - destruct Hf as [Hlen Hne]. destruct m as [|b m]; [by exists p|].
    assert (Hm : msg (b :: m)) by (unfold msg; cbn [length]; cbn [length] in Hlen; lia).
    assert (Hk : ∃ k, k = b :: m) by eauto. destruct Hk as (k & Hk). rewrite <-Hk in *.
    assert (length k = S (length m)) as Hlk by (by rewrite Hk). rewrite Hlk. cbn iota. rewrite <-Hlk.
    destruct (Z.ltb_spec N (used q + 2 + Z.of_nat (length k))).
    + rewrite (write_full N HN H32 p q k) by done. by exists p.
    + destruct (write_ok N HN H32 p q k Hp Hm ltac:(lia)) as (p' & E & Hp'). rewrite E. by exists p'.
  - destruct (Z.eqb_spec cap 0) as [->|Hc]; [by exists p|]. destruct q as [|m q].
    + rewrite (read_empty N p cap) by done. by exists p.
    + destruct (read_msg N HN H32 p m q cap Hp ltac:(lia)) as (p' & E & Hp'). rewrite E.
      exists p'. by destruct (Z.of_nat (length m) <=? cap).
Qed.

Lemma open_rep p nSize nSemKey init create found :
  SIZEOF_PIPE_HEAD < nSize < 4294967296 → ¬ (0 < nSemKey ∧ init < 0) →
  Z.of_nat (length (snd found)) = nSize - SIZEOF_PIPE_HEAD →
  ∃ p', Open p nSize nSemKey false init true create found = (true, p') ∧ rep (nSize - SIZEOF_PIPE_HEAD) p' [].
Proof.
  unfold SIZEOF_PIPE_HEAD. intros Hs Hi Hd. unfold Open, SIZEOF_PIPE_HEAD.
  rewrite (proj2 (Z.ltb_ge nSize 12)) by lia.
  assert ((0 <? nSemKey) && (init <? 0) = false) as -> by lia. cbn [negb andb]. eexists. split; [done|].
  exists 0. unfold Reset, SIZEOF_PIPE_HEAD. cbn [m_pHead m_pData m_nSize]. rewrite u32_small by lia.
  split; cbn [m_pHead m_pData]; try done; try lia.
  change (used []) with 0. lia.
Qed.

(** C24: A pipe opened afresh over [nSize] bytes of shared memory behaves, under every
    sequence of writes and reads, as a queue of messages: writes are refused with -3
    exactly when the message and its two length bytes do not fit, reads give the
    messages in the order they were written, unchanged, or drop one with -5 when the
    reader's buffer is too small; no operation leaves the memory.  Messages are at
    most 65535 bytes long, no write may fill the pipe to the last byte (a full pipe is
    read as empty, [full_pipe_reads_empty]), and readers' buffers have no negative size. *)
Theorem pipe_refines_queue p0 nSize nSemKey init create found os :
  SIZEOF_PIPE_HEAD < nSize < 4294901760 → ¬ (0 < nSemKey ∧ init < 0) →
  Z.of_nat (length (snd found)) = nSize - SIZEOF_PIPE_HEAD →
  ops_fine (nSize - SIZEOF_PIPE_HEAD) [] os →
  ∃ p, Open p0 nSize nSemKey false init true create found = (true, p) ∧
    pipe_run p os = Ok (queue_run (nSize - SIZEOF_PIPE_HEAD) [] os).
Proof.
  intros Hs Hi Hd Hf. destruct (open_rep p0 nSize nSemKey init create found) as (p & E & Hp); [lia|done|done|].
  exists p. split; [done|]. clear E. set (N := nSize - SIZEOF_PIPE_HEAD) in *.
  assert (0 < N) by (unfold N; lia). assert (N + 65535 < 4294967296) by (unfold N, SIZEOF_PIPE_HEAD; lia).
  revert p Hp Hf. generalize (@nil (list Z)) as q. induction os as [|o os IH]; intros q p Hp Hf; [done|].
  destruct Hf as [Hf1 Hf2]. cbn [pipe_run queue_run].
  destruct (do_refines N p q o) as (p' & E & Hp'); [done..|]. rewrite E, bind_ok.
  destruct (queue_do N q o) as [a q']. cbn [fst snd] in *. by rewrite (IH q' p').
Qed.

(** A pipe of eight bytes: the second write is refused, the third goes around the end. *)
Definition pipe_example : list pipe_op :=
  [OWrite [1; 2; 3]; OWrite [4; 5]; ORead 9; OWrite [6; 7]; ORead 1; ORead 1; OWrite [8]; ORead 4].

Lemma pipe_refines_queue_witness : ∃ p,
  Open construct 20 0 false 0 true false (mkHead 7 7 7, replicate 8 255) = (true, p) ∧
  pipe_run p pipe_example = Ok (queue_run 8 [] pipe_example).
Proof.
  apply (pipe_refines_queue construct 20 0 0 false (mkHead 7 7 7, replicate 8 255) pipe_example).
  - unfold SIZEOF_PIPE_HEAD. lia.
  - lia.
  - reflexivity.
  - cbn. repeat split; try lia; discriminate.
Defined.

Example pipe_example_answers : queue_run 8 [] pipe_example =
  [(3, []); (-3, []); (3, [1; 2; 3]); (2, []); (-5, []); (0, []); (1, []); (1, [8])].
Proof. reflexivity. Qed.

(** A write that fills the pipe is accepted and lost: the full pipe reads as empty. *)
Fact full_pipe_reads_empty :
  let p := snd (Open construct 20 0 false 0 true false (mkHead 0 0 0, replicate 8 0)) in
  let p' := mkPipe (Some (mkHead 0 0 8)) [6; 0; 1; 2; 3; 4; 5; 6] 20 in
  Write p (Some [1; 2; 3; 4; 5; 6]) 6 = Ok (6, p') ∧ Read p' true 100 = Ok (0, [], p').
Proof. split; vm_compute; reflexivity. Qed.
