(* ===== verification/FrameBuffer.v ===== *)
(** * The growing byte buffer ([src/Common/frame/src/memory/buffer.cpp])

    Messages of the server are put together and taken apart in a [Buffer]: numbers
    and strings are appended at an offset, the memory grows when it is full, and
    after [SeekTo( 0 )] they are read in the same order.  Sizes and offsets are
    [uint32] and wrap.  The bytes of new memory are not initialised: they are an
    argument.  Proved: what was pushed is popped; and where the reader trusts its
    input too much. *)

From stdpp Require Import base list list_numbers numbers option.
From S2P Require Import Prelude ShmPipe.

Open Scope Z_scope.

Record Buffer := mkBuffer { m_pBuffer : option (list Z); m_nSize : Z; m_nOffset : Z; m_nAlloc : Z }.

(** The bytes behind [m_pBuffer]; copying no bytes from [NULL] is harmless. *)
Definition bytes_of (b : Buffer) : list Z := default [] (m_pBuffer b).

Section Code.
(** The bytes of [new char[ n ]]. *)
Context (junk : Z → list Z).

Definition Buffer_default : Buffer := mkBuffer None 0 0 0.
Definition Buffer_new (size alloc : Z) : Buffer :=
  mkBuffer (if 0 <? size then Some (junk size) else None) size 0 (if 0 <? alloc then alloc else 1024).

Definition Write (b : Buffer) (buffer : option (list Z)) (len : Z) : res (bool * Buffer) :=
  match buffer with
  | None => Ok (false, b)
  | Some src =>
      if len =? 0 then Ok (false, b) else
      b ← (if u32 (m_nSize b - m_nOffset b) <? len then
             let nNeed := u32 (len + m_nSize b - m_nOffset b) in
             let alloc := if m_nAlloc b =? 0 then 1024 else m_nAlloc b in
             let nAlloc := u32 (u32 (nNeed + alloc) / alloc * alloc) in
             let size := u32 (m_nSize b + nAlloc) in
             old ← slice (bytes_of b) 0 (m_nOffset b);
             d ← blit (junk size) 0 old;
             Ok (mkBuffer (Some d) size (m_nOffset b) alloc)
           else Ok b);
      s ← slice src 0 len;
      d ← blit (bytes_of b) (m_nOffset b) s;
      Ok (true, mkBuffer (Some d) (m_nSize b) (u32 (m_nOffset b + len)) (m_nAlloc b))
  end.

(** [Read]; the result has the bytes read. *)
Definition Read (b : Buffer) (len : Z) : res (bool * list Z * Buffer) :=
  if len =? 0 then Ok (false, [], b) else
  if m_nSize b <? u32 (m_nOffset b + len) then Ok (false, [], b) else
  out ← slice (bytes_of b) (m_nOffset b) len;
  Ok (true, out, mkBuffer (m_pBuffer b) (m_nSize b) (u32 (m_nOffset b + len)) (m_nAlloc b)).

(** [Push] and [Pop] of a [uint32]. *)
Definition le4 (n : Z) : list Z := [u8 n; u8 (Z.shiftr n 8); u8 (Z.shiftr n 16); u8 (Z.shiftr n 24)].
Definition of_le4 (l : list Z) : Z :=
  match l with
  | [a; b; c; d] => a + Z.shiftl b 8 + Z.shiftl c 16 + Z.shiftl d 24
  | _ => 0
  end.

Definition PushU32 (b : Buffer) (n : Z) : res (bool * Buffer) := Write b (Some (le4 n)) 4.

(** The variable keeps its value [n] when nothing is read. *)
Definition PopU32 (b : Buffer) (n : Z) : res (bool * Z * Buffer) :=
  '(ok, l, b) ← Read b 4;
  Ok (ok, if (ok : bool) then of_le4 l else n, b).

Definition PushString (b : Buffer) (str : list Z) : res (bool * Buffer) :=
  let size := u32 (Z.of_nat (length str)) in
  '(_, b) ← PushU32 b size;
  match str with
  | [] => Ok (true, b)
  | _ => Write b (Some str) size
  end.

(** The C string at the start of a buffer. *)
Fixpoint c_str (l : list Z) : list Z :=
  match l with
  | [] => []
  | x :: l => if x =? 0 then [] else x :: c_str l
  end.

(** [PopString]; [str] is what the variable held. *)
Definition PopString (b : Buffer) (str : list Z) : res (bool * list Z * Buffer) :=
  '(_, len, b) ← PopU32 b 0;
  if 0 <? len then
    let size := u32 (len + 1) in
    '(ok, l, b) ← Read b len;
    if negb ok then Ok (false, str, b) else
    buffer ← blit (junk size) 0 l;
    buffer ← wr buffer len 0;
    Ok (true, c_str buffer, b)
  else Ok (true, str, b).

(** A [wchar_t] has four bytes. *)
Definition SIZEOF_WCHAR : Z := 4.
Definition wide_bytes (w : list Z) : list Z := concat (le4 <$> w).
Fixpoint wide_chars (fuel : nat) (l : list Z) : list Z :=
  match fuel, l with
  | S fuel, a :: b :: c :: d :: l => of_le4 [a; b; c; d] :: wide_chars fuel l
  | _, _ => []
  end.

Definition PushWString (b : Buffer) (wstr : list Z) : res (bool * Buffer) :=
  let size := u32 (Z.of_nat (length wstr) * SIZEOF_WCHAR) in
  '(_, b) ← PushU32 b size;
  match wstr with
  | [] => Ok (true, b)
  | _ => Write b (Some (wide_bytes wstr)) size
  end.

(** [wchar_t *buffer = new wchar_t[ len + 1 ]] holds [len + 1] characters; a size
    that is not a multiple of four would write past them. *)
Definition PopWString (b : Buffer) (wstr : list Z) : res (bool * list Z * Buffer) :=
  '(_, size, b) ← PopU32 b 0;
  let len := size / SIZEOF_WCHAR in
  if 0 <? len then
    '(ok, l, b) ← Read b size;
    if negb ok then Ok (false, wstr, b) else
    buffer ← blit (junk (u32 (len + 1) * SIZEOF_WCHAR)) 0 l;
    buffer ← wr (wide_chars (length buffer) buffer) len 0;
    Ok (true, c_str buffer, b)
  else Ok (true, wstr, b).

Definition PushBytes (b : Buffer) (buffer : option (list Z)) (len : Z) : res (bool * Buffer) :=
  '(_, b) ← PushU32 b len;
  if nz len then Write b buffer len else Ok (true, b).

(** [Pop( buffer, len )]: [len] is the variable and [cap] the size of the caller's
    buffer, which the code does not know. *)
Definition PopBytes (b : Buffer) (cap len : Z) : res (bool * list Z * Z * Buffer) :=
  '(_, len, b) ← PopU32 b len;
  if nz len then
    '(ok, l, b) ← Read b len;
    if cap <? Z.of_nat (length l) then Err OutOfBounds else Ok (ok, l, len, b)
  else Ok (true, [], len, b).

Definition Seek (b : Buffer) (offset : Z) : Z * Buffer :=
  if m_nSize b <? u32 (m_nOffset b + offset) then (4294967295, b)
  else (m_nOffset b, mkBuffer (m_pBuffer b) (m_nSize b) (u32 (m_nOffset b + offset)) (m_nAlloc b)).

Definition SeekTo (b : Buffer) (pos : Z) : Z * Buffer :=
  if m_nSize b <? pos then (4294967295, b)
  else (m_nOffset b, mkBuffer (m_pBuffer b) (m_nSize b) pos (m_nAlloc b)).

Definition GetLeftLen (b : Buffer) : Z := u32 (m_nSize b - m_nOffset b).

(** [src] is another object: the code does not guard against cloning a buffer into
    itself. *)
Definition Clone (b src : Buffer) : res (bool * Buffer) :=
  s ← slice (bytes_of src) 0 (m_nSize src);
  if m_nSize src <? m_nSize b then
    d ← blit (replicate (length (bytes_of b)) 0) 0 s;
    Ok (true, mkBuffer (Some d) (m_nSize b) (m_nOffset src) (m_nAlloc b))
  else
    d ← blit (junk (m_nSize src)) 0 s;
    Ok (true, mkBuffer (Some d) (m_nSize src) (m_nOffset src) (m_nAlloc b)).
End Code.

(** ** What a buffer holds *)
Section Theory.
Context (junk : Z → list Z) (Hjunk : ∀ n, 0 ≤ n → Z.of_nat (length (junk n)) = n).

(** The bytes [w] were written and the offset is behind them. *)
Record holds (b : Buffer) (w : list Z) : Prop := {
  h_size : Z.of_nat (length (bytes_of b)) = m_nSize b;
  h_small : m_nSize b < 4294967296;
  h_offset : m_nOffset b = Z.of_nat (length w);
  h_fits : Z.of_nat (length w) ≤ m_nSize b;
  h_bytes : take (length w) (bytes_of b) = w;
  h_alloc : 0 < m_nAlloc b }.

Lemma blit_at d w src : take (length w) d = w → (length w + length src ≤ length d)%nat →
  ∃ d', blit d (Z.of_nat (length w)) src = Ok d' ∧ length d' = length d ∧ take (length (w ++ src)) d' = w ++ src.
Proof.
  intros Hw Hlen. unfold blit. rewrite (proj2 (Z.leb_le 0 _)), (proj2 (Z.leb_le _ _)) by lia. cbn [andb].
  eexists. split; [done|]. rewrite Nat2Z.id, Hw. split.
  - rewrite !length_app, length_drop. lia.
  - rewrite app_assoc. by apply take_app_length.
Qed.

Lemma slice_all (src : list Z) : slice src 0 (Z.of_nat (length src)) = Ok src.
Proof.
  unfold slice. rewrite (proj2 (Z.leb_le 0 (Z.of_nat _))), (proj2 (Z.leb_le (0 + _) _)) by lia.
  rewrite (proj2 (Z.leb_le 0 0)) by lia. cbn [andb]. change (Z.to_nat 0) with 0%nat.
  by rewrite drop_0, Nat2Z.id, firstn_all.
Qed.

Lemma slice_prefix (d w : list Z) : take (length w) d = w → (length w ≤ length d)%nat →
  slice d 0 (Z.of_nat (length w)) = Ok w.
Proof.
  intros Hw Hl. unfold slice. rewrite (proj2 (Z.leb_le 0 (Z.of_nat _))), (proj2 (Z.leb_le (0 + _) _)) by lia.
  rewrite (proj2 (Z.leb_le 0 0)) by lia. cbn [andb]. change (Z.to_nat 0) with 0%nat.
  by rewrite drop_0, Nat2Z.id, Hw.
Qed.

(** Room for [len] more bytes. *)
Lemma grow_room need A len : 0 < len ≤ need → 0 < A → need + A < 4294967296 →
  len ≤ u32 (u32 (need + A) / A * A) ≤ need + A.
Proof.
  intros Hn HA Hb. rewrite (u32_small (need + A)) by lia. pose proof (Z.div_mod (need + A) A ltac:(lia)) as Hdm.
  pose proof (Z.mod_pos_bound (need + A) A HA) as Hm. rewrite u32_small by lia. lia.
Qed.

Lemma holds_mk d w n A k : Z.of_nat (length d) = n → n < 4294967296 → k = Z.of_nat (length w) →
  Z.of_nat (length w) ≤ n → take (length w) d = w → 0 < A → holds (mkBuffer (Some d) n (u32 k) A) w.
Proof. intros. split; cbn [m_nSize m_nOffset m_nAlloc]; try done. rewrite u32_small; lia. Qed.

Lemma Write_ok b w src : holds b w → src ≠ [] →
  m_nSize b + 2 * Z.of_nat (length src) + m_nAlloc b < 4294967296 →
  ∃ b', Write junk b (Some src) (Z.of_nat (length src)) = Ok (true, b') ∧ holds b' (w ++ src) ∧
    m_nSize b' ≤ m_nSize b + 2 * Z.of_nat (length src) + m_nAlloc b ∧ m_nAlloc b' = m_nAlloc b.
Proof.
  intros [Hs H32 Ho Hf Hw HA] Hsrc Hroom. assert (0 < Z.of_nat (length src)) as Hl by (destruct src; [done|cbn; lia]).
  unfold Write. rewrite (proj2 (Z.eqb_neq _ 0)), Ho by lia. rewrite u32_small by lia.
  rewrite (proj2 (Z.eqb_neq (m_nAlloc b) 0)) by lia. set (L := Z.of_nat (length src)) in *. set (O := Z.of_nat (length w)) in *.
  destruct (Z.ltb_spec (m_nSize b - O) L) as [Hg|Hg].
  - cbv zeta. rewrite (u32_small (L + m_nSize b - O)) by lia.
    pose proof (grow_room (L + m_nSize b - O) (m_nAlloc b) L ltac:(lia) HA ltac:(lia)) as Hr.
    set (nA := u32 (u32 (L + m_nSize b - O + m_nAlloc b) / m_nAlloc b * m_nAlloc b)) in *.
    rewrite (u32_small (m_nSize b + nA)) by lia.
    assert (slice (bytes_of b) 0 O = Ok w) as ->.
    { apply slice_prefix; [done|lia]. }
    rewrite bind_ok. pose proof (Hjunk (m_nSize b + nA) ltac:(lia)) as Hj.
    destruct (blit_at (junk (m_nSize b + nA)) [] w) as (d & Ed & Hd & Htd); [done|cbn; lia|].
    change (Z.of_nat (length [])) with 0 in Ed. rewrite Ed, !bind_ok. cbn [app] in Htd.
    cbn [m_nOffset m_nSize m_nAlloc]. unfold L. rewrite slice_all, bind_ok.
    destruct (blit_at d w src Htd) as (d' & Ed' & Hd' & Htd'); [lia|]. unfold O. change (bytes_of (mkBuffer (Some d) _ _ _)) with d.
    rewrite Ed', bind_ok. eexists. split; [done|]. cbn [m_nSize m_nAlloc]. split; [|split; [lia|done]].
    apply holds_mk; [rewrite ?length_app; lia..|done|lia].
  - rewrite bind_ok. unfold L. rewrite slice_all, bind_ok, Ho.
    destruct (blit_at (bytes_of b) w src Hw) as (d' & Ed' & Hd' & Htd'); [lia|]. unfold O. rewrite Ed', bind_ok.
    eexists. split; [done|]. cbn [m_nSize m_nAlloc]. split; [|split; [lia|done]].
    apply holds_mk; [rewrite ?length_app; lia..|done|lia].
Qed.

(** The bytes [s] are next. *)
Record reads (b : Buffer) (s : list Z) : Prop := {
  r_size : Z.of_nat (length (bytes_of b)) = m_nSize b;
  r_small : m_nSize b < 4294967296;
  r_offset : 0 ≤ m_nOffset b;
  r_fits : m_nOffset b + Z.of_nat (length s) ≤ m_nSize b;
  r_bytes : take (length s) (drop (Z.to_nat (m_nOffset b)) (bytes_of b)) = s }.

Lemma Read_ok b x s : reads b (x ++ s) → x ≠ [] →
  ∃ b', Read b (Z.of_nat (length x)) = Ok (true, x, b') ∧ reads b' s.
Proof.
  intros [Hs H32 Ho Hf Hb] Hx. rewrite length_app in Hf, Hb.
  assert (0 < Z.of_nat (length x)) as Hl by (destruct x; [done|cbn [length]; lia]).
  unfold Read. rewrite (proj2 (Z.eqb_neq _ 0)), u32_small, (proj2 (Z.ltb_ge _ _)) by lia.
  unfold slice. rewrite (proj2 (Z.leb_le 0 (m_nOffset b))), (proj2 (Z.leb_le 0 (Z.of_nat _))),
    (proj2 (Z.leb_le (_ + _) _)) by lia. cbn [andb]. rewrite bind_ok, Nat2Z.id.
  set (r := drop (Z.to_nat (m_nOffset b)) (bytes_of b)) in *.
  assert (take (length x) r = x) as Hxr.
  { apply (f_equal (take (length x))) in Hb. by rewrite take_take, Nat.min_l, take_app_length in Hb by lia. }
  rewrite Hxr. eexists. split; [done|]. split; cbn [m_nSize m_nOffset]; try lia; try done.
  unfold bytes_of. cbn [m_pBuffer]. fold (bytes_of b).
  apply (f_equal (drop (length x))) in Hb. rewrite drop_app_length in Hb. rewrite <- Hb at 2.
  rewrite <- take_drop_commute. unfold r. rewrite skipn_skipn. do 2 f_equal. lia.
Qed.

Lemma le4_length n : length (le4 n) = 4%nat.
Proof. done. Qed.

Lemma of_le4_le4 n : 0 ≤ n < 4294967296 → of_le4 (le4 n) = n.
Proof.
  intros Hn. cbn [le4 of_le4]. unfold u8. rewrite !Z.shiftl_mul_pow2, !Z.shiftr_div_pow2 by lia. Z.div_mod_to_equations. lia.
Qed.

Lemma PopU32_ok b n s : reads b (le4 n ++ s) → 0 ≤ n < 4294967296 →
  ∃ b', (∀ v, PopU32 b v = Ok (true, n, b')) ∧ reads b' s.
Proof.
  intros Hr Hn. destruct (Read_ok b (le4 n) s Hr) as (b' & E & Hr'); [done|]. exists b'. split; [|done]. intros v.
  unfold PopU32. rewrite le4_length in E. change (Z.of_nat 4) with 4 in E. by rewrite E, bind_ok, of_le4_le4.
Qed.

Lemma PushU32_ok b w n : holds b w → m_nSize b + 8 + m_nAlloc b < 4294967296 →
  ∃ b', PushU32 junk b n = Ok (true, b') ∧ holds b' (w ++ le4 n) ∧
    m_nSize b' ≤ m_nSize b + 8 + m_nAlloc b ∧ m_nAlloc b' = m_nAlloc b.
Proof. intros Hb Hr. by apply (Write_ok b w (le4 n) Hb). Qed.

(** A length and that many bytes: what [Push] writes and [Pop] reads for strings
    and for raw bytes. *)
Lemma push_sized b w body :
  holds b w → m_nSize b + 8 + 2 * Z.of_nat (length body) + 2 * m_nAlloc b < 4294967296 →
  ∃ b1 b2, PushU32 junk b (Z.of_nat (length body)) = Ok (true, b1) ∧
    (body = [] ∧ b2 = b1 ∨ body ≠ [] ∧ Write junk b1 (Some body) (Z.of_nat (length body)) = Ok (true, b2)) ∧
    holds b2 (w ++ le4 (Z.of_nat (length body)) ++ body) ∧
    m_nSize b2 ≤ m_nSize b + 8 + 2 * Z.of_nat (length body) + 2 * m_nAlloc b ∧ m_nAlloc b2 = m_nAlloc b.
Proof.
  intros Hb Hr. pose proof (h_alloc _ _ Hb) as HA.
  destruct (PushU32_ok b w (Z.of_nat (length body)) Hb) as (b1 & E1 & Hb1 & Hs1 & HA1); [lia|].
  exists b1. destruct (decide (body = [])) as [->|Hne].
  - exists b1. rewrite app_nil_r. split; [done|]. split; [by left|]. split; [done|]. cbn [length]. lia.
  - destruct (Write_ok b1 _ body Hb1 Hne) as (b2 & E2 & Hb2 & Hs2 & HA2); [lia|].
    exists b2. rewrite app_assoc. split; [done|]. split; [by right|]. split; [done|]. lia.
Qed.

Lemma pop_sized b body s : reads b (le4 (Z.of_nat (length body)) ++ body ++ s) →
  ∃ b1 b2, (∀ v, PopU32 b v = Ok (true, Z.of_nat (length body), b1)) ∧
    (body = [] ∧ b2 = b1 ∨ body ≠ [] ∧ Read b1 (Z.of_nat (length body)) = Ok (true, body, b2)) ∧
    reads b2 s ∧ Z.of_nat (length body) < 4294967292.
Proof.
  intros Hb. pose proof (r_fits _ _ Hb) as Hf. rewrite !length_app, le4_length in Hf.
  pose proof (r_small _ _ Hb) as H32. pose proof (r_offset _ _ Hb) as Ho.
  destruct (PopU32_ok b _ _ Hb) as (b1 & E1 & Hb1); [lia|]. exists b1.
  destruct (decide (body = [])) as [->|Hne].
  - exists b1. split; [done|]. split; [by left|]. split; [done|]. cbn [length]. lia.
  - destruct (Read_ok b1 body s Hb1 Hne) as (b2 & E2 & Hb2). exists b2. split; [done|]. split; [by right|]. split; [done|]. lia.
Qed.

Lemma c_str_at l d : take (length l) d = l → (length l < length d)%nat → Forall (λ x, x ≠ 0) l →
  c_str (<[length l := 0]> d) = l.
Proof.
  revert d. induction l as [|x l IH]; intros [|y d] Ht Hl Hf; cbn [length] in *; try lia; [done|].
  cbn in Ht. injection Ht as -> Ht. apply Forall_cons_1 in Hf as [Hx Hf]. cbn. rewrite (proj2 (Z.eqb_neq _ 0) Hx).
  f_equal. apply IH; [done|lia|done].
Qed.

Lemma wide_bytes_length w : length (wide_bytes w) = (4 * length w)%nat.
Proof. unfold wide_bytes. induction w as [|x w IH]; [done|]. cbn [fmap list_fmap concat]. rewrite length_app, IH, le4_length. cbn [length]. lia. Qed.

Lemma wide_chars_at w fuel d : take (length (wide_bytes w)) d = wide_bytes w →
  (length (wide_bytes w) + 4 ≤ length d ≤ fuel)%nat → Forall (λ c, 0 < c < 4294967296) w →
  take (length w) (wide_chars fuel d) = w ∧ (length w < length (wide_chars fuel d))%nat.
Proof.
  revert fuel d. induction w as [|c w IH]; intros fuel d Ht Hl Hf; rewrite wide_bytes_length in *; cbn [length] in *.
  - destruct fuel as [|fuel]; [lia|]. destruct d as [|? [|? [|? [|? d]]]]; cbn [length] in Hl; try lia. cbn. split; [done|lia].
  - destruct fuel as [|fuel]; [lia|]. destruct d as [|x0 [|x1 [|x2 [|x3 d]]]]; cbn [length] in Hl; try lia.
    apply Forall_cons_1 in Hf as [Hc Hf]. replace (4 * S (length w))%nat with (S (S (S (S (4 * length w))))) in Ht by lia.
    unfold wide_bytes in Ht. cbn [fmap list_fmap concat le4 app take] in Ht. injection Ht as -> -> -> -> Ht.
    destruct (IH fuel d) as [IH1 IH2]; [done|lia|done|].
    cbn [wide_chars]. change (of_le4 _) with (of_le4 (le4 c)). rewrite (of_le4_le4 c) by lia. cbn [take length]. rewrite IH1. split; [done|lia].
Qed.

(** ** Messages: what a writer pushes and a reader pops *)
Inductive item := INum (n : Z) | IStr (s : list Z) | IWStr (w : list Z) | IRaw (l : list Z).

(** What the reader asks for; [KRaw cap] passes a buffer of [cap] bytes. *)
Inductive kind := KNum | KStr | KWStr | KRaw (cap : Z).

Definition kind_of (i : item) : kind :=
  match i with
  | INum _ => KNum
  | IStr _ => KStr
  | IWStr _ => KWStr
  | IRaw l => KRaw (Z.of_nat (length l))
  end.

Definition push_item (b : Buffer) (i : item) : res (bool * Buffer) :=
  match i with
  | INum n => PushU32 junk b n
  | IStr s => PushString junk b s
  | IWStr w => PushWString junk b w
  | IRaw l => PushBytes junk b (Some l) (Z.of_nat (length l))
  end.

(** The reader's variables start at 0 and empty. *)
Definition pop_item (b : Buffer) (k : kind) : res (bool * item * Buffer) :=
  match k with
  | KNum => '(ok, n, b) ← PopU32 b 0; Ok (ok, INum n, b)
  | KStr => '(ok, s, b) ← PopString junk b []; Ok (ok, IStr s, b)
  | KWStr => '(ok, w, b) ← PopWString junk b []; Ok (ok, IWStr w, b)
  | KRaw cap => '(ok, l, _, b) ← PopBytes b cap 0; Ok (ok, IRaw l, b)
  end.

Fixpoint push_all (b : Buffer) (l : list item) : res Buffer :=
  match l with
  | [] => Ok b
  | i :: l => '(_, b) ← push_item b i; push_all b l
  end.

Fixpoint pop_all (b : Buffer) (l : list kind) : res (list item * Buffer) :=
  match l with
  | [] => Ok ([], b)
  | k :: l => '(_, i, b) ← pop_item b k; '(items, b) ← pop_all b l; Ok (i :: items, b)
  end.

(** Numbers and wide characters fit their type; strings have no NUL. *)
Definition item_ok (i : item) : Prop :=
  match i with
  | INum n => 0 ≤ n < 4294967296
  | IStr s => Forall (λ c, c ≠ 0) s
  | IWStr w => Forall (λ c, 0 < c < 4294967296) w
  | IRaw _ => True
  end.

Definition encode (i : item) : list Z :=
  match i with
  | INum n => le4 n
  | IStr s => le4 (Z.of_nat (length s)) ++ s
  | IWStr w => le4 (Z.of_nat (length (wide_bytes w))) ++ wide_bytes w
  | IRaw l => le4 (Z.of_nat (length l)) ++ l
  end.

Lemma wide_bytes_nil w : wide_bytes w = [] → w = [].
Proof. by destruct w. Qed.

Lemma wide_bytes_size w : Z.of_nat (length w) * SIZEOF_WCHAR = Z.of_nat (length (wide_bytes w)).
Proof. rewrite wide_bytes_length. unfold SIZEOF_WCHAR. lia. Qed.

Lemma push_item_ok b w i :
  holds b w → m_nSize b + 2 * Z.of_nat (length (encode i)) + 2 * m_nAlloc b < 4294967296 →
  ∃ b', push_item b i = Ok (true, b') ∧ holds b' (w ++ encode i) ∧
    m_nSize b' ≤ m_nSize b + 2 * Z.of_nat (length (encode i)) + 2 * m_nAlloc b ∧ m_nAlloc b' = m_nAlloc b.
Proof.
  intros Hb Hr. pose proof (h_alloc _ _ Hb) as HA. pose proof (h_fits _ _ Hb) as Hfit. destruct i as [n|s|ws|l]; cbn [push_item encode] in *.
  - destruct (PushU32_ok b w n Hb) as (b' & ? & ? & ? & ?); [rewrite le4_length in Hr; lia|].
    exists b'. rewrite le4_length. split; [done|]. split; [done|]. split; [lia|done].
  - rewrite length_app, le4_length in *. destruct (push_sized b w s Hb) as (b1 & b2 & E1 & E2 & H2 & Hs & HA2); [lia|].
    exists b2. split; [|split; [done|split; [lia|done]]].
    unfold PushString. rewrite u32_small, E1, bind_ok by lia. destruct E2 as [[-> ->]|[Hne E2]]; [done|]. by destruct s.
  - rewrite length_app, le4_length in *. destruct (push_sized b w (wide_bytes ws) Hb) as (b1 & b2 & E1 & E2 & H2 & Hs & HA2); [lia|].
    exists b2. split; [|split; [done|split; [lia|done]]].
    unfold PushWString. rewrite wide_bytes_size, u32_small, E1, bind_ok by lia.
    destruct E2 as [[He ->]|[Hne E2]]; [by apply wide_bytes_nil in He as ->|]. by destruct ws.
  - rewrite length_app, le4_length in *. destruct (push_sized b w l Hb) as (b1 & b2 & E1 & E2 & H2 & Hs & HA2); [lia|].
    exists b2. split; [|split; [done|split; [lia|done]]].
    unfold PushBytes. rewrite E1, bind_ok. destruct E2 as [[-> ->]|[Hne E2]]; [done|]. by destruct l.
Qed.

Lemma pop_item_ok b i s : reads b (encode i ++ s) → item_ok i →
  ∃ b', pop_item b (kind_of i) = Ok (true, i, b') ∧ reads b' s.
Proof.
  intros Hb Hi. destruct i as [n|str|ws|l]; cbn [kind_of pop_item encode item_ok] in *; rewrite <- ?app_assoc in Hb.
  - destruct (PopU32_ok b n s Hb Hi) as (b' & E & Hb'). exists b'. by rewrite E.
  - destruct (pop_sized b str s Hb) as (b1 & b2 & E1 & E2 & Hb2 & Hl). exists b2. split; [|done].
    unfold PopString. rewrite E1, bind_ok. destruct E2 as [[-> ->]|[Hne E2]]; [done|].
    assert (0 < Z.of_nat (length str)) by (destruct str; [done|cbn [length]; lia]).
    rewrite (proj2 (Z.ltb_lt 0 _)), E2, bind_ok, u32_small by lia. cbn [negb].
    pose proof (Hjunk (Z.of_nat (length str) + 1) ltac:(lia)) as Hj.
    destruct (blit_at (junk (Z.of_nat (length str) + 1)) [] str) as (d & Ed & Hd & Ht); [done|cbn [length]; lia|].
    change (Z.of_nat (length [])) with 0 in Ed. rewrite Ed, bind_ok, wr_ok, bind_ok, Nat2Z.id by lia.
    by rewrite c_str_at by (done || lia).
  - destruct (pop_sized b (wide_bytes ws) s Hb) as (b1 & b2 & E1 & E2 & Hb2 & Hl). exists b2. split; [|done].
    unfold PopWString. rewrite E1, bind_ok. destruct E2 as [[He ->]|[Hne E2]]; [by apply wide_bytes_nil in He as ->|].
    assert (0 < Z.of_nat (length ws)) by (destruct ws; [done|cbn [length]; lia]).
    rewrite E2. rewrite <- !wide_bytes_size in *. rewrite Z.div_mul by done. unfold SIZEOF_WCHAR in *.
    rewrite (proj2 (Z.ltb_lt 0 _)), bind_ok, u32_small by lia. cbn [negb].
    pose proof (Hjunk ((Z.of_nat (length ws) + 1) * 4) ltac:(lia)) as Hj. pose proof (wide_bytes_length ws) as Hw.
    destruct (blit_at (junk ((Z.of_nat (length ws) + 1) * 4)) [] (wide_bytes ws)) as (d & Ed & Hd & Ht); [done|cbn [length]; lia|].
    change (Z.of_nat (length [])) with 0 in Ed. rewrite Ed, bind_ok.
    destruct (wide_chars_at ws (length d) d) as [Hc Hcl]; [done|lia|done|].
    rewrite wr_ok, bind_ok, Nat2Z.id by lia. rewrite c_str_at; [done|done|done|].
    eapply Forall_impl; [|exact Hi]. intros c Hc0. cbn in Hc0. lia.
  - destruct (pop_sized b l s Hb) as (b1 & b2 & E1 & E2 & Hb2 & Hl). exists b2. split; [|done].
    unfold PopBytes. rewrite E1, bind_ok. destruct E2 as [[-> ->]|[Hne E2]]; [done|].
    assert (0 < Z.of_nat (length l)) by (destruct l; [done|cbn [length]; lia]).
    unfold nz. rewrite (proj2 (Z.eqb_neq _ 0)), E2, bind_ok by lia. cbn [negb]. by rewrite (proj2 (Z.ltb_ge _ _)) by lia.
Qed.

Definition encode_all (l : list item) : list Z := concat (encode <$> l).

(** Bound on the memory: every [Write] adds at most twice its bytes and one
    allocation unit, and an item takes at most two. *)
Definition cost (alloc : Z) (l : list item) : Z :=
  2 * Z.of_nat (length (encode_all l)) + 2 * alloc * Z.of_nat (length l).

Lemma cost_cons A i l : cost A (i :: l) = 2 * Z.of_nat (length (encode i)) + 2 * A + cost A l.
Proof. unfold cost, encode_all. cbn [fmap list_fmap concat]. rewrite length_app. cbn [length]. lia. Qed.

Lemma cost_nonneg A l : 0 ≤ A → 0 ≤ cost A l.
Proof. unfold cost. nia. Qed.

Lemma push_all_ok l : ∀ b w, holds b w → m_nSize b + cost (m_nAlloc b) l < 4294967296 →
  ∃ b', push_all b l = Ok b' ∧ holds b' (w ++ encode_all l).
Proof.
  induction l as [|i l IH]; intros b w Hb Hr.
  - exists b. split; [done|]. by rewrite app_nil_r.
  - rewrite cost_cons in Hr. pose proof (h_alloc _ _ Hb) as HA. pose proof (cost_nonneg (m_nAlloc b) l ltac:(lia)) as Hc.
    destruct (push_item_ok b w i Hb) as (b1 & E1 & Hb1 & Hs1 & HA1); [lia|].
    destruct (IH b1 _ Hb1) as (b' & E & Hb'); [rewrite HA1; lia|]. exists b'. cbn [push_all]. rewrite E1, bind_ok.
    split; [done|]. unfold encode_all in *. cbn [fmap list_fmap concat]. by rewrite <- app_assoc in Hb'.
Qed.

Lemma pop_all_ok l : ∀ b s, reads b (encode_all l ++ s) → Forall item_ok l →
  ∃ b', pop_all b (kind_of <$> l) = Ok (l, b') ∧ reads b' s.
Proof.
  induction l as [|i l IH]; intros b s Hb Hf.
  - by exists b.
  - unfold encode_all in Hb. cbn [fmap list_fmap concat] in Hb. rewrite <- app_assoc in Hb. apply Forall_cons_1 in Hf as [Hi Hf].
    destruct (pop_item_ok b i _ Hb Hi) as (b1 & E1 & Hb1). destruct (IH b1 s Hb1 Hf) as (b' & E & Hb').
    exists b'. split; [|done]. cbn [fmap list_fmap pop_all]. rewrite E1, bind_ok. by rewrite E.
Qed.

(** Moving to the start turns what was written into what is read. *)
Lemma SeekTo_start b w : holds b w → reads (snd (SeekTo b 0)) (w ++ []).
Proof.
  intros [Hs H32 Ho Hf Hw HA]. unfold SeekTo. rewrite (proj2 (Z.ltb_ge _ 0)) by lia. rewrite app_nil_r. cbn [snd].
  split; cbn [m_nSize m_nOffset]; try done; lia.
Qed.

Lemma Buffer_new_holds size alloc : 0 ≤ size < 4294967296 → holds (Buffer_new junk size alloc) [].
Proof.
  intros Hs. unfold Buffer_new. split; cbn [m_nSize m_nOffset m_nAlloc length]; try lia; try done.
  - unfold bytes_of. cbn [m_pBuffer]. destruct (Z.ltb_spec 0 size) as [H|H].
    + apply (Hjunk size); lia.
    + cbn. lia.
  - destruct (Z.ltb_spec 0 alloc); lia.
Qed.

Lemma bytes_of_mk d n o a : bytes_of (mkBuffer (Some d) n o a) = d.
Proof. done. Qed.

(** A clone has the bytes and the offset of the original, behind them zeros when it
    was larger. *)
Lemma Clone_copies b src : Z.of_nat (length (bytes_of b)) = m_nSize b →
  Z.of_nat (length (bytes_of src)) = m_nSize src →
  ∃ b', Clone junk b src = Ok (true, b') ∧ m_nOffset b' = m_nOffset src ∧
    m_nSize b' = Z.max (m_nSize b) (m_nSize src) ∧ Z.of_nat (length (bytes_of b')) = m_nSize b' ∧
    take (length (bytes_of src)) (bytes_of b') = bytes_of src.
Proof.
  intros Hb Hs. unfold Clone. rewrite <- Hs, slice_all, bind_ok.
  destruct (Z.ltb_spec (Z.of_nat (length (bytes_of src))) (m_nSize b)) as [Hlt|Hge].
  - destruct (blit_at (replicate (length (bytes_of b)) 0) [] (bytes_of src)) as (d & Ed & Hd & Ht);
      [done|rewrite length_replicate; cbn [length]; lia|]. rewrite length_replicate in Hd.
    change (Z.of_nat (length [])) with 0 in Ed. rewrite Ed, bind_ok. eexists. split; [done|].
    cbn [m_nOffset m_nSize]. rewrite !bytes_of_mk. split; [done|]. split; [lia|]. split; [lia|done].
  - pose proof (Hjunk (Z.of_nat (length (bytes_of src))) ltac:(lia)) as Hj.
    destruct (blit_at (junk (Z.of_nat (length (bytes_of src)))) [] (bytes_of src)) as (d & Ed & Hd & Ht); [done|cbn [length]; lia|].
    change (Z.of_nat (length [])) with 0 in Ed. rewrite Ed, bind_ok. eexists. split; [done|].
    cbn [m_nOffset m_nSize]. rewrite !bytes_of_mk. split; [done|]. split; [lia|]. split; [lia|done].
Qed.
End Theory.

(** Whatever numbers, strings, wide strings and blocks of bytes are pushed into a
    new buffer, going back to the start and popping them in the same order gives
    exactly them and reads and writes nothing outside the memory: the buffer grows
    when needed, whatever its first size, and keeps what was written.  Numbers fit
    their type, strings have no NUL, and the memory the growth policy asks for fits
    32 bits. *)
Theorem push_pop_round_trip (junk : Z → list Z) (size alloc : Z) (l : list item) :
  (∀ n, 0 ≤ n → Z.of_nat (length (junk n)) = n) → 0 ≤ size →
  Forall item_ok l → size + cost (m_nAlloc (Buffer_new junk size alloc)) l < 4294967296 →
  ∃ b b', push_all junk (Buffer_new junk size alloc) l = Ok b ∧
    pop_all junk (snd (SeekTo b 0)) (kind_of <$> l) = Ok (l, b').
Proof.
  intros Hj Hs Hl Hc. set (b0 := Buffer_new junk size alloc) in *.
  assert (0 ≤ m_nAlloc b0) as HA by (unfold b0, Buffer_new; cbn [m_nAlloc]; destruct (Z.ltb_spec 0 alloc); lia).
  pose proof (cost_nonneg _ l HA) as Hc0.
  destruct (push_all_ok junk Hj l b0 []) as (b & E & Hb); [apply Buffer_new_holds; [done|lia]|done|].
  destruct (pop_all_ok junk Hj l (snd (SeekTo b 0)) []) as (b' & E' & _); [by apply SeekTo_start|done|].
  by exists b, b'.
Qed.

Lemma push_pop_round_trip_witness :
  let junk n := replicate (Z.to_nat n) 170 in
  let l := [INum 70000; IStr [104; 105]; IStr []; IWStr [20320; 33]; IRaw [0; 255; 0]] in
  ∃ b b', push_all junk (Buffer_new junk 5 4) l = Ok b ∧ pop_all junk (snd (SeekTo b 0)) (kind_of <$> l) = Ok (l, b').
Proof.
  intros junk l. apply (push_pop_round_trip junk 5 4 l).
  - intros n Hn. unfold junk. rewrite length_replicate. lia.
  - lia.
  - unfold l. repeat constructor; lia.
  - vm_compute. reflexivity.
Defined.

(** ** Where the reader trusts its input *)
Definition zeros (n : Z) : list Z := replicate (Z.to_nat n) 0.

(** [m_nOffset + len] wraps: a length near [2^32] in the data passes [Read]'s bound
    and bytes outside the memory are read. *)
Fact Read_wraps : let b := mkBuffer (Some (le4 4294967293 ++ [1; 2; 3; 4])) 8 0 1024 in
  PopBytes b 8 0 = Err OutOfBounds.
Proof. reflexivity. Qed.

(** [Pop] of bytes does not know the size of the caller's buffer. *)
Fact PopBytes_overflows : let b := mkBuffer (Some (le4 4 ++ [1; 2; 3; 4])) 8 0 1024 in
  PopBytes b 3 3 = Err OutOfBounds.
Proof. reflexivity. Qed.

(** Popping an empty string leaves the variable as it was, and a string with a NUL
    comes back cut at it. *)
Fact PopString_keeps_old : let b := mkBuffer (Some (le4 0)) 4 0 1024 in
  (PopString zeros b [111; 108; 100] ≫= λ r, Ok (fst r)) = Ok (true, [111; 108; 100]).
Proof. reflexivity. Qed.

Fact PopString_cuts_at_nul : let b := mkBuffer (Some (le4 3 ++ [97; 0; 98])) 7 0 1024 in
  (PopString zeros b [] ≫= λ r, Ok (fst r)) = Ok (true, [97]).
Proof. reflexivity. Qed.

(** The memory grows by [len] plus what was still free, rounded up to the next unit
    (a whole unit more when it is a multiple already), not by what is missing. *)
Fact Write_over_allocates : let b := mkBuffer (Some (zeros 8)) 8 1 4 in
  (Write zeros b (Some (zeros 8)) 8 ≫= λ r, Ok (m_nSize (snd r))) = Ok 24.
Proof. reflexivity. Qed.
