(* ===== verification/BotGame.v ===== *)
(** * The bot's view of the game ([s_game.cpp], [param_factory.cpp], [help_functions.cpp])

    [src/Common/SBotInterface] reads a parameter file with the number of ranks,
    suits, streets and cards ([Params]) and computes from it the static values of
    [S_Game]: cards and boards per street and how many pairs of hole cards there
    are.  A [std::string] is the list of its bytes; [exit] is the fault [Exited]. *)

From stdpp Require Import base list list_numbers numbers option strings.
From S2P Require Import Prelude Text SBotEval.

Open Scope Z_scope.

(** ** Text *)

(** The characters before the first [sep], and the rest from it on. *)
Fixpoint take_field (sep : Z) (l : list Z) : list Z * list Z :=
  match l with
  | [] => ([], [])
  | x :: l' => if x =? sep then ([], l) else let '(a, r) := take_field sep l' in (x :: a, r)
  end.

Definition strip_newline (s : list Z) : list Z :=
  if (length s =? 0)%nat then s
  else if bool_decide (last s = Some 10) then take (length s - 1) s else s.

(** The [while( true )] loop; every round but the last takes a separator. *)
Fixpoint Split_loop (fuel : nat) (line : list Z) (sep : Z) (allow_empty : bool) (comps : list (list Z))
  : res (list (list Z)) :=
  match fuel with
  | O => Err OutOfFuel
  | S fuel =>
      let '(s, rest) := take_field sep line in
      let s := strip_newline s in
      let comps := if bool_decide (s ≠ []) || allow_empty then comps ++ [s] else comps in
      match rest with
      | [] => Ok comps
      | _ :: rest => Split_loop fuel rest sep allow_empty comps
      end
  end.
Definition Split (line : list Z) (sep : Z) (allow_empty : bool) : res (list (list Z)) :=
  Split_loop (S (length line)) line sep allow_empty [].

(** [%i] of [sscanf]: a number in base 8, 10 or 16 by its prefix. *)
Definition digit_value (base ch : Z) : option Z :=
  let v := if isdigit ch then ch - 48
           else if (97 <=? ch) && (ch <=? 102) then ch - 87
           else if (65 <=? ch) && (ch <=? 70) then ch - 55 else 16 in
  if v <? base then Some v else None.

Fixpoint scan_base (base : Z) (s : list Z) (acc n : Z) : res (Z * Z) :=
  match s with
  | [] => Err OutOfBounds
  | ch :: s => match digit_value base ch with
               | Some v => scan_base base s (base * acc + v) (n + 1)
               | None => Ok (acc, n)
               end
  end.

Definition scan_i (s : list Z) : res (option Z) :=
  sp ← spaces s;
  let s := from s sp in
  ch ← rdp s 0;
  let s := if (ch =? 43) || (ch =? 45) then from s 1 else s in
  c0 ← rdp s 0;
  '(v, n) ←
    (if c0 =? 48 then
       c1 ← rdp s 1;
       if (c1 =? 120) || (c1 =? 88) then scan_base 16 (from s 2) 0 0 else scan_base 8 s 0 0
     else scan_base 10 s 0 0);
  if n =? 0 then Ok None else v ← i32 (if ch =? 45 then - v else v); Ok (Some v).

Definition ParseInts (s : list Z) : res (list Z) :=
  comps ← Split s 44 false;
  foldM (λ cs values,
    o ← scan_i (cs ++ [0]);
    match o with Some val => Ok (values ++ [val]) | None => Err Exited end) comps [].

(** ** Parameters *)
Inductive ParamType := P_STRING | P_INT | P_DOUBLE | P_BOOLEAN.
#[export] Instance ParamType_eq_dec : EqDecision ParamType.
Proof. solve_decision. Defined.

Section Params.
(** [double], and [%lf] of [sscanf]. *)
Context {D : Type} (zero : D) (scan_lf : list Z → res (option D)).

Record ParamValue := mkValue { pv_s : list Z; pv_i : Z; pv_d : D; pv_set : bool }.
Definition Params : Type := list (list Z * ParamType * ParamValue).

Definition AddParam (p : Params) (name : list Z) (ptype : ParamType) : Params :=
  p ++ [(name, ptype, mkValue [] 0 zero false)].

Fixpoint find_param (p : Params) (name : list Z) (i : Z) : option Z :=
  match p with
  | [] => None
  | (n, _, _) :: p => if bool_decide (n = name) then Some i else find_param p name (i + 1)
  end.
Definition GetParamIndex (p : Params) (name : list Z) : res Z :=
  match find_param p name 0 with Some i => Ok i | None => Err Exited end.

Definition IsSet (p : Params) (name : list Z) : res bool :=
  i ← GetParamIndex p name; '(_, _, v) ← rd p i; Ok (pv_set v).

Definition GetStringValue (p : Params) (name : list Z) : res (list Z) :=
  i ← GetParamIndex p name; '(_, t, v) ← rd p i;
  if bool_decide (t = P_STRING) then Ok (pv_s v) else Err Exited.

Definition GetIntValue (p : Params) (name : list Z) : res Z :=
  i ← GetParamIndex p name; '(_, t, v) ← rd p i;
  if bool_decide (t = P_INT) then Ok (pv_i v) else Err Exited.

Definition GetDoubleValue (p : Params) (name : list Z) : res D :=
  i ← GetParamIndex p name; '(_, t, v) ← rd p i;
  if bool_decide (t = P_DOUBLE) then Ok (pv_d v) else Err Exited.

Definition GetBooleanValue (p : Params) (name : list Z) : res bool :=
  i ← GetParamIndex p name; '(_, t, v) ← rd p i;
  if bool_decide (t = P_BOOLEAN) then Ok (nz (pv_i v)) else Err Exited.

Definition SetIntValue (p : Params) (name : list Z) (val : Z) : res Params :=
  b ← IsSet p name;
  let p := if (b : bool) then p else AddParam p name P_INT in
  i ← GetParamIndex p name; '(n, t, v) ← rd p i;
  if bool_decide (t = P_INT) then wr p i (n, t, mkValue (pv_s v) val (pv_d v) (pv_set v)) else Err Exited.

Definition SetStringValue (p : Params) (name : list Z) (val : list Z) : res Params :=
  b ← IsSet p name;
  let p := if (b : bool) then p else AddParam p name P_STRING in
  i ← GetParamIndex p name; '(n, t, v) ← rd p i;
  if bool_decide (t = P_STRING) then wr p i (n, t, mkValue val (pv_i v) (pv_d v) (pv_set v)) else Err Exited.

Definition is_blank (ch : Z) : bool := (ch =? 32) || (ch =? 9).
(** The characters in front that satisfy a test, and the rest. *)
Fixpoint span (f : Z → bool) (l : list Z) : list Z * list Z :=
  match l with
  | [] => ([], [])
  | x :: l' => if f x then let '(a, r) := span f l' in (x :: a, r) else ([], l)
  end.

(** The value on a line, from its text; what [v] holds besides is not used. *)
Definition parse_value (ptype : ParamType) (text : list Z) : res ParamValue :=
  match ptype with
  | P_STRING => Ok (mkValue text 0 zero true)
  | P_INT => o ← scan_i (text ++ [0]); match o with Some i => Ok (mkValue [] i zero true) | None => Err Exited end
  | P_DOUBLE => o ← scan_lf (text ++ [0]); match o with Some d => Ok (mkValue [] 0 d true) | None => Err Exited end
  | P_BOOLEAN =>
      if bool_decide (text = [116; 114; 117; 101]) then Ok (mkValue [] 1 zero true)
      else if bool_decide (text = [102; 97; 108; 115; 101]) then Ok (mkValue [] 0 zero true)
      else Err Exited
  end.

(** One line of [ReadFromFile]; [line[ 0 ]] of an empty line is NUL. *)
Definition read_line (line : list Z) (p : Params) : res Params :=
  if bool_decide (head line = Some 35) then Ok p else
  let '(param_name, rest) := span (λ ch, negb (is_blank ch)) line in
  if bool_decide (rest = []) then Err Exited else
  if bool_decide (param_name = []) then Err Exited else
  j ← GetParamIndex p param_name;
  '(n, ptype, _) ← rd p j;
  let '(_, text) := span is_blank rest in
  if bool_decide (text = []) then Err Exited else
  v ← parse_value ptype text;
  wr p j (n, ptype, v).

(** [ReadFromFile]; [file] are the lines that [Reader::GetLine] gives. *)
Definition ReadFromFile (p : Params) (file : list (list Z)) : res Params := foldM read_line file p.

(** A name of the source as bytes. *)
Definition bytes (s : string) : list Z := (λ a, Z.of_N (Ascii.N_of_ascii a)) <$> String.list_ascii_of_string s.

Definition CreateGameParams : Params :=
  let add p '(n, t) := AddParam p (bytes n) t in
  fold_left add [("GameName"%string, P_STRING); ("NumRanks"%string, P_INT); ("NumSuits"%string, P_INT);
    ("StackSize"%string, P_INT); ("MaxStreet"%string, P_INT); ("NumHoleCards"%string, P_INT);
    ("NumFlopCards"%string, P_INT); ("Ante"%string, P_INT); ("SmallBlind"%string, P_INT);
    ("FirstToAct"%string, P_STRING); ("BigBlind"%string, P_INT); ("NumPlayers"%string, P_INT)] [].
Definition CreateCardAbstractionParams : Params :=
  AddParam (AddParam [] (bytes "CardAbstractionName") P_STRING) (bytes "Bucketings") P_STRING.
Definition CreateBettingAbstractionParams : Params := AddParam [] (bytes "BettingAbstractionName") P_STRING.
Definition CreateCFRParams : Params := AddParam [] (bytes "CFRConfigName") P_STRING.

(** ** [S_Game] *)
Record SGame := mkSGame {
  game_name_ : list Z; max_street_ : Z; num_players_ : Z; num_ranks_ : Z; num_suits_ : Z;
  first_to_act_ : list Z; small_blind_ : Z; big_blind_ : Z; ante_ : Z;
  num_cards_for_street_ : list Z; num_cards_in_deck_ : Z; num_card_permutations_ : Z;
  num_hole_card_pairs_ : list Z; num_board_cards_ : list Z }.

Definition ERR_OK : Z := 0.
Definition ERR_GAME_PARAM_ZERO_RANKS : Z := -501.
Definition ERR_GAME_PARAM_ZERO_SUITS : Z := -502.
Definition ERR_GAME_PARAM_INVALID_HOLE_CARD_NUM : Z := -503.
Definition ERR_GAME_PARAM_NO_ENOUGH_FIRST_PLAYERS : Z := -504.
Definition ERR_GAME_PARAM_NOT_SET_FLOP_CARDS : Z := -505.

(** [Factorial]; it recurses without end on a negative number. *)
Fixpoint Factorial_loop (fuel : nat) (n : Z) : res Z :=
  match fuel with
  | O => Err OutOfFuel
  | S fuel => if n =? 0 then Ok 1 else if n =? 1 then Ok 1 else
              r ← Factorial_loop fuel (n - 1); i32 (n * r)
  end.
Definition Factorial (n : Z) : res Z := Factorial_loop (S (Z.to_nat n)) n.

(** [multiplier]: the product of the numbers from [cards_left - k + 1] to [cards_left]. *)
Definition falling (cards_left k : Z) : res Z :=
  for_ (cards_left - k + 1) (cards_left + 1) 1 (λ n multiplier, i32 (multiplier * n)).
(** [multiplier / Factorial( k )] *)
Definition ways (cards_left k : Z) : res Z :=
  m ← falling cards_left k; f ← Factorial k; if f =? 0 then Err DivisionByZero else Ok (Z.quot m f).

(** The values assigned before an error is returned stay; they are not used then. *)
Definition Initialize (params : Params) : res (Z * option SGame) :=
  name ← GetStringValue params (bytes "GameName");
  max_street ← GetIntValue params (bytes "MaxStreet");
  players ← GetIntValue params (bytes "NumPlayers");
  ranks ← GetIntValue params (bytes "NumRanks");
  if ranks =? 0 then Ok (ERR_GAME_PARAM_ZERO_RANKS, None) else
  suits ← GetIntValue params (bytes "NumSuits");
  if suits =? 0 then Ok (ERR_GAME_PARAM_ZERO_SUITS, None) else
  deck ← i32 (ranks * suits);
  text ← GetStringValue params (bytes "FirstToAct");
  ftav ← ParseInts text;
  if negb (Z.of_nat (length ftav) =? max_street + 1) then Ok (ERR_GAME_PARAM_NO_ENOUGH_FIRST_PLAYERS, None) else
  hole ← GetIntValue params (bytes "NumHoleCards");
  let cfs := replicate (Z.to_nat (max_street + 1)) 0 in
  cfs ← wr cfs 0 hole;
  flop ← (if 1 <=? max_street then
            b ← IsSet params (bytes "NumFlopCards");
            if (b : bool) then n ← GetIntValue params (bytes "NumFlopCards"); cfs ← wr cfs 1 n; Ok (Some cfs)
            else Ok None
          else Ok (Some cfs));
  match flop with
  | None => Ok (ERR_GAME_PARAM_NOT_SET_FLOP_CARDS, None)
  | Some cfs =>
      cfs ← (if 2 <=? max_street then wr cfs 2 1 else Ok cfs);
      cfs ← (if 3 <=? max_street then wr cfs 3 1 else Ok cfs);
      ante ← GetIntValue params (bytes "Ante");
      small ← GetIntValue params (bytes "SmallBlind");
      big ← GetIntValue params (bytes "BigBlind");
      '(perms, cards_left) ← for_ 0 2 (1, deck) (λ _ '(perms, cards_left),
        w ← ways cards_left hole; Ok (u64 (perms * u64 w), cards_left - hole));
      '(perms, cards_left) ← for_ 1 (max_street + 1) (perms, cards_left) (λ s '(perms, cards_left),
        k ← rd cfs s; w ← ways cards_left k; Ok (u64 (perms * u64 w), cards_left - k));
      o ← forR 0 (max_street + 1) (0, [], []) (λ st '(board, boards, pairs),
        board ← (if 1 <=? st then k ← rd cfs st; i32 (board + k) else Ok board);
        let boards := boards ++ [board] in
        let remaining := deck - board in
        if hole =? 2 then m ← i32 (remaining * (remaining - 1)); Ok (inl (board, boards, pairs ++ [Z.quot m 2]))
        else if hole =? 1 then Ok (inl (board, boards, pairs ++ [remaining]))
        else Ok (inr ERR_GAME_PARAM_INVALID_HOLE_CARD_NUM));
      match o with
      | inr e => Ok (e, None)
      | inl (_, boards, pairs) =>
          Ok (ERR_OK, Some (mkSGame name max_street players ranks suits ftav small big ante cfs deck perms pairs boards))
      end
  end.

Definition MaxStreet (g : SGame) : Z := max_street_ g.
Definition NumPlayers (g : SGame) : Z := num_players_ g.
Definition NumCardsInDeck (g : SGame) : Z := num_cards_in_deck_ g.
Definition MaxCard (g : SGame) : Z := (num_ranks_ g - 1) * num_suits_ g + (num_suits_ g - 1).
Definition NumCardsForStreet (g : SGame) (st : Z) : res Z := rd (num_cards_for_street_ g) st.
Definition NumHoleCardPairs (g : SGame) (st : Z) : res Z := rd (num_hole_card_pairs_ g) st.
Definition NumBoardCards (g : SGame) (st : Z) : res Z := rd (num_board_cards_ g) st.

(** The cards left before [street], from [start] on. *)
Definition left_before (g : SGame) (start street : Z) : res Z :=
  for_ 1 street start (λ s cards_left, k ← NumCardsForStreet g s; Ok (cards_left - k)).

Definition StreetPermutations (g : SGame) (street : Z) : res Z :=
  h ← NumCardsForStreet g 0;
  cards_left ← left_before g (num_cards_in_deck_ g - 2 * h) street;
  k ← NumCardsForStreet g street; ways cards_left k.
Definition StreetPermutations2 (g : SGame) (street : Z) : res Z :=
  h ← NumCardsForStreet g 0;
  cards_left ← left_before g (num_cards_in_deck_ g - h) street;
  k ← NumCardsForStreet g street; ways cards_left k.
Definition StreetPermutations3 (g : SGame) (street : Z) : res Z :=
  cards_left ← left_before g (num_cards_in_deck_ g) street;
  k ← NumCardsForStreet g street; ways cards_left k.
Definition BoardPermutations (g : SGame) (street : Z) : res Z :=
  h ← NumCardsForStreet g 0;
  cards_left ← left_before g (num_cards_in_deck_ g - 2 * h) street;
  '(n, _) ← for_ street (MaxStreet g + 1) (1, cards_left) (λ s '(n, cards_left),
    k ← NumCardsForStreet g s; w ← ways cards_left k; n ← i32 (n * w); Ok (n, cards_left - k));
  Ok n.
End Params.

(** ** Texas hold'em *)

(** What the rest of the bot needs of the game: 13 ranks in four suits, two hole
    cards, a flop of three cards, a turn and a river. *)
Record holdem (g : SGame) : Prop := {
  ho_street : max_street_ g = 3;
  ho_ranks : num_ranks_ g = 13;
  ho_suits : num_suits_ g = 4;
  ho_deck : num_cards_in_deck_ g = 52;
  ho_cards : num_cards_for_street_ g = [2; 3; 1; 1];
  ho_boards : num_board_cards_ g = [0; 3; 4; 5];
  ho_pairs : num_hole_card_pairs_ g = [1326; 1176; 1128; 1081] }.

(** The parameter file of heads-up hold'em. *)
Definition holdem_file : list (list Z) :=
  bytes <$> ["# hold'em"%string; "GameName holdem"%string; "NumRanks 13"%string; "NumSuits 4"%string; "MaxStreet 3"%string;
    "NumHoleCards 2"%string; "NumFlopCards 3"%string; "Ante 0"%string; "SmallBlind 1"%string;
    "FirstToAct 1,0,0,0"%string; "BigBlind 2"%string; "NumPlayers 2"%string].

Definition holdem_game : SGame :=
  mkSGame (bytes "holdem") 3 2 13 4 [1; 0; 0; 0] 1 2 0 [2; 3; 1; 1] 52 55627620048000 [1326; 1176; 1128; 1081] [0; 3; 4; 5].

(** Reading the file and initialising the game succeeds and gives these values. *)
Lemma holdem_read :
  (ReadFromFile 0 (λ _, Ok None) (CreateGameParams 0) holdem_file ≫= Initialize) = Ok (ERR_OK, Some holdem_game).
Proof. vm_compute. reflexivity. Qed.

Lemma holdem_game_ok : holdem holdem_game.
Proof. by split. Qed.
