(* ===== verification/TypicalCards.v ===== *)
(** * Cards up to renaming of suits ([typical_cards.cpp], [SortCards])

    The bot treats two deals that differ by a renaming of suits as one.  This file
    is the code: [SortCards] of [help_functions.cpp], the class [TypicalCards] that
    lists the cards of a street with the number of deals each stands for, the suit
    groups that say which suits can still be exchanged, and [CanonicalizeCards],
    which renames the suits of a deal into a normal form.  All of it is made for four
    suits: a suit group is a byte of an [int]. *)

From stdpp Require Import base list list_numbers numbers option.
From S2P Require Import Prelude SBotEval BotGame.

Open Scope Z_scope.

(** [SortCards( cards + o, n )]: descending. *)
Definition SortCards (cards : list Z) (o n : Z) : res (list Z) :=
  if n =? 1 then Ok cards
  else if n =? 2 then
    c0 ← rd cards o; c1 ← rd cards (o + 1);
    if c0 <? c1 then cards ← wr cards o c1; wr cards (o + 1) c0 else Ok cards
  else if n =? 3 then
    c0 ← rd cards o; c1 ← rd cards (o + 1); c2 ← rd cards (o + 2);
    if c1 <? c0 then
      if c2 <? c1 then Ok cards
      else if c2 <? c0 then cards ← wr cards (o + 1) c2; wr cards (o + 2) c1
      else cards ← wr cards o c2; cards ← wr cards (o + 1) c0; wr cards (o + 2) c1
    else if c2 <? c0 then cards ← wr cards o c1; wr cards (o + 1) c0
    else if c2 <? c1 then cards ← wr cards o c1; cards ← wr cards (o + 1) c2; wr cards (o + 2) c0
    else cards ← wr cards o c2; cards ← wr cards (o + 1) c1; wr cards (o + 2) c0
  else Err Exited.

(** ** Suit groups: [( ( unsigned char * )&suit_groups )[ s ]] *)
Definition sg_get (sg s : Z) : res Z :=
  if (0 <=? s) && (s <? 4) then Ok (Z.land (Z.shiftr sg (8 * s)) 255) else Err OutOfBounds.
Definition sg_set (sg s v : Z) : res Z :=
  if (0 <=? s) && (s <? 4)
  then Ok (Z.lor (Z.ldiff sg (Z.shiftl 255 (8 * s))) (Z.shiftl (u8 v) (8 * s))) else Err OutOfBounds.

Definition NChooseK (n k : Z) : res Z :=
  '(numer, denom) ← for_ 0 k (1, 1) (λ i '(numer, denom),
    numer ← i32 (numer * (n - i)); denom ← i32 (denom * (k - i)); Ok (numer, denom));
  if denom =? 0 then Err DivisionByZero else Ok (Z.quot numer denom).

(** ** [NumMappings] *)

(** The [do] loop over the cards of one rank. *)
Fixpoint same_rank (fuel : nat) (cards : list Z) (num_cards start_rank end_ sg : Z)
    (suit_used group_used : list Z) : res (Z * list Z * list Z) :=
  match fuel with
  | O => Err OutOfFuel
  | S fuel =>
      c ← rd cards end_;
      let s := Suit c in
      suit_used ← incr suit_used s;
      g ← sg_get sg s;
      group_used ← incr group_used g;
      let end_ := end_ + 1 in
      if end_ <? num_cards then
        c ← rd cards end_;
        if Rank c =? start_rank then same_rank fuel cards num_cards start_rank end_ sg suit_used group_used
        else Ok (end_, suit_used, group_used)
      else Ok (end_, suit_used, group_used)
  end.

(** [while( new_suit_groups[ ++s ] != g );] *)
Fixpoint next_in_group (fuel : nat) (sg g s : Z) : res Z :=
  match fuel with
  | O => Err OutOfFuel
  | S fuel => b ← sg_get sg (s + 1); if b =? g then Ok (s + 1) else next_in_group fuel sg g (s + 1)
  end.

(** [while( 1 )]: [None] when a suit of the group is left out, else the last suit used. *)
Fixpoint lowest_used (fuel : nat) (sg g s : Z) (suit_used group_used : list Z) : res (option (Z * list Z)) :=
  match fuel with
  | O => Err OutOfFuel
  | S fuel =>
      u ← rd suit_used s;
      if u =? 0 then Ok None else
      n ← rd group_used g;
      group_used ← wr group_used g (n - 1);
      if n - 1 =? 0 then Ok (Some (s, group_used)) else
      s ← next_in_group 4 sg g s;
      lowest_used fuel sg g s suit_used group_used
  end.

(** The suits of the group [g] behind [s] become a group of their own. *)
Definition split_group (sg g s t : Z) (group_size : list Z) : res (list Z * Z) :=
  o ← forR (s + 1) NumSuits (group_size, sg) (λ s '(group_size, sg),
    b ← sg_get sg s;
    if b =? g then
      sg ← sg_set sg s s;
      n ← rd group_size g;
      group_size ← wr group_size s (t - n);
      sg ← for_ (s + 1) NumSuits sg (λ s' sg, b ← sg_get sg s'; if b =? g then sg_set sg s' s else Ok sg);
      Ok (inr (group_size, sg))
    else Ok (inl (group_size, sg)));
  Ok (match o with inl r => r | inr r => r end).

(** The loop over the groups; it returns 0 when the cards do not use the lowest suits. *)
Definition use_groups (num_mappings sg : Z) (group_size suit_used group_used : list Z)
  : res ((Z * Z * list Z * list Z) + Z) :=
  forR 0 NumSuits (num_mappings, sg, group_size, group_used) (λ g '(num_mappings, sg, group_size, group_used),
    gu ← rd group_used g;
    if gu =? 0 then Ok (inl (num_mappings, sg, group_size, group_used)) else
    t ← rd group_size g;
    k ← NChooseK t gu;
    num_mappings ← i32 (num_mappings * k);
    group_size ← wr group_size g gu;
    o ← lowest_used 4 sg g g suit_used group_used;
    match o with
    | None => Ok (inr 0)
    | Some (s, group_used) =>
        '(group_size, sg) ← split_group sg g s t group_size;
        Ok (inl (num_mappings, sg, group_size, group_used))
    end).

(** [while( start < num_cards )]; every round takes at least one card. *)
Fixpoint mappings_loop (fuel : nat) (cards : list Z) (num_cards start num_mappings sg : Z) (group_size : list Z)
  : res Z :=
  if start <? num_cards then
    match fuel with
    | O => Err OutOfFuel
    | S fuel =>
        c ← rd cards start;
        '(end_, suit_used, group_used) ←
          same_rank (Z.to_nat num_cards) cards num_cards (Rank c) start sg [0; 0; 0; 0] [0; 0; 0; 0];
        o ← use_groups num_mappings sg group_size suit_used group_used;
        match o with
        | inr r => Ok r
        | inl (num_mappings, sg, group_size, _) => mappings_loop fuel cards num_cards end_ num_mappings sg group_size
        end
    end
  else Ok num_mappings.

Definition NumMappings (cards : list Z) (num_cards old_suit_groups : Z) : res Z :=
  group_size ← for_ 0 NumSuits [0; 0; 0; 0] (λ s group_size, g ← sg_get old_suit_groups s; incr group_size g);
  mappings_loop (Z.to_nat num_cards) cards num_cards 0 1 old_suit_groups group_size.

Definition UpdateSuitGroups (cards : list Z) (num_cards old_suit_groups : Z) : res Z :=
  seen_ranks ← for_ 0 num_cards [0; 0; 0; 0] (λ i seen,
    c ← rd cards i; x ← rd seen (Suit c); wr seen (Suit c) (Z.lor x (Z.shiftl 1 (Rank c))));
  new_suit_groups ← sg_set 0 0 0;
  for_ 1 NumSuits new_suit_groups (λ s2 new_suit_groups,
    sr2 ← rd seen_ranks s2;
    o ← forR 0 s2 tt (λ s1 _,
      g1 ← sg_get old_suit_groups s1; g2 ← sg_get old_suit_groups s2; sr1 ← rd seen_ranks s1;
      Ok (if (g1 =? g2) && (sr1 =? sr2) then inr s1 else inl tt));
    sg_set new_suit_groups s2 (match o with inl _ => s2 | inr s1 => s1 end)).

(** ** [ToTypical] *)

(** The inner loop: the suits [old_suit] and [new_suit] change places in the cards
    behind the [i]-th. *)
Definition swap_suits (canon : list Z) (i num_cards old_suit new_suit : Z) : res (list Z) :=
  for_ (i + 1) num_cards canon (λ j canon,
    c ← rd canon j;
    if Suit c =? old_suit then wr canon j (MakeCard (Rank c) new_suit)
    else if Suit c =? new_suit then wr canon j (MakeCard (Rank c) old_suit)
    else Ok canon).

Definition regroup (suit_groups nsg : Z) (rank_used : list Z) : res Z :=
  for_ 0 NumSuits nsg (λ m nsg,
    o ← forR 0 m tt (λ n _,
      a ← sg_get suit_groups n; b ← sg_get suit_groups m;
      ra ← rd rank_used n; rb ← rd rank_used m;
      if (a =? b) && (ra =? rb) then Ok (inr n) else
      a ← sg_get nsg n; b ← sg_get nsg m;
      Ok (if (a =? b) && (ra =? rb) then inr n else inl tt));
    sg_set nsg m (match o with inl _ => m | inr n => n end)).

Definition ToTypical2 (cards : list Z) (num_cards suit_groups : Z) : res (bool * list Z) :=
  if num_cards <=? 0 then Ok (false, []) else
  canon ← for_ 0 num_cards [] (λ i canon, c ← rd cards i; Ok (canon ++ [c]));
  '(canon, _, _, change_made) ←
    for_ 0 num_cards (canon, suit_groups, [0; 0; 0; 0], false) (λ i '(canon, nsg, rank_used, change_made),
      c ← rd canon i;
      let old_suit := Suit c in
      new_suit ← sg_get nsg old_suit;
      let rank := Rank c in
      x ← rd rank_used new_suit;
      rank_used ← wr rank_used new_suit (Z.lor x (Z.shiftl 1 rank));
      '(canon, change_made) ←
        (if negb (new_suit =? old_suit) then
           canon ← wr canon i (MakeCard rank new_suit);
           canon ← swap_suits canon i num_cards old_suit new_suit;
           Ok (canon, true)
         else Ok (canon, change_made));
      nsg ← regroup suit_groups nsg rank_used;
      Ok (canon, nsg, rank_used, change_made));
  Ok (change_made, canon).

(** The result is [canon_cards], another array than [cards]. *)
Definition ToTypical (cards : list Z) (num_cards suit_groups : Z) : res (list Z) :=
  '(change_made, canon) ← ToTypical2 cards num_cards suit_groups;
  if negb change_made then Ok canon
  else if num_cards =? 1 then Ok canon
  else if num_cards =? 2 then
    c0 ← rd canon 0; c1 ← rd canon 1;
    if c0 <? c1 then canon ← wr canon 0 c1; wr canon 1 c0 else Ok canon
  else if num_cards =? 3 then
    c0 ← rd canon 0; c1 ← rd canon 1; c2 ← rd canon 2;
    if (c1 <=? c0) && (c2 <=? c0) then
      if c2 <=? c1 then Ok canon else canon ← wr canon 1 c2; wr canon 2 c1
    else if (c0 <=? c1) && (c2 <=? c1) then
      if c2 <=? c0 then canon ← wr canon 0 c1; wr canon 1 c0
      else canon ← wr canon 0 c1; canon ← wr canon 1 c2; wr canon 2 c0
    else if c1 <=? c0 then canon ← wr canon 0 c2; canon ← wr canon 1 c0; wr canon 2 c1
    else canon ← wr canon 0 c2; wr canon 2 c0
  else Err Exited.

(** ** The constructor

    The arrays are filled from their start: the model keeps the entries written so
    far of the [size] allocated. *)
Definition put {A} (size : Z) (l : list A) (v : A) : res (list A) :=
  if Z.of_nat (length l) <? size then Ok (l ++ [v]) else Err OutOfBounds.

Record TypicalCards := mkTypical {
  n_ : Z; cards_ : list (list Z); num_variants_ : list Z; canon_ : list Z;
  num_raw_ : Z; num_canon_ : Z; suit_groups_ : option (list Z) }.


Definition encode_cards (max_card : Z) (cs : list Z) : Z := fold_left (λ a c, a * (max_card + 1) + c) cs 0.

Section Constructor.
Context (g : SGame) (n : Z) (previous : list Z) (num_previous previous_suit_groups : Z)
  (maintain_suit_groups : bool) (num : Z).

(** One round of the innermost loop; [narrow] is [short] for one and two cards. *)
Definition add_raw (narrow : bool) (cs : list Z) (t : TypicalCards) : res TypicalCards :=
  cards ← put num (cards_ t) cs;
  num_mappings ← NumMappings cs n previous_suit_groups;
  variants ← put num (num_variants_ t) (u8 num_mappings);
  '(encoding, canons) ←
    (if num_mappings =? 0 then
       canon_cards ← ToTypical cs n previous_suit_groups;
       Ok (encode_cards (MaxCard g) canon_cards, num_canon_ t)
     else Ok (encode_cards (MaxCard g) cs, num_canon_ t + 1));
  canon ← put num (canon_ t) (if narrow then s16 encoding else encoding);
  groups ← (match suit_groups_ t with
            | Some l => sg ← UpdateSuitGroups cs n previous_suit_groups; l ← put num l sg; Ok (Some l)
            | None => Ok None
            end);
  Ok (mkTypical n cards variants canon (num_raw_ t + 1) canons groups).

Definition unless_in {S} (c : Z) (s : S) (k : res S) : res S :=
  b ← InCards c previous num_previous; if (b : bool) then Ok s else k.

Definition raw_cards (t : TypicalCards) : res TypicalCards :=
  if n =? 1 then
    for_ 0 (MaxCard g + 1) t (λ c t, unless_in c t (add_raw true [c] t))
  else if n =? 2 then
    for_ 1 (MaxCard g + 1) t (λ hi t, unless_in hi t (
      for_ 0 hi t (λ lo t, unless_in lo t (add_raw true [hi; lo] t))))
  else if n =? 3 then
    for_ 2 (MaxCard g + 1) t (λ hi t, unless_in hi t (
      for_ 1 hi t (λ mid t, unless_in mid t (
        for_ 0 mid t (λ lo t, unless_in lo t (add_raw false [hi; mid; lo] t))))))
  else Err Exited.
End Constructor.

Definition TypicalCards_new (g : SGame) (n : Z) (previous : list Z) (num_previous previous_suit_groups : Z)
    (maintain_suit_groups : bool) : res TypicalCards :=
  let num_remaining := NumCardsInDeck g - num_previous in
  num ← (if n =? 1 then Ok num_remaining
         else if n =? 2 then m ← i32 (num_remaining * (num_remaining - 1)); Ok (Z.quot m 2)
         else m ← i32 (num_remaining * (num_remaining - 1)); m ← i32 (m * (num_remaining - 2)); Ok (Z.quot m 6));
  t ← raw_cards g n previous num_previous previous_suit_groups num
        (mkTypical n [] [] [] 0 0 (if maintain_suit_groups then Some [] else None));
  if num_raw_ t =? num then Ok t else Err Exited.

(** ** [CanonicalizeCards] *)
Definition EncodeRanksOfRawSuitForStreet (g : SGame) (raw_suit street : Z) (raw_cards : list Z) (o : Z) : res Z :=
  k ← NumCardsForStreet g street;
  for_ 0 k 0 (λ i street_code,
    raw_card ← rd raw_cards (o + i);
    Ok (if Suit raw_card =? raw_suit then Z.lor street_code (Z.shiftl 1 (Rank raw_card)) else street_code)).

Definition EncodeRanksOfRawSuit (g : SGame) (raw_suit : Z) (raw_board : list Z) (raw_hole_cards : option (list Z))
    (max_street : Z) : res Z :=
  '(code, _) ← for_ 1 (max_street + 1) (0, 0) (λ st '(code, o),
    street_code ← EncodeRanksOfRawSuitForStreet g raw_suit st raw_board o;
    k ← NumCardsForStreet g st;
    Ok (u64 (Z.lor code (Z.shiftl street_code (16 * (max_street + 1 - st)))), o + k));
  match raw_hole_cards with
  | Some h => street_code ← EncodeRanksOfRawSuitForStreet g raw_suit 0 h 0; Ok (Z.lor code street_code)
  | None => Ok code
  end.

(** The suit not used yet with the largest code. *)
Definition best_suit (suit_codes : list Z) (used : list bool) : res Z :=
  '(best_s, _) ← for_ 0 4 (-1, 0) (λ s '(best_s, best_rank_code),
    u ← rd used s;
    if (u : bool) then Ok (best_s, best_rank_code) else
    rank_code ← rd suit_codes s;
    Ok (if (best_s =? -1) || (best_rank_code <? rank_code) then (s, rank_code) else (best_s, best_rank_code)));
  Ok best_s.

Definition sort_suits (suit_codes : list Z) : res (list Z) :=
  '(sorted_suits, _) ← for_ 0 4 ([], [false; false; false; false]) (λ pos '(sorted_suits, used),
    best_s ← best_suit suit_codes used;
    used ← wr used best_s true;
    Ok (sorted_suits ++ [best_s], used));
  Ok sorted_suits.

Definition rename (suit_mapping : list Z) (raw_card : Z) : res Z :=
  s ← rd suit_mapping (Suit raw_card); Ok (MakeCard (Rank raw_card) s).

(** [canon_board], [canon_hole_cards] and [suit_mapping] are the arrays written; [tmp]
    in the loop is the array [canon_street_cards]. *)
Definition CanonicalizeCards (g : SGame) (raw_board : list Z) (raw_hole_cards : option (list Z)) (max_street : Z)
    (canon_board canon_hole_cards suit_mapping : list Z) : res (list Z * list Z * list Z) :=
  suit_codes ← for_ 0 4 [] (λ s l, c ← EncodeRanksOfRawSuit g s raw_board raw_hole_cards max_street; Ok (l ++ [c]));
  sorted_suits ← sort_suits suit_codes;
  suit_mapping ← for_ 0 4 suit_mapping (λ i m, raw_suit ← rd sorted_suits i; wr m raw_suit i);
  num_board_cards ← NumBoardCards g max_street;
  '(canon_board, _, _) ←
    for_ 1 (max_street + 1) (canon_board, replicate (Z.to_nat num_board_cards) 0, 0) (λ st '(canon_board, tmp, index),
      k ← NumCardsForStreet g st;
      tmp ← for_ 0 k tmp (λ i tmp, raw_card ← rd raw_board (index + i); c ← rename suit_mapping raw_card; wr tmp i c);
      tmp ← SortCards tmp 0 k;
      canon_board ← for_ 0 k canon_board (λ i b, c ← rd tmp i; wr b (index + i) c);
      Ok (canon_board, tmp, index + k));
  match raw_hole_cards with
  | None => Ok (canon_board, canon_hole_cards, suit_mapping)
  | Some raw_hole =>
      k ← NumCardsForStreet g 0;
      canon_hole ← for_ 0 k canon_hole_cards (λ i h, raw_card ← rd raw_hole i; c ← rename suit_mapping raw_card; wr h i c);
      canon_hole ← SortCards canon_hole 0 k;
      Ok (canon_board, canon_hole, suit_mapping)
  end.
