(* ===== verification/Canon.v ===== *)
(** * Renaming suits: what [CanonicalizeCards] computes

    A deal is the list of its streets, the hole cards last.  [iso] relates deals that
    differ by a renaming of suits and by the order of the cards within a street.
    [CanonicalizeCards] sorts the suits by a code of the ranks they hold, street by
    street; its result is the same for two deals exactly when they are related. *)

From stdpp Require Import base list list_numbers numbers option sets sorting.
From S2P Require Import Prelude SBotEval BotGame TypicalCards.

Open Scope Z_scope.

(** ** Cards *)
Definition card (c : Z) : Prop := 0 ≤ c < 52.

Lemma deck_parts c : card c → 0 ≤ Rank c < 13 ∧ 0 ≤ Suit c < 4 ∧ c = MakeCard (Rank c) (Suit c).
Proof. unfold card, Rank, Suit, MakeCard, NumSuits. intros Hc. Z.quot_rem_to_equations. lia. Qed.

Lemma Rank_make r s : 0 ≤ r → 0 ≤ s < 4 → Rank (MakeCard r s) = r.
Proof. unfold Rank, MakeCard, NumSuits. intros. Z.quot_rem_to_equations. lia. Qed.
Lemma Suit_make r s : 0 ≤ r → 0 ≤ s < 4 → Suit (MakeCard r s) = s.
Proof. unfold Suit, MakeCard, NumSuits. intros. Z.quot_rem_to_equations. lia. Qed.
Lemma make_card r s : 0 ≤ r < 13 → 0 ≤ s < 4 → card (MakeCard r s).
Proof. unfold card, MakeCard, NumSuits. lia. Qed.

(** The ranks held in a suit, one bit each. *)
Definition mask (s : Z) (cs : list Z) : Z :=
  fold_left (λ m c, if Suit c =? s then Z.lor m (Z.shiftl 1 (Rank c)) else m) cs 0.

Lemma mask_snoc s cs c : mask s (cs ++ [c]) =
  if Suit c =? s then Z.lor (mask s cs) (Z.shiftl 1 (Rank c)) else mask s cs.
Proof. unfold mask. by rewrite fold_left_app. Qed.

Lemma mask_testbit s cs r : Forall card cs → 0 ≤ s < 4 → 0 ≤ r →
  Z.testbit (mask s cs) r = bool_decide (MakeCard r s ∈ cs).
Proof.
  intros Hcs Hs Hr. induction cs as [|c cs IH] using rev_ind.
  - cbn. rewrite Z.bits_0. by rewrite bool_decide_eq_false_2 by set_solver.
  - apply Forall_app in Hcs as [Hcs Hc]. rewrite Forall_singleton in Hc. rewrite mask_snoc.
    destruct (deck_parts c Hc) as (Hr' & Hs' & Ec). specialize (IH Hcs).
    destruct (Z.eqb_spec (Suit c) s) as [<-|Hne].
    + rewrite Z.lor_spec, IH, Z.shiftl_1_l, Z.pow2_bits_eqb by lia.
      destruct (Z.eqb_spec (Rank c) r) as [<-|Hr2].
      * rewrite orb_true_r, bool_decide_eq_true_2; [done|]. rewrite <- Ec. set_solver.
      * rewrite orb_false_r. apply bool_decide_ext. rewrite elem_of_app, list_elem_of_singleton.
        split; [by left|]. intros [?|E]; [done|]. rewrite <- E, Rank_make in Hr2 by lia. done.
    + rewrite IH. apply bool_decide_ext. rewrite elem_of_app, list_elem_of_singleton.
      split; [by left|]. intros [?|E]; [done|]. rewrite <- E, Suit_make in Hne by lia. done.
Qed.

Lemma mask_range s cs : Forall card cs → 0 ≤ mask s cs < 65536.
Proof.
  intros Hcs. change 65536 with (2 ^ 16). induction cs as [|c cs IH] using rev_ind; [cbn; lia|].
  apply Forall_app in Hcs as [Hcs Hc]. rewrite Forall_singleton in Hc. rewrite mask_snoc.
  destruct (deck_parts c Hc) as (Hr & _ & _). destruct (Suit c =? s); [|auto].
  apply (below_lor 16); [lia|by apply IH|]. rewrite Z.shiftl_1_l. split; [lia|]. apply Z.pow_lt_mono_r; lia.
Qed.

(** ** Codes of suits *)
Definition deal_code (s : Z) (D : list (list Z)) : Z := fold_left (λ a cs, a * 65536 + mask s cs) D 0.

Lemma deal_code_snoc s D cs : deal_code s (D ++ [cs]) = deal_code s D * 65536 + mask s cs.
Proof. unfold deal_code. by rewrite fold_left_app. Qed.

Definition valid_deal (D : list (list Z)) : Prop := Forall (Forall card) D.

Lemma deal_code_inj s D s' D' : valid_deal D → valid_deal D' → length D = length D' →
  deal_code s D = deal_code s' D' ↔ Forall2 (λ cs cs', mask s cs = mask s' cs') D D'.
Proof.
  revert D'. induction D as [|cs D IH] using rev_ind; intros D' HD HD' Hl.
  - destruct D'; [|done]. split; [intros; constructor|done].
  - destruct D' as [|cs' D' _] using rev_ind; [by rewrite length_app, Nat.add_comm in Hl|].
    rewrite !length_app in Hl. cbn [length] in Hl.
    apply Forall_app in HD as [HD Hc]. apply Forall_app in HD' as [HD' Hc']. rewrite Forall_singleton in Hc, Hc'.
    rewrite !deal_code_snoc. pose proof (mask_range s cs Hc). pose proof (mask_range s' cs' Hc').
    specialize (IH D' HD HD' ltac:(lia)). split.
    + intros E. apply Forall2_app; [apply IH; lia|]. constructor; [lia|constructor].
    + intros HF. apply Forall2_app_inv in HF as [H1 H2]; [|lia]. apply IH in H1.
      inversion H2 as [|? ? ? ? Em]; subst. lia.
Qed.

Lemma deal_code_range s D : valid_deal D → 0 ≤ deal_code s D < 65536 ^ Z.of_nat (length D).
Proof.
  induction D as [|cs D IH] using rev_ind; intros HD; [cbn; lia|].
  apply Forall_app in HD as [HD Hc]. rewrite Forall_singleton in Hc. specialize (IH HD).
  rewrite deal_code_snoc, length_app. pose proof (mask_range s cs Hc). cbn [length].
  rewrite Nat2Z.inj_add, Z.pow_add_r by lia. change (65536 ^ Z.of_nat 1) with 65536. lia.
Qed.

(** ** Descending order *)
Definition ge (x y : Z) : Prop := y ≤ x.
#[export] Instance ge_dec : RelDecision ge.
Proof. intros x y. unfold ge. apply _. Defined.
#[export] Instance ge_trans : Transitive ge.
Proof. intros x y z. unfold ge. lia. Qed.
#[export] Instance ge_total : Total ge.
Proof. intros x y. unfold ge. lia. Qed.
#[export] Instance ge_antisymm : AntiSymm eq ge.
Proof. intros x y. unfold ge. lia. Qed.

Definition desc (l : list Z) : list Z := merge_sort ge l.

Lemma desc_perm l : desc l ≡ₚ l.
Proof. apply merge_sort_Permutation. Qed.
Lemma desc_sorted l : Sorted ge (desc l).
Proof. apply Sorted_merge_sort. apply _. Qed.
Lemma desc_is l k : Sorted ge l → l ≡ₚ k → l = desc k.
Proof.
  intros Hl Hp. apply (Sorted_unique ge); [done|apply desc_sorted|]. by rewrite desc_perm.
Qed.
Lemma desc_ext l k : l ≡ₚ k → desc l = desc k.
Proof. intros Hp. apply desc_is; [apply desc_sorted|by rewrite desc_perm]. Qed.

(** ** Renaming *)
Definition ren (σ : Z → Z) (c : Z) : Z := MakeCard (Rank c) (σ (Suit c)).

(** A renaming of the four suits. *)
Record renames (σ : Z → Z) : Prop := {
  rn_suit : ∀ s, 0 ≤ s < 4 → 0 ≤ σ s < 4;
  rn_inj : ∀ s t, 0 ≤ s < 4 → 0 ≤ t < 4 → σ s = σ t → s = t }.

Lemma ren_card σ c : renames σ → card c → card (ren σ c).
Proof.
  intros Hσ Hc. destruct (deck_parts c Hc) as (Hr & Hs & _). apply make_card; [done|]. by apply rn_suit.
Qed.

Lemma ren_parts σ c : renames σ → card c → Rank (ren σ c) = Rank c ∧ Suit (ren σ c) = σ (Suit c).
Proof.
  intros Hσ Hc. destruct (deck_parts c Hc) as (Hr & Hs & _). pose proof (rn_suit _ Hσ _ Hs).
  unfold ren. rewrite Rank_make, Suit_make by lia. done.
Qed.

Lemma ren_inj σ c d : renames σ → card c → card d → ren σ c = ren σ d → c = d.
Proof.
  intros Hσ Hc Hd E. destruct (ren_parts σ c Hσ Hc) as [R1 S1]. destruct (ren_parts σ d Hσ Hd) as [R2 S2].
  rewrite E in R1, S1. destruct (deck_parts c Hc) as (_ & H1 & ->). destruct (deck_parts d Hd) as (_ & H2 & ->).
  f_equal; [congruence|]. apply (rn_inj _ Hσ); [done..|congruence].
Qed.

Lemma ren_elem σ r s cs : renames σ → Forall card cs → 0 ≤ r → 0 ≤ s < 4 →
  MakeCard r (σ s) ∈ ren σ <$> cs ↔ MakeCard r s ∈ cs.
Proof.
  intros Hσ Hcs Hr Hs. rewrite list_elem_of_fmap. split.
  - intros (c & E & Hc). rewrite Forall_forall in Hcs. specialize (Hcs c Hc).
    destruct (deck_parts c Hcs) as (Hr' & Hs' & Ec). pose proof (rn_suit _ Hσ _ Hs). pose proof (rn_suit _ Hσ _ Hs').
    unfold ren in E. pose proof (f_equal Rank E) as E1. pose proof (f_equal Suit E) as E2.
    rewrite !Rank_make in E1 by lia. rewrite !Suit_make in E2 by lia.
    apply (rn_inj _ Hσ) in E2; [|done..]. rewrite E1, E2, <- Ec. done.
  - intros Hc. exists (MakeCard r s). split; [|done]. unfold ren. by rewrite Rank_make, Suit_make by lia.
Qed.

(** Every suit is the image of one. *)
Lemma ren_onto σ t : renames σ → 0 ≤ t < 4 → ∃ s, 0 ≤ s < 4 ∧ σ s = t.
Proof.
  intros Hσ Ht. destruct (decide (σ 0 = t)); [by exists 0|]. destruct (decide (σ 1 = t)); [by exists 1|].
  destruct (decide (σ 2 = t)); [by exists 2|]. exists 3. split; [lia|].
  pose proof (rn_suit _ Hσ) as Hr. pose proof (rn_inj _ Hσ) as Hi.
  assert (σ 0 ≠ σ 1) by (intros E; apply Hi in E; lia). assert (σ 0 ≠ σ 2) by (intros E; apply Hi in E; lia).
  assert (σ 0 ≠ σ 3) by (intros E; apply Hi in E; lia). assert (σ 1 ≠ σ 2) by (intros E; apply Hi in E; lia).
  assert (σ 1 ≠ σ 3) by (intros E; apply Hi in E; lia). assert (σ 2 ≠ σ 3) by (intros E; apply Hi in E; lia).
  pose proof (Hr 0 ltac:(lia)). pose proof (Hr 1 ltac:(lia)). pose proof (Hr 2 ltac:(lia)). pose proof (Hr 3 ltac:(lia)). lia.
Qed.

(** Deals that differ by a renaming and the order within streets. *)
Definition iso_by (σ : Z → Z) (D D' : list (list Z)) : Prop :=
  Forall2 (λ cs cs', cs' ≡ₚ ren σ <$> cs) D D'.
Definition iso (D D' : list (list Z)) : Prop := ∃ σ, renames σ ∧ iso_by σ D D'.

Lemma iso_mask σ s cs cs' : renames σ → Forall card cs → cs' ≡ₚ ren σ <$> cs → 0 ≤ s < 4 →
  mask (σ s) cs' = mask s cs.
Proof.
  intros Hσ Hcs Hp Hs. assert (Forall card cs') as Hcs'.
  { rewrite Hp. apply Forall_fmap. eapply Forall_impl; [done|]. intros c Hc. by apply ren_card. }
  pose proof (mask_range (σ s) cs' Hcs'). pose proof (mask_range s cs Hcs).
  apply Z.bits_inj'. intros r Hr. rewrite !mask_testbit by (done || by apply rn_suit).
  apply bool_decide_ext. rewrite Hp. by apply ren_elem.
Qed.

Lemma iso_valid D D' : iso D D' → valid_deal D → valid_deal D'.
Proof.
  intros (σ & Hσ & HF) HD. induction HF as [|cs cs' D D' Hp HF IH]; [done|].
  apply Forall_cons_1 in HD as [Hc HD]. constructor; [|by apply IH].
  rewrite Hp. apply Forall_fmap. eapply Forall_impl; [done|]. intros c Hc'. by apply ren_card.
Qed.

Lemma iso_code σ s D D' : renames σ → valid_deal D → iso_by σ D D' → 0 ≤ s < 4 →
  deal_code (σ s) D' = deal_code s D.
Proof.
  intros Hσ HD HF Hs. unfold deal_code. generalize 0. induction HF as [|cs cs' D D' Hp HF IH]; intros a; [done|].
  apply Forall_cons_1 in HD as [Hc HD]. cbn. rewrite (iso_mask σ s cs cs') by done. by apply IH.
Qed.

Lemma renames_id : renames (λ s, s).
Proof. by split. Qed.

Lemma renames_compose σ τ : renames σ → renames τ → renames (λ s, τ (σ s)).
Proof.
  intros [S1 I1] [S2 I2]. split; [auto|]. intros s t Hs Ht E. apply I1; [done..|]. apply I2; auto.
Qed.

(** The renaming back. *)
Definition inverse (σ : Z → Z) (t : Z) : Z :=
  if t =? σ 0 then 0 else if t =? σ 1 then 1 else if t =? σ 2 then 2 else 3.

Lemma inverse_left σ s : renames σ → 0 ≤ s < 4 → inverse σ (σ s) = s.
Proof.
  intros Hσ Hs. unfold inverse.
  destruct (Z.eqb_spec (σ s) (σ 0)) as [E|E0]; [apply (rn_inj _ Hσ) in E; lia|].
  destruct (Z.eqb_spec (σ s) (σ 1)) as [E|E1]; [apply (rn_inj _ Hσ) in E; lia|].
  destruct (Z.eqb_spec (σ s) (σ 2)) as [E|E2]; [apply (rn_inj _ Hσ) in E; lia|].
  destruct (decide (s = 3)); [lia|]. assert (s = 0 ∨ s = 1 ∨ s = 2) as Es by lia. by destruct_or! Es; subst s.
Qed.

Lemma renames_inverse σ : renames σ → renames (inverse σ).
Proof.
  intros Hσ. split.
  - intros t _. unfold inverse. destruct (t =? σ 0), (t =? σ 1), (t =? σ 2); lia.
  - intros s t Hs Ht E. destruct (ren_onto σ s Hσ Hs) as (s0 & Hs0 & <-). destruct (ren_onto σ t Hσ Ht) as (t0 & Ht0 & <-).
    rewrite !inverse_left in E by done. by subst.
Qed.

Lemma iso_sym D D' : valid_deal D → iso D D' → iso D' D.
Proof.
  intros HD (σ & Hσ & HF). exists (inverse σ). split; [by apply renames_inverse|].
  induction HF as [|cs cs' D D' Hp HF IH]; [constructor|]. apply Forall_cons_1 in HD as [Hc HD].
  constructor; [|by apply IH]. rewrite Hp, <- list_fmap_compose.
  rewrite <- (list_fmap_id cs) at 1. apply reflexive_eq. apply list_fmap_ext. intros i c Hi. cbn.
  rewrite Forall_lookup in Hc. specialize (Hc _ _ Hi). destruct (ren_parts σ c Hσ Hc) as [R S].
  unfold ren at 1. rewrite R, S. destruct (deck_parts c Hc) as (_ & Hs & Ec). by rewrite inverse_left, <- Ec.
Qed.

Lemma iso_trans D1 D2 D3 : valid_deal D1 → iso D1 D2 → iso D2 D3 → iso D1 D3.
Proof.
  intros HD (σ & Hσ & H1) (τ & Hτ & H2). exists (λ s, τ (σ s)). split; [by apply renames_compose|].
  revert D3 H2. induction H1 as [|a b D1 D2 Hp HF IH]; intros D3 H2; inversion H2 as [|b' c ? D3' Hp2 HF2]; subst; [constructor|].
  apply Forall_cons_1 in HD as [Hc HD]. constructor; [|by apply IH]. rewrite Hp2, Hp, <- list_fmap_compose.
  apply reflexive_eq. apply list_fmap_ext. intros i x Hi. cbn. rewrite Forall_lookup in Hc. specialize (Hc _ _ Hi).
  destruct (ren_parts σ x Hσ Hc) as [R S]. unfold ren at 1. by rewrite R, S.
Qed.

(** ** The normal form *)

(** [p] lists the suits by descending code, [m] gives the place of a suit in it. *)
Record sorts (D : list (list Z)) (p m : list Z) : Prop := {
  so_perm : p ≡ₚ seqZ 0 4;
  so_desc : Sorted ge ((λ s, deal_code s D) <$> p);
  so_place : ∀ i, 0 ≤ i < 4 → at_ m (at_ p i) = i }.

Definition canon_deal (m : list Z) (D : list (list Z)) : list (list Z) :=
  (λ cs, desc (ren (at_ m) <$> cs)) <$> D.

Section Sorts.
Context (D : list (list Z)) (p m : list Z) (Hs : sorts D p m).

Lemma sorts_elem s : 0 ≤ s < 4 → ∃ i, 0 ≤ i < 4 ∧ at_ p i = s.
Proof.
  intros H. assert (s ∈ p) as Hin by (rewrite (so_perm _ _ _ Hs), elem_of_seqZ; lia).
  apply list_elem_of_lookup in Hin as (i & Hi). exists (Z.of_nat i). pose proof (lookup_lt_Some _ _ _ Hi) as Hl.
  rewrite (Permutation_length (so_perm _ _ _ Hs)), length_seqZ in Hl. split; [lia|]. unfold at_. rewrite Nat2Z.id.
  by apply list_lookup_total_correct.
Qed.

Lemma sorts_suit i : 0 ≤ i < 4 → 0 ≤ at_ p i < 4.
Proof.
  intros Hi. assert (at_ p i ∈ p) as Hin.
  { unfold at_. apply list_elem_of_lookup_total_2. rewrite (Permutation_length (so_perm _ _ _ Hs)), length_seqZ. lia. }
  apply (elem_of_Permutation_proper _ _ _ (so_perm _ _ _ Hs)), elem_of_seqZ in Hin. lia.
Qed.

Lemma sorts_renames : renames (at_ m).
Proof.
  split.
  - intros s H. destruct (sorts_elem s H) as (i & Hi & <-). by rewrite (so_place _ _ _ Hs).
  - intros s t H1 H2 E. destruct (sorts_elem s H1) as (i & Hi & <-). destruct (sorts_elem t H2) as (j & Hj & <-).
    rewrite !(so_place _ _ _ Hs) in E by done. by subst.
Qed.

Lemma sorts_iso : iso D (canon_deal m D).
Proof.
  exists (at_ m). split; [apply sorts_renames|]. unfold canon_deal. clear. induction D as [|cs E IH]; [constructor|].
  constructor; [|done]. apply desc_perm.
Qed.
End Sorts.

(** The suits at the same place of two sorted lists have the same code. *)
Lemma sorts_codes D D' p m p' m' i : valid_deal D → iso D D' → sorts D p m → sorts D' p' m' → 0 ≤ i < 4 →
  deal_code (at_ p i) D = deal_code (at_ p' i) D'.
Proof.
  intros HD (σ & Hσ & HF) Hs Hs' Hi.
  assert (((λ s, deal_code s D) <$> p) = ((λ s, deal_code s D') <$> p')) as E.
  { apply (Sorted_unique ge); [apply (so_desc _ _ _ Hs)|apply (so_desc _ _ _ Hs')|].
    rewrite (so_perm _ _ _ Hs), (so_perm _ _ _ Hs').
    transitivity ((λ s, deal_code s D') <$> (σ <$> seqZ 0 4)).
    - rewrite <- list_fmap_compose. apply reflexive_eq, list_fmap_ext. intros j s Hj. apply lookup_seqZ in Hj as [-> Hj].
      cbn. symmetry. apply iso_code; [done..|lia].
    - apply fmap_Permutation. apply NoDup_Permutation; [|apply NoDup_seqZ|].
      + apply NoDup_fmap_2_strong; [|apply NoDup_seqZ]. intros s t Hs1 Ht1. rewrite elem_of_seqZ in Hs1, Ht1.
        apply (rn_inj _ Hσ); lia.
      + intros t. rewrite list_elem_of_fmap. split.
        * intros (s & -> & H). rewrite elem_of_seqZ in *. pose proof (rn_suit _ Hσ s). lia.
        * intros H. rewrite elem_of_seqZ in H. destruct (ren_onto σ t Hσ ltac:(lia)) as (s & H1 & <-). exists s.
          rewrite elem_of_seqZ. split; [done|lia]. }
  apply (f_equal (λ l, l !! Z.to_nat i)) in E. rewrite !list_lookup_fmap in E.
  pose proof (Permutation_length (so_perm _ _ _ Hs)) as L. pose proof (Permutation_length (so_perm _ _ _ Hs')) as L'.
  rewrite length_seqZ in L, L'.
  rewrite (list_lookup_lookup_total_lt p), (list_lookup_lookup_total_lt p') in E by lia. cbn in E. by injection E.
Qed.

(** Which cards a street of the normal form has. *)
Lemma canon_street_elem D p m cs c : sorts D p m → Forall card cs →
  c ∈ desc (ren (at_ m) <$> cs) ↔ card c ∧ Z.testbit (mask (at_ p (Suit c)) cs) (Rank c) = true.
Proof.
  intros Hs Hcs. pose proof (sorts_renames _ _ _ Hs) as Hm. rewrite (desc_perm _). split.
  - intros Hin. assert (card c) as Hc.
    { apply list_elem_of_fmap in Hin as (d & -> & Hd). rewrite Forall_forall in Hcs. apply ren_card; auto. }
    split; [done|]. destruct (deck_parts c Hc) as (Hr & Hu & Ec). pose proof (sorts_suit _ _ _ Hs _ Hu) as Hpu.
    rewrite mask_testbit by (done || lia). apply bool_decide_eq_true_2. apply (ren_elem (at_ m)); [done..|lia|done|].
    by rewrite (so_place _ _ _ Hs), <- Ec.
  - intros [Hc Hb]. destruct (deck_parts c Hc) as (Hr & Hu & Ec). pose proof (sorts_suit _ _ _ Hs _ Hu) as Hpu.
    rewrite mask_testbit in Hb by (done || lia). apply bool_decide_eq_true_1, (ren_elem (at_ m)) in Hb; [|done..|lia|done].
    by rewrite (so_place _ _ _ Hs), <- Ec in Hb.
Qed.

Lemma canon_street_nodup D p m cs : sorts D p m → Forall card cs → NoDup cs → NoDup (desc (ren (at_ m) <$> cs)).
Proof.
  intros Hs Hcs Hn. rewrite (desc_perm _). apply NoDup_fmap_2_strong; [|done]. intros c d Hc Hd.
  rewrite Forall_forall in Hcs. apply ren_inj; [by eapply sorts_renames|by apply Hcs..].
Qed.

(** Streets without repetitions. *)
Definition distinct_streets (D : list (list Z)) : Prop := Forall NoDup D.

(** Related deals have the same normal form. *)
Lemma canon_unique D D' p m p' m' : valid_deal D → distinct_streets D → distinct_streets D' → iso D D' →
  sorts D p m → sorts D' p' m' → canon_deal m D = canon_deal m' D'.
Proof.
  intros HD Hn Hn' Hiso Hs Hs'. pose proof (iso_valid _ _ Hiso HD) as HD'.
  assert (∀ i, 0 ≤ i < 4 → Forall2 (λ cs cs', mask (at_ p i) cs = mask (at_ p' i) cs') D D') as HM.
  { intros i Hi. apply deal_code_inj; [done..| |by eapply sorts_codes].
    destruct Hiso as (σ & _ & HF). by eapply Forall2_length. }
  unfold canon_deal.
  assert (length D = length D') as Hl by (eapply Forall2_length, (HM 0); lia).
  apply list_eq_same_length with (length D); [by rewrite length_fmap|by rewrite length_fmap|].
  intros k x y Hk Hx Hy. apply list_lookup_fmap_Some in Hx as (cs & -> & Hcs).
  apply list_lookup_fmap_Some in Hy as (cs' & -> & Hcs').
  pose proof (proj1 (Forall_lookup _ _) HD _ _ Hcs) as Vc. pose proof (proj1 (Forall_lookup _ _) HD' _ _ Hcs') as Vc'.
  pose proof (proj1 (Forall_lookup _ _) Hn _ _ Hcs) as Nc. pose proof (proj1 (Forall_lookup _ _) Hn' _ _ Hcs') as Nc'.
  apply (Sorted_unique ge); [apply desc_sorted..|].
  apply NoDup_Permutation; [by eapply canon_street_nodup..|]. intros c.
  rewrite (canon_street_elem D p), (canon_street_elem D' p') by done.
  split; intros [Hc Hb]; (split; [done|]); destruct (deck_parts c Hc) as (_ & Hu & _);
    specialize (HM _ Hu); rewrite Forall2_lookup in HM; specialize (HM k); rewrite Hcs, Hcs' in HM;
    inversion HM as [? ? E|]; subst; congruence.
Qed.
