(* ===== verification/CanonCode.v ===== *)
(** * [CanonicalizeCards] computes the normal form of a deal

    The code of [TypicalCards] against the definitions of [Canon], for the streets of
    hold'em. *)

From stdpp Require Import base list list_numbers numbers option sets sorting.
From S2P Require Import Prelude SBotEval BotGame TypicalCards Canon.

Open Scope Z_scope.

(** The start of a list of three or more. *)
Lemma wr0 (x v : Z) l : wr (x :: l) 0 v = Ok (v :: l).
Proof. rewrite wr_ok; [done|cbn [length]; lia]. Qed.
Lemma wr1 (x y v : Z) l : wr (x :: y :: l) 1 v = Ok (x :: v :: l).
Proof. rewrite wr_ok; [done|cbn [length]; lia]. Qed.
Lemma wr2 (x y z v : Z) l : wr (x :: y :: z :: l) 2 v = Ok (x :: y :: v :: l).
Proof. rewrite wr_ok; [done|cbn [length]; lia]. Qed.

Lemma rd0 {A} (x : A) l : rd (x :: l) 0 = Ok x.
Proof. done. Qed.
Lemma rd1 {A} (x y : A) l : rd (x :: y :: l) 1 = Ok y.
Proof. done. Qed.
Lemma rd2 {A} (x y z : A) l : rd (x :: y :: z :: l) 2 = Ok z.
Proof. done. Qed.

(** Proves that a list of at most three is the sorted form of another. *)
Ltac sorted3 :=
  rewrite ?take_0, ?drop_0;
  match goal with |- Ok (?a :: ?b :: ?c :: ?l) = Ok (desc ?k ++ ?l) =>
    rewrite <- (desc_is [a; b; c] k); [done|repeat constructor; unfold ge; lia|solve_Permutation]
  | |- Ok (?a :: ?b :: ?l) = Ok (desc ?k ++ ?l) =>
    rewrite <- (desc_is [a; b] k); [done|repeat constructor; unfold ge; lia|solve_Permutation]
  end.

Lemma SortCards_ok l k : 1 ≤ k ≤ 3 → k ≤ Z.of_nat (length l) →
  SortCards l 0 k = Ok (desc (take (Z.to_nat k) l) ++ drop (Z.to_nat k) l).
Proof.
  intros Hk Hl. assert (k = 1 ∨ k = 2 ∨ k = 3) as Ek by lia. destruct_or! Ek; subst k.
  - destruct l as [|x l]; [cbn in Hl; lia|]. done.
  - destruct l as [|x [|y l]]; [cbn in Hl; lia..|]. change (Z.to_nat 2) with 2%nat. cbn [take drop].
    unfold SortCards. cbn [Z.eqb Pos.eqb Z.add Pos.add]. rewrite rd0, bind_ok, rd1, bind_ok.
    destruct (Z.ltb_spec x y); rewrite ?wr0, ?bind_ok, ?wr1; sorted3.
  - destruct l as [|x [|y [|z l]]]; [cbn in Hl; lia..|]. change (Z.to_nat 3) with 3%nat. cbn [take drop].
    unfold SortCards. cbn [Z.eqb Pos.eqb Z.add Pos.add Pos.succ]. rewrite rd0, bind_ok, rd1, bind_ok, rd2, bind_ok.
    destruct (Z.ltb_spec y x), (Z.ltb_spec z x), (Z.ltb_spec z y); try lia;
      rewrite ?wr0, ?bind_ok, ?wr1, ?bind_ok, ?wr2; sorted3.
Qed.

(** ** Codes *)

(** The streets of a board up to [st], for hold'em. *)
Definition streets (st : Z) (board : list Z) : list (list Z) :=
  take (Z.to_nat st) [take 3 board; take 1 (drop 3 board); take 1 (drop 4 board)].
Definition cards_on (st : Z) : Z := at_ [2; 3; 1; 1] st.
Definition board_size (st : Z) : Z := at_ [0; 3; 4; 5] st.

(** [k] cards from place [o] on. *)
Definition segment (o k : Z) (l : list Z) : list Z := take (Z.to_nat k) (drop (Z.to_nat o) l).

Lemma segment_snoc o i l : 0 ≤ o → 0 ≤ i → o + i < Z.of_nat (length l) →
  segment o (i + 1) l = segment o i l ++ [at_ l (o + i)].
Proof.
  intros Ho Hi Hl. unfold segment. replace (Z.to_nat (i + 1)) with (S (Z.to_nat i)) by lia.
  apply take_S_r. rewrite lookup_drop. unfold at_. replace (Z.to_nat (o + i)) with (Z.to_nat o + Z.to_nat i)%nat by lia.
  apply list_lookup_lookup_total_lt. lia.
Qed.

Lemma streets_step st board : 1 ≤ st ≤ 3 →
  streets st board = streets (st - 1) board ++ [segment (board_size (st - 1)) (cards_on st) board].
Proof. intros H. assert (st = 1 ∨ st = 2 ∨ st = 3) as E by lia. by destruct_or! E; subst st. Qed.

Lemma board_size_step st : 1 ≤ st ≤ 3 → board_size st = board_size (st - 1) + cards_on st.
Proof. intros H. assert (st = 1 ∨ st = 2 ∨ st = 3) as E by lia. by destruct_or! E; subst st. Qed.

Lemma board_size_mono s t : 0 ≤ s ≤ t → t ≤ 3 → 0 ≤ board_size s ≤ board_size t.
Proof.
  intros H1 H2. assert (s = 0 ∨ s = 1 ∨ s = 2 ∨ s = 3) as E by lia. assert (t = 0 ∨ t = 1 ∨ t = 2 ∨ t = 3) as E' by lia.
  destruct_or! E; destruct_or! E'; subst s t; try lia; split; by vm_compute.
Qed.

Lemma cards_on_range st : 0 ≤ st ≤ 3 → 1 ≤ cards_on st ≤ 3.
Proof. intros H. assert (st = 0 ∨ st = 1 ∨ st = 2 ∨ st = 3) as E by lia. destruct_or! E; subst st; split; by vm_compute. Qed.

Section Holdem.
Context (g : SGame) (Hg : holdem g).

Lemma NumCardsForStreet_ok st : 0 ≤ st ≤ 3 → NumCardsForStreet g st = Ok (cards_on st).
Proof. intros H. unfold NumCardsForStreet. rewrite (ho_cards _ Hg), rd_ok by (cbn; lia). done. Qed.
Lemma NumBoardCards_ok st : 0 ≤ st ≤ 3 → NumBoardCards g st = Ok (board_size st).
Proof. intros H. unfold NumBoardCards. rewrite (ho_boards _ Hg), rd_ok by (cbn; lia). done. Qed.

Lemma street_code_ok s st l o : 0 ≤ st ≤ 3 → 0 ≤ o → o + cards_on st ≤ Z.of_nat (length l) →
  EncodeRanksOfRawSuitForStreet g s st l o = Ok (mask s (segment o (cards_on st) l)).
Proof.
  intros Hst Ho Hl. unfold EncodeRanksOfRawSuitForStreet. rewrite NumCardsForStreet_ok, bind_ok by done.
  pose proof (cards_on_range st Hst) as Hk.
  match goal with |- for_ _ _ _ ?b = _ =>
    destruct (for_inv (λ i c, c = mask s (segment o i l)) 0 (cards_on st) 0 b) as (c & E & ->) end; [lia|done| |done].
  intros i c Hi ->. rewrite rd_ok, bind_ok by lia. eexists. split; [done|].
  rewrite segment_snoc, mask_snoc by lia. done.
Qed.

Lemma lor_pack a m k : 0 ≤ a → 0 ≤ m < 65536 → 0 ≤ k →
  Z.lor (a * 65536 ^ (k + 1)) (Z.shiftl m (16 * k)) = (a * 65536 + m) * 65536 ^ k.
Proof.
  intros Ha Hm Hk. change 65536 with (2 ^ 16). rewrite <- !Z.pow_mul_r by lia.
  replace (a * 2 ^ (16 * (k + 1))) with (Z.shiftl (Z.shiftl a 16) (16 * k))
    by (rewrite Z.shiftl_shiftl, Z.shiftl_mul_pow2 by lia; do 2 f_equal; lia).
  rewrite <- Z.shiftl_lor, Z.shiftl_mul_pow2 by lia. f_equal.
  rewrite <- Z.shiftl_mul_pow2 by lia. symmetry. apply Z.add_nocarry_lor.
  apply Z.bits_inj'. intros i Hi. rewrite Z.land_spec, Z.bits_0. destruct (Z.le_gt_cases 16 i).
  - rewrite (below_testbit 16 ltac:(lia) m i) by (done || unfold below; lia). apply andb_false_r.
  - rewrite Z.shiftl_spec_low by lia. done.
Qed.

Lemma streets_prefix st ms board : 0 ≤ st ≤ ms → valid_deal (streets ms board) → valid_deal (streets st board).
Proof.
  intros H HD. unfold valid_deal, streets in *. replace (Z.to_nat st) with (Nat.min (Z.to_nat st) (Z.to_nat ms)) by lia.
  rewrite <- take_take. by apply Forall_take.
Qed.

Lemma street_valid st ms board : 1 ≤ st ≤ ms → ms ≤ 3 → valid_deal (streets ms board) →
  Forall card (segment (board_size (st - 1)) (cards_on st) board).
Proof.
  intros H Hms HD. pose proof (streets_prefix st ms board ltac:(lia) HD) as HS. rewrite streets_step in HS by lia.
  apply Forall_app in HS as [_ HS]. by rewrite Forall_singleton in HS.
Qed.

Lemma streets_length st board : 0 ≤ st ≤ 3 → length (streets st board) = Z.to_nat st.
Proof. intros H. unfold streets. rewrite length_take. cbn [length]. lia. Qed.

(** The deal with its hole cards; without them the last street is empty. *)
Definition deal_of (st : Z) (board : list Z) (hole : option (list Z)) : list (list Z) :=
  streets st board ++ [default [] hole].

Definition hole_ok (hole : option (list Z)) : Prop :=
  match hole with Some h => length h = 2%nat ∧ Forall card h | None => True end.

Lemma EncodeRanksOfRawSuit_ok s board hole ms : 1 ≤ ms ≤ 3 → board_size ms ≤ Z.of_nat (length board) →
  valid_deal (streets ms board) → hole_ok hole →
  EncodeRanksOfRawSuit g s board hole ms = Ok (deal_code s (deal_of ms board hole)).
Proof.
  intros Hms Hl Hb Hh. unfold EncodeRanksOfRawSuit.
  match goal with |- (for_ _ _ _ ?b ≫= _) = _ =>
    destruct (for_inv (λ st c, c = (deal_code s (streets (st - 1) board) * 65536 ^ (ms + 2 - st), board_size (st - 1)))
      1 (ms + 1) (0, 0) b) as (c & E & ->) end; [lia|done| |].
  - intros st c Hst ->. pose proof (board_size_mono (st - 1) st ltac:(lia) ltac:(lia)) as B1.
    pose proof (board_size_mono st ms ltac:(lia) ltac:(lia)) as B2. pose proof (board_size_step st ltac:(lia)) as B3.
    rewrite street_code_ok, bind_ok, NumCardsForStreet_ok, bind_ok by lia.
    eexists. split; [done|]. replace (st + 1 - 1) with st by lia. rewrite <- B3. f_equal.
    set (seg := segment _ _ _). assert (Forall card seg) as Hseg by (apply (street_valid st ms); [lia|lia|done]).
    pose proof (mask_range s seg Hseg) as Hm. pose proof (streets_prefix (st - 1) ms board ltac:(lia) Hb) as V.
    pose proof (deal_code_range s _ V) as R. rewrite streets_length in R by lia.
    replace (ms + 2 - st) with (ms + 1 - st + 1) by lia. rewrite lor_pack by lia.
    rewrite (streets_step st), deal_code_snoc by lia. fold seg. replace (ms + 2 - (st + 1)) with (ms + 1 - st) by lia.
    apply Z.mod_small. split; [apply Z.mul_nonneg_nonneg; [lia|apply Z.pow_nonneg; lia]|].
    pose proof (deal_code_range s (streets st board) (streets_prefix st ms board ltac:(lia) Hb)) as R'.
    rewrite streets_length, (streets_step st), deal_code_snoc in R' by lia. fold seg in R'.
    rewrite Z2Nat.id in R' by lia.
    apply Z.lt_le_trans with (65536 ^ st * 65536 ^ (ms + 1 - st)).
    + apply Z.mul_lt_mono_pos_r; [apply Z.pow_pos_nonneg; lia|lia].
    + rewrite <- Z.pow_add_r by lia. change 18446744073709551616 with (65536 ^ 4). apply Z.pow_le_mono_r; lia.
  - rewrite E, bind_ok. replace (ms + 1 - 1) with ms by lia. replace (ms + 2 - (ms + 1)) with 1 by lia. rewrite Z.pow_1_r.
    unfold deal_of. rewrite deal_code_snoc. pose proof (deal_code_range s _ Hb) as R.
    destruct hole as [h|]; cbn [default id].
    + destruct Hh as [Hl2 Hh]. rewrite street_code_ok, bind_ok by (change (cards_on 0) with 2; lia).
      replace (segment 0 (cards_on 0) h) with h by (unfold segment; rewrite drop_0; by rewrite take_ge by (change (cards_on 0) with 2; lia)).
      pose proof (mask_range s h Hh) as Hm. f_equal.
      pose proof (lor_pack (deal_code s (streets ms board)) (mask s h) 0 ltac:(lia) Hm ltac:(lia)) as L.
      rewrite Z.mul_0_r, Z.shiftl_0_r, Z.add_0_l, Z.pow_0_r, Z.pow_1_r, Z.mul_1_r in L. done.
    + cbn. f_equal. lia.
Qed.
End Holdem.

(** ** Sorting the suits *)
Lemma best_suit_ok codes used : length codes = 4%nat → length used = 4%nat →
  (∃ t, 0 ≤ t < 4 ∧ at_ used t = false) →
  ∃ s, best_suit codes used = Ok s ∧ 0 ≤ s < 4 ∧ at_ used s = false ∧
    ∀ t, 0 ≤ t < 4 → at_ used t = false → at_ codes t ≤ at_ codes s.
Proof.
  intros Hc Hu (t0 & Ht0 & Hf). unfold best_suit.
  match goal with |- ∃ s, (for_ _ _ _ ?b ≫= _) = _ ∧ _ =>
    destruct (for_inv (λ i '(bs, bc),
      bs = -1 ∧ (∀ t, 0 ≤ t < i → at_ used t = true) ∨
      0 ≤ bs < i ∧ at_ used bs = false ∧ bc = at_ codes bs ∧ ∀ t, 0 ≤ t < i → at_ used t = false → at_ codes t ≤ bc)
      0 4 (-1, 0) b) as ([bs bc] & E & P) end; [lia|left; split; [done|lia]| |].
  - intros i [bs bc] Hi P. rewrite (rd_ok used), bind_ok by lia. destruct (at_ used i) eqn:Eu.
    + eexists. split; [done|]. destruct P as [[-> P]|(P1 & P2 & P3 & P4)].
      * left. split; [done|]. intros t Ht. destruct (decide (t = i)) as [->|]; [done|]. apply P. lia.
      * right. split; [lia|]. do 2 (split; [done|]). intros t Ht Htu. destruct (decide (t = i)) as [->|]; [congruence|].
        apply P4; [lia|done].
    + rewrite rd_ok, bind_ok by lia. eexists. split; [done|]. destruct P as [[-> P]|(P1 & P2 & P3 & P4)].
      * cbn. right. split; [lia|]. do 2 (split; [done|]). intros t Ht Htu.
        destruct (decide (t = i)) as [->|]; [lia|]. rewrite P in Htu by lia. done.
      * rewrite (proj2 (Z.eqb_neq bs (-1))) by lia. cbn [orb]. destruct (Z.ltb_spec bc (at_ codes i)); right.
        -- split; [lia|]. do 2 (split; [done|]). intros t Ht Htu. destruct (decide (t = i)) as [->|]; [lia|].
           specialize (P4 t ltac:(lia) Htu). lia.
        -- split; [lia|]. do 2 (split; [done|]). intros t Ht Htu. destruct (decide (t = i)) as [->|]; [lia|].
           apply P4; [lia|done].
  - rewrite E, bind_ok. destruct P as [[-> P]|(P1 & P2 & -> & P4)]; [by rewrite P in Hf|].
    exists bs. split; [done|]. split; [lia|]. done.
Qed.

(** A sorted list and an element below all of it. *)
Lemma sorted_snoc l x : StronglySorted ge l → (∀ y, y ∈ l → x ≤ y) → StronglySorted ge (l ++ [x]).
Proof.
  induction 1 as [|a l Hl IH Ha]; intros Hx; cbn; [by repeat constructor|].
  constructor; [apply IH; set_solver|]. apply Forall_app. split; [done|]. constructor; [|done]. apply Hx. set_solver.
Qed.

Lemma full_perm (p : list Z) : NoDup p → length p = 4%nat → (∀ s, s ∈ p → 0 ≤ s < 4) → p ≡ₚ seqZ 0 4.
Proof.
  intros Hn Hl Hr. apply submseteq_length_Permutation.
  - apply NoDup_submseteq; [done|]. intros s Hs. apply elem_of_seqZ. specialize (Hr s Hs). lia.
  - rewrite length_seqZ, Hl. done.
Qed.

Lemma unused_exists (p : list Z) : NoDup p → (length p < 4)%nat → ∃ t, 0 ≤ t < 4 ∧ t ∉ p.
Proof.
  intros Hn Hl. destruct (decide (0 ∈ p)); [|exists 0; split; [lia|done]]. destruct (decide (1 ∈ p)); [|exists 1; split; [lia|done]].
  destruct (decide (2 ∈ p)); [|exists 2; split; [lia|done]]. destruct (decide (3 ∈ p)); [|exists 3; split; [lia|done]].
  assert (seqZ 0 4 ⊆+ p) as Hs%submseteq_length; [|rewrite length_seqZ in Hs; lia].
  apply NoDup_submseteq; [apply NoDup_seqZ|]. intros s Hs%elem_of_seqZ.
  assert (s = 0 ∨ s = 1 ∨ s = 2 ∨ s = 3) as E by lia. by destruct_or! E; subst s.
Qed.

Record picked (codes : list Z) (pos : Z) (p : list Z) (used : list bool) : Prop := {
  pk_len : Z.of_nat (length p) = pos;
  pk_nodup : NoDup p;
  pk_suit : ∀ s, s ∈ p → 0 ≤ s < 4;
  pk_used : length used = 4%nat;
  pk_mark : ∀ s, 0 ≤ s < 4 → at_ used s = bool_decide (s ∈ p);
  pk_sorted : StronglySorted ge (at_ codes <$> p);
  pk_rest : ∀ s t, s ∈ p → 0 ≤ t < 4 → t ∉ p → at_ codes t ≤ at_ codes s }.

Lemma sort_suits_ok codes : length codes = 4%nat →
  ∃ p, sort_suits codes = Ok p ∧ p ≡ₚ seqZ 0 4 ∧ Sorted ge (at_ codes <$> p).
Proof.
  intros Hc. unfold sort_suits.
  match goal with |- ∃ p, (for_ _ _ _ ?b ≫= _) = _ ∧ _ =>
    destruct (for_inv (λ i '(p, used), picked codes i p used) 0 4 ([], [false; false; false; false]) b)
      as ([p used] & E & P) end; [lia| | |].
  - split; try done; [constructor|set_solver| |constructor|set_solver].
    intros s Hs. assert (s = 0 ∨ s = 1 ∨ s = 2 ∨ s = 3) as Es by lia. by destruct_or! Es; subst s.
  - intros i [p used] Hi [P1 P2 P3 P4 P5 P6 P7].
    destruct (unused_exists p P2 ltac:(lia)) as (t & Ht & Hn).
    destruct (best_suit_ok codes used Hc P4) as (s & Es & Hs & Hu & Hmax).
    { exists t. split; [done|]. rewrite P5 by done. by apply bool_decide_eq_false_2. }
    rewrite Es, bind_ok, wr_ok, bind_ok by lia. eexists. split; [done|].
    rewrite P5 in Hu by done. apply bool_decide_eq_false_1 in Hu.
    split.
    + rewrite length_app. cbn [length]. lia.
    + apply NoDup_app. split; [done|]. split; [set_solver|]. apply NoDup_singleton.
    + intros x Hx. apply elem_of_app in Hx as [?| ->%list_elem_of_singleton]; auto.
    + by rewrite length_insert.
    + intros x Hx. rewrite at_insert by lia. rewrite P5 by done. case_decide; subst.
      * by rewrite bool_decide_eq_true_2 by set_solver.
      * apply bool_decide_ext. set_solver.
    + rewrite fmap_app. apply sorted_snoc; [done|]. intros y Hy. apply list_elem_of_fmap in Hy as (x & -> & Hx). by apply P7.
    + intros x y Hx Hy Hny. apply elem_of_app in Hx as [Hx| ->%list_elem_of_singleton]; [apply P7; set_solver|].
      apply Hmax; [done|]. rewrite P5 by done. apply bool_decide_eq_false_2. set_solver.
  - rewrite E, bind_ok. exists p. destruct P as [P1 P2 P3 P4 P5 P6 P7]. split; [done|].
    split; [apply full_perm; [done|lia|done]|]. by apply StronglySorted_Sorted.
Qed.

(** ** The loops of [CanonicalizeCards] *)

(** A loop that writes the cards [cs] from place [o] on. *)
Lemma fill_ok (body : Z → list Z → res (list Z)) (cs b : list Z) o k :
  k = Z.of_nat (length cs) → 0 ≤ o → o + k ≤ Z.of_nat (length b) →
  (∀ i b', 0 ≤ i < k → body i b' = wr b' (o + i) (at_ cs i)) →
  for_ 0 k b body = Ok (take (Z.to_nat o) b ++ cs ++ drop (Z.to_nat (o + k)) b).
Proof.
  intros Hk Ho Hl Hb.
  destruct (for_inv (λ i b', b' = take (Z.to_nat o) b ++ take (Z.to_nat i) cs ++ drop (Z.to_nat (o + i)) b) 0 k b body)
    as (b' & E & ->); [lia| | |].
  - rewrite Z.add_0_r. change (Z.to_nat 0) with 0%nat. rewrite take_0. cbn [app]. by rewrite take_drop.
  - intros i b' Hi ->. rewrite Hb by done.
    set (pre := take (Z.to_nat o) b ++ take (Z.to_nat i) cs).
    assert (length pre = Z.to_nat (o + i)) as Hpre by (unfold pre; rewrite length_app, !length_take; lia).
    rewrite app_assoc. fold pre.
    rewrite wr_ok by (rewrite length_app, length_drop, Hpre; lia). eexists. split; [done|].
    destruct (drop (Z.to_nat (o + i)) b) as [|x rest] eqn:Ed.
    { apply (f_equal length) in Ed. rewrite length_drop in Ed. cbn in Ed. lia. }
    rewrite <- Hpre. rewrite insert_app_r_alt, Nat.sub_diag by lia. cbn [insert list_insert].
    replace (drop (Z.to_nat (o + (i + 1))) b) with rest.
    + unfold pre. rewrite <- app_assoc. f_equal. rewrite cons_middle, app_assoc. f_equal.
      replace (Z.to_nat (i + 1)) with (S (Z.to_nat i)) by lia. symmetry. apply take_S_r. unfold at_.
      apply list_lookup_lookup_total_lt. lia.
    + replace (Z.to_nat (o + (i + 1))) with (Z.to_nat (o + i) + 1)%nat by lia.
      rewrite <- drop_drop, Ed. done.
  - rewrite E. f_equal. f_equal. f_equal. rewrite take_ge by lia. done.
Qed.

Lemma seg_length o k l : 0 ≤ o → 0 ≤ k → o + k ≤ Z.of_nat (length l) → Z.of_nat (length (segment o k l)) = k.
Proof. intros. unfold segment. rewrite length_take, length_drop. lia. Qed.

Lemma seg_at o k l i : 0 ≤ o → 0 ≤ i < k → o + k ≤ Z.of_nat (length l) → at_ (segment o k l) i = at_ l (o + i).
Proof.
  intros. unfold segment, at_. rewrite lookup_total_take, decide_True, lookup_total_drop by lia.
  by replace (Z.to_nat (o + i)) with (Z.to_nat o + Z.to_nat i)%nat by lia.
Qed.

Lemma at_map (f : Z → Z) l i : 0 ≤ i < Z.of_nat (length l) → at_ (f <$> l) i = f (at_ l i).
Proof.
  intros. unfold at_. apply list_lookup_total_correct. rewrite list_lookup_fmap.
  by rewrite list_lookup_lookup_total_lt by lia.
Qed.

Lemma rename_ok m c : length m = 4%nat → card c → rename m c = Ok (ren (at_ m) c).
Proof.
  intros Hm Hc. destruct (deck_parts c Hc) as (_ & Hs & _). unfold rename. by rewrite rd_ok, bind_ok by lia.
Qed.

Lemma at_card l i : Forall card l → 0 ≤ i < Z.of_nat (length l) → card (at_ l i).
Proof.
  intros Hl Hi. rewrite Forall_lookup in Hl. apply (Hl (Z.to_nat i)). unfold at_. apply list_lookup_lookup_total_lt. lia.
Qed.

(** The loop that gives each suit its place. *)
Lemma mapping_ok p sm : p ≡ₚ seqZ 0 4 → length sm = 4%nat →
  ∃ m, for_ 0 4 sm (λ i m, raw_suit ← rd p i; wr m raw_suit i) = Ok m ∧ length m = 4%nat ∧
    ∀ i, 0 ≤ i < 4 → at_ m (at_ p i) = i.
Proof.
  intros Hp Hsm. pose proof (Permutation_length Hp) as Hl. rewrite length_seqZ in Hl. change (Z.to_nat 4) with 4%nat in Hl.
  assert (NoDup p) as Hn by (rewrite Hp; apply NoDup_seqZ).
  assert (∀ i, 0 ≤ i < 4 → 0 ≤ at_ p i < 4) as Hr.
  { intros i Hi. assert (at_ p i ∈ p) as Hin by (unfold at_; apply list_elem_of_lookup_total_2; lia).
    apply (elem_of_Permutation_proper _ _ _ Hp), elem_of_seqZ in Hin. lia. }
  match goal with |- ∃ m, for_ _ _ _ ?b = _ ∧ _ =>
    destruct (for_inv (λ i m, length m = 4%nat ∧ ∀ j, 0 ≤ j < i → at_ m (at_ p j) = j) 0 4 sm b) as (m & E & Hm & Hj) end;
    [lia|split; [done|lia]| |by exists m].
  intros i m Hi [Hm Hj]. pose proof (Hr i Hi) as Hri. rewrite rd_ok, bind_ok, wr_ok by lia. eexists. split; [done|].
  split; [by rewrite length_insert|]. intros j Hj'. pose proof (Hr j ltac:(lia)) as Hrj. rewrite at_insert by lia.
  case_decide as Ed.
  - apply (NoDup_lookup p (Z.to_nat i) (Z.to_nat j) (at_ p i)) in Hn; [lia| |].
    + unfold at_. apply list_lookup_lookup_total_lt. lia.
    + rewrite Ed. unfold at_. apply list_lookup_lookup_total_lt. lia.
  - apply Hj. destruct (decide (j = i)); [congruence|lia].
Qed.

Section Canonicalize.
Context (g : SGame) (Hg : holdem g).

(** One street: renamed, sorted and copied. *)
Lemma canon_street_ok m raw tmp cb o k : length m = 4%nat → Forall card (segment o k raw) → 1 ≤ k ≤ 3 → 0 ≤ o →
  o + k ≤ Z.of_nat (length raw) → k ≤ Z.of_nat (length tmp) → o + k ≤ Z.of_nat (length cb) →
  ∃ tmp', length tmp' = length tmp ∧
    (tmp ← for_ 0 k tmp (λ i tmp, raw_card ← rd raw (o + i); c ← rename m raw_card; wr tmp i c);
     tmp ← SortCards tmp 0 k;
     cb ← for_ 0 k cb (λ i b, c ← rd tmp i; wr b (o + i) c);
     Ok (cb, tmp, o + k)) =
    Ok (take (Z.to_nat o) cb ++ desc (ren (at_ m) <$> segment o k raw) ++ drop (Z.to_nat (o + k)) cb, tmp', o + k).
Proof.
  intros Hm Hraw Hk Ho Hlr Hlt Hlc. set (cs := ren (at_ m) <$> segment o k raw).
  assert (k = Z.of_nat (length cs)) as Hcs by (unfold cs; rewrite length_fmap, seg_length; lia).
  rewrite (fill_ok _ cs tmp 0 k); [|done|lia|lia|].
  2: { intros i b Hi. rewrite rd_ok, bind_ok, rename_ok, bind_ok; [|done|rewrite <- (seg_at o k) by lia; apply at_card;
         [done|rewrite seg_length; lia]|lia].
       unfold cs. rewrite at_map, seg_at by (rewrite ?seg_length; lia). done. }
  rewrite bind_ok. change (take (Z.to_nat 0) tmp) with (@nil Z). rewrite app_nil_l, Z.add_0_l.
  rewrite SortCards_ok, bind_ok by (rewrite ?length_app; lia).
  assert (take (Z.to_nat k) (cs ++ drop (Z.to_nat k) tmp) = cs) as -> by (apply take_app_length'; lia).
  set (rest := drop (Z.to_nat k) (cs ++ _)). exists (desc cs ++ rest).
  pose proof (Permutation_length (desc_perm cs)) as Hd. split.
  - unfold rest. rewrite length_app, length_drop, length_app, length_drop, Hd. lia.
  - rewrite (fill_ok _ (desc cs) cb o k); [done|lia..|]. intros i b Hi.
    rewrite rd_ok, bind_ok by (rewrite length_app; lia). f_equal. unfold at_. rewrite lookup_total_app_l by lia. done.
Qed.

Definition canon_board_of (m : list Z) (ms : Z) (board : list Z) : list Z := concat (canon_deal m (streets ms board)).

Lemma canon_board_length m ms board : 0 ≤ ms ≤ 3 → board_size ms ≤ Z.of_nat (length board) →
  Z.of_nat (length (canon_board_of m ms board)) = board_size ms.
Proof.
  revert ms. enough (∀ n, 0 ≤ n → n ≤ 3 → board_size n ≤ Z.of_nat (length board) →
    Z.of_nat (length (canon_board_of m n board)) = board_size n) as H by (intros ms Hm ?; apply H; lia).
  apply (Z_bound_ind (λ n, n ≤ 3 → board_size n ≤ Z.of_nat (length board) →
    Z.of_nat (length (canon_board_of m n board)) = board_size n)); [reflexivity|].
  intros n Hn IH Hn3 Hl. pose proof (board_size_step (n + 1) ltac:(lia)) as B. replace (n + 1 - 1) with n in B by lia.
  pose proof (cards_on_range (n + 1) ltac:(lia)). pose proof (board_size_mono n (n + 1) ltac:(lia) ltac:(lia)) as B2.
  unfold canon_board_of, canon_deal in *. rewrite streets_step by lia. replace (n + 1 - 1) with n by lia.
  rewrite fmap_app, concat_app, length_app. cbn [fmap list_fmap concat]. rewrite app_nil_r, (Permutation_length (desc_perm _)), length_fmap.
  rewrite Nat2Z.inj_add, IH, seg_length by lia. lia.
Qed.

Lemma CanonicalizeCards_ok board hole ms cb ch sm : 1 ≤ ms ≤ 3 → board_size ms ≤ Z.of_nat (length board) →
  valid_deal (streets ms board) → hole_ok hole → board_size ms ≤ Z.of_nat (length cb) → (2 ≤ length ch)%nat → length sm = 4%nat →
  ∃ p m, sorts (deal_of ms board hole) p m ∧ length m = 4%nat ∧
    CanonicalizeCards g board hole ms cb ch sm =
    Ok (canon_board_of m ms board ++ drop (Z.to_nat (board_size ms)) cb,
        match hole with Some h => desc (ren (at_ m) <$> h) ++ drop 2 ch | None => ch end, m).
Proof.
  intros Hms Hlb Hb Hh Hcb Hch Hsm. set (D := deal_of ms board hole).
  set (codes := (λ s, deal_code s D) <$> seqZ 0 4).
  assert (∀ s, 0 ≤ s < 4 → at_ codes s = deal_code s D) as Hcodes.
  { intros s Hs. assert (s = 0 ∨ s = 1 ∨ s = 2 ∨ s = 3) as Es by lia. by destruct_or! Es; subst s. }
  destruct (sort_suits_ok codes) as (p & Ep & Hp & Hsort); [done|].
  destruct (mapping_ok p sm Hp Hsm) as (m & Em & Hm & Hplace). exists p, m.
  split; [split; [done| |done]|split; [done|]].
  { replace ((λ s, deal_code s D) <$> p) with (at_ codes <$> p); [done|]. apply list_fmap_ext. intros i s Hi. apply Hcodes.
    assert (s ∈ p) as Hin by (by eapply list_elem_of_lookup_2).
    apply (elem_of_Permutation_proper _ _ _ Hp), elem_of_seqZ in Hin. lia. }
  unfold CanonicalizeCards.
  assert (for_ 0 4 [] (λ s l, c ← EncodeRanksOfRawSuit g s board hole ms; Ok (l ++ [c])) = Ok codes) as ->.
  { unfold for_. change (seqZ 0 (4 - 0)) with [0; 1; 2; 3]. cbn [foldM].
    rewrite !(EncodeRanksOfRawSuit_ok g Hg) by done. done. }
  rewrite bind_ok, Ep, bind_ok, Em, bind_ok, (NumBoardCards_ok g Hg), bind_ok by lia.
  match goal with |- (for_ _ _ (_, ?t0, _) ?b ≫= _) = _ =>
    destruct (for_inv (λ st '(b', t', o), b' = canon_board_of m (st - 1) board ++ drop (Z.to_nat (board_size (st - 1))) cb ∧
      length t' = length t0 ∧ o = board_size (st - 1)) 1 (ms + 1) (cb, t0, 0) b) as ([[b' t'] o] & E & -> & Ht & ->) end;
    [lia|done| |].
  - intros st [[b' t'] o] Hst (-> & Ht & ->). rewrite length_replicate in Ht.
    pose proof (board_size_mono (st - 1) st ltac:(lia) ltac:(lia)) as B1. pose proof (board_size_mono st ms ltac:(lia) ltac:(lia)) as B2.
    pose proof (board_size_step st ltac:(lia)) as B3. pose proof (cards_on_range st ltac:(lia)) as Hk.
    pose proof (canon_board_length m (st - 1) board ltac:(lia) ltac:(lia)) as Hcl.
    rewrite (NumCardsForStreet_ok g Hg), bind_ok by lia.
    destruct (canon_street_ok m board t' (canon_board_of m (st - 1) board ++ drop (Z.to_nat (board_size (st - 1))) cb)
      (board_size (st - 1)) (cards_on st)) as (t2 & Ht2 & E); [done|apply (street_valid st ms); [lia|lia|done]|lia|lia|lia|lia|rewrite length_app, length_drop; lia|].
    rewrite E. eexists. split; [done|]. replace (st + 1 - 1) with st by lia.
    split; [|split; [by rewrite Ht2, Ht, length_replicate|by rewrite <- B3]].
    rewrite take_app_length' by lia. unfold canon_board_of, canon_deal. rewrite (streets_step st) by lia.
    rewrite fmap_app, concat_app. cbn [fmap list_fmap concat]. rewrite app_nil_r, <- app_assoc. f_equal. f_equal.
    rewrite drop_app_ge by (fold (canon_deal m (streets (st - 1) board)); fold (canon_board_of m (st - 1) board); lia).
    fold (canon_deal m (streets (st - 1) board)). fold (canon_board_of m (st - 1) board). rewrite drop_drop. f_equal. lia.
  - rewrite E, bind_ok. replace (ms + 1 - 1) with ms by lia. destruct hole as [h|]; [|done]. destruct Hh as [Hh2 Hhc].
    rewrite (NumCardsForStreet_ok g Hg), bind_ok by lia. change (cards_on 0) with 2.
    rewrite (fill_ok _ (ren (at_ m) <$> h) ch 0 2); [|rewrite length_fmap, Hh2; done|lia|lia|].
    2: { intros i b Hi. rewrite rd_ok, bind_ok, rename_ok, bind_ok by first [done|lia|(apply at_card; [done|lia])].
         rewrite at_map by lia. done. }
    rewrite bind_ok. change (take (Z.to_nat 0) ch) with (@nil Z). change (Z.to_nat (0 + 2)) with 2%nat. rewrite app_nil_l.
    rewrite SortCards_ok, bind_ok by (rewrite ?length_app, ?length_fmap, ?Hh2; lia).
    change (Z.to_nat 2) with 2%nat. rewrite take_app_length', drop_app_length' by (by rewrite length_fmap, Hh2). done.
Qed.
End Canonicalize.

(** ** The normal form decides isomorphism *)

(** The cards of a deal up to [st], two of them hole cards, are in the deck and different. *)
Record deal_ok (st : Z) (board hole : list Z) : Prop := {
  do_board : board_size st ≤ Z.of_nat (length board);
  do_hole : length hole = 2%nat;
  do_cards : Forall card (concat (deal_of st board (Some hole)));
  do_distinct : NoDup (concat (deal_of st board (Some hole))) }.

Lemma Forall_concat_inv (P : Z → Prop) D : Forall P (concat D) → Forall (Forall P) D.
Proof. induction D as [|cs D IH]; cbn; [done|]. intros [H1 H2]%Forall_app. constructor; auto. Qed.

Lemma NoDup_concat_inv (D : list (list Z)) : NoDup (concat D) → Forall NoDup D.
Proof. induction D as [|cs D IH]; cbn; [done|]. intros (H1 & _ & H2)%NoDup_app. constructor; auto. Qed.

Lemma concat_inj (D E : list (list Z)) : Forall2 (λ x y, length x = length y) D E → concat D = concat E → D = E.
Proof.
  induction 1 as [|x y D E Hl HF IH]; cbn; [done|]. intros H. apply app_inj_1 in H as [-> H]; [|done]. by rewrite IH.
Qed.

Lemma deal_ok_valid st board hole : deal_ok st board hole →
  valid_deal (deal_of st board (Some hole)) ∧ distinct_streets (deal_of st board (Some hole)).
Proof. intros [_ _ H1 H2]. split; [by apply Forall_concat_inv|by apply NoDup_concat_inv]. Qed.

Lemma deal_ok_hole st board hole : deal_ok st board hole → hole_ok (Some hole).
Proof.
  intros Hd. destruct (deal_ok_valid _ _ _ Hd) as [HV _]. split; [apply (do_hole _ _ _ Hd)|].
  apply Forall_app in HV as [_ HV]. by rewrite Forall_singleton in HV.
Qed.

Lemma deal_ok_streets st board hole : deal_ok st board hole → valid_deal (streets st board).
Proof. intros Hd. destruct (deal_ok_valid _ _ _ Hd) as [HV _]. by apply Forall_app in HV as [HV _]. Qed.

Lemma canon_deal_of m st board hole :
  concat (canon_deal m (deal_of st board (Some hole))) = canon_board_of m st board ++ desc (ren (at_ m) <$> hole).
Proof.
  unfold canon_deal, deal_of, canon_board_of. rewrite fmap_app, concat_app. cbn [fmap list_fmap concat default id].
  by rewrite app_nil_r.
Qed.

(** Two deals of the same street have streets of the same sizes. *)
Lemma streets_lengths st b b' : 0 ≤ st ≤ 3 → board_size st ≤ Z.of_nat (length b) → board_size st ≤ Z.of_nat (length b') →
  Forall2 (λ x y : list Z, length x = length y) (streets st b) (streets st b').
Proof.
  intros Hst H1 H2. assert (st = 0 ∨ st = 1 ∨ st = 2 ∨ st = 3) as E by lia.
  destruct_or! E; subst st; unfold board_size in *; change (at_ [0; 3; 4; 5] 1) with 3 in *;
    change (at_ [0; 3; 4; 5] 2) with 4 in *; change (at_ [0; 3; 4; 5] 3) with 5 in *; unfold streets;
    repeat constructor; rewrite ?length_take, ?length_drop; lia.
Qed.

(** The normal forms of two deals agree exactly when the deals are isomorphic. *)
Lemma canon_same_iff st b h b' h' p m p' m' : 0 ≤ st ≤ 3 → deal_ok st b h → deal_ok st b' h' →
  sorts (deal_of st b (Some h)) p m → sorts (deal_of st b' (Some h')) p' m' →
  canon_board_of m st b = canon_board_of m' st b' ∧ desc (ren (at_ m) <$> h) = desc (ren (at_ m') <$> h') ↔
  iso (deal_of st b (Some h)) (deal_of st b' (Some h')).
Proof.
  intros Hst Hd Hd' Hs Hs'. destruct (deal_ok_valid _ _ _ Hd) as [V N]. destruct (deal_ok_valid _ _ _ Hd') as [V' N']. split.
  - intros [E1 E2].
    assert (canon_deal m (deal_of st b (Some h)) = canon_deal m' (deal_of st b' (Some h'))) as EC.
    { apply concat_inj; [|by rewrite !canon_deal_of, E1, E2]. unfold canon_deal. apply Forall2_fmap.
      eapply Forall2_impl; [apply Forall2_app; [apply streets_lengths; [lia|by eapply do_board..]|]|].
      - constructor; [|constructor]. cbn. by rewrite (do_hole _ _ _ Hd), (do_hole _ _ _ Hd').
      - cbn. intros x y Hxy. by rewrite !(Permutation_length (desc_perm _)), !length_fmap. }
    eapply iso_trans; [done|by eapply sorts_iso|]. rewrite EC. apply iso_sym; [done|by eapply sorts_iso].
  - intros Hiso. pose proof (canon_unique _ _ _ _ _ _ V N N' Hiso Hs Hs') as EC.
    unfold canon_deal, deal_of in EC. rewrite !fmap_app in EC. apply app_inj_1 in EC as [E1 E2];
      [|rewrite !length_fmap, !streets_length by lia; done].
    cbn [fmap list_fmap default id] in E2. injection E2 as E2. unfold canon_board_of, canon_deal. by rewrite E1, E2.
Qed.

(** [CanonicalizeCards] gives every deal of hold'em a normal form up to the names of
    the suits: for any two deals of the same street it returns, and it returns the same
    cards exactly when a renaming of the suits turns one deal into the other, whatever
    the order of the cards within a street. *)
Theorem canonical_iff_isomorphic g st b h b' h' cb ch sm :
  holdem g → 1 ≤ st ≤ 3 → deal_ok st b h → deal_ok st b' h' →
  board_size st ≤ Z.of_nat (length cb) → (2 ≤ length ch)%nat → length sm = 4%nat →
  ∃ r r', CanonicalizeCards g b (Some h) st cb ch sm = Ok r ∧ CanonicalizeCards g b' (Some h') st cb ch sm = Ok r' ∧
    (fst r = fst r' ↔ iso (deal_of st b (Some h)) (deal_of st b' (Some h'))).
Proof.
  intros Hg Hst Hd Hd' Hcb Hch Hsm.
  destruct (CanonicalizeCards_ok g Hg b (Some h) st cb ch sm) as (p & m & Hs & Hm & E);
    [done|by eapply do_board|by eapply deal_ok_streets|by eapply deal_ok_hole|done..|].
  destruct (CanonicalizeCards_ok g Hg b' (Some h') st cb ch sm) as (p' & m' & Hs' & Hm' & E');
    [done|by eapply do_board|by eapply deal_ok_streets|by eapply deal_ok_hole|done..|].
  eexists _, _. split; [exact E|]. split; [exact E'|]. cbn [fst]. rewrite <- (canon_same_iff st b h b' h' p m p' m') by (done || lia).
  split; [|by intros [-> ->]]. intros [= E1 E2]. split.
  - pose proof (canon_board_length m st b ltac:(lia) (do_board _ _ _ Hd)) as L.
    pose proof (canon_board_length m' st b' ltac:(lia) (do_board _ _ _ Hd')) as L'. apply app_inj_1 in E1 as [E1 _]; [done|lia].
  - apply app_inj_1 in E2 as [E2 _]; [done|].
    by rewrite !(Permutation_length (desc_perm _)), !length_fmap, (do_hole _ _ _ Hd), (do_hole _ _ _ Hd').
Qed.

(** The same flop and hand in other suits and another order. *)
Lemma canonical_iff_isomorphic_witness : ∃ r r',
  CanonicalizeCards holdem_game [51; 20; 2] (Some [50; 13]) 1 [0; 0; 0] [0; 0] [0; 0; 0; 0] = Ok r ∧
  CanonicalizeCards holdem_game [23; 48; 1] (Some [12; 49]) 1 [0; 0; 0] [0; 0] [0; 0; 0; 0] = Ok r' ∧
  (fst r = fst r' ↔ iso (deal_of 1 [51; 20; 2] (Some [50; 13])) (deal_of 1 [23; 48; 1] (Some [12; 49]))).
Proof.
  apply (canonical_iff_isomorphic holdem_game 1 [51; 20; 2] [50; 13] [23; 48; 1] [12; 49]);
    [apply holdem_game_ok|lia| | |vm_compute; discriminate|cbn; lia|reflexivity].
  - split; [vm_compute; discriminate|reflexivity|repeat constructor; unfold card; lia|].
    apply (bool_decide_unpack _). vm_compute. exact I.
  - split; [vm_compute; discriminate|reflexivity|repeat constructor; unfold card; lia|].
    apply (bool_decide_unpack _). vm_compute. exact I.
Defined.
