(* ===== verification/PrivateCards.v ===== *)
(** * Numbering pairs of hole cards ([private_cards.cpp])

    The strategy is stored by the board and the number of the pair of hole cards among
    the pairs that the board leaves.  The code computes the number from the places of
    the two cards in the deck without the board; it is shown to be a bijection. *)

From stdpp Require Import base list list_numbers numbers option sets.
From S2P Require Import Prelude SBotEval BotGame TypicalCards Canon CanonCode.

Open Scope Z_scope.

(** The two versions differ in where the cards are: [board + o] and [hole_cards]. *)
Definition private_index (num_hole_cards num_board_cards : Z) (board : list Z) (o : Z) (hole_cards : list Z) : res Z :=
  if num_hole_cards =? 1 then
    c ← rd hole_cards 0;
    num_board_lower ← for_ 0 num_board_cards 0 (λ i n, b ← rd board (o + i); Ok (if b <? c then n + 1 else n));
    Ok (c - num_board_lower)
  else
    hi ← rd hole_cards 0; lo ← rd hole_cards 1;
    '(num_lower_lo, num_lower_hi) ← for_ 0 num_board_cards (0, 0) (λ i '(nl, nh),
      c ← rd board (o + i);
      Ok (if c <? lo then (nl + 1, nh + 1) else if c <? hi then (nl, nh + 1) else (nl, nh)));
    let hi_index := hi - num_lower_hi in
    let lo_index := lo - num_lower_lo in
    m ← i32 ((hi_index - 1) * hi_index);
    Ok (Z.quot m 2 + lo_index).

(** [GetPrivateHandIdxWithTotalCards( st, cards )]: the hole cards, then the board. *)
Definition GetPrivateHandIdx_total (g : SGame) (st : Z) (cards : list Z) : res Z :=
  k ← NumCardsForStreet g 0; n ← NumBoardCards g st; private_index k n cards k cards.

(** [GetPrivateHandIdxWithTotalCards( st, board, hole_cards )] *)
Definition GetPrivateHandIdx (g : SGame) (st : Z) (board hole_cards : list Z) : res Z :=
  k ← NumCardsForStreet g 0; n ← NumBoardCards g st; private_index k n board 0 hole_cards.

(** ** Places in the deck without the board *)
Section Index.
Context (board : list Z) (Hn : NoDup board) (Hc : Forall card board).

Definition free (c : Z) : bool := bool_decide (c ∉ board).
(** The cards below [c] that are not on the board. *)
Definition place (c : Z) : Z := countZ free c.

Lemma countZ_neg f n : 0 ≤ n → countZ f n + countZ (λ i, negb (f i)) n = n.
Proof.
  revert n. apply (Z_bound_ind (λ n, countZ f n + countZ (λ i, negb (f i)) n = n)); [done|].
  intros n Hn0 IH. rewrite !countZ_S by done. destruct (f n); cbn; lia.
Qed.

(** The board cards below [c], counted in the order of the board. *)
Definition lower (c : Z) : Z := Z.of_nat (length (List.filter (λ b, b <? c) board)).

Lemma lower_count c : 0 ≤ c → lower c = countZ (λ i, bool_decide (i ∈ board)) c.
Proof.
  intros H0. unfold lower, countZ. f_equal. apply Permutation_length, NoDup_Permutation.
  - by apply NoDup_ListNoDup, List.NoDup_filter, NoDup_ListNoDup.
  - apply NoDup_ListNoDup, List.NoDup_filter, NoDup_ListNoDup, NoDup_seqZ.
  - intros x. rewrite !list_elem_of_In, !filter_In, <- !list_elem_of_In, elem_of_seqZ, bool_decide_eq_true.
    rewrite Forall_forall in Hc. split.
    + intros [Hx Hlt]. specialize (Hc x Hx). unfold card in Hc. split; [lia|done].
    + intros [Hx Hin]. split; [done|lia].
Qed.

Lemma place_lower c : 0 ≤ c → c - lower c = place c.
Proof.
  intros H0. rewrite lower_count by done. pose proof (countZ_neg (λ i, bool_decide (i ∈ board)) c H0) as E. cbn beta in E.
  unfold place. rewrite (countZ_ext free (λ i, negb (bool_decide (i ∈ board)))); [lia|].
  intros i _. unfold free. by rewrite bool_decide_not.
Qed.

Lemma place_mono c d : 0 ≤ c → c ≤ d → place c ≤ place d.
Proof.
  intros Hc0 Hcd. replace d with (c + (d - c)) by lia. assert (0 ≤ d - c) as Hk by lia. revert Hk. generalize (d - c).
  apply Z_bound_ind; [by rewrite Z.add_0_r|]. intros k Hk IH. unfold place in *. rewrite Z.add_assoc, countZ_S by lia.
  destruct (free (c + k)); lia.
Qed.

Lemma place_strict c d : 0 ≤ c → c < d → free c = true → place c < place d.
Proof.
  intros H0 Hcd Hf. pose proof (place_mono (c + 1) d ltac:(lia) ltac:(lia)) as H. unfold place in *.
  rewrite countZ_S, Hf in H by lia. lia.
Qed.

Lemma place_inj c d : 0 ≤ c → 0 ≤ d → free c = true → free d = true → place c = place d → c = d.
Proof.
  intros. destruct (Z.lt_trichotomy c d) as [Hl|[?|Hl]]; [|done|]; apply place_strict in Hl; lia || done.
Qed.

Lemma place_all : place 52 = 52 - Z.of_nat (length board).
Proof.
  rewrite <- place_lower by lia. unfold lower. rewrite List.forallb_filter_id; [done|]. apply forallb_forall.
  intros b Hb. rewrite Forall_forall in Hc. apply list_elem_of_In in Hb. specialize (Hc b Hb). unfold card in Hc. lia.
Qed.

(** Every place is taken. *)
Lemma place_onto n j : 0 ≤ n → 0 ≤ j < place n → ∃ c, 0 ≤ c < n ∧ free c = true ∧ place c = j.
Proof.
  revert n. apply (Z_bound_ind (λ n, 0 ≤ j < place n → ∃ c, 0 ≤ c < n ∧ free c = true ∧ place c = j)).
  - unfold place. rewrite countZ_0. lia.
  - intros n H0 IH Hj. unfold place in Hj. rewrite countZ_S in Hj by done. fold (place n) in Hj.
    destruct (Z.lt_ge_cases j (place n)).
    + destruct IH as (c & ? & ? & ?); [lia|]. exists c. split; [lia|done].
    + destruct (free n) eqn:Ef; [|lia]. exists n. split; [lia|]. split; [done|lia].
Qed.
End Index.

(** ** Pairs *)

(** The number of a pair of places [j < i]. *)
Definition pair_number (i j : Z) : Z := Z.quot ((i - 1) * i) 2 + j.

Lemma triangle_step i : 0 ≤ i → Z.quot (i * (i + 1)) 2 = Z.quot ((i - 1) * i) 2 + i.
Proof.
  intros Hi. destruct (Z.eq_dec i 0) as [->|]; [done|].
  replace (i * (i + 1)) with ((i - 1) * i + i * 2) by lia. rewrite !Z.quot_div_nonneg by nia. rewrite Z.div_add by lia. done.
Qed.

Lemma triangle_nonneg i : 0 ≤ i → 0 ≤ Z.quot ((i - 1) * i) 2.
Proof. intros Hi. destruct (Z.eq_dec i 0) as [->|]; [done|]. apply Z.quot_pos; nia. Qed.

Lemma triangle_mono i k : 0 ≤ i → i ≤ k → Z.quot ((i - 1) * i) 2 ≤ Z.quot ((k - 1) * k) 2.
Proof.
  intros H0 Hk. replace k with (i + (k - i)) by lia. assert (0 ≤ k - i) as Hd by lia. revert Hd. generalize (k - i).
  apply Z_bound_ind; [by rewrite Z.add_0_r|]. intros d Hd IH. pose proof (triangle_step (i + d) ltac:(lia)) as E.
  replace ((i + (d + 1) - 1) * (i + (d + 1))) with ((i + d) * (i + d + 1)) by lia. lia.
Qed.

Lemma pair_number_range i j n : 0 ≤ j < i → i < n → 0 ≤ pair_number i j < Z.quot ((n - 1) * n) 2.
Proof.
  intros Hj Hi. unfold pair_number. pose proof (triangle_nonneg i ltac:(lia)). pose proof (triangle_step i ltac:(lia)) as E.
  pose proof (triangle_mono (i + 1) n ltac:(lia) ltac:(lia)) as M. replace (i + 1 - 1) with i in M by lia. lia.
Qed.

Lemma pair_number_inj i j i' j' : 0 ≤ j < i → 0 ≤ j' < i' → pair_number i j = pair_number i' j' → i = i' ∧ j = j'.
Proof.
  intros Hj Hj' E. destruct (Z.lt_trichotomy i i') as [Hl|[->|Hl]].
  - pose proof (pair_number_range i j i' Hj Hl). unfold pair_number in *. lia.
  - unfold pair_number in E. split; [done|lia].
  - pose proof (pair_number_range i' j' i Hj' Hl). unfold pair_number in *. lia.
Qed.

Lemma pair_number_onto n k : 0 ≤ n → 0 ≤ k < Z.quot ((n - 1) * n) 2 →
  ∃ i j, 0 ≤ j < i ∧ i < n ∧ pair_number i j = k.
Proof.
  revert n. apply (Z_bound_ind (λ n, 0 ≤ k < Z.quot ((n - 1) * n) 2 → ∃ i j, 0 ≤ j < i ∧ i < n ∧ pair_number i j = k)).
  - change (Z.quot ((0 - 1) * 0) 2) with 0. lia.
  - intros n H0 IH Hk. replace (n + 1 - 1) with n in Hk by lia. rewrite triangle_step in Hk by lia.
    destruct (Z.lt_ge_cases k (Z.quot ((n - 1) * n) 2)).
    + destruct IH as (i & j & ? & ? & ?); [lia|]. exists i, j. split; [done|]. split; [lia|done].
    + exists n, (k - Z.quot ((n - 1) * n) 2). unfold pair_number. split; [lia|]. split; lia.
Qed.

(** ** The code *)
Lemma lower_snoc l b c : lower (l ++ [b]) c = lower l c + (if b <? c then 1 else 0).
Proof. unfold lower. rewrite List.filter_app, length_app. cbn. destruct (b <? c); cbn; lia. Qed.

(** A pair of hole cards that the board leaves, the higher card first. *)
Record pair_ok (cs : list Z) (hi lo : Z) : Prop := {
  po_order : 0 ≤ lo < hi; po_card : hi < 52; po_hi : hi ∉ cs; po_lo : lo ∉ cs }.

Lemma place_pair cs hi lo : NoDup cs → Forall card cs → pair_ok cs hi lo →
  0 ≤ place cs lo < place cs hi ∧ place cs hi < 52 - Z.of_nat (length cs).
Proof.
  intros Hn Hc [H1 H2 H3 H4]. rewrite <- (place_all cs Hn Hc).
  split; [split; [apply countZ_nonneg|]|]; (apply place_strict; [lia|lia|]); by apply bool_decide_eq_true_2.
Qed.

Lemma private_index_ok k n board o rest hi lo : k ≠ 1 → 0 ≤ o → 0 ≤ n → o + n ≤ Z.of_nat (length board) →
  NoDup (segment o n board) → Forall card (segment o n board) → pair_ok (segment o n board) hi lo →
  private_index k n board o (hi :: lo :: rest) =
    Ok (pair_number (place (segment o n board) hi) (place (segment o n board) lo)).
Proof.
  intros Hk Ho Hn0 Hl Hn Hc Hp. unfold private_index. rewrite (proj2 (Z.eqb_neq k 1)) by done. rewrite rd0, bind_ok, rd1, bind_ok.
  match goal with |- (for_ _ _ _ ?b ≫= _) = _ =>
    destruct (for_inv (λ i s, s = (lower (segment o i board) lo, lower (segment o i board) hi)) 0 n (0, 0) b)
      as (s & E & ->) end; [lia|done| |].
  - intros i s Hi ->. rewrite rd_ok, bind_ok by lia. eexists. split; [done|]. rewrite segment_snoc, !lower_snoc by lia.
    pose proof (po_order _ _ _ Hp). destruct (Z.ltb_spec (at_ board (o + i)) lo), (Z.ltb_spec (at_ board (o + i)) hi); f_equal; lia.
  - rewrite E, bind_ok. pose proof (po_order _ _ _ Hp). pose proof (po_card _ _ _ Hp).
    rewrite !place_lower by (done || lia). destruct (place_pair _ _ _ Hn Hc Hp) as [P1 P2].
    rewrite i32_ok by (unfold INT32_MIN, INT32_MAX; nia). rewrite bind_ok. done.
Qed.

Definition hole_pairs (st : Z) : Z := at_ [1326; 1176; 1128; 1081] st.

Lemma hole_pairs_triangle st : 0 ≤ st ≤ 3 →
  hole_pairs st = Z.quot ((52 - board_size st - 1) * (52 - board_size st)) 2.
Proof. intros H. assert (st = 0 ∨ st = 1 ∨ st = 2 ∨ st = 3) as E by lia. by destruct_or! E; subst st. Qed.

(** The board cards of a street. *)
Definition board_of (st : Z) (board : list Z) : list Z := segment 0 (board_size st) board.

Lemma GetPrivateHandIdx_ok g st board hi lo rest : holdem g → 0 ≤ st ≤ 3 → board_size st ≤ Z.of_nat (length board) →
  NoDup (board_of st board) → Forall card (board_of st board) → pair_ok (board_of st board) hi lo →
  GetPrivateHandIdx g st board (hi :: lo :: rest) =
    Ok (pair_number (place (board_of st board) hi) (place (board_of st board) lo)) ∧
  0 ≤ pair_number (place (board_of st board) hi) (place (board_of st board) lo) < hole_pairs st.
Proof.
  intros Hg Hst Hl Hn Hc Hp. pose proof (board_size_mono st st ltac:(lia) ltac:(lia)) as B. split.
  - unfold GetPrivateHandIdx. rewrite (NumCardsForStreet_ok g Hg), bind_ok, (NumBoardCards_ok g Hg), bind_ok by lia.
    apply private_index_ok; [done|lia|lia|lia|done..].
  - destruct (place_pair _ _ _ Hn Hc Hp) as [P1 P2]. unfold board_of in P2. rewrite seg_length in P2 by lia.
    rewrite hole_pairs_triangle by done. apply pair_number_range; done.
Qed.

(** Given the board of a street, [GetPrivateHandIdxWithTotalCards] numbers the pairs
    of hole cards the board leaves without gaps and without repetition: every pair gets
    a number below [NumHoleCardPairs], and every such number belongs to exactly one
    pair. *)
Theorem private_index_bijective g st board :
  holdem g → 0 ≤ st ≤ 3 → board_size st ≤ Z.of_nat (length board) →
  NoDup (board_of st board) → Forall card (board_of st board) →
  NumHoleCardPairs g st = Ok (hole_pairs st) ∧
  (∀ hi lo, pair_ok (board_of st board) hi lo →
     ∃ k, GetPrivateHandIdx g st board [hi; lo] = Ok k ∧ 0 ≤ k < hole_pairs st) ∧
  (∀ k, 0 ≤ k < hole_pairs st → ∃ hi lo, pair_ok (board_of st board) hi lo ∧
     GetPrivateHandIdx g st board [hi; lo] = Ok k ∧
     ∀ hi' lo', pair_ok (board_of st board) hi' lo' → GetPrivateHandIdx g st board [hi'; lo'] = Ok k → hi' = hi ∧ lo' = lo).
Proof.
  intros Hg Hst Hl Hn Hc. pose proof (board_size_mono st st ltac:(lia) ltac:(lia)) as B.
  assert (Z.of_nat (length (board_of st board)) = board_size st) as Hlen by (apply seg_length; lia).
  split; [|split].
  - unfold NumHoleCardPairs. by rewrite (ho_pairs _ Hg), rd_ok by (cbn; lia).
  - intros hi lo Hp. destruct (GetPrivateHandIdx_ok g st board hi lo []) as [E R]; [done..|]. eauto.
  - intros k Hk. rewrite hole_pairs_triangle in Hk by done.
    destruct (pair_number_onto (52 - board_size st) k) as (i & j & Hj & Hi & E).
    { pose proof (board_size_mono st 3 ltac:(lia) ltac:(lia)) as B3. change (board_size 3) with 5 in B3. lia. }
    { done. }
    pose proof (place_all _ Hn Hc) as PA. rewrite Hlen in PA.
    destruct (place_onto (board_of st board) 52 i) as (hi & Hhi & Fh & Ph); [lia|lia|].
    destruct (place_onto (board_of st board) 52 j) as (lo & Hlo & Fl & Pl); [lia|lia|].
    apply bool_decide_eq_true_1 in Fh as Fh', Fl as Fl'.
    assert (lo < hi) as Hlt.
    { destruct (Z.lt_ge_cases lo hi) as [|Hge]; [done|]. pose proof (place_mono (board_of st board) hi lo ltac:(lia) Hge). lia. }
    assert (pair_ok (board_of st board) hi lo) as Hp by (split; [lia|lia|done|done]).
    exists hi, lo. split; [done|]. destruct (GetPrivateHandIdx_ok g st board hi lo []) as [E1 _]; [done..|].
    split; [by rewrite E1, Ph, Pl, E|]. intros hi' lo' Hp' E2.
    destruct (GetPrivateHandIdx_ok g st board hi' lo' []) as [E3 _]; [done..|]. rewrite E2 in E3. injection E3 as E3.
    rewrite <- E in E3. destruct (place_pair _ _ _ Hn Hc Hp') as [P1 _].
    apply pair_number_inj in E3 as [E4 E5]; [|done..]. destruct Hp' as [H1 H2 H3 H4].
    split; symmetry; eapply place_inj; try (lia || done); by apply bool_decide_eq_true_2.
Qed.

Lemma private_index_bijective_witness :
  NumHoleCardPairs holdem_game 1 = Ok (hole_pairs 1) ∧
  ∃ k, GetPrivateHandIdx holdem_game 1 [51; 20; 2] [50; 13] = Ok k ∧ 0 ≤ k < hole_pairs 1.
Proof.
  destruct (private_index_bijective holdem_game 1 [51; 20; 2]) as (H1 & H2 & _);
    [apply holdem_game_ok|lia|vm_compute; discriminate|apply (bool_decide_unpack _); vm_compute; exact I|repeat constructor; unfold card; lia|].
  split; [exact H1|]. apply H2. split; [lia|lia|..]; apply (bool_decide_unpack _); vm_compute; exact I.
Defined.
