(* ===== verification/Groups.v ===== *)
(** * Suit groups and the cards of a street

    Suits are exchangeable when they hold the same cards so far.  [sg_of f] is the word
    of suit groups when the suits have the codes [f].  [NumMappings] is nonzero exactly
    when the new cards come in descending order of ranks over exchangeable suits;
    [UpdateSuitGroups] computes the groups of the codes with the new street; and the
    constructor of [TypicalCards] lists all raw cards of the street. *)

From stdpp Require Import base list list_numbers numbers option sets.
From S2P Require Import Prelude SBotEval BotGame TypicalCards Canon.

Open Scope Z_scope.

(** The first suit with the code of [s]. *)
Definition grp (f : Z → Z) (s : Z) : Z :=
  if (f 0 =? f s) then 0 else if (f 1 =? f s) then 1 else if (f 2 =? f s) then 2 else 3.
Definition pack (g1 g2 g3 : Z) : Z := 256 * g1 + 65536 * g2 + 16777216 * g3.
Definition sg_of (f : Z → Z) : Z := pack (grp f 1) (grp f 2) (grp f 3).

Lemma grp_le f s : 0 ≤ s < 4 → 0 ≤ grp f s ≤ s.
Proof.
  intros Hs. unfold grp. destruct (Z.eqb_spec (f 0) (f s)); [lia|].
  destruct (Z.eqb_spec (f 1) (f s)); [assert (s ≠ 0) by (by intros ->); lia|].
  destruct (Z.eqb_spec (f 2) (f s)); [assert (s ≠ 0) by (by intros ->); assert (s ≠ 1) by (by intros ->); lia|].
  assert (s ≠ 0) by (by intros ->); assert (s ≠ 1) by (by intros ->); assert (s ≠ 2) by (by intros ->); lia.
Qed.

Lemma grp_code f s : 0 ≤ s < 4 → f (grp f s) = f s.
Proof.
  intros Hs. unfold grp. destruct (Z.eqb_spec (f 0) (f s)) as [|N0]; [done|].
  destruct (Z.eqb_spec (f 1) (f s)) as [|N1]; [done|]. destruct (Z.eqb_spec (f 2) (f s)) as [|N2]; [done|].
  assert (s = 0 ∨ s = 1 ∨ s = 2 ∨ s = 3) as E by lia. by destruct_or! E; subst s.
Qed.

Lemma grp_first f s t : 0 ≤ t → 0 ≤ s < 4 → f t = f s → grp f s ≤ t.
Proof.
  intros Ht Hs E. unfold grp. destruct (Z.eqb_spec (f 0) (f s)) as [|N0]; [lia|].
  assert (t ≠ 0) by (by intros ->). destruct (Z.eqb_spec (f 1) (f s)) as [|N1]; [lia|].
  assert (t ≠ 1) by (by intros ->). destruct (Z.eqb_spec (f 2) (f s)) as [|N2]; [lia|].
  assert (t ≠ 2) by (by intros ->). lia.
Qed.

Lemma grp_eq f s t : 0 ≤ s < 4 → 0 ≤ t < 4 → grp f s = grp f t ↔ f s = f t.
Proof.
  intros Hs Ht. split.
  - intros E. rewrite <- (grp_code f s), <- (grp_code f t) by done. by rewrite E.
  - intros E. unfold grp. by rewrite E.
Qed.

Lemma grp0 f : grp f 0 = 0.
Proof. unfold grp. by rewrite Z.eqb_refl. Qed.

(** The values a byte can have. *)
Definition bytes_ok (g1 g2 g3 : Z) : Prop := 0 ≤ g1 ≤ 1 ∧ 0 ≤ g2 ≤ 2 ∧ 0 ≤ g3 ≤ 3.

Lemma pack_get g1 g2 g3 s : bytes_ok g1 g2 g3 → 0 ≤ s < 4 → sg_get (pack g1 g2 g3) s = Ok (at_ [0; g1; g2; g3] s).
Proof.
  intros (H1 & H2 & H3) Hs. unfold sg_get. rewrite (proj2 (Z.leb_le 0 s)), (proj2 (Z.ltb_lt s 4)) by lia. cbn [andb]. f_equal.
  change 255 with (Z.ones 8). rewrite Z.land_ones, Z.shiftr_div_pow2 by lia. unfold pack.
  assert (s = 0 ∨ s = 1 ∨ s = 2 ∨ s = 3) as E by lia. destruct_or! E; subst s;
    change (at_ [0; g1; g2; g3] _) with 0 || change (at_ [0; g1; g2; g3] _) with g1 ||
    change (at_ [0; g1; g2; g3] _) with g2 || change (at_ [0; g1; g2; g3] _) with g3; Z.div_mod_to_equations; lia.
Qed.

Lemma sg_get_ok f s : 0 ≤ s < 4 → sg_get (sg_of f) s = Ok (grp f s).
Proof.
  intros Hs. pose proof (grp_le f 1 ltac:(lia)). pose proof (grp_le f 2 ltac:(lia)). pose proof (grp_le f 3 ltac:(lia)).
  unfold sg_of. rewrite pack_get by (done || unfold bytes_ok; lia).
  assert (s = 0 ∨ s = 1 ∨ s = 2 ∨ s = 3) as E by lia. destruct_or! E; subst s; [by rewrite grp0|done..].
Qed.

(** Setting the bytes one by one. *)
Lemma pack_set g1 g2 g3 : bytes_ok g1 g2 g3 →
  sg_set 0 0 0 = Ok (pack 0 0 0) ∧ sg_set (pack 0 0 0) 1 g1 = Ok (pack g1 0 0) ∧
  sg_set (pack g1 0 0) 2 g2 = Ok (pack g1 g2 0) ∧ sg_set (pack g1 g2 0) 3 g3 = Ok (pack g1 g2 g3).
Proof.
  intros (H1 & H2 & H3). assert (g1 = 0 ∨ g1 = 1) as E1 by lia. assert (g2 = 0 ∨ g2 = 1 ∨ g2 = 2) as E2 by lia.
  assert (g3 = 0 ∨ g3 = 1 ∨ g3 = 2 ∨ g3 = 3) as E3 by lia.
  destruct_or! E1; destruct_or! E2; destruct_or! E3; subst; by vm_compute.
Qed.

(** ** [UpdateSuitGroups] *)
Definition next_code (f : Z → Z) (cs : list Z) (s : Z) : Z := f s * 65536 + mask s cs.

Lemma seen_ok cs : Forall card cs →
  for_ 0 (Z.of_nat (length cs)) [0; 0; 0; 0] (λ i seen,
    c ← rd cs i; x ← rd seen (Suit c); wr seen (Suit c) (Z.lor x (Z.shiftl 1 (Rank c)))) =
  Ok [mask 0 cs; mask 1 cs; mask 2 cs; mask 3 cs].
Proof.
  intros Hcs.
  match goal with |- for_ _ _ _ ?b = _ =>
    destruct (for_inv (λ i l, let p := take (Z.to_nat i) cs in l = [mask 0 p; mask 1 p; mask 2 p; mask 3 p])
      0 (Z.of_nat (length cs)) [0; 0; 0; 0] b) as (l & E & Hl) end; [lia|done| |].
  - intros i l Hi ->. rewrite rd_ok, bind_ok by lia.
    assert (card (at_ cs i)) as Hc.
    { rewrite Forall_lookup in Hcs. apply (Hcs (Z.to_nat i)). unfold at_. apply list_lookup_lookup_total_lt. lia. }
    replace (Z.to_nat (i + 1)) with (S (Z.to_nat i)) by lia.
    rewrite (take_S_r _ _ (at_ cs i)) by (unfold at_; apply list_lookup_lookup_total_lt; lia). cbv zeta. rewrite !mask_snoc.
    destruct (deck_parts _ Hc) as (_ & Hs & _). set (s := Suit (at_ cs i)) in *. clearbody s.
    assert (s = 0 ∨ s = 1 ∨ s = 2 ∨ s = 3) as Es by lia. eexists. split; [|reflexivity].
    destruct_or! Es; subst s; reflexivity.
  - rewrite E. f_equal. rewrite Nat2Z.id, firstn_all in Hl. done.
Qed.

Lemma UpdateSuitGroups_ok f cs : Forall card cs →
  UpdateSuitGroups cs (Z.of_nat (length cs)) (sg_of f) = Ok (sg_of (next_code f cs)).
Proof.
  intros Hcs. unfold UpdateSuitGroups. rewrite seen_ok, bind_ok by done.
  set (f' := next_code f cs).
  assert (∀ s, 0 ≤ mask s cs < 65536) as Hm by (intros s; by apply mask_range).
  assert (∀ s t, f' s = f' t ↔ f s = f t ∧ mask s cs = mask t cs) as Hf'.
  { intros s t. pose proof (Hm s). pose proof (Hm t). unfold f', next_code. lia. }
  assert (∀ s2 sr2, 1 ≤ s2 < 4 → sr2 = mask s2 cs →
    ∃ o, forR 0 s2 tt (λ s1 _, g1 ← sg_get (sg_of f) s1; g2 ← sg_get (sg_of f) s2;
      sr1 ← rd [mask 0 cs; mask 1 cs; mask 2 cs; mask 3 cs] s1; Ok (if (g1 =? g2) && (sr1 =? sr2) then inr s1 else inl tt)) = Ok o ∧
      match o with inl _ => s2 | inr s1 => s1 end = grp f' s2) as Hinner.
  { intros s2 sr2 Hs2 ->.
    match goal with |- ∃ o, forR _ _ _ ?b = _ ∧ _ =>
      destruct (forR_inv (λ i _, ∀ s, 0 ≤ s < i → f' s ≠ f' s2) (λ s1, s1 = grp f' s2) 0 s2 tt b)
        as [(u & E & P)|(r & E & ->)] end; [lia|lia| | |].
    - intros s1 [] Hs1 P. rewrite !sg_get_ok, !bind_ok, rd_ok, bind_ok by (cbn [length]; lia).
      replace (at_ [mask 0 cs; mask 1 cs; mask 2 cs; mask 3 cs] s1) with (mask s1 cs)
        by (assert (s1 = 0 ∨ s1 = 1 ∨ s1 = 2 ∨ s1 = 3) as Es by lia; by destruct_or! Es; subst s1).
      destruct (Z.eqb_spec (grp f s1) (grp f s2)) as [Eg|Ng]; [destruct (Z.eqb_spec (mask s1 cs) (mask s2 cs)) as [Em|Nm]|].
      + right. exists s1. split; [done|]. apply (proj1 (grp_eq f s1 s2 ltac:(lia) ltac:(lia))) in Eg. assert (f' s1 = f' s2) as E by (apply Hf'; by split).
        pose proof (grp_first f' s2 s1 ltac:(lia) ltac:(lia) E). pose proof (grp_le f' s2 ltac:(lia)).
        destruct (decide (grp f' s2 = s1)); [done|]. exfalso. apply (P (grp f' s2)); [lia|]. apply grp_code. lia.
      + left. exists tt. split; [done|]. intros s Hs. destruct (decide (s = s1)) as [->|]; [by intros [_ ?]%Hf'|apply P; lia].
      + left. exists tt. split; [done|]. intros s Hs. destruct (decide (s = s1)) as [->|]; [|apply P; lia].
        intros [E _]%Hf'. apply Ng. apply grp_eq; [lia..|done].
    - exists (inl u). split; [done|]. pose proof (grp_le f' s2 ltac:(lia)). destruct (decide (grp f' s2 = s2)); [done|].
      exfalso. apply (P (grp f' s2)); [lia|]. apply grp_code. lia.
    - by exists (inr (grp f' s2)). }
  pose proof (grp_le f' 1 ltac:(lia)). pose proof (grp_le f' 2 ltac:(lia)). pose proof (grp_le f' 3 ltac:(lia)).
  destruct (pack_set (grp f' 1) (grp f' 2) (grp f' 3)) as (P0 & P1 & P2 & P3); [unfold bytes_ok; lia|].
  rewrite P0, bind_ok. unfold for_. change (seqZ 1 (NumSuits - 1)) with [1; 2; 3]. cbn [foldM].
  destruct (Hinner 1 (mask 1 cs) ltac:(lia) eq_refl) as (o1 & E1 & G1).
  change (rd [mask 0 cs; mask 1 cs; mask 2 cs; mask 3 cs] 1) with (Ok (mask 1 cs)). rewrite bind_ok, E1, bind_ok, G1, P1, bind_ok.
  destruct (Hinner 2 (mask 2 cs) ltac:(lia) eq_refl) as (o2 & E2 & G2).
  change (rd [mask 0 cs; mask 1 cs; mask 2 cs; mask 3 cs] 2) with (Ok (mask 2 cs)). rewrite bind_ok, E2, bind_ok, G2, P2, bind_ok.
  destruct (Hinner 3 (mask 3 cs) ltac:(lia) eq_refl) as (o3 & E3 & G3).
  change (rd [mask 0 cs; mask 1 cs; mask 2 cs; mask 3 cs] 3) with (Ok (mask 3 cs)). rewrite bind_ok, E3, bind_ok, G3, P3. done.
Qed.

(** ** [NumMappings]

    It looks only at the suits and at which cards have equal ranks. *)
Record shape (cs ds : list Z) : Prop := {
  sh_len : length cs = length ds;
  sh_suit : ∀ i, 0 ≤ i < Z.of_nat (length cs) → Suit (at_ cs i) = Suit (at_ ds i);
  sh_rank : ∀ i j, 0 ≤ i < Z.of_nat (length cs) → 0 ≤ j < Z.of_nat (length cs) →
    Rank (at_ cs i) = Rank (at_ cs j) ↔ Rank (at_ ds i) = Rank (at_ ds j) }.

Section Shape.
Context (cs ds : list Z) (Hs : shape cs ds) (n : Z) (Hn : n = Z.of_nat (length cs)).

Lemma same_rank_shape st sg : 0 ≤ st < n → ∀ fuel e su gu, 0 ≤ e →
  same_rank fuel cs n (Rank (at_ cs st)) e sg su gu = same_rank fuel ds n (Rank (at_ ds st)) e sg su gu.
Proof.
  intros Hst. pose proof (sh_len _ _ Hs) as Hl. induction fuel as [|fuel IH]; intros e su gu He; [done|]. cbn [same_rank].
  destruct (Z.lt_ge_cases e n) as [Hlt|Hge]; [|by rewrite !rd_oob by lia].
  rewrite !(rd_ok _ e), !bind_ok by lia. rewrite (sh_suit _ _ Hs e) by lia.
  destruct (incr su (Suit (at_ ds e))); [|done]. cbn [mbind res_bind]. destruct (sg_get sg (Suit (at_ ds e))); [|done]. cbn [mbind res_bind].
  destruct (incr gu a0); [|done]. cbn [mbind res_bind]. destruct (Z.ltb_spec (e + 1) n); [|done].
  rewrite !(rd_ok _ (e + 1)), !bind_ok by lia. pose proof (sh_rank _ _ Hs (e + 1) st ltac:(lia) ltac:(lia)) as HR.
  destruct (Z.eqb_spec (Rank (at_ cs (e + 1))) (Rank (at_ cs st))), (Z.eqb_spec (Rank (at_ ds (e + 1))) (Rank (at_ ds st)));
    [apply IH; lia|tauto|tauto|done].
Qed.

Lemma same_rank_end cards r sg fuel e su gu e' su' gu' :
  same_rank fuel cards n r e sg su gu = Ok (e', su', gu') → e < e'.
Proof.
  revert e su gu. induction fuel as [|fuel IH]; intros e su gu H; [done|]. cbn [same_rank] in H.
  apply bind_Ok_inv in H as (c & _ & H). apply bind_Ok_inv in H as (su1 & _ & H). apply bind_Ok_inv in H as (g1 & _ & H).
  apply bind_Ok_inv in H as (gu1 & _ & H). destruct (e + 1 <? n); [|injection H as <- _ _; lia].
  apply bind_Ok_inv in H as (c1 & _ & H). destruct (Rank c1 =? r); [apply IH in H; lia|injection H as <- _ _; lia].
Qed.

Lemma mappings_shape fuel start k sg gs : 0 ≤ start →
  mappings_loop fuel cs n start k sg gs = mappings_loop fuel ds n start k sg gs.
Proof.
  pose proof (sh_len _ _ Hs) as Hl. revert start k sg gs. induction fuel as [|fuel IH]; intros start k sg gs H0.
  - cbn. by destruct (start <? n).
  - cbn [mappings_loop]. destruct (Z.ltb_spec start n); [|done]. rewrite !(rd_ok _ start), !bind_ok by lia.
    rewrite (same_rank_shape start) by lia.
    destruct (same_rank _ ds n _ start sg _ _) as [[[e su] gu]|f] eqn:E; [|done]. cbn [mbind res_bind].
    destruct (use_groups k sg gs su gu) as [[[[[k1 sg1] gs1] gu1]|r]|f]; [|done|done]. cbn [mbind res_bind].
    apply IH. apply same_rank_end in E. lia.
Qed.

Lemma NumMappings_shape sg : NumMappings cs n sg = NumMappings ds n sg.
Proof.
  unfold NumMappings. destruct (for_ 0 NumSuits _ _) as [gs|f]; [|done]. cbn [mbind res_bind]. by apply mappings_shape.
Qed.
End Shape.

(** The order a street must have to stand for the deals it is isomorphic to. *)
Definition ordered (f : Z → Z) (cs : list Z) : Prop :=
  ∀ s t, 0 ≤ s → s < t < 4 → f s = f t → mask t cs ≤ mask s cs.

Definition suit_pairs : list (Z * Z) := [(0, 1); (0, 2); (0, 3); (1, 2); (1, 3); (2, 3)].
Definition orderedb (g : list Z) (cs : list Z) : bool :=
  forallb (λ '(s, t), negb (at_ g s =? at_ g t) || (mask t cs <=? mask s cs)) suit_pairs.

Lemma orderedb_spec f cs : orderedb [grp f 0; grp f 1; grp f 2; grp f 3] cs = true ↔ ordered f cs.
Proof.
  unfold orderedb. rewrite forallb_forall.
  assert (∀ s, 0 ≤ s < 4 → at_ [grp f 0; grp f 1; grp f 2; grp f 3] s = grp f s) as Hat.
  { intros s Hs. assert (s = 0 ∨ s = 1 ∨ s = 2 ∨ s = 3) as E by lia. by destruct_or! E; subst s. }
  split.
  - intros H s t Hs Ht E. assert (In (s, t) suit_pairs) as Hin.
    { assert (s = 0 ∨ s = 1 ∨ s = 2) as Es by lia. assert (t = 1 ∨ t = 2 ∨ t = 3) as Et by lia.
      destruct_or! Es; destruct_or! Et; subst s t; try lia; cbn; tauto. }
    specialize (H _ Hin). cbn beta iota in H. rewrite !Hat in H by lia. apply (grp_eq f s t) in E; [|lia..].
    rewrite E, Z.eqb_refl in H. cbn in H. lia.
  - intros H [s t] Hin. assert (0 ≤ s ∧ s < t < 4) as [Hs Ht].
    { cbn in Hin. repeat (destruct Hin as [[= <- <-]|Hin]; [lia|]). done. }
    rewrite !Hat by lia. destruct (Z.eqb_spec (grp f s) (grp f t)) as [E|]; [|done]. cbn.
    apply (proj1 (grp_eq f s t ltac:(lia) ltac:(lia))) in E. specialize (H s t Hs Ht E). lia.
Qed.

(** The answer for given groups: a byte, nonzero when the cards are in order. *)
Definition answers (sg : Z) (g cs : list Z) : bool :=
  match NumMappings cs (Z.of_nat (length cs)) sg with
  | Ok k => (0 <=? k) && (k <? 256) && Bool.eqb (negb (k =? 0)) (orderedb g cs)
  | Err _ => false
  end.

(** All groupings of four suits. *)
Definition groupings : list (Z * Z * Z) :=
  List.filter (λ '(g1, g2, g3), let g := [0; g1; g2; g3] in
    (at_ g g2 =? g2) && (at_ g g3 =? g3)) (g1 ← [0; 1]; g2 ← [0; 1; 2]; g3 ← [0; 1; 2; 3]; [(g1, g2, g3)]).

Lemma groupings_all f : In (grp f 1, grp f 2, grp f 3) groupings.
Proof.
  pose proof (grp_le f 1 ltac:(lia)). pose proof (grp_le f 2 ltac:(lia)). pose proof (grp_le f 3 ltac:(lia)).
  assert (∀ s, 0 ≤ s < 4 → at_ [0; grp f 1; grp f 2; grp f 3] s = grp f s) as Hat.
  { intros s Hs. assert (s = 0 ∨ s = 1 ∨ s = 2 ∨ s = 3) as E by lia. destruct_or! E; subst s; [by rewrite grp0|done..]. }
  assert (∀ s, 0 ≤ s < 4 → grp f (grp f s) = grp f s) as Hid.
  { intros s Hs. apply grp_eq; [pose proof (grp_le f s Hs); lia|done|by apply grp_code]. }
  apply filter_In. split.
  - assert (grp f 1 = 0 ∨ grp f 1 = 1) as E1 by lia. assert (grp f 2 = 0 ∨ grp f 2 = 1 ∨ grp f 2 = 2) as E2 by lia.
    assert (grp f 3 = 0 ∨ grp f 3 = 1 ∨ grp f 3 = 2 ∨ grp f 3 = 3) as E3 by lia.
    destruct E1 as [-> | ->]; destruct_or! E2; destruct_or! E3; rewrite E2, E3; cbn; tauto.
  - cbv beta iota zeta. rewrite !Hat by lia. rewrite !Hid by lia. by rewrite !Z.eqb_refl.
Qed.

Lemma groupings_checked : forallb (λ '(g1, g2, g3),
  forallb (λ s, answers (pack g1 g2 g3) [0; g1; g2; g3] [s]) [0; 1; 2; 3]) groupings = true.
Proof. vm_compute. reflexivity. Qed.

(** The flops of the three lowest ranks. *)
Definition low_flops : list (list Z) :=
  hi ← seqZ 2 10; mid ← seqZ 1 (hi - 1); lo ← seqZ 0 mid; [[hi; mid; lo]].
Lemma low_flops_checked : forallb (answers 0 [0; 0; 0; 0]) low_flops = true.
Proof. vm_compute. reflexivity. Qed.

Lemma answers_spec f cs : answers (sg_of f) [0; grp f 1; grp f 2; grp f 3] cs = true →
  ∃ k, NumMappings cs (Z.of_nat (length cs)) (sg_of f) = Ok k ∧ 0 ≤ k < 256 ∧ (k ≠ 0 ↔ ordered f cs).
Proof.
  unfold answers. destruct (NumMappings _ _ _) as [k|]; [|done]. intros [[H0 H1]%andb_prop H2]%andb_prop.
  exists k. split; [done|]. split; [lia|]. apply eqb_prop in H2. rewrite <- orderedb_spec, grp0, <- H2.
  destruct (Z.eqb_spec k 0); cbn; split; intros; lia || done.
Qed.

Lemma mask_add s cs c : Forall card cs → card c → c ∉ cs → 0 ≤ s < 4 →
  mask s (cs ++ [c]) = mask s cs + (if Suit c =? s then 2 ^ Rank c else 0).
Proof.
  intros Hcs Hc Hn Hs. rewrite mask_snoc. destruct (Z.eqb_spec (Suit c) s) as [<-|]; [|lia].
  destruct (deck_parts c Hc) as (Hr & _ & Ec). rewrite Z.shiftl_1_l. symmetry. apply Z.add_nocarry_lor.
  apply Z.bits_inj'. intros i Hi. rewrite Z.land_spec, Z.bits_0, Z.pow2_bits_eqb by lia.
  destruct (Z.eqb_spec (Rank c) i) as [<-|]; [|apply andb_false_r]. rewrite mask_testbit by (done || lia).
  rewrite <- Ec. by rewrite bool_decide_eq_false_2.
Qed.

Lemma mask_one s c : card c → 0 ≤ s < 4 → mask s [c] = if Suit c =? s then 2 ^ Rank c else 0.
Proof. intros Hc Hs. change [c] with ([] ++ [c]). rewrite mask_add by (done || set_solver). done. Qed.

Lemma NumMappings_one f c : card c →
  ∃ k, NumMappings [c] 1 (sg_of f) = Ok k ∧ 0 ≤ k < 256 ∧ (k ≠ 0 ↔ ordered f [c]).
Proof.
  intros Hc. destruct (deck_parts c Hc) as (Hr & Hs & Ec). set (d := MakeCard 0 (Suit c)).
  assert (Suit d = Suit c) as Sd by (apply Suit_make; lia). assert (Rank d = 0) as Rd by (apply Rank_make; lia).
  assert (card d) as Hd by (apply make_card; lia).
  assert (shape [c] [d]) as Hsh.
  { split; [done| |]; cbn [length]; [intros i Hi|intros i j Hi Hj; assert (j = 0) as -> by lia]; by assert (i = 0) as -> by lia. }
  rewrite (NumMappings_shape [c] [d] Hsh 1 eq_refl).
  destruct (answers_spec f [d]) as (k & E & Hk & Ho).
  - pose proof groupings_checked as G. rewrite forallb_forall in G. specialize (G _ (groupings_all f)). cbv beta iota in G.
    rewrite forallb_forall in G. apply G. unfold d, MakeCard. replace (0 * NumSuits + Suit c) with (Suit c) by (unfold NumSuits; lia).
    assert (Suit c = 0 ∨ Suit c = 1 ∨ Suit c = 2 ∨ Suit c = 3) as E by lia. destruct_or! E; rewrite E; cbn; tauto.
  - exists k. split; [done|]. split; [done|]. rewrite Ho. unfold ordered.
    assert (0 < 2 ^ Rank c) by (apply Z.pow_pos_nonneg; lia).
    split; intros H1 s t H2 H3 E2; specialize (H1 s t H2 H3 E2); rewrite !mask_one in * by (done || lia);
      rewrite Sd, Rd in *; change (2 ^ 0) with 1 in *; destruct (Suit c =? t), (Suit c =? s); lia.
Qed.

(** Three cards in descending order, and their masks. *)
Lemma mask_flop s hi mid lo : 0 ≤ lo < mid → mid < hi < 52 → 0 ≤ s < 4 →
  mask s [hi; mid; lo] = (if Suit hi =? s then 2 ^ Rank hi else 0) + (if Suit mid =? s then 2 ^ Rank mid else 0) +
    (if Suit lo =? s then 2 ^ Rank lo else 0).
Proof.
  intros H1 H2 Hs. assert (card hi ∧ card mid ∧ card lo) as (Ch & Cm & Cl) by (unfold card; lia).
  change [hi; mid; lo] with ([hi; mid] ++ [lo]). rewrite mask_add; [|by rewrite ?Forall_cons, Forall_nil|done|rewrite !elem_of_cons, elem_of_nil; lia|done].
  change [hi; mid] with ([hi] ++ [mid]). rewrite mask_add; [|by rewrite ?Forall_cons, Forall_nil|done|rewrite !elem_of_cons, elem_of_nil; lia|done].
  by rewrite mask_one.
Qed.

Lemma low_flop_in hi mid lo : 0 ≤ lo < mid → mid < hi < 12 → In [hi; mid; lo] low_flops.
Proof.
  intros H1 H2. apply list_elem_of_In. unfold low_flops. apply list_elem_of_bind. exists hi.
  split; [|apply elem_of_seqZ; lia]. apply list_elem_of_bind. exists mid. split; [|apply elem_of_seqZ; lia].
  apply list_elem_of_bind. exists lo. split; [|apply elem_of_seqZ; lia]. by apply list_elem_of_singleton.
Qed.

Lemma at_three (a b c : Z) : at_ [a; b; c] 0 = a ∧ at_ [a; b; c] 1 = b ∧ at_ [a; b; c] 2 = c.
Proof. done. Qed.

Lemma pow_double a b : 0 ≤ b < a → 2 * 2 ^ b ≤ 2 ^ a.
Proof. intros H. rewrite <- Z.pow_succ_r by lia. apply Z.pow_le_mono_r; lia. Qed.

Lemma NumMappings_flop hi mid lo : 0 ≤ lo < mid → mid < hi < 52 →
  ∃ k, NumMappings [hi; mid; lo] 3 0 = Ok k ∧ 0 ≤ k < 256 ∧ (k ≠ 0 ↔ ordered (λ _, 0) [hi; mid; lo]).
Proof.
  intros H1 H2. assert (card hi ∧ card mid ∧ card lo) as (Ch & Cm & Cl) by (unfold card; lia).
  destruct (deck_parts hi Ch) as (Rh & Sh & Eh). destruct (deck_parts mid Cm) as (Rm & Sm & Em). destruct (deck_parts lo Cl) as (Rl & Sl & El).
  set (m := if Rank mid =? Rank lo then 0 else 1). set (h := if Rank hi =? Rank mid then m else m + 1).
  assert (0 ≤ m ≤ 1 ∧ m ≤ h ≤ 2) as [Bm Bh] by (unfold h, m; destruct (Rank mid =? Rank lo), (Rank hi =? Rank mid); lia).
  set (hi' := MakeCard h (Suit hi)). set (mid' := MakeCard m (Suit mid)). set (lo' := MakeCard 0 (Suit lo)).
  assert (Suit hi' = Suit hi ∧ Suit mid' = Suit mid ∧ Suit lo' = Suit lo) as (S1 & S2 & S3)
    by (unfold hi', mid', lo'; rewrite !Suit_make by lia; done).
  assert (Rank hi' = h ∧ Rank mid' = m ∧ Rank lo' = 0) as (Q1 & Q2 & Q3)
    by (unfold hi', mid', lo'; rewrite !Rank_make by lia; done).
  assert (Rank lo * 4 + Suit lo < Rank mid * 4 + Suit mid ∧ Rank mid * 4 + Suit mid < Rank hi * 4 + Suit hi) as [R1 R2].
  { unfold MakeCard, NumSuits in Eh, Em, El. lia. }
  clear Eh Em El.
  assert (0 ≤ lo' < mid' ∧ mid' < hi' < 12) as [L1 L2].
  { unfold hi', mid', lo', h, m, MakeCard, NumSuits in *.
    destruct (Z.eqb_spec (Rank mid) (Rank lo)), (Z.eqb_spec (Rank hi) (Rank mid)); lia. }
  assert (shape [hi; mid; lo] [hi'; mid'; lo']) as Hsh.
  { split; [done| |]; cbn [length].
    - intros i Hi. assert (i = 0 ∨ i = 1 ∨ i = 2) as Ei by lia. by destruct_or! Ei; subst i.
    - intros i j Hi Hj. assert (i = 0 ∨ i = 1 ∨ i = 2) as Ei by lia. assert (j = 0 ∨ j = 1 ∨ j = 2) as Ej by lia.
      destruct (at_three hi mid lo) as (A0 & A1 & A2). destruct (at_three hi' mid' lo') as (B0 & B1 & B2).
      destruct_or! Ei; destruct_or! Ej; subst i j; rewrite ?A0, ?A1, ?A2, ?B0, ?B1, ?B2, ?Q1, ?Q2, ?Q3; unfold h, m;
        destruct (Z.eqb_spec (Rank mid) (Rank lo)), (Z.eqb_spec (Rank hi) (Rank mid)); lia. }
  rewrite (NumMappings_shape _ _ Hsh 3 eq_refl). change 0 with (sg_of (λ _, 0)) at 1.
  destruct (answers_spec (λ _, 0) [hi'; mid'; lo']) as (k & E & Hk & Ho).
  { pose proof low_flops_checked as G. rewrite forallb_forall in G. apply (G _ (low_flop_in _ _ _ L1 L2)). }
  exists k. split; [done|]. split; [done|]. rewrite Ho. unfold ordered.
  assert (0 < 2 ^ Rank lo) as P0 by (apply Z.pow_pos_nonneg; lia).
  assert (∀ s t, 0 ≤ s → s < t < 4 → mask t [hi; mid; lo] ≤ mask s [hi; mid; lo] ↔ mask t [hi'; mid'; lo'] ≤ mask s [hi'; mid'; lo']) as HM.
  { intros s t Hs Ht. rewrite !mask_flop by lia. rewrite S1, S2, S3, Q1, Q2, Q3. unfold h, m.
    clear Q1 Q2 Q3. destruct (Z.eqb_spec (Rank mid) (Rank lo)) as [Q1|Q1], (Z.eqb_spec (Rank hi) (Rank mid)) as [Q2|Q2];
      rewrite ?Q2, ?Q1; change (2 ^ 0) with 1; change (2 ^ 1) with 2; change (2 ^ (1 + 1)) with 4; change (2 ^ (0 + 1)) with 2;
      try (pose proof (pow_double (Rank mid) (Rank lo) ltac:(lia)) as D1);
      try (pose proof (pow_double (Rank hi) (Rank mid) ltac:(lia)) as D2); rewrite ?Q1 in *;
      destruct (Z.eqb_spec (Suit hi) s), (Z.eqb_spec (Suit hi) t), (Z.eqb_spec (Suit mid) s), (Z.eqb_spec (Suit mid) t),
        (Z.eqb_spec (Suit lo) s), (Z.eqb_spec (Suit lo) t); lia. }
  split; intros Q s t Ls Lt Le; apply HM; auto.
Qed.
