(* ===== verification/RawCards.v ===== *)
(** * The constructor of [TypicalCards]

    [ToTypical] always returns, so the constructor lists the raw cards of a street in
    ascending order: every card, or every flop, that is not on the board before, with a
    nonzero number of variants exactly when its suits are in descending order. *)

From stdpp Require Import base list list_numbers numbers option sets.
From S2P Require Import Prelude SBotEval BotGame TypicalCards Canon CanonCode Groups.

Open Scope Z_scope.

(** ** Bytes of the suit groups *)
Lemma sg_get_set sg m v s : 0 ≤ m < 4 → 0 ≤ s < 4 → ∃ sg', sg_set sg m v = Ok sg' ∧
  sg_get sg' s = if s =? m then Ok (u8 v) else sg_get sg s.
Proof.
  intros Hm Hs. unfold sg_set, sg_get.
  rewrite (proj2 (Z.leb_le 0 m)), (proj2 (Z.ltb_lt m 4)), (proj2 (Z.leb_le 0 s)), (proj2 (Z.ltb_lt s 4)) by lia. cbn [andb].
  eexists. split; [reflexivity|].
  assert (0 ≤ u8 v < 2 ^ 8) as Hv by (change (2 ^ 8) with 256; unfold u8; apply Z.mod_pos_bound; lia).
  destruct (Z.eqb_spec s m) as [->|Hne]; f_equal; apply Z.bits_inj'; intros i Hi;
    change 255 with (Z.ones 8); rewrite !Z.land_spec, !Z.shiftr_spec, Z.lor_spec, Z.ldiff_spec, !Z.shiftl_spec by lia;
    rewrite ?(Z.testbit_ones_nonneg 8 i) by lia.
  - replace (i + 8 * m - 8 * m) with i by lia. rewrite Z.testbit_ones_nonneg by lia. destruct (Z.ltb_spec i 8); cbn.
    + by rewrite andb_false_r, andb_true_r.
    + rewrite andb_false_r. symmetry. apply (below_testbit 8); [lia|done|lia].
  - destruct (Z.ltb_spec i 8); [|by rewrite !andb_false_r]. rewrite !andb_true_r.
    destruct (Z.lt_ge_cases s m).
    + rewrite !(Z.testbit_neg_r _ (i + 8 * s - 8 * m)) by lia. by rewrite andb_true_r, orb_false_r.
    + rewrite Z.testbit_ones_nonneg by lia. rewrite (below_testbit 8 ltac:(lia) (u8 v)) by (done || lia).
      rewrite (proj2 (Z.ltb_ge _ _)) by lia. by rewrite andb_true_r, orb_false_r.
Qed.

(** Every byte names a suit. *)
Definition valid_sg (sg : Z) : Prop := ∀ s, 0 ≤ s < 4 → ∃ v, sg_get sg s = Ok v ∧ 0 ≤ v < 4.

Lemma sg_of_valid f : valid_sg (sg_of f).
Proof. intros s Hs. exists (grp f s). split; [by apply sg_get_ok|]. pose proof (grp_le f s Hs). lia. Qed.

Lemma valid_set sg m v : valid_sg sg → 0 ≤ m < 4 → 0 ≤ v < 4 → ∃ sg', sg_set sg m v = Ok sg' ∧ valid_sg sg'.
Proof.
  intros Hv Hm Hr. destruct (sg_get_set sg m v m Hm Hm) as (sg' & E & _). exists sg'. split; [done|].
  intros s Hs. destruct (sg_get_set sg m v s Hm Hs) as (sg'' & E' & G). rewrite E in E'. injection E' as <-. rewrite G.
  destruct (s =? m); [|by apply Hv]. exists (u8 v). split; [done|]. unfold u8. rewrite Z.mod_small; lia.
Qed.

Lemma regroup_ok sg nsg ru : valid_sg sg → valid_sg nsg → length ru = 4%nat →
  ∃ nsg', regroup sg nsg ru = Ok nsg' ∧ valid_sg nsg'.
Proof.
  intros Hsg Hn Hl. unfold regroup.
  apply (for_inv (λ _ nsg, valid_sg nsg)); [done|done|]. intros m nsg1 Hm Hn1.
  match goal with |- context [forR 0 m tt ?b] =>
    destruct (forR_inv (λ _ _, True) (λ n, 0 ≤ n < m) 0 m tt b) as [(u & E & _)|(n & E & Hnm)] end; [lia|done| | |].
  - intros n [] Hn2 _. change NumSuits with 4 in Hm. destruct (Hsg n ltac:(lia)) as (a & Ea & _). destruct (Hsg m ltac:(lia)) as (b & Eb & _).
    rewrite Ea, Eb, !bind_ok, !rd_ok, !bind_ok by lia. destruct (_ && _); [right; by eexists|].
    destruct (Hn1 n ltac:(lia)) as (a' & Ea' & _). destruct (Hn1 m ltac:(lia)) as (b' & Eb' & _).
    rewrite Ea', Eb', !bind_ok. destruct (_ && _); [right|left]; by eexists.
  - rewrite E, bind_ok. change NumSuits with 4 in Hm. by apply valid_set.
  - rewrite E, bind_ok. change NumSuits with 4 in Hm. apply valid_set; [done|lia|lia].
Qed.

(** ** [ToTypical] returns *)
Definition cards_of (n : Z) (l : list Z) : Prop := length l = Z.to_nat n ∧ Forall card l.

Lemma cards_of_write n l i r s : cards_of n l → 0 ≤ i < n → 0 ≤ r < 13 → 0 ≤ s < 4 →
  ∃ l', wr l i (MakeCard r s) = Ok l' ∧ cards_of n l'.
Proof.
  intros [Hl Hc] Hi Hr Hs. rewrite wr_ok by lia. eexists. split; [done|]. split; [by rewrite length_insert|].
  apply Forall_insert; [done|by apply make_card].
Qed.

Lemma cards_of_read n l i : cards_of n l → 0 ≤ i < n → rd l i = Ok (at_ l i) ∧ 0 ≤ Rank (at_ l i) < 13 ∧ 0 ≤ Suit (at_ l i) < 4.
Proof.
  intros [Hl Hc] Hi. split; [apply rd_ok; lia|]. destruct (deck_parts (at_ l i)) as (? & ? & _); [apply at_card; [done|lia]|done].
Qed.

Lemma swap_suits_ok canon i n a b : cards_of n canon → 0 ≤ i < n → 0 ≤ a < 4 → 0 ≤ b < 4 →
  ∃ canon', swap_suits canon i n a b = Ok canon' ∧ cards_of n canon'.
Proof.
  intros Hc Hi Ha Hb. unfold swap_suits. apply (for_inv (λ _ c, cards_of n c)); [lia|done|].
  intros j c Hj Hj'. destruct (cards_of_read n c j) as (-> & Hr & _); [done|lia|]. rewrite bind_ok.
  destruct (_ =? a); [apply cards_of_write; done || lia|].
  destruct (_ =? b); [apply cards_of_write; done || lia|by eexists].
Qed.

Lemma ToTypical2_ok n cards sg : 0 < n → cards_of n cards → valid_sg sg →
  ∃ b canon, ToTypical2 cards n sg = Ok (b, canon) ∧ cards_of n canon.
Proof.
  intros Hn Hc Hsg. unfold ToTypical2. rewrite (proj2 (Z.leb_gt n 0)) by lia.
  assert (for_ 0 n [] (λ i canon, c ← rd cards i; Ok (canon ++ [c])) = Ok cards) as ->.
  { match goal with |- for_ _ _ _ ?b = _ => destruct (for_inv (λ i l, l = take (Z.to_nat i) cards) 0 n [] b) as (l & E & Hl) end; [lia|done| |].
    - intros i l Hi ->. destruct (cards_of_read n cards i Hc Hi) as [-> _]. rewrite bind_ok. eexists. split; [done|].
      replace (Z.to_nat (i + 1)) with (S (Z.to_nat i)) by lia. symmetry. apply take_S_r. destruct Hc as [Hl _].
      unfold at_. apply list_lookup_lookup_total_lt. lia.
    - rewrite E, Hl. destruct Hc as [<- _]. by rewrite firstn_all. }
  rewrite bind_ok.
  match goal with |- context [for_ 0 n ?s ?b] =>
    destruct (for_inv (λ _ '(canon, nsg, ru, _), cards_of n canon ∧ valid_sg nsg ∧ length (ru : list Z) = 4%nat) 0 n s b)
      as ([[[canon nsg] ru] ch] & E & Hcn & _) end; [lia|done| |by rewrite E, bind_ok; eauto].
  intros i [[[canon nsg] ru] ch] Hi (Hcn & Hv & Hl). destruct (cards_of_read n canon i Hcn Hi) as (-> & Hr & Hs). rewrite bind_ok.
  destruct (Hv _ Hs) as (t & -> & Ht). rewrite bind_ok, (rd_ok ru t), bind_ok, (wr_ok ru t), bind_ok by lia.
  set (ru' := <[Z.to_nat t := _]> ru). assert (length ru' = 4%nat) as Hl' by (unfold ru'; by rewrite length_insert).
  match goal with |- context [if negb ?b then ?x else ?y] =>
    assert (∃ canon' ch', (if negb b then x else y) = Ok (canon', ch') ∧ cards_of n canon') as (canon' & ch' & -> & Hcn') end.
  { destruct (negb _); [|by eexists _, _]. destruct (cards_of_write n canon i (Rank (at_ canon i)) t) as (c1 & -> & H1); [done..|]. rewrite bind_ok.
    destruct (swap_suits_ok c1 i n (Suit (at_ canon i)) t) as (c2 & -> & H2); [done..|]. by eexists _, _. }
  rewrite bind_ok. destruct (regroup_ok sg nsg ru') as (nsg' & -> & Hv'); [done..|]. rewrite bind_ok. by eexists.
Qed.

Lemma ToTypical_ok n cards sg : 1 ≤ n ≤ 3 → cards_of n cards → valid_sg sg → ∃ canon, ToTypical cards n sg = Ok canon.
Proof.
  intros Hn Hc Hsg. destruct (ToTypical2_ok n cards sg) as (b & canon & E & Hl & _); [lia|done..|].
  unfold ToTypical. rewrite E, bind_ok. destruct (negb b); [by eexists|].
  assert (n = 1 ∨ n = 2 ∨ n = 3) as En by lia. destruct_or! En; subst n; cbn [Z.eqb Pos.eqb]; [by eexists|..].
  - destruct canon as [|c0 [|c1 [|]]]; try done. rewrite rd0, rd1, !bind_ok. destruct (_ <? _); [|by eexists].
    rewrite wr0, bind_ok, wr1. by eexists.
  - destruct canon as [|c0 [|c1 [|c2 [|]]]]; try done. rewrite rd0, rd1, rd2, !bind_ok. repeat case_match; rewrite ?wr0, ?wr1, ?wr2, ?bind_ok, ?wr0, ?wr1, ?wr2, ?bind_ok, ?wr2; by eexists.
Qed.

(** ** The raw cards of a street *)
Lemma InCards_ok c l : InCards c l (Z.of_nat (length l)) = Ok (bool_decide (c ∈ l)).
Proof.
  unfold InCards.
  match goal with |- context [forR _ _ _ ?b] =>
    destruct (forR_inv (λ i _, c ∉ take (Z.to_nat i) l) (λ r, r = true ∧ c ∈ l) 0 (Z.of_nat (length l)) tt b)
      as [(u & E & P)|(r & E & -> & P)] end; [lia|cbn; set_solver| | |].
  - intros i [] Hi P. rewrite rd_ok, bind_ok by lia. destruct (Z.eqb_spec c (at_ l i)) as [->|Hne].
    + right. exists true. split; [done|]. split; [done|]. unfold at_. apply list_elem_of_lookup_total_2. lia.
    + left. eexists. split; [done|]. replace (Z.to_nat (i + 1)) with (S (Z.to_nat i)) by lia.
      rewrite (take_S_r _ _ (at_ l i)) by (unfold at_; apply list_lookup_lookup_total_lt; lia).
      by rewrite not_elem_of_app, list_elem_of_singleton.
  - rewrite E, bind_ok. rewrite Nat2Z.id, firstn_all in P. by rewrite bool_decide_eq_false_2.
  - rewrite E, bind_ok. by rewrite bool_decide_eq_true_2.
Qed.

Lemma foldM_concat {A B S} (body : B → S → res S) (f : A → list B) l s :
  foldM body (l ≫= f) s = foldM (λ x s, foldM body (f x) s) l s.
Proof.
  revert s. induction l as [|x l IH]; intros s; [done|]. rewrite bind_cons, foldM_app. cbn. destruct (foldM body (f x) s); [|done]. apply IH.
Qed.

Lemma foldM_map {A B S} (body : B → S → res S) (f : A → B) l s : foldM body (f <$> l) s = foldM (λ x s, body (f x) s) l s.
Proof. revert s. induction l as [|x l IH]; intros s; [done|]. cbn. destruct (body (f x) s); [apply IH|done]. Qed.

Lemma foldM_filter {A S} (P : A → Prop) `{!∀ x, Decision (P x)} (body : A → S → res S) l s :
  foldM (λ x s, if decide (P x) then body x s else Ok s) l s = foldM body (filter P l) s.
Proof.
  revert s. induction l as [|x l IH]; intros s; [done|]. rewrite filter_cons. cbn. destruct (decide (P x)); cbn; [|apply IH].
  destruct (body x s); [apply IH|done].
Qed.

(** All of them: one card not in [previous], or a flop. *)
Definition flops : list (list Z) := hi ← seqZ 2 50; mid ← seqZ 1 (hi - 1); (λ lo, [hi; mid; lo]) <$> seqZ 0 mid.
Definition next_deals (st : Z) (previous : list Z) : list (list Z) :=
  if st =? 1 then flops else (λ c, [c]) <$> filter (.∉ previous) (seqZ 0 52).

Lemma length_concat {A B} (f : A → list B) l :
  Z.of_nat (length (l ≫= f)) = foldr (λ x a, Z.of_nat (length (f x)) + a) 0 l.
Proof. induction l as [|x l IH]; [done|]. rewrite bind_cons, length_app, Nat2Z.inj_add, IH. done. Qed.

Lemma foldr_ext {A} (f g : A → Z → Z) l : (∀ x a, x ∈ l → f x a = g x a) → foldr f 0 l = foldr g 0 l.
Proof. induction l as [|x l IH]; intros H; [done|]. cbn. rewrite IH by set_solver. apply H. set_solver. Qed.

Lemma flops_length : Z.of_nat (length flops) = 22100.
Proof.
  unfold flops. rewrite length_concat.
  transitivity (foldr (λ hi a, foldr Z.add 0 (seqZ 1 (hi - 1)) + a) 0 (seqZ 2 50)); [|by vm_compute].
  apply foldr_ext. intros hi a Hhi. f_equal. rewrite length_concat. apply foldr_ext. intros mid b Hm%elem_of_seqZ.
  rewrite length_fmap, length_seqZ. lia.
Qed.

Lemma flops_elem cs : cs ∈ flops ↔ ∃ hi mid lo, cs = [hi; mid; lo] ∧ 0 ≤ lo < mid ∧ mid < hi < 52.
Proof.
  unfold flops. split.
  - intros (hi & Hin & H1%elem_of_seqZ)%list_elem_of_bind. apply list_elem_of_bind in Hin as (mid & Hin & H2%elem_of_seqZ).
    apply list_elem_of_fmap in Hin as (lo & -> & H3%elem_of_seqZ). exists hi, mid, lo. split; [done|lia].
  - intros (hi & mid & lo & -> & ? & ?). apply list_elem_of_bind. exists hi. split; [|apply elem_of_seqZ; lia].
    apply list_elem_of_bind. exists mid. split; [|apply elem_of_seqZ; lia]. apply list_elem_of_fmap. exists lo.
    split; [done|apply elem_of_seqZ; lia].
Qed.

Lemma next_deals_length st previous : 1 ≤ st ≤ 3 → NoDup previous → Forall card previous →
  Z.of_nat (length previous) = board_size (st - 1) →
  Z.of_nat (length (next_deals st previous)) = if st =? 1 then 22100 else 52 - board_size (st - 1).
Proof.
  intros Hst Hn Hc Hl. unfold next_deals. destruct (Z.eqb_spec st 1); [apply flops_length|]. rewrite length_fmap, <- Hl.
  assert (seqZ 0 52 ≡ₚ previous ++ filter (.∉ previous) (seqZ 0 52)) as Hp.
  { apply NoDup_Permutation; [apply NoDup_seqZ| |].
    - apply NoDup_app. split; [done|]. split; [|apply NoDup_filter, NoDup_seqZ]. intros x Hx. rewrite list_elem_of_filter. tauto.
    - intros x. rewrite elem_of_app, list_elem_of_filter, elem_of_seqZ. rewrite Forall_forall in Hc. unfold card in Hc.
      destruct (decide (x ∈ previous)) as [Hx|]; [specialize (Hc x Hx); split; [by left|intros _; lia]|tauto]. }
  apply Permutation_length in Hp. rewrite length_app, length_seqZ in Hp. lia.
Qed.

(** ** The constructor *)

(** The number of deals that cards stand for. *)
Definition variants (f : Z → Z) (cs : list Z) : Z :=
  match NumMappings cs (Z.of_nat (length cs)) (sg_of f) with Ok k => k | Err _ => 0 end.

(** The cards that can follow suits with the codes [f]. *)
Definition deals_ok (f : Z → Z) (k : Z) (cs : list Z) : Prop :=
  cards_of k cs ∧ ∃ v, NumMappings cs k (sg_of f) = Ok v ∧ 0 ≤ v < 256 ∧ (v ≠ 0 ↔ ordered f cs).

Lemma variants_ok f k cs : 0 ≤ k → deals_ok f k cs →
  NumMappings cs k (sg_of f) = Ok (variants f cs) ∧ 0 ≤ variants f cs < 256 ∧ (variants f cs ≠ 0 ↔ ordered f cs).
Proof.
  intros Hk ((Hl & _) & v & E & Hv & Ho). unfold variants. replace (Z.of_nat (length cs)) with k by lia. rewrite E. done.
Qed.

Lemma next_deals_ok st previous f cs : 1 ≤ st ≤ 3 → (st = 1 → ∀ s, f s = 0) → cs ∈ next_deals st previous →
  deals_ok f (cards_on st) cs.
Proof.
  intros Hst Hf Hin. unfold next_deals in Hin. destruct (Z.eqb_spec st 1) as [->|Hne].
  - apply flops_elem in Hin as (hi & mid & lo & -> & H1 & H2). split.
    + split; [done|]. rewrite !Forall_cons, Forall_nil. unfold card. lia.
    + destruct (NumMappings_flop hi mid lo H1 H2) as (v & E & Hv & Ho). exists v.
      replace (sg_of f) with 0 by (unfold sg_of, grp; by rewrite !Hf). split; [done|]. split; [done|]. rewrite Ho.
      unfold ordered. split; intros H s t Hs Ht _; apply H; try done. by rewrite !Hf.
  - apply list_elem_of_fmap in Hin as (c & -> & Hc). apply list_elem_of_filter in Hc as [_ Hc%elem_of_seqZ].
    assert (card c) as Hcc by (unfold card; lia). assert (cards_on st = 1) as ->.
    { assert (st = 2 ∨ st = 3) as E by lia. by destruct_or! E; subst st. }
    split; [split; [done|by rewrite Forall_singleton]|]. by apply NumMappings_one.
Qed.

Definition typical (k : Z) (f : Z → Z) (L : list (list Z)) (canons : list Z) : TypicalCards :=
  mkTypical k L (variants f <$> L) canons (Z.of_nat (length L))
    (Z.of_nat (length (filter (λ cs, variants f cs ≠ 0) L))) (Some ((λ cs, sg_of (next_code f cs)) <$> L)).

Lemma put_ok {A} n (l : list A) v : Z.of_nat (length l) < n → put n l v = Ok (l ++ [v]).
Proof. intros H. unfold put. by rewrite (proj2 (Z.ltb_lt _ _)) by lia. Qed.

Lemma add_raw_ok g k f n narrow L cs canons : 1 ≤ k ≤ 3 → deals_ok f k cs → length canons = length L →
  Z.of_nat (length L) < n →
  ∃ c, add_raw g k (sg_of f) n narrow cs (typical k f L canons) = Ok (typical k f (L ++ [cs]) (canons ++ [c])).
Proof.
  intros Hk Hd Hl Hn. destruct (variants_ok f k cs ltac:(lia) Hd) as (E & Hv & Ho). destruct Hd as [Hcs _].
  unfold add_raw, typical. cbn [cards_ num_variants_ canon_ num_raw_ num_canon_ TypicalCards.suit_groups_].
  rewrite put_ok, bind_ok, E, bind_ok by done. rewrite (put_ok n (variants f <$> L)), bind_ok by (by rewrite length_fmap).
  replace (u8 (variants f cs)) with (variants f cs) by (unfold u8; rewrite Z.mod_small; lia).
  match goal with |- context [if variants f cs =? 0 then ?x else ?y] =>
    assert (∃ e, (if variants f cs =? 0 then x else y) =
      Ok (e, Z.of_nat (length (filter (λ cs, variants f cs ≠ 0) (L ++ [cs]))))) as (e & ->) end.
  { rewrite filter_app, filter_cons, filter_nil, length_app. destruct (Z.eqb_spec (variants f cs) 0) as [Ev|Ev].
    - destruct (ToTypical_ok k cs (sg_of f) Hk Hcs (sg_of_valid f)) as (canon & ->). rewrite bind_ok. eexists.
      rewrite decide_False by (intros H; by apply H). do 2 f_equal. cbn [length]. lia.
    - eexists. rewrite decide_True by done. do 2 f_equal. cbn [length]. lia. }
  rewrite bind_ok, (put_ok n canons), bind_ok by lia. destruct Hcs as [Hlc Hcs].
  assert (UpdateSuitGroups cs k (sg_of f) = Ok (sg_of (next_code f cs))) as ->.
  { replace k with (Z.of_nat (length cs)) by lia. by apply UpdateSuitGroups_ok. }
  rewrite bind_ok.
  rewrite put_ok, !bind_ok by (by rewrite length_fmap). eexists. f_equal. rewrite !fmap_app, length_app. cbn [length].
  f_equal. lia.
Qed.

Lemma raws_ok g k f n narrow : 1 ≤ k ≤ 3 → ∀ L L0 canons, (∀ cs, cs ∈ L → deals_ok f k cs) →
  length canons = length L0 → Z.of_nat (length L0) + Z.of_nat (length L) ≤ n →
  ∃ canons', foldM (add_raw g k (sg_of f) n narrow) L (typical k f L0 canons) = Ok (typical k f (L0 ++ L) canons') ∧
    length canons' = length (L0 ++ L).
Proof.
  intros Hk L. induction L as [|cs L IH]; intros L0 canons Hd Hl Hn.
  - exists canons. by rewrite app_nil_r.
  - cbn [length] in Hn. destruct (add_raw_ok g k f n narrow L0 cs canons) as (c & E); [done|apply Hd, elem_of_cons; by left|done|lia|].
    cbn [foldM]. rewrite E, bind_ok. destruct (IH (L0 ++ [cs]) (canons ++ [c])) as (canons' & E' & Hl').
    + intros cs2 H. apply Hd, elem_of_cons. by right.
    + rewrite !length_app. cbn [length]. lia.
    + rewrite length_app. cbn [length]. lia.
    + exists canons'. rewrite E', Hl', <- app_assoc. done.
Qed.

Lemma unless_in_ok {S} previous (k : S → res S) c s :
  unless_in previous (Z.of_nat (length previous)) c s (k s) = if decide (c ∉ previous) then k s else Ok s.
Proof. unfold unless_in. rewrite InCards_ok, bind_ok. case_decide; case_bool_decide; tauto || done. Qed.

Lemma TypicalCards_new_ok g st previous f : holdem g → 1 ≤ st ≤ 3 → NoDup previous → Forall card previous →
  Z.of_nat (length previous) = board_size (st - 1) → (st = 1 → ∀ s, f s = 0) →
  ∃ canons, TypicalCards_new g (cards_on st) previous (board_size (st - 1)) (sg_of f) true =
    Ok (typical (cards_on st) f (next_deals st previous) canons).
Proof.
  intros Hg Hst Hn Hc Hl Hf. pose proof (next_deals_length st previous Hst Hn Hc Hl) as HL.
  destruct Hg as [_ HR HS HD _ _ _]. unfold TypicalCards_new, MaxCard, NumCardsInDeck. rewrite HD.
  set (k := cards_on st). set (n := if st =? 1 then 22100 else 52 - board_size (st - 1)) in HL.
  match goal with |- context [if k =? 1 then ?x else ?y] => assert ((if k =? 1 then x else y) = Ok n) as -> end.
  { unfold k, n. assert (st = 1 ∨ st = 2 ∨ st = 3) as E by lia. by destruct_or! E; subst st. }
  rewrite bind_ok. destruct (raws_ok g k f n (negb (st =? 1)) ltac:(by apply cards_on_range; lia) (next_deals st previous) [] []) as (canons & E & _).
  { intros cs. by apply next_deals_ok. }
  { done. }
  { cbn [length]. lia. }
  exists canons. change (mkTypical k [] [] [] 0 0 (Some [])) with (typical k f [] []).
  assert (raw_cards g k previous (board_size (st - 1)) (sg_of f) n (typical k f [] []) = Ok (typical k f (next_deals st previous) canons)) as ->.
  { unfold raw_cards, MaxCard. rewrite HR, HS. cbn [app] in E. rewrite <- E. unfold next_deals.
    destruct (Z.eqb_spec st 1) as [->|Hne].
    - assert (previous = []) as -> by (by destruct previous). change k with 3. cbn [Z.eqb Pos.eqb negb]. unfold flops.
      rewrite foldM_concat. apply for_ext. intros hi t Hhi. unfold unless_in at 1. change (InCards hi [] _) with (@Ok bool false). rewrite bind_ok.
      rewrite foldM_concat. apply for_ext. intros mid t' Hmid. unfold unless_in at 1. change (InCards mid [] _) with (@Ok bool false). rewrite bind_ok.
      rewrite foldM_map. unfold for_. rewrite Z.sub_0_r. apply foldM_ext. intros lo t2 Hlo. unfold unless_in. done.
    - assert (k = 1) as -> by (unfold k; assert (st = 2 ∨ st = 3) as E2 by lia; by destruct_or! E2; subst st).
      cbn [Z.eqb negb]. rewrite foldM_map, <- foldM_filter. apply for_ext. intros c t _. rewrite <- Hl.
      apply (unless_in_ok previous (add_raw g 1 (sg_of f) n true [c])). }
  rewrite bind_ok. cbn [typical num_raw_]. by rewrite HL, Z.eqb_refl.
Qed.
