(* ===== verification/Boards.v ===== *)
(** * The tree of deals

    [below d D] are the deals with [d] more streets than [D] that [PCardTree] keeps, in
    its order: on every street the cards are in descending order of ranks over
    exchangeable suits.  They are exactly the deals in which the codes of the suits
    descend, so each class of isomorphic boards has its normal form among them. *)

From stdpp Require Import base list list_numbers numbers option sets sorting.
From S2P Require Import Prelude SBotEval BotGame TypicalCards Canon CanonCode Groups RawCards.

Open Scope Z_scope.

Definition codes (D : list (list Z)) (s : Z) : Z := deal_code s D.

Lemma sg_of_ext f f' : (∀ s, f s = f' s) → sg_of f = sg_of f'.
Proof. intros E. unfold sg_of, grp. by rewrite !E. Qed.

Lemma sg_next D cs : sg_of (next_code (codes D) cs) = sg_of (codes (D ++ [cs])).
Proof. apply sg_of_ext. intros s. unfold codes, next_code. by rewrite deal_code_snoc. Qed.

Lemma length_concat_sum (D : list (list Z)) : length (concat D) = sum_list (length <$> D).
Proof. induction D as [|cs D IH]; [done|]. cbn. by rewrite length_app, IH. Qed.

(** A board under way: [street D] is the street of its last cards. *)
Definition street (D : list (list Z)) : Z := Z.of_nat (length D).
Record node (D : list (list Z)) : Prop := {
  nd_streets : length <$> D = take (length D) [3; 1; 1]%nat;
  nd_nodup : NoDup (concat D);
  nd_card : Forall card (concat D) }.

Lemma node_nil : node [].
Proof. split; [done|constructor|constructor]. Qed.

Lemma node_street D : node D → 0 ≤ street D ≤ 3.
Proof.
  intros [HD _ _]. apply (f_equal length) in HD. rewrite length_fmap, length_take in HD. cbn [length] in HD. unfold street. lia.
Qed.

Lemma node_size D : node D → Z.of_nat (length (concat D)) = board_size (street D).
Proof.
  intros HD. pose proof (node_street D HD). rewrite length_concat_sum, (nd_streets _ HD). unfold street in *.
  assert (length D = 0 ∨ length D = 1 ∨ length D = 2 ∨ length D = 3)%nat as E by lia. by destruct_or! E; rewrite E.
Qed.

Lemma node_app D R : node (D ++ R) → node D.
Proof.
  intros [H1 H2 H3]. rewrite concat_app in H2, H3. split.
  - apply (f_equal (take (length D))) in H1. rewrite fmap_app, take_app_length', take_take in H1 by (by rewrite length_fmap).
    rewrite H1, length_app. f_equal. lia.
  - by apply NoDup_app in H2 as [H2 _].
  - by apply Forall_app in H3 as [H3 _].
Qed.

Lemma street_snoc D cs : street (D ++ [cs]) = street D + 1.
Proof. unfold street. rewrite length_app. cbn [length]. lia. Qed.

Lemma concat_snoc (D : list (list Z)) cs : concat (D ++ [cs]) = concat D ++ cs.
Proof. rewrite concat_app. cbn. by rewrite app_nil_r. Qed.

(** The cards of the next street, and those that are kept. *)
Definition nexts (D : list (list Z)) : list (list Z) := next_deals (street D + 1) (concat D).
Definition kept (D : list (list Z)) : list (list Z) := filter (λ cs, variants (codes D) cs ≠ 0) (nexts D).

Fixpoint below (d : nat) (D : list (list Z)) : list (list (list Z)) :=
  match d with O => [D] | S d => cs ← kept D; below d (D ++ [cs]) end.

Lemma codes_root D : street D = 0 → ∀ s, codes D s = 0.
Proof. unfold street. intros H s. by destruct D. Qed.

(** What the cards of the next street are. *)
Definition descends (cs : list Z) : Prop := StronglySorted Z.gt cs.
Lemma nexts_elem D cs : node D → street D < 3 →
  cs ∈ nexts D ↔ Z.of_nat (length cs) = cards_on (street D + 1) ∧ descends cs ∧ Forall card cs ∧ (∀ c, c ∈ cs → c ∉ concat D).
Proof.
  intros HD Hs. unfold nexts, next_deals. destruct (Z.eqb_spec (street D + 1) 1) as [E|E].
  - rewrite E, flops_elem. assert (concat D = []) as ->.
    { pose proof (node_size _ HD) as Hl. replace (street D) with 0 in Hl by lia. change (board_size 0) with 0 in Hl. destruct (concat D); [done|cbn in Hl; lia]. }
    change (cards_on 1) with 3. split.
    + intros (hi & mid & lo & -> & H1 & H2). split; [done|]. split; [|split].
      * repeat constructor; lia.
      * rewrite !Forall_cons, Forall_nil. unfold card. lia.
      * intros c _. apply not_elem_of_nil.
    + intros (Hl & Hd & Hc & _). destruct cs as [|hi [|mid [|lo [|]]]]; cbn in Hl; try lia. exists hi, mid, lo.
      unfold descends in Hd. rewrite !Forall_cons in Hc. unfold card in Hc.
      apply StronglySorted_inv in Hd as [Hd H1]. apply StronglySorted_inv in Hd as [Hd H2].
      rewrite !Forall_cons in H1, H2. split; [done|lia].
  - assert (cards_on (street D + 1) = 1) as ->.
    { assert (0 ≤ street D) by (unfold street; lia). assert (street D = 1 ∨ street D = 2) as E2 by lia. by destruct E2 as [-> | ->]. }
    rewrite list_elem_of_fmap. setoid_rewrite list_elem_of_filter. setoid_rewrite elem_of_seqZ. split.
    + intros (c & -> & Hn & Hc). split; [done|]. split; [repeat constructor|]. split; [rewrite Forall_singleton; unfold card; lia|].
      intros c' ->%list_elem_of_singleton. done.
    + intros (Hl & _ & Hc & Hn). destruct cs as [|c [|]]; cbn in Hl; try lia. exists c. rewrite Forall_singleton in Hc. unfold card in Hc.
      split; [done|]. split; [apply Hn; by apply list_elem_of_singleton|lia].
Qed.

Lemma descends_nodup cs : descends cs → NoDup cs.
Proof.
  induction 1 as [|x l _ IH H]; [constructor|]. constructor; [|done]. intros Hx. rewrite Forall_forall in H. specialize (H x Hx). lia.
Qed.

Lemma nexts_node D cs : node D → street D < 3 → cs ∈ nexts D ↔
  node (D ++ [cs]) ∧ descends cs.
Proof.
  intros HD Hs. pose proof (node_street D HD) as H0. rewrite nexts_elem by done.
  assert (take (length D + 1) [3; 1; 1]%nat = take (length D) [3; 1; 1]%nat ++ [Z.to_nat (cards_on (street D + 1))]) as Ht.
  { unfold street in *. assert (length D = 0 ∨ length D = 1 ∨ length D = 2)%nat as E by lia. by destruct_or! E; rewrite E. }
  pose proof (cards_on_range (street D + 1) ltac:(lia)). split.
  - intros (Hl & Hd & Hc & Hn). split; [|done]. split; rewrite ?concat_snoc.
    + rewrite fmap_app, length_app, (nd_streets _ HD). change (length [cs]) with 1%nat. rewrite Ht. cbn. do 2 f_equal. lia.
    + apply NoDup_app. split; [apply (nd_nodup _ HD)|]. split; [|by apply descends_nodup]. intros x Hx Hx'. by apply (Hn x).
    + apply Forall_app. split; [apply (nd_card _ HD)|done].
  - intros [[H1 H2 H3] Hd]. rewrite concat_snoc in H2, H3. rewrite fmap_app, length_app, (nd_streets _ HD) in H1. change (length [cs]) with 1%nat in H1. rewrite Ht in H1.
    apply app_inv_head in H1. injection H1 as H1. apply NoDup_app in H2 as (_ & H2 & _). apply Forall_app in H3 as [_ H3].
    split; [lia|]. split; [done|]. split; [done|]. intros c Hc Hc'. by apply (H2 c).
Qed.

Lemma nexts_ok D cs : node D → street D < 3 → cs ∈ nexts D → deals_ok (codes D) (cards_on (street D + 1)) cs.
Proof.
  intros HD Hs Hin. assert (0 ≤ street D) by (unfold street; lia). apply (next_deals_ok _ (concat D)); [lia| |done]. intros E. apply codes_root. lia.
Qed.

Lemma kept_elem D cs : node D → street D < 3 → cs ∈ kept D ↔ cs ∈ nexts D ∧ ordered (codes D) cs.
Proof.
  intros HD Hs. assert (0 ≤ street D) by (unfold street; lia). unfold kept. rewrite list_elem_of_filter.
  pose proof (cards_on_range (street D + 1) ltac:(lia)).
  assert (cs ∈ nexts D → variants (codes D) cs ≠ 0 ↔ ordered (codes D) cs) as Ho.
  { intros Hin. destruct (variants_ok (codes D) (cards_on (street D + 1)) cs) as (_ & _ & Ho); [lia|by apply nexts_ok|done]. }
  tauto.
Qed.

(** ** Membership: the codes of the suits descend *)
Definition descending (D : list (list Z)) : Prop := ∀ s t, 0 ≤ s → s < t < 4 → codes D t ≤ codes D s.

Lemma descending_snoc D cs : Forall card cs → descending (D ++ [cs]) ↔ descending D ∧ ordered (codes D) cs.
Proof.
  intros Hc. unfold descending, ordered, codes. setoid_rewrite deal_code_snoc. split.
  - intros H. split; intros s t Hs Ht; specialize (H s t Hs Ht); pose proof (mask_range s cs Hc); pose proof (mask_range t cs Hc); lia.
  - intros [H1 H2] s t Hs Ht. specialize (H1 s t Hs Ht). specialize (H2 s t Hs Ht).
    pose proof (mask_range s cs Hc). pose proof (mask_range t cs Hc). lia.
Qed.

Lemma descending_app D R : node (D ++ R) → descending (D ++ R) → descending D.
Proof.
  intros HE Hde. assert (valid_deal (D ++ R)) as Hv by (apply Forall_concat_inv, (nd_card _ HE)). clear HE.
  induction R as [|x R IH] using rev_ind; [by rewrite app_nil_r in Hde|]. rewrite app_assoc in *.
  apply Forall_app in Hv as [Hv Hx]. rewrite Forall_singleton in Hx. apply descending_snoc in Hde as [Hde _]; [by apply IH|done].
Qed.

(** [E] has [d] more streets than [D], each in order, with the codes descending. *)
Lemma below_elem d D E : node D → descending D → street D + Z.of_nat d ≤ 3 →
  E ∈ below d D ↔ ∃ R, length R = d ∧ E = D ++ R ∧ node E ∧ Forall descends R ∧ descending E.
Proof.
  revert D. induction d as [|d IH]; intros D HD Hdesc Hd; cbn [below].
  - rewrite list_elem_of_singleton. split.
    + intros ->. exists []. by rewrite app_nil_r.
    + intros (R & HR & -> & _). destruct R; [|done]. by rewrite app_nil_r.
  - rewrite list_elem_of_bind. split.
    + intros (cs & HE & Hk). apply kept_elem in Hk as [Hin Ho]; [|done|lia].
      apply nexts_node in Hin as [HD' Hdc]; [|done|lia]. pose proof (nd_card _ HD') as Hc. rewrite concat_snoc in Hc. apply Forall_app in Hc as [_ Hc].
      apply IH in HE as (R & HR & -> & HE & HF & Hde); [|done|by apply descending_snoc|rewrite street_snoc; lia].
      exists (cs :: R). rewrite <- app_assoc in *. cbn [length]. split; [by rewrite HR|]. split; [done|]. split; [done|]. split; [by constructor|done].
    + intros (R & HR & -> & HE & HF & Hde). destruct R as [|cs R]; [done|]. injection HR as HR. apply Forall_cons_1 in HF as [Hdc HF].
      replace (D ++ cs :: R) with ((D ++ [cs]) ++ R) in * by (by rewrite <- app_assoc). pose proof (node_app _ _ HE) as HD'.
      pose proof (descending_app _ _ HE Hde) as Hd1.
      pose proof (nd_card _ HD') as Hc. rewrite concat_snoc in Hc. apply Forall_app in Hc as [_ Hc].
      exists cs. split.
      * apply IH; [done|done|rewrite street_snoc; lia|]. by exists R.
      * apply kept_elem; [done|lia|]. split; [apply nexts_node; [done|lia|done]|]. by apply descending_snoc in Hd1 as [_ ?].
Qed.

Lemma below_root d E : Z.of_nat d ≤ 3 →
  E ∈ below d [] ↔ length E = d ∧ node E ∧ Forall descends E ∧ descending E.
Proof.
  intros Hd. rewrite below_elem; [|apply node_nil|intros s t _ _; done|change (street []) with 0; lia]. split.
  - intros (R & H1 & -> & H). done.
  - intros (H1 & H). by exists E.
Qed.

(** ** How many there are *)
Fixpoint fan (st : Z) (d : nat) : Z :=
  match d with O => 1 | S d => (if st =? 0 then 22100 else 49) * fan (st + 1) d end.

Lemma fan_pos st d : 0 < fan st d.
Proof. revert st. induction d as [|d IH]; intros st; cbn; [done|]. specialize (IH (st + 1)). destruct (st =? 0); lia. Qed.

Lemma nexts_length D : node D → street D < 3 → Z.of_nat (length (nexts D)) ≤ if street D =? 0 then 22100 else 49.
Proof.
  intros HD Hs. pose proof (node_street D HD). unfold nexts. rewrite next_deals_length; [|lia|apply (nd_nodup _ HD)|apply (nd_card _ HD)|].
  - assert (street D = 0 ∨ street D = 1 ∨ street D = 2) as E by lia. by destruct_or! E; rewrite E.
  - rewrite (node_size D HD). f_equal. lia.
Qed.

Lemma length_concat_le {A B} (f : A → list B) l n : (∀ x, x ∈ l → Z.of_nat (length (f x)) ≤ n) →
  Z.of_nat (length (l ≫= f)) ≤ Z.of_nat (length l) * n.
Proof.
  intros H. rewrite length_concat. induction l as [|x l IH]; [done|]. cbn [foldr length].
  pose proof (H x ltac:(apply elem_of_cons; by left)). pose proof (IH ltac:(intros y Hy; apply H, elem_of_cons; by right)). lia.
Qed.

Lemma below_length d D : node D → street D + Z.of_nat d ≤ 3 → Z.of_nat (length (below d D)) ≤ fan (street D) d.
Proof.
  revert D. induction d as [|d IH]; intros D HD Hd; [done|]. cbn [below fan].
  transitivity (Z.of_nat (length (kept D)) * fan (street D + 1) d).
  - apply length_concat_le. intros cs Hk. apply list_elem_of_filter in Hk as [_ Hin]. apply nexts_node in Hin as [Hn _]; [|done|lia].
    specialize (IH (D ++ [cs]) Hn). rewrite street_snoc in IH. apply IH. lia.
  - apply Z.mul_le_mono_nonneg_r; [pose proof (fan_pos (street D + 1) d); lia|]. etransitivity; [|apply nexts_length; [done|lia]].
    apply inj_le, length_filter.
Qed.

(** The walk meets no deal twice. *)
Lemma NoDup_concat {A B} (f : A → list B) l : NoDup l → (∀ x, x ∈ l → NoDup (f x)) →
  (∀ x y z, x ∈ l → y ∈ l → z ∈ f x → z ∈ f y → x = y) → NoDup (l ≫= f).
Proof.
  induction 1 as [|x l Hx Hl IH]; intros H1 H2; [constructor|]. rewrite bind_cons. apply NoDup_app. split; [apply H1, elem_of_cons; by left|]. split.
  - intros z Hz (y & Hz' & Hy)%list_elem_of_bind. assert (x = y) as -> by (apply (H2 x y z); rewrite ?elem_of_cons; auto). done.
  - apply IH; [intros y Hy; apply H1, elem_of_cons; by right|]. intros y1 y2 z Hy1 Hy2. apply H2; apply elem_of_cons; by right.
Qed.

Lemma nexts_nodup D : NoDup (nexts D).
Proof.
  unfold nexts, next_deals. destruct (_ =? 1).
  - unfold flops. apply NoDup_concat; [apply NoDup_seqZ| |].
    + intros hi _. apply NoDup_concat; [apply NoDup_seqZ|intros mid _; apply NoDup_fmap_2; [by intros ? ? [=]|apply NoDup_seqZ]|].
      intros m1 m2 z _ _ (l1 & -> & _)%list_elem_of_fmap (l2 & [=] & _)%list_elem_of_fmap. done.
    + intros h1 h2 z _ _ Hz1 Hz2. apply list_elem_of_bind in Hz1 as (m1 & (l1 & -> & _)%list_elem_of_fmap & _).
      apply list_elem_of_bind in Hz2 as (m2 & (l2 & [=] & _)%list_elem_of_fmap & _). done.
  - apply NoDup_fmap_2; [by intros ? ? [=]|]. apply NoDup_filter, NoDup_seqZ.
Qed.

Lemma below_prefix d D E : E ∈ below d D → ∃ R, E = D ++ R ∧ length R = d.
Proof.
  revert D. induction d as [|d IH]; intros D; cbn [below].
  - intros ->%list_elem_of_singleton. exists []. by rewrite app_nil_r.
  - intros (cs & (R & -> & HR)%IH & _)%list_elem_of_bind. exists (cs :: R). split; [by rewrite <- app_assoc|]. cbn. by rewrite HR.
Qed.

Lemma below_nodup d D : NoDup (below d D).
Proof.
  revert D. induction d as [|d IH]; intros D; cbn [below]; [apply NoDup_singleton|].
  apply NoDup_concat; [apply NoDup_filter, nexts_nodup|auto|]. intros c1 c2 B _ _ (R1 & -> & _)%below_prefix (R2 & E & _)%below_prefix.
  rewrite <- !app_assoc in E. apply app_inv_head in E. by injection E.
Qed.

(** ** The normal form of a board is in the tree *)
Lemma canon_concat m D : concat (canon_deal m D) ≡ₚ ren (at_ m) <$> concat D.
Proof.
  induction D as [|cs D IH]; [done|]. cbn [canon_deal fmap list_fmap concat]. fold (canon_deal m D).
  by rewrite IH, fmap_app, desc_perm.
Qed.

Lemma strongly_lookup {A} (R : relation A) l i j x y : StronglySorted R l → (i < j)%nat → l !! i = Some x → l !! j = Some y → R x y.
Proof.
  intros Hs. revert i j. induction Hs as [|z l _ IH H]; intros i j Hij Hi Hj; [done|]. destruct j as [|j]; [lia|]. destruct i as [|i].
  - injection Hi as ->. cbn in Hj. rewrite Forall_forall in H. apply H. by eapply list_elem_of_lookup_2.
  - apply (IH i j); [lia|done..].
Qed.

Lemma canon_descending D p m : valid_deal D → sorts D p m → descending (canon_deal m D).
Proof.
  intros HV Hs. pose proof (sorts_renames _ _ _ Hs) as Hm.
  assert (∀ i, 0 ≤ i < 4 → codes (canon_deal m D) i = deal_code (at_ p i) D) as HC.
  { intros i Hi. rewrite <- (so_place _ _ _ Hs i Hi) at 1. unfold codes. apply iso_code; [done..| |by eapply sorts_suit].
    clear. induction D as [|cs D IH]; [constructor|]. constructor; [apply desc_perm|done]. }
  intros s t H0 Ht. rewrite !HC by lia. pose proof (so_desc _ _ _ Hs) as Hd. apply (Sorted_StronglySorted _) in Hd.
  pose proof (Permutation_length (so_perm _ _ _ Hs)) as L. rewrite length_seqZ in L.
  eapply (strongly_lookup ge _ (Z.to_nat s) (Z.to_nat t)) in Hd; [exact Hd|lia|..];
    rewrite list_lookup_fmap, list_lookup_lookup_total_lt by lia; done.
Qed.

Lemma desc_descends cs : NoDup cs → descends (desc cs).
Proof.
  intros Hn. assert (NoDup (desc cs)) as Hn' by (by rewrite desc_perm). pose proof (desc_sorted cs) as Hs.
  apply (Sorted_StronglySorted _) in Hs. revert Hn'. unfold descends.
  induction Hs as [|x l _ IH H]; [constructor|]. intros [Hx Hl]%NoDup_cons. constructor; [auto|].
  rewrite Forall_forall in *. intros y Hy. specialize (H y Hy). unfold ge in H. assert (x ≠ y) by (by intros ->). lia.
Qed.

Lemma streets_concat st board : 1 ≤ st ≤ 3 → board_size st ≤ Z.of_nat (length board) →
  concat (streets st board) = take (Z.to_nat (board_size st)) board.
Proof.
  intros Hst Hl. unfold board_size in *. assert (st = 1 ∨ st = 2 ∨ st = 3) as E by lia.
  assert (at_ [0; 3; 4; 5] 1 = 3 ∧ at_ [0; 3; 4; 5] 2 = 4 ∧ at_ [0; 3; 4; 5] 3 = 5) as (E1 & E2 & E3) by done.
  destruct_or! E; subst st; rewrite ?E1, ?E2, ?E3 in *; destruct board as [|a [|b [|c [|d [|e l]]]]]; cbn in Hl; try lia; done.
Qed.

Lemma canon_in_tree st board hole p m : 1 ≤ st ≤ 3 → deal_ok st board hole →
  sorts (deal_of st board (Some hole)) p m → canon_deal m (streets st board) ∈ below (Z.to_nat st) [].
Proof.
  intros Hst Hd Hs. destruct (deal_ok_valid _ _ _ Hd) as [HV HN]. pose proof (sorts_renames _ _ _ Hs) as Hm.
  pose proof (do_board _ _ _ Hd) as Hl. pose proof (do_cards _ _ _ Hd) as HC. pose proof (do_distinct _ _ _ Hd) as HD.
  unfold deal_of in HC, HD. rewrite concat_app in HC, HD. apply Forall_app in HC as [HC _]. apply NoDup_app in HD as [HD _].
  pose proof (deal_ok_streets _ _ _ Hd) as HVs.
  apply below_root; [lia|]. split; [unfold canon_deal; rewrite length_fmap; apply streets_length; lia|]. split; [|split].
  - split.
    + unfold canon_deal. rewrite <- list_fmap_compose, length_fmap, streets_length by lia.
      transitivity (length <$> streets st board).
      { apply list_fmap_ext. intros i cs _. cbn. by rewrite (Permutation_length (desc_perm _)), length_fmap. }
      unfold board_size in Hl. assert (st = 1 ∨ st = 2 ∨ st = 3) as E by lia.
      assert (at_ [0; 3; 4; 5] 1 = 3 ∧ at_ [0; 3; 4; 5] 2 = 4 ∧ at_ [0; 3; 4; 5] 3 = 5) as (E1 & E2 & E3) by done.
      destruct_or! E; subst st; rewrite ?E1, ?E2, ?E3 in *; destruct board as [|a [|b [|c [|d [|e l]]]]]; cbn in Hl; try lia; done.
    + rewrite canon_concat. apply NoDup_fmap_2_strong; [|done]. intros c d Hc Hd'. rewrite Forall_forall in HC. apply ren_inj; auto.
    + rewrite canon_concat. apply Forall_fmap. eapply Forall_impl; [done|]. intros c. by apply ren_card.
  - unfold canon_deal. apply Forall_fmap. apply Forall_app in HN as [HN _]. apply NoDup_concat_inv in HD. apply Forall_forall. intros cs Hcs.
    rewrite Forall_forall in HD. unfold valid_deal in HVs. rewrite Forall_forall in HVs. specialize (HVs cs Hcs). cbn.
    apply desc_descends. apply NoDup_fmap_2_strong; [|by apply HD]. intros c d Hc Hd'. rewrite Forall_forall in HVs. apply ren_inj; auto.
  - pose proof (canon_descending _ _ _ HV Hs) as Hdd. unfold deal_of, canon_deal in Hdd. rewrite fmap_app in Hdd.
    apply descending_snoc in Hdd as [Hdd _]; [done|]. rewrite desc_perm. apply Forall_fmap.
    apply Forall_app in HV as [_ HV]. rewrite Forall_singleton in HV. eapply Forall_impl; [done|]. intros c. by apply ren_card.
Qed.
