(* ===== verification/BoardCount.v ===== *)
(** * How many boards there are

    The index of a hand is computed in 32 bits, from the number of its board: it is
    exact because the boards of the river are few enough.  The bound here is obtained by
    counting the groups of exchangeable suits of every flop. *)

From stdpp Require Import base list list_numbers numbers option sets sorting.
From S2P Require Import Prelude SBotEval BotGame TypicalCards Canon CanonCode Groups RawCards Boards.

Open Scope Z_scope.

Definition sum_of {A} (f : A → Z) (l : list A) : Z := foldr (λ x a, f x + a) 0 l.

Lemma sum_of_bind {A B} (f : B → Z) (h : A → list B) l : sum_of f (l ≫= h) = sum_of (λ x, sum_of f (h x)) l.
Proof.
  induction l as [|x l IH]; [done|]. rewrite bind_cons. cbn [sum_of foldr]. fold (sum_of f). unfold sum_of in *. rewrite <- IH.
  induction (h x) as [|y k IHk]; [done|]. cbn. rewrite IHk. lia.
Qed.
Lemma sum_of_map {A B} (f : B → Z) (h : A → B) l : sum_of f (h <$> l) = sum_of (λ x, f (h x)) l.
Proof. induction l as [|x l IH]; [done|]. cbn. unfold sum_of in IH. by rewrite IH. Qed.
Lemma sum_of_filter {A} (P : A → Prop) `{!∀ x, Decision (P x)} (f : A → Z) l :
  sum_of f (filter P l) = sum_of (λ x, if decide (P x) then f x else 0) l.
Proof. induction l as [|x l IH]; [done|]. rewrite filter_cons. unfold sum_of in *. cbn. destruct (decide (P x)); cbn; rewrite IH; lia. Qed.
Lemma sum_of_le {A} (f h : A → Z) l : (∀ x, x ∈ l → f x ≤ h x) → sum_of f l ≤ sum_of h l.
Proof.
  intros H. induction l as [|x l IH]; [done|]. unfold sum_of in *. cbn.
  pose proof (H x ltac:(apply elem_of_cons; by left)). pose proof (IH ltac:(intros y Hy; apply H, elem_of_cons; by right)). lia.
Qed.
Lemma sum_of_ext {A} (f h : A → Z) l : (∀ x, x ∈ l → f x = h x) → sum_of f l = sum_of h l.
Proof. intros H. apply Z.le_antisymm; apply sum_of_le; intros x Hx; rewrite H by done; done. Qed.
Lemma sum_of_scale {A} (k : Z) (f : A → Z) l : sum_of (λ x, k * f x) l = k * sum_of f l.
Proof. unfold sum_of. induction l as [|x l IH]; cbn; [lia|]. rewrite IH. lia. Qed.

Lemma below_split a b D : below (a + b) D = below a D ≫= below b.
Proof.
  revert D. induction a as [|a IH]; intros D; cbn [below Nat.add]; [cbn; by rewrite app_nil_r|].
  induction (kept D) as [|cs l IHl]; [done|]. rewrite !bind_cons, bind_app, IHl, IH. done.
Qed.
Lemma below_one D : length (below 1 D) = length (kept D).
Proof. cbn [below]. induction (kept D) as [|cs l IH]; [done|]. rewrite bind_cons, length_app, IH. done. Qed.

(** ** Groups of suits *)
Definition suits_first (f : Z → Z) : list Z := filter (λ s, grp f s = s) [0; 1; 2; 3].
Definition groups (m0 m1 m2 m3 : Z) : Z :=
  1 + (if m0 =? m1 then 0 else 1) + (if m1 =? m2 then 0 else 1) + (if m2 =? m3 then 0 else 1).

Lemma groups_ok f : f 1 ≤ f 0 → f 2 ≤ f 1 → f 3 ≤ f 2 → Z.of_nat (length (suits_first f)) = groups (f 0) (f 1) (f 2) (f 3).
Proof.
  intros H1 H2 H3. unfold suits_first, groups, grp. rewrite !filter_cons, filter_nil, !Z.eqb_refl.
  destruct (Z.eqb_spec (f 0) (f 1)), (Z.eqb_spec (f 1) (f 2)), (Z.eqb_spec (f 2) (f 3)), (Z.eqb_spec (f 0) (f 2)),
    (Z.eqb_spec (f 0) (f 3)), (Z.eqb_spec (f 1) (f 3)); try lia; repeat case_decide; cbn [length]; lia.
Qed.

(** A card is kept only when its suit is the first of its group. *)
Lemma kept_few D : node D → 1 ≤ street D < 3 → Z.of_nat (length (kept D)) ≤ 13 * Z.of_nat (length (suits_first (codes D))).
Proof.
  intros HD Hs.
  set (all := suits_first (codes D) ≫= λ s, (λ r, [MakeCard r s]) <$> seqZ 0 13).
  assert (Z.of_nat (length all) = 13 * Z.of_nat (length (suits_first (codes D)))) as <-.
  { unfold all. generalize (suits_first (codes D)). intros l. induction l as [|s l IH]; [done|].
    rewrite bind_cons, length_app, length_fmap, length_seqZ. change (length (s :: l)) with (S (length l)). lia. }
  apply inj_le, submseteq_length, NoDup_submseteq; [apply NoDup_filter, nexts_nodup|].
  intros cs [Hin Ho]%kept_elem; [|done|lia]. apply nexts_elem in Hin as (Hl & _ & Hc & _); [|done|lia].
  assert (cards_on (street D + 1) = 1) as E by (assert (street D = 1 ∨ street D = 2) as [-> | ->] by lia; done).
  rewrite E in Hl. destruct cs as [|c [|]]; cbn in Hl; try lia. rewrite Forall_singleton in Hc. destruct (deck_parts c Hc) as (Hr & Hsu & Ec).
  apply list_elem_of_bind. exists (Suit c). split.
  - apply list_elem_of_fmap. exists (Rank c). rewrite <- Ec. split; [done|]. apply elem_of_seqZ. lia.
  - apply list_elem_of_filter. split; [|rewrite !elem_of_cons, elem_of_nil; lia].
    pose proof (grp_le (codes D) (Suit c) Hsu) as Hg. destruct (decide (grp (codes D) (Suit c) = Suit c)); [done|]. exfalso.
    pose proof (Ho (grp (codes D) (Suit c)) (Suit c) ltac:(lia) ltac:(lia) (grp_code _ _ Hsu)) as Hm.
    rewrite !mask_one, Z.eqb_refl, (proj2 (Z.eqb_neq _ _)) in Hm by (done || lia).
    pose proof (Z.pow_pos_nonneg 2 (Rank c) ltac:(lia) ltac:(lia)). lia.
Qed.

(** ** All flops *)
Definition flop_mask (hi mid lo s : Z) : Z :=
  (if Suit hi =? s then Z.shiftl 1 (Rank hi) else 0) + (if Suit mid =? s then Z.shiftl 1 (Rank mid) else 0) +
  (if Suit lo =? s then Z.shiftl 1 (Rank lo) else 0).
Definition flop_groups (hi mid lo : Z) : Z :=
  let m0 := flop_mask hi mid lo 0 in let m1 := flop_mask hi mid lo 1 in
  if m0 <? m1 then 0 else
  let m2 := flop_mask hi mid lo 2 in
  if m1 <? m2 then 0 else
  let m3 := flop_mask hi mid lo 3 in
  if m2 <? m3 then 0 else groups m0 m1 m2 m3.

Lemma flop_groups_total :
  sum_of (λ hi, sum_of (λ mid, sum_of (flop_groups hi mid) (seqZ 0 mid)) (seqZ 1 (hi - 1))) (seqZ 2 50) = 5252.
Proof. vm_compute. reflexivity. Qed.

Lemma flop_few hi mid lo : 0 ≤ lo < mid → mid < hi < 52 →
  (if decide (variants (codes []) [hi; mid; lo] ≠ 0) then Z.of_nat (length (kept [[hi; mid; lo]])) else 0) ≤ 13 * flop_groups hi mid lo.
Proof.
  intros H1 H2. set (F := [hi; mid; lo]).
  assert (F ∈ nexts []) as Hin by (apply flops_elem; by exists hi, mid, lo).
  assert (0 ≤ flop_groups hi mid lo) as H0.
  { unfold flop_groups, groups. cbv zeta. repeat case_match; lia. }
  case_decide as Hv; [|lia].
  assert (F ∈ kept []) as Hk by (by apply list_elem_of_filter). apply kept_elem in Hk as [_ Ho]; [|apply node_nil|done].
  assert (node [F]) as HF by (by apply (nexts_node [] F node_nil)).
  etransitivity; [apply kept_few; [done|done]|]. apply Z.mul_le_mono_nonneg_l; [lia|].
  assert (∀ s, 0 ≤ s < 4 → codes [F] s = flop_mask hi mid lo s) as HC.
  { intros s Hs. unfold codes, deal_code. cbn [fold_left]. rewrite Z.mul_0_l, Z.add_0_l. unfold F. rewrite mask_flop by done.
    unfold flop_mask. by rewrite !Z.shiftl_1_l. }
  assert (∀ s, 0 ≤ s < 3 → codes [F] (s + 1) ≤ codes [F] s) as Hd.
  { intros s Hs. unfold codes, deal_code. cbn [fold_left]. rewrite !Z.mul_0_l, !Z.add_0_l. apply Ho; [lia|lia|done]. }
  rewrite groups_ok by (apply (Hd 0) || apply (Hd 1) || apply (Hd 2); lia).
  pose proof (Hd 0 ltac:(lia)) as D0. pose proof (Hd 1 ltac:(lia)) as D1. pose proof (Hd 2 ltac:(lia)) as D2.
  change (0 + 1) with 1 in D0. change (1 + 1) with 2 in D1. change (2 + 1) with 3 in D2.
  rewrite !HC in D0, D1, D2 by lia. unfold flop_groups. cbv zeta. rewrite !HC, !(proj2 (Z.ltb_ge _ _)) by lia. done.
Qed.

Lemma length_sum {A B} (f : A → list B) l : Z.of_nat (length (l ≫= f)) = sum_of (λ x, Z.of_nat (length (f x))) l.
Proof. apply length_concat. Qed.
Lemma below_S d D : below (S d) D = kept D ≫= λ cs, below d (D ++ [cs]).
Proof. reflexivity. Qed.

Lemma turn_boards : Z.of_nat (length (below 2 [])) ≤ 68276.
Proof.
  rewrite (below_S 1), length_sum. unfold kept at 1. rewrite sum_of_filter.
  transitivity (sum_of (λ hi, sum_of (λ mid, sum_of (λ lo, 13 * flop_groups hi mid lo) (seqZ 0 mid)) (seqZ 1 (hi - 1))) (seqZ 2 50)).
  - change (nexts []) with flops. unfold flops. rewrite sum_of_bind. apply sum_of_le. intros hi Hhi%elem_of_seqZ.
    rewrite sum_of_bind. apply sum_of_le. intros mid Hmid%elem_of_seqZ. rewrite sum_of_map. apply sum_of_le. intros lo Hlo%elem_of_seqZ.
    etransitivity; [|apply flop_few; lia]. rewrite below_one. done.
  - rewrite (sum_of_ext _ (λ hi, 13 * sum_of (λ mid, sum_of (flop_groups hi mid) (seqZ 0 mid)) (seqZ 1 (hi - 1)))).
    2: { intros hi _. rewrite <- sum_of_scale. apply sum_of_ext. intros mid _. by rewrite <- sum_of_scale. }
    rewrite sum_of_scale, flop_groups_total. lia.
Qed.

Lemma river_boards : Z.of_nat (length (below 3 [])) ≤ 3345524.
Proof.
  change 3%nat with (2 + 1)%nat. rewrite below_split. etransitivity; [apply (length_concat_le _ _ 49)|pose proof turn_boards; lia].
  intros D HD. rewrite below_one. apply below_root in HD as (Hl & HD & _); [|done].
  assert (street D = 2) as Hs by (unfold street; lia).
  transitivity (Z.of_nat (length (nexts D))); [apply inj_le, length_filter|]. pose proof (nexts_length D HD ltac:(lia)) as H. by rewrite Hs in H.
Qed.
