(* ===== verification/CardTree.v ===== *)
(** * The tree of boards ([p_card_tree.cpp])

    [PCardTree] lists the boards of every street up to renaming of suits, in the order
    of a walk through the tree of boards, with the range of boards that extend each
    one, and a table that finds a board by a code of its cards.  The static arrays that
    are indexed by a street are functions of the street; an array that is filled from
    its start is the list of the entries written so far ([put], [put_at]); boards are
    kept as rows. *)

From stdpp Require Import base list list_numbers numbers option gmap.
From S2P Require Import Prelude SBotEval BotGame TypicalCards.

Open Scope Z_scope.

Definition kMaxInt : Z := 2147483647.

(** The array of [lookup_[ st ]]: [kMaxInt] where nothing was written. *)
Record Table := mkTable { tb_size : Z; tb_map : gmap Z Z }.
Definition tb_get (t : Table) (i : Z) : res Z :=
  if (0 <=? i) && (i <? tb_size t) then Ok (default kMaxInt (tb_map t !! i)) else Err OutOfBounds.
Definition tb_set (t : Table) (i v : Z) : res Table :=
  if (0 <=? i) && (i <? tb_size t) then Ok (mkTable (tb_size t) (<[i := v]> (tb_map t))) else Err OutOfBounds.

Record PCardTree := mkTree {
  num_boards_ : Z → Z;
  board_variants_ : Z → list Z;
  succ_board_begins_ : Z → Z → list Z;
  succ_board_ends_ : Z → Z → list Z;
  boards_ : Z → list (list Z);
  suit_groups_ : Z → list Z;
  bds_ : Z → Z;
  lookup_ : option (Z → Table);
  board_counts_ : option (Z → list Z);
  pred_boards_ : option (list (list Z)) }.

Definition upd {A} (f : Z → A) (i : Z) (v : A) : Z → A := λ j, if j =? i then v else f j.

(** [a[ i ] = v] for the next entry [i] of an array of [size]. *)
Definition put_at {A} (size : Z) (l : list A) (i : Z) (v : A) : res (list A) :=
  if Z.of_nat (length l) =? i then put size l v else Err OutOfBounds.

(** The [k] cards of a street behind the [kprev] cards of the board before. *)
Definition next_cards (size : Z) (prev : list Z) (kprev : Z) (incr : list Z) (k : Z) : res (list Z) :=
  l ← for_ 0 kprev [] (λ i l, c ← rd prev i; put size l c);
  for_ 0 k l (λ j l, c ← rd incr j; put size l c).

Definition NumVariants (t : TypicalCards) (i : Z) : res Z := rd (num_variants_ t) i.
Definition Cards (t : TypicalCards) (i : Z) : res (list Z) := rd (cards_ t) i.
Definition SuitGroups (t : TypicalCards) (i : Z) : res Z :=
  match TypicalCards.suit_groups_ t with Some l => rd l i | None => Err OutOfBounds end.

Section Tree.
Context (g : SGame).

Fixpoint Count (fuel : nat) (st : Z) (prev_board : list Z) (prev_sg : Z) (num_boards : Z → Z) : res (Z → Z) :=
  match fuel with
  | O => Err OutOfFuel
  | S fuel =>
      kprev ← NumBoardCards g (st - 1);
      k ← NumCardsForStreet g st;
      boards ← TypicalCards_new g k prev_board kprev prev_sg true;
      n ← i32 (num_boards st + num_canon_ boards);
      for_ 0 (num_raw_ boards) (upd num_boards st n) (λ i num_boards,
        v ← NumVariants boards i;
        if v =? 0 then Ok num_boards else
        if st <? MaxStreet g then
          incr_next_board ← Cards boards i;
          next_board ← next_cards 5 prev_board kprev incr_next_board k;
          next_sg ← SuitGroups boards i;
          Count fuel (st + 1) next_board next_sg num_boards
        else Ok num_boards)
  end.

(** Entering the board [bd] of street [st]. *)
Definition add_board (t : PCardTree) (st bd : Z) (variants next_sg : Z) (next_board : list Z) : res PCardTree :=
  bv ← put_at (num_boards_ t st) (board_variants_ t st) bd variants;
  bs ← put_at (num_boards_ t st) (boards_ t st) bd next_board;
  sg ← put_at (num_boards_ t st) (suit_groups_ t st) bd next_sg;
  Ok (mkTree (num_boards_ t) (upd (board_variants_ t) st bv) (succ_board_begins_ t) (succ_board_ends_ t)
        (upd (boards_ t) st bs) (upd (suit_groups_ t) st sg) (upd (bds_ t) st (bd + 1)) (lookup_ t)
        (board_counts_ t) (pred_boards_ t)).

(** [succ_board_begins_[ st ][ nst ][ bd ] = from] and [succ_board_ends_[ ... ] = bds_[ nst ]] *)
Definition add_range (st bd nst from : Z) (t : PCardTree) : res PCardTree :=
  b ← put_at (num_boards_ t st) (succ_board_begins_ t st nst) bd from;
  e ← put_at (num_boards_ t st) (succ_board_ends_ t st nst) bd (bds_ t nst);
  Ok (mkTree (num_boards_ t) (board_variants_ t) (upd (succ_board_begins_ t) st (upd (succ_board_begins_ t st) nst b))
        (upd (succ_board_ends_ t) st (upd (succ_board_ends_ t st) nst e)) (boards_ t) (suit_groups_ t) (bds_ t) (lookup_ t)
        (board_counts_ t) (pred_boards_ t)).

Fixpoint Build (fuel : nat) (st : Z) (prev_board : list Z) (prev_sg : Z) (t : PCardTree) : res PCardTree :=
  match fuel with
  | O => Err OutOfFuel
  | S fuel =>
      kprev ← NumBoardCards g (st - 1);
      knext ← NumBoardCards g st;
      k ← NumCardsForStreet g st;
      boards ← TypicalCards_new g k prev_board kprev prev_sg true;
      for_ 0 (num_raw_ boards) t (λ i t,
        board_variants ← NumVariants boards i;
        if board_variants =? 0 then Ok t else
        let bd := bds_ t st in
        incr_next_board ← Cards boards i;
        next_board ← next_cards knext prev_board kprev incr_next_board k;
        next_sg ← SuitGroups boards i;
        t ← add_board t st bd board_variants next_sg next_board;
        if st <? MaxStreet g then
          let starts := bds_ t in
          t ← Build fuel (st + 1) next_board next_sg t;
          for_ (st + 1) (MaxStreet g + 1) t (λ nst t, add_range st bd nst (starts nst) t)
        else Ok t)
  end.

(** [Create] when the tree is not there yet ([boards_ == nullptr]). *)
Definition Create : res PCardTree :=
  let ms := MaxStreet g in
  let num_boards := upd (λ _, 0) 0 1 in
  num_boards ← (if 1 <=? ms then Count (Z.to_nat ms) 1 [] 0 num_boards else Ok num_boards);
  bv0 ← put_at (num_boards 0) [] 0 1;
  for_ 0 (ms + 1) tt (λ st _, k ← NumBoardCards g st; _ ← i32 (num_boards st * k); Ok tt);;
  sg0 ← put_at (num_boards 0) [] 0 0;
  let t := mkTree num_boards (upd (λ _, []) 0 bv0) (λ _ _, []) (λ _ _, []) (upd (λ _, []) 0 [[]])
             (upd (λ _, []) 0 sg0) (λ _, 0) None None None in
  t ← (if 1 <=? ms then Build (Z.to_nat ms) 1 [] 0 t else Ok t);
  for_ 1 (ms + 1) t (λ st t,
    if negb (bds_ t st =? num_boards_ t st) then Err Exited else
    b ← put_at (num_boards_ t 0) (succ_board_begins_ t 0 st) 0 0;
    e ← put_at (num_boards_ t 0) (succ_board_ends_ t 0 st) 0 (num_boards_ t st);
    Ok (mkTree (num_boards_ t) (board_variants_ t) (upd (succ_board_begins_ t) 0 (upd (succ_board_begins_ t 0) st b))
          (upd (succ_board_ends_ t) 0 (upd (succ_board_ends_ t 0) st e)) (boards_ t) (suit_groups_ t) (bds_ t) (lookup_ t)
          (board_counts_ t) (pred_boards_ t))).

(** ** Ranges of boards *)
Definition LocalIndex (t : PCardTree) (root_st root_bd st gbd : Z) : res Z :=
  if st =? root_st then Ok 0 else if root_st =? 0 then Ok gbd
  else b ← rd (succ_board_begins_ t root_st st) root_bd; Ok (gbd - b).

Definition GlobalIndex (t : PCardTree) (root_st root_bd st lbd : Z) : res Z :=
  if st =? root_st then Ok root_bd else if root_st =? 0 then Ok lbd
  else b ← rd (succ_board_begins_ t root_st st) root_bd; Ok (lbd + b).

Definition NumLocalBoards (t : PCardTree) (root_st root_bd st : Z) : res Z :=
  if st =? root_st then Ok 1
  else e ← rd (succ_board_ends_ t root_st st) root_bd; b ← rd (succ_board_begins_ t root_st st) root_bd; Ok (e - b).

(** ** Lookup

    [code += board[ i ] * pow( max_card1, i )] is done in [double]; the powers and sums
    are below [2^53], where it is exact. *)
Definition board_code (board : list Z) (num_board_cards : Z) : res Z :=
  for_ 0 num_board_cards 0 (λ i code, c ← rd board i; i32 (code + c * (MaxCard g + 1) ^ i)).

Definition fill_table (t : PCardTree) (st num_board_cards : Z) (tb : Table) : res Table :=
  for_ 0 (num_boards_ t st) tb (λ bd tb,
    board ← rd (boards_ t st) bd;
    code ← board_code board num_board_cards;
    tb_set tb code bd).

Definition CreateLookup (t : PCardTree) : res PCardTree :=
  match lookup_ t with
  | Some _ => Ok t
  | None =>
      lk ← for_ 1 (MaxStreet g + 1) (λ _, mkTable 1 {[0 := 0]}) (λ st lk,
        num_board_cards ← NumBoardCards g st;
        num_codes ← i32 ((MaxCard g + 1) ^ num_board_cards);
        tb ← fill_table t st num_board_cards (mkTable num_codes ∅);
        Ok (upd lk st tb));
      Ok (mkTree (num_boards_ t) (board_variants_ t) (succ_board_begins_ t) (succ_board_ends_ t) (boards_ t)
            (suit_groups_ t) (bds_ t) (Some lk) (board_counts_ t) (pred_boards_ t))
  end.

Definition DeleteLookup (t : PCardTree) : PCardTree :=
  mkTree (num_boards_ t) (board_variants_ t) (succ_board_begins_ t) (succ_board_ends_ t) (boards_ t)
    (suit_groups_ t) (bds_ t) None (board_counts_ t) (pred_boards_ t).

Definition LookupBoard (t : PCardTree) (board : list Z) (st : Z) : res Z :=
  match lookup_ t with
  | None => Err Exited
  | Some lk =>
      num_board_cards ← NumBoardCards g st;
      code ← board_code board num_board_cards;
      ret ← tb_get (lk st) code;
      if ret =? kMaxInt then Err Exited else Ok ret
  end.

Definition ERR_BDTREE_NULL : Z := -301.
Definition ERR_BDTREE_INVALID_CARD : Z := -302.

(** The error and the index; it stays [bdIdx] on an error. *)
Definition LookupBoard_SBot (t : PCardTree) (board : list Z) (st bdIdx : Z) : res (Z * Z) :=
  match lookup_ t with
  | None => Ok (ERR_BDTREE_NULL, bdIdx)
  | Some lk =>
      num_board_cards ← NumBoardCards g st;
      code ← board_code board num_board_cards;
      ret ← tb_get (lk st) code;
      if ret =? kMaxInt then Ok (ERR_BDTREE_INVALID_CARD, bdIdx) else Ok (ERR_OK, ret)
  end.

(** ** Counting raw boards *)
Definition unless_dealt {S} (c : Z) (board : list Z) (k : Z) (s : S) (rest : res S) : res S :=
  b ← InCards c board k; if (b : bool) then Ok s else rest.

(** [DealRawBoards]; [board] has the cards dealt so far. *)
Fixpoint DealRawBoards (fuel : nat) (t : PCardTree) (board : list Z) (st : Z) (counts : Z → list Z) : res (Z → list Z) :=
  match fuel with
  | O => Err OutOfFuel
  | S fuel =>
      counts ← (if 1 <? st then
                  '(canon_board, _, _) ← CanonicalizeCards g board None (st - 1) [0; 0; 0; 0; 0] [] [0; 0; 0; 0];
                  canon_bd ← LookupBoard t canon_board (st - 1);
                  if num_boards_ t (st - 1) <=? canon_bd then Err Exited else
                  n ← rd (counts (st - 1)) canon_bd;
                  n ← i32 (n + 1);
                  l ← wr (counts (st - 1)) canon_bd n;
                  Ok (upd counts (st - 1) l)
                else Ok counts);
      if (1 <? st) && (st =? MaxStreet g + 1) then Ok counts else
      k ← NumCardsForStreet g st;
      kprev ← NumBoardCards g (st - 1);
      let mc := MaxCard g in
      let deal cs counts := DealRawBoards fuel t (take (Z.to_nat kprev) board ++ cs) (st + 1) counts in
      if k =? 1 then
        for_ 0 (mc + 1) counts (λ c counts, unless_dealt c board kprev counts (deal [c] counts))
      else if k =? 2 then
        for_ 1 (mc + 1) counts (λ hi counts, unless_dealt hi board kprev counts (
          for_ 0 hi counts (λ lo counts, unless_dealt lo board kprev counts (deal [hi; lo] counts))))
      else if k =? 3 then
        for_ 2 (mc + 1) counts (λ hi counts, unless_dealt hi board kprev counts (
          for_ 1 hi counts (λ mid counts, unless_dealt mid board kprev counts (
            for_ 0 mid counts (λ lo counts, unless_dealt lo board kprev counts (deal [hi; mid; lo] counts))))))
      else Err Exited
  end.

Definition BuildBoardCounts (t : PCardTree) : res PCardTree :=
  match board_counts_ t with
  | Some _ => Ok t
  | None =>
      t ← CreateLookup t;
      let counts := λ st, if st =? 0 then [1] else replicate (Z.to_nat (num_boards_ t st)) 0 in
      counts ← (if 1 <=? MaxStreet g then DealRawBoards (S (Z.to_nat (MaxStreet g))) t [] 1 counts else Ok counts);
      for_ 1 (MaxStreet g + 1) tt (λ st _, for_ 0 (num_boards_ t st) tt (λ bd _,
        n ← rd (counts st) bd; if n =? 0 then Err Exited else Ok tt));;
      Ok (mkTree (num_boards_ t) (board_variants_ t) (succ_board_begins_ t) (succ_board_ends_ t) (boards_ t)
            (suit_groups_ t) (bds_ t) (lookup_ t) (Some counts) (pred_boards_ t))
  end.

(** ** Predecessors

    The rows of [pred_boards_] are written in the order of the boards of the last street. *)
Fixpoint BuildPredBoards_from (fuel : nat) (t : PCardTree) (st : Z) (pred_bds : list Z) (rows : list (list Z))
  : res (list (list Z)) :=
  match fuel with
  | O => Err OutOfFuel
  | S fuel =>
      let pst := st - 1 in
      pbd ← rd pred_bds pst;
      nbd_begin ← rd (succ_board_begins_ t pst st) pbd;
      nbd_end ← rd (succ_board_ends_ t pst st) pbd;
      for_ nbd_begin nbd_end rows (λ nbd rows,
        if st =? MaxStreet g then put_at (num_boards_ t (MaxStreet g)) rows nbd (take (Z.to_nat (MaxStreet g)) pred_bds)
        else BuildPredBoards_from fuel t (st + 1) (take (Z.to_nat st) pred_bds ++ [nbd]) rows)
  end.

Definition BuildPredBoards (t : PCardTree) : res PCardTree :=
  match pred_boards_ t with
  | Some _ => Ok t
  | None =>
      if MaxStreet g <=? 0 then Ok t else
      rows ← BuildPredBoards_from (Z.to_nat (MaxStreet g)) t 1 [0] [];
      Ok (mkTree (num_boards_ t) (board_variants_ t) (succ_board_begins_ t) (succ_board_ends_ t) (boards_ t)
            (suit_groups_ t) (bds_ t) (lookup_ t) (board_counts_ t) (Some rows))
  end.
End Tree.
