(* ===== verification/CardTreeThm.v ===== *)
(** * The board tree is built and finds every board

    [Count] and [Build] walk the same tree ([below] of [Boards.v]), so the arrays are
    exactly filled; the range of a board holds exactly the boards that extend it; and
    the lookup table finds the normal form of every board. *)

From stdpp Require Import base list list_numbers numbers option sets sorting gmap.
From S2P Require Import Prelude SBotEval BotGame TypicalCards Canon CanonCode Groups RawCards Boards CardTree.

Open Scope Z_scope.

Lemma rd_nat {A} (l : list A) i x : l !! i = Some x → rd l (Z.of_nat i) = Ok x.
Proof. intros H. unfold rd. rewrite (proj2 (Z.ltb_ge _ _)) by lia. by rewrite Nat2Z.id, H. Qed.

Lemma rd_some {A} (l : list A) i x : rd l i = Ok x → 0 ≤ i ∧ l !! Z.to_nat i = Some x.
Proof. unfold rd. destruct (Z.ltb_spec i 0); [done|]. destruct (l !! Z.to_nat i); [|done]. intros [= ->]. by split. Qed.

Lemma for_list {A T} (L : list A) (body : Z → T → res T) (b' : A → T → res T) s :
  (∀ i x s, L !! i = Some x → body (Z.of_nat i) s = b' x s) →
  for_ 0 (Z.of_nat (length L)) s body = foldM b' L s.
Proof.
  intros H. unfold for_. rewrite Z.sub_0_r.
  assert (∀ o, (∀ i x s, L !! i = Some x → body (o + Z.of_nat i) s = b' x s) → foldM body (seqZ o (Z.of_nat (length L))) s = foldM b' L s) as G.
  { clear H. revert s. induction L as [|x L IH]; intros s o H; [done|]. cbn [length foldM]. rewrite seqZ_cons by lia. cbn [foldM].
    rewrite <- (H 0%nat x s) by done. rewrite Z.add_0_r. destruct (body o s) as [s'|]; [|done]. cbn [mbind res_bind].
    replace (Z.pred (Z.of_nat (S (length L)))) with (Z.of_nat (length L)) by lia. apply IH.
    intros i y s'' Hi. rewrite <- (H (S i) y s'') by done. f_equal. lia. }
  apply G. intros i x s' Hi. rewrite <- (H i x s' Hi). f_equal.
Qed.

Section Walk.
Context (g : SGame) (Hg : holdem g).

Lemma next_cards_ok size prev cs : Z.of_nat (length prev) + Z.of_nat (length cs) ≤ size →
  next_cards size prev (Z.of_nat (length prev)) cs (Z.of_nat (length cs)) = Ok (prev ++ cs).
Proof.
  intros Hs. unfold next_cards. rewrite (for_list prev _ (λ c l, put size l c)).
  2: { intros i x s Hi. by rewrite (rd_nat _ _ _ Hi), bind_ok. }
  assert (∀ l l0 : list Z, Z.of_nat (length l0) + Z.of_nat (length l) ≤ size → foldM (λ c l, put size l c) l l0 = Ok (l0 ++ l)) as G.
  { intros l. induction l as [|x l IH]; intros l0 H; [by rewrite app_nil_r|]. cbn [foldM length] in *. rewrite put_ok, bind_ok by lia.
    rewrite IH, <- app_assoc; [done|]. rewrite length_app. cbn [length]. lia. }
  rewrite G, bind_ok by (cbn [length]; lia). rewrite (for_list cs _ (λ c l, put size l c)); [apply G; cbn [app]; lia|].
  intros i x s Hi. by rewrite (rd_nat _ _ _ Hi), bind_ok.
Qed.

(** The list of raw cards of a node, and reading its entries. *)
Lemma node_cards D : node D → street D < 3 →
  ∃ canons, TypicalCards_new g (cards_on (street D + 1)) (concat D) (board_size (street D)) (sg_of (codes D)) true =
    Ok (typical (cards_on (street D + 1)) (codes D) (nexts D) canons).
Proof.
  intros HD Hs. pose proof (node_street D HD).
  destruct (TypicalCards_new_ok g (street D + 1) (concat D) (codes D) Hg) as (canons & E);
    [lia|apply (nd_nodup _ HD)|apply (nd_card _ HD)| | |].
  - rewrite (node_size D HD). f_equal. lia.
  - intros Es. apply codes_root. lia.
  - exists canons. replace (street D + 1 - 1) with (street D) in E by lia. exact E.
Qed.

Section Entry.
Context (k : Z) (f : Z → Z) (L : list (list Z)) (canons : list Z) (i : nat) (cs : list Z) (Hi : L !! i = Some cs).

Lemma entry_variants : NumVariants (typical k f L canons) (Z.of_nat i) = Ok (variants f cs).
Proof.
  unfold NumVariants, typical. cbn [num_variants_]. apply rd_nat. by rewrite list_lookup_fmap, Hi.
Qed.
Lemma entry_cards : Cards (typical k f L canons) (Z.of_nat i) = Ok cs.
Proof. unfold Cards, typical. cbn [cards_]. by apply rd_nat. Qed.
Lemma entry_groups : SuitGroups (typical k f L canons) (Z.of_nat i) = Ok (sg_of (next_code f cs)).
Proof.
  unfold SuitGroups, typical. cbn [TypicalCards.suit_groups_]. apply rd_nat. by rewrite list_lookup_fmap, Hi.
Qed.
End Entry.

(** ** [Count] *)

(** One level: the loop over the raw cards visits the cards kept. *)
Lemma Count_rounds D fuel nb : node D → street D < 3 →
  let st := street D + 1 in
  nb st + Z.of_nat (length (kept D)) ≤ INT32_MAX → 0 ≤ nb st →
  Count g (S fuel) st (concat D) (sg_of (codes D)) nb =
  foldM (λ cs nb, if st <? 3 then Count g fuel (st + 1) (concat (D ++ [cs])) (sg_of (codes (D ++ [cs]))) nb else Ok nb)
    (kept D) (upd nb st (nb st + Z.of_nat (length (kept D)))).
Proof.
  intros HD Hs st Hr H0. pose proof (node_street D HD). cbn [Count].
  replace (st - 1) with (street D) by (unfold st; lia). rewrite (NumBoardCards_ok g Hg), bind_ok by lia.
  rewrite (NumCardsForStreet_ok g Hg), bind_ok by (unfold st; lia).
  destruct (node_cards D HD Hs) as (canons & E). fold st in E. rewrite E, bind_ok. cbn [typical num_canon_ num_raw_].
  fold (kept D). rewrite i32_ok, bind_ok by (unfold INT32_MIN, INT32_MAX in *; lia).
  unfold kept at 2. rewrite <- foldM_filter. apply for_list. intros i cs nb' Hi.
  rewrite (entry_variants _ _ _ _ _ _ Hi), bind_ok. destruct (Z.eqb_spec (variants (codes D) cs) 0) as [Ev|Ev].
  { by rewrite decide_False by (intros H'; by apply H'). }
  rewrite decide_True by done. unfold MaxStreet. rewrite (ho_street g Hg). destruct (st <? 3); [|done].
  rewrite (entry_cards _ _ _ _ _ _ Hi), bind_ok.
  assert (cs ∈ nexts D) as Hin by (by eapply list_elem_of_lookup_2).
  apply nexts_elem in Hin as (Hlc & _); [|done..]. pose proof (node_size D HD) as Hn. fold st in Hlc. rewrite <- Hlc, <- Hn.
  pose proof (board_size_step st ltac:(unfold st; lia)) as B. pose proof (board_size_mono st 3 ltac:(unfold st; lia) ltac:(lia)) as B2.
  change (board_size 3) with 5 in B2. replace (st - 1) with (street D) in B by (unfold st; lia).
  rewrite next_cards_ok, bind_ok by lia. rewrite (entry_groups _ _ _ _ _ _ Hi), bind_ok, sg_next, concat_snoc. done.
Qed.

(** The boards of street [n] below a node. *)
Definition found (D : list (list Z)) (n : Z) : list (list (list Z)) :=
  if (street D <? n) && (n <=? 3) then below (Z.to_nat (n - street D)) D else [].
Definition found_by (D : list (list Z)) (l : list (list Z)) (n : Z) : list (list (list Z)) :=
  l ≫= λ cs, found (D ++ [cs]) n.

Lemma found_at D n : street D < n ≤ 3 → found D n = below (Z.to_nat (n - street D)) D.
Proof. intros H. unfold found. by rewrite (proj2 (Z.ltb_lt _ _)), (proj2 (Z.leb_le _ _)) by lia. Qed.
Lemma found_none D n : n ≤ street D ∨ 3 < n → found D n = [].
Proof.
  intros [H|H]; unfold found; [by rewrite (proj2 (Z.ltb_ge _ _)) by lia|].
  rewrite (proj2 (Z.leb_gt _ _)) by lia. by rewrite andb_false_r.
Qed.

Lemma found_by_none D l n : n ≤ street D + 1 ∨ 3 < n → found_by D l n = [].
Proof.
  intros H. unfold found_by. induction l as [|cs l IH]; [done|]. rewrite bind_cons, IH, found_none; [done|]. rewrite street_snoc. lia.
Qed.

(** The boards of the next street, and those of later ones. *)
Lemma found_next D : street D < 3 → found D (street D + 1) = (λ cs, D ++ [cs]) <$> kept D.
Proof.
  intros Hs. rewrite found_at by lia. replace (Z.to_nat (street D + 1 - street D)) with 1%nat by lia. cbn [below].
  induction (kept D) as [|cs l IH]; [done|]. by rewrite bind_cons, IH.
Qed.
Lemma found_later D n : street D + 1 < n ≤ 3 → found D n = found_by D (kept D) n.
Proof.
  intros Hn. rewrite found_at by lia. replace (Z.to_nat (n - street D)) with (S (Z.to_nat (n - (street D + 1)))) by lia. cbn [below].
  unfold found_by. induction (kept D) as [|cs l IH]; [done|]. rewrite !bind_cons, IH, found_at by (rewrite street_snoc; lia). by rewrite street_snoc.
Qed.

Lemma Count_ok fuel D nb : node D → street D < 3 → Z.of_nat fuel = 3 - street D →
  (∀ n, street D < n ≤ 3 → 0 ≤ nb n ∧ nb n + Z.of_nat (length (found D n)) ≤ INT32_MAX) →
  ∃ nb', Count g fuel (street D + 1) (concat D) (sg_of (codes D)) nb = Ok nb' ∧
    ∀ n, nb' n = nb n + Z.of_nat (length (found D n)).
Proof.
  revert D nb. induction fuel as [|fuel IH]; intros D nb HD Hs Hf Hr; [lia|]. pose proof (node_street D HD) as Hst.
  destruct (Hr (street D + 1) ltac:(lia)) as [R0 R1]. rewrite found_next, length_fmap in R1 by done.
  rewrite Count_rounds by (done || lia). set (nb0 := upd nb (street D + 1) _).
  assert (∀ n, nb0 n + Z.of_nat (length (found_by D (kept D) n)) = nb n + Z.of_nat (length (found D n))) as Hnb0.
  { intros n. unfold nb0, upd. destruct (Z.eqb_spec n (street D + 1)) as [->|Hne].
    - rewrite found_by_none, found_next, length_fmap by lia. cbn [length]. lia.
    - destruct (decide (street D + 1 < n ≤ 3)); [by rewrite found_later by lia|].
      by rewrite found_by_none, found_none by lia. }
  match goal with |- ∃ nb', foldM ?b _ _ = _ ∧ _ =>
    destruct (foldM_inv (λ l nb', ∀ n, nb' n = nb0 n + Z.of_nat (length (found_by D l n))) b (kept D) nb0) as (nb' & E & Hnb') end.
  - intros n. cbn. lia.
  - intros l cs rest nb1 El Hnb1.
    assert (cs ∈ kept D) as Hk by (rewrite El, elem_of_app, elem_of_cons; tauto).
    apply list_elem_of_filter in Hk as [_ Hk]. apply nexts_node in Hk as [HD' _]; [|done..].
    assert (∀ n, found_by D (l ++ [cs]) n = found_by D l n ++ found (D ++ [cs]) n) as Hsn.
    { intros n. unfold found_by. rewrite bind_app. cbn. by rewrite app_nil_r. }
    destruct (Z.ltb_spec (street D + 1) 3) as [Hlt|Hge].
    + destruct (IH (D ++ [cs]) nb1) as (nb2 & E2 & H2); [done|rewrite street_snoc; lia|rewrite street_snoc; lia| |].
      * intros n Hn. rewrite street_snoc in Hn. destruct (Hr n ltac:(lia)) as [N0 N1]. specialize (Hnb0 n).
        rewrite Hnb1. unfold nb0, upd in *. rewrite (proj2 (Z.eqb_neq n (street D + 1))) in * by lia.
        rewrite El in Hnb0. unfold found_by in *. rewrite bind_app, bind_cons, !length_app in Hnb0. lia.
      * rewrite street_snoc in E2. exists nb2. split; [done|]. intros n. rewrite H2, Hnb1, Hsn, length_app. lia.
    + exists nb1. split; [done|]. intros n. rewrite Hnb1, Hsn, length_app, found_none; [cbn [length]; lia|]. rewrite street_snoc. lia.
  - exists nb'. split; [done|]. intros n. rewrite Hnb'. apply Hnb0.
Qed.

(** ** [Build] *)

(** One round of the loop of [Build] for cards that are kept. *)
Definition build_round (fuel : nat) (D : list (list Z)) (cs : list Z) (t : PCardTree) : res PCardTree :=
  let st := street D + 1 in
  let E := D ++ [cs] in
  let bd := bds_ t st in
  t ← add_board t st bd (variants (codes D) cs) (sg_of (codes E)) (concat E);
  if st <? 3 then
    let starts := bds_ t in
    t ← Build g fuel (st + 1) (concat E) (sg_of (codes E)) t;
    for_ (st + 1) 4 t (λ nst t, add_range st bd nst (starts nst) t)
  else Ok t.

Lemma Build_rounds D fuel t : node D → street D < 3 →
  Build g (S fuel) (street D + 1) (concat D) (sg_of (codes D)) t = foldM (build_round fuel D) (kept D) t.
Proof.
  intros HD Hs. pose proof (node_street D HD). set (st := street D + 1). cbn [Build].
  replace (st - 1) with (street D) by (unfold st; lia). rewrite !(NumBoardCards_ok g Hg), !bind_ok by (unfold st; lia).
  rewrite (NumCardsForStreet_ok g Hg), bind_ok by (unfold st; lia).
  destruct (node_cards D HD Hs) as (canons & E). fold st in E. rewrite E, bind_ok. cbn [typical num_raw_].
  unfold kept. rewrite <- foldM_filter. apply for_list. intros i cs t' Hi.
  rewrite (entry_variants _ _ _ _ _ _ Hi), bind_ok. destruct (Z.eqb_spec (variants (codes D) cs) 0) as [Ev|Ev].
  { by rewrite decide_False by (intros H'; by apply H'). }
  rewrite decide_True by done. unfold MaxStreet. rewrite (ho_street g Hg).
  rewrite (entry_cards _ _ _ _ _ _ Hi), bind_ok.
  assert (cs ∈ nexts D) as Hin by (by eapply list_elem_of_lookup_2).
  apply nexts_elem in Hin as (Hlc & _); [|done..]. pose proof (node_size D HD) as Hn. fold st in Hlc. rewrite <- Hlc, <- Hn.
  pose proof (board_size_step st ltac:(unfold st; lia)) as B. replace (st - 1) with (street D) in B by (unfold st; lia).
  rewrite next_cards_ok, bind_ok by lia. rewrite (entry_groups _ _ _ _ _ _ Hi), bind_ok, sg_next. unfold build_round. fold st.
  by rewrite concat_snoc.
Qed.

(** What the arrays hold: the deals [L] of street [n], and for each the range of the
    deals of street [m] that extend it. *)
Definition vs (E : list (list Z)) : Z :=
  match last E with Some cs => variants (codes (take (length E - 1) E)) cs | None => 1 end.
Lemma vs_snoc D cs : vs (D ++ [cs]) = variants (codes D) cs.
Proof. unfold vs. rewrite last_snoc, length_app. cbn [length]. rewrite take_app_length' by lia. done. Qed.

Record level (t : PCardTree) (n : Z) (L : list (list (list Z))) : Prop := {
  lv_boards : boards_ t n = (λ E, concat E) <$> L;
  lv_variants : board_variants_ t n = vs <$> L;
  lv_groups : suit_groups_ t n = (λ E, sg_of (codes E)) <$> L;
  lv_bds : bds_ t n = Z.of_nat (length L) }.

Record ranges (begins ends : list Z) (m : Z) (L M : list (list (list Z))) : Prop := {
  rg_begins : length begins = length L;
  rg_ends : length ends = length L;
  rg_found : ∀ i E, L !! i = Some E → ∃ b e, begins !! i = Some b ∧ ends !! i = Some e ∧ 0 ≤ b ≤ e ∧
    e ≤ Z.of_nat (length M) ∧ take (Z.to_nat (e - b)) (drop (Z.to_nat b) M) = found E m }.

Definition shows (a : Z) (t : PCardTree) (B : Z → list (list (list Z))) : Prop :=
  ∀ n, a ≤ n ≤ 3 → level t n (B n) ∧
    ∀ m, n < m ≤ 3 → ranges (succ_board_begins_ t n m) (succ_board_ends_ t n m) m (B n) (B m).

(** [Build] of street [a] leaves the streets before it alone. *)
Record frame (a : Z) (t t' : PCardTree) : Prop := {
  fr_num : num_boards_ t' = num_boards_ t;
  fr_lookup : lookup_ t' = lookup_ t;
  fr_counts : board_counts_ t' = board_counts_ t;
  fr_pred : pred_boards_ t' = pred_boards_ t;
  fr_level : ∀ n, n < a → boards_ t' n = boards_ t n ∧ board_variants_ t' n = board_variants_ t n ∧
    suit_groups_ t' n = suit_groups_ t n ∧ bds_ t' n = bds_ t n;
  fr_ranges : ∀ n m, n < a → succ_board_begins_ t' n m = succ_board_begins_ t n m ∧
    succ_board_ends_ t' n m = succ_board_ends_ t n m }.

Lemma frame_refl a t : frame a t t.
Proof. by split. Qed.
Lemma frame_trans a t1 t2 t3 : frame a t1 t2 → frame a t2 t3 → frame a t1 t3.
Proof.
  intros [A1 A2 A3 A4 A5 A6] [B1 B2 B3 B4 B5 B6]. split; try congruence.
  - intros n Hn. destruct (A5 n Hn) as (? & ? & ? & ?). destruct (B5 n Hn) as (? & ? & ? & ?). repeat split; congruence.
  - intros n m Hn. destruct (A6 n m Hn). destruct (B6 n m Hn). split; congruence.
Qed.
Lemma frame_mono a b t t' : a ≤ b → frame b t t' → frame a t t'.
Proof. intros Hab [A1 A2 A3 A4 A5 A6]. split; try done; intros; [apply A5|apply A6]; lia. Qed.

Lemma level_frame a n t t' L : frame a t t' → n < a → level t n L → level t' n L.
Proof.
  intros Hf Hn [L1 L2 L3 L4]. destruct (fr_level _ _ _ Hf n Hn) as (E1 & E2 & E3 & E4). split; congruence.
Qed.

(** Ranges stay valid when boards are appended. *)
Lemma ranges_grow bs es m L M N : ranges bs es m L M → ranges bs es m L (M ++ N).
Proof.
  intros [R1 R2 R3]. split; [done..|]. intros i E Hi. destruct (R3 i E Hi) as (b & e & Hb & He & H0 & H1 & <-).
  exists b, e. split; [done|]. split; [done|]. split; [done|]. rewrite length_app. split; [lia|].
  rewrite drop_app_le by lia. by rewrite take_app_le by (rewrite length_drop; lia).
Qed.

Lemma ranges_snoc bs es m L M E : ranges bs es m L M →
  ranges (bs ++ [Z.of_nat (length M)]) (es ++ [Z.of_nat (length (M ++ found E m))]) m (L ++ [E]) (M ++ found E m).
Proof.
  intros HR. destruct (ranges_grow _ _ _ _ _ (found E m) HR) as [R1 R2 R3]. split; [rewrite !length_app; cbn [length]; lia..|].
  intros i F Hi. apply lookup_app_Some in Hi as [Hi|[Hle Hi]].
  - destruct (R3 i F Hi) as (b & e & Hb & He & H). exists b, e. by rewrite !lookup_app_l by (apply lookup_lt_Some in Hi; lia).
  - apply list_lookup_singleton_Some in Hi as [Hi <-]. eexists _, _.
    rewrite !lookup_app_r by lia. replace (i - length bs)%nat with 0%nat by lia. replace (i - length es)%nat with 0%nat by lia.
    split; [done|]. split; [done|]. rewrite length_app. split; [lia|]. split; [lia|].
    rewrite Nat2Z.id, drop_app_length. apply take_ge. lia.
Qed.

Lemma upd_eq {A} (f : Z → A) i v : upd f i v i = v.
Proof. unfold upd. by rewrite Z.eqb_refl. Qed.
Lemma upd_ne {A} (f : Z → A) i j v : j ≠ i → upd f i v j = f j.
Proof. intros H. unfold upd. by rewrite (proj2 (Z.eqb_neq _ _)). Qed.

Lemma put_at_ok {A} n (l : list A) i v : i = Z.of_nat (length l) → i < n → put_at n l i v = Ok (l ++ [v]).
Proof. intros -> H. unfold put_at. rewrite Z.eqb_refl. by apply put_ok. Qed.

(** Entering a board. *)
Definition entered (t : PCardTree) (E : list (list Z)) : PCardTree :=
  let st := street E in
  mkTree (num_boards_ t) (upd (board_variants_ t) st (board_variants_ t st ++ [vs E])) (succ_board_begins_ t) (succ_board_ends_ t)
    (upd (boards_ t) st (boards_ t st ++ [concat E])) (upd (suit_groups_ t) st (suit_groups_ t st ++ [sg_of (codes E)]))
    (upd (bds_ t) st (bds_ t st + 1)) (lookup_ t) (board_counts_ t) (pred_boards_ t).

Lemma add_board_ok t E L : level t (street E) L → Z.of_nat (length L) < num_boards_ t (street E) →
  add_board t (street E) (bds_ t (street E)) (vs E) (sg_of (codes E)) (concat E) = Ok (entered t E).
Proof.
  intros [L1 L2 L3 L4] Hr. unfold add_board. rewrite !put_at_ok, !bind_ok by (rewrite ?L1, ?L2, ?L3, ?length_fmap; lia). done.
Qed.

Lemma entered_level t E L : level t (street E) L → level (entered t E) (street E) (L ++ [E]).
Proof.
  intros [L1 L2 L3 L4]. split; cbn; rewrite upd_eq, ?L1, ?L2, ?L3, ?L4, ?fmap_app, ?length_app; [done..|]. cbn [length]. lia.
Qed.
Lemma entered_other t E n L : n ≠ street E → level t n L → level (entered t E) n L.
Proof. intros Hn [L1 L2 L3 L4]. split; cbn; rewrite upd_ne; done. Qed.
Lemma entered_frame t E : frame (street E) t (entered t E).
Proof. split; try done. intros n Hn. cbn. by rewrite !upd_ne by lia. Qed.

(** Entering the ranges of a board [E], the last of the boards [L ++ [E]] of its street. *)
Definition same_boards (t t' : PCardTree) : Prop :=
  num_boards_ t' = num_boards_ t ∧ boards_ t' = boards_ t ∧ board_variants_ t' = board_variants_ t ∧ suit_groups_ t' = suit_groups_ t ∧
  bds_ t' = bds_ t ∧ lookup_ t' = lookup_ t ∧ board_counts_ t' = board_counts_ t ∧ pred_boards_ t' = pred_boards_ t.

Lemma add_range_ok st bd m from t : bd = Z.of_nat (length (succ_board_begins_ t st m)) →
  length (succ_board_ends_ t st m) = length (succ_board_begins_ t st m) → bd < num_boards_ t st →
  ∃ t', add_range st bd m from t = Ok t' ∧ same_boards t t' ∧
    succ_board_begins_ t' st m = succ_board_begins_ t st m ++ [from] ∧ succ_board_ends_ t' st m = succ_board_ends_ t st m ++ [bds_ t m] ∧
    ∀ n k, ¬ (n = st ∧ k = m) → succ_board_begins_ t' n k = succ_board_begins_ t n k ∧ succ_board_ends_ t' n k = succ_board_ends_ t n k.
Proof.
  intros Hb He Hr. unfold add_range. rewrite !put_at_ok, !bind_ok by lia. eexists. split; [done|]. split; [done|]. cbn.
  split; [by rewrite !upd_eq|]. split; [by rewrite !upd_eq|]. intros n k Hne. unfold upd.
  destruct (Z.eqb_spec n st) as [->|]; [|done]. destruct (Z.eqb_spec k m) as [->|]; [by destruct Hne|done].
Qed.

Lemma add_ranges_ok st bd starts t : bd < num_boards_ t st → st < 3 →
  (∀ m, st < m ≤ 3 → bd = Z.of_nat (length (succ_board_begins_ t st m)) ∧ length (succ_board_ends_ t st m) = length (succ_board_begins_ t st m)) →
  ∃ t', for_ (st + 1) 4 t (λ m t, add_range st bd m (starts m) t) = Ok t' ∧ same_boards t t' ∧
    (∀ m, st < m ≤ 3 → succ_board_begins_ t' st m = succ_board_begins_ t st m ++ [starts m] ∧
      succ_board_ends_ t' st m = succ_board_ends_ t st m ++ [bds_ t m]) ∧
    ∀ n k, n ≠ st → succ_board_begins_ t' n k = succ_board_begins_ t n k ∧ succ_board_ends_ t' n k = succ_board_ends_ t n k.
Proof.
  intros Hr Hst Hl.
  match goal with |- ∃ t', for_ _ _ _ ?b = _ ∧ _ => destruct (for_inv (λ m t', same_boards t t' ∧
    (∀ k, st < k < m → succ_board_begins_ t' st k = succ_board_begins_ t st k ++ [starts k] ∧
      succ_board_ends_ t' st k = succ_board_ends_ t st k ++ [bds_ t k]) ∧
    ∀ n k, n ≠ st ∨ m ≤ k → succ_board_begins_ t' n k = succ_board_begins_ t n k ∧ succ_board_ends_ t' n k = succ_board_ends_ t n k)
    (st + 1) 4 t b) as (t' & E & Hs & H1 & H2) end; [lia| | |].
  - split; [done|]. split; [intros k Hk; lia|done].
  - intros m t1 Hm (Hs & H1 & H2). destruct (Hl m ltac:(lia)) as [Hb He]. destruct (H2 st m ltac:(lia)) as [Eb Ee].
    destruct (add_range_ok st bd m (starts m) t1) as (t2 & E & Hs2 & Hb2 & He2 & Ho); [by rewrite Eb|by rewrite Eb, Ee|by destruct Hs as [-> _]|].
    exists t2. split; [done|]. split; [|split].
    + destruct Hs as (?&?&?&?&?&?&?&?), Hs2 as (?&?&?&?&?&?&?&?). repeat split; congruence.
    + intros k Hk. destruct (decide (k = m)) as [->|].
      * destruct Hs as (_ & _ & _ & _ & Hbds & _). by rewrite Hb2, He2, Eb, Ee, Hbds.
      * destruct (Ho st k) as [-> ->]; [lia|]. apply H1. lia.
    + intros n k Hk. destruct (Ho n k) as [-> ->]; [lia|]. apply H2. lia.
  - exists t'. split; [done|]. split; [done|]. split; [intros m Hm; apply H1; lia|]. intros n k Hn. apply H2. by left.
Qed.

(** What a round adds: the board [E] to its street and the boards below it. *)
Definition adds (E : list (list Z)) (n : Z) : list (list (list Z)) := if n =? street E then [E] else found E n.

Definition builds (fuel : nat) (E : list (list Z)) : Prop := ∀ t B,
  shows (street E + 1) t B →
  (∀ n, street E < n ≤ 3 → Z.of_nat (length (B n)) + Z.of_nat (length (found E n)) ≤ num_boards_ t n) →
  ∃ t', Build g fuel (street E + 1) (concat E) (sg_of (codes E)) t = Ok t' ∧
    shows (street E + 1) t' (λ n, B n ++ found E n) ∧ frame (street E + 1) t t'.

Lemma same_level t t' n L : same_boards t t' → level t n L → level t' n L.
Proof. intros (_ & E1 & E2 & E3 & E4 & _) [L1 L2 L3 L4]. split; congruence. Qed.

Lemma round_ok fuel D cs t B : node D → street D < 3 → (street D + 1 < 3 → builds fuel (D ++ [cs])) →
  let E := D ++ [cs] in shows (street E) t B →
  (∀ n, street E ≤ n ≤ 3 → Z.of_nat (length (B n)) + Z.of_nat (length (adds E n)) ≤ num_boards_ t n) →
  ∃ t', build_round fuel D cs t = Ok t' ∧ shows (street E) t' (λ n, B n ++ adds E n) ∧ frame (street E) t t'.
Proof.
  intros HD Hs IH E Hsh Hr. pose proof (node_street D HD) as HsD.
  assert (street E = street D + 1) as HE by apply street_snoc. unfold build_round. fold E. rewrite <- HE, <- vs_snoc. fold E.
  destruct (Hsh (street E) ltac:(lia)) as [Hlev Hrg]. pose proof (Hr (street E) ltac:(lia)) as Hr0. unfold adds in Hr0. rewrite Z.eqb_refl in Hr0.
  cbn [length] in Hr0. rewrite (add_board_ok t E (B (street E))), bind_ok by (done || lia).
  set (t1 := entered t E). pose proof (entered_frame t E) as F1. fold t1 in F1.
  pose proof (entered_level t E _ Hlev) as Lev1. fold t1 in Lev1.
  assert (∀ n, street E < n → adds E n = found E n) as Hadd by (intros n Hn; unfold adds; by rewrite (proj2 (Z.eqb_neq _ _)) by lia).
  assert (adds E (street E) = [E]) as Hadd0 by (unfold adds; by rewrite Z.eqb_refl).
  destruct (Z.ltb_spec (street E) 3) as [Hlt|Hge].
  - assert (shows (street E + 1) t1 B) as Hsh1.
    { intros n Hn. destruct (Hsh n ltac:(lia)) as [Hl Hm]. split; [apply entered_other; [lia|done]|done]. }
    destruct (IH ltac:(lia) t1 B Hsh1) as (t2 & E2 & Hsh2 & F2).
    { intros n Hn. rewrite <- Hadd by (unfold E; lia). fold E in Hn. apply Hr. lia. }
    fold E in E2, Hsh2, F2. rewrite E2, bind_ok.
    assert (∀ m, succ_board_begins_ t2 (street E) m = succ_board_begins_ t (street E) m ∧
      succ_board_ends_ t2 (street E) m = succ_board_ends_ t (street E) m) as HF2.
    { intros m. apply (fr_ranges _ _ _ F2 (street E) m). lia. }
    destruct (add_ranges_ok (street E) (bds_ t (street E)) (bds_ t1) t2) as (t3 & E3 & Hsame & Hnew & Hother).
    + rewrite (fr_num _ _ _ F2). change (num_boards_ t1) with (num_boards_ t). rewrite (lv_bds _ _ _ Hlev). lia.
    + done.
    + intros m Hm. destruct (HF2 m) as [-> ->]. destruct (Hrg m Hm) as [R1 R2 _]. rewrite (lv_bds _ _ _ Hlev). lia.
    + exists t3. split; [done|]. split.
      * intros n Hn. destruct (decide (n = street E)) as [->|Hne].
        -- rewrite Hadd0. split; [eapply same_level; [done|]; eapply level_frame; [exact F2|lia|done]|].
           intros m Hm. destruct (Hnew m Hm) as [-> ->]. destruct (HF2 m) as [-> ->]. rewrite Hadd by lia.
           destruct (Hsh1 m ltac:(lia)) as [Hl1 _]. destruct (Hsh2 m ltac:(lia)) as [Hl2 _].
           rewrite (lv_bds _ _ _ Hl1), (lv_bds _ _ _ Hl2). by apply ranges_snoc, Hrg.
        -- destruct (Hsh2 n ltac:(lia)) as [Hl Hm]. rewrite Hadd by lia. split; [by eapply same_level|].
           intros m Hnm. destruct (Hother n m Hne) as [-> ->]. rewrite Hadd by lia. by apply Hm.
      * eapply frame_trans; [exact F1|]. eapply frame_trans; [eapply frame_mono; [|exact F2]; lia|].
        destruct Hsame as (?&H1&H2&H3&H4&?&?&?). split; [done..| |].
        -- intros n _. by rewrite H1, H2, H3, H4.
        -- intros n m Hn. apply Hother. lia.
  - exists t1. split; [done|]. split; [|done]. intros n Hn. assert (n = street E) as -> by lia. rewrite Hadd0. split; [done|]. lia.
Qed.

Lemma Build_ok fuel D : node D → street D < 3 → Z.of_nat fuel = 3 - street D → builds fuel D.
Proof.
  revert D. induction fuel as [|fuel IH]; intros D HD Hs Hf; [lia|]. intros t B Hsh Hr. pose proof (node_street D HD) as HsD.
  rewrite Build_rounds by done.
  set (part := λ (l : list (list Z)) n, l ≫= λ cs, adds (D ++ [cs]) n).
  assert (∀ n, street D < n ≤ 3 → part (kept D) n = found D n) as Hpart.
  { intros n Hn. unfold part. destruct (decide (n = street D + 1)) as [->|].
    - rewrite found_next by done. induction (kept D) as [|cs l IHl]; [done|]. rewrite bind_cons, IHl.
      unfold adds. rewrite street_snoc, Z.eqb_refl. done.
    - rewrite found_later by lia. unfold found_by. induction (kept D) as [|cs l IHl]; [done|]. rewrite !bind_cons, IHl.
      unfold adds. rewrite street_snoc, (proj2 (Z.eqb_neq _ _)) by lia. done. }
  destruct (foldM_inv (λ l t', shows (street D + 1) t' (λ n, B n ++ part l n) ∧ frame (street D + 1) t t')
    (build_round fuel D) (kept D) t) as (t' & E & Hsh' & F').
  - split; [|apply frame_refl]. intros n Hn. destruct (Hsh n Hn) as [H1 H2]. cbn. rewrite app_nil_r. split; [done|].
    intros m Hm. rewrite app_nil_r. by apply H2.
  - intros l cs rest t1 El [Hsh1 F1].
    assert (cs ∈ kept D) as Hk by (rewrite El, elem_of_app, elem_of_cons; tauto).
    apply list_elem_of_filter in Hk as [_ Hk]. apply nexts_node in Hk as [HE _]; [|done..].
    destruct (round_ok fuel D cs t1 (λ n, B n ++ part l n)) as (t2 & E2 & Hsh2 & F2); [done|done| | | |].
    + intros Hlt. apply IH; [done|rewrite street_snoc; lia..].
    + by rewrite street_snoc.
    + intros n Hn. rewrite street_snoc in Hn. rewrite (fr_num _ _ _ F1). specialize (Hr n ltac:(lia)). rewrite <- Hpart in Hr by lia.
      rewrite El in Hr. unfold part in Hr at 1. rewrite bind_app, bind_cons, !length_app in Hr. rewrite length_app. unfold part. lia.
    + rewrite street_snoc in Hsh2, F2. exists t2. split; [done|]. split; [|by eapply frame_trans].
      assert (∀ n, part (l ++ [cs]) n = part l n ++ adds (D ++ [cs]) n) as Hp.
      { intros n. unfold part. rewrite bind_app. cbn. by rewrite app_nil_r. }
      intros n Hn. destruct (Hsh2 n Hn) as [H1 H2]. rewrite <- app_assoc in H1. rewrite Hp. split; [done|].
      intros m Hm. specialize (H2 m Hm). rewrite <- !app_assoc in H2. rewrite Hp. done.
  - exists t'. split; [done|]. split; [|done]. intros n Hn. destruct (Hsh' n Hn) as [H1 H2]. rewrite Hpart in H1 by lia. split; [done|].
    intros m Hm. specialize (H2 m Hm). rewrite !Hpart in H2 by lia. done.
Qed.

(** ** [Create] *)
Definition all_boards (n : Z) : list (list (list Z)) := found [] n.

Lemma all_boards_bound n : 1 ≤ n ≤ 3 → Z.of_nat (length (all_boards n)) ≤ 53062100.
Proof.
  intros Hn. unfold all_boards. rewrite found_at by (change (street []) with 0; lia). change (street []) with 0.
  pose proof (below_length (Z.to_nat (n - 0)) [] node_nil ltac:(change (street []) with 0; lia)) as H. change (street []) with 0 in H.
  assert (n = 1 ∨ n = 2 ∨ n = 3) as E by lia. destruct_or! E; subst n.
  - change (fan 0 (Z.to_nat (1 - 0))) with 22100 in H. lia.
  - change (fan 0 (Z.to_nat (2 - 0))) with 1082900 in H. lia.
  - change (fan 0 (Z.to_nat (3 - 0))) with 53062100 in H. lia.
Qed.

(** The tree as [Create] leaves it. *)
Record tree_ok (t : PCardTree) : Prop := {
  tr_num : ∀ n, 1 ≤ n ≤ 3 → num_boards_ t n = Z.of_nat (length (all_boards n));
  tr_shows : shows 1 t all_boards;
  tr_root : boards_ t 0 = [[]] ∧ num_boards_ t 0 = 1 ∧ ∀ m, 1 ≤ m ≤ 3 →
    succ_board_begins_ t 0 m = [0] ∧ succ_board_ends_ t 0 m = [num_boards_ t m] }.

Lemma Create_ok : ∃ t, Create g = Ok t ∧ tree_ok t ∧ lookup_ t = None ∧ board_counts_ t = None ∧ pred_boards_ t = None.
Proof.
  unfold Create, MaxStreet. rewrite (ho_street g Hg). change (1 <=? 3) with true. cbv iota.
  set (nb0 := upd (λ _, 0) 0 1). change (Z.to_nat 3) with 3%nat.
  destruct (Count_ok 3 [] nb0) as (nb & E & Hnb); [apply node_nil|done|done| |].
  { intros n Hn. change (street []) with 0 in Hn. pose proof (all_boards_bound n ltac:(lia)). unfold all_boards in *. unfold nb0, INT32_MAX. rewrite upd_ne by lia. lia. }
  change (street [] + 1) with 1 in E. change (concat []) with (@nil Z) in E. change (sg_of (codes [])) with 0 in E.
  rewrite E, bind_ok. assert (nb 0 = 1) as Hnb1 by (by rewrite Hnb).
  assert (∀ n, 1 ≤ n ≤ 3 → nb n = Z.of_nat (length (all_boards n))) as HnbN.
  { intros n Hn. rewrite Hnb. unfold nb0, all_boards. rewrite upd_ne by lia. lia. }
  rewrite (put_at_ok (nb 0) [] 0 1), bind_ok by (cbn; lia).
  assert (for_ 0 (3 + 1) tt (λ st _, k ← NumBoardCards g st; _ ← i32 (nb st * k); Ok tt) = Ok tt) as ->.
  { destruct (for_inv (λ _ _, True) 0 (3 + 1) tt (λ st _, k ← NumBoardCards g st; _ ← i32 (nb st * k); Ok tt)) as ([] & E1 & _);
      [lia|done| |done].
    intros st [] Hst _. rewrite (NumBoardCards_ok g Hg), bind_ok by lia. eexists. split; [|done].
    pose proof (board_size_mono 0 st ltac:(lia) ltac:(lia)) as B1. pose proof (board_size_mono st 3 ltac:(lia) ltac:(lia)) as B2.
    change (board_size 3) with 5 in B2. change (board_size 0) with 0 in B1.
    assert (0 ≤ nb st ≤ 53062100) as Hb.
    { destruct (decide (st = 0)) as [->|]; [lia|]. rewrite HnbN by lia. pose proof (all_boards_bound st ltac:(lia)). lia. }
    rewrite i32_ok by (unfold INT32_MIN, INT32_MAX; nia). done. }
  rewrite bind_ok, (put_at_ok (nb 0) [] 0 0), bind_ok by (cbn; lia).
  match goal with |- context [Build g 3 1 [] 0 ?t] => set (t0 := t) end.
  destruct (Build_ok 3 [] node_nil ltac:(done) ltac:(done) t0 (λ _, [])) as (t1 & E1 & Hsh1 & F1).
  { intros n Hn. change (street [] + 1) with 1 in Hn. split; [split; cbn; rewrite ?upd_ne by lia; done|]. intros m Hm. by split. }
  { intros n Hn. change (street []) with 0 in Hn. cbn [length]. change (num_boards_ t0 n) with (nb n). rewrite HnbN by lia. unfold all_boards. lia. }
  change (street [] + 1) with 1 in *. change (concat []) with (@nil Z) in E1. change (sg_of (codes [])) with 0 in E1. rewrite E1, bind_ok.
  cbn [app] in Hsh1. fold (all_boards) in Hsh1. pose proof (fr_num _ _ _ F1) as Hnum. change (num_boards_ t0) with nb in Hnum.
  match goal with |- ∃ t, for_ _ _ _ ?b = _ ∧ _ => destruct (for_inv (λ m t', same_boards t1 t' ∧
    (∀ n k, n ≠ 0 ∨ m ≤ k → succ_board_begins_ t' n k = succ_board_begins_ t1 n k ∧ succ_board_ends_ t' n k = succ_board_ends_ t1 n k) ∧
    ∀ k, 1 ≤ k < m → succ_board_begins_ t' 0 k = [0] ∧ succ_board_ends_ t' 0 k = [nb k]) 1 (3 + 1) t1 b)
    as (t & E2 & Hsame & Hother & Hroot) end; [lia| | |].
  - split; [done|]. split; [done|]. intros; lia.
  - intros st t' Hst (Hsame & Hother & Hroot). pose proof Hsame as (H1 & _ & _ & _ & H5 & _). rewrite H1, H5, Hnum.
    destruct (Hsh1 st ltac:(lia)) as [Hl _]. rewrite (lv_bds _ _ _ Hl), HnbN, Z.eqb_refl by lia. cbn [negb].
    destruct (Hother 0 st ltac:(lia)) as [-> ->]. destruct (fr_ranges _ _ _ F1 0 st ltac:(lia)) as [-> ->].
    change (succ_board_begins_ t0 0 st) with (@nil Z). change (succ_board_ends_ t0 0 st) with (@nil Z).
    rewrite !put_at_ok, !bind_ok by (cbn; lia). eexists. split; [done|]. split; [|split].
    + destruct Hsame as (?&?&?&?&?&?&?&?). by rewrite H1 in *.
    + intros n k Hk. cbn. unfold upd. destruct (Z.eqb_spec n 0) as [->|]; [|apply Hother; lia].
      destruct (Z.eqb_spec k st) as [->|]; [lia|]. apply Hother. lia.
    + intros k Hk. cbn [succ_board_begins_ succ_board_ends_]. rewrite !upd_eq. unfold upd. destruct (Z.eqb_spec k st) as [->|]; [by rewrite HnbN by lia|]. apply Hroot. lia.
  - exists t. split; [done|]. destruct Hsame as (H1 & H2 & H3 & H4 & H5 & H6 & H7 & H8).
    destruct (fr_level _ _ _ F1 0 ltac:(lia)) as (B0 & _).
    split; [split|by rewrite H6, H7, H8, (fr_lookup _ _ _ F1), (fr_counts _ _ _ F1), (fr_pred _ _ _ F1)].
    + intros n Hn. by rewrite H1, Hnum, HnbN.
    + intros n Hn. destruct (Hsh1 n Hn) as [Hl Hm]. split; [by apply (same_level t1)|]. intros m Hnm.
      destruct (Hother n m ltac:(lia)) as [-> ->]. by apply Hm.
    + rewrite H2, H1, Hnum, B0. split; [done|]. split; [done|]. intros m Hm. destruct (Hroot m ltac:(lia)) as [-> ->]. done.
Qed.

(** ** Lookup *)
Fixpoint enc (b : list Z) : Z := match b with [] => 0 | c :: b => c + 52 * enc b end.

Lemma enc_range b : Forall card b → 0 ≤ enc b < 52 ^ Z.of_nat (length b).
Proof.
  induction 1 as [|c b Hc _ IH]; cbn [enc length]; [done|]. rewrite Nat2Z.inj_succ, Z.pow_succ_r by lia. unfold card in Hc. lia.
Qed.
Lemma enc_inj b b' : Forall card b → Forall card b' → length b = length b' → enc b = enc b' → b = b'.
Proof.
  intros Hb. revert b'. induction Hb as [|c b Hc _ IH]; intros b' Hb' Hl E; destruct b' as [|c' b']; try done.
  apply Forall_cons_1 in Hb' as [Hc' Hb']. cbn in Hl, E. unfold card in *. assert (c = c' ∧ enc b = enc b') as [-> E'] by lia.
  f_equal. apply IH; [done|lia|done].
Qed.
Lemma enc_snoc b c : enc (b ++ [c]) = enc b + c * 52 ^ Z.of_nat (length b).
Proof.
  induction b as [|x b IH]; [cbn [app enc length]; change (52 ^ Z.of_nat 0) with 1; lia|]. cbn [app enc length]. rewrite IH, Nat2Z.inj_succ, Z.pow_succ_r by lia. lia.
Qed.

Lemma MaxCard_ok : MaxCard g = 51.
Proof. unfold MaxCard. by rewrite (ho_ranks g Hg), (ho_suits g Hg). Qed.

Lemma board_code_ok b k : 0 ≤ k ≤ 5 → k ≤ Z.of_nat (length b) → Forall card (take (Z.to_nat k) b) →
  board_code g b k = Ok (enc (take (Z.to_nat k) b)).
Proof.
  intros Hk Hl Hc. unfold board_code. rewrite MaxCard_ok.
  match goal with |- for_ _ _ _ ?f = _ => destruct (for_inv (λ i v, v = enc (take (Z.to_nat i) b)) 0 k 0 f) as (v & E & ->) end; [lia|done| |done].
  intros i v Hi ->. rewrite rd_ok, bind_ok by lia. change (51 + 1) with 52.
  assert (take (Z.to_nat (i + 1)) b = take (Z.to_nat i) b ++ [at_ b i]) as E.
  { replace (Z.to_nat (i + 1)) with (S (Z.to_nat i)) by lia. apply take_S_r. unfold at_. apply list_lookup_lookup_total_lt. lia. }
  assert (Forall card (take (Z.to_nat (i + 1)) b)) as Hc'.
  { replace (take (Z.to_nat (i + 1)) b) with (take (Z.to_nat (i + 1)) (take (Z.to_nat k) b)) by (rewrite take_take; f_equal; lia). by apply Forall_take. }
  pose proof (enc_range _ Hc') as Hr. rewrite length_take in Hr.
  replace (Z.of_nat (Z.to_nat (i + 1) `min` length b)) with (i + 1) in Hr by lia. pose proof (Z.pow_le_mono_r 52 (i + 1) 5 ltac:(lia) ltac:(lia)) as Hp.
  change (52 ^ 5) with 380204032 in Hp.
  rewrite E, enc_snoc, length_take in *. replace (Z.of_nat (Z.to_nat i `min` length b)) with i in * by lia.
  rewrite i32_ok by (unfold INT32_MIN, INT32_MAX; lia). by eexists.
Qed.

(** A table of the boards [bs]: every code written is that of its board. *)
Definition table_ok (bs : list (list Z)) (tb : Table) : Prop :=
  ∀ v, match tb_map tb !! v with
       | Some j => 0 ≤ j ∧ ∃ b, bs !! Z.to_nat j = Some b ∧ enc b = v
       | None => ∀ b, b ∈ bs → enc b ≠ v
       end.

Lemma fill_table_ok t st bs n : boards_ t st = bs → num_boards_ t st = Z.of_nat (length bs) → 0 ≤ n ≤ 5 →
  (∀ b, b ∈ bs → Z.of_nat (length b) = n ∧ Forall card b) →
  ∃ tb, fill_table g t st n (mkTable (52 ^ n) ∅) = Ok tb ∧ tb_size tb = 52 ^ n ∧ table_ok bs tb.
Proof.
  intros <- Hn Hk Hb. unfold fill_table. rewrite Hn. set (bs := boards_ t st) in *.
  match goal with |- ∃ tb, for_ _ _ _ ?f = _ ∧ _ => destruct (for_inv (λ i tb, tb_size tb = 52 ^ n ∧ table_ok (take (Z.to_nat i) bs) tb)
    0 (Z.of_nat (length bs)) (mkTable (52 ^ n) ∅) f) as (tb & E & Hs & Ht) end; [lia| | |].
  - split; [done|]. intros v. cbn. rewrite lookup_empty. intros b Hin. by apply not_elem_of_nil in Hin.
  - intros i tb Hi [Hs Ht]. destruct (lookup_lt_is_Some_2 bs (Z.to_nat i) ltac:(lia)) as [b Ei].
    rewrite <- (Z2Nat.id i), (rd_nat _ _ _ Ei), bind_ok, Z2Nat.id by lia.
    destruct (Hb b) as [Hl Hc]; [by eapply list_elem_of_lookup_2|].
    assert (take (Z.to_nat n) b = b) as Etk by (apply take_ge; lia).
    rewrite board_code_ok, bind_ok, Etk by (rewrite ?Etk; done || lia). pose proof (enc_range b Hc) as Hr. rewrite Hl in Hr.
    unfold tb_set. rewrite Hs, (proj2 (Z.leb_le _ _)), (proj2 (Z.ltb_lt _ _)) by lia. cbn [andb]. eexists. split; [done|]. split; [done|].
    replace (Z.to_nat (i + 1)) with (S (Z.to_nat i)) by lia. rewrite (take_S_r _ _ b Ei). intros v. cbn [tb_map].
    destruct (decide (v = enc b)) as [->|Hv].
    + rewrite lookup_insert_eq. split; [lia|]. exists b. split; [|done]. rewrite lookup_app_r by (rewrite length_take; lia).
      rewrite length_take. replace (Z.to_nat i - Z.to_nat i `min` length bs)%nat with 0%nat by lia. done.
    + rewrite lookup_insert_ne by done. specialize (Ht v). destruct (tb_map tb !! v) as [j|].
      * destruct Ht as (H0 & b' & Hj & Hv'). split; [done|]. exists b'. split; [|done]. by apply lookup_app_l_Some.
      * intros b' [Hin| ->%list_elem_of_singleton]%elem_of_app; [by apply Ht|done].
  - exists tb. split; [done|]. split; [done|]. rewrite Nat2Z.id, firstn_all in Ht. done.
Qed.

Lemma all_boards_elem n E : 1 ≤ n ≤ 3 → E ∈ all_boards n ↔ street E = n ∧ node E ∧ Forall descends E ∧ descending E.
Proof.
  intros Hn. unfold all_boards. rewrite found_at by (change (street []) with 0; lia). change (street []) with 0.
  rewrite below_root by lia. unfold street. replace (Z.to_nat (n - 0)) with (Z.to_nat n) by lia.
  split; intros (H1 & H2); (split; [lia|done]).
Qed.

Lemma tree_boards t n b : tree_ok t → 1 ≤ n ≤ 3 → b ∈ boards_ t n → Z.of_nat (length b) = board_size n ∧ Forall card b.
Proof.
  intros Ht Hn Hb. destruct (tr_shows t Ht n Hn) as [Hl _]. rewrite (lv_boards _ _ _ Hl) in Hb.
  apply list_elem_of_fmap in Hb as (E & -> & HE). apply all_boards_elem in HE as (<- & HN & _); [|done].
  split; [by apply node_size|by apply (nd_card _ HN)].
Qed.

Lemma tree_count t n : tree_ok t → 1 ≤ n ≤ 3 → num_boards_ t n = Z.of_nat (length (boards_ t n)).
Proof.
  intros Ht Hn. destruct (tr_shows t Ht n Hn) as [Hl _]. by rewrite (tr_num t Ht n Hn), (lv_boards _ _ _ Hl), length_fmap.
Qed.

Lemma tree_ext t t' : tree_ok t → num_boards_ t' = num_boards_ t → boards_ t' = boards_ t → board_variants_ t' = board_variants_ t →
  suit_groups_ t' = suit_groups_ t → bds_ t' = bds_ t → succ_board_begins_ t' = succ_board_begins_ t → succ_board_ends_ t' = succ_board_ends_ t →
  tree_ok t'.
Proof.
  intros [A1 A2 A3] E1 E2 E3 E4 E5 E6 E7. split; [by rewrite E1| |by rewrite E1, E2, E6, E7].
  intros n Hn. rewrite E6, E7. destruct (A2 n Hn) as [[L1 L2 L3 L4] Hm]. split; [split; congruence|done].
Qed.

(** The tree with its lookup tables. *)
Definition ready (t : PCardTree) : Prop := tree_ok t ∧ ∃ lk, lookup_ t = Some lk ∧
  ∀ st, 1 ≤ st ≤ 3 → tb_size (lk st) = 52 ^ board_size st ∧ table_ok (boards_ t st) (lk st).

Lemma CreateLookup_ok t : tree_ok t → lookup_ t = None →
  ∃ t', CreateLookup g t = Ok t' ∧ ready t' ∧ boards_ t' = boards_ t ∧ num_boards_ t' = num_boards_ t ∧
    board_counts_ t' = board_counts_ t ∧ pred_boards_ t' = pred_boards_ t.
Proof.
  intros Ht Hlk. unfold CreateLookup, MaxStreet. rewrite Hlk, (ho_street g Hg), MaxCard_ok.
  match goal with |- context [for_ _ _ ?s ?b] => destruct (for_inv (λ n (lk : Z → Table),
    ∀ st, 1 ≤ st < n → tb_size (lk st) = 52 ^ board_size st ∧ table_ok (boards_ t st) (lk st)) 1 (3 + 1) s b) as (lk & E & Hl) end; [lia|lia| |].
  - intros st lk Hst Hl. rewrite (NumBoardCards_ok g Hg), bind_ok by lia.
    pose proof (board_size_mono 0 st ltac:(lia) ltac:(lia)) as B1. pose proof (board_size_mono st 3 ltac:(lia) ltac:(lia)) as B2.
    change (board_size 3) with 5 in B2. change (board_size 0) with 0 in B1.
    pose proof (Z.pow_le_mono_r 52 (board_size st) 5 ltac:(lia) ltac:(lia)) as Hp. change (52 ^ 5) with 380204032 in Hp. change (51 + 1) with 52.
    rewrite i32_ok, bind_ok by (unfold INT32_MIN, INT32_MAX; lia).
    destruct (fill_table_ok t st (boards_ t st) (board_size st)) as (tb & -> & Hs & Htb); [done|by apply tree_count; [done|lia]|lia| |].
    { intros b. apply tree_boards; [done|lia]. }
    rewrite bind_ok. eexists. split; [done|]. intros n Hn. unfold upd. destruct (Z.eqb_spec n st) as [->|]; [done|]. apply Hl. lia.
  - rewrite E, bind_ok. eexists. split; [done|]. split; [|done]. split; [by apply (tree_ext t)|]. exists lk. split; [done|].
    intros st Hst. apply Hl. lia.
Qed.

(** A board is found when it is in the tree. *)
Lemma lookup_ok t st b d : ready t → 1 ≤ st ≤ 3 → board_size st ≤ Z.of_nat (length b) →
  take (Z.to_nat (board_size st)) b ∈ boards_ t st →
  ∃ bd, LookupBoard_SBot g t b st d = Ok (ERR_OK, bd) ∧ 0 ≤ bd < num_boards_ t st ∧
    boards_ t st !! Z.to_nat bd = Some (take (Z.to_nat (board_size st)) b).
Proof.
  intros (Ht & lk & Hlk & Hl) Hst Hb Hin. set (b' := take _ b) in *. destruct (tree_boards t st b' Ht Hst Hin) as [Hlen Hc].
  unfold LookupBoard_SBot. rewrite Hlk, (NumBoardCards_ok g Hg), bind_ok by lia.
  pose proof (board_size_mono 0 st ltac:(lia) ltac:(lia)) as B1. pose proof (board_size_mono st 3 ltac:(lia) ltac:(lia)) as B2.
  change (board_size 3) with 5 in B2. change (board_size 0) with 0 in B1.
  rewrite board_code_ok, bind_ok by (done || lia). fold b'. destruct (Hl st Hst) as [Hsz Htb]. pose proof (enc_range b' Hc) as Hr. rewrite Hlen in Hr.
  unfold tb_get. rewrite Hsz, (proj2 (Z.leb_le _ _)), (proj2 (Z.ltb_lt _ _)) by lia. cbn [andb]. rewrite bind_ok.
  specialize (Htb (enc b')). destruct (tb_map (lk st) !! enc b') as [j|]; [|by destruct (Htb b' Hin)].
  destruct Htb as (H0 & c & Hj & He). cbn [default id]. assert (c = b') as ->.
  { destruct (tree_boards t st c Ht Hst) as [Hlc Hcc]; [by eapply list_elem_of_lookup_2|]. apply enc_inj; [done..|lia|done]. }
  pose proof (tree_count t st Ht Hst) as Hn. pose proof (lookup_lt_Some _ _ _ Hj) as Hjl. pose proof (all_boards_bound st Hst) as Hbd.
  rewrite <- (tr_num t Ht st Hst) in Hbd. rewrite (proj2 (Z.eqb_neq j kMaxInt)) by (unfold kMaxInt; lia).
  exists j. split; [done|]. split; [lia|done].
Qed.
End Walk.

(** ** Ranges *)

(** The board [C] has the cards of [B], a board of street [s], before its later ones. *)
Definition extends (s : Z) (C B : list Z) : Prop := take (Z.to_nat (board_size s)) C = B.

Lemma node_concat_inj E F : node E → node F → street E = street F → concat E = concat F → E = F.
Proof.
  intros [H1 _ _] [H2 _ _] Hs. apply concat_inj. unfold street in Hs. apply Nat2Z.inj in Hs.
  assert (length <$> E = length <$> F) as Hl by (by rewrite H1, H2, Hs). clear -Hl. revert F Hl.
  induction E as [|x E IH]; intros [|y F] Hl; try done. cbn in Hl. injection Hl as Hx Hl. constructor; auto.
Qed.

Lemma boards_nodup n : 1 ≤ n ≤ 3 → NoDup ((λ E, concat E) <$> all_boards n).
Proof.
  intros Hn. apply NoDup_fmap_2_strong.
  - intros E F (H1 & H2 & _)%all_boards_elem (H3 & H4 & _)%all_boards_elem; [|done..]. apply node_concat_inj; [done..|congruence].
  - unfold all_boards. rewrite found_at by (change (street []) with 0; lia). apply below_nodup.
Qed.

(** A deal of street [n] is below its prefix of street [s]. *)
Lemma all_boards_prefix s n F : 1 ≤ s < n → n ≤ 3 → F ∈ all_boards n →
  take (Z.to_nat s) F ∈ all_boards s ∧ F ∈ found (take (Z.to_nat s) F) n ∧
  concat (take (Z.to_nat s) F) = take (Z.to_nat (board_size s)) (concat F).
Proof.
  intros Hs Hn HF. apply all_boards_elem in HF as (Hst & HN & Hd & Hde); [|lia]. set (E := take (Z.to_nat s) F). set (R := drop (Z.to_nat s) F).
  assert (F = E ++ R) as EF by (unfold E, R; by rewrite take_drop). assert (street E = s) as HsE by (unfold street in *; unfold E; rewrite length_take; lia).
  assert (node E) as HNE by (apply (node_app E R); by rewrite <- EF).
  assert (descending E) as HdE by (apply (descending_app E R); by rewrite <- EF).
  split; [|split].
  - apply all_boards_elem; [lia|]. split; [done|]. split; [done|]. split; [by apply Forall_take|done].
  - rewrite found_at by lia. apply below_elem; [done|done|lia|]. exists R. split; [|split; [done|]].
    + unfold R, street in *. rewrite length_drop. lia.
    + split; [done|]. split; [by apply Forall_drop|done].
  - rewrite EF. rewrite concat_app, take_app_length'; [done|]. pose proof (node_size E HNE) as Hz. rewrite HsE in Hz. lia.
Qed.

(** For hold'em [Create] returns: the arrays sized by [Count] are filled exactly by
    [Build].  No board is listed twice, and for a board of an earlier street the entries
    of [succ_board_begins_] and [succ_board_ends_] delimit exactly the boards of the
    later street that extend it. *)
Theorem board_ranges g : holdem g → ∃ t, Create g = Ok t ∧
  (∀ n, 1 ≤ n ≤ 3 → Z.of_nat (length (boards_ t n)) = num_boards_ t n ∧ NoDup (boards_ t n)) ∧
  ∀ s n i B, 1 ≤ s < n → n ≤ 3 → rd (boards_ t s) i = Ok B →
    ∃ b e, rd (succ_board_begins_ t s n) i = Ok b ∧ rd (succ_board_ends_ t s n) i = Ok e ∧ 0 ≤ b ≤ e ∧ e ≤ num_boards_ t n ∧
      ∀ j C, rd (boards_ t n) j = Ok C → b ≤ j < e ↔ extends s C B.
Proof.
  intros Hg. destruct (Create_ok g Hg) as (t & E & Ht & _). exists t. split; [done|]. split.
  { intros n Hn. split; [by rewrite (tree_count t)|]. destruct (tr_shows t Ht n Hn) as [Hl _]. rewrite (lv_boards _ _ _ Hl). by apply boards_nodup. }
  intros s n i B Hs Hn Hi. destruct (tr_shows t Ht s ltac:(lia)) as [Hls Hrg]. destruct (tr_shows t Ht n ltac:(lia)) as [Hln _].
  apply rd_some in Hi as [Hi0 Hi]. rewrite (lv_boards _ _ _ Hls) in Hi. apply list_lookup_fmap_Some in Hi as (E0 & -> & HE0).
  destruct (rg_found _ _ _ _ _ (Hrg n ltac:(lia)) _ _ HE0) as (b & e & Hb & He & H0 & H1 & Hseg).
  exists b, e. rewrite <- (Z2Nat.id i), (rd_nat _ _ _ Hb), (rd_nat _ _ _ He) by lia. split; [done|]. split; [done|]. split; [done|].
  split; [by rewrite (tr_num t Ht) by lia|]. intros j C Hj. apply rd_some in Hj as [Hj0 Hj]. rewrite (lv_boards _ _ _ Hln) in Hj.
  apply list_lookup_fmap_Some in Hj as (F & -> & HF). assert (F ∈ all_boards n) as HFin by (by eapply list_elem_of_lookup_2).
  destruct (all_boards_prefix s n F ltac:(lia) Hn HFin) as (HP & HPF & HPc). unfold extends. rewrite <- HPc.
  assert (∀ x, x ∈ all_boards s → street x = s ∧ node x) as Hss by (intros x (? & ? & _)%all_boards_elem; [done|lia]).
  assert (E0 ∈ all_boards s) as HE0in by (by eapply list_elem_of_lookup_2).
  assert (concat (take (Z.to_nat s) F) = concat E0 ↔ take (Z.to_nat s) F = E0) as ->.
  { split; [|by intros ->]. destruct (Hss _ HP), (Hss _ HE0in). apply node_concat_inj; [done..|congruence]. }
  assert (NoDup (all_boards n)) as Hnd by (unfold all_boards; rewrite found_at by (change (street []) with 0; lia); apply below_nodup).
  split.
  - intros Hin. assert (F ∈ found E0 n) as HFf.
    { rewrite <- Hseg. apply list_elem_of_lookup. exists (Z.to_nat j - Z.to_nat b)%nat. rewrite lookup_take_lt, lookup_drop by lia. rewrite <- HF. f_equal. lia. }
    destruct (Hss _ HE0in) as [HsE _]. rewrite found_at in HFf by lia. apply below_prefix in HFf as (R & -> & _). apply take_app_length'. unfold street in HsE. lia.
  - intros EP. rewrite EP, <- Hseg in HPF. apply list_elem_of_lookup in HPF as (k & Hk). apply lookup_take_Some in Hk as [Hk Hk2].
    rewrite lookup_drop in Hk. pose proof (NoDup_lookup _ _ _ _ Hnd HF Hk). lia.
Qed.

(** The tree of hold'em. *)
Lemma board_ranges_witness : ∃ t, Create holdem_game = Ok t ∧
  (∀ n, 1 ≤ n ≤ 3 → Z.of_nat (length (boards_ t n)) = num_boards_ t n ∧ NoDup (boards_ t n)) ∧
  ∀ s n i B, 1 ≤ s < n → n ≤ 3 → rd (boards_ t s) i = Ok B →
    ∃ b e, rd (succ_board_begins_ t s n) i = Ok b ∧ rd (succ_board_ends_ t s n) i = Ok e ∧ 0 ≤ b ≤ e ∧ e ≤ num_boards_ t n ∧
      ∀ j C, rd (boards_ t n) j = Ok C → b ≤ j < e ↔ extends s C B.
Proof. apply (board_ranges holdem_game holdem_game_ok). Defined.
