(* ===== verification/Reader.v ===== *)
(** * The bot's file reader ([reader.cpp])

    [Reader] reads a file through a buffer of 64 KB: [Refresh] fills the buffer from the
    file, behind the bytes of a value that straddles its end ([overflow_]).  The
    functions that read a value of a given size are one, [Read_k], at their sizes and
    encodings; the machine is little-endian.  A file is the list of its bytes; it does
    not change while it is read.  A [double] or [float] is kept as its bits.  The bytes
    of new memory are an argument. *)

From stdpp Require Import base list list_numbers numbers option.
From S2P Require Import Prelude TypicalCards ShmPipe.

Open Scope Z_scope.

Definition kBufSize : Z := 65536.

(** [buf_ptr_] and [end_read_] are offsets into [buf_]; [fd_pos] is the file offset of [fd_]. *)
Record Reader := mkReader {
  file : list Z; fd_pos : Z;
  buf_ : list Z; end_read_ : Z; buf_ptr_ : Z; buf_size_ : Z;
  file_size_ : Z; remaining_ : Z; overflow_ : list Z; overflow_size_ : Z; byte_pos_ : Z }.

Definition set_overflow (r : Reader) (o : list Z) (n : Z) : Reader :=
  mkReader (file r) (fd_pos r) (buf_ r) (end_read_ r) (buf_ptr_ r) (buf_size_ r) (file_size_ r) (remaining_ r) o n (byte_pos_ r).

(** [buf_ptr_ += k; byte_pos_ += k] *)
Definition advance (r : Reader) (k : Z) : Reader :=
  mkReader (file r) (fd_pos r) (buf_ r) (end_read_ r) (buf_ptr_ r + k) (buf_size_ r) (file_size_ r) (remaining_ r)
    (overflow_ r) (overflow_size_ r) (byte_pos_ r + k).

(** The bytes that [read( fd_, ..., n )] delivers: those that are there, at most [n]. *)
Definition sys_read (r : Reader) (n : Z) : list Z := take (Z.to_nat n) (drop (Z.to_nat (fd_pos r)) (file r)).

(** [remaining_] is cut to an [int].  After a seek past the end it is negative: as a
    [size_t] the count is then too large for [read], which returns -1, and when -1 is what
    was asked for the function goes on, with [end_read_] in front of the buffer. *)
Definition Refresh (r : Reader) : res (Reader * bool) :=
  if (remaining_ r =? 0) && (overflow_size_ r =? 0) then Ok (r, false) else
  buf ← (if 0 <? overflow_size_ r then o ← slice (overflow_ r) 0 (overflow_size_ r); blit (buf_ r) 0 o else Ok (buf_ r));
  let read_into := overflow_size_ r in
  let to_read := buf_size_ r - overflow_size_ r in
  let to_read := if remaining_ r <? to_read then s32 (remaining_ r) else to_read in
  let got := sys_read r to_read in
  let ret := if to_read <? 0 then -1 else Z.of_nat (length got) in
  if negb (ret =? to_read) then Err Exited else
  buf ← blit buf read_into got;
  Ok (mkReader (file r) (fd_pos r + Z.of_nat (length got)) buf (read_into + to_read) 0 (buf_size_ r) (file_size_ r) (remaining_ r - to_read)
        (overflow_ r) 0 (byte_pos_ r), true).

(** [Reader( filename )]: [OpenFile], the buffer, and the first [Refresh]. *)
Definition Reader_new (file : list Z) (fresh : Z → list Z) : res Reader :=
  let file_size := Z.of_nat (length file) in
  let buf_size := if file_size <? kBufSize then file_size else kBufSize in
  '(r, _) ← Refresh (mkReader file 0 (take (Z.to_nat buf_size) (fresh buf_size)) 0 0 buf_size file_size file_size
                      (replicate 100 0) 0 0);
  Ok r.

Definition AtEnd (r : Reader) : bool := (buf_ptr_ r =? end_read_ r) && (remaining_ r =? 0) && (overflow_size_ r =? 0).

(** [lseek] fails on a negative offset. *)
Definition SeekTo (r : Reader) (offset : Z) : res Reader :=
  if offset <? 0 then Err Exited else
  '(r, _) ← Refresh (mkReader (file r) offset (buf_ r) (end_read_ r) (buf_ptr_ r) (buf_size_ r) (file_size_ r)
                      (file_size_ r - offset) (overflow_ r) 0 offset);
  Ok r.

(** The start of every function that reads a value of [k] bytes: [false] at the end of the file. *)
Definition Need (r : Reader) (k : Z) : res (Reader * bool) :=
  if end_read_ r <? buf_ptr_ r + k then
    r ← (if buf_ptr_ r <? end_read_ r then
           let n := end_read_ r - buf_ptr_ r in
           o ← slice (buf_ r) (buf_ptr_ r) n;
           o ← blit (overflow_ r) 0 o;
           Ok (set_overflow r o n)
         else Ok r);
    Refresh r
  else Ok (r, true).

Definition Read_k (r : Reader) (k : Z) : res (Reader * option (list Z)) :=
  '(r, ok) ← Need r k;
  if negb ok then Ok (r, None) else
  l ← slice (buf_ r) (buf_ptr_ r) k;
  Ok (advance r k, Some l).

(** ** Values *)
Fixpoint of_le (l : list Z) : Z := match l with [] => 0 | b :: l => Z.lor b (Z.shiftl (of_le l) 8) end.
Definition s8 (z : Z) : Z := (z + 128) mod 256 - 128.
Definition s64 (z : Z) : Z := (z + 9223372036854775808) mod 18446744073709551616 - 9223372036854775808.

Definition read_as (k : Z) (conv : Z → Z) (r : Reader) : res (Reader * option Z) :=
  '(r, o) ← Read_k r k; Ok (r, option_map (λ l, conv (of_le l)) o).

Definition ReadInt : Reader → res (Reader * option Z) := read_as 4 s32.
Definition ReadUnsignedInt : Reader → res (Reader * option Z) := read_as 4 id.
Definition ReadLong : Reader → res (Reader * option Z) := read_as 8 s64.
Definition ReadUnsignedLong : Reader → res (Reader * option Z) := read_as 8 id.
Definition ReadShort : Reader → res (Reader * option Z) := read_as 2 s16.
Definition ReadUnsignedShort : Reader → res (Reader * option Z) := read_as 2 id.
Definition ReadChar : Reader → res (Reader * option Z) := read_as 1 s8.
Definition ReadUnsignedChar : Reader → res (Reader * option Z) := read_as 1 id.
Definition ReadDouble : Reader → res (Reader * option Z) := read_as 8 id.
Definition ReadFloat : Reader → res (Reader * option Z) := read_as 4 id.
Definition ReadReal_double : Reader → res (Reader * option Z) := read_as 8 id.
Definition ReadReal_float : Reader → res (Reader * option Z) := read_as 4 id.

(** [Read...OrDie] *)
Definition OrDie (f : Reader → res (Reader * option Z)) (r : Reader) : res (Reader * Z) :=
  '(r, o) ← f r; match o with Some v => Ok (r, v) | None => Err Exited end.

Definition ReadIntOrDie : Reader → res (Reader * Z) := OrDie ReadInt.
Definition ReadUnsignedIntOrDie : Reader → res (Reader * Z) := OrDie ReadUnsignedInt.
Definition ReadLongOrDie : Reader → res (Reader * Z) := OrDie ReadLong.
Definition ReadUnsignedLongOrDie : Reader → res (Reader * Z) := OrDie ReadUnsignedLong.
Definition ReadShortOrDie : Reader → res (Reader * Z) := OrDie ReadShort.
Definition ReadUnsignedShortOrDie : Reader → res (Reader * Z) := OrDie ReadUnsignedShort.
Definition ReadCharOrDie : Reader → res (Reader * Z) := OrDie ReadChar.
Definition ReadUnsignedCharOrDie : Reader → res (Reader * Z) := OrDie ReadUnsignedChar.
Definition ReadDoubleOrDie : Reader → res (Reader * Z) := OrDie ReadDouble.
Definition ReadFloatOrDie : Reader → res (Reader * Z) := OrDie ReadFloat.

(** ** Bytes and strings *)

(** The test before a single byte; there is nothing to save in [overflow_]. *)
Definition byte_there (r : Reader) : res (Reader * bool) :=
  if end_read_ r <? buf_ptr_ r + 1 then Refresh r else Ok (r, true).

Definition ReadNBytesOrDie (r : Reader) (num_bytes : Z) : res (Reader * list Z) :=
  for_ 0 num_bytes (r, []) (λ _ '(r, buf),
    '(r, ok) ← byte_there r;
    if negb ok then Err Exited else
    c ← rd (buf_ r) (buf_ptr_ r);
    Ok (advance r 1, buf ++ [c])).

(** [GetLine]; one round per byte of the file. *)
Fixpoint GetLine_loop (fuel : nat) (r : Reader) (s : list Z) : res (Reader * bool * list Z) :=
  match fuel with
  | O => Err OutOfFuel
  | S fuel =>
      '(r, ok) ← (if buf_ptr_ r =? end_read_ r then Refresh r else Ok (r, true));
      if negb ok then Ok (r, false, s) else
      c ← rd (buf_ r) (buf_ptr_ r);
      if c =? 13 then GetLine_loop fuel (advance r 1) s
      else if c =? 10 then Ok (advance r 1, true, s)
      else GetLine_loop fuel (advance r 1) (s ++ [c])
  end.
Definition GetLine (r : Reader) : res (Reader * bool * list Z) := GetLine_loop (S (length (file r))) r [].

Fixpoint ReadCString_loop (fuel : nat) (r : Reader) (s : list Z) : res (Reader * bool * list Z) :=
  match fuel with
  | O => Err OutOfFuel
  | S fuel =>
      '(r, ok) ← byte_there r;
      if negb ok then Ok (r, false, s) else
      c ← rd (buf_ r) (buf_ptr_ r);
      if c =? 0 then Ok (advance r 1, true, s) else ReadCString_loop fuel (advance r 1) (s ++ [c])
  end.
Definition ReadCString (r : Reader) : res (Reader * bool * list Z) := ReadCString_loop (S (length (file r))) r [].
Definition ReadCStringOrDie (r : Reader) : res (Reader * list Z) :=
  '(r, ok, s) ← ReadCString r; if (ok : bool) then Ok (r, s) else Err Exited.

(** [ReadEverythingLeft]; [byte_pos_] is not moved. *)
Fixpoint ReadEverythingLeft_loop (fuel : nat) (r : Reader) (left : Z) (data : list Z) : res (Reader * list Z) :=
  if left <=? 0 then Ok (r, data) else
  match fuel with
  | O => Err OutOfFuel
  | S fuel =>
      l ← slice (buf_ r) (buf_ptr_ r) (end_read_ r - buf_ptr_ r);
      let r := mkReader (file r) (fd_pos r) (buf_ r) (end_read_ r) (end_read_ r) (buf_size_ r) (file_size_ r) (remaining_ r)
                 (overflow_ r) (overflow_size_ r) (byte_pos_ r) in
      let data := data ++ l in
      let data_pos := Z.of_nat (length data) in
      if left <? data_pos then Err Exited else
      if data_pos =? left then Ok (r, data) else
      '(r, ok) ← Refresh r;
      if negb ok then Err Exited else ReadEverythingLeft_loop fuel r left data
  end.
Definition ReadEverythingLeft (r : Reader) : res (Reader * list Z) :=
  ReadEverythingLeft_loop (S (length (file r))) r (file_size_ r - byte_pos_ r) [].

(** ** The reader is the file and a position

    [reads_at r p]: [r] will deliver the bytes of its file from position [p] on. *)
Record reads_at (r : Reader) (p : Z) : Prop := {
  ra_pos : byte_pos_ r = p;
  ra_ptr : 0 ≤ buf_ptr_ r ≤ end_read_ r;
  ra_end : end_read_ r ≤ buf_size_ r;
  ra_buf : Z.of_nat (length (buf_ r)) = buf_size_ r;
  ra_size : buf_size_ r = Z.min (Z.of_nat (length (file r))) kBufSize;
  ra_file : file_size_ r = Z.of_nat (length (file r));
  ra_left : remaining_ r = file_size_ r - fd_pos r;
  ra_fd : 0 ≤ fd_pos r ≤ file_size_ r;
  ra_over : overflow_size_ r = 0;
  ra_olen : length (overflow_ r) = 100%nat;
  ra_at : p = fd_pos r - (end_read_ r - buf_ptr_ r);
  ra_low : 0 ≤ p;
  ra_bytes : take (Z.to_nat (end_read_ r - buf_ptr_ r)) (drop (Z.to_nat (buf_ptr_ r)) (buf_ r)) =
             take (Z.to_nat (end_read_ r - buf_ptr_ r)) (drop (Z.to_nat p) (file r)) }.

Definition left_at (r : Reader) (p : Z) : Z := Z.of_nat (length (file r)) - p.

(** Filling the buffer behind [o] saved bytes. *)
Lemma Refresh_ok r o p : Z.of_nat (length (buf_ r)) = buf_size_ r → buf_size_ r = Z.min (Z.of_nat (length (file r))) kBufSize →
  file_size_ r = Z.of_nat (length (file r)) → remaining_ r = file_size_ r - fd_pos r → 0 ≤ fd_pos r ≤ file_size_ r →
  length (overflow_ r) = 100%nat → overflow_size_ r = Z.of_nat (length o) → take (length o) (overflow_ r) = o →
  (length o < 100)%nat → p = fd_pos r - Z.of_nat (length o) → 0 ≤ p → byte_pos_ r = p →
  o = take (length o) (drop (Z.to_nat p) (file r)) → p < file_size_ r →
  ∃ r', Refresh r = Ok (r', true) ∧ reads_at r' p ∧ file r' = file r ∧ buf_ptr_ r' = 0 ∧
    Z.min (buf_size_ r) (left_at r p) ≤ end_read_ r'.
Proof.
  intros Hbuf Hsz Hfs Hrem Hfd Hol Hos Hot Ho Hp H0 Hbp Hof Hlt. unfold Refresh.
  assert ((remaining_ r =? 0) && (overflow_size_ r =? 0) = false) as ->.
  { destruct (Z.eqb_spec (remaining_ r) 0), (Z.eqb_spec (overflow_size_ r) 0); try done. lia. }
  assert (Z.of_nat (length o) ≤ buf_size_ r) as Hob by (unfold kBufSize in Hsz; lia).
  assert (∃ buf, (if 0 <? overflow_size_ r then o ← slice (overflow_ r) 0 (overflow_size_ r); blit (buf_ r) 0 o else Ok (buf_ r)) = Ok buf ∧
    take (length o) buf = o ∧ length buf = length (buf_ r)) as (buf & -> & Hb1 & Hb2).
  { destruct (Z.ltb_spec 0 (overflow_size_ r)) as [Hpos|Hneg].
    - unfold slice. rewrite (proj2 (Z.leb_le 0 0)), (proj2 (Z.leb_le 0 _)), (proj2 (Z.leb_le _ _)) by lia. cbn [andb]. rewrite bind_ok.
      change (Z.to_nat 0) with 0%nat. rewrite drop_0, Hos, Nat2Z.id, Hot. unfold blit.
      rewrite (proj2 (Z.leb_le 0 0)), (proj2 (Z.leb_le _ _)) by lia. cbn [andb]. eexists. split; [done|].
      change (Z.to_nat 0) with 0%nat. rewrite take_0, app_nil_l. split; [by rewrite take_app_length|].
      rewrite length_app, length_drop. lia.
    - exists (buf_ r). split; [done|]. destruct o; [done|cbn in Hos; lia]. }
  rewrite bind_ok. set (n := if remaining_ r <? buf_size_ r - overflow_size_ r then s32 (remaining_ r) else buf_size_ r - overflow_size_ r).
  assert (0 ≤ n ∧ n ≤ remaining_ r ∧ n ≤ buf_size_ r - overflow_size_ r ∧ (n = remaining_ r ∨ n = buf_size_ r - overflow_size_ r)) as (N0 & N1 & N2 & N3)
    by (unfold n; destruct (Z.ltb_spec (remaining_ r) (buf_size_ r - overflow_size_ r)); rewrite ?s32_small by (unfold kBufSize in Hsz; lia); lia).
  cbv zeta. fold n. assert (Z.of_nat (length (sys_read r n)) = n) as Hgot by (unfold sys_read; rewrite length_take, length_drop; lia).
  rewrite Hgot, (proj2 (Z.ltb_ge n 0)), Z.eqb_refl by lia. cbn [negb]. unfold blit.
  rewrite (proj2 (Z.leb_le 0 _)), (proj2 (Z.leb_le _ _)) by lia. cbn [andb]. rewrite bind_ok.
  replace (Z.to_nat (overflow_size_ r)) with (length o) by lia. rewrite Hb1. eexists. split; [done|].
  split; [|cbn; unfold left_at; split; [done|]; split; [done|]; lia].
  split; cbn; try lia.
  - rewrite !length_app, length_drop. lia.
  - rewrite !Z.sub_0_r. change (Z.to_nat 0) with 0%nat. rewrite drop_0, app_assoc, take_app_le by (rewrite length_app; lia).
    rewrite take_ge by (rewrite length_app; lia).
    replace (Z.to_nat (overflow_size_ r + n)) with (length o + Z.to_nat n)%nat by lia.
    rewrite <- (take_take_drop (drop (Z.to_nat p) (file r)) (length o) (Z.to_nat n)), <- Hof, drop_drop. unfold sys_read. do 3 f_equal. lia.
Qed.

(** Nothing more in the file. *)
Lemma Refresh_end r p : reads_at r p → left_at r p = 0 → Refresh r = Ok (r, false).
Proof.
  intros Hr Hl. unfold Refresh. destruct Hr. unfold left_at in Hl.
  rewrite (proj2 (Z.eqb_eq (remaining_ r) 0)), (proj2 (Z.eqb_eq (overflow_size_ r) 0)) by lia. done.
Qed.

(** [k] bytes are made available in the buffer. *)
Lemma Need_ok r p k : reads_at r p → 1 ≤ k ≤ 100 → k ≤ left_at r p →
  ∃ r', Need r k = Ok (r', true) ∧ reads_at r' p ∧ file r' = file r ∧ k ≤ end_read_ r' - buf_ptr_ r'.
Proof.
  intros Hr Hk Hl. unfold Need. destruct (Z.ltb_spec (end_read_ r) (buf_ptr_ r + k)) as [Hlt|Hge]; [|exists r; split; [done|]; split; [done|]; split; [done|]; lia].
  pose proof Hr as [Q1 Q2 Q3 Q4 Q5 Q6 Q7 Q8 Q9 Q10 Q11 Q12 Q13]. unfold left_at in Hl. set (n := end_read_ r - buf_ptr_ r) in *.
  set (o := take (Z.to_nat n) (drop (Z.to_nat (buf_ptr_ r)) (buf_ r))).
  assert (Z.of_nat (length o) = n) as Ho by (unfold o; rewrite length_take, length_drop; lia).
  assert (o = take (length o) (drop (Z.to_nat p) (file r))) as Hof by (replace (length o) with (Z.to_nat n) by lia; exact Q13).
  match goal with |- context [if ?b then ?x else ?y] =>
    assert (∃ r1, (if b then x else y) = Ok r1 ∧ r1 = set_overflow r (overflow_ r1) n ∧ length (overflow_ r1) = 100%nat ∧
      take (length o) (overflow_ r1) = o) as (r1 & -> & E1 & L1 & O1) end.
  { destruct (Z.ltb_spec (buf_ptr_ r) (end_read_ r)) as [Hpos|Hneg].
    - unfold slice. rewrite (proj2 (Z.leb_le 0 _)), (proj2 (Z.leb_le 0 n)), (proj2 (Z.leb_le _ _)) by (fold n in Hlt; lia). cbn [andb]. rewrite bind_ok.
      fold o. unfold blit. rewrite (proj2 (Z.leb_le 0 0)), (proj2 (Z.leb_le _ _)) by lia. cbn [andb]. rewrite bind_ok.
      eexists. split; [done|]. cbn. split; [done|]. change (Z.to_nat 0) with 0%nat. rewrite take_0, app_nil_l. split; [rewrite length_app, length_drop; lia|]. by rewrite take_app_length.
    - exists r. split; [done|]. assert (n = 0) as E0 by lia. split; [|split; [done|]].
      + rewrite E0, <- Q9. by destruct r.
      + assert (length o = 0%nat) as E1 by lia. destruct o; done. }
  rewrite bind_ok. destruct (Refresh_ok r1 o p) as (r' & E & Hr' & Hf & Hp & He); try (rewrite E1; cbn; first [done|lia]); try done; try lia.
  exists r'. rewrite E. split; [done|]. split; [done|]. rewrite E1 in Hf, He. cbn in Hf, He. split; [done|]. rewrite Hp. unfold left_at, kBufSize in *. cbn in He. lia.
Qed.

(** A value of [k] bytes: the next bytes of the file, or nothing at its end. *)
Lemma Read_k_ok r p k : reads_at r p → 1 ≤ k ≤ 100 → k ≤ left_at r p →
  ∃ r', Read_k r k = Ok (r', Some (take (Z.to_nat k) (drop (Z.to_nat p) (file r)))) ∧ reads_at r' (p + k) ∧ file r' = file r.
Proof.
  intros Hr Hk Hl. destruct (Need_ok r p k Hr Hk Hl) as (r1 & E & Hr1 & Hf & Hn). unfold Read_k. rewrite E, bind_ok. cbn [negb].
  destruct Hr1 as [Q1 Q2 Q3 Q4 Q5 Q6 Q7 Q8 Q9 Q10 Q11 Q12 Q13]. unfold slice.
  rewrite (proj2 (Z.leb_le 0 _)), (proj2 (Z.leb_le 0 k)), (proj2 (Z.leb_le _ _)) by lia. cbn [andb]. rewrite bind_ok.
  assert (take (Z.to_nat k) (drop (Z.to_nat (buf_ptr_ r1)) (buf_ r1)) = take (Z.to_nat k) (drop (Z.to_nat p) (file r))) as ->.
  { rewrite <- Hf. apply (f_equal (take (Z.to_nat k))) in Q13. rewrite !take_take in Q13.
    by replace (Z.to_nat k `min` Z.to_nat (end_read_ r1 - buf_ptr_ r1))%nat with (Z.to_nat k) in Q13 by lia. }
  eexists. split; [done|split; [|done]].
  - split; cbn; try lia; try done.
    apply (f_equal (drop (Z.to_nat k))) in Q13. rewrite !skipn_firstn_comm, !drop_drop in Q13.
    replace (Z.to_nat (end_read_ r1 - (buf_ptr_ r1 + k))) with (Z.to_nat (end_read_ r1 - buf_ptr_ r1) - Z.to_nat k)%nat by lia.
    replace (Z.to_nat (buf_ptr_ r1 + k)) with (Z.to_nat (buf_ptr_ r1) + Z.to_nat k)%nat by lia.
    replace (Z.to_nat (p + k)) with (Z.to_nat p + Z.to_nat k)%nat by lia. done.
Qed.

Lemma Read_k_end r p k : reads_at r p → 1 ≤ k → left_at r p = 0 → Read_k r k = Ok (r, None).
Proof.
  intros Hr Hk Hl. unfold Read_k, Need. pose proof Hr as [Q1 Q2 Q3 Q4 Q5 Q6 Q7 Q8 Q9 Q10 Q11 Q12 Q13]. unfold left_at in Hl.
  rewrite (proj2 (Z.ltb_lt _ _)) by lia. rewrite (proj2 (Z.ltb_ge (buf_ptr_ r) _)) by lia. by rewrite bind_ok, (Refresh_end r p).
Qed.

Lemma Reader_new_ok f fresh : (∀ n, length (fresh n) = Z.to_nat n) → ∃ r, Reader_new f fresh = Ok r ∧ reads_at r 0 ∧ file r = f.
Proof.
  intros Hfr. unfold Reader_new. set (n := Z.of_nat (length f)). set (sz := if n <? kBufSize then n else kBufSize).
  assert (sz = Z.min n kBufSize) as Hsz by (unfold sz; destruct (Z.ltb_spec n kBufSize); lia).
  match goal with |- context [Refresh ?r] => set (r0 := r) end.
  assert (Z.of_nat (length (buf_ r0)) = sz) as Hb by (cbn; rewrite length_take, Hfr; unfold kBufSize in *; lia).
  destruct (decide (n = 0)) as [E0|Hne].
  - exists r0. unfold Refresh. cbn [remaining_ overflow_size_ r0]. rewrite E0. cbn. split; [done|]. split; [|done].
    split; cbn; rewrite ?E0 in *; try lia; try done.
  - destruct (Refresh_ok r0 [] 0) as (r & E & Hr & Hf & _); try done; cbn; try lia. rewrite E, bind_ok. by exists r.
Qed.

Lemma SeekTo_ok r p q : reads_at r p → 0 ≤ q < Z.of_nat (length (file r)) → ∃ r', SeekTo r q = Ok r' ∧ reads_at r' q ∧ file r' = file r.
Proof.
  intros Hr Hq. destruct Hr. unfold SeekTo. rewrite (proj2 (Z.ltb_ge q 0)) by lia.
  match goal with |- context [Refresh ?r] => set (r0 := r) end.
  destruct (Refresh_ok r0 [] q) as (r' & E & Hr & Hf & _); try done; cbn; try lia. rewrite E, bind_ok. by exists r'.
Qed.

(** One byte. *)
Lemma byte_ok r p : reads_at r p → 1 ≤ left_at r p →
  ∃ r1, byte_there r = Ok (r1, true) ∧ rd (buf_ r1) (buf_ptr_ r1) = Ok (at_ (file r) p) ∧ reads_at (advance r1 1) (p + 1) ∧ file r1 = file r.
Proof.
  intros Hr Hl. destruct (Read_k_ok r p 1 Hr ltac:(lia) ltac:(lia)) as (r2 & E2 & Hr2 & Hf2). unfold Read_k in E2.
  destruct (Need_ok r p 1 Hr ltac:(lia) ltac:(lia)) as (r1 & E & Hr1 & Hf & Hn). rewrite E, bind_ok in E2. cbn [negb] in E2.
  assert (byte_there r = Need r 1) as ->.
  { unfold byte_there, Need. destruct (Z.ltb_spec (end_read_ r) (buf_ptr_ r + 1)); [|done].
    rewrite (proj2 (Z.ltb_ge (buf_ptr_ r) _)) by lia. done. }
  exists r1. split; [done|]. destruct Hr1 as [Q1 Q2 Q3 Q4 Q5 Q6 Q7 Q8 Q9 Q10 Q11 Q12 Q13]. unfold slice in E2.
  rewrite (proj2 (Z.leb_le 0 _)), (proj2 (Z.leb_le 0 1)), (proj2 (Z.leb_le _ _)) in E2 by lia. cbn [andb] in E2. rewrite bind_ok in E2.
  injection E2 as <- E3. change (Z.to_nat 1) with 1%nat in E3. split; [|done].
  rewrite rd_ok by lia. f_equal. unfold left_at in Hl. unfold at_.
  apply (f_equal (lookup 0%nat)) in E3. rewrite !lookup_take_lt, !lookup_drop, !Nat.add_0_r in E3 by lia.
  rewrite !list_lookup_lookup_total_lt in E3 by (rewrite <- ?Hf; lia). by injection E3.
Qed.

Lemma byte_end r p : reads_at r p → left_at r p = 0 → byte_there r = Ok (r, false).
Proof.
  intros Hr Hl. unfold byte_there. pose proof Hr as [Q1 Q2 Q3 Q4 Q5 Q6 Q7 Q8 Q9 Q10 Q11 Q12 Q13]. unfold left_at in Hl.
  rewrite (proj2 (Z.ltb_lt _ _)) by lia. by eapply Refresh_end.
Qed.

Lemma drop_at (f : list Z) p : 0 ≤ p < Z.of_nat (length f) → drop (Z.to_nat p) f = at_ f p :: drop (Z.to_nat (p + 1)) f.
Proof.
  intros Hp. replace (Z.to_nat (p + 1)) with (S (Z.to_nat p)) by lia. apply drop_S. unfold at_. apply list_lookup_lookup_total_lt. lia.
Qed.

(** What is read of the bytes that are left: whether the end of the line or string was
    found, the text, and the number of bytes used. *)
Fixpoint line_of (l s : list Z) : bool * list Z * Z :=
  match l with
  | [] => (false, s, 0)
  | c :: l =>
      if c =? 10 then (true, s, 1)
      else let '(b, t, n) := line_of l (if c =? 13 then s else s ++ [c]) in (b, t, n + 1)
  end.
Fixpoint cstring_of (l s : list Z) : bool * list Z * Z :=
  match l with
  | [] => (false, s, 0)
  | c :: l => if c =? 0 then (true, s, 1) else let '(b, t, n) := cstring_of l (s ++ [c]) in (b, t, n + 1)
  end.

Lemma GetLine_loop_ok fuel r p s : reads_at r p → left_at r p < Z.of_nat fuel →
  let '(b, t, n) := line_of (drop (Z.to_nat p) (file r)) s in
  ∃ r', GetLine_loop fuel r s = Ok (r', b, t) ∧ reads_at r' (p + n) ∧ file r' = file r.
Proof.
  revert r p s. induction fuel as [|fuel IH]; intros r p s Hr Hf; [destruct Hr; unfold left_at in Hf; lia|]. cbn [GetLine_loop].
  assert ((if buf_ptr_ r =? end_read_ r then Refresh r else Ok (r, true)) = byte_there r) as ->.
  { unfold byte_there. destruct Hr. destruct (Z.eqb_spec (buf_ptr_ r) (end_read_ r)), (Z.ltb_spec (end_read_ r) (buf_ptr_ r + 1)); done || lia. }
  destruct (decide (left_at r p = 0)) as [E|Hne].
  - rewrite (byte_end r p) by done. rewrite bind_ok. cbn [negb]. rewrite drop_ge by (unfold left_at in E; lia). cbn. exists r. by rewrite Z.add_0_r.
  - assert (0 ≤ p ∧ 0 < left_at r p) as [H0 H1] by (destruct Hr; unfold left_at in *; lia).
    destruct (byte_ok r p) as (r1 & -> & E & Hr1 & Hf1); [done|lia|]. rewrite bind_ok. cbn [negb]. rewrite E, bind_ok.
    rewrite drop_at by (unfold left_at in H1; lia). cbn [line_of]. unfold left_at in Hf.
    destruct (Z.eqb_spec (at_ (file r) p) 13) as [E13|N13].
    + rewrite E13. cbn [Z.eqb Pos.eqb]. specialize (IH (advance r1 1) (p + 1) s Hr1). unfold left_at in IH. cbn [file advance] in IH. rewrite Hf1 in IH.
      specialize (IH ltac:(lia)). destruct (line_of _ s) as [[b t] n]. destruct IH as (r' & -> & Hr' & Hf'). exists r'. by replace (p + (n + 1)) with (p + 1 + n) by lia.
    + destruct (Z.eqb_spec (at_ (file r) p) 10) as [E10|N10]; [exists (advance r1 1); done|].
      specialize (IH (advance r1 1) (p + 1) (s ++ [at_ (file r) p]) Hr1). unfold left_at in IH. cbn [file advance] in IH. rewrite Hf1 in IH.
      specialize (IH ltac:(lia)). destruct (line_of _ _) as [[b t] n]. destruct IH as (r' & -> & Hr' & Hf'). exists r'. by replace (p + (n + 1)) with (p + 1 + n) by lia.
Qed.

Lemma ReadCString_loop_ok fuel r p s : reads_at r p → left_at r p < Z.of_nat fuel →
  let '(b, t, n) := cstring_of (drop (Z.to_nat p) (file r)) s in
  ∃ r', ReadCString_loop fuel r s = Ok (r', b, t) ∧ reads_at r' (p + n) ∧ file r' = file r.
Proof.
  revert r p s. induction fuel as [|fuel IH]; intros r p s Hr Hf; [destruct Hr; unfold left_at in Hf; lia|]. cbn [ReadCString_loop].
  destruct (decide (left_at r p = 0)) as [E|Hne].
  - rewrite (byte_end r p) by done. rewrite bind_ok. cbn [negb]. rewrite drop_ge by (unfold left_at in E; lia). cbn. exists r. by rewrite Z.add_0_r.
  - assert (0 ≤ p ∧ 0 < left_at r p) as [H0 H1] by (destruct Hr; unfold left_at in *; lia).
    destruct (byte_ok r p) as (r1 & -> & E & Hr1 & Hf1); [done|lia|]. rewrite bind_ok. cbn [negb]. rewrite E, bind_ok.
    rewrite drop_at by (unfold left_at in H1; lia). cbn [cstring_of]. unfold left_at in Hf.
    destruct (Z.eqb_spec (at_ (file r) p) 0) as [E10|N10]; [exists (advance r1 1); done|].
    specialize (IH (advance r1 1) (p + 1) (s ++ [at_ (file r) p]) Hr1). unfold left_at in IH. cbn [file advance] in IH. rewrite Hf1 in IH.
    specialize (IH ltac:(lia)). destruct (cstring_of _ _) as [[b t] n]. destruct IH as (r' & -> & Hr' & Hf'). exists r'. by replace (p + (n + 1)) with (p + 1 + n) by lia.
Qed.

Lemma ReadNBytes_ok r p n : reads_at r p → 0 ≤ n ≤ left_at r p →
  ∃ r', ReadNBytesOrDie r n = Ok (r', take (Z.to_nat n) (drop (Z.to_nat p) (file r))) ∧ reads_at r' (p + n) ∧ file r' = file r.
Proof.
  intros Hr Hn. assert (0 ≤ p) as H0 by (destruct Hr; lia). unfold ReadNBytesOrDie, left_at in *.
  match goal with |- context [for_ _ _ _ ?b] => destruct (for_inv (λ i '(r', l), reads_at r' (p + i) ∧ file r' = file r ∧
    l = take (Z.to_nat i) (drop (Z.to_nat p) (file r))) 0 n (r, []) b) as ([r' l] & E & Hr' & Hf & ->) end; [lia| | |].
  - rewrite Z.add_0_r. done.
  - intros i [r1 l] Hi (Hr1 & Hf & ->). destruct (byte_ok r1 (p + i)) as (r2 & -> & E & Hr2 & Hf2); [done|unfold left_at; rewrite Hf; lia|].
    rewrite bind_ok. cbn [negb]. rewrite E, bind_ok. eexists. split; [done|]. replace (p + (i + 1)) with (p + i + 1) by lia. split; [done|]. cbn. split; [by rewrite Hf2|].
    replace (Z.to_nat (i + 1)) with (S (Z.to_nat i)) by lia. symmetry. apply take_S_r. rewrite lookup_drop, Hf. unfold at_.
    replace (Z.to_nat p + Z.to_nat i)%nat with (Z.to_nat (p + i)) by lia. apply list_lookup_lookup_total_lt. lia.
  - exists r'. done.
Qed.

(** ** Requests *)
Inductive request :=
  | RInt | RUnsignedInt | RLong | RUnsignedLong | RShort | RUnsignedShort | RChar | RUnsignedChar | RDouble | RFloat
  | RBytes (n : Z) | RLine | RCString | RSeek (q : Z) | RAtEnd.

Inductive answer :=
  | Number (v : option Z)
  | Text (found : bool) (s : list Z)
  | Flag (b : bool).

Definition number (f : Reader → res (Reader * option Z)) (r : Reader) : res (Reader * answer) :=
  '(r, v) ← f r; Ok (r, Number v).

Definition ask (q : request) (r : Reader) : res (Reader * answer) :=
  match q with
  | RInt => number ReadInt r
  | RUnsignedInt => number ReadUnsignedInt r
  | RLong => number ReadLong r
  | RUnsignedLong => number ReadUnsignedLong r
  | RShort => number ReadShort r
  | RUnsignedShort => number ReadUnsignedShort r
  | RChar => number ReadChar r
  | RUnsignedChar => number ReadUnsignedChar r
  | RDouble => number ReadDouble r
  | RFloat => number ReadFloat r
  | RBytes n => '(r, s) ← ReadNBytesOrDie r n; Ok (r, Text true s)
  | RLine => '(r, b, s) ← GetLine r; Ok (r, Text b s)
  | RCString => '(r, b, s) ← ReadCString r; Ok (r, Text b s)
  | RSeek q => r ← SeekTo r q; Ok (r, Flag true)
  | RAtEnd => Ok (r, Flag (AtEnd r))
  end.

Definition ask_all (qs : list request) (r : Reader) : res (Reader * list answer) :=
  foldM (λ q '(r, l), '(r, a) ← ask q r; Ok (r, l ++ [a])) qs (r, []).

(** The specification: a position in the bytes of the file.  [None] is a request that a
    reader of the file should not make: a value of which only a part is left, or a seek
    to a place outside. *)
Definition value_at (f : list Z) (p k : Z) (conv : Z → Z) : option (Z * answer) :=
  let n := Z.of_nat (length f) - p in
  if n =? 0 then Some (p, Number None)
  else if k <=? n then Some (p + k, Number (Some (conv (of_le (take (Z.to_nat k) (drop (Z.to_nat p) f)))))) else None.

Definition answer_at (f : list Z) (p : Z) (q : request) : option (Z * answer) :=
  match q with
  | RInt => value_at f p 4 s32
  | RUnsignedInt => value_at f p 4 id
  | RLong => value_at f p 8 s64
  | RUnsignedLong => value_at f p 8 id
  | RShort => value_at f p 2 s16
  | RUnsignedShort => value_at f p 2 id
  | RChar => value_at f p 1 s8
  | RUnsignedChar => value_at f p 1 id
  | RDouble => value_at f p 8 id
  | RFloat => value_at f p 4 id
  | RBytes n => if (0 <=? n) && (n <=? Z.of_nat (length f) - p)
                then Some (p + n, Text true (take (Z.to_nat n) (drop (Z.to_nat p) f))) else None
  | RLine => let '(b, s, n) := line_of (drop (Z.to_nat p) f) [] in Some (p + n, Text b s)
  | RCString => let '(b, s, n) := cstring_of (drop (Z.to_nat p) f) [] in Some (p + n, Text b s)
  | RSeek q => if (0 <=? q) && (q <? Z.of_nat (length f)) then Some (q, Flag true) else None
  | RAtEnd => Some (p, Flag (p =? Z.of_nat (length f)))
  end.

Fixpoint answers_at (f : list Z) (p : Z) (qs : list request) : option (list answer) :=
  match qs with
  | [] => Some []
  | q :: qs =>
      match answer_at f p q with
      | Some (p, a) => match answers_at f p qs with Some l => Some (a :: l) | None => None end
      | None => None
      end
  end.

Lemma read_as_ok r p k conv p' a : reads_at r p → 1 ≤ k ≤ 100 → value_at (file r) p k conv = Some (p', a) →
  ∃ r', number (read_as k conv) r = Ok (r', a) ∧ reads_at r' p' ∧ file r' = file r.
Proof.
  intros Hr Hk H. unfold value_at in H. unfold number, read_as. destruct (Z.eqb_spec (Z.of_nat (length (file r)) - p) 0) as [E|Hne].
  - injection H as <- <-. rewrite (Read_k_end r p k) by (done || unfold left_at; lia). rewrite !bind_ok. by exists r.
  - destruct (Z.leb_spec k (Z.of_nat (length (file r)) - p)) as [Hle|]; [|done]. injection H as <- <-.
    destruct (Read_k_ok r p k Hr Hk) as (r' & -> & Hr' & Hf); [done|]. rewrite !bind_ok. by exists r'.
Qed.

Lemma ask_ok r p q p' a : reads_at r p → answer_at (file r) p q = Some (p', a) →
  ∃ r', ask q r = Ok (r', a) ∧ reads_at r' p' ∧ file r' = file r.
Proof.
  intros Hr H. destruct q; cbn [answer_at ask] in *; try (eapply read_as_ok; [exact Hr| |exact H]; lia).
  - destruct (Z.leb_spec 0 n), (Z.leb_spec n (Z.of_nat (length (file r)) - p)); try done. injection H as <- <-.
    destruct (ReadNBytes_ok r p n Hr) as (r' & -> & Hr' & Hf); [by unfold left_at|]. rewrite bind_ok. by exists r'.
  - unfold GetLine. pose proof (GetLine_loop_ok (S (length (file r))) r p [] Hr ltac:(destruct Hr; unfold left_at; lia)) as G.
    destruct (line_of _ _) as [[b s] n]. injection H as <- <-. destruct G as (r' & -> & Hr' & Hf). rewrite bind_ok. by exists r'.
  - unfold ReadCString. pose proof (ReadCString_loop_ok (S (length (file r))) r p [] Hr ltac:(destruct Hr; unfold left_at; lia)) as G.
    destruct (cstring_of _ _) as [[b s] n]. injection H as <- <-. destruct G as (r' & -> & Hr' & Hf). rewrite bind_ok. by exists r'.
  - destruct (Z.leb_spec 0 q), (Z.ltb_spec q (Z.of_nat (length (file r)))); try done. injection H as <- <-.
    destruct (SeekTo_ok r p q Hr ltac:(lia)) as (r' & -> & Hr' & Hf). rewrite bind_ok. by exists r'.
  - injection H as <- <-. exists r. split; [|done]. do 3 f_equal. unfold AtEnd. destruct Hr.
    rewrite (proj2 (Z.eqb_eq (overflow_size_ r) 0)) by done. rewrite andb_true_r.
    destruct (Z.eqb_spec (buf_ptr_ r) (end_read_ r)), (Z.eqb_spec (remaining_ r) 0), (Z.eqb_spec p (Z.of_nat (length (file r)))); done || lia.
Qed.

(** C27: the buffered reader is the file: for every sequence of reads, lines, strings,
    seeks and end tests, of any file, the answers are those of the bytes of the file at
    a position, across all refills of the buffer and whatever new memory contains, as
    long as no value is cut by the end of the file and no seek leaves it or goes to its
    end ([truncated_int_read], [seek_to_end_keeps_buffer]). *)
Theorem reader_refines_file f fresh qs l : (∀ n, length (fresh n) = Z.to_nat n) → answers_at f 0 qs = Some l →
  ∃ r r', Reader_new f fresh = Ok r ∧ ask_all qs r = Ok (r', l).
Proof.
  intros Hfr Hl. destruct (Reader_new_ok f fresh Hfr) as (r & E & Hr & Hf). exists r.
  enough (∀ qs r p l0 l, reads_at r p → file r = f → answers_at f p qs = Some l →
    ∃ r', foldM (λ q '(r, l), '(r, a) ← ask q r; Ok (r, l ++ [a])) qs (r, l0) = Ok (r', l0 ++ l)) as G.
  { destruct (G qs r 0 [] l Hr Hf Hl) as (r' & E'). by exists r'. }
  clear. intros qs. induction qs as [|q qs IH]; intros r p l0 l Hr Hf H; cbn [answers_at] in H.
  - injection H as <-. exists r. by rewrite app_nil_r.
  - destruct (answer_at f p q) as [[p' a]|] eqn:Ea; [|done]. destruct (answers_at f p' qs) as [l'|] eqn:El; [|done]. injection H as <-.
    rewrite <- Hf in Ea. destruct (ask_ok r p q p' a Hr Ea) as (r1 & E1 & Hr1 & Hf1). cbn [foldM]. rewrite E1, !bind_ok.
    destruct (IH r1 p' (l0 ++ [a]) l' Hr1 ltac:(congruence) El) as (r' & E'). exists r'. rewrite E', <- app_assoc. done.
Qed.

Lemma reader_refines_file_witness :
  let f := [1; 0; 0; 0; 65; 13; 66; 10; 254; 255; 67; 0] in
  let qs := [RInt; RLine; RShort; RCString; RAtEnd; RInt; RSeek 8; RUnsignedShort] in
  ∃ r r', Reader_new f (λ n, replicate (Z.to_nat n) 7) = Ok r ∧
    ask_all qs r = Ok (r', [Number (Some 1); Text true [65; 66]; Number (Some (-2)); Text true [67]; Flag true; Number None;
                            Flag true; Number (Some 65534)]).
Proof. cbv zeta. apply reader_refines_file; [intros n; apply length_replicate|vm_compute; reflexivity]. Defined.

(** The answers for a file read with zeros as new memory. *)
Definition answers (f : list Z) (qs : list request) : res (list answer) :=
  r ← Reader_new f (λ n, replicate (Z.to_nat n) 0); '(_, l) ← ask_all qs r; Ok l.

(** A value cut by the end of the file is not refused: the rest of it is whatever the
    buffer held.  Here the last two bytes of six are read as an [int] that ends with the
    third and fourth byte of the file. *)
Fact truncated_int_read : answers [1; 2; 3; 4; 5; 6] [RInt; RInt; RInt] =
  Ok [Number (Some 67305985); Number (Some (5 + 6 * 256 + 3 * 65536 + 4 * 16777216)); Number None].
Proof. vm_compute. reflexivity. Qed.

(** Seeking to the end of the file leaves the old buffer in place, and the next read
    delivers it. *)
Fact seek_to_end_keeps_buffer : answers [1; 0; 0; 0] [RSeek 4; RInt] = Ok [Flag true; Number (Some 1)].
Proof. vm_compute. reflexivity. Qed.

(** A seek one byte past the end is not refused, and [AtEnd] then never holds; a seek
    further out exits. *)
Fact seek_past_end : answers [1; 0; 0; 0] [RSeek 5; RAtEnd; RInt; RAtEnd] = Ok [Flag true; Flag false; Number None; Flag false] ∧
  answers [1; 0; 0; 0] [RSeek 6] = Err Exited.
Proof. vm_compute. split; reflexivity. Qed.

(** The last line of a file is reported as missing when no newline ends it. *)
Fact last_line_dropped : answers [65; 10; 66] [RLine; RLine] = Ok [Text true [65]; Text false [66]].
Proof. vm_compute. reflexivity. Qed.
