(* ===== verification/HandTree.v ===== *)
(** * Hand values from files ([hand_value_tree.cpp])

    The value of every set of one to seven cards is kept in a file and read into nested
    arrays: [tree3_[ a ][ b ][ c ]] for [a > b > c], and so on; an array is only as long
    as the card before it.  [tree<k>_] is [trees k]; the seven functions that fill them
    are one, [read_tree], at the numbers of cards 1 to 7.  The file of the values of [k]
    cards is [files k]. *)

From stdpp Require Import base list list_numbers numbers option sorting.
From S2P Require Import Prelude SBotEval BotGame TypicalCards Canon CardTree Reader.

Open Scope Z_scope.

(** An [int *], or an array of pointers; [None] is [NULL] or a pointer never written. *)
Inductive tree :=
  | Ints (l : list Z)
  | Arr (l : list (option tree)).

Record HandValueTree := mkHVT { num_board_cards_ : Z; num_cards_ : Z; trees : Z → option tree }.

Section Read.
Context (fresh : Z → list Z).

(** The loops of [ReadOne] to [ReadSeven]: an array of [bound] entries with [n] levels. *)
Fixpoint read_tree (n : nat) (bound : Z) (r : Reader) : res (Reader * tree) :=
  match n with
  | O => Err OutOfBounds
  | S O =>
      '(r, l) ← for_ 0 bound (r, []) (λ _ '(r, l), '(r, v) ← ReadIntOrDie r; Ok (r, l ++ [v]));
      Ok (r, Ints l)
  | S m =>
      let lo := Z.of_nat m in
      '(r, l) ← for_ lo bound (r, replicate (Z.to_nat (Z.min lo bound)) None) (λ i '(r, l),
        '(r, t) ← read_tree m i r; Ok (r, l ++ [Some t]));
      Ok (r, Arr l)
  end.

Definition Read_file (g : SGame) (n : nat) (file : list Z) : res tree :=
  r ← Reader_new file fresh;
  '(_, t) ← read_tree n (MaxCard g + 1) r;
  Ok t.

Definition ReadOne (g : SGame) (files : Z → list Z) (h : HandValueTree) : res HandValueTree :=
  t ← Read_file g 1 (files (num_cards_ h)); Ok (mkHVT (num_board_cards_ h) (num_cards_ h) (upd (trees h) 1 (Some t))).
Definition ReadTwo (g : SGame) (files : Z → list Z) (h : HandValueTree) : res HandValueTree :=
  t ← Read_file g 2 (files (num_cards_ h)); Ok (mkHVT (num_board_cards_ h) (num_cards_ h) (upd (trees h) 2 (Some t))).
Definition ReadThree (g : SGame) (files : Z → list Z) (h : HandValueTree) : res HandValueTree :=
  t ← Read_file g 3 (files 3); Ok (mkHVT (num_board_cards_ h) (num_cards_ h) (upd (trees h) 3 (Some t))).
Definition ReadFour (g : SGame) (files : Z → list Z) (h : HandValueTree) : res HandValueTree :=
  t ← Read_file g 4 (files 4); Ok (mkHVT (num_board_cards_ h) (num_cards_ h) (upd (trees h) 4 (Some t))).
Definition ReadFive (g : SGame) (files : Z → list Z) (h : HandValueTree) : res HandValueTree :=
  t ← Read_file g 5 (files 5); Ok (mkHVT (num_board_cards_ h) (num_cards_ h) (upd (trees h) 5 (Some t))).
Definition ReadSix (g : SGame) (files : Z → list Z) (h : HandValueTree) : res HandValueTree :=
  t ← Read_file g 6 (files 6); Ok (mkHVT (num_board_cards_ h) (num_cards_ h) (upd (trees h) 6 (Some t))).
Definition ReadSeven (g : SGame) (files : Z → list Z) (h : HandValueTree) : res HandValueTree :=
  t ← Read_file g 7 (files 7); Ok (mkHVT (num_board_cards_ h) (num_cards_ h) (upd (trees h) 7 (Some t))).

Definition set_num (h : HandValueTree) (n : Z) : HandValueTree := mkHVT (num_board_cards_ h) n (trees h).

Definition CreateAllTrees (g : SGame) (files : Z → list Z) (h : HandValueTree) : res HandValueTree :=
  if negb (num_cards_ h =? 0) then Ok h else
  h ← ReadOne g files (mkHVT (num_board_cards_ h) 1 (λ _, None));
  h ← ReadTwo g files (set_num h 2);
  h ← ReadThree g files (set_num h 3);
  h ← ReadFour g files (set_num h 4);
  h ← ReadFive g files (set_num h 5);
  h ← ReadSix g files (set_num h 6);
  ReadSeven g files (set_num h 7).

(** [HandValueTree::Create] *)
Definition CreateTree (g : SGame) (files : Z → list Z) (h : HandValueTree) : res HandValueTree :=
  if negb (num_cards_ h =? 0) then Ok h else
  nb ← NumBoardCards g (MaxStreet g);
  nh ← NumCardsForStreet g 0;
  let n := nb + nh in
  let h := mkHVT nb n (λ _, None) in
  if n =? 1 then ReadOne g files h else if n =? 2 then ReadTwo g files h else if n =? 3 then ReadThree g files h
  else if n =? 4 then ReadFour g files h else if n =? 5 then ReadFive g files h else if n =? 6 then ReadSix g files h
  else if n =? 7 then ReadSeven g files h else Ok h.
End Read.

Definition Created (h : HandValueTree) : bool := negb (num_cards_ h =? 0).

(** ** Freeing

    The walk reads the pointers it frees: [tree[ i ]] for two levels, and the arrays
    below for more. *)
Fixpoint free_walk (n : nat) (bound : Z) (t : option tree) : res unit :=
  match n with
  | O | S O => Ok tt
  | S m =>
      for_ (Z.of_nat m) bound tt (λ i _,
        match t with
        | Some (Arr l) => sub ← rd l i; match m with S (S _) => free_walk m i sub | _ => Ok tt end
        | _ => Err OutOfBounds
        end)
  end.

Definition Delete (g : SGame) (h : HandValueTree) : res HandValueTree :=
  let n := num_cards_ h in
  (if (1 <=? n) && (n <=? 7) then free_walk (Z.to_nat n) (MaxCard g + 1) (trees h n) else Ok tt);;
  Ok (mkHVT (num_board_cards_ h) 0 (λ _, None)).

Definition DeleteAllTrees (g : SGame) (h : HandValueTree) : res HandValueTree :=
  for_ 1 8 h (λ i h, Delete g (set_num h i)).

(** ** Values *)
Fixpoint tree_at (t : option tree) (idx : list Z) : res Z :=
  match idx with
  | [] => Err OutOfBounds
  | i :: rest =>
      match t, rest with
      | Some (Ints l), [] => rd l i
      | Some (Arr l), _ :: _ => o ← rd l i; tree_at o rest
      | _, _ => Err OutOfBounds
      end
  end.

(** [std::sort]: ascending. *)
Definition asc (l : list Z) : list Z := merge_sort Z.le l.

(** [Val( cards )]: the first [num_cards_] cards. *)
Definition Val (h : HandValueTree) (cards : list Z) : res Z :=
  let n := num_cards_ h in
  if n =? 1 then c ← rd cards 0; tree_at (trees h 1) [c]
  else if (2 <=? n) && (n <=? 7) then
    v ← for_ 0 n [] (λ i v, c ← rd cards i; Ok (v ++ [c]));
    tree_at (trees h n) (rev (asc v))
  else Err Exited.

(** It sets the number of cards for later calls, too. *)
Definition ValByCount (h : HandValueTree) (cards : list Z) (count : Z) : res (HandValueTree * Z) :=
  let h := set_num h count in
  v ← Val h cards; Ok (h, v).

(** The loop that merges [nb] board cards and two hole cards. *)
Fixpoint merge_cards (fuel : nat) (nb : Z) (board hole_cards : list Z) (i j b h : Z) (a : list Z) : res (list Z) :=
  if (i <? nb) || (j <? 2) then
    match fuel with
    | O => Err OutOfFuel
    | S fuel =>
        if h <? b then
          b' ← (if i + 1 <? nb then rd board (i + 1) else Ok (-1));
          a ← put (nb + 2) a b;
          merge_cards fuel nb board hole_cards (i + 1) j b' h a
        else
          h' ← (if j + 1 <? 2 then rd hole_cards (j + 1) else Ok (-1));
          a ← put (nb + 2) a h;
          merge_cards fuel nb board hole_cards i (j + 1) b h' a
    end
  else Ok a.

(** [Val( board, hole_cards )] *)
Definition Val_merged (t : HandValueTree) (board hole_cards : list Z) : res Z :=
  let n := num_cards_ t in
  if n =? 1 then h ← rd hole_cards 0; tree_at (trees t 1) [h]
  else if (n =? 2) && (num_board_cards_ t =? 1) then
    b ← rd board 0; h ← rd hole_cards 0; tree_at (trees t 2) (if b <? h then [h; b] else [b; h])
  else if (n =? 2) && (num_board_cards_ t =? 0) then
    h0 ← rd hole_cards 0; h1 ← rd hole_cards 1; tree_at (trees t 2) (if h0 <? h1 then [h1; h0] else [h0; h1])
  else if (3 <=? n) && (n <=? 7) then
    b ← rd board 0; h ← rd hole_cards 0;
    a ← merge_cards (Z.to_nat n) (n - 2) board hole_cards 0 0 b h [];
    tree_at (trees t n) a
  else Err Exited.

(** ** The strength of a hand on the river *)
Definition swap_pair (hole_cards : list Z) : res (list Z) :=
  h0 ← rd hole_cards 0; h1 ← rd hole_cards 1; Ok (if h0 <? h1 then [h1; h0] else [h0; h1]).

Definition unless_held {S} (c : Z) (board : list Z) (nb : Z) (hole : list Z) (s : S) (k : res S) : res S :=
  b ← InCards c board nb; if (b : bool) then Ok s else
  b ← InCards c hole 2; if (b : bool) then Ok s else k.

Definition GetRiverVal (g : SGame) (t : HandValueTree) (board hole_cards : list Z) : res Z :=
  nb ← NumBoardCards g (MaxStreet g);
  vb ← for_ 0 nb [] (λ i v, c ← rd board i; Ok (v ++ [c]));
  let sorted_board := rev (asc vb) in
  if 5 <? nb then Err OutOfBounds else
  sorted_hole_cards ← swap_pair hole_cards;
  hv ← Val_merged t sorted_board sorted_hole_cards;
  '(winCount, drawCount, loseCount) ← for_ 1 (MaxCard g + 1) (0, 0, 0) (λ hi_n counts,
    unless_held hi_n sorted_board nb sorted_hole_cards counts (
      for_ 0 hi_n counts (λ lo_n '(win, draw, lose),
        unless_held lo_n board nb sorted_hole_cards (win, draw, lose) (
          hv_n ← Val_merged t sorted_board [hi_n; lo_n];
          Ok (if hv_n <? hv then (win + 1, draw, lose)
              else if hv <? hv_n then (win, draw, lose + 1) else (win, draw + 1, lose))))));
  i32 (winCount * 1000 + loseCount).

(** The features of a hand on the turn: one for every river card. *)
Definition turn_features (g : SGame) (t : HandValueTree) (board hole_cards : list Z) : res (list Z) :=
  tmp ← for_ 0 4 [] (λ i l, c ← rd board i; Ok (l ++ [c]));
  for_ 0 52 [] (λ lastCard features,
    unless_held lastCard board 4 hole_cards features (
      feature ← GetRiverVal g t (tmp ++ [lastCard]) hole_cards;
      Ok (features ++ [feature]))).

(** ** Reading one value from the file *)
Fixpoint GetNumCombinations (c : Z) (num_cards : nat) : Z :=
  match num_cards with
  | O => 0
  | S O => c + 1
  | S m => fold_left (λ sum c1, sum + GetNumCombinations (c1 - 1) m) (seqZ 1 c) 0
  end.

Definition DiskRead (fresh : Z → list Z) (g : SGame) (files : Z → list Z) (cards : list Z) : res Z :=
  num_cards ← for_ 0 (MaxStreet g + 1) 0 (λ s n, k ← NumCardsForStreet g s; Ok (n + k));
  r ← Reader_new (files num_cards) fresh;
  if num_cards =? 7 then
    v ← for_ 0 7 [] (λ i v, c ← rd cards i; Ok (v ++ [c]));
    let v := asc v in
    loc ← for_ 1 7 0 (λ k loc, x ← rd v (7 - k); Ok (loc + GetNumCombinations (x - 1) (Z.to_nat (8 - k))));
    x ← rd v 0;
    let loc := if 0 <? x then loc + x else loc in
    r ← SeekTo r (loc * 4);
    '(_, i) ← ReadIntOrDie r;
    Ok i
  else Err Exited.
