(* ===== verification/HandTreeThm.v ===== *)
(** * The trees of hand values hold the file

    The sets of [n] cards are stored in the order of their descending lists.  The place
    of a set is the sum of binomial coefficients that [DiskRead] computes; the nested
    arrays filled by [read_tree] have the same value there. *)

From stdpp Require Import base list list_numbers numbers option sets sorting.
From S2P Require Import Prelude SBotEval BotGame TypicalCards Canon CanonCode RawCards Boards CardTree ShmPipe Reader HandTree.

Open Scope Z_scope.

(** ** Binomial coefficients *)
Fixpoint binom (n k : nat) : Z :=
  match k, n with
  | O, _ => 1
  | S _, O => 0
  | S k', S n' => binom n' k' + binom n' k
  end.
Definition choose (x : Z) (k : nat) : Z := binom (Z.to_nat x) k.

Lemma binom_zero n : binom n 0 = 1.
Proof. by destruct n. Qed.
Lemma binom_nonneg n k : 0 ≤ binom n k.
Proof. revert k. induction n as [|n IH]; intros [|k]; cbn; try lia. pose proof (IH k). pose proof (IH (S k)). lia. Qed.
Lemma binom_small n k : (n < k)%nat → binom n k = 0.
Proof.
  revert k. induction n as [|n IH]; intros k Hk; [destruct k; [lia|done]|]. destruct k as [|k]; [lia|]. cbn. rewrite !IH by lia. done.
Qed.
Lemma choose_step x k : 0 ≤ x → choose (x + 1) (S k) = choose x k + choose x (S k).
Proof. intros Hx. unfold choose. by replace (Z.to_nat (x + 1)) with (S (Z.to_nat x)) by lia. Qed.
Lemma choose_one x : 0 ≤ x → choose x 1 = x.
Proof.
  intros Hx. unfold choose. rewrite <- (Z2Nat.id x) at 2 by done. generalize (Z.to_nat x). intros n.
  induction n as [|n IH]; [done|]. cbn [binom]. rewrite IH. destruct n; cbn; lia.
Qed.
Lemma choose_small x k : 0 ≤ x < Z.of_nat k → choose x k = 0.
Proof. intros H. apply binom_small. lia. Qed.
Lemma choose_nonneg x k : 0 ≤ choose x k.
Proof. apply binom_nonneg. Qed.
Lemma choose_mono x y k : x ≤ y → choose x k ≤ choose y k.
Proof.
  intros H. destruct (Z.le_gt_cases y 0) as [Hy|Hy]; [unfold choose; by rewrite !Z2Nat.nonpos by lia|].
  assert (∀ d : nat, choose (Z.max x 0) k ≤ choose (Z.max x 0 + Z.of_nat d) k) as G.
  { intros d. induction d as [|d IH]; [rewrite Z.add_0_r; done|]. replace (Z.max x 0 + Z.of_nat (S d)) with (Z.max x 0 + Z.of_nat d + 1) by lia.
    destruct k as [|k]; [unfold choose; by rewrite !binom_zero|]. rewrite (choose_step (Z.max x 0 + Z.of_nat d)) by lia. pose proof (choose_nonneg (Z.max x 0 + Z.of_nat d) k). lia. }
  specialize (G (Z.to_nat (y - Z.max x 0))). rewrite Z2Nat.id in G by lia. replace (Z.max x 0 + (y - Z.max x 0)) with y in G by lia.
  unfold choose in *. replace (Z.to_nat (Z.max x 0)) with (Z.to_nat x) in G by lia. done.
Qed.

(** The place of a descending list of cards. *)
Fixpoint place_of (idx : list Z) : Z :=
  match idx with [] => 0 | i :: rest => choose i (S (length rest)) + place_of rest end.

Definition int_at (f : list Z) (j : Z) : Z := s32 (of_le (take 4 (drop (Z.to_nat (4 * j)) f))).

(** ** Reading *)
Lemma read_int_ok r j : 0 ≤ j → reads_at r (4 * j) → 4 * (j + 1) ≤ Z.of_nat (length (file r)) →
  ∃ r', ReadIntOrDie r = Ok (r', int_at (file r) j) ∧ reads_at r' (4 * (j + 1)) ∧ file r' = file r.
Proof.
  intros Hj Hr Hl. destruct (Read_k_ok r (4 * j) 4 Hr ltac:(lia)) as (r' & E & Hr' & Hf); [unfold left_at; lia|].
  exists r'. unfold ReadIntOrDie, OrDie, ReadInt, read_as. rewrite E, !bind_ok. split; [done|]. by replace (4 * (j + 1)) with (4 * j + 4) by lia.
Qed.

(** [t] has the values of the sets of [n] cards below [bound], from the [base]-th on. *)
Definition holds (f : list Z) (n : nat) (bound base : Z) (t : tree) : Prop :=
  ∀ idx, length idx = n → descends idx → (∀ i, i ∈ idx → 0 ≤ i < bound) → tree_at (Some t) idx = Ok (int_at f (base + place_of idx)).

Lemma read_tree_ok f n : ∀ bound r base, reads_at r (4 * base) → file r = f → 0 ≤ base → Z.of_nat n ≤ bound →
  4 * (base + choose bound (S n)) ≤ Z.of_nat (length f) →
  ∃ r' t, read_tree (S n) bound r = Ok (r', t) ∧ reads_at r' (4 * (base + choose bound (S n))) ∧ file r' = f ∧ holds f (S n) bound base t.
Proof.
  induction n as [|n IH]; intros bound r base Hr Hf Hb Hn Hl.
  - cbn [read_tree]. rewrite choose_one in * by lia.
    match goal with |- context [for_ _ _ ?s ?b] => destruct (for_inv (λ i '(r', l), reads_at r' (4 * (base + i)) ∧ file r' = f ∧
      Z.of_nat (length l) = i ∧ ∀ k, 0 ≤ k < i → at_ l k = int_at f (base + k)) 0 bound s b) as ([r' l] & E & Hr' & Hf' & Hll & Hv) end.
    + lia.
    + rewrite Z.add_0_r. split; [done|]. split; [done|]. split; [done|]. intros; lia.
    + intros i [r1 l] Hi (Hr1 & Hf1 & Hl1 & Hv1). destruct (read_int_ok r1 (base + i)) as (r2 & -> & Hr2 & Hf2); [lia|done|rewrite Hf1; lia|].
      rewrite bind_ok. eexists. split; [done|]. rewrite Z.add_assoc. split; [done|]. split; [congruence|]. split; [rewrite length_app; cbn; lia|].
      intros k Hk. unfold at_. destruct (decide (k = i)) as [->|].
      * rewrite lookup_total_app_r by lia. replace (Z.to_nat i - length l)%nat with 0%nat by lia. by rewrite Hf1.
      * rewrite lookup_total_app_l by lia. apply Hv1. lia.
    + rewrite E, bind_ok. exists r', (Ints l). split; [done|]. split; [done|]. split; [done|].
      intros idx Hlen _ Hin. destruct idx as [|i [|]]; try done. specialize (Hin i ltac:(by apply list_elem_of_singleton)). cbn [tree_at place_of length].
      rewrite rd_ok by lia. rewrite Hv, choose_one, Z.add_0_r by lia. done.
  - change (read_tree (S (S n)) bound r) with (
      let lo := Z.of_nat (S n) in
      '(r, l) ← for_ lo bound (r, replicate (Z.to_nat (Z.min lo bound)) None) (λ i '(r, l), '(r, t) ← read_tree (S n) i r; Ok (r, l ++ [Some t]));
      Ok (r, Arr l)). cbv zeta.
    match goal with |- context [for_ ?lo _ ?s ?b] => destruct (for_inv (λ i '(r', l), reads_at r' (4 * (base + choose i (S (S n)))) ∧ file r' = f ∧
      Z.of_nat (length l) = i ∧ ∀ k, lo ≤ k < i → ∃ t, l !! Z.to_nat k = Some (Some t) ∧ holds f (S n) k (base + choose k (S (S n))) t)
      lo bound s b) as ([r' l] & E & Hr' & Hf' & Hll & Hv) end.
    + done.
    + rewrite choose_small, Z.add_0_r by lia. split; [done|]. split; [done|]. rewrite length_replicate. split; [lia|]. intros; lia.
    + intros i [r1 l] Hi (Hr1 & Hf1 & Hl1 & Hv1).
      pose proof (choose_step i (S n) ltac:(lia)) as Hstep. pose proof (choose_mono (i + 1) bound (S (S n)) ltac:(lia)) as Hmono.
      destruct (IH i r1 (base + choose i (S (S n)))) as (r2 & t & -> & Hr2 & Hf2 & Ht); [done|done|pose proof (choose_nonneg i (S (S n))); lia|lia|lia|].
      rewrite bind_ok. eexists. split; [done|]. rewrite Hstep. replace (base + (choose i (S n) + choose i (S (S n)))) with (base + choose i (S (S n)) + choose i (S n)) by lia.
      split; [done|]. split; [done|]. split; [rewrite length_app; cbn; lia|]. intros k Hk. destruct (decide (k = i)) as [->|].
      * exists t. split; [|done]. rewrite lookup_app_r by lia. by replace (Z.to_nat i - length l)%nat with 0%nat by lia.
      * destruct (Hv1 k ltac:(lia)) as (t' & H1 & H2). exists t'. split; [|done]. by apply lookup_app_l_Some.
    + rewrite E, bind_ok. exists r', (Arr l). split; [done|]. split; [done|]. split; [done|].
      intros idx Hlen Hd Hin. destruct idx as [|i [|i2 rest]]; try done. injection Hlen as Hlen.
      pose proof (Hin i ltac:(apply elem_of_cons; by left)) as Hi. unfold descends in Hd. apply StronglySorted_inv in Hd as [Hd Hall].
      assert (Z.of_nat (S n) ≤ i) as Hni.
      { assert (∀ l b, descends l → (∀ x, x ∈ l → 0 ≤ x < b) → Z.of_nat (length l) ≤ Z.max b 0) as G.
        { clear. intros l. induction l as [|x l IHl]; intros b Hd Hx; [cbn; lia|]. unfold descends in Hd. apply StronglySorted_inv in Hd as [Hd Ha].
          pose proof (Hx x ltac:(apply elem_of_cons; by left)). rewrite Forall_forall in Ha. cbn [length]. rewrite Nat2Z.inj_succ.
          enough (Z.of_nat (length l) ≤ Z.max x 0) by lia. apply IHl; [done|]. intros y Hy. pose proof (Ha y Hy). pose proof (Hx y ltac:(apply elem_of_cons; by right)). lia. }
        specialize (G (i2 :: rest) i Hd). cbn [length] in G. rewrite Forall_forall in Hall.
        assert (Z.of_nat (S (length rest)) ≤ Z.max i 0) by (apply G; intros y Hy; pose proof (Hall y Hy); pose proof (Hin y ltac:(apply elem_of_cons; by right)); lia). lia. }
      destruct (Hv i ltac:(lia)) as (t & Ht & Hh). change (tree_at (Some (Arr l)) (i :: i2 :: rest)) with (o ← rd l i; tree_at o (i2 :: rest)). unfold rd at 1. rewrite (proj2 (Z.ltb_ge i 0)) by lia. rewrite Ht, bind_ok.
      rewrite Hh; [|cbn [length]; lia|done|].
      * f_equal. f_equal. cbn [place_of length]. rewrite Hlen. lia.
      * intros y Hy. rewrite Forall_forall in Hall. pose proof (Hall y Hy). pose proof (Hin y ltac:(apply elem_of_cons; by right)). lia.
Qed.

(** ** [GetNumCombinations] *)
Lemma combos_S c m : GetNumCombinations c (S (S m)) = fold_left (λ sum c1, sum + GetNumCombinations (c1 - 1) (S m)) (seqZ 1 c) 0.
Proof. reflexivity. Qed.

Lemma GetNumCombinations_ok n c : -1 ≤ c → GetNumCombinations c (S n) = choose (c + 1) (S n).
Proof.
  revert c. induction n as [|n IH]; intros c Hc; [cbn [GetNumCombinations]; by rewrite choose_one by lia|]. rewrite combos_S.
  destruct (decide (c = -1)) as [->|Hne]; [by rewrite choose_small by lia|].
  assert (∀ m : nat, fold_left (λ sum c1, sum + GetNumCombinations (c1 - 1) (S n)) (seqZ 1 (Z.of_nat m)) 0 = choose (Z.of_nat m + 1) (S (S n))) as G.
  { intros m. induction m as [|m IHm]; [by rewrite choose_small by lia|]. rewrite seqZ_S, fold_left_app, IHm. cbn [fold_left].
    rewrite IH by lia. replace (1 + Z.of_nat m - 1 + 1) with (Z.of_nat m + 1) by lia. replace (Z.of_nat (S m) + 1) with (Z.of_nat m + 1 + 1) by lia.
    rewrite (choose_step (Z.of_nat m + 1)) by lia. lia. }
  specialize (G (Z.to_nat c)). by rewrite Z2Nat.id in G by lia.
Qed.

(** ** Sorting *)
Lemma rev_asc l : rev (asc l) = desc l.
Proof.
  apply desc_is; [|rewrite <- Permutation_rev; apply merge_sort_Permutation].
  apply StronglySorted_Sorted. assert (StronglySorted Z.le (asc l)) as Hs by (apply (StronglySorted_merge_sort Z.le)).
  induction Hs as [|x k _ IH H]; [constructor|]. cbn [rev]. apply sorted_snoc; [done|]. intros y Hy. rewrite Forall_forall in H. apply H.
  apply list_elem_of_In, in_rev. by apply list_elem_of_In.
Qed.

Lemma asc_rev l : asc l = rev (desc l).
Proof. by rewrite <- rev_asc, rev_involutive. Qed.

Lemma take_copy (cards : list Z) n : 0 ≤ n → n ≤ Z.of_nat (length cards) →
  for_ 0 n [] (λ i v, c ← rd cards i; Ok (v ++ [c])) = Ok (take (Z.to_nat n) cards).
Proof.
  intros H0 Hn. match goal with |- for_ _ _ _ ?b = _ => destruct (for_inv (λ i l, l = take (Z.to_nat i) cards) 0 n [] b) as (l & E & ->) end; [lia|done| |done].
  intros i l Hi ->. rewrite rd_ok, bind_ok by lia. eexists. split; [done|]. replace (Z.to_nat (i + 1)) with (S (Z.to_nat i)) by lia.
  symmetry. apply take_S_r. unfold at_. apply list_lookup_lookup_total_lt. lia.
Qed.

(** Every set of cards has a place in the file. *)
Lemma place_range idx b : descends idx → (∀ i, i ∈ idx → 0 ≤ i < b) → 0 ≤ place_of idx < choose b (length idx).
Proof.
  revert b. induction idx as [|i rest IH]; intros b Hd Hin; [unfold choose; cbn; rewrite binom_zero; lia|].
  unfold descends in Hd. apply StronglySorted_inv in Hd as [Hd Hall]. rewrite Forall_forall in Hall.
  pose proof (Hin i ltac:(apply elem_of_cons; by left)) as Hi. cbn [place_of length].
  specialize (IH i Hd). pose proof (choose_step i (length rest) ltac:(lia)) as Hs. pose proof (choose_mono (i + 1) b (S (length rest)) ltac:(lia)).
  pose proof (choose_nonneg i (S (length rest))).
  assert (0 ≤ place_of rest < choose i (length rest)); [|lia]. apply IH. intros y Hy. pose proof (Hall y Hy).
  pose proof (Hin y ltac:(apply elem_of_cons; by right)). lia.
Qed.

(** The value of a set of cards. *)
Definition value_of (files : Z → list Z) (cards : list Z) : Z :=
  int_at (files (Z.of_nat (length cards))) (place_of (desc cards)).

(** A file of the values of [n] cards. *)
Definition long_enough (files : Z → list Z) : Prop :=
  ∀ n, 1 ≤ n ≤ 7 → 4 * choose 52 (Z.to_nat n) ≤ Z.of_nat (length (files n)).

Section Files.
Context (g : SGame) (Hg : holdem g) (fresh : Z → list Z) (Hfr : ∀ n, length (fresh n) = Z.to_nat n).
Context (files : Z → list Z) (Hlong : long_enough files).

Lemma MaxCard_51 : MaxCard g = 51.
Proof. unfold MaxCard. by rewrite (ho_ranks g Hg), (ho_suits g Hg). Qed.

Lemma Read_file_ok n : 1 ≤ n ≤ 7 → ∃ t, Read_file fresh g (Z.to_nat n) (files n) = Ok t ∧ holds (files n) (Z.to_nat n) 52 0 t.
Proof.
  intros Hn. unfold Read_file. rewrite MaxCard_51. destruct (Reader_new_ok (files n) fresh Hfr) as (r & -> & Hr & Hf). rewrite bind_ok.
  replace (Z.to_nat n) with (S (Z.to_nat (n - 1))) by lia. destruct (read_tree_ok (files n) (Z.to_nat (n - 1)) 52 r 0) as (r' & t & E & _ & _ & Ht).
  - done.
  - done.
  - done.
  - lia.
  - replace (S (Z.to_nat (n - 1))) with (Z.to_nat n) by lia. specialize (Hlong n Hn). lia.
  - change (51 + 1) with 52. rewrite E, bind_ok. by exists t.
Qed.

Definition loaded (h : HandValueTree) : Prop := ∀ n, 1 ≤ n ≤ 7 → ∃ t, trees h n = Some t ∧ holds (files n) (Z.to_nat n) 52 0 t.

Lemma CreateAllTrees_ok nb tr : ∃ h, CreateAllTrees fresh g files (mkHVT nb 0 tr) = Ok h ∧ loaded h ∧ num_cards_ h = 7.
Proof.
  unfold CreateAllTrees. cbn [num_cards_ Z.eqb negb num_board_cards_].
  destruct (Read_file_ok 1 ltac:(lia)) as (t1 & E1 & H1). destruct (Read_file_ok 2 ltac:(lia)) as (t2 & E2 & H2).
  destruct (Read_file_ok 3 ltac:(lia)) as (t3 & E3 & H3). destruct (Read_file_ok 4 ltac:(lia)) as (t4 & E4 & H4).
  destruct (Read_file_ok 5 ltac:(lia)) as (t5 & E5 & H5). destruct (Read_file_ok 6 ltac:(lia)) as (t6 & E6 & H6).
  destruct (Read_file_ok 7 ltac:(lia)) as (t7 & E7 & H7).
  unfold ReadOne, ReadTwo, ReadThree, ReadFour, ReadFive, ReadSix, ReadSeven, set_num. cbn [num_cards_ num_board_cards_ trees].
  change (Z.to_nat 1) with 1%nat in E1. change (Z.to_nat 2) with 2%nat in E2. change (Z.to_nat 3) with 3%nat in E3. change (Z.to_nat 4) with 4%nat in E4.
  change (Z.to_nat 5) with 5%nat in E5. change (Z.to_nat 6) with 6%nat in E6. change (Z.to_nat 7) with 7%nat in E7.
  rewrite E1, !bind_ok. cbn [num_cards_ num_board_cards_ trees]. rewrite E2, !bind_ok. cbn [num_cards_ num_board_cards_ trees].
  rewrite E3, !bind_ok, E4, !bind_ok, E5, !bind_ok, E6, !bind_ok, E7, bind_ok. eexists. split; [done|]. split; [|done]. cbn [trees].
  intros n Hn. assert (n = 1 ∨ n = 2 ∨ n = 3 ∨ n = 4 ∨ n = 5 ∨ n = 6 ∨ n = 7) as E by lia.
  destruct_or! E; subst n; eexists; (split; [reflexivity|done]).
Qed.

Lemma desc_cards cards : NoDup cards → Forall card cards → descends (desc cards) ∧ ∀ i, i ∈ desc cards → 0 ≤ i < 52.
Proof.
  intros Hn Hc. split; [by apply desc_descends|]. intros i Hi. rewrite (desc_perm _) in Hi. rewrite Forall_forall in Hc. by apply Hc.
Qed.

Lemma tree_value h cards : loaded h → 1 ≤ Z.of_nat (length cards) ≤ 7 → NoDup cards → Forall card cards →
  tree_at (trees h (Z.of_nat (length cards))) (desc cards) = Ok (value_of files cards).
Proof.
  intros Hh Hl Hn Hc. destruct (Hh _ Hl) as (t & -> & Ht). destruct (desc_cards cards Hn Hc) as [Hd Hin].
  rewrite Ht; [done| |done|done]. by rewrite (Permutation_length (desc_perm _)), Nat2Z.id.
Qed.

Lemma ValByCount_ok h cards : loaded h → 1 ≤ Z.of_nat (length cards) ≤ 7 → NoDup cards → Forall card cards →
  ValByCount h cards (Z.of_nat (length cards)) = Ok (set_num h (Z.of_nat (length cards)), value_of files cards).
Proof.
  intros Hh Hl Hn Hc. pose proof (tree_value h cards Hh Hl Hn Hc) as HT. unfold ValByCount, Val. cbn [num_cards_ set_num trees].
  destruct (Z.eqb_spec (Z.of_nat (length cards)) 1) as [E|Hne].
  - destruct cards as [|c [|]]; cbn in E; try lia. change (rd [c] 0) with (Ok c). rewrite bind_ok. change (Z.of_nat (length [c])) with 1 in HT.
    change (desc [c]) with [c] in HT. by rewrite HT.
  - rewrite (proj2 (Z.leb_le 2 _)), (proj2 (Z.leb_le _ 7)) by lia. cbn [andb]. rewrite take_copy, bind_ok, Nat2Z.id, firstn_all, rev_asc by lia. by rewrite HT.
Qed.

(** The offset that [DiskRead] computes is the place. *)
Lemma DiskRead_ok cards : length cards = 7%nat → NoDup cards → Forall card cards → DiskRead fresh g files cards = Ok (value_of files cards).
Proof.
  intros Hl Hn Hc. unfold DiskRead. unfold MaxStreet. rewrite (ho_street g Hg).
  assert (for_ 0 (3 + 1) 0 (λ s n, k ← NumCardsForStreet g s; Ok (n + k)) = Ok 7) as ->.
  { unfold NumCardsForStreet. by rewrite (ho_cards g Hg). }
  rewrite bind_ok. destruct (Reader_new_ok (files 7) fresh Hfr) as (r & -> & Hr & Hf). rewrite bind_ok. cbn [Z.eqb Pos.eqb].
  rewrite take_copy, bind_ok by lia. change (Z.to_nat 7) with 7%nat. rewrite <- Hl, firstn_all, asc_rev.
  destruct (desc_cards cards Hn Hc) as [Hd Hin]. pose proof (place_range _ _ Hd Hin) as Hp.
  assert (length (desc cards) = 7%nat) as Hld by (by rewrite (Permutation_length (desc_perm _))).
  unfold value_of. rewrite Hl. change (Z.of_nat 7) with 7. set (d := desc cards) in *. clearbody d. clear Hl Hn Hc.
  destruct d as [|x6 [|x5 [|x4 [|x3 [|x2 [|x1 [|x0 [|]]]]]]]]; try done.
  assert (0 ≤ x6 ∧ 0 ≤ x5 ∧ 0 ≤ x4 ∧ 0 ≤ x3 ∧ 0 ≤ x2 ∧ 0 ≤ x1 ∧ 0 ≤ x0) as (P6 & P5 & P4 & P3 & P2 & P1 & P0).
  { repeat split; apply Hin; rewrite !elem_of_cons; tauto. }
  assert (∀ x n, 0 ≤ x → GetNumCombinations (x - 1) (S n) = choose x (S n)) as HG.
  { intros x n Hx. rewrite GetNumCombinations_ok by lia. f_equal. lia. }
  unfold for_. change (seqZ 1 (7 - 1)) with [1; 2; 3; 4; 5; 6]. cbn [foldM rev app].
  repeat match goal with |- context [rd [x0; x1; x2; x3; x4; x5; x6] ?e] =>
    let v := eval vm_compute in (Z.to_nat e) in
    let x := eval cbn in ([x0; x1; x2; x3; x4; x5; x6] !! v) in
    match x with Some ?y => change (rd [x0; x1; x2; x3; x4; x5; x6] e) with (@Ok Z y) end end.
  rewrite !bind_ok.
  change (Z.to_nat (8 - 1)) with 7%nat. change (Z.to_nat (8 - 2)) with 6%nat. change (Z.to_nat (8 - 3)) with 5%nat.
  change (Z.to_nat (8 - 4)) with 4%nat. change (Z.to_nat (8 - 5)) with 3%nat. change (Z.to_nat (8 - 6)) with 2%nat. rewrite !HG by done.
  set (loc := 0 + choose x6 7 + choose x5 6 + choose x4 5 + choose x3 4 + choose x2 3 + choose x1 2).
  assert ((if 0 <? x0 then loc + x0 else loc) = place_of [x6; x5; x4; x3; x2; x1; x0]) as ->.
  { cbn [place_of length]. rewrite choose_one by done. unfold loc. destruct (Z.ltb_spec 0 x0); lia. }
  set (p := place_of _) in *. specialize (Hlong 7 ltac:(lia)). change (Z.to_nat 7) with 7%nat in Hlong. cbn [length] in Hp.
  destruct (SeekTo_ok r 0 (p * 4) Hr) as (r1 & -> & Hr1 & Hf1); [rewrite Hf; lia|]. rewrite bind_ok.
  destruct (read_int_ok r1 p) as (r2 & -> & _); [lia|by replace (4 * p) with (p * 4) by lia|rewrite Hf1, Hf; lia|]. by rewrite bind_ok, Hf1, Hf.
Qed.
End Files.

(** ** Merging *)
Lemma merge_cards_ok nb board hole : ∀ fuel (bs hs a : list Z) i j, 0 ≤ i → 0 ≤ j →
  drop (Z.to_nat i) board = bs → drop (Z.to_nat j) hole = hs → Z.of_nat (length board) = nb → length hole = 2%nat → i ≤ nb → j ≤ 2 →
  (length bs + length hs ≤ fuel)%nat → (length a + length bs + length hs ≤ Z.to_nat (nb + 2))%nat →
  (∀ x, x ∈ bs ++ hs → 0 ≤ x) → descends bs → descends hs → (∀ x, x ∈ bs → x ∉ hs) →
  ∃ m, merge_cards fuel nb board hole i j (hd (-1) bs) (hd (-1) hs) a = Ok (a ++ m) ∧ m ≡ₚ bs ++ hs ∧ descends m.
Proof.
  intros fuel. induction fuel as [|fuel IH]; intros bs hs a i j Hi Hj Hb Hh Hlb Hlh Hin Hjn Hf Ha Hpos Hdb Hdh Hdis.
  - assert (length bs = 0%nat ∧ length hs = 0%nat) as [L1 L2] by lia. destruct bs, hs; try done.
    apply (f_equal length) in Hb, Hh. rewrite length_drop in Hb, Hh. cbn in Hb, Hh. cbn [merge_cards].
    rewrite (proj2 (Z.ltb_ge i nb)), (proj2 (Z.ltb_ge j 2)) by lia. cbn [orb]. exists []. rewrite app_nil_r. split; [done|]. split; [done|constructor].
  - assert (Z.of_nat (length bs) = nb - i) as Lb by (rewrite <- Hb, length_drop; lia).
    assert (Z.of_nat (length hs) = 2 - j) as Lh by (rewrite <- Hh, length_drop; lia).
    cbn [merge_cards]. destruct (decide (bs = [] ∧ hs = [])) as [[-> ->]|Hne].
    { cbn in Lb, Lh. rewrite (proj2 (Z.ltb_ge i nb)), (proj2 (Z.ltb_ge j 2)) by lia. cbn [orb]. exists []. rewrite app_nil_r. split; [done|]. split; [done|constructor]. }
    assert ((i <? nb) || (j <? 2) = true) as ->.
    { apply orb_true_iff. destruct (decide (i < nb)); [left; lia|right]. assert (length hs ≠ 0%nat) as Hz; [|lia]. intros E. apply Hne.
      assert (length bs = 0%nat) by lia. by destruct bs, hs. }
    assert (∀ (l k : list Z) q n, 0 ≤ q → drop (Z.to_nat q) l = k → Z.of_nat (length l) = n → k ≠ [] →
      (if q + 1 <? n then rd l (q + 1) else Ok (-1)) = Ok (hd (-1) (tl k)) ∧ drop (Z.to_nat (q + 1)) l = tl k) as Hnext.
    { clear. intros l k q n Hq Hk Hn Hne. replace (Z.to_nat (q + 1)) with (S (Z.to_nat q)) by lia.
      assert (drop (S (Z.to_nat q)) l = tl k) as Hd by (rewrite <- Hk; replace (S (Z.to_nat q)) with (Z.to_nat q + 1)%nat by lia; rewrite <- drop_drop; by destruct (drop (Z.to_nat q) l)).
      split; [|done]. pose proof (f_equal length Hd) as Hlen. rewrite length_drop in Hlen. destruct (Z.ltb_spec (q + 1) n).
      - rewrite rd_ok by lia. f_equal. unfold at_. replace (Z.to_nat (q + 1)) with (S (Z.to_nat q)) by lia.
        rewrite <- Hd. rewrite (drop_S _ (l !!! S (Z.to_nat q))); [done|]. apply list_lookup_lookup_total_lt. lia.
      - destruct (tl k); [done|cbn in Hlen; lia]. }
    destruct (Z.ltb_spec (hd (-1) hs) (hd (-1) bs)) as [Hlt|Hge].
    + destruct bs as [|x bs]; [destruct hs as [|y hs]; [cbn in Hlt; lia|]; cbn in Hlt; pose proof (Hpos y ltac:(cbn; apply elem_of_cons; by left)); lia|].
      destruct (Hnext board (x :: bs) i nb Hi Hb Hlb ltac:(done)) as [-> Hd]. rewrite bind_ok. cbn [hd length] in *.
      rewrite put_ok, bind_ok by lia. cbn [tl] in Hd. unfold descends in Hdb. apply StronglySorted_inv in Hdb as [Hdb Hall]. rewrite Forall_forall in Hall.
      destruct (IH bs hs (a ++ [x]) (i + 1) j) as (m & E & Hm & Hdm); try done; try lia.
      * rewrite length_app. cbn [length]. lia.
      * intros y Hy. apply Hpos. apply elem_of_cons. by right.
      * intros y Hy. apply Hdis. apply elem_of_cons. by right.
      * exists (x :: m). cbn [tl]. rewrite E, <- app_assoc. split; [done|]. split; [cbn; by constructor|].
        constructor; [done|]. rewrite Forall_forall. intros y Hy. rewrite Hm in Hy. apply elem_of_app in Hy as [Hy|Hy]; [by apply Hall|].
        destruct hs as [|z hs]; [by apply not_elem_of_nil in Hy|]. cbn in Hlt. apply elem_of_cons in Hy as [->|Hy]; [lia|].
        unfold descends in Hdh. apply StronglySorted_inv in Hdh as [_ Hz]. rewrite Forall_forall in Hz. specialize (Hz y Hy). lia.
    + destruct hs as [|y hs].
      { destruct bs as [|x bs]; [by destruct Hne|]. cbn in Hge. pose proof (Hpos x ltac:(cbn; apply elem_of_cons; by left)). lia. }
      destruct (Hnext hole (y :: hs) j 2 Hj Hh ltac:(lia) ltac:(done)) as [-> Hd]. rewrite bind_ok. cbn [hd length] in *.
      rewrite put_ok, bind_ok by lia. cbn [tl] in Hd. unfold descends in Hdh. apply StronglySorted_inv in Hdh as [Hdh Hall]. rewrite Forall_forall in Hall.
      destruct (IH bs hs (a ++ [y]) i (j + 1)) as (m & E & Hm & Hdm); try done; try lia.
      * rewrite length_app. cbn [length]. lia.
      * intros z Hz. apply Hpos. rewrite elem_of_app, elem_of_cons. apply elem_of_app in Hz. tauto.
      * intros z Hz Hz'. apply (Hdis z Hz). apply elem_of_cons. by right.
      * exists (y :: m). cbn [tl]. rewrite E, <- app_assoc. split; [done|]. split; [rewrite Hm; by apply Permutation_middle|].
        constructor; [done|]. rewrite Forall_forall. intros z Hz. rewrite Hm in Hz. apply elem_of_app in Hz as [Hz|Hz]; [|by apply Hall].
        destruct bs as [|x bs]; [by apply not_elem_of_nil in Hz|]. cbn in Hge.
        assert (x ≠ y) by (intros ->; apply (Hdis y); apply elem_of_cons; by left).
        apply elem_of_cons in Hz as [->|Hz]; [lia|]. unfold descends in Hdb. apply StronglySorted_inv in Hdb as [_ Hx]. rewrite Forall_forall in Hx. specialize (Hx z Hz). lia.
Qed.

Lemma descends_desc l : descends l → l = desc l.
Proof.
  intros Hd. apply desc_is; [|done]. apply StronglySorted_Sorted. induction Hd as [|x k _ IH H]; [constructor|]. constructor; [done|].
  eapply Forall_impl; [done|]. intros y Hy. unfold ge. lia.
Qed.

Lemma Val_merged_ok files h board hole : loaded files h → 1 ≤ Z.of_nat (length board) ≤ 5 → num_cards_ h = Z.of_nat (length board) + 2 →
  length hole = 2%nat → descends board → descends hole → NoDup (board ++ hole) → Forall card (board ++ hole) →
  Val_merged h board hole = Ok (value_of files (board ++ hole)).
Proof.
  intros Hh Hb Hn Hl Hdb Hdh Hnd Hc. unfold Val_merged. rewrite Hn. set (nb := Z.of_nat (length board)) in *.
  rewrite (proj2 (Z.eqb_neq _ 1)), (proj2 (Z.eqb_neq _ 2)), (proj2 (Z.leb_le 3 _)), (proj2 (Z.leb_le _ 7)) by lia. cbn [andb].
  rewrite !rd_ok, !bind_ok by lia.
  destruct (merge_cards_ok nb board hole (Z.to_nat (nb + 2)) board hole [] 0 0) as (m & E & Hm & Hd); try done; try lia.
  - cbn [length]. lia.
  - intros x Hx. rewrite Forall_forall in Hc. apply Hc in Hx. unfold card in Hx. lia.
  - apply NoDup_app in Hnd as (_ & Hdis & _). intros x Hx. by apply Hdis.
  - replace (at_ board 0) with (hd (-1) board) by (unfold nb in Hb; destruct board; [cbn in Hb; lia|done]).
    replace (at_ hole 0) with (hd (-1) hole) by (by destruct hole). replace (nb + 2 - 2) with nb by lia. rewrite E, bind_ok. cbn [app].
    rewrite (descends_desc m Hd), (desc_ext _ _ Hm).
    replace (nb + 2) with (Z.of_nat (length (board ++ hole))) by (rewrite length_app; lia). apply tree_value; [done|rewrite length_app; lia|done|done].
Qed.

(** C28: the trees of hand values hold their files.  From files long enough for all sets
    of one to seven cards [CreateAllTrees] returns; then [ValByCount] of any different
    cards, in any order, is the value their file has at the place of the set in the
    order of descending lists; the version that merges a sorted board and sorted hole
    cards gives the same value; and [DiskRead], which computes the place with binomial
    sums, reads that value from the file without the trees. *)
Theorem hand_values_agree g fresh files nb tr : holdem g → (∀ n, length (fresh n) = Z.to_nat n) → long_enough files →
  ∃ h, CreateAllTrees fresh g files (mkHVT nb 0 tr) = Ok h ∧
    (∀ cards, 1 ≤ Z.of_nat (length cards) ≤ 7 → NoDup cards → Forall card cards →
       ValByCount h cards (Z.of_nat (length cards)) = Ok (set_num h (Z.of_nat (length cards)), value_of files cards)) ∧
    (∀ board hole, 1 ≤ Z.of_nat (length board) ≤ 5 → length hole = 2%nat → descends board → descends hole →
       NoDup (board ++ hole) → Forall card (board ++ hole) →
       Val_merged (set_num h (Z.of_nat (length board) + 2)) board hole = Ok (value_of files (board ++ hole))) ∧
    (∀ cards, length cards = 7%nat → NoDup cards → Forall card cards → DiskRead fresh g files cards = Ok (value_of files cards)).
Proof.
  intros Hg Hfr Hlong. destruct (CreateAllTrees_ok g Hg fresh Hfr files Hlong nb tr) as (h & E & Hh & _). exists h. split; [done|].
  split; [|split].
  - intros cards Hl Hn Hc. by apply ValByCount_ok.
  - intros board hole Hb Hl Hdb Hdh Hnd Hc. by apply (Val_merged_ok files).
  - intros cards Hl Hn Hc. by apply DiskRead_ok.
Qed.

(** Files of zeros. *)
Lemma hand_values_agree_witness : ∃ h,
  CreateAllTrees (λ n, replicate (Z.to_nat n) 0) holdem_game (λ n, replicate (Z.to_nat (4 * choose 52 (Z.to_nat n))) 0) (mkHVT 0 0 (λ _, None)) = Ok h ∧
  ValByCount h [50; 3; 17; 8; 21] 5 = Ok (set_num h 5, value_of (λ n, replicate (Z.to_nat (4 * choose 52 (Z.to_nat n))) 0) [50; 3; 17; 8; 21]).
Proof.
  destruct (hand_values_agree holdem_game (λ n, replicate (Z.to_nat n) 0) (λ n, replicate (Z.to_nat (4 * choose 52 (Z.to_nat n))) 0) 0 (λ _, None))
    as (h & E & H & _); [apply holdem_game_ok|intros n; apply length_replicate| |].
  - intros n Hn. rewrite length_replicate. pose proof (choose_nonneg 52 (Z.to_nat n)). lia.
  - exists h. split; [exact E|]. apply (H [50; 3; 17; 8; 21]); [cbn; lia| |].
    + apply (bool_decide_unpack _). vm_compute. exact I.
    + repeat constructor; unfold card; lia.
Defined.

(** [DeleteAllTrees] crashes: the first call of [Delete] clears all pointers, the second
    one follows [tree2_]. *)
Fact DeleteAllTrees_faults g h : 1 ≤ MaxCard g → DeleteAllTrees g h = Err OutOfBounds.
Proof.
  intros Hm. unfold DeleteAllTrees, for_ at 1. change (seqZ 1 (8 - 1)) with [1; 2; 3; 4; 5; 6; 7]. cbn [foldM].
  assert (Delete g (set_num h 1) = Ok (mkHVT (num_board_cards_ h) 0 (λ _, None))) as -> by done. rewrite bind_ok.
  assert (free_walk 2 (MaxCard g + 1) None = Err OutOfBounds) as E.
  { cbn [free_walk]. unfold for_. change (Z.of_nat 1) with 1. by rewrite seqZ_cons by lia. }
  assert (Delete g (set_num (mkHVT (num_board_cards_ h) 0 (λ _, None)) 2) = Err OutOfBounds) as ->; [|done].
  unfold Delete. cbn [num_cards_ set_num trees]. change (Z.to_nat 2) with 2%nat. change ((1 <=? 2) && (2 <=? 7)) with true. by rewrite E.
Qed.
