(* ===== verification/Robot.v ===== *)
(** * From a position to a key of the strategy ([dt_robot.cpp], [cluster_hands.cpp])

    For every decision the robot checks the cards, renames the suits, finds the number
    of the board and of the hole cards, and looks the pair up in a table of clusters read
    from a file; with the node of the betting tree this is the key of the strategy.
    [STREET_BOARD_CNT] and the constants are those of [Def.h]. *)

From stdpp Require Import base list list_numbers numbers option strings.
From S2P Require Import Prelude SBotEval BotGame TypicalCards PrivateCards CardTree Reader HandTree.

Open Scope Z_scope.

Definition NUM_STREET : Z := 4.
Definition MAX_BOADRD_NUM : Z := 5.
Definition NUM_HCP : Z := 2.
Definition NUM_PLAYER : Z := 2.
Definition NUM_CARDS : Z := 52.
Definition STREET_BOARD_CNT : list Z := [0; 3; 4; 5].

Record ActionInfo := mkInfo {
  board_cards : list Z; hcp_cards : list Z; info_st : Z; action_seq : list Z; bet_to : Z; num_street_bet : Z }.
Definition ActionInfo_new : ActionInfo := mkInfo [99; 99; 99; 99; 99] [99; 99] (-1) (bytes "null") 0 (-1).

Record NodeInfo := mkNode { node_id_ : Z; street_ : Z; acting_player_ : Z; child_node_ : list (list Z) }.
Record CFRKey := mkKey { key_st : Z; key_node_id : Z; key_pa : Z; key_offset : Z; key_num_succ : Z }.

Definition ERR_CONFIG_INVALID_GAME : Z := -1.
Definition ERR_INVALID_CARD : Z := -902.
Definition ERR_MISMATCH_ACTION_SEQ_AND_CARDS : Z := -910.

(** ** Checks *)
Definition CheckIfGameValid (g : SGame) : res bool :=
  if negb (MaxStreet g + 1 =? NUM_STREET) then Ok false else
  nb ← NumBoardCards g (NUM_STREET - 1);
  if negb (nb =? MAX_BOADRD_NUM) then Ok false else
  h ← NumCardsForStreet g 0;
  if negb (h =? NUM_HCP) then Ok false else
  if negb (NumPlayers g =? NUM_PLAYER) then Ok false else
  Ok (MaxCard g =? NUM_CARDS - 1).

(** One of the two loops: the cards are in the deck and not seen before. *)
Definition check_cards (cards : list Z) (n : Z) (exist_flag : list bool) : res (list bool + bool) :=
  forR 0 n exist_flag (λ i exist_flag,
    cur_card ← rd cards i;
    if (cur_card <? 0) || (NUM_CARDS <=? cur_card) then Ok (inr false) else
    b ← rd exist_flag cur_card;
    if (b : bool) then Ok (inr false) else
    exist_flag ← wr exist_flag cur_card true;
    Ok (inl exist_flag)).

Definition CheckCards (info : ActionInfo) : res bool :=
  o ← check_cards (hcp_cards info) NUM_HCP (replicate (Z.to_nat NUM_CARDS) false);
  match o with
  | inr b => Ok b
  | inl exist_flag =>
      num_board_card ← rd STREET_BOARD_CNT (info_st info);
      o ← check_cards (board_cards info) num_board_card exist_flag;
      Ok (match o with inr b => b | inl _ => true end)
  end.

(** ** Clusters *)
Record ClusterHands := mkClusters {
  none_ : list bool; short_flag_ : list (option (list Z)); int_cluster_ : list (option (list Z)); num_cluster_ : list Z }.

Definition GetClusterIdx (c : ClusterHands) (st h : Z) : res Z :=
  s ← rd (short_flag_ c) st;
  match s with
  | Some l => rd l h
  | None => i ← rd (int_cluster_ c) st; match i with Some l => rd l h | None => Err OutOfBounds end
  end.

(** [CardAbstraction( params )]: the name of the clustering of every street. *)
Definition Bucketings {D} (g : SGame) (p : @Params D) : res (list (list Z)) :=
  _ ← GetStringValue p (bytes "CardAbstractionName");
  s ← GetStringValue p (bytes "Bucketings");
  l ← Split s 44 false;
  if Z.of_nat (length l) <? MaxStreet g + 1 then Err Exited else Ok l.

Section Clusters.
Context (fresh : Z → list Z) (g : SGame) (t : PCardTree).

(** Reading [n] values into a new array. *)
Definition read_values (read : Reader → res (Reader * Z)) (n : Z) (r : Reader) : res (list Z) :=
  '(_, l) ← for_ 0 n (r, []) (λ _ '(r, l), '(r, v) ← read r; Ok (r, l ++ [v])); Ok l.

(** The tables of a street: the size of the file decides how wide its entries are. *)
Definition read_clusters (st : Z) (file : list Z) : res (option (list Z) * option (list Z)) :=
  num_hole_card_pairs ← NumHoleCardPairs g st;
  let num_hands := u32 (u32 (num_boards_ t st) * u32 num_hole_card_pairs) in
  r ← Reader_new file fresh;
  if file_size_ r =? num_hands * 2 then l ← read_values ReadUnsignedShortOrDie num_hands r; Ok (Some l, None)
  else if file_size_ r =? num_hands * 4 then l ← read_values ReadIntOrDie num_hands r; Ok (None, Some l)
  else Err Exited.

(** [num_file st] and [bucket_file st] are the two files of a street. *)
Definition ClusterHands_new (bucketings : list (list Z)) (num_file bucket_file : Z → list Z) (numb_only : bool) : res ClusterHands :=
  '(none, num) ← for_ 0 (MaxStreet g + 1) ([], []) (λ st '(none, num),
    b ← rd bucketings st;
    if bool_decide (b = bytes "none") then Ok (none ++ [true], num ++ [0])
    else r ← Reader_new (num_file st) fresh; '(_, n) ← ReadIntOrDie r; Ok (none ++ [false], num ++ [n]));
  '(short, int) ← for_ 0 (MaxStreet g + 1) ([], []) (λ st '(short, int),
    x ← rd none st;
    if numb_only || x then Ok (short ++ [None], int ++ [None])
    else '(s, i) ← read_clusters st (bucket_file st); Ok (short ++ [s], int ++ [i]));
  Ok (mkClusters none short int num).
End Clusters.

(** ** The bucket of a hand *)
Section Bucket.
Context (g : SGame) (t : PCardTree).

(** What is in the arrays [canon_board], [canon_hole_cards] and [suit_mapping] before. *)
Context (canon_board canon_hole_cards suit_mapping : list Z).

Definition copy_cards (cards : list Z) (n : Z) : res (list Z) :=
  for_ 0 n [] (λ i l, c ← rd cards i; Ok (l ++ [c])).

(** The robot's own copy of the cards, sorted within streets. *)
Definition arrange_cards (info : ActionInfo) : res (list Z * list Z) :=
  tmp_hole_cards ← copy_cards (hcp_cards info) NUM_HCP;
  tmp_hole_cards ← SortCards tmp_hole_cards 0 NUM_HCP;
  tmp_board_cards ← copy_cards (board_cards info) MAX_BOADRD_NUM;
  '(tmp_board_cards, _) ← for_ 1 NUM_STREET (tmp_board_cards, 0) (λ st '(cards, num),
    num_street_cards ← NumCardsForStreet g st;
    cards ← SortCards cards num num_street_cards;
    Ok (cards, num + num_street_cards));
  Ok (tmp_hole_cards, tmp_board_cards).

(** The first part of [GetBucketIdx]: an error, or the number of the hand. *)
Definition HandIdx (info : ActionInfo) : res (Z * Z) :=
  '(tmp_hole_cards, tmp_board_cards) ← arrange_cards info;
  let st := info_st info in
  '(flag, bd, hcp) ←
    (if st =? 0 then hcp ← GetPrivateHandIdx_total g st tmp_hole_cards; Ok (ERR_OK, 0, hcp)
     else
       '(canon_board, canon_hole_cards, _) ←
         CanonicalizeCards g tmp_board_cards (Some tmp_hole_cards) st canon_board canon_hole_cards suit_mapping;
       '(flag, bd) ← LookupBoard_SBot g t canon_board st 0;
       if negb (flag =? ERR_OK) then Ok (flag, 0, 0) else
       hcp ← GetPrivateHandIdx g st canon_board canon_hole_cards;
       Ok (ERR_OK, bd, hcp));
  if negb (flag =? ERR_OK) then Ok (flag, 0) else
  num_hole_card_pairs ← NumHoleCardPairs g st;
  Ok (ERR_OK, u32 (u32 (u32 bd * u32 num_hole_card_pairs) + u32 hcp)).

Definition GetBucketIdx (c : ClusterHands) (info : ActionInfo) : res (Z * Z) :=
  '(flag, h) ← HandIdx info;
  if negb (flag =? ERR_OK) then Ok (flag, 0) else
  buck_idx ← GetClusterIdx c (info_st info) h;
  Ok (ERR_OK, buck_idx).

(** [random] is [int( RngGenerator::GetRng() * 100 )], used when [random_flag] is set. *)
Definition GetKey (c : ClusterHands) (random_flag : bool) (random : Z) (info : ActionInfo) (node : NodeInfo) (key : CFRKey)
  : res (Z * CFRKey) :=
  ok ← CheckCards info;
  if negb ok then Ok (ERR_INVALID_CARD, key) else
  let num_succ := Z.of_nat (length (child_node_ node)) in
  let key := mkKey (key_st key) (node_id_ node) (acting_player_ node) (key_offset key) num_succ in
  if negb (info_st info =? street_ node) then Ok (ERR_MISMATCH_ACTION_SEQ_AND_CARDS, key) else
  let key := mkKey (info_st info) (key_node_id key) (key_pa key) (key_offset key) num_succ in
  '(flag, buck_idx) ← (if random_flag then Ok (ERR_OK, random) else GetBucketIdx c info);
  if negb (flag =? ERR_OK) then Ok (flag, key) else
  offset ← i32 (buck_idx * num_succ);
  Ok (ERR_OK, mkKey (key_st key) (key_node_id key) (key_pa key) offset num_succ).
End Bucket.

(** ** Loading

    The files are arguments: what the paths of the configuration name.  The seed of the
    random numbers is part of [random] of [GetKey]. *)
Record StaticFiles := mkFiles {
  game_file : list (list Z); card_file : list (list Z);
  value_files : Z → list Z; num_files : Z → list Z; bucket_files : Z → list Z }.
Record Robot := mkRobot { rb_game : SGame; rb_tables : option (HandValueTree * PCardTree * ClusterHands) }.

Section Init.
Context {D : Type} (zero : D) (scan_lf : list Z → res (option D)) (fresh : Z → list Z).

Definition Init (f : StaticFiles) (random_flag : bool) : res (Z * option Robot) :=
  game_params ← ReadFromFile zero scan_lf (CreateGameParams zero) (game_file f);
  '(flag, game) ← Initialize game_params;
  match game with
  | None => Ok (flag, None)
  | Some g =>
      valid ← CheckIfGameValid g;
      if negb valid then Ok (ERR_CONFIG_INVALID_GAME, None) else
      if random_flag then Ok (ERR_OK, Some (mkRobot g None)) else
      h ← CreateAllTrees fresh g (value_files f) (mkHVT 0 0 (λ _, None));
      t ← Create g;
      t ← CreateLookup g t;
      card_params ← ReadFromFile zero scan_lf (CreateCardAbstractionParams zero) (card_file f);
      card_abstraction ← Bucketings g card_params;
      c ← ClusterHands_new fresh g t card_abstraction (num_files f) (bucket_files f) false;
      Ok (ERR_OK, Some (mkRobot g (Some (h, t, c))))
  end.
End Init.
