(* ===== verification/RobotThm.v ===== *)
(** * Hands and their numbers

    The robot numbers the hands of a street up to renaming of suits: the board by its
    place in the board tree, the hole cards by their place among the pairs the board
    leaves.  The number fits 32 bits and is the place of the hand in the table of
    clusters read from the file. *)

From stdpp Require Import base list list_numbers numbers option sets sorting strings.
From S2P Require Import Prelude SBotEval BotGame TypicalCards Canon CanonCode PrivateCards RawCards Boards BoardCount CardTree CardTreeThm ShmPipe Reader HandTree HandTreeThm Robot.

Open Scope Z_scope.

(** ** The robot's copy of the cards: sorted within streets *)
Definition arranged (board : list Z) : list Z := desc (take 3 board) ++ drop 3 board.

Lemma iso_order D D' : valid_deal D → Forall2 (λ cs cs', cs' ≡ₚ cs) D D' → iso D D'.
Proof.
  intros HV HF. exists (λ s, s). split; [apply renames_id|]. unfold iso_by. induction HF as [|cs cs' D D' Hp HF IH]; [constructor|].
  apply Forall_cons in HV as [Hc HV]. constructor; [|auto]. rewrite Hp. clear -Hc. induction Hc as [|c cs H _ IH]; [done|].
  rewrite fmap_cons, <- IH. unfold ren. by rewrite <- (proj2 (proj2 (deck_parts c H))).
Qed.

Lemma arranged_streets st board hole : 0 ≤ st ≤ 3 → length board = 5%nat →
  Forall2 (λ cs cs', cs' ≡ₚ cs) (deal_of st board (Some hole)) (deal_of st (arranged board) (Some (desc hole))).
Proof.
  intros Hst Hl. unfold deal_of. apply Forall2_app; [|constructor; [apply desc_perm|constructor]].
  unfold streets. apply Forall2_take. unfold arranged. assert (length (desc (take 3 board)) = 3%nat) as Hd.
  { rewrite (Permutation_length (desc_perm _)), length_take. lia. }
  rewrite take_app_length', !drop_app_ge by lia. rewrite Hd, !drop_drop. constructor; [apply desc_perm|]. constructor; [done|]. constructor; [done|constructor].
Qed.

Lemma perm_concat D D' : Forall2 (λ cs cs' : list Z, cs' ≡ₚ cs) D D' → concat D' ≡ₚ concat D.
Proof. induction 1 as [|cs cs' D D' Hp _ IH]; [done|]. cbn [concat]. by rewrite Hp, IH. Qed.

Lemma arranged_ok st board hole : 0 ≤ st ≤ 3 → length board = 5%nat → deal_ok st board hole →
  deal_ok st (arranged board) (desc hole) ∧
  iso (deal_of st board (Some hole)) (deal_of st (arranged board) (Some (desc hole))).
Proof.
  intros Hst Hl Hd. pose proof (arranged_streets st board hole Hst Hl) as HF. pose proof (perm_concat _ _ HF) as Hp. split.
  - split.
    + pose proof (board_size_mono st 3 ltac:(lia) ltac:(lia)) as B. change (board_size 3) with 5 in B. unfold arranged.
      rewrite length_app, (Permutation_length (desc_perm _)), length_take, length_drop. lia.
    + by rewrite (Permutation_length (desc_perm _)), (do_hole _ _ _ Hd).
    + rewrite Hp. apply (do_cards _ _ _ Hd).
    + rewrite Hp. apply (do_distinct _ _ _ Hd).
  - apply iso_order; [|done]. by apply (deal_ok_valid _ _ _ Hd).
Qed.

Lemma copy_cards_ok (cards : list Z) n : 0 ≤ n → n ≤ Z.of_nat (length cards) → copy_cards cards n = Ok (take (Z.to_nat n) cards).
Proof. apply take_copy. Qed.

(** ** The number of a hand *)
Section Number.
Context (g : SGame) (Hg : holdem g) (t : PCardTree) (Ht : ready t).

(** The hands of a street. *)
Definition hands (st : Z) : Z := (if st =? 0 then 1 else num_boards_ t st) * hole_pairs st.

Lemma hands_bound st : 0 ≤ st ≤ 3 → 0 ≤ hands st < 4294967296.
Proof.
  intros Hst. unfold hands. destruct (Z.eqb_spec st 0) as [->|Hne]; [vm_compute; split; discriminate || reflexivity|].
  rewrite (tr_num t (proj1 Ht)) by lia. unfold all_boards. rewrite found_at by (change (street []) with 0; lia). change (street []) with 0.
  assert (st = 1 ∨ st = 2 ∨ st = 3) as E by lia. destruct_or! E; subst st.
  - pose proof (below_length 1 [] node_nil ltac:(change (street []) with 0; lia)) as H1. change (street []) with 0 in H1.
    change (fan 0 1) with 22100 in H1. change (Z.to_nat (1 - 0)) with 1%nat. change (hole_pairs 1) with 1176. lia.
  - pose proof turn_boards as H2. change (Z.to_nat (2 - 0)) with 2%nat. change (hole_pairs 2) with 1128. lia.
  - pose proof river_boards as H3. change (Z.to_nat (3 - 0)) with 3%nat. change (hole_pairs 3) with 1081. lia.
Qed.

(** The normal form of a deal as the robot uses it. *)
Lemma canon_cards st b h p m : deal_ok st b h → sorts (deal_of st b (Some h)) p m →
  NoDup (canon_board_of m st b ++ desc (ren (at_ m) <$> h)) ∧ Forall card (canon_board_of m st b ++ desc (ren (at_ m) <$> h)).
Proof.
  intros Hd Hs. pose proof (sorts_renames _ _ _ Hs) as Hm. rewrite <- canon_deal_of, (canon_concat m). pose proof (do_cards _ _ _ Hd) as HC.
  pose proof (do_distinct _ _ _ Hd) as HN. split.
  - rewrite Forall_forall in HC. apply NoDup_fmap_2_strong; [|done]. intros x y Hx Hy. apply ren_inj; auto.
  - apply Forall_fmap. eapply Forall_impl; [done|]. intros c Hc. by apply ren_card.
Qed.

Lemma two_cards h : length h = 2%nat → NoDup h → ∃ hi lo, desc h = [hi; lo] ∧ lo < hi.
Proof.
  intros Hl Hn. pose proof (desc_descends h Hn) as Hd. pose proof (Permutation_length (desc_perm h)) as E. rewrite Hl in E.
  destruct (desc h) as [|x [|y [|]]]; try done. exists x, y. split; [done|]. unfold descends in Hd.
  apply StronglySorted_inv in Hd as [_ Hd]. rewrite Forall_singleton in Hd. lia.
Qed.

Lemma pair_of b h : NoDup (b ++ desc h) → Forall card (b ++ desc h) → length h = 2%nat →
  ∃ hi lo, desc h = [hi; lo] ∧ pair_ok b hi lo.
Proof.
  intros Hn Hc Hl. apply NoDup_app in Hn as (Hb & Hdis & Hh). rewrite desc_perm in Hh. destruct (two_cards h Hl Hh) as (hi & lo & E & Hlt).
  exists hi, lo. split; [done|]. rewrite E in *. apply Forall_app in Hc as [_ Hc]. apply Forall_cons in Hc as [Hc1 Hc2].
  rewrite Forall_singleton in Hc2. unfold card in *. split; [lia|lia| |].
  - intros H. by apply (Hdis hi H), elem_of_cons; left.
  - intros H. apply (Hdis lo H), elem_of_cons. right. by apply elem_of_cons; left.
Qed.

Lemma pair_inj B hi lo hi' lo' : NoDup B → Forall card B → pair_ok B hi lo → pair_ok B hi' lo' →
  pair_number (place B hi) (place B lo) = pair_number (place B hi') (place B lo') → hi = hi' ∧ lo = lo'.
Proof.
  intros Hn Hc Hp Hp' E. destruct (place_pair _ _ _ Hn Hc Hp) as [P1 _]. destruct (place_pair _ _ _ Hn Hc Hp') as [P2 _].
  apply pair_number_inj in E as [E1 E2]; [|done..]. destruct Hp as [H1 H2 H3 H4], Hp' as [K1 K2 K3 K4].
  split; eapply place_inj; try (lia || done); by apply bool_decide_eq_true_2.
Qed.

(** What the robot is given: two arrays of fixed size. *)
Definition sized (info : ActionInfo) : Prop := length (board_cards info) = 5%nat ∧ length (hcp_cards info) = 2%nat.

Lemma sort_board b : length b = 5%nat →
  for_ 1 NUM_STREET (b, 0) (λ st '(cards, num),
    num_street_cards ← NumCardsForStreet g st; cards ← SortCards cards num num_street_cards; Ok (cards, num + num_street_cards)) =
  Ok (arranged b, 5).
Proof.
  intros Hl. unfold for_, NUM_STREET. change (seqZ 1 (4 - 1)) with [1; 2; 3]. cbn [foldM].
  rewrite !(NumCardsForStreet_ok g Hg) by lia. rewrite !bind_ok. change (cards_on 1) with 3. change (cards_on 2) with 1. change (cards_on 3) with 1.
  rewrite (SortCards_ok b 3) by lia. rewrite !bind_ok. done.
Qed.

Lemma arrange_ok info : sized info → arrange_cards g info = Ok (desc (hcp_cards info), arranged (board_cards info)).
Proof.
  intros [Hb Hh]. unfold arrange_cards, NUM_HCP, MAX_BOADRD_NUM. rewrite (copy_cards_ok (hcp_cards info)), bind_ok by lia.
  change (Z.to_nat 2) with 2%nat. rewrite (take_ge (hcp_cards info)), (SortCards_ok _ 2) by lia. change (Z.to_nat 2) with 2%nat.
  rewrite (take_ge (hcp_cards info)), (drop_ge (hcp_cards info)) by lia. rewrite app_nil_r, bind_ok, copy_cards_ok, bind_ok by lia.
  rewrite (take_ge (board_cards info)) by lia. by rewrite sort_board, bind_ok.
Qed.

Lemma pairs_of st : 0 ≤ st ≤ 3 → NumHoleCardPairs g st = Ok (hole_pairs st) ∧ 1081 ≤ hole_pairs st ≤ 1326.
Proof.
  intros Hst. unfold NumHoleCardPairs. rewrite (ho_pairs _ Hg), rd_ok by (cbn; lia). split; [done|].
  assert (st = 0 ∨ st = 1 ∨ st = 2 ∨ st = 3) as E by lia. destruct_or! E; subst st; vm_compute; split; discriminate.
Qed.

(** The index is computed without overflow. *)
Lemma index_fits st bd hcp : 0 ≤ st ≤ 3 → 0 ≤ bd < (if st =? 0 then 1 else num_boards_ t st) → 0 ≤ hcp < hole_pairs st →
  u32 (u32 (u32 bd * u32 (hole_pairs st)) + u32 hcp) = bd * hole_pairs st + hcp ∧ 0 ≤ bd * hole_pairs st + hcp < hands st.
Proof.
  intros Hst Hb Hh. pose proof (hands_bound st Hst) as Hn. pose proof (proj2 (pairs_of st Hst)) as Hp. unfold hands in *.
  assert (bd * hole_pairs st + hcp < (if st =? 0 then 1 else num_boards_ t st) * hole_pairs st) as H1 by nia.
  split; [|nia]. rewrite (u32_small bd), (u32_small (hole_pairs st)), (u32_small hcp) by nia. rewrite (u32_small (bd * _)) by nia. apply u32_small. nia.
Qed.

Context (cb ch sm : list Z) (Hcb : length cb = 5%nat) (Hch : length ch = 2%nat) (Hsm : length sm = 4%nat).

(** Before the flop the hole cards alone count, suits included. *)
Lemma HandIdx_preflop info : sized info → info_st info = 0 → deal_ok 0 (board_cards info) (hcp_cards info) →
  ∃ hi lo, desc (hcp_cards info) = [hi; lo] ∧ pair_ok [] hi lo ∧
    HandIdx g t cb ch sm info = Ok (ERR_OK, pair_number (place [] hi) (place [] lo)) ∧
    0 ≤ pair_number (place [] hi) (place [] lo) < hands 0.
Proof.
  intros [Hb Hh] Hst Hd. pose proof (do_cards _ _ _ Hd) as HC. pose proof (do_distinct _ _ _ Hd) as HN.
  change (concat (deal_of 0 (board_cards info) (Some (hcp_cards info)))) with (hcp_cards info ++ []) in HC, HN. rewrite app_nil_r in HC, HN.
  destruct (pair_of [] (hcp_cards info)) as (hi & lo & E & Hp); [cbn; by rewrite desc_perm..|done|].
  exists hi, lo. split; [done|]. split; [done|].
  unfold HandIdx. rewrite arrange_ok, bind_ok, Hst, E by done. cbn [Z.eqb].
  unfold GetPrivateHandIdx_total. rewrite (NumCardsForStreet_ok g Hg), (NumBoardCards_ok g Hg) by lia. rewrite !bind_ok.
  change (cards_on 0) with 2. change (board_size 0) with 0.
  rewrite private_index_ok by first [done|cbn; lia|constructor]. rewrite !bind_ok. change (segment 2 0 [hi; lo]) with (@nil Z).
  change (negb (ERR_OK =? ERR_OK)) with false. cbv iota.
  destruct (pairs_of 0 ltac:(lia)) as [-> _]. rewrite bind_ok.
  destruct (place_pair [] hi lo) as [P1 P2]; [constructor|constructor|done|]. change (52 - Z.of_nat (length (@nil Z))) with 52 in P2.
  destruct (index_fits 0 0 (pair_number (place [] hi) (place [] lo))) as [F1 F2]; [lia|cbn; lia| |].
  { rewrite hole_pairs_triangle by lia. by apply pair_number_range. }
  rewrite F1. split; [done|]. exact F2.
Qed.

(** The number of a hand from the flop on, in terms of its normal form. *)
Record numbered (st : Z) (info : ActionInfo) (n : Z) (p m : list Z) (bd hi lo : Z) : Prop := {
  nu_sorts : sorts (deal_of st (arranged (board_cards info)) (Some (desc (hcp_cards info)))) p m;
  nu_bd : 0 ≤ bd < num_boards_ t st;
  nu_board : boards_ t st !! Z.to_nat bd = Some (canon_board_of m st (arranged (board_cards info)));
  nu_hole : desc (ren (at_ m) <$> desc (hcp_cards info)) = [hi; lo];
  nu_pair : pair_ok (canon_board_of m st (arranged (board_cards info))) hi lo;
  nu_run : HandIdx g t cb ch sm info = Ok (ERR_OK, n);
  nu_hcp : 0 ≤ n - bd * hole_pairs st < hole_pairs st;
  nu_index : n = bd * hole_pairs st + pair_number (place (canon_board_of m st (arranged (board_cards info))) hi)
                                        (place (canon_board_of m st (arranged (board_cards info))) lo) }.

Lemma HandIdx_street info st : sized info → info_st info = st → 1 ≤ st ≤ 3 → deal_ok st (board_cards info) (hcp_cards info) →
  ∃ n p m bd hi lo, numbered st info n p m bd hi lo ∧ 0 ≤ n < hands st.
Proof.
  intros Hz Es Hst Hd. destruct (arranged_ok st (board_cards info) (hcp_cards info) ltac:(lia) (proj1 Hz) Hd) as [Hd' _].
  set (b := arranged (board_cards info)) in *. set (h := desc (hcp_cards info)) in *.
  pose proof (board_size_mono st 3 ltac:(lia) ltac:(lia)) as B. change (board_size 3) with 5 in B.
  destruct (CanonicalizeCards_ok g Hg b (Some h) st cb ch sm) as (p & m & Hs & Hm & E);
    [done|by eapply do_board|by eapply deal_ok_streets|by eapply deal_ok_hole|lia|lia|done|].
  destruct (canon_cards st b h p m Hd' Hs) as [HN HC]. set (cB := canon_board_of m st b) in *.
  assert (Z.of_nat (length cB) = board_size st) as HlB by (apply canon_board_length; [lia|by eapply do_board]).
  assert (take (Z.to_nat (board_size st)) (cB ++ drop (Z.to_nat (board_size st)) cb) = cB) as Etk by (apply take_app_length'; lia).
  destruct (pair_of cB (ren (at_ m) <$> h)) as (hi & lo & Eh & Hp); [done|done|rewrite length_fmap; apply (do_hole _ _ _ Hd')|].
  destruct (lookup_ok g Hg t st (cB ++ drop (Z.to_nat (board_size st)) cb) 0 Ht Hst) as (bd & El & Hbd & Hnth);
    [rewrite length_app; lia| |].
  { rewrite Etk. destruct (tr_shows t (proj1 Ht) st Hst) as [Hl _]. rewrite (lv_boards _ _ _ Hl). apply list_elem_of_fmap.
    exists (canon_deal m (streets st b)). split; [done|]. unfold all_boards. rewrite found_at by (change (street []) with 0; lia).
    change (street []) with 0. rewrite Z.sub_0_r. by eapply canon_in_tree. }
  rewrite Etk in Hnth.
  apply NoDup_app in HN as HN'. apply Forall_app in HC as HC'.
  destruct (GetPrivateHandIdx_ok g st (cB ++ drop (Z.to_nat (board_size st)) cb) hi lo (drop 2 ch)) as [Ep Rp];
    unfold board_of, segment; rewrite ?drop_0, ?Etk; try tauto; [lia|rewrite length_app; lia|].
  unfold board_of, segment in Ep, Rp. rewrite drop_0, Etk in Ep, Rp. set (pn := pair_number _ _) in *.
  destruct (index_fits st bd pn ltac:(lia)) as [F1 F2]; [by rewrite (proj2 (Z.eqb_neq st 0)) by lia|done|].
  exists (bd * hole_pairs st + pn), p, m, bd, hi, lo. split; [|done]. split; try done; [|lia].
  unfold HandIdx. rewrite arrange_ok, bind_ok, Es by done. fold b h. rewrite (proj2 (Z.eqb_neq st 0)) by lia.
  rewrite E, bind_ok. fold cB. rewrite El, bind_ok, Eh. cbn [app]. rewrite Ep, !bind_ok. change (negb (ERR_OK =? ERR_OK)) with false. cbv iota.
  rewrite bind_ok, (proj1 (pairs_of st ltac:(lia))), bind_ok, F1. done.
Qed.
End Number.

(** ** Equal numbers *)

(** The cards the robot accepts: those of the street are in the deck and different. *)
Record valid_hand (info : ActionInfo) : Prop := {
  vh_sized : sized info;
  vh_street : 0 ≤ info_st info ≤ 3;
  vh_deal : deal_ok (info_st info) (board_cards info) (hcp_cards info) }.

(** Hands that are the same for the robot: before the flop the hole cards are the same,
    later the cards are the same up to a renaming of suits; the order within a street
    does not count. *)
Definition same_hand (a b : ActionInfo) : Prop :=
  if info_st a =? 0 then hcp_cards a ≡ₚ hcp_cards b
  else iso (deal_of (info_st a) (board_cards a) (Some (hcp_cards a))) (deal_of (info_st a) (board_cards b) (Some (hcp_cards b))).

Section Same.
Context (g : SGame) (Hg : holdem g) (t : PCardTree) (Ht : ready t).
Context (cb ch sm : list Z) (Hcb : length cb = 5%nat) (Hch : length ch = 2%nat) (Hsm : length sm = 4%nat).

Lemma HandIdx_ok a : valid_hand a → ∃ n, HandIdx g t cb ch sm a = Ok (ERR_OK, n) ∧ 0 ≤ n < hands t (info_st a).
Proof.
  intros [Hz Hst Hd]. destruct (decide (info_st a = 0)) as [E|Hne].
  - rewrite E in *. destruct (HandIdx_preflop g Hg t Ht cb ch sm Hcb Hch Hsm a Hz E Hd) as (hi & lo & _ & _ & E1 & E2). eauto.
  - destruct (HandIdx_street g Hg t Ht cb ch sm Hcb Hch Hsm a (info_st a) Hz eq_refl ltac:(lia) Hd) as (n & p & m & bd & hi & lo & Hn & Hr).
    exists n. split; [apply (nu_run _ _ _ _ _ _ _ _ _ _ _ _ _ Hn)|done].
Qed.

Lemma desc_same h h' : desc h = desc h' ↔ h ≡ₚ h'.
Proof. split; [|apply desc_ext]. intros E. by rewrite <- (desc_perm h), E, desc_perm. Qed.

(** Two hands of a street have the same number exactly when their normal forms agree. *)
Lemma number_iff_canon st a b n p m bd hi lo n' p' m' bd' hi' lo' : 1 ≤ st ≤ 3 →
  valid_hand a → valid_hand b → info_st a = st → info_st b = st →
  numbered g t cb ch sm st a n p m bd hi lo → numbered g t cb ch sm st b n' p' m' bd' hi' lo' →
  n = n' ↔ canon_board_of m st (arranged (board_cards a)) = canon_board_of m' st (arranged (board_cards b)) ∧
           desc (ren (at_ m) <$> desc (hcp_cards a)) = desc (ren (at_ m') <$> desc (hcp_cards b)).
Proof.
  intros Hst [Za _ Da] [Zb _ Db] Ea Eb [S1 B1 N1 H1 P1 R1 C1 I1] [S2 B2 N2 H2 P2 R2 C2 I2].
  rewrite Ea in Da. rewrite Eb in Db. rewrite H1, H2. split.
  - intros <-. assert (bd = bd') as <- by nia. rewrite N1 in N2. injection N2 as EB. split; [done|].
    destruct (arranged_ok st _ _ ltac:(lia) (proj1 Za) Da) as [Da' _]. destruct (canon_cards st _ _ p m Da' S1) as [HN HC].
    apply NoDup_app in HN as [HN _]. apply Forall_app in HC as [HC _].
    rewrite <- EB in P2, I2. destruct (pair_inj _ _ _ _ _ HN HC P1 P2) as [-> ->]; [lia|done].
  - intros [EB [= -> ->]]. rewrite <- EB in N2, I2. rewrite I1, I2. do 2 f_equal.
    assert (NoDup (boards_ t st)) as Hnd.
    { destruct (tr_shows t (proj1 Ht) st Hst) as [Hl _]. rewrite (lv_boards _ _ _ Hl). by apply boards_nodup. }
    pose proof (NoDup_lookup _ _ _ _ Hnd N1 N2). lia.
Qed.

Lemma same_number a b n : valid_hand a → valid_hand b → info_st b = info_st a → HandIdx g t cb ch sm a = Ok (ERR_OK, n) →
  HandIdx g t cb ch sm b = Ok (ERR_OK, n) ↔ same_hand a b.
Proof.
  intros Va Vb Est En. pose proof Va as [Za Hst Da]. pose proof Vb as [Zb _ Db]. rewrite Est in Db. unfold same_hand.
  destruct (Z.eqb_spec (info_st a) 0) as [E|Hne].
  - rewrite E in *. destruct (HandIdx_preflop g Hg t Ht cb ch sm Hcb Hch Hsm a Za E Da) as (hi & lo & E1 & P1 & R1 & _).
    destruct (HandIdx_preflop g Hg t Ht cb ch sm Hcb Hch Hsm b Zb Est Db) as (hi' & lo' & E2 & P2 & R2 & _).
    rewrite R1 in En. injection En as <-. rewrite R2, <- desc_same, E1, E2. split; [|by intros [= <- <-]].
    intros [= E3]. symmetry in E3. apply pair_inj in E3 as [-> ->]; [done|constructor..|done|done].
  - destruct (HandIdx_street g Hg t Ht cb ch sm Hcb Hch Hsm a _ Za eq_refl ltac:(lia) Da) as (n1 & p & m & bd & hi & lo & N1 & _).
    destruct (HandIdx_street g Hg t Ht cb ch sm Hcb Hch Hsm b _ Zb Est ltac:(lia) Db) as (n2 & p' & m' & bd' & hi' & lo' & N2 & _).
    pose proof (number_iff_canon (info_st a) a b _ _ _ _ _ _ _ _ _ _ _ _ ltac:(lia) Va Vb eq_refl Est N1 N2) as HI.
    rewrite (nu_run _ _ _ _ _ _ _ _ _ _ _ _ _ N1) in En. rewrite (nu_run _ _ _ _ _ _ _ _ _ _ _ _ _ N2). injection En as ->.
    assert (Ok (ERR_OK, n2) = Ok (ERR_OK, n) ↔ n = n2) as -> by (split; congruence). rewrite HI.
    destruct (arranged_ok (info_st a) _ _ ltac:(lia) (proj1 Za) Da) as [Da' I1]. destruct (arranged_ok (info_st a) _ _ ltac:(lia) (proj1 Zb) Db) as [Db' I2].
    rewrite (canon_same_iff _ _ _ _ _ p m p' m') by first [done|lia|by eapply nu_sorts].
    destruct (deal_ok_valid _ _ _ Da) as [V1 _]. destruct (deal_ok_valid _ _ _ Db) as [V2 _]. destruct (deal_ok_valid _ _ _ Da') as [V1' _]. destruct (deal_ok_valid _ _ _ Db') as [V2' _].
    split; intros H.
    + eapply iso_trans; [done|exact I1|]. eapply iso_trans; [done|exact H|]. by apply iso_sym.
    + eapply (iso_trans _ _ _ V1'); [exact (iso_sym _ _ V1 I1)|]. exact (iso_trans _ _ _ V1 H I2).
Qed.
End Same.

(** ** Checking the cards *)

#[local] Instance card_dec c : Decision (card c).
Proof. unfold card. apply _. Defined.

(** The flags are set for the cards seen. *)
Definition marks (flags : list bool) (seen : list Z) : Prop :=
  length flags = 52%nat ∧ ∀ c, card c → flags !! Z.to_nat c = Some (bool_decide (c ∈ seen)).

Lemma marks_add flags seen c : marks flags seen → card c → marks (<[Z.to_nat c := true]> flags) (seen ++ [c]).
Proof.
  intros [Hl Hm] Hc. split; [by rewrite length_insert|]. intros d Hd. unfold card in *. destruct (decide (c = d)) as [->|Hne].
  - rewrite list_lookup_insert_eq by lia. rewrite bool_decide_eq_true_2; [done|]. rewrite elem_of_app, list_elem_of_singleton. by right.
  - rewrite list_lookup_insert_ne by lia. rewrite Hm by done. f_equal. apply bool_decide_ext.
    rewrite elem_of_app, list_elem_of_singleton. split; [tauto|]. intros [|]; [done|congruence].
Qed.

Definition new_cards (seen cs : list Z) : Prop := NoDup (seen ++ cs) ∧ Forall card cs.

Lemma check_cards_ok cards n seen flags : marks flags seen → NoDup seen → 0 ≤ n ≤ Z.of_nat (length cards) →
  ∃ o, check_cards cards n flags = Ok o ∧
    match o with
    | inl flags' => new_cards seen (take (Z.to_nat n) cards) ∧ marks flags' (seen ++ take (Z.to_nat n) cards)
    | inr b => b = false ∧ ¬ new_cards seen (take (Z.to_nat n) cards)
    end.
Proof.
  intros Hm Hn Hl. unfold check_cards. set (cs := take (Z.to_nat n) cards).
  assert (∀ i, 0 ≤ i < n → take (S (Z.to_nat i)) cards = take (Z.to_nat i) cards ++ [at_ cards i] ∧
    ∃ rest, cs = take (Z.to_nat i) cards ++ at_ cards i :: rest) as Hcs.
  { intros i Hi. assert (cards !! Z.to_nat i = Some (at_ cards i)) as Hat by (unfold at_; apply list_lookup_lookup_total_lt; lia).
    split; [by apply take_S_r|]. exists (drop (S (Z.to_nat i)) cs). transitivity (take (Z.to_nat i) cs ++ drop (Z.to_nat i) cs);
      [by rewrite take_drop|]. f_equal.
    - unfold cs. rewrite take_take. f_equal. lia.
    - apply drop_S. unfold cs. rewrite lookup_take_lt by lia. done. }
  match goal with |- context [forR _ _ _ ?body] =>
    destruct (forR_inv (λ i flags, new_cards seen (take (Z.to_nat i) cards) ∧ marks flags (seen ++ take (Z.to_nat i) cards))
      (λ x : bool, x = false ∧ ¬ new_cards seen cs) 0 n flags body) as [(o & E & Ho)|(o & E & Ho)] end.
  - lia.
  - rewrite take_0, app_nil_r. split; [|done]. split; [by rewrite app_nil_r|constructor].
  - intros i fl Hi [[Hnd Hc] [Hlf Hmf]]. destruct (Hcs i Hi) as [Es (rest & Ecs)]. rewrite rd_ok, bind_ok by lia. set (c := at_ cards i) in *.
    replace (Z.to_nat (i + 1)) with (S (Z.to_nat i)) by lia. rewrite Es.
    destruct (decide (card c)) as [Hcc|Hcc].
    2: { right. exists false. split.
         - assert ((c <? 0) || (NUM_CARDS <=? c) = true) as ->; [|done]. unfold card, NUM_CARDS in *. lia.
         - split; [done|]. intros [_ HF]. rewrite Ecs, Forall_app, Forall_cons in HF. tauto. }
    assert ((c <? 0) || (NUM_CARDS <=? c) = false) as -> by (unfold card, NUM_CARDS in *; lia).
    assert (rd fl c = Ok (bool_decide (c ∈ seen ++ take (Z.to_nat i) cards))) as ->.
    { unfold rd. rewrite (proj2 (Z.ltb_ge c 0)) by (unfold card in Hcc; lia). by rewrite Hmf. }
    rewrite bind_ok. destruct (decide (c ∈ seen ++ take (Z.to_nat i) cards)) as [Hin|Hin].
    + rewrite bool_decide_eq_true_2 by done. right. exists false. split; [done|]. split; [done|]. intros [HN _].
      rewrite Ecs, app_assoc in HN. apply NoDup_app in HN as (_ & HN & _). apply (HN c Hin). apply elem_of_cons. by left.
    + rewrite bool_decide_eq_false_2 by done. left. unfold wr. rewrite (proj2 (Z.leb_le 0 c)), (proj2 (Z.ltb_lt c _)) by (unfold card in Hcc; lia). cbn [andb].
      rewrite bind_ok. eexists. split; [done|]. rewrite app_assoc. split; [|by apply marks_add]. split.
      * rewrite app_assoc. apply NoDup_app. split; [done|]. split; [|apply NoDup_singleton]. intros x Hx. rewrite list_elem_of_singleton. by intros ->.
      * apply Forall_app. split; [done|]. by rewrite Forall_singleton.
  - exists (inl o). by split.
  - exists (inr o). by split.
Qed.

Lemma deal_concat st board hole : 0 ≤ st ≤ 3 → board_size st ≤ Z.of_nat (length board) →
  concat (deal_of st board (Some hole)) ≡ₚ hole ++ take (Z.to_nat (board_size st)) board.
Proof.
  intros Hst Hl. unfold deal_of. rewrite concat_app. cbn [concat default id]. rewrite app_nil_r, (Permutation_app_comm hole).
  destruct (decide (st = 0)) as [->|]; [done|]. by rewrite streets_concat by lia.
Qed.

(** [CheckCards] accepts exactly the valid hands. *)
Lemma CheckCards_ok info : sized info → 0 ≤ info_st info ≤ 3 → ∃ b, CheckCards info = Ok b ∧ (b = true ↔ valid_hand info).
Proof.
  intros Hz Hst. pose proof Hz as [Hb Hh]. set (st := info_st info) in *.
  pose proof (board_size_mono st 3 ltac:(lia) ltac:(lia)) as B. change (board_size 3) with 5 in B.
  set (bs := take (Z.to_nat (board_size st)) (board_cards info)).
  assert (valid_hand info ↔ new_cards [] (hcp_cards info) ∧ new_cards (hcp_cards info) bs) as HV.
  { pose proof (deal_concat st (board_cards info) (hcp_cards info) Hst ltac:(lia)) as Hp. fold bs in Hp.
    assert (valid_hand info ↔ NoDup (hcp_cards info ++ bs) ∧ Forall card (hcp_cards info ++ bs)) as ->.
    { rewrite <- Hp. split.
      - intros [_ _ Hd]. split; [apply (do_distinct _ _ _ Hd)|apply (do_cards _ _ _ Hd)].
      - intros [H1 H2]. split; [done|done|]. split; [fold st; lia|done|done|done]. }
    unfold new_cards. rewrite Forall_app, NoDup_app. cbn [app]. split; [|tauto].
    intros [(H1 & H2 & H3) [H4 H5]]. split; [tauto|]. split; [|done]. done. }
  unfold CheckCards. destruct (check_cards_ok (hcp_cards info) NUM_HCP [] (replicate (Z.to_nat NUM_CARDS) false)) as (o & -> & Ho).
  { split; [done|]. intros c Hc. unfold card in Hc. rewrite lookup_replicate_2 by (change (Z.to_nat NUM_CARDS) with 52%nat; lia).
    by rewrite bool_decide_eq_false_2 by apply not_elem_of_nil. }
  { constructor. }
  { unfold NUM_HCP. lia. }
  change (Z.to_nat NUM_HCP) with 2%nat in Ho. rewrite take_ge in Ho by lia. rewrite bind_ok. destruct o as [flags|b].
  - destruct Ho as [H1 H2]. fold st. assert (rd STREET_BOARD_CNT st = Ok (board_size st)) as -> by (apply rd_ok; cbn; lia). rewrite bind_ok.
    destruct (check_cards_ok (board_cards info) (board_size st) (hcp_cards info) flags) as (o & -> & Ho); [done|apply H1|lia|].
    fold bs in Ho. rewrite bind_ok. destruct o as [fl|b]; eexists; (split; [done|]); rewrite HV; [tauto|]. destruct Ho as [-> Ho]. split; [done|tauto].
  - destruct Ho as [-> Ho]. exists false. split; [done|]. rewrite HV. split; [done|tauto].
Qed.

(** ** Tables of clusters *)

(** The hands of a street, and the entry of a hand in the file of its street. *)
Definition hand_count (st : Z) : Z := (if st =? 0 then 1 else Z.of_nat (length (all_boards st))) * hole_pairs st.
Definition entry (k : Z) (conv : Z → Z) (f : list Z) (h : Z) : Z := conv (of_le (take (Z.to_nat k) (drop (Z.to_nat (k * h)) f))).
Definition cluster_at (f : list Z) (n h : Z) : Z := if Z.of_nat (length f) =? n * 2 then entry 2 id f h else entry 4 s32 f h.

Lemma hand_count_ok t st : tree_ok t → 0 ≤ st ≤ 3 → hands t st = hand_count st.
Proof. intros Ht Hst. unfold hands, hand_count. destruct (Z.eqb_spec st 0); [done|]. by rewrite (tr_num t Ht) by lia. Qed.

Lemma read_values_ok k conv n r : reads_at r 0 → 1 ≤ k ≤ 100 → 0 ≤ n → k * n ≤ Z.of_nat (length (file r)) →
  ∃ l, read_values (OrDie (read_as k conv)) n r = Ok l ∧ Z.of_nat (length l) = n ∧ ∀ h, 0 ≤ h < n → at_ l h = entry k conv (file r) h.
Proof.
  intros Hr Hk Hn Hl. unfold read_values.
  match goal with |- context [for_ _ _ ?s ?b] => destruct (for_inv (λ i '(r', l), reads_at r' (k * i) ∧ file r' = file r ∧
    Z.of_nat (length l) = i ∧ ∀ h, 0 ≤ h < i → at_ l h = entry k conv (file r) h) 0 n s b) as ([r' l] & E & Hr' & Hf' & Hll & Hv) end.
  - lia.
  - rewrite Z.mul_0_r. split; [done|]. split; [done|]. split; [done|]. intros; lia.
  - intros i [r1 l] Hi (Hr1 & Hf1 & Hl1 & Hv1). destruct (Read_k_ok r1 (k * i) k Hr1 Hk) as (r2 & E2 & Hr2 & Hf2); [unfold left_at; rewrite Hf1; nia|].
    unfold OrDie, read_as. rewrite E2, !bind_ok. cbn [option_map]. rewrite bind_ok. eexists. split; [done|].
    replace (k * (i + 1)) with (k * i + k) by lia. split; [done|]. split; [congruence|]. split; [rewrite length_app; cbn; lia|].
    intros h Hh. unfold at_. destruct (decide (h = i)) as [->|].
    + rewrite lookup_total_app_r by lia. replace (Z.to_nat i - length l)%nat with 0%nat by lia. cbn. unfold entry. by rewrite Hf1.
    + rewrite lookup_total_app_l by lia. apply Hv1. lia.
  - rewrite E, bind_ok. eexists. split; [done|]. split; [done|]. done.
Qed.

Section Load.
Context (g : SGame) (Hg : holdem g) (t : PCardTree) (Ht : ready t).
Context (fresh : Z → list Z) (Hfr : ∀ n, length (fresh n) = Z.to_nat n).

(** The files of the clusters: a number, and an entry of two or four bytes for every hand. *)
Record cluster_files (names : list (list Z)) (num_file bucket_file : Z → list Z) : Prop := {
  cf_names : (4 ≤ length names)%nat;
  cf_some : ∀ st, 0 ≤ st ≤ 3 → at_ names st ≠ bytes "none";
  cf_num : ∀ st, 0 ≤ st ≤ 3 → (4 ≤ length (num_file st))%nat;
  cf_size : ∀ st, 0 ≤ st ≤ 3 →
    Z.of_nat (length (bucket_file st)) = hand_count st * 2 ∨ Z.of_nat (length (bucket_file st)) = hand_count st * 4 }.

(** Of the two tables of a street one is there, and it has the entries of the file. *)
Definition table_at (f : list Z) (n : Z) (s i : option (list Z)) : Prop :=
  ∃ l, (s = Some l ∨ s = None ∧ i = Some l) ∧ Z.of_nat (length l) = n ∧ ∀ h, 0 ≤ h < n → at_ l h = cluster_at f n h.

Lemma read_clusters_ok st f : 0 ≤ st ≤ 3 →
  Z.of_nat (length f) = hand_count st * 2 ∨ Z.of_nat (length f) = hand_count st * 4 →
  ∃ s i, read_clusters fresh g t st f = Ok (s, i) ∧ table_at f (hand_count st) s i.
Proof.
  intros Hst Hf. pose proof (hands_bound t Ht st Hst) as Hb. pose proof (hand_count_ok t st (proj1 Ht) Hst) as Eh.
  destruct (pairs_of g Hg st Hst) as [Ep Hp]. unfold read_clusters. rewrite Ep, bind_ok.
  assert (u32 (u32 (num_boards_ t st) * u32 (hole_pairs st)) = hand_count st) as ->.
  { rewrite <- Eh. assert (hands t st = num_boards_ t st * hole_pairs st) as E.
    { unfold hands. destruct (Z.eqb_spec st 0) as [->|]; [|done]. by rewrite (proj1 (proj2 (tr_root t (proj1 Ht)))). }
    rewrite E in *. rewrite (u32_small (hole_pairs st)), (u32_small (num_boards_ t st)) by nia. by apply u32_small. }
  rewrite Eh in Hb. destruct (Reader_new_ok f fresh Hfr) as (r & -> & Hr & Hrf). rewrite bind_ok, (ra_file _ _ Hr), Hrf.
  destruct (Z.eqb_spec (Z.of_nat (length f)) (hand_count st * 2)) as [E2|N2].
  - destruct (read_values_ok 2 id (hand_count st) r) as (l & El & Hl & Hv); [done|lia|lia|rewrite Hrf; lia|].
    unfold ReadUnsignedShortOrDie, ReadUnsignedShort. rewrite El, bind_ok. eexists _, _. split; [done|]. exists l. split; [by left|]. split; [done|].
    intros h Hh. unfold cluster_at. rewrite (proj2 (Z.eqb_eq _ _)) by done. by rewrite <- Hrf, Hv.
  - destruct Hf as [|E4]; [done|]. rewrite (proj2 (Z.eqb_eq _ _)) by done.
    destruct (read_values_ok 4 s32 (hand_count st) r) as (l & El & Hl & Hv); [done|lia|lia|rewrite Hrf; lia|].
    unfold ReadIntOrDie, ReadInt. rewrite El, bind_ok. eexists _, _. split; [done|]. exists l. split; [by right|]. split; [done|].
    intros h Hh. unfold cluster_at. rewrite (proj2 (Z.eqb_neq _ _)) by done. by rewrite <- Hrf, Hv.
Qed.

Lemma at_end {A} `{Inhabited A} (l : list A) x i : 0 ≤ i ≤ Z.of_nat (length l) →
  at_ (l ++ [x]) i = if i =? Z.of_nat (length l) then x else at_ l i.
Proof.
  intros Hi. unfold at_. destruct (Z.eqb_spec i (Z.of_nat (length l))) as [->|].
  - rewrite lookup_total_app_r by lia. by replace (Z.to_nat (Z.of_nat (length l)) - length l)%nat with 0%nat by lia.
  - by rewrite lookup_total_app_l by lia.
Qed.

Lemma ClusterHands_ok names num_file bucket_file : cluster_files names num_file bucket_file →
  ∃ c, ClusterHands_new fresh g t names num_file bucket_file false = Ok c ∧
    ∀ st h, 0 ≤ st ≤ 3 → 0 ≤ h < hand_count st → GetClusterIdx c st h = Ok (cluster_at (bucket_file st) (hand_count st) h).
Proof.
  intros [F1 F2 F3 F4]. unfold ClusterHands_new, MaxStreet. rewrite (ho_street g Hg). change (3 + 1) with 4.
  match goal with |- context [for_ 0 4 ([], []) ?b ≫= ?k] =>
    destruct (for_inv (λ i '(none, num), none = replicate (Z.to_nat i) false ∧ Z.of_nat (length num) = i) 0 4 ([], []) b)
      as ([none num] & -> & -> & Hn) end.
  - lia.
  - done.
  - intros st [none num] Hst [-> Hn]. rewrite rd_ok, bind_ok by lia. rewrite bool_decide_eq_false_2 by (apply F2; lia).
    destruct (Reader_new_ok (num_file st) fresh Hfr) as (r & -> & Hr & Hrf). rewrite bind_ok. specialize (F3 st ltac:(lia)).
    destruct (read_int_ok r 0) as (r' & -> & _); [lia|done|rewrite Hrf; lia|]. rewrite bind_ok. eexists. split; [done|].
    split; [|rewrite length_app; cbn; lia]. replace (Z.to_nat (st + 1)) with (Z.to_nat st + 1)%nat by lia. by rewrite replicate_add.
  - rewrite bind_ok.
    match goal with |- context [for_ 0 4 ([], []) ?b ≫= ?k] =>
      destruct (for_inv (λ i '(s, l), Z.of_nat (length s) = i ∧ Z.of_nat (length l) = i ∧
        ∀ st, 0 ≤ st < i → table_at (bucket_file st) (hand_count st) (at_ s st) (at_ l st)) 0 4 ([], []) b) as ([s l] & -> & Hs & Hl & Htb) end.
    + lia.
    + split; [done|]. split; [done|]. intros; lia.
    + intros st [s l] Hst (Hs & Hl & Htb). rewrite rd_ok, bind_ok by (rewrite length_replicate; lia).
      assert (at_ (replicate (Z.to_nat 4) false) st = false) as ->.
      { apply list_lookup_total_correct, lookup_replicate_2. lia. }
      cbn [orb]. destruct (read_clusters_ok st (bucket_file st) ltac:(lia) (F4 st ltac:(lia))) as (so & io & -> & Hso). rewrite bind_ok.
      eexists. split; [done|]. split; [rewrite length_app; cbn; lia|]. split; [rewrite length_app; cbn; lia|]. intros st' Hst'.
      rewrite !at_end by lia. rewrite Hs, Hl. destruct (Z.eqb_spec st' st) as [->|]; [done|]. apply Htb. lia.
    + rewrite bind_ok. eexists. split; [done|]. intros st h Hst Hh. unfold GetClusterIdx. cbn [short_flag_ int_cluster_].
      rewrite (rd_ok s), bind_ok by lia. destruct (Htb st ltac:(lia)) as (tb & [E|[E1 E2]] & Hlt & Hv).
      * rewrite E, rd_ok by lia. by rewrite Hv.
      * rewrite E1, rd_ok, bind_ok, E2, rd_ok by lia. by rewrite Hv.
Qed.
End Load.

(** ** A valid game with four suits is hold'em *)
Lemma valid_game_holdem {D} (p : @Params D) g e : Initialize p = Ok (e, Some g) → CheckIfGameValid g = Ok true → num_suits_ g = 4 → holdem g.
Proof.
  intros HI HV HS. unfold Initialize in HI.
  repeat match type of HI with
  | Ok _ = Ok _ => fail 1
  | (_ ≫= _) = Ok _ => let x := fresh "x" in let E := fresh "E" in apply bind_Ok_inv in HI as (x & E & HI)
  | (if ?b then _ else _) = Ok _ => destruct b eqn:?; [done|]
  | match ?o with Some _ => _ | None => _ end = Ok _ => destruct o eqn:?; [|done]
  end.
  destruct x15 as [perms left]. apply bind_Ok_inv in HI as ([perms' left'] & E16 & HI). apply bind_Ok_inv in HI as (o & E17 & HI).
  destruct o as [[[b boards] pairs]|]; [|done]. injection HI as <- <-. cbn [num_suits_] in HS. subst x3 x9. clear E15 E16 E Heqb0.
  assert (∀ z v, i32 z = Ok v → v = z) as Hi by (intros z v; unfold i32; destruct (_ && _); [by intros [= <-]|done]).
  unfold CheckIfGameValid, MaxStreet, NumPlayers, MaxCard, NumBoardCards, NumCardsForStreet in HV.
  cbn [max_street_ num_players_ num_ranks_ num_suits_ num_cards_for_street_ BotGame.num_board_cards_] in HV.
  destruct (Z.eqb_spec (x0 + 1) NUM_STREET) as [E|]; [|done]. unfold NUM_STREET in E, HV. assert (x0 = 3) as -> by lia. clear E.
  apply Hi in E4. subst x4. apply bind_Ok_inv in E9 as ([] & _ & E9); [|done]. apply bind_Ok_inv in E9 as (n & _ & E9).
  assert (x8 = [x7; 0; 0; 0]) as -> by (by injection E8 as <-). change (wr [x7; 0; 0; 0] 1 n) with (Ok [x7; n; 0; 0]) in E9. injection E9 as <-.
  injection E10 as <-. injection E11 as <-. cbn [negb] in HV.
  apply bind_Ok_inv in HV as (nb & Enb & HV). destruct (Z.eqb_spec nb MAX_BOADRD_NUM) as [->|]; [|done]. cbn [negb] in HV.
  change (rd [x7; n; 1; 1] 0) with (Ok x7) in HV. rewrite bind_ok in HV.
  destruct (Z.eqb_spec x7 NUM_HCP) as [->|]; [|done]. cbn [negb] in HV. destruct (Z.eqb_spec x1 NUM_PLAYER); [|done]. cbn [negb] in HV.
  injection HV as HV. apply Z.eqb_eq in HV. unfold NUM_CARDS in HV. assert (x2 = 13) as -> by lia. clear HV.
  change (13 * 4) with 52 in E17. change NUM_HCP with 2 in *. unfold forR in E17. change (seqZ 0 (3 + 1 - 0)) with [0; 1; 2; 3] in E17.
  cbn [foldR] in E17. change (2 =? 2) with true in E17. cbv iota in E17.
  change (1 <=? 0) with false in E17. change (1 <=? 1) with true in E17. change (1 <=? 2) with true in E17. change (1 <=? 3) with true in E17.
  change (rd [2; n; 1; 1] 1) with (Ok n) in E17. change (rd [2; n; 1; 1] 2) with (Ok 1) in E17. change (rd [2; n; 1; 1] 3) with (Ok 1) in E17.
  cbv iota in E17. rewrite !bind_ok in E17.
  do 5 (inv_ok; try (cbn beta iota in E17; rewrite ?bind_ok in E17)).
  repeat match goal with H : i32 _ = Ok _ |- _ => apply Hi in H end. change (rd [0; v1; v4; b] (4 - 1)) with (Ok b) in Enb.
  injection Enb as ->. unfold MAX_BOADRD_NUM in *. assert (v4 = 4) as -> by lia. assert (v1 = 3) as -> by lia. assert (v3 = 3) as -> by lia.
  subst. by split.
Qed.

(** The check of the game does not look at the suits: 26 ranks in two suits are accepted. *)
Fact two_suits_accepted :
  CheckIfGameValid (mkSGame (bytes "two") 3 2 26 2 [1; 0; 0; 0] 1 2 0 [2; 3; 1; 1] 52 0 [1326; 1176; 1128; 1081] [0; 3; 4; 5]) = Ok true.
Proof. reflexivity. Qed.

(** ** The claims *)

(** C25: the robot numbers hands up to the names of the suits.  For hold'em the board tree
    and its table are built; then every valid hand of every street gets a number below
    the number of hands of the street, without overflow of the 32 bits it is computed
    in, and two hands of a street get the same number exactly when they are the same:
    before the flop the same two cards, later the same cards up to a renaming of suits
    and the order within streets. *)
Theorem hand_number_iff_isomorphic g cb ch sm : holdem g → length cb = 5%nat → length ch = 2%nat → length sm = 4%nat →
  ∃ t0 t, Create g = Ok t0 ∧ CreateLookup g t0 = Ok t ∧
    ∀ a, valid_hand a → ∃ n, HandIdx g t cb ch sm a = Ok (ERR_OK, n) ∧ 0 ≤ n < hand_count (info_st a) ∧
      hand_count (info_st a) < 4294967296 ∧
      ∀ b, valid_hand b → info_st b = info_st a → HandIdx g t cb ch sm b = Ok (ERR_OK, n) ↔ same_hand a b.
Proof.
  intros Hg Hcb Hch Hsm. destruct (Create_ok g Hg) as (t0 & E0 & Ht0 & Hlk & _). destruct (CreateLookup_ok g Hg t0 Ht0 Hlk) as (t & E1 & Ht & _).
  exists t0, t. split; [done|]. split; [done|]. intros a Va. destruct (HandIdx_ok g Hg t Ht cb ch sm Hcb Hch Hsm a Va) as (n & En & Hn).
  pose proof (hands_bound t Ht _ (vh_street _ Va)) as Hb. rewrite (hand_count_ok t _ (proj1 Ht) (vh_street _ Va)) in Hn, Hb.
  exists n. split; [done|]. split; [done|]. split; [lia|]. intros b Vb Est. by apply (same_number g Hg t Ht cb ch sm).
Qed.

(** The same flop and hand in other suits and another order. *)
Lemma hand_number_iff_isomorphic_witness :
  let a := mkInfo [51; 20; 2; 99; 99] [50; 13] 1 [] 0 0 in
  let b := mkInfo [23; 48; 1; 99; 99] [12; 49] 1 [] 0 0 in
  let z := replicate 5 0 in
  ∃ t n, HandIdx holdem_game t z [0; 0] [0; 0; 0; 0] a = Ok (ERR_OK, n) ∧
    (HandIdx holdem_game t z [0; 0] [0; 0; 0; 0] b = Ok (ERR_OK, n) ↔ same_hand a b).
Proof.
  cbv zeta. destruct (hand_number_iff_isomorphic holdem_game (replicate 5 0) [0; 0] [0; 0; 0; 0]) as (t0 & t & _ & _ & H);
    [apply holdem_game_ok|reflexivity..|]. exists t.
  assert (∀ x y, x = [51; 20; 2; 99; 99] ∧ y = [50; 13] ∨ x = [23; 48; 1; 99; 99] ∧ y = [12; 49] → valid_hand (mkInfo x y 1 [] 0 0)) as V.
  { intros x y [[-> ->]|[-> ->]]; (split; [by split|cbn; lia|]); (split; [vm_compute; discriminate|reflexivity|repeat constructor; unfold card; lia|]);
      apply (bool_decide_unpack _); vm_compute; exact I. }
  destruct (H _ (V _ _ (or_introl (conj eq_refl eq_refl)))) as (n & E & _ & _ & Hs).
  exists n. split; [exact E|]. apply Hs; [apply V; by right|reflexivity].
Defined.

(** Loading the robot. *)
Lemma Init_ok {D} (zero : D) scan_lf fresh f g names : (∀ n, length (fresh n) = Z.to_nat n) →
  (ReadFromFile zero scan_lf (CreateGameParams zero) (game_file f) ≫= Initialize) = Ok (ERR_OK, Some g) →
  CheckIfGameValid g = Ok true → num_suits_ g = 4 → long_enough (value_files f) →
  (ReadFromFile zero scan_lf (CreateCardAbstractionParams zero) (card_file f) ≫= Bucketings g) = Ok names →
  cluster_files names (num_files f) (bucket_files f) →
  ∃ h t c, Init zero scan_lf fresh f false = Ok (ERR_OK, Some (mkRobot g (Some (h, t, c)))) ∧ holdem g ∧ ready t ∧
    ∀ st n, 0 ≤ st ≤ 3 → 0 ≤ n < hand_count st → GetClusterIdx c st n = Ok (cluster_at (bucket_files f st) (hand_count st) n).
Proof.
  intros Hfr EG EV ES Hlong EC Hcf. apply bind_Ok_inv in EG as (gp & E1 & E2). apply bind_Ok_inv in EC as (cp & E3 & E4).
  assert (holdem g) as Hg by (by eapply valid_game_holdem).
  destruct (CreateAllTrees_ok g Hg fresh Hfr (value_files f) Hlong 0 (λ _, None)) as (h & E5 & _).
  destruct (Create_ok g Hg) as (t0 & E6 & Ht0 & Hlk & _). destruct (CreateLookup_ok g Hg t0 Ht0 Hlk) as (t & E7 & Ht & _).
  destruct (ClusterHands_ok g Hg t Ht fresh Hfr names _ _ Hcf) as (c & E8 & Hc). exists h, t, c. split; [|done].
  unfold Init. rewrite E1, bind_ok, E2, bind_ok, EV, bind_ok. cbn [negb]. rewrite E5, bind_ok, E6, bind_ok, E7, bind_ok, E3, bind_ok, E4, bind_ok, E8, bind_ok. done.
Qed.

(** C26: from the files to the key of the strategy.  With the parameter file of a valid
    game of four suits, complete files of hand values, and a file of clusters of the
    right size for every street, [Init] succeeds; then [GetKey] refuses exactly the
    hands with cards outside the deck or repeated, refuses a node of another street,
    and otherwise returns the key whose offset is the entry of the hand in the file of
    its street, times the number of actions of the node. *)
Theorem robot_key {D} (zero : D) scan_lf fresh f g names cb ch sm : (∀ n, length (fresh n) = Z.to_nat n) →
  (ReadFromFile zero scan_lf (CreateGameParams zero) (game_file f) ≫= Initialize) = Ok (ERR_OK, Some g) →
  CheckIfGameValid g = Ok true → num_suits_ g = 4 → long_enough (value_files f) →
  (ReadFromFile zero scan_lf (CreateCardAbstractionParams zero) (card_file f) ≫= Bucketings g) = Ok names →
  cluster_files names (num_files f) (bucket_files f) → length cb = 5%nat → length ch = 2%nat → length sm = 4%nat →
  ∃ h t c, Init zero scan_lf fresh f false = Ok (ERR_OK, Some (mkRobot g (Some (h, t, c)))) ∧
    ∀ random info node key, sized info → 0 ≤ info_st info ≤ 3 →
      let k := Z.of_nat (length (child_node_ node)) in
      (¬ valid_hand info → GetKey g t cb ch sm c false random info node key = Ok (ERR_INVALID_CARD, key)) ∧
      (valid_hand info → info_st info ≠ street_ node → GetKey g t cb ch sm c false random info node key =
         Ok (ERR_MISMATCH_ACTION_SEQ_AND_CARDS, mkKey (key_st key) (node_id_ node) (acting_player_ node) (key_offset key) k)) ∧
      (valid_hand info → info_st info = street_ node →
         ∃ n, HandIdx g t cb ch sm info = Ok (ERR_OK, n) ∧ 0 ≤ n < hand_count (info_st info) ∧
           let offset := cluster_at (bucket_files f (info_st info)) (hand_count (info_st info)) n * k in
           INT32_MIN ≤ offset ≤ INT32_MAX → GetKey g t cb ch sm c false random info node key =
             Ok (ERR_OK, mkKey (info_st info) (node_id_ node) (acting_player_ node) offset k)).
Proof.
  intros Hfr EG EV ES Hlong EC Hcf Hcb Hch Hsm.
  destruct (Init_ok zero scan_lf fresh f g names) as (h & t & c & E & Hg & Ht & Hc); [done..|]. exists h, t, c. split; [done|].
  intros random info node key Hz Hst k. destruct (CheckCards_ok info Hz Hst) as (b & Eb & Hb). split; [|split].
  - intros HV. unfold GetKey. rewrite Eb, bind_ok. destruct b; [tauto|done].
  - intros HV Hne. unfold GetKey. rewrite Eb, bind_ok, (proj2 Hb HV). cbn [negb]. cbv zeta. rewrite (proj2 (Z.eqb_neq _ _)) by done. done.
  - intros HV Heq. destruct (HandIdx_ok g Hg t Ht cb ch sm Hcb Hch Hsm info HV) as (n & En & Hn). rewrite (hand_count_ok t _ (proj1 Ht) Hst) in Hn.
    exists n. split; [done|]. split; [done|]. intros offset Ho. unfold GetKey. rewrite Eb, bind_ok, (proj2 Hb HV). cbn [negb]. cbv zeta.
    rewrite (proj2 (Z.eqb_eq _ _)) by done. cbn [negb]. unfold GetBucketIdx. rewrite En, bind_ok. change (negb (ERR_OK =? ERR_OK)) with false. cbv iota.
    rewrite Hc, bind_ok, bind_ok by done. change (negb (ERR_OK =? ERR_OK)) with false. cbv iota. fold k. rewrite i32_ok, bind_ok by done. done.
Qed.

(** Files of zeros, with entries of two bytes before the flop and of four later. *)
Definition zero_files : StaticFiles :=
  mkFiles holdem_file [bytes "CardAbstractionName n"; bytes "Bucketings a,b,c,d"]
    (λ n, replicate (Z.to_nat (4 * choose 52 (Z.to_nat n))) 0) (λ _, [9; 0; 0; 0])
    (λ st, replicate (Z.to_nat (hand_count st * (if st =? 0 then 2 else 4))) 0).

Lemma robot_key_witness : ∃ h t c,
  Init 0 (λ _, Ok None) (λ n, replicate (Z.to_nat n) 0) zero_files false = Ok (ERR_OK, Some (mkRobot holdem_game (Some (h, t, c)))) ∧
  GetKey holdem_game t (replicate 5 0) [0; 0] [0; 0; 0; 0] c false 0 (mkInfo [51; 20; 51; 99; 99] [50; 13] 1 [] 0 0) (mkNode 7 1 0 [[]]) (mkKey 0 0 0 0 0) =
    Ok (ERR_INVALID_CARD, mkKey 0 0 0 0 0).
Proof.
  destruct (robot_key 0 (λ _, Ok None) (λ n, replicate (Z.to_nat n) 0) zero_files holdem_game [bytes "a"; bytes "b"; bytes "c"; bytes "d"]
    (replicate 5 0) [0; 0] [0; 0; 0; 0]) as (h & t & c & E & H).
  - intros n. apply length_replicate.
  - apply holdem_read.
  - reflexivity.
  - reflexivity.
  - intros n Hn. cbn [value_files zero_files]. rewrite length_replicate. pose proof (choose_nonneg 52 (Z.to_nat n)). lia.
  - vm_compute. reflexivity.
  - split.
    + cbn. lia.
    + intros st Hst. assert (st = 0 ∨ st = 1 ∨ st = 2 ∨ st = 3) as Es by lia. by destruct_or! Es; subst st.
    + intros st Hst. cbn. lia.
    + intros st Hst. cbn [bucket_files zero_files]. rewrite length_replicate.
      assert (0 ≤ hand_count st) as Hp.
      { unfold hand_count. apply Z.mul_nonneg_nonneg; [destruct (st =? 0); lia|]. pose proof (proj2 (pairs_of holdem_game holdem_game_ok st Hst)). lia. }
      destruct (st =? 0); [left|right]; lia.
  - reflexivity.
  - reflexivity.
  - reflexivity.
  - exists h, t, c. split; [exact E|]. apply H; [by split|cbn; lia|]. intros [_ _ Hd]. pose proof (do_distinct _ _ _ Hd) as HN.
    apply (bool_decide_pack _) in HN. vm_compute in HN. exact HN.
Defined.
