(* ===== verification/Double.v ===== *)
(** * Arithmetic on [double]

    [double] is IEEE binary64 with rounding to nearest even, in the specification of
    the Standard Library ([SpecFloat]); a comparison with a NaN is false.  The lemmas
    bound the rounded product of an unsigned integer and a fraction below one. *)

From Stdlib Require Import SpecFloat.
From stdpp Require Import base numbers.
From S2P Require Import Prelude.

Open Scope Z_scope.

Definition double : Type := spec_float.
#[global] Instance double_inhabited : Inhabited double := populate (S754_zero false).

Definition prec : Z := 53.
Definition emax : Z := 1024.

Definition dadd : double → double → double := SFadd prec emax.
Definition dmul : double → double → double := SFmul prec emax.
Definition ddiv : double → double → double := SFdiv prec emax.
Definition dlt : double → double → bool := SFltb.
Definition dle : double → double → bool := SFleb.
Definition deq : double → double → bool := SFeqb.

(** A mantissa and an exponent of two, rounded; and an [int] or [unsigned int]. *)
Definition scaled (m e : Z) : double := binary_normalize prec emax m e false.
Definition of_int (z : Z) : double := scaled z 0.
Definition one : double := of_int 1.

(** The integer part of a magnitude. *)
Definition int_part (m : positive) (e : Z) : Z := Z.shiftl (Zpos m) e.

(** Conversion to an integer type is undefined outside its range. *)
Definition to_range (lo hi : Z) (d : double) : res Z :=
  match d with
  | S754_zero _ => Ok 0
  | S754_finite s m e =>
      let v := if s then - int_part m e else int_part m e in
      if (lo <=? v) && (v <=? hi) then Ok v else Err SignedOverflow
  | _ => Err SignedOverflow
  end.
Definition to_u32 : double → res Z := to_range 0 4294967295.
Definition to_i32 : double → res Z := to_range INT32_MIN INT32_MAX.

(** ** Digits *)
Lemma digits2_log p : Zpos (digits2_pos p) = Z.log2 (Zpos p) + 1.
Proof.
  induction p as [p IH|p IH|]; cbn [digits2_pos]; [| |done]; rewrite Pos2Z.inj_succ, IH.
  - rewrite (Pos2Z.inj_xI p), Z.log2_succ_double by lia. lia.
  - rewrite (Pos2Z.inj_xO p), Z.log2_double by lia. lia.
Qed.

Lemma Zdigits2_le m k : 0 ≤ k → 0 ≤ m < 2 ^ k → Zdigits2 m ≤ k.
Proof.
  intros Hk Hm. destruct m as [|p|p]; cbn [Zdigits2]; [lia| |lia]. rewrite digits2_log.
  assert (Z.log2 (Zpos p) < k); [|lia]. apply Z.log2_lt_pow2; lia.
Qed.

(** ** Shifting right *)
Lemma iter_pos_nat {A} (f : A → A) p x : SpecFloat.iter_pos f p x = Nat.iter (Pos.to_nat p) f x.
Proof.
  revert x. induction p as [p IH|p IH|]; intros x; cbn [SpecFloat.iter_pos].
  - rewrite !IH, Pos2Nat.inj_xI, <- Nat.iter_add. rewrite <- Nat.iter_succ_r. f_equal. lia.
  - rewrite !IH, Pos2Nat.inj_xO, <- Nat.iter_add. f_equal. lia.
  - done.
Qed.

(** [k] shifts of [m]: the quotient, and whether something was lost. *)
Record shifted (m : Z) (k : nat) (r : shr_record) : Prop := {
  sh_m : shr_m r = m / 2 ^ Z.of_nat k;
  sh_lost : shr_r r || shr_s r = true → m mod 2 ^ Z.of_nat k ≠ 0 }.

Lemma shr_1_ok m k r : 0 ≤ m → shifted m k r → shifted m (S k) (shr_1 r).
Proof.
  intros Hm [Hq Hl]. destruct r as [q rb sb]. cbn [shr_m shr_r shr_s] in *. set (P := 2 ^ Z.of_nat k) in *.
  assert (0 < P) as HP by (apply Z.pow_pos_nonneg; lia). assert (2 ^ Z.of_nat (S k) = P * 2) as E by (unfold P; rewrite Nat2Z.inj_succ, Z.pow_succ_r; lia).
  assert (m = P * q + m mod P ∧ 0 ≤ m mod P < P) as [Hd Hr] by (subst q; split; [apply Z.div_mod; lia|apply Z.mod_pos_bound; lia]).
  assert (0 ≤ q) as Hq0 by (subst q; apply Z.div_pos; lia).
  assert (∀ q' b s', q = 2 * q' + Z.b2z b → (s' = true → m mod P ≠ 0) → shifted m (S k) (Build_shr_record q' b s')) as G.
  { intros q' b s' Eq Hs. assert (m = P * 2 * q' + (P * Z.b2z b + m mod P)) as Em by (rewrite Hd at 1; rewrite Eq; lia).
    assert (0 ≤ P * Z.b2z b + m mod P < P * 2) as Hb by (destruct b; cbn [Z.b2z]; lia).
    split; cbn [shr_m shr_r shr_s]; rewrite E.
    - apply (Z.div_unique _ _ _ (P * Z.b2z b + m mod P)); [by left|done].
    - intros Hor. rewrite <- (Z.mod_unique m (P * 2) q' (P * Z.b2z b + m mod P)) by (done || by left).
      destruct b; cbn [Z.b2z]; [lia|]. cbn [orb] in Hor. specialize (Hs Hor). lia. }
  unfold shr_1. destruct q as [|[p|p|]|]; try lia; apply G; cbn [Z.b2z]; try lia; done.
Qed.

Lemma shr_iter m p : 0 ≤ m → shifted m (Pos.to_nat p) (SpecFloat.iter_pos shr_1 p (Build_shr_record m false false)).
Proof.
  intros Hm. rewrite iter_pos_nat. induction (Pos.to_nat p) as [|k IH].
  - cbn. split; cbn; [by rewrite Z.div_1_r|done].
  - rewrite Nat.iter_succ. by apply shr_1_ok.
Qed.

(** The first step of rounding: the exponent is raised to that of the format. *)
Lemma shr_fexp_ok m e : 0 ≤ m → ∃ k r,
  shr_fexp prec emax m e loc_Exact = (r, e + Z.of_nat k) ∧ shifted m k r ∧
  (k = O ∧ fexp prec emax (Zdigits2 m + e) ≤ e ∨ e + Z.of_nat k = fexp prec emax (Zdigits2 m + e)).
Proof.
  intros Hm. unfold shr_fexp. cbn [shr_record_of_loc]. set (n := fexp prec emax (Zdigits2 m + e) - e). destruct n as [|p|p] eqn:En; cbn [shr].
  - exists 0%nat, (Build_shr_record m false false). rewrite Z.add_0_r. split; [done|]. split; [|left; lia]. split; cbn; [by rewrite Z.div_1_r|done].
  - exists (Pos.to_nat p), (SpecFloat.iter_pos shr_1 p (Build_shr_record m false false)). rewrite positive_nat_Z. split; [done|]. split; [by apply shr_iter|]. right. lia.
  - exists 0%nat, (Build_shr_record m false false). rewrite Z.add_0_r. split; [done|]. split; [|left; lia]. split; cbn; [by rewrite Z.div_1_r|done].
Qed.

(** ** Rounding does not pass an integer *)

Lemma round_up_le q r m k B : 0 ≤ m → shifted m k r → q = shr_m r → m < B * 2 ^ Z.of_nat k →
  0 ≤ q ∧ round_nearest_even q (loc_of_shr_record r) ≤ B ∧ q ≤ round_nearest_even q (loc_of_shr_record r).
Proof.
  intros Hm [Hq Hl] -> HB. destruct r as [q rb sb]. cbn [shr_m shr_r shr_s] in *. set (P := 2 ^ Z.of_nat k) in *.
  assert (0 < P) as HP by (apply Z.pow_pos_nonneg; lia). pose proof (Z.div_mod m P ltac:(lia)) as Hd. pose proof (Z.mod_pos_bound m P HP) as Hr. rewrite <- Hq in Hd.
  assert (0 ≤ q) by (subst q; apply Z.div_pos; lia). assert (q < B) as Hlt by nia.
  split; [done|]. unfold round_nearest_even. destruct rb, sb; cbn [loc_of_shr_record orb] in *; try lia. destruct (Z.even q); lia.
Qed.

Lemma fexp_le e b : e ≤ b → -1021 ≤ b → fexp prec emax e ≤ b - 53.
Proof. unfold fexp, emin, prec, emax. lia. Qed.

(** A positive number below the integer [N], given by [P] and the exponent [E], is not
    rounded above [N]. *)
Lemma round_le P E N : E ≤ 0 → 0 < N < 4294967296 → Zpos P < N * 2 ^ (- E) →
  match binary_round_aux prec emax false (Zpos P) E loc_Exact with
  | S754_zero _ => True
  | S754_finite s m e => s = false ∧ e ≤ 0 ∧ Zpos m ≤ N * 2 ^ (- e)
  | _ => False
  end.
Proof.
  intros HE HN HP. unfold binary_round_aux.
  destruct (shr_fexp_ok (Zpos P) E ltac:(lia)) as (k & r & -> & Hs & He).
  assert (Zdigits2 (Zpos P) + E ≤ 32) as Hd.
  { assert (Zdigits2 (Zpos P) ≤ 32 - E); [|lia]. apply Zdigits2_le; [lia|]. split; [lia|]. replace (32 - E) with (32 + - E) by lia.
    rewrite Z.pow_add_r by lia. change (2 ^ 32) with 4294967296. nia. }
  assert (E + Z.of_nat k ≤ 0) as He' by (destruct He as [[-> _]| ->]; [lia|]; pose proof (fexp_le _ 32 Hd); lia).
  set (e1 := E + Z.of_nat k) in *. set (B := N * 2 ^ (- e1)).
  assert (Zpos P < B * 2 ^ Z.of_nat k) as HB.
  { unfold B. rewrite <- Z.mul_assoc, <- Z.pow_add_r by lia. replace (- e1 + Z.of_nat k) with (- E) by (unfold e1; lia). done. }
  destruct (round_up_le (shr_m r) r (Zpos P) k B ltac:(lia) Hs eq_refl HB) as (Hq0 & HqB & Hqq). set (q := round_nearest_even _ _) in *.
  destruct (shr_fexp_ok q e1 ltac:(lia)) as (k2 & r2 & -> & [Hm2 _] & He2). rewrite Hm2.
  assert (Zdigits2 q + e1 ≤ 33) as Hd2.
  { assert (Zdigits2 q ≤ 33 - e1); [|lia]. apply Zdigits2_le; [lia|]. split; [lia|]. replace (33 - e1) with (33 + - e1) by lia.
    rewrite Z.pow_add_r by lia. change (2 ^ 33) with 8589934592. pose proof (Z.pow_pos_nonneg 2 (- e1) ltac:(lia) ltac:(lia)). unfold B in HqB. nia. }
  assert (e1 + Z.of_nat k2 ≤ 0) as He3 by (destruct He2 as [[-> _]| ->]; [lia|]; pose proof (fexp_le _ 33 Hd2); lia).
  set (e2 := e1 + Z.of_nat k2) in *. assert (0 < 2 ^ Z.of_nat k2) as HP2 by (apply Z.pow_pos_nonneg; lia).
  pose proof (Z.mul_div_le q (2 ^ Z.of_nat k2) HP2) as Hle. pose proof (Z.div_pos q (2 ^ Z.of_nat k2) ltac:(lia) HP2) as Hnn.
  destruct (q / 2 ^ Z.of_nat k2) as [|m|m]; [done| |lia]. rewrite (proj2 (Z.leb_le e2 (emax - prec))) by (unfold emax, prec; lia).
  split; [done|]. split; [done|]. apply (Z.mul_le_mono_pos_l _ _ (2 ^ Z.of_nat k2) HP2). transitivity q; [done|]. transitivity B; [done|].
  unfold B. rewrite Z.mul_shuffle3, <- Z.pow_add_r by lia. replace (Z.of_nat k2 + - e2) with (- e1) by (unfold e2; lia). lia.
Qed.

(** ** Integers and fractions *)
Lemma iter_xO m d : Zpos (Pos.iter xO m d) = Zpos m * 2 ^ Zpos d.
Proof.
  induction d as [|d IH] using Pos.peano_ind; [cbn; lia|]. rewrite Pos.iter_succ, Pos2Z.inj_xO, IH, Pos2Z.inj_succ, Z.pow_succ_r; lia.
Qed.

(** Integers of 52 bits and their fractions are represented exactly. *)
Lemma scaled_exact z e0 : 0 < z < 2 ^ 52 → -900 ≤ e0 ≤ 0 →
  ∃ m e, scaled z e0 = S754_finite false m e ∧ e ≤ e0 ∧ Zpos m = z * 2 ^ (e0 - e).
Proof.
  intros Hz He. destruct z as [|p|p]; [lia| |lia]. unfold scaled, binary_normalize, binary_round.
  assert (1 ≤ Zpos (digits2_pos p) ≤ 52) as Hd by (split; [lia|]; apply (Zdigits2_le (Zpos p) 52); lia).
  assert (fexp prec emax (Zpos (digits2_pos p) + e0) = e0 + (Zpos (digits2_pos p) - 53)) as Hf by (unfold fexp, emin, prec, emax; lia).
  rewrite Hf. unfold shl_align. replace (e0 + (Zpos (digits2_pos p) - 53) - e0) with (Zpos (digits2_pos p) - 53) by lia.
  destruct (Zpos (digits2_pos p) - 53) as [|d|d] eqn:Ed; [lia|lia|]. set (e1 := e0 + Z.neg d) in *.
  unfold binary_round_aux. assert (Zdigits2 (Zpos (Pos.iter xO p d)) + e1 = Zpos (digits2_pos p) + e0) as Hdig.
  { cbn [Zdigits2]. rewrite !digits2_log, iter_xO, Z.log2_mul_pow2 by lia. lia. }
  assert (∀ r, shr_fexp prec emax (Zpos (Pos.iter xO p d)) e1 loc_Exact = r → r = (Build_shr_record (Zpos (Pos.iter xO p d)) false false, e1)) as Hr.
  { intros r <-. unfold shr_fexp. rewrite Hdig, Hf, Z.sub_diag. done. }
  rewrite (Hr _ eq_refl). cbn [shr_m loc_of_shr_record round_nearest_even]. rewrite (Hr _ eq_refl). cbn [shr_m].
  rewrite (proj2 (Z.leb_le e1 (emax - prec))) by (unfold emax, prec; lia). exists (Pos.iter xO p d), e1. split; [done|]. split; [lia|].
  rewrite iter_xO. do 2 f_equal. lia.
Qed.

(** An [unsigned int] is represented exactly. *)
Lemma of_int_exact z : 0 < z < 4294967296 → ∃ m e, of_int z = S754_finite false m e ∧ e ≤ 0 ∧ Zpos m = z * 2 ^ (- e).
Proof. intros Hz. apply (scaled_exact z 0); lia. Qed.

(** A fraction: not negative, and below one for the comparison of the code. *)
Definition fraction (d : double) : Prop :=
  valid_binary prec emax d = true ∧ dle (S754_zero false) d = true ∧ dle one d = false.

Lemma fraction_cases d : fraction d → (∃ s, d = S754_zero s) ∨ ∃ m e, d = S754_finite false m e ∧ e < 0 ∧ Zpos m < 2 ^ (- e).
Proof.
  intros (Hv & H0 & H1). destruct d as [s|s| |s m e]; [by left; exists s| | |].
  - destruct s; [by vm_compute in H0|by vm_compute in H1].
  - by vm_compute in H0.
  - right. exists m, e. destruct s; [by vm_compute in H0|]. split; [done|].
    change one with (S754_finite false 4503599627370496 (-52)) in H1. unfold dle, SFleb, SFcompare in H1.
    cbn [valid_binary] in Hv. unfold bounded, canonical_mantissa in Hv. apply andb_prop in Hv as [Hc _]. apply Z.eqb_eq in Hc.
    assert (Zpos m < 2 ^ 53) as Hm.
    { apply Z.log2_lt_pow2; [lia|]. pose proof (digits2_log m) as E. unfold fexp, emin, prec, emax in Hc. lia. }
    destruct (Z.compare_spec (-52) e) as [<-|Hlt|Hgt]; [|done|].
    + split; [lia|]. change (2 ^ (- (-52))) with 4503599627370496.
      destruct (Pos.compare_cont Eq 4503599627370496 m) eqn:Ec; try done. change (Pos.compare 4503599627370496 m = Gt) in Ec.
      apply Pos.compare_gt_iff in Ec. exact Ec.
    + split; [lia|]. eapply Z.lt_le_trans; [exact Hm|]. apply Z.pow_le_mono_r; lia.
Qed.

(** The rounded product of an [unsigned int] and a fraction, as an [unsigned int]. *)
Lemma mul_finite z m e : 0 < z < 4294967296 → e < 0 → Zpos m < 2 ^ (- e) →
  ∃ v, to_u32 (dmul (of_int z) (S754_finite false m e)) = Ok v ∧ 0 ≤ v ≤ z.
Proof.
  intros Hz He Hm. destruct (of_int_exact z ltac:(lia)) as (mz & ez & -> & Hez & Emz). unfold dmul, SFmul. cbn [xorb].
  assert (Zpos (mz * m) < z * 2 ^ (- (ez + e))) as HP.
  { rewrite Pos2Z.inj_mul, Emz. replace (- (ez + e)) with (- ez + - e) by lia. rewrite Z.pow_add_r by lia.
    pose proof (Z.pow_pos_nonneg 2 (- ez) ltac:(lia) ltac:(lia)). nia. }
  pose proof (round_le (mz * m) (ez + e) z ltac:(lia) ltac:(lia) HP) as H.
  destruct (binary_round_aux _ _ _ _ _ _) as [s|s| |s m' e']; try done; [exists 0; split; [done|lia]|].
  destruct H as (-> & He' & Hm'). unfold to_u32, to_range, int_part.
  assert (0 ≤ Z.shiftl (Zpos m') e' ≤ z) as Hv.
  { split; [apply Z.shiftl_nonneg; lia|]. rewrite <- (Z.opp_involutive e'), Z.shiftl_opp_r, Z.shiftr_div_pow2 by lia.
    apply Z.div_le_upper_bound; [apply Z.pow_pos_nonneg; lia|lia]. }
  eexists. rewrite (proj2 (Z.leb_le 0 _)), (proj2 (Z.leb_le _ 4294967295)) by lia. done.
Qed.

Lemma mul_fraction z d : 0 ≤ z < 4294967296 → fraction d → ∃ v, to_u32 (dmul (of_int z) d) = Ok v ∧ 0 ≤ v ≤ z.
Proof.
  intros Hz Hd. destruct (decide (z = 0)) as [->|Hne].
  { exists 0. destruct (fraction_cases d Hd) as [(s & ->)|(m & e & -> & _)]; done. }
  destruct (fraction_cases d Hd) as [(s & ->)|(m & e & -> & He & Hm)]; [|by apply mul_finite; [lia|..]].
  destruct (of_int_exact z ltac:(lia)) as (mz & ez & -> & _). exists 0. split; [done|lia].
Qed.

Lemma dmul_comm x y : dmul x y = dmul y x.
Proof.
  unfold dmul, SFmul. destruct x as [s|s| |s m e], y as [s'|s'| |s' m' e']; rewrite ?(xorb_comm s s'); try done.
  by rewrite Pos.mul_comm, Z.add_comm.
Qed.
