(* ===== verification/Select.v ===== *)
(** * Choosing an action ([action_idx_selector.cpp], [rule_filter.cpp], [hand_maker.cpp], [dt_robot.cpp])

    The strategy gives a number for every action of a node: the sum of its
    probabilities, or its regret.  [DoAction] takes the best one, or draws among the
    better ones, and can replace a large bet by a smaller one.  The random numbers are
    those of [drand48]; logging is left out. *)

From stdpp Require Import base list list_numbers numbers option strings.
From S2P Require Import Prelude Text SBotEval BotGame TypicalCards CardTree Reader HandTree Double Robot.

Open Scope Z_scope.

(** ** Random numbers: the state of [drand48_data] is a number of 48 bits *)
Definition srand48 (seed : Z) : Z := u32 seed * 65536 + 13070.
Definition RngInit (tv_sec tv_usec : Z) : Z := srand48 (tv_sec * 1000 + Z.quot tv_usec 1000).
Definition GetRng (x : Z) : Z * double :=
  let x := (25214903917 * x + 11) mod 281474976710656 in (x, scaled x (-48)).

(** ** [ActionIdxSelector] *)
Definition size {A} (l : list A) : Z := Z.of_nat (length l).

Definition GetPureIdx (vals : list Z) (sumprob_flag : bool) : res Z :=
  if sumprob_flag then
    '(pure_idx, _) ← for_ 0 (size vals) (0, 0) (λ i '(pure_idx, pure_val),
      v ← rd vals i; Ok (if pure_val <? v then (i, v) else (pure_idx, pure_val)));
    Ok pure_idx
  else
    o ← forR 0 (size vals) tt (λ i _, v ← rd vals i; Ok (if v =? 0 then inr i else inl tt));
    Ok (match o with inr i => i | inl _ => 0 end).

Definition max_of (vals : list Z) : res Z :=
  for_ 0 (size vals) 0 (λ i max_val, v ← rd vals i; Ok (if max_val <? v then v else max_val)).

Definition FRMChooseCandidate (vals : list Z) (sumprob_flag : bool) (filter_th : double) : res (list (Z * Z)) :=
  max_val ← max_of vals;
  val_th ← to_u32 (dmul (of_int max_val) filter_th);
  for_ 0 (size vals) [] (λ i candidate_action,
    v ← rd vals i;
    Ok (if (if sumprob_flag then val_th <=? v else v <=? val_th) then candidate_action ++ [(i, v)] else candidate_action)).

Definition ChooseIdxByRm (candidate_action : list (Z * double)) (x : Z) : res (Z * Z) :=
  let '(x, r) := GetRng x in
  let candidate_cnt := size candidate_action in
  o ← forR 0 (candidate_cnt - 1) (of_int 0) (λ s cum,
    '(_, p) ← rd candidate_action s;
    let cum := dadd cum p in
    Ok (if dlt r cum then inr s else inl cum));
  let s := match o with inr s => s | inl _ => Z.max 0 (candidate_cnt - 1) end in
  '(i, _) ← rd candidate_action s;
  Ok (x, i).

Definition ChooseIdxByAllRandom (candidate_action : list (Z * Z)) (x : Z) : res (Z * Z) :=
  let cnt := size candidate_action in
  let '(x, rnd) := GetRng x in
  if deq rnd one then Ok (x, cnt - 1) else
  candidate_idx ← to_i32 (dmul (of_int cnt) rnd);
  '(i, _) ← rd candidate_action candidate_idx;
  Ok (x, i).

Definition ChooseIdxByMinReg (candidate_action : list (Z * Z)) : Z :=
  fst (fold_left (λ '(min_reg_idx, min_reg_val) '(i, v), if v <? min_reg_val then (i, v) else (min_reg_idx, min_reg_val))
         candidate_action (0, 2000000000)).

(** ** [HandMaker] *)
Definition hand_vals : list Z :=
  [kNoPair; kPair; kTwoPair; kThreeOfAKind; kStraight; kFlush; kFullHouse; kQuads; kStraightFlush].

Definition GetHandType (h : HandValueTree) (card : list Z) (cnt : Z) : res (HandValueTree * Z) :=
  if (cnt <? 5) || (7 <? cnt) then Ok (h, -1) else
  '(h, hand_val) ← ValByCount h card cnt;
  o ← forR 0 (size hand_vals) tt (λ i _,
    let idx := size hand_vals - 1 - i in
    v ← rd hand_vals idx; Ok (if v <? hand_val then inr idx else inl tt));
  Ok (h, match o with inr idx => idx | inl _ => -1 end).

Definition GetTypeMinVal (type : Z) : res Z := rd hand_vals type.

Definition type_names : list (list Z) :=
  bytes <$> ["highCard"; "Pair"; "TwoPair"; "ThreeOfAKind"; "Straight"; "Flush"; "FullHouse"; "Quads"; "StraightFlush"]%string.
Definition GetHandTypeName (idx : Z) : res (list Z) :=
  if (size type_names <=? idx) || (idx <? 0) then Ok (bytes "NotDefined") else rd type_names idx.

Definition CheckIsAllDifferentRankFlopBoard (board_cards : list Z) : res bool :=
  c0 ← rd board_cards 0; c1 ← rd board_cards 1; c2 ← rd board_cards 2;
  Ok (negb (Rank c0 =? Rank c1) && negb (Rank c1 =? Rank c2) && negb (Rank c0 =? Rank c2)).

(** 0: all different, 1: a pair, 2: three of a kind *)
Definition GetFlopBoardType (board_cards : list Z) : res Z :=
  c0 ← rd board_cards 0; c1 ← rd board_cards 1; c2 ← rd board_cards 2;
  Ok (if negb (Rank c0 =? Rank c1) && negb (Rank c1 =? Rank c2) && negb (Rank c0 =? Rank c2) then 0
      else if (Rank c0 =? Rank c1) && (Rank c1 =? Rank c2) then 2 else 1).

(** The first number below [n] that passes the test, or [n]. *)
Definition first_such (n : Z) (test : Z → bool) : res Z :=
  o ← forR 0 n tt (λ i _, Ok (if test i then inr i else inl tt));
  Ok (match o with inr i => i | inl _ => n end).

Definition MakeTopPairHand (g : SGame) (board_cards : list Z) (st : Z) (top_pair_cards : list Z) : res (list Z) :=
  if negb (st =? 1) then Ok top_pair_cards else
  c0 ← rd board_cards 0; c1 ← rd board_cards 1; c2 ← rd board_cards 2;
  t ← wr top_pair_cards 0 c0; t ← wr t 1 c1; t ← wr t 2 c2;
  high_card_suit ← first_such (num_suits_ g) (λ s, negb (s =? Suit c0));
  t ← wr t 3 (MakeCard (Rank c0) high_card_suit);
  low_card_rank ← first_such (num_ranks_ g) (λ r, negb (r =? Rank c2) && negb (r =? Rank c1) && negb (r =? Rank c0));
  wr t 4 (MakeCard low_card_rank 0).

Definition GetTurnBoardType (board_cards : list Z) : Z := 9.

(** ** [RuleFilter] *)
Definition is_fold (child : list Z) : bool := bool_decide (child = bytes "f").
Definition is_call (child : list Z) : bool := bool_decide (child = bytes "c").

(** [sscanf( child.substr( 1 ), "%i", ... )]; [substr] throws on an empty string. *)
Definition parse_bet (child : list Z) : res (option Z) :=
  match child with [] => Err Exited | _ :: s => scan_i (s ++ [0]) end.

(** [double( action_bet_to - bet_to ) / double( 2 * bet_to )] *)
Definition pot_frac (action_bet_to bet_to : Z) : res double :=
  raise_amount ← i32 (action_bet_to - bet_to);
  pot ← i32 (2 * bet_to);
  Ok (ddiv (of_int raise_amount) (of_int pot)).

Definition GetPotFrac (child_nodes : list (list Z)) (action_idx old_bet_to : Z) : res double :=
  child ← rd child_nodes action_idx;
  if is_call child then Ok (of_int 0) else
  if is_fold child then Ok (of_int (-1)) else
  o ← parse_bet child;
  match o with None => Ok (of_int 999) | Some b => pot_frac b old_bet_to end.

(** What the two filters of large bets start with: nothing to do, or the bet is large. *)
Definition large_bet (child : list Z) (bet_to : Z) (pot_th : double) : res bool :=
  if is_call child || is_fold child then Ok false else
  o ← parse_bet child;
  match o with
  | None => Ok false
  | Some b => f ← pot_frac b bet_to; Ok (negb (dlt f pot_th))
  end.

(** The board of three cards and the hole cards. *)
Definition flop_hand (board : list Z) (info : ActionInfo) : res (list Z) :=
  h0 ← rd (hcp_cards info) 0; h1 ← rd (hcp_cards info) 1; Ok (take 3 board ++ [h0; h1]).

(** Whether the hand is at least a top pair, or three of a kind on a paired board. *)
Definition strong_flop (g : SGame) (h : HandValueTree) (info : ActionInfo) : res (HandValueTree * bool) :=
  board_cards ← copy_cards (board_cards info) 3;
  board_cards ← SortCards board_cards 0 3;
  board_type ← GetFlopBoardType board_cards;
  cur_cards ← flop_hand board_cards info;
  if board_type =? 2 then Ok (h, false)
  else if board_type =? 1 then
    '(h, hand_type) ← GetHandType h cur_cards 5;
    Ok (h, negb (hand_type <? 3))
  else
    top_pair_cards ← MakeTopPairHand g board_cards 1 [0; 0; 0; 0; 0];
    '(h, top_pair_val) ← ValByCount h top_pair_cards 5;
    '(h, cur_val) ← ValByCount h cur_cards 5;
    Ok (h, negb (cur_val <? top_pair_val)).

Definition FilterFlopLargeBetAction (g : SGame) (h : HandValueTree) (info : ActionInfo) (child_nodes : list (list Z))
    (reg_vals : list Z) (action_idx : Z) (pot_th : double) : res (HandValueTree * Z) :=
  child ← rd child_nodes action_idx;
  large ← large_bet child (bet_to info) pot_th;
  if negb large then Ok (h, action_idx) else
  '(h, strong) ← strong_flop g h info;
  if negb strong then Ok (h, action_idx) else
  candidate_action ← for_ 0 action_idx [] (λ i l,
    f ← GetPotFrac child_nodes i (bet_to info);
    child ← rd child_nodes i;
    if negb (is_fold child) && dlt f pot_th then v ← rd reg_vals i; Ok (l ++ [(i, v)]) else Ok l);
  Ok (h, ChooseIdxByMinReg candidate_action).

Definition FilterTurnLargeBetAction : Z := 1.

Definition FilterAllinAction (child_nodes : list (list Z)) (reg_vals : list Z) (action_idx : Z) (filter_th : double)
    (handle_nfrm : bool) : res Z :=
  child ← rd child_nodes action_idx;
  if negb (bool_decide (child = bytes "r200")) then Ok action_idx else
  '(second_min_val, second_min_val_idx, max_reg_val) ← for_ 0 (size reg_vals) (2000000000, 0, 0) (λ i '(second, idx, max),
    v ← rd reg_vals i;
    let '(second, idx) := if (v <? second) && negb (i =? action_idx) then (v, i) else (second, idx) in
    Ok (second, idx, if max <? v then v else max));
  if dlt (of_int second_min_val) (dmul (of_int max_reg_val) filter_th) || handle_nfrm then Ok second_min_val_idx
  else Ok action_idx.

(** The candidates of [FilterActionToSmallBetAndRandom] below [end_idx]. *)
Definition small_bets (child_nodes : list (list Z)) (reg_vals : list Z) (old_bet_to max_reg_val : Z) (pot_th filter_th : double)
    (end_idx : Z) : res (list (Z * Z)) :=
  for_ 0 end_idx [] (λ i l,
    f ← GetPotFrac child_nodes i old_bet_to;
    v ← rd reg_vals i;
    Ok (if dle f pot_th && dlt (of_int v) (dmul (of_int max_reg_val) filter_th) then l ++ [(i, v)] else l)).

Definition FilterActionToSmallBetAndRandom (info : ActionInfo) (node : NodeInfo) (reg_vals : list Z) (action_idx : Z)
    (pot_th filter_th : double) (x : Z) : res (Z * Z) :=
  let child_nodes := child_node_ node in
  child ← rd child_nodes action_idx;
  if is_fold child || is_call child then Ok (x, action_idx) else
  max_reg_val ← max_of reg_vals;
  o ← parse_bet child;
  match o with
  | None => Ok (x, action_idx)
  | Some b =>
      f ← pot_frac b (bet_to info);
      if dlt pot_th f then
        candidate_actions ← small_bets child_nodes reg_vals (bet_to info) max_reg_val pot_th filter_th action_idx;
        '(min_val_idx, _) ← for_ 0 action_idx (0, 2000000000) (λ i '(idx, min_val),
          v ← rd reg_vals i; Ok (if v <? min_val then (i, v) else (idx, min_val)));
        if size candidate_actions =? 0 then Ok (x, min_val_idx) else ChooseIdxByAllRandom candidate_actions x
      else
        let end_idx := if street_ node =? 0 then action_idx + 1 else size reg_vals in
        candidate_actions ← small_bets child_nodes reg_vals (bet_to info) max_reg_val pot_th filter_th end_idx;
        if size candidate_actions =? 0 then Ok (x, action_idx) else ChooseIdxByAllRandom candidate_actions x
  end.

Definition FilterLargeBetAction (info : ActionInfo) (child_nodes : list (list Z)) (reg_vals : list Z) (action_idx : Z)
    (pot_th : double) : res Z :=
  child ← rd child_nodes action_idx;
  large ← large_bet child (bet_to info) pot_th;
  if negb large then Ok action_idx else
  candidate_actions ← for_ 0 action_idx [] (λ i l,
    f ← GetPotFrac child_nodes i (bet_to info);
    v ← rd reg_vals i;
    let l := if dlt f pot_th then l ++ [(i, v)] else l in
    Ok (l ++ [(i, v)]));
  Ok (ChooseIdxByMinReg candidate_actions).

(** ** [DTRobot::DoAction] *)
Record ActionParam := mkParam {
  filter_flags : list bool; handle_nfrom : list bool; rule_types : list Z; frm_ths : list double; pot_ths : list double }.

(** [sprintf( buf, "%s:%u", ... )] into 1024 bytes. *)
Definition FormatStr (child_nodes : list (list Z)) (vals : list Z) : res (list Z) :=
  s ← for_ 0 (size child_nodes) (bytes "[") (λ i s,
    child ← rd child_nodes i; v ← rd vals i;
    let buf := child ++ [58] ++ dec v in
    if 1024 <=? size buf then Err OutOfBounds else
    Ok (s ++ buf ++ (if i <? size child_nodes - 1 then bytes ",    " else [])));
  Ok (s ++ bytes "]").

(** The probabilities of the candidates. *)
Definition candidate_probs (candidate_action : list (Z * Z)) : list (Z * double) :=
  let sum := fold_left (λ sum '(_, v), dadd sum (of_int v)) candidate_action (of_int 0) in
  if deq sum (of_int 0) then imap (λ i '(a, _), (a, if (i =? 0)%nat then one else of_int 0)) candidate_action
  else (λ '(a, v), (a, ddiv (of_int v) sum)) <$> candidate_action.

(** The index [final_idx] of the action, with the new states of the trees and the random numbers. *)
Definition choose_action (g : SGame) (h : HandValueTree) (x : Z) (p : ActionParam) (sumprob_flag : list bool)
    (info : ActionInfo) (node : NodeInfo) (vals : list Z) : res (HandValueTree * Z * Z) :=
  let st := info_st info in
  let child_nodes := child_node_ node in
  sumprob ← rd sumprob_flag st;
  filter ← rd (filter_flags p) st;
  if (sumprob : bool) then
    frm ← rd (frm_ths p) st;
    if negb filter || dle one frm then i ← GetPureIdx vals true; Ok (h, x, i)
    else
      candidate_action ← FRMChooseCandidate vals true frm;
      '(x, i) ← ChooseIdxByRm (candidate_probs candidate_action) x;
      Ok (h, x, i)
  else
    action_idx ← GetPureIdx vals false;
    if negb filter then Ok (h, x, action_idx) else
    rule ← rd (rule_types p) st;
    if rule =? 1 then
      if st =? 0 then Ok (h, x, action_idx)
      else if st =? 1 then
        pot_th ← rd (pot_ths p) st;
        '(h, i) ← FilterFlopLargeBetAction g h info child_nodes vals action_idx pot_th;
        Ok (h, x, i)
      else
        frm ← rd (frm_ths p) st; nfrm ← rd (handle_nfrom p) st;
        i ← FilterAllinAction child_nodes vals action_idx frm nfrm;
        Ok (h, x, i)
    else if rule =? 2 then
      pot_th ← rd (pot_ths p) st;
      i ← FilterLargeBetAction info child_nodes vals action_idx pot_th;
      Ok (h, x, i)
    else Ok (h, x, action_idx).

(** The error and, without one, [action_str] and [rate_str]. *)
Definition DoAction (g : SGame) (h : HandValueTree) (x : Z) (p : ActionParam) (sumprob_flag : list bool)
    (info : ActionInfo) (node : NodeInfo) (vals : list Z) : res (HandValueTree * Z * Z * option (list Z * list Z)) :=
  ok ← CheckCards info;
  if negb ok then Ok (h, x, ERR_INVALID_CARD, None) else
  '(h, x, final_idx) ← choose_action g h x p sumprob_flag info node vals;
  action_str ← rd (child_node_ node) final_idx;
  rate_str ← FormatStr (child_node_ node) vals;
  sumprob ← rd sumprob_flag (info_st info);
  pure_idx ← GetPureIdx vals sumprob;
  let rate_str := rate_str ++ (if (sumprob : bool) then bytes "[Sum]" else bytes "[Reg]") ++
                  (if pure_idx =? final_idx then bytes "[Default]" else bytes "[" ++ action_str ++ bytes "]") in
  Ok (h, x, ERR_OK, Some (action_str, rate_str)).
