(* ===== verification/SelectThm.v ===== *)
(** * The robot plays one of the actions it may choose from

    Whatever the strategy and the settings, [DoAction] returns without a fault and names
    an action of the node; the lemmas say which one in every mode. *)

From stdpp Require Import base list list_numbers numbers option sets strings.
From S2P Require Import Prelude Text SBotEval BotGame TypicalCards Canon CanonCode RawCards Boards CardTree ShmPipe Reader HandTree HandTreeThm Double Robot RobotThm Select.

Open Scope Z_scope.

(** ** The best action *)
Section Vals.
Context (vals : list Z) (Hv : ∀ j, 0 ≤ j < size vals → 0 ≤ at_ vals j < 4294967296) (Hn : 0 < size vals).

(** The first action of regret zero, or the first one of all. *)
Definition first_zero (k : Z) : Prop :=
  (at_ vals k = 0 ∧ ∀ j, 0 ≤ j < k → at_ vals j ≠ 0) ∨ (k = 0 ∧ ∀ j, 0 ≤ j < size vals → at_ vals j ≠ 0).

(** The first action of the largest value. *)
Definition first_max (k : Z) : Prop :=
  (∀ j, 0 ≤ j < size vals → at_ vals j ≤ at_ vals k) ∧ ∀ j, 0 ≤ j < k → at_ vals j < at_ vals k.

Lemma pure_reg_ok : ∃ k, GetPureIdx vals false = Ok k ∧ 0 ≤ k < size vals ∧ first_zero k.
Proof.
  unfold GetPureIdx.
  match goal with |- context [forR _ _ _ ?b] =>
    destruct (forR_inv (λ i _, ∀ j, 0 ≤ j < i → at_ vals j ≠ 0) (λ i, 0 ≤ i < size vals ∧ at_ vals i = 0 ∧ ∀ j, 0 ≤ j < i → at_ vals j ≠ 0) 0 (size vals) tt b)
      as [(u & -> & H)|(i & -> & Hi & H0 & H)] end.
  - lia.
  - intros; lia.
  - intros i [] Hi H. unfold size in Hi. rewrite rd_ok, bind_ok by lia. destruct (Z.eqb_spec (at_ vals i) 0) as [E|E].
    + right. exists i. split; [done|]. split; [unfold size; lia|done].
    + left. exists tt. split; [done|]. intros j Hj. destruct (decide (j = i)) as [->|]; [done|]. apply H. lia.
  - exists 0. rewrite bind_ok. split; [done|]. split; [lia|]. by right.
  - exists i. rewrite bind_ok. split; [done|]. split; [done|]. by left.
Qed.

Lemma pure_sum_ok : ∃ k, GetPureIdx vals true = Ok k ∧ 0 ≤ k < size vals ∧ first_max k.
Proof.
  unfold GetPureIdx.
  match goal with |- context [for_ _ _ ?s ?b] =>
    destruct (for_inv (λ i '(k, m), (∀ j, 0 ≤ j < i → at_ vals j ≤ m) ∧
      (k = 0 ∧ m = 0 ∨ 0 ≤ k < i ∧ m = at_ vals k ∧ ∀ j, 0 ≤ j < k → at_ vals j < m)) 0 (size vals) s b) as ([k m] & -> & H1 & H2) end.
  - lia.
  - split; [intros; lia|by left].
  - intros i [k m] Hi [H1 H2]. unfold size in Hi. rewrite rd_ok, bind_ok by lia. eexists. split; [done|].
    destruct (Z.ltb_spec m (at_ vals i)) as [Hlt|Hge].
    + split; [intros j Hj; destruct (decide (j = i)) as [->|]; [lia|]; specialize (H1 j ltac:(lia)); lia|].
      right. split; [lia|]. split; [done|]. intros j Hj. specialize (H1 j ltac:(lia)). lia.
    + split; [intros j Hj; destruct (decide (j = i)) as [->|]; [lia|]; apply H1; lia|]. destruct H2 as [H2|(H2 & H3)]; [by left|]. right. split; [lia|done].
  - exists k. rewrite bind_ok. split; [done|]. destruct H2 as [[-> ->]|(H2 & -> & H3)]; [|split; [done|by split]].
    split; [lia|]. pose proof (Hv 0 ltac:(lia)). split; [|intros; lia]. intros j Hj. specialize (H1 j Hj). lia.
Qed.

Lemma max_of_ok : ∃ m j, max_of vals = Ok m ∧ 0 ≤ j < size vals ∧ at_ vals j = m ∧ 0 ≤ m < 4294967296 ∧ ∀ i, 0 ≤ i < size vals → at_ vals i ≤ m.
Proof.
  unfold max_of.
  match goal with |- context [for_ _ _ ?s ?b] =>
    destruct (for_inv (λ i m, (∀ j, 0 ≤ j < i → at_ vals j ≤ m) ∧ (m = 0 ∨ ∃ j, 0 ≤ j < i ∧ m = at_ vals j)) 0 (size vals) s b) as (m & -> & H1 & H2) end.
  - lia.
  - split; [intros; lia|by left].
  - intros i m Hi [H1 H2]. unfold size in Hi. rewrite rd_ok, bind_ok by lia. eexists. split; [done|].
    destruct (Z.ltb_spec m (at_ vals i)) as [Hlt|Hge].
    + split; [intros j Hj; destruct (decide (j = i)) as [->|]; [lia|]; specialize (H1 j ltac:(lia)); lia|]. right. exists i. split; [lia|done].
    + split; [intros j Hj; destruct (decide (j = i)) as [->|]; [lia|]; apply H1; lia|]. destruct H2 as [|(j & ? & ?)]; [by left|]. right. exists j. split; [lia|done].
  - destruct H2 as [->|(j & Hj & ->)].
    + exists 0, 0. split; [done|]. split; [lia|]. pose proof (Hv 0 ltac:(lia)). specialize (H1 0 ltac:(lia)) as H0. split; [lia|]. split; [lia|done].
    + exists (at_ vals j), j. split; [done|]. split; [done|]. split; [done|]. split; [by apply Hv|done].
Qed.

(** ** Drawing among the better actions *)
Lemma FRM_ok th : fraction th → ∃ m v l, max_of vals = Ok m ∧ to_u32 (dmul (of_int m) th) = Ok v ∧
  FRMChooseCandidate vals true th = Ok l ∧ l ≠ [] ∧ ∀ i x, (i, x) ∈ l → 0 ≤ i < size vals ∧ x = at_ vals i ∧ v ≤ x.
Proof.
  intros Hth. destruct max_of_ok as (m & j & Em & Hj & Ej & Hm & Hmax). destruct (mul_fraction m th Hm Hth) as (v & Ev & Hv').
  unfold FRMChooseCandidate. rewrite Em, bind_ok, Ev, bind_ok.
  match goal with |- context [for_ _ _ ?s ?b] =>
    destruct (for_inv (λ i l, (∀ k x, (k, x) ∈ l → 0 ≤ k < i ∧ x = at_ vals k ∧ v ≤ x) ∧ (j < i → l ≠ [])) 0 (size vals) s b) as (l & -> & H1 & H2) end.
  - lia.
  - split; [|intros; lia]. intros k x Hin. by apply not_elem_of_nil in Hin.
  - intros i l Hi [H1 H2]. unfold size in Hi. rewrite rd_ok, bind_ok by lia. eexists. split; [done|]. destruct (Z.leb_spec v (at_ vals i)) as [Hle|Hgt].
    + split; [|by intros _ E; apply app_eq_nil in E as []]. intros k x Hin. apply elem_of_app in Hin as [Hin|Hin].
      * destruct (H1 k x Hin) as (? & ? & ?). split; [lia|done].
      * apply list_elem_of_singleton in Hin as [= -> ->]. split; [lia|done].
    + split; [|intros Hji; apply H2; destruct (decide (j = i)) as [->|]; [lia|lia]]. intros k x Hin. destruct (H1 k x Hin) as (? & ? & ?). split; [lia|done].
  - exists m, v, l. split; [done|]. split; [done|]. split; [done|]. split; [apply H2; lia|]. done.
Qed.
End Vals.

Lemma candidate_probs_fst l : (candidate_probs l).*1 = l.*1.
Proof.
  unfold candidate_probs. destruct (deq _ _).
  - rewrite fmap_imap.
    assert (∀ f : nat → Z * Z → Z, (∀ i x, f i x = fst x) → imap f l = l.*1) as G.
    { induction l as [|x l IH]; intros f Hf; [done|]. cbn [imap fmap list_fmap]. rewrite Hf. f_equal. apply IH. intros i y. apply Hf. }
    apply G. by intros i [a v].
  - rewrite <- list_fmap_compose. apply list_fmap_ext. by intros i [a v] _.
Qed.

Lemma ChooseIdxByRm_ok l x : l ≠ [] → ∃ x' i, ChooseIdxByRm l x = Ok (x', i) ∧ i ∈ l.*1.
Proof.
  intros Hl. unfold ChooseIdxByRm. destruct (GetRng x) as [x' r]. assert (0 < size l) as Hs by (unfold size; destruct l; [done|cbn; lia]).
  assert (∀ s, 0 ≤ s < size l → ∃ i, ('(i, _) ← rd l s; Ok (x', i)) = Ok (x', i) ∧ i ∈ l.*1) as G.
  { intros s Hs'. unfold size in Hs'. destruct (lookup_lt_is_Some_2 l (Z.to_nat s) ltac:(lia)) as [[i p] Hi]. exists i.
    unfold rd. rewrite (proj2 (Z.ltb_ge s 0)), Hi by lia. cbn. split; [done|]. apply list_elem_of_fmap. exists (i, p). split; [done|]. by eapply list_elem_of_lookup_2. }
  exists x'. match goal with |- context [forR _ _ _ ?b] =>
    destruct (forR_inv (λ _ _, True) (λ s, 0 ≤ s < size l) 0 (size l - 1) (of_int 0) b) as [(u & -> & _)|(s & -> & Hs')] end.
  - lia.
  - done.
  - intros s cum Hs' _. unfold size in Hs'. destruct (lookup_lt_is_Some_2 l (Z.to_nat s) ltac:(lia)) as [[i p] Hi].
    unfold rd. rewrite (proj2 (Z.ltb_ge s 0)), Hi by lia. rewrite bind_ok. cbv zeta. destruct (dlt r _); [right|left]; eexists; (split; [done|]); [unfold size; lia|done].
  - rewrite bind_ok. apply G. lia.
  - rewrite bind_ok. by apply G.
Qed.

Lemma MinReg_ok l : ChooseIdxByMinReg l = 0 ∨ ChooseIdxByMinReg l ∈ l.*1.
Proof.
  unfold ChooseIdxByMinReg. generalize 2000000000 as m. assert (∀ k m, let f := fst (fold_left (λ '(a, b) '(i, v), if v <? b then (i, v) else (a, b)) l (k, m)) in f = k ∨ f ∈ l.*1) as G.
  { induction l as [|[i v] l IH]; intros k m; [by left|]. cbn [fold_left]. destruct (v <? m).
    - destruct (IH i v) as [->|H]; right; cbn; apply elem_of_cons; [by left|by right].
    - destruct (IH k m) as [->|H]; [by left|]. right. cbn. apply elem_of_cons. by right. }
  intros m. apply (G 0 m).
Qed.

(** ** The strength of a hand on the flop *)
Lemma first_such_ok n test j : 0 ≤ j < n → test j = true → ∃ i, first_such n test = Ok i ∧ 0 ≤ i < n ∧ test i = true.
Proof.
  intros Hj Ht. unfold first_such.
  match goal with |- context [forR _ _ _ ?b] =>
    destruct (forR_inv (λ i _, i ≤ j) (λ i, 0 ≤ i < n ∧ test i = true) 0 n tt b) as [(u & -> & H)|(i & -> & H)] end.
  - lia.
  - lia.
  - intros i [] Hi Hle. destruct (test i) eqn:E; [right; exists i; split; [done|]; split; [lia|done]|].
    left. exists tt. split; [done|]. assert (i ≠ j) by congruence. lia.
  - lia.
  - exists i. rewrite bind_ok. done.
Qed.

Lemma three_ranks a b c : ∃ r, 0 ≤ r < 13 ∧ r ≠ a ∧ r ≠ b ∧ r ≠ c.
Proof.
  destruct (decide (0 = a ∨ 0 = b ∨ 0 = c)); [|exists 0; lia]. destruct (decide (1 = a ∨ 1 = b ∨ 1 = c)); [|exists 1; lia].
  destruct (decide (2 = a ∨ 2 = b ∨ 2 = c)); [|exists 2; lia]. exists 3. lia.
Qed.

(** [MakeTopPairHand] completes a board of three ranks to a pair with its highest card. *)
Lemma MakeTopPair_ok g c0 c1 c2 : holdem g → card c0 → card c1 → card c2 → Rank c0 ≠ Rank c1 → Rank c1 ≠ Rank c2 → Rank c0 ≠ Rank c2 →
  ∃ hi lo, MakeTopPairHand g [c0; c1; c2] 1 [0; 0; 0; 0; 0] = Ok [c0; c1; c2; hi; lo] ∧ Rank hi = Rank c0 ∧
    NoDup [c0; c1; c2; hi; lo] ∧ Forall card [c0; c1; c2; hi; lo].
Proof.
  intros Hg H0 H1 H2 N01 N12 N02. destruct (deck_parts c0 H0) as (R0 & S0 & _). unfold MakeTopPairHand. cbn [Z.eqb Pos.eqb negb].
  rewrite (ho_suits g Hg), (ho_ranks g Hg).
  destruct (first_such_ok 4 (λ s, negb (s =? Suit c0)) (if Suit c0 =? 0 then 1 else 0)) as (hs & Ehs & Rhs & Ths).
  { destruct (Suit c0 =? 0); lia. }
  { destruct (Z.eqb_spec (Suit c0) 0) as [->|]; [done|]. by rewrite (proj2 (Z.eqb_neq 0 (Suit c0))) by lia. }
  destruct (three_ranks (Rank c2) (Rank c1) (Rank c0)) as (r & Hr & Nr2 & Nr1 & Nr0).
  destruct (first_such_ok 13 (λ r, negb (r =? Rank c2) && negb (r =? Rank c1) && negb (r =? Rank c0)) r Hr) as (lr & Elr & Rlr & Tlr).
  { by rewrite (proj2 (Z.eqb_neq r (Rank c2))), (proj2 (Z.eqb_neq r (Rank c1))), (proj2 (Z.eqb_neq r (Rank c0))). }
  apply negb_true_iff, Z.eqb_neq in Ths. apply andb_prop in Tlr as [Tlr T0]. apply andb_prop in Tlr as [T2 T1].
  apply negb_true_iff, Z.eqb_neq in T0, T1, T2.
  exists (MakeCard (Rank c0) hs), (MakeCard lr 0). split.
  { change (rd [c0; c1; c2] 0) with (Ok c0). change (rd [c0; c1; c2] 1) with (Ok c1). change (rd [c0; c1; c2] 2) with (Ok c2).
    rewrite !bind_ok. change (wr [0; 0; 0; 0; 0] 0 c0) with (Ok [c0; 0; 0; 0; 0]). rewrite bind_ok. change (wr [c0; 0; 0; 0; 0] 1 c1) with (Ok [c0; c1; 0; 0; 0]).
    rewrite bind_ok. change (wr [c0; c1; 0; 0; 0] 2 c2) with (Ok [c0; c1; c2; 0; 0]). rewrite bind_ok, Ehs, bind_ok.
    change (wr [c0; c1; c2; 0; 0] 3 (MakeCard (Rank c0) hs)) with (Ok [c0; c1; c2; MakeCard (Rank c0) hs; 0]). rewrite bind_ok, Elr, bind_ok. done. }
  assert (Rank (MakeCard (Rank c0) hs) = Rank c0 ∧ Suit (MakeCard (Rank c0) hs) = hs) as [RH SH] by (rewrite Rank_make, Suit_make by lia; done).
  assert (Rank (MakeCard lr 0) = lr) as RL by (rewrite Rank_make by lia; done). split; [done|]. split.
  - assert (∀ x y, Rank x ≠ Rank y → x ≠ y) as NR by (intros x y H ->; done).
    assert (c0 ≠ MakeCard (Rank c0) hs) as N0 by (intros E; apply (f_equal Suit) in E; rewrite SH in E; lia).
    rewrite !NoDup_cons, !not_elem_of_cons. repeat split; try apply not_elem_of_nil; try apply NoDup_nil_2; try done; apply NR; rewrite ?RH, ?RL; lia.
  - repeat first [apply Forall_nil_2|apply Forall_cons_2]; first [done|apply make_card; lia].
Qed.

Section Flop.
Context (g : SGame) (Hg : holdem g) (files : Z → list Z).

(** Better than the top pair, or three of a kind on a board with a pair: what the values say. *)
Lemma strong_flop_ok h info : loaded files h → valid_hand info → 1 ≤ info_st info →
  ∃ h' b, strong_flop g h info = Ok (h', b) ∧ loaded files h'.
Proof.
  intros Hh [[Hb Hl] Hst Hd] H1. set (st := info_st info) in *.
  pose proof (deal_concat st (board_cards info) (hcp_cards info) Hst) as Hp. pose proof (do_board _ _ _ Hd) as Hdb. specialize (Hp Hdb).
  pose proof (do_distinct _ _ _ Hd) as HN. pose proof (do_cards _ _ _ Hd) as HC. rewrite Hp in HN, HC.
  pose proof (board_size_mono 1 st ltac:(lia) ltac:(lia)) as B. change (board_size 1) with 3 in B.
  assert (take (Z.to_nat (board_size st)) (board_cards info) = take 3 (board_cards info) ++ take (Z.to_nat (board_size st) - 3) (drop 3 (board_cards info))) as Et.
  { rewrite take_take_drop. f_equal. lia. }
  rewrite Et, app_assoc in HN, HC. apply NoDup_app in HN as (HN & _). apply Forall_app in HC as [HC _]. rewrite Permutation_app_comm in HN, HC.
  unfold strong_flop. rewrite copy_cards_ok, bind_ok by lia. change (Z.to_nat 3) with 3%nat. set (b3 := take 3 (board_cards info)) in *.
  assert (length b3 = 3%nat) as Hb3 by (unfold b3; rewrite length_take; lia).
  rewrite SortCards_ok, bind_ok by lia. change (Z.to_nat 3) with 3%nat. rewrite (take_ge b3), (drop_ge b3), app_nil_r by lia.
  rewrite <- (desc_perm b3) in HN, HC. pose proof (Permutation_length (desc_perm b3)) as Hdl. rewrite Hb3 in Hdl.
  destruct (desc b3) as [|c0 [|c1 [|c2 [|]]]]; try done. destruct (hcp_cards info) as [|h0 [|h1 [|]]] eqn:Eh; try done.
  assert (flop_hand [c0; c1; c2] info = Ok [c0; c1; c2; h0; h1]) as -> by (unfold flop_hand; rewrite Eh; done).
  pose proof (Forall_lookup_1 _ _ 0 c0 HC eq_refl) as C0. pose proof (Forall_lookup_1 _ _ 1 c1 HC eq_refl) as C1. pose proof (Forall_lookup_1 _ _ 2 c2 HC eq_refl) as C2.
  assert (∀ h, loaded files h → ValByCount h [c0; c1; c2; h0; h1] 5 = Ok (set_num h 5, value_of files [c0; c1; c2; h0; h1])) as HV.
  { intros k Hk. apply (ValByCount_ok files k [c0; c1; c2; h0; h1]); [done|cbn; lia|done|done]. }
  unfold GetFlopBoardType. change (rd [c0; c1; c2] 0) with (Ok c0). change (rd [c0; c1; c2] 1) with (Ok c1). change (rd [c0; c1; c2] 2) with (Ok c2). rewrite !bind_ok.
  destruct (negb (Rank c0 =? Rank c1) && negb (Rank c1 =? Rank c2) && negb (Rank c0 =? Rank c2)) eqn:ER.
  - cbn [Z.eqb]. apply andb_prop in ER as [ER N02]. apply andb_prop in ER as [N01 N12]. apply negb_true_iff, Z.eqb_neq in N01, N12, N02.
    destruct (MakeTopPair_ok g c0 c1 c2 Hg C0 C1 C2 N01 N12 N02) as (hi & lo & -> & _ & HN' & HC'). rewrite bind_ok.
    pose proof (ValByCount_ok files h [c0; c1; c2; hi; lo] Hh ltac:(cbn; lia) HN' HC') as E5. change (Z.of_nat (length [c0; c1; c2; hi; lo])) with 5 in E5.
    rewrite E5, bind_ok, HV, bind_ok by done. eauto.
  - destruct ((Rank c0 =? Rank c1) && (Rank c1 =? Rank c2)); cbn [Z.eqb Pos.eqb]; [by eauto|].
    unfold GetHandType. change ((5 <? 5) || (7 <? 5)) with false. cbv iota. rewrite HV, bind_ok by done.
    match goal with |- context [forR _ _ _ ?b] => destruct (forR_inv (λ _ _, True) (λ _, True) 0 (size hand_vals) tt b) as [(u & -> & _)|(i & -> & _)] end;
      [vm_compute; discriminate|done| |rewrite !bind_ok; by eauto..].
    intros i [] Hi _. rewrite rd_ok, bind_ok by (unfold size in *; lia). destruct (_ <? _); eauto.
Qed.
End Flop.

(** ** The filters *)

(** A node the robot can act at: a value for every action, and actions whose bets can be
    computed with. *)
Record node_ok (info : ActionInfo) (child : list (list Z)) (vals : list Z) : Prop := {
  no_size : size child = size vals;
  no_some : 0 < size vals;
  no_vals : ∀ j, 0 ≤ j < size vals → 0 ≤ at_ vals j < 4294967296;
  no_bet : 0 ≤ bet_to info ≤ 1073741823;
  no_parse : ∀ c, c ∈ child → ∃ o, parse_bet c = Ok o ∧ ∀ b, o = Some b → INT32_MIN ≤ b - bet_to info ≤ INT32_MAX;
  no_short : ∀ c, c ∈ child → (length c ≤ 1000)%nat }.

Section Node.
Context (info : ActionInfo) (child : list (list Z)) (vals : list Z) (Hno : node_ok info child vals).

Lemma child_at i : 0 ≤ i < size vals → rd child i = Ok (at_ child i) ∧ at_ child i ∈ child.
Proof.
  intros Hi. pose proof (no_size _ _ _ Hno) as Hs. unfold size in *. split; [apply rd_ok; lia|].
  unfold at_. eapply list_elem_of_lookup_2. apply list_lookup_lookup_total_lt. lia.
Qed.

Lemma val_at i : 0 ≤ i < size vals → rd vals i = Ok (at_ vals i).
Proof. intros Hi. unfold size in Hi. apply rd_ok. lia. Qed.

Lemma frac_ok c : c ∈ child → ∀ o, parse_bet c = Ok o → ∀ b, o = Some b → ∃ f, pot_frac b (bet_to info) = Ok f.
Proof.
  intros Hc o Eo b ->. destruct (no_parse _ _ _ Hno c Hc) as (o' & E' & Hr). rewrite Eo in E'. injection E' as <-. specialize (Hr b eq_refl).
  pose proof (no_bet _ _ _ Hno). unfold pot_frac. rewrite (i32_ok (b - bet_to info)), bind_ok by done.
  rewrite i32_ok, bind_ok by (unfold INT32_MIN, INT32_MAX; lia). eauto.
Qed.

Lemma GetPotFrac_ok i : 0 ≤ i < size vals → ∃ f, GetPotFrac child i (bet_to info) = Ok f.
Proof.
  intros Hi. destruct (child_at i Hi) as [E Hc]. unfold GetPotFrac. rewrite E, bind_ok. destruct (is_call _); [by eauto|]. destruct (is_fold _); [by eauto|].
  destruct (no_parse _ _ _ Hno _ Hc) as (o & Eo & _). rewrite Eo, bind_ok. destruct o as [b|]; [|by eauto]. by apply (frac_ok _ Hc _ Eo).
Qed.

Lemma large_bet_ok c th : c ∈ child → ∃ b, large_bet c (bet_to info) th = Ok b.
Proof.
  intros Hc. unfold large_bet. destruct (_ || _); [by eauto|]. destruct (no_parse _ _ _ Hno c Hc) as (o & Eo & _). rewrite Eo, bind_ok.
  destruct o as [b|]; [|by eauto]. destruct (frac_ok c Hc _ Eo b eq_refl) as (f & ->). rewrite bind_ok. eauto.
Qed.

(** The action [k] stays, or it was a large bet and a smaller one is taken. *)
Definition lowered (th : double) (k i : Z) : Prop :=
  i = k ∨ large_bet (at_ child k) (bet_to info) th = Ok true ∧ (0 ≤ i < k ∨ i = 0).

Lemma min_of_smaller l k : 0 ≤ k → (∀ i x, (i, x) ∈ l → 0 ≤ i < k) → 0 ≤ ChooseIdxByMinReg l < k ∨ ChooseIdxByMinReg l = 0.
Proof.
  intros Hk Hl. destruct (MinReg_ok l) as [->|H]; [by right|]. apply list_elem_of_fmap in H as ([i x] & -> & Hin). left. by eapply Hl.
Qed.

Lemma FilterLarge_ok k th : 0 ≤ k < size vals → ∃ i, FilterLargeBetAction info child vals k th = Ok i ∧ lowered th k i.
Proof.
  intros Hk. destruct (child_at k Hk) as [E Hc]. unfold FilterLargeBetAction. rewrite E, bind_ok.
  destruct (large_bet_ok _ th Hc) as (b & Eb). rewrite Eb, bind_ok. destruct b; cbn [negb]; [|exists k; split; [done|by left]].
  match goal with |- context [for_ _ _ ?s ?b] =>
    destruct (for_inv (λ i l, ∀ j x, (j, x) ∈ l → 0 ≤ j < i) 0 k s b) as (l & -> & Hl) end.
  - lia.
  - intros j x Hin. by apply not_elem_of_nil in Hin.
  - intros i l Hi Hl. destruct (GetPotFrac_ok i ltac:(lia)) as (f & ->). rewrite bind_ok, val_at, bind_ok by lia. eexists. split; [done|].
    intros j x Hin. assert ((j, x) ∈ l ∨ (j, x) = (i, at_ vals i)) as [Hin'|[= -> ->]]; [|specialize (Hl j x Hin'); lia|lia].
    apply elem_of_app in Hin as [Hin|Hin]; [|apply list_elem_of_singleton in Hin; by right].
    destruct (dlt f th); [|by left]. apply elem_of_app in Hin as [Hin|Hin]; [by left|]. apply list_elem_of_singleton in Hin. by right.
  - rewrite bind_ok. eexists. split; [done|]. right. split; [done|]. apply min_of_smaller; [lia|done].
Qed.

Lemma FilterFlop_ok g files h k th : holdem g → loaded files h → valid_hand info → 1 ≤ info_st info → 0 ≤ k < size vals →
  ∃ h' i, FilterFlopLargeBetAction g h info child vals k th = Ok (h', i) ∧ loaded files h' ∧ lowered th k i.
Proof.
  intros Hg Hh Hvh Hst Hk. destruct (child_at k Hk) as [E Hc]. unfold FilterFlopLargeBetAction. rewrite E, bind_ok.
  destruct (large_bet_ok _ th Hc) as (b & Eb). rewrite Eb, bind_ok. destruct b; cbn [negb]; [|exists h, k; split; [done|]; split; [done|by left]].
  destruct (strong_flop_ok g Hg files h info Hh Hvh Hst) as (h' & s & -> & Hh'). rewrite bind_ok. destruct s; cbn [negb]; [|exists h', k; split; [done|]; split; [done|by left]].
  match goal with |- context [for_ _ _ ?s ?b] =>
    destruct (for_inv (λ i l, ∀ j x, (j, x) ∈ l → 0 ≤ j < i) 0 k s b) as (l & -> & Hl) end.
  - lia.
  - intros j x Hin. by apply not_elem_of_nil in Hin.
  - intros i l Hi Hl. destruct (GetPotFrac_ok i ltac:(lia)) as (f & ->). destruct (child_at i ltac:(lia)) as [-> _]. rewrite !bind_ok.
    destruct (negb _ && _); [rewrite val_at, bind_ok by lia|]; (eexists; split; [done|]); intros j x Hin.
    + apply elem_of_app in Hin as [Hin|Hin]; [specialize (Hl j x Hin); lia|]. apply list_elem_of_singleton in Hin as [= -> ->]. lia.
    + specialize (Hl j x Hin). lia.
  - rewrite bind_ok. eexists _, _. split; [done|]. split; [done|]. right. split; [done|]. apply min_of_smaller; [lia|done].
Qed.

(** All-in is kept or replaced; nothing else is. *)
Lemma FilterAllin_ok k th nfrm : 0 ≤ k < size vals →
  ∃ i, FilterAllinAction child vals k th nfrm = Ok i ∧ 0 ≤ i < size vals ∧ (i = k ∨ at_ child k = bytes "r200").
Proof.
  intros Hk. destruct (child_at k Hk) as [E Hc]. unfold FilterAllinAction. rewrite E, bind_ok. destruct (bool_decide_reflect (at_ child k = bytes "r200")) as [Er|Er]; cbn [negb].
  2: { exists k. split; [done|]. split; [done|by left]. }
  match goal with |- context [for_ _ _ ?s ?b] =>
    destruct (for_inv (λ _ '(_, idx, _), 0 ≤ idx < size vals) 0 (size vals) s b) as ([[m idx] mx] & -> & Hi) end.
  - lia.
  - lia.
  - intros i [[m idx] mx] Hi Hidx. rewrite val_at, bind_ok by lia. destruct ((_ <? m) && _); (eexists; split; [reflexivity|]); cbn beta iota; [done|done].
  - rewrite bind_ok. destruct (_ || _); [exists idx|exists k]; (split; [done|]; split; [done|by right]).
Qed.

Lemma FormatStr_ok : ∃ s, FormatStr child vals = Ok s.
Proof.
  unfold FormatStr. match goal with |- context [for_ _ _ ?s ?b] => destruct (for_inv (λ _ _, True) 0 (size child) s b) as (s' & -> & _) end.
  - unfold size. lia.
  - done.
  - intros i s Hi _. pose proof (no_size _ _ _ Hno) as Hs. destruct (child_at i ltac:(lia)) as [-> Hc]. rewrite bind_ok, val_at, bind_ok by lia.
    cbv zeta. rewrite (proj2 (Z.leb_gt _ _)); [by eauto|]. unfold size. rewrite !length_app. pose proof (no_short _ _ _ Hno _ Hc). cbn [length].
    pose proof (dec_u32_length _ (no_vals _ _ _ Hno i ltac:(lia))). lia.
  - rewrite bind_ok. eauto.
Qed.
End Node.

(** ** The choice *)

(** The settings of the four streets; the thresholds are numbers and not negative. *)
Record settings_ok (p : ActionParam) (sumprob_flag : list bool) : Prop := {
  se_sum : length sumprob_flag = 4%nat;
  se_filter : length (filter_flags p) = 4%nat;
  se_nfrm : length (handle_nfrom p) = 4%nat;
  se_rules : length (rule_types p) = 4%nat;
  se_frms : length (frm_ths p) = 4%nat;
  se_pots : length (pot_ths p) = 4%nat;
  se_frm : ∀ st, 0 ≤ st ≤ 3 → SpecFloat.valid_binary prec emax (at_ (frm_ths p) st) = true ∧ dle (of_int 0) (at_ (frm_ths p) st) = true }.

(** Which action [i] the robot may choose. *)
Definition may_choose (p : ActionParam) (sumprob_flag : list bool) (info : ActionInfo) (child : list (list Z)) (vals : list Z) (i : Z) : Prop :=
  let st := info_st info in
  let filter := at_ (filter_flags p) st in
  let frm := at_ (frm_ths p) st in
  let rule := at_ (rule_types p) st in
  if at_ sumprob_flag st then
    if negb filter || dle one frm then first_max vals i
    else ∃ m v, max_of vals = Ok m ∧ to_u32 (dmul (of_int m) frm) = Ok v ∧ v ≤ at_ vals i
  else
    ∃ k, 0 ≤ k < size vals ∧ first_zero vals k ∧
      if negb filter then i = k
      else if (rule =? 1) && (st =? 0) then i = k
      else if (rule =? 1) && (2 <=? st) then i = k ∨ at_ child k = bytes "r200"
      else if (rule =? 1) || (rule =? 2) then lowered info child (at_ (pot_ths p) st) k i
      else i = k.

Lemma lowered_range info child th n k i : 0 ≤ k < n → lowered info child th k i → 0 ≤ i < n.
Proof. intros Hk [->|[_ [Hi| ->]]]; lia. Qed.

Section Choose.
Context (g : SGame) (Hg : holdem g) (files : Z → list Z) (h : HandValueTree) (Hh : loaded files h).
Context (p : ActionParam) (sumprob_flag : list bool) (Hse : settings_ok p sumprob_flag).
Context (info : ActionInfo) (Hvh : valid_hand info) (node : NodeInfo) (vals : list Z) (Hno : node_ok info (child_node_ node) vals).

Lemma choose_action_ok x : ∃ h' x' i, choose_action g h x p sumprob_flag info node vals = Ok (h', x', i) ∧ loaded files h' ∧
  0 ≤ i < size vals ∧ may_choose p sumprob_flag info (child_node_ node) vals i.
Proof.
  destruct Hse as [S1 S2 S3 S4 S5 S6 S7]. pose proof (vh_street _ Hvh) as Hst. unfold choose_action, may_choose. cbv zeta.
  set (st := info_st info) in *. set (child := child_node_ node) in *.
  rewrite (rd_ok sumprob_flag), bind_ok, (rd_ok (filter_flags p)), bind_ok by lia.
  destruct (at_ sumprob_flag st).
  - rewrite (rd_ok (frm_ths p)), bind_ok by lia. destruct (negb (at_ (filter_flags p) st) || dle one (at_ (frm_ths p) st)) eqn:Ef.
    + destruct (pure_sum_ok vals (no_vals _ _ _ Hno) (no_some _ _ _ Hno)) as (k & -> & Hk & Hm). rewrite bind_ok. exists h, x, k. split; [done|]. split; [done|]. split; [done|]. exact Hm.
    + apply orb_false_iff in Ef as [_ Ef]. destruct (S7 st Hst) as [V1 V2].
      destruct (FRM_ok vals (no_vals _ _ _ Hno) (no_some _ _ _ Hno) (at_ (frm_ths p) st)) as (m & v & l & Em & Ev & -> & Hl & Hin); [done|].
      rewrite bind_ok. destruct (ChooseIdxByRm_ok (candidate_probs l) x) as (x' & i & -> & Hi).
      { intros E. apply (f_equal (fmap fst)) in E. rewrite candidate_probs_fst in E. by destruct l. }
      rewrite candidate_probs_fst in Hi. apply list_elem_of_fmap in Hi as ([i' w] & -> & Hi). destruct (Hin i' w Hi) as (H1 & -> & H2).
      rewrite bind_ok. exists h, x', i'. split; [done|]. split; [done|]. split; [done|]. by exists m, v.
  - destruct (pure_reg_ok vals (no_some _ _ _ Hno)) as (k & -> & Hk & Hz). rewrite bind_ok. destruct (at_ (filter_flags p) st); cbn [negb].
    2: { exists h, x, k. split; [done|]. split; [done|]. split; [done|]. by exists k. }
    rewrite (rd_ok (rule_types p)), bind_ok by lia. destruct (Z.eqb_spec (at_ (rule_types p) st) 1) as [E1|E1]; cbn [andb orb].
    + destruct (Z.eqb_spec st 0) as [E0|E0].
      { exists h, x, k. split; [done|]. split; [done|]. split; [done|]. by exists k. }
      destruct (Z.eqb_spec st 1) as [Est|Est].
      * rewrite (proj2 (Z.leb_gt 2 st)) by lia. rewrite (rd_ok (pot_ths p)), bind_ok by lia.
        destruct (FilterFlop_ok info child vals Hno g files h k (at_ (pot_ths p) st)) as (h' & i & -> & Hh' & Hl); [done..|fold st; lia|done|].
        rewrite bind_ok. exists h', x, i. split; [done|]. split; [done|]. split; [by eapply lowered_range|]. by exists k.
      * rewrite (proj2 (Z.leb_le 2 st)) by lia. rewrite (rd_ok (frm_ths p)), bind_ok, (rd_ok (handle_nfrom p)), bind_ok by lia.
        destruct (FilterAllin_ok info child vals Hno k (at_ (frm_ths p) st) (at_ (handle_nfrom p) st) Hk) as (i & -> & Hi & Ha).
        rewrite bind_ok. exists h, x, i. split; [done|]. split; [done|]. split; [done|]. by exists k.
    + destruct (at_ (rule_types p) st =? 2).
      * rewrite (rd_ok (pot_ths p)), bind_ok by lia. destruct (FilterLarge_ok info child vals Hno k (at_ (pot_ths p) st) Hk) as (i & -> & Hl).
        rewrite bind_ok. exists h, x, i. split; [done|]. split; [done|]. split; [by eapply lowered_range|]. by exists k.
      * exists h, x, k. split; [done|]. split; [done|]. split; [done|]. by exists k.
Qed.
End Choose.

Lemma DoAction_ok g (Hg : holdem g) files h (Hh : loaded files h) p sumprob_flag (Hse : settings_ok p sumprob_flag) info
    (Hz : sized info) (Hst : 0 ≤ info_st info ≤ 3) node vals (Hno : node_ok info (child_node_ node) vals) x :
  (¬ valid_hand info → DoAction g h x p sumprob_flag info node vals = Ok (h, x, ERR_INVALID_CARD, None)) ∧
  (valid_hand info → ∃ h' x' i action rate,
     DoAction g h x p sumprob_flag info node vals = Ok (h', x', ERR_OK, Some (action, rate)) ∧ loaded files h' ∧
     rd (child_node_ node) i = Ok action ∧ may_choose p sumprob_flag info (child_node_ node) vals i).
Proof.
  destruct (CheckCards_ok info Hz Hst) as (b & Eb & Hb). unfold DoAction. rewrite Eb, bind_ok. split.
  - intros HV. destruct b; [tauto|done].
  - intros HV. rewrite (proj2 Hb HV). cbn [negb]. destruct (choose_action_ok g Hg files h Hh p sumprob_flag Hse info HV node vals Hno x) as (h' & x' & i & -> & Hh' & Hi & Hm).
    rewrite bind_ok. destruct (child_at info _ vals Hno i Hi) as [Ec _]. rewrite Ec, bind_ok.
    destruct (FormatStr_ok info _ vals Hno) as (s & ->). rewrite bind_ok, (rd_ok sumprob_flag), bind_ok by (rewrite (se_sum _ _ Hse); lia).
    assert (∃ k, GetPureIdx vals (at_ sumprob_flag (info_st info)) = Ok k) as (k & ->).
    { destruct (at_ sumprob_flag (info_st info)).
      - destruct (pure_sum_ok vals (no_vals _ _ _ Hno) (no_some _ _ _ Hno)) as (k & -> & _). eauto.
      - destruct (pure_reg_ok vals (no_some _ _ _ Hno)) as (k & -> & _). eauto. }
    rewrite bind_ok. eexists h', x', i, _, _. split; [done|]. by split.
Qed.



(** The filter of large bets enters every smaller action, also the large ones: a bet of
    five times the pot is replaced by one of one and a half pots, although bets of a pot
    are to be avoided. *)
Fact large_bet_stays_large :
  let info := mkInfo [51; 20; 2; 99; 99] [50; 13] 1 [] 10 0 in
  let child := [bytes "c"; bytes "r40"; bytes "r110"] in
  FilterLargeBetAction info child [7; 3; 0] 2 (of_int 1) = Ok 1 ∧ large_bet (bytes "r40") 10 (of_int 1) = Ok true.
Proof. split; vm_compute; reflexivity. Qed.

(** When all regrets are at least 2000000000 no candidate is found and the filter folds. *)
Fact large_bet_folds :
  let info := mkInfo [51; 20; 2; 99; 99] [50; 13] 1 [] 10 0 in
  FilterLargeBetAction info [bytes "f"; bytes "c"; bytes "r110"] [3000000000; 2500000000; 0] 2 (of_int 1) = Ok 0.
Proof. vm_compute. reflexivity. Qed.
