(* ===== verification/BettingTree.v ===== *)
(** * The betting tree of the game server ([BettingTree.cpp], [string_utils.cpp])

    [CBettingTree] maps the text of the actions of a hand to the node of the betting
    tree it leads to.  The nodes are read from a file with one line per node; until the
    file is read every query is refused.  A [std::string] is the list of its bytes, the
    hash table a finite map; [_exit] is the fault [Exited]. *)

From stdpp Require Import base list list_numbers numbers option strings sets gmap.
From S2P Require Import Prelude GameDef Text BotGame Robot.
Open Scope Z_scope.

(** ** [StringUtils] *)

(** [s.find( c )]. *)
Fixpoint find (c s : list Z) : option nat :=
  if bool_decide (c `prefix_of` s) then Some 0%nat
  else match s with [] => None | _ :: s => S <$> find c s end.

(** The [while] loop of [SplitString] from position [pos1] on, and the piece after it. *)
Fixpoint SplitString_loop (fuel : nat) (s c : list Z) (v : list (list Z)) (pos1 : nat) : res (list (list Z)) :=
  match fuel with
  | O => Err OutOfFuel
  | S fuel =>
      match find c (drop pos1 s) with
      | Some d => SplitString_loop fuel s c (v ++ [take d (drop pos1 s)]) (pos1 + d + length c)
      | None => Ok (if decide (pos1 = length s) then v else v ++ [drop pos1 s])
      end
  end.
Definition SplitString (s c : list Z) : res (list (list Z)) := SplitString_loop (S (length s)) s c [] 0.

(** ** Nodes *)

(** [sscanf( s.c_str(), "%d", &val ) != 1] is [None]. *)
Definition scan_d (s : list Z) : res (option Z) :=
  o ← scan_i32 (s ++ [0]); Ok (match o with Some (v, _) => Some v | None => None end).

(** The node is what [node] holds afterwards. *)
Definition ParseStrToNode (info_str : list Z) (node : NodeInfo) : res (Z * NodeInfo) :=
  split_str ← SplitString info_str [44];
  if Z.of_nat (length split_str) <? 4 then Ok (-1, node) else
  o ← forR 0 4 [] (λ i vals,
    t ← rd split_str i;
    v ← scan_d t;
    Ok (match v with Some v => inl (vals ++ [v]) | None => inr (-2) end));
  match o with
  | inr err => Ok (err, node)
  | inl vals =>
      node_id ← rd vals 0; street ← rd vals 1; num_succ ← rd vals 2; pa ← rd vals 3;
      need ← i32 (4 + num_succ);
      if Z.of_nat (length split_str) <? need then Ok (-3, node) else
      (** the range of iterators must not run backwards *)
      if num_succ <? 0 then Err OutOfBounds else
      Ok (0, mkNode node_id (u8 street) (u8 pa) (take (Z.to_nat num_succ) (drop 4 split_str)))
  end.

(** ** The tree *)
Definition g_strBTKeyPre : list Z := bytes "BTK_".

Record CBettingTree := mkBTree {
  m_nBTRecords : Z; m_nInitState : Z; m_BTHashTable : gmap (list Z) NodeInfo }.

(** [thread] says whether the thread that loads the file was created. *)
Definition BTree_Init (nBTRecords nTaskRedisCnt : Z) (strBTFile : list Z) (thread : bool) (t : CBettingTree) : bool * CBettingTree :=
  if (nBTRecords =? 0) || (nTaskRedisCnt =? 0) || (length strBTFile =? 0)%nat then (false, t) else
  let t := mkBTree nBTRecords 0 (m_BTHashTable t) in
  (thread, t).

Definition bt_key (strActionSeq : list Z) : list Z :=
  if (length strActionSeq =? 0)%nat then g_strBTKeyPre ++ bytes "root" else g_strBTKeyPre ++ strActionSeq.

Definition GetNode (t : CBettingTree) (strActionSeq : list Z) (node : NodeInfo) : Z * NodeInfo :=
  let sk := bt_key strActionSeq in
  if m_nInitState t =? 1 then
    match m_BTHashTable t !! sk with
    | None => (-106, node)
    | Some it => (0, it)
    end
  else (-116, node).

(** [std::getline]: the lines of a file; a last line need not be ended. *)
Fixpoint getlines (l line : list Z) : list (list Z) :=
  match l with
  | [] => match line with [] => [] | _ => [line] end
  | x :: l => if x =? 10 then line :: getlines l [] else getlines l (line ++ [x])
  end.

(** One round of the loop over the lines; [oNodeInfo] lives outside the loop. *)
Definition load_line (line : list Z) (st : gmap (list Z) NodeInfo * NodeInfo) : res (gmap (list Z) NodeInfo * NodeInfo) :=
  let '(m_BTHashTable, oNodeInfo) := st in
  let line := List.filter (λ x, negb (x =? 13)) line in
  let line := List.filter (λ x, negb (x =? 10)) line in
  match find [44] line with
  | None => Err Exited
  | Some pos =>
      let strActionKey := take pos line in
      let strActionNode := drop (pos + 1) line in
      let strActionKey := if decide (strActionKey = []) then bytes "root" else strActionKey in
      let strActionKey := g_strBTKeyPre ++ strActionKey in
      '(err, oNodeInfo) ← ParseStrToNode strActionNode oNodeInfo;
      if negb (err =? 0) then Ok (m_BTHashTable, oNodeInfo) else
      (** [insert] keeps an entry that is there *)
      Ok (match m_BTHashTable !! strActionKey with
          | Some _ => m_BTHashTable
          | None => <[strActionKey := oNodeInfo]> m_BTHashTable
          end, oNodeInfo)
  end.

(** The body of the thread's loop; [None] is a file that cannot be opened. *)
Definition InitBTreeIt (file : option (list Z)) (oNodeInfo : NodeInfo) (t : CBettingTree) : res (CBettingTree * NodeInfo) :=
  if m_nInitState t =? 1 then Ok (t, oNodeInfo) else
  match file with
  | None => Err Exited
  | Some f =>
      '(m, oNodeInfo) ← foldM load_line (getlines f []) (m_BTHashTable t, oNodeInfo);
      if negb (m_nBTRecords t =? Z.of_nat (base.size m)) then Err Exited else
      Ok (mkBTree (m_nBTRecords t) 1 m, oNodeInfo)
  end.

(** ** Splitting *)
Lemma find_comma x r : (44 : Z) ∉ x → find [44] (x ++ 44 :: r) = Some (length x).
Proof.
  induction x as [|y x IH]; intros H; cbn [app find].
  - rewrite bool_decide_true; [done|]. by exists r.
  - rewrite bool_decide_false; [rewrite IH by set_solver; done|]. intros [k E]. injection E as E _. apply H. rewrite E. apply list_elem_of_here.
Qed.

Lemma find_none x : (44 : Z) ∉ x → find [44] x = None.
Proof.
  induction x as [|y x IH]; intros H; cbn [find].
  - rewrite bool_decide_false; [done|]. intros [k E]. discriminate E.
  - rewrite bool_decide_false; [rewrite IH by set_solver; done|]. intros [k E]. injection E as E _. apply H. rewrite E. apply list_elem_of_here.
Qed.

(** Pieces with commas between them. *)
Fixpoint join (l : list (list Z)) : list Z :=
  match l with
  | [] => []
  | [x] => x
  | x :: l => x ++ 44 :: join l
  end.

Lemma join_cons x l : l ≠ [] → join (x :: l) = x ++ 44 :: join l.
Proof. by destruct l. Qed.

Definition plain (x : list Z) : Prop := ((44 : Z) ∉ x) ∧ ((10 : Z) ∉ x) ∧ ((13 : Z) ∉ x).
#[global] Instance plain_dec x : Decision (plain x).
Proof. unfold plain. apply _. Defined.

Lemma SplitString_loop_join fuel l p v :
  Forall (λ x, (44 : Z) ∉ x) l → last l ≠ Some [] → (length l < fuel)%nat →
  SplitString_loop fuel (p ++ join l) [44] v (length p) = Ok (v ++ l).
Proof.
  revert l p v. induction fuel as [|fuel IH]; intros l p v Hl Hlast Hf; [lia|]. cbn [SplitString_loop].
  rewrite drop_app_length. destruct l as [|x l].
  - cbn [join]. rewrite find_none by set_solver. rewrite decide_True by (rewrite length_app; cbn; lia). by rewrite !app_nil_r.
  - apply Forall_cons in Hl as [Hx Hl]. destruct l as [|y l].
    + cbn [join]. rewrite find_none by done. rewrite decide_False; [done|].
      rewrite length_app. cbn in Hlast. destruct x; [done|]. cbn. lia.
    + rewrite join_cons, find_comma by done. rewrite take_app_length.
      replace (p ++ x ++ 44 :: join (y :: l)) with ((p ++ x ++ [44]) ++ join (y :: l)) by (rewrite <-!app_assoc; done).
      replace (length p + length x + length [44%Z])%nat with (length (p ++ x ++ [44])) by (rewrite !length_app; cbn; lia).
      rewrite (IH (y :: l) (p ++ x ++ [44])) by (done || (cbn in *; lia)). rewrite <-app_assoc. done.
Qed.

Lemma SplitString_join l : Forall (λ x, (44 : Z) ∉ x) l → last l ≠ Some [] → SplitString (join l) [44] = Ok l.
Proof.
  intros Hl Hlast. unfold SplitString. destruct l as [|x l]; [done|].
  destruct (decide (length (x :: l) < S (length (join (x :: l))))%nat) as [Hlt|Hge].
  - by apply (SplitString_loop_join _ (x :: l) [] []).
  - exfalso. apply Hge. clear Hge Hl. revert x Hlast. induction l as [|y l IH]; intros x Hlast.
    + cbn in *. destruct x; [done|]. cbn. lia.
    + rewrite join_cons, length_app by done. specialize (IH y Hlast). cbn [length] in *. lia.
Qed.

(** ** Reading back what was written *)
Lemma digits_plain t : digits t → plain t.
Proof.
  intros H. unfold digits, plain in *. rewrite Forall_forall in H.
  split_and!; intros E; specialize (H _ E); discriminate H.
Qed.
Lemma dec_plain n : 0 ≤ n ≤ INT32_MAX → plain (dec n) ∧ dec n ≠ [].
Proof.
  intros H. destruct (dec_spec n ltac:(unfold INT32_MAX in H; lia)) as (D & _ & N & _). split; [|done]. by apply digits_plain.
Qed.

Lemma scan_d_dec n : 0 ≤ n ≤ INT32_MAX → scan_d (dec n) = Ok (Some n).
Proof. intros H. unfold scan_d. by rewrite (scan_i32_dec n 0 []). Qed.

Definition fields (n : NodeInfo) : list (list Z) :=
  [dec (node_id_ n); dec (street_ n); dec (Z.of_nat (length (child_node_ n))); dec (acting_player_ n)] ++ child_node_ n.

Record wf_node (n : NodeInfo) : Prop := {
  wn_id : 0 ≤ node_id_ n ≤ INT32_MAX;
  wn_street : 0 ≤ street_ n < 256;
  wn_player : 0 ≤ acting_player_ n < 256;
  wn_few : Z.of_nat (length (child_node_ n)) ≤ INT32_MAX - 4;
  wn_plain : Forall plain (child_node_ n);
  (** [SplitString] drops an empty piece at the end *)
  wn_last : last (child_node_ n) ≠ Some [] }.

Lemma fields_plain n : wf_node n → Forall plain (fields n).
Proof.
  intros [H1 H2 H3 H4 H5 _]. unfold fields. cbn [app]. unfold INT32_MAX in *.
  repeat (apply Forall_cons; split; [apply dec_plain; unfold INT32_MAX; lia|]). done.
Qed.

Lemma ParseStrToNode_fields n node : wf_node n → ParseStrToNode (join (fields n)) node = Ok (0, n).
Proof.
  intros W. pose proof (fields_plain n W) as Pl. destruct W as [H1 H2 H3 H4 H5 H6]. unfold INT32_MAX in *.
  unfold ParseStrToNode. rewrite SplitString_join; cycle 1.
  { eapply Forall_impl; [exact Pl|]. by intros x (? & _). }
  { unfold fields. destruct (child_node_ n) as [|c l]; [|done]. cbn [app last].
    intros [= E]. by apply (dec_plain (acting_player_ n)) in E; [|unfold INT32_MAX; lia]. }
  assert (L : Z.of_nat (length (fields n)) = 4 + Z.of_nat (length (child_node_ n))) by (unfold fields; rewrite length_app; cbn; lia).
  rewrite bind_ok, (proj2 (Z.ltb_ge _ 4)) by lia.
  set (body := λ i vals, t ← rd (fields n) i; _).
  assert (B : ∀ i vals v, 0 ≤ i < 4 → scan_d (at_ (fields n) i) = Ok (Some v) → body i vals = Ok (inl (vals ++ [v]))).
  { intros i vals v Hi Hv. unfold body. rewrite (rd_ok (fields n) i) by lia. rewrite bind_ok, Hv, bind_ok. done. }
  assert (E : forR 0 4 [] body = Ok (inl [node_id_ n; street_ n; Z.of_nat (length (child_node_ n)); acting_player_ n])).
  { unfold forR. change (seqZ 0 (4 - 0)) with [0; 1; 2; 3]. cbn [foldR].
    rewrite (B 0 [] (node_id_ n)), bind_ok; [|lia|apply scan_d_dec; unfold INT32_MAX; lia]. cbn [app].
    rewrite (B 1 _ (street_ n)), bind_ok; [|lia|apply scan_d_dec; unfold INT32_MAX; lia]. cbn [app].
    rewrite (B 2 _ (Z.of_nat (length (child_node_ n)))), bind_ok; [|lia|apply scan_d_dec; unfold INT32_MAX; lia]. cbn [app].
    rewrite (B 3 _ (acting_player_ n)), bind_ok; [|lia|apply scan_d_dec; unfold INT32_MAX; lia]. done. }
  rewrite E, bind_ok. cbn beta iota.
  change (rd [?a; ?b; ?c; ?d] 0) with (Ok a); change (rd [?a; ?b; ?c; ?d] 1) with (Ok b).
  change (rd [?a; ?b; ?c; ?d] 2) with (Ok c); change (rd [?a; ?b; ?c; ?d] 3) with (Ok d). rewrite !bind_ok.
  rewrite i32_ok by (unfold INT32_MIN, INT32_MAX; lia). rewrite bind_ok.
  rewrite (proj2 (Z.ltb_ge _ (4 + _))), (proj2 (Z.ltb_ge _ 0)) by lia.
  rewrite Nat2Z.id. unfold fields. cbn [app drop]. rewrite firstn_all.
  rewrite !u8_small by lia. by destruct n.
Qed.

(** ** Files of nodes *)
Definition entry_line (e : list Z * NodeInfo) : list Z := join (e.1 :: fields e.2).
(** Lines ended by [\n] or by [\r\n]. *)
Definition tree_file (crlf : bool) (es : list (list Z * NodeInfo)) : list Z :=
  concat ((λ e, (entry_line e ++ if crlf then [13] else []) ++ [10]) <$> es).

Record wf_entry (e : list Z * NodeInfo) : Prop := {
  we_plain : plain e.1;
  (** the name that stands for no action at all *)
  we_root : e.1 ≠ bytes "root";
  we_node : wf_node e.2 }.

Lemma getlines_app l line rest : (10 : Z) ∉ l → getlines (l ++ 10 :: rest) line = (line ++ l) :: getlines rest [].
Proof.
  revert line. induction l as [|x l IH]; intros line H; cbn [app getlines].
  - by rewrite app_nil_r.
  - destruct (Z.eqb_spec x 10) as [->|]; [set_solver|]. rewrite IH by set_solver. by rewrite <-app_assoc.
Qed.

Lemma getlines_concat ls : Forall (λ l, (10 : Z) ∉ l) ls → getlines (concat ((λ l, l ++ [10]) <$> ls)) [] = ls.
Proof.
  induction 1 as [|l ls Hl _ IH]; [done|]. cbn [fmap list_fmap concat]. rewrite <-app_assoc. cbn [app].
  by rewrite getlines_app, IH.
Qed.

Lemma filter_plain (x : Z) l : x ∉ l → List.filter (λ y, negb (y =? x)) l = l.
Proof.
  induction l as [|y l IH]; intros H; [done|]. cbn [List.filter].
  destruct (Z.eqb_spec y x) as [->|]; [set_solver|]. cbn [negb]. rewrite IH by set_solver. done.
Qed.

Lemma elem_of_join (x : Z) l : x ≠ 44 → Forall (λ t, x ∉ t) l → x ∉ join l.
Proof.
  intros Hx. induction 1 as [|t l Ht Hl IH]; [cbn; set_solver|].
  destruct l as [|u l]; [done|]. rewrite join_cons, not_elem_of_app, not_elem_of_cons by done. auto.
Qed.

Lemma entry_plain e : wf_entry e → ((10 : Z) ∉ entry_line e) ∧ ((13 : Z) ∉ entry_line e).
Proof.
  intros [Hp _ Hn]. pose proof (fields_plain _ Hn) as Hf. unfold entry_line.
  split; apply elem_of_join; try done; (apply Forall_cons; split; [apply Hp|]);
    (eapply Forall_impl; [exact Hf|]); by intros ? (? & ? & ?).
Qed.

Lemma bt_key_inj k k' : k ≠ bytes "root" → k' ≠ bytes "root" → bt_key k = bt_key k' → k = k'.
Proof. unfold bt_key. destruct k, k'; cbn [length Nat.eqb]; intros H H' E; try done; apply app_inv_head in E; congruence. Qed.

Lemma load_line_entry crlf e m node : wf_entry e → m !! bt_key e.1 = None →
  load_line (entry_line e ++ if crlf : bool then [13] else []) (m, node) = Ok (<[bt_key e.1 := e.2]> m, e.2).
Proof.
  intros W Hm. destruct (entry_plain e W) as [L10 L13]. destruct W as [Hp Hr Hn]. unfold load_line.
  rewrite List.filter_app, (filter_plain 13) by done.
  replace (List.filter (λ x, negb (x =? 13)) (if crlf then [13] else [])) with (@nil Z) by (by destruct crlf).
  rewrite app_nil_r, (filter_plain 10) by done. unfold entry_line. rewrite join_cons by done.
  rewrite find_comma by apply Hp. rewrite take_app_length.
  replace (drop (length e.1 + 1) (e.1 ++ 44 :: join (fields e.2))) with (join (fields e.2))
    by (rewrite drop_app_ge by lia; replace (length e.1 + 1 - length e.1)%nat with 1%nat by lia; done).
  rewrite ParseStrToNode_fields, bind_ok by done. cbn [negb Z.eqb].
  replace (g_strBTKeyPre ++ _) with (bt_key e.1); [by rewrite Hm|].
  unfold bt_key. destruct e.1; cbn [length Nat.eqb]; [by rewrite decide_True|by rewrite decide_False].
Qed.

Lemma load_entries crlf es m node : Forall wf_entry es → NoDup es.*1 →
  (∀ e, e ∈ es → m !! bt_key e.1 = None) →
  ∃ node', foldM load_line ((λ e, entry_line e ++ if crlf : bool then [13] else []) <$> es) (m, node)
    = Ok (list_to_map (prod_map bt_key id <$> es) ∪ m, node').
Proof.
  intros Hw. revert m node. induction Hw as [|e es We Hw IH]; intros m node ND Hm.
  - exists node. cbn. by rewrite (left_id_L ∅ (∪)).
  - cbn [fmap list_fmap foldM]. apply NoDup_cons in ND as [Hin ND].
    rewrite load_line_entry, bind_ok by (done || apply Hm, list_elem_of_here).
    destruct (IH (<[bt_key e.1 := e.2]> m) e.2 ND) as (node' & E).
    { intros e' He'. rewrite lookup_insert_ne; [apply Hm; by right|]. intros Ek. apply Hin.
      rewrite Forall_forall in Hw. apply bt_key_inj in Ek; [|apply We|by apply Hw].
      rewrite Ek. by apply list_elem_of_fmap_2. }
    exists node'. rewrite E. f_equal. f_equal. destruct e as [k n]. cbn [prod_map fst snd list_to_map fmap list_fmap] in *.
    rewrite <-insert_union_r; [apply insert_union_l|]. apply not_elem_of_list_to_map. intros Hk.
    apply Hin. apply list_elem_of_fmap in Hk as ((k' & n') & Ek & Hk). apply list_elem_of_fmap in Hk as ((k2 & n2) & E2 & Hk).
    cbn in *. injection E2 as -> ->. rewrite Forall_forall in Hw. apply bt_key_inj in Ek; [|apply We|by apply (we_root _ (Hw _ Hk))].
    subst. by apply (list_elem_of_fmap_2 fst) in Hk.
Qed.

Lemma tree_lines crlf es : Forall wf_entry es →
  getlines (tree_file crlf es) [] = (λ e, entry_line e ++ if crlf : bool then [13] else []) <$> es.
Proof.
  intros Hw. unfold tree_file. etrans; [|apply getlines_concat]; [by rewrite <-list_fmap_compose|].
  apply Forall_fmap, (Forall_impl _ _ _ Hw). intros e We. destruct (entry_plain e We) as [L10 _].
  cbn. apply not_elem_of_app. split; [done|]. destruct crlf; [by rewrite list_elem_of_singleton|apply not_elem_of_nil].
Qed.

(** C30: A file with one line per node, with lines of either ending, is loaded: before,
    every query is refused; after, the query for a sequence of actions returns exactly
    the node the file gives it, and a sequence that is not in the file is refused. *)
Theorem tree_file_loads crlf es t node0 :
  Forall wf_entry es → NoDup es.*1 → m_nInitState t ≠ 1 → m_BTHashTable t = ∅ →
  m_nBTRecords t = Z.of_nat (length es) →
  (∀ seq node, GetNode t seq node = (-116, node)) ∧
  ∃ t' node', InitBTreeIt (Some (tree_file crlf es)) node0 t = Ok (t', node') ∧
    ∀ seq node, seq ≠ bytes "root" →
      GetNode t' seq node = match (list_to_map es : gmap _ _) !! seq with Some n => (0, n) | None => (-106, node) end.
Proof.
  intros Hw ND Hi Hm Hn. split; [intros; unfold GetNode; by rewrite (proj2 (Z.eqb_neq _ 1))|].
  destruct (load_entries crlf es ∅ node0 Hw ND) as (node' & E); [done|].
  assert (NDk : NoDup (prod_map bt_key id <$> es).*1).
  { rewrite <-list_fmap_compose. change (fst ∘ prod_map bt_key id) with (bt_key ∘ @fst (list Z) NodeInfo).
    rewrite list_fmap_compose. apply NoDup_fmap_2_strong; [|done]. rewrite Forall_forall in Hw.
    intros x y (e & -> & He)%list_elem_of_fmap (e' & -> & He')%list_elem_of_fmap. apply bt_key_inj; by apply we_root, Hw. }
  eexists (mkBTree (m_nBTRecords t) 1 _), node'. unfold InitBTreeIt. rewrite (proj2 (Z.eqb_neq _ 1)), tree_lines, Hm, E, bind_ok by done.
  rewrite (right_id_L ∅ (∪)), Hn. split.
  - rewrite (map_size_list_to_map _ NDk), length_fmap, Z.eqb_refl. done.
  - intros seq node Hs. unfold GetNode. cbn [m_nInitState m_BTHashTable Z.eqb].
    destruct (list_to_map es !! seq) as [n|] eqn:El.
    + apply elem_of_list_to_map in El; [|done]. rewrite (elem_of_list_to_map_1 _ (bt_key seq) n); [done|done|].
      by apply (list_elem_of_fmap_2 (prod_map bt_key id)) in El.
    + rewrite not_elem_of_list_to_map_1; [done|]. apply not_elem_of_list_to_map in El. intros Hk. apply El.
      apply list_elem_of_fmap in Hk as (x & Ek & Hk). apply list_elem_of_fmap in Hk as ((k & n) & -> & Hk). cbn in Ek.
      rewrite Forall_forall in Hw. apply bt_key_inj in Ek; [|done|by apply (we_root _ (Hw _ Hk))].
      subst. by apply (list_elem_of_fmap_2 fst) in Hk.
Qed.

(** ** A concrete tree *)
Definition demo_tree : list (list Z * NodeInfo) :=
  [([], mkNode 0 0 1 [bytes "c"; bytes "f"; bytes "r200"]);
   (bytes "c", mkNode 1 0 0 [bytes "c"; bytes "r300"; bytes "r20000"]);
   (bytes "cc", mkNode 2 1 0 [bytes "c"; bytes "r100"])].

Lemma demo_tree_wf : Forall wf_entry demo_tree.
Proof.
  assert (H : ∀ k i st p l, plain k → k ≠ bytes "root" → 0 ≤ i < 100 → 0 ≤ st < 4 → 0 ≤ p < 2 → (length l < 10)%nat →
    Forall plain l → last l ≠ Some [] → wf_entry (k, mkNode i st p l)).
  { intros. split; cbn; try done. split; cbn; unfold INT32_MAX; (done || lia). }
  repeat (apply Forall_cons; split; [apply H; [compute_done|discriminate|lia|lia|lia|cbn; lia|compute_done|discriminate]|]).
  apply Forall_nil_2.
Qed.

Lemma tree_file_loads_witness : ∃ t' n',
  InitBTreeIt (Some (tree_file true demo_tree)) (mkNode (-1) 0 0 []) (mkBTree 3 0 ∅) = Ok (t', n') ∧
  GetNode t' (bytes "c") n' = (0, mkNode 1 0 0 [bytes "c"; bytes "r300"; bytes "r20000"]) ∧
  GetNode t' (bytes "cr400") n' = (-106, n').
Proof.
  destruct (tree_file_loads true demo_tree (mkBTree 3 0 ∅) (mkNode (-1) 0 0 [])) as (_ & t' & n' & E & H);
    [exact demo_tree_wf|compute_done|done|done|done|].
  exists t', n'. split; [exact E|]. rewrite !H by done. split; reflexivity.
Defined.

(** A line with a negative number of actions makes the code take a range of iterators
    that runs backwards; an empty line ends the server. *)
Fact negative_count : ParseStrToNode (bytes "7,0,-1,1,c") (mkNode (-1) 0 0 []) = Err OutOfBounds.
Proof. vm_compute. reflexivity. Qed.
Fact empty_line_exits :
  InitBTreeIt (Some (tree_file false demo_tree ++ [10])) (mkNode (-1) 0 0 []) (mkBTree 3 0 ∅) = Err Exited.
Proof. vm_compute. reflexivity. Qed.
