(* ===== verification/MatchConv.v ===== *)
(** * From a match state to a query ([matchstate_convertor.cpp])

    The game server asks for an action with the cards, the round and the text of the
    actions so far; the text is also the key of the betting tree.  It is shown that the
    text determines the betting of a hand. *)

From stdpp Require Import base list list_numbers numbers option strings sets.
From S2P Require Import Prelude GameDef Betting BettingSpec BettingInv BettingStep BettingKeep BettingInit BettingThm BettingCards Deal StateEq Text BotGame Robot.
Open Scope Z_scope.

Definition GetSingleActionStr (a : Action) : list Z :=
  match type a with
  | a_fold => bytes "f"
  | a_call => bytes "c"
  | a_raise => bytes "r" ++ dec_signed (size a)
  | a_invalid => []
  end.

(** The text and [bet_to]. *)
Definition GetActionSeq (ms : MatchState) : res (list Z * Z) :=
  let s := state ms in
  for_ 0 (round s + 1) ([], 2) (λ st '(action_seq, bet_to),
    num_actions ← rd (numActions s) st;
    let action_seq := if (0 <? num_actions) && (0 <? st) then action_seq ++ [32] else action_seq in
    for_ 0 num_actions (action_seq, bet_to) (λ action_idx '(action_seq, bet_to),
      action ← rd2 (action s) st action_idx;
      let action_seq := action_seq ++ GetSingleActionStr action in
      Ok (action_seq,
        if decide (type action = a_raise) then (if bet_to <? size action then size action else bet_to) else bet_to))).

(** [hcp_cards] and [board_cards] as they are afterwards. *)
Definition GetCards (ms : MatchState) (hcp_cards board_cards : list Z) : res (list Z * list Z) :=
  let pos := viewingPlayer ms in
  hcp_cards ← for_ 0 NUM_HCP hcp_cards (λ i hcp_cards, c ← rd2 (holeCards (state ms)) pos i; wr hcp_cards i c);
  street_board_cnt ← rd STREET_BOARD_CNT (round (state ms));
  board_cards ← for_ 0 street_board_cnt board_cards (λ i board_cards, c ← rd (boardCards (state ms)) i; wr board_cards i c);
  Ok (hcp_cards, board_cards).

Definition GetActionInfo (ms : MatchState) (info : ActionInfo) : res (Z * ActionInfo) :=
  let st := round (state ms) in
  '(action_seq, bet_to) ← GetActionSeq ms;
  '(hcp, board) ← GetCards ms (hcp_cards info) (board_cards info);
  Ok (0, mkInfo board hcp st action_seq bet_to (num_street_bet info)).

(** ** The text and the bet *)
Definition actsText (l : list Action) : list Z := concat (GetSingleActionStr <$> l).
Definition roundText (s : State) (r : Z) : list Z :=
  (if (0 <? at_ (numActions s) r) && (0 <? r) then [32] else []) ++ actsText (roundActions s r).
Definition seqText (s : State) : list Z := concat (roundText s <$> seqZ 0 (round s + 1)).
Definition raiseTo (b : Z) (a : Action) : Z :=
  if decide (type a = a_raise) then (if b <? size a then size a else b) else b.

Lemma acts_loop (get : Z → res Action) (val : Z → Action) l t b :
  (∀ i, i ∈ l → get i = Ok (val i)) →
  foldM (λ i '(t, b), a ← get i; Ok (t ++ GetSingleActionStr a, raiseTo b a)) l (t, b)
  = Ok (t ++ actsText (val <$> l), fold_left raiseTo (val <$> l) b).
Proof.
  revert t b. induction l as [|i l IH]; intros t b H; cbn; [by rewrite app_nil_r|].
  rewrite H by set_solver. cbn. rewrite IH by set_solver. by rewrite <-app_assoc.
Qed.

Lemma rounds_loop (body : Z → list Z * Z → res (list Z * Z)) (txt : Z → list Z) (acts : Z → list Action) l t b :
  (∀ r t b, r ∈ l → body r (t, b) = Ok (t ++ txt r, fold_left raiseTo (acts r) b)) →
  foldM body l (t, b) = Ok (t ++ concat (txt <$> l), fold_left raiseTo (concat (acts <$> l)) b).
Proof.
  revert t b. induction l as [|r l IH]; intros t b H; cbn; [by rewrite app_nil_r|].
  rewrite H by set_solver. cbn. rewrite IH by set_solver. by rewrite <-app_assoc, fold_left_app.
Qed.

Lemma GetActionSeq_ok s v : state_shape s → 0 ≤ round s < 4 → (∀ r, 0 ≤ r ≤ round s → 0 ≤ at_ (numActions s) r ≤ 64) →
  GetActionSeq (mkMatchState s v) = Ok (seqText s, fold_left raiseTo (concat (history s)) 2).
Proof.
  intros Sh Hr Hn. unfold GetActionSeq, for_ at 1. cbn [state]. rewrite Z.sub_0_r.
  rewrite (rounds_loop _ (roundText s) (roundActions s)); [done|].
  intros r t b Hl%elem_of_seqZ. specialize (Hn r ltac:(lia)).
  rewrite rd_ok, bind_ok by (rewrite (ss_numActions _ Sh); lia). unfold for_. rewrite Z.sub_0_r.
  etrans; [apply (acts_loop (rd2 (action s) r) (at2 (action s) r))|].
  - intros i Hi%elem_of_seqZ. apply rd2_ok; rewrite ?(ss_action _ Sh); try lia.
    unfold at_. rewrite (ss_action2 _ Sh) by lia. lia.
  - unfold roundText, roundActions. destruct (_ && _); cbn [app]; rewrite <-?app_assoc; done.
Qed.

(** The cards that are in play. *)
Lemma GetActionInfo_ok s v info : state_shape s → 0 ≤ round s < 4 → (∀ r, 0 ≤ r ≤ round s → 0 ≤ at_ (numActions s) r ≤ 64) →
  0 ≤ v < 10 → length (hcp_cards info) = 2%nat → length (board_cards info) = 5%nat →
  ∃ board hcp, GetActionInfo (mkMatchState s v) info =
    Ok (0, mkInfo board hcp (round s) (seqText s) (fold_left raiseTo (concat (history s)) 2) (num_street_bet info)) ∧
    hcp = take 2 (at_ (holeCards s) v) ∧
    let n := Z.to_nat (at_ STREET_BOARD_CNT (round s)) in
    board = take n (boardCards s) ++ drop n (board_cards info).
Proof.
  intros Sh Hr Hn Hv Lh Lb. unfold GetActionInfo. rewrite GetActionSeq_ok, bind_ok by done.
  unfold GetCards. cbn [state viewingPlayer].
  pose proof (ss_hole _ Sh) as L1. pose proof (ss_hole2 _ Sh (Z.to_nat v) ltac:(lia)) as L2. fold (at_ (holeCards s) v) in L2.
  pose proof (ss_board _ Sh) as L3.
  destruct (hcp_cards info) as [|h0 [|h1 [|]]]; try discriminate Lh.
  destruct (at_ (holeCards s) v) as [|c0 [|c1 [|c2 [|]]]] eqn:Ec; try discriminate L2.
  assert (R : ∀ i, 0 ≤ i < 3 → rd2 (holeCards s) v i = Ok (at_ [c0; c1; c2] i)).
  { intros i Hi. rewrite rd2_ok by (rewrite ?Ec; cbn; lia). unfold at2. by rewrite Ec. }
  change (for_ 0 NUM_HCP ?s ?b) with (foldM b [0; 1] s). cbn [foldM]. rewrite !R by lia. cbn.
  exists (take (Z.to_nat (at_ STREET_BOARD_CNT (round s))) (boardCards s) ++ drop (Z.to_nat (at_ STREET_BOARD_CNT (round s))) (board_cards info)).
  exists [c0; c1]. split; [|done].
  destruct (board_cards info) as [|b0 [|b1 [|b2 [|b3 [|b4 [|]]]]]]; try discriminate Lb.
  destruct (boardCards s) as [|d0 [|d1 [|d2 [|d3 [|d4 [|d5 [|d6 [|]]]]]]]]; try discriminate L3.
  assert (round s = 0 ∨ round s = 1 ∨ round s = 2 ∨ round s = 3) as [-> | [-> | [-> | ->]]] by lia; reflexivity.
Qed.

(** ** Reading the text back *)

(** What the text keeps of an action: everything but the amount of a call or fold. *)
Definition strip (a : Action) : Action := mkAction (type a) (if decide (type a = a_raise) then size a else 0).
Definition printable (a : Action) : Prop :=
  type a ≠ a_invalid ∧ (type a = a_raise → 0 ≤ size a ≤ INT32_MAX).

Lemma single_raise a : printable a → type a = a_raise → GetSingleActionStr a = 114 :: dec (size a).
Proof.
  intros [_ H] Ht. specialize (H Ht). unfold GetSingleActionStr, dec_signed. rewrite Ht, (proj2 (Z.ltb_ge _ 0)) by lia. done.
Qed.

Lemma actsText_head l : Forall printable l → actsText l = [] ∨ ∃ ch t, actsText l = ch :: t ∧ isdigit ch = false.
Proof.
  destruct 1 as [|a l Ha _]; [by left|]. right. unfold actsText. cbn [fmap list_fmap concat].
  destruct Ha as [Hi Hr]. unfold GetSingleActionStr. destruct (type a); [by eexists _, _..|by specialize (Hi eq_refl)].
Qed.

(** A number and what follows it, when that is not a digit. *)
Lemma dec_split n n' t t' : 0 ≤ n ≤ INT32_MAX → 0 ≤ n' ≤ INT32_MAX →
  (t = [] ∨ ∃ ch r, t = ch :: r ∧ isdigit ch = false) → (t' = [] ∨ ∃ ch r, t' = ch :: r ∧ isdigit ch = false) →
  dec n ++ t = dec n' ++ t' → n = n' ∧ t = t'.
Proof.
  intros Hn Hn' Ht Ht' E.
  assert (S : ∀ m u, 0 ≤ m ≤ INT32_MAX → (u = [] ∨ ∃ ch r, u = ch :: r ∧ isdigit ch = false) →
    ∃ k, scan_i32 ((dec m ++ u) ++ [0]) = Ok (Some (m, k))).
  { intros m u Hm [-> | (ch & r & -> & Hch)]; rewrite <-?app_assoc; cbn [app]; eexists; by apply scan_i32_dec. }
  destruct (S n t Hn Ht) as (k & S1). destruct (S n' t' Hn' Ht') as (k' & S2).
  rewrite E, S2 in S1. injection S1 as <- _. split; [done|]. by apply app_inv_head in E.
Qed.

Lemma actsText_inj l l' : Forall printable l → Forall printable l' → actsText l = actsText l' → strip <$> l = strip <$> l'.
Proof.
  intros Hl. revert l'. induction Hl as [|a l Ha Hl IH]; intros l' Hl' E.
  - destruct Hl' as [|b l' Hb Hl']; [done|]. unfold actsText in E. cbn in E. unfold GetSingleActionStr in E.
    destruct Hb as [Hi _]. by destruct (type b).
  - destruct Hl' as [|b l' Hb Hl'].
    { unfold actsText in E. cbn in E. unfold GetSingleActionStr in E. destruct Ha as [Hi _]. by destruct (type a). }
    change (GetSingleActionStr a ++ actsText l = GetSingleActionStr b ++ actsText l') in E. cbn [fmap list_fmap].
    destruct (decide (type a = a_raise)) as [Ra|Ra], (decide (type b = a_raise)) as [Rb|Rb].
    + rewrite !single_raise in E by done. cbn [app] in E. apply (f_equal tail) in E. cbn [tail] in E.
      apply dec_split in E as [E1 E2]; [|by apply Ha|by apply Hb|by apply actsText_head..].
      f_equal; [|by apply IH]. unfold strip. by rewrite Ra, Rb, E1.
    + exfalso. rewrite (single_raise a) in E by done. destruct Hb as [Hi _]. unfold GetSingleActionStr in E. destruct (type b); done.
    + exfalso. rewrite (single_raise b) in E by done. destruct Ha as [Hi _]. unfold GetSingleActionStr in E. destruct (type a); done.
    + unfold strip at 1 3. rewrite !decide_False by done. destruct Ha as [Ha _], Hb as [Hb _].
      unfold GetSingleActionStr in E. destruct (type a), (type b); try done; (f_equal; apply IH; [done|]; by injection E).
Qed.

(** Spaces only separate the rounds. *)
Lemma single_nospace a : printable a → List.filter (λ ch, negb (ch =? 32)) (GetSingleActionStr a) = GetSingleActionStr a.
Proof.
  intros Ha. destruct (decide (type a = a_raise)) as [Ht|Ht].
  - rewrite single_raise by done. destruct Ha as [_ Ha]. destruct (dec_spec (size a)) as (D & _).
    { specialize (Ha Ht). unfold INT32_MAX in Ha. lia. }
    cbn [List.filter Z.eqb Pos.eqb negb]. f_equal. clear Ha. induction D as [|x t Hx _ IH]; [done|].
    cbn [List.filter]. unfold isdigit in Hx. rewrite (proj2 (Z.eqb_neq x 32)) by lia. cbn [negb]. by rewrite IH.
  - unfold GetSingleActionStr. by destruct (type a).
Qed.

Lemma seqText_acts s : Forall printable (concat (history s)) →
  List.filter (λ ch, negb (ch =? 32)) (seqText s) = actsText (concat (history s)).
Proof.
  unfold seqText, history, actsText. induction (seqZ 0 (round s + 1)) as [|r l IH]; [done|]. cbn [fmap list_fmap concat].
  intros [Hr Hl]%Forall_app. rewrite List.filter_app, fmap_app, concat_app, IH by done. f_equal.
  unfold roundText. rewrite List.filter_app. destruct (_ && _); cbn [List.filter Z.eqb Pos.eqb negb app]; clear IH Hl;
    (unfold actsText; induction Hr as [|a t Ha _ IHt]; [done|]; cbn [fmap list_fmap concat];
     by rewrite List.filter_app, single_nospace, IHt).
Qed.

(** ** The text determines the betting *)
Lemma accepted_size g s t a a' : isValidAction g s t a = Ok (1, a') → type a' ≠ a_raise → size a' = 0.
Proof.
  unfold isValidAction. intros E Ht. destruct (_ || _); [discriminate E|]. inv_ok.
  destruct (type a) eqn:Ea; inv_ok; try (injection E as <-; done); repeat case_match; inv_ok; simplify_eq; cbn in *; congruence.
Qed.

Section Betting.
Context (g : Game) (Wf : wf_game g) (NL : bettingType g = noLimitBetting).

Lemma step_text s s' : inv g s → step g s s' →
  ∃ p a m f, currentPlayer g s = Ok p ∧ mid_inv g (applied g s a p) m f ∧
    s' = fst (ended g (applied g s a p) m) ∧ printable a ∧ strip a = a ∧
    (type a = a_raise → maxSpent s < size a) ∧ allActions g s' = allActions g s ++ [recorded g s a p].
Proof.
  intros I St. pose proof (step_open _ _ _ St) as Open. destruct St as [s t a a' s' e Ev Ed].
  destruct (current_exists g s Wf I Open) as (p & Hfirst & Hcur & Hp & _).
  destruct (isValidAction_ok g s Wf I Open p Hcur Hp t a) as (ok & a'' & E & _ & _ & Va).
  rewrite Ev in E. injection E as <- <-. specialize (Va eq_refl).
  destruct (doAction_ok g s p a' Wf I Open Hcur Va) as (m & f & M & Ed').
  rewrite Ed in Ed'. injection Ed' as Ed'.
  destruct (inv_open _ _ I Open) as (_ & m0 & f0 & BW & Hlt).
  assert (Room : na s < 64) by (by eapply turn_room).
  assert (R : type a' = a_raise → maxSpent s < size a' ≤ at_ (stack g) p).
  { intros Hr. by apply (raise_facts g s p (inv_chips _ _ I) a' Va Hr). }
  pose proof (maxSpent_nonneg g s (inv_chips _ _ I)). pose proof (wg_stack _ Wf p Hp).
  exists p, a', m, f. split_and!; [done|done|by rewrite <-Ed'| | | |].
  - split; [unfold valid_act in Va; by destruct (type a')|]. intros Hr. specialize (R Hr). lia.
  - unfold strip. case_decide; [by destruct a'|]. pose proof (accepted_size _ _ _ _ _ Ev ltac:(done)).
    destruct a' as [ty sz]. cbn in *. congruence.
  - intros Hr. apply R, Hr.
  - replace s' with (fst (ended g (applied g s a' p) m)) by (by rewrite <-Ed').
    rewrite allActions_ended. by apply allActions_applied.
Qed.

Lemma strip_recorded s a p : strip (recorded g s a p) = strip a.
Proof. unfold strip, recorded. cbn. by destruct (type a). Qed.

(** Everything written down in a hand can be printed, and the largest raise is the bet. *)
Lemma steps_text h s0 k s : starts g h s0 → steps g k s0 s →
  Forall printable (allActions g s) ∧ fold_left raiseTo (allActions g s) (maxSpent s0) = maxSpent s.
Proof.
  intros Hs St. induction St as [s|k s s' s'' St IH Hst].
  - pose proof (steps_length g h s 0 s Wf Hs (steps_zero g s)) as L.
    destruct (allActions g s); [|done]. by split.
  - destruct (IH Hs) as [IHp IHb]. pose proof (steps_inv g h s k s' Wf Hs St) as I.
    destruct (step_text s' s'' I Hst) as (p & a & m & f & _ & _ & -> & Pa & Sa & Ra & ->). split.
    + apply Forall_app. split; [done|]. apply Forall_singleton. destruct Pa as [P1 P2].
      split; cbn [recorded type size]; [done|]. intros Hr. rewrite Hr. by apply P2.
    + rewrite fold_left_app, IHb. cbn [fold_left]. transitivity (newMax g s' a p).
      * unfold raiseTo, recorded, newMax. cbn [type size]. rewrite NL. destruct (type a) eqn:Et; try done.
        rewrite decide_True by done. specialize (Ra eq_refl). by rewrite (proj2 (Z.ltb_lt _ _)).
      * unfold ended. by repeat case_match.
Qed.

Lemma stripped_determines h s k s1 s2 : starts g h s → steps g k s s1 → steps g k s s2 →
  strip <$> allActions g s1 = strip <$> allActions g s2 → s1 = s2.
Proof.
  intros Hs St1. revert s2. induction St1 as [s|k s s1' s1 St1 IH H1]; intros s2 St2 E;
    inversion St2 as [|? ? s2' ? St2' H2]; subst; [done|].
  destruct (step_text s1' s1 (steps_inv g h s k s1' Wf Hs St1) H1) as (p & a & m & f & Hp & M & -> & _ & Sa & _ & E1).
  destruct (step_text s2' s2 (steps_inv g h s k s2' Wf Hs St2') H2) as (p' & b & m' & f' & Hp' & M' & -> & _ & Sb & _ & E2).
  rewrite E1, E2, !fmap_app in E. apply app_inj_tail in E as [E Ea].
  assert (s1' = s2') as <- by (by apply IH). rewrite !strip_recorded, Sa, Sb in Ea. subst b.
  assert (p' = p) as -> by congruence.
  pose proof (end_ok g _ Wf m f M) as X. pose proof (end_ok g _ Wf m' f' M') as Y. congruence.
Qed.
End Betting.

Lemma raiseTo_max l a b : fold_left raiseTo l (Z.max a b) = Z.max a (fold_left raiseTo l b).
Proof.
  revert b. induction l as [|x l IH]; intros b; cbn [fold_left]; [done|]. rewrite <-IH. f_equal.
  unfold raiseTo. case_decide; [|done]. destruct (Z.ltb_spec (Z.max a b) (size x)), (Z.ltb_spec b (size x)); lia.
Qed.


(** Heads-up no-limit with blinds of 1 and 2, seats as in the server's game files. *)
Definition nolimit2p : Game :=
  mkGame (replicate 10 200) [2; 1; 0; 0; 0; 0; 0; 0; 0; 0] [0; 0; 0; 0]
    noLimitBetting 2 4 [1; 0; 0; 0] [255; 255; 255; 255] 4 13 2 [0; 3; 1; 1].
Lemma nolimit2p_wf : wf_game nolimit2p.
Proof. apply wf_gameb_spec. vm_compute. reflexivity. Qed.
Definition no_cards : list (list Z) := replicate 10 [0; 1; 0].
Lemma no_cards_arrays : card_arrays no_cards (replicate 7 3).
Proof. split; [done| |done]. intros p Hp. unfold no_cards. by rewrite lookup_total_replicate_2. Qed.

Lemma played_nolimit2p acts s : play nolimit2p acts (started nolimit2p) = Ok s → steps nolimit2p (length acts + 0) (started nolimit2p) s.
Proof. apply play_steps. constructor. Qed.


(** [bet_to] starts at 2 whatever the blinds are: with blinds of 50 and 100 the query for
    the first decision of a hand names a bet of 2, and the fractions of the pot that the
    action filter computes from it are off until somebody raises. *)
Fact bet_to_ignores_blinds :
  maxSpent (started nolimit3p) = 100 ∧
  ∃ i, GetActionInfo (mkMatchState (started nolimit3p) 0) ActionInfo_new = Ok (0, i) ∧ bet_to i = 2.
Proof. split; [reflexivity|]. eexists. split; vm_compute; reflexivity. Qed.
