(* ===== verification/InfoText.v ===== *)
(** * Queries as text ([Def.h], [cfr_svr_client.cpp], [shfun.cpp])

    The game server sends the query for an action to the strategy server as text and gets
    it back with the answer.  [ToString] writes an [ActionInfo] into a buffer of 128
    bytes, [FromString] reads it; [GetValueBykey] finds a field of a message.  A C string
    is the list of its bytes before the terminator. *)

From stdpp Require Import base list list_numbers numbers option strings sets.
From S2P Require Import Prelude GameDef Text BotGame Robot BettingTree.
Open Scope Z_scope.

(** ** [ActionInfo] *)

(** [%.02d]: at least two digits. *)
Definition dec2 (z : Z) : list Z :=
  let d := dec (Z.abs z) in
  (if z <? 0 then [45] else []) ++ (if (length d <? 2)%nat then 48 :: d else d).

Definition info_head (i : ActionInfo) : list Z :=
  bytes "bc:" ++ dec2 (at_ (board_cards i) 0) ++ [44] ++ dec2 (at_ (board_cards i) 1) ++ [44] ++ dec2 (at_ (board_cards i) 2)
    ++ [44] ++ dec2 (at_ (board_cards i) 3) ++ [44] ++ dec2 (at_ (board_cards i) 4) ++ bytes "  " ++
  bytes "hc:" ++ dec2 (at_ (hcp_cards i) 0) ++ [44] ++ dec2 (at_ (hcp_cards i) 1) ++ bytes ", " ++
  bytes "st:" ++ dec_signed (info_st i) ++ bytes ", " ++
  bytes "bet_to:" ++ dec_signed (bet_to i) ++ bytes ", " ++
  bytes "num_bet:" ++ dec_signed (num_street_bet i) ++ bytes ", " ++
  bytes "seq:".

(** The bytes before the terminator. *)
Fixpoint cstr (l : list Z) : list Z :=
  match l with [] => [] | x :: l => if x =? 0 then [] else x :: cstr l end.

Definition ToString (i : ActionInfo) : res (list Z) :=
  '(_, szBuf) ← snprintf (replicate 128 0) 0 127 (info_head i ++ cstr (action_seq i));
  Ok (cstr szBuf).

Definition atoi (p : list Z) : res Z :=
  o ← scan_i32 (p ++ [0]); Ok (match o with Some (v, _) => v | None => 0 end).

(** [strstr( p, lit )]: the rest of the text from the first [lit] on. *)
Definition strstr (p lit : list Z) : option (list Z) := (λ d, drop d p) <$> find lit p.

Definition read_card (i : Z) (st : list Z * list Z) : res (list Z * list Z) :=
  let '(p, cards) := st in c ← atoi p; cards ← wr cards i c; Ok (drop 3 p, cards).
Definition read_cards (n : Z) (p cards : list Z) : res (list Z * list Z) := for_ 0 n (p, cards) read_card.

(** The fields are written one by one: an error leaves those read before it. *)
Definition FromString (i : ActionInfo) (szStr : list Z) : res (Z * ActionInfo) :=
  match strstr szStr (bytes "bc:") with
  | None => Ok (-1, i)
  | Some p =>
  if (length p <? 20)%nat then Ok (-1, i) else
  '(p, board) ← read_cards MAX_BOADRD_NUM (drop 3 p) (board_cards i);
  let i := mkInfo board (hcp_cards i) (info_st i) (action_seq i) (bet_to i) (num_street_bet i) in
  match strstr p (bytes "hc:") with
  | None => Ok (-2, i)
  | Some p =>
  if (length p <? 10)%nat then Ok (-2, i) else
  '(p, hcp) ← read_cards NUM_HCP (drop 3 p) (hcp_cards i);
  let i := mkInfo (board_cards i) hcp (info_st i) (action_seq i) (bet_to i) (num_street_bet i) in
  match strstr p (bytes "st:") with
  | None => Ok (-3, i)
  | Some p =>
  let p := drop 3 p in
  v ← atoi p;
  let i := mkInfo (board_cards i) (hcp_cards i) v (action_seq i) (bet_to i) (num_street_bet i) in
  match strstr p (bytes "bet_to:") with
  | None => Ok (-4, i)
  | Some p =>
  let p := drop 7 p in
  v ← atoi p;
  let i := mkInfo (board_cards i) (hcp_cards i) (info_st i) (action_seq i) v (num_street_bet i) in
  match strstr p (bytes "num_bet:") with
  | None => Ok (-5, i)
  | Some p =>
  let p := drop 8 p in
  v ← atoi p;
  let i := mkInfo (board_cards i) (hcp_cards i) (info_st i) (action_seq i) (bet_to i) v in
  match strstr p (bytes "seq:") with
  | None => Ok (-6, i)
  | Some p =>
  let p := drop 4 p in
  Ok (0, mkInfo (board_cards i) (hcp_cards i) (info_st i) p (bet_to i) (num_street_bet i))
  end end end end end end.

(** ** [shstd::fun::GetValueBykey]

    A key at the very end of the buffer makes the code start behind the terminator. *)
Definition GetValueBykey (szBuf key delimiter : list Z) : res (list Z) :=
  match find key szBuf with
  | None => Ok []
  | Some k =>
      let o := (k + length key + 1)%nat in
      if (length szBuf <? o)%nat then Err OutOfBounds else
      let start := drop o szBuf in
      match find delimiter start with
      | Some e => Ok (take e start)
      | None => match find [13; 10] start with Some e => Ok (take e start) | None => Ok start end
      end
  end.

(** ** [CfrSvrClient] *)
Definition ConvertKeyToRequestStr (key : CFRKey) (cfrModel : list Z) : res (Z * list Z) :=
  '(_, buf) ← snprintf (replicate 1024 0) 0 1024
    (bytes "{" ++ [34] ++ bytes "mode" ++ [34] ++ bytes ":1, " ++ [34] ++ bytes "nt" ++ [34] ++ bytes ":" ++ dec_signed (key_node_id key)
     ++ bytes ", " ++ [34] ++ bytes "st" ++ [34] ++ bytes ":" ++ dec_signed (key_st key)
     ++ bytes ", " ++ [34] ++ bytes "pa" ++ [34] ++ bytes ":" ++ dec_signed (key_pa key)
     ++ bytes ", " ++ [34] ++ bytes "offset" ++ [34] ++ bytes ":" ++ dec_signed (key_offset key)
     ++ bytes ", " ++ [34] ++ bytes "num_succ" ++ [34] ++ bytes ":" ++ dec_signed (key_num_succ key)
     ++ bytes "," ++ [34] ++ bytes "version" ++ [34] ++ bytes ":" ++ cstr cfrModel ++ bytes "}");
  Ok (0, cstr buf).

(** jsoncpp is a parameter: [json] parses a text into the members [res] and [vals] as
    strings. *)
Definition ConvertResponseStrToVals (json : list Z → option (list Z * list Z)) (response_str : list Z) (num_succ : Z)
  (vals : list Z) : res (Z * list Z) :=
  match json (cstr response_str) with
  | None => Ok (-4, vals)
  | Some (resp_stat, val_str) =>
      if negb (bool_decide (resp_stat = bytes "OK")) then Ok (-1, vals) else
      split_str ← SplitString val_str [44];
      let cnt := Z.of_nat (length split_str) in
      if negb (cnt =? num_succ) then Ok (-2, vals) else
      let vals := take (Z.to_nat num_succ) vals ++ replicate (Z.to_nat num_succ - length vals) 0 in
      o ← forR 0 cnt vals (λ i vals,
        t ← rd split_str i;
        v ← scan_unsigned 4294967295 (t ++ [0]);
        match v with
        | None => Ok (inr vals)
        | Some (temp_val, _) => vals ← wr vals i temp_val; Ok (inl vals)
        end);
      Ok (match o with inr vals => (-3, vals) | inl vals => (0, vals) end)
  end.

(** ** Reading numbers back *)
Definition stops (t : list Z) : Prop := match t with [] => True | ch :: _ => isdigit ch = false end.

Lemma stops_end t : stops t → ∃ ch r, t ++ [0] = ch :: r ∧ isdigit ch = false.
Proof. destruct t as [|ch t]; intros H; [by exists 0, []|]. by exists ch, (t ++ [0]). Qed.

Lemma atoi_digits t rest n : digits t → t ≠ [] → dval 0 t = n → 0 ≤ n ≤ INT32_MAX → stops rest → atoi (t ++ rest) = Ok n.
Proof.
  intros D N V Hn Hr. destruct (stops_end rest Hr) as (ch & r & E & Hch). unfold atoi, scan_i32, scan_number.
  rewrite <-app_assoc, E. pose proof (scan_digits_app t r 0 0 ch D Hch) as S. rewrite V in S.
  destruct t as [|x t]; [done|]. inversion D as [|? ? Hx Ht]; subst.
  assert (isspace x = false ∧ (x =? 43) = false ∧ (x =? 45) = false) as (H1 & H2 & H3) by (unfold isdigit, isspace in *; lia).
  cbn [app] in *. cbn [spaces]. rewrite H1, bind_ok, from_0, rdp_hd, bind_ok. cbv zeta. rewrite H2, H3. cbn [orb].
  rewrite S, !bind_ok. rewrite (proj2 (Z.eqb_neq _ 0)) by (cbn [length]; lia). cbn beta iota.
  rewrite i32_ok by (unfold INT32_MIN; lia). done.
Qed.

Lemma atoi_neg n rest : 0 ≤ n ≤ 2147483648 → stops rest → atoi (45 :: dec n ++ rest) = Ok (- n).
Proof.
  intros Hn Hr. destruct (stops_end rest Hr) as (ch & r & E & Hch). unfold atoi, scan_i32, scan_number.
  destruct (dec_spec n ltac:(lia)) as (D & V & N & _). cbn [app]. rewrite <-app_assoc, E.
  pose proof (scan_digits_app (dec n) r 0 0 ch D Hch) as S. rewrite V in S.
  cbn [spaces isspace Z.eqb Pos.eqb orb andb Z.leb Z.compare Pos.compare Pos.compare_cont]. rewrite bind_ok, from_0, rdp_hd, bind_ok.
  cbv zeta. cbn [Z.eqb Pos.eqb orb]. change (from (45 :: ?l) 1) with l. rewrite S, !bind_ok.
  rewrite (proj2 (Z.eqb_neq _ 0)) by (destruct (dec n); [done|cbn [length]; lia]). cbn beta iota.
  rewrite i32_ok by (unfold INT32_MIN, INT32_MAX; lia). done.
Qed.

Lemma atoi_signed z rest : INT32_MIN ≤ z ≤ INT32_MAX → stops rest → atoi (dec_signed z ++ rest) = Ok z.
Proof.
  unfold INT32_MIN, INT32_MAX, dec_signed. intros Hz Hr. destruct (Z.ltb_spec z 0).
  - cbn [app]. rewrite atoi_neg by (done || lia). f_equal. lia.
  - destruct (dec_spec z ltac:(lia)) as (D & V & N & _). apply atoi_digits; unfold INT32_MAX; (done || lia).
Qed.

(** The digits of [%.02d] of a card. *)
Definition two (c : Z) : list Z := [48 + c / 10; 48 + c mod 10].
Lemma dec2_card c : 0 ≤ c < 100 → dec2 c = two c.
Proof.
  intros Hc. unfold dec2, two. rewrite Z.abs_eq by lia. rewrite (proj2 (Z.ltb_ge _ 0)) by lia. unfold dec. cbn [dec_fuel app].
  destruct (Z.ltb_spec c 10).
  - cbn [length Nat.ltb Nat.leb]. by rewrite Z.div_small, Z.mod_small by lia.
  - assert (1 ≤ c / 10 < 10) by (split; [apply Z.div_le_lower_bound|apply Z.div_lt_upper_bound]; lia).
    rewrite (proj2 (Z.ltb_lt _ 10)) by lia. done.
Qed.
Lemma atoi_two c rest : 0 ≤ c < 100 → stops rest → atoi (two c ++ rest) = Ok c.
Proof.
  intros Hc Hr. pose proof (Z.mod_pos_bound c 10 ltac:(lia)). pose proof (Z.div_mod c 10 ltac:(lia)).
  assert (0 ≤ c / 10 < 10) by (split; [apply Z.div_pos|apply Z.div_lt_upper_bound]; lia).
  apply atoi_digits; [|done|unfold dval, two; cbn; lia|unfold INT32_MAX; lia|done].
  unfold two, digits. repeat apply Forall_cons_2; [unfold isdigit; lia..|constructor].
Qed.

Lemma find_first c lit pre rest : c ∉ pre → find (c :: lit) (pre ++ (c :: lit) ++ rest) = Some (length pre).
Proof.
  induction pre as [|y pre IH]; intros H; cbn [app find].
  - rewrite bool_decide_true; [done|]. by exists rest.
  - rewrite bool_decide_false; [cbn [app] in IH; rewrite IH by set_solver; done|].
    intros [k E]. injection E as E _. apply H. rewrite E. apply list_elem_of_here.
Qed.
Lemma strstr_first c lit pre rest : c ∉ pre → strstr (pre ++ (c :: lit) ++ rest) (c :: lit) = Some ((c :: lit) ++ rest).
Proof. intros H. unfold strstr. rewrite find_first by done. cbn [fmap option_fmap option_map]. by rewrite drop_app_length. Qed.

(** ** Writing an [ActionInfo] *)
Definition nonzero (l : list Z) : Prop := (0 : Z) ∉ l.

Lemma cstr_nonzero l r : nonzero l → cstr (l ++ 0 :: r) = l.
Proof.
  induction l as [|x l IH]; intros H; [done|]. cbn. unfold nonzero in *.
  rewrite (proj2 (Z.eqb_neq x 0)) by set_solver. rewrite IH by set_solver. done.
Qed.
Lemma cstr_id l : nonzero l → cstr l = l.
Proof.
  induction l as [|x l IH]; intros H; [done|]. cbn. unfold nonzero in *.
  rewrite (proj2 (Z.eqb_neq x 0)) by set_solver. rewrite IH by set_solver. done.
Qed.

(** What [snprintf] leaves of a text in a buffer of its own. *)
Lemma snprintf_cstr n sz t : 0 < sz ≤ Z.of_nat n → sz < 18446744073709551616 → nonzero t →
  ∃ buf, snprintf (replicate n 0) 0 sz t = Ok (Z.of_nat (length t), buf) ∧ cstr buf = take (Z.to_nat (sz - 1)) t.
Proof.
  intros Hs Hb Ht. unfold snprintf, u64. rewrite Z.mod_small, (proj2 (Z.eqb_neq sz 0)) by lia.
  destruct (put_bytes_ok (replicate n 0) 0 (take (Z.to_nat (Z.min (sz - 1) (Z.of_nat (length t)))) t ++ [0])) as (buf & -> & W);
    [lia|rewrite length_app, length_take, length_replicate; cbn; lia|].
  exists buf. split; [done|]. destruct (writes_text _ _ _ _ W) as (rest & E & _). rewrite from_0 in E. rewrite E, <-app_assoc.
  cbn [app]. rewrite cstr_nonzero.
  - destruct (Z.le_ge_cases (sz - 1) (Z.of_nat (length t))); [by rewrite Z.min_l by lia|].
    rewrite Z.min_r, Nat2Z.id, !take_ge by lia. done.
  - unfold nonzero in *. intros H. apply Ht. by apply elem_of_take in H as (? & ? & _); eapply list_elem_of_lookup_2.
Qed.

Record wf_info (i : ActionInfo) : Prop := {
  wi_board : ∃ b0 b1 b2 b3 b4, board_cards i = [b0; b1; b2; b3; b4] ∧ Forall (λ c, 0 ≤ c < 100) (board_cards i);
  wi_hcp : ∃ h0 h1, hcp_cards i = [h0; h1] ∧ Forall (λ c, 0 ≤ c < 100) (hcp_cards i);
  wi_st : INT32_MIN ≤ info_st i ≤ INT32_MAX;
  wi_bet : INT32_MIN ≤ bet_to i ≤ INT32_MAX;
  wi_num : INT32_MIN ≤ num_street_bet i ≤ INT32_MAX;
  wi_seq : nonzero (action_seq i) }.

Definition numeric (t : list Z) : Prop := Forall (λ ch, 44 ≤ ch ≤ 57 ∨ ch = 32) t.
Lemma numeric_not c t : numeric t → 57 < c → c ∉ t.
Proof. unfold numeric. rewrite Forall_forall. intros H Hc E. specialize (H _ E). lia. Qed.
Lemma digits_numeric t : digits t → numeric t.
Proof. intros H. eapply Forall_impl; [exact H|]. unfold isdigit. cbn. intros. lia. Qed.
Lemma dec_signed_text z : INT32_MIN ≤ z ≤ INT32_MAX → numeric (dec_signed z) ∧ (length (dec_signed z) ≤ 11)%nat.
Proof.
  unfold INT32_MIN, INT32_MAX, dec_signed. intros Hz. destruct (Z.ltb_spec z 0).
  - destruct (dec_spec (- z) ltac:(lia)) as (D & _). pose proof (dec_u32_length (- z) ltac:(lia)).
    split; [apply Forall_cons; split; [lia|by apply digits_numeric]|cbn [length]; lia].
  - destruct (dec_spec z ltac:(lia)) as (D & _). pose proof (dec_u32_length z ltac:(lia)). split; [by apply digits_numeric|lia].
Qed.
Lemma two_numeric c : 0 ≤ c < 100 → numeric (two c).
Proof.
  intros. pose proof (Z.mod_pos_bound c 10 ltac:(lia)). assert (0 ≤ c / 10 < 10) by (split; [apply Z.div_pos|apply Z.div_lt_upper_bound]; lia).
  unfold two. repeat apply Forall_cons_2; [lia..|constructor].
Qed.

(** ** Reading it back *)
Lemma read_card_two c s r i cards cards' : 0 ≤ c < 100 → isdigit s = false → wr cards i c = Ok cards' →
  read_card i (two c ++ s :: r, cards) = Ok (r, cards').
Proof. intros Hc Hs E. unfold read_card. rewrite atoi_two, bind_ok, E by done. done. Qed.

Lemma read_five b0 b1 b2 b3 b4 s0 s1 s2 s3 s4 r cards :
  Forall (λ c, 0 ≤ c < 100) [b0; b1; b2; b3; b4] → Forall (λ s, isdigit s = false) [s0; s1; s2; s3; s4] → length cards = 5%nat →
  read_cards 5 (two b0 ++ s0 :: two b1 ++ s1 :: two b2 ++ s2 :: two b3 ++ s3 :: two b4 ++ s4 :: r) cards = Ok (r, [b0; b1; b2; b3; b4]).
Proof.
  intros Hb Hs L. destruct cards as [|x0 [|x1 [|x2 [|x3 [|x4 [|]]]]]]; try discriminate L.
  repeat match goal with H : Forall _ (_ :: _) |- _ => apply Forall_cons in H as [? H] end.
  unfold read_cards. change (for_ 0 5 ?s ?b) with (foldM b [0; 1; 2; 3; 4] s). cbn [foldM].
  do 5 (erewrite read_card_two by (done || reflexivity); rewrite bind_ok). done.
Qed.
Lemma read_pair h0 h1 s0 s1 r cards :
  Forall (λ c, 0 ≤ c < 100) [h0; h1] → Forall (λ s, isdigit s = false) [s0; s1] → length cards = 2%nat →
  read_cards 2 (two h0 ++ s0 :: two h1 ++ s1 :: r) cards = Ok (r, [h0; h1]).
Proof.
  intros Hb Hs L. destruct cards as [|x0 [|x1 [|]]]; try discriminate L.
  repeat match goal with H : Forall _ (_ :: _) |- _ => apply Forall_cons in H as [? H] end.
  unfold read_cards. change (for_ 0 2 ?s ?b) with (foldM b [0; 1] s). cbn [foldM].
  do 2 (erewrite read_card_two by (done || reflexivity); rewrite bind_ok). done.
Qed.

Definition with_seq (i : ActionInfo) (t : list Z) : ActionInfo :=
  mkInfo (board_cards i) (hcp_cards i) (info_st i) t (bet_to i) (num_street_bet i).

(** The text after the cards, from the round on. *)
Definition info_tail (i : ActionInfo) (t : list Z) : list Z :=
  bytes "st:" ++ dec_signed (info_st i) ++ bytes ", " ++ bytes "bet_to:" ++ dec_signed (bet_to i) ++ bytes ", " ++
  bytes "num_bet:" ++ dec_signed (num_street_bet i) ++ bytes ", " ++ bytes "seq:" ++ t.

Lemma info_head_text i t b0 b1 b2 b3 b4 h0 h1 :
  board_cards i = [b0; b1; b2; b3; b4] → hcp_cards i = [h0; h1] →
  Forall (λ c, 0 ≤ c < 100) [b0; b1; b2; b3; b4; h0; h1] →
  info_head i ++ t = bytes "bc:" ++ two b0 ++ 44 :: two b1 ++ 44 :: two b2 ++ 44 :: two b3 ++ 44 :: two b4 ++ 32 :: [32] ++
    bytes "hc:" ++ two h0 ++ 44 :: two h1 ++ 44 :: [32] ++ info_tail i t.
Proof.
  intros Eb Eh Hc. unfold info_head, info_tail. rewrite Eb, Eh.
  repeat match goal with H : Forall _ (_ :: _) |- _ => apply Forall_cons in H as [? H] end.
  change (at_ [?a; ?b; ?c; ?d; ?e] 0) with a; change (at_ [?a; ?b; ?c; ?d; ?e] 1) with b; change (at_ [?a; ?b; ?c; ?d; ?e] 2) with c.
  change (at_ [?a; ?b; ?c; ?d; ?e] 3) with d; change (at_ [?a; ?b; ?c; ?d; ?e] 4) with e.
  change (at_ [?a; ?b] 0) with a; change (at_ [?a; ?b] 1) with b.
  rewrite !dec2_card by done. by rewrite <-!app_assoc.
Qed.

Lemma sep_numeric : numeric (bytes ", ").
Proof. change (numeric [44; 32]). repeat apply Forall_cons_2; [lia..|constructor]. Qed.

(** A number, a separator and the name of the next field. *)
Lemma field_text v c lit r : INT32_MIN ≤ v ≤ INT32_MAX → 57 < c →
  atoi (dec_signed v ++ bytes ", " ++ (c :: lit) ++ r) = Ok v ∧
  strstr (dec_signed v ++ bytes ", " ++ (c :: lit) ++ r) (c :: lit) = Some ((c :: lit) ++ r).
Proof.
  intros Hv Hc. split; [by apply atoi_signed|]. rewrite app_assoc. apply strstr_first, numeric_not; [|done].
  apply Forall_app. split; [by apply dec_signed_text|apply sep_numeric].
Qed.

Lemma FromString_head i0 i t : wf_info i → length (board_cards i0) = 5%nat → length (hcp_cards i0) = 2%nat →
  FromString i0 (info_head i ++ t) = Ok (0, with_seq i t).
Proof.
  intros [(b0 & b1 & b2 & b3 & b4 & Eb & Hb) (h0 & h1 & Eh & Hh) H1 H2 H3 _] L0 L1. rewrite Eb in Hb. rewrite Eh in Hh.
  rewrite (info_head_text i t b0 b1 b2 b3 b4 h0 h1) by (done || (apply (Forall_app_2 _ [b0; b1; b2; b3; b4]); done)).
  unfold FromString. change (bytes "bc:") with [98; 99; 58]. change (bytes "hc:") with [104; 99; 58].
  rewrite (strstr_first 98 [99; 58] [] _ (not_elem_of_nil _) : strstr ([98; 99; 58] ++ _) _ = _).
  rewrite (proj2 (Nat.ltb_ge _ 20)) by (cbn; lia).
  change (drop 3 ((98 :: [99; 58]) ++ ?r)) with r. change MAX_BOADRD_NUM with 5. change NUM_HCP with 2.
  rewrite read_five, bind_ok by (done || (repeat constructor)). cbv zeta.
  rewrite (strstr_first 104 [99; 58] [32]) by (by rewrite list_elem_of_singleton).
  rewrite (proj2 (Nat.ltb_ge _ 10)) by (cbn; lia).
  change (drop 3 ((104 :: [99; 58]) ++ ?r)) with r. cbn [hcp_cards board_cards info_st action_seq bet_to num_street_bet].
  rewrite read_pair, bind_ok by (done || (repeat constructor)). cbv zeta. unfold info_tail.
  change (bytes "st:") with [115; 116; 58].
  rewrite (strstr_first 115 [116; 58] [32]) by (by rewrite list_elem_of_singleton).
  change (drop 3 ((115 :: [116; 58]) ++ ?r)) with r.
  destruct (field_text (info_st i) 98 (tail (bytes "bet_to:")) (dec_signed (bet_to i) ++ bytes ", " ++
    bytes "num_bet:" ++ dec_signed (num_street_bet i) ++ bytes ", " ++ bytes "seq:" ++ t)) as [A1 S1]; [done|done|].
  change (98 :: tail (bytes "bet_to:")) with (bytes "bet_to:") in A1, S1. rewrite A1, bind_ok, S1.
  change (drop 7 (bytes "bet_to:" ++ ?r)) with r.
  destruct (field_text (bet_to i) 110 (tail (bytes "num_bet:")) (dec_signed (num_street_bet i) ++ bytes ", " ++ bytes "seq:" ++ t)) as [A2 S2]; [done|done|].
  change (110 :: tail (bytes "num_bet:")) with (bytes "num_bet:") in A2, S2. rewrite A2, bind_ok, S2.
  change (drop 8 (bytes "num_bet:" ++ ?r)) with r.
  destruct (field_text (num_street_bet i) 115 (tail (bytes "seq:")) t) as [A3 S3]; [done|done|].
  change (115 :: tail (bytes "seq:")) with (bytes "seq:") in A3, S3. rewrite A3, bind_ok, S3.
  change (drop 4 (bytes "seq:" ++ ?r)) with r. cbn [hcp_cards board_cards info_st action_seq bet_to num_street_bet].
  unfold with_seq. by rewrite Eb, Eh.
Qed.

Lemma numeric_nonzero t : numeric t → nonzero t.
Proof. unfold numeric, nonzero. rewrite Forall_forall. intros H E. specialize (H _ E). lia. Qed.
Lemma nonzero_app t u : nonzero t → nonzero u → nonzero (t ++ u).
Proof. unfold nonzero. rewrite not_elem_of_app. done. Qed.

Lemma info_head_ok i : wf_info i → nonzero (info_head i) ∧ (length (info_head i) ≤ 90)%nat.
Proof.
  intros [(b0 & b1 & b2 & b3 & b4 & Eb & Hb) (h0 & h1 & Eh & Hh) H1 H2 H3 _]. rewrite Eb in Hb. rewrite Eh in Hh.
  destruct (dec_signed_text _ H1) as [N1 L1]. destruct (dec_signed_text _ H2) as [N2 L2]. destruct (dec_signed_text _ H3) as [N3 L3].
  rewrite <-(app_nil_r (info_head i)), (info_head_text i [] b0 b1 b2 b3 b4 h0 h1)
    by (done || (apply (Forall_app_2 _ [b0; b1; b2; b3; b4]); done)).
  repeat match goal with H : Forall _ (_ :: _) |- _ => apply Forall_cons in H as [? H] end. unfold info_tail. split.
  - assert (C : ∀ x t, x ≠ 0 → nonzero t → nonzero (x :: t)) by (intros x t ? ?; by apply not_elem_of_cons).
    repeat first [apply nonzero_app | apply C; [lia|]];
      first [apply numeric_nonzero; first [by apply two_numeric | done] | compute_done | idtac].
  - repeat (rewrite length_app || cbn [length]). change (length (two ?c)) with 2%nat.
    change (length (bytes "bc:")) with 3%nat; change (length (bytes "hc:")) with 3%nat; change (length (bytes "st:")) with 3%nat.
    change (length (bytes ", ")) with 2%nat; change (length (bytes "bet_to:")) with 7%nat.
    change (length (bytes "num_bet:")) with 8%nat; change (length (bytes "seq:")) with 4%nat. lia.
Qed.

(** C32: The text of a query fits its buffer, and reading it gives back the cards, the
    round and the amounts; the sequence of actions is cut to what is left of 126 bytes,
    so that the query is read back as it was exactly when its text has no more. *)
Theorem info_round_trip i i0 :
  wf_info i → length (board_cards i0) = 5%nat → length (hcp_cards i0) = 2%nat →
  ∃ t, ToString i = Ok t ∧ (length t ≤ 126)%nat ∧
    FromString i0 t = Ok (0, with_seq i (take (126 - length (info_head i)) (action_seq i))) ∧
    (FromString i0 t = Ok (0, i) ↔ (length (info_head i ++ action_seq i) ≤ 126)%nat).
Proof.
  intros W L0 L1. destruct (info_head_ok i W) as [N L]. pose proof (wi_seq _ W) as Ns.
  unfold ToString. rewrite cstr_id by done.
  destruct (snprintf_cstr 128 127 (info_head i ++ action_seq i)) as (buf & -> & E); [lia|lia|by apply nonzero_app|].
  rewrite bind_ok. exists (cstr buf). rewrite E. change (Z.to_nat (127 - 1)) with 126%nat.
  rewrite take_app_ge by lia. rewrite FromString_head by done. split; [done|].
  split; [rewrite length_app, length_take; lia|]. split; [done|]. rewrite length_app. generalize dependent (length (info_head i)). intros n Hn. split.
  - intros E'. injection E' as E'. apply (f_equal action_seq) in E'. cbn [with_seq action_seq] in E'.
    apply (f_equal length) in E'. rewrite length_take in E'. lia.
  - intros Hl. rewrite take_ge by lia. by destruct i.
Qed.

(** A flop query, and the same hand later, after many small raises. *)
Definition flop_info : ActionInfo := mkInfo [12; 3; 40; 99; 99] [7; 51] 1 (bytes "r6c cr12r24") 24 (-1).
Definition long_info : ActionInfo :=
  mkInfo [12; 3; 40; 8; 99] [7; 51] 2 (bytes "r200r600r1800r3600c cr5400r7200r9000r10800c cr12600r14400r16200") 16200 (-1).

Lemma flop_info_wf : wf_info flop_info.
Proof.
  split; try (vm_compute; split; discriminate); [eexists _, _, _, _, _; split; [done|]|eexists _, _; split; [done|]|compute_done];
    repeat (apply Forall_cons_2; [lia|]); constructor.
Qed.

Lemma info_round_trip_witness : ∃ t, ToString flop_info = Ok t ∧ FromString ActionInfo_new t = Ok (0, flop_info).
Proof.
  destruct (info_round_trip flop_info ActionInfo_new flop_info_wf eq_refl eq_refl) as (t & E & _ & _ & H).
  exists t. split; [exact E|]. apply H, Nat.leb_le. vm_compute. reflexivity.
Defined.

(** A hand with ten raises does not survive: its last raise comes back as another amount,
    and the node is looked up under the wrong text. *)
Fact long_query_cut : ∃ t, ToString long_info = Ok t ∧
  FromString ActionInfo_new t = Ok (0, with_seq long_info (bytes "r200r600r1800r3600c cr5400r7200r9000r10800c cr12600r14400r162")).
Proof.
  exists (take 126 (info_head long_info ++ action_seq long_info)). split; vm_compute; reflexivity.
Qed.
