(* ===== verification/ParamHandle.v ===== *)
(** * The settings of an action ([param_handle.cpp])

    The configuration gives the settings of the four streets as a text like
    [frm_th=1,1,1,1 filter_flag=1,1,0,0 pot_th=...].  [SetActionParam] reads it field by
    field; the fields read before an error are kept.  [sscanf] with [%lf] is the argument
    [scan_lf]. *)

From stdpp Require Import base list list_numbers numbers option strings.
From S2P Require Import Prelude GameDef Text BotGame Robot Double Select BettingTree InfoText.
Open Scope Z_scope.

Section Param.
Context (scan_lf : list Z → res (option double)).

(** The three functions are one loop with different conversions; a vector that was
    resized holds what was read before an error, which the callers do not look at. *)
Definition ParseVals {A} (scan : list Z → res (option A)) (str : list Z) (count : Z) : res (Z * list A) :=
  temp_split_str ← SplitString str [44];
  if negb (Z.of_nat (length temp_split_str) =? count) then Ok (-2, []) else
  o ← forR 0 count [] (λ i vals,
    t ← rd temp_split_str i;
    v ← scan t;
    Ok (match v with Some v => inl (vals ++ [v]) | None => inr (-1, vals) end));
  Ok (match o with inl vals => (0, vals) | inr r => r end).

Definition scan_bool (t : list Z) : res (option bool) :=
  v ← scan_i (t ++ [0]);
  Ok (match v with
      | None => None
      | Some temp_val => if temp_val =? 1 then Some true else if temp_val =? 0 then Some false else None
      end).

Definition ParseInts : list Z → Z → res (Z * list Z) := ParseVals (λ t, scan_i (t ++ [0])).
Definition ParseBools : list Z → Z → res (Z * list bool) := ParseVals scan_bool.
Definition ParseDoubles : list Z → Z → res (Z * list double) := ParseVals (λ t, scan_lf (t ++ [0])).

(** [StringUtils::GetValueBykey] is [GetValueBykey] with a space as delimiter. *)
Definition param_value (param_str : list Z) (label : string) : res (list Z) :=
  GetValueBykey (cstr param_str) (bytes label) [32].

Definition SetActionParam (param_str : list Z) (param : ActionParam) : res (Z * ActionParam) :=
  s ← param_value param_str "frm_th"; '(flag, v) ← ParseDoubles s NUM_STREET;
  if negb (flag =? 0) then Ok (-1000 + flag, param) else
  let param := mkParam (filter_flags param) (handle_nfrom param) (rule_types param) v (pot_ths param) in
  s ← param_value param_str "filter_flag"; '(flag, v) ← ParseBools s NUM_STREET;
  if negb (flag =? 0) then Ok (-2000 + flag, param) else
  let param := mkParam v (handle_nfrom param) (rule_types param) (frm_ths param) (pot_ths param) in
  s ← param_value param_str "pot_th"; '(flag, v) ← ParseDoubles s NUM_STREET;
  if negb (flag =? 0) then Ok (-3000 + flag, param) else
  let param := mkParam (filter_flags param) (handle_nfrom param) (rule_types param) (frm_ths param) v in
  s ← param_value param_str "rule_type"; '(flag, v) ← ParseInts s NUM_STREET;
  if negb (flag =? 0) then Ok (-4000 + flag, param) else
  let param := mkParam (filter_flags param) (handle_nfrom param) v (frm_ths param) (pot_ths param) in
  s ← param_value param_str "handle_nfrm"; '(flag, v) ← ParseBools s NUM_STREET;
  if negb (flag =? 0) then Ok (-5000 + flag, param) else
  let param := mkParam (filter_flags param) v (rule_types param) (frm_ths param) (pot_ths param) in
  Ok (0, param).
End Param.

(** ** Settings that were read are settings of four streets *)
Lemma ParseVals_result {A} (scan : list Z → res (option A)) str count c l : 0 ≤ count →
  ParseVals scan str count = Ok (c, l) → c = 0 ∧ Z.of_nat (length l) = count ∨ c = -1 ∨ c = -2.
Proof.
  intros Hc E. unfold ParseVals in E. inv_ok. destruct (_ =? _); cbn [negb] in E; [|inv_ok; lia]. inv_ok.
  unfold forR in E1. rewrite Z.sub_0_r in E1.
  assert (Loop : ∀ ix vals o, foldR (λ i vals, t ← rd v i; w ← scan t;
      Ok (match w with Some w => inl (vals ++ [w]) | None => inr (-1, vals) end)) ix vals = Ok o →
    match o with inl l => length l = (length vals + length ix)%nat | inr (c, _) => c = -1 end).
  { clear. intros ix. induction ix as [|i ix IH]; intros vals o E; cbn in E; [injection E as <-; cbn; lia|].
    destruct (rd v i) as [t|]; cbn in E; [|discriminate E]. destruct (scan t) as [[w|]|]; cbn in E; [|by injection E as <-|discriminate E].
    apply IH in E. destruct o as [l|[? ?]]; [|done]. rewrite E, length_app. cbn. lia. }
  apply Loop in E1. destruct v0 as [l'|[c' l']]; simplify_eq; [|lia]. left. split; [done|]. rewrite E1. cbn. rewrite length_seqZ. lia.
Qed.

Lemma SetActionParam_lengths scan_lf str p p' : SetActionParam scan_lf str p = Ok (0, p') →
  length (filter_flags p') = 4%nat ∧ length (handle_nfrom p') = 4%nat ∧ length (rule_types p') = 4%nat ∧
  length (frm_ths p') = 4%nat ∧ length (pot_ths p') = 4%nat.
Proof.
  unfold SetActionParam, ParseDoubles, ParseBools, ParseInts, NUM_STREET. intros E.
  repeat match goal with
  | H : (param_value _ _ ≫= _) = Ok _ |- _ => apply bind_Ok_inv in H as (? & _ & H)
  | H : (ParseVals _ _ _ ≫= _) = Ok _ |- _ =>
      let x := fresh "x" in let F := fresh "F" in apply bind_Ok_inv in H as ([x ?] & F & H);
      apply ParseVals_result in F as [[-> F]|[-> | ->]]; [cbn [negb Z.eqb] in H|discriminate H|discriminate H|lia]
  end.
  injection E as <-. cbn. lia.
Qed.
