(* ===== verification/SessionData.v ===== *)
(** * The data of a running game ([run_game.h], [apgi_conf.h], [define.cpp])

    [GameData] holds the fields of [CRunGame] other than the robot's id and the time stamp,
    which are those of the table of games ([RunGameMap]); with them it is a
    [CRunGame GameData].  The rest is what a session uses of the configuration, of the
    game definitions and of the robot, which is an interface. *)

From stdpp Require Import base list list_numbers numbers option strings gmap.
From S2P Require Import Prelude GameDef Text GameFile BotGame Robot Double Select RobotThm SelectThm BettingTree InfoText.
Open Scope Z_scope.

(** ** Constants *)
Definition GRS_OK : Z := 0.
Definition GRS_WAIT_ROBOT_ACTION : Z := 1.
Definition GRS_ERR_CARDS : Z := 11.
Definition GRS_ERR_PLAYER_ACTION : Z := 12.
Definition GRS_ERR_ROBOT_ACTION : Z := 13.

Definition GAME_TYPE_LEDUC : Z := 0.
Definition GAME_TYPE_LIMIT_2P : Z := 1.
Definition GAME_TYPE_NOLIMIT_2P : Z := 2.
Definition GAME_TYPE_MAX : Z := 3.

(** ** Fields *)
Record DLastAction := mkLast { nType : Z; nBetNum : Z; nBetSize : Z }.

Record GameData := mkData {
  m_nGameType : Z;
  m_szRoomID : list Z;
  m_nPlayerID : Z;
  m_nPlayerScore : Z;
  m_nActionSeq : Z;
  m_nRunState : Z;
  m_nSock : Z;
  m_nUniqueID : Z;
  m_nRequestActionTime : Z;
  m_nLocalRoleID : Z;
  m_nLocalRoomID : Z;
  m_nCfrServerID : Z;
  m_szCfrModel : list Z;
  m_oActionParam : ActionParam;
  m_oMatchState : MatchState;
  m_nRobotResult : Z;
  m_nRobotScore : Z;
  m_nGameTime : Z;
  m_nHistoryCnt : Z;
  m_nTRobotRoundSeq : Z;
  m_nAlreadySaveHistory : Z;
  m_nGameBeginTimes : Z;
  m_oDLastAction : DLastAction }.

Definition set_GameType (v : Z) (d : GameData) : GameData :=
  mkData v (m_szRoomID d) (m_nPlayerID d) (m_nPlayerScore d) (m_nActionSeq d) (m_nRunState d) (m_nSock d)
    (m_nUniqueID d) (m_nRequestActionTime d) (m_nLocalRoleID d) (m_nLocalRoomID d) (m_nCfrServerID d)
    (m_szCfrModel d) (m_oActionParam d) (m_oMatchState d) (m_nRobotResult d) (m_nRobotScore d) (m_nGameTime d)
    (m_nHistoryCnt d) (m_nTRobotRoundSeq d) (m_nAlreadySaveHistory d) (m_nGameBeginTimes d) (m_oDLastAction d).
Definition set_szRoomID (v : list Z) (d : GameData) : GameData :=
  mkData (m_nGameType d) v (m_nPlayerID d) (m_nPlayerScore d) (m_nActionSeq d) (m_nRunState d) (m_nSock d)
    (m_nUniqueID d) (m_nRequestActionTime d) (m_nLocalRoleID d) (m_nLocalRoomID d) (m_nCfrServerID d)
    (m_szCfrModel d) (m_oActionParam d) (m_oMatchState d) (m_nRobotResult d) (m_nRobotScore d) (m_nGameTime d)
    (m_nHistoryCnt d) (m_nTRobotRoundSeq d) (m_nAlreadySaveHistory d) (m_nGameBeginTimes d) (m_oDLastAction d).
Definition set_PlayerID (v : Z) (d : GameData) : GameData :=
  mkData (m_nGameType d) (m_szRoomID d) v (m_nPlayerScore d) (m_nActionSeq d) (m_nRunState d) (m_nSock d)
    (m_nUniqueID d) (m_nRequestActionTime d) (m_nLocalRoleID d) (m_nLocalRoomID d) (m_nCfrServerID d)
    (m_szCfrModel d) (m_oActionParam d) (m_oMatchState d) (m_nRobotResult d) (m_nRobotScore d) (m_nGameTime d)
    (m_nHistoryCnt d) (m_nTRobotRoundSeq d) (m_nAlreadySaveHistory d) (m_nGameBeginTimes d) (m_oDLastAction d).
Definition set_PlayerScore (v : Z) (d : GameData) : GameData :=
  mkData (m_nGameType d) (m_szRoomID d) (m_nPlayerID d) v (m_nActionSeq d) (m_nRunState d) (m_nSock d)
    (m_nUniqueID d) (m_nRequestActionTime d) (m_nLocalRoleID d) (m_nLocalRoomID d) (m_nCfrServerID d)
    (m_szCfrModel d) (m_oActionParam d) (m_oMatchState d) (m_nRobotResult d) (m_nRobotScore d) (m_nGameTime d)
    (m_nHistoryCnt d) (m_nTRobotRoundSeq d) (m_nAlreadySaveHistory d) (m_nGameBeginTimes d) (m_oDLastAction d).
Definition set_ActionSeq (v : Z) (d : GameData) : GameData :=
  mkData (m_nGameType d) (m_szRoomID d) (m_nPlayerID d) (m_nPlayerScore d) v (m_nRunState d) (m_nSock d)
    (m_nUniqueID d) (m_nRequestActionTime d) (m_nLocalRoleID d) (m_nLocalRoomID d) (m_nCfrServerID d)
    (m_szCfrModel d) (m_oActionParam d) (m_oMatchState d) (m_nRobotResult d) (m_nRobotScore d) (m_nGameTime d)
    (m_nHistoryCnt d) (m_nTRobotRoundSeq d) (m_nAlreadySaveHistory d) (m_nGameBeginTimes d) (m_oDLastAction d).
Definition set_RunState (v : Z) (d : GameData) : GameData :=
  mkData (m_nGameType d) (m_szRoomID d) (m_nPlayerID d) (m_nPlayerScore d) (m_nActionSeq d) v (m_nSock d)
    (m_nUniqueID d) (m_nRequestActionTime d) (m_nLocalRoleID d) (m_nLocalRoomID d) (m_nCfrServerID d)
    (m_szCfrModel d) (m_oActionParam d) (m_oMatchState d) (m_nRobotResult d) (m_nRobotScore d) (m_nGameTime d)
    (m_nHistoryCnt d) (m_nTRobotRoundSeq d) (m_nAlreadySaveHistory d) (m_nGameBeginTimes d) (m_oDLastAction d).
Definition set_Sock (v : Z) (d : GameData) : GameData :=
  mkData (m_nGameType d) (m_szRoomID d) (m_nPlayerID d) (m_nPlayerScore d) (m_nActionSeq d) (m_nRunState d) v
    (m_nUniqueID d) (m_nRequestActionTime d) (m_nLocalRoleID d) (m_nLocalRoomID d) (m_nCfrServerID d)
    (m_szCfrModel d) (m_oActionParam d) (m_oMatchState d) (m_nRobotResult d) (m_nRobotScore d) (m_nGameTime d)
    (m_nHistoryCnt d) (m_nTRobotRoundSeq d) (m_nAlreadySaveHistory d) (m_nGameBeginTimes d) (m_oDLastAction d).
Definition set_UniqueID (v : Z) (d : GameData) : GameData :=
  mkData (m_nGameType d) (m_szRoomID d) (m_nPlayerID d) (m_nPlayerScore d) (m_nActionSeq d) (m_nRunState d)
    (m_nSock d) v (m_nRequestActionTime d) (m_nLocalRoleID d) (m_nLocalRoomID d) (m_nCfrServerID d)
    (m_szCfrModel d) (m_oActionParam d) (m_oMatchState d) (m_nRobotResult d) (m_nRobotScore d) (m_nGameTime d)
    (m_nHistoryCnt d) (m_nTRobotRoundSeq d) (m_nAlreadySaveHistory d) (m_nGameBeginTimes d) (m_oDLastAction d).
Definition set_RequestActionTime (v : Z) (d : GameData) : GameData :=
  mkData (m_nGameType d) (m_szRoomID d) (m_nPlayerID d) (m_nPlayerScore d) (m_nActionSeq d) (m_nRunState d)
    (m_nSock d) (m_nUniqueID d) v (m_nLocalRoleID d) (m_nLocalRoomID d) (m_nCfrServerID d) (m_szCfrModel d)
    (m_oActionParam d) (m_oMatchState d) (m_nRobotResult d) (m_nRobotScore d) (m_nGameTime d) (m_nHistoryCnt
    d) (m_nTRobotRoundSeq d) (m_nAlreadySaveHistory d) (m_nGameBeginTimes d) (m_oDLastAction d).
Definition set_LocalRoleID (v : Z) (d : GameData) : GameData :=
  mkData (m_nGameType d) (m_szRoomID d) (m_nPlayerID d) (m_nPlayerScore d) (m_nActionSeq d) (m_nRunState d)
    (m_nSock d) (m_nUniqueID d) (m_nRequestActionTime d) v (m_nLocalRoomID d) (m_nCfrServerID d) (m_szCfrModel
    d) (m_oActionParam d) (m_oMatchState d) (m_nRobotResult d) (m_nRobotScore d) (m_nGameTime d)
    (m_nHistoryCnt d) (m_nTRobotRoundSeq d) (m_nAlreadySaveHistory d) (m_nGameBeginTimes d) (m_oDLastAction d).
Definition set_LocalRoomID (v : Z) (d : GameData) : GameData :=
  mkData (m_nGameType d) (m_szRoomID d) (m_nPlayerID d) (m_nPlayerScore d) (m_nActionSeq d) (m_nRunState d)
    (m_nSock d) (m_nUniqueID d) (m_nRequestActionTime d) (m_nLocalRoleID d) v (m_nCfrServerID d) (m_szCfrModel
    d) (m_oActionParam d) (m_oMatchState d) (m_nRobotResult d) (m_nRobotScore d) (m_nGameTime d)
    (m_nHistoryCnt d) (m_nTRobotRoundSeq d) (m_nAlreadySaveHistory d) (m_nGameBeginTimes d) (m_oDLastAction d).
Definition set_CfrServerID (v : Z) (d : GameData) : GameData :=
  mkData (m_nGameType d) (m_szRoomID d) (m_nPlayerID d) (m_nPlayerScore d) (m_nActionSeq d) (m_nRunState d)
    (m_nSock d) (m_nUniqueID d) (m_nRequestActionTime d) (m_nLocalRoleID d) (m_nLocalRoomID d) v (m_szCfrModel
    d) (m_oActionParam d) (m_oMatchState d) (m_nRobotResult d) (m_nRobotScore d) (m_nGameTime d)
    (m_nHistoryCnt d) (m_nTRobotRoundSeq d) (m_nAlreadySaveHistory d) (m_nGameBeginTimes d) (m_oDLastAction d).
Definition set_szCfrModel (v : list Z) (d : GameData) : GameData :=
  mkData (m_nGameType d) (m_szRoomID d) (m_nPlayerID d) (m_nPlayerScore d) (m_nActionSeq d) (m_nRunState d)
    (m_nSock d) (m_nUniqueID d) (m_nRequestActionTime d) (m_nLocalRoleID d) (m_nLocalRoomID d) (m_nCfrServerID
    d) v (m_oActionParam d) (m_oMatchState d) (m_nRobotResult d) (m_nRobotScore d) (m_nGameTime d)
    (m_nHistoryCnt d) (m_nTRobotRoundSeq d) (m_nAlreadySaveHistory d) (m_nGameBeginTimes d) (m_oDLastAction d).
Definition set_oActionParam (v : ActionParam) (d : GameData) : GameData :=
  mkData (m_nGameType d) (m_szRoomID d) (m_nPlayerID d) (m_nPlayerScore d) (m_nActionSeq d) (m_nRunState d)
    (m_nSock d) (m_nUniqueID d) (m_nRequestActionTime d) (m_nLocalRoleID d) (m_nLocalRoomID d) (m_nCfrServerID
    d) (m_szCfrModel d) v (m_oMatchState d) (m_nRobotResult d) (m_nRobotScore d) (m_nGameTime d)
    (m_nHistoryCnt d) (m_nTRobotRoundSeq d) (m_nAlreadySaveHistory d) (m_nGameBeginTimes d) (m_oDLastAction d).
Definition set_oMatchState (v : MatchState) (d : GameData) : GameData :=
  mkData (m_nGameType d) (m_szRoomID d) (m_nPlayerID d) (m_nPlayerScore d) (m_nActionSeq d) (m_nRunState d)
    (m_nSock d) (m_nUniqueID d) (m_nRequestActionTime d) (m_nLocalRoleID d) (m_nLocalRoomID d) (m_nCfrServerID
    d) (m_szCfrModel d) (m_oActionParam d) v (m_nRobotResult d) (m_nRobotScore d) (m_nGameTime d)
    (m_nHistoryCnt d) (m_nTRobotRoundSeq d) (m_nAlreadySaveHistory d) (m_nGameBeginTimes d) (m_oDLastAction d).
Definition set_RobotResult (v : Z) (d : GameData) : GameData :=
  mkData (m_nGameType d) (m_szRoomID d) (m_nPlayerID d) (m_nPlayerScore d) (m_nActionSeq d) (m_nRunState d)
    (m_nSock d) (m_nUniqueID d) (m_nRequestActionTime d) (m_nLocalRoleID d) (m_nLocalRoomID d) (m_nCfrServerID
    d) (m_szCfrModel d) (m_oActionParam d) (m_oMatchState d) v (m_nRobotScore d) (m_nGameTime d)
    (m_nHistoryCnt d) (m_nTRobotRoundSeq d) (m_nAlreadySaveHistory d) (m_nGameBeginTimes d) (m_oDLastAction d).
Definition set_RobotScore (v : Z) (d : GameData) : GameData :=
  mkData (m_nGameType d) (m_szRoomID d) (m_nPlayerID d) (m_nPlayerScore d) (m_nActionSeq d) (m_nRunState d)
    (m_nSock d) (m_nUniqueID d) (m_nRequestActionTime d) (m_nLocalRoleID d) (m_nLocalRoomID d) (m_nCfrServerID
    d) (m_szCfrModel d) (m_oActionParam d) (m_oMatchState d) (m_nRobotResult d) v (m_nGameTime d)
    (m_nHistoryCnt d) (m_nTRobotRoundSeq d) (m_nAlreadySaveHistory d) (m_nGameBeginTimes d) (m_oDLastAction d).
Definition set_GameTime (v : Z) (d : GameData) : GameData :=
  mkData (m_nGameType d) (m_szRoomID d) (m_nPlayerID d) (m_nPlayerScore d) (m_nActionSeq d) (m_nRunState d)
    (m_nSock d) (m_nUniqueID d) (m_nRequestActionTime d) (m_nLocalRoleID d) (m_nLocalRoomID d) (m_nCfrServerID
    d) (m_szCfrModel d) (m_oActionParam d) (m_oMatchState d) (m_nRobotResult d) (m_nRobotScore d) v
    (m_nHistoryCnt d) (m_nTRobotRoundSeq d) (m_nAlreadySaveHistory d) (m_nGameBeginTimes d) (m_oDLastAction d).
Definition set_HistoryCnt (v : Z) (d : GameData) : GameData :=
  mkData (m_nGameType d) (m_szRoomID d) (m_nPlayerID d) (m_nPlayerScore d) (m_nActionSeq d) (m_nRunState d)
    (m_nSock d) (m_nUniqueID d) (m_nRequestActionTime d) (m_nLocalRoleID d) (m_nLocalRoomID d) (m_nCfrServerID
    d) (m_szCfrModel d) (m_oActionParam d) (m_oMatchState d) (m_nRobotResult d) (m_nRobotScore d) (m_nGameTime
    d) v (m_nTRobotRoundSeq d) (m_nAlreadySaveHistory d) (m_nGameBeginTimes d) (m_oDLastAction d).
Definition set_TRobotRoundSeq (v : Z) (d : GameData) : GameData :=
  mkData (m_nGameType d) (m_szRoomID d) (m_nPlayerID d) (m_nPlayerScore d) (m_nActionSeq d) (m_nRunState d)
    (m_nSock d) (m_nUniqueID d) (m_nRequestActionTime d) (m_nLocalRoleID d) (m_nLocalRoomID d) (m_nCfrServerID
    d) (m_szCfrModel d) (m_oActionParam d) (m_oMatchState d) (m_nRobotResult d) (m_nRobotScore d) (m_nGameTime
    d) (m_nHistoryCnt d) v (m_nAlreadySaveHistory d) (m_nGameBeginTimes d) (m_oDLastAction d).
Definition set_AlreadySaveHistory (v : Z) (d : GameData) : GameData :=
  mkData (m_nGameType d) (m_szRoomID d) (m_nPlayerID d) (m_nPlayerScore d) (m_nActionSeq d) (m_nRunState d)
    (m_nSock d) (m_nUniqueID d) (m_nRequestActionTime d) (m_nLocalRoleID d) (m_nLocalRoomID d) (m_nCfrServerID
    d) (m_szCfrModel d) (m_oActionParam d) (m_oMatchState d) (m_nRobotResult d) (m_nRobotScore d) (m_nGameTime
    d) (m_nHistoryCnt d) (m_nTRobotRoundSeq d) v (m_nGameBeginTimes d) (m_oDLastAction d).
Definition set_GameBeginTimes (v : Z) (d : GameData) : GameData :=
  mkData (m_nGameType d) (m_szRoomID d) (m_nPlayerID d) (m_nPlayerScore d) (m_nActionSeq d) (m_nRunState d)
    (m_nSock d) (m_nUniqueID d) (m_nRequestActionTime d) (m_nLocalRoleID d) (m_nLocalRoomID d) (m_nCfrServerID
    d) (m_szCfrModel d) (m_oActionParam d) (m_oMatchState d) (m_nRobotResult d) (m_nRobotScore d) (m_nGameTime
    d) (m_nHistoryCnt d) (m_nTRobotRoundSeq d) (m_nAlreadySaveHistory d) v (m_oDLastAction d).
Definition set_oDLastAction (v : DLastAction) (d : GameData) : GameData :=
  mkData (m_nGameType d) (m_szRoomID d) (m_nPlayerID d) (m_nPlayerScore d) (m_nActionSeq d) (m_nRunState d)
    (m_nSock d) (m_nUniqueID d) (m_nRequestActionTime d) (m_nLocalRoleID d) (m_nLocalRoomID d) (m_nCfrServerID
    d) (m_szCfrModel d) (m_oActionParam d) (m_oMatchState d) (m_nRobotResult d) (m_nRobotScore d) (m_nGameTime
    d) (m_nHistoryCnt d) (m_nTRobotRoundSeq d) (m_nAlreadySaveHistory d) (m_nGameBeginTimes d) v.

Definition match_state (d : GameData) : State := GameDef.state (m_oMatchState d).
Definition set_match_state (s : State) (d : GameData) : GameData :=
  set_oMatchState (mkMatchState s (viewingPlayer (m_oMatchState d))) d.

(** ** Cards of the client ([apg_nndef.cpp], [ApgCardToLocal])

    A card is a [short]: its suit in the second hexadecimal digit, its rank in the first. *)
Definition getNNType (card : Z) : Z := Z.land card 240.
Definition getNNNum (card : Z) : Z := Z.land card 15.

(** The code, and the card unless there is an error. *)
Definition ApgCardToLocal (card : Z) : Z * option Z :=
  let card := s16 card in
  let apgsuit := getNNType card in
  let apgrank := getNNNum card in
  let nSuit := if apgsuit =? 0 then Some 1 else if apgsuit =? 16 then Some 0
               else if apgsuit =? 32 then Some 2 else if apgsuit =? 48 then Some 3 else None in
  match nSuit with
  | None => (-1, None)
  | Some nSuit =>
      if (apgrank <? 2) || (14 <? apgrank) then (-2, None) else
      (0, Some (makeCard (apgrank - 2) nSuit))
  end.

(** ** Game definitions ([game_manager.cpp]) *)

(** [files i] is what the file of game type [i] holds; [None] cannot be opened. *)
Definition LoadConfig (files : Z → option (list Z)) : res (bool * gmap Z Game) :=
  o ← forR GAME_TYPE_LEDUC GAME_TYPE_MAX (∅ : gmap Z Game) (λ i m,
    match files i with
    | None => Ok (inr m)
    | Some f =>
        pGame ← readGame f;
        Ok (match pGame with None => inr m | Some g => inl (<[i := g]> m) end)
    end);
  Ok (match o with inl m => (true, m) | inr m => (false, m) end).

Definition GetGame (m_mapGame : gmap Z Game) (nGameType : Z) : option Game := m_mapGame !! nGameType.

(** ** Strategy servers ([apgi_conf.cpp]) *)
Record ModelParam := mkModel { cfr_param : list Z; random_flag : bool; sumprob_flag : list bool }.
Record CFRServer := mkCfr { oModelParam : ModelParam; nServerID : Z; strVersion : list Z }.
Record CAPGIConf := mkConf {
  m_vCfrServer : list (list Z);   (* the names of the models, in the order of the file *)
  m_mapCfrServer : gmap (list Z) CFRServer;
  m_nUnsaveHistory : Z;
  m_nRobotTimeout : Z }.

Definition GetCfrServer (c : CAPGIConf) (cfrModel : list Z) : option CFRServer := m_mapCfrServer c !! cfrModel.

Definition SelectCfrModel (c : CAPGIConf) (nAPGAiMode nGameBeginTimes : Z) : res (list Z) :=
  let n := length (m_vCfrServer c) in
  if (n =? 0)%nat then Ok [] else if (n =? 1)%nat then rd (m_vCfrServer c) 0 else
  if nAPGAiMode =? 1 then rd (m_vCfrServer c) 0
  else if nAPGAiMode =? 2 then rd (m_vCfrServer c) 1
  else
    let nTempTimes := u32 nGameBeginTimes mod 10 in
    if nTempTimes <? 3 then rd (m_vCfrServer c) 0 else rd (m_vCfrServer c) 1.

Definition SelectValidModel (c : CAPGIConf) (strInvalidModel : list Z) : list Z :=
  default [] (List.find (λ s, negb (bool_decide (strInvalidModel = s))) (m_vCfrServer c)).

(** ** The robot

    A session uses two functions of [DTRobot]; the robot's own state is its trees and its
    random numbers. *)
Class RobotApi := {
  rb_state : Type;
  rb_GetKey : rb_state → ModelParam → ActionInfo → NodeInfo → CFRKey → res (rb_state * Z * CFRKey);
  rb_DoAction : rb_state → ActionParam → ModelParam → ActionInfo → NodeInfo → list Z →
    res (rb_state * Z * option (list Z * list Z)) }.

(** What the robot promises: both functions return, and an action is one of the node. *)
Class RobotOk (R : RobotApi) := {
  rb_ok : rb_state → Prop;
  key_total : ∀ x mp info node key, rb_ok x → sized info → 0 ≤ info_st info ≤ 3 →
    Z.of_nat (length (child_node_ node)) ≤ 255 →
    ∃ x' c k, rb_GetKey x mp info node key = Ok (x', c, k) ∧ rb_ok x';
  act_total : ∀ x p mp info node vals, rb_ok x → settings_ok p (sumprob_flag mp) → sized info → 0 ≤ info_st info ≤ 3 →
    node_ok info (child_node_ node) vals →
    ∃ x' c o, rb_DoAction x p mp info node vals = Ok (x', c, o) ∧ rb_ok x' ∧
      (c = 0 → ∃ a r, o = Some (a, r) ∧ a ∈ child_node_ node) }.
