(* ===== verification/Session.v ===== *)
(** * A session with a client ([run_game.cpp])

    [CRunGame] follows one match between a client's player and the robot: hands begin,
    cards arrive, the player acts, the robot is asked through the strategy server, hands
    end.  Every operation of the class is a function of the robot's id and the data of the
    game, and gives the code it returns and the data afterwards.  The time, whether a
    server is connected, the answers of redis and the contents of uninitialised memory are
    arguments.  The texts that answer a message or go to the log are made in their buffers where
    the code makes them in a buffer of its own, and not kept. *)

From Stdlib Require Import SpecFloat.
From stdpp Require Import base list list_numbers numbers option strings gmap.
From S2P Require Import Prelude GameDef Betting BettingSpec Value Text Print GameFile HashTable RunGameMap BotGame Robot Double Select BettingTree MatchConv InfoText ParamHandle SessionData.
Open Scope Z_scope.

(** [std::stoi]: an exception that nobody catches ends the program. *)
Definition stoi (t : list Z) : res Z :=
  o ← scan_number (t ++ [0]);
  match o with
  | None => Err Exited
  | Some (neg, v, _) =>
      let v := if (neg : bool) then - v else v in
      if (INT32_MIN <=? v) && (v <=? INT32_MAX) then Ok v else Err Exited
  end.

(** [(ActionType)( n )]: other integers are no action. *)
Definition to_ActionType (n : Z) : ActionType :=
  if n =? 0 then a_fold else if n =? 1 then a_call else if n =? 2 then a_raise else a_invalid.

(** [Reset]; the fields it does not name keep what they hold. *)
Definition Reset (g : CRunGame GameData) : CRunGame GameData :=
  let d := m_others g in
  mkRunGame 0 0
    (set_szCfrModel [] (set_szRoomID [] (set_oMatchState (mkMatchState zero_state 0)
    (set_UniqueID 0 (set_Sock (-1) (set_CfrServerID 0 (set_PlayerScore 0 (set_PlayerID 0 (set_GameType 0 d))))))))).

(** [nLocalID] is the counter [g_nLocalID]; the result carries its new value. *)
Definition SetPlayerID (v now g_nLocalID : Z) (d : GameData) : res (Z * GameData) :=
  if negb (v =? m_nPlayerID d) then
    let g_nLocalID := g_nLocalID + 1 in
    let nLocalID := u32 g_nLocalID in
    t ← i64 (now * 4294967296);
    r ← i64 (t + nLocalID);
    Ok (g_nLocalID, set_LocalRoomID (u64 r) (set_LocalRoleID nLocalID (set_RobotScore 0 (set_PlayerID v d))))
  else Ok (g_nLocalID, d).

Definition SetRoomID (v : list Z) (d : GameData) : GameData := set_szRoomID (firstn 30 (cstr v)) d.
Definition GetRunState (d : GameData) : Z := u8 (m_nRunState d).
Definition GetRound (d : GameData) : Z := round (match_state d).
Definition GetHandID (d : GameData) : Z := handId (match_state d).

Section Session.
Context `{R : RobotApi} (m_mapGame : gmap Z Game) (bt : CBettingTree) (conf : CAPGIConf).
Context (scan_lf : list Z → res (option double)).

Definition GetBankerID (m_nRobotID : Z) (d : GameData) : Z :=
  if viewingPlayer (m_oMatchState d) =? 1 then m_nRobotID else m_nPlayerID d.

Definition GetCurrentPlayerID (m_nRobotID : Z) (d : GameData) : res Z :=
  if nz (stateFinished (match_state d)) then Ok 0 else
  match GetGame m_mapGame (m_nGameType d) with
  | None => Ok 0
  | Some pGame =>
      player ← currentPlayer pGame (match_state d);
      if numPlayers pGame <=? player then Ok 0 else
      Ok (if player =? viewingPlayer (m_oMatchState d) then m_nRobotID else m_nPlayerID d)
  end.

(** [if( strlen( szTemp ) < 200 ) len += snprintf( szTemp + len, 32, ... )] of a text. *)
Definition add_text (t : list Z) (st : Z * list Z) : res (Z * list Z) :=
  let '(len, szTemp) := st in
  n ← strlen szTemp;
  if n <? 200 then '(k, szTemp) ← snprintf szTemp len 32 t; len ← i32 (len + k); Ok (len, szTemp) else Ok (len, szTemp).

(** [%s[%d] ] of a child and its amount. *)
Definition allow_text (v : list Z) (n : Z) : list Z := cstr v ++ [91] ++ dec_signed n ++ [93; 32].

(** [r%d ] of an amount. *)
Definition raise_text (n : Z) : list Z := 114 :: dec_signed n ++ [32].

(** The code and [vRaises]; [szTemp] is only logged. *)
Definition GetAllowRaises (d : GameData) : res (Z * list Z) :=
  '(flag, action_info) ← GetActionInfo (m_oMatchState d) ActionInfo_new;
  if negb (flag =? 0) then Ok (-101, []) else
  let '(flag, node_info) := GetNode bt (action_seq action_info) (mkNode (-1) 0 0 []) in
  if negb (flag =? 0) then Ok (-102, []) else
  '(vRaises, _) ← foldM (λ v '(vRaises, st),
    match v with
    | x :: ((_ :: _) as t) =>
        if x =? 114 then n ← stoi t; st ← add_text (allow_text v n) st; Ok (vRaises ++ [n], st) else Ok (vRaises, st)
    | _ => Ok (vRaises, st)
    end) (child_node_ node_info) ([], (0, replicate 256 0));
  Ok (0, vRaises).

Definition CheckAction (pGame : Game) (act : Action) (d : GameData) : res Z :=
  match type act with
  | a_call | a_fold => Ok 0
  | a_invalid => Ok (-2)
  | a_raise =>
      '(ok, act) ← isValidAction pGame (match_state d) 0 act;
      if ok =? 0 then Ok (-12) else
      '(rc, vRaises) ← GetAllowRaises d;
      if negb (rc =? 0) then Ok (-13) else
      o ← foldR (λ n st, if n =? GameDef.size act then Ok (inr tt) else st ← add_text (raise_text n) st; Ok (inl st)) vRaises (0, replicate 256 0);
      Ok (match o with inr _ => 0 | inl _ => -99 end)
  end.

(** [retry] is [bAgain]; the second round is the [goto]. *)
Fixpoint SetCfrModel_from (retry : nat) (connected : Z → bool) (strModel : list Z) (d : GameData) : res (Z * GameData) :=
  if bool_decide (cstr strModel = m_szCfrModel d) && (0 <? m_nCfrServerID d) then Ok (0, d) else
  if (60 <? Z.of_nat (length strModel)) then Ok (-100, d) else
  match GetCfrServer conf strModel with
  | None => Ok (-101, d)
  | Some pCfr =>
      if negb (connected (nServerID pCfr)) then
        match retry with
        | O => Ok (-105, d)
        | S retry => SetCfrModel_from retry connected (SelectValidModel conf strModel) d
        end
      else
        '(nErrCode, p) ← SetActionParam scan_lf (cfr_param (oModelParam pCfr)) (m_oActionParam d);
        let d := set_oActionParam p d in
        if negb (nErrCode =? 0) then Ok (-102, d) else
        Ok (0, set_CfrServerID (nServerID pCfr) (set_szCfrModel (cstr strModel) d))
  end.
Definition SetCfrModel (connected : Z → bool) (nAiMode : Z) (d : GameData) : res (Z * GameData) :=
  strModel ← SelectCfrModel conf nAiMode (m_nGameBeginTimes d);
  SetCfrModel_from 1 connected strModel d.

Definition DoRunMatch (m_nRobotID now nHandID nBankerID : Z) (d : GameData) : res (Z * GameData) :=
  let d := set_GameType GAME_TYPE_NOLIMIT_2P d in
  match GetGame m_mapGame (m_nGameType d) with
  | None => Ok (-1, d)
  | Some pGame =>
      let v := if nBankerID =? m_nRobotID then 1 else 0 in
      let d := set_GameTime now (set_RobotResult 0 (set_RunState GRS_OK (set_ActionSeq 0 d))) in
      let d := set_AlreadySaveHistory 0 (set_GameBeginTimes (u32 (m_nGameBeginTimes d + 1)) d) in
      s ← initState pGame nHandID (set_handId nHandID zero_state);
      Ok (0, set_oMatchState (mkMatchState s v) d)
  end.

(** [ApgCardToLocal( card, cards[ j ] )]: an error writes nothing. *)
Definition put_card (card : Z) (cards : list Z) (j : Z) : res (Z * list Z) :=
  match ApgCardToLocal card with
  | (0, Some c) => cards ← wr cards j c; Ok (0, cards)
  | (rc, _) => Ok (rc, cards)
  end.

(** The loops over the cards of a message, into [cards] from [o] on; [inr] is an error
    with what was written before. *)
Definition put_cards (msg : list Z) (n : Z) (cards : list Z) (o : Z) : res (list Z + list Z) :=
  forR 0 n cards (λ j cards,
    c ← rd msg j;
    '(rc, cards) ← put_card c cards (o + j);
    Ok (if rc =? 0 then inl cards else inr cards)).

(** Cards into the hand of player [p], or onto the board. *)
Definition put_hole (p : Z) (msg : list Z) (n err : Z) (d : GameData) : res (Z * GameData) :=
  let s := match_state d in
  row ← rd (holeCards s) p;
  o ← put_cards msg n row 0;
  let '(rc, row) := match o with inl row => (0, row) | inr row => (err, row) end in
  hc ← wr (holeCards s) p row;
  Ok (rc, set_match_state (set_holeCards hc s) d).
Definition put_board (msg : list Z) (n o err : Z) (d : GameData) : res (Z * GameData) :=
  let s := match_state d in
  r ← put_cards msg n (boardCards s) o;
  let '(rc, bc) := match r with inl bc => (0, bc) | inr bc => (err, bc) end in
  Ok (rc, set_match_state (set_boardCards bc s) d).

(** A [ThirdGameSendCardsNotify]. *)
Record SendCards := mkCards { sc_round : Z; robot_cards : list Z; sc_board_cards : list Z }.

Definition DoSaveCards (pb : SendCards) (d : GameData) : res (Z * GameData) :=
  if negb (sc_round pb =? GetRound d) then Ok (-101, d) else
  let d := set_TRobotRoundSeq 0 d in
  '(rc, d) ←
    (if (sc_round pb =? 0) && (length (robot_cards pb) =? 2)%nat then
       put_hole (viewingPlayer (m_oMatchState d)) (robot_cards pb) 2 (-102) d
     else if (sc_round pb =? 1) && (length (sc_board_cards pb) =? 3)%nat then put_board (sc_board_cards pb) 3 0 (-103) d
     else if (sc_round pb =? 2) && (length (sc_board_cards pb) =? 1)%nat then put_board (sc_board_cards pb) 1 3 (-104) d
     else if (sc_round pb =? 3) && (length (sc_board_cards pb) =? 1)%nat then put_board (sc_board_cards pb) 1 4 (-105) d
     else Ok (-110, d));
  if negb (rc =? 0) then Ok (rc, d) else
  match GetGame m_mapGame (m_nGameType d) with
  | None => Ok (-1, d)
  | Some pGame =>
      '(_, _) ← printStateDetailed pGame (match_state d) 255 0 (replicate 256 0);
      Ok (0, d)
  end.

(** The robot names the amount it raises to, the player the amount he adds. *)
Definition last_action (m_nRobotID nActionUid nActionType nBetNum : Z) (d : GameData) : res DLastAction :=
  if nActionType =? 2 then
    if nActionUid =? m_nRobotID then
      sp ← rd (spent (match_state d)) (viewingPlayer (m_oMatchState d));
      n ← i32 (nBetNum - sp);
      Ok (mkLast (u8 nActionType) n nBetNum)
    else
      p ← c_rem (viewingPlayer (m_oMatchState d) + 1) 2;
      sp ← rd (spent (match_state d)) p;
      n ← i32 (nBetNum + sp);
      Ok (mkLast (u8 nActionType) nBetNum n)
  else Ok (mkLast (u8 nActionType) 0 0).

Definition DoAction (m_nRobotID nActionUid nActionType nBetNum : Z) (d : GameData) : res (Z * GameData) :=
  l ← last_action m_nRobotID nActionUid nActionType nBetNum d;
  let d := set_oDLastAction l d in
  let oAction := mkAction (to_ActionType nActionType) (nBetSize l) in
  match GetGame m_mapGame (m_nGameType d) with
  | None => Ok (-1000, d)
  | Some pGame =>
      cur ← GetCurrentPlayerID m_nRobotID d;
      if negb (cur =? nActionUid) then Ok (-1001, d) else
      rc ← CheckAction pGame oAction d;
      if negb (rc =? 0) then Ok (-1002, d) else
      '(s, _) ← doAction pGame oAction (match_state d);
      Ok (0, set_ActionSeq (u8 (m_nActionSeq d + 1)) (set_match_state s d))
  end.

(** ** The end of a hand *)

(** The entries of the record that is saved, by the names of the JSON object. *)
Record HistPlayer := mkHP { role_id : Z; score : Z; position : Z; money : Z; is_robot : Z; role_name : list Z }.
Record HistAction := mkHA { ha_position : Z; ha_action : Z; ha_size : Z }.
Record History := mkHistory {
  hi_players : list HistPlayer; hi_rounds : list (Z * list HistAction);
  hi_hole : list (list (Z * Z)); hi_board : list (Z * Z);
  hi_room_id : Z; hi_room_name : list Z; hi_game_type : Z; hi_player_numbers : Z; hi_hand_id : Z;
  hi_game_time : Z; hi_trans_id : list Z; hi_cfr_model : list Z }.

(** Suit and rank. *)
Definition card_json (nCard : Z) : Z * Z := (suitOfCard nCard, rankOfCard nCard).

Definition action_json (s : State) (i j : Z) : res HistAction :=
  p ← rd2 (actingPlayer s) i j;
  a ← rd2 (action s) i j;
  Ok (mkHA p (ActionType_code (type a)) (GameDef.size a)).

(** The rounds up to the first without an action. *)
Definition rounds_json (s : State) : res (list (Z * list HistAction)) :=
  o ← forR 0 (round s + 1) [] (λ i rounds,
    n ← rd (numActions s) i;
    if n =? 0 then Ok (inr rounds) else
    acts ← for_ 0 n [] (λ j acts, a ← action_json s i j; Ok (acts ++ [a]));
    Ok (inl (rounds ++ [(i, acts)])));
  Ok (match o with inl r => r | inr r => r end).

Definition make_history (szTransID : list Z) (m_nRobotID now : Z) (pGame : Game) (d : GameData) : res History :=
  let s := match_state d in
  let v := viewingPlayer (m_oMatchState d) in
  lost ← i32 (-1 * m_nRobotResult d);
  other ← c_rem (v + 1) 2;
  let player := mkHP (m_nPlayerID d) lost other (m_nPlayerScore d) 0 (bytes "Player_" ++ dec_signed (m_nPlayerID d)) in
  let robot := mkHP m_nRobotID (m_nRobotResult d) v (m_nRobotScore d) 1 (bytes "Robot_" ++ dec_signed m_nRobotID) in
  rounds ← rounds_json s;
  hole ← for_ 0 (numPlayers pGame) [] (λ i hole,
    cards ← for_ 0 (numHoleCards pGame) [] (λ j cards, c ← rd2 (holeCards s) i j; Ok (cards ++ [card_json c]));
    Ok (hole ++ [cards]));
  nBoardCardCount ← sumBoardCards pGame (numRounds pGame);
  board ← for_ 0 nBoardCardCount [] (λ i board, c ← rd (boardCards s) i; Ok (board ++ [card_json c]));
  Ok (mkHistory [player; robot] rounds hole board (m_nLocalRoomID d) (m_szRoomID d) (m_nGameType d)
        (numPlayers pGame) (handId s) (u32 (now - m_nGameTime d)) szTransID (m_szCfrModel d)).

(** [LLen] and [LPush] are what redis answers; the result is what is returned, the data
    and the record that was pushed. *)
Definition SaveHistory (szTransID : list Z) (m_nRobotID now LLen LPush : Z) (pGame : Game) (d : GameData) : res (bool * GameData * option History) :=
  if m_nUnsaveHistory conf =? 1 then Ok (true, d, None) else
  oJGame ← make_history szTransID m_nRobotID now pGame d;
  let d := if 100000 <? m_nHistoryCnt d then set_HistoryCnt LLen d else d in
  if 100000 <? m_nHistoryCnt d then Ok (false, d, None) else
  Ok (true, set_HistoryCnt LPush d, Some oJGame).

(** A [ThirdGameEndNotify]. *)
Record GameEnd := mkEnd { robotresult : Z; player_cards : list Z; end_board_cards : list Z }.

Section Finish.
Context {D : Type} `{FD : Value.Double D} (to_int : D → res Z).

Definition DoFinished (szTransID : list Z) (m_nRobotID now LLen LPush : Z) (rank0 spent0 : list Z) (pb : GameEnd) (d : GameData)
  : res (Z * GameData * option History) :=
  if m_nAlreadySaveHistory d =? 1 then Ok (0, d, None) else
  if negb (nz (stateFinished (match_state d))) then Ok (-99, d, None) else
  match GetGame m_mapGame (m_nGameType d) with
  | None => Ok (-98, d, None)
  | Some pGame =>
      let v := viewingPlayer (m_oMatchState d) in
      nPlayer ← c_rem (v + 1) 2;
      '(rc, d) ← put_hole nPlayer (player_cards pb) (Z.min (Z.of_nat (length (player_cards pb))) 2) (-102) d;
      if negb (rc =? 0) then Ok (rc, d, None) else
      '(rc, d) ← put_board (end_board_cards pb) (Z.min 5 (Z.of_nat (length (end_board_cards pb)))) 0 (-103) d;
      if negb (rc =? 0) then Ok (rc, d, None) else
      '(_, _) ← printStateDetailed pGame (match_state d) 255 0 (replicate 256 0);
      value ← valueOfState rank0 spent0 pGame (match_state d) v;
      m_nRobotResult ← to_int value;
      let d := set_RobotResult m_nRobotResult d in
      sc ← i32 (m_nRobotScore d + m_nRobotResult);
      let d := set_RobotScore sc d in
      sc ← i32 (m_nPlayerScore d - m_nRobotResult);
      let d := set_PlayerScore sc d in
      '(saved, d, h) ← SaveHistory szTransID m_nRobotID now LLen LPush pGame d;
      if negb (saved : bool) then Ok (-112, d, None) else
      Ok (0, set_AlreadySaveHistory 1 d, h)
  end.
End Finish.

(** ** Asking the robot *)

(** A message to a strategy server. *)
Record CfrMessage := mkMsg { cm_server : Z; cm_text : list Z; cm_robot : Z }.

(** [free_node] says whether the queue has a node for the message; the result carries the
    robot's state and the message sent. *)
Definition RequestActionFromCfr (szTransID : list Z) (m_nRobotID : Z) (connected : Z → bool) (free_node : bool) (x : rb_state)
    (d : GameData) : res (Z * rb_state * option CfrMessage) :=
  if negb (m_nRunState d =? GRS_OK) then Ok (-1000, x, None) else
  cur ← GetCurrentPlayerID m_nRobotID d;
  if negb (cur =? m_nRobotID) then Ok (-1001, x, None) else
  if negb (connected (m_nCfrServerID d)) then Ok (-1002, x, None) else
  match GetGame m_mapGame (m_nGameType d) with
  | None => Ok (-1002, x, None)
  | Some pGame =>
      '(len, _) ← printMatchState pGame (m_oMatchState d) 500 0 (replicate 512 0);
      if len <? 0 then Ok (-3, x, None) else
      '(flag, action_info) ← GetActionInfo (m_oMatchState d) ActionInfo_new;
      if negb (flag =? 0) then Ok (-101, x, None) else
      let '(flag, node_info) := GetNode bt (action_seq action_info) (mkNode (-1) 0 0 []) in
      if negb (flag =? 0) then Ok (-102, x, None) else
      match GetCfrServer conf (m_szCfrModel d) with
      | None => Ok (-112, x, None)
      | Some pCfrServer =>
          '(x, flag, cfr_key) ← rb_GetKey x (oModelParam pCfrServer) action_info node_info (mkKey (-1) (-1) (-1) (-1) (-1));
          if negb (flag =? 0) then Ok (-103, x, None) else
          '(_, strCfrRequest) ← ConvertKeyToRequestStr cfr_key (strVersion pCfrServer);
          info_text ← ToString action_info;
          if negb free_node then Ok (-105, x, None) else
          '(_, szBuf) ← snprintf (replicate 1024 0) 0 1023
            (bytes "QUERY_ACTION#TransID=" ++ szTransID ++ bytes "#KEY=" ++ strCfrRequest ++ bytes "#ActionInfo=" ++ info_text
             ++ bytes "#RoleID=" ++ dec (m_nLocalRoleID d) ++ bytes "#RoomID=" ++ dec (m_nLocalRoomID d)
             ++ bytes "#RobotID=" ++ dec_signed m_nRobotID ++ bytes "#HandID=" ++ dec (GetHandID d)
             ++ bytes "#Round=" ++ dec (GetRound d) ++ bytes "#ActionSeq=" ++ dec (m_nActionSeq d) ++ bytes "#" ++ [13; 10]);
          Ok (0, x, Some (mkMsg (m_nCfrServerID d) (cstr szBuf) m_nRobotID))
      end
  end.

(** The code, the data, the robot's state and the message sent; the text [strOut] of the
    answer is not kept. *)
Definition DoQueryRobotAction (szTransID : list Z) (m_nRobotID now : Z) (connected : Z → bool) (free_node : bool) (x : rb_state)
    (d : GameData) : res (Z * GameData * rb_state * option CfrMessage) :=
  cur ← GetCurrentPlayerID m_nRobotID d;
  if negb (cur =? m_nRobotID) then
    '(rc, vRaises) ← GetAllowRaises d;
    if negb (rc =? 0) then Ok (-1900, d, x, None) else
    '(_, _) ← foldM (λ n, add_text (raise_text n)) vRaises (0, replicate 256 0);
    Ok (-1901, d, x, None)
  else
    '(nRet, x, msg) ← RequestActionFromCfr szTransID m_nRobotID connected free_node x d;
    if negb (nRet =? 0) then Ok (-20000 + nRet, d, x, None) else
    Ok (0, set_RunState GRS_WAIT_ROBOT_ACTION (set_RequestActionTime now d), x, msg).

(** A [ThirdGameQueryStateRsp]. *)
Record QueryStateRsp := mkRsp { rsp_finished : Z; next_turn_id : Z; rsp_round : Z; allow_raise : list Z }.

Definition SerializeQueryState (m_nRobotID : Z) (d : GameData) (pbRsp : QueryStateRsp) : res (Z * QueryStateRsp) :=
  if nz (stateFinished (match_state d)) then
    Ok (0, mkRsp 1 (next_turn_id pbRsp) (rsp_round pbRsp) (allow_raise pbRsp))
  else
  '(rc, vRaises) ← GetAllowRaises d;
  if negb (rc =? 0) then Ok (-901, pbRsp) else
  nNextTurnID ← GetCurrentPlayerID m_nRobotID d;
  if nNextTurnID <=? 0 then Ok (-902, pbRsp) else
  Ok (0, mkRsp 0 nNextTurnID (GetRound d) (allow_raise pbRsp ++ vRaises)).
End Session.
