(* ===== verification/SessionThm.v ===== *)
(** * Theorems on sessions

    Whatever the client sends, a session stays at a position of a hand that the betting
    engine accepts, and nothing it does faults. *)

From stdpp Require Import base list list_numbers numbers option strings sets gmap.
From S2P Require Import Prelude GameDef Betting BettingSpec BettingInv BettingStep BettingKeep BettingInit BettingThm BettingCards Deal StateEq EvalTables Eval EvalOrder Text Print Read RoundTrip GameFile GameFileThm HashTable RunGameMap BotGame Robot Double Select RobotThm SelectThm BettingTree MatchConv InfoText ParamHandle SessionData Session.
Open Scope Z_scope.

(** The raise a child of a node of the betting tree stands for. *)
Definition raise_of (v : list Z) : option Z :=
  match v with
  | x :: ((_ :: _) as t) => if x =? 114 then match stoi t with Ok n => Some n | Err _ => None end else None
  | _ => None
  end.
(** The amount after [r] is a number, and name and amount fit the 32 bytes they are logged in. *)
Definition child_ok (v : list Z) : Prop :=
  match v with
  | x :: ((_ :: _) as t) => x = 114 → ∃ n, stoi t = Ok n ∧ (length (allow_text v n) ≤ 31)%nat
  | _ => True
  end.

(** ** Texts that are put together in a buffer *)
Lemma stoi_range t n : stoi t = Ok n → INT32_MIN ≤ n ≤ INT32_MAX.
Proof.
  unfold stoi. intros (o & _ & E)%bind_Ok_inv. destruct o as [[[neg v] k]|]; [|done].
  destruct (Z.leb_spec INT32_MIN (if neg then - v else v)); [|done]. destruct (Z.leb_spec (if neg then - v else v) INT32_MAX); [|done]. injection E as <-. done.
Qed.

(** [szTemp] holds a text of [len] bytes and has room for another one. *)
Definition log_ok (st : Z * list Z) : Prop := length st.2 = 256%nat ∧ holds_str st.2 st.1 ∧ st.1 ≤ 230.

Lemma log_start : log_ok (0, replicate 256 0).
Proof. split; [done|]. split; [|cbn; lia]. split; [cbn; lia|]. exists [], (replicate 255 0). split; [done|]. split; [done|constructor]. Qed.

Lemma add_text_ok t st : log_ok st → Forall (λ ch, ch ≠ 0) t → (length t ≤ 31)%nat → ∃ st', add_text t st = Ok st' ∧ log_ok st'.
Proof.
  destruct st as [len sz]. intros (L & Hs & Hn) Ht Hl. cbn [fst snd] in *. unfold add_text. rewrite (strlen_holds sz len Hs), bind_ok.
  destruct (Z.ltb_spec len 200); [|exists (len, sz); done]. destruct Hs as (H0 & u & rest & E & Lu & Hu).
  destruct (snprintf_ok sz len 32 t) as (sz' & -> & W & L' & _); [lia|lia|lia|]. specialize (W ltac:(lia)). rewrite bind_ok, i32_ok, bind_ok by (unfold INT32_MIN, INT32_MAX; lia).
  eexists. split; [done|]. split; [cbn; lia|]. cbn [fst snd]. split; [|lia]. split; [lia|].
  exists (u ++ t), (drop (Z.to_nat len + length (t ++ [0])) sz'). split; [|split; [rewrite length_app; lia|by apply Forall_app]].
  rewrite <-(take_drop (Z.to_nat len + length (t ++ [0])) sz') at 1. rewrite (ws_text _ _ _ _ W), E. rewrite take_app_length' by lia. by rewrite <-!app_assoc.
Qed.

Lemma allow_nonzero v n : INT32_MIN ≤ n ≤ INT32_MAX → Forall (λ ch, ch ≠ 0) (allow_text v n).
Proof.
  intros Hn. unfold allow_text. rewrite !Forall_app. split; [|split; [repeat constructor; lia|split; [by apply dec_signed_nonzero|repeat constructor; lia]]].
  induction v as [|x v IH]; cbn; [constructor|]. destruct (Z.eqb_spec x 0); constructor; done.
Qed.

Lemma raise_text_ok n : INT32_MIN ≤ n ≤ INT32_MAX → Forall (λ ch, ch ≠ 0) (raise_text n) ∧ (length (raise_text n) ≤ 31)%nat.
Proof.
  intros Hn. unfold raise_text. split.
  - constructor; [done|]. apply Forall_app. split; [by apply dec_signed_nonzero|repeat constructor; lia].
  - cbn [length]. rewrite length_app. cbn [length]. pose proof (dec_signed_short n Hn). lia.
Qed.

Lemma raise_texts l st : Forall (λ n, INT32_MIN ≤ n ≤ INT32_MAX) l → log_ok st → ∃ st', foldM (λ n, add_text (raise_text n)) l st = Ok st' ∧ log_ok st'.
Proof.
  intros Hl. revert st. induction Hl as [|n l Hn _ IH]; intros st Hst; [by exists st|]. cbn [foldM]. destruct (raise_text_ok n Hn) as [H1 H2].
  destruct (add_text_ok (raise_text n) st Hst H1 H2) as (st1 & -> & Hst1). rewrite bind_ok. by apply IH.
Qed.

(** The search of [CheckAction]. *)
Lemma find_raise z l st : Forall (λ n, INT32_MIN ≤ n ≤ INT32_MAX) l → log_ok st →
  ∃ o, foldR (λ n st, if n =? z then Ok (inr tt) else st ← add_text (raise_text n) st; Ok (inl st)) l st = Ok o ∧ ((∃ st', o = inl st') ↔ z ∉ l).
Proof.
  intros Hl. revert st. induction Hl as [|n l Hn _ IH]; intros st Hst; cbn [foldR].
  - exists (inl st). split; [done|]. split; [intros _; apply not_elem_of_nil|by exists st].
  - destruct (Z.eqb_spec n z) as [->|Hne]; rewrite ?bind_ok.
    + exists (inr tt). split; [done|]. split; [by intros [? ?]|]. intros Hz. exfalso. apply Hz. left.
    + destruct (raise_text_ok n Hn) as [H1 H2]. destruct (add_text_ok (raise_text n) st Hst H1 H2) as (st1 & -> & Hst1). rewrite !bind_ok.
      destruct (IH st1 Hst1) as (o & -> & Ho). exists o. split; [done|]. rewrite Ho, not_elem_of_cons. naive_solver.
Qed.

(** The raises the tree has at a position. *)
Definition raises_at (bt : CBettingTree) (s : State) : option (list Z) :=
  let '(flag, node) := GetNode bt (seqText s) (mkNode (-1) 0 0 []) in
  if flag =? 0 then Some (omap raise_of (child_node_ node)) else None.

Definition node_fits (n : NodeInfo) : Prop := Forall child_ok (child_node_ n) ∧ Z.of_nat (length (child_node_ n)) ≤ 255.

(** The game that is played and the tree, as they are loaded at the start. *)
Record session_game (m_mapGame : gmap Z Game) (bt : CBettingTree) (g : Game) : Prop := {
  sg_game : GetGame m_mapGame GAME_TYPE_NOLIMIT_2P = Some g;
  sg_wf : wf_game g;
  sg_deal : wf_deal g;
  sg_two : numPlayers g = 2;
  sg_nolimit : bettingType g = noLimitBetting;
  sg_tree : ∀ k n, m_BTHashTable bt !! k = Some n → node_fits n }.

(** A session after [k] actions of hand [h], with the robot in its seat. *)
Record hand_at (g : Game) (h : Z) (k : nat) (s : State) (d : GameData) : Prop := {
  ha_type : m_nGameType d = GAME_TYPE_NOLIMIT_2P;
  ha_id : 0 ≤ h < 4294967296;
  ha_view : 0 ≤ viewingPlayer (m_oMatchState d) < 2;
  ha_seq : m_nActionSeq d = u8 (Z.of_nat k);
  ha_hand : ∃ s0, starts g h s0 ∧ steps g k s0 s;
  ha_state : ∃ hc bc, match_state d = with_cards hc bc s ∧ card_arrays hc bc ∧
    Forall (Forall is_card) hc ∧ Forall is_card bc }.

Section Hand.
Context (m_mapGame : gmap Z Game) (bt : CBettingTree) (g : Game) (SG : session_game m_mapGame bt g).
Context (h : Z) (k : nat) (s : State) (d : GameData) (H : hand_at g h k s d).

Lemma hand_inv : inv g s.
Proof. destruct (ha_hand _ _ _ _ _ H) as (s0 & Hs & St). by apply (steps_inv g h s0 k s (sg_wf _ _ _ SG)). Qed.

Lemma hand_round : GetRound d = round s.
Proof. destruct (ha_state _ _ _ _ _ H) as (hc & bc & E & _). unfold GetRound. by rewrite E. Qed.

(** The player to act, by his id. *)
Definition turn_id (m_nRobotID p : Z) : Z := if p =? viewingPlayer (m_oMatchState d) then m_nRobotID else m_nPlayerID d.

Lemma GetCurrentPlayerID_ok m_nRobotID : finished s = 0 →
  ∃ p, currentPlayer g s = Ok p ∧ 0 ≤ p < 2 ∧ actingb g s p = true ∧
    GetCurrentPlayerID m_mapGame m_nRobotID d = Ok (turn_id m_nRobotID p).
Proof.
  intros Open. destruct (current_exists g s (sg_wf _ _ _ SG) hand_inv Open) as (p & _ & Hc & Hp & Ha).
  rewrite (sg_two _ _ _ SG) in Hp. exists p. split_and!; [done|lia|lia|done|].
  destruct (ha_state _ _ _ _ _ H) as (hc & bc & E & _). unfold GetCurrentPlayerID. rewrite E.
  unfold stateFinished. change (finished (with_cards hc bc s)) with (finished s). rewrite Open. cbn [nz Z.eqb negb].
  rewrite (ha_type _ _ _ _ _ H), (sg_game _ _ _ SG), currentPlayer_cards, Hc, bind_ok, (sg_two _ _ _ SG).
  rewrite (proj2 (Z.leb_gt _ _)) by lia. done.
Qed.

Lemma finished_ID m_nRobotID : finished s ≠ 0 → GetCurrentPlayerID m_mapGame m_nRobotID d = Ok 0.
Proof.
  intros Hf. destruct (ha_state _ _ _ _ _ H) as (hc & bc & E & _). unfold GetCurrentPlayerID. rewrite E.
  unfold stateFinished, nz. change (finished (with_cards hc bc s)) with (finished s). by rewrite (proj2 (Z.eqb_neq _ 0)).
Qed.

Lemma info_at : ∃ info, GetActionInfo (m_oMatchState d) ActionInfo_new = Ok (0, info) ∧ action_seq info = seqText s ∧
  info_st info = round s ∧ sized info.
Proof.
  destruct (ha_state _ _ _ _ _ H) as (hc & bc & E & C & _). pose proof hand_inv as I. pose proof (ha_view _ _ _ _ _ H).
  pose proof (is_round _ _ (inv_shape _ _ I)). pose proof (wg_rounds _ (sg_wf _ _ _ SG)).
  unfold match_state in E. destruct (m_oMatchState d) as [x v]. cbn [GameDef.state viewingPlayer] in *. subst x.
  destruct (GetActionInfo_ok (with_cards hc bc s) v ActionInfo_new) as (b & hp & Ei & Eh & Eb); try done.
  - apply with_cards_state; [done|]. apply (is_state _ _ (inv_shape _ _ I)).
  - cbn. lia.
  - intros r Hr. apply (inv_na _ _ I). cbn in Hr. lia.
  - lia.
  - eexists. split; [exact Ei|].
    split; [reflexivity|]. split; [reflexivity|].
    pose proof (ca_hole2 _ _ C (Z.to_nat v) ltac:(lia)). pose proof (ca_board _ _ C). split; cbn [board_cards hcp_cards].
    + rewrite Eb, length_app, length_take, length_drop. change (length (board_cards ActionInfo_new)) with 5%nat.
      change (boardCards (with_cards hc bc s)) with bc. change (round (with_cards hc bc s)) with (round s).
      assert (Z.to_nat (at_ STREET_BOARD_CNT (round s)) ≤ 5)%nat; [|lia].
      assert (round s = 0 ∨ round s = 1 ∨ round s = 2 ∨ round s = 3) as [-> | [-> | [-> | ->]]] by lia; vm_compute; lia.
    + rewrite Eh, length_take. change (holeCards (with_cards hc bc s)) with hc. unfold at_. lia.
Qed.

Lemma GetNode_fits seq : node_fits (snd (GetNode bt seq (mkNode (-1) 0 0 []))).
Proof.
  assert (Hn : node_fits (mkNode (-1) 0 0 [])) by (split; [constructor|cbn; lia]). unfold GetNode. destruct (_ =? 1); [|done].
  destruct (m_BTHashTable bt !! bt_key seq) as [x|] eqn:E; [|done]. by apply (sg_tree _ _ _ SG _ _ E).
Qed.

Lemma raises_loop l acc st : Forall child_ok l → log_ok st →
  ∃ st', foldM (λ v '(vRaises, st),
    match v with
    | x :: ((_ :: _) as t) =>
        if x =? 114 then n ← stoi t; st ← add_text (allow_text v n) st; Ok (vRaises ++ [n], st) else Ok (vRaises, st)
    | _ => Ok (vRaises, st)
    end) l (acc, st) = Ok (acc ++ omap raise_of l, st').
Proof.
  intros Hl. revert acc st. induction Hl as [|v l Hv _ IH]; intros acc st Hst; [exists st; by rewrite app_nil_r|]. cbn [foldM].
  unfold child_ok in Hv. destruct v as [|x [|y t]].
  - rewrite bind_ok. by apply IH.
  - rewrite bind_ok. by apply IH.
  - destruct (Z.eqb_spec x 114) as [->|Hx].
    + destruct (Hv eq_refl) as (n & En & Ln). rewrite En, bind_ok. destruct (add_text_ok (allow_text (114 :: y :: t) n) st Hst (allow_nonzero _ _ (stoi_range _ _ En)) Ln) as (st1 & -> & Hst1).
      rewrite !bind_ok. destruct (IH (acc ++ [n]) st1 Hst1) as (st' & E). exists st'. rewrite E. cbn [omap list_omap raise_of]. rewrite Z.eqb_refl, En. by rewrite <-app_assoc.
    + rewrite bind_ok. destruct (IH acc st Hst) as (st' & E). exists st'. rewrite E. cbn [omap list_omap raise_of]. by rewrite (proj2 (Z.eqb_neq x 114)).
Qed.

Lemma GetAllowRaises_ok :
  GetAllowRaises bt d = Ok (match raises_at bt s with Some l => (0, l) | None => (-102, []) end).
Proof.
  destruct info_at as (info & E & Es & _). unfold GetAllowRaises, raises_at. rewrite E, bind_ok, Es. cbn [Z.eqb negb].
  pose proof (GetNode_fits (seqText s)) as [Hc _].
  destruct (GetNode bt (seqText s) (mkNode (-1) 0 0 [])) as [flag node]. cbn [snd] in Hc.
  destruct (flag =? 0); cbn [negb]; [|done]. destruct (raises_loop (child_node_ node) [] (0, replicate 256 0) Hc log_start) as (st' & ->). done.
Qed.

Lemma raises_range l : raises_at bt s = Some l → Forall (λ n, INT32_MIN ≤ n ≤ INT32_MAX) l.
Proof.
  unfold raises_at. destruct (GetNode _ _ _) as [flag node]. destruct (flag =? 0); [|done]. intros [= <-]. apply Forall_forall. intros n Hn.
  apply list_elem_of_omap in Hn as (v & _ & Hv). destruct v as [|x [|y t]]; try done. cbn [raise_of] in Hv. destruct (x =? 114); [|done].
  destruct (stoi (y :: t)) as [m|] eqn:Em; [|done]. injection Hv as <-. by apply (stoi_range (y :: t)).
Qed.

(** ** Actions *)

(** The amount a message stands for: the robot names the amount it raises to, the player
    the amount he adds. *)
Definition raise_to (m_nRobotID nActionUid nBetNum : Z) : Z :=
  if nActionUid =? m_nRobotID then nBetNum else nBetNum + at_ (spent s) (1 - viewingPlayer (m_oMatchState d)).
Definition message_action (m_nRobotID nActionUid nActionType nBetNum : Z) : Action :=
  mkAction (to_ActionType nActionType) (if nActionType =? 2 then raise_to m_nRobotID nActionUid nBetNum else 0).
(** Raises must be in the tree. *)
Definition listed (a : Action) : bool :=
  match type a, raises_at bt s with
  | a_raise, Some l => bool_decide (GameDef.size a ∈ l)
  | a_raise, None => false
  | _, _ => true
  end.

(** Amounts that cannot overflow when a stack is added or taken off. *)
Definition bet_ok (nBetNum : Z) : Prop := -1073741823 ≤ nBetNum ≤ 1073741823.

Lemma hand_spent p : 0 ≤ p < 2 → rd (spent (match_state d)) p = Ok (at_ (spent s) p) ∧ 0 ≤ at_ (spent s) p ≤ 1073741823.
Proof.
  intros Hp. destruct (ha_state _ _ _ _ _ H) as (hc & bc & E & _). rewrite E. change (spent (with_cards hc bc s)) with (spent s).
  pose proof hand_inv as I. pose proof (ss_spent _ (is_state _ _ (inv_shape _ _ I))). pose proof (sg_two _ _ _ SG) as E2.
  destruct (ck_spent _ _ (inv_chips _ _ I) p ltac:(lia)) as [Hs _].
  pose proof (wg_nolimit _ (sg_wf _ _ _ SG) (sg_nolimit _ _ _ SG) p ltac:(lia)). unfold INT32_MAX in *.
  split; [by rewrite rd_ok by lia|lia].
Qed.

Lemma last_action_ok m_nRobotID nActionUid nActionType nBetNum : bet_ok nBetNum →
  ∃ l, last_action m_nRobotID nActionUid nActionType nBetNum d = Ok l ∧
    mkAction (to_ActionType nActionType) (nBetSize l) = message_action m_nRobotID nActionUid nActionType nBetNum.
Proof.
  intros Hb. unfold bet_ok in Hb. pose proof (ha_view _ _ _ _ _ H) as Hv. unfold last_action, message_action, raise_to.
  set (v := viewingPlayer (m_oMatchState d)) in *. destruct (nActionType =? 2); [|by eexists].
  destruct (nActionUid =? m_nRobotID).
  - destruct (hand_spent v ltac:(lia)) as [-> Hs]. rewrite bind_ok, i32_ok by (unfold INT32_MIN, INT32_MAX; lia). by eexists.
  - assert (c_rem (v + 1) 2 = Ok (1 - v)) as ->.
    { assert (v = 0 ∨ v = 1) as [-> | ->] by lia; reflexivity. }
    destruct (hand_spent (1 - v) ltac:(lia)) as [E Hs]. rewrite bind_ok, E, bind_ok, i32_ok by (unfold INT32_MIN, INT32_MAX; lia). by eexists.
Qed.

Lemma CheckAction_ok a : finished s = 0 → (type a = a_raise ∨ GameDef.size a = 0) →
  ∃ ok rc, isValidAction g s 0 a = Ok (ok, a) ∧ (ok = 0 ∨ ok = 1) ∧
    CheckAction bt g a d = Ok rc ∧ (rc = 0 ↔ ok = 1 ∧ listed a = true).
Proof.
  intros Open Hz. destruct (GetCurrentPlayerID_ok 0 Open) as (p & Hc & Hp & Ha & _). pose proof hand_inv as I.
  destruct (ha_state _ _ _ _ _ H) as (hc & bc & E & _).
  unfold CheckAction. rewrite E, GetAllowRaises_ok, isValidAction_cards.
  destruct (isValidAction_ok g s (sg_wf _ _ _ SG) I Open p Hc ltac:(rewrite (sg_two _ _ _ SG); lia) 0 a) as (ok & a' & Ev & Hok & Ht & _).
  assert (nz (stateFinished s) = false) as Hn by (unfold stateFinished; by rewrite Open).
  unfold listed. destruct a as [ty z]. cbn [type GameDef.size] in *. destruct ty.
  - destruct Hz as [| ->]; [done|]. exists 1, 0. split_and!; [|by right|done|done].
    unfold isValidAction. rewrite Hn. cbn [orb type]. rewrite bool_decide_false, Hc, bind_ok by done.
    destruct (hand_spent p ltac:(lia)) as [R _]. rewrite E in R. change (spent (with_cards hc bc s)) with (spent s) in R. rewrite R, bind_ok.
    pose proof (gs_stack _ (wg_shape _ (sg_wf _ _ _ SG))). rewrite rd_ok, bind_ok by lia.
    rewrite (proj2 (Z.eqb_neq _ _)); [done|]. unfold actingb, allinb in Ha. intros Eq. rewrite Eq, Z.leb_refl in Ha.
    by destruct (foldedb s p).
  - destruct Hz as [| ->]; [done|]. exists 1, 0. split_and!; [|by right|done|done].
    unfold isValidAction. rewrite Hn. cbn [orb type]. by rewrite bool_decide_false, Hc, bind_ok by done.
  - assert (a' = mkAction a_raise z) as ->.
    { revert Ev. unfold isValidAction. rewrite Hn. cbn [orb type]. rewrite bool_decide_false, Hc, bind_ok by done. intros Ev.
      inv_ok. destruct v as [[b lo] hi]. repeat case_match; simplify_eq; try done; by injection Ev. }
    rewrite Ev, bind_ok. destruct (Z.eqb_spec ok 0) as [->|Hne].
    { eexists 0, _. split_and!; [done|by left|done|]. lia. }
    rewrite bind_ok. destruct (raises_at bt s) as [l|] eqn:El.
    + cbn [Z.eqb negb GameDef.size]. destruct (find_raise z l (0, replicate 256 0) (raises_range l El) log_start) as (o & -> & Ho). rewrite bind_ok.
      eexists ok, _. split_and!; [done|done|reflexivity|]. destruct (bool_decide_reflect (z ∈ l)) as [Hin|Hin].
      * destruct o as [st'|[]]; [|lia]. exfalso. by apply (proj1 Ho); [exists st'|].
      * destruct (proj2 Ho Hin) as (st' & ->). split; [done|]. by intros [_ ?].
    + eexists ok, _. split_and!; [done|done|reflexivity|]. split; [done|]. by intros [_ ?].
  - exists 0, (-2). split_and!; [|by left|done|lia]. unfold isValidAction. rewrite bool_decide_true by done. by rewrite Hn.
Qed.
End Hand.

(** ** A message with an action *)
Section Act.
Context (m_mapGame : gmap Z Game) (bt : CBettingTree) (g : Game) (SG : session_game m_mapGame bt g).

Lemma hand_at_same h k s d d' : hand_at g h k s d → m_nGameType d' = m_nGameType d →
  m_oMatchState d' = m_oMatchState d → m_nActionSeq d' = m_nActionSeq d → hand_at g h k s d'.
Proof.
  intros [] E1 E2 E3. unfold match_state in *. split; unfold match_state; rewrite ?E1, ?E2, ?E3; done.
Qed.

Lemma u8_succ n : u8 (u8 n + 1) = u8 (n + 1).
Proof. unfold u8. by rewrite Zplus_mod_idemp_l. Qed.

Lemma message_sized s d r uid ty bet : type (message_action s d r uid ty bet) = a_raise ∨ GameDef.size (message_action s d r uid ty bet) = 0.
Proof. unfold message_action, to_ActionType. cbn. destruct (Z.eqb_spec ty 2) as [->|]; [by left|by right]. Qed.

Lemma DoAction_open h k s d r uid ty bet : hand_at g h k s d → finished s = 0 → bet_ok bet →
  ∃ p ok rc d', currentPlayer g s = Ok p ∧
    let a := message_action s d r uid ty bet in
    isValidAction g s 0 a = Ok (ok, a) ∧ DoAction m_mapGame bt r uid ty bet d = Ok (rc, d') ∧
    (rc = 0 ↔ turn_id d r p = uid ∧ ok = 1 ∧ listed bt s a = true) ∧
    (rc = 0 → ∃ s' e, doAction g a s = Ok (s', e) ∧ hand_at g h (S k) s' d') ∧
    (rc ≠ 0 → m_oMatchState d' = m_oMatchState d ∧ hand_at g h k s d').
Proof.
  intros H Open Hb. destruct (last_action_ok m_mapGame bt g SG h k s d H r uid ty bet Hb) as (l & El & Ea).
  set (a := message_action s d r uid ty bet) in *. set (d1 := set_oDLastAction l d).
  assert (H1 : hand_at g h k s d1) by (by apply (hand_at_same h k s d)).
  destruct (GetCurrentPlayerID_ok m_mapGame bt g SG h k s d1 H1 r Open) as (p & Hc & _ & _ & Ec).
  change (turn_id d1 r p) with (turn_id d r p) in Ec.
  destruct (CheckAction_ok m_mapGame bt g SG h k s d1 H1 a Open (message_sized _ _ _ _ _ _)) as (ok & rc & Ev & Hok & Er & Hrc).
  unfold DoAction. rewrite El, bind_ok, Ea. fold a. fold d1. rewrite (ha_type _ _ _ _ _ H1), (sg_game _ _ _ SG), Ec, bind_ok.
  destruct (Z.eqb_spec (turn_id d r p) uid) as [Et|Et]; cbn [negb].
  2: { exists p, ok, (-1001), d1. split_and!; try done. split; [done|]. by intros [? _]. }
  rewrite Er, bind_ok. destruct (Z.eqb_spec rc 0) as [Hz|Hz]; cbn [negb].
  2: { exists p, ok, (-1002), d1. split_and!; try done. split; [done|]. intros (_ & H2). by apply Hrc in H2. }
  apply Hrc in Hz as [-> Hl]. pose proof (hand_inv m_mapGame bt g SG h k s d H) as I. destruct (ha_hand _ _ _ _ _ H) as (s0 & Hs & St).
  destruct (ha_state _ _ _ _ _ H) as (hc & bc & E & C & Hcards).
  destruct (accepted_step g s 0 a a (sg_wf _ _ _ SG) I Ev) as (_ & p' & _ & _ & _ & m & f & _ & Ed).
  destruct (ended g _ m) as [s' e] eqn:Ee.
  pose proof (step_cards hc bc C g s s' 0 a a e (sg_wf _ _ _ SG) I Ev Ed) as Ed'.
  change (match_state d1) with (match_state d). rewrite E, Ed', bind_ok. eexists p, 1, 0, _. split_and!; try done.
  intros _. exists s', e. split; [done|]. split; [apply H|apply H|apply H| | |].
  - cbn. rewrite (ha_seq _ _ _ _ _ H), u8_succ. f_equal. lia.
  - exists s0. split; [done|]. econstructor; [done|]. by econstructor.
  - exists hc, bc. split_and!; try done; apply Hcards.
Qed.

Lemma DoAction_finished h k s d r uid ty bet : hand_at g h k s d → finished s ≠ 0 → bet_ok bet → uid ≠ 0 →
  ∃ d', DoAction m_mapGame bt r uid ty bet d = Ok (-1001, d') ∧ hand_at g h k s d'.
Proof.
  intros H Hf Hb Hu. destruct (last_action_ok m_mapGame bt g SG h k s d H r uid ty bet Hb) as (l & El & _).
  assert (H1 : hand_at g h k s (set_oDLastAction l d)) by (by apply (hand_at_same h k s d)).
  unfold DoAction. rewrite El, bind_ok, (ha_type _ _ _ _ _ H1), (sg_game _ _ _ SG), (finished_ID m_mapGame g h k s _ H1 r Hf), bind_ok.
  rewrite (proj2 (Z.eqb_neq 0 uid)) by done. by eexists.
Qed.
End Act.

(** ** Cards *)

Lemma ApgCardToLocal_card c : match ApgCardToLocal c with
  | (0, Some x) => is_card x
  | (rc, o) => rc ≠ 0 ∧ o = None
  end.
Proof.
  unfold ApgCardToLocal. set (r := getNNNum (s16 c)). set (t := getNNType (s16 c)).
  assert (∀ n, 0 ≤ n < 4 → match (if (r <? 2) || (14 <? r) then (-2, None) else (0, Some (makeCard (r - 2) n))) with
    | (0, Some x) => is_card x | (rc, o) => rc ≠ 0 ∧ o = None end) as Q.
  { intros n Hn. destruct (Z.ltb_spec r 2); [done|]. destruct (Z.ltb_spec 14 r); [done|]. cbn [orb].
    unfold is_card, makeCard, MAX_SUITS. lia. }
  destruct (t =? 0); [apply Q; lia|]. destruct (t =? 16); [apply Q; lia|]. destruct (t =? 32); [apply Q; lia|].
  destruct (t =? 48); [apply Q; lia|done].
Qed.

(** The card a message stands for. *)
Definition card_of (c : Z) : option Z := snd (ApgCardToLocal c).

Lemma put_cards_ok msg n cards o : 0 ≤ n ≤ Z.of_nat (length msg) → 0 ≤ o → o + n ≤ Z.of_nat (length cards) → Forall is_card cards →
  (∃ l, put_cards msg n cards o = Ok (inl l) ∧ (length l = length cards ∧ Forall is_card l) ∧
     ∀ j, 0 ≤ j < n → card_of (at_ msg j) = Some (at_ l (o + j))) ∨
  (∃ l, put_cards msg n cards o = Ok (inr l) ∧ (length l = length cards ∧ Forall is_card l) ∧ ∃ j, 0 ≤ j < n ∧ card_of (at_ msg j) = None).
Proof.
  intros Hn Ho Hl Hc. unfold put_cards.
  match goal with |- context [forR _ _ _ ?b] =>
    destruct (forR_inv (λ i l, (length l = length cards ∧ Forall is_card l) ∧ ∀ j, 0 ≤ j < i → card_of (at_ msg j) = Some (at_ l (o + j)))
      (λ l, (length l = length cards ∧ Forall is_card l) ∧ ∃ j, 0 ≤ j < n ∧ card_of (at_ msg j) = None) 0 n cards b) as [(l & E & Hl')|(l & E & Hl')] end.
  - lia.
  - split; [done|]. intros; lia.
  - intros i l Hi ((L & F) & Hj). rewrite rd_ok, bind_ok by lia. unfold put_card. pose proof (ApgCardToLocal_card (at_ msg i)) as Q.
    destruct (ApgCardToLocal (at_ msg i)) as [rc x] eqn:E. destruct (decide (rc = 0)) as [->|Hrc].
    + destruct x as [x|]; [|by destruct Q]. rewrite wr_ok, bind_ok by lia. cbn [Z.eqb]. left. eexists. split; [done|].
      split; [split; [by rewrite length_insert|by apply Forall_insert]|]. intros j Hj'. rewrite at_insert by lia.
      case_decide as Ej; [|apply Hj; lia]. assert (j = i) as -> by lia. unfold card_of. by rewrite E.
    + assert (x = None) as -> by (destruct rc; try done; by destruct Q).
      right. exists l. destruct rc; try done; rewrite bind_ok; (split; [done|]; split; [done|]; exists i; split; [done|]; unfold card_of; by rewrite E).
  - left. exists l. rewrite E. by destruct Hl'.
  - right. by exists l.
Qed.

Section Put.
Context (g : Game) (h : Z) (k : nat) (s : State) (d : GameData) (H : hand_at g h k s d).

(** A session with other cards. *)
Definition recarded (hc : list (list Z)) (bc : list Z) : GameData := set_match_state (with_cards hc bc s) d.

Lemma recarded_at hc bc : card_arrays hc bc → Forall (Forall is_card) hc → Forall is_card bc → hand_at g h k s (recarded hc bc).
Proof. intros C Fh Fb. split; [apply H|apply H|apply H|apply H|apply H|]. by exists hc, bc. Qed.

Lemma put_board_ok msg n o err : err ≠ 0 → 0 ≤ n ≤ Z.of_nat (length msg) → 0 ≤ o → o + n ≤ 7 →
  ∃ rc hc bc, put_board msg n o err d = Ok (rc, recarded hc bc) ∧ hand_at g h k s (recarded hc bc) ∧ (rc = 0 ∨ rc = err ∧ ∃ j, 0 ≤ j < n ∧ card_of (at_ msg j) = None) ∧
    hc = holeCards (match_state d) ∧ (rc = 0 → ∀ j, 0 ≤ j < n → card_of (at_ msg j) = Some (at_ bc (o + j))).
Proof.
  intros He Hn Ho Hl. destruct (ha_state _ _ _ _ _ H) as (hc & bc & E & C & Fh & Fb). unfold put_board. rewrite E.
  change (boardCards (with_cards hc bc s)) with bc. pose proof (ca_board _ _ C) as Lb.
  assert (∀ l, length l = 7%nat → card_arrays hc l) as Q by (intros l Ll; split; [apply C..|done]).
  destruct (put_cards_ok msg n bc o) as [(l & -> & (L & F) & Hj)|(l & -> & (L & F) & Hj)]; try (done || lia); rewrite bind_ok.
  - exists 0, hc, l. split; [done|]. split; [apply recarded_at; [apply Q; congruence|done..]|]. split; [by left|]. split; [done|]. intros _. exact Hj.
  - exists err, hc, l. split; [done|]. split; [apply recarded_at; [apply Q; congruence|done..]|]. split; [by right|]. by split.
Qed.

Lemma put_hole_ok p msg n err : err ≠ 0 → 0 ≤ p < 10 → 0 ≤ n ≤ Z.of_nat (length msg) → n ≤ 3 →
  ∃ rc hc bc, put_hole p msg n err d = Ok (rc, recarded hc bc) ∧ hand_at g h k s (recarded hc bc) ∧ (rc = 0 ∨ rc = err ∧ ∃ j, 0 ≤ j < n ∧ card_of (at_ msg j) = None) ∧
    bc = boardCards (match_state d) ∧ (∀ q, 0 ≤ q → q ≠ p → at_ hc q = at_ (holeCards (match_state d)) q) ∧
    (rc = 0 → ∀ j, 0 ≤ j < n → card_of (at_ msg j) = Some (at2 hc p j)).
Proof.
  intros He Hp Hn Hl. destruct (ha_state _ _ _ _ _ H) as (hc & bc & E & C & Fh & Fb). unfold put_hole. rewrite E.
  change (holeCards (with_cards hc bc s)) with hc. change (boardCards (with_cards hc bc s)) with bc.
  pose proof (ca_hole _ _ C) as Lh. pose proof (ca_hole2 _ _ C (Z.to_nat p) ltac:(lia)) as L3. fold (at_ hc p) in L3.
  rewrite rd_ok, bind_ok by lia.
  assert (Forall is_card (at_ hc p)) as Fp.
  { destruct (lookup_lt_is_Some_2 hc (Z.to_nat p)) as [row Er]; [lia|]. unfold at_. rewrite (list_lookup_total_correct _ _ _ Er). by eapply Forall_lookup_1. }
  assert (∀ l, length l = 3%nat → Forall is_card l → hand_at g h k s (recarded (<[Z.to_nat p := l]> hc) bc)) as Q.
  { intros l Ll Fl. apply recarded_at; [|by apply Forall_insert|done]. split; [by rewrite length_insert| |apply C].
    intros q Hq. destruct (decide (q = Z.to_nat p)) as [->|].
    - by rewrite list_lookup_total_insert_eq by lia.
    - rewrite list_lookup_total_insert_ne by done. by apply C. }
  assert (∀ l q, 0 ≤ q → q ≠ p → at_ (<[Z.to_nat p := l]> hc) q = at_ hc q) as Q2.
  { intros l q Hq Hne. rewrite at_insert by lia. by rewrite decide_False by done. }
  destruct (put_cards_ok msg n (at_ hc p) 0) as [(l & -> & (L & F) & Hj)|(l & -> & (L & F) & Hj)]; try (done || lia); rewrite bind_ok, wr_ok, bind_ok by lia.
  - exists 0, (<[Z.to_nat p := l]> hc), bc. split; [done|]. split; [apply Q; [congruence|done]|]. split; [by left|]. split; [done|]. split; [apply Q2|]. intros _ j Hj'.
    rewrite Hj by done. unfold at2. rewrite at_insert by lia. by rewrite decide_True by lia.
  - exists err, (<[Z.to_nat p := l]> hc), bc. split; [done|]. split; [apply Q; [congruence|done]|]. split; [by right|]. split; [done|]. split; [apply Q2|done].
Qed.
End Put.

(** ** The text of the position *)

Lemma cards_at l i : Forall is_card l → is_card (at_ l i).
Proof.
  intros F. unfold at_. destruct (l !! Z.to_nat i) as [x|] eqn:E.
  - rewrite (list_lookup_total_correct _ _ _ E). by eapply Forall_lookup_1.
  - rewrite list_lookup_total_alt, E. done.
Qed.

Lemma at2_card hc p i : Forall (Forall is_card) hc → is_card (at2 hc p i).
Proof.
  intros F. apply cards_at. unfold at_. destruct (hc !! Z.to_nat p) as [row|] eqn:E.
  - rewrite (list_lookup_total_correct _ _ _ E). by eapply Forall_lookup_1.
  - rewrite list_lookup_total_alt, E. constructor.
Qed.

(** Stacks of nine digits: the sizes of raises fit the detailed text. *)
Definition short_stacks (g : Game) : Prop := ∀ p, 0 ≤ p < numPlayers g → at_ (stack g) p < 1000000000.

(** The raises of a no-limit hand are to at most a stack. *)
Lemma raise_sizes g h s0 k s : wf_game g → bettingType g = noLimitBetting → starts g h s0 → steps g k s0 s →
  ∀ r i, 0 ≤ r < numRounds g → 0 ≤ i < at_ (numActions s) r → type (at2 (action s) r i) = a_raise →
  ∃ p, 0 ≤ p < numPlayers g ∧ 0 ≤ GameDef.size (at2 (action s) r i) ≤ at_ (stack g) p.
Proof.
  intros Wf NL Hs St. induction St as [s0|k s0 s s' St IH Hst]; intros r i Hr Hi Ht.
  - destruct (starts_inv g h s0 Wf Hs) as [_ F]. rewrite (fh_na _ _ _ _ F) in Hi by done. lia.
  - pose proof (steps_inv g h s0 k s Wf Hs St) as I. pose proof (step_open _ _ _ Hst) as Open. destruct (step_inv g s s' Wf I Hst) as (p & a & m & f & Hcur & Va & M & ->).
    destruct (ended_fields g (applied g s a p) m) as (_ & _ & _ & En & _ & Ea & _). rewrite En in Hi. rewrite Ea in Ht |- *.
    destruct (current_exists g s Wf I Open) as (p' & Hfirst & Hcur' & Hp & _). assert (p' = p) as -> by congruence.
    destruct (inv_open _ _ I Open) as (_ & m0 & f0 & BW & Hlt). assert (Room : na s < 64) by (by eapply turn_room). pose proof (inv_shape _ _ I) as Sh.
    pose proof (is_round _ _ Sh). pose proof (is_na _ _ Sh). pose proof (wg_rounds _ Wf). pose proof (len_action_row g s Sh). pose proof (ss_action _ (is_state _ _ Sh)).
    rewrite numActions_applied in Hi by (done || lia). cbn [applied action] in Ht |- *. rewrite at2_upd2 in Ht |- * by lia. revert Ht. destruct (decide (round s = r ∧ na s = i)) as [Hd|Hd]; intros Ht; cbn [type GameDef.size] in *.
    + rewrite Ht. unfold valid_act in Va. rewrite Ht in Va. destruct Va as (lo & hi & Er & Hz). specialize (Hz NL). exists p. split; [done|]. unfold raiseRange in Er. rewrite NL in Er.
      destruct (ck_max _ _ (inv_chips _ _ I)) as (q & Hq & Eq). pose proof (ck_spent _ _ (inv_chips _ _ I) q Hq). pose proof (ck_nolimit _ _ (inv_chips _ _ I) NL).
      repeat case_match; simplify_eq; lia.
    + destruct (decide (round s = r)) as [<-|Hne]; [|by apply IH]. apply (IH Hs); [done| |done]. unfold na in *. assert (i ≠ at_ (numActions s) (round s)) by (intros ->; by apply Hd). lia.
Qed.

Section Shown.
Context (m_mapGame : gmap Z Game) (bt : CBettingTree) (g : Game) (SG : session_game m_mapGame bt g) (Short : short_stacks g).

Lemma detailed_ok h k s d : hand_at g h k s d → ∃ r buf, printStateDetailed g (match_state d) 255 0 (replicate 256 0) = Ok (r, buf).
Proof.
  intros H. destruct (ha_state _ _ _ _ _ H) as (hc & bc & E & C & Fh & Fb). destruct (ha_hand _ _ _ _ _ H) as (s0 & Hs & St). rewrite E.
  pose proof (hand_inv m_mapGame bt g SG h k s d H) as I. pose proof (sg_two _ _ _ SG) as Two. pose proof (is_round _ _ (inv_shape _ _ I)) as Hrd.
  apply printStateDetailed_ok; change (spent (with_cards hc bc s)) with (spent s); change (round (with_cards hc bc s)) with (round s); change (numActions (with_cards hc bc s)) with (numActions s);
    change (actingPlayer (with_cards hc bc s)) with (actingPlayer s); change (action (with_cards hc bc s)) with (action s); change (handId (with_cards hc bc s)) with (handId s); try done.
  - destruct C as [L1 L2 L3]. apply (comparable_sc g h s0 k s (sg_wf _ _ _ SG) (sg_deal _ _ _ SG) Hs St hc bc L1); [|done]. intros p Hp. unfold at_. apply L2. lia.
  - intros p Hp. destruct (hand_spent m_mapGame bt g SG h k s d H p Hp) as [_ Hsp]. unfold INT32_MIN, INT32_MAX. lia.
  - intros r i Hr Hi. destruct (inv_hist _ _ I r i ltac:(lia) Hi) as [_ Hp]. split; [lia|]. intros Ht.
    destruct (raise_sizes g h s0 k s (sg_wf _ _ _ SG) (sg_nolimit _ _ _ SG) Hs St r i ltac:(lia) Hi Ht) as (p & Hq & Hz). specialize (Short p Hq). lia.
  - intros p c _ Hc. unfold handOf in Hc. apply list_elem_of_fmap in Hc as (j & -> & _). by apply at2_card.
  - intros i c _ Hc. unfold boardOf in Hc. apply list_elem_of_fmap in Hc as (j & -> & _). by apply cards_at.
  - rewrite (steps_handId g h s0 k s (sg_wf _ _ _ SG) Hs St). apply H.
Qed.
End Shown.

(** ** The messages of a hand *)

(** The cards of a message are where the round has its cards. *)
Definition saved (pb : SendCards) (d : GameData) : Prop :=
  if sc_round pb =? 0 then
    ∀ j, 0 ≤ j < 2 → card_of (at_ (robot_cards pb) j) = Some (at2 (holeCards (match_state d)) (viewingPlayer (m_oMatchState d)) j)
  else
    ∀ j, 0 ≤ j < (if sc_round pb =? 1 then 3 else 1) →
      card_of (at_ (sc_board_cards pb) j) = Some (at_ (boardCards (match_state d)) ((if sc_round pb =? 1 then 0 else sc_round pb + 1) + j)).

Section Messages.
Context (m_mapGame : gmap Z Game) (bt : CBettingTree) (g : Game) (SG : session_game m_mapGame bt g).

Lemma DoSaveCards_ok h k s d pb : short_stacks g → hand_at g h k s d →
  ∃ rc d', DoSaveCards m_mapGame pb d = Ok (rc, d') ∧ hand_at g h k s d' ∧ (rc = 0 → sc_round pb = round s ∧ saved pb d').
Proof.
  intros Short H. unfold DoSaveCards. rewrite (hand_round g h k s d H).
  destruct (Z.eqb_spec (sc_round pb) (round s)) as [Er|]; cbn [negb]; [|by exists (-101), d].
  set (d1 := set_TRobotRoundSeq 0 d). assert (H1 : hand_at g h k s d1) by (by apply (hand_at_same g h k s d)).
  assert (Q : ∀ rc d2, hand_at g h k s d2 → (rc = 0 → saved pb d2) →
    ∃ rc' d', (if negb (rc =? 0) then Ok (rc, d2) else
      match GetGame m_mapGame (m_nGameType d2) with None => Ok (-1, d2) | Some pGame => '(_, _) ← printStateDetailed pGame (match_state d2) 255 0 (replicate 256 0); Ok (0, d2) end) = Ok (rc', d') ∧
      hand_at g h k s d' ∧ (rc' = 0 → sc_round pb = round s ∧ saved pb d')).
  { intros rc d2 Hd HS. destruct (Z.eqb_spec rc 0) as [->|Hne]; cbn [negb].
    - rewrite (ha_type _ _ _ _ _ Hd), (sg_game _ _ _ SG). destruct (detailed_ok m_mapGame bt g SG Short h k s d2 Hd) as (r & buf & ->). rewrite bind_ok. exists 0, d2. auto.
    - exists rc, d2. split; [done|]. split; [done|]. by intros ->. }
  pose proof (ha_view _ _ _ _ _ H1) as Hv. unfold saved in Q.
  destruct (_ && _) eqn:E0; [|clear E0; destruct (_ && _) eqn:E1; [|clear E1; destruct (_ && _) eqn:E2; [|clear E2; destruct (_ && _) eqn:E3]]].
  - apply andb_prop in E0 as [E0%Z.eqb_eq L%Nat.eqb_eq].
    destruct (put_hole_ok g h k s d1 H1 (viewingPlayer (m_oMatchState d1)) (robot_cards pb) 2 (-102)) as (rc & hc & bc & -> & Hd & _ & _ & _ & Hj); try lia.
    rewrite bind_ok. apply (Q _ _ Hd). by rewrite E0.
  - apply andb_prop in E1 as [E0%Z.eqb_eq L%Nat.eqb_eq].
    destruct (put_board_ok g h k s d1 H1 (sc_board_cards pb) 3 0 (-103)) as (rc & hc & bc & -> & Hd & _ & _ & Hj); try lia.
    rewrite bind_ok. apply (Q _ _ Hd). by rewrite E0.
  - apply andb_prop in E2 as [E0%Z.eqb_eq L%Nat.eqb_eq].
    destruct (put_board_ok g h k s d1 H1 (sc_board_cards pb) 1 3 (-104)) as (rc & hc & bc & -> & Hd & _ & _ & Hj); try lia.
    rewrite bind_ok. apply (Q _ _ Hd). by rewrite E0.
  - apply andb_prop in E3 as [E0%Z.eqb_eq L%Nat.eqb_eq].
    destruct (put_board_ok g h k s d1 H1 (sc_board_cards pb) 1 4 (-105)) as (rc & hc & bc & -> & Hd & _ & _ & Hj); try lia.
    rewrite bind_ok. apply (Q _ _ Hd). by rewrite E0.
  - exists (-110), d1. split; [done|]. split; [done|]. done.
Qed.

Lemma DoRunMatch_ok m_nRobotID now nHandID nBankerID d : 0 ≤ nHandID < 4294967296 →
  ∃ s0 d', DoRunMatch m_mapGame m_nRobotID now nHandID nBankerID d = Ok (0, d') ∧ starts g nHandID s0 ∧ hand_at g nHandID 0 s0 d' ∧
    viewingPlayer (m_oMatchState d') = (if nBankerID =? m_nRobotID then 1 else 0) ∧ m_nRunState d' = GRS_OK ∧ m_nAlreadySaveHistory d' = 0.
Proof.
  intros Hh. destruct (initState_ok g (sg_wf _ _ _ SG) nHandID zero_state zero_state_shape) as (s0 & E & F).
  unfold DoRunMatch. cbn [m_nGameType set_GameType]. rewrite (sg_game _ _ _ SG).
  change (initState g nHandID (set_handId nHandID zero_state)) with (initState g nHandID zero_state). rewrite E, bind_ok.
  eexists s0, _. split; [done|]. split; [done|]. split; [|done]. split; [done|done| |done| |].
  - cbn. destruct (_ =? _); lia.
  - exists s0. split; [done|constructor].
  - destruct (steps_cards g nHandID s0 0 s0 (sg_wf _ _ _ SG) E (steps_zero g s0)) as [E1 E2].
    exists (holeCards s0), (boardCards s0). rewrite E1, E2. split; [by destruct s0; cbn in *; subst|].
    split; [split; [done| |done]|].
    + intros p Hp. cbn [zero_state holeCards]. by rewrite lookup_total_replicate_2 by done.
    + split; repeat constructor; done.
Qed.
End Messages.

(** ** Asking the robot *)
Lemma snprintf_buf n sz t : 0 ≤ sz ≤ Z.of_nat n → sz < 18446744073709551616 → ∃ r buf, snprintf (replicate n 0) 0 sz t = Ok (r, buf).
Proof.
  intros Hs Hb. destruct (snprintf_ok (replicate n 0) 0 sz t) as (buf & E & _); [lia|lia|rewrite length_replicate; lia|]. eauto.
Qed.

Section Query.
Context `{RA : RobotApi} `{!RobotOk RA}.
Context (m_mapGame : gmap Z Game) (bt : CBettingTree) (g : Game) (SG : session_game m_mapGame bt g) (conf : CAPGIConf).
Context (h : Z) (k : nat) (s : State) (d : GameData) (H : hand_at g h k s d).

Lemma print_ok : ∃ len buf, printMatchState g (m_oMatchState d) 500 0 (replicate 512 0) = Ok (len, buf).
Proof.
  destruct (ha_state _ _ _ _ _ H) as (hc & bc & E & C & Fh & Fb). destruct (ha_hand _ _ _ _ _ H) as (s0 & Hs & St).
  unfold match_state in E. pose proof (ha_view _ _ _ _ _ H) as Hv. destruct (m_oMatchState d) as [x v]. cbn [GameDef.state viewingPlayer] in *. subst x.
  destruct (printMatchState_prints g h s0 k s (sg_wf _ _ _ SG) (sg_deal _ _ _ SG) Hs St hc bc (ca_hole _ _ C)) with (v := v) (maxLen := 500) (o := 0) (buf := replicate 512 0)
    as [(_ & buf & -> & _)|(_ & buf & -> & _)]; eauto.
  - intros p Hp. unfold at_. apply (ca_hole2 _ _ C). lia.
  - apply C.
  - split.
    + intros p c _ Hc. unfold handOf in Hc. apply list_elem_of_fmap in Hc as (j & -> & _). by apply at2_card.
    + intros i c _ Hc. unfold boardOf in Hc. apply list_elem_of_fmap in Hc as (j & -> & _). by apply cards_at.
  - apply (ha_id _ _ _ _ _ H).
  - rewrite (sg_two _ _ _ SG). lia.
  - unfold room. rewrite length_replicate. lia.
  - lia.
Qed.

Lemma current_total m_nRobotID : ∃ c, GetCurrentPlayerID m_mapGame m_nRobotID d = Ok c.
Proof.
  destruct (decide (finished s = 0)) as [Hf|Hf].
  - destruct (GetCurrentPlayerID_ok m_mapGame bt g SG h k s d H m_nRobotID Hf) as (p & _ & _ & _ & E). eauto.
  - rewrite (finished_ID m_mapGame g h k s d H m_nRobotID Hf). eauto.
Qed.

(** The strategy server was asked, in turn and once. *)
Definition asked (m_nRobotID : Z) (connected : Z → bool) (o : option CfrMessage) : Prop :=
  m_nRunState d = GRS_OK ∧ GetCurrentPlayerID m_mapGame m_nRobotID d = Ok m_nRobotID ∧
  connected (m_nCfrServerID d) = true ∧ ∃ t, o = Some (mkMsg (m_nCfrServerID d) t m_nRobotID).

Lemma RequestActionFromCfr_ok szTransID m_nRobotID connected free_node x : rb_ok x →
  ∃ rc x' o, RequestActionFromCfr m_mapGame bt conf szTransID m_nRobotID connected free_node x d = Ok (rc, x', o) ∧ rb_ok x' ∧ rc ≤ 0 ∧
    (rc ≠ 0 → o = None) ∧
    (rc = 0 → asked m_nRobotID connected o).
Proof.
  intros Hx. unfold RequestActionFromCfr.
  assert (Q : ∀ rc x', rb_ok x' → rc < 0 → ∃ rc' x'' o, Ok (rc, x', None) = Ok (rc', x'', o) ∧ rb_ok x'' ∧ rc' ≤ 0 ∧ (rc' ≠ 0 → o = None) ∧
    (rc' = 0 → asked m_nRobotID connected o)).
  { intros rc x' Hx' Hne. exists rc, x', None. split; [done|]. split; [done|]. split; [lia|]. split; [done|]. lia. }
  destruct (Z.eqb_spec (m_nRunState d) GRS_OK) as [Er|]; cbn [negb]; [|by apply Q].
  destruct (current_total m_nRobotID) as (c & Ec).
  rewrite Ec, bind_ok. destruct (Z.eqb_spec c m_nRobotID) as [->|]; cbn [negb]; [|by apply Q].
  destruct (connected (m_nCfrServerID d)) eqn:En; cbn [negb]; [|by apply Q].
  rewrite (ha_type _ _ _ _ _ H), (sg_game _ _ _ SG). destruct print_ok as (len & buf & ->). rewrite bind_ok.
  destruct (len <? 0); [by apply Q|]. destruct (info_at m_mapGame bt g SG h k s d H) as (info & -> & _ & Es & Hz). rewrite bind_ok. cbn [Z.eqb negb].
  pose proof (GetNode_fits m_mapGame bt g SG (action_seq info)) as [_ Hn]. destruct (GetNode bt _ _) as [flag node]. cbn [snd] in Hn.
  destruct (flag =? 0); cbn [negb]; [|by apply Q]. destruct (GetCfrServer conf (m_szCfrModel d)) as [srv|]; [|by apply Q].
  pose proof (is_round _ _ (inv_shape _ _ (hand_inv m_mapGame bt g SG h k s d H))). pose proof (wg_rounds _ (sg_wf _ _ _ SG)).
  destruct (key_total x (oModelParam srv) info node (mkKey (-1) (-1) (-1) (-1) (-1)) Hx Hz ltac:(lia) Hn) as (x' & f & key & -> & Hx'). rewrite bind_ok.
  destruct (f =? 0); cbn [negb]; [|by apply Q]. unfold ConvertKeyToRequestStr.
  edestruct (snprintf_buf 1024 1024) as (r1 & b1 & ->); [lia..|]. rewrite !bind_ok. unfold ToString.
  edestruct (snprintf_buf 128 127) as (r2 & b2 & ->); [lia..|]. rewrite !bind_ok.
  destruct free_node; cbn [negb]; [|by apply Q].
  edestruct (snprintf_buf 1024 1023) as (r3 & b3 & ->); [lia..|]. rewrite !bind_ok.
  eexists 0, x', _. split; [done|]. split; [done|]. split; [done|]. split; [done|]. intros _. split_and!; try done. by eexists.
Qed.

Lemma DoQueryRobotAction_ok szTransID m_nRobotID now connected free_node x : rb_ok x →
  ∃ rc d' x' o, DoQueryRobotAction m_mapGame bt conf szTransID m_nRobotID now connected free_node x d = Ok (rc, d', x', o) ∧
    rb_ok x' ∧ hand_at g h k s d' ∧ m_oMatchState d' = m_oMatchState d ∧ (rc ≠ 0 → d' = d ∧ o = None) ∧
    (rc = 0 → m_nRunState d' = GRS_WAIT_ROBOT_ACTION ∧ asked m_nRobotID connected o).
Proof.
  intros Hx. unfold DoQueryRobotAction.
  destruct (RequestActionFromCfr_ok szTransID m_nRobotID connected free_node x Hx) as (rc & x' & o & -> & Hx' & Hle & Hne & Heq).
  destruct (current_total m_nRobotID) as (c & Ec).
  rewrite Ec, bind_ok. destruct (Z.eqb_spec c m_nRobotID) as [->|]; cbn [negb].
  - rewrite bind_ok. destruct (Z.eqb_spec rc 0) as [->|Hr]; cbn [negb].
    + eexists 0, _, x', _. split; [done|]. split; [done|]. split; [by apply (hand_at_same g h k s d)|]. split; [done|]. split; [done|]. auto.
    + eexists _, d, x', None. split; [done|]. do 3 (split; [done|]). split; [done|]. lia.
  - rewrite (GetAllowRaises_ok m_mapGame bt g SG h k s d H), bind_ok. destruct (raises_at bt s) as [l|] eqn:El; cbn [Z.eqb negb].
    + destruct (raise_texts l (0, replicate 256 0) (raises_range bt s l El) log_start) as ([len sz] & -> & _). rewrite bind_ok.
      eexists _, d, x, None; split; [done|]; do 3 (split; [done|]); by split.
    + eexists _, d, x, None; split; [done|]; do 3 (split; [done|]); by split.
Qed.
End Query.

(** ** A session from its first hand on *)

(** What a client can send between two hands' ends. *)
Inductive message :=
  | MBegin (now nHandID nBankerID : Z)
  | MCards (pb : SendCards)
  | MAction (nActionUid nActionType nBetNum : Z)
  | MQuery (szTransID : list Z) (now : Z) (connected : Z → bool) (free_node : bool).

(** Ids are 32 bits wide, nobody has id 0, and amounts are below two stacks of the largest size. *)
Definition message_ok (m : message) : Prop :=
  match m with
  | MBegin _ nHandID _ => 0 ≤ nHandID < 4294967296
  | MAction nActionUid _ nBetNum => nActionUid ≠ 0 ∧ bet_ok nBetNum
  | _ => True
  end.

(** What the table may do: a new hand, or a step of the betting engine. *)
Inductive moves (g : Game) : Z * State → Z * State → Prop :=
  | moves_deal h s h' s' : starts g h' s' → moves g (h, s) (h', s')
  | moves_act h s s' : step g s s' → moves g (h, s) (h, s').

Section Trace.
Context `{RA : RobotApi} `{!RobotOk RA}.
Context (m_mapGame : gmap Z Game) (bt : CBettingTree) (conf : CAPGIConf) (m_nRobotID : Z).

(** The messages to the strategy server are collected in [out]. *)
Definition receive (m : message) (st : GameData * rb_state * list CfrMessage) : res (GameData * rb_state * list CfrMessage) :=
  let '(d, x, out) := st in
  match m with
  | MBegin now nHandID nBankerID => '(_, d) ← DoRunMatch m_mapGame m_nRobotID now nHandID nBankerID d; Ok (d, x, out)
  | MCards pb => '(_, d) ← DoSaveCards m_mapGame pb d; Ok (d, x, out)
  | MAction uid ty bet => '(_, d) ← DoAction m_mapGame bt m_nRobotID uid ty bet d; Ok (d, x, out)
  | MQuery szTransID now connected free_node =>
      '(_, d, x, o) ← DoQueryRobotAction m_mapGame bt conf szTransID m_nRobotID now connected free_node x d;
      Ok (d, x, out ++ option_list o)
  end.

Context (g : Game) (SG : session_game m_mapGame bt g) (Short : short_stacks g).

Lemma receive_ok m h k s d x out : message_ok m → hand_at g h k s d → rb_ok x →
  ∃ h' k' s' d' x' out', receive m (d, x, out) = Ok (d', x', out') ∧ hand_at g h' k' s' d' ∧ rb_ok x' ∧ rtc (moves g) (h, s) (h', s').
Proof.
  intros Hm H Hx. destruct m as [now hid bid|pb|uid ty bet|tid now conn fn]; cbn [receive message_ok] in *.
  - destruct (DoRunMatch_ok m_mapGame bt g SG m_nRobotID now hid bid d Hm) as (s0 & d' & -> & Hs & H' & _). rewrite bind_ok.
    eexists hid, 0%nat, s0, d', x, out. split_and!; try done. by apply rtc_once, moves_deal.
  - destruct (DoSaveCards_ok m_mapGame bt g SG h k s d pb Short H) as (rc & d' & -> & H' & _). rewrite bind_ok.
    by eexists h, k, s, d', x, out.
  - destruct Hm as [Hu Hb]. destruct (decide (finished s = 0)) as [Hf|Hf].
    + destruct (DoAction_open m_mapGame bt g SG h k s d m_nRobotID uid ty bet H Hf Hb) as (p & ok & rc & d' & _ & Ev & -> & Hrc & H0 & H1).
      rewrite bind_ok. destruct (decide (rc = 0)) as [Hz|Hz].
      * destruct (H0 Hz) as (s' & e & Ed & H'). eexists h, (S k), s', d', x, out. split_and!; try done.
        apply rtc_once, moves_act. apply Hrc in Hz as (_ & -> & _). by econstructor.
      * destruct (H1 Hz) as [_ H']. by eexists h, k, s, d', x, out.
    + destruct (DoAction_finished m_mapGame bt g SG h k s d m_nRobotID uid ty bet H Hf Hb Hu) as (d' & -> & H'). rewrite bind_ok.
      by eexists h, k, s, d', x, out.
  - destruct (DoQueryRobotAction_ok m_mapGame bt g SG conf h k s d H tid m_nRobotID now conn fn x Hx) as (rc & d' & x' & o & -> & Hx' & H' & _).
    rewrite bind_ok. by eexists h, k, s, d', x', _.
Qed.

(** C33: A session follows the betting engine.  After the first hand has begun, on data of any
    contents, every sequence of begins, cards, actions and queries is received without a
    fault; the position it ends in is one that the betting engine reaches from the last deal
    by accepted actions, with the robot in a seat and cards in the card arrays, and the
    number of actions in the hand is the action sequence modulo 256.  Hand ids have 32 bits,
    acting players have an id other than 0 and amounts of at most 1073741823 ([message_ok]);
    the game is a playable no-limit game of two with stacks below 10^9, and the raises that
    the betting tree lists are numbers whose text fits the log ([session_game]). *)
Theorem session_follows_engine now nHandID nBankerID ms d x out :
  0 ≤ nHandID < 4294967296 → Forall message_ok ms → rb_ok x →
  ∃ s0 h k s d' x' out', starts g nHandID s0 ∧
    foldM receive (MBegin now nHandID nBankerID :: ms) (d, x, out) = Ok (d', x', out') ∧
    rtc (moves g) (nHandID, s0) (h, s) ∧ hand_at g h k s d' ∧ rb_ok x'.
Proof.
  intros Hid Hms Hx. destruct (DoRunMatch_ok m_mapGame bt g SG m_nRobotID now nHandID nBankerID d Hid) as (s0 & d1 & E & Hs & H & _).
  cbn [foldM receive]. rewrite E, bind_ok. clear E. exists s0. rewrite bind_ok.
  cut (∃ h k s d' x' out', foldM receive ms (d1, x, out) = Ok (d', x', out') ∧ rtc (moves g) (nHandID, s0) (h, s) ∧ hand_at g h k s d' ∧ rb_ok x').
  { intros (h & k & s & d' & x' & out' & Q). by exists h, k, s, d', x', out'. }
  clear Hs Hid. revert H. generalize nHandID at 1 2, 0%nat, s0, d1. clear nHandID s0 d1. intros h k s d1 H. revert h k s d1 x out H Hx.
  induction Hms as [|m ms Hm _ IH]; intros h k s d1 x out H Hx; [by eexists h, k, s, d1, x, out|].
  cbn [foldM]. destruct (receive_ok m h k s d1 x out Hm H Hx) as (h1 & k1 & s1 & d2 & x2 & out2 & -> & H1 & Hx2 & M). rewrite bind_ok.
  destruct (IH h1 k1 s1 d2 x2 out2 H1 Hx2) as (h' & k' & s' & d' & x' & out' & E & M' & Q).
  exists h', k', s', d', x', out'. split; [done|]. split; [by etrans|done].
Qed.
End Trace.

(** ** Actions and queries *)

(** C34: An action of a client, for a player with an id other than 0 (see
    [id_zero_acts_after_end]) and with an amount of at most 1073741823, counts exactly when it is that player's turn, the betting engine
    accepts it and, for a raise, the betting tree lists its size at this position.  Then it
    is carried out by the engine and the session stands one action further; otherwise an
    error is returned and the position stays. *)
Theorem action_accepted_iff m_mapGame bt g h k s d m_nRobotID uid ty bet :
  session_game m_mapGame bt g → hand_at g h k s d → bet_ok bet → uid ≠ 0 →
  let a := message_action s d m_nRobotID uid ty bet in
  ∃ rc d', DoAction m_mapGame bt m_nRobotID uid ty bet d = Ok (rc, d') ∧
    (rc = 0 ↔ finished s = 0 ∧ (∃ p, currentPlayer g s = Ok p ∧ turn_id d m_nRobotID p = uid) ∧
       isValidAction g s 0 a = Ok (1, a) ∧ listed bt s a = true) ∧
    (rc = 0 → ∃ s' e, doAction g a s = Ok (s', e) ∧ hand_at g h (S k) s' d') ∧
    (rc ≠ 0 → hand_at g h k s d').
Proof.
  intros SG H Hb Hu a. subst a. destruct (decide (finished s = 0)) as [Hf|Hf].
  - destruct (DoAction_open m_mapGame bt g SG h k s d m_nRobotID uid ty bet H Hf Hb) as (p & ok & rc & d' & Hc & Ev & E & Hrc & H0 & H1).
    exists rc, d'. split; [done|]. split; [|split; [done|by apply H1]]. rewrite Hrc. split.
    + intros (Ht & -> & Hl). split_and!; try done. by exists p.
    + intros (_ & (p' & Hc' & Ht) & Ev' & Hl). assert (p' = p) as -> by congruence. split; [done|]. split; [|done].
      rewrite Ev' in Ev. by injection Ev.
  - destruct (DoAction_finished m_mapGame bt g SG h k s d m_nRobotID uid ty bet H Hf Hb Hu) as (d' & E & H').
    exists (-1001), d'. split; [done|]. split_and!; try done. split; [done|]. by intros [? _].
Qed.


(** ** A concrete session *)

(** One hand of heads-up no-limit; the robot (id 9) has the button and acts first.  The tree
    has the root and the position after a raise to 6. *)
Definition demo_games : gmap Z Game := {[ GAME_TYPE_NOLIMIT_2P := nolimit2p ]}.
Definition demo_bt : CBettingTree :=
  mkBTree 2 1 {[ bt_key [] := mkNode 0 0 1 [bytes "f"; bytes "c"; bytes "r6"]; bt_key (bytes "r6") := mkNode 1 0 0 [bytes "f"; bytes "c"; bytes "r24"] ]}.
Definition blank_data : GameData :=
  mkData 0 [] 5 0 0 0 0 0 0 0 0 1 (bytes "m") (mkParam [] [] [] [] []) (mkMatchState zero_state 0) 0 0 0 0 0 0 0 (mkLast 0 0 0).
Definition demo_conf : CAPGIConf :=
  mkConf [bytes "m"] {[ bytes "m" := mkCfr (mkModel [] false []) 1 (bytes "v1") ]} 1 10.

(** A robot that always answers with the same key. *)
Definition demo_robot : RobotApi :=
  Build_RobotApi unit (λ x _ _ _ _, Ok (x, 0, mkKey 0 0 1 0 3)) (λ x _ _ _ node _, Ok (x, 0, (λ a, (a, [])) <$> list.head (child_node_ node))).
Lemma demo_robot_ok : RobotOk demo_robot.
Proof.
  refine (Build_RobotOk demo_robot (λ _, True) _ _).
  - intros. by eexists _, _, _.
  - intros x p mp info node vals _ _ _ _ Hno. destruct (child_node_ node) as [|a l] eqn:E.
    + pose proof (no_size _ _ _ Hno). pose proof (no_some _ _ _ Hno). unfold Select.size in *. cbn in *. lia.
    + eexists _, _, _. split; [done|]. split; [done|]. intros _. exists a, []. cbn. rewrite E. split; [done|]. by left.
Defined.

Lemma nolimit2p_deal : wf_deal nolimit2p.
Proof. check_deal. Qed.

Lemma demo_session : session_game demo_games demo_bt nolimit2p.
Proof.
  split; [reflexivity|exact nolimit2p_wf|exact nolimit2p_deal|reflexivity..|].
  intros key n E. cbn [demo_bt m_BTHashTable] in E. apply lookup_insert_Some in E as [[_ <-]|[_ E]].
  - split; [|cbn; lia]. repeat constructor. intros _. exists 6. split; [done|]. vm_compute. lia.
  - apply lookup_singleton_Some in E as [_ <-]. split; [|cbn; lia]. repeat constructor. intros _. exists 24. split; [done|]. vm_compute. lia.
Qed.

Lemma demo_stacks : short_stacks nolimit2p.
Proof. intros p Hp. change (numPlayers nolimit2p) with 2 in Hp. assert (p = 0 ∨ p = 1) as [-> | ->] by lia; vm_compute; reflexivity. Qed.

Definition demo_data : GameData :=
  match DoRunMatch demo_games 9 100 7 9 blank_data with Ok (_, d) => d | Err _ => blank_data end.
Lemma demo_at : hand_at nolimit2p 7 0 (started nolimit2p) demo_data.
Proof.
  destruct (DoRunMatch_ok demo_games demo_bt nolimit2p demo_session 9 100 7 9 blank_data ltac:(lia)) as (s0 & d' & E & Hs & H & _).
  unfold demo_data. rewrite E. assert (s0 = started nolimit2p) as <-; [|done]. unfold starts in Hs.
  assert (initState nolimit2p 7 zero_state = Ok (started nolimit2p)) by (vm_compute; reflexivity). congruence.
Qed.

Lemma session_follows_engine_witness : ∃ s0 h k s d' x' out',
  starts nolimit2p 7 s0 ∧
  foldM (@receive demo_robot demo_games demo_bt demo_conf 9)
    [MBegin 100 7 9; MCards (mkCards 0 [2; 30] []); MQuery [] 100 (λ _, true) true; MAction 9 2 6; MAction 5 1 0] (blank_data, tt, []) = Ok (d', x', out') ∧
  rtc (moves nolimit2p) (7, s0) (h, s) ∧ hand_at nolimit2p h k s d'.
Proof.
  destruct (@session_follows_engine demo_robot demo_robot_ok demo_games demo_bt demo_conf 9 nolimit2p demo_session demo_stacks 100 7 9
    [MCards (mkCards 0 [2; 30] []); MQuery [] 100 (λ _, true) true; MAction 9 2 6; MAction 5 1 0] blank_data tt [])
    as (s0 & h & k & s & d' & x' & out' & Hs & E & M & H & _).
  - lia.
  - repeat constructor; cbn; lia || (unfold bet_ok; lia).
  - exact I.
  - exists s0, h, k, s, d', x', out'. auto.
Defined.

(** It is the robot's turn: its raise to 6 is carried out, its raise to 7 is not in the tree. *)
Lemma action_accepted_iff_witness : ∃ d' s' e,
  DoAction demo_games demo_bt 9 9 2 6 demo_data = Ok (0, d') ∧
  doAction nolimit2p (r_ 6) (started nolimit2p) = Ok (s', e) ∧ hand_at nolimit2p 7 1 s' d' ∧
  ∃ d2, DoAction demo_games demo_bt 9 9 2 7 demo_data = Ok (-1002, d2).
Proof.
  destruct (action_accepted_iff demo_games demo_bt nolimit2p 7 0 (started nolimit2p) demo_data 9 9 2 6 demo_session demo_at)
    as (rc & d' & E & Hrc & H0 & _); [unfold bet_ok; lia|lia|].
  assert (rc = 0) as ->.
  { apply Hrc. split; [vm_compute; reflexivity|]. split; [exists 1; split; vm_compute; reflexivity|]. split; vm_compute; reflexivity. }
  destruct (H0 eq_refl) as (s' & e & Ed & H'). exists d', s', e. split; [exact E|]. split; [exact Ed|]. split; [exact H'|].
  eexists. vm_compute. reflexivity.
Defined.

