(* ===== verification/SessionEnd.v ===== *)
(** * The end of a hand in a session

    [DoFinished] enters the cards shown at the end, values the hand and keeps the score. *)

From Stdlib Require Import QArith Qcanon SpecFloat.
From stdpp Require Import base list list_numbers numbers option strings sets gmap.
From S2P Require Import Prelude GameDef Betting BettingSpec BettingInv BettingStep BettingKeep BettingInit BettingThm BettingCards Deal StateEq EvalTables Eval EvalOrder Value ValueThm HandValue Text Print Read RoundTrip GameFile HashTable RunGameMap BotGame Robot Double Select RobotThm SelectThm BettingTree MatchConv InfoText ParamHandle SessionData Session SessionThm.
Open Scope Z_scope.

(** ** Heads up, values are integers *)

(** The conversion of the value to [int], towards zero. *)
Definition int_of (q : Qc) : res Z := i32 (Z.quot (Qnum q) (Zpos (Qden q))).

Lemma int_of_qz z : INT32_MIN ≤ z ≤ INT32_MAX → int_of (qz z) = Ok z.
Proof.
  intros Hz. unfold int_of, qz. cbn [this Q2Qc]. rewrite Qred_identity; [|cbn; apply Z.gcd_1_r]. cbn [Qnum Qden inject_Z].
  rewrite Z.quot_1_r. by apply i32_ok.
Qed.

Lemma delta_int l e : (length l ≤ 2)%nat → e ∈ l → ∃ z, delta l e = qz z.
Proof.
  intros Hl He. unfold delta. destruct (Z.eqb_spec e.2 (bestRank l)) as [E|]; [|exists (- potSize l); by rewrite qz_opp].
  assert (0 < winners l).
  { unfold winners. assert (In e (List.filter (λ e, e.2 =? bestRank l) l)) as Hin.
    { apply filter_In. split; [by apply list_elem_of_In|lia]. }
    destruct (List.filter _ l); [done|cbn; lia]. }
  pose proof (winners_le l). destruct (decide (winners l = 1)) as [->|].
  - exists (potSize l * (Z.of_nat (length l) - 1)). change (qz 1) with 1%Qc. field. by apply (qz_nonzero 1).
  - exists 0. assert (winners l = Z.of_nat (length l)) as <- by lia. rewrite Z.sub_diag, Z.mul_0_r. change (qz 0) with 0%Qc.
    unfold Qcdiv. apply Qcmult_0_l.
Qed.

Lemma payoff_int B fuel l i : (length l ≤ 2)%nat → (length l ≤ fuel)%nat → payable B l → B ≤ INT32_MAX → (i < length l)%nat →
  ∃ z, payoff fuel l i 0%Qc = qz z.
Proof.
  revert l i. induction fuel as [|fuel IH]; intros l i H2 Hf Hp HB Hi; [lia|]. rewrite payoff_step by done.
  destruct (delta_int l (l !!! i) H2) as (z & ->); [apply list_elem_of_lookup_total_2; lia|].
  destruct (Z.eqb_spec (l !!! i).1 (potSize l)) as [E|E]; cbn [negb]; [exists z; by rewrite Qcplus_0_r|].
  rewrite cnt_remain by lia.
  destruct (remain_at (potSize l) l (Z.of_nat i) ltac:(lia)) as [Ea Hl]; unfold at_ in *; rewrite ?Nat2Z.id in *; [done|].
  destruct (potSize_in l) as (e' & He' & E'); [intros x Hx; specialize (Hp x Hx); lia|by intros ->; cbn in Hi; lia|].
  pose proof (remain_shorter _ l e' He' E').
  destruct (IH (remain (potSize l) l) (length (remain (potSize l) (list.take i l))) ltac:(lia) ltac:(lia) (remain_payable B l Hp) HB Hl) as (z' & ->).
  exists (z + z'). by rewrite qz_add.
Qed.

Lemma pay_int g s B p : settled g s B → numPlayers g = 2 → 0 ≤ p < 2 → ∃ z, pay g s p = qz z ∧ - at_ (spent s) p ≤ z ≤ at_ (spent s) (1 - p).
Proof.
  intros St N Hp.
  assert (Q : ∀ q, 0 ≤ q < 2 → ∃ z, pay g s q = qz z).
  { intros q Hq. unfold pay. destruct (foldedb s q) eqn:Fq; [exists (- at_ (spent s) q); by rewrite qz_opp|].
    destruct (Z.eqb_spec (nFolded g s + 1) (numPlayers g)) as [E|E].
    - unfold others, sp_. rewrite N. change (Z.to_nat 2) with 2%nat. cbn [sumQ]. rewrite Qcplus_0_l.
      repeat destruct (_ =? _); rewrite ?Qcplus_0_l, ?Qcplus_0_r, <-?qz_add; eauto.
    - assert (nFolded g s + 1 < numPlayers g)%Z as Hf.
      { pose proof (countZ_lt (foldedb s) (numPlayers g) q ltac:(lia) Fq). unfold nFolded in *. lia. }
      destruct (st_live _ _ _ St Hf q ltac:(lia) Fq) as [Sp _]. destruct (B_fits g s B St) as [HB _].
      destruct (entries_at g s (numPlayers g) q ltac:(lia)) as [Hl _]; [unfold in_pot; lia|].
      apply (payoff_int B); [|lia|apply (spent_payable g s B St)|done|done].
      unfold entries. rewrite length_fmap, N. pose proof (List.filter_length_le (in_pot s) (seqZ 0 2)) as L. exact L. }
  destruct (Q p Hp) as (z & E). destruct (Q (1 - p) ltac:(lia)) as (z' & E'). exists z. split; [done|].
  pose proof (pay_lower g s B p St ltac:(lia)) as L1. pose proof (pay_lower g s B (1 - p) St ltac:(lia)) as L2.
  pose proof (pay_zero_sum g s B St) as Hz. rewrite N in Hz. change (Z.to_nat 2) with 2%nat in Hz. cbn [sumQ] in Hz.
  assert (∀ a b, Qcle (qz a) (qz b) → a ≤ b) as Hle.
  { intros a b Hq. unfold Qcle, qz in Hq. cbn [Q2Qc this] in Hq. rewrite !Qred_correct in Hq. by rewrite <-Zle_Qle in Hq. }
  rewrite E, <-qz_opp in L1. rewrite E', <-qz_opp in L2. apply Hle in L1, L2.
  assert (z + z' = 0); [|lia].
  assert (qz (z + z') = 0%Qc) as Hq.
  { rewrite qz_add, <-E, <-E', <-Hz, Qcplus_0_l. assert (p = 0 ∨ p = 1) as [-> | ->] by lia; cbn; [done|]. apply Qcplus_comm. }
  destruct (decide (z + z' = 0)) as [|Hne]; [done|]. by apply qz_nonzero in Hq.
Qed.

(** ** The score *)
Lemma raiseTo_grows l b : b ≤ fold_left raiseTo l b.
Proof.
  revert b. induction l as [|a l IH]; intros b; cbn; [lia|]. etrans; [|apply IH]. unfold raiseTo. case_decide; [|lia].
  destruct (Z.ltb_spec b (GameDef.size a)); lia.
Qed.

Section Finish.
Context (m_mapGame : gmap Z Game) (bt : CBettingTree) (g : Game) (SG : session_game m_mapGame bt g) (Short : short_stacks g) (conf : CAPGIConf).
Context (Stacks : ∀ p, 0 ≤ p < 2 → 0 < at_ (stack g) p) (Blind : 0 < at_ (blind g) 0).

Lemma session_settled h k s d : hand_at g h k s d → finished s = 1 → settled g (match_state d) (maxSpent s).
Proof.
  intros H Hf. destruct (ha_state _ _ _ _ _ H) as (hc & bc & E & C & Fh & Fb). destruct (ha_hand _ _ _ _ _ H) as (s0 & Hs & St).
  pose proof (hand_inv m_mapGame bt g SG h k s d H) as I. pose proof (sg_two _ _ _ SG) as N. rewrite E.
  apply played_out_settled; [|by left]. split.
  - apply SG.
  - apply SG.
  - by exists h, s0, k.
  - done.
  - apply with_cards_state; [done|]. apply (is_state _ _ (inv_shape _ _ I)).
  - intros p c Hp Hc. unfold table_cards, handOf, visibleBoard in Hc. apply elem_of_app in Hc as [Hc|Hc];
      apply list_elem_of_fmap in Hc as (j & -> & _); [by apply at2_card|by apply cards_at].
  - intros p Hp. apply Stacks. lia.
  - destruct (steps_text g (sg_wf _ _ _ SG) (sg_nolimit _ _ _ SG) h s0 k s Hs St) as [_ Em].
    destruct (starts_inv g h s0 (sg_wf _ _ _ SG) Hs) as [_ F]. split.
    + rewrite <-Em. pose proof (raiseTo_grows (allActions g s) (maxSpent s0)). 
      enough (0 < maxSpent s0) by lia.
      rewrite (fh_max _ _ _ _ F), N. pose proof (maxZ_ge (at_ (blind g)) 2 0 0 ltac:(lia)). lia.
    + destruct (ck_max _ _ (inv_chips _ _ I)) as (p & Hp & <-). destruct (ck_spent _ _ (inv_chips _ _ I) p Hp) as [Hs' _].
      pose proof (wg_nolimit _ (sg_wf _ _ _ SG) (sg_nolimit _ _ _ SG) p Hp). lia.
Qed.

Lemma DoFinished_scores h k s d szTransID m_nRobotID now LLen LPush rank0 spent0 pb :
  hand_at g h k s d → finished s = 1 → m_nAlreadySaveHistory d ≠ 1 → m_nUnsaveHistory conf = 1 →
  length rank0 = 10%nat → length spent0 = 10%nat →
  -1073741823 ≤ m_nRobotScore d ≤ 1073741823 → -1073741823 ≤ m_nPlayerScore d ≤ 1073741823 →
  ∃ rc d', DoFinished m_mapGame conf int_of szTransID m_nRobotID now LLen LPush rank0 spent0 pb d = Ok (rc, d', None) ∧ hand_at g h k s d' ∧
    ((∀ c, c ∈ player_cards pb ++ end_board_cards pb → card_of c ≠ None) → rc = 0) ∧
    (rc ≠ 0 → m_nRobotScore d' = m_nRobotScore d ∧ m_nPlayerScore d' = m_nPlayerScore d ∧ m_nAlreadySaveHistory d' = m_nAlreadySaveHistory d) ∧
    (rc = 0 → ∃ r, let v := viewingPlayer (m_oMatchState d) in
       m_nRobotResult d' = r ∧ valueOfState rank0 spent0 g (match_state d') v = Ok (qz r) ∧
       - at_ (spent s) v ≤ r ≤ at_ (spent s) (1 - v) ∧
       m_nRobotScore d' = m_nRobotScore d + r ∧ m_nPlayerScore d' = m_nPlayerScore d - r ∧
       ∀ pb', DoFinished m_mapGame conf int_of szTransID m_nRobotID now LLen LPush rank0 spent0 pb' d' = Ok (0, d', None)).
Proof.
  intros H Hf Hal Hun L0 L1 HR HP. pose proof (ha_view _ _ _ _ _ H) as Hv. set (v := viewingPlayer (m_oMatchState d)) in *.
  unfold DoFinished at 1. fold v. rewrite (proj2 (Z.eqb_neq _ _) Hal).
  assert (nz (stateFinished (match_state d)) = true) as ->.
  { destruct (ha_state _ _ _ _ _ H) as (hc & bc & -> & _). unfold stateFinished. cbn. by rewrite Hf. }
  cbn [negb]. rewrite (ha_type _ _ _ _ _ H), (sg_game _ _ _ SG).
  assert (c_rem (v + 1) 2 = Ok (1 - v)) as -> by (assert (v = 0 ∨ v = 1) as [-> | ->] by lia; reflexivity).
  rewrite bind_ok. assert (Hc : ∀ (l : list Z) j, 0 ≤ j < Z.of_nat (length l) → at_ l j ∈ l).
  { intros l j Hj. unfold at_. apply list_elem_of_lookup_total_2. lia. }
  destruct (put_hole_ok g h k s d H (1 - v) (player_cards pb) (Z.min (Z.of_nat (length (player_cards pb))) 2) (-102))
    as (rc & hc & bc & -> & H1 & Hrc & _); try lia. rewrite bind_ok. set (d1 := recarded s d hc bc) in *.
  destruct (Z.eqb_spec rc 0) as [->|Hz]; cbn [negb].
  2: { exists rc, d1. split; [done|]. split; [done|]. split; [|done]. intros Hall. destruct Hrc as [|(_ & j & Hj & Hn)]; [done|].
       destruct (Hall (at_ (player_cards pb) j)); [|done]. apply elem_of_app. left. apply Hc. lia. }
  destruct (put_board_ok g h k s d1 H1 (end_board_cards pb) (Z.min 5 (Z.of_nat (length (end_board_cards pb)))) 0 (-103))
    as (rc & hc2 & bc2 & -> & H2 & Hrc2 & _); try lia. rewrite bind_ok. set (d2 := recarded s d1 hc2 bc2) in *.
  destruct (Z.eqb_spec rc 0) as [->|Hz]; cbn [negb].
  2: { exists rc, d2. split; [done|]. split; [done|]. split; [|done]. intros Hall. destruct Hrc2 as [|(_ & j & Hj & Hn)]; [done|].
       destruct (Hall (at_ (end_board_cards pb) j)); [|done]. apply elem_of_app. right. apply Hc. lia. }
  destruct (detailed_ok m_mapGame bt g SG Short h k s d2 H2) as (rt & bt' & ->). rewrite bind_ok.
  pose proof (session_settled h k s d2 H2 Hf) as St. pose proof (sg_two _ _ _ SG) as N.
  destruct (pay_int g (match_state d2) (maxSpent s) v St N ltac:(lia)) as (r & Ep & Hr).
  change (spent (match_state d2)) with (spent s) in Hr.
  assert (Hs : ∀ p, 0 ≤ p < 2 → 0 ≤ at_ (spent s) p ≤ 1073741823) by (intros p Hp; by apply (hand_spent m_mapGame bt g SG h k s d H)).
  pose proof (Hs v ltac:(lia)). pose proof (Hs (1 - v) ltac:(lia)).
  pose proof (valueOfState_ok g (match_state d2) (maxSpent s) St rank0 spent0 v L0 L1 ltac:(lia)) as Ev. rewrite Ep in Ev.
  rewrite Ev, bind_ok, int_of_qz, bind_ok by (unfold INT32_MIN, INT32_MAX; lia).
  cbn [m_nRobotScore set_RobotResult m_nPlayerScore set_RobotScore]. change (m_nRobotScore d2) with (m_nRobotScore d). change (m_nPlayerScore d2) with (m_nPlayerScore d).
  rewrite (i32_ok (m_nRobotScore d + r)), bind_ok, (i32_ok (m_nPlayerScore d - r)), bind_ok by (unfold INT32_MIN, INT32_MAX; lia). unfold SaveHistory. rewrite Hun. cbn [Z.eqb Pos.eqb]. rewrite bind_ok. cbn [negb].
  eexists 0, _. split; [done|]. split; [by apply (hand_at_same g h k s d2)|]. split; [done|]. split; [done|].
  intros _. exists r. split; [done|]. split; [exact Ev|]. split; [done|]. split; [done|]. split; [done|].
  intros pb'. unfold DoFinished. done.
Qed.

End Finish.

(** ** A hand that ends *)

(** The robot folds at once. *)
Definition folded_data : GameData :=
  match DoAction demo_games demo_bt 9 9 0 0 demo_data with Ok (_, d) => d | Err _ => blank_data end.
Lemma folded_at : hand_at nolimit2p 7 1 (played nolimit2p [f_]) folded_data.
Proof.
  destruct (DoAction_open demo_games demo_bt nolimit2p demo_session 7 0 (started nolimit2p) demo_data 9 9 0 0 demo_at)
    as (p & ok & rc & d' & Hc & Ev & E & Hrc & H0 & _); [vm_compute; reflexivity|unfold bet_ok; lia|].
  assert (match DoAction demo_games demo_bt 9 9 0 0 demo_data with Ok (rc, _) => rc = 0 | Err _ => False end) as Q by (vm_compute; reflexivity).
  rewrite E in Q. subst rc. destruct (H0 eq_refl) as (s' & e & Ed & H'). unfold folded_data. rewrite E.
  assert (s' = played nolimit2p [f_]) as <-; [|done].
  assert (doAction nolimit2p f_ (started nolimit2p) = Ok (played nolimit2p [f_], true)) as Q by (vm_compute; reflexivity).
  change (message_action (started nolimit2p) demo_data 9 9 0 0) with f_ in Ed. congruence.
Qed.


(** When histories are saved, the cards of the board are counted with one round too many,
    past the end of the array: a session of a game of four rounds cannot end a hand. *)
Fact history_reads_past_board :
  numRounds nolimit2p = 4 ∧
  DoFinished demo_games (mkConf [bytes "m"] ∅ 0 10) int_of [] 9 200 0 0 (replicate 10 0) (replicate 10 0) (mkEnd (-1) [50; 51] []) folded_data = Err OutOfBounds.
Proof. split; vm_compute; reflexivity. Qed.

(** A finished hand has nobody to act, which is written as id 0: an action from id 0 passes
    the turn check and is carried out on the finished hand. *)
Fact id_zero_acts_after_end : ∃ d',
  finished (match_state folded_data) = 1 ∧
  DoAction demo_games demo_bt 9 0 1 0 folded_data = Ok (0, d') ∧ m_nActionSeq d' = m_nActionSeq folded_data + 1.
Proof. eexists. split; [vm_compute; reflexivity|]. split; vm_compute; reflexivity. Qed.
