(* ===== verification/RobotImpl.v ===== *)
(** * The robot behind a session ([dt_robot.cpp])

    The robot's functions with their trees and random numbers as the interface that
    sessions use, and the laws of the interface proved for it. *)

From stdpp Require Import base list list_numbers numbers option strings sets.
From S2P Require Import Prelude GameDef Text BotGame CardTree CardTreeThm HandTree HandTreeThm Robot Double Select RobotThm SelectThm InfoText SessionData.
Open Scope Z_scope.

(** [int( RngGenerator::GetRng() * 100 )]. *)
Definition random100 (x : Z) : res (Z * Z) :=
  let '(x, r) := GetRng x in
  v ← to_i32 (dmul r (of_int 100)); Ok (x, v).

Lemma i32_of_u32 d v : to_u32 d = Ok v → v ≤ INT32_MAX → to_i32 d = Ok v.
Proof.
  unfold to_u32, to_i32, to_range, INT32_MIN, INT32_MAX. destruct d as [s|s| |s m e]; try done.
  set (w := if s then _ else _). destruct (Z.leb_spec 0 w); [|done]. destruct (Z.leb_spec w 4294967295); [|done]. cbn [andb].
  intros [= <-] Hv. rewrite (proj2 (Z.leb_le (-2147483648) w)), (proj2 (Z.leb_le w 2147483647)) by lia. done.
Qed.

Lemma random100_ok x : ∃ x' v, random100 x = Ok (x', v) ∧ 0 ≤ v ≤ 100.
Proof.
  unfold random100, GetRng. set (y := (25214903917 * x + 11) mod 281474976710656).
  pose proof (Z.mod_pos_bound (25214903917 * x + 11) 281474976710656 ltac:(lia)) as Hy. fold y in Hy.
  assert (∃ v, to_u32 (dmul (scaled y (-48)) (of_int 100)) = Ok v ∧ 0 ≤ v ≤ 100) as (v & Ev & Hv).
  { destruct (decide (y = 0)) as [->|Hne]; [by exists 0|].
    destruct (scaled_exact y (-48)) as (m & e & -> & He & Em); [lia|lia|]. rewrite dmul_comm. apply mul_finite; [lia|lia|].
    rewrite Em. replace (- e) with (48 + (-48 - e)) by lia. rewrite Z.pow_add_r by lia. change (2 ^ 48) with 281474976710656.
    pose proof (Z.pow_pos_nonneg 2 (-48 - e) ltac:(lia) ltac:(lia)). nia. }
  exists y, v. rewrite (i32_of_u32 _ v Ev) by (unfold INT32_MAX; lia). done.
Qed.

Section Bot.
Context (g : SGame) (t : PCardTree) (c : ClusterHands) (cb ch sm : list Z).

(** The random numbers advance only when [GetKey] draws one. *)
Definition bot_GetKey (st : HandValueTree * Z) (mp : ModelParam) (info : ActionInfo) (node : NodeInfo) (key : CFRKey) :
    res (HandValueTree * Z * Z * CFRKey) :=
  let '(h, x) := st in
  ok ← CheckCards info;
  '(x, random) ← (if ok && (info_st info =? street_ node) && random_flag mp then random100 x else Ok (x, 0));
  '(rc, key) ← GetKey g t cb ch sm c (random_flag mp) random info node key;
  Ok (h, x, rc, key).

Definition bot_DoAction (st : HandValueTree * Z) (p : ActionParam) (mp : ModelParam) (info : ActionInfo) (node : NodeInfo) (vals : list Z) :
    res (HandValueTree * Z * Z * option (list Z * list Z)) :=
  let '(h, x) := st in DoAction g h x p (sumprob_flag mp) info node vals.

Definition bot : RobotApi := Build_RobotApi (HandValueTree * Z) bot_GetKey bot_DoAction.

Context (Hg : holdem g) (Ht : ready t) (Hcb : length cb = 5%nat) (Hch : length ch = 2%nat) (Hsm : length sm = 4%nat).
Context (files : Z → list Z).
(** Clusters small enough for the offsets of nodes of at most 255 actions. *)
Context (Hcl : ∀ st n, 0 ≤ st ≤ 3 → 0 ≤ n < hands t st → ∃ k, GetClusterIdx c st n = Ok k ∧ -8421504 ≤ k ≤ 8421504).

Lemma bot_key x mp info node key : sized info → 0 ≤ info_st info ≤ 3 → Z.of_nat (length (child_node_ node)) ≤ 255 →
  ∃ x' rc k, bot_GetKey x mp info node key = Ok (x', rc, k) ∧ x'.1 = x.1.
Proof.
  intros Hz Hst Hn. destruct x as [h x]. unfold bot_GetKey, GetKey. destruct (CheckCards_ok info Hz Hst) as (b & -> & Hb). rewrite !bind_ok.
  destruct b; cbn [negb andb]; [|by eexists (h, x), _, _]. destruct (info_st info =? street_ node); cbn [negb andb]; [|by eexists (h, x), _, _].
  cbv zeta. destruct (random_flag mp).
  - destruct (random100_ok x) as (x' & v & -> & Hv). rewrite !bind_ok. change (negb (ERR_OK =? ERR_OK)) with false. cbv iota.
    rewrite i32_ok by (unfold INT32_MIN, INT32_MAX; nia). by eexists (h, x'), _, _.
  - rewrite !bind_ok. unfold GetBucketIdx. destruct (HandIdx_ok g Hg t Ht cb ch sm Hcb Hch Hsm info) as (n & -> & Hn'); [by apply Hb|]. rewrite bind_ok.
    change (negb (ERR_OK =? ERR_OK)) with false. cbv iota. destruct (Hcl (info_st info) n Hst Hn') as (k & -> & Hk). rewrite !bind_ok.
    change (negb (ERR_OK =? ERR_OK)) with false. cbv iota. rewrite i32_ok by (unfold INT32_MIN, INT32_MAX; nia). by eexists (h, x), _, _.
Qed.

Lemma bot_act h x p mp info node vals : loaded files h → settings_ok p (sumprob_flag mp) → sized info → 0 ≤ info_st info ≤ 3 →
  node_ok info (child_node_ node) vals →
  ∃ x' rc o, bot_DoAction (h, x) p mp info node vals = Ok (x', rc, o) ∧ loaded files x'.1 ∧
    (rc = 0 → ∃ a r, o = Some (a, r) ∧ a ∈ child_node_ node).
Proof.
  intros Hh Hse Hz Hst Hno. destruct (DoAction_ok g Hg files h Hh p (sumprob_flag mp) Hse info Hz Hst node vals Hno x) as [Hinv Hval].
  unfold bot_DoAction. destruct (CheckCards_ok info Hz Hst) as ([|] & _ & Hb).
  - destruct (Hval (proj1 Hb eq_refl)) as (h' & x' & i & a & r & -> & Hh' & Hi & _). exists (h', x'), ERR_OK, (Some (a, r)).
    split; [done|]. split; [done|]. intros _. exists a, r. split; [done|]. unfold rd in Hi. repeat case_match; simplify_eq.
    by eapply list_elem_of_lookup_2.
  - rewrite Hinv by (intros HV; by apply Hb in HV). by eexists (h, x), _, _.
Qed.

(** The robot keeps what sessions rely on. *)
Instance bot_ok : RobotOk bot.
Proof.
  refine (Build_RobotOk bot (λ x, loaded files x.1) _ _).
  - intros x mp info node key Hx Hz Hst Hn. destruct (bot_key x mp info node key Hz Hst Hn) as (x' & rc & k & E & Ex).
    exists x', rc, k. split; [done|]. by rewrite Ex.
  - intros [h x] p mp info node vals Hx. by apply bot_act.
Defined.
End Bot.
