(* ===== verification/Handlers.v ===== *)
(** * The messages of the game server ([apg_task.cpp], [cfr_task.cpp])

    One function per message: it finds the session of the robot in the table of games,
    lets it do its work and sends the answers.  A pointer into the table is read with
    [OGet] and written with [OPut] of [RunGameMap]; the lock of the robot makes a handler
    one step.  What the protocol classes read from a packet is an argument, [None] when
    they refuse it; texts of the log and of error messages are left out. *)

From Stdlib Require Import SpecFloat.
From stdpp Require Import base list list_numbers numbers option strings gmap.
From S2P Require Import Prelude GameDef Betting BettingSpec Value Text Print Read GameFile HashTable RunGameMap BotGame Robot Double Select BettingTree MatchConv InfoText ParamHandle SessionData Session.
Open Scope Z_scope.

(** ** The table of games, as an interface *)
Class GameTable := {
  table : Type;
  t_exec : RunGame.Op (R := GameData) → table → res (RunGame.Out (R := GameData) * table) }.

Class GameTableOk (T : GameTable) := {
  t_timeout : Z;
  t_sound : Z → table → gmap Z (CRunGame GameData) → Prop;
  t_step : ∀ cap t M o, t_sound cap t M → RunGame.allowed o →
    ∃ t', t_exec o t = Ok ((RunGame.spec t_timeout cap o M).1, t') ∧ t_sound cap t' (RunGame.spec t_timeout cap o M).2;
  t_ids : ∀ cap t M k g, t_sound cap t M → M !! k = Some g → m_nRobotID g = k ∧ RunGame.time_ok (m_nLastTime g) }.

(** ** Codes and answers *)
Inductive Rc := RC_OK | RC_PROTO_PARSE | RC_INVALID_PARAM | RC_INTERNAL | RC_GAME_TYPE | RC_SYSTEM_BUSY.
#[global] Instance Rc_eq_dec : EqDecision Rc.
Proof. solve_decision. Defined.

Inductive Sent :=
  | ToCfr (m : CfrMessage)
  | ToRedis (h : History)
  | RobotActionRsp (connfd nUniqueID nRobotID actiontype betnum : Z)
  | GameQueryStateRsp (connfd nUniqueID nRobotID : Z) (succ : bool) (rsp : QueryStateRsp).

(** The connection a packet came from. *)
Record Packet := mkPacket { connfd : Z; nUniqueID : Z; nCliConnID : Z; szTransID : list Z }.

(** What a handler is told by its surroundings: the time, which strategy servers are
    connected, whether the queue has a node, the answers of redis, and the contents of
    memory that is not initialised. *)
Record Env := mkEnv {
  now : Z; connected : Z → bool; free_node : bool; e_LLen : Z; e_LPush : Z;
  fresh_data : GameData; e_rank0 : list Z; e_spent0 : list Z }.

Record ThirdGameBeginNotify := mkBegin { hand : Z; bankerid : Z; roomid : list Z; player_id : Z; player_score : Z; ai_mode : Z }.
Record ThirdGameActionNotify := mkActionNotify { an_player_id : Z; an_actiontype : Z; an_betnum : Z }.

(** ** [StrUtil::strtoi64], [StrUtil::strtoi32] *)
Definition strtoi64 (str : list Z) : res Z :=
  o ← scan_number (str ++ [0]);
  let v := match o with
    | None => 0
    | Some (neg, v, _) => Z.max (-9223372036854775808) (Z.min 9223372036854775807 (if (neg : bool) then - v else v))
    end in
  Ok (if (v =? 0) || bool_decide (hd 0 (str ++ [0]) = 48) then 0 else v).
Definition strtoi32 (str : list Z) : res Z := v ← strtoi64 str; Ok (s32 v).

Section Handlers.
Context `{RA : RobotApi} `{T : GameTable}.
Context {D : Type} `{FD : Value.Double D} (to_int : D → res Z).
Context (m_mapGame : gmap Z Game) (bt : CBettingTree) (conf : CAPGIConf).
Context (scan_lf : list Z → res (option double)) (json : list Z → option (list Z * list Z)).

Record Server := mkServer { sv_games : table; g_nLocalID : Z; sv_robot : rb_state; sent : list Sent }.
Definition set_games (t : table) (s : Server) : Server := mkServer t (g_nLocalID s) (sv_robot s) (sent s).
Definition set_robot (x : rb_state) (s : Server) : Server := mkServer (sv_games s) (g_nLocalID s) x (sent s).
Definition send (m : list Sent) (s : Server) : Server := mkServer (sv_games s) (g_nLocalID s) (sv_robot s) (sent s ++ m).

Definition get_game (nRobotID : Z) (upd : bool) (now : Z) (s : Server) : res (option (CRunGame GameData) * Server) :=
  '(o, t) ← t_exec (RunGame.OGet nRobotID upd now) (sv_games s);
  Ok (match o with RunGame.OutGame g => g | _ => None end, set_games t s).
Definition put_data (g : CRunGame GameData) (d : GameData) (s : Server) : res Server :=
  '(_, t) ← t_exec (RunGame.OPut (m_nRobotID g) (mkRunGame (m_nRobotID g) (m_nLastTime g) d)) (sv_games s);
  Ok (set_games t s).

(** The frame the handlers of a running game share: the packet is parsed, the id is not 0
    and the game is found; [f] gives the code, the data to keep and the server. *)
Definition on_game {A} (e : Env) (p : Packet) (req : option A)
    (f : A → CRunGame GameData → Server → res (Rc * GameData * Server)) (s : Server) : res (Rc * Server) :=
  match req with
  | None => Ok (RC_PROTO_PARSE, s)
  | Some pbReq =>
      let nRobotID := nCliConnID p in
      if nRobotID =? 0 then Ok (RC_INVALID_PARAM, s) else
      '(o, s) ← get_game nRobotID true (now e) s;
      match o with
      | None => Ok (RC_INTERNAL, s)
      | Some g =>
          '(rc, d, s) ← f pbReq g s;
          s ← put_data g d s;
          Ok (rc, s)
      end
  end.

Definition GameSendCardsNotify (e : Env) (p : Packet) (req : option SendCards) : Server → res (Rc * Server) :=
  on_game e p req (λ pbReq g s,
    '(nErrCode, d) ← DoSaveCards m_mapGame pbReq (m_others g);
    if negb (nErrCode =? 0) then Ok (RC_INTERNAL, set_RunState GRS_ERR_CARDS d, s) else Ok (RC_OK, d, s)).

Definition GameActionNotify (e : Env) (p : Packet) (req : option ThirdGameActionNotify) : Server → res (Rc * Server) :=
  on_game e p req (λ pbReq g s,
    if nCliConnID p =? an_player_id pbReq then Ok (RC_OK, m_others g, s) else
    '(nErrCode, d) ← DoAction m_mapGame bt (m_nRobotID g) (an_player_id pbReq) (an_actiontype pbReq) (an_betnum pbReq) (m_others g);
    if negb (nErrCode =? 0) then Ok (RC_INTERNAL, set_RunState GRS_ERR_PLAYER_ACTION d, s) else Ok (RC_OK, d, s)).

Definition GameResultNotify (e : Env) (p : Packet) (req : option GameEnd) : Server → res (Rc * Server) :=
  on_game e p req (λ pbReq g s,
    '(nErrCode, d, h) ← DoFinished m_mapGame conf to_int (szTransID p) (m_nRobotID g) (now e) (e_LLen e) (e_LPush e) (e_rank0 e) (e_spent0 e) pbReq (m_others g);
    let s := send (ToRedis <$> option_list h) s in
    Ok (if negb (nErrCode =? 0) then RC_INTERNAL else RC_OK, d, s)).

(** Every failure is answered with a fold, on the connection of the packet. *)
Definition GameRobotActionReq (e : Env) (p : Packet) (req : option unit) (s : Server) : res (Rc * Server) :=
  '(rc, s) ← on_game e p req (λ _ g s,
    '(nErrCode, d, x, m) ← DoQueryRobotAction m_mapGame bt conf (szTransID p) (m_nRobotID g) (now e) (connected e) (free_node e) (sv_robot s) (m_others g);
    let s := send (ToCfr <$> option_list m) (set_robot x s) in
    if negb (nErrCode =? 0) then Ok (RC_INTERNAL, d, s) else
    Ok (RC_OK, set_UniqueID (nUniqueID p) (set_Sock (connfd p) d), s)) s;
  if decide (rc = RC_OK) then Ok (rc, s) else
  Ok (rc, send [RobotActionRsp (connfd p) (nUniqueID p) (nCliConnID p) 0 0] s).

Definition GameQueryStateReq (e : Env) (p : Packet) (req : option unit) (s : Server) : res (Rc * Server) :=
  let blank := mkRsp 0 0 0 [] in
  match req with
  | None => Ok (RC_PROTO_PARSE, send [GameQueryStateRsp (connfd p) (nUniqueID p) (nCliConnID p) false blank] s)
  | Some _ =>
      if nCliConnID p =? 0 then Ok (RC_INVALID_PARAM, send [GameQueryStateRsp (connfd p) (nUniqueID p) (nCliConnID p) false blank] s) else
      '(o, s) ← get_game (nCliConnID p) true (now e) s;
      match o with
      | None => Ok (RC_INTERNAL, send [GameQueryStateRsp (connfd p) (nUniqueID p) (nCliConnID p) false blank] s)
      | Some g =>
          '(nErrCode, pbRsp) ← SerializeQueryState m_mapGame bt (m_nRobotID g) (m_others g) blank;
          let ok := nErrCode =? 0 in
          Ok (if ok then RC_OK else RC_INTERNAL, send [GameQueryStateRsp (connfd p) (nUniqueID p) (nCliConnID p) ok pbRsp] s)
      end
  end.

(** A robot that has not answered in time is answered for with a fold. *)
Definition CheckRunGameTimeout (e : Env) (p : Packet) (s : Server) : res (Rc * Server) :=
  let nRobotID := nCliConnID p in
  '(o, t) ← t_exec (RunGame.OIsTimeOut nRobotID (now e)) (sv_games s);
  match o with
  | RunGame.OutBool true =>
      '(_, t) ← t_exec (RunGame.ODel nRobotID) t; Ok (RC_OK, set_games t s)
  | _ =>
      '(o, s) ← get_game nRobotID false (now e) (set_games t s);
      match o with
      | None => Ok (RC_OK, s)
      | Some g =>
          let d := m_others g in
          if negb (GetRunState d =? GRS_WAIT_ROBOT_ACTION) then Ok (RC_OK, s) else
          waited ← i64 (now e - m_nRequestActionTime d);
          if m_nRobotTimeout conf <? waited then
            s ← put_data g (set_RunState GRS_ERR_ROBOT_ACTION d) s;
            Ok (RC_SYSTEM_BUSY, send [RobotActionRsp (m_nSock d) (m_nUniqueID d) nRobotID 0 0] s)
          else Ok (RC_OK, s)
      end
  end.

(** ** The begin of a hand *)

(** The game is found, or made with the id alone. *)
Definition find_or_add (e : Env) (nRobotID : Z) (s : Server) : res (option (CRunGame GameData) * Server) :=
  '(o, s) ← get_game nRobotID true (now e) s;
  match o with
  | Some g => Ok (Some g, s)
  | None =>
      let oRunGame := RunGame.SetRobotID nRobotID (Reset (mkRunGame 0 0 (fresh_data e))) in
      '(r, t) ← t_exec (RunGame.OAdd oRunGame (now e)) (sv_games s);
      let s := set_games t s in
      match r with
      | RunGame.OutInt 0 => get_game nRobotID true (now e) s
      | _ => Ok (None, s)
      end
  end.

Definition GameBeginNotify (e : Env) (p : Packet) (req : option ThirdGameBeginNotify) (s : Server) : res (Rc * Server) :=
  match req with
  | None => Ok (RC_PROTO_PARSE, s)
  | Some pbReq =>
      let nRobotID := nCliConnID p in
      if nRobotID =? 0 then Ok (RC_INVALID_PARAM, s) else
      '(o, s) ← find_or_add e nRobotID s;
      match o with
      | None => Ok (RC_INTERNAL, s)
      | Some g =>
          '(nErrCode, d) ← SetCfrModel conf scan_lf (connected e) (ai_mode pbReq) (m_others g);
          if negb (nErrCode =? 0) then s ← put_data g d s; Ok (RC_INTERNAL, s) else
          '(nErrCode, d) ← DoRunMatch m_mapGame (m_nRobotID g) (now e) (hand pbReq) (bankerid pbReq) d;
          if negb (nErrCode =? 0) then s ← put_data g d s; Ok (RC_INTERNAL, s) else
          let g := RunGame.SetLastTime (now e) g in
          '(nLocalID, d) ← SetPlayerID (player_id pbReq) (now e) (g_nLocalID s) (SetRoomID (roomid pbReq) d);
          let s := mkServer (sv_games s) nLocalID (sv_robot s) (sent s) in
          s ← put_data g (set_PlayerScore (s32 (player_score pbReq)) d) s;
          Ok (RC_OK, s)
      end
  end.

(** ** The answer of a strategy server *)

(** The fields of the answer, read in this order before anything else. *)
Record CfrAnswer := mkAnswer {
  aw_RobotID : Z; aw_HandID : Z; aw_Round : Z; aw_ActionSeq : Z; aw_RoleID : Z; aw_RoomID : Z; aw_Response : list Z; aw_ActionInfo : list Z }.
Definition read_answer (buf : list Z) : res CfrAnswer :=
  v ← GetValueBykey buf (bytes "RobotID") [35]; nRobotID ← strtoi64 v;
  v ← GetValueBykey buf (bytes "HandID") [35]; nHandID ← strtoi32 v;
  v ← GetValueBykey buf (bytes "Round") [35]; nRound ← strtoi32 v;
  v ← GetValueBykey buf (bytes "ActionSeq") [35]; nActionSeq ← strtoi32 v;
  v ← GetValueBykey buf (bytes "RoleID") [35]; nLocalRoleID ← strtoi64 v;
  v ← GetValueBykey buf (bytes "RoomID") [35]; nLocalRoomID ← strtoi64 v;
  strResponse ← GetValueBykey buf (bytes "Resp") [35];
  strActionInfo ← GetValueBykey buf (bytes "ActionInfo") [35];
  Ok (mkAnswer nRobotID (u32 nHandID) (u32 nRound) (u8 nActionSeq) (u32 nLocalRoleID) (u64 nLocalRoomID) strResponse strActionInfo).

(** The checks and the choice of the action, up to the [DoAction] of the session: [inl] is
    an error, with [bToAPG]; [inr] the action. *)
Definition answer_action (ans : CfrAnswer) (nErrCode : Z) (g : CRunGame GameData) (x : rb_state) : res (rb_state * (Rc * bool + Action)) :=
  let d := m_others g in
  let err rc := Ok (x, inl (rc, true)) in
  let strResponse := aw_Response ans in
  let strActionInfo := aw_ActionInfo ans in
  if negb (aw_HandID ans =? GetHandID d) then Ok (x, inl (RC_INTERNAL, false)) else
  if negb (aw_Round ans =? GetRound d) then Ok (x, inl (RC_INTERNAL, false)) else
  if negb (GetRunState d =? GRS_WAIT_ROBOT_ACTION) then err RC_INTERNAL else
  if negb (nErrCode =? 0) then err RC_INTERNAL else
  if bool_decide (strResponse = []) || bool_decide (strActionInfo = []) then err RC_INTERNAL else
  match GetCfrServer conf (m_szCfrModel d) with
  | None => err RC_INTERNAL
  | Some pCfrServer =>
      '(c, oActionInfo) ← FromString ActionInfo_new (cstr strActionInfo);
      if negb (c =? 0) then err RC_INTERNAL else
      match GetGame m_mapGame (m_nGameType d) with
      | None => err RC_GAME_TYPE
      | Some pGame =>
          let '(c, oNodeInfo) := GetNode bt (action_seq oActionInfo) (mkNode (-1) 0 0 []) in
          if negb (c =? 0) then err RC_INTERNAL else
          '(c, vals) ← ConvertResponseStrToVals json strResponse (Z.of_nat (length (child_node_ oNodeInfo))) [];
          if negb (c =? 0) then err RC_INTERNAL else
          '(x, c, o) ← rb_DoAction x (m_oActionParam d) (oModelParam pCfrServer) oActionInfo oNodeInfo vals;
          let err rc := Ok (x, inl (rc, true)) in
          match o with
          | Some (strAction, _) =>
              if negb (c =? 0) then err RC_INTERNAL else
              if bool_decide (strAction = []) then err RC_GAME_TYPE else
              '(n, oAction) ← readAction (cstr strAction ++ [0]) pGame (mkAction a_invalid 0);
              if n <? 0 then err RC_GAME_TYPE else
              if negb (aw_ActionSeq ans =? m_nActionSeq d) then Ok (x, inl (RC_INTERNAL, false)) else
              Ok (x, inr oAction)
          | None => if negb (c =? 0) then err RC_INTERNAL else err RC_GAME_TYPE
          end
      end
  end.

Definition QueryActionResp (e : Env) (buf : list Z) (nErrCode : Z) (s : Server) : res (Rc * Server) :=
  ans ← read_answer buf;
  let nRobotID := aw_RobotID ans in
  '(o, s) ← get_game nRobotID true (now e) s;
  match o with
  | None => Ok (RC_INTERNAL, s)
  | Some g =>
      let d := m_others g in
      '(x, r) ← answer_action ans nErrCode g (sv_robot s);
      let s := set_robot x s in
      '(rc, bToAPG, d, actiontype, betnum) ←
        (match r with
         | inl (rc, bToAPG) => Ok (rc, bToAPG, d, 0, 0)
         | inr oAction =>
             '(c, d) ← DoAction m_mapGame bt (m_nRobotID g) nRobotID (ActionType_code (type oAction)) (GameDef.size oAction) d;
             if negb (c =? 0) then Ok (RC_INTERNAL, true, d, 0, 0)
             else Ok (RC_OK, true, d, ActionType_code (type oAction), nBetNum (m_oDLastAction d))
         end);
      if (bToAPG : bool) && (GetRunState d =? GRS_WAIT_ROBOT_ACTION) then
        s ← put_data g (set_RunState GRS_OK d) s;
        Ok (rc, send [RobotActionRsp (m_nSock d) (m_nUniqueID d) nRobotID actiontype betnum] s)
      else
        s ← put_data g d s; Ok (rc, s)
  end.
End Handlers.
