(* ===== verification/HandlersThm.v ===== *)
(** * Theorems on the messages of the game server

    The handlers are proved against the interfaces of the table of games and of the
    robot; the table of [RunGameMap] is an instance. *)

From Stdlib Require Import QArith Qcanon SpecFloat.
From stdpp Require Import base list list_numbers numbers option strings sets gmap.
From S2P Require Import Prelude GameDef Betting BettingSpec BettingInv BettingStep BettingKeep BettingInit BettingThm BettingCards Deal Value ValueThm Text Print Read GameFile HashTable HashTableInv HashTableRep RunGameMap BotGame Robot Double Select BettingTree MatchConv InfoText ParamHandle SessionData Session SessionThm SessionEnd Handlers.
Open Scope Z_scope.

(** ** The table of [RunGameMap] *)
Definition games_table (m_nDataTimeout m_nRobotTimeout : Z) : GameTable :=
  Build_GameTable (CRunGameHashMap GameData) (RunGame.exec m_nDataTimeout m_nRobotTimeout).

Lemma games_table_ok m_nDataTimeout m_nRobotTimeout : GameTableOk (games_table m_nDataTimeout m_nRobotTimeout).
Proof.
  refine (Build_GameTableOk (games_table m_nDataTimeout m_nRobotTimeout) m_nDataTimeout RunGame.sound _ _).
  - intros cap t M o Hs Ho. by apply RunGame.games_step_sound.
  - intros cap t M k g Hs E. split; [|by apply (RunGame.s_times _ _ _ Hs k)].
    destruct (RunGame.s_rep _ _ _ Hs) as (B & cs & fl & _ & C). apply (r_map _ _ _ _ _ _ _ _ C) in E as (p & _ & _ & E). done.
Defined.

(** ** Getting and putting games *)
Section Table.
Context `{RA : RobotApi} `{T : GameTable} `{!GameTableOk T}.
Implicit Types (s : Server) (M : gmap Z (CRunGame GameData)).

Definition touch (upd : bool) (now : Z) (g : CRunGame GameData) : CRunGame GameData := if upd then RunGame.SetLastTime now g else g.

Lemma get_game_ok cap M s k upd now : t_sound cap (sv_games s) M → 0 ≤ k → RunGame.time_ok now →
  ∃ t, get_game k upd now s = Ok (touch upd now <$> M !! k, set_games t s) ∧
    t_sound cap t (match M !! k with Some g => <[k := touch upd now g]> M | None => M end).
Proof.
  intros Hs Hk Hn. destruct (t_step cap (sv_games s) M (RunGame.OGet k upd now) Hs) as (t & E & Hs'); [done|].
  exists t. unfold get_game. rewrite E, bind_ok. cbn [RunGame.spec] in *. destruct (M !! k) as [g|]; done.
Qed.

Lemma put_data_ok cap M s g d : t_sound cap (sv_games s) M → 0 ≤ m_nRobotID g → RunGame.time_ok (m_nLastTime g) → is_Some (M !! m_nRobotID g) →
  ∃ t, put_data g d s = Ok (set_games t s) ∧ t_sound cap t (<[m_nRobotID g := mkRunGame (m_nRobotID g) (m_nLastTime g) d]> M).
Proof.
  intros Hs Hk Hn Hi. destruct (t_step cap (sv_games s) M (RunGame.OPut (m_nRobotID g) (mkRunGame (m_nRobotID g) (m_nLastTime g) d)) Hs) as (t & E & Hs'); [done|].
  exists t. unfold put_data. rewrite E, bind_ok. cbn [RunGame.spec snd] in Hs'. rewrite decide_True in Hs' by done. done.
Qed.

(** A handler in the shared frame changes the game of its robot alone. *)
Lemma on_game_ok {A} cap M s (e : Env) (p : Packet) (req : option A) f (P : GameData → Prop) (Q : Rc → Server → Prop) :
  t_sound cap (sv_games s) M → 0 ≤ nCliConnID p → RunGame.time_ok (now e) →
  (∀ rc t, Q rc (set_games t s)) →
  (∀ pb g t, req = Some pb → M !! nCliConnID p = Some g → m_nRobotID g = nCliConnID p →
     ∃ rc d s', f pb (RunGame.SetLastTime (now e) g) (set_games t s) = Ok (rc, d, s') ∧ sv_games s' = t ∧ P d ∧ ∀ t', Q rc (set_games t' s')) →
  ∃ rc s' M', on_game e p req f s = Ok (rc, s') ∧ Q rc s' ∧ t_sound cap (sv_games s') M' ∧
    (∀ r, r ≠ nCliConnID p → M' !! r = M !! r) ∧ (∀ g, M' !! nCliConnID p = Some g → P (m_others g) ∨ M !! nCliConnID p = Some g).
Proof.
  intros Hs Hk Hn HQ Hf. assert (Hself : set_games (sv_games s) s = s) by (by destruct s). unfold on_game. destruct req as [pb|].
  2: { exists RC_PROTO_PARSE, s, M. split; [done|]. split; [|split; [done|]; split; [done|by right]]. rewrite <-Hself. apply HQ. }
  destruct (nCliConnID p =? 0).
  { exists RC_INVALID_PARAM, s, M. split; [done|]. split; [|split; [done|]; split; [done|by right]]. rewrite <-Hself. apply HQ. }
  destruct (get_game_ok cap M s (nCliConnID p) true (now e) Hs Hk Hn) as (t & -> & Hs'). rewrite bind_ok.
  destruct (M !! nCliConnID p) as [g|] eqn:E; cbn [fmap option_fmap option_map].
  - destruct (t_ids cap (sv_games s) M _ g Hs E) as [Ei Et].
    destruct (Hf pb g t eq_refl eq_refl Ei) as (rc & d & s' & Ef & Eg & HP & HQ').
    cbn [touch] in *. rewrite Ef, bind_ok.
    destruct (put_data_ok cap (<[nCliConnID p := RunGame.SetLastTime (now e) g]> M) s' (RunGame.SetLastTime (now e) g) d) as (t' & -> & Hs2).
    + by rewrite Eg.
    + cbn. lia.
    + done.
    + cbn. rewrite Ei, lookup_insert_eq. eauto.
    + rewrite bind_ok. eexists rc, _, _. split; [done|]. split; [apply HQ'|]. split; [exact Hs2|]. cbn. rewrite Ei. split.
      * intros r Hr. by rewrite !lookup_insert_ne by done.
      * intros g' Eg'. rewrite lookup_insert_eq in Eg'. injection Eg' as <-. by left.
  - exists RC_INTERNAL, (set_games t s), M. split; [done|]. split; [apply HQ|]. split; [done|]. split; [done|]. intros g' Eg'. congruence.
Qed.
End Table.

(** ** What a message does to its session *)
Definition playing (g : Game) (d : GameData) : Prop := ∃ h k s, hand_at g h k s d.

Lemma playing_same g d d' : playing g d → m_nGameType d' = m_nGameType d → m_oMatchState d' = m_oMatchState d →
  m_nActionSeq d' = m_nActionSeq d → playing g d'.
Proof. intros (h & k & s & H) E1 E2 E3. exists h, k, s. by apply (hand_at_same g h k s d). Qed.

Inductive event :=
  | EvBegin (req : option ThirdGameBeginNotify)
  | EvCards (req : option SendCards)
  | EvAction (req : option ThirdGameActionNotify)
  | EvResult (req : option GameEnd)
  | EvQuery (req : option unit)
  | EvState (req : option unit)
  | EvTimeout.

Section Events.
Context `{RA : RobotApi} `{!RobotOk RA} `{T : GameTable} `{!GameTableOk T}.
Context (m_mapGame : gmap Z Game) (bt : CBettingTree) (g : Game) (SG : session_game m_mapGame bt g) (Short : short_stacks g) (conf : CAPGIConf).
Context (Stacks : ∀ p, 0 ≤ p < 2 → 0 < at_ (stack g) p) (Blind : 0 < at_ (blind g) 0).
Context (scan_lf : list Z → res (option double)).
(** The settings of the models can be read. *)
Context (Models : ∀ name srv p, GetCfrServer conf name = Some srv → ∃ c p', SetActionParam scan_lf (cfr_param (oModelParam srv)) p = Ok (c, p')).

Definition handle (e : Env) (p : Packet) (ev : event) : Server → res (Rc * Server) :=
  match ev with
  | EvBegin req => GameBeginNotify m_mapGame conf scan_lf e p req
  | EvCards req => GameSendCardsNotify m_mapGame e p req
  | EvAction req => GameActionNotify m_mapGame bt e p req
  | EvResult req => GameResultNotify int_of m_mapGame conf e p req
  | EvQuery req => GameRobotActionReq m_mapGame bt conf e p req
  | EvState req => GameQueryStateReq m_mapGame bt e p req
  | EvTimeout => CheckRunGameTimeout conf e p
  end.

(** What is asked of a message for the session [o] of its robot: begins name a 32-bit hand,
    everything else is for a session that has begun; players have an id, amounts and scores
    cannot overflow, and results are not saved. *)
Definition event_ok (e : Env) (o : option (CRunGame GameData)) (ev : event) : Prop :=
  match ev with
  | EvBegin req => ∀ pb, req = Some pb → 0 ≤ hand pb < 4294967296
  | EvAction req => (∀ x, o = Some x → playing g (m_others x)) ∧ ∀ pb, req = Some pb → an_player_id pb ≠ 0 ∧ bet_ok (an_betnum pb)
  | EvResult _ => (∀ x, o = Some x → playing g (m_others x) ∧
      -1073741823 ≤ m_nRobotScore (m_others x) ≤ 1073741823 ∧ -1073741823 ≤ m_nPlayerScore (m_others x) ≤ 1073741823) ∧
      m_nUnsaveHistory conf = 1 ∧ length (e_rank0 e) = 10%nat ∧ length (e_spent0 e) = 10%nat
  | EvTimeout => ∀ x, o = Some x → playing g (m_others x) ∧ RunGame.time_ok (m_nRequestActionTime (m_others x))
  | EvCards _ | EvQuery _ | EvState _ => ∀ x, o = Some x → playing g (m_others x)
  end.

Lemma SetCfrModel_from_ok n conn name d : ∃ c d', SetCfrModel_from conf scan_lf n conn name d = Ok (c, d') ∧
  m_nGameType d' = m_nGameType d ∧ m_oMatchState d' = m_oMatchState d ∧ m_nActionSeq d' = m_nActionSeq d.
Proof.
  revert name. induction n as [|n IH]; intros name; cbn [SetCfrModel_from].
  all: destruct (_ && _); [by eexists _, d|]; destruct (_ <? _); [by eexists _, d|];
    destruct (GetCfrServer conf name) as [srv|] eqn:E; [|by eexists _, d]; destruct (conn _); cbn [negb].
  1, 3: destruct (Models _ _ (m_oActionParam d) E) as (c & p' & ->); rewrite bind_ok; destruct (c =? 0); by eexists _, _.
  - by eexists _, d.
  - apply IH.
Qed.

Lemma SetCfrModel_ok conn mode d : ∃ c d', SetCfrModel conf scan_lf conn mode d = Ok (c, d') ∧
  m_nGameType d' = m_nGameType d ∧ m_oMatchState d' = m_oMatchState d ∧ m_nActionSeq d' = m_nActionSeq d.
Proof.
  unfold SetCfrModel.
  assert (∃ name, SelectCfrModel conf mode (m_nGameBeginTimes d) = Ok name) as (name & ->); [|rewrite bind_ok; apply SetCfrModel_from_ok].
  unfold SelectCfrModel. set (l := m_vCfrServer conf).
  destruct (Nat.eqb_spec (length l) 0); [eauto|]. assert (∃ a, rd l 0 = Ok a) as (a & ->) by (rewrite rd_ok by lia; eauto).
  destruct (Nat.eqb_spec (length l) 1); [eauto|]. assert (∃ b, rd l 1 = Ok b) as (b & ->) by (rewrite rd_ok by lia; eauto).
  cbv zeta. repeat case_match; eauto.
Qed.

Lemma SetPlayerID_ok v now n d : 0 ≤ now < 2147483648 → ∃ n' d', SetPlayerID v now n d = Ok (n', d') ∧
  m_nGameType d' = m_nGameType d ∧ m_oMatchState d' = m_oMatchState d ∧ m_nActionSeq d' = m_nActionSeq d.
Proof.
  intros Hn. unfold SetPlayerID. destruct (_ =? _); cbn [negb]; [by eexists _, d|].
  pose proof (Z.mod_pos_bound (n + 1) 4294967296 ltac:(lia)). fold (u32 (n + 1)) in H.
  rewrite i64_ok, bind_ok, i64_ok, bind_ok by lia. by eexists _, _.
Qed.

(** After a message the table is sound, the sessions of other robots are what they were, and
    the session of the robot is at a position of a hand if it was or the message was accepted. *)
Definition kept (cap : Z) (M : gmap Z (CRunGame GameData)) (id : Z) (o : res (Rc * Server)) : Prop :=
  ∃ rc s' M', o = Ok (rc, s') ∧ t_sound cap (sv_games s') M' ∧ rb_ok (sv_robot s') ∧
    (∀ r, r ≠ id → M' !! r = M !! r) ∧
    (∀ x, M' !! id = Some x → rc = RC_OK ∨ (∃ y, M !! id = Some y ∧ playing g (m_others y)) → playing g (m_others x)).

Section Kept.
Context (cap : Z) (M : gmap Z (CRunGame GameData)) (s : Server) (Hs : t_sound cap (sv_games s) M) (Hx : rb_ok (sv_robot s)).
Context (e : Env) (p : Packet) (Hid : 0 ≤ nCliConnID p) (Hnow : 0 ≤ now e < 2147483648).

Lemma now_ok : RunGame.time_ok (now e).
Proof. unfold RunGame.time_ok. lia. Qed.

(** The handlers in the shared frame. *)
Lemma on_game_kept {A} (J : GameData → Prop) (req : option A) f :
  (∀ d, J d → playing g d) → (∀ y, M !! nCliConnID p = Some y → J (m_others y)) →
  (∀ pb y s1, req = Some pb → J (m_others y) → m_nRobotID y = nCliConnID p → rb_ok (sv_robot s1) →
     ∃ rc d s', f pb y s1 = Ok (rc, d, s') ∧ sv_games s' = sv_games s1 ∧ playing g d ∧ rb_ok (sv_robot s')) →
  kept cap M (nCliConnID p) (on_game e p req f s).
Proof.
  intros HJ Hp Hf. destruct (on_game_ok cap M s e p req f (playing g) (λ _ s', rb_ok (sv_robot s'))) as (rc & s' & M' & E & Hx' & Hs' & Ho & Hg).
  - done.
  - done.
  - apply now_ok.
  - done.
  - intros pb y t -> Ey Ei. destruct (Hf pb (RunGame.SetLastTime (now e) y) (set_games t s) eq_refl) as (rc & d & s' & E & Es & Hd & Hr).
    + apply (Hp y Ey).
    + done.
    + done.
    + exists rc, d, s'. done.
  - exists rc, s', M'. split_and!; try done. intros x Ex _. destruct (Hg x Ex) as [|Ex']; [done|]. by apply HJ, Hp.
Qed.

Lemma cards_kept req : event_ok e (M !! nCliConnID p) (EvCards req) → kept cap M (nCliConnID p) (handle e p (EvCards req) s).
Proof.
  intros He. apply (on_game_kept (playing g)); [done|exact He|]. intros pb y s1 _ (h & k & st & H) _ Hr.
  destruct (DoSaveCards_ok m_mapGame bt g SG h k st (m_others y) pb Short H) as (c & d & -> & H' & _). rewrite bind_ok.
  destruct (c =? 0); cbn [negb]; (eexists _, _, _; split_and!; [done..| |done]); [by exists h, k, st|].
  apply (playing_same g d); [by exists h, k, st|done..].
Qed.

Lemma action_kept req : event_ok e (M !! nCliConnID p) (EvAction req) → kept cap M (nCliConnID p) (handle e p (EvAction req) s).
Proof.
  intros [He Hm]. apply (on_game_kept (playing g)); [done|exact He|]. intros pb y s1 Er (h & k & st & H) _ Hr. destruct (Hm pb Er) as [Hu Hb].
  destruct (_ =? _); [eexists _, _, _; split_and!; [done..| |done]; by exists h, k, st|].
  assert (∃ c d, DoAction m_mapGame bt (m_nRobotID y) (an_player_id pb) (an_actiontype pb) (an_betnum pb) (m_others y) = Ok (c, d) ∧ playing g d) as (c & d & -> & Hd).
  { destruct (decide (finished st = 0)) as [Hf|Hf].
    - destruct (DoAction_open m_mapGame bt g SG h k st (m_others y) (m_nRobotID y) (an_player_id pb) (an_actiontype pb) (an_betnum pb) H Hf Hb)
        as (q & ok & c & d & _ & _ & E & _ & H0 & H1). exists c, d. split; [done|]. destruct (decide (c = 0)) as [Hc|Hc].
      + destruct (H0 Hc) as (s' & ? & _ & H'). by exists h, (S k), s'.
      + destruct (H1 Hc) as [_ H']. by exists h, k, st.
    - destruct (DoAction_finished m_mapGame bt g SG h k st (m_others y) (m_nRobotID y) (an_player_id pb) (an_actiontype pb) (an_betnum pb) H Hf Hb Hu) as (d & E & H').
      exists (-1001), d. split; [done|]. by exists h, k, st. }
  rewrite bind_ok. destruct (c =? 0); cbn [negb]; (eexists _, _, _; split_and!; [done..| |done]); [done|]. by apply (playing_same g d).
Qed.

Lemma result_kept req : event_ok e (M !! nCliConnID p) (EvResult req) → kept cap M (nCliConnID p) (handle e p (EvResult req) s).
Proof.
  intros (He & Hun & L0 & L1). set (J := λ d, playing g d ∧ -1073741823 ≤ m_nRobotScore d ≤ 1073741823 ∧ -1073741823 ≤ m_nPlayerScore d ≤ 1073741823).
  apply (on_game_kept J); [by intros d [? _]|exact He|]. intros pb y s1 _ ((h & k & st & H) & HR & HP) _ Hr.
  assert (∃ c d, DoFinished m_mapGame conf int_of (szTransID p) (m_nRobotID y) (now e) (e_LLen e) (e_LPush e) (e_rank0 e) (e_spent0 e) pb (m_others y) = Ok (c, d, None)
    ∧ playing g d) as (c & d & -> & Hd).
  { destruct (decide (m_nAlreadySaveHistory (m_others y) = 1)) as [Ha|Ha].
    { exists 0, (m_others y). unfold DoFinished. rewrite Ha. split; [done|]. by exists h, k, st. }
    destruct (inv_finished _ _ (hand_inv m_mapGame bt g SG h k st (m_others y) H)) as [Hf|Hf].
    - exists (-99), (m_others y). unfold DoFinished. rewrite (proj2 (Z.eqb_neq _ 1) Ha).
      destruct (ha_state _ _ _ _ _ H) as (hc & bc & E & _). rewrite E. unfold stateFinished. change (finished (with_cards hc bc st)) with (finished st).
      rewrite Hf. split; [done|]. by exists h, k, st.
    - destruct (DoFinished_scores m_mapGame bt g SG Short conf Stacks Blind h k st (m_others y) (szTransID p) (m_nRobotID y) (now e) (e_LLen e) (e_LPush e) (e_rank0 e) (e_spent0 e) pb
        H Hf Ha Hun L0 L1 HR HP) as (c & d & E & H' & _). exists c, d. split; [done|]. by exists h, k, st. }
  rewrite bind_ok. eexists _, d, _. split; [done|]. by split_and!.
Qed.

Lemma query_kept req : event_ok e (M !! nCliConnID p) (EvQuery req) → kept cap M (nCliConnID p) (handle e p (EvQuery req) s).
Proof.
  intros He. cbn [handle]. unfold GameRobotActionReq.
  match goal with |- context [on_game e p req ?f s] => destruct (on_game_kept (playing g) req f) as (rc & s' & M' & -> & Hs' & Hx' & Ho & Hg) end.
  - done.
  - exact He.
  - intros pb y s1 _ (h & k & st & H) _ Hr.
    destruct (DoQueryRobotAction_ok m_mapGame bt g SG conf h k st (m_others y) H (szTransID p) (m_nRobotID y) (now e) (connected e) (free_node e) (sv_robot s1) Hr)
      as (c & d & x' & o & -> & Hx' & H' & _). rewrite bind_ok.
    destruct (c =? 0); cbn [negb]; (eexists _, _, _; split_and!; [done..| |done]); [|by exists h, k, st].
    apply (playing_same g d); [by exists h, k, st|done..].
  - rewrite bind_ok. case_decide; [by exists rc, s', M'|]. eexists rc, _, M'. split; [done|]. by split_and!.
Qed.

Lemma state_kept req : event_ok e (M !! nCliConnID p) (EvState req) → kept cap M (nCliConnID p) (handle e p (EvState req) s).
Proof.
  intros He. cbn [handle]. unfold GameQueryStateReq. destruct req as [[]|].
  2: { eexists _, _, M. split; [done|]. split_and!; try done. intros x Ex _. by apply He. }
  destruct (_ =? 0); [eexists _, _, M; split; [done|]; split_and!; try done; intros x Ex _; by apply He|].
  destruct (get_game_ok cap M s (nCliConnID p) true (now e) Hs Hid now_ok) as (t & -> & Hs'). rewrite bind_ok.
  destruct (M !! nCliConnID p) as [y|] eqn:Ey; cbn [fmap option_fmap option_map touch] in *.
  - destruct (He y eq_refl) as (h & k & st & H). change (m_others (RunGame.SetLastTime (now e) y)) with (m_others y).
    assert (∃ c r, SerializeQueryState m_mapGame bt (m_nRobotID (RunGame.SetLastTime (now e) y)) (m_others y) (mkRsp 0 0 0 []) = Ok (c, r)) as (c & r & ->).
    { unfold SerializeQueryState. destruct (nz _); [eauto|]. rewrite (GetAllowRaises_ok m_mapGame bt g SG h k st (m_others y) H), bind_ok.
      destruct (current_total m_mapGame bt g SG h k st (m_others y) H (m_nRobotID (RunGame.SetLastTime (now e) y))) as (q & ->).
      destruct (raises_at bt st); cbn [Z.eqb negb]; [|eauto]. rewrite bind_ok. destruct (_ <=? 0); eauto. }
    rewrite bind_ok. eexists _, _, (<[nCliConnID p := RunGame.SetLastTime (now e) y]> M). split; [done|]. split; [done|]. split; [done|]. split.
    + intros r' Hr. by rewrite lookup_insert_ne by done.
    + intros x. rewrite lookup_insert_eq. intros [= <-] _. by exists h, k, st.
  - eexists _, _, M. split; [done|]. split_and!; try done. intros x Ex _. congruence.
Qed.

Lemma timeout_kept : event_ok e (M !! nCliConnID p) EvTimeout → kept cap M (nCliConnID p) (handle e p EvTimeout s).
Proof.
  intros He. cbn [handle]. unfold CheckRunGameTimeout.
  destruct (t_step cap (sv_games s) M (RunGame.OIsTimeOut (nCliConnID p) (now e)) Hs) as (t & -> & Hs'); [split; [done|apply now_ok]|]. rewrite bind_ok.
  cbn [RunGame.spec] in *. destruct (M !! nCliConnID p) as [y|] eqn:Ey; cbn [fst snd] in *.
  2: { destruct (t_step cap t M (RunGame.ODel (nCliConnID p)) Hs') as (t' & -> & Hs2); [done|]. rewrite bind_ok. cbn [RunGame.spec] in Hs2. rewrite Ey in Hs2.
       eexists _, _, M. split; [done|]. split_and!; try done. intros x Ex. congruence. }
  destruct (He y eq_refl) as [Hp Ht]. destruct (_ <? _).
  { destruct (t_step cap t M (RunGame.ODel (nCliConnID p)) Hs') as (t' & -> & Hs2); [done|]. rewrite bind_ok. cbn [RunGame.spec] in Hs2. rewrite Ey in Hs2.
    eexists _, _, (delete (nCliConnID p) M). split; [done|]. split; [done|]. split; [done|]. split; [intros r Hr; by rewrite lookup_delete_ne by done|].
    intros x. by rewrite lookup_delete_eq. }
  destruct (get_game_ok cap M (set_games t s) (nCliConnID p) false (now e) Hs' Hid now_ok) as (t' & -> & Hs2). rewrite bind_ok, Ey in *.
  cbn [fmap option_fmap option_map touch] in *. rewrite insert_id in Hs2 by done.
  destruct (_ =? _); cbn [negb]; [|eexists _, _, M; split; [done|]; split_and!; try done; intros x Ex _; by simplify_eq].
  pose proof now_ok as Hn. unfold RunGame.time_ok in *. rewrite i64_ok, bind_ok by lia. destruct (_ <? _); [|eexists _, _, M; split; [done|]; split_and!; try done; intros x Ex _; by simplify_eq].
  destruct (t_ids cap (sv_games s) M _ y Hs Ey) as [Ei Et].
  destruct (put_data_ok cap M (set_games t' (set_games t s)) y (set_RunState GRS_ERR_ROBOT_ACTION (m_others y)) Hs2) as (t2 & -> & Hs3); [lia|done|rewrite Ei; eauto|].
  rewrite bind_ok. eexists _, _, _. split; [done|]. split; [exact Hs3|]. split; [done|]. rewrite Ei. split.
  - intros r Hr. by rewrite lookup_insert_ne by done.
  - intros x. rewrite lookup_insert_eq. intros [= <-] _. by apply (playing_same g (m_others y)).
Qed.

Lemma find_or_add_ok : nCliConnID p ≠ 0 → ∃ o t M1, find_or_add e (nCliConnID p) s = Ok (o, set_games t s) ∧ t_sound cap t M1 ∧
  (∀ r, r ≠ nCliConnID p → M1 !! r = M !! r) ∧ M1 !! nCliConnID p = o ∧
  match o with
  | None => M !! nCliConnID p = None
  | Some y => m_nRobotID y = nCliConnID p ∧ RunGame.time_ok (m_nLastTime y) ∧ ∀ y0, M !! nCliConnID p = Some y0 → m_others y = m_others y0
  end.
Proof.
  intros Hne. pose proof now_ok as Hn. unfold find_or_add. destruct (get_game_ok cap M s (nCliConnID p) true (now e) Hs Hid Hn) as (t & -> & Hs'). rewrite bind_ok.
  destruct (M !! nCliConnID p) as [y|] eqn:Ey; cbn [fmap option_fmap option_map touch] in *.
  { destruct (t_ids cap (sv_games s) M _ y Hs Ey) as [Ei Et].
    eexists _, t, _. split; [done|]. split; [exact Hs'|]. split; [intros r Hr; by rewrite lookup_insert_ne by done|]. split; [by rewrite lookup_insert_eq|].
    split; [done|]. split; [done|]. by intros y0 [= <-]. }
  set (y := RunGame.SetRobotID (nCliConnID p) (Reset (mkRunGame 0 0 (fresh_data e)))).
  destruct (t_step cap t M (RunGame.OAdd y (now e)) Hs') as (t1 & E1 & Hs1); [by split|]. cbn [set_games sv_games]. rewrite E1, bind_ok. clear E1.
  cbn [RunGame.spec] in *. change (m_nRobotID y) with (nCliConnID p) in *. rewrite (proj2 (Z.eqb_neq _ 0) Hne), Ey in *.
  destruct (_ =? cap); cbn [fst snd] in *.
  { eexists None, t1, M. by split_and!. }
  destruct (get_game_ok cap _ (set_games t1 (set_games t s)) (nCliConnID p) true (now e) Hs1 Hid Hn) as (t2 & -> & Hs2).
  rewrite lookup_insert_eq in *. cbn [fmap option_fmap option_map touch] in *.
  eexists _, t2, _. split; [done|]. split; [exact Hs2|]. split; [intros r Hr; by rewrite !lookup_insert_ne by done|]. split; [by rewrite lookup_insert_eq|].
  split; [done|]. split; [done|]. done.
Qed.

Lemma begin_kept req : event_ok e (M !! nCliConnID p) (EvBegin req) → kept cap M (nCliConnID p) (handle e p (EvBegin req) s).
Proof.
  intros He. cbn [handle]. unfold GameBeginNotify. destruct req as [pb|].
  2: { eexists _, s, M. split; [done|]. split_and!; try done. intros x Ex [?|(y & Ey & Hy)]; [done|by simplify_eq]. }
  destruct (Z.eqb_spec (nCliConnID p) 0) as [|Hne].
  { eexists _, s, M. split; [done|]. split_and!; try done. intros x Ex [?|(y & Ey & Hy)]; [done|by simplify_eq]. }
  destruct (find_or_add_ok Hne) as (o & t & M1 & -> & Hs1 & Ho & E1 & Hy). rewrite bind_ok. destruct o as [y|].
  2: { eexists _, _, M1. split; [done|]. split_and!; try done. intros x Ex. congruence. }
  destruct Hy as (Ei & Et & Hy). assert (Hi : is_Some (M1 !! m_nRobotID y)) by (rewrite Ei, E1; eauto).
  assert (Hput : ∀ y' d' s1 rc, sv_games s1 = t → sv_robot s1 = sv_robot s → m_nRobotID y' = nCliConnID p → RunGame.time_ok (m_nLastTime y') →
    (rc = RC_OK ∨ (∃ y0, M !! nCliConnID p = Some y0 ∧ playing g (m_others y0)) → playing g d') →
    kept cap M (nCliConnID p) (s2 ← put_data y' d' s1; Ok (rc, s2))).
  { intros y' d' s1 rc Eg Er Ei' Et' Hd. destruct (put_data_ok cap M1 s1 y' d') as (t' & -> & Hs2); [by rewrite Eg|lia|done|by rewrite Ei', <-Ei|].
    rewrite bind_ok. eexists rc, _, _. split; [done|]. split; [exact Hs2|]. split; [by cbn; rewrite Er|]. rewrite Ei'. split.
    - intros r Hr. rewrite lookup_insert_ne by done. by apply Ho.
    - intros x. rewrite lookup_insert_eq. by intros [= <-]. }
  destruct (SetCfrModel_ok (connected e) (ai_mode pb) (m_others y)) as (c & d & -> & F1 & F2 & F3). rewrite bind_ok.
  destruct (c =? 0); cbn [negb].
  2: { apply Hput; try done. intros [?|(y0 & Ey0 & Hp0)]; [done|]. rewrite <-(Hy y0 Ey0) in Hp0. by apply (playing_same g (m_others y)). }
  destruct (DoRunMatch_ok m_mapGame bt g SG (m_nRobotID y) (now e) (hand pb) (bankerid pb) d (He pb eq_refl)) as (s0 & d1 & -> & _ & H1 & _). rewrite bind_ok.
  cbn [Z.eqb negb].
  destruct (SetPlayerID_ok (player_id pb) (now e) (g_nLocalID (set_games t s)) (SetRoomID (roomid pb) d1) Hnow) as (n & d2 & -> & G1 & G2 & G3). rewrite bind_ok.
  apply Hput; try done; [apply now_ok|]. intros _.
  apply (playing_same g d1); [by exists (hand pb), 0%nat, s0|done..].
Qed.
End Kept.

End Events.

(** ** Late answers *)
Definition int_field (buf : list Z) (key : string) : res Z := v ← GetValueBykey buf (bytes key) [35]; strtoi32 v.

(** C38: A late answer of a strategy server changes nothing.  When the answer names another
    hand or round than the session is in, or when the session does not wait for one, the
    session keeps everything but the time it was last used, nobody is answered and the robot
    does not act.  All fields of the answer are readable. *)
Theorem late_answer_ignored `{RA : RobotApi} `{T : GameTable} `{!GameTableOk T} m_mapGame bt conf json cap M (s : Server) e buf nErrCode id hd rn sq role room_ resp info y :
  t_sound cap (sv_games s) M → 0 ≤ id → RunGame.time_ok (now e) →
  (v ← GetValueBykey buf (bytes "RobotID") [35]; strtoi64 v) = Ok id →
  int_field buf "HandID" = Ok hd → int_field buf "Round" = Ok rn → int_field buf "ActionSeq" = Ok sq →
  (v ← GetValueBykey buf (bytes "RoleID") [35]; strtoi64 v) = Ok role → (v ← GetValueBykey buf (bytes "RoomID") [35]; strtoi64 v) = Ok room_ →
  GetValueBykey buf (bytes "Resp") [35] = Ok resp → GetValueBykey buf (bytes "ActionInfo") [35] = Ok info →
  M !! id = Some y →
  u32 hd ≠ GetHandID (m_others y) ∨ u32 rn ≠ GetRound (m_others y) ∨ GetRunState (m_others y) ≠ GRS_WAIT_ROBOT_ACTION →
  ∃ s', QueryActionResp m_mapGame bt conf json e buf nErrCode s = Ok (RC_INTERNAL, s') ∧ sent s' = sent s ∧ sv_robot s' = sv_robot s ∧
    t_sound cap (sv_games s') (<[id := RunGame.SetLastTime (now e) y]> M).
Proof.
  intros Hs Hid Hn Er Eh Eo Ea El Em Ep Ei Ey Hl. destruct (t_ids cap (sv_games s) M id y Hs Ey) as [Ek _]. unfold QueryActionResp.
  assert (read_answer buf = Ok (mkAnswer id (u32 hd) (u32 rn) (u8 sq) (u32 role) (u64 room_) resp info)) as ->.
  { unfold int_field in *. apply bind_Ok_inv in Er as (w0 & Er & Er'). apply bind_Ok_inv in Eh as (w1 & Eh & Eh'). apply bind_Ok_inv in Eo as (w2 & Eo & Eo').
    apply bind_Ok_inv in Ea as (w3 & Ea & Ea'). apply bind_Ok_inv in El as (w4 & El & El'). apply bind_Ok_inv in Em as (w5 & Em & Em'). unfold read_answer.
    by rewrite Er, bind_ok, Er', bind_ok, Eh, bind_ok, Eh', bind_ok, Eo, bind_ok, Eo', bind_ok, Ea, bind_ok, Ea', bind_ok, El, bind_ok, El', bind_ok, Em, bind_ok, Em', bind_ok, Ep, bind_ok, Ei, bind_ok. }
  rewrite bind_ok. cbn [aw_RobotID].
  destruct (get_game_ok cap M s id true (now e) Hs Hid Hn) as (t & -> & Hs'). rewrite bind_ok, Ey in *. cbn [fmap option_fmap option_map touch] in *.
  set (y' := RunGame.SetLastTime (now e) y) in *. change (m_others y') with (m_others y).
  assert (∃ b, answer_action m_mapGame bt conf json (mkAnswer id (u32 hd) (u32 rn) (u8 sq) (u32 role) (u64 room_) resp info) nErrCode y' (sv_robot (set_games t s)) = Ok (sv_robot s, inl (RC_INTERNAL, b)) ∧
    (b = true → GetRunState (m_others y) ≠ GRS_WAIT_ROBOT_ACTION)) as (b & -> & Hb).
  { unfold answer_action. cbn [aw_HandID aw_Round].
    change (m_others y') with (m_others y). destruct (Z.eqb_spec (u32 hd) (GetHandID (m_others y))); cbn [negb]; [|by exists false].
    destruct (Z.eqb_spec (u32 rn) (GetRound (m_others y))); cbn [negb]; [|by exists false].
    destruct (Z.eqb_spec (GetRunState (m_others y)) GRS_WAIT_ROBOT_ACTION); cbn [negb]; [by destruct Hl as [?|[?|?]]|by exists true]. }
  rewrite !bind_ok. assert (b && (GetRunState (m_others y) =? GRS_WAIT_ROBOT_ACTION) = false) as ->.
  { destruct b; [|done]. by rewrite (proj2 (Z.eqb_neq _ _)) by auto. }
  destruct (put_data_ok cap (<[id := y']> M) (set_robot (sv_robot s) (set_games t s)) y' (m_others y)) as (t' & -> & Hs2).
  - done.
  - cbn. lia.
  - done.
  - cbn. rewrite Ek, lookup_insert_eq. eauto.
  - rewrite bind_ok. eexists. split; [done|]. split; [done|]. split; [done|]. cbn [sv_games set_games set_robot]. cbn in Hs2. rewrite Ek in Hs2.
    rewrite insert_insert_eq in Hs2. rewrite <-Ek in Hs2 at 2. exact Hs2.
Qed.

(** ** A concrete server *)
Definition demo_table : GameTable := games_table 100 10.
#[local] Existing Instance demo_robot.
#[local] Existing Instance demo_robot_ok.
#[local] Existing Instance demo_table.
Definition demo_table_ok : GameTableOk demo_table := games_table_ok 100 10.
#[local] Existing Instance demo_table_ok.
Definition empty_game : CRunGame GameData := mkRunGame 0 0 blank_data.
Definition demo_env : Env := mkEnv 100 (λ _, true) true 0 0 blank_data (replicate 10 0) (replicate 10 0).

(** A table of eight games can be made. *)
Lemma demo_empty : ∃ t, t_sound 8 t ∅.
Proof.
  destruct (RunGame.games_Init_sound 1000 empty_game 8 4 (mkRunGameMap (mkTable ∅ (mkLinks ∅ ∅) (mkStack NULL 0) None 0 0) []))
    as (t & _ & Hs); [lia|lia|lia|vm_compute; discriminate|]. by exists t.
Qed.

(** The hand of [demo_data] for robot 9, in a table. *)
Lemma demo_one : ∃ t, t_sound 8 t {[9 := mkRunGame 9 100 demo_data]}.
Proof.
  destruct demo_empty as (t & Hs). destruct (t_step 8 t ∅ (RunGame.OAdd (mkRunGame 9 0 demo_data) 100) Hs) as (t' & _ & Hs'); [split; cbn; unfold RunGame.time_ok; lia|].
  exists t'. exact Hs'.
Qed.


(** The answer for hand 8 comes while hand 7 is played. *)
Definition late_answer : list Z := bytes "QUERY_ACTION#RobotID=9#HandID=8#Round=0#ActionSeq=0#RoleID=3#RoomID=12#Resp=x#ActionInfo=y#".
Lemma late_answer_ignored_witness : ∃ t s', t_sound 8 t {[9 := mkRunGame 9 100 demo_data]} ∧
  QueryActionResp demo_games demo_bt demo_conf (λ _, None) demo_env late_answer 0 (mkServer t 0 tt []) = Ok (RC_INTERNAL, s') ∧ sent s' = [].
Proof.
  destruct demo_one as (t & Hs).
  destruct (@late_answer_ignored demo_robot demo_table demo_table_ok demo_games demo_bt demo_conf (λ _, None) 8 {[9 := mkRunGame 9 100 demo_data]} (@mkServer demo_robot demo_table t 0 tt []) demo_env late_answer 0
    9 8 0 0 3 12 (bytes "x") (bytes "y") (mkRunGame 9 100 demo_data)) as (s' & E & Es & _).
  - exact Hs.
  - lia.
  - unfold RunGame.time_ok. cbn. lia.
  - vm_compute. reflexivity.
  - vm_compute. reflexivity.
  - vm_compute. reflexivity.
  - vm_compute. reflexivity.
  - vm_compute. reflexivity.
  - vm_compute. reflexivity.
  - vm_compute. reflexivity.
  - vm_compute. reflexivity.
  - apply lookup_singleton_eq.
  - left. vm_compute. discriminate.
  - exists t, s'. split; [exact Hs|]. split; [exact E|exact Es].
Defined.
