(* ===== verification/ActionTree.v ===== *)
(** * The betting tree of the strategy server ([action_tree.cpp], [nonterminal_ids.cpp])

    The strategy server reads the betting tree its values were computed for.  Nodes are
    shared: a node that can be reached in several ways is one object, and the file names it
    again by its header alone.  The objects are kept in a store, a list of nodes in the
    order of their creation; a pointer is a place in it.  [last_bet_to_] and [num_succs_]
    are [short]. *)

From stdpp Require Import base list list_numbers numbers option gmap.
From S2P Require Import Prelude BotGame Reader.
Open Scope Z_scope.

Definition kHasCallSuccFlag : Z := 1.
Definition kHasFoldSuccFlag : Z := 2.
Definition kStreetMask : Z := 24.
Definition kStreetShift : Z := 3.

Record Node := mkANode {
  succs_ : list (option nat); id_ : Z; last_bet_to_ : Z; num_succs_ : Z; flags_ : Z; player_acting_ : Z; num_remaining_ : Z }.

(** ** The accessors of a node *)
Definition street_of (flags : Z) : Z := Z.shiftr (Z.land flags kStreetMask) kStreetShift.

Definition Terminal (n : Node) : bool := num_succs_ n =? 0.
Definition TerminalID (n : Node) : Z := if Terminal n then id_ n else -1.
Definition NonterminalID (n : Node) : Z := if Terminal n then -1 else id_ n.
Definition Street (n : Node) : Z := street_of (flags_ n).
Definition Showdown (n : Node) : bool := Terminal n && (1 <? num_remaining_ n).
Definition HasCallSucc (n : Node) : bool := nz (Z.land (flags_ n) kHasCallSuccFlag).
Definition HasFoldSucc (n : Node) : bool := nz (Z.land (flags_ n) kHasFoldSuccFlag).
Definition CallSuccIndex (n : Node) : Z := if HasCallSucc n then 0 else -1.
Definition FoldSuccIndex (n : Node) : Z := if HasFoldSucc n then if HasCallSucc n then 1 else 0 else -1.
Definition DefaultSuccIndex (n : Node) : Z := if HasFoldSucc n then FoldSuccIndex n else 0.

(** [succs_[ i ].get()]; using a null pointer is a fault. *)
Definition IthSucc (n : Node) (i : Z) : res nat :=
  o ← rd (succs_ n) i; match o with Some q => Ok q | None => Err OutOfBounds end.
Definition deref (h : list Node) (p : nat) : res Node := match h !! p with Some n => Ok n | None => Err OutOfBounds end.

Definition SetIthSucc (h : list Node) (p : nat) (s : Z) (q : nat) : res (list Node) :=
  n ← deref h p;
  l ← wr (succs_ n) s (Some q);
  Ok (<[p := mkANode l (id_ n) (last_bet_to_ n) (num_succs_ n) (flags_ n) (player_acting_ n) (num_remaining_ n)]> h).

Definition StreetInitial (h : list Node) (n : Node) : res bool :=
  if Terminal n then Ok false else
  let csi := CallSuccIndex n in
  if csi =? -1 then Ok false else
  q ← IthSucc n csi;
  c ← deref h q;
  Ok (negb (Terminal c) && (Street c =? Street n)).

(** ** The constructors *)

(** A node with no successors set. *)
Definition Node_new (id last_bet_to num_succs flags player_acting num_remaining : Z) : Node :=
  mkANode (replicate (Z.to_nat num_succs) None) id (s16 last_bet_to) (s16 num_succs) flags player_acting num_remaining.

(** A node of the moves that are there: call, fold, bets. *)
Definition Node_make (id street player_acting : Z) (call_succ fold_succ : option nat) (bet_succs : list nat) (num_remaining bet_to : Z) : res Node :=
  let succs := option_list call_succ ++ option_list fold_succ ++ bet_succs in
  let flags := if call_succ is Some _ then kHasCallSuccFlag else 0 in
  let flags := if fold_succ is Some _ then Z.lor flags kHasFoldSuccFlag else flags in
  let flags := u16 (Z.lor flags (Z.shiftl (u16 street) kStreetShift)) in
  if 255 <? player_acting then Err Exited else
  if 255 <? num_remaining then Err Exited else
  Ok (mkANode (Some <$> succs) id (s16 bet_to) (s16 (Z.of_nat (length succs))) flags (u8 player_acting) (u8 num_remaining)).

(** The same node without its successors. *)
Definition Node_copy (src : Node) : Node :=
  mkANode (replicate (Z.to_nat (num_succs_ src)) None) (id_ src) (last_bet_to_ src) (num_succs_ src) (flags_ src) (player_acting_ src) (num_remaining_ src).

(** ** Reading a tree *)
Section Read.
Context (g : SGame).

(** What reading changes: the reader, the maps from ids to nodes (one per street and
    player), the store and [num_terminals_]. *)
Record Loading := mkLoading { ld_reader : Reader; ld_maps : list (gmap Z nat); ld_nodes : list Node; ld_terminals : Z }.

(** The header of a node: id, bet, number of successors, flags, player, players left. *)
Definition read_header (r : Reader) : res (Reader * Node) :=
  '(r, id) ← ReadUnsignedIntOrDie r;
  '(r, last_bet_to) ← ReadUnsignedShortOrDie r;
  '(r, num_succs) ← ReadUnsignedShortOrDie r;
  '(r, flags) ← ReadUnsignedShortOrDie r;
  '(r, pa) ← ReadUnsignedCharOrDie r;
  '(r, num_remaining) ← ReadUnsignedCharOrDie r;
  Ok (r, Node_new (s32 id) last_bet_to num_succs flags pa num_remaining).

(** One unit of fuel per node on the way down. *)
Fixpoint Read (fuel : nat) (l : Loading) : res (Loading * nat) :=
  match fuel with
  | O => Err OutOfFuel
  | S fuel =>
      '(r, n) ← read_header (ld_reader l);
      let num_succs := Z.of_nat (length (succs_ n)) in
      let map_index := Street n * NumPlayers g + player_acting_ n in
      let node := length (ld_nodes l) in
      if num_succs =? 0 then
        t ← i32 (ld_terminals l + 1);
        Ok (mkLoading r (ld_maps l) (ld_nodes l ++ [n]) t, node)
      else
        m ← rd (ld_maps l) map_index;
        match m !! id_ n with
        | Some q => Ok (mkLoading r (ld_maps l) (ld_nodes l) (ld_terminals l), q)
        | None =>
            maps ← wr (ld_maps l) map_index (<[id_ n := node]> m);
            l ← for_ 0 num_succs (mkLoading r maps (ld_nodes l ++ [n]) (ld_terminals l)) (λ s l,
              '(l, succ) ← Read fuel l;
              h ← SetIthSucc (ld_nodes l) node s succ;
              Ok (mkLoading (ld_reader l) (ld_maps l) h (ld_terminals l)));
            Ok (l, node)
        end
  end.

(** ** Walks

    The recursive functions over the nodes share their form: something is done at the node,
    and if it says so the same happens at every successor in turn.  One unit of fuel per
    node on the way down; the store has more nodes than a way without repetition. *)
Fixpoint walk_from {S} (fuel : nat) (h : list Node) (visit : Node → S → res (S * bool)) (p : nat) (s : S) : res S :=
  match fuel with
  | O => Err OutOfFuel
  | Datatypes.S fuel =>
      n ← deref h p;
      '(s, go) ← visit n s;
      if (go : bool) then for_ 0 (num_succs_ n) s (λ i s, q ← IthSucc n i; walk_from fuel h visit q s) else Ok s
  end.

Record ActionTree := mkActionTree { nodes : list Node; root_ : nat; num_terminals_ : Z; terminals_ : list (option Node); num_nonterminals_ : list Z }.

Definition FillTerminal (num_terminals : Z) (node : Node) (terminals : list (option Node)) : res (list (option Node) * bool) :=
  if Terminal node then
    let terminal_id := TerminalID node in
    if num_terminals <=? terminal_id then Err Exited else
    terminals ← wr terminals terminal_id (Some node);
    Ok (terminals, false)
  else Ok (terminals, true).
Definition FillTerminalArray (h : list Node) (root : nat) (num_terminals : Z) : res (list (option Node)) :=
  walk_from (S (length h)) h (FillTerminal num_terminals) root (replicate (Z.to_nat num_terminals) None).

Definition CountNonterminal (node : Node) (num_nonterminals : list Z) : res (list Z * bool) :=
  if Terminal node then Ok (num_nonterminals, false) else
  let index := player_acting_ node * (MaxStreet g + 1) + Street node in
  n ← rd num_nonterminals index;
  let nt_id := NonterminalID node in
  if n <=? nt_id then
    v ← i32 (nt_id + 1);
    num_nonterminals ← wr num_nonterminals index v;
    Ok (num_nonterminals, true)
  else Ok (num_nonterminals, true).
Definition CountNumNonterminals (h : list Node) (root : nat) : res (list Z) :=
  walk_from (S (length h)) h CountNonterminal root (replicate (Z.to_nat (NumPlayers g * (MaxStreet g + 1))) 0).

(** [ActionTree::Initialize]; [file] is the file of the tree. *)
Definition ActionTree_Initialize (fresh : Z → list Z) (file : list Z) : res ActionTree :=
  r ← Reader_new file fresh;
  let num_maps := (MaxStreet g + 1) * NumPlayers g in
  '(l, root) ← Read (S (length file)) (mkLoading r (replicate (Z.to_nat num_maps) ∅) [] 0);
  terminals ← FillTerminalArray (ld_nodes l) root (ld_terminals l);
  num_nonterminals ← CountNumNonterminals (ld_nodes l) root;
  Ok (mkActionTree (ld_nodes l) root (ld_terminals l) terminals num_nonterminals).

Definition NumNonterminals (t : ActionTree) (p st : Z) : res Z := rd (num_nonterminals_ t) (p * (MaxStreet g + 1) + st).
End Read.
