(* ===== verification/ActionTreeThm.v ===== *)
(** * The file of a betting tree is read back

    A betting tree is a [gtree]: headers and successors, without sharing.  [tree_entries]
    lists the headers in the order of the file: a nonterminal node that was listed before is
    listed again by its header alone.  Reading the file gives a store that [unfolds] to the
    tree, and the walks over the store are walks over the tree. *)

From stdpp Require Import base list list_numbers numbers option strings gmap sets.
From S2P Require Import Prelude BotGame Reader ActionTree.
Open Scope Z_scope.

Lemma rd_lookup {A} (l : list A) i x : 0 ≤ i → l !! Z.to_nat i = Some x → rd l i = Ok x.
Proof. intros Hi E. unfold rd. destruct (Z.ltb_spec i 0); [lia|]. by rewrite E. Qed.

(** ** Bytes of numbers *)
Fixpoint le_bytes (n : nat) (v : Z) : list Z := match n with O => [] | S n => v mod 256 :: le_bytes n (v / 256) end.

Lemma le_bytes_length n : ∀ v, length (le_bytes n v) = n.
Proof. induction n as [|n IH]; intros v; cbn; [done|by rewrite IH]. Qed.

Lemma of_le_bytes n : ∀ v, 0 ≤ v < 256 ^ Z.of_nat n → of_le (le_bytes n v) = v.
Proof.
  induction n as [|n IH]; intros v Hv; [cbn in *; lia|]. cbn [le_bytes of_le].
  rewrite Nat2Z.inj_succ, Z.pow_succ_r in Hv by lia. rewrite IH by (Z.div_mod_to_equations; nia).
  rewrite <- Z.add_nocarry_lor.
  - rewrite Z.shiftl_mul_pow2 by lia. change (2 ^ 8) with 256. Z.div_mod_to_equations. lia.
  - apply Z.bits_inj'. intros i Hi. rewrite Z.land_spec, Z.bits_0. destruct (decide (i < 8)) as [Hi8|Hi8].
    + rewrite Z.shiftl_spec_low by done. apply andb_false_r.
    + change 256 with (2 ^ 8). rewrite Z.mod_pow2_bits_high by lia. done.
Qed.

(** [ahead r l]: the bytes that [r] has still to deliver. *)
Definition ahead (r : Reader) (l : list Z) : Prop := ∃ p, reads_at r p ∧ drop (Z.to_nat p) (file r) = l.

Lemma ahead_new f fresh : (∀ n, length (fresh n) = Z.to_nat n) → ∃ r, Reader_new f fresh = Ok r ∧ ahead r f.
Proof. intros Hf. destruct (Reader_new_ok f fresh Hf) as (r & E & Hr & Ef). exists r. split; [done|]. exists 0. by rewrite Ef. Qed.

Lemma ahead_le r n conv v l : (1 ≤ n ≤ 8)%nat → 0 ≤ v < 256 ^ Z.of_nat n → ahead r (le_bytes n v ++ l) →
  ∃ r', OrDie (read_as (Z.of_nat n) conv) r = Ok (r', conv v) ∧ ahead r' l.
Proof.
  intros Hn Hv (p & Hr & E). pose proof (f_equal length E) as L. rewrite length_drop, length_app, le_bytes_length in L.
  pose proof (ra_low _ _ Hr) as H0.
  destruct (Read_k_ok r p (Z.of_nat n) Hr) as (r' & E' & Hr' & Ef); [lia|unfold left_at; lia|].
  exists r'. split.
  - unfold OrDie, read_as. rewrite E', !bind_ok. cbn [option_map]. rewrite E, Nat2Z.id, <- (le_bytes_length n v) at 1.
    by rewrite take_app_length, of_le_bytes.
  - exists (p + Z.of_nat n). split; [done|]. rewrite Ef, Z2Nat.inj_add, Nat2Z.id, <- drop_drop, E by lia.
    rewrite <- (le_bytes_length n v) at 1. by rewrite drop_app_length.
Qed.

(** The next number of the file, read by [f]. *)
Ltac read_number H n f :=
  match type of H with ahead ?r (le_bytes _ ?v ++ ?l) =>
    let Hv := fresh in
    assert (0 ≤ v < 256 ^ Z.of_nat n) as Hv by (change (Z.of_nat n) with ltac:(let k := eval cbv in (Z.of_nat n) in exact k); lia);
    let r' := fresh "r" in let E := fresh "E" in let H' := fresh in
    destruct (ahead_le r n id v l ltac:(lia) Hv H) as (r' & E & H'); clear H Hv;
    change (OrDie (read_as (Z.of_nat n) id)) with f in E; rewrite E, bind_ok; clear E; rename H' into H
  end.

Lemma ahead_end r l : ahead r l → AtEnd r = bool_decide (l = []).
Proof.
  intros (p & Hr & E). unfold AtEnd. pose proof (f_equal length E) as L. rewrite length_drop in L. destruct Hr.
  rewrite (proj2 (Z.eqb_eq (overflow_size_ r) 0)) by done. rewrite andb_true_r.
  destruct l as [|x l]; cbn in L; destruct (Z.eqb_spec (buf_ptr_ r) (end_read_ r)), (Z.eqb_spec (remaining_ r) 0); done || lia.
Qed.

(** ** Trees *)
Record Hdr := mkHdr { x_id : Z; x_bet : Z; x_flags : Z; x_pa : Z; x_rem : Z }.
Inductive gtree := GT (x : Hdr) (ts : list gtree).

Definition hdr (t : gtree) : Hdr := let 'GT x _ := t in x.
Definition moves (t : gtree) : list gtree := let 'GT _ ts := t in ts.

Lemma gtree_ind_list (P : gtree → Prop) : (∀ x ts, Forall P ts → P (GT x ts)) → ∀ t, P t.
Proof.
  intros H. fix IH 1. intros [x ts]. apply H. induction ts as [|t ts IHts]; constructor; [apply IH|exact IHts].
Qed.

(** All nodes in the order of a walk. *)
Fixpoint visits (t : gtree) : list gtree := t :: flat_map visits (moves t).

(** The street, the player and the id of a node name it. *)
Definition key (t : gtree) : Z * Z * Z := (street_of (x_flags (hdr t)), x_pa (hdr t), x_id (hdr t)).

Fixpoint tree_entries (seen : gset (Z * Z * Z)) (t : gtree) : list gtree * gset (Z * Z * Z) :=
  match moves t with
  | [] => ([t], seen)
  | _ =>
      if decide (key t ∈ seen) then ([t], seen) else
      let '(l, seen) :=
        (fix go seen ts :=
           match ts with
           | [] => ([], seen)
           | u :: ts => let '(l1, seen) := tree_entries seen u in let '(l2, seen) := go seen ts in (l1 ++ l2, seen)
           end) ({[key t]} ∪ seen) (moves t) in
      (t :: l, seen)
  end.
Fixpoint forest_entries (seen : gset (Z * Z * Z)) (ts : list gtree) : list gtree * gset (Z * Z * Z) :=
  match ts with
  | [] => ([], seen)
  | u :: ts => let '(l1, seen) := tree_entries seen u in let '(l2, seen) := forest_entries seen ts in (l1 ++ l2, seen)
  end.

Lemma tree_entries_eq seen x ts : tree_entries seen (GT x ts) =
  match ts with
  | [] => ([GT x ts], seen)
  | _ => if decide (key (GT x ts) ∈ seen) then ([GT x ts], seen) else
         let '(l, seen) := forest_entries ({[key (GT x ts)]} ∪ seen) ts in (GT x ts :: l, seen)
  end.
Proof. destruct ts; done. Qed.

Definition entry_bytes (t : gtree) : list Z :=
  let 'GT x ts := t in
  le_bytes 4 (x_id x) ++ le_bytes 2 (x_bet x) ++ le_bytes 2 (Z.of_nat (length ts)) ++ le_bytes 2 (x_flags x) ++
  le_bytes 1 (x_pa x) ++ le_bytes 1 (x_rem x).
Definition entries_bytes (l : list gtree) : list Z := concat (entry_bytes <$> l).

(** The file of a tree. *)
Definition tree_bytes (t : gtree) : list Z := entries_bytes (tree_entries ∅ t).1.

(** The terminal nodes among the entries. *)
Definition ends (l : list gtree) : Z := Z.of_nat (length (filter (λ t, moves t = []) l)).

Lemma visits_self t : t ∈ visits t.
Proof. destruct t. left. Qed.
Lemma visits_move t u v : u ∈ moves t → v ∈ visits u → v ∈ visits t.
Proof. destruct t as [x ts]. cbn. intros Hu Hv. right. apply list_elem_of_In, in_flat_map. exists u. by rewrite <- !list_elem_of_In. Qed.
Lemma visits_trans t : ∀ u v, u ∈ visits t → v ∈ visits u → v ∈ visits t.
Proof.
  induction t as [x ts IH] using gtree_ind_list. intros u v Hu Hv. cbn in Hu. apply elem_of_cons in Hu as [->|Hu]; [done|].
  apply list_elem_of_In, in_flat_map in Hu as (w & Hw & Hu). rewrite <- list_elem_of_In in Hw, Hu. rewrite Forall_forall in IH.
  apply (visits_move _ w); [done|]. by apply (IH w Hw u).
Qed.

(** A node is not below itself. *)
Fixpoint tsize (t : gtree) : nat := S (list_sum (map tsize (moves t))).

Lemma tsize_move t u : u ∈ moves t → (tsize u < tsize t)%nat.
Proof.
  destruct t as [x ts]. cbn. induction ts as [|w ts IH]; intros Hu; [by apply elem_of_nil in Hu|].
  apply elem_of_cons in Hu as [->|Hu]; cbn; [|specialize (IH Hu)]; lia.
Qed.
Lemma visits_size t : ∀ u, u ∈ visits t → (tsize u ≤ tsize t)%nat.
Proof.
  induction t as [x ts IH] using gtree_ind_list. intros u Hu. cbn [visits moves] in Hu. apply elem_of_cons in Hu as [->|Hu]; [done|].
  apply list_elem_of_In, in_flat_map in Hu as (w & Hw & Hu). rewrite <- list_elem_of_In in Hw, Hu. rewrite Forall_forall in IH.
  pose proof (IH w Hw u Hu). pose proof (tsize_move (GT x ts) w Hw). lia.
Qed.

(** ** The store of a tree *)
Definition node_of (x : Hdr) (qs : list nat) : Node :=
  mkANode (Some <$> qs) (x_id x) (s16 (x_bet x)) (Z.of_nat (length qs)) (x_flags x) (x_pa x) (x_rem x).

Fixpoint unfolds (h : list Node) (t : gtree) (p : nat) : Prop :=
  ∃ qs, h !! p = Some (node_of (hdr t) qs) ∧
    (fix go ts qs := match ts, qs with [], [] => True | u :: ts, q :: qs => unfolds h u q ∧ go ts qs | _, _ => False end) (moves t) qs.

Lemma unfolds_eq h x ts p : unfolds h (GT x ts) p ↔ ∃ qs, h !! p = Some (node_of x qs) ∧ Forall2 (unfolds h) ts qs.
Proof.
  cbn. split; intros (qs & E & H); exists qs; (split; [done|]); clear E; revert qs H.
  - induction ts as [|u ts IH]; intros [|q qs] H; try done. destruct H as [H1 H2]. constructor; [done|by apply IH].
  - induction ts as [|u ts IH]; intros qs H; inversion H; subst; [done|]. split; [done|by apply IH].
Qed.

(** A node whose successors are not all set is in no tree; changing it changes none. *)
Lemma unfolds_stable h h' n nd : h !! n = Some nd → None ∈ succs_ nd → (∀ i x, i ≠ n → h !! i = Some x → h' !! i = Some x) →
  ∀ t p, unfolds h t p → unfolds h' t p.
Proof.
  intros Hn Hnone Hk t. induction t as [x ts IH] using gtree_ind_list. intros p H. apply unfolds_eq in H as (qs & E & F).
  apply unfolds_eq. exists qs. split.
  - apply Hk; [|done]. intros ->. rewrite E in Hn. injection Hn as <-. cbn in Hnone. apply list_elem_of_fmap in Hnone as (? & ? & _). done.
  - clear E. revert qs F. induction IH as [|u ts Hu _ IHts]; intros qs F; inversion F; subst; constructor; [by apply Hu|by apply IHts].
Qed.

Lemma unfolds_grow h h' : (∀ i x, h !! i = Some x → h' !! i = Some x) → ∀ t p, unfolds h t p → unfolds h' t p.
Proof.
  intros Hk t. induction t as [x ts IH] using gtree_ind_list. intros p H. apply unfolds_eq in H as (qs & E & F).
  apply unfolds_eq. exists qs. split; [by apply Hk|]. clear E.
  revert qs F. induction IH as [|u ts Hu _ IHts]; intros qs F; inversion F; subst; constructor; [by apply Hu|by apply IHts].
Qed.

(** A place of the store has trees of one size only. *)
Lemma unfolds_size h t : ∀ u p, unfolds h t p → unfolds h u p → tsize t = tsize u.
Proof.
  induction t as [x ts IH] using gtree_ind_list. intros [y us] p Ht Hu.
  apply unfolds_eq in Ht as (qs & E & F). apply unfolds_eq in Hu as (qs' & E' & F'). rewrite E in E'.
  assert (qs = qs') as <- by (apply (inj (fmap Some)); by injection E').
  cbn. do 2 f_equal. clear E E'. revert qs us F F'.
  induction IH as [|t ts Ht _ IHts]; intros qs us F F'; inversion F; subst; inversion F'; subst; [done|]. cbn. f_equal; [by eapply Ht|by eapply IHts].
Qed.

(** A way down a tree visits different places, so that the store is longer than it. *)
Fixpoint height (t : gtree) : nat := S (foldr max 0%nat (map height (moves t))).

Lemma tallest ts : ts ≠ [] → ∃ t, t ∈ ts ∧ foldr max 0%nat (map height ts) = height t.
Proof.
  induction ts as [|t ts IH]; [done|]. intros _. destruct ts as [|u ts]; [exists t; split; [left|cbn; lia]|].
  destruct IH as (v & Hv & E); [done|]. cbn [map foldr] in *. destruct (decide (foldr max 0%nat (map height (u :: ts)) ≤ height t)%nat) as [Hle|Hgt].
  - exists t. split; [left|]. cbn [map foldr] in Hle. lia.
  - exists v. split; [by right|]. cbn [map foldr] in Hgt. lia.
Qed.

Lemma way_down h t : ∀ p, unfolds h t p → ∃ l, length l = height t ∧ NoDup l ∧ ∀ q, q ∈ l → (q < length h)%nat ∧ ∃ u, unfolds h u q ∧ (tsize u ≤ tsize t)%nat.
Proof.
  induction t as [x ts IH] using gtree_ind_list. intros p H. pose proof H as Hp. apply unfolds_eq in H as (qs & E & F).
  destruct (decide (ts = [])) as [->|Hne].
  - exists [p]. split; [done|]. split; [apply NoDup_singleton|]. intros q ->%list_elem_of_singleton. split; [by eapply lookup_lt_Some|]. by exists (GT x []).
  - destruct (tallest ts Hne) as (t & Ht & Eh). rewrite Forall_forall in IH.
    destruct (list_elem_of_lookup_1 _ _ Ht) as [i Hi]. destruct (Forall2_lookup_l _ _ _ _ _ F Hi) as (q & Hq & Hu).
    destruct (IH t Ht q Hu) as (l & Ll & Nl & Hl). exists (p :: l). pose proof (tsize_move (GT x ts) t Ht) as Hs. split; [|split].
    + cbn [length height moves]. rewrite Ll, Eh. done.
    + constructor; [|done]. intros (_ & u & Hu' & Hsz)%Hl. pose proof (unfolds_size h _ _ _ Hp Hu'). lia.
    + intros r [->|Hr]%elem_of_cons; [split; [by eapply lookup_lt_Some|by exists (GT x ts)]|].
      destruct (Hl r Hr) as (? & u & ? & ?). split; [done|]. exists u. split; [done|lia].
Qed.

Lemma height_store h t p : unfolds h t p → (height t ≤ length h)%nat.
Proof.
  intros H. destruct (way_down h t p H) as (l & <- & N & Hl). transitivity (length (seq 0 (length h))); [|by rewrite length_seq].
  apply submseteq_length, NoDup_submseteq; [done|].
  intros q Hq. apply elem_of_seq. destruct (Hl q Hq). lia.
Qed.

(** ** Walks over the store are walks over the tree *)
Lemma IthSucc_node x qs i q : qs !! i = Some q → IthSucc (node_of x qs) (Z.of_nat i) = Ok q.
Proof.
  intros E. unfold IthSucc. rewrite (rd_lookup _ _ (Some q)); [done|lia|]. cbn [succs_ node_of]. by rewrite Nat2Z.id, list_lookup_fmap, E.
Qed.

Lemma walk_visits {S} h (visit : Node → S → res (S * bool)) (go : gtree → bool) (f : gtree → S → res S) t :
  (∀ u q qs s, u ∈ visits t → unfolds h u q → h !! q = Some (node_of (hdr u) qs) → visit (node_of (hdr u) qs) s = (s ← f u s; Ok (s, go u))) →
  (∀ u, u ∈ visits t → moves u ≠ [] → go u = true) →
  ∀ p fuel s, unfolds h t p → (height t ≤ fuel)%nat → walk_from fuel h visit p s = foldM f (visits t) s.
Proof.
  induction t as [x ts IH] using gtree_ind_list. intros Hv Hgo p fuel s H Hf. pose proof H as Hp. apply unfolds_eq in H as (qs & E & F).
  destruct fuel as [|fuel]; [cbn in Hf; lia|]. cbn [walk_from visits moves foldM]. unfold deref. rewrite E, bind_ok.
  pose proof (Hv (GT x ts) p qs s (visits_self _) Hp E) as Q. cbn [hdr] in Q. rewrite Q. clear Q. destruct (f (GT x ts) s) as [s1|]; [|done]. rewrite !bind_ok.
  pose proof (Forall2_length _ _ _ F) as L.
  destruct (go (GT x ts)) eqn:Eg.
  2:{ destruct ts as [|t ts]; [done|]. rewrite Hgo in Eg; [done|left|done]. }
  cbn [num_succs_ node_of]. unfold for_. rewrite Z.sub_0_r.
  assert (∀ done_ rest qd us s, qs = qd ++ rest → length qd = done_ → Forall2 (unfolds h) us rest → us ⊆ ts →
    foldM (λ i s, q ← IthSucc (node_of x qs) i; walk_from fuel h visit q s) (seqZ (Z.of_nat done_) (Z.of_nat (length rest))) s
    = foldM f (flat_map visits us) s) as G.
  { clear s s1. intros done_ rest. revert done_. induction rest as [|q rest IHr]; intros done_ qd us s Eq Ed Fu Hus; inversion Fu; subst; [done|].
    rewrite seqZ_cons by (cbn [length]; lia). cbn [foldM flat_map]. rewrite foldM_app.
    rewrite (IthSucc_node x _ _ q) by (by rewrite list_lookup_middle). rewrite bind_ok.
    rewrite Forall_forall in IH. assert (x0 ∈ ts) as Hx by (apply Hus; left).
    rewrite (IH x0 Hx).
    - destruct (foldM f (visits x0) s) as [s1|]; [|done]. rewrite !bind_ok.
      replace (Z.succ (Z.of_nat (length qd))) with (Z.of_nat (Datatypes.S (length qd))) by lia.
      replace (Z.pred (Z.of_nat (length (q :: rest)))) with (Z.of_nat (length rest)) by (cbn [length]; lia).
      apply (IHr (Datatypes.S (length qd)) (qd ++ [q])); [by rewrite <- app_assoc|rewrite length_app; cbn; lia|done|]. intros u Hu. apply Hus. by right.
    - intros u q' qs' s' Hu. apply Hv. by apply (visits_move _ x0).
    - intros u Hu. apply Hgo. by apply (visits_move _ x0).
    - done.
    - cbn [height moves] in Hf. enough (height x0 ≤ foldr max 0 (map height ts))%nat by lia. clear - Hx.
      induction ts as [|t ts IH]; [by apply elem_of_nil in Hx|]. apply elem_of_cons in Hx as [->|Hx]; cbn; [lia|]. specialize (IH Hx). lia. }
  apply (G 0%nat qs [] ts); done.
Qed.

(** ** Reading the file *)
Lemma street_range f : 0 ≤ street_of f ≤ 3.
Proof.
  unfold street_of, kStreetMask, kStreetShift. change 24 with (Z.shiftl (Z.ones 2) 3).
  assert (0 ≤ Z.shiftr (Z.land f (Z.shiftl (Z.ones 2) 3)) 3 < 2 ^ 2) as H; [|lia].
  rewrite Z.shiftr_land, Z.shiftr_shiftl_l, Z.sub_diag, Z.shiftl_0_r, Z.land_ones by lia. apply Z.mod_pos_bound. lia.
Qed.

Lemma s32_read_back z : 0 ≤ z < 2147483648 → s32 z = z.
Proof. intros H. unfold s32. rewrite Z.mod_small; lia. Qed.
Lemma s16_small z : 0 ≤ z < 32768 → s16 z = z.
Proof. intros H. unfold s16. rewrite Z.mod_small; lia. Qed.

(** A node with successors still to be set. *)
Definition partial (x : Hdr) (qs : list nat) (k : nat) : Node :=
  mkANode ((Some <$> qs) ++ replicate k None) (x_id x) (s16 (x_bet x)) (Z.of_nat (length qs + k)) (x_flags x) (x_pa x) (x_rem x).

Lemma partial_full x qs : partial x qs 0 = node_of x qs.
Proof. unfold partial, node_of. cbn [replicate]. by rewrite app_nil_r, Nat.add_0_r. Qed.

Lemma SetIthSucc_partial h p x qs k q : h !! p = Some (partial x qs (S k)) →
  SetIthSucc h p (Z.of_nat (length qs)) q = Ok (<[p := partial x (qs ++ [q]) k]> h).
Proof.
  intros E. unfold SetIthSucc, deref. rewrite E, bind_ok. cbn [succs_ partial]. rewrite wr_ok by (rewrite length_app, length_fmap, length_replicate; lia).
  rewrite bind_ok, Nat2Z.id. do 2 f_equal. unfold partial. f_equal.
  - rewrite insert_app_r_alt by (rewrite length_fmap; lia). rewrite length_fmap, Nat.sub_diag. cbn. by rewrite fmap_app, <- app_assoc.
  - rewrite length_app. cbn. lia.
Qed.

Section Reading.
Context (g : SGame) (Hnp : 0 < NumPlayers g).

Record hdr_ok (t : gtree) : Prop := {
  hd_id : 0 ≤ x_id (hdr t) < 2147483647;
  hd_bet : 0 ≤ x_bet (hdr t) < 65536;
  hd_flags : 0 ≤ x_flags (hdr t) < 65536;
  hd_pa : 0 ≤ x_pa (hdr t) < 256;
  hd_rem : 0 ≤ x_rem (hdr t) < 256;
  hd_moves : Z.of_nat (length (moves t)) < 32768;
  hd_player : moves t ≠ [] → x_pa (hdr t) < NumPlayers g ∧ street_of (x_flags (hdr t)) ≤ MaxStreet g }.

Lemma read_header_ok r t rest : hdr_ok t → ahead r (entry_bytes t ++ rest) →
  ∃ r', read_header r = Ok (r', partial (hdr t) [] (length (moves t))) ∧ ahead r' rest.
Proof.
  intros [] Ha. destruct t as [x ts]. cbn [entry_bytes hdr moves] in *. rewrite <- !app_assoc in Ha. unfold read_header.
  read_number Ha 4%nat ReadUnsignedIntOrDie. read_number Ha 2%nat ReadUnsignedShortOrDie. read_number Ha 2%nat ReadUnsignedShortOrDie.
  read_number Ha 2%nat ReadUnsignedShortOrDie. read_number Ha 1%nat ReadUnsignedCharOrDie. read_number Ha 1%nat ReadUnsignedCharOrDie.
  eexists. split; [|exact Ha]. unfold Node_new, partial, id. rewrite s32_read_back, (s16_small (Z.of_nat _)), Nat2Z.id by lia. done.
Qed.

(** The maps as one. *)
Definition place_of_key (k : Z * Z * Z) : Z := k.1.1 * NumPlayers g + k.1.2.
Definition node_at (maps : list (gmap Z nat)) (k : Z * Z * Z) : option nat :=
  match maps !! Z.to_nat (place_of_key k) with Some m => m !! k.2 | None => None end.
Definition key_ok (k : Z * Z * Z) : Prop := 0 ≤ k.1.1 ≤ MaxStreet g ∧ 0 ≤ k.1.2 < NumPlayers g.

Lemma key_place k (maps : list (gmap Z nat)) : key_ok k → length maps = Z.to_nat ((MaxStreet g + 1) * NumPlayers g) → 0 ≤ place_of_key k < Z.of_nat (length maps).
Proof. intros [H1 H2] ->. unfold place_of_key. nia. Qed.

Lemma node_at_insert maps k k' m n : key_ok k → key_ok k' → maps !! Z.to_nat (place_of_key k) = Some m →
  node_at (<[Z.to_nat (place_of_key k) := <[k.2 := n]> m]> maps) k' = if decide (k = k') then Some n else node_at maps k'.
Proof.
  intros [H1 H2] [H3 H4] E. unfold node_at. pose proof (lookup_lt_Some _ _ _ E) as Hlt. destruct k as [[st pa] id], k' as [[st' pa'] id'].
  cbn [fst snd] in *. unfold place_of_key in *. cbn [fst snd] in *.
  destruct (decide (st * NumPlayers g + pa = st' * NumPlayers g + pa')) as [Ep|Np].
  - rewrite <- Ep, list_lookup_insert_eq by done. assert (st = st') as <- by nia. assert (pa = pa') as <- by nia.
    case_decide as Hd; [injection Hd as <-; by rewrite lookup_insert_eq|]. rewrite lookup_insert_ne by congruence. by rewrite E.
  - rewrite list_lookup_insert_ne by nia. case_decide as Hd; [injection Hd as <- <- <-; done|done].
Qed.

Context (T : gtree).
Record tree_ok : Prop := {
  tr_hdrs : ∀ u, u ∈ visits T → hdr_ok u;
  tr_keys : ∀ u v, u ∈ visits T → v ∈ visits T → moves u ≠ [] → moves v ≠ [] → key u = key v → u = v }.
Context (HT : tree_ok).

Lemma key_visit u : u ∈ visits T → moves u ≠ [] → key_ok (key u).
Proof. intros Hu Hm. destruct (tr_hdrs HT u Hu) as [_ _ _ Hpa _ _ Hpl]. destruct (Hpl Hm). pose proof (street_range (x_flags (hdr u))). split; cbn; lia. Qed.

(** While the tree is read: the nodes in the maps are those seen; all of them are complete
    but those on the way to the current node. *)
Record reading (l : Loading) (seen prog : gset (Z * Z * Z)) : Prop := {
  re_maps : length (ld_maps l) = Z.to_nat ((MaxStreet g + 1) * NumPlayers g);
  re_seen : ∀ k, key_ok k → (k ∈ seen ↔ node_at (ld_maps l) k ≠ None);
  re_done : ∀ k q, key_ok k → node_at (ld_maps l) k = Some q → k ∈ prog ∨ ∃ v, v ∈ visits T ∧ moves v ≠ [] ∧ key v = k ∧ unfolds (ld_nodes l) v q }.

Definition read_back (u : gtree) : Prop := ∀ fuel l seen prog rest, u ∈ visits T → (length (tree_entries seen u).1 ≤ fuel)%nat →
  ahead (ld_reader l) (entries_bytes (tree_entries seen u).1 ++ rest) → reading l seen prog →
  (∀ v, v ∈ visits u → moves v ≠ [] → key v ∉ prog) → 0 ≤ ld_terminals l → ld_terminals l + ends (tree_entries seen u).1 ≤ INT32_MAX →
  ∃ l' q, Read g fuel l = Ok (l', q) ∧ ahead (ld_reader l') rest ∧ unfolds (ld_nodes l') u q ∧ reading l' (tree_entries seen u).2 prog ∧
    (∀ i n, ld_nodes l !! i = Some n → ld_nodes l' !! i = Some n) ∧
    (∀ k q, key_ok k → node_at (ld_maps l) k = Some q → node_at (ld_maps l') k = Some q) ∧
    ld_terminals l' = ld_terminals l + ends (tree_entries seen u).1.

Lemma ends_app l1 l2 : ends (l1 ++ l2) = ends l1 + ends l2.
Proof. unfold ends. rewrite filter_app, length_app. lia. Qed.
Lemma ends_nonneg l : 0 ≤ ends l.
Proof. unfold ends. lia. Qed.
Lemma ends_leaf t l : moves t = [] → ends (t :: l) = 1 + ends l.
Proof. intros E. unfold ends. rewrite filter_cons_True by done. cbn. lia. Qed.
Lemma ends_node t l : moves t ≠ [] → ends (t :: l) = ends l.
Proof. intros E. unfold ends. by rewrite filter_cons_False. Qed.
Lemma bytes_app l1 l2 : entries_bytes (l1 ++ l2) = entries_bytes l1 ++ entries_bytes l2.
Proof. unfold entries_bytes. by rewrite fmap_app, concat_app. Qed.

(** The nodes of [l] and more. *)
Lemma reading_grow l l' seen prog : ld_maps l' = ld_maps l → (∀ v q, unfolds (ld_nodes l) v q → unfolds (ld_nodes l') v q) →
  reading l seen prog → reading l' seen prog.
Proof.
  intros Em Hu [H1 H2 H3]. split; rewrite Em; [done|done|]. intros k q Hk E. destruct (H3 k q Hk E) as [?|(v & ? & ? & ? & ?)]; [by left|].
  right. exists v. by repeat split; try apply Hu.
Qed.

Lemma moves_back x fuel node us : Forall read_back us → ∀ l seen prog rest qs, (∀ u, u ∈ us → u ∈ visits T) →
  (length (forest_entries seen us).1 ≤ fuel)%nat → ahead (ld_reader l) (entries_bytes (forest_entries seen us).1 ++ rest) → reading l seen prog →
  (∀ u v, u ∈ us → v ∈ visits u → moves v ≠ [] → key v ∉ prog) → 0 ≤ ld_terminals l → ld_terminals l + ends (forest_entries seen us).1 ≤ INT32_MAX →
  ld_nodes l !! node = Some (partial x qs (length us)) →
  ∃ l' qs', foldM (λ s l, '(l, succ) ← Read g fuel l; h ← SetIthSucc (ld_nodes l) node s succ; Ok (mkLoading (ld_reader l) (ld_maps l) h (ld_terminals l)))
      (seqZ (Z.of_nat (length qs)) (Z.of_nat (length us))) l = Ok l' ∧ ahead (ld_reader l') rest ∧
    ld_nodes l' !! node = Some (node_of x (qs ++ qs')) ∧ Forall2 (unfolds (ld_nodes l')) us qs' ∧ reading l' (forest_entries seen us).2 prog ∧
    (∀ i n, i ≠ node → ld_nodes l !! i = Some n → ld_nodes l' !! i = Some n) ∧
    (∀ v q, unfolds (ld_nodes l) v q → unfolds (ld_nodes l') v q) ∧
    (∀ k q, key_ok k → node_at (ld_maps l) k = Some q → node_at (ld_maps l') k = Some q) ∧
    ld_terminals l' = ld_terminals l + ends (forest_entries seen us).1.
Proof.
  induction 1 as [|u us Hu _ IH]; intros l seen prog rest qs Hv Hf Ha Hr Hk Ht Hm En.
  - exists l, []. cbn [length] in En. rewrite partial_full in En. rewrite app_nil_r. cbn in *. unfold ends. cbn. by repeat split; try lia; try apply Hr.
  - cbn [forest_entries] in *. destruct (tree_entries seen u) as [l1 s1] eqn:E1. destruct (forest_entries s1 us) as [l2 s2] eqn:E2. cbn [fst snd] in *.
    rewrite bytes_app, <- app_assoc in Ha. rewrite length_app in Hf. rewrite ends_app in *. pose proof (ends_nonneg l1). pose proof (ends_nonneg l2).
    destruct (Hu fuel l seen prog (entries_bytes l2 ++ rest)) as (la & q & Ea & Haa & Hua & Hra & Hna & Hma & Hta); rewrite ?E1 in *; cbn [fst snd] in *; try done; try lia.
    { apply Hv. left. } { intros v. apply Hk. left. }
    cbn [length]. rewrite seqZ_cons by lia. cbn [foldM]. rewrite Ea, bind_ok.
    apply Hna in En. cbn [length] in En. rewrite (SetIthSucc_partial _ _ _ _ _ _ En), !bind_ok.
    assert (∀ v q', unfolds (ld_nodes la) v q' → unfolds (<[node := partial x (qs ++ [q]) (length us)]> (ld_nodes la)) v q') as Hst.
    { intros v q'. apply (unfolds_stable _ _ node _ En); [|intros i n Hi E; by rewrite list_lookup_insert_ne].
      cbn [succs_ partial replicate]. apply elem_of_app. right. left. }
    match goal with |- context [foldM _ _ ?l0] => set (lb := l0) end.
    destruct (IH lb s1 prog rest (qs ++ [q])) as (l' & qs' & El & Hal & Enl & Ful & Hrl & Hnl & Hul & Hml & Htl); rewrite ?E2; cbn [fst snd] in *; try done.
    { intros w Hw. apply Hv. by right. } { lia. } { by apply (reading_grow la). } { intros w v Hw. apply Hk. by right. } { cbn. lia. } { cbn. lia. }
    { cbn. apply list_lookup_insert_eq. by eapply lookup_lt_Some. }
    rewrite E2 in *. cbn [fst snd] in *. exists l', (q :: qs').
    replace (Z.succ (Z.of_nat (length qs))) with (Z.of_nat (length (qs ++ [q]))) by (rewrite length_app; cbn; lia).
    replace (Z.pred (Z.of_nat (S (length us)))) with (Z.of_nat (length us)) by lia.
    split; [done|]. split; [done|]. split; [rewrite Enl; by rewrite <- app_assoc|]. split; [constructor; [by apply Hul, Hst|done]|]. split; [done|].
    split; [|split; [|split]].
    + intros i n Hi E. apply Hnl; [done|]. cbn. rewrite list_lookup_insert_ne by done. by apply Hna.
    + intros v q' Hq. apply Hul, Hst. by apply (unfolds_grow (ld_nodes l)).
    + intros k q' Hk' Hq. apply Hml; [done|]. cbn. by apply Hma.
    + rewrite Htl. cbn. lia.
Qed.

(** A node that is new is entered into the maps before its successors are read. *)
Lemma enter_reading l r seen prog t n : t ∈ visits T → moves t ≠ [] → key t ∉ seen → reading l seen prog →
  ∀ m, ld_maps l !! Z.to_nat (place_of_key (key t)) = Some m →
  reading (mkLoading r (<[Z.to_nat (place_of_key (key t)) := <[(key t).2 := length (ld_nodes l)]> m]> (ld_maps l)) (ld_nodes l ++ [n]) (ld_terminals l))
    ({[key t]} ∪ seen) ({[key t]} ∪ prog).
Proof.
  intros Hv Hm Hs Hr m Em. pose proof (key_visit _ Hv Hm) as Hko. split; cbn [ld_maps ld_nodes].
  - rewrite length_insert. apply Hr.
  - intros k Hk. rewrite (node_at_insert _ _ _ _ _ Hko Hk Em), elem_of_union, elem_of_singleton, (re_seen _ _ _ Hr k Hk). case_decide; naive_solver.
  - intros k q Hk. rewrite (node_at_insert _ _ _ _ _ Hko Hk Em). case_decide as Hd; [intros _; left; set_solver|]. intros Eq.
    destruct (re_done _ _ _ Hr k q Hk Eq) as [?|(v & ? & ? & ? & ?)]; [left; set_solver|]. right. exists v. repeat split; try done.
    apply (unfolds_grow (ld_nodes l)); [|done]. intros i y Ei. by apply lookup_app_l_Some.
Qed.

(** Behind its successors the node is complete. *)
Lemma leave_reading l seen prog t q : t ∈ visits T → moves t ≠ [] → node_at (ld_maps l) (key t) = Some q → unfolds (ld_nodes l) t q →
  reading l seen ({[key t]} ∪ prog) → reading l seen prog.
Proof.
  intros Hv Hm Hn Hu [H1 H2 H3]. split; [done|done|]. intros k q' Hk E. destruct (H3 k q' Hk E) as [[->%elem_of_singleton|?]%elem_of_union|?]; [|by left|by right].
  right. exists t. rewrite Hn in E. injection E as <-. done.
Qed.

Lemma leaf_back x : read_back (GT x []).
Proof.
  intros fuel l seen prog rest Hv Hf Ha Hr Hk Ht Hm. rewrite tree_entries_eq in *. cbn [fst snd length] in *. destruct fuel as [|fuel]; [lia|]. cbn [Read].
  unfold entries_bytes in Ha. cbn [fmap list_fmap concat] in Ha. rewrite app_nil_r in Ha.
  destruct (read_header_ok _ _ _ (tr_hdrs HT _ Hv) Ha) as (r & E & Har). rewrite E, bind_ok. cbn [hdr moves length succs_ partial replicate app fmap list_fmap].
  change (Z.of_nat 0 =? 0) with true. cbn iota. rewrite ends_leaf in * by done. change (ends []) with 0 in *. rewrite i32_ok by (unfold INT32_MIN; lia). rewrite bind_ok.
  eexists _, _. split; [done|]. cbn [ld_reader ld_nodes ld_maps ld_terminals].
  assert (∀ i n, ld_nodes l !! i = Some n → (ld_nodes l ++ [partial x [] 0]) !! i = Some n) as Hg by (intros i n E'; by apply lookup_app_l_Some).
  split; [done|]. split; [|split; [|split; [done|split; [done|lia]]]].
  - apply unfolds_eq. exists []. split; [|constructor]. rewrite <- partial_full. by apply list_lookup_middle.
  - eapply reading_grow; [| |exact Hr]; [done|]. by apply unfolds_grow.
Qed.

(** The part of [Read] up to the search for the node. *)
Lemma find_node fuel l seen prog t les rest : t ∈ visits T → moves t ≠ [] → reading l seen prog → ahead (ld_reader l) (entries_bytes (t :: les) ++ rest) →
  ∃ r m, ahead r (entries_bytes les ++ rest) ∧ ld_maps l !! Z.to_nat (place_of_key (key t)) = Some m ∧ node_at (ld_maps l) (key t) = m !! (key t).2 ∧
  Read g (S fuel) l =
    match m !! (key t).2 with
    | Some q => Ok (mkLoading r (ld_maps l) (ld_nodes l) (ld_terminals l), q)
    | None =>
        l' ← for_ 0 (Z.of_nat (length (moves t)))
               (mkLoading r (<[Z.to_nat (place_of_key (key t)) := <[(key t).2 := length (ld_nodes l)]> m]> (ld_maps l))
                  (ld_nodes l ++ [partial (hdr t) [] (length (moves t))]) (ld_terminals l))
               (λ s l', '(l', succ) ← Read g fuel l'; h ← SetIthSucc (ld_nodes l') (length (ld_nodes l)) s succ; Ok (mkLoading (ld_reader l') (ld_maps l') h (ld_terminals l')));
        Ok (l', length (ld_nodes l))
    end.
Proof.
  intros Hv Hm Hr Ha. pose proof (key_visit _ Hv Hm) as Hko. pose proof (key_place _ _ Hko (re_maps _ _ _ Hr)) as Hpl.
  destruct (lookup_lt_is_Some_2 (ld_maps l) (Z.to_nat (place_of_key (key t)))) as [m Em]; [lia|].
  unfold entries_bytes in Ha. cbn [fmap list_fmap concat] in Ha. rewrite <- app_assoc in Ha.
  destruct (read_header_ok _ _ _ (tr_hdrs HT _ Hv) Ha) as (r & E & Har). exists r, m. split; [done|]. split; [done|].
  split; [unfold node_at; by rewrite Em|]. cbn [Read]. rewrite E, bind_ok. cbn [succs_ partial app fmap list_fmap id_]. rewrite length_replicate.
  assert (Z.of_nat (length (moves t)) ≠ 0) as Hl by (destruct (moves t); [done|cbn; lia]).
  rewrite (proj2 (Z.eqb_neq _ 0)) by done. unfold Street. cbn [flags_ player_acting_ partial].
  change (street_of (x_flags (hdr t)) * NumPlayers g + x_pa (hdr t)) with (place_of_key (key t)).
  assert (rd (ld_maps l) (place_of_key (key t)) = Ok m) as ->.
  { apply rd_lookup; [lia|done]. }
  rewrite bind_ok. change (x_id (hdr t)) with (key t).2. destruct (m !! (key t).2); [done|]. by rewrite wr_ok, bind_ok by done.
Qed.

Lemma node_back x ts : ts ≠ [] → Forall read_back ts → read_back (GT x ts).
Proof.
  intros Hne IH fuel l seen prog rest Hv Hf Ha Hr Hk Ht Hm. pose proof (key_visit _ Hv Hne) as Hko. rewrite tree_entries_eq in *.
  assert (∀ A (a b : A), match ts with [] => a | _ => b end = b) as Em by (by destruct ts). rewrite Em in *. clear Em. case_decide as Hs.
  - cbn [fst snd] in *. destruct fuel as [|fuel]; [cbn in Hf; lia|].
    destruct (find_node fuel l seen prog _ [] rest Hv Hne Hr Ha) as (r & m & Har & _ & En & ->). rewrite <- En.
    apply (re_seen _ _ _ Hr _ Hko) in Hs. destruct (node_at (ld_maps l) (key (GT x ts))) as [q|] eqn:Eq; [|done].
    eexists _, q. split; [done|]. cbn [ld_reader ld_nodes ld_maps ld_terminals]. split; [done|].
    destruct (re_done _ _ _ Hr _ _ Hko Eq) as [Hp|(v & Hv' & Hm' & Ek & Hu)]; [by apply Hk in Hp; [|apply visits_self|]|].
    rewrite (tr_keys HT v (GT x ts)) in Hu by done. split; [done|]. split; [by apply (reading_grow l)|]. rewrite ends_node by done. change (ends []) with 0. repeat split; try done. lia.
  - destruct (forest_entries ({[key (GT x ts)]} ∪ seen) ts) as [le s'] eqn:Ef. cbn [fst snd length] in *. rewrite ends_node in * by done. destruct fuel as [|fuel]; [lia|].
    destruct (find_node fuel l seen prog _ le rest Hv Hne Hr Ha) as (r & m & Har & Em & En & ->).
    assert (m !! (key (GT x ts)).2 = None) as En0.
    { rewrite <- En. destruct (node_at (ld_maps l) (key (GT x ts))) eqn:Eq; [|done]. exfalso. apply Hs, (re_seen _ _ _ Hr _ Hko). by rewrite Eq. }
    rewrite En0. pose proof (enter_reading l r seen prog _ (partial x [] (length ts)) Hv Hne Hs Hr m Em) as Hr0. cbn [hdr moves]. set (l0 := mkLoading _ _ _ _) in *.
    assert (∀ i n, ld_nodes l !! i = Some n → ld_nodes l0 !! i = Some n) as Hg by (intros i n E'; by apply lookup_app_l_Some).
    destruct (moves_back x fuel (length (ld_nodes l)) ts IH l0 ({[key (GT x ts)]} ∪ seen) ({[key (GT x ts)]} ∪ prog) rest [])
      as (l' & qs' & El & Hal & Enl & Ful & Hrl & Hnl & Hul & Hml & Htl); rewrite ?Ef; cbn [fst snd] in *; try done; try lia.
    { intros u Hu. apply (visits_trans _ _ _ Hv), (visits_move _ u); [done|apply visits_self]. }
    { intros u v Hu Hv' Hm' [Hin%elem_of_singleton|Hin]%elem_of_union; [|by apply (Hk v) in Hin; [|by apply (visits_move _ u)|]].
      apply (tr_keys HT) in Hin; [|by apply (visits_trans _ _ _ Hv), (visits_move _ u)|done..]. subst v.
      pose proof (visits_size _ _ Hv'). pose proof (tsize_move (GT x ts) u Hu). lia. }
    { by apply list_lookup_middle. }
    rewrite Ef in *. cbn [fst snd] in *. change (Z.of_nat (length [])) with 0 in El. unfold for_. rewrite Z.sub_0_r, El, bind_ok. exists l', (length (ld_nodes l)). split; [done|]. split; [done|].
    assert (unfolds (ld_nodes l') (GT x ts) (length (ld_nodes l))) as Hun by (apply unfolds_eq; by exists qs'). split; [done|].
    assert (∀ k q, key_ok k → node_at (ld_maps l) k = Some q → node_at (ld_maps l') k = Some q) as Hkeep.
    { intros k q Hk' E. apply Hml; [done|]. cbn [l0 ld_maps]. rewrite (node_at_insert _ _ _ _ _ Hko Hk' Em). case_decide as Hd; [subst k; congruence|done]. }
    split; [|split; [|split; [done|done]]].
    + apply (leave_reading _ _ _ (GT x ts) (length (ld_nodes l))); try done. apply Hml; [done|]. cbn [l0 ld_maps]. rewrite (node_at_insert _ _ _ _ _ Hko Hko Em). by rewrite decide_True.
    + intros i n E. apply Hnl; [|by apply Hg]. apply lookup_lt_Some in E. lia.
Qed.

Lemma all_read_back u : read_back u.
Proof. induction u as [x ts IH] using gtree_ind_list. destruct ts; [apply leaf_back|by apply node_back]. Qed.
End Reading.

(** ** The tree that is read *)
Lemma store_moves h u q qs : unfolds h u q → h !! q = Some (node_of (hdr u) qs) → length qs = length (moves u).
Proof.
  destruct u as [x ts]. intros H E. apply unfolds_eq in H as (qs' & E' & F). rewrite E in E'. cbn [hdr] in E'.
  assert (qs = qs') as -> by (apply (inj (fmap Some)); by injection E'). symmetry. by eapply Forall2_length.
Qed.

Lemma store_terminal h u q qs : unfolds h u q → h !! q = Some (node_of (hdr u) qs) → Terminal (node_of (hdr u) qs) = bool_decide (moves u = []).
Proof.
  intros H E. unfold Terminal. cbn [num_succs_ node_of]. rewrite (store_moves h u q qs H E).
  destruct (moves u); [done|]. rewrite bool_decide_eq_false_2 by done. apply Z.eqb_neq. cbn [length]. lia.
Qed.

Lemma entries_bytes_length l : length (entries_bytes l) = (12 * length l)%nat.
Proof.
  induction l as [|[x ts] l IH]; [done|]. unfold entries_bytes in *. cbn [fmap list_fmap concat entry_bytes]. rewrite length_app, IH, !length_app, !le_bytes_length. cbn [length]. lia.
Qed.

(** One more than the largest id of a nonterminal node of player [p] on street [st]. *)
Definition acts (p st : Z) (t : gtree) : Prop := moves t ≠ [] ∧ x_pa (hdr t) = p ∧ street_of (x_flags (hdr t)) = st.
#[global] Instance acts_dec p st t : Decision (acts p st t) := _.
Definition nt_count (l : list gtree) (p st : Z) : Z := foldl (λ m t, if decide (acts p st t) then Z.max m (x_id (hdr t) + 1) else m) 0 l.

Lemma nt_count_snoc l t p st : nt_count (l ++ [t]) p st = if decide (acts p st t) then Z.max (nt_count l p st) (x_id (hdr t) + 1) else nt_count l p st.
Proof. unfold nt_count. by rewrite foldl_app. Qed.

Section Tree.
Context (g : SGame) (Hnp : 0 < NumPlayers g) (T : gtree) (HT : tree_ok g T).

Definition terminals_hold (l : list gtree) (terminals : list (option Node)) : Prop :=
  ∀ u, u ∈ l → moves u = [] → ∃ v, v ∈ visits T ∧ moves v = [] ∧ x_id (hdr v) = x_id (hdr u) ∧
    terminals !! Z.to_nat (x_id (hdr u)) = Some (Some (node_of (hdr v) [])).

Lemma FillTerminalArray_ok h root n : unfolds h T root → (∀ u, u ∈ visits T → moves u = [] → x_id (hdr u) < n) →
  ∃ a, FillTerminalArray h root n = Ok a ∧ terminals_hold (visits T) a.
Proof.
  intros Hu Hn. unfold FillTerminalArray.
  rewrite (walk_visits h _ (λ u, negb (bool_decide (moves u = [])))
    (λ u s, if bool_decide (moves u = []) then (if n <=? x_id (hdr u) then Err Exited else wr s (x_id (hdr u)) (Some (node_of (hdr u) []))) else Ok s) T).
  - destruct (foldM_inv (λ l a, length a = Z.to_nat n ∧ terminals_hold l a) (λ u s, if bool_decide (moves u = []) then
      (if n <=? x_id (hdr u) then Err Exited else wr s (x_id (hdr u)) (Some (node_of (hdr u) []))) else Ok s) (visits T) (replicate (Z.to_nat n) None)) as (a & E & _ & H); [| |by exists a].
    + split; [by rewrite length_replicate|]. intros u Hu'. by apply elem_of_nil in Hu'.
    + intros l u rest a El [La Ha]. assert (u ∈ visits T) as Hv by (rewrite El; set_solver). case_bool_decide as Hm.
      * pose proof (Hn u Hv Hm). destruct (tr_hdrs _ _ HT u Hv). rewrite (proj2 (Z.leb_gt _ _)) by done. rewrite wr_ok by lia. eexists. split; [done|].
        split; [by rewrite length_insert|]. intros w Hw Hm'. destruct (decide (x_id (hdr w) = x_id (hdr u))) as [Ei|Ni].
        { exists u. rewrite Ei, list_lookup_insert_eq by lia. done. }
        apply elem_of_app in Hw as [Hw| ->%list_elem_of_singleton]; [|done]. destruct (Ha w Hw Hm') as (v & ? & ? & ? & E). exists v. repeat split; try done.
        rewrite list_lookup_insert_ne; [done|]. assert (w ∈ visits T) as Hw' by (rewrite El; set_solver). destruct (tr_hdrs _ _ HT w Hw'). lia.
      * exists a. split; [done|]. split; [done|]. intros w [Hw| ->%list_elem_of_singleton]%elem_of_app Hm'; [by apply Ha|done].
  - intros u q qs s Hv Hq E. unfold FillTerminal, TerminalID. rewrite (store_terminal h u q qs Hq E). case_bool_decide as Hm; [|done]. cbn [id_ node_of].
    pose proof (store_moves h u q qs Hq E) as L. rewrite Hm in L. destruct qs; [|done]. destruct (n <=? x_id (hdr u)); [done|]. by destruct (wr _ _ _).
  - intros u _ Hm. by rewrite bool_decide_eq_false_2.
  - done.
  - pose proof (height_store h T root Hu). lia.
Qed.

Definition counts_hold (l : list gtree) (a : list Z) : Prop := length a = Z.to_nat (NumPlayers g * (MaxStreet g + 1)) ∧
  ∀ p st, 0 ≤ p < NumPlayers g → 0 ≤ st ≤ MaxStreet g → a !! Z.to_nat (p * (MaxStreet g + 1) + st) = Some (nt_count l p st).

Definition count_step (u : gtree) (a : list Z) : res (list Z) :=
  if bool_decide (moves u = []) then Ok a else
  let index := x_pa (hdr u) * (MaxStreet g + 1) + street_of (x_flags (hdr u)) in
  n ← rd a index;
  if n <=? x_id (hdr u) then v ← i32 (x_id (hdr u) + 1); wr a index v else Ok a.

Lemma count_step_ok l u a : u ∈ visits T → counts_hold l a → ∃ a', count_step u a = Ok a' ∧ counts_hold (l ++ [u]) a'.
Proof.
  intros Hv [La Ha]. unfold count_step. destruct (tr_hdrs _ _ HT u Hv) as [Hid _ _ Hpa _ _ Hpl]. case_bool_decide as Hm.
  { exists a. split; [done|]. split; [done|]. intros p st Hp Hst. rewrite nt_count_snoc, decide_False by (unfold acts; naive_solver). by apply Ha. }
  destruct (Hpl Hm) as [Hp Hst]. pose proof (street_range (x_flags (hdr u))) as Hs0. set (index := x_pa (hdr u) * (MaxStreet g + 1) + street_of (x_flags (hdr u))).
  assert (0 ≤ index < Z.of_nat (length a)) as Hi by (rewrite La; unfold index; nia). cbv zeta.
  assert (rd a index = Ok (nt_count l (x_pa (hdr u)) (street_of (x_flags (hdr u))))) as ->.
  { apply rd_lookup; [lia|]. apply Ha; lia. }
  rewrite bind_ok. assert (∀ p st, 0 ≤ p < NumPlayers g → 0 ≤ st ≤ MaxStreet g → acts p st u ↔ p * (MaxStreet g + 1) + st = index) as Hact.
  { intros p st H1 H2. unfold acts, index. split; [by intros (_ & -> & ->)|]. intros E. split; [done|]. assert (x_pa (hdr u) = p) as <- by nia. lia. }
  destruct (Z.leb_spec (nt_count l (x_pa (hdr u)) (street_of (x_flags (hdr u)))) (x_id (hdr u))) as [Hle|Hgt].
  - rewrite i32_ok by (unfold INT32_MIN, INT32_MAX; lia). rewrite bind_ok, wr_ok by done. eexists. split; [done|]. split; [by rewrite length_insert|].
    intros p st H1 H2. rewrite nt_count_snoc. destruct (decide (acts p st u)) as [Hd|Hd].
    + pose proof Hd as (_ & <- & <-). rewrite list_lookup_insert_eq by (unfold index in *; lia). f_equal. lia.
    + rewrite Hact in Hd by done. rewrite list_lookup_insert_ne by nia. by apply Ha.
  - exists a. split; [done|]. split; [done|]. intros p st H1 H2. rewrite nt_count_snoc, Ha by done. f_equal.
    destruct (decide (acts p st u)) as [(_ & <- & <-)|]; [lia|done].
Qed.

Lemma CountNumNonterminals_ok h root : unfolds h T root → ∃ a, CountNumNonterminals g h root = Ok a ∧ counts_hold (visits T) a.
Proof.
  intros Hu. unfold CountNumNonterminals. rewrite (walk_visits h _ (λ u, negb (bool_decide (moves u = []))) count_step T).
  - apply (foldM_inv counts_hold).
    + split; [by rewrite length_replicate|]. intros p st Hp Hst. apply lookup_replicate. split; [done|]. nia.
    + intros l u rest a El H. apply count_step_ok; [|done]. rewrite El. set_solver.
  - intros u q qs s Hv Hq E. unfold CountNonterminal, count_step, NonterminalID, Street. rewrite (store_terminal h u q qs Hq E). case_bool_decide as Hm; [done|].
    cbn [id_ player_acting_ flags_ node_of negb]. destruct (rd _ _) as [n|]; [|done]. rewrite !bind_ok. destruct (n <=? x_id (hdr u)); [|done].
    destruct (i32 _) as [v|]; [|done]. rewrite !bind_ok. by destruct (wr _ _ _).
  - intros u _ Hm. by rewrite bool_decide_eq_false_2.
  - done.
  - pose proof (height_store h T root Hu). lia.
Qed.

(** The tree is in the store, its counts and its terminals are known. *)
Record holds_tree (a : ActionTree) : Prop := {
  ht_root : unfolds (nodes a) T (root_ a);
  ht_count : ∀ p st, 0 ≤ p < NumPlayers g → 0 ≤ st ≤ MaxStreet g → NumNonterminals g a p st = Ok (nt_count (visits T) p st);
  ht_terminals : num_terminals_ a = ends (tree_entries ∅ T).1 ∧ terminals_hold (visits T) (terminals_ a) }.

Lemma Initialize_ok fresh : 0 ≤ MaxStreet g → (∀ n, length (fresh n) = Z.to_nat n) → ends (tree_entries ∅ T).1 ≤ INT32_MAX →
  (∀ u, u ∈ visits T → moves u = [] → x_id (hdr u) < ends (tree_entries ∅ T).1) →
  ∃ a, ActionTree_Initialize g fresh (tree_bytes T) = Ok a ∧ holds_tree a.
Proof.
  intros Hms Hfr He Hid. unfold ActionTree_Initialize. destruct (ahead_new (tree_bytes T) fresh Hfr) as (r & E & Ha). rewrite E, bind_ok.
  destruct (all_read_back g Hnp T HT T (S (length (tree_bytes T))) (mkLoading r (replicate (Z.to_nat ((MaxStreet g + 1) * NumPlayers g)) ∅) [] 0) ∅ ∅ [])
    as (l & q & El & _ & Hu & _ & _ & _ & Ht).
  { apply visits_self. } { unfold tree_bytes. rewrite entries_bytes_length. lia. } { by rewrite app_nil_r. }
  { assert (∀ k, node_at g (replicate (Z.to_nat ((MaxStreet g + 1) * NumPlayers g)) ∅) k = None) as Hn.
    { intros k. unfold node_at. destruct (_ !! _) as [m|] eqn:Em; [|done]. apply lookup_replicate in Em as [-> _]. apply lookup_empty. }
    split; cbn [ld_maps]; [by rewrite length_replicate| |]; intros k; rewrite Hn; set_solver. }
  { set_solver. } { done. } { cbn. lia. }
  rewrite El, bind_ok. cbn [ld_terminals] in Ht. rewrite Z.add_0_l in Ht.
  destruct (FillTerminalArray_ok (ld_nodes l) q (ld_terminals l) Hu) as (a & Ea & Hta); [by rewrite Ht|]. rewrite Ea, bind_ok.
  destruct (CountNumNonterminals_ok (ld_nodes l) q Hu) as (b & Eb & Hb). rewrite Eb, bind_ok. eexists. split; [done|]. split; cbn; [done| |by rewrite Ht].
  intros p st Hp Hst. destruct Hb as [_ Hb]. apply rd_lookup; [nia|]. by apply Hb.
Qed.
End Tree.

(** C40: The file of a betting tree is read back: the nodes that are made unfold to the tree,
    though a node that was met before is only named again in the file; the nonterminal nodes
    of every player and street are counted by their largest id; and every terminal node is
    found under its id in the array of terminals. *)
Theorem tree_file_read g fresh T : 0 < NumPlayers g → 0 ≤ MaxStreet g → (∀ n, length (fresh n) = Z.to_nat n) → tree_ok g T →
  ends (tree_entries ∅ T).1 ≤ INT32_MAX → (∀ u, u ∈ visits T → moves u = [] → x_id (hdr u) < ends (tree_entries ∅ T).1) →
  ∃ a, ActionTree_Initialize g fresh (tree_bytes T) = Ok a ∧ unfolds (nodes a) T (root_ a) ∧
    (∀ p st, 0 ≤ p < NumPlayers g → 0 ≤ st ≤ MaxStreet g → NumNonterminals g a p st = Ok (nt_count (visits T) p st)) ∧
    (∀ u, u ∈ visits T → moves u = [] → ∃ v, v ∈ visits T ∧ moves v = [] ∧ x_id (hdr v) = x_id (hdr u) ∧
       terminals_ a !! Z.to_nat (x_id (hdr u)) = Some (Some (node_of (hdr v) []))).
Proof.
  intros Hnp Hms Hfr HT He Hi. destruct (Initialize_ok g Hnp T HT fresh Hms Hfr He Hi) as (a & E & [H1 H2 [_ H3]]). by exists a.
Qed.

(** ** A small game

    Three cards, one street and two players; both moves of the first player lead to the same
    node of the second. *)
Definition kuhn_file : list (list Z) :=
  bytes <$> ["GameName kuhn"%string; "NumRanks 3"%string; "NumSuits 1"%string; "MaxStreet 0"%string; "NumHoleCards 1"%string; "NumPlayers 2"%string;
    "FirstToAct 0"%string; "Ante 1"%string; "SmallBlind 0"%string; "BigBlind 0"%string].
Definition kuhn : SGame := mkSGame (bytes "kuhn") 0 2 3 1 [0] 0 0 1 [1] 3 6 [3] [0].

Definition kuhn_node : gtree := GT (mkHdr 0 1 3 1 2) [GT (mkHdr 0 1 0 0 2) []; GT (mkHdr 1 1 0 0 1) []].
Definition kuhn_tree : gtree := GT (mkHdr 0 1 3 0 2) [kuhn_node; kuhn_node].

Lemma kuhn_tree_ok : tree_ok kuhn kuhn_tree.
Proof.
  split.
  - apply Forall_forall. repeat (apply Forall_cons; split); [..|constructor]; (split; [cbn; lia..|intros _; vm_compute; split; congruence]).
  - intros u v Hu Hv Hm Hn E. rewrite list_elem_of_In in Hu, Hv. cbn in Hu, Hv.
    repeat (destruct Hu as [<-|Hu]; [|]); try done; repeat (destruct Hv as [<-|Hv]; [|]); try done; by vm_compute in E.
Qed.


Lemma tree_file_read_witness : ∃ a, ActionTree_Initialize kuhn (λ n, replicate (Z.to_nat n) 0) (tree_bytes kuhn_tree) = Ok a ∧ unfolds (nodes a) kuhn_tree (root_ a) ∧
  length (nodes a) = 4%nat ∧ NumNonterminals kuhn a 1 0 = Ok 1.
Proof.
  destruct (tree_file_read kuhn (λ n, replicate (Z.to_nat n) 0) kuhn_tree) as (a & E & H1 & H2 & _).
  - reflexivity.
  - discriminate.
  - intros n. apply length_replicate.
  - apply kuhn_tree_ok.
  - vm_compute. discriminate.
  - intros u Hu Hm. apply list_elem_of_In in Hu. cbn in Hu. repeat (destruct Hu as [<-|Hu]; [done|]). done.
  - exists a. split; [exact E|]. split; [exact H1|]. split; [|rewrite (H2 1 0) by (split; vm_compute; congruence); vm_compute; reflexivity].
    revert E. vm_compute. intros E. injection E as <-. reflexivity.
Defined.
