(* ===== verification/CfrValues.v ===== *)
(** * The values of a strategy ([cfr_street_values.cpp], [cfr_values.cpp])

    For every street there is an array of values by player, node and place, of a type that
    the name of the first file of the street decides.  A missing array is [None]; the
    values of a [double] array are kept as their bits.  New memory is an argument. *)

From Stdlib Require Import SpecFloat.
From stdpp Require Import base list list_numbers numbers option gmap.
From S2P Require Import Prelude BotGame Reader Double CardTree Robot ActionTree.
Open Scope Z_scope.

Inductive CFRValueType := CFR_CHAR | CFR_SHORT | CFR_INT | CFR_DOUBLE.
#[global] Instance CFRValueType_eq_dec : EqDecision CFRValueType.
Proof. solve_decision. Defined.

(** ** Elements *)

(** [Reader::ReadOrDie( T * )] *)
Definition ReadOrDie (T : CFRValueType) : Reader → res (Reader * Z) :=
  match T with CFR_CHAR => ReadUnsignedCharOrDie | CFR_SHORT => ReadUnsignedShortOrDie | CFR_INT => ReadIntOrDie | CFR_DOUBLE => ReadDoubleOrDie end.

(** The [double] with the given bits. *)
Definition of_bits (b : Z) : double :=
  let s := Z.testbit b 63 in
  let e := Z.land (Z.shiftr b 52) 2047 in
  let m := Z.land b (Z.ones 52) in
  if e =? 2047 then (if m =? 0 then S754_infinity s else S754_nan)
  else if e =? 0 then (match m with Zpos p => S754_finite s p (-1074) | _ => S754_zero s end)
  else (match m + 4503599627370496 with Zpos p => S754_finite s p (e - 1075) | _ => S754_zero s end).

(** The conversion of an element to [unsigned int]. *)
Definition to_uint (T : CFRValueType) (v : Z) : res Z :=
  match T with CFR_CHAR | CFR_SHORT => Ok v | CFR_INT => Ok (u32 v) | CFR_DOUBLE => to_u32 (of_bits v) end.

(** ** The values of a street *)
Record CFRStreetValues := mkStreetValues {
  MyType : CFRValueType;   (* the template argument *)
  st_ : Z; sv_players_ : list bool; sv_num_holdings_ : Z; sv_num_nonterminals_ : list Z;
  data_ : option (list (option (list (option (list Z))))); file_value_type_ : CFRValueType }.

Definition set_data (d : option (list (option (list (option (list Z)))))) (v : CFRStreetValues) : CFRStreetValues :=
  mkStreetValues (MyType v) (st_ v) (sv_players_ v) (sv_num_holdings_ v) (sv_num_nonterminals_ v) d (file_value_type_ v).

Section Street.
Context (g : SGame) (fresh : Z → list Z).

(** [players] is [None] for [nullptr]: all of them. *)
Definition flags_or_all (n : Z) (flags : option (list bool)) : res (list bool) :=
  for_ 0 n [] (λ i l, b ← (match flags with None => Ok true | Some f => rd f i end); Ok (l ++ [b])).

Definition CFRStreetValues_new (T : CFRValueType) (st : Z) (players : option (list bool)) (num_holdings : Z) (num_nonterminals : list Z)
    (file_value_type : CFRValueType) : res CFRStreetValues :=
  ps ← flags_or_all (NumPlayers g) players;
  nts ← for_ 0 (NumPlayers g) [] (λ p l,
    b ← rd ps p;
    n ← (if (b : bool) then rd num_nonterminals (p * (MaxStreet g + 1) + st) else Ok 0);
    Ok (l ++ [n]));
  Ok (mkStreetValues T st ps num_holdings nts None file_value_type).

(** [data_] and [data_[ p ]] are made when they are missing. *)
Definition make_rows (p : Z) (v : CFRStreetValues) : res CFRStreetValues :=
  let d := match data_ v with None => replicate (Z.to_nat (NumPlayers g)) None | Some d => d end in
  row ← rd d p;
  match row with
  | Some _ => Ok (set_data (Some d) v)
  | None =>
      num_nt ← rd (sv_num_nonterminals_ v) p;
      d ← wr d p (Some (replicate (Z.to_nat num_nt) None));
      Ok (set_data (Some d) v)
  end.

(** [data_[ p ][ nt ]]; using a null pointer is a fault. *)
Definition row_at (v : CFRStreetValues) (p nt : Z) : res (option (list Z)) :=
  match data_ v with
  | None => Err OutOfBounds
  | Some d => row ← rd d p; match row with None => Err OutOfBounds | Some r => rd r nt end
  end.
Definition set_row (v : CFRStreetValues) (p nt : Z) (l : list Z) : res CFRStreetValues :=
  match data_ v with
  | None => Err OutOfBounds
  | Some d =>
      row ← rd d p;
      match row with
      | None => Err OutOfBounds
      | Some r => r ← wr r nt (Some l); d ← wr d p (Some r); Ok (set_data (Some d) v)
      end
  end.

Definition InitializeValuesForReading (p nt num_succs : Z) (v : CFRStreetValues) : res CFRStreetValues :=
  v ← make_rows p v;
  r ← row_at v p nt;
  match r with
  | Some _ => Ok v
  | None =>
      num_actions ← i32 (sv_num_holdings_ v * num_succs);
      if num_actions <? 0 then Err Exited else
      set_row v p nt (take (Z.to_nat num_actions) (fresh num_actions))
  end.

(** [AllocateAndClear2] at one node. *)
Definition AllocateAndClear_node (p : Z) (node : Node) (v : CFRStreetValues) : res (CFRStreetValues * bool) :=
  if Terminal node then Ok (v, false) else
  let st := Street node in
  if st_ v <? st then Ok (v, false) else
  if (st =? st_ v) && (player_acting_ node =? p) then
    let nt := NonterminalID node in
    r ← row_at v p nt;
    match r with
    | Some _ => Ok (v, true)
    | None =>
        num_actions ← i32 (sv_num_holdings_ v * num_succs_ node);
        if num_actions <? 0 then Err Exited else
        v ← set_row v p nt (replicate (Z.to_nat num_actions) 0);
        Ok (v, true)
    end
  else Ok (v, true).
Definition AllocateAndClear (h : list Node) (node : nat) (p : Z) (v : CFRStreetValues) : res CFRStreetValues :=
  b ← rd (sv_players_ v) p;
  if negb b then Ok v else
  v ← make_rows p v;
  walk_from (S (length h)) h (AllocateAndClear_node p) node v.

(** [vals], of [num_succs] elements. *)
Definition GetOneStrategyVals (v : CFRStreetValues) (p nt offset num_succs : Z) : res (list Z) :=
  r ← row_at v p nt;
  for_ 0 num_succs [] (λ i vals,
    match r with
    | None => Err OutOfBounds
    | Some my_vals => x ← rd my_vals (offset + i); y ← to_uint (MyType v) x; Ok (vals ++ [y])
    end).

Definition Set_ (v : CFRStreetValues) (p nt h num_succs : Z) (vals : list Z) : res CFRStreetValues :=
  offset ← i32 (h * num_succs);
  for_ 0 num_succs v (λ s v,
    r ← row_at v p nt;
    match r with
    | None => Err OutOfBounds
    | Some l => x ← rd vals s; l ← wr l (offset + s) x; set_row v p nt l
    end).

(** [data_ && data_[ p ] && data_[ p ][ nt ]] *)
Definition has_row (v : CFRStreetValues) (p nt : Z) : res bool :=
  match data_ v with
  | None => Ok false
  | Some d =>
      row ← rd d p;
      match row with None => Ok false | Some r => x ← rd r nt; Ok (if x is Some _ then true else false) end
  end.

(** The four branches of the source on [file_value_type_] read the same: elements of the
    type of the array. *)
Definition ReadNode (node : Node) (decompressor : bool) (st : CFRStreetValues * Reader) : res (CFRStreetValues * Reader) :=
  let '(v, reader) := st in
  let num_succs := num_succs_ node in
  if num_succs <=? 1 then Ok (v, reader) else
  let p := player_acting_ node in
  let nt := NonterminalID node in
  there ← has_row v p nt;
  if (there : bool) then Ok (v, reader) else
  v ← InitializeValuesForReading p nt num_succs v;
  if decompressor then Err Exited else
  num_actions ← i32 (sv_num_holdings_ v * num_succs);
  r ← row_at v p nt;
  match r with
  | None => Err OutOfBounds
  | Some l =>
      '(reader, l) ← for_ 0 num_actions (reader, l) (λ a '(reader, l),
        '(reader, x) ← ReadOrDie (MyType v) reader; l ← wr l a x; Ok (reader, l));
      v ← set_row v p nt l;
      Ok (v, reader)
  end.
End Street.

(** ** All streets *)
Record CFRValues := mkCFRValues {
  street_values_ : list (option CFRStreetValues); players_ : list bool; streets_ : list bool;
  root_bd_ : Z; root_bd_st_ : Z; num_holdings_ : list Z; cv_num_nonterminals_ : list Z }.

Definition set_street_values (l : list (option CFRStreetValues)) (c : CFRValues) : CFRValues :=
  mkCFRValues l (players_ c) (streets_ c) (root_bd_ c) (root_bd_st_ c) (num_holdings_ c) (cv_num_nonterminals_ c).

Definition ERR_LOADING_CFR_NO_FILE : Z := -301.
Definition ERR_LOADING_CFR_NOT_FULL_PLAYER : Z := -302.
Definition ERR_LOADING_CFR_NOT_FULL_STREET : Z := -303.
Definition ERR_LOADING_CFR_NOT_THE_END : Z := -304.

Section Values.
Context (g : SGame) (fresh : Z → list Z).

(** [CFRValues( ... )] and its [Initialize]. *)
Definition CFRValues_new (boards : PCardTree) (buckets : ClusterHands) (betting_tree : ActionTree) (players streets : option (list bool))
    (root_bd root_bd_st : Z) : res CFRValues :=
  ps ← flags_or_all (NumPlayers g) players;
  sts ← flags_or_all (MaxStreet g + 1) streets;
  holdings ← for_ 0 (MaxStreet g + 1) [] (λ st l,
    b ← rd sts st;
    if negb b then Ok (l ++ [0]) else
    none ← rd (none_ buckets) st;
    n ← (if (none : bool) then
           num_local_boards ← NumLocalBoards boards root_bd_st root_bd st;
           num_hole_card_pairs ← NumHoleCardPairs g st;
           i32 (num_local_boards * num_hole_card_pairs)
         else rd (num_cluster_ buckets) st);
    Ok (l ++ [n]));
  nts ← for_ 0 (NumPlayers g) [] (λ p l,
    for_ 0 (MaxStreet g + 1) l (λ st l,
      b ← rd ps p; c ← rd sts st;
      n ← (if b && c then NumNonterminals g betting_tree p st else Ok 0);
      Ok (l ++ [n])));
  Ok (mkCFRValues (replicate (Z.to_nat (MaxStreet g + 1)) None) ps sts root_bd root_bd_st holdings nts).

(** The element type: [unsigned char] for quantized values. *)
Definition CreateStreetValues (st : Z) (value_type : CFRValueType) (quantize : bool) (c : CFRValues) : res CFRValues :=
  o ← rd (street_values_ c) st;
  match o with
  | Some _ => Ok c
  | None =>
      let T := if quantize then CFR_CHAR else value_type in
      h ← rd (num_holdings_ c) st;
      v ← CFRStreetValues_new g T st (Some (players_ c)) h (cv_num_nonterminals_ c) value_type;
      l ← wr (street_values_ c) st (Some v);
      Ok (set_street_values l c)
  end.

(** [ReadSingleFile] at one node, with the reader of the file; [None] is [nullptr]. *)
Definition ReadSingleFile_node (p st : Z) (node : Node) (s : CFRValues * option Reader) : res (CFRValues * option Reader * bool) :=
  let '(c, reader) := s in
  if Terminal node then Ok (s, false) else
  o ← rd (street_values_ c) st;
  match o with
  | Some v =>
      if (player_acting_ node =? p) && (Street node =? st) then
        match reader with
        | None => Err Exited
        | Some r =>
            '(v, r) ← ReadNode g fresh node false (v, r);
            l ← wr (street_values_ c) st (Some v);
            Ok (set_street_values l c, Some r, true)
        end
      else Ok (s, true)
  | None => Ok (s, true)
  end.
Definition ReadSingleFile (h : list Node) (node : nat) (p st : Z) (s : CFRValues * option Reader) : res (CFRValues * option Reader) :=
  walk_from (S (length h)) h (ReadSingleFile_node p st) node s.

(** [CFRValues::Read], which reads all streets of a player in one walk, with his readers. *)
Definition Read_node (p : Z) (node : Node) (s : CFRValues * list (option Reader)) : res (CFRValues * list (option Reader) * bool) :=
  let '(c, readers) := s in
  if Terminal node then Ok (s, false) else
  let st := Street node in
  o ← rd (street_values_ c) st;
  match o with
  | Some v =>
      if player_acting_ node =? p then
        reader ← rd readers st;
        match reader with
        | None => Err Exited
        | Some r =>
            '(v, r) ← ReadNode g fresh node false (v, r);
            l ← wr (street_values_ c) st (Some v);
            readers ← wr readers st (Some r);
            Ok (set_street_values l c, readers, true)
        end
      else Ok (s, true)
  | None => Ok (s, true)
  end.
Definition CFRValues_Read (h : list Node) (node : nat) (p : Z) (s : CFRValues * list (option Reader)) : res (CFRValues * list (option Reader)) :=
  walk_from (S (length h)) h (Read_node p) node s.

(** [files p st t]: the file of a player and a street whose name ends in the letter of the
    type [t], if it exists.  The types are tried in this order; the last one tried stays. *)
Definition InitializeReader (files : Z → Z → CFRValueType → option (list Z)) (p st : Z) : res (CFRValueType * option Reader) :=
  match files p st CFR_DOUBLE, files p st CFR_INT, files p st CFR_CHAR, files p st CFR_SHORT with
  | Some f, _, _, _ => r ← Reader_new f fresh; Ok (CFR_DOUBLE, Some r)
  | _, Some f, _, _ => r ← Reader_new f fresh; Ok (CFR_INT, Some r)
  | _, _, Some f, _ => r ← Reader_new f fresh; Ok (CFR_CHAR, Some r)
  | _, _, _, Some f => r ← Reader_new f fresh; Ok (CFR_SHORT, Some r)
  | _, _, _, _ => Ok (CFR_SHORT, None)
  end.

(** ** The threads
    There is a thread per player and street, with its own reader; the threads of a street
    share its values, and no lock guards them.  A schedule lists whose turn it is.

    A thread is the list of the calls of [ReadSingleFile] that are still to come, the next one
    first.  One turn runs the next call up to its loop, whose calls it puts in front, with one
    exception: when [InitializeValuesForReading] finds [data_] missing, the turn ends there
    ([making_]), and the next turn of the thread is the assignment of a new [data_] with its
    loop, whether or not another thread has made one in between. *)
Record Thread := mkThread { calls_ : list nat; making_ : bool; reader_ : option Reader }.

(** The call reads its node and finds no [data_]. *)
Definition finds_no_data (p st : Z) (node : Node) (reader : option Reader) (c : CFRValues) : res bool :=
  if Terminal node then Ok false else
  o ← rd (street_values_ c) st;
  Ok (match o, reader with
      | Some v, Some _ => (player_acting_ node =? p) && (Street node =? st) && (1 <? num_succs_ node) && (if data_ v is None then true else false)
      | _, _ => false
      end).

(** [data_ = new T **[num_players]], and all of its pointers null. *)
Definition make_data (st : Z) (c : CFRValues) : res CFRValues :=
  o ← rd (street_values_ c) st;
  match o with
  | None => Err OutOfBounds
  | Some v =>
      l ← wr (street_values_ c) st (Some (set_data (Some (replicate (Z.to_nat (NumPlayers g)) None)) v));
      Ok (set_street_values l c)
  end.

Definition succ_calls (node : Node) : res (list nat) := for_ 0 (num_succs_ node) [] (λ i l, q ← IthSucc node i; Ok (l ++ [q])).

Definition thread_turn (h : list Node) (p st : Z) (t : Thread) (c : CFRValues) : res (Thread * CFRValues) :=
  match calls_ t with
  | [] => Ok (t, c)
  | q :: calls =>
      if making_ t then c ← make_data st c; Ok (mkThread (q :: calls) false (reader_ t), c) else
      node ← deref h q;
      missing ← finds_no_data p st node (reader_ t) c;
      if (missing : bool) then Ok (mkThread (q :: calls) true (reader_ t), c) else
      '(c, reader, go) ← ReadSingleFile_node p st node (c, reader_ t);
      succs ← (if (go : bool) then succ_calls node else Ok []);
      Ok (mkThread (succs ++ calls) false reader, c)
  end.

(** The values and the threads, by player and street. *)
Definition Run : Type := CFRValues * list (list Thread).
Definition take_turn (h : list Node) (turn : Z * Z) (s : Run) : res Run :=
  let '(p, st) := turn in
  let '(c, threads) := s in
  row ← rd threads p;
  t ← rd row st;
  '(t, c) ← thread_turn h p st t c;
  row ← wr row st t;
  threads ← wr threads p row;
  Ok (c, threads).

Definition start_threads (root : nat) (readers : list (list (option Reader))) : list (list Thread) := map (map (mkThread [root] false)) readers.
Definition run_threads (h : list Node) (root : nat) (schedule : list (Z * Z)) (c : CFRValues) (readers : list (list (option Reader))) : res Run :=
  foldM (take_turn h) schedule (c, start_threads root readers).

(** No other thread of street [st] is about to make its [data_]. *)
Definition alone (p st : Z) (threads : list (list Thread)) : bool :=
  forallb (λ q, (q =? p) || (match threads !! Z.to_nat q with Some row => (match row !! Z.to_nat st with Some t => negb (making_ t) | None => true end) | None => true end))
    (seqZ 0 (NumPlayers g)).

(** While one thread of a street makes its [data_], between the test and the assignment, the
    others of that street have no turn: what a lock around the test would ensure. *)
Fixpoint undisturbed (h : list Node) (schedule : list (Z * Z)) (s : Run) : bool :=
  match schedule with
  | [] => true
  | turn :: schedule =>
      alone turn.1 turn.2 s.2 && (match take_turn h turn s with Ok s => undisturbed h schedule s | Err _ => true end)
  end.

(** The readers of the files of one player; [inr] is an error code. *)
Definition open_files (files : Z → Z → CFRValueType → option (list Z)) (quantize : bool) (p : Z) (c : CFRValues)
    : res (CFRValues * list (option Reader) + Z * CFRValues) :=
  forR 0 (MaxStreet g + 1) (c, []) (λ st '(c, row),
    b ← rd (streets_ c) st;
    if negb b then Ok (inr (ERR_LOADING_CFR_NOT_FULL_STREET, c)) else
    '(value_type, r) ← InitializeReader files p st;
    match r with
    | None => Ok (inr (ERR_LOADING_CFR_NO_FILE, c))
    | Some _ => c ← CreateStreetValues st value_type quantize c; Ok (inl (c, row ++ [r]))
    end).

(** The readers of all players. *)
Definition open_all (files : Z → Z → CFRValueType → option (list Z)) (quantize : bool) (c : CFRValues) : res (CFRValues * list (list (option Reader)) + Z * CFRValues) :=
  forR 0 (NumPlayers g) (c, []) (λ p '(c, readers),
    b ← rd (players_ c) p;
    if negb b then Ok (inr (ERR_LOADING_CFR_NOT_FULL_PLAYER, c)) else
    o ← open_files files quantize p c;
    Ok (match o with inl (c, row) => inl (c, readers ++ [row]) | inr e => inr e end)).

Definition no_calls (t : Thread) : bool := match calls_ t with [] => true | _ => false end.
Definition at_end (t : Thread) : bool := match reader_ t with Some r => AtEnd r | None => false end.

(** The loop at the end waits until every thread has counted itself in [file_count_]: with a
    schedule after which some thread has calls left the function has not returned. *)
Definition Read_MultiThread (files : Z → Z → CFRValueType → option (list Z)) (betting_tree : ActionTree) (schedule : list (Z * Z)) (only_p : Z) (quantize : bool)
    (c : CFRValues) : res (Z * CFRValues) :=
  if negb (only_p =? -1) then Ok (ERR_LOADING_CFR_NOT_FULL_PLAYER, c) else
  o ← open_all files quantize c;
  match o with
  | inr e => Ok e
  | inl (c, readers) =>
      '(c, threads) ← run_threads (nodes betting_tree) (root_ betting_tree) schedule c readers;
      if negb (forallb (forallb no_calls) threads) then Err OutOfFuel else
      Ok (if forallb (forallb at_end) threads then ERR_OK else ERR_LOADING_CFR_NOT_THE_END, c)
  end.

(** The schedule disturbs no thread of [Read_MultiThread] that makes the [data_] of its street. *)
Definition race_free (files : Z → Z → CFRValueType → option (list Z)) (betting_tree : ActionTree) (schedule : list (Z * Z)) (quantize : bool) (c : CFRValues) : bool :=
  match open_all files quantize c with
  | Ok (inl (c, readers)) => undisturbed (nodes betting_tree) schedule (c, start_threads (root_ betting_tree) readers)
  | _ => true
  end.
End Values.

Definition NumNonterminals_at (g : SGame) (c : CFRValues) (st p : Z) : res Z := rd (cv_num_nonterminals_ c) (p * (MaxStreet g + 1) + st).
Definition NumHoldings (c : CFRValues) (st : Z) : res Z := rd (num_holdings_ c) st.

(** [CFRValues::GetOneStrategyVals] *)
Definition strategy_vals (c : CFRValues) (st p nt offset num_succs : Z) : res (list Z) :=
  o ← rd (street_values_ c) st;
  match o with None => Err OutOfBounds | Some v => GetOneStrategyVals v p nt offset num_succs end.
