(* ===== verification/CfrValuesThm.v ===== *)
(** * The files of a strategy are read

    A strategy gives a value for every player, street, node and place.  The file of a player
    and a street holds the values of its nodes with a choice, each at the first place where a
    walk over the tree meets it.  When no thread is disturbed while it makes the arrays of its
    street, every schedule of the threads with enough turns reads all values, and a query
    returns those of its node. *)

From Stdlib Require Import SpecFloat.
From stdpp Require Import base list list_numbers numbers option gmap sets.
From S2P Require Import Prelude BotGame Reader Double CardTree Robot ActionTree ActionTreeThm CfrValues.
Open Scope Z_scope.

(** ** Elements of a file *)
Definition in_type (T : CFRValueType) (v : Z) : Prop :=
  match T with
  | CFR_CHAR => 0 ≤ v < 256 | CFR_SHORT => 0 ≤ v < 65536
  | CFR_INT => -2147483648 ≤ v < 2147483648 | CFR_DOUBLE => 0 ≤ v < 18446744073709551616
  end.
Definition enc (T : CFRValueType) (v : Z) : list Z :=
  match T with CFR_CHAR => le_bytes 1 v | CFR_SHORT => le_bytes 2 v | CFR_INT => le_bytes 4 (u32 v) | CFR_DOUBLE => le_bytes 8 v end.

Lemma ReadOrDie_enc T v r l : in_type T v → ahead r (enc T v ++ l) → ∃ r', ReadOrDie T r = Ok (r', v) ∧ ahead r' l.
Proof.
  destruct T; cbn [in_type enc ReadOrDie]; intros Hv Ha.
  - apply (ahead_le r 1 id v l) in Ha; [done|lia|cbn; lia].
  - apply (ahead_le r 2 id v l) in Ha; [done|lia|cbn; lia].
  - apply (ahead_le r 4 s32 (u32 v) l) in Ha; [|lia|apply Z.mod_pos_bound; lia].
    replace (s32 (u32 v)) with v in Ha; [done|]. unfold s32, u32. rewrite Z.add_mod_idemp_l by lia. rewrite Z.mod_small; lia.
  - apply (ahead_le r 8 id v l) in Ha; [done|lia|cbn; lia].
Qed.

Lemma read_row T : ∀ vals done_ l r rest, Forall (in_type T) vals → ahead r (concat (enc T <$> vals) ++ rest) →
  length l = (length done_ + length vals)%nat → take (length done_) l = done_ →
  ∃ r', foldM (λ a '(reader, l), '(reader, x) ← ReadOrDie T reader; l ← wr l a x; Ok (reader, l)) (seqZ (Z.of_nat (length done_)) (Z.of_nat (length vals))) (r, l)
    = Ok (r', done_ ++ vals) ∧ ahead r' rest.
Proof.
  intros vals. induction vals as [|v vals IH]; intros d l r rest Hv Ha Hl Hd.
  - exists r. split; [|done]. cbn in *. rewrite app_nil_r. rewrite take_ge in Hd by lia. by rewrite Hd.
  - inversion Hv; subst. cbn [fmap list_fmap concat] in Ha. rewrite <- app_assoc in Ha. destruct (ReadOrDie_enc T v r _ H1 Ha) as (r1 & E & Ha1).
    cbn [length] in *. rewrite seqZ_cons by lia. cbn [foldM]. rewrite E, bind_ok, wr_ok by lia. rewrite !bind_ok, Nat2Z.id.
    destruct (IH (d ++ [v]) (<[length d := v]> l) r1 rest) as (r' & E' & Ha'); [done|done|rewrite length_insert, length_app; cbn; lia| |].
    + rewrite length_app, Nat.add_1_r. rewrite (take_S_r _ _ v) by (apply list_lookup_insert_eq; lia). by rewrite take_insert_ge, Hd by lia.
    + exists r'. split; [|done]. rewrite length_app in E'. cbn in E'. replace (Z.succ (Z.of_nat (length d))) with (Z.of_nat (length d + 1)) by lia.
      replace (Z.pred (Z.of_nat (S (length vals)))) with (Z.of_nat (length vals)) by lia. rewrite E'. by rewrite <- app_assoc.
Qed.

(** ** The arrays of a street *)
Definition cell (v : CFRStreetValues) (p nt : Z) : option (list Z) :=
  match data_ v with
  | Some d => match d !! Z.to_nat p with Some (Some r) => match r !! Z.to_nat nt with Some o => o | None => None end | _ => None end
  | None => None
  end.

Section Street.
Context (g : SGame) (fresh : Z → list Z) (Hfr : ∀ n, length (fresh n) = Z.to_nat n).

(** The arrays that are there have their sizes. *)
Record street_ok (v : CFRStreetValues) : Prop := {
  so_nts : length (sv_num_nonterminals_ v) = Z.to_nat (NumPlayers g);
  so_data : ∀ d, data_ v = Some d → length d = Z.to_nat (NumPlayers g) ∧
    ∀ p r n, d !! p = Some (Some r) → sv_num_nonterminals_ v !! p = Some n → length r = Z.to_nat n }.

(** [v'] differs from [v] at most in its arrays. *)
Definition same_street (v v' : CFRStreetValues) : Prop := v' = set_data (data_ v') v.

Lemma same_street_refl v : same_street v v.
Proof. unfold same_street, set_data. by destruct v. Qed.
Lemma same_street_trans v1 v2 v3 : same_street v1 v2 → same_street v2 v3 → same_street v1 v3.
Proof. unfold same_street, set_data. intros -> ->. done. Qed.

Lemma lookup_player {A} (l : list A) p : length l = Z.to_nat (NumPlayers g) → 0 ≤ p < NumPlayers g → ∃ x, l !! Z.to_nat p = Some x ∧ rd l p = Ok x.
Proof.
  intros L Hp. destruct (lookup_lt_is_Some_2 l (Z.to_nat p)) as [x E]; [lia|]. exists x. split; [done|]. apply rd_lookup; [lia|done].
Qed.

Lemma make_rows_ok v p : street_ok v → 0 ≤ p < NumPlayers g →
  ∃ v' d r n, make_rows g p v = Ok v' ∧ street_ok v' ∧ same_street v v' ∧ (∀ p' nt, 0 ≤ p' → cell v' p' nt = cell v p' nt) ∧
    data_ v' = Some d ∧ d !! Z.to_nat p = Some (Some r) ∧ sv_num_nonterminals_ v !! Z.to_nat p = Some n ∧ length r = Z.to_nat n.
Proof.
  intros [Hn Hd] Hp. unfold make_rows. set (d := match data_ v with None => _ | Some d => d end).
  assert (length d = Z.to_nat (NumPlayers g)) as Ld by (unfold d; destruct (data_ v) eqn:E; [by apply Hd|by rewrite length_replicate]).
  assert (∀ p' nt, match d !! Z.to_nat p' with Some (Some r) => match r !! Z.to_nat nt with Some o => o | None => None end | _ => None end = cell v p' nt) as Hc.
  { intros p' nt. unfold cell, d. destruct (data_ v); [done|]. destruct (replicate _ None !! _) as [o|] eqn:E; [|done]. by apply lookup_replicate in E as [-> _]. }
  destruct (lookup_player d p Ld Hp) as (row & El & ->). rewrite bind_ok.
  destruct (lookup_player (sv_num_nonterminals_ v) p Hn Hp) as (n & En & Ern). destruct row as [r|].
  - eexists _, d, r, n. split; [done|]. assert (data_ v = Some d) as Ed.
    { unfold d in *. destruct (data_ v); [done|]. by apply lookup_replicate in El as [? _]. }
    split; [split; [done|]; cbn; intros d' [= <-]; by apply Hd|]. split; [done|]. split; [intros p' nt _; unfold cell at 1; cbn; apply Hc|].
    split; [done|]. split; [done|]. split; [done|]. eapply Hd; done.
  - rewrite Ern, bind_ok, wr_ok, bind_ok by lia. eexists _, _, _, n. split; [done|]. split; [|split; [done|split; [|split; [done|split; [by apply list_lookup_insert_eq; lia|]]]]].
    + split; [done|]. cbn. intros d' [= <-]. rewrite length_insert. split; [done|]. intros q r m Eq Em. apply list_lookup_insert_Some in Eq as [(<- & [= <-] & _)|(Hne & Eq)].
      * rewrite En in Em. injection Em as <-. by rewrite length_replicate.
      * unfold d in Eq. destruct (data_ v) eqn:E; [by eapply Hd|]. by apply lookup_replicate in Eq as [? _].
    + intros p' nt Hp'. rewrite <- Hc. unfold cell. cbn. destruct (decide (p' = p)) as [->|Hne]; [|by rewrite list_lookup_insert_ne by lia].
      rewrite list_lookup_insert_eq, El by lia. destruct (replicate _ None !! _) as [o|] eqn:E; [|done]. by apply lookup_replicate in E as [-> _].
    + split; [done|]. by rewrite length_replicate.
Qed.

Lemma set_row_ok v p nt l d r n : street_ok v → 0 ≤ p < NumPlayers g → data_ v = Some d → d !! Z.to_nat p = Some (Some r) →
  sv_num_nonterminals_ v !! Z.to_nat p = Some n → 0 ≤ nt < n →
  ∃ v', set_row v p nt l = Ok v' ∧ street_ok v' ∧ same_street v v' ∧ row_at v' p nt = Ok (Some l) ∧
    (∃ d' r', data_ v' = Some d' ∧ d' !! Z.to_nat p = Some (Some r')) ∧
    ∀ p' nt', 0 ≤ p' → 0 ≤ nt' → cell v' p' nt' = if decide (p' = p ∧ nt' = nt) then Some l else cell v p' nt'.
Proof.
  intros Hv Hp Ed Er En Hnt. pose proof (so_data _ Hv d Ed) as [Ld Hr]. pose proof (Hr _ _ _ Er En) as Lr. unfold set_row. rewrite Ed.
  rewrite (rd_lookup _ _ _ (proj1 Hp) Er), bind_ok, wr_ok by lia. rewrite bind_ok, wr_ok by lia. rewrite bind_ok. eexists. split; [done|].
  assert (<[Z.to_nat p := Some (<[Z.to_nat nt := Some l]> r)]> d !! Z.to_nat p = Some (Some (<[Z.to_nat nt := Some l]> r))) as Ei by (apply list_lookup_insert_eq; lia).
  split; [|split; [done|split; [|split; [by eexists _, _|]]]].
  - split; [apply Hv|]. cbn. intros d' [= <-]. rewrite length_insert. split; [done|]. intros q r' m Eq Em.
    apply list_lookup_insert_Some in Eq as [(<- & [= <-] & _)|(Hne & Eq)]; [|by eapply Hr]. rewrite En in Em. injection Em as <-. by rewrite length_insert.
  - unfold row_at. cbn [data_ set_data]. rewrite (rd_lookup _ _ _ (proj1 Hp) Ei), bind_ok. apply rd_lookup; [lia|]. apply list_lookup_insert_eq. lia.
  - intros p' nt' Hp' Hnt'. unfold cell. cbn. rewrite Ed. destruct (decide (p' = p)) as [->|Hne].
    + rewrite Ei, Er. destruct (decide (nt' = nt)) as [->|Hne']; [by rewrite decide_True, list_lookup_insert_eq by lia|].
      rewrite decide_False by naive_solver. by rewrite list_lookup_insert_ne by lia.
    + rewrite decide_False by naive_solver. by rewrite list_lookup_insert_ne by lia.
Qed.

(** ** One node *)
Lemma ReadNode_old x qs v r l : (2 ≤ length qs)%nat → 0 ≤ x_pa x → 0 ≤ x_id x → cell v (x_pa x) (x_id x) = Some l →
  ReadNode g fresh (node_of x qs) false (v, r) = Ok (v, r).
Proof.
  intros Hq Hp Hi Hc. unfold ReadNode, NonterminalID, Terminal. cbn [num_succs_ player_acting_ id_ node_of].
  rewrite (proj2 (Z.leb_gt _ _)) by lia. rewrite (proj2 (Z.eqb_neq _ 0)) by lia. unfold has_row. unfold cell in Hc. destruct (data_ v) as [d|]; [|done].
  destruct (d !! Z.to_nat (x_pa x)) as [[row|]|] eqn:E; try done. rewrite (rd_lookup _ _ _ Hp E), !bind_ok.
  destruct (row !! Z.to_nat (x_id x)) as [o|] eqn:E'; [|done]. rewrite (rd_lookup _ _ _ Hi E'), !bind_ok. by rewrite Hc.
Qed.

Lemma ReadNode_new x qs v r vals rest n : street_ok v → (2 ≤ length qs)%nat → 0 ≤ x_pa x < NumPlayers g →
  sv_num_nonterminals_ v !! Z.to_nat (x_pa x) = Some n → 0 ≤ x_id x < n → cell v (x_pa x) (x_id x) = None →
  0 ≤ sv_num_holdings_ v → sv_num_holdings_ v * Z.of_nat (length qs) ≤ INT32_MAX → Z.of_nat (length vals) = sv_num_holdings_ v * Z.of_nat (length qs) →
  Forall (in_type (MyType v)) vals → ahead r (concat (enc (MyType v) <$> vals) ++ rest) →
  ∃ v' r', ReadNode g fresh (node_of x qs) false (v, r) = Ok (v', r') ∧ ahead r' rest ∧ street_ok v' ∧ same_street v v' ∧ is_Some (data_ v') ∧
    ∀ p nt, 0 ≤ p → 0 ≤ nt → cell v' p nt = if decide (p = x_pa x ∧ nt = x_id x) then Some vals else cell v p nt.
Proof.
  intros Hv Hq Hp En Hi Hc Hh Hm Hl Hty Ha. unfold ReadNode, NonterminalID, Terminal. cbn [num_succs_ player_acting_ id_ node_of].
  rewrite (proj2 (Z.leb_gt _ _)) by lia. rewrite (proj2 (Z.eqb_neq _ 0)) by lia.
  assert (has_row v (x_pa x) (x_id x) = Ok false) as ->.
  { unfold has_row. unfold cell in Hc. destruct (data_ v) as [d|] eqn:Ed; [|done]. destruct (so_data _ Hv d Ed) as [Ld Hr].
    destruct (lookup_player d (x_pa x) Ld Hp) as (row & E & ->). rewrite bind_ok. rewrite E in Hc. destruct row as [row|]; [|done].
    destruct (lookup_lt_is_Some_2 row (Z.to_nat (x_id x))) as [o Eo]; [rewrite (Hr _ _ _ E En); lia|]. rewrite (rd_lookup _ _ o), bind_ok by (done || lia). rewrite Eo in Hc. by subst o. }
  rewrite bind_ok. unfold InitializeValuesForReading.
  destruct (make_rows_ok v (x_pa x) Hv Hp) as (v1 & d & row & n' & -> & Hv1 & Hs1 & Hc1 & Ed & Er & En' & Lr). rewrite En in En'. injection En' as <-. rewrite bind_ok.
  assert (row_at v1 (x_pa x) (x_id x) = Ok None) as ->.
  { unfold row_at. rewrite Ed, (rd_lookup _ _ _ (proj1 Hp) Er), bind_ok. destruct (lookup_lt_is_Some_2 row (Z.to_nat (x_id x))) as [o Eo]; [lia|].
    rewrite (rd_lookup _ _ o) by (done || lia). rewrite <- (Hc1 _ (x_id x)) in Hc by lia. unfold cell in Hc. rewrite Ed, Er, Eo in Hc. by subst o. }
  assert (sv_num_holdings_ v1 = sv_num_holdings_ v ∧ MyType v1 = MyType v ∧ sv_num_nonterminals_ v1 = sv_num_nonterminals_ v) as (Eh & Et & Ent) by (rewrite Hs1; done).
  rewrite bind_ok, Eh, i32_ok by (unfold INT32_MIN; lia). rewrite bind_ok, (proj2 (Z.ltb_ge _ 0)) by lia. set (k := sv_num_holdings_ v * Z.of_nat (length qs)) in *.
  destruct (set_row_ok v1 (x_pa x) (x_id x) (take (Z.to_nat k) (fresh k)) d row n Hv1 Hp Ed Er ltac:(by rewrite Ent) Hi) as (v2 & -> & Hv2 & Hs2 & Er2 & (d2 & row2 & Ed2 & Erow2) & Hc2).
  rewrite bind_ok. assert (sv_num_holdings_ v2 = sv_num_holdings_ v ∧ MyType v2 = MyType v ∧ sv_num_nonterminals_ v2 = sv_num_nonterminals_ v) as (Eh2 & Et2 & Ent2) by (rewrite Hs2; done).
  rewrite Eh2. fold k. rewrite i32_ok by (unfold INT32_MIN; lia). rewrite bind_ok, Er2, bind_ok.
  destruct (read_row (MyType v) vals [] (take (Z.to_nat k) (fresh k)) r rest Hty Ha) as (r' & Erow & Ha'); [rewrite length_take, Hfr; cbn; lia|done|].
  rewrite Et2. unfold for_. cbn [length] in Erow. change (Z.of_nat 0) with 0 in Erow. rewrite Hl in Erow. rewrite Z.sub_0_r, Erow, bind_ok. cbn [app].
  destruct (set_row_ok v2 (x_pa x) (x_id x) vals d2 row2 n Hv2 Hp Ed2 Erow2 ltac:(by rewrite Ent2) Hi) as (v3 & -> & Hv3 & Hs3 & _ & (d3 & row3 & Ed3 & _) & Hc3). rewrite bind_ok.
  exists v3, r'. split; [done|]. split; [done|]. split; [done|]. split; [eapply same_street_trans; [exact Hs1|by eapply same_street_trans]|]. split; [by eexists|].
  intros p nt Hp' Hnt. rewrite Hc3 by done. case_decide as Hd; [done|]. rewrite Hc2, decide_False by done. by apply Hc1.
Qed.
End Street.

(** ** The file of a strategy *)
Lemma nt_count_le l p st : 0 ≤ nt_count l p st ∧ ∀ u, u ∈ l → acts p st u → x_id (hdr u) < nt_count l p st.
Proof.
  induction l as [|w l [IH0 IH]] using rev_ind; [split; [done|]; intros u Hu; by apply elem_of_nil in Hu|]. rewrite nt_count_snoc. case_decide as Hd.
  - split; [lia|]. intros u [Hu| ->%list_elem_of_singleton]%elem_of_app Ha; [specialize (IH u Hu Ha)|]; lia.
  - split; [done|]. intros u [Hu| ->%list_elem_of_singleton]%elem_of_app Ha; [by apply IH|done].
Qed.

(** The nodes with a choice of player [p] on street [st]. *)
Definition want (p st : Z) (u : gtree) : Prop := acts p st u ∧ (2 ≤ length (moves u))%nat.
#[global] Instance want_dec p st u : Decision (want p st u) := _.

(** The nodes of a list at their first places, but for those with the ids [seen]. *)
Fixpoint firsts (seen : gset Z) (l : list gtree) : list gtree :=
  match l with
  | [] => []
  | u :: l => if decide (x_id (hdr u) ∈ seen) then firsts seen l else u :: firsts ({[x_id (hdr u)]} ∪ seen) l
  end.

Definition ids (l : list gtree) : gset Z := list_to_set (map (λ u, x_id (hdr u)) l).

Lemma elem_of_ids i l : i ∈ ids l ↔ ∃ u, u ∈ l ∧ x_id (hdr u) = i.
Proof. unfold ids. rewrite elem_of_list_to_set, list_elem_of_In, in_map_iff. setoid_rewrite list_elem_of_In. naive_solver. Qed.
Lemma ids_snoc l u : ids (l ++ [u]) = {[x_id (hdr u)]} ∪ ids l.
Proof. apply set_eq. intros i. rewrite elem_of_union, elem_of_singleton, !elem_of_ids. setoid_rewrite elem_of_app. setoid_rewrite list_elem_of_singleton. naive_solver. Qed.

(** Only the header and the number of moves of a node matter to its visit. *)
Lemma visit_length g fresh p st x qs qs' s : length qs = length qs' →
  ReadSingleFile_node g fresh p st (node_of x qs) s = ReadSingleFile_node g fresh p st (node_of x qs') s.
Proof.
  intros L. unfold ReadSingleFile_node, ReadNode, NonterminalID, Terminal, Street. cbn [num_succs_ player_acting_ id_ flags_ node_of]. by rewrite L.
Qed.

Section Strategy.
Context (g : SGame) (fresh : Z → list Z) (Hfr : ∀ n, length (fresh n) = Z.to_nat n).
Context (Hnp : 0 < NumPlayers g) (T : gtree) (HT : tree_ok g T).
(** The values by player, street, node and place; the types and the numbers of holdings of
    the streets. *)
Context (σ : Z → Z → Z → Z → Z) (ty : Z → CFRValueType) (H : Z → Z).

Definition row (p st : Z) (u : gtree) : list Z := σ p st (x_id (hdr u)) <$> seqZ 0 (H st * Z.of_nat (length (moves u))).
Definition rows_bytes (p st : Z) (l : list gtree) : list Z := concat ((λ u, concat (enc (ty st) <$> row p st u)) <$> l).
Definition strategy_file (p st : Z) : list Z := rows_bytes p st (firsts ∅ (filter (want p st) (visits T))).

Record strategy_ok : Prop := {
  sk_holdings : ∀ st, 0 ≤ H st;
  sk_size : ∀ p st u, u ∈ visits T → want p st u → H st * Z.of_nat (length (moves u)) ≤ INT32_MAX;
  sk_type : ∀ p st nt a, in_type (ty st) (σ p st nt a) }.
Context (Hσ : strategy_ok).

(** What a thread has read behind the nodes [l] of its walk, with [rest] before it. *)
Record progress (p st : Z) (v : CFRStreetValues) (l rest : list gtree) (v' : CFRStreetValues) (r : Reader) : Prop := {
  pg_ok : street_ok g v';
  pg_same : same_street v v';
  pg_read : ∀ u, u ∈ l → want p st u → cell v' p (x_id (hdr u)) = Some (row p st u);
  pg_none : ∀ nt, 0 ≤ nt → nt ∉ ids (filter (want p st) l) → cell v' p nt = None;
  pg_other : ∀ p' nt, 0 ≤ p' → 0 ≤ nt → p' ≠ p → cell v' p' nt = cell v p' nt;
  pg_ahead : ahead r (rows_bytes p st (firsts (ids (filter (want p st) l)) (filter (want p st) rest))) }.

(** A node that is not read leaves all as it is. *)
Lemma progress_skip p st v l u rest v' r : ¬ want p st u → progress p st v l (u :: rest) v' r → progress p st v (l ++ [u]) rest v' r.
Proof.
  intros Hw [P1 P2 P3 P4 P5 P6]. rewrite filter_cons_False in P6 by done.
  assert (filter (want p st) (l ++ [u]) = filter (want p st) l) as E by (rewrite filter_app, filter_cons_False by done; apply app_nil_r).
  split; rewrite ?E; try done. intros w [Hin| ->%list_elem_of_singleton]%elem_of_app; [by apply P3|done].
Qed.

Lemma progress_old p st v l u rest v' r : visits T = l ++ u :: rest → want p st u → x_id (hdr u) ∈ ids (filter (want p st) l) →
  progress p st v l (u :: rest) v' r → cell v' p (x_id (hdr u)) = Some (row p st u) ∧ progress p st v (l ++ [u]) rest v' r.
Proof.
  intros El Hw Hin [P1 P2 P3 P4 P5 P6]. pose proof Hin as Hin'. apply elem_of_ids in Hin' as (w & Hf & Ei). apply list_elem_of_filter in Hf as [Hww Hwl].
  assert (w = u) as ->.
  { apply (tr_keys _ _ HT); rewrite ?El; [set_solver|set_solver|apply Hww|apply Hw|]. destruct Hww as [(_ & E1 & E2) _], Hw as [(_ & E3 & E4) _]. unfold key. congruence. }
  rewrite filter_cons_True in P6 by done. cbn [firsts] in P6. rewrite decide_True in P6 by done.
  assert (ids (filter (want p st) (l ++ [u])) = ids (filter (want p st) l)) as E.
  { rewrite filter_app, filter_cons_True by done. change (filter (want p st) []) with (@nil gtree). rewrite ids_snoc. set_solver. }
  split; [by apply P3|]. split; rewrite ?E; try done. intros w [Hw'| ->%list_elem_of_singleton]%elem_of_app Hww'; by apply P3.
Qed.

Lemma progress_new p st v l u rest v1 r v' r' : visits T = l ++ u :: rest → want p st u → x_id (hdr u) ∉ ids (filter (want p st) l) →
  progress p st v l (u :: rest) v1 r → street_ok g v' → same_street v1 v' → 0 ≤ p →
  (∀ p' nt, 0 ≤ p' → 0 ≤ nt → cell v' p' nt = if decide (p' = p ∧ nt = x_id (hdr u)) then Some (row p st u) else cell v1 p' nt) →
  ahead r' (rows_bytes p st (firsts (ids (filter (want p st) (l ++ [u]))) (filter (want p st) rest))) → progress p st v (l ++ [u]) rest v' r'.
Proof.
  intros El Hw Hin [P1 P2 P3 P4 P5 P6] Hok Hsm Hp Hc Ha.
  assert (∀ w, w ∈ l ++ [u] → 0 ≤ x_id (hdr w)) as Hid.
  { intros w Hw'. assert (w ∈ visits T) as Hv by (rewrite El; set_solver). destruct (tr_hdrs _ _ HT w Hv). lia. }
  assert (filter (want p st) (l ++ [u]) = filter (want p st) l ++ [u]) as E by (by rewrite filter_app, filter_cons_True by done).
  split; [done|by eapply same_street_trans| | | |done].
  - intros w Hw' Hww. rewrite Hc by (done || by apply Hid). apply elem_of_app in Hw' as [Hl| ->%list_elem_of_singleton]; [|by rewrite decide_True].
    rewrite decide_False; [by apply P3|]. intros [_ Ei]. apply Hin, elem_of_ids. exists w. split; [|done]. by apply list_elem_of_filter.
  - intros nt Hnt Hn. rewrite E, ids_snoc in Hn. rewrite Hc, decide_False by (done || set_solver). apply P4; [done|set_solver].
  - intros p' nt Hp' Hnt Hne. rewrite Hc, decide_False by (done || naive_solver). by apply P5.
Qed.

(** ** A thread *)
Definition with_street (st : Z) (v : CFRStreetValues) (c : CFRValues) : CFRValues :=
  set_street_values (<[Z.to_nat st := Some v]> (street_values_ c)) c.

Definition visit_tree (p st : Z) (u : gtree) (s : CFRValues * option Reader) : res (CFRValues * option Reader) :=
  '(s, _) ← ReadSingleFile_node g fresh p st (node_of (hdr u) (replicate (length (moves u)) 0%nat)) s; Ok s.

Lemma visit_eq p st u qs s : length qs = length (moves u) →
  ReadSingleFile_node g fresh p st (node_of (hdr u) qs) s = (s ← visit_tree p st u s; Ok (s, negb (bool_decide (moves u = [])))).
Proof.
  intros L. unfold visit_tree. rewrite (visit_length _ _ _ _ _ qs (replicate (length (moves u)) 0%nat)) by (by rewrite length_replicate).
  assert (Terminal (node_of (hdr u) (replicate (length (moves u)) 0%nat)) = bool_decide (moves u = [])) as Et.
  { unfold Terminal. cbn [num_succs_ node_of]. rewrite length_replicate. destruct (moves u); [done|]. rewrite bool_decide_eq_false_2 by done. apply Z.eqb_neq. cbn [length]. lia. }
  unfold ReadSingleFile_node. rewrite Et. destruct s as [c' r']. case_bool_decide; [done|]. destruct (rd _ _) as [[w|]|]; [|done|done]. rewrite !bind_ok.
  destruct (_ && _); [|done]. destruct r' as [r'|]; [|done]. destruct (ReadNode _ _ _ _ _) as [[w' r'']|]; [|done]. rewrite !bind_ok. by destruct (wr _ _ _).
Qed.

Record street_start (p st : Z) (v : CFRStreetValues) : Prop := {
  ss_ok : street_ok g v;
  ss_type : MyType v = ty st;
  ss_holdings : sv_num_holdings_ v = H st;
  ss_count : sv_num_nonterminals_ v !! Z.to_nat p = Some (nt_count (visits T) p st) }.

Context (p st : Z) (Hp : 0 ≤ p < NumPlayers g) (Hst : 0 ≤ st ≤ MaxStreet g).

Lemma visit_step v c l u rest v1 r : visits T = l ++ u :: rest → street_start p st v → street_values_ c !! Z.to_nat st = Some (Some v1) →
  progress p st v l (u :: rest) v1 r → ∃ v2 r2, visit_tree p st u (c, Some r) = Ok (with_street st v2 c, Some r2) ∧ progress p st v (l ++ [u]) rest v2 r2 ∧
    (is_Some (data_ v1) → is_Some (data_ v2)).
Proof.
  intros El [S1 S2 S3 S4] Ec Pg. assert (u ∈ visits T) as Hv by (rewrite El; set_solver). destruct (tr_hdrs _ _ HT u Hv) as [Hid _ _ Hpa _ _ Hpl].
  assert (with_street st v1 c = c) as Esame by (unfold with_street, set_street_values; rewrite list_insert_id by done; by destruct c).
  unfold visit_tree, ReadSingleFile_node, Terminal, Street. cbn [num_succs_ flags_ player_acting_ node_of]. rewrite length_replicate.
  destruct (decide (moves u = [])) as [Hm|Hm].
  { exists v1, r. rewrite Hm, Esame. split; [done|]. split; [|done]. apply progress_skip; [|done]. by intros [(? & _) _]. }
  rewrite (proj2 (Z.eqb_neq _ 0)) by (destruct (moves u); [done|cbn; lia]). rewrite (rd_lookup _ _ _ (proj1 Hst) Ec), bind_ok.
  destruct (decide (acts p st u)) as [(_ & Ep & Es)|Hna].
  2:{ assert ((x_pa (hdr u) =? p) && (street_of (x_flags (hdr u)) =? st) = false) as ->.
      { destruct (Z.eqb_spec (x_pa (hdr u)) p), (Z.eqb_spec (street_of (x_flags (hdr u))) st); try done. exfalso. by apply Hna. }
      exists v1, r. rewrite Esame. split; [done|]. split; [|done]. apply progress_skip; [|done]. by intros [? _]. }
  rewrite (proj2 (Z.eqb_eq (x_pa (hdr u)) p)), (proj2 (Z.eqb_eq (street_of (x_flags (hdr u))) st)) by done. cbn [andb].
  assert (wr (street_values_ c) st = λ x, Ok (<[Z.to_nat st := x]> (street_values_ c))) as Ewr.
  { unfold wr. apply lookup_lt_Some in Ec. rewrite (proj2 (Z.leb_le 0 st)), (proj2 (Z.ltb_lt st _)) by lia. done. }
  destruct (decide (2 ≤ length (moves u))%nat) as [H2|H2].
  2:{ unfold ReadNode. cbn [num_succs_ node_of]. rewrite length_replicate, (proj2 (Z.leb_le _ 1)) by lia. rewrite bind_ok, Ewr, !bind_ok.
      exists v1, r. split; [done|]. split; [|done]. apply progress_skip; [|done]. by intros [_ ?]. }
  assert (want p st u) as Hw by done. destruct (decide (x_id (hdr u) ∈ ids (filter (want p st) l))) as [Hin|Hin].
  - destruct (progress_old p st v l u rest v1 r El Hw Hin Pg) as [Hc Pg']. rewrite <- Ep in Hc.
    rewrite (ReadNode_old g fresh (hdr u) (replicate (length (moves u)) 0%nat) v1 r _ ltac:(by rewrite length_replicate) ltac:(lia) ltac:(lia) Hc). rewrite bind_ok, Ewr, !bind_ok. by exists v1, r.
  - pose proof Pg as [P1 P2 P3 P4 P5 P6]. rewrite filter_cons_True in P6 by done. cbn [firsts] in P6. rewrite decide_False in P6 by done.
    unfold rows_bytes in P6. cbn [fmap list_fmap concat] in P6.
    assert (sv_num_holdings_ v1 = H st ∧ MyType v1 = ty st ∧ sv_num_nonterminals_ v1 = sv_num_nonterminals_ v) as (Eh & Et & En) by (rewrite P2; done).
    pose proof (nt_count_le (visits T) p st) as [_ Hn]. pose proof (sk_holdings Hσ st).
    destruct (ReadNode_new g fresh Hfr (hdr u) (replicate (length (moves u)) 0%nat) v1 r (row p st u)
      (rows_bytes p st (firsts ({[x_id (hdr u)]} ∪ ids (filter (want p st) l)) (filter (want p st) rest))) (nt_count (visits T) p st))
      as (v2 & r2 & E2 & Ha2 & Hok2 & Hsm2 & Hd2 & Hc2); rewrite ?length_replicate, ?Eh, ?Et, ?En, ?Ep; try done; try lia.
    { split; [lia|]. by apply Hn. } { apply P4; [lia|done]. } { by apply (sk_size Hσ p). }
    { unfold row. rewrite length_fmap, length_seqZ. apply Z2Nat.id. nia. } { apply Forall_fmap, Forall_forall. intros a _. apply (sk_type Hσ). }
    rewrite E2, bind_ok, Ewr, !bind_ok. exists v2, r2. split; [done|]. split; [|done]. rewrite Ep in Hc2. apply (progress_new p st v l u rest v1 r); try done; try lia.
    rewrite filter_app, filter_cons_True by done. change (filter (want p st) []) with (@nil gtree). by rewrite ids_snoc.
Qed.

Lemma ReadSingleFile_visits h root s : unfolds h T root → ReadSingleFile g fresh h root p st s = foldM (visit_tree p st) (visits T) s.
Proof.
  intros Hu. unfold ReadSingleFile. apply (walk_visits h _ (λ u, negb (bool_decide (moves u = [])))).
  - intros u q qs s' Hv Hq E. apply visit_eq. by eapply store_moves.
  - intros u _ Hm. by rewrite bool_decide_eq_false_2.
  - done.
  - pose proof (height_store h T root Hu). lia.
Qed.

Lemma ReadSingleFile_ok h root v c r : unfolds h T root → street_start p st v → street_values_ c !! Z.to_nat st = Some (Some v) →
  (∀ nt, 0 ≤ nt → cell v p nt = None) → ahead r (strategy_file p st) →
  ∃ v' r', ReadSingleFile g fresh h root p st (c, Some r) = Ok (with_street st v' c, Some r') ∧ progress p st v (visits T) [] v' r'.
Proof.
  intros Hu Hs Ec Hn Ha. rewrite ReadSingleFile_visits by done.
  destruct (foldM_inv (λ l s, ∃ v' r', s = (with_street st v' c, Some r') ∧ ∀ rest, visits T = l ++ rest → progress p st v l rest v' r') (visit_tree p st) (visits T) (c, Some r))
    as (s & E & v' & r' & -> & Pg).
  - exists v, r. split; [unfold with_street, set_street_values; rewrite list_insert_id by done; by destruct c|]. intros rest El. cbn in El. subst rest.
      split; [apply Hs|apply same_street_refl|intros u Hu'; by apply elem_of_nil in Hu'|intros nt Hnt _; by apply Hn|done|done].
  - intros l u rest s El (v1 & r1 & -> & Pg). pose proof (lookup_lt_Some _ _ _ Ec) as Hlt.
      destruct (visit_step v (with_street st v1 c) l u rest v1 r1) as (v2 & r2 & E & Pg' & _); [done|done|cbn; by apply list_lookup_insert_eq|by apply Pg|].
      eexists. split; [exact E|]. exists v2, r2. split.
    + unfold with_street, set_street_values. cbn. by rewrite list_insert_insert_eq.
    + intros rest' El'. rewrite El in El'. rewrite <- app_assoc in El'. apply app_inv_head in El'. cbn in El'. injection El' as <-. done.
  - exists v', r'. split; [done|]. apply Pg. by rewrite app_nil_r.
Qed.
End Strategy.

(** ** All threads *)

(** A loop that appends a value per round. *)
Lemma for_append {A} (f : Z → res A) (F : Z → A) n (body : Z → list A → res (list A)) : (∀ i l, 0 ≤ i < n → body i l = (x ← f i; Ok (l ++ [x]))) →
  (∀ i, 0 ≤ i < n → f i = Ok (F i)) → ∀ l, for_ 0 n l body = Ok (l ++ (F <$> seqZ 0 n)).
Proof.
  intros Hb Hf l. unfold for_. rewrite Z.sub_0_r.
  assert (∀ s l0, (∀ i, i ∈ s → 0 ≤ i < n) → foldM body s l0 = Ok (l0 ++ (F <$> s))) as G; [|apply G; intros i Hi%elem_of_seqZ; lia].
  intros s. induction s as [|i s IH]; intros l0 Hs; cbn [foldM]; [by rewrite app_nil_r|].
  rewrite Hb, Hf by (apply Hs; left). rewrite !bind_ok, IH by (intros j Hj; apply Hs; by right). by rewrite <- app_assoc.
Qed.

Lemma lookup_built {A} (F : Z → A) n i : 0 ≤ i < n → (F <$> seqZ 0 n) !! Z.to_nat i = Some (F i).
Proof. intros Hi. rewrite list_lookup_fmap, (proj2 (lookup_seqZ 0 n (Z.to_nat i) i)); [done|lia]. Qed.

Section Threads.
Context (g : SGame) (fresh : Z → list Z) (Hfr : ∀ n, length (fresh n) = Z.to_nat n).
Context (Hnp : 0 < NumPlayers g) (Hms : 0 ≤ MaxStreet g) (T : gtree) (HT : tree_ok g T).
Context (σ : Z → Z → Z → Z → Z) (ty : Z → CFRValueType) (H : Z → Z) (Hσ : strategy_ok T σ ty H).

Definition inside (p st : Z) : Prop := 0 ≤ p < NumPlayers g ∧ 0 ≤ st ≤ MaxStreet g.

(** A street before and after its files are read. *)
Record street_empty (st : Z) (v : CFRStreetValues) : Prop := {
  se_start : ∀ p, 0 ≤ p < NumPlayers g → street_start g T ty H p st v;
  se_none : data_ v = None }.
Record street_read (st : Z) (v : CFRStreetValues) : Prop := {
  sr_start : ∀ p, 0 ≤ p < NumPlayers g → street_start g T ty H p st v;
  sr_read : ∀ p u, 0 ≤ p < NumPlayers g → u ∈ visits T → want p st u → cell v p (x_id (hdr u)) = Some (row σ H p st u) }.

Lemma same_start p st v v' : street_ok g v' → same_street v v' → street_start g T ty H p st v → street_start g T ty H p st v'.
Proof. intros Hok Hs [S1 S2 S3 S4]. split; [done|by rewrite Hs..]. Qed.

(** The turns a thread needs for the nodes before it: one for each, and two more when it may
    have to make the [data_] of its street. *)
Definition turns_needed (rest : list gtree) (making : bool) (v : CFRStreetValues) : nat :=
  match rest with
  | [] => 0
  | _ => length rest + (if making then 1 else match data_ v with None => 2 | Some _ => 0 end)
  end.

(** A thread in the middle of its walk, with [n] turns to come: its calls are trees [ts] of
    the store, and behind it lie the nodes [l]. *)
Record thread_state (h : list Node) (p st : Z) (v : CFRStreetValues) (n : nat) (t : Thread) (ts l : list gtree) (r : Reader) : Prop := {
  th_calls : Forall2 (unfolds h) ts (calls_ t);
  th_split : visits T = l ++ flat_map visits ts;
  th_reader : reader_ t = Some r;
  th_progress : progress g σ ty H p st v l (flat_map visits ts) v r;
  th_making : making_ t = true → ts ≠ [] ∧ data_ v = None;
  th_turns : (turns_needed (flat_map visits ts) (making_ t) v ≤ n)%nat }.
Definition thread_ok h p st v n t : Prop := ∃ ts l r, thread_state h p st v n t ts l r.

(** [v'] is [v] after something that concerns player [p] alone. *)
Record only_player (p : Z) (v v' : CFRStreetValues) : Prop := {
  ol_ok : street_ok g v';
  ol_same : same_street v v';
  ol_made : is_Some (data_ v) → is_Some (data_ v');
  ol_cells : ∀ q nt, 0 ≤ q → 0 ≤ nt → q ≠ p → cell v' q nt = cell v q nt }.

Lemma only_player_refl p v : street_ok g v → only_player p v v.
Proof. intros Hv. split; [done|apply same_street_refl|done|done]. Qed.

Lemma progress_rebase p st v0 v l rest r : progress g σ ty H p st v0 l rest v r → progress g σ ty H p st v l rest v r.
Proof. intros [P1 P2 P3 P4 P5 P6]. split; [done|apply same_street_refl|done|done|done|done]. Qed.

Lemma progress_frame p st v v' l rest r : 0 ≤ p → (∀ u, u ∈ l → 0 ≤ x_id (hdr u)) → street_ok g v' → (∀ nt, 0 ≤ nt → cell v' p nt = cell v p nt) →
  progress g σ ty H p st v l rest v r → progress g σ ty H p st v' l rest v' r.
Proof.
  intros Hp Hid Hok Hc [P1 P2 P3 P4 P5 P6]. split; [done|apply same_street_refl| | |done|done].
  - intros u Hu Hw. rewrite Hc by (by apply Hid). by apply P3.
  - intros nt Hnt Hn. rewrite Hc by done. by apply P4.
Qed.

Lemma visit_ids u : u ∈ visits T → 0 ≤ x_id (hdr u).
Proof. intros Hu. destruct (tr_hdrs _ _ HT u Hu). lia. Qed.

Lemma turns_needed_le rest v v' m : (is_Some (data_ v) → is_Some (data_ v')) → (turns_needed rest m v' ≤ turns_needed rest m v)%nat.
Proof. intros Hd. unfold turns_needed. destruct rest; [done|]. destruct m; [done|]. destruct (data_ v), (data_ v') eqn:E; try lia. destruct Hd as [? ?]; [done|congruence]. Qed.

(** The turn of a player leaves the other threads as they are. *)
Lemma thread_frame h p q st v v' n t : 0 ≤ q → q ≠ p → making_ t = false → only_player p v v' → thread_ok h q st v n t → thread_ok h q st v' n t.
Proof.
  intros Hq Hne Hm [O1 O2 O3 O4] (ts & l & r & [T1 T2 T3 T4 T5 T6]). exists ts, l, r. split; try done.
  - apply (progress_frame q st v); try done; [|intros nt Hnt; by apply O4]. intros u Hu. apply visit_ids. rewrite T2. set_solver.
  - by rewrite Hm.
  - etrans; [|exact T6]. by apply turns_needed_le.
Qed.

Lemma succ_calls_ok x qs : succ_calls (node_of x qs) = Ok qs.
Proof.
  unfold succ_calls. cbn [num_succs_ node_of].
  assert (∀ rest done_, qs = done_ ++ rest → foldM (λ i l, q ← IthSucc (node_of x qs) i; Ok (l ++ [q])) (seqZ (Z.of_nat (length done_)) (Z.of_nat (length rest))) done_ = Ok qs) as G.
  { intros rest. induction rest as [|q rest IH]; intros d E; [cbn; by rewrite E, app_nil_r|]. cbn [length]. rewrite seqZ_cons by lia. cbn [foldM].
    rewrite (IthSucc_node x qs (length d) q) by (rewrite E; by apply list_lookup_middle). rewrite !bind_ok.
    replace (Z.succ (Z.of_nat (length d))) with (Z.of_nat (length (d ++ [q]))) by (rewrite length_app; cbn; lia).
    replace (Z.pred (Z.of_nat (S (length rest)))) with (Z.of_nat (length rest)) by lia. apply IH. by rewrite <- app_assoc. }
  unfold for_. rewrite Z.sub_0_r. by apply (G qs []).
Qed.

Lemma with_street_id st v c : street_values_ c !! Z.to_nat st = Some (Some v) → with_street st v c = c.
Proof. intros E. unfold with_street, set_street_values. rewrite list_insert_id by done. by destruct c. Qed.

(** The assignment of [data_] when there is none. *)
Lemma make_data_ok p st c v : 0 ≤ st → street_values_ c !! Z.to_nat st = Some (Some v) → street_ok g v → data_ v = None →
  ∃ v', make_data g st c = Ok (with_street st v' c) ∧ only_player p v v' ∧ is_Some (data_ v') ∧ ∀ q nt, cell v' q nt = cell v q nt.
Proof.
  intros Hst Ec [S1 S2] Ed. exists (set_data (Some (replicate (Z.to_nat (NumPlayers g)) None)) v). unfold make_data. rewrite (rd_lookup _ _ _ Hst Ec), bind_ok.
  rewrite wr_ok, bind_ok by (apply lookup_lt_Some in Ec; lia). split; [done|].
  assert (∀ q nt, cell (set_data (Some (replicate (Z.to_nat (NumPlayers g)) None)) v) q nt = cell v q nt) as Hc.
  { intros q nt. unfold cell. cbn. rewrite Ed. destruct (replicate _ None !! _) as [o|] eqn:E; [|done]. by apply lookup_replicate in E as [-> _]. }
  split; [|split; [done|exact Hc]]. split; [|done|done|intros; apply Hc]. split; [done|]. cbn. intros d [= <-]. rewrite length_replicate. split; [done|].
  intros q r n E. by apply lookup_replicate in E as [? _].
Qed.

(** Only a missing [data_] ends a turn early. *)
Lemma finds_no_data_ok p st node r c v : 0 ≤ st → street_values_ c !! Z.to_nat st = Some (Some v) →
  ∃ b, finds_no_data p st node (Some r) c = Ok b ∧ (b = true → data_ v = None).
Proof.
  intros Hst Ec. unfold finds_no_data. destruct (Terminal node); [by exists false|]. rewrite (rd_lookup _ _ _ Hst Ec), bind_ok. eexists. split; [done|].
  intros [_ E]%andb_prop. by destruct (data_ v).
Qed.

Lemma thread_turn_ok h p st v c t n : inside p st → street_values_ c !! Z.to_nat st = Some (Some v) → street_start g T ty H p st v → thread_ok h p st v (S n) t →
  ∃ v' t', thread_turn g fresh h p st t c = Ok (t', with_street st v' c) ∧ thread_ok h p st v' n t' ∧ only_player p v v'.
Proof.
  intros [Hp Hst] Ec Hs (ts & l & r & [T1 T2 T3 T4 T5 T6]). unfold thread_turn. destruct (calls_ t) as [|q qs] eqn:Eq0; inversion T1 as [|u ? us ? Hu Hus]; subst.
  { exists v, t. rewrite with_street_id by done. split; [done|]. split; [|apply only_player_refl, Hs]. exists [], l, r. split; try done; [by rewrite Eq0|cbn; lia]. }
  destruct (making_ t) eqn:Em.
  { destruct (T5 eq_refl) as [_ Ed]. destruct (make_data_ok p st c v (proj1 Hst) Ec (ss_ok _ _ _ _ _ _ _ Hs) Ed) as (v' & -> & Ho & Hd & Hc). rewrite bind_ok. eexists v', _. split; [done|].
    split; [|done]. exists (u :: us), l, r. split; cbn [calls_ making_ reader_]; try done.
    - apply (progress_frame p st v); try done; [lia|intros w Hw; apply visit_ids; rewrite T2; set_solver|apply Ho].
    - revert T6. unfold turns_needed. destruct Hd as [d ->]. destruct (flat_map visits (u :: us)); lia. }
  destruct u as [x us0]. pose proof Hu as Hun. apply unfolds_eq in Hu as (qs0 & Eq & F). unfold deref. rewrite Eq, bind_ok.
  pose proof (Forall2_length _ _ _ F) as Lq. destruct (finds_no_data_ok p st (node_of x qs0) r c v (proj1 Hst) Ec) as (b & Eb & Hb). rewrite T3, Eb, bind_ok. destruct b.
  { exists v. eexists. rewrite with_street_id by done. split; [done|]. split; [|apply only_player_refl, Hs]. exists (GT x us0 :: us), l, r. split; cbn [calls_ making_ reader_]; try done.
    - intros _. split; [done|]. by apply Hb.
    - revert T6. unfold turns_needed. rewrite (Hb eq_refl). destruct (flat_map visits (GT x us0 :: us)); lia. }
  cbn [flat_map visits moves app] in T2, T4, T6. destruct (visit_step g fresh Hfr Hnp T HT σ ty H Hσ p st Hp Hst v c l (GT x us0) _ v r T2 Hs Ec T4) as (v2 & r2 & Ev & Pg & Hd).
  pose proof (visit_eq g fresh p st (GT x us0) qs0 (c, Some r) ltac:(cbn; lia)) as Evis. cbn [hdr] in Evis. rewrite Evis, Ev, !bind_ok. cbn [moves].
  assert ((if negb (bool_decide (us0 = [])) then succ_calls (node_of x qs0) else Ok []) = Ok qs0) as ->.
  { rewrite succ_calls_ok. destruct us0; [by destruct qs0|done]. }
  rewrite bind_ok. eexists v2, _. split; [done|]. split.
  - exists (us0 ++ us), (l ++ [GT x us0]), r2. split; rewrite ?flat_map_app; cbn [calls_ making_ reader_]; try done.
    + by apply Forall2_app.
    + by rewrite T2, <- app_assoc.
    + by eapply progress_rebase.
    + revert T6. unfold turns_needed. destruct (flat_map visits us0 ++ flat_map visits us) eqn:E0; [lia|]. cbn [length].
      destruct (data_ v) eqn:Ed, (data_ v2) eqn:Ed2; try lia. destruct Hd as [? ?]; [done|congruence].
  - destruct Pg as [P1 P2 P3 P4 P5 P6]. by split.
Qed.

(** ** A thread alone
    Left alone, a thread does what [ReadSingleFile] does: the turns are its calls in the order
    of the recursion. *)
Definition turns (h : list Node) (p st : Z) (n : nat) (s : Thread * CFRValues) : res (Thread * CFRValues) :=
  foldM (λ _ '(t, c), thread_turn g fresh h p st t c) (replicate n tt) s.

Lemma turns_S h p st n t c : turns h p st (S n) (t, c) = (s ← thread_turn g fresh h p st t c; turns h p st n s).
Proof. done. Qed.

Lemma ReadNode_made node v r : 0 ≤ player_acting_ node < NumPlayers g → data_ v = None →
  ReadNode g fresh node false (set_data (Some (replicate (Z.to_nat (NumPlayers g)) None)) v, r) = ReadNode g fresh node false (v, r) ∨ num_succs_ node ≤ 1.
Proof.
  intros Hp Ed. destruct (decide (num_succs_ node ≤ 1)) as [Hn|Hn]; [by right|left]. unfold ReadNode. rewrite (proj2 (Z.leb_gt _ _)) by lia.
  assert (∀ nt w, data_ w = Some (replicate (Z.to_nat (NumPlayers g)) None) → has_row w (player_acting_ node) nt = Ok false) as Hr.
  { intros nt w Ew. unfold has_row. rewrite Ew, (rd_lookup _ _ None); [done|lia|]. apply lookup_replicate. split; [done|lia]. }
  rewrite Hr by done. unfold has_row. rewrite Ed, !bind_ok. unfold InitializeValuesForReading, make_rows. rewrite Ed. cbn [data_ set_data]. done.
Qed.

(** A read is of an element. *)
Lemma rd_is {A} (l : list A) i x : rd l i = Ok x → 0 ≤ i ∧ l !! Z.to_nat i = Some x.
Proof. unfold rd. destruct (Z.ltb_spec i 0); [done|]. destruct (l !! Z.to_nat i); [|done]. by intros [= ->]. Qed.

Lemma visit_made p st u qs o c : u ∈ visits T → length qs = length (moves u) → finds_no_data p st (node_of (hdr u) qs) o c = Ok true →
  ∃ c1, make_data g st c = Ok c1 ∧ finds_no_data p st (node_of (hdr u) qs) o c1 = Ok false ∧
    ReadSingleFile_node g fresh p st (node_of (hdr u) qs) (c1, o) = ReadSingleFile_node g fresh p st (node_of (hdr u) qs) (c, o).
Proof.
  intros Hu L. unfold finds_no_data, make_data, ReadSingleFile_node. destruct (Terminal _) eqn:Et; [done|]. intros (w & E & Ef)%bind_Ok_inv. rewrite E, bind_ok.
  destruct w as [v|]; [|done]. destruct o as [r|]; [|done]. injection Ef as [[[E1 E2]%andb_prop E3]%andb_prop E4]%andb_prop. destruct (data_ v) as [|] eqn:Ed; [done|].
  assert (0 ≤ player_acting_ (node_of (hdr u) qs) < NumPlayers g) as Hp.
  { cbn. destruct (tr_hdrs _ _ HT u Hu) as [_ _ _ Hpa _ _ Hpl]. split; [lia|]. apply Hpl. intros Em. rewrite Em in L. unfold Terminal in Et. cbn [num_succs_ node_of] in Et. by rewrite L in Et. }
  apply rd_is in E as [Hst E]. pose proof (lookup_lt_Some _ _ _ E) as Hlt. rewrite wr_ok, bind_ok by lia. eexists. split; [done|]. cbn [street_values_ set_street_values].
  rewrite (rd_lookup _ _ _ Hst (list_lookup_insert_eq _ _ _ Hlt)), !bind_ok. cbn [data_ set_data]. change (player_acting_ (node_of (hdr u) qs)) with (x_pa (hdr u)). rewrite E1, E2. cbn [andb]. split; [by rewrite andb_false_r|].
  destruct (ReadNode_made (node_of (hdr u) qs) v r Hp Ed) as [->|Hn]; [|cbn in Hn; lia]. destruct (ReadNode _ _ _ _ _) as [[v' r']|]; [|done]. rewrite !bind_ok.
  rewrite !wr_ok, !bind_ok by (rewrite ?length_insert; lia). by rewrite list_insert_insert_eq.
Qed.

Lemma turns_follow h p st : ∀ k ts calls c o c' o', length (flat_map visits ts) = k → Forall2 (unfolds h) ts calls → flat_map visits ts ⊆ visits T →
  foldM (visit_tree g fresh p st) (flat_map visits ts) (c, o) = Ok (c', o') → ∃ n, turns h p st n (mkThread calls false o, c) = Ok (mkThread [] false o', c').
Proof.
  intros k. induction k as [k IH] using lt_wf_ind. intros ts calls c o c' o' Hk Hf Hsub E. inversion Hf as [|u q us qs Hu Hus]; subst; [cbn in E; injection E as -> ->; by exists 0%nat|].
  destruct u as [x us0]. pose proof Hu as Hun. apply unfolds_eq in Hu as (qs0 & Eq & F). pose proof (Forall2_length _ _ _ F) as Lq. cbn [flat_map visits moves app foldM] in *.
  apply bind_Ok_inv in E as ([c1 o1] & E1 & E). assert (GT x us0 ∈ visits T) as Hin by (apply Hsub; left).
  assert (∀ c0, ReadSingleFile_node g fresh p st (node_of x qs0) (c0, o) = ReadSingleFile_node g fresh p st (node_of x qs0) (c, o) →
    finds_no_data p st (node_of x qs0) o c0 = Ok false → ∃ n, turns h p st n (mkThread (q :: qs) false o, c0) = Ok (mkThread [] false o', c')) as Hgo.
  { intros c0 Ec Ef. destruct (IH (length (flat_map visits (us0 ++ us))) ltac:(rewrite flat_map_app; cbn [length]; lia) (us0 ++ us) (qs0 ++ qs) c1 o1 c' o') as (n & En); [done|by apply Forall2_app| | |].
    - rewrite flat_map_app. set_solver.
    - by rewrite flat_map_app.
    - exists (S n). rewrite turns_S. unfold thread_turn. cbn [calls_ making_ reader_]. unfold deref. rewrite Eq, bind_ok, Ef, bind_ok, Ec.
      pose proof (visit_eq g fresh p st (GT x us0) qs0 (c, o) ltac:(cbn; lia)) as Evis. cbn [hdr] in Evis. rewrite Evis, E1, !bind_ok. cbn [moves].
      rewrite succ_calls_ok. destruct us0; [destruct qs0; [done|done]|done]. }
  pose proof (visit_eq g fresh p st (GT x us0) qs0 (c, o) ltac:(cbn; lia)) as Evis. cbn [hdr] in Evis. rewrite E1, bind_ok in Evis.
  destruct (finds_no_data p st (node_of x qs0) o c) as [[]|e] eqn:Ef.
  - destruct (visit_made p st (GT x us0) qs0 o c Hin ltac:(cbn; lia) Ef) as (c2 & Em & Ef2 & Ec2). destruct (Hgo c2 Ec2 Ef2) as (n & En). exists (S (S n)).
    rewrite !turns_S. unfold thread_turn at 1. cbn [calls_ making_ reader_]. unfold deref. rewrite Eq, bind_ok, Ef, !bind_ok. rewrite turns_S. unfold thread_turn. cbn [calls_ making_ reader_].
    by rewrite Em, !bind_ok.
  - by apply Hgo.
  - unfold finds_no_data in Ef. unfold ReadSingleFile_node in Evis. destruct (Terminal _); [done|]. by destruct (rd _ _).
Qed.

Lemma thread_reads_file h root p st v c r : inside p st → unfolds h T root → street_start g T ty H p st v → street_values_ c !! Z.to_nat st = Some (Some v) →
  (∀ nt, 0 ≤ nt → cell v p nt = None) → ahead r (strategy_file T σ ty H p st) →
  ∃ n c' o, turns h p st n (mkThread [root] false (Some r), c) = Ok (mkThread [] false o, c') ∧ ReadSingleFile g fresh h root p st (c, Some r) = Ok (c', o).
Proof.
  intros [Hp Hst] Hu Hs Ec Hn Ha. destruct (ReadSingleFile_ok g fresh Hfr Hnp T HT σ ty H Hσ p st Hp Hst h root v c r Hu Hs Ec Hn Ha) as (v' & r' & E & _).
  pose proof E as E'. rewrite (ReadSingleFile_visits g fresh T p st h root) in E' by done.
  destruct (turns_follow h p st _ [T] [root] c (Some r) (with_street st v' c) (Some r') eq_refl) as (n & En); [by constructor|cbn; by rewrite app_nil_r|cbn [flat_map]; by rewrite app_nil_r|].
  by exists n, (with_street st v' c), (Some r').
Qed.

(** ** All threads *)
Definition thread_at (threads : list (list Thread)) (p st : Z) : option Thread :=
  match threads !! Z.to_nat p with Some rw => rw !! Z.to_nat st | None => None end.

(** The turns of one thread. *)
Definition turns_of (p st : Z) (schedule : list (Z * Z)) : nat := length (filter (λ turn, turn = (p, st)) schedule).

Record run_state (h : list Node) (schedule : list (Z * Z)) (c : CFRValues) (threads : list (list Thread)) : Prop := {
  rs_rows : length threads = Z.to_nat (NumPlayers g) ∧ ∀ i rw, threads !! i = Some rw → length rw = Z.to_nat (MaxStreet g + 1);
  rs_streets : ∀ st, 0 ≤ st ≤ MaxStreet g → ∃ v, street_values_ c !! Z.to_nat st = Some (Some v) ∧
    ∀ p, 0 ≤ p < NumPlayers g → street_start g T ty H p st v ∧ ∃ t, thread_at threads p st = Some t ∧ thread_ok h p st v (turns_of p st schedule) t }.

Lemma alone_ok p q st threads t : inside q st → q ≠ p → alone g p st threads = true → thread_at threads q st = Some t → making_ t = false.
Proof.
  intros [Hq Hst] Hne Ha Et. unfold alone in Ha. rewrite forallb_forall in Ha. specialize (Ha q). unfold thread_at in Et. destruct (threads !! Z.to_nat q) as [rw|]; [|done].
  rewrite Et in Ha. apply orb_prop in Ha as [E%Z.eqb_eq|E%negb_true_iff]; [done|done|]. apply list_elem_of_In, elem_of_seqZ. lia.
Qed.

Lemma thread_at_insert threads p st q st' rw t : threads !! Z.to_nat p = Some rw → (Z.to_nat st < length rw)%nat → 0 ≤ p → 0 ≤ st → 0 ≤ q → 0 ≤ st' →
  thread_at (<[Z.to_nat p := <[Z.to_nat st := t]> rw]> threads) q st' = if decide (q = p ∧ st' = st) then Some t else thread_at threads q st'.
Proof.
  intros Er Hl Hp Hst Hq Hst'. unfold thread_at. pose proof (lookup_lt_Some _ _ _ Er). destruct (decide (q = p)) as [->|Hne].
  - rewrite list_lookup_insert_eq, Er by done. destruct (decide (st' = st)) as [->|Hne]; [by rewrite decide_True, list_lookup_insert_eq by done|].
    rewrite decide_False by naive_solver. by rewrite list_lookup_insert_ne by lia.
  - rewrite decide_False by naive_solver. by rewrite list_lookup_insert_ne by lia.
Qed.

Lemma turns_of_cons p st q st' schedule : turns_of q st' ((p, st) :: schedule) = if decide (q = p ∧ st' = st) then S (turns_of q st' schedule) else turns_of q st' schedule.
Proof.
  unfold turns_of. destruct (decide (q = p ∧ st' = st)) as [[-> ->]|Hne]; [by rewrite filter_cons_True|]. rewrite filter_cons_False; [done|]. intros [= -> ->]. by apply Hne.
Qed.

Lemma take_turn_ok h p st schedule c threads : inside p st → alone g p st threads = true → run_state h ((p, st) :: schedule) c threads →
  ∃ c' threads', take_turn g fresh h (p, st) (c, threads) = Ok (c', threads') ∧ run_state h schedule c' threads' ∧ set_street_values (street_values_ c') c = c'.
Proof.
  intros Hi Ha [[R1 R2] R3]. pose proof Hi as [Hp Hst]. destruct (R3 st Hst) as (v & Ev & Hv). destruct (Hv p Hp) as (Hs & t & Et & Ht).
  unfold take_turn. unfold thread_at in Et. destruct (threads !! Z.to_nat p) as [rw|] eqn:Er; [|done]. pose proof (R2 _ _ Er) as Lr.
  rewrite (rd_lookup _ _ _ (proj1 Hp) Er), bind_ok, (rd_lookup _ _ _ (proj1 Hst) Et), bind_ok. rewrite turns_of_cons, decide_True in Ht by done.
  destruct (thread_turn_ok h p st v c t _ Hi Ev Hs Ht) as (v' & t' & -> & Ht' & Ho). rewrite bind_ok, wr_ok, bind_ok, wr_ok, bind_ok by lia. eexists _, _. split; [done|]. split; [|done].
  pose proof (lookup_lt_Some _ _ _ Ev) as Hlt. split.
  - rewrite length_insert. split; [done|]. intros i rw' Ei. apply list_lookup_insert_Some in Ei as [(<- & <- & _)|(_ & Ei)]; [by rewrite length_insert|by eapply R2].
  - intros st' Hst'. cbn [street_values_ with_street set_street_values]. destruct (decide (st' = st)) as [->|Hne].
    + exists v'. split; [by apply list_lookup_insert_eq|]. intros q Hq. destruct (Hv q Hq) as (Hs' & tq & Eq & Hq'). split; [by apply (same_start q st v); [apply Ho|apply Ho|]|].
      rewrite thread_at_insert by (done || lia). destruct (decide (q = p ∧ st = st)) as [[-> _]|Hn]; [by exists t'|]. exists tq. split; [done|].
      assert (q ≠ p) as Hqp by (intros ->; by apply Hn).
      rewrite turns_of_cons, decide_False in Hq' by done. apply (thread_frame h p q st v); try done; [lia|]. by apply (alone_ok p q st threads).
    + destruct (R3 st' Hst') as (w & Ew & Hw). exists w. split; [by rewrite list_lookup_insert_ne by lia|]. intros q Hq. destruct (Hw q Hq) as (Hs' & tq & Eq & Hq'). split; [done|].
      exists tq. assert (¬ (q = p ∧ st' = st)) as Hn by (by intros [_ ?]). rewrite thread_at_insert, decide_False by (done || lia). by rewrite turns_of_cons, decide_False in Hq' by done.
Qed.

Lemma take_turns_ok h c0 : ∀ schedule c threads, Forall (λ turn, inside turn.1 turn.2) schedule → undisturbed g fresh h schedule (c, threads) = true →
  run_state h schedule c threads → set_street_values (street_values_ c) c0 = c →
  ∃ c' threads', foldM (take_turn g fresh h) schedule (c, threads) = Ok (c', threads') ∧ run_state h [] c' threads' ∧ set_street_values (street_values_ c') c0 = c'.
Proof.
  intros schedule. induction schedule as [|[p st] schedule IH]; intros c threads Hin Hun Hr Ec; [by exists c, threads|]. inversion Hin as [|? ? Hi Hin']; subst.
  cbn [undisturbed fst snd] in Hun. apply andb_prop in Hun as [Ha Hun]. destruct (take_turn_ok h p st schedule c threads Hi Ha Hr) as (c1 & threads1 & E & Hr1 & Ec1).
  cbn [foldM]. rewrite E, bind_ok. rewrite E in Hun. apply IH; try done. rewrite <- Ec1, <- Ec. done.
Qed.

(** Enough turns for every thread. *)
Definition enough_turns (schedule : list (Z * Z)) : Prop := ∀ p st, inside p st → (length (visits T) + 2 ≤ turns_of p st schedule)%nat.

Record load_start (c : CFRValues) (readers : list (list (option Reader))) : Prop := {
  lt_streets : ∀ st, 0 ≤ st ≤ MaxStreet g → ∃ v, street_values_ c !! Z.to_nat st = Some (Some v) ∧ street_empty st v;
  lt_readers : ∀ p, 0 ≤ p < NumPlayers g → ∃ rw, readers !! Z.to_nat p = Some rw ∧ length rw = Z.to_nat (MaxStreet g + 1) ∧
    ∀ st, 0 ≤ st ≤ MaxStreet g → ∃ r, rw !! Z.to_nat st = Some (Some r) ∧ ahead r (strategy_file T σ ty H p st);
  lt_length : length readers = Z.to_nat (NumPlayers g) }.

Lemma start_threads_ok h root schedule c readers : unfolds h T root → enough_turns schedule → load_start c readers → run_state h schedule c (start_threads root readers).
Proof.
  intros Hu He [L1 L2 L3]. split.
  - unfold start_threads. rewrite length_map. split; [done|]. intros i rw Ei. pose proof (lookup_lt_Some _ _ _ Ei) as Hi. rewrite length_map in Hi.
    destruct (L2 (Z.of_nat i)) as (rw' & E' & Lw & _); [lia|]. change (map ?f ?x) with (f <$> x) in Ei. rewrite Nat2Z.id in E'. rewrite list_lookup_fmap, E' in Ei. injection Ei as <-. by rewrite length_map.
  - intros st Hst. destruct (L1 st Hst) as (v & Ev & [S1 S2]). exists v. split; [done|]. intros p Hp. split; [by apply S1|]. destruct (L2 p Hp) as (rw & Er & _ & Hr). destruct (Hr st Hst) as (r & Err & Ha).
    exists (mkThread [root] false (Some r)). split.
    + unfold thread_at, start_threads. change (map ?f ?x) with (f <$> x). rewrite list_lookup_fmap, Er. cbn. change (map ?f ?x) with (f <$> x). by rewrite list_lookup_fmap, Err.
    + exists [T], [], r. split; cbn [flat_map calls_ making_ reader_]; rewrite ?app_nil_r; try done.
      * by constructor.
      * split; [by apply (S1 p Hp)|apply same_street_refl|intros u Hu'; by apply elem_of_nil in Hu'| |done|done]. intros nt _ _. unfold cell. by rewrite S2.
      * specialize (He p st (conj Hp Hst)). unfold turns_needed. rewrite S2. destruct (visits T); lia.
Qed.

Lemma visits_none ts : flat_map visits ts = [] → ts = [].
Proof. destruct ts as [|[x us] ts]; [done|]. cbn. discriminate. Qed.

(** With enough turns and no disturbance every thread reads its file to the end. *)
Lemma run_threads_ok h root schedule c readers : unfolds h T root → Forall (λ turn, inside turn.1 turn.2) schedule → enough_turns schedule → load_start c readers →
  undisturbed g fresh h schedule (c, start_threads root readers) = true →
  ∃ c' threads, run_threads g fresh h root schedule c readers = Ok (c', threads) ∧ forallb (forallb no_calls) threads = true ∧ forallb (forallb at_end) threads = true ∧
    (∀ st, 0 ≤ st ≤ MaxStreet g → ∃ v, street_values_ c' !! Z.to_nat st = Some (Some v) ∧ street_read st v) ∧ set_street_values (street_values_ c') c = c'.
Proof.
  intros Hu Hin He Hl Hun. unfold run_threads.
  destruct (take_turns_ok h c schedule c (start_threads root readers) Hin Hun) as (c' & threads & E & [[R1 R2] R3] & Ec); [by apply start_threads_ok|by destruct c|].
  assert (∀ p st v t, thread_ok h p st v 0 t → no_calls t = true ∧ at_end t = true ∧ ∀ u, u ∈ visits T → want p st u → cell v p (x_id (hdr u)) = Some (row σ H p st u)) as Hend.
  { intros p st v t (ts & l & r & [T1 T2 T3 T4 T5 T6]). assert (flat_map visits ts = []) as E0 by (revert T6; unfold turns_needed; destruct (flat_map visits ts); [done|cbn [length]; lia]).
    rewrite E0 in T2, T4. rewrite app_nil_r in T2. apply visits_none in E0. subst ts. inversion T1 as [Ec0|]. unfold no_calls, at_end. rewrite T3. destruct (calls_ t); [|done].
    split; [done|]. destruct T4 as [_ _ P3 _ _ P6]. split; [by rewrite (ahead_end _ _ P6)|]. by rewrite T2. }
  assert (∀ f : Thread → bool, (∀ p st v t, thread_ok h p st v 0 t → f t = true) → forallb (forallb f) threads = true) as Hall.
  { intros f Hf. apply Is_true_true_1, forallb_True, Forall_lookup. intros i rw Ei. pose proof (lookup_lt_Some _ _ _ Ei) as Hi. apply forallb_True, Forall_lookup. intros j t Ej.
    pose proof (lookup_lt_Some _ _ _ Ej) as Hj. rewrite (R2 _ _ Ei) in Hj. destruct (R3 (Z.of_nat j)) as (v & _ & Hv); [lia|]. destruct (Hv (Z.of_nat i)) as (_ & t' & Et & Ht); [lia|].
    unfold thread_at in Et. rewrite !Nat2Z.id, Ei, Ej in Et. injection Et as <-. by rewrite (Hf _ _ _ _ Ht). }
  exists c', threads. split; [done|]. split; [apply Hall; intros p st v t Ht; by apply (Hend p st v t)|]. split; [apply Hall; intros p st v t Ht; by apply (Hend p st v t)|]. split; [|done].
  intros st Hst. destruct (R3 st Hst) as (v & Ev & Hv). exists v. split; [done|]. split; [intros p Hp; by apply Hv|]. intros p u Hp. destruct (Hv p Hp) as (_ & t & _ & Ht). by apply (Hend p st v t).
Qed.
End Threads.


(** ** Loading: the object is made, the files are opened and read, queries are answered *)
Section Load.
Context (g : SGame) (fresh : Z → list Z) (Hfr : ∀ n, length (fresh n) = Z.to_nat n).
Context (Hnp : 0 < NumPlayers g) (Hms : 0 ≤ MaxStreet g) (T : gtree) (HT : tree_ok g T).
Context (σ : Z → Z → Z → Z → Z) (ty : Z → CFRValueType) (H : Z → Z) (Hσ : strategy_ok T σ ty H).

Lemma flags_all n (f : option (list bool)) : (∀ i, 0 ≤ i < n → match f with None => True | Some l => l !! Z.to_nat i = Some true end) →
  flags_or_all n f = Ok ((λ _, true) <$> seqZ 0 n).
Proof.
  intros Hf. unfold flags_or_all. apply (for_append (λ i, match f with None => Ok true | Some l => rd l i end) (λ _, true) n); [done|].
  intros i Hi. specialize (Hf i Hi). destruct f; [apply rd_lookup; [lia|done]|done].
Qed.

(** ** The object of the values *)

(** The number of holdings of a street: its clusters, or its boards times the pairs of hole
    cards when it has none. *)
Definition holdings_are (boards : PCardTree) (buckets : ClusterHands) (root_bd root_bd_st st n : Z) : Prop :=
  (none_ buckets !! Z.to_nat st = Some false ∧ num_cluster_ buckets !! Z.to_nat st = Some n) ∨
  (none_ buckets !! Z.to_nat st = Some true ∧ ∃ b k, NumLocalBoards boards root_bd_st root_bd st = Ok b ∧ NumHoleCardPairs g st = Ok k ∧ n = b * k ∧ 0 ≤ n ≤ INT32_MAX).

(** The object as it is made: all players and streets, no values. *)
Record fresh_values (c : CFRValues) : Prop := {
  fv_players : ∀ p, 0 ≤ p < NumPlayers g → players_ c !! Z.to_nat p = Some true;
  fv_streets : ∀ st, 0 ≤ st ≤ MaxStreet g → streets_ c !! Z.to_nat st = Some true;
  fv_holdings : ∀ st, 0 ≤ st ≤ MaxStreet g → num_holdings_ c !! Z.to_nat st = Some (H st);
  fv_counts : ∀ p st, 0 ≤ p < NumPlayers g → 0 ≤ st ≤ MaxStreet g →
    cv_num_nonterminals_ c !! Z.to_nat (p * (MaxStreet g + 1) + st) = Some (nt_count (visits T) p st);
  fv_none : street_values_ c = replicate (Z.to_nat (MaxStreet g + 1)) None }.

(** A loop over players and streets that appends a value per round. *)
Lemma for_append_rows {A} (F : Z → Z → A) n k (body : Z → Z → list A → res (list A)) : 0 ≤ n → 0 < k →
  (∀ p st l, 0 ≤ p < n → 0 ≤ st < k → body p st l = Ok (l ++ [F p st])) →
  ∃ a, for_ 0 n [] (λ p l, for_ 0 k l (body p)) = Ok a ∧ ∀ p st, 0 ≤ p < n → 0 ≤ st < k → a !! Z.to_nat (p * k + st) = Some (F p st).
Proof.
  intros Hn Hk Hb.
  destruct (for_inv (λ i a, length a = Z.to_nat (i * k) ∧ ∀ p st, 0 ≤ p < i → 0 ≤ st < k → a !! Z.to_nat (p * k + st) = Some (F p st)) 0 n []
    (λ p l, for_ 0 k l (body p))) as (a & E & _ & Ha); [done|split; [done|lia]| |by exists a].
  intros p l Hp [Ll Hl]. rewrite (for_append (λ st, Ok (F p st)) (F p)) by (intros; by rewrite ?Hb, ?bind_ok). eexists. split; [done|].
  rewrite length_app, length_fmap, length_seqZ. assert (0 ≤ p * k) by nia. split; [nia|]. intros q st Hq Hst. destruct (decide (q = p)) as [->|Hne].
  - rewrite lookup_app_r by lia. replace (Z.to_nat (p * k + st) - length l)%nat with (Z.to_nat st) by lia. by apply lookup_built.
  - rewrite lookup_app_l by nia. apply Hl; [lia|done].
Qed.

Lemma CFRValues_new_ok boards buckets a root_bd root_bd_st : holds_tree g T a → (∀ st, 0 ≤ st ≤ MaxStreet g → holdings_are boards buckets root_bd root_bd_st st (H st)) →
  ∃ c, CFRValues_new g boards buckets a None None root_bd root_bd_st = Ok c ∧ fresh_values c.
Proof.
  intros Ha Hh. unfold CFRValues_new. rewrite !flags_all by done. rewrite !bind_ok.
  assert (∀ n i, 0 ≤ i < n → rd ((λ _ : Z, true) <$> seqZ 0 n) i = Ok true) as Hrd.
  { intros n i Hi. apply rd_lookup; [lia|]. by apply (lookup_built (λ _, true)). }
  rewrite (for_append (λ st, Ok (H st)) H (MaxStreet g + 1)).
  2:{ intros st l Hst. rewrite Hrd, bind_ok by done. cbn [negb]. destruct (Hh st ltac:(lia)) as [[E1 E2]|(E1 & b & k & E2 & E3 & En & Hn)]; rewrite (rd_lookup _ _ _ (proj1 Hst) E1), bind_ok.
      - by rewrite (rd_lookup _ _ _ (proj1 Hst) E2), bind_ok.
      - rewrite E2, bind_ok, E3, bind_ok, <- En, i32_ok by (unfold INT32_MIN, INT32_MAX in *; lia). by rewrite bind_ok. }
  2:{ done. }
  rewrite bind_ok.
  destruct (for_append_rows (nt_count (visits T)) (NumPlayers g) (MaxStreet g + 1) (λ p st l,
    b ← rd ((λ _ : Z, true) <$> seqZ 0 (NumPlayers g)) p; c ← rd ((λ _ : Z, true) <$> seqZ 0 (MaxStreet g + 1)) st;
    n ← (if b && c then NumNonterminals g a p st else Ok 0); Ok (l ++ [n]))) as (nts & -> & Hnts); [lia|lia| |].
  { intros p st l Hp Hst. rewrite !Hrd, !bind_ok by done. cbn [andb]. by rewrite (ht_count _ _ _ Ha), bind_ok by lia. }
  rewrite bind_ok. eexists. split; [done|]. split; cbn.
  - intros p Hp. by apply (lookup_built (λ _, true)).
  - intros st Hst. apply (lookup_built (λ _, true)). lia.
  - intros st Hst. apply (lookup_built H). lia.
  - intros p st Hp Hst. apply Hnts; lia.
  - done.
Qed.

(** ** The files are opened *)
Context (c0 : CFRValues) (Hc0 : fresh_values c0).

(** The streets below [n] are there; what is there has no values yet. *)
Record opening (n : Z) (c : CFRValues) : Prop := {
  op_frame : c = set_street_values (street_values_ c) c0;
  op_length : length (street_values_ c) = Z.to_nat (MaxStreet g + 1);
  op_streets : ∀ st, 0 ≤ st ≤ MaxStreet g → (street_values_ c !! Z.to_nat st = Some None ∧ n ≤ st) ∨
    ∃ v, street_values_ c !! Z.to_nat st = Some (Some v) ∧ street_empty g T ty H st v }.

Lemma opening_start : opening 0 c0.
Proof.
  destruct Hc0 as [_ _ _ _ E]. split; [by destruct c0|rewrite E; apply length_replicate|]. intros st Hst. left. rewrite E. split; [|lia]. apply lookup_replicate. split; [done|lia].
Qed.

Lemma opening_mono n m c : n ≤ m → opening m c → opening n c.
Proof. intros Hle [O1 O2 O3]. split; [done|done|]. intros st Hst. destruct (O3 st Hst) as [[E Hm]|Hv]; [left; split; [done|lia]|by right]. Qed.

Lemma street_new_ok st : 0 ≤ st ≤ MaxStreet g → ∃ v, CFRStreetValues_new g (ty st) st (Some (players_ c0)) (H st) (cv_num_nonterminals_ c0) (ty st) = Ok v ∧ street_empty g T ty H st v.
Proof.
  intros Hst. unfold CFRStreetValues_new. rewrite flags_all by (intros i Hi; by apply (fv_players _ Hc0)). rewrite bind_ok.
  rewrite (for_append (λ p, Ok (nt_count (visits T) p st)) (λ p, nt_count (visits T) p st) (NumPlayers g)); [|intros p l Hp|done].
  - rewrite bind_ok. eexists. split; [done|]. split; [|done].
    intros p Hp. split; cbn; [split; cbn; [rewrite length_fmap, length_seqZ; done|done]|done|done|]. by apply (lookup_built (λ p, nt_count (visits T) p st)).
  - rewrite (rd_lookup _ _ true) by (lia || by apply (lookup_built (λ _, true))). rewrite !bind_ok, (rd_lookup _ _ (nt_count (visits T) p st)); [done|nia|]. by apply (fv_counts _ Hc0).
Qed.

Lemma CreateStreetValues_ok st c : 0 ≤ st ≤ MaxStreet g → opening st c → ∃ c', CreateStreetValues g st (ty st) false c = Ok c' ∧ opening (st + 1) c'.
Proof.
  intros Hst [O1 O2 O3]. unfold CreateStreetValues. destruct (O3 st Hst) as [[E _]|(v & E & Hv)]; rewrite (rd_lookup _ _ _ (proj1 Hst) E), bind_ok.
  - assert (num_holdings_ c = num_holdings_ c0 ∧ players_ c = players_ c0 ∧ cv_num_nonterminals_ c = cv_num_nonterminals_ c0) as (-> & -> & ->) by (by rewrite O1).
    rewrite (rd_lookup _ _ _ (proj1 Hst) (fv_holdings _ Hc0 st Hst)), bind_ok. destruct (street_new_ok st Hst) as (v & -> & Hv). rewrite bind_ok, wr_ok, bind_ok by lia.
    eexists. split; [done|]. split; cbn; [by rewrite O1|by rewrite length_insert|]. intros st' Hst'. destruct (decide (st' = st)) as [->|Hne].
    + right. exists v. split; [apply list_lookup_insert_eq; lia|done].
    + rewrite list_lookup_insert_ne by lia. destruct (O3 st' Hst') as [[E' Hle]|Hv']; [left; split; [done|lia]|by right].
  - exists c. split; [done|]. split; [done|done|]. intros st' Hst'. destruct (O3 st' Hst') as [[E' Hle]|Hv']; [|by right].
    left. split; [done|]. destruct (decide (st' = st)) as [->|Hne]; [congruence|lia].
Qed.

(** The files that are there. *)
Context (files : Z → Z → CFRValueType → option (list Z)).
Context (Hfiles : ∀ p st t, inside g p st → files p st t = if decide (t = ty st) then Some (strategy_file T σ ty H p st) else None).

Lemma InitializeReader_ok p st : inside g p st → ∃ r, InitializeReader fresh files p st = Ok (ty st, Some r) ∧ ahead r (strategy_file T σ ty H p st).
Proof.
  intros Hi. destruct (ahead_new (strategy_file T σ ty H p st) fresh Hfr) as (r & E & Ha). exists r. split; [|done].
  unfold InitializeReader. rewrite !(Hfiles p st) by done. revert E. generalize (strategy_file T σ ty H p st). intros f E. destruct (ty st); repeat case_decide; try done; by rewrite E.
Qed.

(** A row of readers, each before its file. *)
Definition row_open (p n : Z) (l : list (option Reader)) : Prop := length l = Z.to_nat n ∧
  ∀ st, 0 ≤ st < n → ∃ r, l !! Z.to_nat st = Some (Some r) ∧ ahead r (strategy_file T σ ty H p st).

Lemma open_files_ok p c : 0 ≤ p < NumPlayers g → opening 0 c →
  ∃ c' l, open_files g fresh files false p c = Ok (inl (c', l)) ∧ opening (MaxStreet g + 1) c' ∧ row_open p (MaxStreet g + 1) l.
Proof.
  intros Hp Ho. unfold open_files.
  destruct (forR_inv (λ st s, opening st s.1 ∧ row_open p st s.2) (λ _ : Z * CFRValues, False) 0 (MaxStreet g + 1) (c, []) (λ st '(c, row),
    b ← rd (streets_ c) st;
    if negb b then Ok (inr (ERR_LOADING_CFR_NOT_FULL_STREET, c)) else
    '(value_type, r) ← InitializeReader fresh files p st;
    match r with
    | None => Ok (inr (ERR_LOADING_CFR_NO_FILE, c))
    | Some _ => c ← CreateStreetValues g st value_type false c; Ok (inl (c, row ++ [r]))
    end)) as [([c' l] & E & Ho' & Hl)|(r & _ & [])]; [lia|split; [done|split; [done|lia]]| |by exists c', l].
  intros st [c1 l] Hst [Ho1 [Ll Hl]]. left. cbn [fst snd] in *. pose proof (op_frame _ _ Ho1) as Ef.
  assert (streets_ c1 = streets_ c0) as -> by (by rewrite Ef). rewrite (rd_lookup _ _ true) by (lia || apply (fv_streets _ Hc0); lia). rewrite bind_ok. cbn [negb].
  destruct (InitializeReader_ok p st) as (r & -> & Ha); [split; lia|]. rewrite bind_ok. destruct (CreateStreetValues_ok st c1) as (c2 & -> & Ho2); [lia|done|].
  rewrite bind_ok. eexists. split; [done|]. split; [done|]. cbn [snd]. split; [rewrite length_app; cbn; lia|]. intros st' Hst'. destruct (decide (st' = st)) as [->|Hne].
  - exists r. split; [|done]. rewrite lookup_app_r by lia. by replace (Z.to_nat st - length l)%nat with 0%nat by lia.
  - destruct (Hl st' ltac:(lia)) as (r' & E' & Ha'). exists r'. split; [|done]. by apply lookup_app_l_Some.
Qed.

(** ** The strategy is read *)
Lemma open_all_ok : ∃ c readers, open_all g fresh files false c0 = Ok (inl (c, readers)) ∧ load_start g T σ ty H c readers ∧ c = set_street_values (street_values_ c) c0.
Proof.
  unfold open_all.
  destruct (forR_inv (λ p s, opening (if p =? 0 then 0 else MaxStreet g + 1) s.1 ∧ length s.2 = Z.to_nat p ∧
      ∀ q, 0 ≤ q < p → ∃ row, s.2 !! Z.to_nat q = Some row ∧ row_open q (MaxStreet g + 1) row) (λ _ : Z * CFRValues, False) 0 (NumPlayers g) (c0, []) (λ p '(c, readers),
    b ← rd (players_ c) p;
    if negb b then Ok (inr (ERR_LOADING_CFR_NOT_FULL_PLAYER, c)) else
    o ← open_files g fresh files false p c;
    Ok (match o with inl (c, row) => inl (c, readers ++ [row]) | inr e => inr e end))) as [([c1 readers] & E & Ho & Lr & Hr)|(r & _ & [])].
  - lia.
  - split; [apply opening_start|]. split; [done|]. lia.
  - intros p [c l] Hp (Ho & Ll & Hl). left. cbn [fst snd] in *. assert (players_ c = players_ c0) as -> by (by rewrite (op_frame _ _ Ho)).
    rewrite (rd_lookup _ _ true) by (lia || apply (fv_players _ Hc0); lia). rewrite bind_ok. cbn [negb].
    destruct (open_files_ok p c Hp) as (c' & rw & -> & Ho' & Hrw); [eapply opening_mono; [|done]; destruct (p =? 0); lia|]. rewrite bind_ok. eexists. split; [done|].
    cbn [fst snd]. rewrite (proj2 (Z.eqb_neq (p + 1) 0)) by lia. split; [done|]. split; [rewrite length_app; cbn; lia|]. intros q Hq. destruct (decide (q = p)) as [->|Hne].
    + exists rw. split; [|done]. rewrite lookup_app_r by lia. by replace (Z.to_nat p - length l)%nat with 0%nat by lia.
    + destruct (Hl q ltac:(lia)) as (rw' & E' & Hrw'). exists rw'. split; [|done]. by apply lookup_app_l_Some.
  - exists c1, readers. split; [done|]. cbn [fst snd] in *. rewrite (proj2 (Z.eqb_neq (NumPlayers g) 0)) in Ho by lia. split; [|apply Ho]. split; [|intros p Hp|done].
    + intros st Hst. destruct (op_streets _ _ Ho st Hst) as [[_ Hle]|Hv]; [lia|done].
    + destruct (Hr p Hp) as (rw & Erw & Lrw & Hrw). exists rw. split; [done|]. split; [done|]. intros st Hst. apply Hrw. lia.
Qed.

Lemma Read_MultiThread_ok a schedule : holds_tree g T a → Forall (λ turn, inside g turn.1 turn.2) schedule → enough_turns g T schedule →
  race_free g fresh files a schedule false c0 = true →
  ∃ c, Read_MultiThread g fresh files a schedule (-1) false c0 = Ok (ERR_OK, c) ∧ c = set_street_values (street_values_ c) c0 ∧
    ∀ st, 0 ≤ st ≤ MaxStreet g → ∃ v, street_values_ c !! Z.to_nat st = Some (Some v) ∧ street_read g T σ ty H st v.
Proof.
  intros Ha Hin He Hrace. unfold Read_MultiThread. cbn [Z.eqb negb]. unfold race_free in Hrace. destruct open_all_ok as (c1 & readers & E & Hl & Ec). rewrite E in Hrace. rewrite E, bind_ok.
  destruct (run_threads_ok g fresh Hfr Hnp Hms T HT σ ty H Hσ (nodes a) (root_ a) schedule c1 readers (ht_root _ _ _ Ha) Hin He Hl Hrace) as (c2 & threads & -> & E1 & E2 & Hr & Ec2).
  rewrite bind_ok, E1, E2. cbn [negb]. exists c2. split; [done|]. split; [|done]. rewrite <- Ec2, Ec. done.
Qed.

(** ** Queries *)
Lemma strategy_vals_ok c p st u offset k (val : Z → Z) : inside g p st → u ∈ visits T → want p st u →
  (∃ v, street_values_ c !! Z.to_nat st = Some (Some v) ∧ street_read g T σ ty H st v) →
  0 ≤ offset → offset + k ≤ H st * Z.of_nat (length (moves u)) → (∀ a, 0 ≤ a < k → to_uint (ty st) (σ p st (x_id (hdr u)) (offset + a)) = Ok (val a)) →
  strategy_vals c st p (x_id (hdr u)) offset k = Ok (val <$> seqZ 0 k).
Proof.
  intros [Hp Hst] Hu Hw (v & Ev & [S1 S2]) Ho Hk Hval. unfold strategy_vals, GetOneStrategyVals. rewrite (rd_lookup _ _ _ (proj1 Hst) Ev), bind_ok.
  pose proof (S2 p u Hp Hu Hw) as Hc. unfold cell in Hc. destruct (data_ v) as [d|] eqn:Ed; [|done]. destruct (d !! Z.to_nat p) as [[rw|]|] eqn:Er; try done.
  destruct (rw !! Z.to_nat (x_id (hdr u))) as [o|] eqn:Eo; [subst o|done]. unfold row_at. destruct (tr_hdrs _ _ HT u Hu) as [Hid].
  rewrite Ed, (rd_lookup _ _ _ (proj1 Hp) Er), bind_ok, (rd_lookup _ _ _ (proj1 Hid) Eo), bind_ok. destruct (S1 p Hp) as [_ -> _ _].
  apply (for_append (λ i, x ← rd (row σ H p st u) (offset + i); to_uint (ty st) x) val k).
  - intros i l Hi. by destruct (rd _ _).
  - intros i Hi. unfold row. rewrite (rd_lookup _ _ (σ p st (x_id (hdr u)) (offset + i))) by (lia || (apply (lookup_built (σ p st (x_id (hdr u)))); lia)). rewrite bind_ok. by apply Hval.
Qed.
End Load.
