(* ===== verification/DataModule.v ===== *)
(** * The strategy server ([data_module.cpp], [task.cpp], [cfr_svr.cpp], [conf.cpp])

    The server loads a strategy and answers queries for the values of a node: a message
    carries a key as a JSON text, and the answer is the message with the values behind it.
    The game, its cards and its tables are the bot's: the sources are the same but for their
    error codes.  jsoncpp and [rand()] are parameters; a C string is the list of its bytes.

    The theorems: from the files of a strategy the server is loaded, and the query of the game
    server for a node and a bucket returns, on both sides of the JSON texts, its values. *)

From stdpp Require Import base list list_numbers numbers option strings sets.
From S2P Require Import Prelude GameDef Text BotGame Reader CardTree Robot BettingTree InfoText.
From S2P Require Import ActionTree ActionTreeThm CfrValues CfrValuesThm.
Open Scope Z_scope.

(** ** The configuration *)
Record CConf := mkCConf {
  m_strCfrDir : list Z; m_strStaticDir : list Z; m_bRandomFlag : bool; m_strBettingVer : list Z; m_strBucketVer : list Z; m_strCfrVer : list Z;
  m_vecSumprobFlag : list bool; m_vecIter : list Z }.

Definition flag_text (b : bool) : list Z := if b then [49] else [48].

(** [m_strFinalVersion]: the version of the values and the four flags. *)
Definition FinalVersion (c : CConf) : res (list Z) :=
  f0 ← rd (m_vecSumprobFlag c) 0; f1 ← rd (m_vecSumprobFlag c) 1; f2 ← rd (m_vecSumprobFlag c) 2; f3 ← rd (m_vecSumprobFlag c) 3;
  '(_, our_version_buf) ← snprintf (replicate 128 0) 0 127
    (cstr (m_strCfrVer c) ++ [40] ++ flag_text f0 ++ [44] ++ flag_text f1 ++ [44] ++ flag_text f2 ++ [44] ++ flag_text f3 ++ [41]);
  Ok (cstr our_version_buf).

(** ** The data module *)

Definition ERR_INVALID_KEY : Z := -1.

(** The codes of [S_Game::Initialize] in this server: -101 to -105. *)
Definition game_code (flag : Z) : Z := if flag =? ERR_OK then ERR_OK else flag + 400.

(** The static members, with the game and the counter of [GenRandomValStr]. *)
Record DataModule := mkDM { _init_flag : bool; dm_game : option SGame; cfr_values : option CFRValues; dm_val : Z }.
Definition DataModule_new : DataModule := mkDM false None None 0.

(** What the paths of the configuration name. *)
Record CfrFiles := mkCfrFiles {
  cf_game : list (list Z); cf_betting : list (list Z); cf_card : list (list Z); cf_cfr : list (list Z);
  cf_tree : list Z; cf_num : Z → list Z; cf_bucket : Z → list Z; cf_values : Z → Z → CFRValueType → option (list Z) }.

Section Init.
Context {D : Type} (zero : D) (scan_lf : list Z → res (option D)) (fresh : Z → list Z).

(** The tables that [Init] makes before it reads the values. *)
Definition load_tables (conf : CConf) (f : CfrFiles) (g : SGame) : res (ActionTree * CFRValues) :=
  betting_params ← ReadFromFile zero scan_lf (CreateBettingAbstractionParams zero) (cf_betting f);
  _ ← GetStringValue betting_params (bytes "BettingAbstractionName");
  if bool_decide (m_strStaticDir conf = []) then Err Exited else
  betting_tree ← ActionTree_Initialize g fresh (cf_tree f);
  t ← Create g;
  t ← CreateLookup g t;
  card_params ← ReadFromFile zero scan_lf (CreateCardAbstractionParams zero) (cf_card f);
  card_abstraction ← Bucketings g card_params;
  buckets ← ClusterHands_new fresh g t card_abstraction (cf_num f) (cf_bucket f) false;
  cfr_params ← ReadFromFile zero scan_lf (CreateCFRParams zero) (cf_cfr f);
  _ ← GetStringValue cfr_params (bytes "CFRConfigName");
  c ← CFRValues_new g t buckets betting_tree None None 0 0;
  Ok (betting_tree, c).

(** [schedule]: the turns of the threads that read the values. *)
Definition DataModule_Init (conf : CConf) (f : CfrFiles) (schedule : list (Z * Z)) (d : DataModule) : res (Z * DataModule) :=
  if m_bRandomFlag conf then Ok (ERR_OK, mkDM true (dm_game d) (cfr_values d) (dm_val d)) else
  game_params ← ReadFromFile zero scan_lf (CreateGameParams zero) (cf_game f);
  '(flag, game) ← Initialize game_params;
  match game with
  | None => Ok (game_code flag, d)
  | Some g =>
      '(betting_tree, c) ← load_tables conf f g;
      if bool_decide (m_strCfrDir conf = []) then Err Exited else
      '(flag, c) ← Read_MultiThread g fresh (cf_values f) betting_tree schedule (-1) false c;
      if negb (flag =? ERR_OK) then Ok (flag, mkDM (_init_flag d) (Some g) (Some c) (dm_val d)) else
      Ok (ERR_OK, mkDM true (Some g) (Some c) (dm_val d))
  end.
End Init.

(** ** Answers *)
Definition CheckVersion (conf : CConf) (version_str : list Z) : res bool :=
  v ← FinalVersion conf; Ok (bool_decide (version_str = v)).

Definition CheckKeys (g : SGame) (c : CFRValues) (nt st pa offset num_succ : Z) : res Z :=
  if (st <? 0) || (MaxStreet g <? st) then Ok ERR_INVALID_KEY else
  if (pa <? 0) || (NumPlayers g <=? pa) then Ok ERR_INVALID_KEY else
  max_nt ← NumNonterminals_at g c st pa;
  if (nt <? 0) || (max_nt <=? nt) then Ok ERR_INVALID_KEY else
  num_buckets ← NumHoldings c st;
  max_idx ← i32 (num_buckets * num_succ);
  if offset <? 0 then Ok ERR_INVALID_KEY else
  last ← i32 (offset + num_succ);
  if max_idx <? last then Ok ERR_INVALID_KEY else
  Ok ERR_OK.

Definition ConvertValToStr (vals : list Z) : res (list Z) :=
  let num_succ := Z.of_nat (length vals) in
  for_ 0 num_succ [] (λ i val_str,
    v ← rd vals i;
    let val_str := val_str ++ dec v in
    Ok (if i <? num_succ - 1 then val_str ++ [44] else val_str)).

(** [rand_of seed]: the first [rand()] after [srand( seed )]. *)
Definition GenRandomValStr (rand_of : Z → Z) (num_succ val : Z) : res (Z * list Z) :=
  if num_succ =? 0 then Err DivisionByZero else
  let rand_idx := Z.rem (rand_of val) num_succ in
  val_str ← for_ 0 num_succ [] (λ i val_str,
    v ← (if i =? rand_idx then Ok 0 else x ← i32 (i * 100); i32 (x + 100));
    let val_str := val_str ++ dec v in
    Ok (if i <? num_succ - 1 then val_str ++ [44] else val_str));
  Ok (u32 (val + 1), val_str).

(** The text of an answer; the quotes are byte 34. *)
Definition answer_text (res note val_str : list Z) : list Z :=
  bytes "{" ++ [34] ++ bytes "res" ++ [34] ++ bytes ":" ++ [34] ++ cstr res ++ [34] ++ bytes ", " ++ [34] ++ bytes "note" ++ [34] ++ bytes ":" ++ [34] ++ cstr note
    ++ [34] ++ bytes ", " ++ [34] ++ bytes "vals" ++ [34] ++ bytes ":" ++ [34] ++ cstr val_str ++ [34] ++ bytes "}".
Definition JointStr (res note val_str : list Z) : Prelude.res (list Z) :=
  '(_, buf) ← snprintf (replicate 1024 0) 0 1024 (answer_text res note val_str); Ok (cstr buf).

(** The members of a request; [None] is one that is not an integer or a string, for which
    jsoncpp raises. *)
Record Request := mkRequest {
  rq_mode : option Z; rq_nt : option Z; rq_st : option Z; rq_pa : option Z; rq_offset : option Z; rq_num_succ : option Z; rq_version : option (list Z) }.
Definition as_member {A} (o : option A) : res A := match o with Some v => Ok v | None => Err Exited end.

Section Answers.
Context (conf : CConf) (json : list Z → option Request) (rand_of : Z → Z).

Definition error_str (note : string) : res (list Z) := JointStr (bytes "Error") (bytes note) (bytes "null").

(** A query that has been parsed; [resize] of a negative size raises. *)
Definition answer_query (r : Request) (d : DataModule) : res (DataModule * list Z) :=
  nt ← as_member (rq_nt r);
  st ← as_member (rq_st r);
  pa ← as_member (rq_pa r);
  offset ← as_member (rq_offset r);
  num_succ ← as_member (rq_num_succ r);
  version_buf ← as_member (rq_version r);
  same ← CheckVersion conf version_buf;
  if negb same then s ← error_str "Mismatch Version"; Ok (d, s) else
  if m_bRandomFlag conf then
    '(val, random_str) ← GenRandomValStr rand_of num_succ (dm_val d);
    s ← JointStr (bytes "OK") (bytes "null") random_str;
    Ok (mkDM (_init_flag d) (dm_game d) (cfr_values d) val, s)
  else
    match dm_game d, cfr_values d with
    | Some g, Some c =>
        flag ← CheckKeys g c nt st pa offset num_succ;
        if negb (flag =? ERR_OK) then s ← error_str "Invalid Key"; Ok (d, s) else
        if num_succ <? 0 then Err Exited else
        vals ← strategy_vals c st pa nt offset num_succ;
        val_str ← ConvertValToStr vals;
        s ← JointStr (bytes "OK") (bytes "null") val_str;
        Ok (d, s)
    | _, _ => Err OutOfBounds
    end.

Definition GetVals (request_str : list Z) (d : DataModule) : res (DataModule * list Z) :=
  if negb (_init_flag d) then s ← error_str "Not Init Yet"; Ok (d, s) else
  match json (cstr request_str) with
  | None => s ← error_str "Can't parse Recv Msg"; Ok (d, s)
  | Some r =>
      mode ← as_member (rq_mode r);
      if mode =? 1 then answer_query r d
      else s ← error_str "Wrong Mode"; Ok (d, s)
  end.

(** ** Messages *)
Inductive Reply := Response (ok : bool) (text : list Z) | Echo.

(** [previous_str.substr( 0, previous_str.find( '\r' ) - 1 )]: the sum wraps, so that no
    ['\r'] or one at the start leaves the whole. *)
Definition before_cr (s : list Z) : list Z :=
  match find [13] s with Some (S k) => take k s | _ => s end.

Definition QueryAction (packet : list Z) (d : DataModule) : res (DataModule * Reply) :=
  request_str ← GetValueBykey packet (bytes "KEY") [35];
  '(d, resp_str) ← GetVals request_str d;
  '(_, buf) ← snprintf (replicate 512 0) 0 511 (before_cr packet ++ bytes "#Resp=" ++ cstr resp_str ++ [13; 10]);
  Ok (d, Response true (cstr buf)).

Definition QueryVersion : res Reply :=
  f0 ← rd (m_vecSumprobFlag conf) 0; f1 ← rd (m_vecSumprobFlag conf) 1; f2 ← rd (m_vecSumprobFlag conf) 2; f3 ← rd (m_vecSumprobFlag conf) 3;
  i0 ← rd (m_vecIter conf) 0; i1 ← rd (m_vecIter conf) 1; i2 ← rd (m_vecIter conf) 2; i3 ← rd (m_vecIter conf) 3;
  '(_, buf) ← snprintf (replicate 1024 0) 0 1023
    (bytes "QUERY_VERSION#Version=" ++ cstr (m_strBettingVer conf) ++ [44] ++ cstr (m_strBucketVer conf) ++ [44] ++ cstr (m_strCfrVer conf)
     ++ bytes "#Random=" ++ flag_text (m_bRandomFlag conf)
     ++ bytes "#SumprobFlag=" ++ flag_text f0 ++ [44] ++ flag_text f1 ++ [44] ++ flag_text f2 ++ [44] ++ flag_text f3
     ++ bytes "#Iter=" ++ dec_signed i0 ++ [44] ++ dec_signed i1 ++ [44] ++ dec_signed i2 ++ [44] ++ dec_signed i3 ++ [13; 10]);
  Ok (Response true (cstr buf)).

(** One round of the loop of [CCfrSvr::TaskIt]. *)
Definition TaskIt (packet : list Z) (d : DataModule) : res (DataModule * Reply) :=
  if bool_decide (take 12 packet = bytes "QUERY_ACTION") then QueryAction packet d
  else if bool_decide (take 10 packet = bytes "KEEP_ALIVE") then Ok (d, Echo)
  else if bool_decide (take 13 packet = bytes "QUERY_VERSION") then r ← QueryVersion; Ok (d, r)
  else Ok (d, Response false (bytes "Failed: Unkown packet " ++ [13; 10])).
End Answers.

(** * Queries of the game server are answered with the strategy *)

(** ** Texts of values *)
Definition is_uint (v : Z) : Prop := 0 ≤ v ≤ 4294967295.

Lemma uint_digits v : is_uint v → digits (dec v) ∧ dec v ≠ [] ∧ (length (dec v) ≤ 10)%nat.
Proof.
  intros Hv. destruct (dec_spec v) as (D & _ & N & _); [unfold is_uint in Hv; lia|]. split; [done|]. split; [done|].
  apply dec_fuel_length; [|lia]. unfold is_uint in Hv. cbn. lia.
Qed.

Lemma ConvertValToStr_ok vals : ConvertValToStr vals = Ok (join (dec <$> vals)).
Proof.
  unfold ConvertValToStr, for_. rewrite Z.sub_0_r.
  assert (∀ rest done_ acc, vals = done_ ++ rest → foldM (λ i val_str, v ← rd vals i; Ok (if i <? Z.of_nat (length vals) - 1 then (val_str ++ dec v) ++ [44] else val_str ++ dec v))
    (seqZ (Z.of_nat (length done_)) (Z.of_nat (length rest))) acc = Ok (acc ++ join (dec <$> rest))) as G; [|by apply (G vals [] [])].
  intros rest. induction rest as [|v rest IH]; intros d acc E; [by rewrite app_nil_r|]. cbn [length]. rewrite seqZ_cons by lia. cbn [foldM].
  assert (rd vals (Z.of_nat (length d)) = Ok v) as -> by (apply rd_lookup; [lia|]; rewrite E, Nat2Z.id; by apply list_lookup_middle). rewrite !bind_ok.
  replace (Z.succ (Z.of_nat (length d))) with (Z.of_nat (length (d ++ [v]))) by (rewrite length_app; cbn; lia). replace (Z.pred (Z.of_nat (S (length rest)))) with (Z.of_nat (length rest)) by lia.
  rewrite (IH (d ++ [v])) by (rewrite E, <- app_assoc; done). f_equal. replace (length vals) with (length d + S (length rest))%nat by (rewrite E, length_app; done). cbn [length fmap list_fmap].
  destruct rest as [|w rest]; [rewrite (proj2 (Z.ltb_ge _ _)) by (cbn; lia); cbn; by rewrite app_nil_r|].
  rewrite (proj2 (Z.ltb_lt _ _)) by (cbn; lia). cbn [fmap list_fmap]. rewrite (join_cons (dec v)) by done. by rewrite <- !app_assoc.
Qed.

(** Digits and commas. *)
Definition value_list (t : list Z) : Prop := Forall (λ ch, isdigit ch = true ∨ ch = 44) t.

Lemma join_values vals : Forall is_uint vals → value_list (join (dec <$> vals)) ∧ (length (join (dec <$> vals)) ≤ 11 * length vals)%nat.
Proof.
  assert (∀ v, is_uint v → value_list (dec v)) as Hd by (intros v Hv; eapply Forall_impl; [apply uint_digits, Hv|]; by left).
  induction vals as [|v [|w vals] IH]; intros Hv; inversion Hv; subst; [split; [constructor|cbn; lia]| |].
  - cbn [fmap list_fmap join length]. split; [by apply Hd|]. destruct (uint_digits v) as (_ & _ & ?); [done|]. lia.
  - destruct IH as [IH1 IH2]; [done|]. cbn [fmap list_fmap] in *. rewrite join_cons by done. split.
    + apply Forall_app. split; [by apply Hd|]. constructor; [by right|done].
    + rewrite length_app. cbn [length] in *. destruct (uint_digits v) as (_ & _ & ?); [done|]. lia.
Qed.

Lemma value_list_nonzero t : value_list t → nonzero t.
Proof. intros H Hin. unfold value_list in H. rewrite Forall_forall in H. destruct (H 0 Hin) as [E|E]; done. Qed.

Lemma cstr_cut t : nonzero (cstr t).
Proof. induction t as [|x t IH]; cbn; [apply not_elem_of_nil|]. case (Z.eqb_spec x 0) as [|Hx]; [apply not_elem_of_nil|]. apply not_elem_of_cons. by split. Qed.
Lemma cstr_idem t : cstr (cstr t) = cstr t.
Proof. apply cstr_id, cstr_cut. Qed.

(** ** Both sides of an answer *)

(** What a JSON parser makes of an answer with values. *)
Definition parses_answers (cjson : list Z → option (list Z * list Z)) : Prop :=
  ∀ t, value_list t → cjson (answer_text (bytes "OK") (bytes "null") t) = Some (bytes "OK", t).

Lemma read_values_back vals : Forall is_uint vals → ∀ done_ l, length l = (length done_ + length vals)%nat → take (length done_) l = done_ → ∀ all, all = done_ ++ vals →
  foldR (λ i vals, t ← rd (dec <$> all) i; v ← scan_unsigned 4294967295 (t ++ [0]);
    match v with None => Ok (inr vals) | Some (temp_val, _) => vals ← wr vals i temp_val; Ok (inl vals) end) (seqZ (Z.of_nat (length done_)) (Z.of_nat (length vals))) l
  = Ok (@inl _ (list Z) all).
Proof.
  induction vals as [|v vals IH]; intros Hv d l Ll Ed all Ea; [cbn in *; rewrite take_ge in Ed by lia; rewrite Ea, app_nil_r, Ed; done|].
  inversion Hv as [|? ? Hv1 Hv2]; subst. cbn [length] in *. rewrite seqZ_cons by lia. cbn [foldR].
  assert (rd (dec <$> (d ++ v :: vals)) (Z.of_nat (length d)) = Ok (dec v)) as -> by (apply rd_lookup; [lia|]; rewrite Nat2Z.id, list_lookup_fmap, list_lookup_middle by done; done).
  rewrite bind_ok, scan_unsigned_dec by (done || unfold is_uint in *; lia).
  rewrite bind_ok, wr_ok by lia. rewrite !bind_ok, Nat2Z.id.
  replace (Z.succ (Z.of_nat (length d))) with (Z.of_nat (length (d ++ [v]))) by (rewrite length_app; cbn; lia). replace (Z.pred (Z.of_nat (S (length vals)))) with (Z.of_nat (length vals)) by lia.
  apply IH; [done|rewrite length_insert, length_app; cbn; lia| |by rewrite <- app_assoc].
  rewrite length_app, Nat.add_1_r, (take_S_r _ _ v) by (apply list_lookup_insert_eq; lia). by rewrite take_insert_ge, Ed by lia.
Qed.

Lemma answer_text_ok t : nonzero t → nonzero (answer_text (bytes "OK") (bytes "null") t) ∧ length (answer_text (bytes "OK") (bytes "null") t) = (38 + length t)%nat.
Proof.
  intros Ht. unfold answer_text. rewrite (cstr_id t) by done. split.
  - repeat apply nonzero_app; try done; apply (bool_decide_unpack _); vm_compute; exact I.
  - rewrite !length_app. repeat match goal with |- context [length (?f ?s)] => let k := eval vm_compute in (length (f s)) in progress change (length (f s)) with k end. cbn [length]. lia.
Qed.

(** The text that answers a query with [vals]. *)
Definition values_text (vals : list Z) : list Z := answer_text (bytes "OK") (bytes "null") (join (dec <$> vals)).

(** The answer fits its buffer, and the client reads the values from it. *)
Lemma answer_round_trip cjson vals : parses_answers cjson → Forall is_uint vals → (length vals ≤ 89)%nat →
  JointStr (bytes "OK") (bytes "null") (join (dec <$> vals)) = Ok (values_text vals) ∧
  ConvertResponseStrToVals cjson (values_text vals) (Z.of_nat (length vals)) [] = Ok (0, vals).
Proof.
  intros Hj Hv Hl. destruct (join_values vals Hv) as [Hlist Hlen]. destruct (answer_text_ok (join (dec <$> vals))) as [Hn Hat]; [by apply value_list_nonzero|].
  unfold JointStr. destruct (snprintf_cstr 1024 1024 (answer_text (bytes "OK") (bytes "null") (join (dec <$> vals)))) as (buf & -> & Eb); [lia|lia|done|].
  rewrite bind_ok, Eb, take_ge by (rewrite Hat; lia). split; [done|]. unfold ConvertResponseStrToVals, values_text. rewrite cstr_id by done. rewrite Hj by done.
  rewrite bool_decide_eq_true_2 by done. cbn [negb]. rewrite SplitString_join.
  - rewrite bind_ok, length_fmap, Z.eqb_refl. cbn [negb]. cbv zeta. rewrite Nat2Z.id. cbn [length]. rewrite take_nil, Nat.sub_0_r. cbn [app]. unfold forR. rewrite Z.sub_0_r.
    pose proof (read_values_back vals Hv [] (replicate (length vals) 0)) as G. cbn [length] in G. change (Z.of_nat 0) with 0 in G.
    rewrite (G ltac:(by rewrite length_replicate) ltac:(done) vals ltac:(done)). done.
  - apply Forall_fmap. eapply Forall_impl; [exact Hv|]. cbn. intros v Hu. destruct (uint_digits v Hu) as (D & _ & _). intros Hin. unfold digits in D. rewrite Forall_forall in D. by specialize (D _ Hin).
  - rewrite fmap_last. destruct (last vals) as [v|] eqn:E; [|done]. intros Ed%(inj Some). apply last_Some_elem_of in E. rewrite Forall_forall in Hv. by destruct (uint_digits v (Hv v E)) as (_ & ? & _).
Qed.

(** ** The server *)
Section Server.
Context {D : Type} (zero : D) (scan_lf : list Z → res (option D)) (fresh : Z → list Z) (Hfr : ∀ n, length (fresh n) = Z.to_nat n).
Context (g : SGame) (Hnp : 0 < NumPlayers g) (Hms : 0 ≤ MaxStreet g).
(** The tree, the strategy as it is stored and as the values that are served. *)
Context (T : gtree) (HT : tree_ok g T) (σ val : Z → Z → Z → Z → Z) (ty : Z → CFRValueType) (H : Z → Z) (Hσ : strategy_ok T σ ty H).
Context (Hval : ∀ p st nt a, to_uint (ty st) (σ p st nt a) = Ok (val p st nt a) ∧ is_uint (val p st nt a)).
(** The terminal nodes are numbered as the tree lists them. *)
Context (Hends : ends (tree_entries ∅ T).1 ≤ INT32_MAX) (Hids : ∀ u, u ∈ visits T → moves u = [] → x_id (hdr u) < ends (tree_entries ∅ T).1).

(** The files of the configuration are readable and hold the game, its clusters, the tree
    and the strategy. *)
Record server_files (conf : CConf) (f : CfrFiles) (t : PCardTree) (buckets : ClusterHands) : Prop := {
  sf_mode : m_bRandomFlag conf = false;
  sf_dirs : m_strCfrDir conf ≠ [] ∧ m_strStaticDir conf ≠ [];
  sf_game : ∃ ps, ReadFromFile zero scan_lf (CreateGameParams zero) (cf_game f) = Ok ps ∧ Initialize ps = Ok (ERR_OK, Some g);
  sf_betting : ∃ ps name, ReadFromFile zero scan_lf (CreateBettingAbstractionParams zero) (cf_betting f) = Ok ps ∧ GetStringValue ps (bytes "BettingAbstractionName") = Ok name;
  sf_boards : ∃ t0, Create g = Ok t0 ∧ CreateLookup g t0 = Ok t;
  sf_cards : ∃ ps names, ReadFromFile zero scan_lf (CreateCardAbstractionParams zero) (cf_card f) = Ok ps ∧ Bucketings g ps = Ok names ∧
    ClusterHands_new fresh g t names (cf_num f) (cf_bucket f) false = Ok buckets;
  sf_cfr : ∃ ps name, ReadFromFile zero scan_lf (CreateCFRParams zero) (cf_cfr f) = Ok ps ∧ GetStringValue ps (bytes "CFRConfigName") = Ok name;
  sf_tree : cf_tree f = tree_bytes T;
  sf_holdings : ∀ st, 0 ≤ st ≤ MaxStreet g → holdings_are g t buckets 0 0 st (H st);
  sf_values : ∀ p st t, inside g p st → cf_values f p st t = if decide (t = ty st) then Some (strategy_file T σ ty H p st) else None }.

(** The values of the strategy are there. *)
Record loaded (c : CFRValues) : Prop := {
  lo_object : ∃ c0, fresh_values g T H c0 ∧ c = set_street_values (street_values_ c) c0;
  lo_streets : ∀ st, 0 ≤ st ≤ MaxStreet g → ∃ v, street_values_ c !! Z.to_nat st = Some (Some v) ∧ street_read g T σ ty H st v }.

(** A schedule of the threads of the load: every thread gets the turns for its walk, and none
    is disturbed while it makes the arrays of its street. *)
Record schedule_ok (conf : CConf) (f : CfrFiles) (schedule : list (Z * Z)) : Prop := {
  sd_inside : Forall (λ turn, inside g turn.1 turn.2) schedule;
  sd_enough : enough_turns g T schedule;
  sd_race : ∀ a c, load_tables zero scan_lf fresh conf f g = Ok (a, c) → race_free g fresh (cf_values f) a schedule false c = true }.

Lemma DataModule_Init_ok conf f t buckets schedule : server_files conf f t buckets → schedule_ok conf f schedule →
  ∃ c, DataModule_Init zero scan_lf fresh conf f schedule DataModule_new = Ok (ERR_OK, mkDM true (Some g) (Some c) 0) ∧ loaded c.
Proof.
  intros [F1 [F2 F3] (ps & G1 & G2) (bs & bn & B1 & B2) (t0 & C1 & C2) (cs & names & K1 & K2 & K3) (rs & rn & R1 & R2) Ft Fh Fv] [Hin He Hrace].
  unfold DataModule_Init. rewrite F1, G1, bind_ok, G2, bind_ok. unfold load_tables in *. revert Hrace. rewrite B1, bind_ok, B2, bind_ok. rewrite bool_decide_eq_false_2 by done. rewrite Ft.
  destruct (Initialize_ok g Hnp T HT fresh Hms Hfr Hends Hids) as (a & -> & Ha). rewrite bind_ok, C1, bind_ok, C2, bind_ok, K1, bind_ok, K2, bind_ok, K3, bind_ok, R1, bind_ok, R2, bind_ok.
  destruct (CFRValues_new_ok g Hnp Hms T H t buckets a 0 0 Ha Fh) as (c0 & -> & Hc0). rewrite bind_ok. intros Hrace. rewrite bind_ok. rewrite bool_decide_eq_false_2 by done.
  destruct (Read_MultiThread_ok g fresh Hfr Hnp Hms T HT σ ty H Hσ c0 Hc0 (cf_values f) Fv a schedule Ha Hin He (Hrace _ _ eq_refl)) as (c & -> & Ec & Hst). rewrite bind_ok. cbn [Z.eqb ERR_OK negb].
  exists c. split; [done|]. split; [by exists c0|done].
Qed.

Lemma loaded_sizes c p st : loaded c → inside g p st → NumNonterminals_at g c st p = Ok (nt_count (visits T) p st) ∧ NumHoldings c st = Ok (H st).
Proof.
  intros [(c0 & F & E) _] [Hp Hst]. unfold NumNonterminals_at, NumHoldings. rewrite E. cbn [cv_num_nonterminals_ num_holdings_ set_street_values].
  split; apply rd_lookup; [nia|by apply F|lia|by apply F].
Qed.

Lemma CheckKeys_ok c p st u b : loaded c → inside g p st → u ∈ visits T → want p st u → 0 ≤ b < H st →
  CheckKeys g c (x_id (hdr u)) st p (b * Z.of_nat (length (moves u))) (Z.of_nat (length (moves u))) = Ok ERR_OK.
Proof.
  intros Hc Hi Hu Hw Hb. destruct (loaded_sizes c p st Hc Hi) as [E1 E2]. pose proof Hi as [Hp Hst]. unfold CheckKeys.
  pose proof (sk_size _ _ _ _ Hσ p st u Hu Hw) as Hs. pose proof (nt_count_le (visits T) p st) as [_ Hn]. specialize (Hn u Hu (proj1 Hw)). destruct (tr_hdrs _ _ HT u Hu) as [Hid].
  rewrite (proj2 (Z.ltb_ge st 0)), (proj2 (Z.ltb_ge (MaxStreet g) st)), (proj2 (Z.ltb_ge p 0)), (proj2 (Z.leb_gt (NumPlayers g) p)) by lia. cbn [orb].
  rewrite E1, bind_ok. rewrite (proj2 (Z.ltb_ge (x_id (hdr u)) 0)), (proj2 (Z.leb_gt _ (x_id (hdr u)))) by lia. cbn [orb]. rewrite E2, bind_ok.
  set (k := Z.of_nat (length (moves u))) in *. assert (0 ≤ k) by lia. assert (0 ≤ b * k ∧ b * k + k ≤ H st * k) as [? ?] by nia.
  rewrite (i32_ok (H st * k)) by (unfold INT32_MIN, INT32_MAX in *; nia). rewrite bind_ok, (proj2 (Z.ltb_ge (b * k) 0)) by lia. rewrite (i32_ok (b * k + k)) by (unfold INT32_MIN, INT32_MAX in *; nia).
  rewrite bind_ok, (proj2 (Z.ltb_ge _ (b * k + k))) by lia. done.
Qed.

(** The request that a JSON parser makes of the text of a key. *)
Definition request_of (key : CFRKey) (version : list Z) : Request :=
  mkRequest (Some 1) (Some (key_node_id key)) (Some (key_st key)) (Some (key_pa key)) (Some (key_offset key)) (Some (key_num_succ key)) (Some version).

(** The key of bucket [b] of a node. *)
Definition key_of (p st : Z) (u : gtree) (b : Z) : CFRKey :=
  mkKey st (x_id (hdr u)) p (b * Z.of_nat (length (moves u))) (Z.of_nat (length (moves u))).

(** The values of bucket [b] of a node. *)
Definition bucket_values (p st : Z) (u : gtree) (b : Z) : list Z :=
  val p st (x_id (hdr u)) <$> seqZ (b * Z.of_nat (length (moves u))) (Z.of_nat (length (moves u))).

Lemma GetVals_ok conf json rand_of cjson c v r p st u b i n : loaded c → m_bRandomFlag conf = false → parses_answers cjson → FinalVersion conf = Ok v →
  inside g p st → u ∈ visits T → want p st u → (length (moves u) ≤ 89)%nat → 0 ≤ b < H st → json (cstr r) = Some (request_of (key_of p st u b) v) → i = true →
  GetVals conf json rand_of r (mkDM i (Some g) (Some c) n) = Ok (mkDM i (Some g) (Some c) n, values_text (bucket_values p st u b)) ∧
  ConvertResponseStrToVals cjson (values_text (bucket_values p st u b)) (Z.of_nat (length (moves u))) [] = Ok (0, bucket_values p st u b).
Proof.
  intros Hc Hm Hcj Hv Hi Hu Hw Hk Hb Hj ->. unfold GetVals. cbn [_init_flag negb]. rewrite Hj. cbn [request_of rq_mode as_member]. rewrite bind_ok. cbn [Z.eqb Pos.eqb].
  unfold answer_query. cbn [request_of key_of rq_nt rq_st rq_pa rq_offset rq_num_succ rq_version as_member key_node_id key_st key_pa key_offset key_num_succ].
  rewrite !bind_ok. unfold CheckVersion. rewrite Hv, !bind_ok. rewrite bool_decide_eq_true_2 by done. cbn [negb]. rewrite Hm. cbn [dm_game cfr_values].
  rewrite CheckKeys_ok, bind_ok by done. cbn [Z.eqb ERR_OK negb]. rewrite (proj2 (Z.ltb_ge _ 0)) by lia. pose proof (lo_streets _ Hc) as Hs.
  assert (0 ≤ b * Z.of_nat (length (moves u)) ∧ b * Z.of_nat (length (moves u)) + Z.of_nat (length (moves u)) ≤ H st * Z.of_nat (length (moves u))) as [Hb0 Hb1] by nia.
  rewrite (strategy_vals_ok g T HT σ ty H c p st u _ _ (λ a, val p st (x_id (hdr u)) (b * Z.of_nat (length (moves u)) + a))); try done.
  2:{ apply Hs, Hi. } 2:{ intros a _. apply Hval. }
  rewrite bind_ok, ConvertValToStr_ok, bind_ok.
  assert (((λ a, val p st (x_id (hdr u)) (b * Z.of_nat (length (moves u)) + a)) <$> seqZ 0 (Z.of_nat (length (moves u)))) = bucket_values p st u b) as ->.
  { unfold bucket_values. apply list_eq. intros j. rewrite !list_lookup_fmap. destruct (decide (Z.of_nat j < Z.of_nat (length (moves u)))) as [Hj'|Hj'].
    - rewrite !lookup_seqZ_lt by lia. cbn. do 2 f_equal.
    - rewrite !lookup_seqZ_ge by lia. done. }
  assert (length (bucket_values p st u b) = length (moves u)) as Lb by (unfold bucket_values; rewrite length_fmap, length_seqZ; lia).
  destruct (answer_round_trip cjson (bucket_values p st u b) Hcj) as [-> Ea]; [|lia|].
  { apply Forall_fmap, Forall_forall. intros a _. apply Hval. }
  rewrite bind_ok. split; [done|]. by rewrite Lb in Ea.
Qed.
End Server.

(** ** Messages *)
Lemma find_after lit x pre rest : lit ≠ [] → x ∉ lit → find lit pre = None → find lit (pre ++ x :: lit ++ rest) = Some (S (length pre)).
Proof.
  intros Hl Hx. induction pre as [|y pre IH]; intros Hf.
  - cbn [app find]. rewrite bool_decide_eq_false_2.
    + destruct lit as [|z lit]; [done|]. cbn [app find]. rewrite bool_decide_eq_true_2; [done|]. by exists rest.
    + intros [k E]. destruct lit as [|z lit]; [done|]. injection E as E _. apply Hx. rewrite E. left.
  - cbn [app find] in *. destruct (bool_decide_reflect (lit `prefix_of` y :: pre)) as [|Hn]; [done|]. rewrite bool_decide_eq_false_2.
    + destruct (find lit pre) eqn:E; [done|]. by rewrite IH.
    + intros [k E]. change (y :: pre ++ x :: lit ++ rest) with ((y :: pre) ++ x :: lit ++ rest) in E.
      apply app_eq_inv in E as [(k' & E1 & E2)|(k' & E1 & E2)].
      * apply Hn. by exists k'.
      * destruct k' as [|z k']; [apply Hn; exists []; by rewrite app_nil_r in *|]. injection E2 as <- _. apply Hx. rewrite E1. set_solver.
Qed.

Lemma find_byte c x r : c ∉ x → find [c] (x ++ c :: r) = Some (length x).
Proof. intros Hc. by apply (find_first c []). Qed.
Lemma find_byte_none c x : c ∉ x → find [c] x = None.
Proof.
  induction x as [|y x IH]; intros Hc; cbn [find].
  - rewrite bool_decide_eq_false_2; [done|]. intros [k E]. discriminate E.
  - rewrite bool_decide_eq_false_2; [by rewrite IH by set_solver|]. intros [k E]. injection E as E _. apply Hc. rewrite E. left.
Qed.

(** The field [key] of a message whose part [pre] does not have it. *)
Lemma GetValueBykey_field pre key v rest : key ≠ [] → 35 ∉ key → find key pre = None → 35 ∉ v →
  GetValueBykey (pre ++ 35 :: key ++ 61 :: v ++ 35 :: rest) key [35] = Ok v.
Proof.
  intros Hk Hs Hf Hv. unfold GetValueBykey. rewrite (find_after key 35 pre (61 :: v ++ 35 :: rest)) by done.
  assert (pre ++ 35 :: key ++ 61 :: v ++ 35 :: rest = (pre ++ 35 :: key ++ [61]) ++ v ++ 35 :: rest) as E by (rewrite <- !app_assoc; cbn; by rewrite <- app_assoc).
  assert ((S (length pre) + length key + 1)%nat = length (pre ++ 35 :: key ++ [61])) as -> by (rewrite length_app; cbn [length]; rewrite length_app; cbn [length]; lia).
  rewrite E, (proj2 (Nat.ltb_ge _ _)) by (rewrite (length_app (pre ++ 35 :: key ++ [61])); lia). by rewrite drop_app_length, find_byte, take_app_length by done.
Qed.

(** The last field of a message, which the line end closes. *)
Lemma GetValueBykey_last pre key v : key ≠ [] → 35 ∉ key → find key pre = None → 35 ∉ v → 13 ∉ v →
  GetValueBykey (pre ++ 35 :: key ++ 61 :: v ++ [13; 10]) key [35] = Ok v.
Proof.
  intros Hk Hs Hf Hv Hc. unfold GetValueBykey. rewrite (find_after key 35 pre (61 :: v ++ [13; 10])) by done.
  assert (pre ++ 35 :: key ++ 61 :: v ++ [13; 10] = (pre ++ 35 :: key ++ [61]) ++ v ++ [13; 10]) as E by (rewrite <- !app_assoc; cbn; by rewrite <- app_assoc).
  assert ((S (length pre) + length key + 1)%nat = length (pre ++ 35 :: key ++ [61])) as -> by (rewrite length_app; cbn [length]; rewrite length_app; cbn [length]; lia).
  rewrite E, (proj2 (Nat.ltb_ge _ _)) by (rewrite (length_app (pre ++ 35 :: key ++ [61])); lia). rewrite drop_app_length, (find_byte_none 35) by set_solver.
  pose proof (find_first 13 [10] v [] Hc) as Hf'. rewrite app_nil_r in Hf'. by rewrite Hf', take_app_length.
Qed.

Lemma before_cr_ok t : 13 ∉ t → before_cr (t ++ [35; 13; 10]) = t.
Proof.
  intros Ht. unfold before_cr. replace (t ++ [35; 13; 10]) with ((t ++ [35]) ++ 13 :: [10]) by (by rewrite <- app_assoc). rewrite find_byte by set_solver.
  rewrite length_app, Nat.add_1_r, <- app_assoc. by rewrite take_app_length.
Qed.

Lemma values_text_without c vals : c ∈ [0; 13; 35] → Forall is_uint vals → c ∉ values_text vals.
Proof.
  intros Hc Hv. destruct (join_values vals Hv) as [Hl _]. assert (c = 0 ∨ c = 13 ∨ c = 35) as Hcs by (by apply list_elem_of_In in Hc as [?|[?|[?|[]]]]; auto). clear Hc. unfold values_text, answer_text. rewrite (cstr_id (join (dec <$> vals))) by (by apply value_list_nonzero).
  assert (c ∉ join (dec <$> vals)) as Hj.
  { intros Hin. unfold value_list in Hl. rewrite Forall_forall in Hl. apply Hl in Hin. by destruct Hcs as [-> |[-> | ->]]; destruct Hin as [E|E]; vm_compute in E. }
  rewrite !not_elem_of_app. repeat split; try done; clear Hj; destruct Hcs as [-> |[-> | ->]]; apply (bool_decide_unpack _); vm_compute; exact I.
Qed.

(** A query: [pre], the key, [post] and the line end. *)
Definition query_message (pre r post : list Z) : list Z := pre ++ 35 :: bytes "KEY" ++ 61 :: r ++ 35 :: post ++ [35; 13; 10].

(** The fields are found where they are. *)
Record message_ok (pre r post : list Z) : Prop := {
  me_head : take 12 pre = bytes "QUERY_ACTION";
  me_zero : nonzero (pre ++ post);
  me_line : 13 ∉ pre ++ r ++ post;
  me_hash : 35 ∉ r;
  me_key : find (bytes "KEY") pre = None;
  me_resp : find (bytes "Resp") (pre ++ 35 :: bytes "KEY" ++ 61 :: r ++ 35 :: post) = None }.

(** C39: From the files of a strategy the strategy server loads under every schedule of its
    reading threads, interleaved turn by turn, that gives each thread the turns for its walk
    and in which no other thread of a street runs between the test for the missing arrays of
    that street and the end of their initialisation ([lost_values] shows what another schedule does).  When
    the game server then asks for a node with a choice of at most 89 moves and one of its
    buckets, in a message that has at most 505 bytes with its answer, the message it gets back
    holds an answer from which it reads the values of the strategy for that node and bucket.
    The tree file, the value files of every player and street, the key, the request, the message, the answer and its text are composed; the
    JSON parsers are parameters that read the two forms of text. *)
Theorem strategy_served {D} (zero : D) scan_lf fresh g T (σ val : Z → Z → Z → Z → Z) ty H conf f t buckets schedule json rand_of cjson v :
  (∀ n, length (fresh n) = Z.to_nat n) → 0 < NumPlayers g → 0 ≤ MaxStreet g → tree_ok g T → strategy_ok T σ ty H →
  (∀ p st nt a, to_uint (ty st) (σ p st nt a) = Ok (val p st nt a) ∧ is_uint (val p st nt a)) →
  ends (tree_entries ∅ T).1 ≤ INT32_MAX → (∀ u, u ∈ visits T → moves u = [] → x_id (hdr u) < ends (tree_entries ∅ T).1) →
  server_files zero scan_lf fresh g T σ ty H conf f t buckets → schedule_ok zero scan_lf fresh g T conf f schedule →
  parses_answers cjson → FinalVersion conf = Ok v →
  ∃ d, DataModule_Init zero scan_lf fresh conf f schedule DataModule_new = Ok (ERR_OK, d) ∧
  ∀ p st u b version pre r post, inside g p st → u ∈ visits T → want p st u → (length (moves u) ≤ 89)%nat → 0 ≤ b < H st →
    ConvertKeyToRequestStr (key_of p st u b) version = Ok (0, r) → json r = Some (request_of (key_of p st u b) v) → message_ok pre r post →
    (length (query_message pre r post) + length (values_text (bucket_values val p st u b)) ≤ 505)%nat →
    ∃ reply answer, TaskIt conf json rand_of (query_message pre r post) d = Ok (d, Response true reply) ∧
      GetValueBykey reply (bytes "Resp") [35] = Ok answer ∧
      ConvertResponseStrToVals cjson answer (Z.of_nat (length (moves u))) [] = Ok (0, bucket_values val p st u b).
Proof.
  intros Hfr Hnp Hms HT Hσ Hval Hends Hids Hf Hsd Hcj Hv. pose proof (sf_mode _ _ _ _ _ _ _ _ _ _ _ _ Hf) as Hm.
  destruct (DataModule_Init_ok zero scan_lf fresh Hfr g Hnp Hms T HT σ ty H Hσ Hends Hids conf f t buckets schedule Hf Hsd) as (c & E & Hc). eexists. split; [exact E|].
  intros p st u b version pre r post Hi Hu Hw Hk Hb Hr Hj [M1 M2 M3 M4 M5 M6] Hlen.
  assert (nonzero r) as Hrz. { unfold ConvertKeyToRequestStr in Hr. apply bind_Ok_inv in Hr as ([n buf] & _ & Hr). injection Hr as <-. apply cstr_cut. }
  destruct (GetVals_ok g Hms T HT σ val ty H Hσ Hval Hends conf json rand_of cjson c v r p st u b true 0 Hc Hm Hcj Hv Hi Hu Hw Hk Hb ltac:(by rewrite cstr_id) eq_refl) as [Eg Ea].
  assert (Forall is_uint (bucket_values val p st u b)) as Hvals by (apply Forall_fmap, Forall_forall; intros a _; apply Hval).
  pose proof (values_text_without 0 _ ltac:(set_solver) Hvals) as Hz. pose proof (values_text_without 13 _ ltac:(set_solver) Hvals) as Hcr. pose proof (values_text_without 35 _ ltac:(set_solver) Hvals) as Hhash.
  set (answer := values_text (bucket_values val p st u b)) in *. set (line := pre ++ 35 :: bytes "KEY" ++ 61 :: r ++ 35 :: post) in *.
  assert (query_message pre r post = line ++ [35; 13; 10]) as Eq by (unfold query_message, line; rewrite <- !app_assoc; cbn; by rewrite <- !app_assoc).
  assert (nonzero line ∧ 13 ∉ line) as [Hlz Hlc].
  { unfold nonzero, line in *. cbn [bytes]. rewrite !not_elem_of_app in *. destruct M2, M3 as (? & ? & ?).
    split; (split; [done|]); apply not_elem_of_cons; (split; [done|]); apply not_elem_of_app; (split; [apply (bool_decide_unpack _); vm_compute; exact I|]); apply not_elem_of_cons; (split; [done|]);
      apply not_elem_of_app; (split; [done|]); by apply not_elem_of_cons. }
  set (text := line ++ 35 :: bytes "Resp" ++ 61 :: answer ++ [13; 10]).
  assert (length line + length answer + 3 ≤ 505)%nat as Hl by (rewrite Eq, length_app in Hlen; cbn [length] in Hlen; lia).
  destruct (snprintf_cstr 512 511 text) as (buf & Es & Eb); [lia|lia| |].
  { unfold text, nonzero in *. rewrite !not_elem_of_app. split; [done|]. apply not_elem_of_cons. split; [done|]. apply not_elem_of_app. split; [apply (bool_decide_unpack _); vm_compute; exact I|].
    apply not_elem_of_cons. split; [done|]. apply not_elem_of_app. split; [done|]. apply (bool_decide_unpack _); vm_compute; exact I. }
  exists text, answer. split; [|split; [apply GetValueBykey_last; try done; apply (bool_decide_unpack _); vm_compute; exact I|done]].
  unfold TaskIt. rewrite bool_decide_eq_true_2.
  - unfold QueryAction, query_message. rewrite GetValueBykey_field; try done; [|apply (bool_decide_unpack _); vm_compute; exact I]. rewrite bind_ok, Eg, bind_ok.
    fold (query_message pre r post). rewrite Eq, before_cr_ok, cstr_id by done. change (bytes "#Resp=") with (35 :: bytes "Resp" ++ [61]).
    replace (line ++ (35 :: bytes "Resp" ++ [61]) ++ answer ++ [13; 10]) with text by (unfold text; cbn; by rewrite <- !app_assoc).
    rewrite Es, bind_ok, Eb, take_ge; [done|]. unfold text. rewrite length_app. cbn [length]. rewrite length_app. cbn [length]. rewrite length_app. cbn [length]. change (length (bytes "Resp")) with 4%nat. lia.
  - rewrite Eq. unfold line. rewrite <- app_assoc, take_app_le; [done|]. pose proof (f_equal length M1) as L. rewrite length_take in L. change (length (bytes "QUERY_ACTION")) with 12%nat in L. lia.
Qed.

(** ** A strategy for the small game of [ActionTreeThm] *)
Definition kuhn_values (p st nt a : Z) : Z := (10 * p + a + 1) mod 256.
Definition kuhn_holdings (st : Z) : Z := 2.

(** Two schedules.  In the first one the threads take turns but for the test and the
    assignment of the thread of player 0; in the second one both threads test before one of
    them assigns. *)
Definition in_turn (n : nat) : list (Z * Z) := concat (replicate n [(0, 0); (1, 0)]).
Definition kuhn_schedule : list (Z * Z) := [(1, 0); (0, 0); (0, 0)] ++ in_turn 9.
Definition kuhn_race : list (Z * Z) := [(0, 0); (1, 0); (1, 0); (0, 0); (0, 0); (1, 0)] ++ in_turn 9.

Definition no_double (t : list Z) : res (option unit) := Ok None.
Definition zeros (n : Z) : list Z := replicate (Z.to_nat n) 0.
Definition kuhn_boards : PCardTree :=
  match (t ← Create kuhn; CreateLookup kuhn t) with Ok t => t | Err _ => mkTree (λ _, 0) (λ _, []) (λ _ _, []) (λ _ _, []) (λ _, []) (λ _, []) (λ _, 0) None None None end.
Definition kuhn_clusters : ClusterHands := mkClusters [false] [Some [0; 1; 1]] [None] [2].

Definition kuhn_conf : CConf := mkCConf (bytes "cfr") (bytes "static") false (bytes "b1") (bytes "k1") (bytes "v1") [true; false; false; false] [7; 7; 7; 7].
Definition kuhn_files : CfrFiles :=
  mkCfrFiles kuhn_file [bytes "BettingAbstractionName none"] [bytes "CardAbstractionName three"; bytes "Bucketings two"] [bytes "CFRConfigName cfr"]
    (tree_bytes kuhn_tree) (λ _, le_bytes 4 2) (λ _, [0; 0; 1; 0; 1; 0])
    (λ p st t, if decide (t = CFR_CHAR) then Some (strategy_file kuhn_tree kuhn_values (λ _, CFR_CHAR) kuhn_holdings p st) else None).

Lemma kuhn_strategy_ok : strategy_ok kuhn_tree kuhn_values (λ _, CFR_CHAR) kuhn_holdings.
Proof.
  split; [done| |].
  - intros p st u Hu _. apply list_elem_of_In in Hu. cbn in Hu. by repeat destruct Hu as [<-|Hu].
  - intros p st nt a. cbn. apply Z.mod_pos_bound. lia.
Qed.

Lemma kuhn_files_ok : server_files tt no_double zeros kuhn kuhn_tree kuhn_values (λ _, CFR_CHAR) kuhn_holdings kuhn_conf kuhn_files kuhn_boards kuhn_clusters.
Proof.
  split; [done|done| | | | | |done| |done].
  - eexists. split; [vm_compute; reflexivity|]. vm_compute; reflexivity.
  - eexists _, _. split; [vm_compute; reflexivity|]. vm_compute; reflexivity.
  - eexists. split; [vm_compute; reflexivity|]. vm_compute; reflexivity.
  - eexists _, _. split; [vm_compute; reflexivity|]. split; [vm_compute; reflexivity|]. vm_compute; reflexivity.
  - eexists _, _. split; [vm_compute; reflexivity|]. vm_compute; reflexivity.
  - intros st Hst. change (MaxStreet kuhn) with 0 in Hst. assert (st = 0) as -> by lia. left. done.
Qed.

(** Parsers for the two forms of text that are used: an answer, and one request. *)
Definition kuhn_answers (t : list Z) : option (list Z * list Z) :=
  let m := take (length t - 38) (drop 36 t) in
  if bool_decide (t = answer_text (bytes "OK") (bytes "null") m) then Some (bytes "OK", m) else None.
Definition kuhn_version : list Z := bytes "v1(1,0,0,0)".
Definition kuhn_request : list Z := match ConvertKeyToRequestStr (key_of 1 0 kuhn_node 1) ([34] ++ kuhn_version ++ [34]) with Ok (_, r) => r | Err _ => [] end.
Definition kuhn_requests (t : list Z) : option Request := if bool_decide (t = kuhn_request) then Some (request_of (key_of 1 0 kuhn_node 1) kuhn_version) else None.

Lemma kuhn_answers_ok : parses_answers kuhn_answers.
Proof.
  intros t Ht. unfold kuhn_answers. destruct (answer_text_ok t) as [_ L]; [by apply value_list_nonzero|]. rewrite L. replace (38 + length t - 38)%nat with (length t) by lia.
  assert (take (length t) (drop 36 (answer_text (bytes "OK") (bytes "null") t)) = t) as ->; [|by rewrite bool_decide_eq_true_2].
  unfold answer_text. rewrite (cstr_id t) by (by apply value_list_nonzero).
  change (take (length t) (t ++ [34] ++ bytes "}") = t). by rewrite take_app_length.
Qed.

Lemma kuhn_schedule_ok : schedule_ok tt no_double zeros kuhn kuhn_tree kuhn_conf kuhn_files kuhn_schedule.
Proof.
  split.
  - unfold inside. repeat (constructor; [cbn; lia|]). constructor.
  - intros p st [Hp Hst]. change (NumPlayers kuhn) with 2 in Hp. change (MaxStreet kuhn) with 0 in Hst. assert (st = 0) as -> by lia.
    assert (p = 0 ∨ p = 1) as [-> | ->] by lia; vm_compute; lia.
  - intros a c E. vm_compute in E. injection E as <- <-. vm_compute. reflexivity.
Qed.

Lemma strategy_served_witness : ∃ d reply answer,
  DataModule_Init tt no_double zeros kuhn_conf kuhn_files kuhn_schedule DataModule_new = Ok (ERR_OK, d) ∧
  TaskIt kuhn_conf kuhn_requests (λ _, 0) (query_message (bytes "QUERY_ACTION#TransID=7") kuhn_request (bytes "RobotID=5")) d = Ok (d, Response true reply) ∧
  GetValueBykey reply (bytes "Resp") [35] = Ok answer ∧ ConvertResponseStrToVals kuhn_answers answer 2 [] = Ok (0, [13; 14]).
Proof.
  destruct (strategy_served tt no_double zeros kuhn kuhn_tree kuhn_values kuhn_values (λ _, CFR_CHAR) kuhn_holdings kuhn_conf kuhn_files kuhn_boards kuhn_clusters kuhn_schedule
    kuhn_requests (λ _, 0) kuhn_answers kuhn_version) as (d & E & Hd).
  - intros n. apply length_replicate.
  - done.
  - done.
  - apply kuhn_tree_ok.
  - apply kuhn_strategy_ok.
  - intros p st nt a. split; [done|]. pose proof (Z.mod_pos_bound (10 * p + a + 1) 256 eq_refl). unfold is_uint, kuhn_values. lia.
  - vm_compute. discriminate.
  - intros u Hu Hm. apply list_elem_of_In in Hu. cbn in Hu. repeat (destruct Hu as [<-|Hu]; [done|]). done.
  - apply kuhn_files_ok.
  - apply kuhn_schedule_ok.
  - apply kuhn_answers_ok.
  - vm_compute. reflexivity.
  - destruct (Hd 1 0 kuhn_node 1 ([34] ++ kuhn_version ++ [34]) (bytes "QUERY_ACTION#TransID=7") kuhn_request (bytes "RobotID=5")) as (reply & answer & E1 & E2 & E3).
    + split; cbn; lia.
    + right. left.
    + split; [|cbn; lia]. split; [discriminate|split; reflexivity].
    + cbn. lia.
    + unfold kuhn_holdings. lia.
    + vm_compute. reflexivity.
    + vm_compute. reflexivity.
    + split; try (vm_compute; reflexivity); apply (bool_decide_unpack _); vm_compute; exact I.
    + apply (bool_decide_unpack _). vm_compute. exact I.
    + exists d, reply, answer. split; [exact E|]. split; [exact E1|]. split; [exact E2|exact E3].
Defined.

(** The number of successors is the client's: with one that is too large a key is accepted
    whose values lie outside the array of its node. *)
Lemma num_succ_trusted :
  match DataModule_Init tt no_double zeros kuhn_conf kuhn_files kuhn_schedule DataModule_new with
  | Ok (_, mkDM true (Some g) (Some c) _) => CheckKeys g c 0 0 0 0 5 = Ok ERR_OK ∧ strategy_vals c 0 0 0 0 5 = Err OutOfBounds
  | _ => False
  end.
Proof. vm_compute. split; reflexivity. Qed.

(** When the second thread of a street tests for the arrays before the first one assigns
    them, it puts new ones in the place of those that the first one has begun to fill: the
    load still reports success, and a query for a value of player 0 uses a null pointer. *)
Lemma lost_values :
  match DataModule_Init tt no_double zeros kuhn_conf kuhn_files kuhn_race DataModule_new with
  | Ok (flag, mkDM true (Some g) (Some c) _) => flag = ERR_OK ∧ strategy_vals c 0 1 0 0 2 = Ok [11; 12] ∧ CheckKeys g c 0 0 0 0 2 = Ok ERR_OK ∧ strategy_vals c 0 0 0 0 2 = Err OutOfBounds
  | _ => False
  end.
Proof. vm_compute. repeat split; reflexivity. Qed.
